(* ===== verification/_CoqProject ===== *)
-Q . S2P
Prelude.v
ThreadQueueList.v
BitField.v
Results.v
SvcAbi.v
HandleTable.v
PageTable.v
VMManager.v
VMTiles.v
VMFacts.v
VMTheorems.v
CoreTiming.v
TimingFacts.v
ResourceLimit.v
Tls.v
Kernel.v
KernelFacts.v
KernelWakeup.v
KernelOps.v
KernelSystem.v
KernelSched.v
KernelSvc.v
KernelCalls.v
KernelActions.v
KernelTheorems.v
MemoryMap.v
MemoryRegion.v
RegionTheorems.v
GuestMemory.v
GuestFacts.v
GuestTheorems.v
RegionPages.v
ProcessMemory.v
SharedMemory.v
ProcessFacts.v
ProcessOwnership.v
ProcessHeap.v
ProcessTheorems.v
StringUtil.v
CheatCodes.v
CheatRuns.v
CheatTheorems.v
Ipc.v
IpcFacts.v
IpcTheorems.v
ArmSupport.v
ArmState.v
ArmOperands.v
ArmDecode.v
ArmThumb.v
ArmTranslate.v
ArmAlu.v
ArmParallel.v
ArmTransfer.v
ArmVfp.v
ArmFloat.v
ArmFloatOps.v
ArmInterpreter.v
ArmFrame.v
ArmTyping.v
ArmIsolation.v
ArmRun.v
ArmRounding.v
ArmFloatFacts.v
ArmFloatMul.v
ArmFloatAdd.v
ArmFloatDiv.v
ArmFloatEnds.v
ArmBudget.v
ArmReference.v
ArmModes.v
ArmTheorems.v
