(* ===== verification/Prelude.v ===== *)
(** * Verification of the emulation core of Cytrus

    Cytrus emulates a handheld console.  Its core logic is an emulated operating
    system: a kernel with threads, wait objects and handles, scheduled on emulated
    time, and the memory of its processes, which guest programs reach through page
    tables.  This library is a shallow embedding of that logic (the C++ sources
    below src/Core) with the theorems that make it correct.  Paths are relative to
    src/Core; headers are below include/.

    ** How code is modelled

    Machine integers are [Z] values with the wrap-around of their C++ type written
    out ([u32], [s64], ...).  A function that can stop the emulator returns an
    [outcome]: [Stop] names a failed assertion, a null dereference, an access
    out of range or a loop without fuel, and theorems prove [Done].  Result codes are
    values of [Results.Res]; a system call or a memory operation is a function in a
    small monad of state and error codes, in which an early return keeps the
    changes made before it.  Pointers to kernel objects are keys of a heap
    ([gmap]); containers whose order matters are lists.  Libraries that are not in the
    repository are interfaces: boost's interval sets ([Region.IntervalSet] with
    its laws and an instance), the GPU as guest memory sees it ([Guest.Gpu]), the
    callbacks of events.

    ** Parts, in the order of the files

    - [Prelude]: integers, outcomes, tactics and list lemmas shared by all files.
    - [ThreadQueueList] (common/thread_queue_list.h): the ready queue, with the
      chain of priority levels it links through an array.  It refines a table of
      lists, one per priority, for every sequence of calls that keeps the contract.
    - [BitField] (common/bit_field.h), [Results] (core/hle/result.h,
      kernel/errors.h), [SvcAbi] (kernel/svc_wrapper.h, svc.cpp): reading and
      assigning bit fields, error constants against their comments, and the
      assignment of registers to the parameters of system calls, which agrees with
      the calling convention and round-trips.
    - [HandleTable] (kernel/handle_table.cpp): refines a finite map; a closed handle
      stays invalid.
    - [PageTable], [VMManager] (common/memory_ref.h, core/memory.cpp,
      kernel/vm_manager.cpp): host references, page tables and the address space of a
      process.  [VMTiles], [VMFacts] and [VMTheorems] prove the invariant (areas tile
      the space, the page table agrees with them), that each operation acts on
      exactly its range or fails without effect, and which area a mapping above a base address picks.
      [PT.map_pages] is what [MapPages] does to the page table; the whole of it, with the flush it asks
      of the rasterizer first, is [Guest.MapPages] in [GuestMemory].
    - [CoreTiming], [TimingFacts] (core/core_timing.cpp): events, time slices
      and conversions of time.
    - [ResourceLimit], [Tls] (kernel/resource_limit.cpp, process.cpp): counters and slots.
    - [Kernel], [KernelOps], [KernelSvc] (kernel/thread.cpp, wait_object.cpp,
      mutex.cpp, semaphore.cpp, event.cpp, timer.cpp, address_arbiter.cpp, kernel.cpp, svc.cpp): the
      kernel heap, the operations on objects and threads, and the system calls.
      [KernelFacts], [KernelWakeup], [KernelSystem], [KernelSched], [KernelCalls] and
      [KernelActions] prove that every operation keeps the heap well formed;
      [KernelTheorems] states what holds for every history of a running kernel.
    - [MemoryMap], [MemoryRegion], [RegionTheorems], [RegionPages] (core/memory.h,
      kernel/memory.cpp): the address map and the allocator of the FCRAM, whose
      free and used bytes partition each region.
    - [GuestMemory], [GuestFacts], [GuestTheorems] (core/memory.cpp): reads and
      writes of guest memory, blocks, the pages the rasterizer caches, and the flush of a mapping, which leaves all
      memory alone outside the linear heaps, video memory and the plugin's frame buffer ([GF.MapPages_elsewhere]).
    - [ProcessMemory], [SharedMemory] (kernel/process.cpp, memory.cpp,
      shared_memory.cpp, svc.cpp): heap, linear heap, aliases, shared blocks and the system
      calls on memory.  [ProcessFacts] and [ProcessOwnership] relate the address space of
      a process to the FCRAM it holds; [ProcessHeap] proves that commit and free, on the heap and
      on the linear heap, keep that relation, and [ProcessTheorems] that every history of
      [ControlMemory] does.
    - [StringUtil], [CheatCodes] (common/string_util.cpp, core/cheats): the cheats of a game, small
      programs run on the memory of a process, which they see through the interface
      [Cheat.Ram].  [CheatRuns] proves that they end, [CheatTheorems] what their blocks, loops and patches
      do and that saved cheats load again.
    - [Ipc] (core/hle/ipc.h, kernel/ipc.cpp): the translation of a command from the process that
      sends it to the one that receives it.  [IpcFacts] and [IpcTheorems] prove that handles keep their objects
      and that a mapped buffer is lent for the time of a request and given back by the reply.
    - [ArmSupport] to [ArmInterpreter] (core/arm/skyeye_common, core/arm/dyncom): the interpreter of ARM
      code.  [ArmState] is the processor with its banked registers and a memory behind the interface
      [ArmS.Bus]; [ArmDecode], [ArmThumb] and [ArmTranslate] turn words into translated instructions;
      [ArmOperands] has the shifter operands and addressing modes, [ArmAlu], [ArmParallel] and
      [ArmTransfer] the labels of the instructions, [ArmVfp] those of the floating-point unit, whose arithmetic
      is the interface [ArmV.Vfp]; [ArmFloat] and [ArmFloatOps] (vfp/vfpsingle.cpp, vfp/vfpdouble.cpp) implement
      it for both precisions at once.  [ArmInterpreter] has the buffer of translations, the main
      loop and the entry points; system calls are the interface [ArmX.Svc].
    - [ArmFrame] proves that every label respects every frame, a relation of states closed under the updates labels
      make ([ArmF.Frame]), and [ArmRun] that a whole run does.  [ArmTyping], [ArmIsolation] and [ArmBudget] are
      three frames: the type of the processor, what user mode cannot change, and the instructions left.
    - [ArmRounding] says what rounding is, by exact arithmetic on fractions, and what flush-to-zero makes of denormal
      operands and results; [ArmFloatFacts], [ArmFloatMul], [ArmFloatAdd]
      and [ArmFloatDiv] prove the operations against it and [ArmFloatEnds] that all operations of the unit end.
      [ArmReference] states data processing as the architecture does, jumps and the return of the status register
      included, [ArmModes] what a change of mode keeps;
      [ArmTheorems] collects the properties of the interpreter.

    ** Groups of theorems

    Refinements of an abstract specification: the ready queue, the handle table,
    the address space.  Invariants over all histories: the kernel heap, time
    slices, the bytes of a memory region, the page tables under cache marks, the
    memory a process owns, the type of the processor.
    Safety: no assertion fails in any history of kernel calls; closed handles; code in user mode cannot
    touch what is privileged, RFE aside, and what RFE does; translated instructions fit their labels.
    Equivalence with a reference: data processing against the architecture, sums, products and quotients
    of floating-point numbers against exact arithmetic rounded once, in all rounding modes and with flush-to-zero.
    Functional specifications on every branch: scheduling, waking, mutexes with
    priority inheritance, arbiters, waiting, allocators, block transfers, the translation of commands.
    Termination: cheats end, a run of the interpreter ends within its budget, and the loops that run on fuel do ([WakeupAllWaitingThreads], [Advance],
    [PopNextReadyThread], the loops over areas, pages and blocks).  Bounds: conversions of
    time.  Errors and findings: places where the code differs from its comments or
    stops on inputs it should reject.

    ** What the histories leave out

    The histories of the kernel ([Acts.allowed]) name existing objects, wait by the running thread and create threads on cores there are; the one
    system call they narrow is a wait for all objects of a list, which must not name an object twice: there an
    assertion does fail ([KT.duplicate_wait_all_stops]).  The histories of [ControlMemory] ([PrT.permitted]) leave out MAP and
    UNMAP, and the empty linear commits, empty protections and protections past the address space that stop
    the emulator ([PrT.empty_linear_commit_stops], [PrT.empty_protect_stops]).  A stopped thread
    leaves the waiting lists of wait objects but not those of address arbiters.  A word that is
    no instruction stops a run of the interpreter with a fault of its own, [FUndecoded]
    ([ArmTh.undecoded_word_stops]).  The lines of every patch of a cheat exist in [CT.cheat_ends], and a cheat that is saved
    has code in [CT.saved_cheats_load_again].

    ** Fuel

    [walk] in [ThreadQueueList] is given the number of levels, the chain being
    acyclic; [wakeup_loop] the number of waiters, one of which is removed per round;
    [pop_schedulable] the number of queued threads; [advance_loop] the number of
    pending events and those their callbacks push; [range_loop] and [blocks_loop] the
    number of areas; [Cheat.run] the number of lines times one plus the loop counts; [map_loop] and the loops of [GuestMemory] the number of pages;
    [translate_loop] the number of words of the command; [translate_block] the 2048 halfwords of a page;
    [main_loop] more rounds than instructions to execute; [while] in [ArmFloat] 2 ^ 128 steps, counted in binary and
    more than a remainder of two words can take.  The
    theorems show that this is enough: [FFuel] is never the outcome of a well-formed state.

    ** Not modelled

    Log output, names, serialization and the debugger hooks of the modelled parts;
    destruction of kernel objects when their last handle closes; the plugin loader.
    What the flush of [MapPages] writes when an address space is changed while the emulator runs: the operations of
    [VMManager], [ProcessMemory] and [Ipc] use [PT.map_pages], so their theorems say what the page tables and the
    memory are but for surfaces the rasterizer writes back.  It can only write below a linear heap, video memory or the frame
    buffer of a plugin (which lies in the area for mapped buffers of requests); theorems on the bytes of memory
    that is mapped are stated for the heap, and for mapped buffers when no plugin is loaded.
    Of the interpreter the debugger hooks and breakpoints, of its floating-point unit the log output; shifts of the
    host by 32 or more, undefined in C++, are those of its processor.
    Sessions and ports, the HLE services, file systems, loaders, the GPU, audio and the front end are separate
    subsystems of this repository that are not modelled.  The recompiler, cryptographic primitives, compression and host graphics
    are third-party code the sources only call. *)
From stdpp Require Export base tactics option list numbers gmap sorting.
From Stdlib Require Export ZArith Lia.

Open Scope Z_scope.

Declare Scope cytrus_scope.
Delimit Scope cytrus_scope with cytrus.
Open Scope cytrus_scope.

(** ** Machine integers *)

(** Unsigned and signed integers are [Z] values; arithmetic that can leave the
    width is written with the wrap of its C++ type. *)
Definition wrap (w : Z) (z : Z) : Z := z `mod` 2 ^ w.
Definition u8 (z : Z) : Z := wrap 8 z.
Definition u16 (z : Z) : Z := wrap 16 z.
Definition u32 (z : Z) : Z := wrap 32 z.
Definition u64 (z : Z) : Z := wrap 64 z.

Definition swrap (w : Z) (z : Z) : Z := (z + 2 ^ (w - 1)) `mod` 2 ^ w - 2 ^ (w - 1).
Definition s8 (z : Z) : Z := swrap 8 z.
Definition s16 (z : Z) : Z := swrap 16 z.
Definition s32 (z : Z) : Z := swrap 32 z.
Definition s64 (z : Z) : Z := swrap 64 z.

#[global] Arguments wrap : simpl never.
#[global] Arguments swrap : simpl never.
#[global] Arguments u8 : simpl never.
#[global] Arguments u16 : simpl never.
#[global] Arguments u32 : simpl never.
#[global] Arguments u64 : simpl never.
#[global] Arguments s8 : simpl never.
#[global] Arguments s16 : simpl never.
#[global] Arguments s32 : simpl never.
#[global] Arguments s64 : simpl never.
#[global] Arguments Z.to_nat : simpl never.
#[global] Arguments Z.pow : simpl never.
#[global] Arguments Z.mul : simpl never.
#[global] Arguments Z.div : simpl never.
#[global] Arguments Z.modulo : simpl never.
#[global] Arguments Z.land : simpl never.
#[global] Arguments Z.lor : simpl never.
#[global] Arguments Z.shiftl : simpl never.
#[global] Arguments Z.shiftr : simpl never.

Ltac zwrap := unfold u8, u16, u32, u64, s8, s16, s32, s64, wrap, swrap in *;
  repeat match goal with
  | |- context [2 ^ ?w] => let v := eval vm_compute in (2 ^ w) in
                          progress change (2 ^ w) with v
  | H : context [2 ^ ?w] |- _ => let v := eval vm_compute in (2 ^ w) in
                                 progress change (2 ^ w) with v in H
  end.

(** [zdm] closes linear goals that mention [/] and [mod] by constants. *)
Ltac zdm := zwrap; Z.div_mod_to_equations; lia.

Lemma wrap_range w z : 0 <= w -> 0 <= wrap w z < 2 ^ w.
Proof. intros. apply Z.mod_pos_bound. lia. Qed.

Lemma u32_range z : 0 <= u32 z < 2 ^ 32.
Proof. by apply wrap_range. Qed.

Lemma u32_small z : 0 <= z < 2 ^ 32 -> u32 z = z.
Proof. apply Z.mod_small. Qed.

Lemma u16_small z : 0 <= z < 2 ^ 16 -> u16 z = z.
Proof. apply Z.mod_small. Qed.

Lemma u64_small z : 0 <= z < 2 ^ 64 -> u64 z = z.
Proof. apply Z.mod_small. Qed.

Lemma s64_small z : - 2 ^ 63 <= z < 2 ^ 63 -> s64 z = z.
Proof. intros. zdm. Qed.

Lemma s32_small z : - 2 ^ 31 <= z < 2 ^ 31 -> s32 z = z.
Proof. intros. zdm. Qed.

(** Fields packed side by side: [or] is addition. *)
Lemma lor_shiftl_add k g s : 0 <= k -> 0 <= g < 2 ^ k -> Z.lor g (Z.shiftl s k) = g + s * 2 ^ k.
Proof.
  intros Hk Hg. rewrite <- Z.shiftl_mul_pow2 by lia. symmetry. apply Z.add_nocarry_lor.
  apply Z.bits_inj'. intros i Hi. rewrite Z.land_spec, Z.bits_0, Z.shiftl_spec by lia.
  destruct (Z.ltb_spec i k).
  - rewrite (Z.testbit_neg_r s) by lia. apply andb_false_r.
  - rewrite <- (Z.mod_small g (2 ^ k)), Z.mod_pow2_bits_high by lia. done.
Qed.

(** ** Outcomes

    A C++ function either returns ([Done]) or the emulator stops at the point
    named by the [fault]: a failed [ASSERT] or [UNREACHABLE] (both call
    [Crash()], see [common/assert.h]), the dereference of a null or tagged
    pointer, an access outside a container, the use of a variable that was never
    set ([FUndecoded] when it is the label of a word that is no instruction), or a loop that exceeds the fuel of its model.  Theorems prove [Done]; [FFuel] is never the outcome of a
    well-formed state. *)
Inductive fault :=
| FAssert
| FUnreachable
| FNullDeref
| FOutOfRange
| FUninitialized
| FUndecoded
| FFuel.

Inductive outcome (A : Type) :=
| Done (a : A)
| Stop (f : fault).
Arguments Done {A} a.
Arguments Stop {A} f.

#[global] Instance fault_eq_dec : EqDecision fault.
Proof. solve_decision. Defined.
#[global] Instance outcome_eq_dec `{EqDecision A} : EqDecision (outcome A).
Proof. solve_decision. Defined.

#[global] Instance outcome_ret : MRet outcome := fun A a => Done a.
#[global] Instance outcome_bind : MBind outcome := fun A B k m =>
  match m with Done a => k a | Stop f => Stop f end.
#[global] Instance outcome_fmap : FMap outcome := fun A B g m =>
  match m with Done a => Done (g a) | Stop f => Stop f end.

Definition assert_ (b : bool) : outcome unit := if b then Done tt else Stop FAssert.
Definition of_opt {A} (f : fault) (o : option A) : outcome A :=
  match o with Some a => Done a | None => Stop f end.

Lemma outcome_bind_done {A B} (m : outcome A) (k : A -> outcome B) b :
  m ≫= k = Done b -> exists a, m = Done a /\ k a = Done b.
Proof. destruct m; [eauto | discriminate]. Qed.

Lemma Done_inj {A} (a b : A) : Done a = Done b -> a = b.
Proof. by injection 1. Qed.

Lemma assert_done b u : assert_ b = Done u -> b = true.
Proof. by destruct b. Qed.

Lemma of_opt_done {A} f (o : option A) a : of_opt f o = Done a -> o = Some a.
Proof. destruct o; simpl; congruence. Qed.

(** Peel the binds of an equation [... = Done _] in the context. *)
Ltac done_inv :=
  repeat match goal with
  | H : _ ≫= _ = Done _ |- _ =>
      let a := fresh "a" in let Ha := fresh "Hd" in
      apply outcome_bind_done in H as (a & Ha & H)
  | H : assert_ _ = Done _ |- _ => apply assert_done in H
  | H : of_opt _ _ = Done _ |- _ => apply of_opt_done in H
  | H : mret _ = Done _ |- _ => apply Done_inj in H
  | H : Done _ = Done _ |- _ => apply Done_inj in H
  | H : Stop _ = Done _ |- _ => discriminate H
  end.

(** Case analysis on every boolean test of the goal, turning comparisons into
    facts [lia] can use. *)
Ltac btests :=
  repeat match goal with
  | |- context [?a =? ?b] => destruct (Z.eqb_spec a b); simpl
  | |- context [?a <? ?b] => destruct (Z.ltb_spec a b); simpl
  | |- context [?a <=? ?b] => destruct (Z.leb_spec a b); simpl
  end.

Ltac btests_in H :=
  repeat match type of H with
  | context [?a =? ?b] => destruct (Z.eqb_spec a b); simpl in H
  | context [?a <? ?b] => destruct (Z.ltb_spec a b); simpl in H
  | context [?a <=? ?b] => destruct (Z.leb_spec a b); simpl in H
  end.

(** ** Lists *)

Create HintDb cytrus.

Lemma lookup_insert_split {A} (l : list A) i j x y :
  <[i := x]> l !! j = Some y -> (i = j /\ y = x /\ (i < length l)%nat) \/ (i ≠ j /\ l !! j = Some y).
Proof. rewrite list_lookup_insert_Some. naive_solver. Qed.

Lemma in_range_lookup {A} (l : list A) i : (i < length l)%nat -> exists x, l !! i = Some x.
Proof. apply lookup_lt_is_Some_2. Qed.

Lemma filter_none {A} (P : A -> Prop) `{forall x, Decision (P x)} (l : list A) :
  (forall x, x ∈ l -> ~ P x) -> filter P l = [].
Proof.
  induction l as [|a l IH]; intros Hl; [done|].
  rewrite filter_cons_False; [apply IH|]; set_solver.
Qed.

Lemma filter_all {A} (P : A -> Prop) `{forall x, Decision (P x)} (l : list A) :
  (forall x, x ∈ l -> P x) -> filter P l = l.
Proof.
  induction l as [|a l IH]; intros Hl; [done|].
  rewrite filter_cons_True by set_solver. f_equal. apply IH. set_solver.
Qed.
