(* ===== verification/ThreadQueueList.v ===== *)
(** * Multi-level ready queue

    Model of [Common::ThreadQueueList<T, N>] (include/common/thread_queue_list.h),
    the container of the scheduler's ready threads: one double-ended queue per
    priority and an intrusive singly linked list through the priority levels
    that were ever used.  [first] and [next_nonempty] are pointers into the
    array [queues], null, or the tag [UnlinkedTag()]; pointer values and the
    address comparison of [pop_first_better] are kept. *)
From S2P Require Import Prelude.

Module Tql.

(** [Queue*]: null, [reinterpret_cast<Queue*>(1)], or [&queues[i]]. *)
Inductive link := Null | Unlinked | To (i : nat).

#[global] Instance link_eq_dec : EqDecision link.
Proof. solve_decision. Defined.

Section Queue.
Context {T : Type} `{EqDecision T}.

Record queue := mk_queue { next_nonempty : link; data : list T }.
Record tql := mk_tql { first : link; queues : list queue }.

Definition NUM_QUEUES (q : tql) : nat := length (queues q).

(** The constructor: [N] queues, none of them linked. *)
Definition init (n : nat) : tql := mk_tql Null (replicate n (mk_queue Unlinked [])).

(** [&queues[priority]] used as an object: outside the array is undefined. *)
Definition at_ (qs : list queue) (p : nat) : outcome queue := of_opt FOutOfRange (qs !! p).

(** Dereferencing a [Queue*]. *)
Definition deref (qs : list queue) (l : link) : outcome (nat * queue) :=
  match l with
  | To i => (fun q => (i, q)) <$> at_ qs i
  | Null | Unlinked => Stop FNullDeref
  end.

(** The loops of [get_first], [pop_first] and [pop_first_better]: walk the
    links while [guard cur] and stop at the first level with a thread. *)
Fixpoint walk (fuel : nat) (guard : link -> bool) (qs : list queue) (cur : link)
  : outcome (option nat) :=
  if guard cur then
    match fuel with
    | O => Stop FFuel
    | S fuel =>
        '(i, q) ← deref qs cur;
        match data q with
        | _ :: _ => Done (Some i)
        | [] => walk fuel guard qs (next_nonempty q)
        end
    end
  else Done None.

(** [cur != nullptr] *)
Definition not_null (l : link) : bool := match l with Null => false | _ => true end.

(** [cur < stop] with [stop = &queues[p]]: null and the tag are low addresses. *)
Definition below (p : nat) (l : link) : bool :=
  match l with Null | Unlinked => true | To i => (i <? p)%nat end.

Definition set_data (qs : list queue) (p : nat) (d : list T) : list queue :=
  alter (fun q => mk_queue (next_nonempty q) d) p qs.
Definition set_next (qs : list queue) (p : nat) (l : link) : list queue :=
  alter (fun q => mk_queue l (data q)) p qs.

Definition fuel_of (q : tql) : nat := S (NUM_QUEUES q).

Definition get_first (q : tql) : outcome (option T) :=
  r ← walk (fuel_of q) not_null (queues q) (first q);
  match r with
  | None => Done None
  | Some i => qu ← at_ (queues q) i; Done (head (data qu))
  end.

(** Remove and return the front thread of the level the walk found. *)
Definition pop_front_at (q : tql) (r : option nat) : outcome (option T * tql) :=
  match r with
  | None => Done (None, q)
  | Some i =>
      qu ← at_ (queues q) i;
      match data qu with
      | [] => Stop FOutOfRange
      | x :: d => Done (Some x, mk_tql (first q) (set_data (queues q) i d))
      end
  end.

Definition pop_first (q : tql) : outcome (option T * tql) :=
  r ← walk (fuel_of q) not_null (queues q) (first q); pop_front_at q r.

Definition pop_first_better (p : nat) (q : tql) : outcome (option T * tql) :=
  r ← walk (fuel_of q) (below p) (queues q) (first q); pop_front_at q r.

Definition push_front (p : nat) (x : T) (q : tql) : outcome tql :=
  qu ← at_ (queues q) p; Done (mk_tql (first q) (set_data (queues q) p (x :: data qu))).

Definition push_back (p : nat) (x : T) (q : tql) : outcome tql :=
  qu ← at_ (queues q) p; Done (mk_tql (first q) (set_data (queues q) p (data qu ++ [x]))).

(** [std::remove] and [erase]: every occurrence of the thread goes. *)
Definition remove (p : nat) (x : T) (q : tql) : outcome tql :=
  qu ← at_ (queues q) p;
  Done (mk_tql (first q) (set_data (queues q) p (filter (fun y => y ≠ x) (data qu)))).

Definition rotate (p : nat) (q : tql) : outcome tql :=
  qu ← at_ (queues q) p;
  match data qu with
  | x :: y :: d => Done (mk_tql (first q) (set_data (queues q) p ((y :: d) ++ [x])))
  | _ => Done q
  end.

Definition empty (p : nat) (q : tql) : outcome bool :=
  qu ← at_ (queues q) p; Done (match data qu with [] => true | _ => false end).

Definition clear (q : tql) : tql := init (NUM_QUEUES q).

(** [for (int i = priority - 1; i >= 0; --i)]: [i] counts the levels left. *)
Fixpoint link_from (i : nat) (p : nat) (q : tql) : outcome tql :=
  match i with
  | O => Done (mk_tql (To p) (set_next (queues q) p (first q)))
  | S i =>
      qu ← at_ (queues q) i;
      match next_nonempty qu with
      | Unlinked => link_from i p q
      | l => Done (mk_tql (first q) (set_next (set_next (queues q) p l) i (To p)))
      end
  end.

Definition prepare (p : nat) (q : tql) : outcome tql :=
  qu ← at_ (queues q) p;
  match next_nonempty qu with
  | Unlinked => link_from p p q
  | _ => Done q
  end.

Definition move (x : T) (old new : nat) (q : tql) : outcome tql :=
  q ← remove old x q; q ← prepare new q; push_back new x q.

(** [contains]: the level of a thread, or [-1] as [unsigned int]. *)
Fixpoint contains_from (i : Z) (qs : list queue) (x : T) : Z :=
  match qs with
  | [] => u32 (-1)
  | qu :: qs => if bool_decide (x ∈ data qu) then i else contains_from (i + 1) qs x
  end.
Definition contains (x : T) (q : tql) : Z := contains_from 0 (queues q) x.

(** ** Specification: a table of lists, one per priority *)

(** The links from [l] visit exactly the levels [ls], in order. *)
Fixpoint chain (qs : list queue) (l : link) (ls : list nat) : Prop :=
  match ls with
  | [] => l = Null
  | i :: ls => l = To i /\ exists q, qs !! i = Some q /\ chain qs (next_nonempty q) ls
  end.

(** The levels in use are linked in increasing order, and only they are. *)
Record wf (q : tql) (ls : list nat) : Prop := {
  wf_chain : chain (queues q) (first q) ls;
  wf_sorted : StronglySorted Nat.lt ls;
  wf_linked : forall i qu, queues q !! i = Some qu -> (next_nonempty qu ≠ Unlinked <-> i ∈ ls);
}.

(** Threads are only in linked levels, so every thread can be found. *)
Definition covered (q : tql) : Prop :=
  forall i qu, queues q !! i = Some qu -> data qu ≠ [] -> next_nonempty qu ≠ Unlinked.

Definition ready (q : tql) : Prop := (exists ls, wf q ls) /\ covered q.

(** The abstract state: the threads of each level. *)
Definition table (q : tql) : list (list T) := data <$> queues q.

Definition is_linked (p : nat) (q : tql) : Prop :=
  exists qu, queues q !! p = Some qu /\ next_nonempty qu ≠ Unlinked.

(** First element of the first non-empty list. *)
Fixpoint spec_first (t : list (list T)) : option T :=
  match t with
  | [] => None
  | [] :: t => spec_first t
  | (x :: _) :: _ => Some x
  end.

Fixpoint spec_pop (t : list (list T)) : option T * list (list T) :=
  match t with
  | [] => (None, [])
  | [] :: t => let '(r, t') := spec_pop t in (r, [] :: t')
  | (x :: d) :: t => (Some x, d :: t)
  end.

(** ** The chain of levels *)

(** The first level of [ls] that holds a thread. *)
Fixpoint first_busy (qs : list queue) (ls : list nat) : option nat :=
  match ls with
  | [] => None
  | i :: ls =>
      match qs !! i with
      | Some qu => match data qu with [] => first_busy qs ls | _ => Some i end
      | None => None
      end
  end.

Lemma walk_not_null qs ls : forall fuel l,
  chain qs l ls -> (length ls < fuel)%nat ->
  walk fuel not_null qs l = Done (first_busy qs ls).
Proof.
  induction ls as [|i ls IH]; intros fuel l; simpl.
  - intros -> _. by destruct fuel.
  - intros (-> & qu & Hi & Hc) Hf. destruct fuel as [|fuel]; [lia|]. simpl.
    unfold at_. rewrite Hi. simpl. destruct (data qu); [|done].
    apply IH; [done | lia].
Qed.

Lemma walk_below qs p ls : forall fuel l,
  chain qs l ls -> StronglySorted Nat.lt ls -> p ∈ ls -> (length ls < fuel)%nat ->
  walk fuel (below p) qs l = Done (first_busy qs (filter (fun i => (i < p)%nat) ls)).
Proof.
  induction ls as [|i ls IH]; intros fuel l; simpl; [set_solver|].
  intros (-> & qu & Hi & Hc) [Hs Hf]%StronglySorted_inv Hp Hlen.
  destruct fuel as [|fuel]; [lia|]. simpl.
  destruct (Nat.ltb_spec i p) as [Hip|Hip].
  - rewrite filter_cons_True by done. simpl. unfold at_. rewrite Hi. simpl.
    destruct (data qu); [|done]. apply IH; try done; [|lia].
    apply elem_of_cons in Hp as [->|]; [lia|done].
  - rewrite filter_cons_False by lia.
    rewrite filter_none; [done|]. intros x Hx. rewrite Forall_forall in Hf.
    specialize (Hf x Hx). unfold Nat.lt in Hf. lia.
Qed.

Lemma chain_set_data qs i d ls : forall l, chain qs l ls -> chain (set_data qs i d) l ls.
Proof.
  induction ls as [|j ls IH]; intros l; simpl; [done|].
  intros (-> & qu & Hj & Hc). split; [done|].
  unfold set_data. destruct (decide (i = j)) as [->|Hij];
    [rewrite list_lookup_alter_eq, Hj | rewrite list_lookup_alter_ne, Hj by done].
  - exists (mk_queue (next_nonempty qu) d). split; [done | by apply IH].
  - exists qu. split; [done | by apply IH].
Qed.

Lemma chain_set_next qs i l' ls : forall l,
  chain qs l ls -> i ∉ ls -> chain (set_next qs i l') l ls.
Proof.
  induction ls as [|j ls IH]; intros l; simpl; [done|].
  intros (-> & qu & Hj & Hc) [Hij Hn]%not_elem_of_cons. split; [done|].
  unfold set_next. rewrite list_lookup_alter_ne by done. eauto.
Qed.

(** Splicing level [p] in after [i]. *)
Lemma chain_splice qs p i l2 : forall l1 l,
  chain qs l (l1 ++ i :: l2) -> NoDup (l1 ++ i :: l2) -> p ∉ l1 ++ i :: l2 ->
  (p < length qs)%nat ->
  exists qi, qs !! i = Some qi /\
    chain (set_next (set_next qs p (next_nonempty qi)) i (To p)) l (l1 ++ i :: p :: l2).
Proof.
  induction l1 as [|j l1 IH]; intros l; simpl.
  - intros (-> & qi & Hi & Hc) Hnd Hp Hlen. exists qi. split; [done|]. split; [done|].
    apply NoDup_cons in Hnd as [Hi2 _]. apply not_elem_of_cons in Hp as [Hpi Hp2].
    unfold set_next at 1. rewrite list_lookup_alter_eq.
    unfold set_next at 1. rewrite list_lookup_alter_ne, Hi by done. simpl.
    eexists; split; [done|]. simpl. split; [done|].
    destruct (in_range_lookup qs p Hlen) as [qp Hqp].
    unfold set_next at 1. rewrite list_lookup_alter_ne by done.
    unfold set_next at 1. rewrite list_lookup_alter_eq, Hqp. simpl.
    eexists; split; [done|]. simpl.
    apply chain_set_next; [by apply chain_set_next | done].
  - intros (-> & qj & Hj & Hc) [Hjn Hnd]%NoDup_cons [Hpj Hp]%not_elem_of_cons Hlen.
    destruct (IH _ Hc Hnd Hp Hlen) as (qi & Hi & Hc'). exists qi. split; [done|].
    split; [done|]. exists qj. split; [|done].
    unfold set_next. rewrite !list_lookup_alter_ne by set_solver. done.
Qed.

Lemma sorted_NoDup ls : StronglySorted Nat.lt ls -> NoDup ls.
Proof.
  induction 1 as [|i ls Hs IH Hf]; [constructor|]. constructor; [|done].
  rewrite Forall_forall in Hf. intros Hi. specialize (Hf i Hi). unfold Nat.lt in Hf. lia.
Qed.

Lemma sorted_cut p ls :
  StronglySorted Nat.lt ls -> p ∉ ls ->
  exists l1 l2, ls = l1 ++ l2 /\ (forall i, i ∈ l1 -> (i < p)%nat) /\
    (forall i, i ∈ l2 -> (p < i)%nat).
Proof.
  induction 1 as [|i ls Hs IH Hf]; intros Hp; [by exists [], []; set_solver|].
  apply not_elem_of_cons in Hp as [Hpi Hp]. destruct (IH Hp) as (l1 & l2 & -> & H1 & H2).
  destruct (decide (i < p)%nat).
  - exists (i :: l1), l2. split_and!; [done | set_solver | done].
  - exists [], (i :: l1 ++ l2). split_and!; [done | set_solver |].
    rewrite Forall_forall in Hf. intros j [->|Hj]%elem_of_cons; [lia|].
    specialize (Hf j Hj). unfold Nat.lt in Hf. lia.
Qed.

Lemma set_next_length qs i l : length (set_next qs i l) = length qs.
Proof. apply length_alter. Qed.
Lemma set_data_length qs i d : length (set_data qs i d) = length qs.
Proof. apply length_alter. Qed.

Lemma table_set_next qs i l : data <$> set_next qs i l = data <$> qs.
Proof.
  unfold set_next. apply list_eq. intros j. rewrite !list_lookup_fmap, list_lookup_alter.
  case_decide; [subst|done]. by destruct (qs !! j).
Qed.

Lemma table_set_data qs i d :
  data <$> set_data qs i d = <[i := d]> (data <$> qs).
Proof.
  unfold set_data. apply list_eq. intros j.
  rewrite !list_lookup_fmap, list_lookup_alter.
  case_decide as Hij; [subst j|].
  - destruct (qs !! i) as [qu|] eqn:E; simpl.
    + rewrite list_lookup_insert_eq; [done|]. rewrite length_fmap. by eapply lookup_lt_Some.
    + rewrite list_insert_ge; [by rewrite list_lookup_fmap, E|].
      rewrite length_fmap. by apply lookup_ge_None.
  - rewrite list_lookup_insert_ne by done. by rewrite list_lookup_fmap.
Qed.

Lemma lookup_set_next qs i l j qu :
  set_next qs i l !! j = Some qu ->
  (i = j /\ next_nonempty qu = l) \/ (i ≠ j /\ qs !! j = Some qu).
Proof.
  unfold set_next. rewrite list_lookup_alter. case_decide; [|auto].
  destruct (qs !! i); simpl; intros; simplify_eq/=. auto.
Qed.

Lemma lookup_set_data qs i d j qu :
  set_data qs i d !! j = Some qu ->
  exists qu', qs !! j = Some qu' /\ next_nonempty qu' = next_nonempty qu /\
    data qu = if decide (i = j) then d else data qu'.
Proof.
  unfold set_data. rewrite list_lookup_alter. case_decide; subst; [|eauto].
  destruct (qs !! j) eqn:E; simpl; intros; simplify_eq/=. eauto.
Qed.

Lemma wf_set_data q ls i d :
  wf q ls -> wf (mk_tql (first q) (set_data (queues q) i d)) ls.
Proof.
  intros [Hc Hs Hl]. split; simpl; [by apply chain_set_data | done |].
  intros j qu Hj. apply lookup_set_data in Hj as (qu' & Hj & <- & _). by apply Hl.
Qed.

(** Inserting a new level anywhere in the chain keeps the links right. *)
Lemma link_from_wf q p ls : forall i,
  wf q ls -> (p < NUM_QUEUES q)%nat -> p ∉ ls -> (i <= p)%nat ->
  (forall j, (i <= j < p)%nat -> j ∉ ls) ->
  exists q' ls', link_from i p q = Done q' /\ table q' = table q /\ wf q' ls' /\
    (forall j, j ∈ ls' <-> j = p \/ j ∈ ls).
Proof.
  intros i [Hc Hs Hl] Hp Hpl. induction i as [|i IH]; intros Hip Hgap; simpl.
  - eexists _, (p :: ls). split_and!; [done | apply table_set_next | split; simpl | set_solver].
    + split; [done|]. destruct (in_range_lookup _ _ Hp) as [qp Hqp].
      exists (mk_queue (first q) (data qp)). split; [|by apply chain_set_next].
      unfold set_next. by rewrite list_lookup_alter_eq, Hqp.
    + constructor; [done|]. apply Forall_forall. intros j Hj.
      destruct (decide (j = p)) as [->|]; [done|].
      destruct (decide (j < p)%nat); [exfalso; apply (Hgap j); [lia | done] | unfold Nat.lt; lia].
    + intros j qu [[<- ->]|[Hne Hj]]%lookup_set_next; [|rewrite Hl by done; set_solver].
      split; [set_solver|]. intros _. destruct ls as [|k ls]; simpl in Hc; [congruence|].
      destruct Hc as [-> _]. congruence.
  - destruct (in_range_lookup (queues q) i) as [qi Hi]; [unfold NUM_QUEUES in *; lia|].
    unfold at_. rewrite Hi. simpl. destruct (decide (next_nonempty qi = Unlinked)) as [Hu|Hu].
    { rewrite Hu. apply IH; [lia|]. intros j Hj. destruct (decide (i = j)) as [->|].
      - rewrite <- Hl by done. naive_solver.
      - apply Hgap. lia. }
    assert (i ∈ ls) as Hils by (by apply (Hl i qi)).
    destruct (sorted_cut p ls Hs Hpl) as (l1 & l2 & -> & H1 & H2).
    apply elem_of_app in Hils as [Hi1|Hi2]; [|specialize (H2 i Hi2); lia].
    apply list_elem_of_split in Hi1 as (a & b & ->).
    assert (b = []) as ->.
    { destruct b as [|k b]; [done|]. exfalso. apply (Hgap k); [|set_solver].
      split; [|apply H1; set_solver].
      assert (Nat.lt i k); [|unfold Nat.lt in *; lia].
      apply (StronglySorted_app_1_elem_of Nat.lt (a ++ [i]) (k :: b ++ l2)); [|set_solver..].
      revert Hs. by rewrite <- !(assoc_L (++)). }
    rewrite <- (assoc_L (++)) in *. simpl in *.
    destruct (chain_splice _ p i l2 a _ Hc) as (qi' & Hi' & Hc');
      [by apply sorted_NoDup | set_solver | done |]. simplify_eq.
    eexists (mk_tql (first q) (set_next (set_next (queues q) p (next_nonempty qi)) i (To p))),
      (a ++ i :: p :: l2).
    split_and!; [by destruct (next_nonempty qi) | | split; simpl; [done| |] | set_solver].
    + unfold table. simpl. by rewrite !table_set_next.
    + apply StronglySorted_app in Hs as (Ha & Hs1 & Hs2).
      apply StronglySorted_inv in Hs2 as [Hs2 Hf2]. rewrite Forall_forall in Hf2.
      apply StronglySorted_app. split_and!; [|done|].
      * intros x y Hx Hy. unfold Nat.lt in *.
        assert (S x <= i)%nat by (apply Ha; set_solver).
        assert (i < p)%nat by (apply H1; set_solver).
        rewrite !elem_of_cons in Hy. destruct Hy as [->|[->|Hy]]; [lia..|].
        specialize (H2 y Hy). lia.
      * constructor; [constructor; [done|]|]; apply Forall_forall.
        -- intros y Hy. specialize (H2 y Hy). unfold Nat.lt. lia.
        -- intros y [->|Hy]%elem_of_cons; [|by apply Hf2].
           unfold Nat.lt. assert (i < p)%nat; [apply H1; set_solver|lia].
    + intros j qu [[<- ->]|[Hne Hj]]%lookup_set_next; [set_solver|].
      apply lookup_set_next in Hj as [[<- ->]|[Hnp Hj]]; [set_solver|].
      rewrite (Hl j qu) by done. set_solver.
Qed.

(** ** Least busy level *)

Definition busy (t : list (list T)) (i : nat) : Prop := exists x d, t !! i = Some (x :: d).

Definition least_busy (t : list (list T)) (n : nat) (r : option nat) : Prop :=
  match r with
  | None => forall i, (i < n)%nat -> ~ busy t i
  | Some i => busy t i /\ (i < n)%nat /\ forall j, (j < i)%nat -> ~ busy t j
  end.

Lemma busy_table q i :
  busy (table q) i <-> exists qu, queues q !! i = Some qu /\ data qu ≠ [].
Proof.
  unfold busy, table. setoid_rewrite list_lookup_fmap. split.
  - intros (x & d & Hi). destruct (queues q !! i) as [qu|]; [|done].
    exists qu. simplify_eq/=. split; [done|congruence].
  - intros (qu & -> & Hd). simpl. destruct (data qu) as [|x d]; [done|]. by exists x, d.
Qed.

Lemma first_busy_least q ls n :
  wf q ls -> covered q -> (n <= NUM_QUEUES q)%nat ->
  least_busy (table q) n (first_busy (queues q) (filter (fun i => (i < n)%nat) ls)).
Proof.
  intros Hwf Hcov Hn.
  assert (forall i, busy (table q) i -> i ∈ ls) as Hall.
  { intros i (qu & Hi & Hd)%busy_table. apply (wf_linked _ _ Hwf i qu Hi). by eapply Hcov. }
  assert (forall i, i ∈ ls -> exists qu, queues q !! i = Some qu) as Hin.
  { pose proof (wf_chain _ _ Hwf) as Hc. clear -Hc. revert Hc. generalize (first q).
    induction ls as [|k ls IH]; simpl; [set_solver|].
    intros l (-> & qk & Hk & Hc) i [->|Hi]%elem_of_cons; eauto. }
  pose proof (wf_sorted _ _ Hwf) as Hs. clear Hwf.
  assert (forall i, (i < n)%nat -> busy (table q) i -> i ∈ ls) as Hall' by auto.
  assert (forall i, (i < n)%nat -> i ∈ ls -> exists qu, queues q !! i = Some qu) as Hin' by auto.
  clear Hall Hin. induction Hs as [|k ls Hs IH Hf].
  - simpl. intros i Hi Hb. specialize (Hall' i Hi Hb). set_solver.
  - destruct (decide (k < n)%nat) as [Hk|Hk].
    + rewrite filter_cons_True by done. simpl.
      destruct (Hin' k Hk) as [qk Hqk]; [set_solver|]. rewrite Hqk.
      destruct (data qk) as [|x d] eqn:Ed.
      * apply IH; intros i Hi; [|set_solver]. intros Hb.
        specialize (Hall' i Hi Hb). apply elem_of_cons in Hall' as [->|]; [|done].
        exfalso. apply busy_table in Hb as (qu & Hqu & Hd). naive_solver.
      * unfold least_busy. split_and!; [apply busy_table; exists qk; by rewrite Ed | done |].
        intros j Hj Hb. assert (j ∈ k :: ls) as Hm by (apply Hall'; [lia|done]).
        apply elem_of_cons in Hm as [->|Hm]; [lia|].
        rewrite Forall_forall in Hf. specialize (Hf j Hm). unfold Nat.lt in Hf. lia.
    + rewrite filter_cons_False by done. apply IH; intros i Hi; [|set_solver].
      intros Hb. specialize (Hall' i Hi Hb). apply elem_of_cons in Hall' as [->|]; [lia|done].
Qed.

(** The specification's scan finds the same thread. *)
Lemma spec_pop_least t : forall n r,
  (n <= length t)%nat -> least_busy t n r ->
  let '(x, t') := spec_pop (take n t) in
  match r with
  | None => x = None /\ t' ++ drop n t = t
  | Some i => exists y d, t !! i = Some (y :: d) /\ x = Some y /\ t' ++ drop n t = <[i := d]> t
  end.
Proof.
  induction t as [|l t IH]; intros n r Hn Hl; simpl in Hn.
  - assert (n = 0)%nat as -> by lia. simpl. destruct r as [i|]; [|done].
    destruct Hl as (? & ? & ?). lia.
  - destruct n as [|n]; simpl.
    { destruct r as [i|]; [|done]. destruct Hl as (? & ? & ?). lia. }
    destruct l as [|x d]; simpl.
    + assert (least_busy t n (pred <$> r)) as Hl'.
      { destruct r as [i|]; simpl in *.
        - destruct Hl as ((y & d & Hi) & Hin & Hlt). destruct i as [|i]; [done|]. simpl.
          split_and!; [by exists y, d | lia |].
          intros j Hj (y' & d' & Hb). apply (Hlt (S j)); [lia|]. by exists y', d'.
        - intros i Hi (y & d & Hb). apply (Hl (S i)); [lia|]. by exists y, d. }
      specialize (IH n (pred <$> r) ltac:(lia) Hl').
      destruct (spec_pop (take n t)) as [x t']. destruct r as [i|]; simpl in *.
      * destruct Hl as ((y' & d' & Hi) & _). destruct i as [|i]; [done|]. simpl in *.
        destruct IH as (y & d & Hy & -> & Ht). exists y, d. by rewrite Ht.
      * destruct IH as [-> Ht]. by rewrite Ht.
    + destruct r as [i|]; simpl in Hl.
      * destruct i as [|i]; [|destruct Hl as (_ & _ & Hl); exfalso; apply (Hl 0%nat); [lia|by exists x, d]].
        exists x, d. split_and!; [done | done |]. simpl. by rewrite take_drop.
      * exfalso. apply (Hl 0%nat); [lia|]. by exists x, d.
Qed.

Lemma spec_first_pop t : spec_first t = fst (spec_pop t).
Proof. induction t as [|[|x d] t IH]; simpl; [done| |done]. rewrite IH. by destruct (spec_pop t). Qed.

(** ** Operations refine the table of lists *)

(** What the scheduler asks of the queue. *)
Inductive op :=
| Prepare (p : nat) | PushFront (p : nat) (x : T) | PushBack (p : nat) (x : T)
| Remove (p : nat) (x : T) | Rotate (p : nat) | Move (x : T) (old new : nat)
| PopFirst | PopFirstBetter (p : nat) | GetFirst.

Definition step (o : op) (q : tql) : outcome (option T * tql) :=
  match o with
  | Prepare p => q ← prepare p q; Done (None, q)
  | PushFront p x => q ← push_front p x q; Done (None, q)
  | PushBack p x => q ← push_back p x q; Done (None, q)
  | Remove p x => q ← remove p x q; Done (None, q)
  | Rotate p => q ← rotate p q; Done (None, q)
  | Move x old new => q ← move x old new q; Done (None, q)
  | PopFirst => pop_first q
  | PopFirstBetter p => pop_first_better p q
  | GetFirst => r ← get_first q; Done (r, q)
  end.

Fixpoint run (os : list op) (q : tql) : outcome (list (option T) * tql) :=
  match os with
  | [] => Done ([], q)
  | o :: os => '(r, q) ← step o q; '(rs, q) ← run os q; Done (r :: rs, q)
  end.

(** The specification state: one list per priority and the set of priorities
    that [prepare] has seen. *)
Record spec := mk_spec { tbl : list (list T); used : gset nat }.

Definition rotated (d : list T) : list T :=
  match d with x :: y :: d => (y :: d) ++ [x] | _ => d end.

Definition only {A} (P : Prop) `{Decision P} (a : A) : option A :=
  if decide P then Some a else None.

(** The contract: a thread is only pushed at a prepared priority, and
    [pop_first_better] is only asked about a prepared priority; [None] is a
    call outside the contract. *)
Definition spec_step (o : op) (s : spec) : option (option T * spec) :=
  let n := length (tbl s) in
  match o with
  | Prepare p => only (p < n)%nat (None, mk_spec (tbl s) ({[p]} ∪ used s))
  | PushFront p x => only (p ∈ used s) (None, mk_spec (alter (cons x) p (tbl s)) (used s))
  | PushBack p x => only (p ∈ used s) (None, mk_spec (alter (.++ [x]) p (tbl s)) (used s))
  | Remove p x =>
      only (p < n)%nat (None, mk_spec (alter (filter (.≠ x)) p (tbl s)) (used s))
  | Rotate p => only (p < n)%nat (None, mk_spec (alter rotated p (tbl s)) (used s))
  | Move x old new =>
      only (old < n /\ new < n)%nat
           (None, mk_spec (alter (.++ [x]) new (alter (filter (.≠ x)) old (tbl s)))
                          ({[new]} ∪ used s))
  | PopFirst => let '(r, t) := spec_pop (tbl s) in Some (r, mk_spec t (used s))
  | PopFirstBetter p =>
      only (p ∈ used s)
        (let '(r, t) := spec_pop (take p (tbl s)) in (r, mk_spec (t ++ drop p (tbl s)) (used s)))
  | GetFirst => Some (fst (spec_pop (tbl s)), s)
  end.

Fixpoint spec_run (os : list op) (s : spec) : option (list (option T) * spec) :=
  match os with
  | [] => Some ([], s)
  | o :: os => '(r, s) ← spec_step o s; '(rs, s) ← spec_run os s; Some (r :: rs, s)
  end.

Definition rep (q : tql) (s : spec) : Prop :=
  exists ls, wf q ls /\ covered q /\ table q = tbl s /\ (forall p, p ∈ ls <-> p ∈ used s).

Lemma at_table q p d :
  table q !! p = Some d -> exists qu, at_ (queues q) p = Done qu /\ data qu = d.
Proof.
  unfold table, at_. rewrite list_lookup_fmap. destruct (queues q !! p); [|done].
  intros; simplify_eq/=. eauto.
Qed.

Lemma rep_lookup q s p : rep q s -> (p < length (tbl s))%nat ->
  exists qu, queues q !! p = Some qu /\ tbl s !! p = Some (data qu).
Proof.
  intros (ls & _ & _ & Ht & _). rewrite <- Ht. unfold table. rewrite length_fmap. intros Hp.
  destruct (in_range_lookup _ _ Hp) as [qu Hqu]. exists qu. split; [done|].
  by rewrite list_lookup_fmap, Hqu.
Qed.

Lemma chain_levels qs ls : forall l, chain qs l ls -> forall i, i ∈ ls -> (i < length qs)%nat.
Proof.
  induction ls as [|k ls IH]; intros l; simpl; [set_solver|].
  intros (_ & qk & Hk & Hc) i [->|Hi]%elem_of_cons; [by eapply lookup_lt_Some | eauto].
Qed.

Lemma rep_used_range q s p : rep q s -> p ∈ used s -> (p < length (tbl s))%nat.
Proof.
  intros (ls & Hwf & _ & <- & Hu) Hp%Hu. unfold table. rewrite length_fmap.
  eapply chain_levels; [apply Hwf | done].
Qed.

(** Changing the threads of one level: it must be linked to gain threads. *)
Lemma rep_set_data q s p qu f :
  rep q s -> queues q !! p = Some qu -> (f (data qu) = [] \/ p ∈ used s \/ data qu ≠ []) ->
  rep (mk_tql (first q) (set_data (queues q) p (f (data qu)))) (mk_spec (alter f p (tbl s)) (used s)).
Proof.
  intros (ls & Hwf & Hcov & Ht & Hu) Hp Hf. exists ls; split_and!; simpl; [by apply wf_set_data | | | done].
  - intros j qj (q' & Hj & Hn & Hd)%lookup_set_data Hne. rewrite <- Hn.
    destruct (decide (p = j)) as [->|]; [simplify_eq|rewrite Hd in Hne; by eapply Hcov].
    destruct Hf as [Hf|[Hf|Hf]]; [congruence | | by eapply Hcov].
    by eapply (wf_linked _ _ Hwf), Hu.
  - unfold table. simpl. rewrite table_set_data, <- Ht. apply list_eq. intros j.
    unfold table. rewrite list_lookup_alter. case_decide as Hj; [subst j|].
    + rewrite list_lookup_insert_eq; [by rewrite list_lookup_fmap, Hp|].
      rewrite length_fmap. by eapply lookup_lt_Some.
    + by rewrite list_lookup_insert_ne.
Qed.

Lemma prepare_refines q s p :
  rep q s -> (p < length (tbl s))%nat ->
  exists q', prepare p q = Done q' /\ rep q' (mk_spec (tbl s) ({[p]} ∪ used s)).
Proof.
  intros Hrep Hp. destruct (rep_lookup _ _ _ Hrep Hp) as (qu & Hqu & _).
  destruct Hrep as (ls & Hwf & Hcov & Ht & Hu).
  unfold prepare, at_. rewrite Hqu. simpl.
  destruct (decide (next_nonempty qu = Unlinked)) as [Hun|Hun].
  - rewrite Hun. assert (p ∉ ls) as Hpl by (rewrite <- (wf_linked _ _ Hwf p qu Hqu); naive_solver).
    destruct (link_from_wf q p ls p) as (q' & ls' & -> & Ht' & Hwf' & Hls'); try done.
    { by eapply lookup_lt_Some. } { intros; lia. }
    exists q'. split; [done|]. exists ls'; split_and!; simpl; [done | | by rewrite Ht' | set_solver].
    intros i qi Hi Hne. apply (wf_linked _ _ Hwf' i qi Hi), Hls'. right.
    assert (busy (table q) i) as (qo & Ho & Hd)%busy_table.
    { rewrite <- Ht'. apply busy_table. eauto. }
    apply (wf_linked _ _ Hwf i qo Ho). by eapply Hcov.
  - exists q. split; [by destruct (next_nonempty qu)|].
    exists ls; split_and!; simpl; [done | done | done |]. intros j. rewrite elem_of_union, elem_of_singleton.
    rewrite <- Hu. split; [tauto|]. intros [->|?]; [|done]. by apply (wf_linked _ _ Hwf p qu Hqu).
Qed.

Lemma rep_init n : rep (init n) (mk_spec (replicate n []) ∅).
Proof.
  exists []. split_and!; [split; simpl; [done | constructor |] | | | set_solver].
  - intros i qu [-> _]%lookup_replicate. simpl. split; [done|set_solver].
  - intros i qu [-> _]%lookup_replicate. done.
  - unfold table. simpl. by rewrite fmap_replicate.
Qed.

(** Popping the level the walk found is popping the specification's prefix. *)
Lemma pop_front_refines q s ls n :
  wf q ls -> rep q s -> (n <= NUM_QUEUES q)%nat ->
  exists q',
    pop_front_at q (first_busy (queues q) (filter (fun i => (i < n)%nat) ls)) =
      Done (fst (spec_pop (take n (tbl s))), q') /\
    rep q' (mk_spec (snd (spec_pop (take n (tbl s))) ++ drop n (tbl s)) (used s)).
Proof.
  intros Hwf Hrep Hn. pose proof Hrep as (_ & _ & Hcov & Ht & _).
  pose proof (first_busy_least q ls n Hwf Hcov Hn) as Hl.
  rewrite Ht in Hl. apply spec_pop_least in Hl;
    [|by rewrite <- Ht; unfold table; rewrite length_fmap].
  destruct (spec_pop (take n (tbl s))) as [x t']. simpl.
  destruct (first_busy _ _) as [i|]; simpl.
  - destruct Hl as (y & d & Hi & -> & ->). rewrite <- Ht in Hi.
    pose proof Hi as (qu & Hqu & Hd)%at_table. unfold at_ in *.
    apply of_opt_done in Hqu. rewrite Hqu. simpl. rewrite Hd.
    eexists. split; [done|].
    replace (<[i:=d]> (tbl s)) with (alter tail i (tbl s)).
    { replace d with (tail (data qu)) by (by rewrite Hd).
      apply rep_set_data; [done | done | right; right; by rewrite Hd]. }
    rewrite Ht in Hi. apply list_eq. intros j. rewrite list_lookup_alter.
    case_decide; subst; [rewrite list_lookup_insert_eq | by rewrite list_lookup_insert_ne].
    + by rewrite Hi.
    + by eapply lookup_lt_Some.
  - destruct Hl as [-> ->]. eexists. split; [done|]. by destruct s.
Qed.

Lemma wf_fuel q ls : wf q ls -> (length ls < fuel_of q)%nat.
Proof.
  intros [Hc Hs _]. unfold fuel_of, NUM_QUEUES. apply Nat.lt_succ_r.
  rewrite <- (length_seq (length (queues q)) 0).
  apply NoDup_incl_length; [by apply NoDup_ListNoDup, sorted_NoDup|].
  intros i Hi%list_elem_of_In. apply in_seq.
  pose proof (chain_levels _ _ _ Hc i Hi). lia.
Qed.

Lemma filter_levels q ls : wf q ls -> filter (fun i => (i < NUM_QUEUES q)%nat) ls = ls.
Proof. intros [Hc _ _]. apply filter_all. intros i. by eapply chain_levels. Qed.

Lemma rep_length q s : rep q s -> NUM_QUEUES q = length (tbl s).
Proof. intros (_ & _ & _ & <- & _). unfold table. by rewrite length_fmap. Qed.

Lemma pop_first_refines q s :
  rep q s -> exists q', pop_first q = Done (fst (spec_pop (tbl s)), q') /\
    rep q' (mk_spec (snd (spec_pop (tbl s))) (used s)).
Proof.
  intros Hrep. pose proof Hrep as (ls & Hwf & _). unfold pop_first.
  rewrite (walk_not_null _ ls) by (apply Hwf || by apply wf_fuel). simpl.
  destruct (pop_front_refines q s ls (NUM_QUEUES q) Hwf Hrep) as (q' & Hp & Hr); [lia|].
  rewrite filter_levels in Hp by done. rewrite (rep_length _ _ Hrep) in Hp, Hr.
  rewrite take_ge in Hp, Hr by lia. rewrite drop_ge, app_nil_r in Hr by lia. eauto.
Qed.

Lemma pop_first_better_refines q s p :
  rep q s -> p ∈ used s ->
  exists q', pop_first_better p q = Done (fst (spec_pop (take p (tbl s))), q') /\
    rep q' (mk_spec (snd (spec_pop (take p (tbl s))) ++ drop p (tbl s)) (used s)).
Proof.
  intros Hrep Hp. pose proof Hrep as (ls & Hwf & _ & _ & Hu). unfold pop_first_better.
  rewrite (walk_below _ p ls) by (apply Hwf || by apply wf_fuel || by apply Hu). simpl.
  apply pop_front_refines; [done..|]. rewrite (rep_length _ _ Hrep).
  pose proof (rep_used_range _ _ _ Hrep Hp). lia.
Qed.

Lemma get_first_refines q s : rep q s -> get_first q = Done (fst (spec_pop (tbl s))).
Proof.
  intros Hrep. destruct (pop_first_refines q s Hrep) as (q' & Hp & _).
  unfold pop_first, get_first in *.
  destruct (walk _ _ _ _) as [[i|]|]; simpl in *; [|by injection Hp as <- _|done].
  destruct (at_ _ _) as [qu|]; simpl in *; [|done].
  destruct (data qu); simpl in *; [done|]. by injection Hp as <- _.
Qed.

(** Operations that rewrite one level in place. *)
Lemma alter_refines q s p f (o : list T -> list T) :
  rep q s -> (p < length (tbl s))%nat -> (forall d, f d = o d) ->
  (p ∈ used s \/ forall d, d = [] -> f d = []) ->
  exists qu, at_ (queues q) p = Done qu /\
    rep (mk_tql (first q) (set_data (queues q) p (f (data qu)))) (mk_spec (alter o p (tbl s)) (used s)).
Proof.
  intros Hrep Hp Hfo Hu. destruct (rep_lookup _ _ _ Hrep Hp) as (qu & Hqu & _).
  exists qu. unfold at_. rewrite Hqu. split; [done|].
  replace (alter o p (tbl s)) with (alter f p (tbl s)) by (by apply list_alter_ext).
  apply rep_set_data; [done..|]. destruct Hu as [Hu|Hu]; [by auto|].
  destruct (data qu); auto.
Qed.

Lemma remove_refines q s p x :
  rep q s -> (p < length (tbl s))%nat ->
  exists q', remove p x q = Done q' /\
    rep q' (mk_spec (alter (filter (.≠ x)) p (tbl s)) (used s)).
Proof.
  intros Hrep Hp.
  destruct (alter_refines q s p (filter (fun y => y ≠ x)) (filter (.≠ x))) as (qu & Hqu & Hr);
    [done | done | done | right; by intros d -> |].
  unfold remove. rewrite Hqu. simpl. eauto.
Qed.

Lemma push_back_refines q s p x :
  rep q s -> p ∈ used s ->
  exists q', push_back p x q = Done q' /\ rep q' (mk_spec (alter (.++ [x]) p (tbl s)) (used s)).
Proof.
  intros Hrep Hp. pose proof (rep_used_range _ _ _ Hrep Hp).
  destruct (alter_refines q s p (fun d => d ++ [x]) (.++ [x])) as (qu & Hqu & Hr);
    [done | done | done | by left |].
  unfold push_back. rewrite Hqu. simpl. eauto.
Qed.

Lemma rotate_refines q s p :
  rep q s -> (p < length (tbl s))%nat ->
  exists q', rotate p q = Done q' /\ rep q' (mk_spec (alter rotated p (tbl s)) (used s)).
Proof.
  intros Hrep Hp.
  destruct (alter_refines q s p rotated rotated) as (qu & Hqu & Hr);
    [done | done | done | right; by intros d -> |].
  unfold rotate. rewrite Hqu. simpl. unfold at_ in Hqu. apply of_opt_done in Hqu.
  assert (forall d, data qu = d -> rotated d = d -> set_data (queues q) p d = queues q) as Hid.
  { intros d <- _. apply list_eq. intros j. unfold set_data. rewrite list_lookup_alter.
    case_decide; [subst j|done]. rewrite Hqu. by destruct qu. }
  destruct (data qu) as [|x [|y d]] eqn:Ed; simpl in *; [| |by eauto];
    rewrite Hid in Hr by done; exists q; (split; [done|]); by destruct q.
Qed.

Lemma step_refines q s o r s' :
  rep q s -> spec_step o s = Some (r, s') ->
  exists q', step o q = Done (r, q') /\ rep q' s'.
Proof.
  intros Hrep Hs. destruct o as [p|p x|p x|p x|p|x old new| |p|]; simpl in *.
  - unfold only in Hs; case_decide as H; [|done]. simplify_eq/=. destruct (prepare_refines q s p) as (q' & -> & ?); eauto.
  - unfold only in Hs; case_decide as H; [|done]. simplify_eq/=. pose proof (rep_used_range _ _ _ Hrep H).
    destruct (alter_refines q s p (cons x) (cons x)) as (qu & Hqu & Hr);
      [done | done | done | by left |].
    unfold push_front. rewrite Hqu. simpl. eauto.
  - unfold only in Hs; case_decide as H; [|done]. simplify_eq/=.
    destruct (push_back_refines q s p x) as (q' & -> & ?); eauto.
  - unfold only in Hs; case_decide as H; [|done]. simplify_eq/=. destruct (remove_refines q s p x) as (q' & -> & ?); eauto.
  - unfold only in Hs; case_decide as H; [|done]. simplify_eq/=. destruct (rotate_refines q s p) as (q' & -> & ?); eauto.
  - unfold only in Hs; case_decide as H; [|done]. simplify_eq/=. destruct H as [Ho Hn].
    destruct (remove_refines q s old x Hrep Ho) as (q1 & H1 & Hr1).
    destruct (prepare_refines _ _ new Hr1) as (q2 & H2 & Hr2); [simpl; by rewrite length_alter|].
    destruct (push_back_refines _ _ new x Hr2) as (q3 & H3 & Hr3); [simpl; set_solver|].
    exists q3. unfold move. rewrite H1. simpl. rewrite H2. simpl. by rewrite H3.
  - destruct (pop_first_refines q s Hrep) as (q' & -> & Hr).
    destruct (spec_pop (tbl s)). simplify_eq/=. eauto.
  - unfold only in Hs; case_decide as H; [|done]. simpl in Hs.
    destruct (pop_first_better_refines q s p Hrep H) as (q' & -> & Hr).
    destruct (spec_pop (take p (tbl s))). simplify_eq/=. eauto.
  - simplify_eq/=. rewrite (get_first_refines q s') by done. simpl. eauto.
Qed.

(** ** Serialization: pointers as indices *)

Definition ToIndex (l : link) : Z :=
  match l with Null => -2 | Unlinked => -1 | To i => Z.of_nat i end.

Definition ToPointer (idx : Z) : link :=
  if idx =? -1 then Unlinked else if idx <? 0 then Null else To (Z.to_nat idx).

Definition save (q : tql) : Z * list (Z * list T) :=
  (ToIndex (first q), (fun qu => (ToIndex (next_nonempty qu), data qu)) <$> queues q).

Definition load (a : Z * list (Z * list T)) : tql :=
  mk_tql (ToPointer (fst a)) ((fun e => mk_queue (ToPointer (fst e)) (snd e)) <$> snd a).

Lemma ToPointer_ToIndex l : ToPointer (ToIndex l) = l.
Proof.
  destruct l as [| |i]; [done..|]. unfold ToPointer, ToIndex.
  destruct (Z.eqb_spec (Z.of_nat i) (-1)); [lia|].
  destruct (Z.ltb_spec (Z.of_nat i) 0); [lia|]. by rewrite Nat2Z.id.
Qed.

Lemma load_save_id q : load (save q) = q.
Proof.
  destruct q as [f qs]. unfold load, save. simpl. rewrite ToPointer_ToIndex. f_equal.
  rewrite <- list_fmap_compose. rewrite <- (list_fmap_id qs) at 2. apply list_fmap_ext.
  intros i [nx d] _. simpl. by rewrite ToPointer_ToIndex.
Qed.

Lemma run_refines os : forall q s rs s',
  rep q s -> spec_run os s = Some (rs, s') ->
  exists q', run os q = Done (rs, q') /\ rep q' s'.
Proof.
  induction os as [|o os IH]; intros q s rs s' Hrep Hs; simpl in *.
  - simplify_eq. eauto.
  - apply bind_Some in Hs as ([r s1] & H1 & Hs). apply bind_Some in Hs as ([rs1 s2] & H2 & Hs).
    simplify_eq/=. destruct (step_refines _ _ _ _ _ Hrep H1) as (q1 & -> & Hr1). simpl.
    destruct (IH _ _ _ _ Hr1 H2) as (q2 & -> & Hr2). simpl. eauto.
Qed.

(** Off the end of the chain [pop_first_better] dereferences null. *)
Lemma walk_below_falls_off qs p ls : forall fuel l,
  chain qs l ls -> (length ls < fuel)%nat ->
  (forall i qu, i ∈ ls -> qs !! i = Some qu -> (i < p)%nat /\ data qu = []) ->
  walk fuel (below p) qs l = Stop FNullDeref.
Proof.
  induction ls as [|i ls IH]; intros fuel l; simpl.
  - intros -> Hf _. destruct fuel; [lia|done].
  - intros (-> & qu & Hi & Hc) Hf Hb. destruct fuel as [|fuel]; [lia|]. simpl.
    destruct (Hb i qu) as [Hip Hd]; [set_solver | done |].
    destruct (Nat.ltb_spec i p); [|lia]. unfold at_. rewrite Hi. simpl. rewrite Hd.
    apply IH; [done | lia | set_solver].
Qed.

(** ** Properties *)

(** C27: Every sequence of scheduler requests that respects the contract (push
    only at prepared priorities, [pop_first_better] only for a prepared one),
    started on the empty queue of [n] levels, runs without touching a null or
    tagged pointer, returns exactly the threads of the table-of-lists
    specification, and ends with exactly its lists. *)
Theorem ready_queue_refines_table os n rs s' :
  spec_run os (mk_spec (replicate n []) ∅) = Some (rs, s') ->
  exists q', run os (init n) = Done (rs, q') /\ table q' = tbl s'.
Proof.
  intros Hs. destruct (run_refines os (init n) _ rs s' (rep_init n) Hs) as (q' & Hr & Hrep).
  exists q'. split; [done|]. by destruct Hrep as (_ & _ & _ & ? & _).
Qed.

(** Asked about a priority that no [prepare] ever linked, when no level at
    or above it is in use and no thread waits below it, [pop_first_better]
    walks off the end of the chain and dereferences null: null compares below
    the stop address. *)
Theorem pop_first_better_unprepared q s p :
  rep q s -> (forall i, i ∈ used s -> (i < p)%nat) ->
  (forall d, d ∈ take p (tbl s) -> d = []) ->
  pop_first_better p q = Stop FNullDeref.
Proof.
  intros (ls & Hwf & _ & Ht & Hu) Hlow Hnone. unfold pop_first_better.
  rewrite (walk_below_falls_off _ p ls); [done | apply Hwf | by apply wf_fuel |].
  intros i qu Hi Hqu. assert (i < p)%nat as Hip by (by apply Hlow, Hu). split; [done|].
  apply Hnone. rewrite <- Ht. unfold table. apply list_elem_of_lookup. exists i.
  by rewrite lookup_take_lt, list_lookup_fmap, Hqu.
Qed.

(** Loading a saved queue gives the queue back, links included. *)
Theorem load_save q : load (save q) = q.
Proof. apply load_save_id. Qed.

End Queue.

Arguments queue : clear implicits.
Arguments tql : clear implicits.

Lemma ready_queue_refines_table_witness :
  exists q' : tql nat,
    run [Prepare 40; Prepare 10; PushBack 40 7%nat; PushBack 40 8%nat; PopFirstBetter 40;
         PushFront 10 9%nat; PopFirstBetter 40; Rotate 40; Move 7%nat 40 20; PopFirst; GetFirst]%nat
        (init 64) =
      Done ([None; None; None; None; None; None; Some 9; None; None; Some 7; Some 8]%nat, q') /\
    table q' = <[40%nat := [8%nat]]> (replicate 64 []).
Proof.
  destruct (ready_queue_refines_table
    [Prepare 40; Prepare 10; PushBack 40 7%nat; PushBack 40 8%nat; PopFirstBetter 40;
     PushFront 10 9%nat; PopFirstBetter 40; Rotate 40; Move 7%nat 40 20; PopFirst; GetFirst]%nat
    64 [None; None; None; None; None; None; Some 9; None; None; Some 7; Some 8]%nat
    (mk_spec (<[40%nat := [8%nat]]> (replicate 64 [])) {[20; 10; 40]}%nat))
    as (q' & Hr & Ht); [vm_compute; reflexivity|].
  exists q'. split; [exact Hr | exact Ht].
Defined.

Lemma pop_first_better_unprepared_witness :
  pop_first_better 5 (init (T := nat) 64) = Stop FNullDeref.
Proof.
  apply (pop_first_better_unprepared _ (mk_spec (replicate 64 []) ∅)).
  - exact (rep_init 64).
  - intros i Hi. exfalso. by apply not_elem_of_empty in Hi.
  - intros d Hd. apply list_elem_of_In in Hd. simpl in Hd. intuition congruence.
Defined.
End Tql.
