(* ===== verification/BitField.v ===== *)
(** * Bit fields of machine words

    Model of [BitField<Position, Bits, T>] (include/common/bit_field.h): the
    mask, [FormatValue], [ExtractValue] (both signednesses) and [Assign].  The
    storage is the raw value of the union, a [w]-bit [Z] with [w = 8 * sizeof(T)]. *)
From S2P Require Import Prelude.

Module BitField.

(** Position, number of bits, and width of the underlying type; the two
    [static_assert]s of the class are the bounds of [ok]. *)
Record t := mk { position : Z; bits : Z; width : Z }.

Definition ok (f : t) : Prop :=
  0 <= position f /\ 0 < bits f /\ position f + bits f <= width f.

#[global] Instance ok_dec f : Decision (ok f).
Proof. unfold ok. solve_decision. Defined.

Definition mask (f : t) : Z :=
  wrap (width f) (Z.shiftl (Z.shiftr (wrap (width f) (Z.lnot 0)) (width f - bits f)) (position f)).

Definition FormatValue (f : t) (value : Z) : Z :=
  Z.land (wrap (width f) (Z.shiftl (wrap (width f) value) (position f))) (mask f).

(** [T] unsigned: mask and shift down. *)
Definition ExtractValue (f : t) (storage : Z) : Z :=
  Z.shiftr (Z.land storage (mask f)) (position f).

(** [T] signed: shift the field to the top, then arithmetic shift down. *)
Definition ExtractValue_signed (f : t) (storage : Z) : Z :=
  let shift := width f - bits f in
  Z.shiftr (swrap (width f) (wrap (width f) (Z.shiftl storage (shift - position f)))) shift.

Definition Assign (f : t) (storage value : Z) : Z :=
  Z.lor (Z.land storage (wrap (width f) (Z.lnot (mask f)))) (FormatValue f value).

(** Two fields with no bit in common. *)
Definition disjoint (f g : t) : Prop :=
  position f + bits f <= position g \/ position g + bits g <= position f.

(** ** Bit-level characterisation *)

Lemma wrap_testbit w z i : 0 <= w -> 0 <= i -> Z.testbit (wrap w z) i = (i <? w) && Z.testbit z i.
Proof.
  intros Hw Hi. unfold wrap. destruct (Z.ltb_spec i w); simpl.
  - by rewrite Z.mod_pow2_bits_low by lia.
  - by rewrite Z.mod_pow2_bits_high by lia.
Qed.

Lemma mask_testbit f i : ok f -> 0 <= i ->
  Z.testbit (mask f) i = (position f <=? i) && (i <? position f + bits f).
Proof.
  intros (Hp & Hb & Hw) Hi. unfold mask. rewrite wrap_testbit by lia.
  rewrite Z.shiftl_spec by lia. destruct (Z.leb_spec (position f) i); simpl.
  - rewrite Z.shiftr_spec, wrap_testbit, Z.lnot_spec, Z.bits_0 by lia.
    destruct (Z.ltb_spec i (width f)), (Z.ltb_spec (i - position f + (width f - bits f)) (width f)),
      (Z.ltb_spec i (position f + bits f)); simpl; lia || done.
  - rewrite Z.testbit_neg_r by lia. apply andb_false_r.
Qed.

Lemma format_testbit f v i : ok f -> 0 <= i ->
  Z.testbit (FormatValue f v) i =
    (position f <=? i) && (i <? position f + bits f) && Z.testbit v (i - position f).
Proof.
  intros Hf Hi. unfold FormatValue. rewrite Z.land_spec, mask_testbit by done.
  destruct Hf as (Hp & Hb & Hw). rewrite wrap_testbit, Z.shiftl_spec by lia.
  destruct (Z.leb_spec (position f) i), (Z.ltb_spec i (position f + bits f)); simpl;
    rewrite ?andb_false_r, ?andb_true_r; try done.
  rewrite wrap_testbit by lia. by btests; try lia.
Qed.

Lemma extract_testbit f s i : ok f -> 0 <= i ->
  Z.testbit (ExtractValue f s) i = (i <? bits f) && Z.testbit s (i + position f).
Proof.
  intros Hf Hi. unfold ExtractValue. pose proof Hf as (Hp & Hb & Hw).
  rewrite Z.shiftr_spec, Z.land_spec, mask_testbit by (done || lia).
  btests; try lia; rewrite ?andb_false_r, ?andb_true_r; done.
Qed.

Lemma assign_testbit f s v i : ok f -> 0 <= i < width f ->
  Z.testbit (Assign f s v) i =
    if (position f <=? i) && (i <? position f + bits f) then Z.testbit v (i - position f)
    else Z.testbit s i.
Proof.
  intros Hf Hi. pose proof Hf as (Hp & Hb & Hw). unfold Assign.
  rewrite Z.lor_spec, Z.land_spec, format_testbit, wrap_testbit, Z.lnot_spec, mask_testbit
    by (done || lia).
  btests; try lia; rewrite ?andb_false_r, ?andb_true_r, ?orb_false_r; done.
Qed.

Lemma extract_field f s : ok f -> ExtractValue f s = wrap (bits f) (Z.shiftr s (position f)).
Proof.
  intros Hf. pose proof Hf as (Hp & Hb & Hw). apply Z.bits_inj'. intros i Hi.
  rewrite extract_testbit, wrap_testbit, Z.shiftr_spec by (done || lia). done.
Qed.

Lemma extract_assign_same f s v : ok f -> ExtractValue f (Assign f s v) = wrap (bits f) v.
Proof.
  intros Hf. pose proof Hf as (Hp & Hb & Hw). apply Z.bits_inj'. intros i Hi.
  rewrite extract_testbit, wrap_testbit by (done || lia).
  destruct (Z.ltb_spec i (bits f)); simpl; [|done].
  rewrite assign_testbit by (done || lia). btests; try lia. f_equal. lia.
Qed.

Lemma extract_assign_other f g s v : ok f -> ok g -> width f = width g -> disjoint f g ->
  ExtractValue g (Assign f s v) = ExtractValue g s.
Proof.
  intros Hf Hg Hfg Hd. pose proof Hf as (Hp & Hb & Hw). pose proof Hg as (Hp' & Hb' & Hw').
  apply Z.bits_inj'. intros i Hi. rewrite !extract_testbit by (done || lia).
  destruct (Z.ltb_spec i (bits g)); simpl; [|done].
  rewrite assign_testbit by (done || lia). unfold disjoint in Hd.
  btests; lia || done.
Qed.

(** The signed reading is the sign extension of the unsigned one. *)
Lemma signed_is_extension f s : ok f ->
  ExtractValue_signed f s = swrap (bits f) (ExtractValue f s).
Proof.
  intros Hf. rewrite extract_field by done. destruct Hf as (Hp & Hb & Hw).
  destruct f as [p b w]; simpl in *. unfold ExtractValue_signed. simpl.
  set (k := w - b). assert (0 <= k) by lia.
  unfold swrap, wrap. rewrite Z.shiftr_div_pow2, Z.shiftl_mul_pow2, Z.shiftr_div_pow2 by lia.
  replace (2 ^ w) with (2 ^ (k - p) * 2 ^ p * 2 ^ b)
    by (rewrite <- !Z.pow_add_r by lia; f_equal; lia).
  replace (2 ^ (w - 1)) with (2 ^ (k - p) * 2 ^ p * 2 ^ (b - 1))
    by (rewrite <- !Z.pow_add_r by lia; f_equal; lia).
  replace (2 ^ k) with (2 ^ (k - p) * 2 ^ p) by (rewrite <- Z.pow_add_r by lia; f_equal; lia).
  replace (2 ^ b) with (2 * 2 ^ (b - 1))
    by (rewrite <- (Z.pow_1_r 2) at 1; rewrite <- Z.pow_add_r by lia; f_equal; lia).
  pose proof (Z.pow_pos_nonneg 2 (k - p) ltac:(lia) ltac:(lia)) as HA.
  pose proof (Z.pow_pos_nonneg 2 p ltac:(lia) ltac:(lia)) as HB.
  pose proof (Z.pow_pos_nonneg 2 (b - 1) ltac:(lia) ltac:(lia)) as HC.
  set (A := 2 ^ (k - p)) in *. set (B := 2 ^ p) in *. set (C := 2 ^ (b - 1)) in *.
  rewrite Zplus_mod_idemp_l.
  replace (s * A + A * B * C) with (A * (s + B * C)) by ring.
  replace (A * B * (2 * C)) with (A * (B * (2 * C))) by ring.
  rewrite Z.mul_mod_distr_l by nia.
  replace (A * ((s + B * C) `mod` (B * (2 * C))) - A * B * C)
    with (A * ((s + B * C) `mod` (B * (2 * C)) - B * C)) by ring.
  rewrite Z.div_mul_cancel_l by lia.
  rewrite Z.rem_mul_r by lia.
  replace ((s + B * C) `mod` B + B * (((s + B * C) `div` B) `mod` (2 * C)) - B * C)
    with ((((s + B * C) `div` B) `mod` (2 * C) - C) * B + (s + B * C) `mod` B) by ring.
  rewrite Z.div_add_l by lia. rewrite (Z.div_small ((s + B * C) `mod` B) B).
  2: { apply Z.mod_pos_bound. lia. }
  rewrite (Z.mul_comm B C), Z.div_add by lia. rewrite Zplus_mod_idemp_l. lia.
Qed.

(** ** Properties *)

(** Assigning a field of a union and reading it back gives the low [bits] bits of the
    assigned value, as an unsigned number or sign extended according to the
    type of the field, and every disjoint field of the same union reads as before. *)
Theorem extract_after_assign f s v : ok f ->
  ExtractValue f (Assign f s v) = wrap (bits f) v /\
  ExtractValue_signed f (Assign f s v) = swrap (bits f) (wrap (bits f) v) /\
  forall g, ok g -> width f = width g -> disjoint f g -> ExtractValue g (Assign f s v) = ExtractValue g s.
Proof.
  intros Hf. split; [by apply extract_assign_same|]. split; [by rewrite signed_is_extension, extract_assign_same|].
  intros g Hg Hw Hd. by apply extract_assign_other.
Qed.

Lemma ok_summary : ok (mk 21 6 32).
Proof. unfold ok. simpl. lia. Qed.

Lemma extract_after_assign_witness :
  ExtractValue (mk 21 6 32) (Assign (mk 21 6 32) 0xFFFFFFFF 0x67) = wrap 6 0x67 /\
  ExtractValue (mk 27 5 32) (Assign (mk 21 6 32) 0xD8600413 63) = ExtractValue (mk 27 5 32) 0xD8600413.
Proof.
  split; [apply (extract_after_assign (mk 21 6 32) 0xFFFFFFFF 0x67 ok_summary)|].
  apply (extract_after_assign (mk 21 6 32) 0xD8600413 63 ok_summary); unfold ok, disjoint; simpl; lia.
Defined.

End BitField.
