(* ===== verification/Results.v ===== *)
(** * Result codes

    Model of [Result] (include/core/hle/result.h) and of the kernel's error
    constants (include/core/hle/kernel/errors.h).  A [Result] is its raw 32-bit
    value; [ResultVal<T>] is a sum. *)
From S2P Require Import Prelude BitField.
Import BitField.

Module Res.

(** [enum class ErrorDescription], the well-known codes the kernel uses. *)
Module Desc.
Definition TooLarge := 1001.
Definition NotAuthorized := 1002.
Definition AlreadyDone := 1003.
Definition InvalidSize := 1004.
Definition InvalidEnumValue := 1005.
Definition InvalidCombination := 1006.
Definition NoData := 1007.
Definition Busy := 1008.
Definition MisalignedAddress := 1009.
Definition MisalignedSize := 1010.
Definition OutOfMemory := 1011.
Definition NotImplemented := 1012.
Definition InvalidAddress := 1013.
Definition InvalidPointer := 1014.
Definition InvalidHandle := 1015.
Definition NotFound := 1018.
Definition OutOfRange := 1021.
Definition Timeout := 1022.
Definition InvalidResultValue := 1023.
End Desc.

(** [Kernel::ErrCodes] *)
Module ErrCodes.
Definition OutOfSharedMems := 11.
Definition OutOfThreads := 12.
Definition OutOfMutexes := 13.
Definition OutOfSemaphores := 14.
Definition OutOfEvents := 15.
Definition OutOfTimers := 16.
Definition OutOfHandles := 19.
Definition SessionClosedByRemote := 26.
Definition PortNameTooLong := 30.
Definition WrongLockingThread := 31.
Definition NoPendingSessions := 35.
Definition WrongPermission := 46.
Definition InvalidBufferDescriptor := 48.
Definition OutOfAddressArbiters := 51.
Definition MaxConnectionsReached := 52.
End ErrCodes.

(** [enum class ErrorModule], [ErrorSummary], [ErrorLevel]. *)
Definition Mod_Kernel := 1.
Definition Mod_OS := 6.
Definition Mod_FND := 36.

Definition Sum_Success := 0.
Definition WouldBlock := 2.
Definition OutOfResource := 3.
Definition Sum_NotFound := 4.
Definition InvalidState := 5.
Definition NotSupported := 6.
Definition InvalidArgument := 7.
Definition WrongArgument := 8.
Definition Canceled := 9.
Definition StatusChanged := 10.

Definition Lvl_Success := 0.
Definition Info := 1.
Definition Status := 25.
Definition Temporary := 26.
Definition Permanent := 27.
Definition Usage := 28.

(** The bit fields of the union. *)
Definition description := mk 0 10 32.
Definition module := mk 10 8 32.
Definition summary := mk 21 6 32.
Definition level := mk 27 5 32.
Definition is_error := mk 31 1 32.

Definition result := Z.

(** [Result(description, module, summary, level)] *)
Definition make (d m s l : Z) : result :=
  Z.lor (Z.lor (Z.lor (FormatValue description d) (FormatValue module m)) (FormatValue summary s))
        (FormatValue level l).

Definition IsSuccess (r : result) : bool := ExtractValue is_error r =? 0.
Definition IsError (r : result) : bool := ExtractValue is_error r =? 1.

Definition ResultSuccess : result := 0.
Definition ResultUnknown : result := 2 ^ 32 - 1.

Definition ResultOutOfHandles := make ErrCodes.OutOfHandles Mod_Kernel OutOfResource Permanent.
Definition ResultSessionClosed := make ErrCodes.SessionClosedByRemote Mod_OS Canceled Status.
Definition ResultPortNameTooLong := make ErrCodes.PortNameTooLong Mod_OS InvalidArgument Usage.
Definition ResultWrongPermission := make ErrCodes.WrongPermission Mod_OS WrongArgument Permanent.
Definition ResultInvalidBufferDescriptor :=
  make ErrCodes.InvalidBufferDescriptor Mod_OS WrongArgument Permanent.
Definition ResultMaxConnectionsReached :=
  make ErrCodes.MaxConnectionsReached Mod_OS WouldBlock Temporary.
Definition ResultNotAuthorized := make Desc.NotAuthorized Mod_OS WrongArgument Permanent.
Definition ResultInvalidEnumValue := make Desc.InvalidEnumValue Mod_Kernel InvalidArgument Permanent.
Definition ResultInvalidEnumValueFnd := make Desc.InvalidEnumValue Mod_FND InvalidArgument Permanent.
Definition ResultInvalidCombination := make Desc.InvalidCombination Mod_OS InvalidArgument Usage.
Definition ResultInvalidCombinationKernel :=
  make Desc.InvalidCombination Mod_Kernel WrongArgument Permanent.
Definition ResultMisalignedAddress := make Desc.MisalignedAddress Mod_OS InvalidArgument Usage.
Definition ResultMisalignedSize := make Desc.MisalignedSize Mod_OS InvalidArgument Usage.
Definition ResultOutOfMemory := make Desc.OutOfMemory Mod_Kernel OutOfResource Permanent.
Definition ResultOutOfHeapMemory := make Desc.OutOfMemory Mod_OS OutOfResource Status.
Definition ResultNotImplemented := make Desc.NotImplemented Mod_OS InvalidArgument Usage.
Definition ResultInvalidAddress := make Desc.InvalidAddress Mod_OS InvalidArgument Usage.
Definition ResultInvalidAddressState := make Desc.InvalidAddress Mod_OS InvalidState Usage.
Definition ResultInvalidPointer := make Desc.InvalidPointer Mod_Kernel InvalidArgument Permanent.
Definition ResultInvalidHandle := make Desc.InvalidHandle Mod_Kernel InvalidArgument Permanent.
Definition ResultInvalidHandleOs := make Desc.InvalidHandle Mod_OS WrongArgument Permanent.
Definition ResultNotFound := make Desc.NotFound Mod_Kernel Sum_NotFound Permanent.
Definition ResultOutOfRange := make Desc.OutOfRange Mod_OS InvalidArgument Usage.
Definition ResultOutOfRangeKernel := make Desc.OutOfRange Mod_Kernel InvalidArgument Permanent.
Definition ResultTimeout := make Desc.Timeout Mod_OS StatusChanged Info.
Definition ResultNoPendingSessions := make ErrCodes.NoPendingSessions Mod_OS WouldBlock Permanent.

(** [ResultVal<T>]: a value or an error code. *)
Inductive result_val (A : Type) := Val (a : A) | Err (r : result).
Arguments Val {A} a.
Arguments Err {A} r.

Definition Code {A} (r : result_val A) : result :=
  match r with Val _ => ResultSuccess | Err e => e end.
Definition Succeeded {A} (r : result_val A) : bool :=
  match r with Val _ => true | Err _ => false end.
Definition Failed {A} (r : result_val A) : bool := negb (Succeeded r).
Definition Unwrap {A} (r : result_val A) : outcome A :=
  match r with Val a => Done a | Err _ => Stop FAssert end.

(** The raw values the comments of errors.h state, in the order of the file. *)
Definition documented : list (result * Z) :=
  [ (ResultOutOfHandles, 0xD8600413); (ResultSessionClosed, 0xC920181A);
    (ResultPortNameTooLong, 0xE0E0181E); (ResultMaxConnectionsReached, 0xD0401834);
    (ResultNotAuthorized, 0xD9001BEA); (ResultInvalidEnumValue, 0xD8E007ED);
    (ResultInvalidEnumValueFnd, 0xD8E093ED); (ResultInvalidCombination, 0xE0E01BEE);
    (ResultInvalidCombinationKernel, 0xD90007EE); (ResultMisalignedAddress, 0xE0E01BF1);
    (ResultMisalignedSize, 0xE0E01BF2); (ResultOutOfMemory, 0xD86007F3);
    (ResultOutOfHeapMemory, 0xC860180A); (ResultNotImplemented, 0xE0E01BF4);
    (ResultInvalidAddress, 0xE0E01BF5); (ResultInvalidAddressState, 0xE0A01BF5);
    (ResultInvalidPointer, 0xD8E007F6); (ResultInvalidHandle, 0xD8E007F7);
    (ResultInvalidHandleOs, 0xD9001BF7); (ResultNotFound, 0xD88007FA);
    (ResultOutOfRange, 0xE0E01BFD); (ResultOutOfRangeKernel, 0xD8E007FD);
    (ResultNoPendingSessions, 0xD8401823) ].

(** The raw value the constructor computes is the one the comment of
    errors.h states for every kernel error constant but one:
    [ResultOutOfHeapMemory] is commented 0xC860180A and is 0xC8601BF3.
    [ResultTimeout] is the only constant whose error bit is clear, so
    [IsError] does not see a timeout as an error. *)
Theorem error_constants_documented :
  List.filter (fun e => negb (fst e =? snd e)) documented = [(0xC8601BF3, 0xC860180A)] /\
  forallb (fun e => IsError (fst e)) documented = true /\
  IsError ResultWrongPermission = true /\ IsError ResultInvalidBufferDescriptor = true /\
  IsSuccess ResultTimeout = true /\ ResultTimeout ≠ ResultSuccess.
Proof.
  split; [vm_compute; reflexivity|]. split; [vm_compute; reflexivity|].
  split; [vm_compute; reflexivity|]. split; [vm_compute; reflexivity|].
  split; [vm_compute; reflexivity|]. vm_compute. discriminate.
Qed.

End Res.
