(* ===== verification/SvcAbi.v ===== *)
(** * The register interface of system calls

    Model of [SVCWrapper] (include/core/hle/kernel/svc_wrapper.h), which derives
    at compile time how the parameters of a system call are spread over the
    registers r0 to r7, of the signatures of [class SVC] and of [SVC_Table]
    (core/hle/kernel/svc.cpp).  Parameter packs are lists of types. *)
From stdpp Require Import strings.
From S2P Require Import Prelude.

Module Abi.

(** The types that occur in the signatures; [Handle] and [VAddr] are [u32],
    [Result] is a one-word union. *)
Inductive ty :=
| U8 | U32 | S32 | U64 | S64 | Bool | Enum | ResultT | MemoryInfo | PageInfo | Ptr (t : ty).

#[global] Instance ty_eq_dec : EqDecision ty.
Proof. solve_decision. Defined.

Definition is_pointer (t : ty) : bool := match t with Ptr _ => true | _ => false end.
Definition is_class (t : ty) : bool :=
  match t with ResultT | MemoryInfo | PageInfo => true | _ => false end.
Definition sizeof (t : ty) : nat :=
  match t with
  | U8 | Bool => 1
  | U32 | S32 | Enum | ResultT | PageInfo => 4
  | U64 | S64 | Ptr _ => 8
  | MemoryInfo => 16
  end.

Definition WordSize (t : ty) : nat :=
  if is_pointer t then 1
  else if decide (t = Bool) then 1
  else ((sizeof t - 1) / 4 + 1)%nat.
Definition OutputWordSize (t : ty) : nat := match t with Ptr t => WordSize t | _ => 0 end.
Definition need_align (t : ty) : bool := match t with U64 | S64 => true | _ => false end.

Definition INDEX_RETURN : Z := 2 ^ 64 - 1.
Definition RegCount : nat := 8.

Record ParamSlot := mk_slot { used : bool; param_index : Z; word_index : nat }.
Definition no_slot : ParamSlot := mk_slot false 0 0.

Record SVCABI := mk_abi { ins : list ParamSlot; outs : list ParamSlot }.

Definition holds (i : Z) (j : nat) (s : ParamSlot) : bool :=
  used s && (param_index s =? i) && (word_index s =? j)%nat.

(** The first register whose input or output slot holds the word. *)
Fixpoint find_register (i : Z) (j : nat) (ins outs : list ParamSlot) (slot : Z) : Z :=
  match ins, outs with
  | a :: ins, b :: outs =>
      if holds i j a then slot
      else if holds i j b then slot
      else find_register i j ins outs (slot + 1)
  | _, _ => 0x12345678
  end.
Definition GetRegisterIndex (abi : SVCABI) (i : Z) (j : nat) : Z := find_register i j (ins abi) (outs abi) 0.

(** ** [GetSVCABI] *)

(** Writing to an [std::array] in a constant expression. *)
Definition store {A} (l : list A) (i : nat) (x : A) : outcome (list A) :=
  if (i <? length l)%nat then Done (<[i := x]> l) else Stop FOutOfRange.

(** The registers and stack slots of the ARM calling convention. *)
Record arm := mk_arm { armabi_reg : list ParamSlot; armabi_stack : list ParamSlot; reg_pos : nat; stack_pos : nat }.

Fixpoint arm_words (i : Z) (n j : nat) (a : arm) : outcome arm :=
  match n with
  | O => Done a
  | S n =>
      a ← (if (reg_pos a =? 4)%nat then
             st ← store (armabi_stack a) (stack_pos a) (mk_slot true i j);
             Done (mk_arm (armabi_reg a) st (reg_pos a) (S (stack_pos a)))
           else
             rs ← store (armabi_reg a) (reg_pos a) (mk_slot true i j);
             Done (mk_arm rs (armabi_stack a) (S (reg_pos a)) (stack_pos a)));
      arm_words i n (S j) a
  end.

Definition arm_align (t : ty) (a : arm) : arm :=
  if need_align t
  then mk_arm (armabi_reg a) (armabi_stack a) (reg_pos a + reg_pos a `mod` 2)%nat (stack_pos a)
  else a.

Fixpoint arm_params (ts : list ty) (i : Z) (a : arm) : outcome arm :=
  match ts with
  | [] => Done a
  | t :: ts => a ← arm_words i (WordSize t) 0 (arm_align t a); arm_params ts (i + 1) a
  end.

Definition arm_abi (ts : list ty) : outcome arm :=
  arm_params ts 0 (mk_arm (replicate 4 no_slot) (replicate 4 no_slot) 0 0).

(** The words of one output, from register [out_pos] on. *)
Fixpoint out_words (i : Z) (n j out_pos : nat) (out : list ParamSlot) : outcome (list ParamSlot * nat) :=
  match n with
  | O => Done (out, out_pos)
  | S n => out ← store out out_pos (mk_slot true i j); out_words i n (S j) (S out_pos) out
  end.

Fixpoint out_params (ts : list ty) (i : Z) (out_pos : nat) (out : list ParamSlot)
  : outcome (list ParamSlot * nat) :=
  match ts with
  | [] => Done (out, out_pos)
  | t :: ts =>
      '(out, out_pos) ← (if is_pointer t then out_words i (OutputWordSize t) 0 out_pos out
                         else Done (out, out_pos));
      out_params ts (i + 1) out_pos out
  end.

Definition is_output (ts : list ty) (s : ParamSlot) : bool :=
  match ts !! Z.to_nat (param_index s) with Some t => is_pointer t | None => false end.

(** [while (stack_pos < armabi_stack.size() && ...) ++stack_pos;] *)
Fixpoint next_input (ts : list ty) (stack : list ParamSlot) (pos : nat) : nat :=
  match stack with
  | [] => pos
  | s :: stack => if negb (used s) || is_output ts s then next_input ts stack (S pos) else pos
  end.

(** The registers [k], [k + 1], ... of the inputs. *)
Fixpoint in_params (ts : list ty) (a : arm) (ks : list nat) (stack_pos : nat) : list ParamSlot :=
  match ks with
  | [] => []
  | k :: ks =>
      let r := default no_slot (armabi_reg a !! k) in
      if (k <? 4)%nat && used r && negb (is_output ts r) then r :: in_params ts a ks stack_pos
      else
        let p := next_input ts (drop stack_pos (armabi_stack a)) stack_pos in
        match armabi_stack a !! p with
        | Some s => s :: in_params ts a ks (S p)
        | None => no_slot :: in_params ts a ks p
        end
  end.

(** [R] is [None] for [void]. *)
Definition GetSVCABI (R : option ty) (ts : list ty) : outcome SVCABI :=
  a ← arm_abi ts;
  '(out, out_pos) ← out_words INDEX_RETURN (match R with Some t => WordSize t | None => 0 end) 0 0
                      (replicate RegCount no_slot);
  '(out, _) ← out_params ts 0 out_pos out;
  Done (mk_abi (in_params ts a (seq 0 RegCount) 0) out).

Definition GetRegIndices (abi : SVCABI) (i : Z) (word_size : nat) : list Z :=
  (fun j => GetRegisterIndex abi i j) <$> seq 0 word_size.

(** ** Moving values *)

Inductive value := VInt (z : Z) | VWords (l : list Z).

(** [static_cast<T>] *)
Definition cast (t : ty) (z : Z) : Z :=
  match t with
  | U8 => u8 z | U32 => u32 z | S32 | Enum => s32 z | U64 => u64 z | S64 => s64 z
  | Bool => if z =? 0 then 0 else 1
  | _ => z
  end.

Definition GetReg (regs : list Z) (n : Z) : outcome Z := of_opt FOutOfRange (regs !! Z.to_nat n).
Definition SetReg (n value : Z) (regs : list Z) : outcome (list Z) := store regs (Z.to_nat n) value.

Fixpoint get_regs (regs : list Z) (ns : list Z) : outcome (list Z) :=
  match ns with
  | [] => Done []
  | n :: ns => v ← GetReg regs n; vs ← get_regs regs ns; Done (v :: vs)
  end.
Fixpoint set_regs (ns vs : list Z) (regs : list Z) : outcome (list Z) :=
  match ns, vs with
  | n :: ns, v :: vs => regs ← SetReg n v regs; set_regs ns vs regs
  | _, _ => Done regs
  end.

(** The value of the words and the words of a value. *)
Definition of_words (t : ty) (ws : list Z) : outcome value :=
  if is_class t then Done (VWords ws)
  else if (WordSize t =? 2)%nat then
    match ws with [l; h] => Done (VInt (cast t (Z.lor l (Z.shiftl h 32)))) | _ => Stop FOutOfRange end
  else match ws with [r] => Done (VInt (cast t r)) | _ => Stop FOutOfRange end.
Definition to_words (t : ty) (v : value) : list Z :=
  match v with
  | VWords l => l
  | VInt z =>
      if (WordSize t =? 2)%nat then [Z.land (u64 z) 0xFFFFFFFF; Z.shiftr (u64 z) 32] else [u32 z]
  end.

Definition GetParam (abi : SVCABI) (i : Z) (t : ty) (regs : list Z) : outcome value :=
  ws ← get_regs regs (GetRegIndices abi i (WordSize t)); of_words t ws.
Definition SetParam (abi : SVCABI) (i : Z) (t : ty) (v : value) (regs : list Z) : outcome (list Z) :=
  set_regs (GetRegIndices abi i (WordSize t)) (to_words t v) regs.

Section Wrap.
Context {St : Type} (R : option ty) (abi : SVCABI)
  (svc : list value -> St -> option value * list value * St).

(** [WrapPass]: inputs are read from the left; after the call the return value
    is written, then the outputs from the right.  [k] counts the outputs on the
    left of [ts]. *)
Fixpoint WrapPass (ts : list ty) (i : Z) (k : nat) (inputs : list value) (regs : list Z) (st : St)
  : outcome (list value * list Z * St) :=
  match ts with
  | [] =>
      let '(r, outputs, st) := svc inputs st in
      regs ← match R, r with
             | Some t, Some v => SetParam abi INDEX_RETURN t v regs
             | None, _ => Done regs
             | Some _, None => Stop FOutOfRange
             end;
      Done (outputs, regs, st)
  | Ptr t :: ts =>
      '(outputs, regs, st) ← WrapPass ts (i + 1) (S k) inputs regs st;
      v ← of_opt FOutOfRange (outputs !! k);
      regs ← SetParam abi i t v regs;
      Done (outputs, regs, st)
  | t :: ts =>
      v ← GetParam abi i t regs;
      WrapPass ts (i + 1) k (inputs ++ [v]) regs st
  end.
End Wrap.

Definition Wrap {St} (R : option ty) (ts : list ty)
    (svc : list value -> St -> option value * list value * St) (regs : list Z) (st : St)
  : outcome (list Z * St) :=
  abi ← GetSVCABI R ts;
  '(_, regs, st) ← WrapPass R abi svc ts 0 0 [] regs st;
  Done (regs, st).

(** ** The system calls *)

(** Member functions of [class SVC]; [None] is [void]. *)
Inductive fn :=
| FControlMemory | FExitProcess | FTerminateProcess | FMapMemoryBlock
| FUnmapMemoryBlock | FConnectToPort | FSendSyncRequest | FOpenProcess
| FOpenThread | FCloseHandle | FWaitSynchronization1 | FWaitSynchronizationN
| FReplyAndReceive | FInvalidateProcessDataCache | FStoreProcessDataCache | FFlushProcessDataCache
| FCreateAddressArbiter | FArbitrateAddress | FBreak | FOutputDebugString
| FGetResourceLimit | FGetResourceLimitCurrentValues | FGetResourceLimitLimitValues | FSetResourceLimitLimitValues
| FCreateThread | FExitThread | FGetThreadPriority | FSetThreadPriority
| FCreateMutex | FReleaseMutex | FGetProcessId | FGetProcessIdOfThread
| FGetThreadId | FCreateSemaphore | FReleaseSemaphore | FKernelSetState
| FQueryProcessMemory | FQueryMemory | FCreateEvent | FDuplicateHandle
| FSignalEvent | FClearEvent | FCreateTimer | FClearTimer
| FSetTimer | FCancelTimer | FSleepThread | FGetSystemTick
| FGetHandleInfo | FCreateMemoryBlock | FCreatePort | FCreateSessionToPort
| FCreateSession | FAcceptSession | FGetSystemInfo | FGetProcessInfo
| FGetThreadInfo | FGetProcessList | FInvalidateInstructionCacheRange | FInvalidateEntireInstructionCache
| FConvertVaToPa | FMapProcessMemoryEx | FUnmapProcessMemoryEx | FControlProcess.

Definition signature (f : fn) : option ty * list ty :=
  match f with
  | FControlMemory => (Some ResultT, [Ptr U32; U32; U32; U32; U32; U32])
  | FExitProcess => (None, [])
  | FTerminateProcess => (Some ResultT, [U32])
  | FMapMemoryBlock => (Some ResultT, [U32; U32; U32; U32])
  | FUnmapMemoryBlock => (Some ResultT, [U32; U32])
  | FConnectToPort => (Some ResultT, [Ptr U32; U32])
  | FSendSyncRequest => (Some ResultT, [U32])
  | FOpenProcess => (Some ResultT, [Ptr U32; U32])
  | FOpenThread => (Some ResultT, [Ptr U32; U32; U32])
  | FCloseHandle => (Some ResultT, [U32])
  | FWaitSynchronization1 => (Some ResultT, [U32; S64])
  | FWaitSynchronizationN => (Some ResultT, [Ptr S32; U32; S32; Bool; S64])
  | FReplyAndReceive => (Some ResultT, [Ptr S32; U32; S32; U32])
  | FInvalidateProcessDataCache => (Some ResultT, [U32; U32; U32])
  | FStoreProcessDataCache => (Some ResultT, [U32; U32; U32])
  | FFlushProcessDataCache => (Some ResultT, [U32; U32; U32])
  | FCreateAddressArbiter => (Some ResultT, [Ptr U32])
  | FArbitrateAddress => (Some ResultT, [U32; U32; U32; U32; S64])
  | FBreak => (None, [U8])
  | FOutputDebugString => (None, [U32; S32])
  | FGetResourceLimit => (Some ResultT, [Ptr U32; U32])
  | FGetResourceLimitCurrentValues => (Some ResultT, [U32; U32; U32; U32])
  | FGetResourceLimitLimitValues => (Some ResultT, [U32; U32; U32; U32])
  | FSetResourceLimitLimitValues => (Some ResultT, [U32; U32; U32; U32])
  | FCreateThread => (Some ResultT, [Ptr U32; U32; U32; U32; U32; S32])
  | FExitThread => (None, [])
  | FGetThreadPriority => (Some ResultT, [Ptr U32; U32])
  | FSetThreadPriority => (Some ResultT, [U32; U32])
  | FCreateMutex => (Some ResultT, [Ptr U32; U32])
  | FReleaseMutex => (Some ResultT, [U32])
  | FGetProcessId => (Some ResultT, [Ptr U32; U32])
  | FGetProcessIdOfThread => (Some ResultT, [Ptr U32; U32])
  | FGetThreadId => (Some ResultT, [Ptr U32; U32])
  | FCreateSemaphore => (Some ResultT, [Ptr U32; S32; S32])
  | FReleaseSemaphore => (Some ResultT, [Ptr S32; U32; S32])
  | FKernelSetState => (Some ResultT, [U32; U32; U32])
  | FQueryProcessMemory => (Some ResultT, [Ptr MemoryInfo; Ptr PageInfo; U32; U32])
  | FQueryMemory => (Some ResultT, [Ptr MemoryInfo; Ptr PageInfo; U32])
  | FCreateEvent => (Some ResultT, [Ptr U32; U32])
  | FDuplicateHandle => (Some ResultT, [Ptr U32; U32])
  | FSignalEvent => (Some ResultT, [U32])
  | FClearEvent => (Some ResultT, [U32])
  | FCreateTimer => (Some ResultT, [Ptr U32; U32])
  | FClearTimer => (Some ResultT, [U32])
  | FSetTimer => (Some ResultT, [U32; S64; S64])
  | FCancelTimer => (Some ResultT, [U32])
  | FSleepThread => (None, [S64])
  | FGetSystemTick => (Some S64, [])
  | FGetHandleInfo => (Some ResultT, [Ptr S64; U32; U32])
  | FCreateMemoryBlock => (Some ResultT, [Ptr U32; U32; U32; U32; U32])
  | FCreatePort => (Some ResultT, [Ptr U32; Ptr U32; U32; U32])
  | FCreateSessionToPort => (Some ResultT, [Ptr U32; U32])
  | FCreateSession => (Some ResultT, [Ptr U32; Ptr U32])
  | FAcceptSession => (Some ResultT, [Ptr U32; U32])
  | FGetSystemInfo => (Some ResultT, [Ptr S64; U32; S32])
  | FGetProcessInfo => (Some ResultT, [Ptr S64; U32; U32])
  | FGetThreadInfo => (Some ResultT, [Ptr S64; U32; U32])
  | FGetProcessList => (Some ResultT, [Ptr S32; U32; S32])
  | FInvalidateInstructionCacheRange => (Some ResultT, [U32; U32])
  | FInvalidateEntireInstructionCache => (Some ResultT, [])
  | FConvertVaToPa => (Some U32, [U32])
  | FMapProcessMemoryEx => (Some ResultT, [U32; U32; U32; U32; U32; Enum; U32])
  | FUnmapProcessMemoryEx => (Some ResultT, [U32; U32; U32])
  | FControlProcess => (Some ResultT, [U32; U32; U32; U32])
  end.

(** [Func]: no function, a wrapped one or one without parameters. *)
Inductive func := Null | Wrapped (f : fn) | Direct (f : fn).
Record FunctionDef := mk_def { id : Z; the_func : func; name : string; cycles : Z }.

Abbreviation e := mk_def.

(** The system calls of the console. *)
Definition known_svcs : list FunctionDef :=
  [ e 0x00 Null "Unknown" 0;
    e 0x01 (Wrapped FControlMemory) "ControlMemory" 1000;
    e 0x02 (Wrapped FQueryMemory) "QueryMemory" 1000;
    e 0x03 (Direct FExitProcess) "ExitProcess" 1000;
    e 0x04 Null "GetProcessAffinityMask" 1000;
    e 0x05 Null "SetProcessAffinityMask" 1000;
    e 0x06 Null "GetProcessIdealProcessor" 1000;
    e 0x07 Null "SetProcessIdealProcessor" 1000;
    e 0x08 (Wrapped FCreateThread) "CreateThread" 5214;
    e 0x09 (Direct FExitThread) "ExitThread" 1000;
    e 0x0A (Wrapped FSleepThread) "SleepThread" 946;
    e 0x0B (Wrapped FGetThreadPriority) "GetThreadPriority" 616;
    e 0x0C (Wrapped FSetThreadPriority) "SetThreadPriority" 1812;
    e 0x0D Null "GetThreadAffinityMask" 1000;
    e 0x0E Null "SetThreadAffinityMask" 1000;
    e 0x0F Null "GetThreadIdealProcessor" 1000;
    e 0x10 Null "SetThreadIdealProcessor" 1000;
    e 0x11 Null "GetCurrentProcessorNumber" 1000;
    e 0x12 Null "Run" 1000;
    e 0x13 (Wrapped FCreateMutex) "CreateMutex" 1000;
    e 0x14 (Wrapped FReleaseMutex) "ReleaseMutex" 1324;
    e 0x15 (Wrapped FCreateSemaphore) "CreateSemaphore" 1000;
    e 0x16 (Wrapped FReleaseSemaphore) "ReleaseSemaphore" 2713;
    e 0x17 (Wrapped FCreateEvent) "CreateEvent" 4329;
    e 0x18 (Wrapped FSignalEvent) "SignalEvent" 3285;
    e 0x19 (Wrapped FClearEvent) "ClearEvent" 1389;
    e 0x1A (Wrapped FCreateTimer) "CreateTimer" 1000;
    e 0x1B (Wrapped FSetTimer) "SetTimer" 5163;
    e 0x1C (Wrapped FCancelTimer) "CancelTimer" 1000;
    e 0x1D (Wrapped FClearTimer) "ClearTimer" 1000;
    e 0x1E (Wrapped FCreateMemoryBlock) "CreateMemoryBlock" 1000;
    e 0x1F (Wrapped FMapMemoryBlock) "MapMemoryBlock" 1000;
    e 0x20 (Wrapped FUnmapMemoryBlock) "UnmapMemoryBlock" 1000;
    e 0x21 (Wrapped FCreateAddressArbiter) "CreateAddressArbiter" 1000;
    e 0x22 (Wrapped FArbitrateAddress) "ArbitrateAddress" 5664;
    e 0x23 (Wrapped FCloseHandle) "CloseHandle" 2937;
    e 0x24 (Wrapped FWaitSynchronization1) "WaitSynchronization1" 4005;
    e 0x25 (Wrapped FWaitSynchronizationN) "WaitSynchronizationN" 6918;
    e 0x26 Null "SignalAndWait" 1000;
    e 0x27 (Wrapped FDuplicateHandle) "DuplicateHandle" 1000;
    e 0x28 (Wrapped FGetSystemTick) "GetSystemTick" 340;
    e 0x29 (Wrapped FGetHandleInfo) "GetHandleInfo" 1000;
    e 0x2A (Wrapped FGetSystemInfo) "GetSystemInfo" 1000;
    e 0x2B (Wrapped FGetProcessInfo) "GetProcessInfo" 1510;
    e 0x2C (Wrapped FGetThreadInfo) "GetThreadInfo" 1000;
    e 0x2D (Wrapped FConnectToPort) "ConnectToPort" 1000;
    e 0x2E Null "SendSyncRequest1" 1000;
    e 0x2F Null "SendSyncRequest2" 1000;
    e 0x30 Null "SendSyncRequest3" 1000;
    e 0x31 Null "SendSyncRequest4" 1000;
    e 0x32 (Wrapped FSendSyncRequest) "SendSyncRequest" 5825;
    e 0x33 (Wrapped FOpenProcess) "OpenProcess" 1000;
    e 0x34 (Wrapped FOpenThread) "OpenThread" 1000;
    e 0x35 (Wrapped FGetProcessId) "GetProcessId" 1000;
    e 0x36 (Wrapped FGetProcessIdOfThread) "GetProcessIdOfThread" 1000;
    e 0x37 (Wrapped FGetThreadId) "GetThreadId" 677;
    e 0x38 (Wrapped FGetResourceLimit) "GetResourceLimit" 1000;
    e 0x39 (Wrapped FGetResourceLimitLimitValues) "GetResourceLimitLimitValues" 1000;
    e 0x3A (Wrapped FGetResourceLimitCurrentValues) "GetResourceLimitCurrentValues" 1000;
    e 0x3B Null "GetThreadContext" 1000;
    e 0x3C (Wrapped FBreak) "Break" 1000;
    e 0x3D (Wrapped FOutputDebugString) "OutputDebugString" 1000;
    e 0x3E Null "ControlPerformanceCounter" 1000;
    e 0x3F Null "Unknown" 1000;
    e 0x40 Null "Unknown" 1000;
    e 0x41 Null "Unknown" 1000;
    e 0x42 Null "Unknown" 1000;
    e 0x43 Null "Unknown" 1000;
    e 0x44 Null "Unknown" 1000;
    e 0x45 Null "Unknown" 1000;
    e 0x46 Null "Unknown" 1000;
    e 0x47 (Wrapped FCreatePort) "CreatePort" 1000;
    e 0x48 (Wrapped FCreateSessionToPort) "CreateSessionToPort" 5122;
    e 0x49 (Wrapped FCreateSession) "CreateSession" 3492;
    e 0x4A (Wrapped FAcceptSession) "AcceptSession" 1842;
    e 0x4B Null "ReplyAndReceive1" 1000;
    e 0x4C Null "ReplyAndReceive2" 1000;
    e 0x4D Null "ReplyAndReceive3" 1000;
    e 0x4E Null "ReplyAndReceive4" 1000;
    e 0x4F (Wrapped FReplyAndReceive) "ReplyAndReceive" 8762;
    e 0x50 Null "BindInterrupt" 1000;
    e 0x51 Null "UnbindInterrupt" 1000;
    e 0x52 (Wrapped FInvalidateProcessDataCache) "InvalidateProcessDataCache" 9609;
    e 0x53 (Wrapped FStoreProcessDataCache) "StoreProcessDataCache" 7174;
    e 0x54 (Wrapped FFlushProcessDataCache) "FlushProcessDataCache" 9084;
    e 0x55 Null "StartInterProcessDma" 9146;
    e 0x56 Null "StopDma" 1163;
    e 0x57 Null "GetDmaState" 2222;
    e 0x58 Null "RestartDma" 8096;
    e 0x59 Null "SetGpuProt" 356;
    e 0x5A Null "SetWifiEnabled" 1000;
    e 0x5B Null "Unknown" 1000;
    e 0x5C Null "Unknown" 1000;
    e 0x5D Null "Unknown" 1000;
    e 0x5E Null "Unknown" 1000;
    e 0x5F Null "Unknown" 1000;
    e 0x60 Null "DebugActiveProcess" 1000;
    e 0x61 Null "BreakDebugProcess" 1000;
    e 0x62 Null "TerminateDebugProcess" 1000;
    e 0x63 Null "GetProcessDebugEvent" 1000;
    e 0x64 Null "ContinueDebugEvent" 1000;
    e 0x65 (Wrapped FGetProcessList) "GetProcessList" 1000;
    e 0x66 Null "GetThreadList" 1000;
    e 0x67 Null "GetDebugThreadContext" 1000;
    e 0x68 Null "SetDebugThreadContext" 1000;
    e 0x69 Null "QueryDebugProcessMemory" 1000;
    e 0x6A Null "ReadProcessMemory" 1000;
    e 0x6B Null "WriteProcessMemory" 1000;
    e 0x6C Null "SetHardwareBreakPoint" 1000;
    e 0x6D Null "GetDebugThreadParam" 1000;
    e 0x6E Null "Unknown" 1000;
    e 0x6F Null "Unknown" 1000;
    e 0x70 Null "ControlProcessMemory" 1000;
    e 0x71 Null "MapProcessMemory" 1000;
    e 0x72 Null "UnmapProcessMemory" 1000;
    e 0x73 Null "CreateCodeSet" 1000;
    e 0x74 Null "RandomStub" 1000;
    e 0x75 Null "CreateProcess" 1000;
    e 0x76 (Wrapped FTerminateProcess) "TerminateProcess" 1000;
    e 0x77 Null "SetProcessResourceLimits" 1000;
    e 0x78 Null "CreateResourceLimit" 1000;
    e 0x79 (Wrapped FSetResourceLimitLimitValues) "SetResourceLimitLimitValues" 1000;
    e 0x7A Null "AddCodeSegment" 1000;
    e 0x7B Null "Backdoor" 1000;
    e 0x7C (Wrapped FKernelSetState) "KernelSetState" 1000;
    e 0x7D (Wrapped FQueryProcessMemory) "QueryProcessMemory" 1000 ].

(** The custom ones. *)
Definition custom_svcs : list FunctionDef :=
  [ e 0x7E Null "Unused" 1000;
    e 0x7F Null "Unused" 1000;
    e 0x80 Null "CustomBackdoor" 1000;
    e 0x81 Null "Unused" 1000;
    e 0x82 Null "Unused" 1000;
    e 0x83 Null "Unused" 1000;
    e 0x84 Null "Unused" 1000;
    e 0x85 Null "Unused" 1000;
    e 0x86 Null "Unused" 1000;
    e 0x87 Null "Unused" 1000;
    e 0x88 Null "Unused" 1000;
    e 0x89 Null "Unused" 1000;
    e 0x8A Null "Unused" 1000;
    e 0x8B Null "Unused" 1000;
    e 0x8C Null "Unused" 1000;
    e 0x8D Null "Unused" 1000;
    e 0x8E Null "Unused" 1000;
    e 0x8F Null "Unused" 1000;
    e 0x90 (Wrapped FConvertVaToPa) "ConvertVaToPa" 1000;
    e 0x91 Null "FlushDataCacheRange" 1000;
    e 0x92 Null "FlushEntireDataCache" 1000;
    e 0x93 (Wrapped FInvalidateInstructionCacheRange) "InvalidateInstructionCacheRange" 1000;
    e 0x94 (Wrapped FInvalidateEntireInstructionCache) "InvalidateEntireInstructionCache" 1000;
    e 0x95 Null "Unused" 1000;
    e 0x96 Null "Unused" 1000;
    e 0x97 Null "Unused" 1000;
    e 0x98 Null "Unused" 1000;
    e 0x99 Null "Unused" 1000;
    e 0x9A Null "Unused" 1000;
    e 0x9B Null "Unused" 1000;
    e 0x9C Null "Unused" 1000;
    e 0x9D Null "Unused" 1000;
    e 0x9E Null "Unused" 1000;
    e 0x9F Null "Unused" 1000;
    e 0xA0 (Wrapped FMapProcessMemoryEx) "MapProcessMemoryEx" 1000;
    e 0xA1 (Wrapped FUnmapProcessMemoryEx) "UnmapProcessMemoryEx" 1000;
    e 0xA2 Null "ControlMemoryEx" 1000;
    e 0xA3 Null "ControlMemoryUnsafe" 1000;
    e 0xA4 Null "Unused" 1000;
    e 0xA5 Null "Unused" 1000;
    e 0xA6 Null "Unused" 1000;
    e 0xA7 Null "Unused" 1000;
    e 0xA8 Null "Unused" 1000;
    e 0xA9 Null "Unused" 1000;
    e 0xAA Null "Unused" 1000;
    e 0xAB Null "Unused" 1000;
    e 0xAC Null "Unused" 1000;
    e 0xAD Null "Unused" 1000;
    e 0xAE Null "Unused" 1000;
    e 0xAF Null "Unused" 1000;
    e 0xB0 Null "ControlService" 1000;
    e 0xB1 Null "CopyHandle" 1000;
    e 0xB2 Null "TranslateHandle" 1000;
    e 0xB3 (Wrapped FControlProcess) "ControlProcess" 1000 ].

Definition SVC_Table : list FunctionDef := known_svcs ++ custom_svcs.

Definition GetSVCInfo (func_num : Z) : option FunctionDef :=
  if Z.of_nat (length SVC_Table) <=? func_num then None else SVC_Table !! Z.to_nat func_num.

(** ** Which registers a signature uses *)

(** The words of the inputs and of the outputs of a signature. *)
Fixpoint input_words (ts : list ty) (i : Z) : list (Z * nat) :=
  match ts with
  | [] => []
  | t :: ts => (if is_pointer t then [] else (fun j => (i, j)) <$> seq 0 (WordSize t)) ++ input_words ts (i + 1)
  end.

Definition ret_words (R : option ty) : nat := match R with Some t => WordSize t | None => 0 end.

(** The outputs take the registers from [o] on, in order. *)
Fixpoint outs_at (abi : SVCABI) (ts : list ty) (i : Z) (o : nat) : bool :=
  match ts with
  | [] => (o <=? RegCount)%nat
  | Ptr t :: ts =>
      bool_decide (GetRegIndices abi i (WordSize t) = seqZ (Z.of_nat o) (Z.of_nat (WordSize t))) &&
      outs_at abi ts (i + 1) (o + WordSize t)
  | _ :: ts => outs_at abi ts (i + 1) o
  end.

Definition abi_ok (R : option ty) (ts : list ty) (abi : SVCABI) : bool :=
  let rs := (fun w => GetRegisterIndex abi w.1 w.2) <$> input_words ts 0 in
  bool_decide (NoDup rs) && forallb (fun r => (0 <=? r) && (r <? Z.of_nat RegCount)) rs &&
  bool_decide (GetRegIndices abi INDEX_RETURN (ret_words R) = seqZ 0 (Z.of_nat (ret_words R))) &&
  outs_at abi ts 0 (ret_words R).

(** An input that the ARM calling convention passes in a register stays there. *)
Definition keeps_arm (ts : list ty) (abi : SVCABI) : bool :=
  match arm_abi ts with
  | Done a => forallb (fun k =>
      match armabi_reg a !! k with
      | Some s => negb (used s) || is_output ts s || bool_decide (GetRegisterIndex abi (param_index s) (word_index s) = Z.of_nat k)
      | None => true
      end) (seq 0 4)
  | Stop _ => false
  end.

Definition sig_ok (f : fn) : bool :=
  match GetSVCABI (signature f).1 (signature f).2 with
  | Done abi => abi_ok (signature f).1 (signature f).2 abi && keeps_arm (signature f).2 abi
  | Stop _ => false
  end.

Lemma every_sig_ok f : sig_ok f = true.
Proof. destruct f; vm_compute; reflexivity. Qed.

(** ** Values and words *)

Definition word (z : Z) : Prop := 0 <= z < 2 ^ 32.

Definition typed (t : ty) (v : value) : Prop :=
  is_pointer t = false /\
  match v with
  | VWords l => is_class t = true /\ length l = WordSize t
  | VInt z => is_class t = false /\ cast t z = z
  end.

Lemma word_size_cases t : is_pointer t = false -> is_class t = false ->
  WordSize t = 1%nat \/ (WordSize t = 2%nat /\ (t = U64 \/ t = S64)).
Proof. destruct t; try discriminate; intros _ _; cbv; auto. Qed.

Lemma words_length t v : typed t v -> length (to_words t v) = WordSize t.
Proof.
  intros [Hp Hv]. destruct v as [z|l]; [|by destruct Hv]. destruct Hv as [Hc _].
  destruct (word_size_cases t Hp Hc) as [H|[H _]]; unfold to_words; by rewrite H.
Qed.

(** Decoding inverts encoding. *)
Lemma of_to_words t v : typed t v -> of_words t (to_words t v) = Done v.
Proof.
  intros [Hp Hv]. destruct v as [z|l]; destruct Hv as [Hc Hv]; unfold of_words, to_words; rewrite Hc; [|done].
  destruct (word_size_cases t Hp Hc) as [E|[E Ht]]; rewrite E; simpl.
  - do 2 f_equal. destruct t; try discriminate; simpl in *; revert Hv; [zdm|zdm|zdm| |zdm].
    destruct (Z.eqb_spec z 0) as [->|]; [done|]. intros <-. done.
  - do 2 f_equal. change 0xFFFFFFFF with (Z.ones 32). rewrite Z.land_ones by lia.
    rewrite lor_shiftl_add by (try apply Z.mod_pos_bound; lia). rewrite Z.shiftr_div_pow2 by lia.
    destruct Ht as [-> | ->]; simpl in *; revert Hv; zdm.
Qed.

(** Reading and writing runs of registers. *)
Lemma set_regs_run ws : forall o regs, (o + length ws <= length regs)%nat ->
  set_regs (seqZ (Z.of_nat o) (Z.of_nat (length ws))) ws regs =
  Done (take o regs ++ ws ++ drop (o + length ws) regs).
Proof.
  induction ws as [|w ws IH]; intros o regs Hl.
  - rewrite seqZ_nil by (simpl; lia). simpl. by rewrite Nat.add_0_r, take_drop.
  - simpl length in *. rewrite seqZ_cons by lia. cbn [set_regs]. unfold SetReg, store.
    rewrite Nat2Z.id. destruct (Nat.ltb_spec o (length regs)); [|lia]. cbn [mbind outcome_bind].
    replace (Z.succ (Z.of_nat o)) with (Z.of_nat (S o)) by lia.
    replace (Z.pred (Z.of_nat (S (length ws)))) with (Z.of_nat (length ws)) by lia.
    rewrite IH by (rewrite length_insert; lia). f_equal.
    rewrite (take_S_r _ o w) by (rewrite list_lookup_insert_eq; done || lia).
    rewrite take_insert_ge, drop_insert_lt by lia.
    rewrite <- app_assoc. simpl. do 3 f_equal. f_equal. lia.
Qed.

Definition result_words (R : option ty) (r : option value) : list Z :=
  match R, r with Some t, Some v => to_words t v | _, _ => [] end.
Fixpoint output_words (ts : list ty) (outputs : list value) : list Z :=
  match ts with
  | [] => []
  | Ptr t :: ts => match outputs with v :: outputs => to_words t v ++ output_words ts outputs | [] => [] end
  | _ :: ts => output_words ts outputs
  end.

(** The arguments are in the registers the ABI assigns them. *)
Fixpoint loaded (abi : SVCABI) (ts : list ty) (i : Z) (args : list value) (regs : list Z) : Prop :=
  match ts, args with
  | [], [] => True
  | Ptr _ :: ts, _ => loaded abi ts (i + 1) args regs
  | t :: ts, v :: args =>
      typed t v /\ get_regs regs (GetRegIndices abi i (WordSize t)) = Done (to_words t v) /\
      loaded abi ts (i + 1) args regs
  | _, _ => False
  end.

Definition typed_result (R : option ty) (r : option value) : Prop :=
  match R, r with Some t, Some v => typed t v | None, _ => True | _, _ => False end.
Fixpoint typed_outputs (ts : list ty) (outputs : list value) : Prop :=
  match ts, outputs with
  | [], [] => True
  | Ptr t :: ts, v :: outputs => typed t v /\ typed_outputs ts outputs
  | Ptr _ :: _, [] => False
  | _ :: ts, _ => typed_outputs ts outputs
  | [], _ :: _ => False
  end.

Lemma SetParam_run abi i t v o regs : typed t v -> (o + WordSize t <= length regs)%nat ->
  GetRegIndices abi i (WordSize t) = seqZ (Z.of_nat o) (Z.of_nat (WordSize t)) ->
  SetParam abi i t v regs = Done (take o regs ++ to_words t v ++ drop (o + WordSize t) regs).
Proof.
  intros Hv Hl Hi. unfold SetParam. rewrite Hi, <- (words_length t v Hv). apply set_regs_run.
  by rewrite (words_length t v Hv).
Qed.

Lemma outs_at_le abi ts : forall i o, outs_at abi ts i o = true -> (o <= RegCount)%nat.
Proof.
  induction ts as [|u ts IH]; intros i o H; simpl in H; [by apply Nat.leb_le|].
  destruct u; try (by apply (IH (i + 1) o)). apply andb_true_iff in H as [_ H]. apply IH in H. lia.
Qed.

(** [SetParam] on a run of registers, given as a concatenation. *)
Lemma SetParam_app abi i t v L P B : typed t v -> length P = WordSize t ->
  GetRegIndices abi i (WordSize t) = seqZ (Z.of_nat (length L)) (Z.of_nat (WordSize t)) ->
  SetParam abi i t v (L ++ P ++ B) = Done (L ++ to_words t v ++ B).
Proof.
  intros Hv Hp Hi. rewrite (SetParam_run abi i t v (length L)); [|done| |done].
  - rewrite take_app_length, (drop_app_add' _ _ (length L)) by done.
    by rewrite drop_app_length' by done.
  - rewrite !length_app. lia.
Qed.

Section Pass.
Context {St : Type} (R : option ty) (abi : SVCABI) (svc : list value -> St -> option value * list value * St).
Context (r : option value) (outputs : list value) (st st' : St).
Context (Hr : typed_result R r)
  (Hret : GetRegIndices abi INDEX_RETURN (ret_words R) = seqZ 0 (Z.of_nat (ret_words R))).

Lemma pass_input t ts i k inputs args regs : is_pointer t = false ->
  loaded abi (t :: ts) i args regs -> exists v args', args = v :: args' /\
    loaded abi ts (i + 1) args' regs /\
    WrapPass R abi svc (t :: ts) i k inputs regs st = WrapPass R abi svc ts (i + 1) k (inputs ++ [v]) regs st.
Proof using Type.
  intros Hp Hld. destruct t; try discriminate; destruct args as [|v0 args]; try done;
    destruct Hld as (Hv & Hg & Hld); exists v0, args; (split; [done|]); (split; [done|]);
    cbn [WrapPass]; unfold GetParam; rewrite Hg; cbn [mbind outcome_bind]; by rewrite of_to_words.
Qed.

(** The registers [M] between the return value and the outputs of [ts] are not
    yet written when the parameters [ts] are done. *)
Lemma pass_ok ts : forall i k inputs args A M B,
  svc (inputs ++ args) st = (r, outputs, st') -> length A = ret_words R ->
  (RegCount <= length (A ++ M ++ B))%nat -> loaded abi ts i args (A ++ M ++ B) ->
  outs_at abi ts i (length A + length M) = true -> typed_outputs ts (drop k outputs) ->
  WrapPass R abi svc ts i k inputs (A ++ M ++ B) st =
    Done (outputs, result_words R r ++ M ++ output_words ts (drop k outputs) ++
                   drop (length (output_words ts (drop k outputs))) B, st') /\
  (length (output_words ts (drop k outputs)) <= length B)%nat.
Proof using Hr Hret.
  induction ts as [|t ts IH]; intros i k inputs args A M B Hsvc HA Hlen Hld Hat Hout.
  - destruct args as [|? args]; [|done]. rewrite app_nil_r in Hsvc. simpl output_words. simpl length.
    rewrite drop_0. split; [|lia]. cbn [WrapPass]. rewrite Hsvc.
    unfold typed_result, ret_words, result_words in *. destruct R as [t|], r as [v|]; try done.
    + rewrite <- (app_nil_l (A ++ _)), (SetParam_app abi INDEX_RETURN t v [] A); done.
    + by apply nil_length_inv in HA as ->.
    + by apply nil_length_inv in HA as ->.
  - destruct (is_pointer t) eqn:Hp.
    + destruct t as [| | | | | | | | | |t]; try discriminate. cbn [loaded outs_at] in *.
      apply andb_true_iff in Hat as [Hi Hat]. apply bool_decide_eq_true in Hi.
      destruct (drop k outputs) as [|v outs'] eqn:Hk; [done|]. destruct Hout as [Hv Hout].
      assert (drop (S k) outputs = outs') as Hk'.
      { by rewrite <- Nat.add_1_r, <- drop_drop, Hk. }
      assert (outputs !! k = Some v) as Hl.
      { by rewrite <- (Nat.add_0_r k), <- lookup_drop, Hk. }
      assert (length A + length M + WordSize t <= RegCount)%nat as Hfit.
      { by eapply outs_at_le. }
      rewrite <- (take_drop (WordSize t) B) in *. set (P := take (WordSize t) B) in *. set (B' := drop (WordSize t) B) in *.
      assert (length P = WordSize t) as HP.
      { subst P. rewrite length_take. subst B'. rewrite !length_app, length_take, length_drop in Hlen. lia. }
      rewrite (app_assoc M P B') in Hlen, Hld |- *.
      destruct (IH (i + 1) (S k) inputs args A (M ++ P) B') as (E & L); try done.
      { by rewrite length_app, HP, Nat.add_assoc. }
      { by rewrite Hk'. }
      rewrite Hk' in *. cbn [WrapPass output_words]. rewrite E. cbn [mbind outcome_bind]. rewrite Hl.
      cbn [of_opt mbind outcome_bind]. rewrite length_app, (words_length t v Hv). split; [|rewrite length_app; lia].
      assert (length (result_words R r) = ret_words R) as Hrl.
      { clear -Hr. unfold result_words, ret_words, typed_result in *. destruct R, r; try done. by apply words_length. }
      rewrite <- (app_assoc M), (app_assoc _ M).
      rewrite (SetParam_app abi i t v (result_words R r ++ M) P); [|done|done|by rewrite length_app, Hrl, <- HA].
      cbn [mbind outcome_bind]. rewrite <- !app_assoc. do 5 f_equal.
      by rewrite <- HP, drop_app_add.
    + destruct (pass_input t ts i k inputs args _ Hp Hld) as (v & args' & -> & Hld' & ->).
      replace (output_words (t :: ts) (drop k outputs)) with (output_words ts (drop k outputs)) by by destruct t.
      eapply (IH (i + 1) k (inputs ++ [v]) args'); try done; [by rewrite <- app_assoc| |].
      * by destruct t.
      * by destruct t.
Qed.

End Pass.

(** The table of system calls is indexed by the identifiers.  For every
    signature the ABI is derived without leaving an array; the input words get
    pairwise different registers among r0 to r7, an input that the ARM calling
    convention passes in a register stays in it, the return value is in r0 (and
    r1) and the outputs follow it in the order of the parameters. *)
Theorem svc_abi_registers :
  (forall n d, 0 <= n -> GetSVCInfo n = Some d <-> n < 180 /\ SVC_Table !! Z.to_nat n = Some d /\ id d = n) /\
  forall f, exists abi a, let '(R, ts) := signature f in
    GetSVCABI R ts = Done abi /\ arm_abi ts = Done a /\
    NoDup ((fun w => GetRegisterIndex abi w.1 w.2) <$> input_words ts 0) /\
    (forall w, w ∈ input_words ts 0 -> 0 <= GetRegisterIndex abi w.1 w.2 < 8) /\
    (forall k s, (k < 4)%nat -> armabi_reg a !! k = Some s -> used s = true -> is_output ts s = false ->
       GetRegisterIndex abi (param_index s) (word_index s) = Z.of_nat k) /\
    GetRegIndices abi INDEX_RETURN (ret_words R) = seqZ 0 (Z.of_nat (ret_words R)) /\
    outs_at abi ts 0 (ret_words R) = true.
Proof.
  split.
  - intros n d Hn. assert (forallb (fun p => id p.2 =? Z.of_nat p.1) (zip (seq 0 180) SVC_Table) = true) as Hids
      by (vm_compute; reflexivity).
    assert (length SVC_Table = 180%nat) as Hl by reflexivity.
    unfold GetSVCInfo. rewrite Hl. destruct (Z.leb_spec (Z.of_nat 180) n); [split; [done|lia]|].
    split; [|by intros (_ & ? & _)]. intros Hd. split_and!; [lia|done|].
    rewrite forallb_forall in Hids. apply Z.eqb_eq. rewrite <- (Z2Nat.id n Hn) at 1.
    apply (Hids (Z.to_nat n, d)). apply list_elem_of_In, list_elem_of_lookup. exists (Z.to_nat n).
    rewrite lookup_zip_with, lookup_seq_lt by lia. simpl. by rewrite Hd.
  - intros f. pose proof (every_sig_ok f) as H. unfold sig_ok, keeps_arm in H.
    destruct (signature f) as [R ts]. cbn [fst snd] in H. destruct (GetSVCABI R ts) as [abi|]; [|done].
    apply andb_true_iff in H as [H1 H2]. destruct (arm_abi ts) as [a|]; [|done]. exists abi, a.
    unfold abi_ok in H1. apply andb_true_iff in H1 as [H1 H3]. apply andb_true_iff in H1 as [H1 H4].
    apply andb_true_iff in H1 as [H1 H5]. apply bool_decide_eq_true in H1, H4. split_and!; try done.
    + intros w Hw. rewrite forallb_forall in H5.
      assert (GetRegisterIndex abi w.1 w.2 ∈ (fun w => GetRegisterIndex abi w.1 w.2) <$> input_words ts 0) as Hin
        by (apply list_elem_of_fmap; eauto).
      apply list_elem_of_In in Hin. specialize (H5 _ Hin). apply andb_true_iff in H5 as [?%Z.leb_le ?%Z.ltb_lt]. done.
    + intros k s Hk Hs Hu Ho. rewrite forallb_forall in H2. assert (In k (seq 0 4)) as Hin by (apply in_seq; lia).
      specialize (H2 k Hin). rewrite Hs, Hu, Ho in H2. by apply bool_decide_eq_true in H2.
Qed.

(** C33: A wrapped system call is given exactly the arguments that were loaded into
    the registers of its ABI, whatever their widths and signs; afterwards r0, r1,
    ... hold the words of the return value and of the outputs in order and the
    other registers are unchanged. *)
Theorem svc_call_roundtrip {St} f abi args regs r outputs (st st' : St) svc :
  let '(R, ts) := signature f in
  GetSVCABI R ts = Done abi -> (RegCount <= length regs)%nat -> loaded abi ts 0 args regs ->
  svc args st = (r, outputs, st') -> typed_result R r -> typed_outputs ts outputs ->
  let ws := result_words R r ++ output_words ts outputs in
  Wrap R ts svc regs st = Done (ws ++ drop (length ws) regs, st').
Proof.
  pose proof (every_sig_ok f) as H. unfold sig_ok in H. destruct (signature f) as [R ts]. cbn [fst snd] in H.
  intros Habi Hlen Hld Hsvc Hr Hout ws. rewrite Habi in H. apply andb_true_iff in H as [H _].
  unfold abi_ok in H. apply andb_true_iff in H as [H Hat]. apply andb_true_iff in H as [_ Hret].
  apply bool_decide_eq_true in Hret. unfold Wrap. rewrite Habi. cbn [mbind outcome_bind].
  assert (length (result_words R r) = ret_words R) as Hrl.
  { unfold result_words, ret_words, typed_result in *. destruct R, r; try done. by apply words_length. }
  pose proof (outs_at_le _ _ _ _ Hat) as Hfit.
  rewrite <- (take_drop (ret_words R) regs) in Hlen, Hld |- *.
  assert (length (take (ret_words R) regs) = ret_words R) as Ht.
  { rewrite length_take. rewrite take_drop in Hlen. lia. }
  destruct (pass_ok R abi svc r outputs st st' Hr Hret ts 0 0 [] args (take (ret_words R) regs) []
    (drop (ret_words R) regs)) as [E L]; try done.
  { by rewrite Ht, Nat.add_0_r. }
  rewrite app_nil_l in E. rewrite drop_0 in *. rewrite E. cbn [mbind outcome_bind]. do 2 f_equal. subst ws.
  by rewrite <- app_assoc, take_drop, length_app, Hrl, drop_drop.
Qed.

(** [WaitSynchronizationN]: the timeout is split over r0 and r4. *)
Definition wait_n (args : list value) (st : Z) : option value * list value * Z :=
  match args with
  | [VInt handles; VInt count; VInt wait_all; VInt ns] =>
      (Some (VWords [7]), [VInt (-1)], handles + count + wait_all + ns)
  | _ => (None, [], 0)
  end.

Lemma svc_call_roundtrip_witness :
  Wrap (Some ResultT) [Ptr S32; U32; S32; Bool; S64] wait_n
    [0xFFFFFFFE; 0x1000; 2; 1; 0xFFFFFFFF; 5; 6; 7; 8] 0 =
  Done ([7; 0xFFFFFFFF; 2; 1; 0xFFFFFFFF; 5; 6; 7; 8], 0x1001).
Proof.
  exact (svc_call_roundtrip FWaitSynchronizationN
    (mk_abi (mk_slot true 4 0 :: mk_slot true 1 0 :: mk_slot true 2 0 :: mk_slot true 3 0 :: mk_slot true 4 1 :: replicate 3 no_slot)
            (mk_slot true INDEX_RETURN 0 :: mk_slot true 0 0 :: replicate 6 no_slot))
    [VInt 0x1000; VInt 2; VInt 1; VInt (-2)] [0xFFFFFFFE; 0x1000; 2; 1; 0xFFFFFFFF; 5; 6; 7; 8]
    (Some (VWords [7])) [VInt (-1)] 0 0x1001 wait_n eq_refl ltac:(vm_compute; lia)
    ltac:(repeat split) eq_refl ltac:(repeat split) ltac:(repeat split)).
Defined.

End Abi.
