(* ===== verification/HandleTable.v ===== *)
(** * Handle table of a process

    Model of [HandleTable] (core/hle/kernel/handle_table.cpp): handles are a
    slot index and a generation; the generations of the empty slots form the
    linked list of free slots. *)
From S2P Require Import Prelude Results.

Module Handle.
Import Res.

Definition MAX_COUNT : Z := 4096.
Definition CurrentThread : Z := 0xFFFF8000.
Definition CurrentProcess : Z := 0xFFFF8001.

Definition GetSlot (handle : Z) : Z := u16 (Z.shiftr handle 15).
Definition GetGeneration (handle : Z) : Z := u16 (Z.land handle 0x7FFF).

Section Table.
Context {Obj : Type}.

Record table := mk_table {
  objects : list (option Obj);
  generations : list Z;
  next_generation : Z;
  next_free_slot : Z;
}.

(** [Clear]: every slot empty and linked to the next one. *)
Definition Clear (t : table) : table :=
  mk_table (replicate (Z.to_nat MAX_COUNT) None)
    ((fun i => Z.of_nat i + 1) <$> seq 0 (Z.to_nat MAX_COUNT)) (next_generation t) 0.

(** The constructor. *)
Definition new : table := Clear (mk_table [] [] 1 0).

Definition Create (obj : Obj) (t : table) : outcome (result_val Z * table) :=
  let slot := next_free_slot t in
  if negb (slot <? MAX_COUNT) then Done (Err ResultOutOfHandles, t)
  else
    next ← of_opt FOutOfRange (generations t !! Z.to_nat slot);
    let generation := next_generation t in
    let ng := u16 (next_generation t + 1) in
    let ng := if Z.shiftl 1 15 <=? ng then 1 else ng in
    Done (Val (u32 (Z.lor generation (Z.shiftl slot 15))),
          mk_table (<[Z.to_nat slot := Some obj]> (objects t))
                   (<[Z.to_nat slot := generation]> (generations t)) ng next).

Definition IsValid (t : table) (handle : Z) : bool :=
  let slot := GetSlot handle in
  (slot <? MAX_COUNT) &&
  match objects t !! Z.to_nat slot with Some (Some _) => true | _ => false end &&
  match generations t !! Z.to_nat slot with
  | Some g => g =? GetGeneration handle
  | None => false
  end.

Definition Close (handle : Z) (t : table) : result * table :=
  if negb (IsValid t handle) then (ResultInvalidHandle, t)
  else
    let slot := GetSlot handle in
    (ResultSuccess,
     mk_table (<[Z.to_nat slot := None]> (objects t))
              (<[Z.to_nat slot := next_free_slot t]> (generations t)) (next_generation t) slot).

(** The running thread and process, that the pseudo handles stand for. *)
Context (current_thread current_process : option Obj).

Definition GetGeneric (t : table) (handle : Z) : option Obj :=
  if handle =? CurrentThread then current_thread
  else if handle =? CurrentProcess then current_process
  else if negb (IsValid t handle) then None
  else match objects t !! Z.to_nat (GetSlot handle) with Some o => o | None => None end.

Definition Duplicate (handle : Z) (t : table) : outcome (result_val Z * table) :=
  match GetGeneric t handle with
  | None => Done (Err ResultInvalidHandle, t)
  | Some o => Create o t
  end.

(** ** Invariant *)

(** The free list from slot [s] is [l], and ends at [MAX_COUNT]. *)
Fixpoint free_list (t : table) (s : Z) (l : list nat) : Prop :=
  match l with
  | [] => s = MAX_COUNT
  | i :: l => s = Z.of_nat i /\ objects t !! i = Some None /\
              exists g, generations t !! i = Some g /\ free_list t g l
  end.

Record wf (t : table) : Prop := {
  wf_objects : length (objects t) = Z.to_nat MAX_COUNT;
  wf_generations : length (generations t) = Z.to_nat MAX_COUNT;
  wf_next : 1 <= next_generation t < 2 ^ 15;
  wf_free : exists l, free_list t (next_free_slot t) l /\ NoDup l /\
              (forall i, objects t !! i = Some None -> i ∈ l);
  wf_used : forall i o g, objects t !! i = Some (Some o) -> generations t !! i = Some g ->
              1 <= g < 2 ^ 15;
}.

(** What a handle refers to, pseudo handles aside. *)
Definition lookup_handle (t : table) (handle : Z) : option Obj :=
  if IsValid t handle then mjoin (objects t !! Z.to_nat (GetSlot handle)) else None.

End Table.
Arguments table : clear implicits.

(** ** Arithmetic of handles *)

Definition encode (generation slot : Z) : Z := u32 (Z.lor generation (Z.shiftl slot 15)).

Lemma encode_sum g s : 0 <= g < 2 ^ 15 -> 0 <= s < MAX_COUNT -> encode g s = g + s * 2 ^ 15.
Proof.
  intros Hg Hs. unfold encode, MAX_COUNT in *.
  rewrite lor_shiftl_add by lia. apply u32_small. lia.
Qed.

Lemma GetSlot_encode g s : 0 <= g < 2 ^ 15 -> 0 <= s < MAX_COUNT -> GetSlot (encode g s) = s.
Proof.
  intros Hg Hs. rewrite encode_sum by done. unfold GetSlot, MAX_COUNT in *.
  rewrite Z.shiftr_div_pow2, Z.div_add, Z.div_small by lia. apply u16_small. lia.
Qed.

Lemma GetGeneration_encode g s :
  0 <= g < 2 ^ 15 -> 0 <= s < MAX_COUNT -> GetGeneration (encode g s) = g.
Proof.
  intros Hg Hs. rewrite encode_sum by done. unfold GetGeneration, MAX_COUNT in *.
  change 0x7FFF with (Z.ones 15). rewrite Z.land_ones, Z.mod_add, Z.mod_small by lia.
  apply u16_small. lia.
Qed.

Lemma GetSlot_range h : 0 <= GetSlot h < 2 ^ 16.
Proof. by apply wrap_range. Qed.

(** A handle below bit 31 is determined by its slot and generation. *)
Lemma handle_ext h h' : 0 <= h < 2 ^ 31 -> 0 <= h' < 2 ^ 31 ->
  GetSlot h = GetSlot h' -> GetGeneration h = GetGeneration h' -> h = h'.
Proof.
  intros Hh Hh'. unfold GetSlot, GetGeneration. change 0x7FFF with (Z.ones 15).
  rewrite !Z.land_ones, !Z.shiftr_div_pow2 by lia. zdm.
Qed.

(** [handle >> 15] has 17 bits for a 32-bit handle; the cast to [u16] drops
    the top one. *)
Lemma GetSlot_bit31 h : GetSlot (h + 2 ^ 31) = GetSlot h.
Proof. unfold GetSlot. rewrite !Z.shiftr_div_pow2 by lia. zdm. Qed.

Lemma GetGeneration_bit31 h : GetGeneration (h + 2 ^ 31) = GetGeneration h.
Proof. unfold GetGeneration. change 0x7FFF with (Z.ones 15). rewrite !Z.land_ones by lia. zdm. Qed.

Lemma MAX_COUNT_eq : MAX_COUNT = 4096.
Proof. done. Qed.
#[local] Opaque MAX_COUNT GetSlot GetGeneration encode.

Section Proofs.
Context {Obj : Type} (current_thread current_process : option Obj).
Implicit Types t : table Obj.

Lemma free_list_frame t t' l : forall s,
  free_list t s l ->
  (forall i, i ∈ l -> objects t' !! i = objects t !! i /\ generations t' !! i = generations t !! i) ->
  free_list t' s l.
Proof.
  induction l as [|i l IH]; intros s; simpl; [done|].
  intros (-> & Ho & g & Hg & Hl) Hf. destruct (Hf i) as [Eo Eg]; [set_solver|].
  split_and!; [done | congruence |]. exists g. split; [congruence|].
  apply IH; [done|]. set_solver.
Qed.

Lemma wf_lookup t i : wf t -> (i < Z.to_nat MAX_COUNT)%nat ->
  exists o g, objects t !! i = Some o /\ generations t !! i = Some g.
Proof.
  intros [Ho Hg _ _ _] Hi.
  destruct (in_range_lookup (objects t) i) as [o ?]; [lia|].
  destruct (in_range_lookup (generations t) i) as [g ?]; [lia|]. eauto.
Qed.

Lemma Clear_wf t : 1 <= next_generation t < 2 ^ 15 -> wf (Clear t).
Proof.
  intros Hn. split; simpl; [by rewrite length_replicate | by rewrite length_fmap, length_seq | done | |].
  - exists (seq 0 (Z.to_nat MAX_COUNT)). split_and!; [|apply NoDup_seq|].
    + assert (forall k n, (n + k = Z.to_nat MAX_COUNT)%nat ->
        free_list (Clear t) (Z.of_nat n) (seq n k)) as H; [|by apply (H _ 0%nat)].
      induction k as [|k IH]; intros n Hnk; simpl.
      { pose proof MAX_COUNT_eq. lia. }
      split_and!; [done | by apply lookup_replicate_2; lia|].
      exists (Z.of_nat n + 1). split.
      * rewrite list_lookup_fmap, lookup_seq_lt by lia. done.
      * replace (Z.of_nat n + 1) with (Z.of_nat (S n)) by lia. apply IH. lia.
    + intros i [_ Hi]%lookup_replicate. apply elem_of_seq. lia.
  - intros i o g [? _]%lookup_replicate. done.
Qed.

Lemma new_wf : wf (new (Obj := Obj)).
Proof. apply Clear_wf. simpl. lia. Qed.

(** The shape of a successful allocation. *)
Lemma Create_step t o :
  wf t ->
  (Create o t = Done (Err ResultOutOfHandles, t) /\ forall i, objects t !! i ≠ Some None) \/
  exists i t', (i < Z.to_nat MAX_COUNT)%nat /\ objects t !! i = Some None /\
    Create o t = Done (Val (encode (next_generation t) (Z.of_nat i)), t') /\ wf t' /\
    objects t' = <[i := Some o]> (objects t) /\
    generations t' = <[i := next_generation t]> (generations t) /\
    next_generation t' = next_generation t `mod` 32767 + 1.
Proof.
  intros Hwf. pose proof Hwf as [Ho Hg Hn (l & Hl & Hnd & Hall) Hu]. unfold Create.
  destruct l as [|i l]; simpl in Hl.
  - left. rewrite Hl. simpl. split; [done|]. intros i Hi%Hall. set_solver.
  - right. destruct Hl as (Hs & Hoi & g & Hgi & Hl).
    assert (i < Z.to_nat MAX_COUNT)%nat as Hi by (rewrite <- Ho; by eapply lookup_lt_Some).
    rewrite Hs, Nat2Z.id, Hgi. destruct (Z.ltb_spec (Z.of_nat i) MAX_COUNT); [|pose proof MAX_COUNT_eq; lia].
    simpl. eexists i, _. split_and!; [done | done | reflexivity | | reflexivity | reflexivity |].
    2: { simpl. rewrite u16_small by lia. change (Z.shiftl 1 15) with 32768.
         btests; [replace (next_generation t) with 32767 by lia; done|].
         rewrite Z.mod_small by lia. done. }
    apply NoDup_cons in Hnd as [Hil Hnd].
    split; simpl; [by rewrite length_insert | by rewrite length_insert | | |].
    + rewrite u16_small by lia. change (Z.shiftl 1 15) with 32768. btests; lia.
    + exists l. split_and!; [|done|].
      * eapply free_list_frame; [exact Hl|]. simpl. intros j Hj.
        assert (i ≠ j) by (intros ->; done). by rewrite !list_lookup_insert_ne.
      * intros j [(_ & ? & _)|[Hne Hj]]%lookup_insert_split; [done|].
        specialize (Hall j Hj). set_solver.
    + intros j o' g' [(<- & _ & _)|[Hne Hj]]%lookup_insert_split
        [(? & -> & _)|[? Hg']]%lookup_insert_split; try done. by eapply Hu.
Qed.

Lemma Close_step t h :
  wf t -> IsValid t h = true ->
  wf (Close h t).2 /\ (Close h t).1 = ResultSuccess /\
  objects (Close h t).2 = <[Z.to_nat (GetSlot h) := None]> (objects t) /\
  next_generation (Close h t).2 = next_generation t /\
  (forall i, i ≠ Z.to_nat (GetSlot h) -> generations (Close h t).2 !! i = generations t !! i).
Proof.
  intros Hwf Hv. unfold Close. rewrite Hv. simpl.
  pose proof Hwf as [Ho Hg Hn (l & Hl & Hnd & Hall) Hu].
  unfold IsValid in Hv. apply andb_prop in Hv as [[Hs Hv]%andb_prop _].
  apply Z.ltb_lt in Hs. pose proof (GetSlot_range h). set (i := Z.to_nat (GetSlot h)) in *.
  assert (i < Z.to_nat MAX_COUNT)%nat by lia.
  split_and!; [|done|done|done|intros; by rewrite list_lookup_insert_ne].
  destruct (objects t !! i) as [[o|]|] eqn:Ei; try done.
  assert (i ∉ l) as Hil.
  { intros Hil. clear -Hl Hil Ei. revert Hl. generalize (next_free_slot t).
    induction l as [|j l IH]; intros s; simpl; [set_solver|].
    intros (_ & Hj & g & _ & Hl). apply elem_of_cons in Hil as [->|Hil]; [congruence|]. by eapply IH. }
  split; simpl; [by rewrite length_insert | by rewrite length_insert | done | |].
  - exists (i :: l). split_and!; [|by constructor|].
    + simpl. split_and!; [subst i; lia | by rewrite list_lookup_insert_eq by lia|].
      exists (next_free_slot t). split; [by rewrite list_lookup_insert_eq by lia|].
      eapply free_list_frame; [exact Hl|]. simpl. intros j Hj.
      assert (i ≠ j) by (intros ->; done). by rewrite !list_lookup_insert_ne.
    + intros j [(<- & _ & _)|[Hne Hj]]%lookup_insert_split; [set_solver|].
      specialize (Hall j Hj). set_solver.
  - intros j o' g' [(<- & ? & _)|[Hne Hj]]%lookup_insert_split; [done|].
    rewrite list_lookup_insert_ne by done. by eapply Hu.
Qed.

Lemma lookup_handle_spec t h o :
  lookup_handle t h = Some o <->
  GetSlot h < MAX_COUNT /\ objects t !! Z.to_nat (GetSlot h) = Some (Some o) /\
  generations t !! Z.to_nat (GetSlot h) = Some (GetGeneration h).
Proof.
  unfold lookup_handle, IsValid. split.
  - destruct (Z.ltb_spec (GetSlot h) MAX_COUNT); simpl; [|done].
    destruct (objects t !! _) as [[o'|]|] eqn:Eo; simpl; try done.
    destruct (generations t !! _) as [g|]; simpl; try done.
    destruct (Z.eqb_spec g (GetGeneration h)); simpl; [|done]. intros; simplify_eq. done.
  - intros (Hs & -> & ->). rewrite Z.eqb_refl.
    destruct (Z.ltb_spec (GetSlot h) MAX_COUNT); [done|lia].
Qed.

Lemma IsValid_lookup t h : IsValid t h = true <-> exists o, lookup_handle t h = Some o.
Proof.
  unfold lookup_handle, IsValid.
  destruct (GetSlot h <? MAX_COUNT); simpl; [|naive_solver].
  destruct (objects t !! _) as [[o|]|]; simpl; [|naive_solver..].
  destruct (generations t !! _) as [g|]; simpl; [|naive_solver].
  destruct (g =? GetGeneration h); naive_solver.
Qed.

Lemma encode_range g s : 0 <= g < 2 ^ 15 -> 0 <= s < MAX_COUNT -> 0 <= encode g s < 2 ^ 31.
Proof. intros. rewrite encode_sum by done. pose proof MAX_COUNT_eq. lia. Qed.

(** Allocation binds the new handle and no other. *)
Lemma Create_lookup t o i t' h :
  wf t -> (i < Z.to_nat MAX_COUNT)%nat -> objects t !! i = Some None ->
  objects t' = <[i := Some o]> (objects t) ->
  generations t' = <[i := next_generation t]> (generations t) ->
  0 <= h < 2 ^ 31 ->
  lookup_handle t' h =
    if decide (h = encode (next_generation t) (Z.of_nat i)) then Some o else lookup_handle t h.
Proof.
  intros Hwf Hi Hnone Ho Hg Hh. pose proof (wf_next _ Hwf) as Hn. pose proof (GetSlot_range h).
  apply option_eq. intros o'. rewrite lookup_handle_spec, Ho, Hg.
  destruct (decide (Z.to_nat (GetSlot h) = i)) as [<-|Hne].
  - rewrite !list_lookup_insert_eq by (rewrite ?wf_objects, ?wf_generations; done).
    rewrite Z2Nat.id by lia. case_decide as Hd.
    + rewrite Hd, GetSlot_encode, GetGeneration_encode by lia. naive_solver lia.
    + split.
      * intros (? & ? & Hge). destruct Hd. simplify_eq. apply handle_ext; [done | | |].
        -- apply encode_range; lia.
        -- by rewrite GetSlot_encode by lia.
        -- rewrite GetGeneration_encode by lia. congruence.
      * intros (_ & ? & _)%lookup_handle_spec. congruence.
  - rewrite !list_lookup_insert_ne by done. case_decide as Hd.
    + subst h. rewrite GetSlot_encode, Nat2Z.id in Hne by lia. done.
    + by rewrite <- lookup_handle_spec.
Qed.

Lemma Close_lookup t h h' :
  wf t -> IsValid t h = true -> 0 <= h < 2 ^ 31 -> 0 <= h' < 2 ^ 31 ->
  lookup_handle (Close h t).2 h' = if decide (h' = h) then None else lookup_handle t h'.
Proof.
  intros Hwf Hv Hh Hh'. destruct (Close_step t h Hwf Hv) as (_ & _ & Ho & _ & Hg).
  apply IsValid_lookup in Hv as (ov & (Hs & _ & Hgen)%lookup_handle_spec).
  pose proof (GetSlot_range h). pose proof (GetSlot_range h').
  apply option_eq. intros o'. rewrite lookup_handle_spec, Ho.
  destruct (decide (GetSlot h' = GetSlot h)) as [E|E].
  - rewrite E. rewrite list_lookup_insert_eq by (rewrite wf_objects by done; lia).
    split; [naive_solver|]. case_decide as Hd; [done|].
    intros (_ & _ & Hg')%lookup_handle_spec. rewrite E in Hg'. destruct Hd.
    apply handle_ext; try done. congruence.
  - assert (Z.to_nat (GetSlot h) ≠ Z.to_nat (GetSlot h')) by lia.
    rewrite list_lookup_insert_ne, Hg by done. case_decide as Hd; [congruence|].
    by rewrite <- lookup_handle_spec.
Qed.

Lemma GetGeneric_lookup t h : 0 <= h < 2 ^ 31 ->
  GetGeneric current_thread current_process t h = lookup_handle t h.
Proof.
  intros Hh. unfold GetGeneric, lookup_handle, CurrentThread, CurrentProcess.
  destruct (Z.eqb_spec h 0xFFFF8000); [lia|]. destruct (Z.eqb_spec h 0xFFFF8001); [lia|].
  destruct (IsValid t h); simpl; [|done]. by destruct (objects t !! _).
Qed.

(** The table stands for a finite map from handles to objects. *)
Definition rep t (m : gmap Z Obj) : Prop :=
  wf t /\ (forall h, 0 <= h < 2 ^ 31 -> lookup_handle t h = m !! h) /\
  (forall h o, m !! h = Some o -> 0 <= h < 2 ^ 31).

Lemma rep_new : rep new ∅.
Proof.
  split_and!; [apply new_wf | | by intros h o ?%lookup_empty_Some].
  intros h _. rewrite lookup_empty. apply eq_None_not_Some. intros (o & Ho).
  apply lookup_handle_spec in Ho as (_ & Ho & _). by apply lookup_replicate in Ho as [? _].
Qed.

End Proofs.

(** ** Histories of a table *)

Section History.
Context {Obj : Type} (current_thread current_process : option Obj).
Implicit Types t : table Obj.

Inductive op := OCreate (o : Obj) | ODuplicate (h : Z) | OClose (h : Z).

Definition step (x : op) (t : table Obj) : outcome (table Obj) :=
  match x with
  | OCreate o => '(_, t) ← Create o t; Done t
  | ODuplicate h => '(_, t) ← Duplicate current_thread current_process h t; Done t
  | OClose h => Done (Close h t).2
  end.

Fixpoint run (xs : list op) (t : table Obj) : outcome (table Obj) :=
  match xs with
  | [] => Done t
  | x :: xs => t ← step x t; run xs t
  end.

(** How many allocations a history asks for. *)
Fixpoint allocs (xs : list op) : Z :=
  match xs with
  | [] => 0
  | OClose _ :: xs => allocs xs
  | _ :: xs => 1 + allocs xs
  end.

Lemma allocs_nonneg xs : 0 <= allocs xs.
Proof. induction xs as [|[] xs IH]; simpl; lia. Qed.

(** [k] allocations after generation [g] was given out. *)
Definition gen_after (g k : Z) : Z := (g - 1 + k) `mod` 32767 + 1.

Lemma gen_after_next g k : gen_after g k `mod` 32767 + 1 = gen_after g (k + 1).
Proof. unfold gen_after. rewrite Zplus_mod_idemp_l. f_equal. f_equal. lia. Qed.

Lemma gen_after_fresh g k : 1 <= g < 2 ^ 15 -> 1 <= k < 32767 -> gen_after g k ≠ g.
Proof. unfold gen_after. intros. zdm. Qed.

(** Between [k] and [k'] allocations happened since generation [g]; [dead]
    says its handle is no longer bound. *)
Definition aged (h g k : Z) (dead : bool) t : Prop :=
  wf t /\ GetGeneration h = g /\
  (exists j, 1 <= j <= k /\ next_generation t = gen_after g j) /\
  (dead = true -> IsValid t h = false).

Lemma aged_create h g k dead t o r t' :
  1 <= g < 2 ^ 15 -> 1 <= k < 32767 -> aged h g k dead t -> Create o t = Done (r, t') ->
  aged h g (k + 1) dead t'.
Proof.
  intros Hg Hk (Hwf & Hh & (j & Hj & Hn) & Hd) Hc.
  destruct (Create_step t o Hwf) as [[Hc' _]|(i & t1 & Hi & Hi0 & Hc' & Hwf' & Ho & Hge & Hn')];
    rewrite Hc' in Hc; simplify_eq.
  - split_and!; [done | done | exists j; split; [lia|done] | done].
  - split_and!; [done | done | exists (j + 1); split; [lia|] |].
    + by rewrite Hn', Hn, gen_after_next.
    + intros Hdt. specialize (Hd Hdt). apply not_true_is_false.
      intros (o' & Ho')%IsValid_lookup. apply lookup_handle_spec in Ho' as (Hs & Hob & Hgb).
      rewrite Ho in Hob. rewrite Hge in Hgb.
      destruct (decide (i = Z.to_nat (GetSlot h))) as [->|Hne].
      * rewrite list_lookup_insert_eq in Hgb by (by rewrite wf_generations).
        injection Hgb as Hgb.
        apply (gen_after_fresh (GetGeneration h) j); [done | lia | congruence].
      * rewrite list_lookup_insert_ne in Hob by done. rewrite list_lookup_insert_ne in Hgb by done.
        assert (IsValid t h = true); [|congruence].
        apply IsValid_lookup. exists o'. by apply lookup_handle_spec.
Qed.

Lemma aged_close h g k dead t h' : aged h g k dead t -> aged h g k dead (Close h' t).2.
Proof.
  intros (Hwf & Hh & Hj & Hd). destruct (IsValid t h') eqn:Hv; [|unfold Close; by rewrite Hv].
  destruct (Close_step t h' Hwf Hv) as (Hwf' & _ & Ho & Hn & Hg).
  split_and!; [done | done | by rewrite Hn |].
  intros Hdt. specialize (Hd Hdt). apply not_true_is_false.
  intros (o' & Ho')%IsValid_lookup. apply lookup_handle_spec in Ho' as (Hs & Hob & Hgb).
  rewrite Ho in Hob. apply lookup_insert_split in Hob as [(_ & ? & _)|[Hne Hob]]; [done|].
  rewrite Hg in Hgb by done. assert (IsValid t h = true); [|congruence].
  apply IsValid_lookup. exists o'. by apply lookup_handle_spec.
Qed.

Lemma aged_dead h g k t : aged h g k false t -> aged h g k true (Close h t).2.
Proof.
  intros Ha. pose proof (aged_close h g k false t h Ha) as (Hwf' & Hh & Hj & _).
  split; [done|]. split; [done|]. split; [done|]. intros _.
  destruct Ha as (Hwf & _). destruct (IsValid t h) eqn:Hv; [|unfold Close; by rewrite Hv].
  destruct (Close_step t h Hwf Hv) as (_ & _ & Ho & _).
  apply not_true_is_false. intros (o' & Ho')%IsValid_lookup.
  apply lookup_handle_spec in Ho' as (_ & Hob & _). rewrite Ho in Hob.
  apply lookup_insert_split in Hob as [(_ & ? & _)|[? _]]; done.
Qed.

Lemma aged_step h g k dead t x t' :
  1 <= g < 2 ^ 15 -> 1 <= k -> k + allocs [x] <= 32767 -> aged h g k dead t -> step x t = Done t' ->
  aged h g (k + allocs [x]) dead t'.
Proof.
  intros Hg Hk Hk' Ha Hs. destruct x as [o|h'|h']; simpl in *.
  - apply outcome_bind_done in Hs as ([r t1] & Hc & Hs). simplify_eq.
    eapply aged_create; [done | lia | done | done].
  - apply outcome_bind_done in Hs as ([r t1] & Hc & Hs). simplify_eq. unfold Duplicate in Hc.
    destruct (GetGeneric _ _ _ _) as [o|].
    + eapply aged_create; [done | lia | done | done].
    + simplify_eq. destruct Ha as (? & ? & (j & ? & ?) & ?).
      split_and!; [done | done | exists j; split; [lia|done] | done].
  - simplify_eq. rewrite Z.add_0_r. by apply aged_close.
Qed.

Lemma allocs_cons x xs : allocs (x :: xs) = allocs [x] + allocs xs.
Proof. destruct x; simpl; lia. Qed.

Lemma allocs_app xs ys : allocs (xs ++ ys) = allocs xs + allocs ys.
Proof. induction xs as [|x xs IH]; [done|]. simpl app. rewrite (allocs_cons x (xs ++ ys)), (allocs_cons x xs). lia. Qed.

Lemma aged_run h g dead xs : forall k t t',
  1 <= g < 2 ^ 15 -> 1 <= k -> k + allocs xs <= 32767 -> aged h g k dead t ->
  run xs t = Done t' -> aged h g (k + allocs xs) dead t'.
Proof.
  induction xs as [|x xs IH]; intros k t t' Hg Hk Hk' Ha Hr.
  - simpl in *. simplify_eq. by rewrite Z.add_0_r.
  - cbn [run] in Hr. apply outcome_bind_done in Hr as (t1 & Hs & Hr).
    rewrite (allocs_cons x xs) in Hk' |- *. pose proof (allocs_nonneg xs). pose proof (allocs_nonneg [x]).
    rewrite Z.add_assoc. apply (IH _ t1); [done | lia | lia | | exact Hr].
    eapply aged_step; [done | lia | lia | done | done].
Qed.

Lemma run_app xs ys t : run (xs ++ ys) t = t' ← run xs t; run ys t'.
Proof.
  revert t. induction xs as [|x xs IH]; intros t; simpl; [done|].
  destruct (step x t); simpl; auto.
Qed.

Lemma run_total xs : forall t, wf t -> exists t', run xs t = Done t' /\ wf t'.
Proof.
  induction xs as [|x xs IH]; intros t Hwf; simpl; [eauto|].
  assert (exists t1, step x t = Done t1 /\ wf t1) as (t1 & -> & Hwf1); [|by apply IH].
  assert (forall o, exists r t1, Create o t = Done (r, t1) /\ wf t1) as Hc.
  { intros o. destruct (Create_step t o Hwf) as [[-> _]|(i & t1 & _ & _ & -> & ? & _)]; eauto. }
  destruct x as [o|h|h]; simpl.
  - destruct (Hc o) as (r & t1 & -> & ?). simpl. eauto.
  - unfold Duplicate. destruct (GetGeneric _ _ _ _) as [o|]; simpl; [|eauto].
    destruct (Hc o) as (r & t1 & -> & ?). simpl. eauto.
  - destruct (IsValid t h) eqn:Hv; [|unfold Close; rewrite Hv; eauto].
    destruct (Close_step t h Hwf Hv) as (? & _). eauto.
Qed.

End History.
Arguments op : clear implicits.

Section Claims.
Context {Obj : Type} (current_thread current_process : option Obj).
Implicit Types t : table Obj.

(** C30: The handle table implements a finite map from handles to objects.
    [Create] fails only when all 4096 slots hold an object, and then changes
    nothing; otherwise it returns a handle that was not bound and binds it.
    [Close] unbinds exactly the closed handle and refuses an unbound one
    without effect.  [GetGeneric] reads the map.  The free list stays sound. *)
Theorem handle_table_refines_map t m :
  rep t m ->
  (forall o, exists r t', Create o t = Done (r, t') /\
     match r with
     | Val h => m !! h = None /\ rep t' (<[h := o]> m)
     | Err e => e = ResultOutOfHandles /\ t' = t /\ forall i, objects t !! i ≠ Some None
     end) /\
  (forall h, 0 <= h < 2 ^ 31 ->
     match m !! h with
     | Some _ => (Close h t).1 = ResultSuccess /\ rep (Close h t).2 (delete h m)
     | None => Close h t = (ResultInvalidHandle, t)
     end) /\
  (forall h, 0 <= h < 2 ^ 31 -> GetGeneric current_thread current_process t h = m !! h).
Proof.
  intros (Hwf & Hm & Hrange). split_and!.
  - intros o. destruct (Create_step t o Hwf) as [[Hc Hfull]|(i & t' & Hi & Hn & Hc & Hwf' & Ho & Hg & _)].
    { exists (Err ResultOutOfHandles), t. done. }
    pose proof (wf_next _ Hwf). set (h := encode (next_generation t) (Z.of_nat i)) in *.
    assert (0 <= h < 2 ^ 31) as Hh by (apply encode_range; lia).
    exists (Val h), t'. split; [done|]. split; [|split; [done|split]].
    + rewrite <- Hm by done. apply eq_None_not_Some. intros (o' & Ho').
      apply lookup_handle_spec in Ho' as (_ & Ho' & _). subst h.
      rewrite GetSlot_encode, Nat2Z.id in Ho' by lia. congruence.
    + intros h' Hh'. rewrite (Create_lookup t o i t') by done. rewrite lookup_insert.
      fold h. repeat case_decide; try done; [congruence..|by apply Hm].
    + intros h' o'. rewrite lookup_insert. case_decide; [by intros; subst|]. apply Hrange.
  - intros h Hh. destruct (m !! h) as [o|] eqn:Emh.
    + assert (IsValid t h = true) as Hv by (apply IsValid_lookup; exists o; by rewrite Hm).
      destruct (Close_step t h Hwf Hv) as (Hwf' & Hr & _). split; [done|]. split_and!; [done| |].
      * intros h' Hh'. rewrite Close_lookup, lookup_delete by done.
        repeat case_decide; try done; [congruence..|by apply Hm].
      * intros h' o'. rewrite lookup_delete. case_decide; [done|]. apply Hrange.
    + assert (IsValid t h = false) as Hv.
      { apply not_true_is_false. intros (o & Ho)%IsValid_lookup. rewrite Hm in Ho by done. congruence. }
      unfold Close. by rewrite Hv.
  - intros h Hh. rewrite GetGeneric_lookup by done. by apply Hm.
Qed.

(** The slot of a handle is cut to 16 bits, so bit 31 of a handle is
    ignored: adding it to any handle gives a second name of the same object,
    accepted by [IsValid], [GetGeneric] and [Close]. *)
Theorem handle_bit31_ignored t h :
  0 <= h < 2 ^ 31 - 2 ^ 16 ->
  IsValid t (h + 2 ^ 31) = IsValid t h /\
  GetGeneric current_thread current_process t (h + 2 ^ 31) =
    GetGeneric current_thread current_process t h /\
  Close (h + 2 ^ 31) t = Close h t.
Proof.
  intros Hh.
  pose proof (GetSlot_bit31 h) as Es. pose proof (GetGeneration_bit31 h) as Eg.
  assert (IsValid t (h + 2 ^ 31) = IsValid t h) as Ev by (unfold IsValid; by rewrite Es, Eg).
  split; [done|]. split; [|unfold Close; by rewrite Ev, Es].
  unfold GetGeneric, CurrentThread, CurrentProcess. rewrite Ev, Es.
  rewrite !(proj2 (Z.eqb_neq _ _)) by lia. done.
Qed.

(** C31: A closed handle does not come back to life: after [Create] returned
    [h], any history that closes [h] and asks for at most 32765 further
    handles runs to the end and leaves [h] invalid, however the slots are
    reused.  (The generation counter wraps after 32767 allocations.) *)
Theorem closed_handle_stays_invalid t o h t1 xs ys :
  wf t -> Create o t = Done (Val h, t1) -> allocs xs + allocs ys <= 32765 ->
  exists t2, run current_thread current_process (xs ++ OClose h :: ys) t1 = Done t2 /\
    IsValid t2 h = false.
Proof.
  intros Hwf Hc Hn. pose proof (wf_next _ Hwf) as Hng.
  destruct (Create_step t o Hwf) as [[Hc' _]|(i & t' & Hi & _ & Hc' & Hwf' & _ & _ & Hn')];
    rewrite Hc' in Hc; simplify_eq. set (h := encode _ _).
  assert (aged h (next_generation t) 1 false t1) as Ha.
  { split_and!; [done | | | done].
    - apply GetGeneration_encode; lia.
    - exists 1. split; [lia|]. rewrite Hn'. unfold gen_after. f_equal. f_equal. lia. }
  destruct (run_total current_thread current_process (xs ++ OClose h :: ys) t1 Hwf')
    as (t2 & Hr & _).
  exists t2. split; [done|]. rewrite run_app in Hr. apply outcome_bind_done in Hr as (ta & Hxs & Hr).
  cbn [run step] in Hr. apply outcome_bind_done in Hr as (tb & Hb & Hys). simplify_eq.
  pose proof (allocs_nonneg xs). pose proof (allocs_nonneg ys).
  pose proof (aged_run _ _ h _ false xs 1 t1 ta Hng ltac:(lia) ltac:(lia) Ha Hxs) as Ha1.
  pose proof (aged_run _ _ h _ true ys (1 + allocs xs) _ t2 Hng ltac:(lia) ltac:(lia) (aged_dead _ _ _ _ Ha1) Hys)
    as (_ & _ & _ & Hdead).
  by apply Hdead.
Qed.

End Claims.

Lemma handle_bit31_ignored_witness :
  let t := mk_table [Some 7] [1] 2 1 in
  IsValid t 1 = true /\ IsValid t (1 + 2 ^ 31) = true /\
  GetGeneric None None t (1 + 2 ^ 31) = Some 7.
Proof.
  intros t. destruct (handle_bit31_ignored None None t 1 ltac:(lia)) as (Hv & Hg & _).
  split; [reflexivity|]. rewrite Hv, Hg. split; reflexivity.
Defined.

Lemma handle_table_refines_map_witness :
  (exists r t', Create 5 (new (Obj := Z)) = Done (r, t')) /\
  Close 1 (new (Obj := Z)) = (ResultInvalidHandle, new).
Proof.
  destruct (handle_table_refines_map None None (new (Obj := Z)) ∅ rep_new) as (Hc & Hd & _).
  split.
  - destruct (Hc 5) as (r & t' & Ht & _). exists r, t'. exact Ht.
  - exact (Hd 1 ltac:(lia)).
Defined.

Definition one_object : table Z :=
  mk_table (<[0%nat := Some 5]> (objects new)) (<[0%nat := 1]> (generations (new (Obj := Z)))) 2 1.

Lemma create_first : Create 5 (new (Obj := Z)) = Done (Val 1, one_object).
Proof. vm_compute. reflexivity. Qed.

Lemma closed_handle_stays_invalid_witness :
  exists t2, run None None ([OCreate 6] ++ OClose 1 :: [OCreate 7; ODuplicate 32770]) one_object = Done t2 /\
    IsValid t2 1 = false.
Proof.
  exact (closed_handle_stays_invalid None None new 5 1 one_object [OCreate 6]
           [OCreate 7; ODuplicate 32770] new_wf create_first ltac:(simpl; lia)).
Defined.

End Handle.
