(* ===== verification/PageTable.v ===== *)
(** * Host memory references and page tables

    Model of [MemoryRef] (include/common/memory_ref.h) and of the page table
    updates of [MemorySystem] (core/memory.cpp: [MapPages] but for its flush, [MapMemoryRegion],
    [UnmapRegion]). *)
From S2P Require Import Prelude.

Definition CITRA_PAGE_SIZE : Z := 0x1000.
Definition CITRA_PAGE_MASK : Z := CITRA_PAGE_SIZE - 1.
Definition CITRA_PAGE_BITS : Z := 12.
Definition PAGE_TABLE_NUM_ENTRIES : Z := Z.shiftl 1 (32 - CITRA_PAGE_BITS).

Module MRef.

(** [BackingMem]: a host buffer, by its address and size. *)
Record backing := mk_backing { host : Z; bytes : Z }.

(** [MemoryRef]: a null reference or an offset into a buffer. *)
Inductive t := Null | Ref (mem : backing) (offset : Z).

#[global] Instance backing_eq_dec : EqDecision backing.
Proof. solve_decision. Defined.
#[global] Instance t_eq_dec : EqDecision t.
Proof. solve_decision. Defined.

(** [MemoryRef(backing_mem, offset)] *)
Definition make (mem : backing) (offset : Z) : outcome t :=
  _ ← assert_ (offset <=? bytes mem); Done (Ref mem offset).

(** [cptr] and [csize], as [Init] caches them. *)
Definition GetPtr (r : t) : Z := match r with Null => 0 | Ref m o => host m + o end.
Definition GetSize (r : t) : Z := match r with Null => 0 | Ref m o => u64 (bytes m - o) end.

(** [operator+=] *)
Definition advance (r : t) (offset_by : Z) : outcome t :=
  _ ← assert_ (offset_by <? GetSize r);
  Done (match r with Null => Null | Ref m o => Ref m (o + offset_by) end).

(** [operator+], which goes through the checking constructor. *)
Definition add (r : t) (offset_by : Z) : outcome t :=
  _ ← assert_ (offset_by <? GetSize r);
  match r with Null => Done Null | Ref m o => make m (o + offset_by) end.

(** A reference to [n] bytes that exist. *)
Definition covers (r : t) (n : Z) : Prop :=
  match r with
  | Null => False
  | Ref m o => 0 < host m /\ 0 <= o /\ o + n <= bytes m /\ bytes m < 2 ^ 64
  end.

Lemma covers_size r n : 0 <= n -> covers r n -> n <= GetSize r.
Proof. destruct r as [|m o]; simpl; [done|]. intros. rewrite u64_small; lia. Qed.

Lemma covers_ptr r n : covers r n -> 0 < GetPtr r.
Proof. destruct r as [|m o]; simpl; [done|]. lia. Qed.

Lemma covers_le r n k : covers r n -> k <= n -> covers r k.
Proof. destruct r as [|m o]; simpl; [done|]. lia. Qed.

Lemma advance_covers r n k : covers r n -> 0 <= k < n ->
  exists r', advance r k = Done r' /\ covers r' (n - k) /\ GetPtr r' = GetPtr r + k.
Proof.
  intros Hc Hk. pose proof (covers_size r n ltac:(lia) Hc) as Hs. unfold advance.
  destruct (Z.ltb_spec k (GetSize r)); [|lia]. destruct r as [|m o]; simpl in *; [done|].
  eexists. split; [done|]. simpl. lia.
Qed.

Lemma add_covers r n k : covers r n -> 0 <= k < n ->
  exists r', add r k = Done r' /\ covers r' (n - k) /\ GetPtr r' = GetPtr r + k.
Proof.
  intros Hc Hk. pose proof (covers_size r n ltac:(lia) Hc) as Hs. unfold add, make.
  destruct (Z.ltb_spec k (GetSize r)); [|lia]. destruct r as [|m o]; simpl in *; [done|].
  destruct (Z.leb_spec (o + k) (bytes m)); [|lia]. eexists. split; [done|]. simpl. lia.
Qed.

End MRef.

Module PT.

(** [enum class PageType] *)
Inductive page_type := Unmapped | Memory | RasterizerCachedMemory.

#[global] Instance page_type_eq_dec : EqDecision page_type.
Proof. solve_decision. Defined.

(** [PageTable]: attribute and raw pointer of each page; pages not in the map
    are as [PageTable::Clear] leaves them. *)
Record entry := mk_entry { attribute : page_type; pointer : Z }.
Abbreviation table := (gmap Z entry).

Definition cleared : entry := mk_entry Unmapped 0.
Definition Clear : table := ∅.
Definition get (pt : table) (page : Z) : entry := default cleared (pt !! page).

Section Map.
(** [cache_marker.IsCached(addr)]: the rasterizer's page marks. *)
Context (IsCached : Z -> bool).

Definition page_entry (base : Z) (memory : MRef.t) (type : page_type) : entry :=
  if bool_decide (type = Memory) && IsCached (u32 (base * CITRA_PAGE_SIZE))
  then mk_entry RasterizerCachedMemory 0
  else mk_entry type (MRef.GetPtr memory).

(** The loop [while (base != end)]. *)
Fixpoint map_loop (fuel : nat) (base end_ : Z) (memory : MRef.t) (type : page_type)
    (pt : table) : outcome table :=
  if base =? end_ then Done pt
  else match fuel with
  | O => Stop FFuel
  | S fuel =>
      _ ← assert_ (base <? PAGE_TABLE_NUM_ENTRIES);
      let pt := <[base := page_entry base memory type]> pt in
      memory ← (if negb (MRef.GetPtr memory =? 0) && (CITRA_PAGE_SIZE <? MRef.GetSize memory)
                then MRef.advance memory CITRA_PAGE_SIZE else Done memory);
      map_loop fuel (u32 (base + 1)) end_ memory type pt
  end.

(** [MapPages] from [u32 end] on: what it does to the page table.  The flush it asks the
    rasterizer for before that changes neither tables nor marks; the whole method
    is [GuestMemory.Guest.MapPages]. *)
Definition map_pages (base size : Z) (memory : MRef.t) (type : page_type) (pt : table)
  : outcome table :=
  let end_ := u32 (base + size) in
  map_loop (Z.to_nat (u32 (end_ - base))) base end_ memory type pt.

Definition page_aligned (z : Z) : bool := Z.land z CITRA_PAGE_MASK =? 0.

Definition MapMemoryRegion (base size : Z) (target : MRef.t) (pt : table) : outcome table :=
  _ ← assert_ (page_aligned size);
  _ ← assert_ (page_aligned base);
  map_pages (base / CITRA_PAGE_SIZE) (size / CITRA_PAGE_SIZE) target Memory pt.

Definition UnmapRegion (base size : Z) (pt : table) : outcome table :=
  _ ← assert_ (page_aligned size);
  _ ← assert_ (page_aligned base);
  map_pages (base / CITRA_PAGE_SIZE) (size / CITRA_PAGE_SIZE) MRef.Null Unmapped pt.

Lemma page_aligned_spec z : page_aligned z = true <-> z `mod` CITRA_PAGE_SIZE = 0.
Proof.
  unfold page_aligned, CITRA_PAGE_MASK, CITRA_PAGE_SIZE.
  change (0x1000 - 1) with (Z.ones 12). rewrite Z.land_ones by lia. by rewrite Z.eqb_eq.
Qed.

Lemma get_insert pt p q e : get (<[p := e]> pt) q = if decide (p = q) then e else get pt q.
Proof. unfold get. rewrite lookup_insert. by case_decide. Qed.

(** Entry of page [q] after mapping [n] pages from [base]. *)
Definition mapped (base n : Z) (memory : MRef.t) (q : Z) : entry :=
  if IsCached (u32 (q * CITRA_PAGE_SIZE)) then mk_entry RasterizerCachedMemory 0
  else mk_entry Memory (MRef.GetPtr memory + (q - base) * CITRA_PAGE_SIZE).

Lemma map_loop_spec type n : forall base memory pt,
  0 <= base -> base + Z.of_nat n <= PAGE_TABLE_NUM_ENTRIES ->
  match type with
  | Memory => MRef.covers memory (Z.of_nat n * CITRA_PAGE_SIZE)
  | _ => memory = MRef.Null
  end ->
  exists pt', map_loop n base (base + Z.of_nat n) memory type pt = Done pt' /\
    forall q, get pt' q =
      if decide (base <= q < base + Z.of_nat n)
      then match type with
           | Memory => mapped base (Z.of_nat n) memory q
           | ty => mk_entry ty 0
           end
      else get pt q.
Proof.
  assert (PAGE_TABLE_NUM_ENTRIES = 2 ^ 20) as HN by done.
  induction n as [|n IH]; intros base memory pt Hb Hn Hm.
  - simpl. rewrite Z.add_0_r, Z.eqb_refl. exists pt. split; [done|]. intros q.
    rewrite decide_False by lia. done.
  - cbn [map_loop]. destruct (Z.eqb_spec base (base + Z.of_nat (S n))); [lia|].
    destruct (Z.ltb_spec base PAGE_TABLE_NUM_ENTRIES); [|lia].
    cbn [assert_ mbind outcome_bind]. rewrite (u32_small (base + 1)) by lia.
    replace (base + Z.of_nat (S n)) with (base + 1 + Z.of_nat n) by lia.
    assert (exists memory', (if negb (MRef.GetPtr memory =? 0) && (CITRA_PAGE_SIZE <? MRef.GetSize memory)
                then MRef.advance memory CITRA_PAGE_SIZE else Done memory) = Done memory' /\
      match type with
      | Memory => MRef.covers memory' (Z.of_nat n * CITRA_PAGE_SIZE) \/ n = 0%nat
      | _ => memory' = MRef.Null
      end /\ (type = Memory -> n ≠ 0%nat -> MRef.GetPtr memory' = MRef.GetPtr memory + CITRA_PAGE_SIZE))
      as (memory' & Hadv & Hm' & Hp').
    { destruct type; [subst memory; by exists MRef.Null| |subst memory; by exists MRef.Null].
      pose proof (MRef.covers_ptr _ _ Hm). destruct (Z.eqb_spec (MRef.GetPtr memory) 0); [lia|]. simpl.
      assert (Z.of_nat (S n) * CITRA_PAGE_SIZE <= MRef.GetSize memory) as Hsz.
      { apply MRef.covers_size; [unfold CITRA_PAGE_SIZE; lia|done]. }
      destruct (Z.ltb_spec CITRA_PAGE_SIZE (MRef.GetSize memory)).
      - destruct (decide (n = 0%nat)) as [->|Hn0].
        + assert (exists m', MRef.advance memory CITRA_PAGE_SIZE = Done m') as [m' ->].
          { unfold MRef.advance. destruct (Z.ltb_spec CITRA_PAGE_SIZE (MRef.GetSize memory)); [|lia].
            simpl. eauto. }
          exists m'. split_and!; auto. done.
        + destruct (MRef.advance_covers memory _ CITRA_PAGE_SIZE Hm) as (m' & Ha & Hc & Hp);
            [unfold CITRA_PAGE_SIZE; lia|].
          exists m'. split_and!; [done | left | done].
          replace (Z.of_nat n * CITRA_PAGE_SIZE)
            with (Z.of_nat (S n) * CITRA_PAGE_SIZE - CITRA_PAGE_SIZE) by lia. done.
      - exists memory. assert (n = 0%nat) by (unfold CITRA_PAGE_SIZE in *; lia).
        split_and!; auto. done. }
    rewrite Hadv. cbn [mbind outcome_bind].
    destruct (decide (n = 0%nat)) as [->|Hn0].
    + simpl. rewrite Z.add_0_r, Z.eqb_refl. eexists. split; [done|]. intros q.
      rewrite get_insert. destruct (decide (base = q)) as [<-|].
      * rewrite decide_True by lia. unfold page_entry, mapped.
        destruct type; simpl; subst; try done. rewrite Z.sub_diag, Z.mul_0_l, Z.add_0_r. done.
      * rewrite decide_False by lia. done.
    + destruct (IH (base + 1) memory' (<[base:=page_entry base memory type]> pt)) as (pt' & -> & Hpt');
        [lia | lia | destruct type; [done | by destruct Hm' | done] |].
      exists pt'. split; [done|]. intros q. rewrite Hpt', get_insert.
      destruct (decide (base + 1 <= q < base + 1 + Z.of_nat n)).
      * rewrite decide_True by lia. destruct type; [done| |done].
        unfold mapped. rewrite Hp' by done. destruct (IsCached _); [done|]. f_equal. lia.
      * destruct (decide (base = q)) as [<-|]; [|by rewrite decide_False by lia].
        rewrite decide_True by lia. unfold page_entry, mapped.
        destruct type; simpl; subst; try done. rewrite Z.sub_diag, Z.mul_0_l, Z.add_0_r. done.
Qed.

End Map.
End PT.
