(* ===== verification/VMManager.v ===== *)
(** * Virtual memory manager

    Model of [VMManager] (core/hle/kernel/vm_manager.cpp).  [vma_map] is a
    [std::map] keyed by the base address: the list of its entries in key order;
    an iterator is a position in the list and [end()] is its length.  The
    page table is updated by the operations of [PageTable].  Not modelled: the
    notification of the plugin loader at the end of [UpdatePageTableForVMA]
    and the log output. *)
From S2P Require Import Prelude Results PageTable.

Module VM.
Import Res.

Definition MAX_ADDRESS : Z := 0x40000000.

Inductive vma_type := Free | BackingMemory.

(** [VMAPermission]: a mask of Read = 1, Write = 2, Execute = 4. *)
Definition PermNone : Z := 0.
Definition PermRead : Z := 1.
Definition PermReadWrite : Z := 3.

Inductive memory_state :=
| StFree | StReserved | StIO | StStatic | StCode | StPrivate | StShared | StContinuous
| StAliased | StAlias | StAliasCode | StLocked.

#[global] Instance vma_type_eq_dec : EqDecision vma_type.
Proof. solve_decision. Defined.
#[global] Instance memory_state_eq_dec : EqDecision memory_state.
Proof. solve_decision. Defined.

(** [VirtualMemoryArea] *)
Record vma := mk_vma {
  base : Z; size : Z; type : vma_type; permissions : Z;
  meminfo_state : memory_state; backing_memory : MRef.t;
}.

#[global] Instance vma_eq_dec : EqDecision vma.
Proof. solve_decision. Defined.

Definition CanBeMergedWith (this next : vma) : outcome bool :=
  _ ← assert_ (u32 (base this + size this) =? base next);
  Done (bool_decide (permissions this = permissions next) &&
        bool_decide (meminfo_state this = meminfo_state next) &&
        bool_decide (type this = type next) &&
        negb (bool_decide (type this = BackingMemory) &&
              negb (MRef.GetPtr (backing_memory this) + size this =?
                    MRef.GetPtr (backing_memory next)))).

Record vmm := mk_vmm { vma_map : list vma; page_table : PT.table; is_locked : bool }.

Section Manager.
Context (IsCached : Z -> bool).

Definition UpdatePageTableForVMA (v : vma) (s : vmm) : outcome vmm :=
  pt ← match type v with
       | Free => PT.UnmapRegion IsCached (base v) (size v) (page_table s)
       | BackingMemory => PT.MapMemoryRegion IsCached (base v) (size v) (backing_memory v) (page_table s)
       end;
  Done (mk_vmm (vma_map s) pt (is_locked s)).

Definition initial_vma : vma := mk_vma 0 MAX_ADDRESS Free PermNone StFree MRef.Null.

Definition Reset (s : vmm) : outcome vmm :=
  _ ← assert_ (negb (is_locked s));
  UpdatePageTableForVMA initial_vma (mk_vmm [initial_vma] PT.Clear (is_locked s)).

(** [std::map] searches: the first position with a key above, or not below. *)
Fixpoint upper_bound (m : list vma) (target : Z) : nat :=
  match m with
  | [] => 0
  | v :: m => if target <? base v then 0 else S (upper_bound m target)
  end.
Fixpoint lower_bound (m : list vma) (target : Z) : nat :=
  match m with
  | [] => 0
  | v :: m => if base v <? target then S (lower_bound m target) else 0
  end.

(** [std::prev(vma_map.upper_bound(target))]; there is nothing before [begin()]. *)
Definition FindVMA (m : list vma) (target : Z) : outcome nat :=
  if MAX_ADDRESS <=? target then Done (length m)
  else match upper_bound m target with O => Stop FOutOfRange | S i => Done i end.

(** Dereferencing an iterator. *)
Definition at_ (m : list vma) (i : nat) : outcome vma := of_opt FOutOfRange (m !! i).

(** [std::map::emplace]: an existing key keeps its entry. *)
Definition emplace (v : vma) (m : list vma) : nat * list vma :=
  let i := lower_bound m (base v) in
  match m !! i with
  | Some w => if base w =? base v then (i, m) else (i, take i m ++ v :: drop i m)
  | None => (i, take i m ++ v :: drop i m)
  end.

(** Returns the right side of the split. *)
Definition SplitVMA (i : nat) (offset_in_vma : Z) (s : vmm) : outcome (nat * vmm) :=
  old ← at_ (vma_map s) i;
  _ ← assert_ (offset_in_vma <? size old);
  _ ← assert_ (0 <? offset_in_vma);
  let old' := mk_vma (base old) offset_in_vma (type old) (permissions old)
                (meminfo_state old) (backing_memory old) in
  mem ← match type old with
        | Free => Done (backing_memory old)
        | BackingMemory => MRef.advance (backing_memory old) offset_in_vma
        end;
  let new := mk_vma (u32 (base old + offset_in_vma)) (size old - offset_in_vma) (type old)
               (permissions old) (meminfo_state old) mem in
  ok ← CanBeMergedWith old' new;
  _ ← assert_ ok;
  let '(j, m) := emplace new (<[i := old']> (vma_map s)) in
  Done (j, mk_vmm m (page_table s) (is_locked s)).

Definition set_size (v : vma) (n : Z) : vma :=
  mk_vma (base v) n (type v) (permissions v) (meminfo_state v) (backing_memory v).

(** Absorb the area at [i + 1] into the one at [i] when they can be merged. *)
Definition merge_right (i : nat) (m : list vma) : outcome (option (list vma)) :=
  match m !! i, m !! S i with
  | Some v, Some w =>
      ok ← CanBeMergedWith v w;
      Done (if (ok : bool) then Some (delete (S i) (<[i := set_size v (u32 (size v + size w))]> m)) else None)
  | _, _ => Done None
  end.

Definition MergeAdjacent (i : nat) (s : vmm) : outcome (nat * vmm) :=
  _ ← at_ (vma_map s) i;
  r ← merge_right i (vma_map s);
  let m := default (vma_map s) r in
  match i with
  | O => Done (O, mk_vmm m (page_table s) (is_locked s))
  | S p =>
      r ← merge_right p m;
      match r with
      | Some m => Done (p, mk_vmm m (page_table s) (is_locked s))
      | None => Done (i, mk_vmm m (page_table s) (is_locked s))
      end
  end.

(** Write the area at [i], update its pages and merge it: the common tail of
    [MapBackingMemory], [Unmap], [Reprotect] and [ChangeMemoryState]. *)
Definition rewrite (f : vma -> vma) (i : nat) (s : vmm) : outcome (nat * vmm) :=
  v ← at_ (vma_map s) i;
  let v := f v in
  s ← UpdatePageTableForVMA v (mk_vmm (<[i := v]> (vma_map s)) (page_table s) (is_locked s));
  MergeAdjacent i s.

Definition page_aligned (z : Z) : bool := Z.land z CITRA_PAGE_MASK =? 0.

(** Carves an area of [size_] bytes at [base_] out of a free area. *)
Definition CarveVMA (base_ size_ : Z) (s : vmm) : outcome (result_val nat * vmm) :=
  _ ← assert_ (page_aligned size_);
  _ ← assert_ (page_aligned base_);
  i ← FindVMA (vma_map s) base_;
  match vma_map s !! i with
  | None => Done (Err ResultInvalidAddress, s)
  | Some v =>
      if negb (bool_decide (type v = Free)) then Done (Err ResultInvalidAddressState, s)
      else
        let start_in_vma := u32 (base_ - base v) in
        let end_in_vma := u32 (start_in_vma + size_) in
        if size v <? end_in_vma then Done (Err ResultInvalidAddressState, s)
        else
          s ← (if negb (end_in_vma =? size v) then snd <$> SplitVMA i end_in_vma s else Done s);
          '(i, s) ← (if negb (start_in_vma =? 0) then SplitVMA i start_in_vma s else Done (i, s));
          Done (Val i, s)
  end.

(** Splits the ends of a range of mapped areas. *)
Definition CarveVMARange (target size_ : Z) (s : vmm) : outcome (result_val nat * vmm) :=
  _ ← assert_ (page_aligned size_);
  _ ← assert_ (page_aligned target);
  let target_end := u32 (target + size_) in
  _ ← assert_ (target <=? target_end);
  _ ← assert_ (target_end <=? MAX_ADDRESS);
  _ ← assert_ (0 <? size_);
  b ← FindVMA (vma_map s) target;
  let e := lower_bound (vma_map s) target_end in
  if existsb (fun v => bool_decide (type v = Free)) (take (e - b) (drop b (vma_map s)))
  then Done (Err ResultInvalidAddressState, s)
  else
    bv ← at_ (vma_map s) b;
    '(b, s) ← (if negb (target =? base bv) then SplitVMA b (u32 (target - base bv)) s
               else Done (b, s));
    e ← FindVMA (vma_map s) target_end;
    s ← match vma_map s !! e with
        | Some ev => if negb (target_end =? base ev)
                     then snd <$> SplitVMA e (u32 (target_end - base ev)) s else Done s
        | None => Done s
        end;
    Done (Val b, s).

(** [while (vma != end && vma->second.base < target_end)] *)
Fixpoint range_loop (fuel : nat) (f : vma -> vma) (target_end : Z) (i : nat) (s : vmm)
  : outcome vmm :=
  match vma_map s !! i with
  | Some v =>
      if base v <? target_end then
        match fuel with
        | O => Stop FFuel
        | S fuel => '(j, s) ← rewrite f i s; range_loop fuel f target_end (S j) s
        end
      else Done s
  | None => Done s
  end.

Definition unmapped (v : vma) : vma := mk_vma (base v) (size v) Free PermNone StFree MRef.Null.
Definition mapped (memory : MRef.t) (state : memory_state) (v : vma) : vma :=
  mk_vma (base v) (size v) BackingMemory PermReadWrite state memory.
Definition reprotected (new_perms : Z) (v : vma) : vma :=
  mk_vma (base v) (size v) (type v) new_perms (meminfo_state v) (backing_memory v).
Definition changed (new_state : memory_state) (new_perms : Z) (v : vma) : vma :=
  mk_vma (base v) (size v) (type v) new_perms new_state (backing_memory v).

Definition MapBackingMemory (target : Z) (memory : MRef.t) (size_ : Z) (state : memory_state)
    (s : vmm) : outcome (result_val nat * vmm) :=
  _ ← assert_ (negb (is_locked s));
  _ ← assert_ (negb (MRef.GetPtr memory =? 0));
  '(r, s) ← CarveVMA target size_ s;
  match r with
  | Err e => Done (Err e, s)
  | Val i =>
      v ← at_ (vma_map s) i;
      _ ← assert_ (size v =? size_);
      '(j, s) ← rewrite (mapped memory state) i s;
      Done (Val j, s)
  end.

(** The test of [std::find_if] in [MapBackingMemoryToBase]. *)
Definition fits (base_ size_ : Z) (v : vma) : bool :=
  let vma_end := u32 (base v + size v) in
  bool_decide (type v = Free) && (base_ <? vma_end) && (u32 (base_ + size_) <=? vma_end).

Fixpoint find_vma (f : vma -> bool) (m : list vma) : option vma :=
  match m with
  | [] => None
  | v :: m => if f v then Some v else find_vma f m
  end.

(** [vma_handle->second.base] is read before the test against [end()]. *)
Definition MapBackingMemoryToBase (base_ region_size : Z) (memory : MRef.t) (size_ : Z)
    (state : memory_state) (s : vmm) : outcome (result_val Z * vmm) :=
  _ ← assert_ (negb (is_locked s));
  v ← of_opt FOutOfRange (find_vma (fits base_ size_) (vma_map s));
  let target := Z.max base_ (base v) in
  if u32 (base_ + region_size) <? u32 (target + size_) then
    Done (Err (make Desc.OutOfMemory Mod_Kernel OutOfResource Permanent), s)
  else
    '(r, s) ← MapBackingMemory target memory size_ state s;
    match r with Err e => Done (Err e, s) | Val _ => Done (Val target, s) end.

(** The areas of the range are checked against what the caller expects. *)
Definition as_expected (expected_state : memory_state) (expected_perms : Z) (v : vma) : bool :=
  bool_decide (meminfo_state v = expected_state) &&
  (Z.land (permissions v) expected_perms =? expected_perms).

Definition ChangeMemoryState (target size_ : Z) (expected_state : memory_state)
    (expected_perms : Z) (new_state : memory_state) (new_perms : Z) (s : vmm)
  : outcome (result * vmm) :=
  if is_locked s then Done (ResultSuccess, s)
  else
    let target_end := u32 (target + size_) in
    b ← FindVMA (vma_map s) target;
    let e := lower_bound (vma_map s) target_end in
    if (b =? length (vma_map s))%nat then Done (ResultInvalidAddress, s)
    else if (e <? b)%nat then Stop FOutOfRange (* the iteration would run past [end()] *)
    else if negb (forallb (as_expected expected_state expected_perms)
                    (take (e - b) (drop b (vma_map s))))
    then Done (ResultInvalidAddressState, s)
    else
      '(r, s) ← CarveVMARange target size_ s;
      match r with
      | Err c => Done (c, s)
      | Val i =>
          s ← range_loop (length (vma_map s)) (changed new_state new_perms) target_end i s;
          Done (ResultSuccess, s)
      end.

Definition Unmap (i : nat) (s : vmm) : outcome (nat * vmm) :=
  _ ← assert_ (negb (is_locked s)); rewrite unmapped i s.

Definition UnmapRange (target size_ : Z) (s : vmm) : outcome (result * vmm) :=
  _ ← assert_ (negb (is_locked s));
  '(r, s) ← CarveVMARange target size_ s;
  match r with
  | Err c => Done (c, s)
  | Val i =>
      s ← range_loop (length (vma_map s)) unmapped (u32 (target + size_)) i s;
      j ← FindVMA (vma_map s) target;
      v ← at_ (vma_map s) j;
      _ ← assert_ (size_ <=? size v);
      Done (ResultSuccess, s)
  end.

Definition Reprotect (i : nat) (new_perms : Z) (s : vmm) : outcome (nat * vmm) :=
  _ ← assert_ (negb (is_locked s)); rewrite (reprotected new_perms) i s.

Definition ReprotectRange (target size_ : Z) (new_perms : Z) (s : vmm) : outcome (result * vmm) :=
  _ ← assert_ (negb (is_locked s));
  '(r, s) ← CarveVMARange target size_ s;
  match r with
  | Err c => Done (c, s)
  | Val i =>
      s ← range_loop (length (vma_map s)) (reprotected new_perms) (u32 (target + size_)) i s;
      Done (ResultSuccess, s)
  end.

Definition Unlock (s : vmm) : vmm := mk_vmm (vma_map s) (page_table s) false.

(** [while (interval_target != address + size)] *)
Fixpoint blocks_loop (fuel : nat) (m : list vma) (interval_target end_ : Z)
  : outcome (result_val (list (MRef.t * Z))) :=
  if interval_target =? end_ then Done (Val [])
  else match fuel with
  | O => Stop FFuel
  | S fuel =>
      i ← FindVMA m interval_target;
      v ← at_ m i;
      if negb (bool_decide (type v = BackingMemory)) then Done (Err ResultInvalidAddressState)
      else
        let interval_end := Z.min end_ (u32 (base v + size v)) in
        let interval_size := u32 (interval_end - interval_target) in
        mem ← MRef.add (backing_memory v) (u32 (interval_target - base v));
        r ← blocks_loop fuel m (u32 (interval_target + interval_size)) end_;
        Done (match r with Val l => Val ((mem, interval_size) :: l) | Err c => Err c end)
  end.

Definition GetBackingBlocksForRange (address size_ : Z) (s : vmm)
  : outcome (result_val (list (MRef.t * Z))) :=
  blocks_loop (S (length (vma_map s))) (vma_map s) address (u32 (address + size_)).

End Manager.
End VM.
