(* ===== verification/VMTiles.v ===== *)
(** * Lists of areas

    The [view] of a list of areas, tilings of the address space, and the
    searches and cuts of a tiling.  Nothing here depends on what backs the
    mapped areas. *)
From S2P Require Import Prelude Results PageTable VMManager.

Module Tiles.
Import Res VM.

Record cell := mk_cell { c_type : vma_type; c_perm : Z; c_state : memory_state; c_ptr : Z }.

Definition free_cell : cell := mk_cell Free PermNone StFree 0.

Definition cell_at (v : vma) (a : Z) : cell :=
  mk_cell (type v) (permissions v) (meminfo_state v)
    (match type v with Free => 0 | BackingMemory => MRef.GetPtr (backing_memory v) + (a - base v) end).

Definition inside (v : vma) (a : Z) : Prop := base v <= a < base v + size v.
#[global] Instance inside_dec v a : Decision (inside v a).
Proof. unfold inside. apply _. Defined.

(** What the areas say about an address. *)
Fixpoint view (m : list vma) (a : Z) : option cell :=
  match m with
  | [] => None
  | v :: m => if decide (inside v a) then Some (cell_at v a) else view m a
  end.

(** The areas of [m] tile [lo, hi). *)
Fixpoint tiles (lo : Z) (m : list vma) (hi : Z) : Prop :=
  match m with
  | [] => lo = hi
  | v :: m => base v = lo /\ 0 < size v /\ tiles (lo + size v) m hi
  end.

(** No two adjacent free areas. *)
Fixpoint no_adjacent_free (m : list vma) : Prop :=
  match m with
  | [] => True
  | v :: m =>
      match m with w :: _ => ~ (type v = Free /\ type w = Free) | [] => True end /\
      no_adjacent_free m
  end.

(** The test of [CanBeMergedWith], without its assertion. *)
Definition merge_ok (v w : vma) : Prop :=
  permissions v = permissions w /\ meminfo_state v = meminfo_state w /\ type v = type w /\
  (type v = BackingMemory ->
   MRef.GetPtr (backing_memory v) + size v = MRef.GetPtr (backing_memory w)).
#[global] Instance merge_ok_dec v w : Decision (merge_ok v w).
Proof. unfold merge_ok. apply _. Defined.

Lemma tiles_app lo m1 m2 hi :
  tiles lo (m1 ++ m2) hi <-> exists mid, tiles lo m1 mid /\ tiles mid m2 hi.
Proof.
  revert lo. induction m1 as [|v m1 IH]; intros lo; simpl.
  - split; [eauto|]. by intros (mid & -> & ?).
  - rewrite IH. naive_solver.
Qed.

Lemma tiles_le lo m hi : tiles lo m hi -> lo <= hi.
Proof.
  revert lo. induction m as [|v m IH]; intros lo; simpl; [lia|].
  intros (_ & ? & Ht). specialize (IH _ Ht). lia.
Qed.

Lemma view_outside lo m hi a : tiles lo m hi -> ~ (lo <= a < hi) -> view m a = None.
Proof.
  revert lo. induction m as [|v m IH]; intros lo; simpl; [done|].
  intros (Hb & Hs & Ht) Ha. pose proof (tiles_le _ _ _ Ht). unfold inside.
  rewrite decide_False by lia. apply (IH _ Ht). lia.
Qed.

Lemma view_app lo m1 mid m2 a : tiles lo m1 mid ->
  view (m1 ++ m2) a = if decide (lo <= a < mid) then view m1 a else view m2 a.
Proof.
  revert lo. induction m1 as [|v m1 IH]; intros lo; simpl.
  - intros ->. by rewrite decide_False by lia.
  - intros (Hb & Hs & Ht). pose proof (tiles_le _ _ _ Ht). rewrite (IH _ Ht).
    unfold inside. destruct (decide (base v <= a < base v + size v)).
    + by rewrite decide_True by lia.
    + destruct (decide (lo + size v <= a < mid)).
      * by rewrite decide_True by lia.
      * by rewrite decide_False by lia.
Qed.

(** The area that contains an address. *)
Lemma tiles_find lo m hi t : tiles lo m hi -> lo <= t < hi ->
  exists l v r, m = l ++ v :: r /\ inside v t.
Proof.
  revert lo. induction m as [|v m IH]; intros lo; simpl; [lia|].
  intros (Hb & Hs & Ht) Hr. destruct (decide (inside v t)) as [Hi|Hi].
  - by exists [], v, m.
  - destruct (IH _ Ht) as (l & w & r & -> & Hw); [unfold inside in Hi; lia|].
    by exists (v :: l), w, r.
Qed.

Lemma tiles_mid lo l v r hi : tiles lo (l ++ v :: r) hi ->
  tiles lo l (base v) /\ 0 < size v /\ tiles (base v + size v) r hi.
Proof. intros (mid & Hl & Hb & Hs & Hr)%tiles_app. by subst mid. Qed.

Lemma view_mid lo l v r hi a : tiles lo (l ++ v :: r) hi ->
  view (l ++ v :: r) a =
    if decide (inside v a) then Some (cell_at v a) else view (l ++ r) a.
Proof.
  intros (Hl & Hs & Hr)%tiles_mid. pose proof (tiles_le _ _ _ Hl). pose proof (tiles_le _ _ _ Hr).
  rewrite !(view_app lo l (base v)) by done. simpl. unfold inside.
  destruct (decide (lo <= a < base v)); [|done]. by rewrite decide_False by lia.
Qed.

Lemma tiles_base lo m hi v : tiles lo m hi -> v ∈ m -> lo <= base v /\ base v < hi.
Proof.
  intros Ht (l & r & ->)%list_elem_of_split. apply tiles_mid in Ht as (Hl & Hs & Hr).
  pose proof (tiles_le _ _ _ Hl). pose proof (tiles_le _ _ _ Hr). lia.
Qed.

Lemma upper_bound_spec lo l v r hi t : tiles lo (l ++ v :: r) hi -> inside v t ->
  upper_bound (l ++ v :: r) t = S (length l).
Proof.
  intros Ht Hi. revert lo Ht. induction l as [|u l IH]; intros lo; simpl.
  - intros (Hb & Hs & Ht). unfold inside in Hi. destruct (Z.ltb_spec t (base v)); [lia|].
    f_equal. destruct r as [|w r]; [done|]. simpl in *. destruct Ht as (Hb' & _).
    destruct (Z.ltb_spec t (base w)); [done|lia].
  - intros (Hb & Hs & Ht). unfold inside in Hi.
    pose proof (tiles_base _ _ _ v Ht ltac:(set_solver)).
    destruct (Z.ltb_spec t (base u)); [lia|]. f_equal. by eapply IH.
Qed.

Lemma lower_bound_app m1 m2 t :
  (forall v, v ∈ m1 -> base v < t) -> lower_bound (m1 ++ m2) t = (length m1 + lower_bound m2 t)%nat.
Proof.
  induction m1 as [|v m1 IH]; intros H; simpl; [done|].
  destruct (Z.ltb_spec (base v) t) as [|Hv]; [|specialize (H v ltac:(set_solver)); lia].
  rewrite IH; [lia|]. set_solver.
Qed.

Lemma lower_bound_ge m t : (forall v, head m = Some v -> t <= base v) -> lower_bound m t = 0%nat.
Proof.
  destruct m as [|v m]; intros H; simpl; [done|].
  destruct (Z.ltb_spec (base v) t); [specialize (H v ltac:(done)); lia|done].
Qed.

Lemma FindVMA_spec l v r t : tiles 0 (l ++ v :: r) MAX_ADDRESS -> inside v t ->
  FindVMA (l ++ v :: r) t = Done (length l).
Proof.
  intros Ht Hi. unfold FindVMA. pose proof (tiles_mid _ _ _ _ _ Ht) as (_ & _ & Hr).
  pose proof (tiles_le _ _ _ Hr). unfold inside in *.
  destruct (Z.leb_spec MAX_ADDRESS t); [lia|]. by rewrite (upper_bound_spec 0 l v r MAX_ADDRESS).
Qed.

Lemma FindVMA_end m t : MAX_ADDRESS <= t -> FindVMA m t = Done (length m).
Proof. intros H. unfold FindVMA. destruct (Z.leb_spec MAX_ADDRESS t); [done|lia]. Qed.

Lemma CanBeMergedWith_spec v w : 0 <= base v -> base v + size v < 2 ^ 32 -> 0 < size v ->
  base w = base v + size v -> CanBeMergedWith v w = Done (bool_decide (merge_ok v w)).
Proof.
  intros H0 H1 H2 Hw. unfold CanBeMergedWith. rewrite u32_small, Hw, Z.eqb_refl by lia.
  cbn [assert_ mbind outcome_bind]. f_equal. apply eq_bool_prop_intro. unfold merge_ok.
  rewrite !andb_True, negb_True, andb_True, negb_True, !bool_decide_spec.
  split.
  - intros (((? & ?) & ?) & Hp). split_and!; [done..|]. intros Hb.
    destruct (Z.eqb_spec (MRef.GetPtr (backing_memory v) + size v) (MRef.GetPtr (backing_memory w)));
      [done|]. destruct Hp. split; [done|]. by intros [].
  - intros (? & ? & ? & Hp). split_and!; [done..|]. intros [Hb Hn]. apply Hn.
    rewrite Hp by done. by rewrite Z.eqb_refl.
Qed.

Lemma emplace_split l v1 v2 r : tiles 0 (l ++ v1 :: v2 :: r) MAX_ADDRESS ->
  emplace v2 (l ++ v1 :: r) = (S (length l), l ++ v1 :: v2 :: r).
Proof.
  intros Ht. pose proof Ht as (Hl & Hs1 & Hb2 & Hs2 & Hr)%tiles_mid.
  assert (lower_bound (l ++ v1 :: r) (base v2) = S (length l)) as Hlb.
  { change (v1 :: r) with ([v1] ++ r). rewrite (assoc_L (++)).
    rewrite lower_bound_app, lower_bound_ge; [rewrite length_app; simpl; lia| |].
    - destruct r as [|w r]; simpl in *; intros; simplify_eq. lia.
    - intros u [Hu| ->%list_elem_of_singleton]%elem_of_app; [|lia].
      pose proof (tiles_base _ _ _ _ Hl Hu). lia. }
  unfold emplace. rewrite Hlb.
  assert ((l ++ v1 :: r) !! S (length l) = head r) as ->.
  { rewrite lookup_app_r by lia. replace (S (length l) - length l)%nat with 1%nat by lia.
    by destruct r. }
  assert (take (S (length l)) (l ++ v1 :: r) ++ v2 :: drop (S (length l)) (l ++ v1 :: r) =
          l ++ v1 :: v2 :: r) as E.
  { change (v1 :: r) with ([v1] ++ r). rewrite (assoc_L (++)).
    replace (S (length l)) with (length (l ++ [v1])) by (rewrite length_app; simpl; lia).
    rewrite take_app_length, drop_app_length. by rewrite <- (assoc_L (++)). }
  destruct r as [|w r]; simpl; [by rewrite E|].
  simpl in Hr. destruct (Z.eqb_spec (base w) (base v2)); [lia|]. by rewrite E.
Qed.

Definition low_part (v : vma) (off : Z) : vma :=
  mk_vma (base v) off (type v) (permissions v) (meminfo_state v) (backing_memory v).

Definition same_cells (v w : vma) : Prop := forall a, inside v a -> cell_at v a = cell_at w a.

Lemma aligned_sum a b : a `mod` CITRA_PAGE_SIZE = 0 -> b `mod` CITRA_PAGE_SIZE = 0 ->
  (a + b) `mod` CITRA_PAGE_SIZE = 0.
Proof. unfold CITRA_PAGE_SIZE. intros. Z.div_mod_to_equations. lia. Qed.

Lemma aligned_diff a b : a `mod` CITRA_PAGE_SIZE = 0 -> b `mod` CITRA_PAGE_SIZE = 0 ->
  (a - b) `mod` CITRA_PAGE_SIZE = 0.
Proof. unfold CITRA_PAGE_SIZE. intros. Z.div_mod_to_equations. lia. Qed.

Definition is_free (o : option vma) : Prop :=
  match o with Some v => type v = Free | None => False end.

Lemma naf_app l1 l2 : no_adjacent_free (l1 ++ l2) <->
  no_adjacent_free l1 /\ no_adjacent_free l2 /\ ~ (is_free (last l1) /\ is_free (head l2)).
Proof.
  induction l1 as [|v l1 IH]; simpl; [naive_solver|].
  rewrite IH. destruct l1 as [|w l1]; simpl; [|tauto].
  destruct l2 as [|w l2]; simpl; tauto.
Qed.

Lemma naf_mid l v r : no_adjacent_free (l ++ v :: r) <->
  no_adjacent_free l /\ no_adjacent_free r /\
  (type v = Free -> ~ is_free (last l) /\ ~ is_free (head r)).
Proof.
  rewrite naf_app. simpl. destruct r as [|w r]; simpl; tauto.
Qed.

Definition join (v w : vma) : vma := set_size v (size v + size w).

Lemma merge_right_last l v : merge_right (length l) (l ++ [v]) = Done None.
Proof.
  unfold merge_right. rewrite list_lookup_middle by done.
  by rewrite lookup_ge_None_2 by (rewrite length_app; simpl; lia).
Qed.

Definition absorbed (v : vma) (r r' : list vma) : Prop :=
  r' = r \/ exists w, r = w :: r' /\ merge_ok v w.

Lemma view_replace l v v' r a : base v' = base v -> size v' = size v ->
  tiles 0 (l ++ v :: r) MAX_ADDRESS ->
  view (l ++ v' :: r) a = if decide (inside v a) then Some (cell_at v' a) else view (l ++ v :: r) a.
Proof.
  intros Hb Hs Ht. pose proof Ht as (Hl & Hsz & Hr)%tiles_mid.
  assert (tiles 0 (l ++ v' :: r) MAX_ADDRESS) as Ht'.
  { apply tiles_app. exists (base v). split; [done|]. simpl. by rewrite Hs. }
  rewrite (view_mid 0 l v' r MAX_ADDRESS), (view_mid 0 l v r MAX_ADDRESS) by done.
  assert (inside v' a <-> inside v a) by (unfold inside; by rewrite Hb, Hs).
  destruct (decide (inside v' a)), (decide (inside v a)); tauto.
Qed.

Lemma snoc_len {A} (l : list A) x : S (length l) = length (l ++ [x]).
Proof. rewrite length_app. simpl. lia. Qed.

Lemma tiles_uniq lo m h1 h2 : tiles lo m h1 -> tiles lo m h2 -> h1 = h2.
Proof.
  revert lo. induction m as [|v m IH]; intros lo; simpl; [congruence|].
  intros (_ & _ & H1) (_ & _ & H2). by eapply IH.
Qed.

Lemma tiles_rest lo l r hi mid : tiles lo (l ++ r) hi -> tiles lo l mid -> tiles mid r hi.
Proof. intros (mid' & Hl & Hr)%tiles_app Hl'. by rewrite (tiles_uniq _ _ _ _ Hl' Hl). Qed.

Lemma tiles_uniq_lo a b m hi : tiles a m hi -> tiles b m hi -> a = b.
Proof. destruct m; simpl; [congruence|]. intros (? & _) (? & _). congruence. Qed.

Lemma tiles_snoc l u r x : tiles 0 (l ++ u :: r) MAX_ADDRESS -> tiles x r MAX_ADDRESS ->
  tiles 0 (l ++ [u]) x.
Proof.
  intros (Hl & Hs & Hr)%tiles_mid Hx. apply tiles_app. exists (base u). split; [done|].
  simpl. split_and!; [done..|]. by eapply tiles_uniq_lo.
Qed.

Lemma view_in lo l v r hi a : tiles lo (l ++ v :: r) hi -> inside v a ->
  view (l ++ v :: r) a = Some (cell_at v a).
Proof. intros Ht Hi. by rewrite (view_mid lo l v r hi), decide_True. Qed.

Lemma aligned_bool z : page_aligned z = true <-> z `mod` CITRA_PAGE_SIZE = 0.
Proof. apply PT.page_aligned_spec. Qed.

(** Every address of [lo, hi) is free. *)
Definition all_free (m : list vma) (lo hi : Z) : Prop :=
  forall a, lo <= a < hi -> view m a = Some free_cell.

Lemma naf_cons v r : no_adjacent_free (v :: r) ->
  forall w, type w = type v -> no_adjacent_free (w :: r).
Proof.
  intros [H1 H2] w Hw. split; [|done].
 destruct r; [done|].
 by rewrite Hw.
Qed.

Lemma naf_snoc l v : no_adjacent_free (l ++ [v]) ->
  forall w, type w = type v -> no_adjacent_free (l ++ [w]).
Proof.
  intros (H1 & H2 & H3)%naf_app w Hw. apply naf_app. split_and!; [done | simpl; tauto |].
  simpl in *. by rewrite Hw.
Qed.

(** Cut a list of areas after the last one that ends at or below [t]. *)
Lemma tiles_cut_end lo m hi t : tiles lo m hi -> lo <= t <= hi ->
  exists l r x, m = l ++ r /\ tiles lo l x /\ tiles x r hi /\ x <= t /\
    (forall v, head r = Some v -> inside v t) /\ (r = [] -> x = t).
Proof.
  revert lo. induction m as [|v m IH]; intros lo; simpl.
  - intros -> Ht. exists [], [], hi. split_and!; try done; lia.
  - intros (Hb & Hs & Ht) Hr. destruct (Z.le_gt_cases (lo + size v) t) as [Hle|Hgt].
    + destruct (IH _ Ht) as (l & r & x & -> & Hl & Hx); [lia|].
      exists (v :: l), r, x. split_and!; try done; apply Hx.
    + exists [], (v :: m), lo. split_and!; try done; [lia|].
      intros w [= <-]. unfold inside. lia.
Qed.

(** Cut it before the first one that starts at or above [te]. *)
Lemma tiles_cut_start lo m hi te : tiles lo m hi -> te <= hi ->
  exists l r x, m = l ++ r /\ tiles lo l x /\ tiles x r hi /\ te <= x /\
    lower_bound m te = length l /\ (forall v, v ∈ l -> base v < te).
Proof.
  revert lo. induction m as [|v m IH]; intros lo; simpl.
  - intros -> Hte. exists [], [], hi. split_and!; try done. set_solver.
  - intros (Hb & Hs & Ht) Hte. destruct (Z.ltb_spec (base v) te) as [Hlt|Hge].
    + destruct (IH _ Ht Hte) as (l & r & x & -> & Hl & Hr & Hx & Hlb & Hall).
      exists (v :: l), r, x. split_and!; try done; [simpl; by rewrite Hlb | set_solver].
    + exists [], (v :: m), lo. split_and!; try done; [lia | set_solver].
Qed.

Lemma tiles_range m t te : tiles 0 m MAX_ADDRESS -> 0 <= t -> t < te -> te <= MAX_ADDRESS ->
  exists l v mid r x, m = l ++ (v :: mid) ++ r /\ inside v t /\ tiles (base v) (v :: mid) x /\
    te <= x /\ FindVMA m t = Done (length l) /\
    lower_bound m te = (length l + length (v :: mid))%nat /\
    (forall w, w ∈ v :: mid -> base w < te).
Proof.
  intros Ht H0 Hlt Hte. destruct (tiles_cut_end 0 m MAX_ADDRESS t Ht ltac:(lia)) as
    (l & r0 & x0 & -> & Hl & Hr0 & Hx0 & Hhd & Hnil).
  destruct r0 as [|v r0]; [specialize (Hnil eq_refl); simpl in Hr0; lia|].
  specialize (Hhd v eq_refl). pose proof Hr0 as (Hb & Hs & Hr1).
  destruct (tiles_cut_start _ _ _ te Hr1 Hte) as (mid & r & x & -> & Hmid & Hr & Hx & Hlb & Hall).
  exists l, v, mid, r, x. unfold inside in Hhd. split_and!; try done.
  - by rewrite Hb.
  - by apply FindVMA_spec.
  - rewrite lower_bound_app; simpl.
    + destruct (Z.ltb_spec (base v) te); [lia|lia].
    + intros w Hw. pose proof (tiles_base _ _ _ _ Hl Hw). lia.
  - intros w [-> | Hw]%elem_of_cons; [lia|auto].
Qed.

Lemma view_elem m w a : tiles 0 m MAX_ADDRESS -> w ∈ m -> inside w a ->
  view m a = Some (cell_at w a).
Proof. intros Ht (l & r & ->)%list_elem_of_split Hi. by apply (view_in 0 l w r MAX_ADDRESS). Qed.

Lemma tiles_overlap lo m x w : tiles lo m x -> w ∈ m -> base w + size w <= x /\ 0 < size w.
Proof.
  intros Ht (l & r & ->)%list_elem_of_split. apply tiles_mid in Ht as (_ & ? & Hr).
  by pose proof (tiles_le _ _ _ Hr).
Qed.

(** A property of types, permissions and states holds at all addresses of a
    range when it holds for the areas the range meets. *)
Definition all_cells (P : vma_type -> Z -> memory_state -> Prop) (m : list vma) (lo hi : Z) : Prop :=
  forall a, lo <= a < hi -> exists c, view m a = Some c /\ P (c_type c) (c_perm c) (c_state c).

Lemma all_cells_areas P m l v mid r t te x : tiles 0 m MAX_ADDRESS -> m = l ++ (v :: mid) ++ r ->
  inside v t -> tiles (base v) (v :: mid) x -> te <= x -> t < te ->
  (forall w, w ∈ v :: mid -> base w < te) ->
  all_cells P m t te <-> Forall (fun w => P (type w) (permissions w) (meminfo_state w)) (v :: mid).
Proof.
  intros Ht Hm Hi Hx Hte Hlt Hall.
  assert (forall w, w ∈ v :: mid -> w ∈ m) as Hsub by (subst m; set_solver).
  split.
  - intros Hmap. apply Forall_forall. intros w Hw.
    destruct (tiles_base _ _ _ _ Hx Hw) as [Hbw _]. specialize (Hall w Hw).
    destruct (tiles_overlap _ _ _ _ Hx Hw) as [_ Hsw].
    assert (exists a, t <= a < te /\ inside w a) as (a & Ha & Hia).
    { apply elem_of_cons in Hw as [-> | Hw]; [exists t; split; [lia|done]|].
      destruct Hx as (_ & _ & Hx). destruct (tiles_base _ _ _ _ Hx Hw) as [Hb' _].
      exists (base w). unfold inside in *. lia. }
    destruct (Hmap a Ha) as (c & Hc & Hty). rewrite (view_elem m w) in Hc by auto.
    by injection Hc as <-.
  - intros Hf a Ha. destruct (tiles_find (base v) (v :: mid) x a Hx) as (l1 & w & r1 & Hw & Hia);
      [unfold inside in Hi; lia|].
    assert (w ∈ v :: mid) as Hw' by (rewrite Hw; set_solver).
    exists (cell_at w a). split; [by apply view_elem; auto|].
    by apply (proj1 (Forall_forall _ _) Hf) in Hw'.
Qed.

Lemma bool_free_areas l : existsb (fun v => bool_decide (type v = Free)) l = false <->
  Forall (fun w => type w = BackingMemory) l.
Proof.
  rewrite Forall_forall. split.
  - intros H w Hw. destruct (type w) eqn:E; [|done].
    apply not_true_iff_false in H. destruct H. apply existsb_exists. exists w.
    split; [by apply list_elem_of_In|]. by apply bool_decide_eq_true.
  - intros H. apply not_true_iff_false. intros (w & Hw & Hf)%existsb_exists.
    apply list_elem_of_In, H in Hw. apply bool_decide_eq_true in Hf. congruence.
Qed.

Lemma take_drop_mid {A} (l mid r : list A) :
  take (length l + length mid - length l) (drop (length l) (l ++ mid ++ r)) = mid.
Proof.
  rewrite drop_app_length. replace (_ + _ - _)%nat with (length mid) by lia. apply take_app_length.
Qed.

Lemma FindVMA_boundary l r te : tiles 0 (l ++ r) MAX_ADDRESS -> tiles 0 l te ->
  FindVMA (l ++ r) te = Done (length l).
Proof.
  intros Ht Hl. pose proof (tiles_rest _ _ _ _ _ Ht Hl) as Hr. destruct r as [|w r].
  - simpl in Hr. subst te. rewrite FindVMA_end by lia. by rewrite app_nil_r.
  - apply FindVMA_spec; [done|]. simpl in Hr. unfold inside. lia.
Qed.

Abbreviation all_mapped := (all_cells (fun ty _ _ => ty = BackingMemory)).

End Tiles.
