(* ===== verification/VMFacts.v ===== *)
(** * Correctness of the virtual memory manager

    The abstract state is the [view]: what each address is (free or mapped,
    permissions, state, host pointer).  The invariant [wf] says that the areas
    tile the address space, are page aligned and backed by existing memory,
    that no two free areas are adjacent, and that the page table is the one
    the areas describe.  Each operation is proved against the view. *)
From S2P Require Import Prelude Results PageTable VMManager VMTiles.

Module VMF.
Import Res VM Tiles.

Section Facts.
Context (IsCached : Z -> bool).

(** The host buffers that back guest memory. *)
Context (buffers : MRef.backing -> Prop).

(** A reference to [n] bytes of a known buffer. *)
Definition backs (r : MRef.t) (n : Z) : Prop :=
  MRef.covers r n /\ match r with MRef.Null => False | MRef.Ref b _ => buffers b end.

Record good (v : vma) : Prop := {
  good_base : 0 <= base v;
  good_end : base v + size v <= MAX_ADDRESS;
  good_size : 0 < size v;
  good_base_aligned : base v `mod` CITRA_PAGE_SIZE = 0;
  good_size_aligned : size v `mod` CITRA_PAGE_SIZE = 0;
  good_backed : type v = BackingMemory -> backs (backing_memory v) (size v);
  good_free : type v = Free -> permissions v = PermNone /\ meminfo_state v = StFree;
}.

(** The page table entry of a page whose first address is described by [c]. *)
Definition entry_of (q : Z) (c : option cell) : PT.entry :=
  match c with
  | Some (mk_cell BackingMemory _ _ p) =>
      if IsCached (u32 (q * CITRA_PAGE_SIZE)) then PT.mk_entry PT.RasterizerCachedMemory 0
      else PT.mk_entry PT.Memory p
  | _ => PT.cleared
  end.

Definition pages_agree (m : list vma) (pt : PT.table) : Prop :=
  forall q, PT.get pt q = entry_of q (view m (q * CITRA_PAGE_SIZE)).

Record wf_map (m : list vma) : Prop := {
  wf_tiles : tiles 0 m MAX_ADDRESS;
  wf_good : Forall good m;
}.

Record wf (s : vmm) : Prop := {
  wf_vmas : wf_map (vma_map s);
  wf_free : no_adjacent_free (vma_map s);
  wf_pages : pages_agree (vma_map s) (page_table s);
}.

(** ** Splitting *)

Lemma good_below v : good v -> base v + size v < 2 ^ 32.
Proof. intros [_ H _ _ _ _ _]. unfold MAX_ADDRESS in H. lia. Qed.

Lemma SplitVMA_spec s l v r off :
  vma_map s = l ++ v :: r -> tiles 0 (l ++ v :: r) MAX_ADDRESS -> good v ->
  0 < off < size v -> off `mod` CITRA_PAGE_SIZE = 0 ->
  exists v2, SplitVMA (length l) off s =
      Done (S (length l), mk_vmm (l ++ low_part v off :: v2 :: r) (page_table s) (is_locked s)) /\
    base v2 = base v + off /\ size v2 = size v - off /\ type v2 = type v /\
    good (low_part v off) /\ good v2 /\ same_cells v2 v.
Proof.
  intros Hm Ht Hg Hoff Ha. pose proof (good_below v Hg) as Hlt.
  destruct Hg as [Hb He Hs Hba Hsa Hbk Hfr].
  unfold SplitVMA, at_. rewrite Hm, list_lookup_middle by done.
  cbn [of_opt mbind outcome_bind].
  destruct (Z.ltb_spec off (size v)); [|lia]. destruct (Z.ltb_spec 0 off); [|lia].
  cbn [assert_ mbind outcome_bind]. rewrite (u32_small (base v + off)) by lia.
  assert (exists mem, match type v with
            | Free => Done (backing_memory v)
            | BackingMemory => MRef.advance (backing_memory v) off
            end = Done mem /\
          (type v = BackingMemory -> backs mem (size v - off) /\
             MRef.GetPtr mem = MRef.GetPtr (backing_memory v) + off)) as (mem & -> & Hmem).
  { destruct (type v); [by exists (backing_memory v)|].
    destruct (Hbk eq_refl) as [Hc Hbuf].
    destruct (MRef.advance_covers _ _ off Hc) as (r' & Hr' & Hc' & Hp); [lia|].
    exists r'. split; [done|]. intros _. split; [|done]. split; [done|].
    unfold MRef.advance in Hr'. destruct (off <? _); [|done]. simpl in Hr'.
    destruct (backing_memory v); [done|]. by injection Hr' as <-. }
  cbn [mbind outcome_bind].
  set (v2 := mk_vma (base v + off) _ _ _ _ mem).
  fold (low_part v off).
  rewrite CanBeMergedWith_spec by (simpl; lia). rewrite bool_decide_true.
  2: { unfold merge_ok. simpl. split_and!; [done..|]. intros Hbm. by destruct (Hmem Hbm). }
  cbn [assert_ mbind outcome_bind].
  assert (<[length l := low_part v off]> (l ++ v :: r) = l ++ low_part v off :: r) as ->.
  { rewrite insert_app_r_alt by lia. by rewrite Nat.sub_diag. }
  rewrite (emplace_split l (low_part v off) v2 r).
  2: { apply tiles_app. apply tiles_app in Ht as (mid & Hl & Hbm & _ & Hr). exists mid.
       split; [done|]. simpl. split_and!; try lia.
       by replace (mid + off + (size v - off)) with (mid + size v) by lia. }
  exists v2. split_and!; try done.
  - split; simpl; try lia; try done. intros Hbm. destruct (Hbk Hbm) as [Hc Hbuf].
    split; [|done]. eapply MRef.covers_le; [done|lia].
  - split; simpl; try lia; try done; [by apply aligned_sum | by apply aligned_diff |].
    intros Hbm. by destruct (Hmem Hbm).
  - intros a _. unfold cell_at. simpl. f_equal. destruct (type v); [done|].
    destruct (Hmem eq_refl) as [_ ->]. lia.
Qed.

(** ** Carving *)

Lemma split_full s l v r off : vma_map s = l ++ v :: r -> wf_map (vma_map s) ->
  0 < off < size v -> off `mod` CITRA_PAGE_SIZE = 0 ->
  exists v2 s', SplitVMA (length l) off s = Done (S (length l), s') /\
    vma_map s' = l ++ low_part v off :: v2 :: r /\ page_table s' = page_table s /\
    is_locked s' = is_locked s /\ wf_map (vma_map s') /\
    base v2 = base v + off /\ size v2 = size v - off /\ type v2 = type v /\
    (forall a, view (vma_map s') a = view (vma_map s) a).
Proof.
  intros Hm [Ht Hg] Hoff Ha. rewrite Hm in Ht, Hg.
  pose proof Hg as [Hgl [Hgv Hgr]%Forall_cons]%Forall_app.
  destruct (SplitVMA_spec s l v r off Hm Ht Hgv Hoff Ha) as
    (v2 & Hsp & Hb2 & Hs2 & Hty2 & Hg1 & Hg2 & Hsame).
  exists v2, (mk_vmm (l ++ low_part v off :: v2 :: r) (page_table s) (is_locked s)).
  split_and!; try done.
  - split; simpl.
    + pose proof Ht as (Hl & _ & Hr)%tiles_mid. apply tiles_app. exists (base v).
      split; [done|]. simpl. split_and!; [done | lia | done | lia |].
      by replace (base v + off + size v2) with (base v + size v) by lia.
    + apply Forall_app. split; [done|]. by do 2 (constructor; [done|]).
  - intros a. cbn [vma_map]. rewrite Hm. pose proof Ht as (Hl & _)%tiles_mid.
    rewrite !(view_app 0 l (base v)) by done. case_decide; [done|]. simpl.
    destruct (decide (inside v a)) as [Hi|Hi]; unfold inside in Hi.
    + destruct (decide (inside (low_part v off) a)) as [Hj|Hj]; unfold inside in Hj; simpl in Hj;
        [done|]. rewrite decide_True by (unfold inside; lia). f_equal. apply Hsame. unfold inside. lia.
    + by rewrite !decide_False by (unfold inside; simpl; lia).
Qed.

Lemma good_free_cell v a : good v -> type v = Free -> cell_at v a = free_cell.
Proof. intros Hg Hf. destruct (good_free v Hg Hf) as [Hp Hs]. unfold cell_at. by rewrite Hf, Hp, Hs. Qed.

(** A free range lies in one free area. *)
Lemma all_free_area s l v r t te : wf s -> vma_map s = l ++ v :: r -> inside v t -> t < te ->
  all_free (vma_map s) t te <-> type v = Free /\ te <= base v + size v.
Proof.
  intros Hwf Hm Hi Hlt. pose proof (wf_tiles _ (wf_vmas _ Hwf)) as Ht.
  pose proof (wf_good _ (wf_vmas _ Hwf)) as Hg. pose proof (wf_free _ Hwf) as Hn.
  unfold all_free. rewrite Hm in *. apply Forall_app in Hg as [_ [Hgv Hgr]%Forall_cons].
  apply naf_mid in Hn as (_ & _ & Hn). unfold inside in Hi. split.
  - intros Hall. assert (type v = Free) as Hf.
    { specialize (Hall t ltac:(lia)). rewrite (view_in 0 l v r MAX_ADDRESS) in Hall by done.
      injection Hall as Hty _ _ _. done. }
    split; [done|]. destruct (Z.le_gt_cases te (base v + size v)) as [|Hgt]; [done|].
    specialize (Hall (base v + size v) ltac:(lia)). destruct (Hn Hf) as [_ Hr].
    rewrite (view_mid 0 l v r MAX_ADDRESS), decide_False in Hall by (try done; unfold inside; lia).
    pose proof Ht as (Hl & Hs & Hrt)%tiles_mid.
    rewrite (view_app 0 l (base v)), decide_False in Hall by (try done; lia).
    destruct r as [|w r]; simpl in *; [done|]. destruct Hrt as (Hb & Hsw & _).
    rewrite decide_True in Hall by (unfold inside; lia). injection Hall as Hty _ _ _. done.
  - intros [Hf Hle] a Ha. rewrite (view_in 0 l v r MAX_ADDRESS) by (try done; unfold inside; lia).
    by rewrite good_free_cell.
Qed.

(** What carving leaves: an area for the range, everything else as it was. *)
Definition carved (s s' : vmm) (l : list vma) (u : vma) (r : list vma) (t n : Z) : Prop :=
  vma_map s' = l ++ u :: r /\ base u = t /\ size u = n /\ wf_map (vma_map s') /\
  no_adjacent_free l /\ no_adjacent_free r /\ page_table s' = page_table s /\
  is_locked s' = is_locked s /\ (forall a, view (vma_map s') a = view (vma_map s) a).

(** Cutting the end, then the start, off a free area. *)
Lemma carve_area s l v r t n : wf s -> vma_map s = l ++ v :: r ->
  base v <= t -> 0 < n -> t + n <= base v + size v ->
  t `mod` CITRA_PAGE_SIZE = 0 -> n `mod` CITRA_PAGE_SIZE = 0 ->
  exists i' s' l' u r',
    (s0 ← (if negb (t - base v + n =? size v) then snd <$> SplitVMA (length l) (t - base v + n) s
           else Done s);
     if negb (t - base v =? 0) then SplitVMA (length l) (t - base v) s0 else Done (length l, s0))
      = Done (i', s') /\ i' = length l' /\ carved s s' l' u r' t n.
Proof.
  intros Hwf Hm Hlo Hn Hhi Hta Hna.
  pose proof (wf_good _ (wf_vmas _ Hwf)) as Hg. pose proof (wf_free _ Hwf) as Hnf.
  rewrite Hm in Hg, Hnf. apply Forall_app in Hg as [_ [Hgv _]%Forall_cons].
  pose proof (good_base_aligned v Hgv) as Hba.
  assert ((t - base v) `mod` CITRA_PAGE_SIZE = 0) as Ha1 by by apply aligned_diff.
  assert ((t - base v + n) `mod` CITRA_PAGE_SIZE = 0) as Ha2 by by apply aligned_sum.
  replace (l ++ v :: r) with ((l ++ [v]) ++ r) in Hnf by by rewrite <- (assoc_L (++)).
  assert (exists s0 v0 r0,
    (if negb (t - base v + n =? size v) then snd <$> SplitVMA (length l) (t - base v + n) s
     else Done s) = Done s0 /\ vma_map s0 = l ++ v0 :: r0 /\ base v0 = base v /\
    size v0 = t - base v + n /\ type v0 = type v /\ wf_map (vma_map s0) /\
    no_adjacent_free (l ++ [v0]) /\ no_adjacent_free r0 /\ page_table s0 = page_table s /\
    is_locked s0 = is_locked s /\ forall a, view (vma_map s0) a = view (vma_map s) a)
    as (s0 & v0 & r0 & -> & Hm0 & Hb0 & Hs0 & Hty0 & Hw0 & Hn0 & Hr0 & Hp0 & Hk0 & Hv0).
  { apply naf_app in Hnf as Hnf'. destruct Hnf' as (Hnl & Hnr & _).
    destruct (Z.eqb_spec (t - base v + n) (size v)) as [Heq|Hne]; simpl.
    - exists s, v, r. split_and!; try done. apply Hwf.
    - destruct (split_full s l v r (t - base v + n) Hm (wf_vmas _ Hwf)) as
        (v2 & s0 & -> & Hm0 & Hp0 & Hk0 & Hw0 & Hb2 & Hs2 & Hty2 & Hv0); [lia|done|].
      exists s0, (low_part v (t - base v + n)), (v2 :: r). split_and!; try done.
      + by eapply naf_snoc.
      + rewrite <- (assoc_L (++)) in Hnf. apply naf_app in Hnf as (_ & Hvr & _). by eapply naf_cons. }
  cbn [mbind outcome_bind]. destruct (Z.eqb_spec (t - base v) 0) as [Heq|Hne]; simpl.
  - exists (length l), s0, l, v0, r0. split_and!; try done. unfold carved.
    apply naf_app in Hn0 as (? & _). split_and!; try done; lia.
  - destruct (split_full s0 l v0 r0 (t - base v) Hm0 Hw0) as
      (v2 & s1 & -> & Hm1 & Hp1 & Hk1 & Hw1 & Hb2 & Hs2 & Hty2 & Hv1); [lia|done|].
    exists (S (length l)), s1, (l ++ [low_part v0 (t - base v)]), v2, r0.
    split_and!; [done | apply snoc_len |]. unfold carved.
    split_and!; [by rewrite <- (assoc_L (++)) | lia | lia | done | | done | congruence | congruence |].
    + by eapply naf_snoc.
    + intros a. by rewrite Hv1.
Qed.

Lemma CarveVMA_spec s t n : wf s -> 0 <= t -> 0 < n -> t + n < 2 ^ 32 ->
  t `mod` CITRA_PAGE_SIZE = 0 -> n `mod` CITRA_PAGE_SIZE = 0 ->
  (all_free (vma_map s) t (t + n) /\ exists s' l u r,
     CarveVMA t n s = Done (Val (length l), s') /\ carved s s' l u r t n) \/
  (~ all_free (vma_map s) t (t + n) /\
   CarveVMA t n s = Done (Err (if t <? MAX_ADDRESS then ResultInvalidAddressState
                               else ResultInvalidAddress), s)).
Proof.
  intros Hwf Ht0 Hn Hlt Hta Hna. pose proof (wf_tiles _ (wf_vmas _ Hwf)) as Ht.
  unfold CarveVMA. apply aligned_bool in Hta as Hta', Hna as Hna'. rewrite Hta', Hna'.
  cbn [assert_ mbind outcome_bind]. destruct (Z.ltb_spec t MAX_ADDRESS) as [Hin|Hout].
  - destruct (tiles_find _ _ _ t Ht ltac:(lia)) as (l & v & r & Hm & Hi).
    rewrite Hm in Ht. assert (FindVMA (vma_map s) t = Done (length l)) as ->
      by (rewrite Hm; by apply (FindVMA_spec l v r)). cbn [mbind outcome_bind].
    rewrite Hm, list_lookup_middle by done.
    pose proof (all_free_area s l v r t (t + n) Hwf Hm Hi ltac:(lia)) as Hiff.
    rewrite Hm in Hiff. unfold inside in Hi.
    pose proof (wf_good _ (wf_vmas _ Hwf)) as Hg. rewrite Hm in Hg.
    apply Forall_app in Hg as [_ [Hgv _]%Forall_cons]. pose proof (good_base v Hgv).
    rewrite (u32_small (t - base v)), (u32_small (_ + n)) by lia.
    destruct (bool_decide_reflect (type v = Free)) as [Hf|Hf]; simpl; [|right; rewrite Hiff; tauto].
    destruct (Z.ltb_spec (size v) (t - base v + n)); [right; rewrite Hiff; split; [lia|done]|].
    left. rewrite Hiff. split; [split; [done|lia]|].
    destruct (carve_area s l v r t n) as (i' & s' & l' & u & r' & Hc & -> & Hcv); [done..|lia|lia|lia|done|done|].
    exists s', l', u, r'. split; [|done].
    destruct (if negb (t - base v + n =? size v) then _ else _) as [s0|]; [|done].
    cbn [mbind outcome_bind] in *. by rewrite Hc.
  - right. rewrite FindVMA_end by done. cbn [mbind outcome_bind].
    rewrite lookup_ge_None_2 by done. split; [|done]. intros Hall.
    specialize (Hall t ltac:(lia)). by rewrite (view_outside 0 _ MAX_ADDRESS) in Hall by (try done; lia).
Qed.

(** ** Carving a range *)

(** Split a mapped area, keeping the whole invariant. *)
Lemma split_mapped s l v r off : vma_map s = l ++ v :: r -> wf s -> type v = BackingMemory ->
  0 < off < size v -> off `mod` CITRA_PAGE_SIZE = 0 ->
  exists v2 s', SplitVMA (length l) off s = Done (S (length l), s') /\
    vma_map s' = l ++ low_part v off :: v2 :: r /\ is_locked s' = is_locked s /\ wf s' /\
    base v2 = base v + off /\ size v2 = size v - off /\ type v2 = BackingMemory /\
    (forall a, view (vma_map s') a = view (vma_map s) a).
Proof.
  intros Hm Hwf Hty Hoff Ha.
  destruct (split_full s l v r off Hm (wf_vmas _ Hwf) Hoff Ha) as
    (v2 & s' & Hs & Hm' & Hp & Hk & Hw & Hb2 & Hs2 & Hty2 & Hv).
  exists v2, s'. split_and!; try done; [|congruence]. split; [done| |].
  - pose proof (wf_free _ Hwf) as Hn. rewrite Hm in Hn. rewrite Hm'.
    apply naf_mid in Hn as (Hl & Hr & _). apply naf_mid. split_and!; [done | | simpl; congruence].
    simpl. split; [|done]. destruct r; [done|]. intros [H _]. congruence.
  - intros q. rewrite Hp, Hv. apply Hwf.
Qed.

(** The result of cutting both ends of a mapped range. *)
Definition carved_range (s s' : vmm) (l mid r : list vma) (t te : Z) : Prop :=
  vma_map s' = l ++ mid ++ r /\ tiles 0 l t /\ tiles t mid te /\
  Forall (fun w => type w = BackingMemory) mid /\ wf s' /\ is_locked s' = is_locked s /\
  (forall a, view (vma_map s') a = view (vma_map s) a).

Lemma carve_start s l v mid r t te x : wf s -> vma_map s = l ++ (v :: mid) ++ r -> inside v t ->
  tiles (base v) (v :: mid) x -> t `mod` CITRA_PAGE_SIZE = 0 -> 
  Forall (fun w => type w = BackingMemory) (v :: mid) ->
  (forall w, w ∈ v :: mid -> base w < te) -> t < te ->
  exists s' l' mid',
    (if negb (t =? base v) then SplitVMA (length l) (u32 (t - base v)) s else Done (length l, s))
      = Done (length l', s') /\ carved_range s s' l' mid' r t x /\ 
    (forall w, w ∈ mid' -> base w < te).
Proof.
  intros Hwf Hm Hi Hx Ha Hf Hall Hlt. pose proof (wf_tiles _ (wf_vmas _ Hwf)) as Ht.
  pose proof (wf_good _ (wf_vmas _ Hwf)) as Hg. rewrite Hm in Ht, Hg.
  pose proof Hg as [_ [[Hgv _]%Forall_cons _]%Forall_app]%Forall_app.
  pose proof Ht as (Hl & _ & _)%tiles_mid. unfold inside in Hi.
  destruct (Z.eqb_spec t (base v)) as [->|Hne]; simpl.
  - exists s, l, (v :: mid). unfold carved_range. by split_and!.
  - pose proof Hf as [Hty Hf']%Forall_cons. pose proof (good_base v Hgv). pose proof (good_below v Hgv).
    rewrite u32_small by lia.
    destruct (split_mapped s l v (mid ++ r) (t - base v) Hm Hwf Hty) as
      (v2 & s' & Hs & Hm' & Hk & Hwf' & Hb2 & Hs2 & Hty2 & Hv);
      [lia | by apply aligned_diff, good_base_aligned |].
    exists s', (l ++ [low_part v (t - base v)]), (v2 :: mid). rewrite <- snoc_len.
    destruct Hx as (_ & _ & Hx). split_and!; [done | unfold carved_range; split_and! |].
    + by rewrite <- (assoc_L (++)).
    + apply tiles_app. exists (base v). split; [done|]. simpl. split_and!; lia.
    + simpl. split_and!; [lia | lia |]. by replace (t + size v2) with (base v + size v) by lia.
    + by constructor.
    + done.
    + done.
    + done.
    + intros w [-> | Hw]%elem_of_cons; [lia|]. apply Hall. set_solver.
Qed.

Lemma carve_end s0 s l mid r t te x : carved_range s0 s l mid r t x -> t < te -> te <= x ->
  x <= MAX_ADDRESS -> 0 <= t -> te `mod` CITRA_PAGE_SIZE = 0 ->
  (forall w, w ∈ mid -> base w < te) ->
  exists s' mid' r',
    (e ← FindVMA (vma_map s) te;
     match vma_map s !! e with
     | Some ev => if negb (te =? base ev) then snd <$> SplitVMA e (u32 (te - base ev)) s else Done s
     | None => Done s
     end) = Done s' /\ carved_range s0 s' l mid' r' t te.
Proof.
  intros (Hm & Hl & Hmid & Hf & Hwf & Hk & Hv) Hlt Hle Hx Ht0 Ha Hall.
  pose proof (wf_tiles _ (wf_vmas _ Hwf)) as Ht. rewrite Hm in Ht.
  destruct (decide (te = x)) as [<-|Hne].
  - assert (tiles 0 (l ++ mid) te) as Hlm by (apply tiles_app; eauto).
    rewrite Hm, (assoc_L (++)) in *. rewrite (FindVMA_boundary (l ++ mid) r te) by done.
    cbn [mbind outcome_bind]. pose proof (tiles_rest _ _ _ _ _ Ht Hlm) as Hr.
    exists s, mid, r. split.
    + destruct r as [|w r]; [by rewrite app_nil_r, lookup_ge_None_2|].
      rewrite list_lookup_middle by done. destruct Hr as [-> _]. by rewrite Z.eqb_refl.
    + unfold carved_range. rewrite Hm. split_and!; try done. by rewrite <- (assoc_L (++)).
  - destruct (tiles_find t mid x te Hmid) as (l1 & ev & r1 & -> & Hi); [lia|].
    assert (r1 = []) as ->.
    { destruct r1 as [|w r1]; [done|]. specialize (Hall w ltac:(set_solver)).
      apply tiles_mid in Hmid as (_ & _ & Hb & _). unfold inside in Hi. lia. }
    specialize (Hall ev ltac:(set_solver)). unfold inside in Hi.
    pose proof Hmid as (Hl1 & Hsev & Hend)%tiles_mid. simpl in Hend.
    pose proof Hf as [Hf1 [Hfev _]%Forall_cons]%Forall_app.
    pose proof (wf_good _ (wf_vmas _ Hwf)) as Hg. rewrite <- !(assoc_L (++)), (assoc_L (++)) in Hm, Ht.
    simpl in Hm, Ht. rewrite Hm in Hg. apply Forall_app in Hg as [_ [Hgev _]%Forall_cons].
    assert (FindVMA (vma_map s) te = Done (length (l ++ l1))) as -> by
      (rewrite Hm; apply FindVMA_spec; [done | unfold inside; lia]).
    cbn [mbind outcome_bind]. rewrite Hm, list_lookup_middle by done.
    pose proof (good_base ev Hgev). pose proof (good_below ev Hgev).
    destruct (Z.eqb_spec te (base ev)); [lia|]. simpl. rewrite u32_small by lia.
    destruct (split_mapped s (l ++ l1) ev r (te - base ev) Hm Hwf Hfev) as
      (v2 & s' & -> & Hm' & Hk' & Hwf' & Hb2 & Hs2 & Hty2 & Hv');
      [lia | by apply aligned_diff, good_base_aligned |].
    exists s', (l1 ++ [low_part ev (te - base ev)]), (v2 :: r). split; [done|].
    unfold carved_range. split_and!; [| done | | | done | congruence |].
    + rewrite Hm'. by rewrite <- !(assoc_L (++)).
    + apply tiles_app. exists (base ev). split; [done|]. simpl. split_and!; lia.
    + apply Forall_app. split; [done|]. by constructor.
    + intros a. by rewrite Hv'.
Qed.

Lemma CarveVMARange_spec s t n : wf s -> 0 <= t -> 0 < n -> t + n <= MAX_ADDRESS ->
  t `mod` CITRA_PAGE_SIZE = 0 -> n `mod` CITRA_PAGE_SIZE = 0 ->
  (all_mapped (vma_map s) t (t + n) /\ exists s' l mid r,
     CarveVMARange t n s = Done (Val (length l), s') /\ carved_range s s' l mid r t (t + n)) \/
  (~ all_mapped (vma_map s) t (t + n) /\
   CarveVMARange t n s = Done (Err ResultInvalidAddressState, s)).
Proof.
  intros Hwf Ht0 Hn Hlt Hta Hna. pose proof (wf_tiles _ (wf_vmas _ Hwf)) as Ht.
  unfold CarveVMARange. apply aligned_bool in Hta as Hta', Hna as Hna'. rewrite Hta', Hna'.
  assert (MAX_ADDRESS < 2 ^ 32) by done. rewrite (u32_small (t + n)) by lia.
  cbn [assert_ mbind outcome_bind].
  destruct (Z.leb_spec t (t + n)); [|lia]. destruct (Z.leb_spec (t + n) MAX_ADDRESS); [|lia].
  destruct (Z.ltb_spec 0 n); [|lia]. cbn [assert_ mbind outcome_bind].
  destruct (tiles_range _ t (t + n) Ht) as (l & v & mid & r & x & Hm & Hi & Hx & Hte & -> & -> & Hall);
    [lia..|].
  cbn [mbind outcome_bind]. 
  assert (take (length l + length (v :: mid) - length l) (drop (length l) (vma_map s)) = v :: mid) as ->
    by (rewrite Hm; apply take_drop_mid).
  pose proof (all_cells_areas (fun ty _ _ => ty = BackingMemory) _ l v mid r t (t + n) x Ht Hm Hi Hx Hte ltac:(lia) Hall) as Hiff.
  destruct (existsb _ (v :: mid)) eqn:He.
  - right. rewrite Hiff, <- bool_free_areas, He. done.
  - left. apply bool_free_areas in He. split; [by apply Hiff|].
    destruct (carve_start s l v mid r t (t + n) x Hwf Hm Hi Hx Hta He Hall ltac:(lia)) as
      (s1 & l1 & mid1 & Hs1 & Hc1 & Hall1).
    assert (at_ (vma_map s) (length l) = Done v) as ->
      by (unfold at_; rewrite Hm; simpl app; by rewrite list_lookup_middle).
    cbn [mbind outcome_bind]. rewrite Hs1. cbn [mbind outcome_bind].
    assert (x <= MAX_ADDRESS) as HxM.
    { rewrite Hm in Ht. apply tiles_app in Ht as (a & Hl & (b & Hmid & Hr)%tiles_app).
      pose proof (tiles_le _ _ _ Hr). simpl in Hmid. pose proof Hmid as (<- & _).
      by rewrite (tiles_uniq _ _ _ _ Hx Hmid). }
    destruct (carve_end s s1 l1 mid1 r t (t + n) x Hc1) as (s2 & mid2 & r2 & He2 & Hc2);
      [lia | done | done | done | by apply aligned_sum | done |].
    exists s2, l1, mid2, r2. split; [|done].
    destruct (FindVMA (vma_map s1) (t + n)) as [e|]; [|done]. cbn [mbind outcome_bind] in *.
    by rewrite He2.
Qed.

(** ** Merging *)

(** The buffers are pairwise not adjacent in host memory: an area is only merged
    with one of the same buffer. *)
Context (buffers_apart : forall b1 b2, buffers b1 -> buffers b2 -> b1 ≠ b2 ->
  MRef.host b1 + MRef.bytes b1 < MRef.host b2 \/ MRef.host b2 + MRef.bytes b2 < MRef.host b1).

Lemma good_join v w : good v -> good w -> base w = base v + size v -> merge_ok v w -> good (join v w).
Proof.
  intros [Hb He Hs Hba Hsa Hbk Hfr] [Hb' He' Hs' Hba' Hsa' Hbk' Hfr'] Hbase (Hp & Hst & Hty & Hptr).
  split; simpl; try lia; try done; [by apply aligned_sum|].
  intros Hbm. destruct (Hbk Hbm) as [Hc Hbuf]. rewrite Hbm in Hty.
  destruct (Hbk' (eq_sym Hty)) as [Hc' Hbuf']. specialize (Hptr Hbm).
  destruct (backing_memory v) as [|m1 o1], (backing_memory w) as [|m2 o2]; simpl in *; try done.
  destruct (decide (m1 = m2)) as [<-|Hne]; [split; simpl; [lia|done]|].
  destruct (buffers_apart m1 m2 Hbuf Hbuf' Hne); lia.
Qed.

Lemma cell_join v w a : good w -> base w = base v + size v -> merge_ok v w ->
  cell_at (join v w) a = if decide (inside v a) then cell_at v a else cell_at w a.
Proof.
  intros Hg Hb (Hp & Hst & Hty & Hptr). case_decide; [done|].
  unfold cell_at. simpl. rewrite Hp, Hst, <- Hty. f_equal.
  destruct (type v); [done|]. rewrite <- Hptr by done. lia.
Qed.

Lemma join_spec l v w r : tiles 0 (l ++ v :: w :: r) MAX_ADDRESS -> good v -> good w -> merge_ok v w ->
  tiles 0 (l ++ join v w :: r) MAX_ADDRESS /\ good (join v w) /\
  (forall a, view (l ++ join v w :: r) a = view (l ++ v :: w :: r) a).
Proof.
  intros Ht Hg Hg' Hok. pose proof Ht as (Hl & Hs & Hbw & Hsw & Hr)%tiles_mid.
  assert (tiles 0 (l ++ join v w :: r) MAX_ADDRESS) as Ht'.
  { apply tiles_app. exists (base v). split; [done|]. simpl. split_and!; [done | lia |].
    by rewrite Z.add_assoc. }
  split_and!; [done | by apply good_join |]. intros a.
  rewrite !(view_app 0 l (base v)) by done. case_decide; [done|]. simpl.
  rewrite (cell_join v w) by done. unfold inside. simpl.
  repeat case_decide; try done; lia.
Qed.

Lemma merge_right_spec l v w r : base w = base v + size v -> good v -> good w ->
  merge_right (length l) (l ++ v :: w :: r) =
    Done (if decide (merge_ok v w) then Some (l ++ join v w :: r) else None).
Proof.
  intros Hb Hg Hg'. unfold merge_right. rewrite list_lookup_middle by done.
  assert ((l ++ v :: w :: r) !! S (length l) = Some w) as ->.
  { rewrite lookup_app_r by lia. by replace (S (length l) - length l)%nat with 1%nat by lia. }
  pose proof (good_below v Hg). pose proof (good_size v Hg). pose proof (good_base v Hg).
  pose proof (good_end w Hg'). pose proof (good_size w Hg').
  rewrite CanBeMergedWith_spec by done. cbn [mbind outcome_bind]. f_equal.
  rewrite bool_decide_decide. destruct (decide (merge_ok v w)) as [Hok|Hok]; [|done].
  f_equal. rewrite u32_small by (unfold MAX_ADDRESS in *; lia). fold (join v w).
  assert (<[length l := join v w]> (l ++ v :: w :: r) = l ++ join v w :: w :: r) as ->.
  { rewrite insert_app_r_alt by lia. by rewrite Nat.sub_diag. }
  change (join v w :: w :: r) with ([join v w] ++ w :: r). rewrite (assoc_L (++)).
  replace (S (length l)) with (length (l ++ [join v w])) by (rewrite length_app; simpl; lia).
  rewrite delete_middle. by rewrite <- (assoc_L (++)).
Qed.

(** Two good areas that are both free can always be merged. *)
Lemma free_merge_ok v w : good v -> good w -> type v = Free -> type w = Free -> merge_ok v w.
Proof.
  intros Hg Hg' Hv Hw. destruct (good_free v Hg Hv), (good_free w Hg' Hw).
  unfold merge_ok. split_and!; [congruence..|]. rewrite Hv. done.
Qed.

(** An area that contains another. *)
Definition spans (u v : vma) : Prop := base u <= base v /\ base v + size v <= base u + size u.

(** The right half of [MergeAdjacent]. *)
Lemma merge_next l v r : wf_map (l ++ v :: r) ->
  exists o u r', merge_right (length l) (l ++ v :: r) = Done o /\
    default (l ++ v :: r) o = l ++ u :: r' /\ wf_map (l ++ u :: r') /\
    (forall a, view (l ++ u :: r') a = view (l ++ v :: r) a) /\
    type u = type v /\
    (no_adjacent_free r -> no_adjacent_free r' /\ (type v = Free -> ~ is_free (head r'))) /\
    (u = v /\ r' = r \/ exists w, r = w :: r' /\ u = join v w /\ merge_ok v w).
Proof.
  intros [Ht Hg]. destruct r as [|w r].
  - exists None, v, []. split_and!; auto; [apply merge_right_last | by split].
  - pose proof Ht as (_ & _ & Hb & _)%tiles_mid.
    pose proof Hg as [Hgl [Hgv [Hgw Hgr]%Forall_cons]%Forall_cons]%Forall_app.
    rewrite merge_right_spec by done. destruct (decide (merge_ok v w)) as [Hok|Hok].
    + destruct (join_spec l v w r) as (Ht' & Hg' & Hv); [done..|].
      eexists _, (join v w), r. split_and!; [done | done | | done | done | | by eauto].
      * split; [done|]. apply Forall_app. split; [done|]. by constructor.
      * intros [Hn Hnr]. split; [done|]. intros Hf. destruct Hok as (_ & _ & Hty & _).
        destruct r as [|x r]; [tauto|]. intros Hx. apply Hn. split; [congruence|done].
    + eexists _, v, (w :: r). split_and!; [done | done | by split | done | done | | by eauto].
      intros Hn. split; [done|]. simpl. intros Hf Hw. by destruct Hok; apply free_merge_ok.
Qed.

(** The left half. *)
Lemma merge_prev l v r : wf_map (l ++ v :: r) -> no_adjacent_free l -> no_adjacent_free r ->
  (type v = Free -> ~ is_free (head r)) ->
  exists l' u, match length l with
      | O => Done (O, l ++ v :: r)
      | S p => '(o : option (list vma)) ← merge_right p (l ++ v :: r);
               Done (match o with Some m => (p, m) | None => (S p, l ++ v :: r) end)
      end = Done (length l', l' ++ u :: r) /\
    wf_map (l' ++ u :: r) /\ no_adjacent_free (l' ++ u :: r) /\
    (forall a, view (l' ++ u :: r) a = view (l ++ v :: r) a) /\ spans u v.
Proof.
  intros [Ht Hg] Hnl Hnr Hv. destruct l as [|w l0 _] using rev_ind.
  - exists [], v. split_and!; [done | by split | | done | by split]. apply naf_mid. split_and!; [done..|].
    intros Hf. split; [by intros []|auto].
  - rewrite length_app, Nat.add_1_r. rewrite <- (assoc_L (++)) in Ht, Hg |- *. simpl in *.
    pose proof Ht as (_ & Hsw & Hb & _)%tiles_mid.
    pose proof Hg as [Hgl [Hgw [Hgv Hgr]%Forall_cons]%Forall_cons]%Forall_app.
    apply naf_app in Hnl as (Hn0 & _ & Hnw). simpl in Hnw.
    rewrite merge_right_spec by done. cbn [mbind outcome_bind].
    destruct (decide (merge_ok w v)) as [Hok|Hok].
    + destruct (join_spec l0 w v r) as (Ht' & Hg' & Hview); [done..|].
      exists l0, (join w v). split_and!; [done | | | done | unfold spans; simpl; lia].
      * split; [done|]. apply Forall_app. split; [done|]. by constructor.
      * apply naf_mid. split_and!; [done..|]. destruct Hok as (_ & _ & Hty & _).
        change (type (join w v)) with (type w). intros Hf. split; [tauto|].
        apply Hv. congruence.
    + exists (l0 ++ [w]), v. rewrite length_app, Nat.add_1_r, <- (assoc_L (++)). simpl.
      split_and!; [done | by split | | done | by split].
      replace (l0 ++ w :: v :: r) with ((l0 ++ [w]) ++ v :: r) by by rewrite <- (assoc_L (++)).
      apply naf_mid. split_and!; [|done|].
      * apply naf_app. simpl. tauto.
      * intros Hf. split; [|auto]. rewrite last_snoc. simpl. intros Hw.
        by destruct Hok; apply free_merge_ok.
Qed.

Lemma MergeAdjacent_spec s l v r : vma_map s = l ++ v :: r -> wf_map (l ++ v :: r) ->
  no_adjacent_free l -> no_adjacent_free r ->
  exists l' u r', MergeAdjacent (length l) s =
      Done (length l', mk_vmm (l' ++ u :: r') (page_table s) (is_locked s)) /\
    wf_map (l' ++ u :: r') /\ no_adjacent_free (l' ++ u :: r') /\ absorbed v r r' /\
    (forall a, view (l' ++ u :: r') a = view (l ++ v :: r) a) /\ spans u v.
Proof.
  intros Hm Hw Hnl Hnr. unfold MergeAdjacent, at_. rewrite Hm, list_lookup_middle by done.
  cbn [of_opt mbind outcome_bind].
  destruct (merge_next l v r Hw) as (o & u & r' & -> & Hd & Hw' & Hv & Hty & Hn & Hcase).
  cbn [mbind outcome_bind]. rewrite Hd. destruct (Hn Hnr) as [Hnr' Hf].
  destruct (merge_prev l u r' Hw' Hnl Hnr') as (l' & u' & Hp & Hw'' & Hn'' & Hv' & Hsp).
  { rewrite Hty. done. }
  exists l', u', r'. split_and!; [|done|done| | |].
  - destruct (length l) as [|p]; [by injection Hp as <- <-|].
    destruct (merge_right p (l ++ u :: r')) as [[m|]|]; cbn [mbind outcome_bind] in *; [| |done];
      by injection Hp as <- <-.
  - destruct Hcase as [[_ ->]|(w & -> & _ & Hok)]; [by left|right; eauto].
  - intros a. by rewrite Hv'.
  - destruct Hw as [Ht _]. pose proof Ht as (_ & _ & Hr)%tiles_mid. unfold spans in *.
    destruct Hcase as [[-> _]|(w & -> & -> & _)]; simpl in *; lia.
Qed.

(** ** Rewriting an area *)

Lemma page_inside v q : good v ->
  inside v (q * CITRA_PAGE_SIZE) <->
  base v / CITRA_PAGE_SIZE <= q < base v / CITRA_PAGE_SIZE + size v / CITRA_PAGE_SIZE.
Proof.
  intros [_ _ _ Hb Hs _ _]. unfold inside, CITRA_PAGE_SIZE in *.
  Z.div_mod_to_equations. lia.
Qed.

Lemma UpdatePageTableForVMA_spec v s : good v ->
  exists pt, UpdatePageTableForVMA IsCached v s = Done (mk_vmm (vma_map s) pt (is_locked s)) /\
    forall q, PT.get pt q =
      if decide (inside v (q * CITRA_PAGE_SIZE))
      then entry_of q (Some (cell_at v (q * CITRA_PAGE_SIZE))) else PT.get (page_table s) q.
Proof.
  intros Hg. pose proof (fun q => page_inside v q Hg) as Hin.
  pose proof Hg as [Hb He Hs Hba Hsa Hbk _].
  assert (forall ty mem, match ty with
      | PT.Memory => MRef.covers mem (size v) | _ => mem = MRef.Null end ->
    exists pt, PT.map_pages IsCached (base v / CITRA_PAGE_SIZE) (size v / CITRA_PAGE_SIZE) mem ty
        (page_table s) = Done pt /\
      forall q, PT.get pt q = if decide (inside v (q * CITRA_PAGE_SIZE))
        then match ty with
             | PT.Memory => PT.mapped IsCached (base v / CITRA_PAGE_SIZE)
                              (size v / CITRA_PAGE_SIZE) mem q
             | ty => PT.mk_entry ty 0 end
        else PT.get (page_table s) q) as Hmap.
  { intros ty mem Hm. unfold PT.map_pages.
    assert (0 <= base v / CITRA_PAGE_SIZE /\ 0 <= size v / CITRA_PAGE_SIZE /\
      base v / CITRA_PAGE_SIZE + size v / CITRA_PAGE_SIZE <= PAGE_TABLE_NUM_ENTRIES /\
      size v / CITRA_PAGE_SIZE * CITRA_PAGE_SIZE = size v) as (H0 & H1 & H2 & H3).
    { change PAGE_TABLE_NUM_ENTRIES with (2 ^ 20). unfold CITRA_PAGE_SIZE, MAX_ADDRESS in *.
      Z.div_mod_to_equations. lia. }
    change PAGE_TABLE_NUM_ENTRIES with (2 ^ 20) in H2.
    rewrite (u32_small (_ + _)) by lia. rewrite u32_small by lia.
    replace (_ + _ - base v / CITRA_PAGE_SIZE) with (size v / CITRA_PAGE_SIZE) by lia.
    destruct (PT.map_loop_spec IsCached ty (Z.to_nat (size v / CITRA_PAGE_SIZE))
      (base v / CITRA_PAGE_SIZE) mem (page_table s)) as (pt & Hpt & Hq);
      rewrite ?Z2Nat.id by done; [done..| |].
    { destruct ty; [done| by rewrite H3 | done]. }
    rewrite Z2Nat.id in Hpt, Hq by done. exists pt. split; [done|]. intros q. rewrite Hq.
    destruct (decide (inside v _)) as [Hi|Hi]; rewrite Hin in Hi.
    - by rewrite decide_True.
    - by rewrite decide_False. }
  unfold UpdatePageTableForVMA, PT.MapMemoryRegion, PT.UnmapRegion.
  apply PT.page_aligned_spec in Hba as Hba', Hsa as Hsa'. rewrite Hba', Hsa'.
  destruct (type v) eqn:Hty; cbn [assert_ mbind outcome_bind].
  - destruct (Hmap PT.Unmapped MRef.Null) as (pt & -> & Hq); [done|].
    exists pt. split; [done|]. intros q. rewrite Hq. unfold cell_at. rewrite Hty. done.
  - destruct (Hmap PT.Memory (backing_memory v)) as (pt & -> & Hq); [by apply Hbk|].
    exists pt. split; [done|]. intros q. rewrite Hq. unfold cell_at. rewrite Hty.
    case_decide; [|done]. unfold PT.mapped, entry_of. destruct (IsCached _); [done|].
    do 2 f_equal. unfold CITRA_PAGE_SIZE in *. Z.div_mod_to_equations. lia.
Qed.

(** The start of an area is in it, so an area that covers a page's first
    address has the whole page. *)
Lemma wf_replace l v v' r : base v' = base v -> size v' = size v -> good v' ->
  wf_map (l ++ v :: r) -> wf_map (l ++ v' :: r).
Proof.
  intros Hb Hs Hg [Ht Hall]. split.
  - apply tiles_app. apply tiles_app in Ht as (mid & Hl & Hbm & Hr). exists mid. simpl.
    by rewrite Hb, Hs.
  - apply Forall_app in Hall as [? [_ ?]%Forall_cons]. apply Forall_app. by split; [|constructor].
Qed.

Lemma rewrite_spec f s l v r : vma_map s = l ++ v :: r -> wf_map (vma_map s) ->
  pages_agree (vma_map s) (page_table s) -> no_adjacent_free l -> no_adjacent_free r ->
  base (f v) = base v -> size (f v) = size v -> good (f v) ->
  exists l' u r' s', rewrite IsCached f (length l) s = Done (length l', s') /\
    vma_map s' = l' ++ u :: r' /\ wf s' /\ is_locked s' = is_locked s /\ absorbed (f v) r r' /\
    (forall a, view (vma_map s') a =
       if decide (inside v a) then Some (cell_at (f v) a) else view (vma_map s) a) /\ spans u v.
Proof.
  intros Hm Hw Hp Hnl Hnr Hb Hs Hg. rewrite Hm in Hw, Hp. unfold rewrite, at_.
  rewrite Hm, list_lookup_middle by done. cbn [of_opt mbind outcome_bind].
  assert (<[length l := f v]> (l ++ v :: r) = l ++ f v :: r) as ->.
  { rewrite insert_app_r_alt by lia. by rewrite Nat.sub_diag. }
  destruct (UpdatePageTableForVMA_spec (f v) (mk_vmm (l ++ f v :: r) (page_table s) (is_locked s)) Hg)
    as (pt & -> & Hpt).
  cbn [mbind outcome_bind vma_map page_table is_locked] in *.
  destruct (MergeAdjacent_spec (mk_vmm (l ++ f v :: r) pt (is_locked s)) l (f v) r)
    as (l' & u & r' & -> & Hw' & Hn' & Habs & Hv & Hsp);
    [done | by eapply wf_replace | done | done |].
  exists l', u, r'. eexists. split; [done|]. cbn [vma_map page_table is_locked].
  assert (forall a, view (l' ++ u :: r') a =
       if decide (inside v a) then Some (cell_at (f v) a) else view (l ++ v :: r) a) as Hview.
  { intros a. rewrite Hv. apply view_replace; [done..|]. by destruct Hw. }
  split_and!; [done | | done | done | done | unfold spans in *; by rewrite <- Hb, <- Hs].
  split; [done|done|]. intros q. cbn [page_table vma_map]. rewrite Hpt, Hview.
  assert (inside (f v) (q * CITRA_PAGE_SIZE) <-> inside v (q * CITRA_PAGE_SIZE))
    by (unfold inside; by rewrite Hb, Hs).
  destruct (decide (inside (f v) _)), (decide (inside v _)); try tauto. apply Hp.
Qed.

(** ** The loop over a range *)

(** An operation on mapped areas and its effect on each address. *)
Record range_op (f : vma -> vma) (fc : cell -> cell) : Prop := {
  op_base : forall v, base (f v) = base v;
  op_size : forall v, size (f v) = size v;
  op_good : forall v, good v -> type v = BackingMemory -> good (f v);
  op_cell : forall v a, type v = BackingMemory -> cell_at (f v) a = fc (cell_at v a);
  op_merge : forall v w a, type v = BackingMemory -> good w -> merge_ok (f v) w ->
    fc (cell_at w a) = cell_at w a;
}.

Lemma range_loop_stop f fuel s l r x te : vma_map s = l ++ r ->
  tiles 0 (l ++ r) MAX_ADDRESS -> tiles 0 l x -> te <= x ->
  range_loop IsCached fuel f te (length l) s = Done s.
Proof.
  intros Hm Ht Hl Hx. pose proof (tiles_rest _ _ _ _ _ Ht Hl) as Hr.
  destruct fuel; cbn [range_loop]; rewrite Hm, lookup_app_r, Nat.sub_diag by lia;
    (destruct r as [|w r]; simpl; [done|]; simpl in Hr;
     destruct (Z.ltb_spec (base w) te); [lia|done]).
Qed.

(** The loop treats exactly the areas of [mid]. *)
Lemma range_loop_spec f fc fuel : range_op f fc -> forall s l mid r lo te,
  wf s -> vma_map s = l ++ mid ++ r -> (length mid <= fuel)%nat ->
  tiles 0 l lo -> tiles lo mid te -> Forall (fun v => type v = BackingMemory) mid ->
  exists s', range_loop IsCached fuel f te (length l) s = Done s' /\ wf s' /\
    is_locked s' = is_locked s /\
    forall a, view (vma_map s') a =
      if decide (lo <= a < te) then fc <$> view (vma_map s) a else view (vma_map s) a.
Proof.
  intros Hop. induction fuel as [|fuel IH]; intros s l mid r lo te Hwf Hm Hlen Hl Hmid Hty.
  all: pose proof (wf_tiles _ (wf_vmas _ Hwf)) as Ht; rewrite Hm in Ht.
  all: destruct mid as [|v mid]; simpl in Hlen, Hmid, Hm, Ht; try lia.
  1, 2: subst te; exists s; split_and!; try done;
    [by eapply (range_loop_stop _ _ _ _ _ lo) | intros a; by rewrite decide_False by lia].
  destruct Hmid as (Hb & Hs & Hmid). apply Forall_cons in Hty as [Hv Hty].
  pose proof (wf_good _ (wf_vmas _ Hwf)) as Hg. rewrite Hm in Hg.
  apply Forall_app in Hg as [_ [Hgv Hgr]%Forall_cons].
  pose proof (tiles_le _ _ _ Hmid) as Hle.
  pose proof (wf_free _ Hwf) as Hn. rewrite Hm in Hn. apply naf_mid in Hn as (Hnl & Hnr & _).
  destruct (rewrite_spec f s l v (mid ++ r)) as (l' & u & r' & s1 & Hr & Hm1 & Hwf1 & Hk1 & Habs & Hv1 & _);
    [done | apply Hwf | apply Hwf | done | done | apply Hop | apply Hop | by apply Hop |].
  assert (range_loop IsCached (S fuel) f te (length l) s =
          range_loop IsCached fuel f te (S (length l')) s1) as ->.
  { cbn [range_loop]. rewrite Hm, list_lookup_middle by done.
    destruct (Z.ltb_spec (base v) te); [|lia]. by rewrite Hr. }
  rewrite (snoc_len l' u).
  pose proof (wf_tiles _ (wf_vmas _ Hwf1)) as Ht1. rewrite Hm1 in Ht1.
  assert (forall a, inside v a -> view (vma_map s) a = Some (cell_at v a)) as Hvv.
  { intros a. rewrite Hm. by apply (view_in 0 _ _ _ MAX_ADDRESS). }
  pose proof Ht as (_ & _ & Hrest)%tiles_mid. rewrite <- Hb in Hmid.
  destruct Habs as [-> | (w & Hw & Hok)].
  - destruct (IH s1 (l' ++ [u]) mid r (base v + size v) te) as (s' & -> & Hwf' & Hk' & Hv');
      [done | by rewrite <- (assoc_L (++)) | lia | by eapply tiles_snoc | done | done |].
    exists s'. split_and!; [done | done | congruence |]. intros a. rewrite Hv', !Hv1.
    destruct (decide (inside v a)) as [Hi|Hi]; unfold inside in Hi.
    + rewrite decide_False, decide_True, Hvv by (try done; lia). simpl. by rewrite (op_cell _ _ Hop).
    + destruct (decide (_ <= a < te)), (decide (lo <= a < te)); try done; lia.
  - rewrite Hw in Hrest, Hgr. pose proof Hrest as (Hbw & Hsw & Hrest').
    apply Forall_cons in Hgr as [Hgw _]. rewrite <- Hbw in Hrest'.
    pose proof (tiles_snoc _ _ _ _ Ht1 Hrest') as Hl1.
    assert (forall a, inside w a -> view (vma_map s) a = Some (cell_at w a)) as Hvw.
    { intros a. rewrite Hm, Hw. rewrite Hw in Ht. revert Ht.
      change (l ++ v :: w :: r') with (l ++ [v] ++ w :: r'). rewrite (assoc_L (++)).
      intros Ht. by apply (view_in 0 _ _ _ MAX_ADDRESS). }
    pose proof (fun a => op_merge _ _ Hop v w a Hv Hgw Hok) as Hfc.
    destruct mid as [|w' mid]; simpl in Hw.
    + subst r. simpl in Hmid. exists s1. split_and!; [|done|done|].
      * eapply (range_loop_stop _ _ _ _ r' (base w + size w)); [|  | done | lia].
        -- by rewrite <- (assoc_L (++)).
        -- by rewrite <- (assoc_L (++)).
      * intros a. rewrite Hv1. unfold inside. destruct (decide (lo <= a < te)).
        -- rewrite decide_True, Hvv by (unfold inside; lia). simpl. by rewrite (op_cell _ _ Hop).
        -- by rewrite decide_False by lia.
    + injection Hw as -> Hr'. simpl in Hmid. destruct Hmid as (_ & _ & Hmid).
      apply Forall_cons in Hty as [_ Hty]. pose proof (tiles_le _ _ _ Hmid). simpl in Hlen.
      destruct (IH s1 (l' ++ [u]) mid r (base w + size w) te) as (s' & -> & Hwf' & Hk' & Hv');
        [done | by rewrite <- (assoc_L (++)), Hm1, <- Hr' | lia | done | by rewrite Hbw | done |].
      exists s'. split_and!; [done | done | congruence |]. intros a. rewrite Hv', !Hv1.
      destruct (decide (inside v a)) as [Hi|Hi]; [|destruct (decide (inside w a)) as [Hj|Hj]];
        unfold inside in Hi; try unfold inside in Hj.
      * rewrite decide_False, decide_True, Hvv by (try done; lia). simpl. by rewrite (op_cell _ _ Hop).
      * rewrite decide_False, decide_True, Hvw by (try done; lia). simpl. by rewrite Hfc.
      * destruct (decide (_ <= a < te)), (decide (lo <= a < te)); try done; lia.
Qed.

End Facts.

Abbreviation all_mapped := (all_cells (fun ty _ _ => ty = BackingMemory)).
End VMF.
