(* ===== verification/VMTheorems.v ===== *)
(** * What the virtual memory manager promises

    Each operation is compared with its effect on the [view] of memory: what
    every address is.  [spec] collects the abstract operations, and the
    refinement theorem runs any sequence of them from [Reset]. *)
From S2P Require Import Prelude Results PageTable VMManager VMTiles VMFacts.

Module VMT.
Import Res VM Tiles VMF.

Section Operations.
Context (IsCached : Z -> bool).
Context (buffers : MRef.backing -> Prop).
Context (buffers_apart : forall b1 b2, buffers b1 -> buffers b2 -> b1 ≠ b2 ->
  MRef.host b1 + MRef.bytes b1 < MRef.host b2 \/ MRef.host b2 + MRef.bytes b2 < MRef.host b1).

Abbreviation wf := (wf IsCached buffers).
Abbreviation good := (good buffers).

(** A page-aligned range inside the address space. *)
Record page_range (t n : Z) : Prop := {
  pr_base : 0 <= t; pr_size : 0 < n; pr_end : t + n <= MAX_ADDRESS;
  pr_base_aligned : t `mod` CITRA_PAGE_SIZE = 0; pr_size_aligned : n `mod` CITRA_PAGE_SIZE = 0;
}.

(** ** The operations on areas *)

Lemma good_unmapped v : good v -> good (unmapped v).
Proof. intros [? ? ? ? ? ? ?]. by split. Qed.

Lemma unmapped_op : range_op buffers unmapped (fun _ => free_cell).
Proof.
  split; try done.
  - intros v Hg _. by apply good_unmapped.
  - intros v w a _ Hg (_ & _ & Hty & _). symmetry. by apply (good_free_cell buffers).
Qed.

Definition set_perm (p : Z) (c : cell) : cell := mk_cell (c_type c) p (c_state c) (c_ptr c).
Definition set_state (st : memory_state) (p : Z) (c : cell) : cell :=
  mk_cell (c_type c) p st (c_ptr c).

Lemma changed_op st p : range_op buffers (changed st p) (set_state st p).
Proof.
  split; try done.
  - intros v [? ? ? ? ? ? ?] Hty. split; try done. simpl. congruence.
  - intros v w a _ Hg (Hp & Hs & _). unfold cell_at, set_state. simpl in *. by rewrite Hp, Hs.
Qed.

Lemma reprotected_op p : range_op buffers (reprotected p) (set_perm p).
Proof.
  split; try done.
  - intros v [? ? ? ? ? ? ?] Hty. split; try done. simpl. congruence.
  - intros v w a _ Hg (Hp & _). unfold cell_at, set_perm. simpl in *. by rewrite Hp.
Qed.

(** A range operation after the range was carved. *)
Lemma carved_loop f fc s s0 l mid r t n : range_op buffers f fc ->
  carved_range IsCached buffers s s0 l mid r t (t + n) ->
  exists s', range_loop IsCached (length (vma_map s0)) f (t + n) (length l) s0 = Done s' /\ wf s' /\
    is_locked s' = is_locked s /\
    forall a, view (vma_map s') a =
      if decide (t <= a < t + n) then fc <$> view (vma_map s) a else view (vma_map s) a.
Proof.
  intros Hop (Hm & Hl & Hmid & Hf & Hwf & Hk & Hv).
  destruct (range_loop_spec IsCached buffers buffers_apart f fc (length (vma_map s0)) Hop s0 l mid r
    t (t + n)) as (s' & Hs & Hwf' & Hk' & Hv'); try done.
  { rewrite Hm, !length_app. lia. }
  exists s'. split_and!; [done | done | congruence |]. intros a. by rewrite Hv', Hv.
Qed.

Lemma u32_end t n : page_range t n -> u32 (t + n) = t + n.
Proof. intros [? ? H _ _]. apply u32_small. unfold MAX_ADDRESS in H. lia. Qed.

Lemma UnmapRange_ok s t n : wf s -> is_locked s = false -> page_range t n ->
  (all_mapped (vma_map s) t (t + n) /\
   exists s', UnmapRange IsCached t n s = Done (ResultSuccess, s') /\ wf s' /\
     is_locked s' = false /\ forall a, view (vma_map s') a =
       if decide (t <= a < t + n) then Some free_cell else view (vma_map s) a) \/
  (~ all_mapped (vma_map s) t (t + n) /\
   UnmapRange IsCached t n s = Done (ResultInvalidAddressState, s)).
Proof.
  intros Hwf Hk Hr. pose proof Hr as [H0 Hn He Hta Hna]. unfold UnmapRange. rewrite Hk.
  cbn [negb assert_ mbind outcome_bind].
  destruct (CarveVMARange_spec IsCached buffers s t n) as
    [(Ha & s0 & l & mid & r & -> & Hc)|(Ha & ->)]; try done; [left|by right].
  split; [done|]. cbn [mbind outcome_bind]. rewrite u32_end by done.
  destruct (carved_loop _ _ _ _ _ _ _ _ _ unmapped_op Hc) as (s' & -> & Hwf' & Hk' & Hv).
  cbn [mbind outcome_bind].
  assert (forall a, view (vma_map s') a =
    if decide (t <= a < t + n) then Some free_cell else view (vma_map s) a) as Hv'.
  { intros a. rewrite Hv. case_decide; [|done]. destruct (Ha a) as (c & -> & _); [done|]. done. }
  assert (all_free (vma_map s') t (t + n)) as Hfree.
  { intros a Ha'. by rewrite Hv', decide_True. }
  destruct (tiles_find _ _ _ t (wf_tiles _ _ (wf_vmas _ _ _ Hwf'))) as (l' & v & r' & Hm' & Hi); [lia|].
  pose proof (proj1 (all_free_area IsCached buffers s' l' v r' t (t + n) Hwf' Hm' Hi ltac:(lia)) Hfree)
    as [_ Hsz].
  pose proof (wf_tiles _ _ (wf_vmas _ _ _ Hwf')) as Ht'. rewrite Hm' in Ht'.
  assert (FindVMA (vma_map s') t = Done (length l')) as -> by (rewrite Hm'; by apply FindVMA_spec).
  cbn [mbind outcome_bind]. unfold at_. rewrite Hm', list_lookup_middle by done.
  cbn [of_opt mbind outcome_bind]. unfold inside in Hi. destruct (Z.leb_spec n (size v)); [|lia].
  exists s'. split_and!; try done. congruence.
Qed.

Lemma ReprotectRange_ok s t n p : wf s -> is_locked s = false -> page_range t n ->
  (all_mapped (vma_map s) t (t + n) /\
   exists s', ReprotectRange IsCached t n p s = Done (ResultSuccess, s') /\ wf s' /\
     is_locked s' = false /\ forall a, view (vma_map s') a =
       if decide (t <= a < t + n) then set_perm p <$> view (vma_map s) a else view (vma_map s) a) \/
  (~ all_mapped (vma_map s) t (t + n) /\
   ReprotectRange IsCached t n p s = Done (ResultInvalidAddressState, s)).
Proof.
  intros Hwf Hk Hr. pose proof Hr as [H0 Hn He Hta Hna]. unfold ReprotectRange. rewrite Hk.
  cbn [negb assert_ mbind outcome_bind].
  destruct (CarveVMARange_spec IsCached buffers s t n) as
    [(Ha & s0 & l & mid & r & -> & Hc)|(Ha & ->)]; try done; [left|by right].
  split; [done|]. cbn [mbind outcome_bind]. rewrite u32_end by done.
  destruct (carved_loop _ _ _ _ _ _ _ _ _ (reprotected_op p) Hc) as (s' & -> & Hwf' & Hk' & Hv).
  exists s'. split_and!; try done. congruence.
Qed.

(** What [ChangeMemoryState] expects of an address. *)
Definition expected (st : memory_state) (p : Z) (ty : vma_type) (q : Z) (st' : memory_state) : Prop :=
  st' = st /\ Z.land q p = p.

Lemma all_cells_and P Q m t te : all_cells P m t te -> all_cells Q m t te ->
  all_cells (fun ty p st => P ty p st /\ Q ty p st) m t te.
Proof. intros HP HQ a Ha. destruct (HP a Ha) as (c & Hc & ?), (HQ a Ha) as (c' & ? & ?). naive_solver. Qed.

Lemma all_cells_impl P Q m t te : (forall ty p st, P ty p st -> Q ty p st) ->
  all_cells P m t te -> all_cells Q m t te.
Proof. intros H HP a Ha. destruct (HP a Ha) as (c & Hc & ?). eauto. Qed.

Lemma ChangeMemoryState_ok s t n st p st' p' : wf s -> is_locked s = false -> page_range t n ->
  let ok ty q st0 := ty = BackingMemory /\ expected st p ty q st0 in
  (all_cells ok (vma_map s) t (t + n) /\
   exists s', ChangeMemoryState IsCached t n st p st' p' s = Done (ResultSuccess, s') /\ wf s' /\
     is_locked s' = false /\ forall a, view (vma_map s') a =
       if decide (t <= a < t + n) then set_state st' p' <$> view (vma_map s) a
       else view (vma_map s) a) \/
  (~ all_cells ok (vma_map s) t (t + n) /\
   ChangeMemoryState IsCached t n st p st' p' s = Done (ResultInvalidAddressState, s)).
Proof.
  intros Hwf Hk Hr ok. pose proof Hr as [H0 Hn He Hta Hna]. unfold ChangeMemoryState. rewrite Hk.
  pose proof (wf_tiles _ _ (wf_vmas _ _ _ Hwf)) as Ht. rewrite u32_end by done.
  destruct (tiles_range _ t (t + n) Ht) as (l & v & mid & r & x & Hm & Hi & Hx & Hte & -> & -> & Hall);
    [lia..|].
  cbn [mbind outcome_bind].
  destruct (Nat.eqb_spec (length l) (length (vma_map s))) as [Hl|_].
  { rewrite Hm, !length_app in Hl. simpl in Hl. lia. }
  destruct (Nat.ltb_spec (length l + length (v :: mid)) (length l)); [lia|].
  assert (take (length l + length (v :: mid) - length l) (drop (length l) (vma_map s)) = v :: mid) as ->
    by (rewrite Hm; apply take_drop_mid).
  pose proof (all_cells_areas (expected st p) _ l v mid r t (t + n) x Ht Hm Hi Hx Hte ltac:(lia) Hall)
    as Hiff.
  destruct (forallb (as_expected st p) (v :: mid)) eqn:Hf; cbn [negb].
  2: { right. split; [|done]. intros Hc. apply not_true_iff_false in Hf. destruct Hf.
       apply forallb_forall. intros w Hw%list_elem_of_In.
       apply (all_cells_impl _ (expected st p)), Hiff in Hc; [|by intros ? ? ? []].
       apply (proj1 (Forall_forall _ _) Hc) in Hw as [? ?]. unfold as_expected.
       apply andb_true_iff.
       split; [by apply bool_decide_eq_true | by apply Z.eqb_eq]. }
  assert (all_cells (expected st p) (vma_map s) t (t + n)) as Hexp.
  { apply Hiff, Forall_forall. intros w Hw%list_elem_of_In.
    apply (proj1 (forallb_forall _ _) Hf), andb_true_iff in Hw as [Hs Hp].
    apply bool_decide_eq_true in Hs. by apply Z.eqb_eq in Hp. }
  destruct (CarveVMARange_spec IsCached buffers s t n) as
    [(Ha & s0 & l' & mid' & r' & -> & Hc)|(Ha & ->)]; try done; [left|right].
  - split; [by apply all_cells_and|]. cbn [mbind outcome_bind].
    destruct (carved_loop _ _ _ _ _ _ _ _ _ (changed_op st' p') Hc) as (s' & -> & Hwf' & Hk' & Hv).
    exists s'. split_and!; try done. congruence.
  - split; [|done]. intros Hc. apply Ha. eapply all_cells_impl; [|exact Hc]. by intros ? ? ? [].
Qed.

Lemma MapBackingMemory_ok s t mem n st : wf s -> is_locked s = false -> 0 <= t -> 0 < n ->
  t + n < 2 ^ 32 -> t `mod` CITRA_PAGE_SIZE = 0 -> n `mod` CITRA_PAGE_SIZE = 0 ->
  backs buffers mem n ->
  (all_free (vma_map s) t (t + n) /\
   exists j s', MapBackingMemory IsCached t mem n st s = Done (Val j, s') /\ wf s' /\
     is_locked s' = false /\ (forall a, view (vma_map s') a =
       if decide (t <= a < t + n)
       then Some (mk_cell BackingMemory PermReadWrite st (MRef.GetPtr mem + (a - t)))
       else view (vma_map s) a) /\
     exists u, vma_map s' !! j = Some u /\ base u <= t /\ t + n <= base u + size u) \/
  (~ all_free (vma_map s) t (t + n) /\
   MapBackingMemory IsCached t mem n st s =
     Done (Err (if t <? MAX_ADDRESS then ResultInvalidAddressState else ResultInvalidAddress), s)).
Proof.
  intros Hwf Hk H0 Hn Hlt Hta Hna Hmem. unfold MapBackingMemory. rewrite Hk.
  pose proof Hmem as [Hc _]. pose proof (MRef.covers_ptr _ _ Hc).
  destruct (Z.eqb_spec (MRef.GetPtr mem) 0); [lia|]. cbn [negb assert_ mbind outcome_bind].
  destruct (CarveVMA_spec IsCached buffers s t n) as
    [(Ha & s0 & l & u & r & -> & Hcv)|(Ha & ->)]; try done; [left|by right].
  split; [done|]. cbn [mbind outcome_bind].
  destruct Hcv as (Hm & Hb & Hs & Hw & Hnl & Hnr & Hpt & Hk0 & Hv).
  assert (at_ (vma_map s0) (length l) = Done u) as -> by (unfold at_; rewrite Hm; by rewrite list_lookup_middle).
  cbn [mbind outcome_bind]. rewrite Hs, Z.eqb_refl. cbn [assert_ mbind outcome_bind].
  pose proof (wf_good _ _ Hw) as Hg. rewrite Hm in Hg. apply Forall_app in Hg as [_ [Hgu _]%Forall_cons].
  destruct (rewrite_spec IsCached buffers buffers_apart (mapped mem st) s0 l u r) as
    (l' & u' & r' & s' & -> & Hm' & Hwf' & Hk' & _ & Hv' & Hsp); try done.
  { intros q. rewrite Hpt, Hv. apply Hwf. }
  { destruct Hgu. split; try done. simpl. by rewrite Hs. }
  cbn [mbind outcome_bind]. exists (length l'), s'. split_and!; try done; [congruence| |].
  2: { exists u'. rewrite Hm', list_lookup_middle by done. unfold spans in Hsp. rewrite Hb, Hs in Hsp. by split. }
  intros a. rewrite Hv', Hv. unfold cell_at, mapped. simpl.
  destruct (decide (inside u a)) as [Hi|Hi]; unfold inside in Hi; rewrite Hb, Hs in Hi.
  - rewrite decide_True by done. by rewrite Hb.
  - by rewrite decide_False.
Qed.

(** [Reprotect] of one area. *)
Lemma Reprotect_ok s i v p : wf s -> is_locked s = false -> vma_map s !! i = Some v -> type v = BackingMemory ->
  exists j s', Reprotect IsCached i p s = Done (j, s') /\ wf s' /\ is_locked s' = false /\
    forall a, view (vma_map s') a = if decide (inside v a) then set_perm p <$> view (vma_map s) a else view (vma_map s) a.
Proof.
  intros Hwf Hk (l & r & Hm & ->)%list_elem_of_split_length Hty. unfold Reprotect. rewrite Hk. cbn [negb assert_ mbind outcome_bind].
  pose proof (wf_good _ _ (wf_vmas _ _ _ Hwf)) as Hg. rewrite Hm in Hg. apply Forall_app in Hg as [_ [Hgv _]%Forall_cons].
  pose proof (wf_free _ _ _ Hwf) as Hn. rewrite Hm in Hn. apply naf_mid in Hn as (Hnl & Hnr & _).
  destruct (rewrite_spec IsCached buffers buffers_apart (reprotected p) s l v r) as
    (l' & u & r' & s' & -> & _ & Hwf' & Hk' & _ & Hv & _); try done; [apply Hwf | apply Hwf | by apply (reprotected_op p) |].
  exists (length l'), s'. split_and!; try done; [congruence|]. intros a. rewrite Hv. case_decide as Hi; [|done].
  pose proof (wf_tiles _ _ (wf_vmas _ _ _ Hwf)) as Ht. rewrite Hm in Ht |- *. by rewrite (view_in 0 l v r MAX_ADDRESS a Ht Hi).
Qed.

Definition initial_view (a : Z) : option cell :=
  if decide (0 <= a < MAX_ADDRESS) then Some free_cell else None.

Lemma Reset_ok s : is_locked s = false ->
  exists s', Reset IsCached s = Done s' /\ wf s' /\ is_locked s' = false /\
    forall a, view (vma_map s') a = initial_view a.
Proof.
  intros Hk. unfold Reset. rewrite Hk. cbn [negb assert_ mbind outcome_bind].
  assert (good initial_vma) as Hg by by split.
  destruct (UpdatePageTableForVMA_spec IsCached buffers initial_vma
    (mk_vmm [initial_vma] PT.Clear false)) as (pt & -> & Hpt); [done|].
  assert (forall a, view [initial_vma] a = initial_view a) as Hv by done.
  eexists. split; [done|]. split_and!; try done. split; simpl.
  - split; [done|]. by constructor.
  - done.
  - intros q. cbn [page_table]. rewrite Hpt, Hv. unfold initial_view.
    destruct (decide (inside initial_vma _)) as [Hi|Hi]; unfold inside in Hi; simpl in Hi.
    + by rewrite decide_True.
    + by rewrite decide_False.
Qed.

(** ** The blocks behind a range *)

(** The host address of an offset in a list of blocks. *)
Fixpoint block_ptr (l : list (MRef.t * Z)) (off : Z) : option Z :=
  match l with
  | [] => None
  | (r, n) :: l => if off <? n then Some (MRef.GetPtr r + off) else block_ptr l (off - n)
  end.

(** The blocks have the given total size and none is empty. *)
Definition blocks_size (l : list (MRef.t * Z)) : Z := foldr (fun b n => b.2 + n) 0 l.
Definition sized (l : list (MRef.t * Z)) (n : Z) : Prop := Forall (fun b => 0 < b.2) l /\ blocks_size l = n.

Lemma blocks_loop_ok fuel : forall s l v r t te, wf s -> vma_map s = l ++ v :: r -> inside v t ->
  t < te -> te <= MAX_ADDRESS -> (length (v :: r) <= fuel)%nat ->
  (all_mapped (vma_map s) t te /\
   exists bl, blocks_loop fuel (vma_map s) t te = Done (Val bl) /\
     sized bl (te - t) /\ forall a, t <= a < te -> block_ptr bl (a - t) = c_ptr <$> view (vma_map s) a) \/
  (~ all_mapped (vma_map s) t te /\
   blocks_loop fuel (vma_map s) t te = Done (Err ResultInvalidAddressState)).
Proof.
  induction fuel as [|fuel IH]; intros s l v r t te Hwf Hm Hi Hlt Hte Hlen; simpl in Hlen; [lia|].
  pose proof (wf_tiles _ _ (wf_vmas _ _ _ Hwf)) as Ht. rewrite Hm in Ht.
  pose proof (wf_good _ _ (wf_vmas _ _ _ Hwf)) as Hg. rewrite Hm in Hg.
  apply Forall_app in Hg as [_ [Hgv _]%Forall_cons].
  assert (MAX_ADDRESS < 2 ^ 32) by done. pose proof (good_base _ v Hgv). pose proof (good_end _ v Hgv).
  assert (forall a, inside v a -> view (vma_map s) a = Some (cell_at v a)) as Hvv.
  { intros a. rewrite Hm. by apply (view_in 0 _ _ _ MAX_ADDRESS). }
  pose proof (Hvv t Hi) as Hvt. cbn [blocks_loop]. destruct (Z.eqb_spec t te); [lia|].
  assert (FindVMA (vma_map s) t = Done (length l)) as -> by (rewrite Hm; by apply FindVMA_spec).
  assert (at_ (vma_map s) (length l) = Done v) as Hat by (unfold at_; rewrite Hm; by rewrite list_lookup_middle).
  cbn [mbind outcome_bind]. rewrite Hat. cbn [mbind outcome_bind].
  unfold inside in Hi. destruct (bool_decide_reflect (type v = BackingMemory)) as [Hty|Hty]; simpl negb.
  2: { right. split; [|done]. intros Ha. destruct (Ha t) as (c & Hc & Hct); [lia|]. by simplify_eq. }
  cbn [negb]. rewrite (u32_small (base v + size v)), (u32_small (_ - t)), (u32_small (t - base v)) by lia.
  set (e := Z.min te (base v + size v)). rewrite (u32_small (t + (e - t))) by lia.
  replace (t + (e - t)) with e by lia.
  destruct (good_backed _ v Hgv Hty) as [Hcov _].
  destruct (MRef.add_covers _ _ (t - base v) Hcov) as (mem & -> & _ & Hptr); [lia|].
  cbn [mbind outcome_bind].
  assert (forall a, t <= a < e -> MRef.GetPtr mem + (a - t) = c_ptr (cell_at v a)) as Hblk.
  { intros a Ha. unfold cell_at. rewrite Hty. simpl. lia. }
  destruct (decide (e = te)) as [He|He].
  - rewrite He. destruct fuel as [|fuel]; cbn [blocks_loop]; rewrite Z.eqb_refl; left; split.
    1, 3: intros a Ha; exists (cell_at v a); split; [apply Hvv; unfold inside; lia | done].
    all: eexists; split; [done|]; split; [split; [by constructor; [simpl; lia|]|simpl; lia]|]; intros a Ha; rewrite Hvv by (unfold inside; lia); simpl;
      destruct (Z.ltb_spec (a - t) (te - t)); [|lia]; f_equal; apply Hblk; lia.
  - assert (e = base v + size v) as He' by lia.
    pose proof Ht as (Hl & Hsz & Hr)%tiles_mid. destruct r as [|w r]; [simpl in Hr; lia|].
    pose proof Hr as (Hbw & Hsw & _). simpl in Hlen.
    destruct (IH s (l ++ [v]) w r e te Hwf) as [(Ha & bl & -> & [Hpos Hsum] & Hbl)|(Ha & ->)].
    + by rewrite <- (assoc_L (++)).
    + unfold inside. lia.
    + lia.
    + done.
    + simpl. lia.
    + left. split.
      * intros a Ha'. destruct (decide (a < e)); [|apply Ha; lia].
        exists (cell_at v a). split; [apply Hvv; unfold inside; lia | done].
      * eexists. split; [done|]. split; [split; [by constructor; [simpl; lia|]|simpl; lia]|].
        intros a Ha'. simpl. destruct (Z.ltb_spec (a - t) (e - t)).
        -- rewrite Hvv by (unfold inside; lia). simpl. f_equal. apply Hblk. lia.
        -- replace (a - t - (e - t)) with (a - e) by lia. apply Hbl. lia.
    + right. split; [|done]. intros Hall. apply Ha. intros a Ha'. apply Hall. lia.
Qed.

(** ** The abstract address space *)

Inductive cmd :=
| CMap (target : Z) (memory : MRef.t) (n : Z) (st : memory_state)
| CUnmap (target n : Z)
| CReprotect (target n perms : Z)
| CChange (target n : Z) (st : memory_state) (perms : Z) (st' : memory_state) (perms' : Z).

Definition target_of (c : cmd) : Z :=
  match c with CMap t _ _ _ | CUnmap t _ | CReprotect t _ _ | CChange t _ _ _ _ _ => t end.
Definition size_of (c : cmd) : Z :=
  match c with CMap _ _ n _ | CUnmap _ n | CReprotect _ n _ | CChange _ n _ _ _ _ => n end.

(** What callers guarantee. *)
Definition requires (c : cmd) : Prop :=
  page_range (target_of c) (size_of c) /\
  match c with CMap _ mem n _ => backs buffers mem n | _ => True end.

(** The address may be operated on. *)
Definition enabled (c : cmd) (o : option cell) : Prop :=
  match c with
  | CMap _ _ _ _ => o = Some free_cell
  | CUnmap _ _ | CReprotect _ _ _ => exists x, o = Some x /\ c_type x = BackingMemory
  | CChange _ _ st p _ _ =>
      exists x, o = Some x /\ c_type x = BackingMemory /\ c_state x = st /\ Z.land (c_perm x) p = p
  end.

(** Its new contents. *)
Definition effect (c : cmd) (a : Z) (o : option cell) : option cell :=
  match c with
  | CMap t mem _ st => Some (mk_cell BackingMemory PermReadWrite st (MRef.GetPtr mem + (a - t)))
  | CUnmap _ _ => Some free_cell
  | CReprotect _ _ p => (fun x => mk_cell (c_type x) p (c_state x) (c_ptr x)) <$> o
  | CChange _ _ _ _ st p => (fun x => mk_cell (c_type x) p st (c_ptr x)) <$> o
  end.

(** A command takes effect on its whole range or fails and changes nothing. *)
Definition spec (c : cmd) (V : Z -> option cell) (r : result) (V' : Z -> option cell) : Prop :=
  ((forall a, target_of c <= a < target_of c + size_of c -> enabled c (V a)) /\ r = ResultSuccess /\
   forall a, V' a = if decide (target_of c <= a < target_of c + size_of c)
                    then effect c a (V a) else V a) \/
  (~ (forall a, target_of c <= a < target_of c + size_of c -> enabled c (V a)) /\
   r = ResultInvalidAddressState /\ forall a, V' a = V a).

Fixpoint spec_run (cs : list cmd) (V : Z -> option cell) (rs : list result) (V' : Z -> option cell) : Prop :=
  match cs, rs with
  | [], [] => forall a, V' a = V a
  | c :: cs, r :: rs => exists V1, spec c V r V1 /\ spec_run cs V1 rs V'
  | _, _ => False
  end.

Definition exec (c : cmd) (s : vmm) : outcome (result * vmm) :=
  match c with
  | CMap t mem n st =>
      '(r, s) ← MapBackingMemory IsCached t mem n st s;
      Done (match r with Val _ => ResultSuccess | Err e => e end, s)
  | CUnmap t n => UnmapRange IsCached t n s
  | CReprotect t n p => ReprotectRange IsCached t n p s
  | CChange t n st p st' p' => ChangeMemoryState IsCached t n st p st' p' s
  end.

Fixpoint exec_all (cs : list cmd) (s : vmm) : outcome (list result * vmm) :=
  match cs with
  | [] => Done ([], s)
  | c :: cs => '(r, s) ← exec c s; '(rs, s) ← exec_all cs s; Done (r :: rs, s)
  end.

Lemma exec_ok c s : wf s -> is_locked s = false -> requires c ->
  exists r s', exec c s = Done (r, s') /\ wf s' /\ is_locked s' = false /\
    spec c (view (vma_map s)) r (view (vma_map s')).
Proof.
  intros Hwf Hk [Hr Hmem]. unfold spec.
  destruct c as [t mem n st|t n|t n p|t n st p st' p']; cbn [exec target_of size_of enabled effect] in *.
  - pose proof Hr as [? ? He ? ?]. unfold MAX_ADDRESS in He.
    destruct (MapBackingMemory_ok s t mem n st) as [(Ha & j & s' & -> & ? & ? & ? & _)|(Ha & ->)];
      try done; [lia | eexists _, _; split_and!; [done..|by left] |].
    destruct (Z.ltb_spec t MAX_ADDRESS) as [|Hout]; [|unfold MAX_ADDRESS in Hout; lia].
    eexists _, _. split_and!; [done..|by right].
  - destruct (UnmapRange_ok s t n Hwf Hk Hr) as [(Ha & s' & -> & ? & ? & ?)|(Ha & ->)];
      eexists _, _; split_and!; try done; first [by left | by right].
  - destruct (ReprotectRange_ok s t n p Hwf Hk Hr) as [(Ha & s' & -> & ? & ? & ?)|(Ha & ->)];
      eexists _, _; split_and!; try done; first [by left | by right].
  - destruct (ChangeMemoryState_ok s t n st p st' p' Hwf Hk Hr) as [(Ha & s' & -> & ? & ? & ?)|(Ha & ->)];
      eexists _, _; split_and!; try done; first [by left | by right].
Qed.

Lemma exec_all_ok cs : forall s, wf s -> is_locked s = false -> Forall requires cs ->
  exists rs s', exec_all cs s = Done (rs, s') /\ wf s' /\ is_locked s' = false /\
    spec_run cs (view (vma_map s)) rs (view (vma_map s')).
Proof.
  induction cs as [|c cs IH]; intros s Hwf Hk Hcs; [by exists [], s|].
  apply Forall_cons in Hcs as [Hc Hcs]. cbn [exec_all].
  destruct (exec_ok c s Hwf Hk Hc) as (r & s1 & -> & Hwf1 & Hk1 & Hs1). cbn [mbind outcome_bind].
  destruct (IH s1 Hwf1 Hk1 Hcs) as (rs & s2 & -> & Hwf2 & Hk2 & Hs2). cbn [mbind outcome_bind].
  exists (r :: rs), s2. split_and!; try done. simpl. eauto.
Qed.

(** ** Properties *)

(** C1: Starting from [Reset], any sequence of mappings, unmappings, reprotections
    and state changes of page-aligned ranges runs without a failed assertion or
    an exhausted loop, each operation either takes effect on exactly its range
    or reports [ResultInvalidAddressState] and changes nothing, and at the end
    the areas tile the address space and the page table has the host pointer
    of every mapped page. *)
Theorem vm_refines_address_space s cs : is_locked s = false -> Forall requires cs ->
  exists s0 rs s', Reset IsCached s = Done s0 /\ exec_all cs s0 = Done (rs, s') /\ wf s' /\
    spec_run cs initial_view rs (view (vma_map s')).
Proof.
  intros Hk Hcs. destruct (Reset_ok s Hk) as (s0 & Hr & Hwf & Hk0 & Hv).
  destruct (exec_all_ok cs s0 Hwf Hk0 Hcs) as (rs & s' & He & Hwf' & _ & Hspec).
  exists s0, rs, s'. split_and!; try done. clear He. revert Hspec.
  assert (forall cs V V1 rs V', (forall a, V a = V1 a) -> spec_run cs V rs V' -> spec_run cs V1 rs V')
    as Hext.
  { clear. intros cs V V1 rs V' HV. destruct cs as [|c cs], rs as [|r rs]; simpl; try done.
    - intros H a. by rewrite H, HV.
    - intros (W & Hs & Hrun). exists W. split; [|done]. revert Hs. unfold spec.
      intros [(H1 & H2 & H3)|(H1 & H2 & H3)]; [left|right]; (split; [|split; [done|]]).
      + intros a Ha. rewrite <- HV. auto.
      + intros a. by rewrite H3, HV.
      + intros H. apply H1. intros a Ha. rewrite HV. auto.
      + intros a. by rewrite H3, HV. }
  by apply Hext.
Qed.


Lemma GetBackingBlocksForRange_ok s t n : wf s -> page_range t n ->
  (all_mapped (vma_map s) t (t + n) /\
   exists bl, GetBackingBlocksForRange t n s = Done (Val bl) /\ sized bl n /\
     forall a, t <= a < t + n -> block_ptr bl (a - t) = c_ptr <$> view (vma_map s) a) \/
  (~ all_mapped (vma_map s) t (t + n) /\
   GetBackingBlocksForRange t n s = Done (Err ResultInvalidAddressState)).
Proof.
  intros Hwf Hr. pose proof Hr as [? ? He ? ?]. unfold GetBackingBlocksForRange.
  rewrite u32_end by done. pose proof (wf_tiles _ _ (wf_vmas _ _ _ Hwf)) as Ht.
  destruct (tiles_find _ _ _ t Ht) as (l & v & r & Hm & Hi); [lia|].
  destruct (blocks_loop_ok (S (length (vma_map s))) s l v r t (t + n)) as [(Ha & bl & Hb & Hs & Hp)|]; try done; [lia| | |by right].
  - rewrite Hm, length_app. lia.
  - left. split; [done|]. exists bl. by replace (t + n - t) with n in Hs by lia.
Qed.

(** C21: [GetBackingBlocksForRange] returns, for a range in which every address is
    mapped, blocks of the size of the range that give each of its offsets the host address
    its area gives it, and fails with [ResultInvalidAddressState] on any other range;
    its loop ends within one round per area. *)
Theorem backing_blocks_exact s t n : wf s -> page_range t n ->
  (all_mapped (vma_map s) t (t + n) /\
   exists bl, GetBackingBlocksForRange t n s = Done (Val bl) /\ blocks_size bl = n /\
     forall a, t <= a < t + n -> block_ptr bl (a - t) = c_ptr <$> view (vma_map s) a) \/
  (~ all_mapped (vma_map s) t (t + n) /\
   GetBackingBlocksForRange t n s = Done (Err ResultInvalidAddressState)).
Proof.
  intros Hwf Hr. destruct (GetBackingBlocksForRange_ok s t n Hwf Hr) as [(Ha & bl & Hg & [_ Hs] & Hb)|]; eauto 6.
Qed.

(** ** Mapping above a base address *)

Lemma find_vma_spec f m : match find_vma f m with
  | Some v => exists l r, m = l ++ v :: r /\ Forall (fun v => f v = false) l /\ f v = true
  | None => Forall (fun v => f v = false) m
  end.
Proof.
  induction m as [|y m IH]; [constructor|]. cbn [find_vma]. destruct (f y) eqn:E; [by exists [], m|].
  destruct (find_vma f m); [|by constructor]. destruct IH as (l & r & -> & Hl & Hf). exists (y :: l), r. split_and!; [done|by constructor|done].
Qed.

(** The area ends behind a block of [n] bytes placed at [b]. *)
Definition reaches (b n : Z) (v : vma) : Prop := type v = Free /\ b < base v + size v /\ b + n <= base v + size v.
Lemma fits_reaches b n v : good v -> 0 <= b -> 0 < n -> b + n < 2 ^ 32 -> fits b n v = true <-> reaches b n v.
Proof.
  intros Hg Hb Hn Hlt. pose proof (good_below _ v Hg). destruct Hg. unfold fits, reaches. rewrite !u32_small by lia.
  rewrite !andb_true_iff, bool_decide_eq_true, Z.ltb_lt, Z.leb_le. tauto.
Qed.

(** What becomes of a block once an area is picked. *)
Lemma map_to_area s l v r b region mem n st : wf s -> is_locked s = false -> 0 <= b -> 0 <= region -> b + region < 2 ^ 32 -> b + n < 2 ^ 32 ->
  b `mod` CITRA_PAGE_SIZE = 0 -> 0 < n -> n `mod` CITRA_PAGE_SIZE = 0 -> backs buffers mem n ->
  vma_map s = l ++ v :: r -> find_vma (fits b n) (vma_map s) = Some v -> reaches b n v ->
  let t := Z.max b (base v) in
  if b + region <? t + n then MapBackingMemoryToBase IsCached b region mem n st s = Done (Err (make Desc.OutOfMemory Mod_Kernel OutOfResource Permanent), s)
  else if base v + size v <? t + n then MapBackingMemoryToBase IsCached b region mem n st s = Done (Err ResultInvalidAddressState, s)
  else page_range t n /\ all_free (vma_map s) t (t + n) /\
    exists s', MapBackingMemoryToBase IsCached b region mem n st s = Done (Val t, s') /\ wf s' /\ is_locked s' = false /\
      forall a, view (vma_map s') a =
        if decide (t <= a < t + n) then Some (mk_cell BackingMemory PermReadWrite st (MRef.GetPtr mem + (a - t))) else view (vma_map s) a.
Proof.
  intros Hwf Hk Hb Hr0 Hr Hbn Hba Hn Hna Hmem Hm Hf (Hty & Hlo & Hhi) t. pose proof (wf_good _ _ (wf_vmas _ _ _ Hwf)) as Hg. rewrite Hm in Hg.
  apply Forall_app in Hg as [_ [Hgv _]%Forall_cons]. pose proof Hgv as [].
  assert (t `mod` CITRA_PAGE_SIZE = 0) as Hta by (unfold t; destruct (Z.max_spec b (base v)) as [[_ ->]|[_ ->]]; done).
  assert (inside v t) as Hi by (unfold t, inside; lia). unfold MAX_ADDRESS in *.
  pose proof (all_free_area IsCached buffers s l v r t (t + n) Hwf Hm Hi ltac:(lia)) as Hiff.
  unfold MapBackingMemoryToBase. rewrite Hk, Hf. cbn [negb assert_ mbind outcome_bind of_opt]. fold t.
  rewrite !u32_small by (unfold t; lia). destruct (b + region <? t + n); [done|].
  destruct (MapBackingMemory_ok s t mem n st) as [(Hfree & j & s' & -> & Hwf' & Hk' & Hv & _)|[Hno ->]]; try done; try (unfold t; lia).
  - apply Hiff in Hfree as Hfit. rewrite (proj2 (Z.ltb_ge _ _)) by lia. split; [split; try done; unfold MAX_ADDRESS; lia|]. split; [done|]. by exists s'.
  - destruct (Z.ltb_spec (base v + size v) (t + n)) as [|Hle]; [|exfalso; apply Hno, Hiff; split; [done|lia]].
    unfold MAX_ADDRESS. rewrite (proj2 (Z.ltb_lt t _)); [done|]. unfold inside in Hi. lia.
Qed.

(** C32: [MapBackingMemoryToBase] looks for the first free area that ends behind a block placed at [base], but places the
    block at the start of the area when that is above [base].  So it maps the block there if it fits, and fails
    otherwise, whatever room later areas have: with [OutOfMemory] when the block leaves the region,
    with [ResultInvalidAddressState] when it leaves the area.  When there is no such area it
    reads the base of the area behind the last one. *)
Theorem map_to_base_by_end s b region mem n st : wf s -> is_locked s = false -> 0 <= b -> 0 <= region -> b + region < 2 ^ 32 -> b + n < 2 ^ 32 ->
  b `mod` CITRA_PAGE_SIZE = 0 -> 0 < n -> n `mod` CITRA_PAGE_SIZE = 0 -> backs buffers mem n ->
  (Forall (fun v => ~ reaches b n v) (vma_map s) -> MapBackingMemoryToBase IsCached b region mem n st s = Stop FOutOfRange) /\
  forall l v r, vma_map s = l ++ v :: r -> Forall (fun v => ~ reaches b n v) l -> reaches b n v ->
    let t := Z.max b (base v) in
    if b + region <? t + n then MapBackingMemoryToBase IsCached b region mem n st s = Done (Err (make Desc.OutOfMemory Mod_Kernel OutOfResource Permanent), s)
    else if base v + size v <? t + n then MapBackingMemoryToBase IsCached b region mem n st s = Done (Err ResultInvalidAddressState, s)
    else page_range t n /\ all_free (vma_map s) t (t + n) /\
      exists s', MapBackingMemoryToBase IsCached b region mem n st s = Done (Val t, s') /\ wf s' /\ is_locked s' = false /\
        forall a, view (vma_map s') a =
          if decide (t <= a < t + n) then Some (mk_cell BackingMemory PermReadWrite st (MRef.GetPtr mem + (a - t))) else view (vma_map s) a.
Proof.
  intros Hwf Hk Hb Hr0 Hr Hbn Hba Hn Hna Hmem. pose proof (wf_good _ _ (wf_vmas _ _ _ Hwf)) as Hg.
  assert (forall v, v ∈ vma_map s -> fits b n v = true <-> reaches b n v) as Hfr by (intros v Hv; apply fits_reaches; try done; by apply (proj1 (Forall_forall _ _) Hg)).
  pose proof (find_vma_spec (fits b n) (vma_map s)) as Hf. split.
  - intros Hnone. unfold MapBackingMemoryToBase. rewrite Hk. destruct (find_vma _ _) as [v|] eqn:E; [|done].
    destruct Hf as (l & r & Hm & _ & Hv). assert (v ∈ vma_map s) as Hin by (rewrite Hm; set_solver).
    apply Hfr in Hv; [|done]. by apply (proj1 (Forall_forall _ _) Hnone) in Hv.
  - intros l v r Hm Hl Hv. apply map_to_area with l r; try done. rewrite Hm in Hfr |- *. clear Hf Hm. induction l as [|y l IH].
    + cbn. by rewrite (proj2 (Hfr v ltac:(set_solver))).
    + apply Forall_cons in Hl as [Hy Hl]. cbn. destruct (fits b n y) eqn:E; [by apply Hfr in E; [|set_solver]|]. apply IH; [intros w Hw; apply Hfr; set_solver|done].
Qed.

End Operations.

(** ** Witnesses *)

Definition no_cache (_ : Z) : bool := false.
Definition fcram : MRef.backing := MRef.mk_backing 0x10000000 0x100000.
Definition only_fcram (b : MRef.backing) : Prop := b = fcram.

Lemma only_fcram_apart b1 b2 : only_fcram b1 -> only_fcram b2 -> b1 ≠ b2 ->
  MRef.host b1 + MRef.bytes b1 < MRef.host b2 \/ MRef.host b2 + MRef.bytes b2 < MRef.host b1.
Proof. unfold only_fcram. congruence. Qed.

Definition blank : vmm := mk_vmm [] PT.Clear false.

Lemma vm_refines_address_space_witness :
  exists s0 rs s', Reset no_cache blank = Done s0 /\
    exec_all no_cache
      [CMap 0x100000 (MRef.Ref fcram 0) 0x3000 StPrivate; CReprotect 0x101000 0x1000 PermRead;
       CUnmap 0x100000 0x3000; CUnmap 0x100000 0x1000] s0 = Done (rs, s') /\
    wf no_cache only_fcram s'.
Proof.
  destruct (vm_refines_address_space no_cache only_fcram only_fcram_apart blank
    [CMap 0x100000 (MRef.Ref fcram 0) 0x3000 StPrivate; CReprotect 0x101000 0x1000 PermRead;
     CUnmap 0x100000 0x3000; CUnmap 0x100000 0x1000] eq_refl) as (s0 & rs & s' & H0 & H1 & H2 & _).
  - repeat constructor; try done; simpl; lia.
  - exists s0, rs, s'. split; [exact H0|]. split; [exact H1|exact H2].
Defined.

Lemma fresh_state : exists s, Reset no_cache blank = Done s /\ wf no_cache only_fcram s /\
  is_locked s = false /\ forall a, view (vma_map s) a = initial_view a.
Proof. apply (Reset_ok no_cache only_fcram). done. Qed.


Lemma backing_blocks_exact_witness :
  exists s, Reset no_cache blank = Done s /\
    GetBackingBlocksForRange 0x100000 0x3000 s = Done (Err ResultInvalidAddressState).
Proof.
  destruct fresh_state as (s & Hs & Hwf & Hk & Hv).
  destruct (backing_blocks_exact no_cache only_fcram s 0x100000 0x3000 Hwf) as [(Ha & _)|(_ & H)].
  - by split.
  - destruct (Ha 0x100000) as (c & Hc & Hty); [lia|]. rewrite Hv in Hc. by injection Hc as <-.
  - exists s. split; [exact Hs|exact H].
Defined.

(** ** Where the code differs from its comments *)

Fixpoint mergeable_neighbours (m : list vma) : bool :=
  match m with
  | v :: (w :: _) as m' => bool_decide (merge_ok v w) || mergeable_neighbours m'
  | _ => false
  end.

Definition area (b n p off : Z) : vma := mk_vma b n BackingMemory p StPrivate (MRef.Ref fcram off).
Definition gap (b n : Z) : vma := mk_vma b n Free PermNone StFree MRef.Null.

(** A writable page followed by two read-only ones. *)
Definition two_kinds : vmm :=
  mk_vmm [gap 0 0x100000; area 0x100000 0x1000 PermReadWrite 0; area 0x101000 0x2000 PermRead 0x1000;
          gap 0x103000 (MAX_ADDRESS - 0x103000)] PT.Clear false.

(** Reprotecting the first two pages of [two_kinds], a well-formed map without
    mergeable neighbours, to read-only leaves two areas that could be merged:
    the loop steps over the area that the last merge absorbed, so the part of
    the split area behind the range is never looked at. *)
Theorem reprotect_leaves_mergeable :
  wf_map only_fcram (vma_map two_kinds) /\ mergeable_neighbours (vma_map two_kinds) = false /\
  (fun rs => (rs.1, mergeable_neighbours (vma_map rs.2))) <$>
    ReprotectRange no_cache 0x100000 0x2000 PermRead two_kinds = Done (ResultSuccess, true).
Proof.
  split_and!; [|vm_compute; reflexivity|vm_compute; reflexivity]. split; [vm_compute; tauto|].
  repeat constructor; try (vm_compute; congruence); try done.
Qed.

(** One free page between two mapped ones, all the rest of the space free: a block of two pages is refused although the
    next free area has room; and at the end of the space no area is found. *)
Definition hole_commands : list cmd :=
  [CMap 0x100000 (MRef.Ref fcram 0) 0x1000 StPrivate; CMap 0x102000 (MRef.Ref fcram 0x2000) 0x1000 StPrivate].

Lemma map_to_base_by_end_witness :
  exists s0 s, Reset no_cache blank = Done s0 /\ (exists rs, exec_all no_cache hole_commands s0 = Done (rs, s)) /\
    MapBackingMemoryToBase no_cache 0x100000 0x100000 (MRef.Ref fcram 0) 0x2000 StPrivate s = Done (Err ResultInvalidAddressState, s) /\
    all_free (vma_map s) 0x103000 0x105000 /\
    MapBackingMemoryToBase no_cache (MAX_ADDRESS - 0x1000) 0x1000 (MRef.Ref fcram 0) 0x2000 StPrivate s = Stop FOutOfRange.
Proof.
  assert (backs only_fcram (MRef.Ref fcram 0) 0x2000) as Hb by (split; [split_and!; try done; simpl; lia|done]).
  destruct fresh_state as (s0 & H0 & Hw0 & Hk0 & _).
  destruct (exec_all_ok no_cache only_fcram only_fcram_apart hole_commands s0 Hw0 Hk0) as (rs & s & H1 & H2 & H3 & _).
  { repeat constructor; try done; simpl; lia. }
  assert (vma_map s = [gap 0 0x100000; area 0x100000 0x1000 PermReadWrite 0; gap 0x101000 0x1000;
    area 0x102000 0x1000 PermReadWrite 0x2000; gap 0x103000 (MAX_ADDRESS - 0x103000)]) as Hm.
  { assert ((fun x => vma_map x.2) <$> (s0 ← Reset no_cache blank; exec_all no_cache hole_commands s0) =
      Done [gap 0 0x100000; area 0x100000 0x1000 PermReadWrite 0; gap 0x101000 0x1000;
        area 0x102000 0x1000 PermReadWrite 0x2000; gap 0x103000 (MAX_ADDRESS - 0x103000)]) as E by (vm_compute; reflexivity).
    rewrite H0 in E. cbn [mbind outcome_bind] in E. rewrite H1 in E. cbn in E. by injection E. }
  exists s0, s. split; [exact H0|]. split; [by exists rs|]. split; [|split].
  - destruct (map_to_base_by_end no_cache only_fcram only_fcram_apart s 0x100000 0x100000 (MRef.Ref fcram 0) 0x2000 StPrivate H2) as [_ E];
      [exact H3|lia|lia|lia|lia|reflexivity|lia|reflexivity|exact Hb|].
    specialize (E [gap 0 0x100000; area 0x100000 0x1000 PermReadWrite 0] (gap 0x101000 0x1000)
      [area 0x102000 0x1000 PermReadWrite 0x2000; gap 0x103000 (MAX_ADDRESS - 0x103000)] Hm). apply E.
    + repeat constructor; intros (Hty & Hlo & Hhi); first [discriminate Hty | cbn in Hlo; lia].
    + split_and!; [done|cbn; lia..].
  - apply (all_free_area no_cache only_fcram s [gap 0 0x100000; area 0x100000 0x1000 PermReadWrite 0; gap 0x101000 0x1000;
      area 0x102000 0x1000 PermReadWrite 0x2000] (gap 0x103000 (MAX_ADDRESS - 0x103000)) []); [exact H2|exact Hm|unfold inside; cbn [base size gap]; unfold MAX_ADDRESS; lia|lia|split; [reflexivity|cbn [base size gap]; unfold MAX_ADDRESS; lia]].
  - destruct (map_to_base_by_end no_cache only_fcram only_fcram_apart s (MAX_ADDRESS - 0x1000) 0x1000 (MRef.Ref fcram 0) 0x2000 StPrivate H2) as [E _];
      [exact H3|unfold MAX_ADDRESS; lia..|reflexivity|lia|reflexivity|exact Hb|].
    apply E. rewrite Hm. repeat constructor; intros (Hty & Hlo & Hhi); first [discriminate Hty | unfold MAX_ADDRESS in *; cbn in Hlo, Hhi; lia].
Defined.

End VMT.
