(* ===== verification/CoreTiming.v ===== *)
(** * Event scheduling

    Model of [Core::Timing] and [Timing::Timer] (core/core_timing.cpp,
    include/core/core_timing.h).  [event_queue] is a binary heap whose keys
    (time, fifo_order) are distinct: only its front and its set of events are
    observable, and it is kept here in the order the heap pops it.  The clock
    scale is a double, computed with the Standard Library's [SpecFloat].
    Callbacks are arbitrary functions of the state of the rest of the emulator
    ([W]) and of the scheduler, which they may call back. *)
From stdpp Require Import strings.
From Stdlib Require Import SpecFloat.
From S2P Require Import Prelude.

(** ** Conversions *)

Definition BASE_CLOCK_RATE_ARM11 : Z := 268111856.
Definition S64_MAX : Z := 2 ^ 63 - 1.
Definition MAX_VALUE_TO_MULTIPLY : Z := S64_MAX / BASE_CLOCK_RATE_ARM11.

(** Division of C++ integers truncates; a product with the unsigned clock rate
    is unsigned. *)
Definition msToCycles (ms : Z) : Z := s64 (u64 (BASE_CLOCK_RATE_ARM11 * ms) / 1000).
Definition usToCycles_int (us : Z) : Z := s64 (u64 (BASE_CLOCK_RATE_ARM11 * us) / 1000000).
Definition nsToCycles_int (ns : Z) : Z := s64 (u64 (BASE_CLOCK_RATE_ARM11 * ns) / 1000000000).

(** The [s64] overloads. *)
Definition toCycles (scale : Z) (x : Z) : Z :=
  if MAX_VALUE_TO_MULTIPLY <? Z.quot x scale then S64_MAX
  else if MAX_VALUE_TO_MULTIPLY <? x then s64 (u64 (BASE_CLOCK_RATE_ARM11 * Z.quot x scale))
  else s64 (u64 (BASE_CLOCK_RATE_ARM11 * x) / scale).
Definition usToCycles (us : Z) : Z := toCycles 1000000 us.
Definition nsToCycles (ns : Z) : Z := toCycles 1000000000 ns.

(** The [u64] overloads. *)
Definition toCycles_u64 (scale : Z) (x : Z) : Z :=
  if MAX_VALUE_TO_MULTIPLY <? x / scale then S64_MAX
  else if MAX_VALUE_TO_MULTIPLY <? x then s64 (u64 (BASE_CLOCK_RATE_ARM11 * (x / scale)))
  else s64 (u64 (BASE_CLOCK_RATE_ARM11 * s64 x) / scale).
Definition usToCycles_u64 (us : Z) : Z := toCycles_u64 1000000 us.
Definition nsToCycles_u64 (ns : Z) : Z := toCycles_u64 1000000000 ns.

Definition cyclesToNs (cycles : Z) : Z := u64 (s64 (cycles * 1000000000)) / BASE_CLOCK_RATE_ARM11.
Definition cyclesToUs (cycles : Z) : Z := s64 (u64 (s64 (cycles * 1000000)) / BASE_CLOCK_RATE_ARM11).
Definition cyclesToMs (cycles : Z) : Z := u64 (s64 (cycles * 1000)) / BASE_CLOCK_RATE_ARM11.

Module Timing.

(** ** Events *)

(** [Timing::Event]; an event type is identified by its name. *)
Record event := mk_event { time : Z; fifo_order : Z; user_data : Z; type : string }.

#[global] Instance event_eq_dec : EqDecision event.
Proof. solve_decision. Defined.

(** [Event::operator<] *)
Definition ev_lt (a b : event) : bool :=
  (time a <? time b) || ((time a =? time b) && (fifo_order a <? fifo_order b)).

(** [emplace_back] and [std::push_heap]. *)
Fixpoint push_heap (e : event) (q : list event) : list event :=
  match q with
  | [] => [e]
  | x :: q' => if ev_lt e x then e :: q else x :: push_heap e q'
  end.

Definition MAX_SLICE_LENGTH : Z := BASE_CLOCK_RATE_ARM11 / 234.

(** [Timing::Timer] *)
Record timer := mk_timer {
  event_queue : list event; event_fifo_id : Z; ts_queue : list event; is_timer_sane : bool;
  slice_length : Z; downcount : Z; executed_ticks : Z; idled_cycles : Z;
  cpu_clock_scale : spec_float;
}.

(** Doubles. *)
Definition double_of_Z (z : Z) : spec_float := binary_normalize 53 1024 z 0 false.
Definition double_trunc (f : spec_float) : Z :=
  match f with
  | S754_finite s m e =>
      let v := if 0 <=? e then Zpos m * 2 ^ e else Zpos m / 2 ^ (- e) in if s then - v else v
  | _ => 0
  end.

Definition new_timer (base_ticks : Z) : timer :=
  mk_timer [] 0 [] true MAX_SLICE_LENGTH MAX_SLICE_LENGTH base_ticks 0 (double_of_Z 1).

Definition set_queue (q : list event) (t : timer) : timer :=
  mk_timer q (event_fifo_id t) (ts_queue t) (is_timer_sane t) (slice_length t) (downcount t)
    (executed_ticks t) (idled_cycles t) (cpu_clock_scale t).

Definition GetTicks (t : timer) : Z :=
  let ticks := u64 (executed_ticks t) in
  if is_timer_sane t then ticks else u64 (ticks + (slice_length t - downcount t)).

Definition AddTicks (ticks : Z) (t : timer) : timer :=
  let scaled := u64 (double_trunc (SFmul 53 1024 (double_of_Z ticks) (cpu_clock_scale t))) in
  mk_timer (event_queue t) (event_fifo_id t) (ts_queue t) (is_timer_sane t) (slice_length t)
    (s64 (downcount t - scaled)) (executed_ticks t) (idled_cycles t) (cpu_clock_scale t).

Definition GetIdleTicks (t : timer) : Z := u64 (idled_cycles t).

Definition ForceExceptionCheck (cycles : Z) (t : timer) : timer :=
  let cycles := Z.max 0 cycles in
  if cycles <? downcount t then
    mk_timer (event_queue t) (event_fifo_id t) (ts_queue t) (is_timer_sane t)
      (slice_length t - (downcount t - cycles)) cycles (executed_ticks t) (idled_cycles t)
      (cpu_clock_scale t)
  else t.

(** Push with the next [fifo_order]. *)
Definition enqueue (e : event) (t : timer) : timer :=
  mk_timer (push_heap (mk_event (time e) (event_fifo_id t) (user_data e) (type e)) (event_queue t))
    (u64 (event_fifo_id t + 1)) (ts_queue t) (is_timer_sane t) (slice_length t) (downcount t)
    (executed_ticks t) (idled_cycles t) (cpu_clock_scale t).

Definition ts_push (e : event) (t : timer) : timer :=
  mk_timer (event_queue t) (event_fifo_id t) (ts_queue t ++ [e]) (is_timer_sane t) (slice_length t)
    (downcount t) (executed_ticks t) (idled_cycles t) (cpu_clock_scale t).

Definition ts_clear (t : timer) : timer :=
  mk_timer (event_queue t) (event_fifo_id t) [] (is_timer_sane t) (slice_length t)
    (downcount t) (executed_ticks t) (idled_cycles t) (cpu_clock_scale t).

Definition MoveEvents (t : timer) : timer :=
  ts_clear (foldl (fun t e => enqueue e t) t (ts_queue t)).

Definition GetMaxSliceLength (t : timer) : outcome Z :=
  match event_queue t with
  | e :: _ => _ ← assert_ (0 <? time e - executed_ticks t); Done (time e - executed_ticks t)
  | [] => Done MAX_SLICE_LENGTH
  end.

Definition SetNextSlice (max_slice_length : Z) (t : timer) : timer :=
  let len := match event_queue t with
             | e :: _ => s32 (Z.min (time e - executed_ticks t) max_slice_length)
             | [] => max_slice_length
             end in
  mk_timer (event_queue t) (event_fifo_id t) (ts_queue t) (is_timer_sane t) len len
    (executed_ticks t) (idled_cycles t) (cpu_clock_scale t).

Definition Idle (t : timer) : timer :=
  mk_timer (event_queue t) (event_fifo_id t) (ts_queue t) (is_timer_sane t) (slice_length t) 0
    (executed_ticks t) (u64 (idled_cycles t + downcount t)) (cpu_clock_scale t).

Definition GetDowncount (t : timer) : Z := downcount t.

(** ** The scheduler *)

Section Scheduler.
(** [Cb] is what [event_types] stores for a callback. *)
Context {Cb : Type}.

Record timing := mk_timing {
  event_types : gmap string (option Cb); timers : list timer; current_timer : nat;
  event_queue_locked : bool;
}.

Definition set_timers (ts : list timer) (s : timing) : timing :=
  mk_timing (event_types s) ts (current_timer s) (event_queue_locked s).

Definition with_timer (i : nat) (f : timer -> timer) (s : timing) : timing :=
  set_timers (alter f i (timers s)) s.

Definition UpdateClockSpeed (cpu_clock_percentage : Z) (s : timing) : timing :=
  set_timers ((fun t =>
    mk_timer (event_queue t) (event_fifo_id t) (ts_queue t) (is_timer_sane t) (slice_length t)
      (downcount t) (executed_ticks t) (idled_cycles t)
      (SFdiv 53 1024 (double_of_Z 100) (double_of_Z cpu_clock_percentage))) <$> timers s) s.

(** The constructor; [base_ticks] is what [GenerateBaseTicks] returned. *)
Definition new_timing (num_cores : nat) (cpu_clock_percentage base_ticks : Z) : outcome timing :=
  let s := UpdateClockSpeed cpu_clock_percentage
             (mk_timing ∅ (replicate num_cores (new_timer base_ticks)) 0 false) in
  _ ← of_opt FOutOfRange (timers s !! 0%nat); Done s.

(** An existing type keeps its callback unless a new one is given. *)
Definition RegisterEvent (name : string) (callback : option Cb) (s : timing) : timing :=
  let old := default None (event_types s !! name) in
  mk_timing (<[name := match callback with Some c => Some c | None => old end]> (event_types s))
    (timers s) (current_timer s) (event_queue_locked s).

Definition ScheduleEvent (cycles_into_future : Z) (event_type : string) (user_data : Z)
    (core_id : option nat) (thread_safe_mode : bool) (s : timing) : outcome timing :=
  if event_queue_locked s then Done s
  else
    let i := default (current_timer s) core_id in
    tm ← (if core_id is Some _ then of_opt FAssert (timers s !! i) else of_opt FOutOfRange (timers s !! i));
    if (thread_safe_mode : bool) then
      let cycles := Z.max (MAX_SLICE_LENGTH * 2) cycles_into_future in
      Done (with_timer i (ts_push (mk_event (s64 (GetTicks tm + cycles)) 0 user_data event_type)) s)
    else
      let timeout := s64 (GetTicks tm + cycles_into_future) in
      if (current_timer s =? i)%nat then
        let tm := if is_timer_sane tm then tm else ForceExceptionCheck cycles_into_future tm in
        Done (with_timer i (fun _ => enqueue (mk_event timeout 0 user_data event_type) tm) s)
      else
        Done (with_timer i (ts_push (mk_event timeout 0 user_data event_type)) s).

(** Is [e] of the type, with the user data? *)
Definition matches (event_type : string) (user_data_ : Z) (e : event) : Prop :=
  type e = event_type /\ user_data e = user_data_.
#[global] Instance matches_dec ty u e : Decision (matches ty u e).
Proof. unfold matches. apply _. Defined.

Definition UnscheduleEvent (event_type : string) (user_data_ : Z) (s : timing) : timing :=
  if event_queue_locked s then s
  else set_timers ((fun t => set_queue (filter (fun e => ~ matches event_type user_data_ e)
                                          (event_queue t)) t) <$> timers s) s.

Definition RemoveEvent (event_type : string) (s : timing) : timing :=
  if event_queue_locked s then s
  else set_timers ((fun t => set_queue (filter (fun e => type e ≠ event_type) (event_queue t)) t)
                     <$> timers s) s.

Definition IsEventScheduled (event_type : string) (s : timing) : bool :=
  existsb (fun t => existsb (fun e => bool_decide (type e = event_type)) (event_queue t)) (timers s).

Definition SetCurrentTimer (core_id : nat) (s : timing) : outcome timing :=
  _ ← of_opt FOutOfRange (timers s !! core_id);
  Done (mk_timing (event_types s) (timers s) core_id (event_queue_locked s)).

Definition CurrentTicks (s : timing) : outcome Z :=
  t ← of_opt FOutOfRange (timers s !! current_timer s); Done (s64 (GetTicks t)).

(** [std::max_element]: the first of the largest. *)
Definition GetGlobalTicks (s : timing) : outcome Z :=
  match timers s with
  | [] => Stop FOutOfRange
  | t :: ts => Done (s64 (foldl Z.max (GetTicks t) (GetTicks <$> ts)))
  end.

Definition GetGlobalTimeUs (s : timing) : outcome Z :=
  t ← GetGlobalTicks s; Done (s64 (u64 (s64 (t * 1000000)) / BASE_CLOCK_RATE_ARM11)).

Definition UnlockEventQueue (s : timing) : timing :=
  mk_timing (event_types s) (timers s) (current_timer s) false.

Context {W : Type}.
(** What a callback does when it is called with user data and lateness. *)
Context (call : Cb -> Z -> Z -> W -> timing -> W * timing).

(** Beginning of [Timer::Advance]: the executed cycles are accounted for. *)
Definition begin_advance (t : timer) : timer :=
  let t := MoveEvents t in
  mk_timer (event_queue t) (event_fifo_id t) (ts_queue t) true 0 0
    (executed_ticks t + (slice_length t - downcount t)) 0 (cpu_clock_scale t).

(** The loop of [Timer::Advance]; it also returns the events dispatched. *)
Fixpoint advance_loop (fuel : nat) (i : nat) (w : W) (s : timing) : outcome (list event * W * timing) :=
  t ← of_opt FOutOfRange (timers s !! i);
  match event_queue t with
  | e :: q =>
      if time e <=? executed_ticks t then
        match fuel with
        | O => Stop FFuel
        | S fuel =>
            let s := with_timer i (set_queue q) s in
            let '(w, s) := match default None (event_types s !! type e) with
                           | Some cb => call cb (user_data e) (s32 (executed_ticks t - time e)) w s
                           | None => (w, s)
                           end in
            '(es, w, s) ← advance_loop fuel i w s;
            Done (e :: es, w, s)
        end
      else Done ([], w, s)
  | [] => Done ([], w, s)
  end.

Definition end_advance (t : timer) : timer :=
  mk_timer (event_queue t) (event_fifo_id t) (ts_queue t) false (slice_length t) (downcount t)
    (executed_ticks t) (idled_cycles t) (cpu_clock_scale t).

Definition Advance (fuel : nat) (i : nat) (w : W) (s : timing) : outcome (list event * W * timing) :=
  _ ← of_opt FOutOfRange (timers s !! i);
  '(es, w, s) ← advance_loop fuel i w (with_timer i begin_advance s);
  Done (es, w, with_timer i end_advance s).

End Scheduler.
Arguments timing : clear implicits.
End Timing.
