(* ===== verification/TimingFacts.v ===== *)
(** * Correctness of event scheduling

    The queue of a timer is sorted by time, and events of the same time are
    kept in the order they were scheduled; [Advance] dispatches exactly the
    events that are due; a time slice never runs past the next event. *)
From stdpp Require Import strings.
From S2P Require Import Prelude CoreTiming.

Module TF.
Import Timing.

Definition not_later (a b : event) : Prop := time a <= time b.
Definition sorted (q : list event) : Prop := StronglySorted not_later q.

(** ** The queue *)

Lemma push_heap_split e q : sorted q -> exists l r, q = l ++ r /\ push_heap e q = l ++ e :: r /\
  (forall x, x ∈ l -> ev_lt e x = false) /\ (forall x, head r = Some x -> ev_lt e x = true).
Proof.
  induction q as [|x q IH]; intros Hs; simpl.
  { exists [], []. split_and!; try done. set_solver. }
  apply StronglySorted_inv in Hs as [Hs Hx]. destruct (ev_lt e x) eqn:He.
  - exists [], (x :: q). split_and!; [done | done | set_solver |].
    intros y Hy. simpl in Hy. congruence.
  - destruct (IH Hs) as (l & r & -> & -> & Hl & Hr). exists (x :: l), r. split_and!; [done | done | set_solver | done].
Qed.

Lemma ev_lt_time a b : ev_lt a b = true -> time a <= time b.
Proof. unfold ev_lt. rewrite orb_true_iff, andb_true_iff, Z.ltb_lt, Z.eqb_eq. lia. Qed.

Lemma not_ev_lt_time a b : ev_lt a b = false -> time b <= time a.
Proof. unfold ev_lt. intros H. destruct (Z.ltb_spec (time a) (time b)); [done|lia]. Qed.

Lemma sorted_app l r : sorted (l ++ r) <->
  sorted l /\ sorted r /\ (forall x y, x ∈ l -> y ∈ r -> time x <= time y).
Proof.
  unfold sorted. induction l as [|a l IH]; simpl.
  - split; [|naive_solver]. intros. split_and!; [constructor | done | set_solver].
  - split.
    + intros [H1 H2]%StronglySorted_inv. apply IH in H1 as (? & ? & ?).
      apply Forall_app in H2 as [H2 H3]. split_and!; [by constructor | done |].
      intros x y [-> | Hx]%elem_of_cons Hy; [|auto]. by apply (proj1 (Forall_forall _ _) H3).
    + intros ([H1 H2]%StronglySorted_inv & H3 & H4). constructor.
      * apply IH. split_and!; try done. set_solver.
      * apply Forall_app. split; [done|]. apply Forall_forall. intros y Hy. apply H4; [set_solver|done].
Qed.

Lemma sorted_cons x q : sorted (x :: q) <-> sorted q /\ (forall y, y ∈ q -> time x <= time y).
Proof.
  unfold sorted. split.
  - intros [? H]%StronglySorted_inv. by rewrite Forall_forall in H.
  - intros [? H]. constructor; [done|]. by apply Forall_forall.
Qed.

Lemma push_heap_sorted e q : sorted q -> sorted (push_heap e q).
Proof.
  intros Hs. destruct (push_heap_split e q Hs) as (l & r & -> & -> & Hl & Hr).
  apply sorted_app in Hs as (H1 & H2 & H3). apply sorted_app. split; [done|]. split.
  - apply sorted_cons. split; [done|]. intros y Hy. destruct r as [|z r]; [set_solver|].
    specialize (Hr z eq_refl). apply ev_lt_time in Hr. apply sorted_cons in H2 as [_ H2].
    apply elem_of_cons in Hy as [-> | Hy]; [done|]. specialize (H2 y Hy). lia.
  - intros x y Hx [-> | Hy]%elem_of_cons; [by apply not_ev_lt_time, Hl | by apply H3].
Qed.

Lemma sorted_sub q q' : sorted q -> sublist q' q -> sorted q'.
Proof.
  intros Hs Hsub. induction Hsub as [|x l1 l2 Hsub IH|x l1 l2 Hsub IH]; [done| |].
  - apply sorted_cons in Hs as [Hs Hx]. apply sorted_cons. split; [auto|]. intros y Hy. apply Hx.
    by eapply elem_of_submseteq, sublist_submseteq.
  - apply sorted_cons in Hs as [Hs Hx]. auto.
Qed.

(** ** Due events *)

Definition due (t : timer) : list event := filter (fun e => time e <= executed_ticks t) (event_queue t).
Definition wf_timer (t : timer) : Prop := sorted (event_queue t).

Lemma due_head t e q : wf_timer t -> event_queue t = e :: q ->
  due t = (if time e <=? executed_ticks t then e :: due (set_queue q t) else []).
Proof.
  intros Hs Hq. unfold wf_timer in Hs. rewrite Hq in Hs. apply sorted_cons in Hs as [_ He].
  unfold due. rewrite Hq. destruct (Z.leb_spec (time e) (executed_ticks t)).
  - by rewrite filter_cons_True.
  - apply filter_none. intros x [-> | Hx]%elem_of_cons; [lia|]. specialize (He x Hx). lia.
Qed.

(** Less than five centuries of emulated time have passed. *)
Definition in_time (t : timer) : Prop := 0 <= executed_ticks t < 2 ^ 62.

Section Advance.
Context {Cb W : Type} (call : Cb -> Z -> Z -> W -> timing Cb -> W * timing Cb) (i : nat).

(** What a callback may do to the timer that dispatches it: cancel due events
    and schedule events for later. *)
Definition gentle (s s' : timing Cb) : Prop :=
  forall t, timers s !! i = Some t -> is_timer_sane t = true -> wf_timer t -> in_time t ->
  exists t', timers s' !! i = Some t' /\ is_timer_sane t' = true /\ wf_timer t' /\
    executed_ticks t' = executed_ticks t /\ slice_length t' = slice_length t /\
    downcount t' = downcount t /\ sublist (due t') (due t).

Context (call_gentle : forall c ud late w s, gentle s (call c ud late w s).2).

(** The callbacks cancel no due event. *)
Definition keeps_due : Prop := forall c ud late w s t t', timers s !! i = Some t ->
  is_timer_sane t = true -> wf_timer t -> in_time t ->
  timers (call c ud late w s).2 !! i = Some t' -> due t' = due t.

Lemma with_timer_lookup f (s : timing Cb) t :
  timers s !! i = Some t -> timers (with_timer i f s) !! i = Some (f t).
Proof. intros Ht. unfold with_timer. simpl. by rewrite list_lookup_alter, decide_True, Ht. Qed.

Lemma loop_stops (w : W) (s : timing Cb) t : timers s !! i = Some t -> wf_timer t -> due t = [] ->
  exists es w' s' t', Done ([] : list event, w, s) = Done (es, w', s') /\
    timers s' !! i = Some t' /\ wf_timer t' /\ executed_ticks t' = executed_ticks t /\
    slice_length t' = slice_length t /\ downcount t' = downcount t /\
    due t' = [] /\ sublist es (due t) /\ (keeps_due -> es = due t).
Proof. intros Ht Hwf Hd. exists [], w, s, t. rewrite Hd. by split_and!. Qed.

Lemma advance_loop_ok fuel : forall w s t, timers s !! i = Some t -> wf_timer t ->
  is_timer_sane t = true -> in_time t -> (length (due t) <= fuel)%nat ->
  exists es w' s' t', advance_loop call fuel i w s = Done (es, w', s') /\
    timers s' !! i = Some t' /\ wf_timer t' /\ executed_ticks t' = executed_ticks t /\
    slice_length t' = slice_length t /\ downcount t' = downcount t /\
    due t' = [] /\ sublist es (due t) /\ (keeps_due -> es = due t).
Proof.
  induction fuel as [|fuel IH]; intros w s t Ht Hwf Hsane Hin Hlen;
    cbn [advance_loop]; rewrite Ht; cbn [of_opt mbind outcome_bind];
    (destruct (event_queue t) as [|e q] eqn:Hq; [apply loop_stops; try done; unfold due; by rewrite Hq|]);
    pose proof (due_head t e q Hwf Hq) as Hdue;
    (destruct (Z.leb_spec (time e) (executed_ticks t)) as [Hle|Hlt]; [|by apply loop_stops]).
  - rewrite Hdue in Hlen. simpl in Hlen. lia.
  - rewrite Hdue in Hlen. simpl in Hlen.
    set (s1 := with_timer i (set_queue q) s).
    assert (timers s1 !! i = Some (set_queue q t)) as Ht1 by by apply with_timer_lookup.
    assert (wf_timer (set_queue q t)) as Hwf1.
    { unfold wf_timer in *. rewrite Hq in Hwf. by apply sorted_cons in Hwf as [? _]. }
    assert (exists w2 s2 t2, match default None (event_types s1 !! type e) with
        | Some cb => call cb (user_data e) (s32 (executed_ticks t - time e)) w s1
        | None => (w, s1)
        end = (w2, s2) /\ timers s2 !! i = Some t2 /\ is_timer_sane t2 = true /\ wf_timer t2 /\
      executed_ticks t2 = executed_ticks t /\ slice_length t2 = slice_length t /\
      downcount t2 = downcount t /\ sublist (due t2) (due (set_queue q t)) /\
      (keeps_due -> due t2 = due (set_queue q t)))
      as (w2 & s2 & t2 & -> & Ht2 & Hsane2 & Hwf2 & He2 & Hs2 & Hd2 & Hdue2 & Hkeep2).
    { destruct (default None (event_types s1 !! type e)) as [cb|].
      - destruct (call_gentle cb (user_data e) (s32 (executed_ticks t - time e)) w s1 _ Ht1 Hsane Hwf1 Hin)
          as (t2 & Ht2 & ? & ? & ? & ? & ? & ?).
        assert (keeps_due -> due t2 = due (set_queue q t)).
        { intros Hk. by apply (Hk cb (user_data e) (s32 (executed_ticks t - time e)) w s1). }
        destruct (call cb (user_data e) (s32 (executed_ticks t - time e)) w s1) as [w2 s2].
        by exists w2, s2, t2.
      - by exists w, s1, (set_queue q t). }
    assert (in_time t2) as Hin2 by (unfold in_time; by rewrite He2).
    destruct (IH w2 s2 t2 Ht2 Hwf2 Hsane2 Hin2) as (es & w' & s' & t' & -> & Ht' & Hwf' & He & Hsl & Hdc & Hdn & Hsub & Hk).
    { apply sublist_length in Hdue2. lia. }
    cbn [mbind outcome_bind]. exists (e :: es), w', s', t'. split_and!; try done; try congruence.
    + rewrite Hdue. constructor. by etrans.
    + intros Hkeep. by rewrite Hdue, (Hk Hkeep), (Hkeep2 Hkeep).
Qed.

(** ** Events from other threads *)

Definition key (e : event) : Z * Z * string := (time e, user_data e, type e).

Lemma enqueue_keys e t : wf_timer t -> key <$> event_queue (enqueue e t) ≡ₚ key e :: (key <$> event_queue t).
Proof.
  intros Hs. simpl.
  destruct (push_heap_split (mk_event (time e) (event_fifo_id t) (user_data e) (type e)) _ Hs)
    as (l & r & -> & -> & _). rewrite !fmap_app. simpl. unfold key at 2. simpl.
  by rewrite <- Permutation_middle.
Qed.

Lemma move_all_ok q : forall t, wf_timer t ->
  let t' := foldl (fun t e => enqueue e t) t q in
  wf_timer t' /\ executed_ticks t' = executed_ticks t /\ slice_length t' = slice_length t /\
  downcount t' = downcount t /\ is_timer_sane t' = is_timer_sane t /\
  key <$> event_queue t' ≡ₚ (key <$> event_queue t) ++ (key <$> q).
Proof.
  induction q as [|e q IH]; intros t Hs; simpl.
  - rewrite app_nil_r. by split_and!.
  - destruct (IH (enqueue e t)) as (H1 & H2 & H3 & H4 & H5 & H6); [by apply push_heap_sorted|].
    split_and!; [done..|]. rewrite H6, (enqueue_keys e t Hs). simpl. apply Permutation_middle.
Qed.

Lemma begin_advance_ok t : wf_timer t ->
  let t' := begin_advance t in
  wf_timer t' /\ is_timer_sane t' = true /\ slice_length t' = 0 /\ downcount t' = 0 /\
  executed_ticks t' = executed_ticks t + (slice_length t - downcount t) /\
  key <$> event_queue t' ≡ₚ (key <$> event_queue t) ++ (key <$> ts_queue t).
Proof.
  intros Hs. destruct (move_all_ok (ts_queue t) t Hs) as (H1 & H2 & H3 & H4 & H5 & H6).
  simpl. rewrite H2, H3, H4. by split_and!.
Qed.

Lemma due_length t : (length (due t) <= length (event_queue t))%nat.
Proof. apply sublist_length, sublist_filter. Qed.

Lemma Advance_ok fuel w s t : timers s !! i = Some t -> wf_timer t ->
  0 <= executed_ticks t + (slice_length t - downcount t) < 2 ^ 62 ->
  (length (event_queue t) + length (ts_queue t) <= fuel)%nat ->
  exists es w' s' t', Advance call fuel i w s = Done (es, w', s') /\ timers s' !! i = Some t' /\
    sublist es (due (begin_advance t)) /\ (keeps_due -> es = due (begin_advance t)) /\ wf_timer t' /\ due t' = [] /\
    is_timer_sane t' = false /\ slice_length t' = 0 /\ downcount t' = 0 /\
    executed_ticks t' = executed_ticks t + (slice_length t - downcount t).
Proof.
  intros Ht Hs Hin Hfuel. unfold Advance. rewrite Ht. cbn [of_opt mbind outcome_bind].
  destruct (begin_advance_ok t Hs) as (H1 & H2 & H3 & H4 & H5 & H6).
  destruct (advance_loop_ok fuel w (with_timer i begin_advance s) (begin_advance t)) as
    (es & w' & s' & t' & -> & Ht' & Hwf' & He & Hsl & Hdc & Hdn & Hsub & Hk).
  - by apply with_timer_lookup.
  - done.
  - done.
  - unfold in_time. by rewrite H5.
  - pose proof (due_length (begin_advance t)). apply Permutation_length in H6.
    rewrite length_app, !length_fmap in H6. lia.
  - cbn [mbind outcome_bind]. eexists es, w', _, (end_advance t'). split_and!; try done.
    + by apply with_timer_lookup.
    + exact (eq_trans He H5).
Qed.

End Advance.

(** ** Scheduler calls are gentle *)

Lemma gentle_refl {Cb} i (s : timing Cb) : gentle i s s.
Proof. intros t Ht Hsane Hwf _. exists t. by split_and!. Qed.

Lemma gentle_trans {Cb} i (s1 s2 s3 : timing Cb) : gentle i s1 s2 -> gentle i s2 s3 -> gentle i s1 s3.
Proof.
  intros H1 H2 t Ht Hsane Hwf Hin. destruct (H1 t Ht Hsane Hwf Hin) as (t2 & Ht2 & Hs2 & Hw2 & He & ? & ? & Hsub).
  assert (in_time t2) as Hin2 by (unfold in_time; by rewrite He).
  destruct (H2 t2 Ht2 Hs2 Hw2 Hin2) as (t3 & ? & ? & ? & ? & ? & ? & ?).
  exists t3. split_and!; try done; try congruence. by etrans.
Qed.

(** A change of the queue of timer [i] that keeps it sorted. *)
Lemma gentle_alter {Cb} i (s : timing Cb) f j :
  (forall t, timers s !! i = Some t -> wf_timer t -> is_timer_sane t = true -> in_time t ->
     is_timer_sane (f t) = true /\ wf_timer (f t) /\
     executed_ticks (f t) = executed_ticks t /\ slice_length (f t) = slice_length t /\
     downcount (f t) = downcount t /\ sublist (due (f t)) (due t)) ->
  gentle i s (with_timer j f s).
Proof.
  intros Hf t Ht Hsane Hwf Hin. unfold with_timer. simpl. rewrite list_lookup_alter.
  destruct (decide (j = i)) as [->|]; rewrite Ht; simpl; [|by exists t; split_and!].
  destruct (Hf t Ht Hwf Hsane Hin) as (? & ? & ? & ? & ? & ?). exists (f t). by split_and!.
Qed.

Lemma sorted_filter (P : event -> Prop) `{forall x, Decision (P x)} q : sorted q -> sorted (filter P q).
Proof. intros Hs. eapply sorted_sub; [done|apply sublist_filter]. Qed.

Lemma due_filter (P : event -> Prop) `{forall x, Decision (P x)} t :
  sublist (due (set_queue (filter P (event_queue t)) t)) (due t).
Proof.
  unfold due. simpl. rewrite list_filter_filter, (list_filter_iff _ (fun e => P e /\ time e <= executed_ticks t)).
  2: { intros x. tauto. }
  rewrite <- list_filter_filter. apply sublist_filter.
Qed.

Lemma UnscheduleEvent_gentle {Cb} i ty u (s : timing Cb) : gentle i s (UnscheduleEvent ty u s).
Proof.
  unfold UnscheduleEvent. destruct (event_queue_locked s); [apply gentle_refl|].
  intros t Ht Hsane Hwf _. simpl. rewrite list_lookup_fmap, Ht. simpl. eexists. split; [done|].
  split_and!; try done; [by apply sorted_filter|apply (due_filter _)].
Qed.

Lemma sublist_refl_due t t' : event_queue t' = event_queue t -> executed_ticks t' = executed_ticks t ->
  sublist (due t') (due t).
Proof. intros H1 H2. unfold due. by rewrite H1, H2. Qed.

Lemma due_enqueue_later e t : executed_ticks t < time e -> wf_timer t -> due (enqueue e t) = due t.
Proof.
  intros Hlt Hs. unfold due. simpl.
  destruct (push_heap_split (mk_event (time e) (event_fifo_id t) (user_data e) (type e)) _ Hs)
    as (l & r & -> & -> & _). rewrite !filter_app, filter_cons_False; [done|]. simpl. lia.
Qed.

(** Scheduling for later, on any core, is what callbacks may do. *)
Lemma ScheduleEvent_gentle {Cb} i cycles ty u core ts (s s' : timing Cb) :
  ScheduleEvent cycles ty u core ts s = Done s' -> 0 < cycles < 2 ^ 62 -> gentle i s s'.
Proof.
  unfold ScheduleEvent. destruct (event_queue_locked s).
  { intros [= <-] _. apply gentle_refl. }
  intros H Hc. set (j := default (current_timer s) core) in *.
  assert (exists tm, timers s !! j = Some tm) as (tm & Htm).
  { destruct core; apply outcome_bind_done in H as (tm & Htm & _); apply of_opt_done in Htm; eauto. }
  assert ((if core is Some _ then of_opt FAssert (timers s !! j) else of_opt FOutOfRange (timers s !! j))
          = Done tm) as E by (rewrite Htm; by destruct core).
  rewrite E in H. cbn [mbind outcome_bind] in H.
  assert (forall e, gentle i s (with_timer j (ts_push e) s)) as Hts.
  { intros e. apply gentle_alter. intros t _ Hwf Hsane _. split_and!; done. }
  destruct ts; [injection H as <-; apply Hts|].
  destruct (current_timer s =? j)%nat; injection H as <-; [|apply Hts].
  destruct (decide (j = i)) as [->|Hne].
  - apply gentle_alter. intros t Ht Hwf Hsane Hin. rewrite Ht in Htm. injection Htm as <-.
    rewrite Hsane. unfold in_time in Hin. unfold GetTicks. rewrite Hsane.
    split_and!; try done; [by apply push_heap_sorted|].
    rewrite due_enqueue_later; [done| |done]. simpl. rewrite u64_small, s64_small by lia. lia.
  - intros t Ht Hsane Hwf Hin. exists t. split_and!; try done. unfold with_timer. simpl.
    rewrite list_lookup_alter. by rewrite decide_False.
Qed.

(** ** Slices *)

Definition now (t : timer) : Z := executed_ticks t + (slice_length t - downcount t).

(** The slice ends before any event that is still ahead. *)
Definition slice_ok (t : timer) : Prop :=
  forall e, e ∈ event_queue t -> executed_ticks t + slice_length t <= Z.max (time e) (now t).

Lemma now_GetTicks t : 0 <= executed_ticks t -> 0 <= now t < 2 ^ 64 -> is_timer_sane t = false ->
  GetTicks t = now t.
Proof. intros H1 H2 H3. unfold GetTicks, now in *. rewrite H3. zdm. Qed.

Lemma ForceExceptionCheck_ok c t : 0 <= downcount t ->
  let t' := ForceExceptionCheck c t in
  now t' = now t /\ downcount t' = Z.min (downcount t) (Z.max 0 c) /\
  executed_ticks t' = executed_ticks t /\ event_queue t' = event_queue t /\
  is_timer_sane t' = is_timer_sane t.
Proof.
  intros Hd. unfold ForceExceptionCheck, now.
  destruct (Z.ltb_spec (Z.max 0 c) (downcount t)); simpl; split_and!; try done; lia.
Qed.

Lemma push_heap_elem e x q : x ∈ push_heap e q -> x = e \/ x ∈ q.
Proof.
  induction q as [|y q IH]; simpl; [set_solver|]. destruct (ev_lt e y); [set_solver|].
  intros [-> | Hx]%elem_of_cons; [set_solver|]. destruct (IH Hx); set_solver.
Qed.

Lemma slice_schedule c ty u t : 0 <= downcount t -> slice_ok t ->
  slice_ok (enqueue (mk_event (now t + c) 0 u ty) (ForceExceptionCheck c t)).
Proof.
  intros Hd Hok. destruct (ForceExceptionCheck_ok c t Hd) as (Hn & Hdc & He & Hq & _).
  assert (executed_ticks (ForceExceptionCheck c t) + slice_length (ForceExceptionCheck c t) =
          now t + downcount (ForceExceptionCheck c t)) as Hend by (rewrite <- Hn; unfold now; lia).
  intros x Hx. unfold now. simpl in *. rewrite Hend. fold (now (ForceExceptionCheck c t)). rewrite Hn, Hdc.
  apply push_heap_elem in Hx as [-> | Hx]; simpl; [lia|]. rewrite Hq in Hx.
  specialize (Hok x Hx). unfold now in *. lia.
Qed.

Lemma slice_begin max t : wf_timer t -> due t = [] -> 0 <= max < 2 ^ 31 ->
  slice_ok (SetNextSlice max t) /\ downcount (SetNextSlice max t) <= max /\
  (0 < max -> 0 < downcount (SetNextSlice max t)).
Proof.
  intros Hwf Hdue Hmax. unfold slice_ok, now, SetNextSlice. simpl.
  destruct (event_queue t) as [|e q] eqn:Hq; [split; [set_solver|simpl; lia]|].
  rewrite (due_head t e q Hwf Hq) in Hdue.
  destruct (Z.leb_spec (time e) (executed_ticks t)) as [|Hlt]; [done|].
  rewrite s32_small by lia. split; [|lia]. intros x Hx.
  unfold wf_timer in Hwf. rewrite Hq in Hwf. apply sorted_cons in Hwf as [_ Hle].
  assert (time e <= time x) by (apply elem_of_cons in Hx as [-> | Hx]; [lia|auto]). lia.
Qed.

(** ** Properties *)

(** C28: [Advance] moves the events other threads pushed into the queue, dispatches
    due events in time order until none is left -- all of them when no callback
    cancels one -- and loses no time, provided the callbacks only cancel
    events and schedule new ones for later. *)
Theorem advance_dispatches_due {Cb W} (call : Cb -> Z -> Z -> W -> timing Cb -> W * timing Cb) i fuel w s t :
  (forall c ud late w s, gentle i s (call c ud late w s).2) ->
  timers s !! i = Some t -> wf_timer t -> 0 <= executed_ticks t -> 0 <= now t < 2 ^ 62 ->
  is_timer_sane t = false -> (length (event_queue t) + length (ts_queue t) <= fuel)%nat ->
  exists es w' s' t', Advance call fuel i w s = Done (es, w', s') /\ timers s' !! i = Some t' /\
    key <$> event_queue (begin_advance t) ≡ₚ (key <$> event_queue t) ++ (key <$> ts_queue t) /\
    sublist es (due (begin_advance t)) /\ sorted es /\
    (keeps_due call i -> es = due (begin_advance t)) /\ due t' = [] /\ wf_timer t' /\
    GetTicks t' = GetTicks t.
Proof.
  intros Hg Ht Hwf He Hn Hs Hf. unfold now in Hn.
  destruct (begin_advance_ok t Hwf) as (Hwf1 & _ & _ & _ & _ & Hk).
  destruct (Advance_ok call i Hg fuel w s t Ht Hwf ltac:(lia) Hf) as
    (es & w' & s' & t' & Ha & Ht' & Hsub & Hkeep & Hwf' & Hd & Hs' & Hsl & Hdc & Hex).
  exists es, w', s', t'. split_and!; try done.
  - eapply sorted_sub; [|done]. apply sorted_filter, Hwf1.
  - rewrite !now_GetTicks; unfold now; rewrite ?Hsl, ?Hdc, ?Hex; try done; lia.
Qed.

(** A scheduled event goes behind every queued event that is not later and
    before every later one: events of the same time fire in the order they were
    scheduled. *)
Lemma same_time_fifo e t : wf_timer t -> 0 <= event_fifo_id t -> event_fifo_id t + 1 < 2 ^ 64 ->
  (forall x, x ∈ event_queue t -> fifo_order x < event_fifo_id t) ->
  exists l r e', key e' = key e /\ event_queue t = l ++ r /\ event_queue (enqueue e t) = l ++ e' :: r /\
    (forall x, x ∈ l -> time x <= time e) /\ (forall x, x ∈ r -> time e < time x) /\
    (forall x, x ∈ event_queue (enqueue e t) -> fifo_order x < event_fifo_id (enqueue e t)).
Proof.
  intros Hwf H0 Hid Hf. simpl. rewrite u64_small by lia.
  destruct (push_heap_split (mk_event (time e) (event_fifo_id t) (user_data e) (type e)) _ Hwf)
    as (l & r & Hq & -> & Hl & Hr).
  exists l, r, (mk_event (time e) (event_fifo_id t) (user_data e) (type e)).
  unfold wf_timer in Hwf. rewrite Hq in *. apply sorted_app in Hwf as (_ & Hsr & _). split_and!; try done.
  - intros x Hx. by apply Hl, not_ev_lt_time in Hx.
  - intros x Hx. destruct r as [|y r]; [set_solver|]. specialize (Hr y eq_refl).
    specialize (Hf y ltac:(set_solver)). unfold ev_lt in Hr. simpl in Hr.
    apply sorted_cons in Hsr as [_ Hsr].
    assert (time e < time y).
    { destruct (Z.ltb_spec (time e) (time y)); [done|]. simpl in Hr.
      apply andb_true_iff in Hr as [_ Hr%Z.ltb_lt]. lia. }
    apply elem_of_cons in Hx as [-> | Hx]; [done|]. specialize (Hsr x Hx). lia.
  - intros x Hx. assert (x ∈ l ++ r \/ fifo_order x = event_fifo_id t) as [Hx' | ->]; [|specialize (Hf x Hx'); lia|lia].
    apply elem_of_app in Hx as [Hx | [-> | Hx]%elem_of_cons]; [left; set_solver | by right | left; set_solver].
Qed.

(** After [Advance] a slice set by [SetNextSlice] ends before the next event,
    and scheduling another event from the running core shortens the slice so
    that it still does, without moving the clock. *)
Theorem slice_never_passes_event max c ty u t :
  wf_timer t -> due t = [] -> 0 < max < 2 ^ 31 ->
  let t1 := SetNextSlice max t in
  (slice_ok t1 /\ 0 < downcount t1 <= max) /\
  forall t2, 0 <= downcount t2 -> slice_ok t2 ->
    let t3 := enqueue (mk_event (now t2 + c) 0 u ty) (ForceExceptionCheck c t2) in
    slice_ok t3 /\ now t3 = now t2 /\ downcount t3 = Z.min (downcount t2) (Z.max 0 c).
Proof.
  intros Hwf Hd Hm t1. destruct (slice_begin max t Hwf Hd) as (H1 & H2 & H3); [lia|].
  split; [split; [done|]; split; [apply H3; lia | done]|]. intros t2 Hdc Hok t3.
  destruct (ForceExceptionCheck_ok c t2 Hdc) as (Hn & Hdc' & _).
  split; [by apply slice_schedule|]. split; [exact Hn|exact Hdc'].
Qed.

(** C29: Converting a duration of at most 34.4 seconds to cycles and back loses
    at most four nanoseconds and longer durations are cut to whole seconds; the
    result is never negative, so a sleep is never scheduled into the past. *)
Theorem ns_cycles_roundtrip ns : 0 <= ns < 2 ^ 63 ->
  0 <= nsToCycles ns < 2 ^ 63 /\
  (ns <= MAX_VALUE_TO_MULTIPLY -> ns - 4 <= cyclesToNs (nsToCycles ns) <= ns) /\
  (MAX_VALUE_TO_MULTIPLY < ns ->
     nsToCycles ns = BASE_CLOCK_RATE_ARM11 * (ns / 1000000000)).
Proof.
  intros H. unfold nsToCycles, toCycles, cyclesToNs.
  assert (MAX_VALUE_TO_MULTIPLY = 34401209161) as HM by reflexivity.
  rewrite HM. unfold BASE_CLOCK_RATE_ARM11, S64_MAX. rewrite Z.quot_div_nonneg by lia.
  pose proof (Z.div_mod ns 1000000000 ltac:(lia)). pose proof (Z.mod_pos_bound ns 1000000000 ltac:(lia)).
  destruct (Z.ltb_spec 34401209161 (ns / 1000000000)); [lia|].
  destruct (Z.ltb_spec 34401209161 ns).
  - rewrite u64_small, s64_small by lia. lia.
  - rewrite (u64_small (268111856 * ns)) by lia.
    set (c := 268111856 * ns / 1000000000).
    pose proof (Z.div_mod (268111856 * ns) 1000000000 ltac:(lia)) as Hc. fold c in Hc.
    pose proof (Z.mod_pos_bound (268111856 * ns) 1000000000 ltac:(lia)).
    rewrite !(s64_small c) by lia. rewrite s64_small, u64_small by lia.
    split; [lia|]. split; [|lia]. intros _.
    pose proof (Z.div_mod (c * 1000000000) 268111856 ltac:(lia)).
    pose proof (Z.mod_pos_bound (c * 1000000000) 268111856 ltac:(lia)). lia.
Qed.

(** A negative number of milliseconds or nanoseconds wraps: the product with
    the unsigned clock rate is unsigned, so the delay becomes a positive one of
    more than a minute. *)
Theorem negative_delay_wraps :
  msToCycles (-1) = 18446744073441439 /\ nsToCycles (-1000000) = 18446475961 /\
  nsToCycles_int (-1) = 18446744073.
Proof. vm_compute. done. Qed.

(** ** Witnesses *)

(** A callback that schedules its event again a thousand cycles later. *)
Definition periodic (c : unit) (ud late : Z) (w : unit) (s : timing unit) : unit * timing unit :=
  match ScheduleEvent (1000 - Z.max 0 (Z.min late 999)) "tick" ud None false s with
  | Done s' => (w, s')
  | Stop _ => (w, s)
  end.

Lemma periodic_gentle i c ud late w s : gentle i s (periodic c ud late w s).2.
Proof.
  unfold periodic. destruct (ScheduleEvent _ "tick" ud None false s) as [s'|f] eqn:He.
  - eapply ScheduleEvent_gentle; [done|lia].
  - apply gentle_refl.
Qed.

Definition ticking : timer :=
  mk_timer [mk_event 5 0 1 "tick"; mk_event 9 1 2 "tick"; mk_event 5000 2 3 "tick"] 3
    [mk_event 7 0 4 "tick"] false 100 0 0 0 (double_of_Z 1).

Lemma ticking_wf : wf_timer ticking.
Proof. repeat constructor; unfold not_later; simpl; lia. Qed.

Lemma advance_dispatches_due_witness :
  exists es w' s' t',
    Advance periodic 4 0 tt (mk_timing {["tick" := Some tt]} [ticking] 0 false) = Done (es, w', s') /\
    timers s' !! 0%nat = Some t' /\ due t' = [] /\ GetTicks t' = 100.
Proof.
  destruct (advance_dispatches_due periodic 0 4 tt (mk_timing {["tick" := Some tt]} [ticking] 0 false)
    ticking (periodic_gentle 0) eq_refl ticking_wf) as (es & w' & s' & t' & H1 & H2 & _ & _ & _ & _ & H3 & _ & H4).
  - simpl. lia.
  - unfold now. simpl. lia.
  - reflexivity.
  - simpl. lia.
  - exists es, w', s', t'. split; [exact H1|]. split; [exact H2|]. split; [exact H3|]. rewrite H4. reflexivity.
Defined.

Lemma same_time_fifo_witness :
  exists l r e', event_queue ticking = l ++ r /\
    event_queue (enqueue (mk_event 9 0 7 "tick") ticking) = l ++ e' :: r /\ user_data e' = 7.
Proof.
  destruct (same_time_fifo (mk_event 9 0 7 "tick") ticking ticking_wf) as (l & r & e' & Hk & H1 & H2 & _).
  - simpl. lia.
  - simpl. lia.
  - intros x Hx. simpl in *. set_unfold in Hx. naive_solver lia.
  - exists l, r, e'. split; [exact H1|]. split; [exact H2|]. unfold key in Hk. simpl in Hk. congruence.
Defined.

Definition later : timer :=
  mk_timer [mk_event 500 0 1 "tick"] 1 [] false 0 0 100 0 (double_of_Z 1).

Lemma slice_never_passes_event_witness :
  wf_timer later /\ downcount (SetNextSlice 1000 later) = 400 /\ slice_ok (SetNextSlice 1000 later).
Proof.
  assert (wf_timer later) as Hwf by (repeat constructor).
  destruct (slice_never_passes_event 1000 7 "tick" 0 later Hwf eq_refl ltac:(lia)) as [[H1 _] _].
  split; [exact Hwf|]. split; [reflexivity|exact H1].
Defined.

Lemma ns_cycles_roundtrip_witness : nsToCycles 1000000 = 268111 /\ 999996 <= cyclesToNs (nsToCycles 1000000).
Proof.
  destruct (ns_cycles_roundtrip 1000000 ltac:(lia)) as (_ & H & _).
  split; [reflexivity|]. apply H. vm_compute. congruence.
Defined.

End TF.
