(* ===== verification/ResourceLimit.v ===== *)
(** * Resource limits

    Model of [ResourceLimit] and [ResourceLimitList]
    (core/hle/kernel/resource_limit.cpp).  Values are [s32]; the error messages
    are not modelled. *)
From S2P Require Import Prelude.

Module Limit.

Inductive limit_type :=
| Priority | Commit | Thread | Event | Mutex | Semaphore | Timer | SharedMemory
| AddressArbiter | CpuTime.

Inductive category := Application | SysApplet | LibApplet | Other.

#[global] Instance limit_type_eq_dec : EqDecision limit_type.
Proof. solve_decision. Defined.

(** [m_limit_values] and [m_current_values]. *)
Record t := mk { limit_values : limit_type -> Z; current_values : limit_type -> Z }.

Definition upd (f : limit_type -> Z) (ty : limit_type) (v : Z) : limit_type -> Z :=
  fun x => if decide (x = ty) then v else f x.

Definition Create : t := mk (fun _ => 0) (fun _ => 0).
Definition GetCurrentValue (ty : limit_type) (l : t) : Z := current_values l ty.
Definition GetLimitValue (ty : limit_type) (l : t) : Z := limit_values l ty.
Definition SetLimitValue (ty : limit_type) (value : Z) (l : t) : t :=
  mk (upd (limit_values l) ty value) (current_values l).

(** Exceeding the limit is only logged. *)
Definition Reserve (ty : limit_type) (amount : Z) (l : t) : bool * t :=
  (true, mk (limit_values l) (upd (current_values l) ty (s32 (current_values l ty + amount)))).
Definition Release (ty : limit_type) (amount : Z) (l : t) : bool * t :=
  (true, mk (limit_values l) (upd (current_values l) ty (s32 (current_values l ty - amount)))).

(** The constructor of [ResourceLimitList]; [appmemalloc] is the size of the
    APPLICATION memory region. *)
Definition set_all (vs : list (limit_type * Z)) : t :=
  foldl (fun l v => SetLimitValue v.1 v.2 l) Create vs.

Definition ResourceLimitList (is_new_3ds : bool) (appmemalloc : Z) (c : category) : t :=
  let pick (a b : Z) := if is_new_3ds then a else b in
  set_all match c with
  | Application =>
      [(Priority, 0x18); (Commit, appmemalloc); (Thread, 0x20); (Event, 0x20); (Mutex, 0x20);
       (Semaphore, 0x8); (Timer, 0x8); (SharedMemory, 0x10); (AddressArbiter, 0x2); (CpuTime, 0x0)]
  | SysApplet =>
      [(Priority, 0x4); (Commit, pick 0x5E06000 0x2606000); (Thread, pick 0x1D 0xE);
       (Event, pick 0xB 0x8); (Mutex, 0x8); (Semaphore, 0x4); (Timer, 0x4); (SharedMemory, 0x8);
       (AddressArbiter, 0x3); (CpuTime, 0x2710)]
  | LibApplet =>
      [(Priority, 0x4); (Commit, 0x602000); (Thread, 0xE); (Event, 0x8); (Mutex, 0x8);
       (Semaphore, 0x4); (Timer, 0x4); (SharedMemory, 0x8); (AddressArbiter, 0x1); (CpuTime, 0x2710)]
  | Other =>
      [(Priority, 0x4); (Commit, pick 0x2182000 0x1682000); (Thread, pick 0xE1 0xCA);
       (Event, pick 0x108 0xF8); (Mutex, pick 0x25 0x23); (Semaphore, pick 0x43 0x40);
       (Timer, pick 0x2C 0x2B); (SharedMemory, pick 0x1F 0x1E); (AddressArbiter, pick 0x2D 0x2B);
       (CpuTime, 0x3E8)]
  end.

Definition in_s32 (z : Z) : Prop := - 2 ^ 31 <= z < 2 ^ 31.

Lemma upd_same f ty v : upd f ty v ty = v.
Proof. unfold upd. by rewrite decide_True. Qed.

Lemma upd_other f ty ty' v : ty' ≠ ty -> upd f ty v ty' = f ty'.
Proof. intros H. unfold upd. by rewrite decide_False. Qed.

Inductive event := Reserved (ty : limit_type) (n : Z) | Released (ty : limit_type) (n : Z).

Definition step (e : event) (l : t) : t :=
  match e with Reserved ty n => (Reserve ty n l).2 | Released ty n => (Release ty n l).2 end.

(** What a history leaves in use. *)
Fixpoint in_use (ty : limit_type) (es : list event) (v : Z) : Z :=
  match es with
  | [] => v
  | Reserved ty' n :: es => in_use ty es (if decide (ty = ty') then v + n else v)
  | Released ty' n :: es => in_use ty es (if decide (ty = ty') then v - n else v)
  end.

Fixpoint no_overflow (ty : limit_type) (es : list event) (v : Z) : Prop :=
  in_s32 v /\
  match es with
  | [] => True
  | Reserved ty' n :: es => no_overflow ty es (if decide (ty = ty') then v + n else v)
  | Released ty' n :: es => no_overflow ty es (if decide (ty = ty') then v - n else v)
  end.

Lemma no_overflow_head ty es v : no_overflow ty es v -> in_s32 v.
Proof. by destruct es as [|[] ?]; intros [? _]. Qed.

Lemma run_in_use ty es : forall l, no_overflow ty es (current_values l ty) ->
  current_values (foldl (fun l e => step e l) l es) ty = in_use ty es (current_values l ty) /\
  limit_values (foldl (fun l e => step e l) l es) = limit_values l.
Proof.
  induction es as [|e es IH]; intros l H; [done|]. simpl.
  assert (current_values (step e l) ty = match e with
    | Reserved ty' n => if decide (ty = ty') then current_values l ty + n else current_values l ty
    | Released ty' n => if decide (ty = ty') then current_values l ty - n else current_values l ty
    end) as He.
  { destruct e as [ty' n|ty' n]; simpl in *; destruct H as [_ H]; apply no_overflow_head in H;
      (destruct (decide (ty = ty')) as [<-|]; [rewrite upd_same; apply s32_small, H | by rewrite upd_other]). }
  destruct (IH (step e l)) as [H1 H2].
  - rewrite He. destruct e; apply H.
  - rewrite H1, H2, He. destruct e; done.
Qed.

(** As long as no counter leaves the [s32] range, the current value of a
    resource is what the history of reservations and releases leaves in use and
    the limits stay as they were set; every reservation is granted, also one
    beyond the limit. *)
Theorem reservations_tracked es l ty : no_overflow ty es (GetCurrentValue ty l) ->
  let l' := foldl (fun l e => step e l) l es in
  GetCurrentValue ty l' = in_use ty es (GetCurrentValue ty l) /\
  (forall ty', GetLimitValue ty' l' = GetLimitValue ty' l) /\
  (forall n, (Reserve ty n l').1 = true).
Proof.
  intros H. destruct (run_in_use ty es l H) as [H1 H2]. split; [exact H1|].
  split; [|done]. intros ty'. unfold GetLimitValue. by rewrite H2.
Qed.

Lemma reservations_tracked_witness :
  GetCurrentValue Thread
    (foldl (fun l e => step e l) (ResourceLimitList true 0x4000000 Application)
       [Reserved Thread 40; Released Thread 1; Reserved Mutex 3]) = 39.
Proof.
  destruct (reservations_tracked [Reserved Thread 40; Released Thread 1; Reserved Mutex 3]
    (ResourceLimitList true 0x4000000 Application) Thread) as (H & _).
  - simpl. unfold in_s32. vm_compute. repeat split; congruence.
  - rewrite H. reflexivity.
Defined.

End Limit.
