(* ===== verification/Tls.v ===== *)
(** * Slots of thread local storage

    The part of [Process::AllocateThreadLocalStorage]
    (core/hle/kernel/process.cpp) that picks a slot, shared by the model of the
    process memory and by the creation of threads.  Each page of the area holds
    eight slots; [tls_slots] has one [std::bitset<8>] per page. *)
From S2P Require Import Prelude.

Module Tls.

Definition TLS_AREA_VADDR : Z := 0x1FF82000.
Definition TLS_ENTRY_SIZE : Z := 0x200.
Definition TLS_PAGE_SIZE : Z := 0x1000.
Definition slots_per_page : nat := 8.

(** [std::bitset<8>(0)] *)
Definition new_page : list bool := replicate slots_per_page false.

(** The first slot of a page that is not in use. *)
Fixpoint free_slot (page : list bool) : option nat :=
  match page with
  | [] => None
  | b :: page => if (b : bool) then S <$> free_slot page else Some 0%nat
  end.

(** The first page with a free slot. *)
Fixpoint find_slot (tls_slots : list (list bool)) (tls_page : nat) : option (nat * nat) :=
  match tls_slots with
  | [] => None
  | page :: pages =>
      if negb (forallb (fun b => b) page) then
        match free_slot page with
        | Some tls_slot => Some (tls_page, tls_slot)
        | None => find_slot pages (S tls_page)
        end
      else find_slot pages (S tls_page)
  end.

Definition mark (tls_page tls_slot : nat) (b : bool) (tls_slots : list (list bool)) : list (list bool) :=
  alter (<[tls_slot := b]>) tls_page tls_slots.

Definition address (tls_page tls_slot : nat) : Z :=
  u32 (TLS_AREA_VADDR + u32 (Z.of_nat tls_page * TLS_PAGE_SIZE) + u32 (Z.of_nat tls_slot * TLS_ENTRY_SIZE)).

(** The page and the slot [Thread::Stop] computes from an address. *)
Definition page_of (tls_address : Z) : Z := u32 (tls_address - TLS_AREA_VADDR) / TLS_PAGE_SIZE.
Definition slot_of (tls_address : Z) : Z := u32 (tls_address - TLS_AREA_VADDR) `mod` TLS_PAGE_SIZE / TLS_ENTRY_SIZE.

Definition used (tls_slots : list (list bool)) (tls_page tls_slot : nat) : Prop :=
  exists page, tls_slots !! tls_page = Some page /\ page !! tls_slot = Some true.

Definition full_pages (tls_slots : list (list bool)) : Prop :=
  forall page, page ∈ tls_slots -> length page = slots_per_page.

Lemma free_slot_some page j : free_slot page = Some j -> page !! j = Some false.
Proof.
  revert j. induction page as [|b page IH]; intros j; [done|]. simpl. destruct b; [|by intros [= <-]].
  destruct (free_slot page) as [i|]; [|done]. intros [= <-]. by apply IH.
Qed.

Lemma find_slot_some slots p : forall i j, find_slot slots p = Some (i, j) ->
  exists page, (p <= i)%nat /\ slots !! (i - p)%nat = Some page /\ page !! j = Some false.
Proof.
  revert p. induction slots as [|page slots IH]; intros p i j; [done|]. simpl.
  assert (find_slot slots (S p) = Some (i, j) -> exists page0, (p <= i)%nat /\
    (page :: slots) !! (i - p)%nat = Some page0 /\ page0 !! j = Some false) as Hrec.
  { intros (page0 & Hle & Hl & Hj)%IH. exists page0. split_and!; [lia| |done].
    replace (i - p)%nat with (S (i - S p)) by lia. done. }
  destruct (negb _); [|done]. destruct (free_slot page) as [s|] eqn:Hs; [|done].
  intros [= -> ->]. exists page. rewrite Nat.sub_diag. split_and!; [done|done|by apply free_slot_some].
Qed.

Lemma page_slot_address i j : Z.of_nat i < 2 ^ 16 -> (j < slots_per_page)%nat ->
  page_of (address i j) = Z.of_nat i /\ slot_of (address i j) = Z.of_nat j.
Proof.
  unfold page_of, slot_of, address, slots_per_page, TLS_AREA_VADDR, TLS_PAGE_SIZE, TLS_ENTRY_SIZE. intros Hi Hj.
  assert (u32 (u32 (0x1FF82000 + u32 (Z.of_nat i * 0x1000) + u32 (Z.of_nat j * 0x200)) - 0x1FF82000) =
    Z.of_nat i * 0x1000 + Z.of_nat j * 0x200) as -> by zdm.
  zdm.
Qed.

Lemma mark_used slots i j b i' j' page : slots !! i = Some page -> (j < length page)%nat ->
  used (mark i j b slots) i' j' <-> if decide (i' = i /\ j' = j) then b = true else used slots i' j'.
Proof.
  intros Hp Hj. unfold used, mark. setoid_rewrite list_lookup_alter.
  destruct (decide (i' = i)) as [->|Hne].
  - rewrite (decide_True (P := i = i)), Hp by done. simpl. destruct (decide (i = i /\ j' = j)) as [[_ ->]|Hn].
    + split; [intros (? & [= <-] & H)|intros ->; eexists; split; [done|]]; [|by apply list_lookup_insert_eq].
      rewrite list_lookup_insert_eq in H by done. by injection H.
    + split; intros (? & [= <-] & H); eexists; (split; [done|]); rewrite list_lookup_insert_ne in * by naive_solver; done.
  - rewrite (decide_False (P := i = i')) by done. destruct (decide _) as [[? _]|]; [done|]. done.
Qed.

End Tls.
