(* ===== verification/Kernel.v ===== *)
(** * Kernel state: threads and wait objects

    The shared heap of the kernel and the operations every kernel object uses:
    [Thread] (core/hle/kernel/thread.cpp) and [WaitObject] (wait_object.cpp) with
    the overrides of [Event], [Semaphore], [Mutex] and [Timer].  An object is
    named by its address; the sets of mutexes of a thread ([flat_set] of
    pointers) are kept in the order of the addresses.  Priorities are list
    indices ([nat]). *)
From stdpp Require Import strings pretty.
From S2P Require Import Prelude Results ThreadQueueList HandleTable CoreTiming ResourceLimit Tls.

Module Kern.
Import Res.

Definition ThreadPrioHighest : nat := 0.
Definition ThreadPrioLowest : nat := 63.
Definition ThreadProcessorIdMax : Z := 4.
Abbreviation TLS_AREA_VADDR := Tls.TLS_AREA_VADDR.
Abbreviation TLS_ENTRY_SIZE := Tls.TLS_ENTRY_SIZE.
Abbreviation TLS_PAGE_SIZE := Tls.TLS_PAGE_SIZE.

Inductive thread_status :=
| Running | Ready | WaitArb | WaitSleep | WaitIPC | WaitSynchAny | WaitSynchAll | WaitHleEvent
| Dormant | Dead.
#[global] Instance thread_status_eq_dec : EqDecision thread_status.
Proof. solve_decision. Defined.

Inductive wakeup_reason := Signal | Timeout.

(** [WakeupCallback]: [SVC_SyncCallback], [AddressArbiter::Callback] and all
    others (IPC and HLE requests). *)
Inductive wakeup_cb := CbSync (do_output : bool) | CbArb (arbiter : Z) | CbOther (n : Z).

(** [ThreadContext]; the floating-point registers are one value. *)
Record context := mk_context { cpu_registers : list Z; cpsr : Z; fpu : Z; fpscr : Z }.
Definition set_register (i : nat) (v : Z) (c : context) : context :=
  mk_context (<[i := v]> (cpu_registers c)) (cpsr c) (fpu c) (fpscr c).

Record thread := mk_thread {
  thread_id : Z; status : thread_status; core_id : nat; nominal_priority : nat;
  current_priority : nat; held_mutexes : list Z; pending_mutexes : list Z; wait_objects : list Z;
  wait_address : Z; wakeup_callback : option wakeup_cb; ctx : context; can_schedule : bool;
  last_running_ticks : Z; tls_address : Z; owner_process : option Z; processor_id : Z;
}.

Definition set_status (x : thread_status) (t : thread) : thread :=
  mk_thread (thread_id t) x (core_id t) (nominal_priority t) (current_priority t) (held_mutexes t) (pending_mutexes t) (wait_objects t) (wait_address t) (wakeup_callback t) (ctx t) (can_schedule t) (last_running_ticks t) (tls_address t) (owner_process t) (processor_id t).
Definition set_nominal_priority (x : nat) (t : thread) : thread :=
  mk_thread (thread_id t) (status t) (core_id t) x (current_priority t) (held_mutexes t) (pending_mutexes t) (wait_objects t) (wait_address t) (wakeup_callback t) (ctx t) (can_schedule t) (last_running_ticks t) (tls_address t) (owner_process t) (processor_id t).
Definition set_current_priority (x : nat) (t : thread) : thread :=
  mk_thread (thread_id t) (status t) (core_id t) (nominal_priority t) x (held_mutexes t) (pending_mutexes t) (wait_objects t) (wait_address t) (wakeup_callback t) (ctx t) (can_schedule t) (last_running_ticks t) (tls_address t) (owner_process t) (processor_id t).
Definition set_held_mutexes (x : list Z) (t : thread) : thread :=
  mk_thread (thread_id t) (status t) (core_id t) (nominal_priority t) (current_priority t) x (pending_mutexes t) (wait_objects t) (wait_address t) (wakeup_callback t) (ctx t) (can_schedule t) (last_running_ticks t) (tls_address t) (owner_process t) (processor_id t).
Definition set_pending_mutexes (x : list Z) (t : thread) : thread :=
  mk_thread (thread_id t) (status t) (core_id t) (nominal_priority t) (current_priority t) (held_mutexes t) x (wait_objects t) (wait_address t) (wakeup_callback t) (ctx t) (can_schedule t) (last_running_ticks t) (tls_address t) (owner_process t) (processor_id t).
Definition set_wait_objects (x : list Z) (t : thread) : thread :=
  mk_thread (thread_id t) (status t) (core_id t) (nominal_priority t) (current_priority t) (held_mutexes t) (pending_mutexes t) x (wait_address t) (wakeup_callback t) (ctx t) (can_schedule t) (last_running_ticks t) (tls_address t) (owner_process t) (processor_id t).
Definition set_wait_address (x : Z) (t : thread) : thread :=
  mk_thread (thread_id t) (status t) (core_id t) (nominal_priority t) (current_priority t) (held_mutexes t) (pending_mutexes t) (wait_objects t) x (wakeup_callback t) (ctx t) (can_schedule t) (last_running_ticks t) (tls_address t) (owner_process t) (processor_id t).
Definition set_wakeup_callback (x : option wakeup_cb) (t : thread) : thread :=
  mk_thread (thread_id t) (status t) (core_id t) (nominal_priority t) (current_priority t) (held_mutexes t) (pending_mutexes t) (wait_objects t) (wait_address t) x (ctx t) (can_schedule t) (last_running_ticks t) (tls_address t) (owner_process t) (processor_id t).
Definition set_ctx (x : context) (t : thread) : thread :=
  mk_thread (thread_id t) (status t) (core_id t) (nominal_priority t) (current_priority t) (held_mutexes t) (pending_mutexes t) (wait_objects t) (wait_address t) (wakeup_callback t) x (can_schedule t) (last_running_ticks t) (tls_address t) (owner_process t) (processor_id t).
Definition set_last_running_ticks (x : Z) (t : thread) : thread :=
  mk_thread (thread_id t) (status t) (core_id t) (nominal_priority t) (current_priority t) (held_mutexes t) (pending_mutexes t) (wait_objects t) (wait_address t) (wakeup_callback t) (ctx t) (can_schedule t) x (tls_address t) (owner_process t) (processor_id t).
Definition set_tls_address (x : Z) (t : thread) : thread :=
  mk_thread (thread_id t) (status t) (core_id t) (nominal_priority t) (current_priority t) (held_mutexes t) (pending_mutexes t) (wait_objects t) (wait_address t) (wakeup_callback t) (ctx t) (can_schedule t) (last_running_ticks t) x (owner_process t) (processor_id t).

(** [ResetType] *)
Inductive reset_type := OneShot | Sticky | Pulse.
#[global] Instance reset_type_eq_dec : EqDecision reset_type.
Proof. solve_decision. Defined.

(** The wait objects with their own state. *)
Inductive kind :=
| KEvent (reset : reset_type) (signaled : bool)
| KSemaphore (max_count available_count : Z)
| KMutex (lock_count : Z) (priority : nat) (holding_thread : option Z)
| KTimer (reset : reset_type) (initial_delay interval_delay : Z) (signaled : bool) (callback_id : Z)
| KThread.

Record wobj := mk_wobj { waiting_threads : list Z; kind_of : kind }.

(** [ThreadManager]; [cpu] is the register state of its CPU. *)
Record manager := mk_manager {
  current_thread : option Z; ready_queue : @Tql.tql Z; thread_list : list Z;
  wakeup_callback_table : gmap Z Z; cpu : context; cp15_uro : Z;
}.

Definition set_current (x : option Z) (m : manager) : manager :=
  mk_manager x (ready_queue m) (thread_list m) (wakeup_callback_table m) (cpu m) (cp15_uro m).
Definition set_ready (x : @Tql.tql Z) (m : manager) : manager :=
  mk_manager (current_thread m) x (thread_list m) (wakeup_callback_table m) (cpu m) (cp15_uro m).
Definition set_thread_list (x : list Z) (m : manager) : manager :=
  mk_manager (current_thread m) (ready_queue m) x (wakeup_callback_table m) (cpu m) (cp15_uro m).
Definition set_table (x : gmap Z Z) (m : manager) : manager :=
  mk_manager (current_thread m) (ready_queue m) (thread_list m) x (cpu m) (cp15_uro m).
Definition set_cpu (x : context) (uro : Z) (m : manager) : manager :=
  mk_manager (current_thread m) (ready_queue m) (thread_list m) (wakeup_callback_table m) x uro.

(** What the timing events of the kernel call. *)
Inductive ev_cb := EvThreadWakeup (core : nat) | EvTimer | EvOther (n : Z).

(** What a handle refers to: a wait object or thread, an address arbiter, a
    resource limit, a process, or an object outside this model. *)
Inductive obj_ref := RWait (o : Z) | RArbiter (a : Z) | RLimit (l : Z) | RProcess (p : Z) | ROther (n : Z).

(** The parts of [Process] that threads and system calls touch. *)
Record process := mk_process {
  process_id : Z; handle_table : Handle.table obj_ref; tls_slots : list (list bool);
  resource_limit : option Z; ideal_processor : Z; no_thread_restrictions : bool;
}.

Definition set_handle_table (x : Handle.table obj_ref) (p : process) : process :=
  mk_process (process_id p) x (tls_slots p) (resource_limit p) (ideal_processor p) (no_thread_restrictions p).
Definition set_tls_slots (x : list (list bool)) (p : process) : process :=
  mk_process (process_id p) (handle_table p) x (resource_limit p) (ideal_processor p) (no_thread_restrictions p).

(** [KernelSystem] *)
Record kern := mk_kern {
  threads : gmap Z thread; objects : gmap Z wobj; arbiters : gmap Z (list Z);
  managers : list manager; timing : Timing.timing ev_cb; processes : gmap Z process;
  limits : gmap Z Limit.t; timer_table : gmap Z Z; next_timer_callback_id : Z; next_thread_id : Z;
  current_process : option Z; stored_processes : list (option Z); current_cpu : nat;
  rescheduled : bool;
}.

Definition with_threads (x : gmap Z thread) (s : kern) : kern :=
  mk_kern x (objects s) (arbiters s) (managers s) (timing s) (processes s) (limits s) (timer_table s) (next_timer_callback_id s) (next_thread_id s) (current_process s) (stored_processes s) (current_cpu s) (rescheduled s).
Definition with_objects (x : gmap Z wobj) (s : kern) : kern :=
  mk_kern (threads s) x (arbiters s) (managers s) (timing s) (processes s) (limits s) (timer_table s) (next_timer_callback_id s) (next_thread_id s) (current_process s) (stored_processes s) (current_cpu s) (rescheduled s).
Definition with_arbiters (x : gmap Z (list Z)) (s : kern) : kern :=
  mk_kern (threads s) (objects s) x (managers s) (timing s) (processes s) (limits s) (timer_table s) (next_timer_callback_id s) (next_thread_id s) (current_process s) (stored_processes s) (current_cpu s) (rescheduled s).
Definition with_managers (x : list manager) (s : kern) : kern :=
  mk_kern (threads s) (objects s) (arbiters s) x (timing s) (processes s) (limits s) (timer_table s) (next_timer_callback_id s) (next_thread_id s) (current_process s) (stored_processes s) (current_cpu s) (rescheduled s).
Definition with_timing (x : Timing.timing ev_cb) (s : kern) : kern :=
  mk_kern (threads s) (objects s) (arbiters s) (managers s) x (processes s) (limits s) (timer_table s) (next_timer_callback_id s) (next_thread_id s) (current_process s) (stored_processes s) (current_cpu s) (rescheduled s).
Definition with_processes (x : gmap Z process) (s : kern) : kern :=
  mk_kern (threads s) (objects s) (arbiters s) (managers s) (timing s) x (limits s) (timer_table s) (next_timer_callback_id s) (next_thread_id s) (current_process s) (stored_processes s) (current_cpu s) (rescheduled s).
Definition with_limits (x : gmap Z Limit.t) (s : kern) : kern :=
  mk_kern (threads s) (objects s) (arbiters s) (managers s) (timing s) (processes s) x (timer_table s) (next_timer_callback_id s) (next_thread_id s) (current_process s) (stored_processes s) (current_cpu s) (rescheduled s).
Definition with_timers (tbl : gmap Z Z) (next : Z) (s : kern) : kern :=
  mk_kern (threads s) (objects s) (arbiters s) (managers s) (timing s) (processes s) (limits s) tbl next (next_thread_id s) (current_process s) (stored_processes s) (current_cpu s) (rescheduled s).
Definition with_next_thread_id (x : Z) (s : kern) : kern :=
  mk_kern (threads s) (objects s) (arbiters s) (managers s) (timing s) (processes s) (limits s) (timer_table s) (next_timer_callback_id s) x (current_process s) (stored_processes s) (current_cpu s) (rescheduled s).
Definition with_current_process (p : option Z) (stored : list (option Z)) (s : kern) : kern :=
  mk_kern (threads s) (objects s) (arbiters s) (managers s) (timing s) (processes s) (limits s) (timer_table s) (next_timer_callback_id s) (next_thread_id s) p stored (current_cpu s) (rescheduled s).
Definition PrepareReschedule (s : kern) : kern :=
  mk_kern (threads s) (objects s) (arbiters s) (managers s) (timing s) (processes s) (limits s) (timer_table s) (next_timer_callback_id s) (next_thread_id s) (current_process s) (stored_processes s) (current_cpu s) true.

(** Dereferencing. *)
Definition the_thread (t : Z) (s : kern) : outcome thread := of_opt FNullDeref (threads s !! t).
Definition the_object (o : Z) (s : kern) : outcome wobj := of_opt FNullDeref (objects s !! o).
Definition the_manager (c : nat) (s : kern) : outcome manager := of_opt FOutOfRange (managers s !! c).

Definition upd_thread (t : Z) (f : thread -> thread) (s : kern) : kern :=
  with_threads (alter f t (threads s)) s.
Definition the_process (p : Z) (s : kern) : outcome process := of_opt FNullDeref (processes s !! p).
Definition upd_process (p : Z) (f : process -> process) (s : kern) : kern :=
  with_processes (alter f p (processes s)) s.
Definition upd_limit (l : Z) (f : Limit.t -> Limit.t) (s : kern) : kern :=
  with_limits (alter f l (limits s)) s.
Definition upd_manager (c : nat) (f : manager -> manager) (s : kern) : kern :=
  with_managers (alter f c (managers s)) s.
Definition set_kind (o : Z) (k : kind) (s : kern) : kern :=
  with_objects (alter (fun w => mk_wobj (waiting_threads w) k) o (objects s)) s.
Definition set_waiting (o : Z) (l : list Z) (s : kern) : kern :=
  with_objects (alter (fun w => mk_wobj l (kind_of w)) o (objects s)) s.

(** A ready queue operation on a core. *)
Definition on_queue (c : nat) (f : @Tql.tql Z -> outcome (@Tql.tql Z)) (s : kern) : outcome kern :=
  m ← the_manager c s;
  q ← f (ready_queue m);
  Done (upd_manager c (set_ready q) s).

Definition ThreadWakeupEventType (core : nat) : string := ("ThreadWakeupCallback_" +:+ pretty core)%string.
Definition timer_callback_event_type : string := "TimerCallback".

(** Sets of mutexes: ascending lists without repetitions. *)
Fixpoint set_insert (x : Z) (l : list Z) : list Z :=
  match l with
  | [] => [x]
  | y :: l' => if x <? y then x :: l else if x =? y then l else y :: set_insert x l'
  end.
Definition set_erase (x : Z) (l : list Z) : list Z := filter (fun y => y ≠ x) l.

(** ** Priorities *)

Definition BoostPriority (t : Z) (priority : nat) (s : kern) : outcome kern :=
  th ← the_thread t s;
  s ← on_queue (core_id th)
        (fun q => if decide (status th = Ready) then Tql.move t (current_priority th) priority q
                  else Tql.prepare priority q) s;
  Done (upd_thread t (set_current_priority priority) s).

Definition SetPriority (t : Z) (priority : nat) (s : kern) : outcome kern :=
  _ ← assert_ ((priority <=? ThreadPrioLowest) && (ThreadPrioHighest <=? priority))%nat;
  th ← the_thread t s;
  s ← on_queue (core_id th)
        (fun q => if decide (status th = Ready) then Tql.move t (current_priority th) priority q
                  else Tql.prepare priority q) s;
  Done (upd_thread t (fun th => set_nominal_priority priority (set_current_priority priority th)) s).

Definition mutex_priority (s : kern) (m : Z) : outcome nat :=
  w ← the_object m s;
  match kind_of w with KMutex _ p _ => Done p | _ => Stop FNullDeref end.

(** The loop over [held_mutexes]. *)
Fixpoint best_priority (s : kern) (ms : list Z) (best : nat) : outcome nat :=
  match ms with
  | [] => Done best
  | m :: ms => p ← mutex_priority s m; best_priority s ms (if (p <? best)%nat then p else best)
  end.

(** [Thread::UpdatePriority] *)
Definition UpdatePriority (t : Z) (s : kern) : outcome kern :=
  th ← the_thread t s;
  best ← best_priority s (held_mutexes th) (nominal_priority th);
  BoostPriority t best s.

(** The best priority among the waiters of a mutex. *)
Fixpoint best_waiter (s : kern) (ts : list Z) (best : nat) : outcome nat :=
  match ts with
  | [] => Done best
  | t :: ts =>
      th ← the_thread t s;
      best_waiter s ts (if (current_priority th <? best)%nat then current_priority th else best)
  end.

(** [Mutex::UpdatePriority] *)
Definition Mutex_UpdatePriority (m : Z) (s : kern) : outcome kern :=
  w ← the_object m s;
  match kind_of w with
  | KMutex n p (Some holder) =>
      best ← best_waiter s (waiting_threads w) ThreadPrioLowest;
      if (best =? p)%nat then Done s
      else UpdatePriority holder (set_kind m (KMutex n best (Some holder)) s)
  | _ => Done s
  end.

(** ** Waiting lists *)

Definition is_mutex (k : kind) : bool := match k with KMutex _ _ _ => true | _ => false end.

(** [WaitObject::AddWaitingThread] and [RemoveWaitingThread]; a mutex overrides
    them. *)
Definition base_AddWaitingThread (o t : Z) (w : wobj) (s : kern) : kern :=
  if decide (t ∈ waiting_threads w) then s else set_waiting o (waiting_threads w ++ [t]) s.

Definition AddWaitingThread (o t : Z) (s : kern) : outcome kern :=
  w ← the_object o s;
  let s := base_AddWaitingThread o t w s in
  if is_mutex (kind_of w)
  then Mutex_UpdatePriority o
         (upd_thread t (fun th => set_pending_mutexes (set_insert o (pending_mutexes th)) th) s)
  else Done s.

(** Erase the first occurrence. *)
Fixpoint erase_first (t : Z) (l : list Z) : list Z :=
  match l with
  | [] => []
  | x :: l => if x =? t then l else x :: erase_first t l
  end.

Definition base_RemoveWaitingThread (o t : Z) (w : wobj) (s : kern) : kern :=
  set_waiting o (erase_first t (waiting_threads w)) s.

Definition RemoveWaitingThread (o t : Z) (s : kern) : outcome kern :=
  w ← the_object o s;
  let s := base_RemoveWaitingThread o t w s in
  if is_mutex (kind_of w)
  then Mutex_UpdatePriority o
         (upd_thread t (fun th => set_pending_mutexes (set_erase o (pending_mutexes th)) th) s)
  else Done s.

(** [ShouldWait] of each kind of object. *)
Definition Event_ShouldWait (signaled : bool) : bool := negb signaled.
Definition Semaphore_ShouldWait (available_count : Z) : bool := available_count <=? 0.
Definition Mutex_ShouldWait (lock_count : Z) (holding_thread : option Z) (t : Z) : bool :=
  (0 <? lock_count) && negb (bool_decide (holding_thread = Some t)).
Definition Timer_ShouldWait (signaled : bool) : bool := negb signaled.
Definition Thread_ShouldWait (th : thread) : bool := negb (bool_decide (status th = Dead)).

(** The virtual call; for a thread, [o] names it. *)
Definition ShouldWait (o t : Z) (s : kern) : outcome bool :=
  w ← the_object o s;
  match kind_of w with
  | KEvent _ signaled => Done (Event_ShouldWait signaled)
  | KSemaphore _ available => Done (Semaphore_ShouldWait available)
  | KMutex lock_count _ holder => Done (Mutex_ShouldWait lock_count holder t)
  | KTimer _ _ _ signaled _ => Done (Timer_ShouldWait signaled)
  | KThread => th ← the_thread o s; Done (Thread_ShouldWait th)
  end.

(** [Acquire] of each kind of object; [wait] is its [ShouldWait]. *)
Definition Event_Acquire (o : Z) (wait : bool) (r : reset_type) (signaled : bool) (s : kern) : outcome kern :=
  _ ← assert_ (negb wait);
  Done (if decide (r = OneShot) then set_kind o (KEvent r false) s else s).
Definition Semaphore_Acquire (o : Z) (wait : bool) (max available : Z) (s : kern) : outcome kern :=
  Done (if wait then s else set_kind o (KSemaphore max (available - 1)) s).
Definition Mutex_Acquire (o t : Z) (wait : bool) (lock_count : Z) (p : nat) (holder : option Z) (s : kern)
  : outcome kern :=
  _ ← assert_ (negb wait);
  if lock_count =? 0 then
    th ← the_thread t s;
    let s := set_kind o (KMutex 0 (current_priority th) holder) s in
    let s := upd_thread t (fun th => set_held_mutexes (set_insert o (held_mutexes th)) th) s in
    let s := set_kind o (KMutex 0 (current_priority th) (Some t)) s in
    s ← UpdatePriority t s;
    Done (set_kind o (KMutex 1 (current_priority th) (Some t)) (PrepareReschedule s))
  else Done (set_kind o (KMutex (lock_count + 1) p holder) s).
Definition Timer_Acquire (o : Z) (wait : bool) (r : reset_type) (i n : Z) (signaled : bool) (cb : Z) (s : kern)
  : outcome kern :=
  _ ← assert_ (negb wait);
  Done (if decide (r = OneShot) then set_kind o (KTimer r i n false cb) s else s).
Definition Thread_Acquire (wait : bool) (s : kern) : outcome kern := _ ← assert_ (negb wait); Done s.

Definition Acquire (o t : Z) (s : kern) : outcome kern :=
  w ← the_object o s;
  wait ← ShouldWait o t s;
  match kind_of w with
  | KEvent r signaled => Event_Acquire o wait r signaled s
  | KSemaphore max available => Semaphore_Acquire o wait max available s
  | KMutex lock_count p holder => Mutex_Acquire o t wait lock_count p holder s
  | KTimer r i n signaled cb => Timer_Acquire o wait r i n signaled cb s
  | KThread => Thread_Acquire wait s
  end.

(** ** Waking up *)

(** [UnscheduleEvent(ThreadWakeupEventType, thread_id)] *)
Definition cancel_wakeup (th : thread) (s : kern) : kern :=
  with_timing (Timing.UnscheduleEvent (ThreadWakeupEventType (core_id th)) (thread_id th) (timing s)) s.

Definition ResumeFromWait (t : Z) (s : kern) : outcome kern :=
  th ← the_thread t s;
  _ ← assert_ (bool_decide (wait_objects th = []));
  match status th with
  | Ready => _ ← assert_ (bool_decide (wakeup_callback th = None)); Done s
  | Running | Dead => Stop FAssert
  | _ =>
      let s := upd_thread t (set_wakeup_callback None) s in
      let s := cancel_wakeup th s in
      s ← on_queue (core_id th) (Tql.push_back (current_priority th) t) s;
      Done (PrepareReschedule (upd_thread t (set_status Ready) s))
  end.

Definition WakeAfterDelay (t : Z) (nanoseconds : Z) (thread_safe_mode : bool) (s : kern) : outcome kern :=
  if nanoseconds =? -1 then Done s
  else
    th ← the_thread t s;
    tm ← Timing.ScheduleEvent (nsToCycles nanoseconds) (ThreadWakeupEventType (core_id th))
           (thread_id th) (if thread_safe_mode then Some (core_id th) else None) thread_safe_mode
           (timing s);
    Done (with_timing tm s).

Definition SetWaitSynchronizationResult (t : Z) (r : result) (s : kern) : kern :=
  upd_thread t (fun th => set_ctx (set_register 0 r (ctx th)) th) s.
Definition SetWaitSynchronizationOutput (t : Z) (output : Z) (s : kern) : kern :=
  upd_thread t (fun th => set_ctx (set_register 1 (u32 output) (ctx th)) th) s.

(** The position of the last occurrence, -1 when there is none. *)
Fixpoint last_index (o : Z) (l : list Z) (i last : Z) : Z :=
  match l with
  | [] => last
  | x :: l => last_index o l (i + 1) (if x =? o then i else last)
  end.
Definition GetWaitObjectIndex (th : thread) (o : Z) : outcome Z :=
  _ ← assert_ (negb (bool_decide (wait_objects th = [])));
  Done (last_index o (wait_objects th) 0 (-1)).

(** [SVC_SyncCallback::WakeUp] *)
Definition SyncCallback_WakeUp (do_output : bool) (reason : wakeup_reason) (t : Z) (object : option Z) (s : kern)
  : outcome kern :=
  match reason with
  | Timeout => Done (SetWaitSynchronizationResult t ResultTimeout s)
  | Signal =>
      let s := SetWaitSynchronizationResult t ResultSuccess s in
      if do_output then
        th ← the_thread t s;
        i ← GetWaitObjectIndex th (default 0 object);
        Done (SetWaitSynchronizationOutput t i s)
      else Done s
  end.

(** [AddressArbiter::WakeUp] *)
Definition Arbiter_WakeUp (a : Z) (reason : wakeup_reason) (t : Z) (s : kern) : outcome kern :=
  match reason with
  | Timeout => Done (with_arbiters (alter (filter (fun x => x ≠ t)) a (arbiters s)) s)
  | Signal => Stop FAssert
  end.

Section Callbacks.
(** The wakeup callbacks of IPC and HLE requests. *)
Context (other_wakeup : Z -> wakeup_reason -> Z -> option Z -> kern -> outcome kern).

Definition WakeUp (cb : wakeup_cb) (reason : wakeup_reason) (t : Z) (object : option Z) (s : kern)
  : outcome kern :=
  match cb with
  | CbSync do_output => SyncCallback_WakeUp do_output reason t object s
  | CbArb a => Arbiter_WakeUp a reason t s
  | CbOther n => other_wakeup n reason t object s
  end.

Definition run_wakeup_callback (reason : wakeup_reason) (t : Z) (object : option Z) (s : kern)
  : outcome kern :=
  th ← the_thread t s;
  match wakeup_callback th with Some cb => WakeUp cb reason t object s | None => Done s end.

(** [std::none_of] over the wait objects. *)
Fixpoint all_available (os : list Z) (t : Z) (s : kern) : outcome bool :=
  match os with
  | [] => Done true
  | o :: os => wait ← ShouldWait o t s; if (wait : bool) then Done false else all_available os t s
  end.

Definition waiting_status (st : thread_status) : bool :=
  match st with WaitSynchAny | WaitSynchAll | WaitHleEvent => true | _ => false end.

(** The loop of [GetHighestPriorityReadyThread]. *)
Fixpoint best_ready (o : Z) (ts : list Z) (candidate : option Z) (candidate_priority : nat) (s : kern)
  : outcome (option Z) :=
  match ts with
  | [] => Done candidate
  | t :: ts =>
      th ← the_thread t s;
      _ ← assert_ (waiting_status (status th));
      if (candidate_priority <=? current_priority th)%nat then best_ready o ts candidate candidate_priority s
      else
        wait ← ShouldWait o t s;
        if (wait : bool) then best_ready o ts candidate candidate_priority s
        else
          ready ← (if decide (status th = WaitSynchAll) then all_available (wait_objects th) t s
                   else Done true);
          if (ready : bool) then best_ready o ts (Some t) (current_priority th) s
          else best_ready o ts candidate candidate_priority s
  end.

Definition GetHighestPriorityReadyThread (o : Z) (s : kern) : outcome (option Z) :=
  w ← the_object o s;
  best_ready o (waiting_threads w) None (S ThreadPrioLowest) s.

Fixpoint acquire_all (os : list Z) (t : Z) (s : kern) : outcome kern :=
  match os with [] => Done s | o :: os => s ← Acquire o t s; acquire_all os t s end.

Fixpoint remove_from_all (os : list Z) (t : Z) (s : kern) : outcome kern :=
  match os with [] => Done s | o :: os => s ← RemoveWaitingThread o t s; remove_from_all os t s end.

(** One round of the loop of [WakeupAllWaitingThreads]. *)
Definition wakeup_one (o t : Z) (s : kern) : outcome kern :=
  th ← the_thread t s;
  s ← (if decide (status th = WaitSynchAll) then acquire_all (wait_objects th) t s
       else Acquire o t s);
  s ← run_wakeup_callback Signal t (Some o) s;
  th ← the_thread t s;
  s ← remove_from_all (wait_objects th) t s;
  ResumeFromWait t (upd_thread t (set_wait_objects []) s).

Fixpoint wakeup_loop (fuel : nat) (o : Z) (s : kern) : outcome kern :=
  r ← GetHighestPriorityReadyThread o s;
  match r with
  | None => Done s
  | Some t =>
      match fuel with
      | O => Stop FFuel
      | S fuel => s ← wakeup_one o t s; wakeup_loop fuel o s
      end
  end.

(** [WaitObject::WakeupAllWaitingThreads]; every round takes a thread off the
    list.  [Event] and [Timer] clear a pulse afterwards. *)
Definition WakeupAllWaitingThreads (o : Z) (s : kern) : outcome kern :=
  w ← the_object o s;
  s ← wakeup_loop (length (waiting_threads w)) o s;
  w ← the_object o s;
  Done match kind_of w with
       | KEvent Pulse _ => set_kind o (KEvent Pulse false) s
       | KTimer Pulse i n _ cb => set_kind o (KTimer Pulse i n false cb) s
       | _ => s
       end.

End Callbacks.
End Kern.
