(* ===== verification/KernelFacts.v ===== *)
(** * Invariants of the kernel heap

    [q_ok]: the ready queue of a core holds exactly its ready threads, each at
    its current priority.  [d_ok]: every reference that priority inheritance
    follows exists.  [w_ok]: a thread is on the waiting list of exactly the
    objects it waits for.  [m_ok]: a mutex is locked exactly when a thread
    holds it.  Priorities and priority-inheritance bookkeeping are factored out
    by the equivalence [prio_eq]. *)
From stdpp Require Import strings.
From S2P Require Import Prelude Results ThreadQueueList CoreTiming ResourceLimit Kernel.

Module KF.
Import Kern.

(** ** Ready queues *)

Definition sched (th : thread) : nat * thread_status * nat :=
  (core_id th, status th, current_priority th).

(** [v] gives the scheduling state of each thread. *)
Record queue_ok (v : Z -> option (nat * thread_status * nat)) (c : nat) (q : @Tql.tql Z)
    (sp : @Tql.spec Z) : Prop := {
  qo_rep : Tql.rep q sp;
  qo_levels : length (Tql.tbl sp) = 64%nat;
  qo_nodup : forall p l, Tql.tbl sp !! p = Some l -> NoDup l;
  qo_exact : forall p l t, Tql.tbl sp !! p = Some l -> (t ∈ l <-> v t = Some (c, Ready, p));
  qo_prepared : forall t st p, v t = Some (c, st, p) -> p ∈ Tql.used sp;
}.

Definition sched_of (s : kern) (t : Z) : option (nat * thread_status * nat) := sched <$> threads s !! t.

Definition q_ok (s : kern) : Prop :=
  forall c m, managers s !! c = Some m -> exists sp, queue_ok (sched_of s) c (ready_queue m) sp.

(** ** Up to priorities *)

Definition bare_thread (th : thread) : thread := set_pending_mutexes [] (set_current_priority 0 th).
Definition bare_kind (k : kind) : kind := match k with KMutex n _ h => KMutex n 0 h | _ => k end.
Definition bare_obj (w : wobj) : wobj := mk_wobj (waiting_threads w) (bare_kind (kind_of w)).
Definition bare_manager (m : manager) : manager := set_ready (Tql.init 0) m.

Record prio_eq (s s' : kern) : Prop := {
  pe_threads : bare_thread <$> threads s' = bare_thread <$> threads s;
  pe_objects : bare_obj <$> objects s' = bare_obj <$> objects s;
  pe_managers : bare_manager <$> managers s' = bare_manager <$> managers s;
  pe_arbiters : arbiters s' = arbiters s;
  pe_timing : timing s' = timing s;
  pe_processes : processes s' = processes s;
  pe_limits : limits s' = limits s;
  pe_timers : timer_table s' = timer_table s;
  pe_cpu : current_cpu s' = current_cpu s;
}.

#[global] Instance prio_eq_equiv : Equivalence prio_eq.
Proof.
  split.
  - intros s. by split.
  - intros s1 s2 []. by split.
  - intros s1 s2 s3 [] []. by split; etrans.
Qed.

(** ** References *)

Record d_ok (s : kern) : Prop := {
  d_waiting : forall o w t, objects s !! o = Some w -> t ∈ waiting_threads w -> is_Some (threads s !! t);
  d_held : forall t th m, threads s !! t = Some th -> m ∈ held_mutexes th ->
    exists w n p h, objects s !! m = Some w /\ kind_of w = KMutex n p h;
  d_holder : forall m w n p h, objects s !! m = Some w -> kind_of w = KMutex n p (Some h) ->
    is_Some (threads s !! h);
  d_thread : forall t th, threads s !! t = Some th ->
    (nominal_priority th < 64)%nat /\ (core_id th < length (managers s))%nat;
}.

Lemma fmap_lookup_eq {A B} (f : A -> B) (m m' : gmap Z A) i x : f <$> m' = f <$> m ->
  m !! i = Some x -> exists x', m' !! i = Some x' /\ f x' = f x.
Proof.
  intros H Hx. assert ((f <$> m') !! i = Some (f x)) as Hf by (rewrite H, lookup_fmap, Hx; done).
  rewrite lookup_fmap in Hf. destruct (m' !! i); naive_solver.
Qed.

Lemma pe_thread s s' t th : prio_eq s s' -> threads s !! t = Some th ->
  exists th', threads s' !! t = Some th' /\ bare_thread th' = bare_thread th.
Proof. intros [H _ _ _ _ _ _ _]. apply fmap_lookup_eq, H. Qed.

Lemma pe_object s s' o w : prio_eq s s' -> objects s !! o = Some w ->
  exists w', objects s' !! o = Some w' /\ bare_obj w' = bare_obj w.
Proof. intros [_ H _ _ _ _ _ _]. apply fmap_lookup_eq, H. Qed.

(** Fields that [prio_eq] keeps. *)
Lemma bare_fields th th' : bare_thread th' = bare_thread th ->
  thread_id th' = thread_id th /\ status th' = status th /\ core_id th' = core_id th /\
  nominal_priority th' = nominal_priority th /\ held_mutexes th' = held_mutexes th /\
  wait_objects th' = wait_objects th /\ wakeup_callback th' = wakeup_callback th.
Proof. destruct th, th'. unfold bare_thread. simpl. intros H. injection H; intros; subst. by split_and!. Qed.

Lemma bare_waiting w w' : bare_obj w' = bare_obj w -> waiting_threads w' = waiting_threads w.
Proof. intros H. by injection H. Qed.

Lemma bare_mutex w w' n p h : bare_obj w' = bare_obj w -> kind_of w = KMutex n p h ->
  exists p', kind_of w' = KMutex n p' h.
Proof.
  intros H Hk. injection H as _ Hk'. rewrite Hk in Hk'. destruct (kind_of w'); simpl in Hk'; try done.
  injection Hk' as -> ->. eauto.
Qed.

Lemma d_ok_prio s s' : prio_eq s s' -> d_ok s -> d_ok s'.
Proof.
  intros Heq [H1 H2 H3 H4]. assert (prio_eq s' s) as Heq' by done. split.
  - intros o w t Hw Ht. destruct (pe_object _ _ _ _ Heq' Hw) as (w0 & Hw0 & Hb).
    apply bare_waiting in Hb. rewrite <- Hb in Ht.
    destruct (H1 _ _ _ Hw0 Ht) as [th Hth]. destruct (pe_thread _ _ _ _ Heq Hth) as (? & ? & _). eauto.
  - intros t th m Hth Hm. destruct (pe_thread _ _ _ _ Heq' Hth) as (th0 & Hth0 & Hb).
    apply bare_fields in Hb as (_ & _ & _ & _ & Hh & _). rewrite <- Hh in Hm.
    destruct (H2 _ _ _ Hth0 Hm) as (w0 & n & p & h & Hw0 & Hk).
    destruct (pe_object _ _ _ _ Heq Hw0) as (w & Hw & Hb). destruct (bare_mutex _ _ _ _ _ Hb Hk). eauto 6.
  - intros m w n p h Hw Hk. destruct (pe_object _ _ _ _ Heq' Hw) as (w0 & Hw0 & Hb).
    destruct (bare_mutex _ _ _ _ _ Hb Hk) as (p0 & Hk0).
    destruct (H3 _ _ _ _ _ Hw0 Hk0) as [th Hth]. destruct (pe_thread _ _ _ _ Heq Hth) as (? & ? & _). eauto.
  - intros t th Hth. destruct (pe_thread _ _ _ _ Heq' Hth) as (th0 & Hth0 & Hb).
    apply bare_fields in Hb as (_ & _ & Hc & Hn & _).
    destruct (H4 _ _ Hth0). pose proof (f_equal length (pe_managers _ _ Heq)) as Hl.
    rewrite !length_fmap in Hl. rewrite Hl. by rewrite <- Hc, <- Hn.
Qed.

(** ** Queue operations and the scheduling view *)

(** The view with another state for thread [t]. *)
Definition upd_view (v : Z -> option (nat * thread_status * nat)) (t : Z)
    (x : nat * thread_status * nat) (t' : Z) : option (nat * thread_status * nat) :=
  if decide (t' = t) then Some x else v t'.

Lemma upd_view_same v t x : upd_view v t x t = Some x.
Proof. unfold upd_view. by rewrite decide_True. Qed.
Lemma upd_view_other v t x t' : t' ≠ t -> upd_view v t x t' = v t'.
Proof. intros. unfold upd_view. by rewrite decide_False. Qed.

Lemma queue_ok_ext v v' c q sp : (forall t, v' t = v t) -> queue_ok v c q sp -> queue_ok v' c q sp.
Proof.
  intros Hv [H1 H2 H3 H4 H5]. split; try done.
  - intros p l t Hl. rewrite Hv. by apply H4.
  - intros t st p. rewrite Hv. apply H5.
Qed.

Lemma queue_level v c q sp p : queue_ok v c q sp -> (p < 64)%nat -> exists l, Tql.tbl sp !! p = Some l.
Proof. intros Hq Hp. apply in_range_lookup. by rewrite (qo_levels _ _ _ _ Hq). Qed.

Lemma queue_prepared v c q sp t st p : queue_ok v c q sp -> v t = Some (c, st, p) ->
  p ∈ Tql.used sp /\ (p < 64)%nat.
Proof.
  intros Hq Ht. pose proof (qo_prepared _ _ _ _ Hq _ _ _ Ht) as Hp. split; [done|].
  rewrite <- (qo_levels _ _ _ _ Hq). apply (Tql.rep_used_range q); [apply (qo_rep _ _ _ _ Hq) | done].
Qed.

Lemma prepare_ok v c q sp p : queue_ok v c q sp -> (p < 64)%nat ->
  exists q' sp', Tql.prepare p q = Done q' /\ queue_ok v c q' sp' /\ p ∈ Tql.used sp'.
Proof.
  intros Hq Hp. destruct (Tql.prepare_refines q sp p) as (q' & Hp' & Hrep).
  - apply Hq. - by rewrite (qo_levels _ _ _ _ Hq).
  - exists q', (Tql.mk_spec (Tql.tbl sp) ({[p]} ∪ Tql.used sp)). split; [done|].
    destruct Hq as [H1 H2 H3 H4 H5]. split; [|set_solver]. split; simpl; try done.
    intros t st p' Ht. specialize (H5 _ _ _ Ht). set_solver.
Qed.

(** A thread that is not ready changes its state without entering the queue. *)
Lemma queue_stay v c q sp t c0 st p x : queue_ok v c q sp -> v t = Some (c0, st, p) -> st ≠ Ready ->
  x.1.1 = c0 -> x.1.2 ≠ Ready -> (c0 = c -> x.2 ∈ Tql.used sp) -> queue_ok (upd_view v t x) c q sp.
Proof.
  intros [H1 H2 H3 H4 H5] Ht Hst Hc Hx Hp. destruct x as [[c1 st1] p1]. simpl in *. subst c1.
  split; try done.
  - intros p' l t' Hl. rewrite (H4 _ _ _ Hl). unfold upd_view. case_decide; [|done]. subst t'.
    rewrite Ht. naive_solver.
  - intros t' st' p'. unfold upd_view. case_decide; [|apply H5]. intros [= -> -> ->]. auto.
Qed.

Lemma alter_lookup {A} (f : A -> A) p (l : list A) j y : alter f p l !! j = Some y ->
  (p = j /\ exists x, l !! p = Some x /\ y = f x) \/ (p ≠ j /\ l !! j = Some y).
Proof.
  rewrite list_lookup_alter. destruct (decide (p = j)) as [->|]; [|by right].
  intros (x & Hx & ->)%fmap_Some. left. eauto.
Qed.

Lemma queue_remove v c q sp t st p x : queue_ok v c q sp -> v t = Some (c, st, p) -> 
  x.1.1 = c -> x.1.2 ≠ Ready -> x.2 ∈ Tql.used sp ->
  exists q' sp', Tql.remove p t q = Done q' /\ queue_ok (upd_view v t x) c q' sp' /\
    Tql.used sp' = Tql.used sp.
Proof.
  intros Hq Ht Hc Hx Hu. destruct (queue_prepared _ _ _ _ _ _ _ Hq Ht) as [_ Hp].
  destruct Hq as [H1 H2 H3 H4 H5]. destruct x as [[c1 st1] p1]. simpl in *. subst c1.
  destruct (Tql.remove_refines q sp p t H1) as (q' & Hr & Hrep); [by rewrite H2|].
  exists q', (Tql.mk_spec (alter (filter (.≠ t)) p (Tql.tbl sp)) (Tql.used sp)).
  split; [done|]. split; [|done]. split; simpl; [done | by rewrite length_alter | | |].
  - intros p' l [(-> & l0 & Hl & ->)|(Hne & Hl)]%alter_lookup; [|by eapply H3].
    apply NoDup_filter. by eapply H3.
  - intros p' l t' [(<- & l0 & Hl & ->)|(Hne & Hl)]%alter_lookup.
    + rewrite list_elem_of_filter, (H4 _ _ _ Hl). unfold upd_view. case_decide; naive_solver.
    + rewrite (H4 _ _ _ Hl). unfold upd_view. case_decide; [|done]. subst t'. naive_solver.
  - intros t' st' p'. unfold upd_view. case_decide; [|apply H5]. by intros [= <- <-].
Qed.

Lemma queue_push (front : bool) v c q sp t st0 p0 p : queue_ok v c q sp -> v t = Some (c, st0, p0) ->
  st0 ≠ Ready -> p ∈ Tql.used sp ->
  exists q' sp', (if front then Tql.push_front p t q else Tql.push_back p t q) = Done q' /\
    queue_ok (upd_view v t (c, Ready, p)) c q' sp' /\ Tql.used sp' = Tql.used sp.
Proof.
  intros [H1 H2 H3 H4 H5] Ht Hst Hp.
  set (f := fun l => if front then t :: l else l ++ [t]).
  assert (exists q', (if front then Tql.push_front p t q else Tql.push_back p t q) = Done q' /\
    Tql.rep q' (Tql.mk_spec (alter f p (Tql.tbl sp)) (Tql.used sp))) as (q' & Hq' & Hrep).
  { destruct front.
    - destruct (Tql.step_refines q sp (Tql.PushFront p t) None
        (Tql.mk_spec (alter (cons t) p (Tql.tbl sp)) (Tql.used sp)) H1) as (q' & Hs & Hrep).
      { simpl. unfold Tql.only. by rewrite decide_True. }
      simpl in Hs. apply outcome_bind_done in Hs as (q1 & Hm & [= ->]). eauto.
    - by apply Tql.push_back_refines. }
  exists q', (Tql.mk_spec (alter f p (Tql.tbl sp)) (Tql.used sp)).
  split; [done|]. split; [|done]. split; simpl; [done | by rewrite length_alter | | |].
  - intros p' l [(-> & l0 & Hl & ->)|(Hne & Hl)]%alter_lookup; [|by eapply H3].
    assert (t ∉ l0) as Hnin by (rewrite (H4 _ _ _ Hl); naive_solver).
    specialize (H3 _ _ Hl). unfold f. destruct front; [by constructor|].
    apply NoDup_app. split_and!; [done | set_solver | apply NoDup_singleton].
  - intros p' l t' [(<- & l0 & Hl & ->)|(Hne & Hl)]%alter_lookup.
    + assert (t' ∈ f l0 <-> t' = t \/ t' ∈ l0) as -> by (unfold f; destruct front; set_solver).
      rewrite (H4 _ _ _ Hl). unfold upd_view. case_decide; naive_solver.
    + rewrite (H4 _ _ _ Hl). unfold upd_view. case_decide; [|done]. subst t'. naive_solver.
  - intros t' st' p'. unfold upd_view. case_decide; [|apply H5]. by intros [= <- <-].
Qed.

Lemma upd_view_twice v t x y t' : upd_view (upd_view v t x) t y t' = upd_view v t y t'.
Proof. unfold upd_view. by case_decide. Qed.

Lemma queue_move v c q sp t p p' : queue_ok v c q sp -> v t = Some (c, Ready, p) -> (p' < 64)%nat ->
  exists q' sp', Tql.move t p p' q = Done q' /\ queue_ok (upd_view v t (c, Ready, p')) c q' sp' /\
    p' ∈ Tql.used sp'.
Proof.
  intros Hq Ht Hp'. pose proof (queue_prepared _ _ _ _ _ _ _ Hq Ht) as [Hu Hp].
  destruct (queue_remove v c q sp t Ready p (c, Dormant, p)) as (q1 & sp1 & H1 & Hq1 & Hu1); try done.
  destruct (prepare_ok _ _ _ _ p' Hq1 Hp') as (q2 & sp2 & H2 & Hq2 & Hu2).
  destruct (queue_push false _ c q2 sp2 t Dormant p p' Hq2) as (q3 & sp3 & H3 & Hq3 & Hu3); try done.
  { apply upd_view_same. }
  exists q3, sp3. split.
  - unfold Tql.move. rewrite H1. simpl. rewrite H2. simpl. by rewrite H3.
  - split; [|by rewrite Hu3]. eapply queue_ok_ext; [|done]. intros t'. by rewrite upd_view_twice.
Qed.

Lemma queue_other_core v c c' q sp t st p x : queue_ok v c' q sp -> v t = Some (c, st, p) ->
  x.1.1 = c -> c ≠ c' -> queue_ok (upd_view v t x) c' q sp.
Proof.
  intros [H1 H2 H3 H4 H5] Ht Hx Hne. destruct x as [[c1 st1] p1]. simpl in *. subst c1. split; try done.
  - intros p' l t' Hl. rewrite (H4 _ _ _ Hl). unfold upd_view. case_decide; [|done]. subst t'.
    rewrite Ht. naive_solver.
  - intros t' st' p'. unfold upd_view. case_decide; [|apply H5]. intros [= -> _ _]. done.
Qed.

(** A step that changes the scheduling state of one thread and the queue of its
    core. *)
Lemma q_ok_step s s' t th x q' sp' : q_ok s -> threads s !! t = Some th -> x.1.1 = core_id th ->
  (forall c m', managers s' !! c = Some m' ->
     if decide (c = core_id th) then ready_queue m' = q'
     else exists m, managers s !! c = Some m /\ ready_queue m' = ready_queue m) ->
  (forall t', sched_of s' t' = upd_view (sched_of s) t x t') ->
  queue_ok (upd_view (sched_of s) t x) (core_id th) q' sp' -> q_ok s'.
Proof.
  intros Hq Ht Hx Hm Hv Hnew c m' Hm'. specialize (Hm c m' Hm').
  destruct (decide (c = core_id th)) as [->|Hne].
  - exists sp'. rewrite Hm. by eapply queue_ok_ext.
  - destruct Hm as (m & Hms & ->). destruct (Hq c m Hms) as (sp & Hsp). exists sp.
    eapply queue_ok_ext; [done|]. eapply queue_other_core; [done | | done | done].
    unfold sched_of. by rewrite Ht.
Qed.

(** The same for a thread that is not ready, before and after. *)
Lemma q_ok_idle s s' t th x : q_ok s -> threads s !! t = Some th -> status th ≠ Ready ->
  x.1.1 = core_id th -> x.1.2 ≠ Ready -> x.2 = current_priority th ->
  (forall c m', managers s' !! c = Some m' ->
     exists m, managers s !! c = Some m /\ ready_queue m' = ready_queue m) ->
  (forall t', sched_of s' t' = upd_view (sched_of s) t x t') -> q_ok s'.
Proof.
  intros Hq Ht Hst Hx Hx2 Hx3 Hm Hv c m' Hm'. destruct (Hm c m' Hm') as (m & Hms & ->).
  destruct (Hq c m Hms) as (sp & Hsp). exists sp. eapply queue_ok_ext; [done|].
  assert (sched_of s t = Some (core_id th, status th, current_priority th)) as Hs
    by (unfold sched_of; by rewrite Ht).
  eapply queue_stay; try done. intros Hc. rewrite Hx3. subst c. by eapply qo_prepared.
Qed.

Lemma q_ok_same s s' : q_ok s ->
  (forall c m', managers s' !! c = Some m' ->
     exists m, managers s !! c = Some m /\ ready_queue m' = ready_queue m) ->
  (forall t', sched_of s' t' = sched_of s t') -> q_ok s'.
Proof.
  intros Hq Hm Hv c m' Hm'. destruct (Hm c m' Hm') as (m & Hms & ->).
  destruct (Hq c m Hms) as (sp & Hsp). exists sp. by eapply queue_ok_ext.
Qed.

(** ** Updates *)

Lemma threads_upd t f s t' : threads (upd_thread t f s) !! t' =
  if decide (t' = t) then f <$> threads s !! t else threads s !! t'.
Proof.
  unfold upd_thread. simpl. case_decide; subst; [apply lookup_alter_eq | by apply lookup_alter_ne].
Qed.

Lemma sched_upd t f s th : threads s !! t = Some th ->
  forall t', sched_of (upd_thread t f s) t' = upd_view (sched_of s) t (sched (f th)) t'.
Proof.
  intros Ht t'. unfold sched_of, upd_view. rewrite threads_upd. case_decide; [|done]. by rewrite Ht.
Qed.

Lemma manager_of s t th : d_ok s -> threads s !! t = Some th ->
  exists m, managers s !! core_id th = Some m.
Proof. intros Hd Ht. apply in_range_lookup. by apply (d_thread _ Hd t th). Qed.

Lemma on_queue_ok c f s m q' : managers s !! c = Some m -> f (ready_queue m) = Done q' ->
  on_queue c f s = Done (upd_manager c (set_ready q') s).
Proof. intros Hm Hf. unfold on_queue, the_manager. rewrite Hm. simpl. by rewrite Hf. Qed.

Lemma managers_upd c q' s m c' m' : managers s !! c = Some m ->
  managers (upd_manager c (set_ready q') s) !! c' = Some m' ->
  if decide (c' = c) then ready_queue m' = q'
  else exists m, managers s !! c' = Some m /\ ready_queue m' = ready_queue m.
Proof.
  intros Hm [(<- & m0 & Hm0 & ->)|(Hne & Hl)]%alter_lookup; [by rewrite decide_True|].
  rewrite decide_False by done. eauto.
Qed.

Lemma bare_upd_manager c q' s : bare_manager <$> managers (upd_manager c (set_ready q') s) =
  bare_manager <$> managers s.
Proof.
  unfold upd_manager. simpl. apply list_eq. intros i. rewrite !list_lookup_fmap, list_lookup_alter.
  case_decide; [|done]. subst. by destruct (managers s !! i).
Qed.

Lemma bare_upd_thread t f s : (forall th, bare_thread (f th) = bare_thread th) ->
  bare_thread <$> threads (upd_thread t f s) = bare_thread <$> threads s.
Proof.
  intros Hf. apply map_eq. intros i. rewrite !lookup_fmap, threads_upd. case_decide; [|done]. subst.
  destruct (threads s !! t); simpl; [by rewrite Hf|done].
Qed.

(** ** Priority inheritance *)

Lemma requeue_ok s t th p : d_ok s -> q_ok s -> threads s !! t = Some th -> (p < 64)%nat ->
  exists q' sp', on_queue (core_id th)
      (fun q => if decide (status th = Ready) then Tql.move t (current_priority th) p q
                else Tql.prepare p q) s = Done (upd_manager (core_id th) (set_ready q') s) /\
    queue_ok (upd_view (sched_of s) t (core_id th, status th, p)) (core_id th) q' sp'.
Proof.
  intros Hd Hq Ht Hp. destruct (manager_of _ _ _ Hd Ht) as (m & Hm). destruct (Hq _ _ Hm) as (sp & Hsp).
  assert (sched_of s t = Some (core_id th, status th, current_priority th)) as Hs
    by (unfold sched_of; by rewrite Ht).
  destruct (decide (status th = Ready)) as [Hr|Hr].
  - rewrite Hr in Hs |- *.
    destruct (queue_move _ _ _ _ _ _ p Hsp Hs Hp) as (q' & sp' & Hmv & Hq' & _).
    exists q', sp'. split; [by eapply on_queue_ok|done].
  - destruct (prepare_ok _ _ _ _ p Hsp Hp) as (q' & sp' & Hpr & Hq' & Hu).
    exists q', sp'. split; [by eapply on_queue_ok|]. by eapply queue_stay.
Qed.

Lemma BoostPriority_ok s t th p : d_ok s -> q_ok s -> threads s !! t = Some th -> (p < 64)%nat ->
  exists s', BoostPriority t p s = Done s' /\ q_ok s' /\ prio_eq s s' /\
    threads s' = alter (set_current_priority p) t (threads s) /\ objects s' = objects s.
Proof.
  intros Hd Hq Ht Hp. unfold BoostPriority, the_thread. rewrite Ht. cbn [of_opt mbind outcome_bind].
  destruct (requeue_ok s t th p Hd Hq Ht Hp) as (q' & sp' & -> & Hq'). cbn [mbind outcome_bind].
  destruct (manager_of _ _ _ Hd Ht) as (m & Hm).
  eexists. split; [done|]. split_and!; [| |done|done].
  - eapply (q_ok_step s _ t th (core_id th, status th, p)); try done.
    + intros c m' Hm'. by eapply managers_upd.
    + intros t'. rewrite (sched_upd t _ (upd_manager _ _ s) th) by done. done.
  - split; try done; [by apply (bare_upd_thread t _ (upd_manager _ _ s)) | apply bare_upd_manager].
Qed.

Lemma best_priority_ok s ms : (forall m, m ∈ ms -> exists w n p h, objects s !! m = Some w /\
    kind_of w = KMutex n p h) ->
  forall best, exists p, best_priority s ms best = Done p /\ (p <= best)%nat.
Proof.
  induction ms as [|m ms IH]; intros Hms best; [by exists best|]. simpl.
  destruct (Hms m ltac:(set_solver)) as (w & n & p & h & Hw & Hk).
  unfold mutex_priority, the_object. rewrite Hw. cbn [of_opt mbind outcome_bind]. rewrite Hk.
  cbn [mbind outcome_bind].
  destruct (IH ltac:(set_solver) (if (p <? best)%nat then p else best)) as (p' & Hp' & Hle).
  exists p'. split; [done|]. destruct (Nat.ltb_spec p best); lia.
Qed.

Lemma UpdatePriority_ok s t th : d_ok s -> q_ok s -> threads s !! t = Some th ->
  exists s', UpdatePriority t s = Done s' /\ q_ok s' /\ prio_eq s s' /\ objects s' = objects s.
Proof.
  intros Hd Hq Ht. unfold UpdatePriority, the_thread. rewrite Ht. cbn [of_opt mbind outcome_bind].
  destruct (best_priority_ok s (held_mutexes th)) with (best := nominal_priority th) as (p & -> & Hp).
  { intros m. by apply (d_held _ Hd t th). }
  cbn [mbind outcome_bind]. destruct (d_thread _ Hd _ _ Ht).
  destruct (BoostPriority_ok s t th p Hd Hq Ht) as (s' & -> & ? & ? & _ & ?); [lia|]. eauto 6.
Qed.

Lemma best_waiter_ok s ts : (forall t, t ∈ ts -> is_Some (threads s !! t)) ->
  forall best, exists p, best_waiter s ts best = Done p /\ (p <= best)%nat.
Proof.
  induction ts as [|t ts IH]; intros Hts best; [by exists best|]. simpl.
  destruct (Hts t ltac:(set_solver)) as (th & Hth). unfold the_thread. rewrite Hth.
  cbn [of_opt mbind outcome_bind].
  destruct (IH ltac:(set_solver) (if (current_priority th <? best)%nat then current_priority th else best))
    as (p' & Hp' & Hle).
  exists p'. split; [done|]. destruct (Nat.ltb_spec (current_priority th) best); lia.
Qed.

Lemma objects_kind o k s o' : objects (set_kind o k s) !! o' =
  if decide (o' = o) then (fun w => mk_wobj (waiting_threads w) k) <$> objects s !! o else objects s !! o'.
Proof.
  unfold set_kind. simpl. case_decide; subst; [apply lookup_alter_eq | by apply lookup_alter_ne].
Qed.

Lemma objects_waiting o l s o' : objects (set_waiting o l s) !! o' =
  if decide (o' = o) then (fun w => mk_wobj l (kind_of w)) <$> objects s !! o else objects s !! o'.
Proof.
  unfold set_waiting. simpl. case_decide; subst; [apply lookup_alter_eq | by apply lookup_alter_ne].
Qed.

Lemma prio_eq_kind o w k s : objects s !! o = Some w -> bare_kind k = bare_kind (kind_of w) ->
  prio_eq s (set_kind o k s).
Proof.
  intros Hw Hk. split; try done. apply map_eq. intros i. rewrite !lookup_fmap, objects_kind.
  case_decide; [|done]. subst. rewrite Hw. simpl. unfold bare_obj. simpl. by rewrite Hk.
Qed.

Lemma prio_eq_thread t f s : (forall th, bare_thread (f th) = bare_thread th) ->
  prio_eq s (upd_thread t f s).
Proof. intros Hf. split; try done. by apply bare_upd_thread. Qed.

Lemma q_ok_objects s x : q_ok s -> q_ok (with_objects x s).
Proof. intros Hq. eapply q_ok_same; [done| |done]. eauto. Qed.

Lemma q_ok_thread t f s : q_ok s -> (forall th, sched (f th) = sched th) -> q_ok (upd_thread t f s).
Proof.
  intros Hq Hf. eapply q_ok_same; [done| |]; [eauto|]. intros t'. unfold sched_of.
  rewrite threads_upd. case_decide; [|done]. subst. destruct (threads s !! t); simpl; [by rewrite Hf|done].
Qed.

Lemma Mutex_UpdatePriority_ok s m w : d_ok s -> q_ok s -> objects s !! m = Some w ->
  exists s', Mutex_UpdatePriority m s = Done s' /\ q_ok s' /\ prio_eq s s'.
Proof.
  intros Hd Hq Hw. unfold Mutex_UpdatePriority, the_object. rewrite Hw. cbn [of_opt mbind outcome_bind].
  destruct (kind_of w) as [| |n p [holder|]| |] eqn:Hk; try by exists s.
  destruct (best_waiter_ok s (waiting_threads w)) with (best := ThreadPrioLowest) as (best & -> & Hle).
  { intros t. by apply (d_waiting _ Hd m). }
  cbn [mbind outcome_bind]. destruct (best =? p)%nat; [by exists s|].
  assert (prio_eq s (set_kind m (KMutex n best (Some holder)) s)) as He
    by (eapply prio_eq_kind; [done|by rewrite Hk]).
  destruct (d_holder _ Hd _ _ _ _ _ Hw Hk) as (th & Hth).
  destruct (UpdatePriority_ok (set_kind m (KMutex n best (Some holder)) s) holder th) as (s' & -> & Hq' & He' & _);
    [by eapply d_ok_prio | by apply q_ok_objects | done |].
  exists s'. split_and!; [done | done | by etrans].
Qed.

Lemma d_ok_waiting s o w l : d_ok s -> objects s !! o = Some w ->
  (forall t, t ∈ l -> is_Some (threads s !! t)) -> d_ok (set_waiting o l s).
Proof.
  intros [H1 H2 H3 H4] Hw Hl. split.
  - intros o' w' t. rewrite objects_waiting. case_decide; [|apply H1]. subst. rewrite Hw.
    intros [= <-]. apply Hl.
  - intros t th m Ht Hm. destruct (H2 _ _ _ Ht Hm) as (w' & n & p & h & Hw' & Hk).
    destruct (decide (m = o)) as [->|].
    + exists (mk_wobj l (kind_of w')), n, p, h. by rewrite objects_waiting, decide_True, Hw'.
    + exists w', n, p, h. by rewrite objects_waiting, decide_False.
  - intros m w' n p h. rewrite objects_waiting. case_decide; [|apply H3]. subst. rewrite Hw.
    intros [= <-]. simpl. by apply (H3 o w).
  - done.
Qed.

Lemma wait_change_ok s o w l t g : d_ok s -> q_ok s -> objects s !! o = Some w ->
  (forall t, t ∈ l -> is_Some (threads s !! t)) ->
  exists s', (if is_mutex (kind_of w)
     then Mutex_UpdatePriority o
            (upd_thread t (fun th => set_pending_mutexes (g (pending_mutexes th)) th) (set_waiting o l s))
     else Done (set_waiting o l s)) = Done s' /\ q_ok s' /\ prio_eq (set_waiting o l s) s'.
Proof.
  intros Hd Hq Hw Hl. pose proof (d_ok_waiting s o w l Hd Hw Hl) as Hd1.
  assert (q_ok (set_waiting o l s)) as Hq1 by by apply q_ok_objects.
  destruct (is_mutex (kind_of w)); [|by exists (set_waiting o l s)].
  set (s1 := upd_thread t _ _).
  assert (prio_eq (set_waiting o l s) s1) as He by by apply prio_eq_thread.
  destruct (Mutex_UpdatePriority_ok s1 o (mk_wobj l (kind_of w))) as (s' & -> & Hq' & He').
  - by eapply d_ok_prio.
  - by apply q_ok_thread.
  - change (objects (set_waiting o l s) !! o = Some (mk_wobj l (kind_of w))).
    by rewrite objects_waiting, decide_True, Hw.
  - exists s'. split_and!; [done | done | by etrans].
Qed.

Lemma RemoveWaitingThread_ok s o w t : d_ok s -> q_ok s -> objects s !! o = Some w ->
  exists s', RemoveWaitingThread o t s = Done s' /\ q_ok s' /\
    prio_eq (set_waiting o (erase_first t (waiting_threads w)) s) s'.
Proof.
  intros Hd Hq Hw. unfold RemoveWaitingThread, base_RemoveWaitingThread, the_object. rewrite Hw. cbn [of_opt mbind outcome_bind].
  apply wait_change_ok; try done. intros t' Ht'. apply (d_waiting _ Hd o w); [done|].
  revert Ht'. generalize (waiting_threads w). intros l. induction l as [|x l IH]; simpl; [done|].
  destruct (x =? t); set_solver.
Qed.

Lemma AddWaitingThread_ok s o w t : d_ok s -> q_ok s -> objects s !! o = Some w ->
  is_Some (threads s !! t) ->
  exists s', AddWaitingThread o t s = Done s' /\ q_ok s' /\
    prio_eq (set_waiting o (if decide (t ∈ waiting_threads w) then waiting_threads w
                            else waiting_threads w ++ [t]) s) s'.
Proof.
  intros Hd Hq Hw Ht. unfold AddWaitingThread, base_AddWaitingThread, the_object. rewrite Hw. cbn [of_opt mbind outcome_bind].
  assert (s = set_waiting o (waiting_threads w) s) as Hs.
  { unfold set_waiting, with_objects. destruct s. simpl in *. f_equal. symmetry. apply map_eq. intros i.
    destruct (decide (i = o)) as [->|]; [|by rewrite lookup_alter_ne].
    rewrite lookup_alter_eq, Hw. by destruct w. }
  pose proof (d_waiting _ Hd o w) as Hdw.
  destruct (decide (t ∈ waiting_threads w)).
  - pose proof (wait_change_ok s o w (waiting_threads w) t (set_insert o) Hd Hq Hw) as H.
    rewrite <- Hs in H. rewrite <- Hs. apply H. auto.
  - apply (wait_change_ok s o w (waiting_threads w ++ [t]) t (set_insert o)); try done.
    intros t' [Ht' | ->%list_elem_of_singleton]%elem_of_app; auto.
Qed.

(** ** Waiting and locking, as views *)

Definition wfields (th : thread) :=
  (thread_id th, status th, core_id th, nominal_priority th, wait_objects th, wakeup_callback th,
   tls_address th, owner_process th).
(** What never changes about an object. *)
Definition shape (k : kind) : kind :=
  match k with
  | KEvent r _ => KEvent r false
  | KSemaphore max _ => KSemaphore max 0
  | KMutex _ _ _ => KMutex 0 0 None
  | KTimer r _ _ _ cb => KTimer r 0 0 false cb
  | KThread => KThread
  end.
Definition ofields (w : wobj) := (waiting_threads w, shape (kind_of w)).
(** The timers of the cores. *)
Definition clocks (s : kern) := (Timing.current_timer (timing s), length (Timing.timers (timing s))).
Definition pfields (p : process) := (length (tls_slots p), resource_limit p).
Definition lock_of (w : wobj) : kind := bare_kind (kind_of w).

Record same_waits (s s' : kern) : Prop := {
  sw_threads : wfields <$> threads s' = wfields <$> threads s;
  sw_objects : ofields <$> objects s' = ofields <$> objects s;
  sw_current : current_thread <$> managers s' = current_thread <$> managers s;
  sw_procs : pfields <$> processes s' = pfields <$> processes s;
  sw_clocks : clocks s' = clocks s;
  sw_arbiters : arbiters s' = arbiters s;
}.
Record same_locks (s s' : kern) : Prop := {
  sl_threads : held_mutexes <$> threads s' = held_mutexes <$> threads s;
  sl_objects : lock_of <$> objects s' = lock_of <$> objects s;
}.

#[global] Instance same_waits_equiv : Equivalence same_waits.
Proof.
  split; [by intros s | by intros s1 s2 [] | intros s1 s2 s3 [] []; by split; etrans].
Qed.
#[global] Instance same_locks_equiv : Equivalence same_locks.
Proof.
  split; [by intros s | by intros s1 s2 [] | intros s1 s2 s3 [] []; by split; etrans].
Qed.

Lemma sw_cores s s' : same_waits s s' -> length (managers s') = length (managers s).
Proof. intros [_ _ H _ _ _]. pose proof (f_equal length H) as Hl. by rewrite !length_fmap in Hl. Qed.

Lemma fmap_coarser {A B C} (f : A -> B) (g : A -> C) (h : B -> C) (m m' : gmap Z A) :
  (forall x, g x = h (f x)) -> f <$> m' = f <$> m -> g <$> m' = g <$> m.
Proof.
  intros Hh H. assert (forall m : gmap Z A, g <$> m = h <$> (f <$> m)) as Hg.
  { intros m0. rewrite <- map_fmap_compose. apply map_fmap_ext. intros. apply Hh. }
  by rewrite (Hg m'), (Hg m), H.
Qed.

Lemma prio_waits s s' : prio_eq s s' -> same_waits s s'.
Proof.
  intros [H1 H2 H3 H4 H5 H6 _ _ _]. split; [| | | | |done].
  - by apply (fmap_coarser bare_thread wfields wfields).
  - apply (fmap_coarser bare_obj ofields ofields); [|done]. intros [l []]; done.
  - assert (forall l, current_thread <$> l = current_thread <$> (bare_manager <$> l)) as Hc
      by (intros l; by rewrite <- list_fmap_compose).
    by rewrite (Hc (managers s')), (Hc (managers s)), H3.
  - by rewrite H6.
  - unfold clocks. by rewrite H5.
Qed.

Lemma prio_locks s s' : prio_eq s s' -> same_locks s s'.
Proof.
  intros [H1 H2 H3 _ _ _ _ _ _]. split.
  - by apply (fmap_coarser bare_thread held_mutexes held_mutexes).
  - apply (fmap_coarser bare_obj lock_of lock_of); [|done]. intros [l []]; done.
Qed.

(** ** The invariants *)

Section Invariants.
(** While a thread is being stopped it is exempt from two of them. *)
Context (x : option Z).

(** Everything about waiting except that a thread is on the list of each object
    it waits for. *)
Record wb_ok (s : kern) : Prop := {
  w_to : forall o w t, objects s !! o = Some w -> t ∈ waiting_threads w ->
    exists th, threads s !! t = Some th /\ o ∈ wait_objects th;
  w_nodup : forall o w, objects s !! o = Some w -> NoDup (waiting_threads w);
  w_exists : forall t th o, threads s !! t = Some th -> o ∈ wait_objects th -> is_Some (objects s !! o);
  w_status : forall t th, threads s !! t = Some th -> x ≠ Some t -> wait_objects th ≠ [] ->
    waiting_status (status th) = true /\ (forall a, wakeup_callback th ≠ Some (CbArb a));
  w_all : forall t th, threads s !! t = Some th -> status th = WaitSynchAll -> NoDup (wait_objects th);
  w_thread : forall o w, objects s !! o = Some w -> kind_of w = KThread -> is_Some (threads s !! o);
}.

Definition w_from (s : kern) : Prop := forall t th o, threads s !! t = Some th -> o ∈ wait_objects th ->
  exists w, objects s !! o = Some w /\ t ∈ waiting_threads w.

Record m_ok (s : kern) : Prop := {
  m_held : forall t th m, threads s !! t = Some th -> m ∈ held_mutexes th ->
    exists w n p h, objects s !! m = Some w /\ kind_of w = KMutex n p h /\
      (x ≠ Some t -> h = Some t /\ 0 < n);
  m_holder : forall m w n p t, objects s !! m = Some w -> kind_of w = KMutex n p (Some t) ->
    0 < n /\ exists th, threads s !! t = Some th /\ m ∈ held_mutexes th;
  m_free : forall m w n p, objects s !! m = Some w -> kind_of w = KMutex n p None -> n = 0;
  m_sorted : forall t th, threads s !! t = Some th -> StronglySorted Z.lt (held_mutexes th);
}.

Definition t_ok (s : kern) : Prop := forall t th, threads s !! t = Some th ->
  (nominal_priority th < 64)%nat /\ (core_id th < length (managers s))%nat.

Lemma d_of s : wb_ok s -> m_ok s -> t_ok s -> d_ok s.
Proof.
  intros Hw Hm Ht. split.
  - intros o w t Ho Hin. destruct (w_to _ Hw _ _ _ Ho Hin) as (th & ? & _). eauto.
  - intros t th m Hth Hin. destruct (m_held _ Hm _ _ _ Hth Hin) as (w & n & p & h & ? & ? & _). eauto 6.
  - intros m w n p h Ho Hk. destruct (m_holder _ Hm _ _ _ _ _ Ho Hk) as (_ & th & ? & _). eauto.
  - done.
Qed.

Lemma sw_thread s s' t th : same_waits s s' -> threads s !! t = Some th ->
  exists th', threads s' !! t = Some th' /\ wfields th' = wfields th.
Proof. intros [H _ _ _ _]. apply fmap_lookup_eq, H. Qed.
Lemma sw_object s s' o w : same_waits s s' -> objects s !! o = Some w ->
  exists w', objects s' !! o = Some w' /\ ofields w' = ofields w.
Proof. intros [_ H _ _ _]. apply fmap_lookup_eq, H. Qed.

Lemma wb_ok_same s s' : same_waits s s' -> wb_ok s -> wb_ok s'.
Proof.
  intros Heq [H1 H2 H3 H4 H5 H6]. assert (same_waits s' s) as Heq' by done. split.
  - intros o w t Hw Ht. destruct (sw_object _ _ _ _ Heq' Hw) as (w0 & Hw0 & [= Hb _]).
    rewrite <- Hb in Ht. destruct (H1 _ _ _ Hw0 Ht) as (th0 & Hth0 & Ho).
    destruct (sw_thread _ _ _ _ Heq Hth0) as (th & Hth & [= _ _ _ _ Hwo _ _ _]). exists th. by rewrite Hwo.
  - intros o w Hw. destruct (sw_object _ _ _ _ Heq' Hw) as (w0 & Hw0 & [= Hb _]). rewrite <- Hb. eauto.
  - intros t th o Hth Ho. destruct (sw_thread _ _ _ _ Heq' Hth) as (th0 & Hth0 & [= _ _ _ _ Hwo _ _ _]).
    rewrite <- Hwo in Ho. destruct (H3 _ _ _ Hth0 Ho) as (w & Hw).
    destruct (sw_object _ _ _ _ Heq Hw) as (w' & ? & _). eauto.
  - intros t th Hth. destruct (sw_thread _ _ _ _ Heq' Hth) as (th0 & Hth0 & [= _ Hst _ _ Hwo Hcb _ _]).
    rewrite <- Hst, <- Hwo, <- Hcb. eauto.
  - intros t th Hth. destruct (sw_thread _ _ _ _ Heq' Hth) as (th0 & Hth0 & [= _ Hst _ _ Hwo Hcb _ _]).
    rewrite <- Hst, <- Hwo. eauto.
  - intros o w Hw Hk. destruct (sw_object _ _ _ _ Heq' Hw) as (w0 & Hw0 & [= _ Hb]).
    rewrite Hk in Hb. destruct (H6 o w0 Hw0) as (th & Hth); [by destruct (kind_of w0)|].
    destruct (sw_thread _ _ _ _ Heq Hth) as (? & ? & _). eauto.
Qed.

Lemma w_from_same s s' : same_waits s s' -> w_from s -> w_from s'.
Proof.
  intros Heq H t th o Hth Ho. assert (same_waits s' s) as Heq' by done.
  destruct (sw_thread _ _ _ _ Heq' Hth) as (th0 & Hth0 & [= _ _ _ _ Hwo _ _ _]). rewrite <- Hwo in Ho.
  destruct (H _ _ _ Hth0 Ho) as (w & Hw & Hin). destruct (sw_object _ _ _ _ Heq Hw) as (w' & Hw' & [= Hb _]).
  exists w'. by rewrite Hb.
Qed.

Lemma t_ok_same s s' : same_waits s s' -> t_ok s -> t_ok s'.
Proof.
  intros Heq H t th Hth. assert (same_waits s' s) as Heq' by done.
  destruct (sw_thread _ _ _ _ Heq' Hth) as (th0 & Hth0 & [= _ _ Hc Hn _ _ _ _]).
  rewrite <- Hc, <- Hn, (sw_cores _ _ Heq). eauto.
Qed.

Lemma m_ok_same s s' : same_locks s s' -> m_ok s -> m_ok s'.
Proof.
  intros [Ht Ho] [H1 H2 H3 H4].
  assert (forall o w', objects s' !! o = Some w' -> exists w, objects s !! o = Some w /\ lock_of w' = lock_of w) as Hobj.
  { intros o w' Hw'. destruct (fmap_lookup_eq lock_of (objects s') (objects s) o w' (eq_sym Ho) Hw') as (w & ? & ?). eauto. }
  assert (forall w w' n p h, lock_of w' = lock_of w -> kind_of w' = KMutex n p h -> exists p', kind_of w = KMutex n p' h) as Hk.
  { unfold lock_of. intros w w' n p h Hl Hk. rewrite Hk in Hl. destruct (kind_of w); simpl in Hl; try done.
    injection Hl as <- <-. eauto. }
  split.
  - intros t th' m Hth' Hm.
    destruct (fmap_lookup_eq held_mutexes (threads s') (threads s) t th' (eq_sym Ht) Hth') as (th & Hth & Hh).
    rewrite <- Hh in Hm. destruct (H1 _ _ _ Hth Hm) as (w & n & p & h & Hw & Hkw & Hn).
    destruct (fmap_lookup_eq lock_of _ _ m w Ho Hw) as (w' & Hw' & Hl).
    destruct (Hk w' w _ _ _ (eq_sym Hl) Hkw) as (p' & Hk'). by exists w', n, p', h.
  - intros m w' n p t Hw' Hk'. destruct (Hobj _ _ Hw') as (w & Hw & Hl). destruct (Hk _ _ _ _ _ Hl Hk') as (p' & Hkw).
    destruct (H2 _ _ _ _ _ Hw Hkw) as (Hn & th & Hth & Hin). split; [done|].
    destruct (fmap_lookup_eq held_mutexes _ _ t th Ht Hth) as (th' & Hth' & Hh). exists th'. by rewrite Hh.
  - intros m w' n p Hw' Hk'. destruct (Hobj _ _ Hw') as (w & Hw & Hl). destruct (Hk _ _ _ _ _ Hl Hk') as (p' & Hkw). eauto.
  - intros t th' Hth'.
    destruct (fmap_lookup_eq held_mutexes (threads s') (threads s) t th' (eq_sym Ht) Hth') as (th & Hth & <-). eauto.
Qed.

End Invariants.

#[global] Arguments w_to {x} s _.
#[global] Arguments w_nodup {x} s _.
#[global] Arguments w_exists {x} s _.
#[global] Arguments w_status {x} s _.
#[global] Arguments w_all {x} s _.
#[global] Arguments w_thread {x} s _.
#[global] Arguments m_held {x} s _.
#[global] Arguments m_holder {x} s _.
#[global] Arguments m_free {x} s _.
#[global] Arguments m_sorted {x} s _.

End KF.
