(* ===== verification/KernelWakeup.v ===== *)
(** * Acquiring objects and waking up threads

    [Acquire] succeeds for a thread that need not wait, and
    [WakeupAllWaitingThreads] ends with no waiting thread left that could run,
    keeping all invariants of the kernel heap. *)
From stdpp Require Import strings.
From S2P Require Import Prelude Results ThreadQueueList CoreTiming ResourceLimit Kernel KernelFacts.

Module KW.
Import Kern KF.

Lemma elem_set_insert x y l : y ∈ set_insert x l <-> y = x \/ y ∈ l.
Proof.
  induction l as [|z l IH]; simpl; [set_solver|].
  destruct (Z.ltb_spec x z); [set_solver|]. destruct (Z.eqb_spec x z); set_solver.
Qed.

Section Exempt.
(** The thread being stopped, if any. *)
Context (ex : option Z).
Abbreviation wb_ok := (wb_ok ex).
Abbreviation m_ok := (m_ok ex).

(** All invariants but [w_from]. *)
Record base_ok (s : kern) : Prop := {
  b_q : q_ok s; b_w : wb_ok s; b_m : m_ok s; b_t : t_ok s;
}.
Record wf (s : kern) : Prop := { wf_base : base_ok s; wf_from : w_from s }.

Lemma b_d s : base_ok s -> d_ok s.
Proof. intros []. by apply (d_of ex). Qed.

Lemma base_prio s s' : prio_eq s s' -> q_ok s' -> base_ok s -> base_ok s'.
Proof.
  intros He Hq []. split; [done | by eapply wb_ok_same; [apply prio_waits|] |
    by eapply m_ok_same; [apply prio_locks|] | by eapply t_ok_same; [apply prio_waits|]].
Qed.

(** ** Acquiring *)

Definition lock_at (s : kern) (o : Z) : option kind := lock_of <$> objects s !! o.

(** Thread [h] has the same mutexes locked. *)
Record keeps_locks (h : Z) (s s' : kern) : Prop := {
  kl_locks : forall o n, 0 < n ->
    lock_at s o = Some (KMutex n 0 (Some h)) <-> lock_at s' o = Some (KMutex n 0 (Some h));
  kl_held : held_mutexes <$> threads s' !! h = held_mutexes <$> threads s !! h;
}.
#[global] Instance keeps_locks_refl h : Reflexive (keeps_locks h).
Proof. by intros s. Qed.
#[global] Instance keeps_locks_trans h : Transitive (keeps_locks h).
Proof.
  intros s1 s2 s3 [H1 E1] [H2 E2]. split; [|by rewrite E2].
  intros o n Hn. rewrite (H1 o n Hn). by apply H2.
Qed.

Lemma keeps_same h s s' : same_locks s s' -> keeps_locks h s s'.
Proof.
  intros [Ht H]. split; [|by rewrite <- !lookup_fmap, Ht].
  intros o n _. pose proof (f_equal (fun m => m !! o) H) as Ho. simpl in Ho. rewrite !lookup_fmap in Ho.
  unfold lock_at. by rewrite Ho.
Qed.

Lemma ShouldWait_locked o t h n s : lock_at s o = Some (KMutex n 0 (Some h)) -> 0 < n -> h ≠ t ->
  ShouldWait o t s = Done true.
Proof.
  unfold lock_at, ShouldWait, Mutex_ShouldWait, the_object. destruct (objects s !! o) as [w|]; [|done]. simpl.
  intros [= Hl] Hn Hne. unfold lock_of in Hl. destruct (kind_of w); simpl in Hl; try done.
  injection Hl as -> ->. destruct (Z.ltb_spec 0 n); [|lia]. simpl. rewrite bool_decide_false; [done|]. by intros [= ->].
Qed.

Lemma ShouldWait_same s s' o t : lock_at s' o = lock_at s o -> same_waits s s' ->
  ShouldWait o t s' = ShouldWait o t s.
Proof.
  intros Hl Hs. unfold ShouldWait, Mutex_ShouldWait, Thread_ShouldWait, the_object, lock_at in *.
  destruct (objects s !! o) as [w|], (objects s' !! o) as [w'|]; try done. cbn [of_opt mbind outcome_bind].
  simpl in Hl. injection Hl as Hl. unfold lock_of in Hl.
  destruct (kind_of w) eqn:Hk, (kind_of w') eqn:Hk'; simpl in Hl; simplify_eq; try done.
  unfold the_thread. destruct (threads s !! o) as [th|] eqn:Ht.
  - destruct (sw_thread _ _ _ _ Hs Ht) as (th' & -> & [= _ Hst _ _ _ _ _ _]). cbn. by rewrite Hst.
  - destruct (threads s' !! o) as [th'|] eqn:Ht'; [|done].
    assert (same_waits s' s) as Hs' by done. destruct (sw_thread _ _ _ _ Hs' Ht') as (? & ? & _). congruence.
Qed.

Lemma sw_kind o w k s : objects s !! o = Some w -> shape k = shape (kind_of w) ->
  same_waits s (set_kind o k s).
Proof.
  intros Hw Hk. split; try done. apply map_eq. intros i. rewrite !lookup_fmap, objects_kind.
  case_decide; [|done]. subst. rewrite Hw. simpl. unfold ofields. simpl. by rewrite Hk.
Qed.

Lemma sw_upd t f s : (forall th, wfields (f th) = wfields th) -> same_waits s (upd_thread t f s).
Proof.
  intros Hf. split; try done. apply map_eq. intros i. rewrite !lookup_fmap, threads_upd.
  case_decide; [|done]. subst. destruct (threads s !! t); simpl; [by rewrite Hf|done].
Qed.

Lemma lock_kind o k s o' : o' ≠ o -> lock_at (set_kind o k s) o' = lock_at s o'.
Proof. intros Hne. unfold lock_at. rewrite objects_kind. by rewrite decide_False. Qed.

(** What [Acquire] may change. *)
Record acquired (o t : Z) (s s' : kern) : Prop := {
  a_base : base_ok s';
  a_waits : same_waits s s';
  a_other : forall o', o' ≠ o -> lock_at s' o' = lock_at s o';
  a_self : forall n h, lock_at s' o = Some (KMutex n 0 (Some h)) -> h = t;
  a_held : forall h, h ≠ t -> held_mutexes <$> threads s' !! h = held_mutexes <$> threads s !! h;
}.

Lemma lock_prio s s' o : prio_eq s s' -> lock_at s' o = lock_at s o.
Proof.
  intros He. pose proof (f_equal (fun m => m !! o) (sl_objects _ _ (prio_locks _ _ He))) as H.
  simpl in H. rewrite !lookup_fmap in H. done.
Qed.

Lemma m_ok_kind s o w k : m_ok s -> objects s !! o = Some w ->
  is_mutex (kind_of w) = false -> is_mutex k = false -> m_ok (set_kind o k s).
Proof.
  intros [H1 H2 H3 H4] Hw Hk Hk'. split; [| | |exact H4].
  - intros t th m Hth Hm. destruct (H1 _ _ _ Hth Hm) as (w' & n & p & h & Hw' & Hkw & Hn).
    exists w', n, p, h. rewrite objects_kind, decide_False; [done|]. intros ->. simplify_eq. by rewrite Hkw in Hk.
  - intros m w' n p t. rewrite objects_kind. case_decide; [|apply H2]. subst. rewrite Hw.
    intros [= <-]. simpl. intros ->. done.
  - intros m w' n p. rewrite objects_kind. case_decide; [|apply H3]. subst. rewrite Hw.
    intros [= <-]. simpl. intros ->. done.
Qed.

Lemma acquired_kind s o t w k : base_ok s -> objects s !! o = Some w ->
  is_mutex (kind_of w) = false -> is_mutex k = false ->
  shape k = shape (kind_of w) -> acquired o t s (set_kind o k s).
Proof.
  intros [Hq Hw Hm Ht] Ho Hk Hk' Hkt. pose proof (sw_kind o w k s Ho Hkt) as Hs. split; [split|done| | |done].
  - by apply q_ok_objects.
  - by eapply wb_ok_same.
  - by eapply m_ok_kind.
  - by eapply t_ok_same.
  - intros o' Hne. by apply lock_kind.
  - intros n h. unfold lock_at. rewrite objects_kind, decide_True, Ho by done. simpl. unfold lock_of. by destruct k.
Qed.

Lemma acquired_refl s o t w : base_ok s -> objects s !! o = Some w -> is_mutex (kind_of w) = false ->
  acquired o t s s.
Proof.
  intros Hb Ho Hk. split; [done|done|done| |done]. intros n h. unfold lock_at. rewrite Ho. simpl. unfold lock_of.
  by destruct (kind_of w).
Qed.

Lemma set_insert_sorted x l : StronglySorted Z.lt l -> StronglySorted Z.lt (set_insert x l).
Proof.
  induction 1 as [|y l Hl IH Hy]; simpl; [by repeat constructor|].
  destruct (Z.ltb_spec x y).
  - constructor; [by constructor|]. constructor; [done|]. eapply Forall_impl; [exact Hy|]. simpl. lia.
  - destruct (Z.eqb_spec x y); [by constructor|]. constructor; [done|].
    apply Forall_forall. intros z [->|Hz]%elem_set_insert; [lia|]. by apply (proj1 (Forall_forall _ _) Hy).
Qed.

Lemma sorted_nodup l : StronglySorted Z.lt l -> NoDup l.
Proof.
  induction 1 as [|y l Hl IH Hy]; constructor; [|done]. intros Hin.
  pose proof (proj1 (Forall_forall _ _) Hy y Hin). lia.
Qed.

Definition hold (o : Z) (th : thread) : thread := set_held_mutexes (set_insert o (held_mutexes th)) th.

Lemma m_ok_lock s o w p q h t th : m_ok s -> objects s !! o = Some w -> kind_of w = KMutex 0 q h ->
  threads s !! t = Some th -> m_ok (set_kind o (KMutex 1 p (Some t)) (upd_thread t (hold o) s)).
Proof.
  intros [H1 H2 H3 H4] Ho Hk Hth. split.
  - intros t' th' m. change (threads (set_kind o (KMutex 1 p (Some t)) (upd_thread t (hold o) s)))
      with (threads (upd_thread t (hold o) s)). rewrite threads_upd, objects_kind. intros Ht' Hm.
    change (objects (upd_thread t (hold o) s)) with (objects s).
    destruct (decide (m = o)) as [->|Hne].
    + rewrite Ho. simpl. eexists _, 1, p, (Some t). split; [done|]. split; [done|]. intros Hx.
      destruct (decide (t' = t)) as [->|Hne]; [done|].
      destruct (H1 _ _ _ Ht' Hm) as (w' & n & p' & h' & Hw' & Hk' & Hn). rewrite Ho in Hw'. injection Hw' as <-.
      rewrite Hk in Hk'. injection Hk' as <- <- <-. destruct (Hn Hx). lia.
    + destruct (decide (t' = t)) as [->|]; [|eauto]. rewrite Hth in Ht'. injection Ht' as <-.
      simpl in Hm. apply elem_set_insert in Hm as [->|Hm]; [done|]. eauto.
  - intros m w' n p' t' Hw' Hk'. rewrite objects_kind in Hw'.
    change (threads (set_kind o (KMutex 1 p (Some t)) (upd_thread t (hold o) s)))
      with (threads (upd_thread t (hold o) s)). rewrite threads_upd.
    change (objects (upd_thread t (hold o) s)) with (objects s) in Hw'.
    destruct (decide (m = o)) as [->|Hne].
    + rewrite Ho in Hw'. injection Hw' as <-. simpl in Hk'. injection Hk' as <- <- <-.
      split; [lia|]. exists (hold o th). rewrite decide_True, Hth by done. split; [done|].
      apply elem_set_insert. by left.
    + destruct (H2 _ _ _ _ _ Hw' Hk') as (Hn & th' & Hth' & Hm). split; [done|].
      destruct (decide (t' = t)) as [->|]; [|eauto]. rewrite Hth'. eexists. split; [done|].
      apply elem_set_insert. by right.
  - intros m w' n p' Hw' Hk'. rewrite objects_kind in Hw'.
    change (objects (upd_thread t (hold o) s)) with (objects s) in Hw'.
    destruct (decide (m = o)) as [->|Hne]; [|eauto]. rewrite Ho in Hw'. injection Hw' as <-. done.
  - intros t' th'. change (threads (set_kind o (KMutex 1 p (Some t)) (upd_thread t (hold o) s)))
      with (threads (upd_thread t (hold o) s)). rewrite threads_upd. case_decide; [|apply H4]. subst.
    intros (th0 & Hth0 & ->)%fmap_Some. apply set_insert_sorted. eauto.
Qed.

Lemma objects_kind_kind o k k' s : objects (set_kind o k (set_kind o k' s)) = objects (set_kind o k s).
Proof.
  apply map_eq. intros i. rewrite !objects_kind. case_decide; [|done].
  rewrite decide_True by done. by destruct (objects s !! o).
Qed.

Lemma d_ok_lock s o w p t th : d_ok s -> objects s !! o = Some w -> is_mutex (kind_of w) = true ->
  threads s !! t = Some th -> d_ok (set_kind o (KMutex 0 p (Some t)) (upd_thread t (hold o) s)).
Proof.
  intros [H1 H2 H3 H4] Ho Hk Hth.
  assert (forall t', is_Some (threads s !! t') -> is_Some (threads (upd_thread t (hold o) s) !! t')) as Hsome.
  { intros t' [x Hx]. rewrite threads_upd. case_decide; subst; rewrite ?Hx; eauto. }
  split; change (threads (set_kind o (KMutex 0 p (Some t)) (upd_thread t (hold o) s)))
      with (threads (upd_thread t (hold o) s)).
  - intros o' w' t'. rewrite objects_kind. change (objects (upd_thread t (hold o) s)) with (objects s).
    intros Hw' Ht'. apply Hsome. destruct (decide (o' = o)) as [->|]; [|eauto].
    rewrite Ho in Hw'. injection Hw' as <-. eauto.
  - intros t' th' m Hth' Hm. rewrite objects_kind. change (objects (upd_thread t (hold o) s)) with (objects s).
    destruct (decide (m = o)) as [->|Hne]; [rewrite Ho; by eexists _, 0, p, (Some t)|].
    rewrite threads_upd in Hth'. destruct (decide (t' = t)) as [->|]; [|eauto].
    rewrite Hth in Hth'. injection Hth' as <-. simpl in Hm. apply elem_set_insert in Hm as [->|Hm]; [done|]. eauto.
  - intros m w' n p' h Hw' Hk'. apply Hsome. rewrite objects_kind in Hw'.
    change (objects (upd_thread t (hold o) s)) with (objects s) in Hw'.
    destruct (decide (m = o)) as [->|Hne]; [|eauto]. rewrite Ho in Hw'. injection Hw' as <-.
    simpl in Hk'. injection Hk' as _ _ <-. eauto.
  - intros t' th'. rewrite threads_upd. case_decide; [|apply H4]. subst. rewrite Hth. intros [= <-].
    apply (H4 t th Hth).
Qed.

Lemma Acquire_mutex_free s o w q h t th : base_ok s -> objects s !! o = Some w ->
  kind_of w = KMutex 0 q h -> threads s !! t = Some th ->
  exists s', (s1 ← UpdatePriority t
      (set_kind o (KMutex 0 (current_priority th) (Some t))
        (upd_thread t (fun th => set_held_mutexes (set_insert o (held_mutexes th)) th)
          (set_kind o (KMutex 0 (current_priority th) h) s)));
    Done (set_kind o (KMutex 1 (current_priority th) (Some t)) (PrepareReschedule s1))) = Done s' /\
    acquired o t s s' /\ lock_at s' o = Some (KMutex 1 0 (Some t)).
Proof.
  intros Hb Ho Hk Hth. set (p := current_priority th).
  set (s2 := set_kind o (KMutex 0 p (Some t)) (upd_thread t _ (set_kind o (KMutex 0 p h) s))).
  set (r := set_kind o (KMutex 0 p (Some t)) (upd_thread t (hold o) s)).
  assert (threads s2 = threads r) as Et by done.
  assert (objects s2 = objects r) as Eo.
  { exact (objects_kind_kind o (KMutex 0 p (Some t)) (KMutex 0 p h) s). }
  assert (d_ok s2) as Hd2.
  { pose proof (d_ok_lock s o w p t th (b_d _ Hb) Ho ltac:(by rewrite Hk) Hth) as [H1 H2 H3 H4].
    split; rewrite ?Et, ?Eo; done. }
  assert (same_waits s s2) as Hs2.
  { etrans; [eapply (sw_kind o w (KMutex 0 p h)); [done|by rewrite Hk]|].
    etrans; [by apply (sw_upd t (hold o))|].
    eapply (sw_kind o (mk_wobj (waiting_threads w) (KMutex 0 p h))); [|done].
    change (objects (set_kind o (KMutex 0 p h) s) !! o = Some (mk_wobj (waiting_threads w) (KMutex 0 p h))).
    by rewrite objects_kind, decide_True, Ho by done. }
  destruct (UpdatePriority_ok s2 t (hold o th)) as (s3 & -> & Hq3 & He3 & Ho3).
  - done.
  - apply q_ok_objects. apply (q_ok_thread t (hold o)); [|done]. apply q_ok_objects, Hb.
  - rewrite Et. change (threads r) with (threads (upd_thread t (hold o) s)). by rewrite threads_upd, decide_True, Hth.
  - cbn [mbind outcome_bind]. eexists. split; [done|].
    set (s4 := set_kind o _ (PrepareReschedule s3)).
    assert (objects s4 = objects (set_kind o (KMutex 1 p (Some t)) s)) as Eo4.
    { apply map_eq. intros i. unfold s4. rewrite !objects_kind.
      change (objects (PrepareReschedule s3)) with (objects s3). rewrite Ho3, Eo. unfold r.
      rewrite !objects_kind. change (objects (upd_thread t (hold o) s)) with (objects s).
      rewrite (decide_True (P := o = o)) by done. case_decide; [|done]. by destruct (objects s !! o). }
    assert (same_waits s s4) as Hs4.
    { etrans; [exact Hs2|]. etrans; [by apply prio_waits|]. split; try done.
      rewrite Eo4, Ho3, Eo. unfold r. apply map_eq. intros i. rewrite !lookup_fmap, !objects_kind.
      change (objects (upd_thread t (hold o) s)) with (objects s). case_decide; [|done]. subst.
      by rewrite Ho. }
    split; [split; [split|done| | |]|].
    + by apply q_ok_objects.
    + eapply wb_ok_same; [exact Hs4|apply Hb].
    + eapply m_ok_same; [|eapply (m_ok_lock s o w p q h t th); [apply Hb|done..]]. split.
      * pose proof (sl_threads _ _ (prio_locks _ _ He3)) as E. rewrite Et in E. exact E.
      * by rewrite Eo4.
    + eapply t_ok_same; [exact Hs4|apply Hb].
    + intros o' Hne. unfold lock_at. rewrite Eo4, objects_kind. by rewrite decide_False.
    + intros n h'. unfold lock_at. rewrite Eo4, objects_kind, decide_True, Ho by done. simpl. by intros [= _ <-].
    + intros h' Hne. change (threads s4) with (threads s3).
      rewrite <- !lookup_fmap. rewrite (sl_threads _ _ (prio_locks _ _ He3)), Et.
      change (threads r) with (threads (upd_thread t (hold o) s)).
      rewrite !lookup_fmap, threads_upd, decide_False by done. done.
    + unfold lock_at. rewrite Eo4, objects_kind, decide_True, Ho by done. done.
Qed.

Lemma ShouldWait_ok s o w t : base_ok s -> objects s !! o = Some w ->
  exists b, ShouldWait o t s = Done b.
Proof.
  intros Hb Ho. unfold ShouldWait, the_object. rewrite Ho. cbn [of_opt mbind outcome_bind].
  destruct (kind_of w) eqn:Hk; eauto. destruct (w_thread _ (b_w _ Hb) o w Ho Hk) as (th & Hth).
  unfold the_thread. rewrite Hth. cbn. eauto.
Qed.

Lemma Acquire_ok s o w t th : base_ok s -> objects s !! o = Some w -> threads s !! t = Some th ->
  ShouldWait o t s = Done false -> exists s', Acquire o t s = Done s' /\ acquired o t s s'.
Proof.
  intros Hb Ho Hth Hw. unfold Acquire. rewrite Hw. unfold ShouldWait, Mutex_ShouldWait in Hw. unfold the_object in *.
  rewrite Ho in *. cbn [of_opt mbind outcome_bind] in *.
  destruct (kind_of w) as [r sg|mx av|n q h|r i0 n0 sg cb|] eqn:Hk;
    unfold Event_Acquire, Semaphore_Acquire, Mutex_Acquire, Timer_Acquire, Thread_Acquire;
    cbn [negb assert_ mbind outcome_bind].
  - destruct (decide (r = OneShot)) as [->|]; eexists; (split; [done|]); [|by apply (acquired_refl s o t w); rewrite ?Hk].
    eapply acquired_kind; rewrite ?Hk; try done; by rewrite ?Hk.
  - eexists. split; [done|]. eapply acquired_kind; rewrite ?Hk; try done; by rewrite ?Hk.
  - destruct (Z.eqb_spec n 0) as [->|Hn].
    + unfold the_thread. rewrite Hth. cbn [of_opt mbind outcome_bind].
      destruct (Acquire_mutex_free s o w q h t th Hb Ho Hk Hth) as (s' & Hs & Ha & _). eauto.
    + assert (h = Some t /\ 0 < n) as [-> Hpos].
      { injection Hw as Hw. destruct h as [h|].
        - destruct (m_holder _ (b_m _ Hb) _ _ _ _ _ Ho Hk) as [Hn' _].
          destruct (Z.ltb_spec 0 n); [|lia]. simpl in Hw. apply negb_false_iff, bool_decide_eq_true in Hw.
          by rewrite Hw.
        - by apply (m_free _ (b_m _ Hb) _ _ _ _ Ho) in Hk. }
      eexists. split; [done|]. pose proof (sw_kind o w (KMutex (n + 1) q (Some t)) s Ho ltac:(by rewrite Hk)) as Hs.
      destruct Hb as [H1 H2 H3 H4]. split; [split|done| | |done].
      * by apply q_ok_objects.
      * by eapply wb_ok_same.
      * destruct H3 as [M1 M2 M3 M4]. split; [| | |exact M4].
        -- intros t' th' m Ht' Hm. destruct (M1 _ _ _ Ht' Hm) as (w' & n' & p' & h' & Hw' & Hk' & Hn').
           rewrite objects_kind. destruct (decide (m = o)) as [->|]; [|by exists w', n', p', h'].
           rewrite Ho in Hw'. injection Hw' as <-. rewrite Hk in Hk'. injection Hk' as <- <- <-.
           rewrite Ho. eexists _, (n + 1), q, (Some t). split_and!; [done | done |]. intros Hx. destruct (Hn' Hx). split; [done|lia].
        -- intros m w' n' p' t'. rewrite objects_kind. destruct (decide (m = o)) as [->|]; [|by apply M2]. rewrite Ho.
           intros [= <-]. simpl. intros [= <- <- <-]. destruct (M2 _ _ _ _ _ Ho Hk). split; [lia|done].
        -- intros m w' n' p'. rewrite objects_kind. destruct (decide (m = o)) as [->|]; [|by apply M3]. rewrite Ho.
           by intros [= <-].
      * by eapply t_ok_same.
      * intros o' Hne. by apply lock_kind.
      * intros n' h'. unfold lock_at. rewrite objects_kind, decide_True, Ho by done. simpl. by intros [= _ <-].
  - destruct (decide (r = OneShot)) as [->|]; eexists; (split; [done|]); [|by apply (acquired_refl s o t w); rewrite ?Hk].
    eapply acquired_kind; rewrite ?Hk; try done; by rewrite ?Hk.
  - destruct (w_thread _ (b_w _ Hb) o w Ho Hk) as (th' & Hth'). unfold the_thread in *. rewrite Hth' in *.
    cbn in Hw. injection Hw as Hw. exists s. split; [|by apply (acquired_refl s o t w); rewrite ?Hk]. done.
Qed.

Lemma acquired_keeps o t h s s' : acquired o t s s' -> ShouldWait o t s = Done false -> h ≠ t ->
  keeps_locks h s s'.
Proof.
  intros [_ _ Ho Hself Hh] Hw Hne. split; [|by apply Hh]. intros o' n Hn. destruct (decide (o' = o)) as [->|]; [|by rewrite Ho].
  split; intros Hl; [|by destruct Hne; eapply Hself].
  rewrite (ShouldWait_locked _ _ _ _ _ Hl Hn Hne) in Hw. done.
Qed.

Lemma acquire_all_ok os t : forall s th, base_ok s -> threads s !! t = Some th -> NoDup os ->
  (forall o, o ∈ os -> is_Some (objects s !! o) /\ ShouldWait o t s = Done false) ->
  exists s', acquire_all os t s = Done s' /\ base_ok s' /\ same_waits s s' /\
    forall h, h ≠ t -> keeps_locks h s s'.
Proof.
  induction os as [|o os IH]; intros s th Hb Hth Hnd Hos; simpl; [by exists s|].
  apply NoDup_cons in Hnd as [Hno Hnd]. destruct (Hos o ltac:(set_solver)) as [[w Ho] Hw].
  destruct (Acquire_ok s o w t th Hb Ho Hth Hw) as (s1 & -> & Ha). cbn [mbind outcome_bind].
  assert (forall h, h ≠ t -> keeps_locks h s s1) as Hk1 by (intros h; by eapply acquired_keeps).
  destruct Ha as [Hb1 Hs1 Hl1 _ _].
  destruct (sw_thread _ _ _ _ Hs1 Hth) as (th1 & Hth1 & _).
  destruct (IH s1 th1 Hb1 Hth1 Hnd) as (s2 & -> & Hb2 & Hs2 & Hk2).
  - intros o' Ho'. destruct (Hos o' ltac:(set_solver)) as [[w' Hw'] Hsw].
    destruct (sw_object _ _ _ _ Hs1 Hw') as (? & ? & _). split; [eauto|].
    rewrite <- Hsw. apply ShouldWait_same; [|done]. apply Hl1. set_solver.
  - exists s2. split_and!; [done | done | by etrans|]. intros h Hh. etrans; [by apply Hk1|by apply Hk2].
Qed.

(** What acquiring a free mutex leaves: the thread has it locked once. *)
Lemma Acquire_lock s s' o w p t th : base_ok s -> objects s !! o = Some w -> kind_of w = KMutex 0 p None ->
  threads s !! t = Some th -> Acquire o t s = Done s' -> lock_at s' o = Some (KMutex 1 0 (Some t)).
Proof.
  intros Hb Ho Hk Hth. destruct (Acquire_mutex_free s o w p None t th Hb Ho Hk Hth) as (s1 & E & _ & Hl).
  unfold Acquire, ShouldWait, Mutex_ShouldWait, the_object. rewrite Ho. cbn [of_opt mbind outcome_bind]. rewrite Hk.
  unfold Mutex_Acquire. cbn [Z.ltb Z.compare andb negb assert_ mbind outcome_bind Z.eqb]. unfold the_thread. rewrite Hth.
  cbn [of_opt mbind outcome_bind] in *. rewrite E. by intros [= <-].
Qed.

Lemma acquire_all_lock os t : forall s s' m w p th, base_ok s -> threads s !! t = Some th -> NoDup os -> m ∈ os ->
  objects s !! m = Some w -> kind_of w = KMutex 0 p None ->
  (forall o, o ∈ os -> is_Some (objects s !! o) /\ ShouldWait o t s = Done false) ->
  acquire_all os t s = Done s' -> lock_at s' m = Some (KMutex 1 0 (Some t)).
Proof.
  assert (Keep : forall os s s' m th, base_ok s -> threads s !! t = Some th -> NoDup os -> m ∉ os ->
    (forall o, o ∈ os -> is_Some (objects s !! o) /\ ShouldWait o t s = Done false) ->
    acquire_all os t s = Done s' -> lock_at s' m = lock_at s m).
  { clear os. induction os as [|o os IH]; intros s s' m th Hb Hth Hnd Hm Hos; simpl; [by intros [= <-]|].
    apply NoDup_cons in Hnd as [Hno Hnd]. destruct (Hos o ltac:(set_solver)) as [[w Ho] Hw].
    destruct (Acquire_ok s o w t th Hb Ho Hth Hw) as (s1 & -> & [Hb1 Hs1 Hl1 _ _]). cbn [mbind outcome_bind].
    destruct (sw_thread _ _ _ _ Hs1 Hth) as (th1 & Hth1 & _). intros E.
    rewrite <- (Hl1 m) by set_solver. eapply (IH s1 s' m th1); [done|done|done|set_solver| |done].
    intros o' Ho'. destruct (Hos o' ltac:(set_solver)) as [[w' Hw'] Hsw].
    destruct (sw_object _ _ _ _ Hs1 Hw') as (? & ? & _). split; [eauto|].
    rewrite <- Hsw. apply ShouldWait_same; [|done]. apply Hl1. set_solver. }
  induction os as [|o os IH]; intros s s' m w p th Hb Hth Hnd Hm Ho Hk Hos; [by apply not_elem_of_nil in Hm|]. simpl.
  apply NoDup_cons in Hnd as [Hno Hnd]. destruct (Hos o ltac:(set_solver)) as [[w1 Ho1] Hw].
  destruct (Acquire_ok s o w1 t th Hb Ho1 Hth Hw) as (s1 & E1 & [Hb1 Hs1 Hl1 _ _]). rewrite E1. cbn [mbind outcome_bind].
  destruct (sw_thread _ _ _ _ Hs1 Hth) as (th1 & Hth1 & _).
  assert (Hos1 : forall o', o' ∈ os -> is_Some (objects s1 !! o') /\ ShouldWait o' t s1 = Done false).
  { intros o' Ho'. destruct (Hos o' ltac:(set_solver)) as [[w' Hw'] Hsw].
    destruct (sw_object _ _ _ _ Hs1 Hw') as (? & ? & _). split; [eauto|].
    rewrite <- Hsw. apply ShouldWait_same; [|done]. apply Hl1. set_solver. }
  intros E. apply elem_of_cons in Hm as [->|Hm].
  - rewrite (Keep os s1 s' o th1 Hb1 Hth1 Hnd Hno Hos1 E). by apply (Acquire_lock s s1 o w p t th).
  - assert (m ≠ o) as Hne by (intros ->; done).
    assert (lock_at s1 m = Some (KMutex 0 0 None)) as Hlm by (rewrite Hl1 by done; unfold lock_at; rewrite Ho; cbn; unfold lock_of; by rewrite Hk).
    unfold lock_at in Hlm. destruct (objects s1 !! m) as [w'|] eqn:Ho'; [|done]. simpl in Hlm. unfold lock_of in Hlm.
    destruct (kind_of w') as [| |n' p' h'| |] eqn:Hk'; try done. injection Hlm as -> ->.
    by eapply (IH s1 s' m w' p' th1).
Qed.

(** ** Choosing the thread to wake *)

Definition runnable (o t : Z) (s : kern) : Prop :=
  ShouldWait o t s = Done false /\
  forall th, threads s !! t = Some th -> status th = WaitSynchAll ->
    forall o', o' ∈ wait_objects th -> ShouldWait o' t s = Done false.

Lemma all_available_ok os t s : base_ok s -> (forall o, o ∈ os -> is_Some (objects s !! o)) ->
  exists b, all_available os t s = Done b /\
    (b = true <-> forall o, o ∈ os -> ShouldWait o t s = Done false).
Proof.
  intros Hb. induction os as [|o os IH]; intros Hos; simpl; [exists true; set_solver|].
  destruct (Hos o ltac:(set_solver)) as [w Hw]. destruct (ShouldWait_ok s o w t Hb Hw) as (b & Hsw).
  rewrite Hsw. cbn [mbind outcome_bind]. destruct b.
  - exists false. split; [done|]. split; [done|]. intros H. specialize (H o ltac:(set_solver)). congruence.
  - destruct IH as (b & -> & Hiff); [set_solver|]. exists b. split; [done|]. rewrite Hiff. set_solver.
Qed.

Lemma prio_bound s t th : q_ok s -> t_ok s -> threads s !! t = Some th -> (current_priority th < 64)%nat.
Proof.
  intros Hq Ht Hth. destruct (Ht t th Hth) as [_ Hc]. destruct (in_range_lookup _ _ Hc) as (m & Hm).
  destruct (Hq _ _ Hm) as (sp & Hsp). eapply (queue_prepared _ _ _ _ t); [exact Hsp|].
  unfold sched_of. by rewrite Hth.
Qed.

(** [best_ready] finds the first of the runnable threads of best priority. *)
Lemma best_ready_ok o w s : base_ok s -> objects s !! o = Some w -> forall ts,
  (forall t, t ∈ ts -> exists th, threads s !! t = Some th /\ waiting_status (status th) = true) ->
  forall cand cp, exists r, best_ready o ts cand cp s = Done r /\
    ((r = cand /\ forall t th, t ∈ ts -> threads s !! t = Some th -> runnable o t s ->
        (cp <= current_priority th)%nat) \/
     (exists t th, r = Some t /\ t ∈ ts /\ threads s !! t = Some th /\ runnable o t s /\
        (current_priority th < cp)%nat /\
        forall t' th', t' ∈ ts -> threads s !! t' = Some th' -> runnable o t' s ->
          (current_priority th <= current_priority th')%nat)).
Proof.
  intros Hb Ho. induction ts as [|t ts IH]; intros Hts cand cp.
  { exists cand. split; [done|]. left. split; [done|]. set_solver. }
  destruct (Hts t ltac:(set_solver)) as (th & Hth & Hst). cbn [best_ready].
  unfold the_thread. rewrite Hth. cbn [of_opt mbind outcome_bind]. rewrite Hst.
  cbn [assert_ mbind outcome_bind]. specialize (IH ltac:(set_solver)).
  assert (forall r, ~ runnable o t s \/ (cp <= current_priority th)%nat ->
    ((r = cand /\ forall t' th', t' ∈ ts -> threads s !! t' = Some th' -> runnable o t' s ->
        (cp <= current_priority th')%nat) \/
     (exists t0 th0, r = Some t0 /\ t0 ∈ ts /\ threads s !! t0 = Some th0 /\ runnable o t0 s /\
        (current_priority th0 < cp)%nat /\ forall t' th', t' ∈ ts -> threads s !! t' = Some th' -> runnable o t' s ->
          (current_priority th0 <= current_priority th')%nat)) ->
    ((r = cand /\ forall t' th', t' ∈ t :: ts -> threads s !! t' = Some th' -> runnable o t' s ->
        (cp <= current_priority th')%nat) \/
     (exists t0 th0, r = Some t0 /\ t0 ∈ t :: ts /\ threads s !! t0 = Some th0 /\ runnable o t0 s /\
        (current_priority th0 < cp)%nat /\ forall t' th', t' ∈ t :: ts -> threads s !! t' = Some th' -> runnable o t' s ->
          (current_priority th0 <= current_priority th')%nat))) as Hskip.
  { intros r Hno [[-> H]|(t0 & th0 & -> & Ht0 & Hth0 & Hr0 & Hlt & H)]; [left|right].
    - split; [done|]. intros t' th' [->|Ht']%elem_of_cons Hth' Hr'; [|eauto].
      rewrite Hth in Hth'. injection Hth' as <-. tauto.
    - exists t0, th0. split_and!; try done; [set_solver|].
      intros t' th' [->|Ht']%elem_of_cons Hth' Hr'; [|eauto]. rewrite Hth in Hth'. injection Hth' as <-.
      destruct Hno; [done|lia]. }
  destruct (Nat.leb_spec cp (current_priority th)) as [Hle|Hlt].
  { destruct (IH cand cp) as (r & -> & Hr). exists r. split; [done|]. apply Hskip; [by right|done]. }
  destruct (ShouldWait_ok s o w t Hb Ho) as (b & Hsw). rewrite Hsw. cbn [mbind outcome_bind].
  destruct b.
  { destruct (IH cand cp) as (r & -> & Hr). exists r. split; [done|]. apply Hskip; [|done].
    left. intros [H _]. congruence. }
  destruct (all_available_ok (wait_objects th) t s Hb) as (b & Hav & Hiff).
  { intros o' Ho'. by apply (w_exists _ (b_w _ Hb) t th). }
  assert (exists b', (if decide (status th = WaitSynchAll) then all_available (wait_objects th) t s
                      else Done true) = Done b' /\ (b' = true <-> runnable o t s)) as (b' & -> & Hb').
  { unfold runnable. destruct (decide (status th = WaitSynchAll)) as [Hall|Hall].
    - exists b. split; [done|]. rewrite Hiff. split.
      + intros H. split; [done|]. intros th' Hth'. rewrite Hth in Hth'. injection Hth' as <-. done.
      + intros [_ H]. by apply (H th).
    - exists true. split; [done|]. split; [|done]. intros _. split; [done|].
      intros th' Hth'. rewrite Hth in Hth'. injection Hth' as <-. done. }
  cbn [mbind outcome_bind]. destruct b'.
  - destruct (IH (Some t) (current_priority th)) as (r & -> & Hr). exists r. split; [done|]. right.
    pose proof (proj1 Hb' eq_refl) as Hrun.
    destruct Hr as [[-> H]|(t0 & th0 & -> & Ht0 & Hth0 & Hr0 & Hlt0 & H)].
    + exists t, th. split_and!; try done; [set_solver|].
      intros t' th' [->|Ht']%elem_of_cons Hth' Hr'; [|eauto]. rewrite Hth in Hth'. injection Hth' as <-. done.
    + exists t0, th0. split_and!; try done; [set_solver|lia|].
      intros t' th' [->|Ht']%elem_of_cons Hth' Hr'; [|eauto]. rewrite Hth in Hth'. injection Hth' as <-. lia.
  - destruct (IH cand cp) as (r & -> & Hr). exists r. split; [done|]. apply Hskip; [|done].
    left. intros Hrun. by apply Hb' in Hrun.
Qed.

(** ** Resuming a thread *)

Lemma sw_timing tm s : (Timing.current_timer tm, length (Timing.timers tm)) = clocks s ->
  same_waits s (with_timing tm s).
Proof. by split. Qed.

Definition made_ready (th : thread) : thread := set_status Ready (set_wakeup_callback None th).

Definition resumable (st : thread_status) : bool :=
  match st with Running | Ready | Dead => false | _ => true end.

Record resumed (t : Z) (s s' : kern) : Prop := {
  rs_threads : threads s' = alter made_ready t (threads s);
  rs_objects : objects s' = objects s;
  rs_managers : bare_manager <$> managers s' = bare_manager <$> managers s;
  rs_arbiters : arbiters s' = arbiters s;
  rs_procs : processes s' = processes s;
  rs_timing : timing s' =
    match threads s !! t with
    | Some th => Timing.UnscheduleEvent (ThreadWakeupEventType (core_id th)) (thread_id th) (timing s)
    | None => timing s
    end;
  rs_resched : rescheduled s' = true;
}.

Lemma wb_ok_thread s s' t th th' : wb_ok s -> threads s !! t = Some th ->
  threads s' = <[t := th']> (threads s) -> objects s' = objects s ->
  wait_objects th = [] -> wait_objects th' = [] -> wb_ok s'.
Proof.
  intros [H1 H2 H3 H4 H5 H6] Hth Ht Ho Hw Hw'.
  assert (forall t0 th0, threads s' !! t0 = Some th0 -> (t0 = t /\ th0 = th') \/ (t0 ≠ t /\ threads s !! t0 = Some th0)) as Hcase.
  { intros t0 th0. rewrite Ht, lookup_insert_Some. naive_solver. }
  split; rewrite ?Ho; try done.
  - intros o w t0 Hw0 Hin. destruct (H1 _ _ _ Hw0 Hin) as (th0 & Hth0 & Hin').
    exists th0. split; [|done]. rewrite Ht, lookup_insert_ne; [done|]. intros ->.
    rewrite Hth in Hth0. injection Hth0 as <-. rewrite Hw in Hin'. by apply not_elem_of_nil in Hin'.
  - intros t0 th0 o [[-> ->]|[_ Hth0]]%Hcase; [rewrite Hw'; by intros ?%not_elem_of_nil|eauto].
  - intros t0 th0 [[-> ->]|[_ Hth0]]%Hcase; [done|eauto].
  - intros t0 th0 [[-> ->]|[_ Hth0]]%Hcase; [intros _; rewrite Hw'; constructor|eauto].
  - intros o w Hw0 Hk. destruct (H6 o w Hw0 Hk) as (th0 & Hth0). rewrite Ht.
    destruct (decide (t = o)) as [->|]; [rewrite lookup_insert_eq|rewrite lookup_insert_ne]; eauto.
Qed.

Lemma w_from_thread s s' t th' : w_from s -> threads s' = <[t := th']> (threads s) ->
  objects s' = objects s -> wait_objects th' = [] -> w_from s'.
Proof.
  intros H Ht Ho Hw t0 th0 o. rewrite Ht, Ho, lookup_insert_Some.
  intros [[-> <-]|[_ Hth0]]; [rewrite Hw; by intros ?%not_elem_of_nil|eauto].
Qed.

Lemma m_ok_threads s s' : m_ok s -> objects s' = objects s ->
  held_mutexes <$> threads s' = held_mutexes <$> threads s -> m_ok s'.
Proof. intros H Ho Ht. eapply m_ok_same; [|done]. split; [done|by rewrite Ho]. Qed.

Lemma alter_insert_eq {A} (f : A -> A) (t : Z) (m : gmap Z A) x : m !! t = Some x ->
  alter f t m = <[t := f x]> m.
Proof.
  intros Hx. apply map_eq. intros i. destruct (decide (i = t)) as [->|].
  - by rewrite lookup_alter_eq, Hx, lookup_insert_eq.
  - by rewrite lookup_alter_ne, lookup_insert_ne.
Qed.

Lemma fmap_alter_same {A B} (g : A -> B) (f : A -> A) (t : Z) (m : gmap Z A) :
  (forall x, g (f x) = g x) -> g <$> alter f t m = g <$> m.
Proof.
  intros Hf. apply map_eq. intros i. rewrite !lookup_fmap. destruct (decide (i = t)) as [->|].
  - rewrite lookup_alter_eq. destruct (m !! t); simpl; [by rewrite Hf|done].
  - by rewrite lookup_alter_ne.
Qed.

Lemma t_ok_managers s s' f t : t_ok s -> threads s' = alter f t (threads s) ->
  (forall th, nominal_priority (f th) = nominal_priority th /\ core_id (f th) = core_id th) ->
  length (managers s') = length (managers s) -> t_ok s'.
Proof.
  intros H Ht Hf Hl t0 th0. rewrite Ht, Hl. destruct (decide (t0 = t)) as [->|].
  - rewrite lookup_alter_eq. intros (th & Hth & ->)%fmap_Some. destruct (Hf th) as [-> ->]. eauto.
  - rewrite lookup_alter_ne by done. apply H.
Qed.

Lemma bare_managers_length (s s' : kern) : bare_manager <$> managers s' = bare_manager <$> managers s ->
  length (managers s') = length (managers s).
Proof. intros H. pose proof (f_equal length H) as Hl. by rewrite !length_fmap in Hl. Qed.

Lemma unschedule_clocks ty u (tm : Timing.timing ev_cb) :
  (Timing.current_timer (Timing.UnscheduleEvent ty u tm),
   length (Timing.timers (Timing.UnscheduleEvent ty u tm))) =
  (Timing.current_timer tm, length (Timing.timers tm)).
Proof.
  unfold Timing.UnscheduleEvent. destruct (Timing.event_queue_locked tm); [done|].
  unfold Timing.set_timers. simpl. by rewrite length_fmap.
Qed.

Lemma ResumeFromWait_ok s t th : base_ok s -> threads s !! t = Some th -> wait_objects th = [] ->
  resumable (status th) = true ->
  exists s', ResumeFromWait t s = Done s' /\ base_ok s' /\ resumed t s s'.
Proof.
  intros [Hq Hw Hm Ht] Hth Hwo Hst. unfold ResumeFromWait, the_thread. rewrite Hth.
  cbn [of_opt mbind outcome_bind]. rewrite (bool_decide_true (wait_objects th = [])) by done. cbn [assert_ mbind outcome_bind].
  destruct (Ht t th Hth) as [_ Hc]. destruct (in_range_lookup _ _ Hc) as (m & Hmm).
  destruct (Hq _ _ Hmm) as (sp & Hsp).
  assert (sched_of s t = Some (core_id th, status th, current_priority th)) as Hs
    by (unfold sched_of; by rewrite Hth).
  destruct (queue_prepared _ _ _ _ _ _ _ Hsp Hs) as [Hu _].
  destruct (queue_push false _ _ _ _ _ _ _ (current_priority th) Hsp Hs) as (q' & sp' & Hpush & Hq' & _);
    [intros E; by rewrite E in Hst|done|].
  set (s1 := cancel_wakeup th (upd_thread t (set_wakeup_callback None) s)).
  assert (match status th with
    | Ready => _ ← assert_ (bool_decide (wakeup_callback th = None)); Done s
    | Running | Dead => Stop FAssert
    | _ => s ← on_queue (core_id th) (Tql.push_back (current_priority th) t) s1;
           Done (PrepareReschedule (upd_thread t (set_status Ready) s)) end =
    Done (PrepareReschedule (upd_thread t (set_status Ready) (upd_manager (core_id th) (set_ready q') s1)))) as E.
  { rewrite (on_queue_ok _ _ s1 m q' Hmm Hpush). by destruct (status th). }
  eexists. split; [exact E|]. clear E. set (s2 := PrepareReschedule _).
  assert (threads s2 = alter made_ready t (threads s)) as Et.
  { change (alter (set_status Ready) t (alter (set_wakeup_callback None) t (threads s)) =
      alter made_ready t (threads s)).
    rewrite !(alter_insert_eq _ _ _ _ Hth), (alter_insert_eq _ _ _ _ (lookup_insert_eq _ _ _)).
    by rewrite insert_insert_eq. }
  assert (threads s2 = <[t := made_ready th]> (threads s)) as Et2 by by rewrite Et, (alter_insert_eq _ _ _ _ Hth).
  assert (bare_manager <$> managers s2 = bare_manager <$> managers s) as Em by apply (bare_upd_manager _ _ s1).
  split; [split|split; try done; by rewrite Hth].
  - eapply (q_ok_step s _ t th (core_id th, Ready, current_priority th)); try done.
    + intros c m' Hm'. by eapply (managers_upd _ _ s1).
    + intros t'. unfold sched_of. rewrite Et2. unfold upd_view. case_decide.
      * subst. by rewrite lookup_insert_eq.
      * by rewrite lookup_insert_ne.
  - by eapply (wb_ok_thread s s2 t th (made_ready th)).
  - eapply m_ok_threads; [done|done|]. rewrite Et. by apply fmap_alter_same.
  - eapply t_ok_managers; [done|exact Et|done|]. by apply bare_managers_length.
Qed.

(** ** Leaving the waiting lists *)

Definition leave (os : list Z) (t : Z) (o : Z) (w : wobj) : wobj :=
  if decide (o ∈ os) then mk_wobj (filter (fun x => x ≠ t) (waiting_threads w)) (kind_of w) else w.
Definition detach (os : list Z) (t : Z) (s : kern) : kern :=
  with_objects (map_imap (fun o w => Some (leave os t o w)) (objects s)) s.

Lemma objects_detach os t s o : objects (detach os t s) !! o = leave os t o <$> objects s !! o.
Proof. unfold detach. simpl. rewrite map_lookup_imap. by destruct (objects s !! o). Qed.

Lemma erase_first_filter t l : NoDup l -> erase_first t l = filter (fun x => x ≠ t) l.
Proof.
  induction l as [|x l IH]; intros Hnd; [done|]. apply NoDup_cons in Hnd as [Hx Hnd]. simpl.
  destruct (Z.eqb_spec x t) as [->|Hne].
  - rewrite filter_cons_False by tauto. symmetry. apply filter_all. intros y Hy ->. done.
  - rewrite filter_cons_True by done. by rewrite IH.
Qed.

Lemma detach_prio os t s s' : prio_eq s s' -> prio_eq (detach os t s) (detach os t s').
Proof.
  intros [H1 H2 H3 H4 H5 H6 H7 H8 H9]. split; try done. apply map_eq. intros i.
  pose proof (f_equal (fun m => m !! i) H2) as Hi. simpl in Hi. rewrite !lookup_fmap in Hi.
  rewrite !lookup_fmap, !objects_detach.
  destruct (objects s !! i) as [w|], (objects s' !! i) as [w'|]; try done. simpl in *.
  injection Hi as Hl Hk. unfold bare_obj, leave. case_decide; simpl; by rewrite Hl, Hk.
Qed.

Lemma detach_cons o os t s w : objects s !! o = Some w -> NoDup (waiting_threads w) ->
  detach (o :: os) t s = detach os t (set_waiting o (erase_first t (waiting_threads w)) s).
Proof.
  intros Ho Hnd. rewrite erase_first_filter by done. unfold detach, set_waiting, with_objects. f_equal.
  apply map_eq. intros i. rewrite !map_lookup_imap. simpl.
  destruct (decide (i = o)) as [->|Hne].
  - rewrite lookup_alter_eq, Ho. simpl. f_equal. unfold leave. rewrite decide_True by set_solver.
    case_decide; simpl; [|done]. f_equal. symmetry. apply filter_all. intros x Hx.
    by apply list_elem_of_filter in Hx as [? _].
  - rewrite lookup_alter_ne by done. destruct (objects s !! i) as [w'|]; [|done]. simpl. f_equal.
    unfold leave. destruct (decide (i ∈ os)); [rewrite decide_True by set_solver|rewrite decide_False by set_solver]; done.
Qed.

Lemma nodup_prio s s' : prio_eq s s' ->
  (forall o w, objects s !! o = Some w -> NoDup (waiting_threads w)) ->
  forall o w, objects s' !! o = Some w -> NoDup (waiting_threads w).
Proof.
  intros He H o w Hw. assert (prio_eq s' s) as He' by done.
  destruct (pe_object _ _ _ _ He' Hw) as (w0 & Hw0 & Hb). rewrite <- (bare_waiting _ _ Hb). eauto.
Qed.

Lemma remove_from_all_ok t os : forall s, d_ok s -> q_ok s ->
  (forall o w, objects s !! o = Some w -> NoDup (waiting_threads w)) ->
  (forall o, o ∈ os -> is_Some (objects s !! o)) ->
  exists s', remove_from_all os t s = Done s' /\ q_ok s' /\ prio_eq (detach os t s) s'.
Proof.
  induction os as [|o os IH]; intros s Hd Hq Hn Hos; simpl.
  { exists s. split_and!; [done|done|]. split; try done. f_equal. apply map_eq. intros i.
    rewrite objects_detach. destruct (objects s !! i) as [w|]; [|done]. simpl. f_equal. }
  destruct (Hos o ltac:(set_solver)) as [w Hw].
  destruct (RemoveWaitingThread_ok s o w t Hd Hq Hw) as (s1 & -> & Hq1 & He1). cbn [mbind outcome_bind].
  set (l := erase_first t (waiting_threads w)) in *.
  assert (l = filter (fun x => x ≠ t) (waiting_threads w)) as Hl by (apply erase_first_filter; eauto).
  destruct (IH s1) as (s2 & -> & Hq2 & He2).
  - eapply d_ok_prio; [exact He1|]. eapply d_ok_waiting; [done|done|]. intros t' Ht'. rewrite Hl in Ht'.
    apply list_elem_of_filter in Ht' as [_ Ht']. by apply (d_waiting _ Hd o w).
  - done.
  - eapply nodup_prio; [exact He1|]. intros o' w'. rewrite objects_waiting. case_decide; [|eauto].
    subst o'. rewrite Hw. intros [= <-]. simpl. rewrite Hl. apply NoDup_filter. eauto.
  - intros o' Ho'. destruct (Hos o' ltac:(set_solver)) as [w' Hw'].
    assert (is_Some (objects (set_waiting o l s) !! o')) as [w2 Hw2].
    { rewrite objects_waiting. case_decide; subst; [rewrite Hw|rewrite Hw']; eauto. }
    destruct (pe_object _ _ _ _ He1 Hw2) as (? & ? & _). eauto.
  - exists s2. split_and!; [done|done|]. rewrite (detach_cons o os t s w Hw ltac:(eauto)).
    etrans; [|exact He2]. by apply detach_prio.
Qed.

Lemma same_locks_detach os t s : same_locks s (detach os t s).
Proof.
  split; [done|]. apply map_eq. intros i. rewrite !lookup_fmap, objects_detach.
  destruct (objects s !! i); [|done]. simpl. unfold leave, lock_of. by case_decide.
Qed.

(** Thread [t] leaves every list it is on. *)
Lemma wb_ok_leave s s1 s' t th : wb_ok s -> threads s !! t = Some th ->
  prio_eq (detach (wait_objects th) t s) s1 -> s' = upd_thread t (set_wait_objects []) s1 -> wb_ok s'.
Proof.
  intros Hw Hth He ->. pose proof (prio_waits _ _ He) as Hs.
  assert (wb_ok (upd_thread t (set_wait_objects []) (detach (wait_objects th) t s))) as Hwd.
  { destruct Hw as [H1 H2 H3 H4 H5 H6].
    assert (forall t0 th0, threads (upd_thread t (set_wait_objects []) (detach (wait_objects th) t s)) !! t0 = Some th0 ->
      (t0 = t /\ wait_objects th0 = []) \/ (t0 ≠ t /\ threads s !! t0 = Some th0)) as Hcase.
    { intros t0 th0. rewrite threads_upd. case_decide; [|by right]. subst t0.
      change (threads (detach (wait_objects th) t s)) with (threads s). rewrite Hth. intros [= <-]. by left. }
    split.
    - intros o w t0. change (objects (upd_thread t (set_wait_objects []) (detach (wait_objects th) t s)))
        with (objects (detach (wait_objects th) t s)). rewrite objects_detach.
      intros (w0 & Hw0 & ->)%fmap_Some Hin.
      assert (t0 ∈ waiting_threads w0 /\ t0 ≠ t) as [Hin0 Hne].
      { unfold leave in Hin. case_decide as Hd; [by apply list_elem_of_filter in Hin as [? ?]|].
        split; [done|]. intros ->. destruct (H1 _ _ _ Hw0 Hin) as (th0 & Hth0 & ?).
        rewrite Hth in Hth0. by injection Hth0 as <-. }
      rewrite threads_upd, decide_False by done. eauto.
    - intros o w. change (objects (upd_thread t (set_wait_objects []) (detach (wait_objects th) t s)))
        with (objects (detach (wait_objects th) t s)). rewrite objects_detach.
      intros (w0 & Hw0 & ->)%fmap_Some. unfold leave. case_decide; [apply NoDup_filter|]; eauto.
    - intros t0 th0 o [[-> ->]|[_ Hth0]]%Hcase Ho; [by apply not_elem_of_nil in Ho|].
      destruct (H3 _ _ _ Hth0 Ho) as [w0 Hw0].
      change (is_Some (objects (detach (wait_objects th) t s) !! o)). rewrite objects_detach, Hw0. by eexists.
    - intros t0 th0 [[-> ->]|[_ Hth0]]%Hcase; [done|eauto].
    - intros t0 th0 [[-> ->]|[_ Hth0]]%Hcase; [constructor|eauto].
    - intros o w. change (objects (upd_thread t (set_wait_objects []) (detach (wait_objects th) t s)))
        with (objects (detach (wait_objects th) t s)). rewrite objects_detach.
      intros (w0 & Hw0 & ->)%fmap_Some Hk. destruct (H6 o w0 Hw0) as (th0 & Hth0).
      { unfold leave in Hk. by case_decide. }
      rewrite threads_upd. change (threads (detach (wait_objects th) t s)) with (threads s).
      case_decide; [subst; rewrite Hth|rewrite Hth0]; by eexists. }
  eapply wb_ok_same; [|exact Hwd]. destruct Hs as [Ha Hb Hc Hp Hk Hr]. split; [|done..].
  apply map_eq. intros i. pose proof (f_equal (fun m => m !! i) Ha) as Hi. simpl in Hi.
  rewrite !lookup_fmap in *. rewrite !threads_upd. case_decide; [|done]. subst i.
  change (threads (detach (wait_objects th) t s)) with (threads s) in *. rewrite Hth in *.
  destruct (threads s1 !! t) as [t0|]; [|done]. cbn [fmap option_fmap option_map] in *.
  apply (inj Some) in Hi. unfold wfields in Hi. injection Hi as E1 E2 E3 E4 E5 E6 E7 E8.
  unfold wfields. simpl. congruence.
Qed.

(** ** Waking one thread *)

(** What a wakeup callback leaves alone. *)
Definition qview (th : thread) := (sched th, wfields th, held_mutexes th).
Record quiet (s s' : kern) : Prop := {
  qt_threads : qview <$> threads s' = qview <$> threads s;
  qt_objects : objects s' = objects s;
  qt_managers : managers s' = managers s;
  qt_procs : pfields <$> processes s' = pfields <$> processes s;
  qt_clocks : clocks s' = clocks s;
  qt_arbiters : arbiters s' = arbiters s;
}.

#[global] Instance quiet_refl : Reflexive quiet.
Proof. by intros s. Qed.
#[global] Instance quiet_trans : Transitive quiet.
Proof. intros s1 s2 s3 [] []; split; by etrans. Qed.

Lemma quiet_waits s s' : quiet s s' -> same_waits s s'.
Proof.
  intros [H1 H2 H3 H4 H5 H6]. split; [|by rewrite H2|by rewrite H3|done|done|done].
  by apply (fmap_coarser qview wfields (fun x => x.1.2)).
Qed.

Lemma quiet_locks s s' : quiet s s' -> same_locks s s'.
Proof.
  intros [H1 H2 H3 _ _ _]. split; [|by rewrite H2]. by apply (fmap_coarser qview held_mutexes (fun x => x.2)).
Qed.

Lemma quiet_base s s' : quiet s s' -> base_ok s -> base_ok s'.
Proof.
  intros Hq []. pose proof (quiet_waits _ _ Hq). pose proof (quiet_locks _ _ Hq). split.
  - eapply q_ok_same; [done| |].
    + intros c m'. rewrite (qt_managers _ _ Hq). eauto.
    + intros t. unfold sched_of. rewrite <- !lookup_fmap.
      by rewrite (fmap_coarser qview sched (fun x => x.1.1) _ _ (fun _ => eq_refl) (qt_threads _ _ Hq)).
  - by eapply wb_ok_same.
  - by eapply m_ok_same.
  - by eapply t_ok_same.
Qed.

Lemma quiet_upd t f s : (forall th, qview (f th) = qview th) -> quiet s (upd_thread t f s).
Proof.
  intros Hf. split; try done. apply map_eq. intros i. rewrite !lookup_fmap, threads_upd.
  case_decide; [|done]. subst. destruct (threads s !! t); simpl; [by rewrite Hf|done].
Qed.

(** What never changes about a thread. *)
Definition ident (th : thread) :=
  (thread_id th, core_id th, nominal_priority th, tls_address th, owner_process th).

Lemma wfields_ident th th' : wfields th' = wfields th -> ident th' = ident th.
Proof. destruct th, th'. unfold wfields, ident. simpl. intros [= -> _ -> -> _ _ -> ->]. done. Qed.

(** ** What waking leaves of the other parts *)

(** Threads that waited may have become ready; nothing else moved. *)
Record runs (s s' : kern) : Prop := {
  ru_current : current_thread <$> managers s' = current_thread <$> managers s;
  ru_procs : pfields <$> processes s' = pfields <$> processes s;
  ru_clocks : clocks s' = clocks s;
  ru_arbiters : arbiters s' = arbiters s;
  ru_threads : forall t th, threads s !! t = Some th -> exists th', threads s' !! t = Some th' /\
    ident th' = ident th /\
    (status th' = status th \/ waiting_status (status th) = true /\ status th' = Ready) /\
    (wait_objects th' = wait_objects th \/ wait_objects th' = []) /\
    (wait_objects th = [] -> status th' = status th /\ wait_objects th' = []);
  ru_back : forall t, is_Some (threads s' !! t) -> is_Some (threads s !! t);
  ru_objects : forall o w, objects s !! o = Some w -> exists w', objects s' !! o = Some w' /\
    shape (kind_of w') = shape (kind_of w) /\ (forall t, t ∈ waiting_threads w' -> t ∈ waiting_threads w);
}.

#[global] Instance runs_refl : Reflexive runs.
Proof. intros s. split; try done; [|by eauto]. intros t th Ht. exists th. split_and!; try done; by left. Qed.
#[global] Instance runs_trans : Transitive runs.
Proof.
  intros s1 s2 s3 [A1 A2 A6 A7 A3 A4 A5] [B1 B2 B6 B7 B3 B4 B5]. split; [by etrans|by etrans|by etrans|by etrans| |by auto|].
  - intros t th Ht. destruct (A3 _ _ Ht) as (th2 & Ht2 & I2 & S2 & W2 & E2).
    destruct (B3 _ _ Ht2) as (th3 & Ht3 & I3 & S3 & W3 & E3). exists th3. split; [done|]. split; [congruence|].
    split_and!.
    + destruct S2 as [S2|[S2 S2']].
      * by rewrite S2 in S3.
      * rewrite S2' in S3. destruct S3 as [->|[S3 _]]; [by right|done].
    + destruct W2 as [W2|W2]; [by rewrite W2 in W3|]. right. by apply E3.
    + intros Hw. destruct (E2 Hw) as [<- Hw2]. by apply E3.
  - intros o w Ho. destruct (A5 _ _ Ho) as (w2 & Ho2 & K2 & L2). destruct (B5 _ _ Ho2) as (w3 & Ho3 & K3 & L3).
    exists w3. split_and!; [done|congruence|auto].
Qed.

Lemma sw_runs s s' : same_waits s s' -> runs s s'.
Proof.
  intros Hs. assert (same_waits s' s) as Hs' by done. split; try apply Hs.
  - intros t th Ht. destruct (sw_thread _ _ _ _ Hs Ht) as (th' & Ht' & Hf). exists th'.
    pose proof (wfields_ident _ _ Hf). injection Hf as _ Hst _ _ Hw _ _ _. rewrite Hst, Hw.
    split_and!; try done; by left.
  - intros t [th' Ht']. destruct (sw_thread _ _ _ _ Hs' Ht') as (? & ? & _). eauto.
  - intros o w Ho. destruct (sw_object _ _ _ _ Hs Ho) as (w' & Hw' & [= E1 E2]).
    exists w'. by rewrite E1, E2.
Qed.

Section Waking.
Context (other_wakeup : Z -> wakeup_reason -> Z -> option Z -> kern -> outcome kern).
(** The callbacks of IPC and HLE requests translate the reply in memory and set
    registers; they do not touch scheduling. *)
Context (other_quiet : forall n r t o s, exists s', other_wakeup n r t o s = Done s' /\ quiet s s').

Lemma signal_callback_ok o t th s : threads s !! t = Some th -> wait_objects th ≠ [] ->
  (forall a, wakeup_callback th ≠ Some (CbArb a)) ->
  exists s', run_wakeup_callback other_wakeup Signal t (Some o) s = Done s' /\ quiet s s'.
Proof using other_quiet.
  intros Hth Hwo Hcb. unfold run_wakeup_callback, the_thread. rewrite Hth. cbn [of_opt mbind outcome_bind].
  destruct (wakeup_callback th) as [[d|a|n]|] eqn:Hk; [ |by destruct (Hcb a)| |by exists s]; simpl.
  - set (s1 := SetWaitSynchronizationResult t Res.ResultSuccess s).
    assert (quiet s s1) as Hq1 by by apply quiet_upd.
    destruct d; [|by exists s1]. unfold the_thread.
    assert (threads s1 !! t = Some (set_ctx (set_register 0 Res.ResultSuccess (ctx th)) th)) as ->.
    { unfold s1, SetWaitSynchronizationResult. by rewrite threads_upd, decide_True, Hth. }
    cbn [of_opt mbind outcome_bind]. unfold GetWaitObjectIndex. cbn [wait_objects set_ctx].
    rewrite bool_decide_false by done. cbn. eexists. split; [done|]. etrans; [exact Hq1|]. by apply quiet_upd.
  - apply other_quiet.
Qed.

(** The exempt thread does not wait for the object. *)
Definition others_wait (o : Z) (s : kern) : Prop :=
  forall w t, objects s !! o = Some w -> t ∈ waiting_threads w -> ex ≠ Some t.

Lemma waiter_status s o w t : wf s -> others_wait o s -> objects s !! o = Some w -> t ∈ waiting_threads w ->
  exists th, threads s !! t = Some th /\ o ∈ wait_objects th /\ wait_objects th ≠ [] /\
    waiting_status (status th) = true /\ (forall a, wakeup_callback th ≠ Some (CbArb a)).
Proof using Type.
  intros [Hb _] Hex Ho Hin. destruct (w_to _ (b_w _ Hb) _ _ _ Ho Hin) as (th & Hth & Hin').
  assert (wait_objects th ≠ []) as Hne by (intros E; rewrite E in Hin'; by apply not_elem_of_nil in Hin').
  destruct (w_status _ (b_w _ Hb) _ _ Hth (Hex _ _ Ho Hin) Hne). eauto 8.
Qed.

(** A woken thread is ready and waits for nothing; all others wait as before. *)
Record woken (t : Z) (s s' : kern) : Prop := {
  wk_wf : wf s';
  wk_thread : exists th th', threads s !! t = Some th /\ threads s' !! t = Some th' /\
    ident th' = ident th /\ status th' = Ready /\ wait_objects th' = [];
  wk_others : forall t', t' ≠ t -> wfields <$> threads s' !! t' = wfields <$> threads s !! t';
  wk_list : forall o' w, objects s !! o' = Some w -> exists w', objects s' !! o' = Some w' /\
    ofields w' = (filter (fun x => x ≠ t) (waiting_threads w), shape (kind_of w));
  wk_current : current_thread <$> managers s' = current_thread <$> managers s;
  wk_procs : pfields <$> processes s' = pfields <$> processes s;
  wk_clocks : clocks s' = clocks s;
  wk_arbiters : arbiters s' = arbiters s;
  wk_locks : forall h, h ≠ t -> keeps_locks h s s';
  wk_resched : rescheduled s' = true;
}.

Lemma wfields_eq_at s s' t th : wfields <$> threads s' = wfields <$> threads s -> threads s !! t = Some th ->
  exists th', threads s' !! t = Some th' /\ wfields th' = wfields th.
Proof using Type. apply fmap_lookup_eq. Qed.

Lemma detach_filter s t th o w : wf s -> threads s !! t = Some th -> objects s !! o = Some w ->
  waiting_threads (leave (wait_objects th) t o w) = filter (fun x => x ≠ t) (waiting_threads w).
Proof using Type.
  intros [Hb _] Hth Ho. unfold leave. case_decide as Hd; [done|]. symmetry. apply filter_all.
  intros x Hx ->. destruct (w_to _ (b_w _ Hb) _ _ _ Ho Hx) as (th' & Hth' & Hin).
  rewrite Hth in Hth'. by injection Hth' as <-.
Qed.

(** A thread that has left all lists. *)
Record left (t : Z) (s s' : kern) : Prop := {
  lf_wf : wf s';
  lf_thread : exists th th', threads s !! t = Some th /\ threads s' !! t = Some th' /\
    wfields th' = wfields (set_wait_objects [] th) /\ held_mutexes th' = held_mutexes th;
  lf_others : forall t', t' ≠ t -> wfields <$> threads s' !! t' = wfields <$> threads s !! t';
  lf_list : forall o' w, objects s !! o' = Some w -> exists w', objects s' !! o' = Some w' /\
    ofields w' = (filter (fun x => x ≠ t) (waiting_threads w), shape (kind_of w));
  lf_current : current_thread <$> managers s' = current_thread <$> managers s;
  lf_procs : pfields <$> processes s' = pfields <$> processes s;
  lf_clocks : clocks s' = clocks s;
  lf_locks : same_locks s s';
  lf_arbiters : arbiters s' = arbiters s;
}.

Lemma leave_ok s t th : wf s -> threads s !! t = Some th ->
  exists s1, remove_from_all (wait_objects th) t s = Done s1 /\
    left t s (upd_thread t (set_wait_objects []) s1).
Proof using Type.
  intros Hwf Hth. pose proof Hwf as [Hb Hf].
  destruct (remove_from_all_ok t (wait_objects th) s) as (s1 & -> & Hq1 & He1).
  { by apply b_d. } { apply Hb. } { apply (w_nodup _ (b_w _ Hb)). }
  { intros o Ho. by apply (w_exists _ (b_w _ Hb) t th). }
  exists s1. split; [done|]. set (s2 := upd_thread t (set_wait_objects []) s1).
  pose proof (prio_waits _ _ He1) as Hs1. destruct (sw_thread _ _ t th Hs1 Hth) as (th1 & Hth1 & Hf1).
  assert (same_locks s s2) as Hl2.
  { etrans; [apply same_locks_detach|]. etrans; [by apply prio_locks|].
    split; [|done]. unfold s2. simpl. by apply fmap_alter_same. }
  assert (threads s2 !! t = Some (set_wait_objects [] th1)) as Hth2.
  { unfold s2. by rewrite threads_upd, decide_True, Hth1. }
  assert (forall t', t' ≠ t -> threads s2 !! t' = threads s1 !! t') as Hoth.
  { intros t' Hne. unfold s2. by rewrite threads_upd, decide_False. }
  assert (forall o' w, objects s !! o' = Some w -> exists w', objects s2 !! o' = Some w' /\
    ofields w' = (filter (fun x => x ≠ t) (waiting_threads w), shape (kind_of w))) as Hlists.
  { intros o' w Ho'. destruct (sw_object _ _ o' (leave (wait_objects th) t o' w) Hs1) as (w' & Hw' & Hbw).
    { by rewrite objects_detach, Ho'. }
    exists w'. split; [done|]. rewrite Hbw. unfold ofields.
    rewrite (detach_filter s t th o' w) by done. unfold leave. by case_decide. }
  split; [split; [split|]| | |done|exact (sw_current _ _ Hs1)|exact (sw_procs _ _ Hs1)|exact (sw_clocks _ _ Hs1)|done|exact (pe_arbiters _ _ He1)].
  - by apply (q_ok_thread t).
  - eapply wb_ok_leave; [apply Hb|exact Hth|exact He1|done].
  - eapply m_ok_same; [exact Hl2|apply Hb].
  - eapply t_ok_managers with (s := s1); [|done|done|done].
    eapply t_ok_same; [exact Hs1|]. intros t0 th0. apply Hb.
  - intros t' th' o Hth' Ho. destruct (decide (t' = t)) as [->|Hne].
    { rewrite Hth2 in Hth'. injection Hth' as <-. by apply not_elem_of_nil in Ho. }
    rewrite Hoth in Hth' by done.
    destruct (sw_thread s1 (detach (wait_objects th) t s) t' th') as (th0 & Hth0 & Hf0); [done|done|].
    injection Hf0 as _ _ _ _ Hwo _ _ _. rewrite <- Hwo in Ho.
    destruct (Hf t' th0 o Hth0 Ho) as (w & Hw & Hin). destruct (Hlists _ _ Hw) as (w' & ? & [= E _]).
    exists w'. split; [done|]. rewrite E. by apply list_elem_of_filter.
  - exists th, (set_wait_objects [] th1). split_and!; [done|done| |].
    + injection Hf1 as E1 E2 E3 E4 E5 E6 E7 E8. unfold wfields. simpl. congruence.
    + destruct (pe_thread _ _ t th He1 Hth) as (th2 & E & Hb2). rewrite Hth1 in E. injection E as <-.
      apply bare_fields in Hb2 as (_ & _ & _ & _ & E & _). exact E.
  - intros t' Hne. rewrite Hoth by done. pose proof (f_equal (fun m => m !! t') (sw_threads _ _ Hs1)) as E.
    simpl in E. by rewrite !lookup_fmap in E.
Qed.

Lemma left_runs t s s' : left t s s' -> runs s s'.
Proof using Type.
  intros [L1 L2 L3 L4 L5 L6 L7 L8 L9]. destruct L2 as (th0 & th2 & Hth0 & Hth2 & Hf2 & _).
  split; [done|done|done|done| | |].
  - intros t' th Ht'. destruct (decide (t' = t)) as [->|Hne].
    + rewrite Ht' in Hth0. injection Hth0 as ->. exists th2.
      pose proof (wfields_ident _ _ Hf2) as Hid. injection Hf2 as _ Hst _ _ Hw _ _ _. simpl in *.
      rewrite Hst, Hw. split_and!; try done; [by left|by right].
    + pose proof (L3 t' Hne) as E. rewrite Ht' in E. destruct (threads s' !! t') as [th'|]; [|done].
      exists th'. change (Some (wfields th') = Some (wfields th)) in E. apply (inj Some) in E.
      pose proof (wfields_ident _ _ E). injection E as _ Hst' _ _ Hw _ _ _. rewrite Hst', Hw.
      split_and!; try done; by left.
  - intros t' [th' Ht']. destruct (decide (t' = t)) as [->|Hne]; [eauto|].
    pose proof (L3 t' Hne) as E. rewrite Ht' in E. destruct (threads s !! t'); [eauto|done].
  - intros o w Ho. destruct (L4 _ _ Ho) as (w' & Hw' & [= E1 E2]). exists w'. split_and!; [done|done|].
    intros t'. rewrite E1. intros [_ ?]%list_elem_of_filter. done.
Qed.

(** The second half of a round: leave the lists and become ready. *)
Lemma release_waiter_ok s t th : wf s -> threads s !! t = Some th -> resumable (status th) = true ->
  exists s', (s1 ← remove_from_all (wait_objects th) t s;
              ResumeFromWait t (upd_thread t (set_wait_objects []) s1)) = Done s' /\ woken t s s' /\
    forall o, lock_at s' o = lock_at s o.
Proof using Type.
  intros Hwf Hth Hst. destruct (leave_ok s t th Hwf Hth) as (s1 & -> & [L1 L2 L3 L4 L5 L6 L7 L8 L9]).
  cbn [mbind outcome_bind]. set (s2 := upd_thread t (set_wait_objects []) s1) in *.
  destruct L2 as (th0 & th2 & E & Hth2 & Hf2 & _). rewrite Hth in E. injection E as <-.
  assert (ident th2 = ident th) as Hid by exact (wfields_ident _ _ Hf2).
  injection Hf2 as _ Hst2 _ _ Hw2 _ _ _. simpl in Hst2.
  destruct (ResumeFromWait_ok s2 t th2 (wf_base _ L1) Hth2 Hw2) as (s3 & -> & Hb3 & [R1 R2 R3 R4 R5 R6 R7]);
    [by rewrite Hst2|].
  exists s3. split; [done|].
  assert (threads s3 !! t = Some (made_ready th2)) as Hth3 by by rewrite R1, lookup_alter_eq, Hth2.
  assert (forall t', t' ≠ t -> threads s3 !! t' = threads s2 !! t') as Hoth
    by (intros t' Hne; by rewrite R1, lookup_alter_ne).
  split; [split; [split; [done|]| | | | | | |by rewrite R4, L9| |done]|].
  9: { intros o. unfold lock_at. rewrite R2, <- !lookup_fmap. by rewrite (sl_objects _ _ L8). }
  - eapply w_from_thread with (s := s2) (t := t) (th' := made_ready th2); [apply L1| |done|done].
    by rewrite R1, (alter_insert_eq _ _ _ _ Hth2).
  - exists th, (made_ready th2). by split_and!.
  - intros t' Hne. by rewrite Hoth, L3.
  - intros o' w Hw. destruct (L4 _ _ Hw) as (w' & Hw' & E). exists w'. by rewrite R2.
  - etrans; [|exact L5].
    assert (forall l, current_thread <$> l = current_thread <$> (bare_manager <$> l)) as Hc
      by (intros l; by rewrite <- list_fmap_compose).
    by rewrite (Hc (managers s3)), R3, <- Hc.
  - by rewrite R5.
  - etrans; [|exact L7]. unfold clocks. rewrite R6, Hth2. apply unschedule_clocks.
  - intros h Hh. etrans; [by apply keeps_same|]. split; [|by rewrite Hoth].
    intros o n _. unfold lock_at. by rewrite R2.
Qed.

Lemma woken_runs t s s' th0 : woken t s s' -> threads s !! t = Some th0 -> waiting_status (status th0) = true ->
  wait_objects th0 ≠ [] -> runs s s'.
Proof using Type.
  intros [W1 W2 W3 W4 W5 W6 W7 W7a W8 W9] Hth0 Hst Hne. split; [done|done|done|done| | |].
  - intros t' th Ht'. destruct (decide (t' = t)) as [->|Hne'].
    + destruct W2 as (th1 & th' & E & Hth' & Hid & Hs & Hw). rewrite Ht' in E. injection E as <-.
      rewrite Ht' in Hth0. injection Hth0 as ->. exists th'. split_and!; try done; by right.
    + pose proof (W3 t' Hne') as E. rewrite Ht' in E. destruct (threads s' !! t') as [th'|]; [|done].
      exists th'. assert (wfields th' = wfields th) as Hf by (change (Some (wfields th') = Some (wfields th)) in E; by apply (inj Some) in E).
      pose proof (wfields_ident _ _ Hf). injection Hf as _ Hst' _ _ Hw _ _ _. rewrite Hst', Hw.
      split_and!; try done; by left.
  - intros t' [th' Ht']. destruct (decide (t' = t)) as [->|Hne']; [eauto|].
    pose proof (W3 t' Hne') as E. rewrite Ht' in E. destruct (threads s !! t'); [eauto|done].
  - intros o w Ho. destruct (W4 _ _ Ho) as (w' & Hw' & [= E1 E2]). exists w'. split_and!; [done|done|].
    intros t'. rewrite E1. intros [_ ?]%list_elem_of_filter. done.
Qed.

Lemma wakeup_one_ok o w t s : wf s -> others_wait o s -> objects s !! o = Some w -> t ∈ waiting_threads w ->
  runnable o t s -> exists s', wakeup_one other_wakeup o t s = Done s' /\ woken t s s'.
Proof using other_quiet.
  intros Hwf Hex Ho Hin [Hsw Hall]. destruct (waiter_status s o w t Hwf Hex Ho Hin) as (th & Hth & Hino & Hne & Hst & Hcb).
  pose proof Hwf as [Hb Hf]. unfold wakeup_one, the_thread. rewrite Hth. cbn [of_opt mbind outcome_bind].
  assert (exists s1, (if decide (status th = WaitSynchAll) then acquire_all (wait_objects th) t s
       else Acquire o t s) = Done s1 /\ base_ok s1 /\ same_waits s s1 /\
         forall h, h ≠ t -> keeps_locks h s s1) as (s1 & -> & Hb1 & Hs1 & Hk1).
  { destruct (decide (status th = WaitSynchAll)) as [Ha|Ha].
    - apply (acquire_all_ok (wait_objects th) t s th Hb Hth (w_all _ (b_w _ Hb) _ _ Hth Ha)).
      intros o' Ho'. split; [by apply (w_exists _ (b_w _ Hb) t th)|by apply (Hall th)].
    - destruct (Acquire_ok s o w t th Hb Ho Hth Hsw) as (s1 & -> & Hacq). exists s1.
      pose proof Hacq as []. split_and!; try done. intros h. by eapply acquired_keeps. }
  cbn [mbind outcome_bind]. destruct (sw_thread _ _ _ _ Hs1 Hth) as (th1 & Hth1 & Hf1).
  assert (wait_objects th1 = wait_objects th /\ wakeup_callback th1 = wakeup_callback th) as [Hw1 Hc1]
    by (by injection Hf1).
  destruct (signal_callback_ok o t th1 s1 Hth1) as (s2 & -> & Hq2); [congruence|by rewrite Hc1|].
  cbn [mbind outcome_bind]. assert (same_waits s s2) as Hs2 by (etrans; [exact Hs1|by apply quiet_waits]).
  destruct (sw_thread _ _ _ _ Hs2 Hth) as (th2 & Hth2 & Hf2). rewrite Hth2.
  cbn [of_opt mbind outcome_bind].
  assert (wf s2) as Hwf2 by (split; [by eapply quiet_base|by eapply w_from_same]).
  assert (resumable (status th2) = true) as Hst2.
  { injection Hf2 as _ -> _ _ _ _ _ _. by destruct (status th). }
  destruct (release_waiter_ok s2 t th2 Hwf2 Hth2 Hst2) as (s3 & E & [W1 W2 W3 W4 W5 W6 W7 W7a W8 W9] & _).
  exists s3. split; [exact E|]. split; [done| | | | | | | | |done].
  { destruct W2 as (th2' & th3 & E2 & Hth3 & Hid & ? & ?). exists th, th3. split_and!; try done.
    rewrite Hth2 in E2. injection E2 as <-. by rewrite Hid, (wfields_ident _ _ Hf2). }
  - intros t' Hne'. rewrite W3 by done. rewrite <- !lookup_fmap. by rewrite (sw_threads _ _ Hs2).
  - intros o' w0 Hw0. destruct (sw_object _ _ _ _ Hs2 Hw0) as (w2 & Hw2 & [= E2 E2']).
    destruct (W4 _ _ Hw2) as (w3 & ? & E3). exists w3. split; [done|]. by rewrite E3, E2, E2'.
  - by rewrite W5, (sw_current _ _ Hs2).
  - by rewrite W6, (sw_procs _ _ Hs2).
  - by rewrite W7, (sw_clocks _ _ Hs2).
  - by rewrite W7a, (sw_arbiters _ _ Hs2).
  - intros h Hh. etrans; [by apply Hk1|]. etrans; [by apply keeps_same, quiet_locks|by apply W8].
Qed.

(** ** Waking everyone who can run *)

(** The rounds of the loop, each waking a runnable waiter of best priority. *)
Inductive drains (o : Z) : kern -> list Z -> kern -> Prop :=
| drains_nil s : (forall w t, objects s !! o = Some w -> t ∈ waiting_threads w -> ~ runnable o t s) ->
    drains o s [] s
| drains_cons s w t th s1 ts s2 : objects s !! o = Some w -> t ∈ waiting_threads w -> runnable o t s ->
    threads s !! t = Some th ->
    (forall t' th', t' ∈ waiting_threads w -> threads s !! t' = Some th' -> runnable o t' s ->
       (current_priority th <= current_priority th')%nat) ->
    wakeup_one other_wakeup o t s = Done s1 -> woken t s s1 -> drains o s1 ts s2 ->
    drains o s (t :: ts) s2.

Lemma others_wait_woken o t s s' w : others_wait o s -> objects s !! o = Some w -> woken t s s' ->
  others_wait o s'.
Proof using Type.
  intros Hex Ho Hwk w' t' Hw' Ht'. destruct (wk_list _ _ _ Hwk _ _ Ho) as (w2 & E & [= E2 _]).
  rewrite Hw' in E. injection E as <-. rewrite E2 in Ht'. apply list_elem_of_filter in Ht' as [_ Ht']. eauto.
Qed.

Lemma GetHighest_ok o w s : wf s -> others_wait o s -> objects s !! o = Some w ->
  exists r, GetHighestPriorityReadyThread o s = Done r /\
    match r with
    | None => forall t, t ∈ waiting_threads w -> ~ runnable o t s
    | Some t => t ∈ waiting_threads w /\ runnable o t s /\ exists th, threads s !! t = Some th /\
        forall t' th', t' ∈ waiting_threads w -> threads s !! t' = Some th' -> runnable o t' s ->
          (current_priority th <= current_priority th')%nat
    end.
Proof using Type.
  intros Hwf Hex Ho. pose proof Hwf as [Hb Hf]. unfold GetHighestPriorityReadyThread, the_object. rewrite Ho.
  cbn [of_opt mbind outcome_bind].
  destruct (best_ready_ok o w s Hb Ho (waiting_threads w)) with (cand := @None Z) (cp := S ThreadPrioLowest)
    as (r & Hr & Hcase).
  { intros t Ht. destruct (waiter_status s o w t Hwf Hex Ho Ht) as (th & ? & _ & _ & ? & _). eauto. }
  exists r. split; [exact Hr|]. destruct Hcase as [[-> H]|(t & th & -> & Ht & Hth & Hrun & _ & H)].
  - intros t Ht Hrun. destruct (waiter_status s o w t Hwf Hex Ho Ht) as (th & Hth & _).
    specialize (H _ _ Ht Hth Hrun). pose proof (prio_bound s t th (b_q _ Hb) (b_t _ Hb) Hth).
    unfold ThreadPrioLowest in H. lia.
  - split; [done|]. split; [done|]. exists th. split; [exact Hth|]. exact H.
Qed.

Lemma wakeup_loop_ok o : forall n w s, wf s -> others_wait o s -> objects s !! o = Some w ->
  (length (waiting_threads w) <= n)%nat ->
  exists s' ts, wakeup_loop other_wakeup n o s = Done s' /\ drains o s ts s' /\ wf s' /\
    exists w', objects s' !! o = Some w'.
Proof using other_quiet.
  induction n as [|n IH]; intros w s Hwf Hex Ho Hlen; destruct (GetHighest_ok o w s Hwf Hex Ho) as (r & Hr & Hcase);
    cbn [wakeup_loop]; rewrite Hr; cbn [mbind outcome_bind]; destruct r as [t|].
  - destruct Hcase as (Ht & _). destruct (waiting_threads w); [by apply not_elem_of_nil in Ht|simpl in Hlen; lia].
  - exists s, []. split_and!; [done| |done|eauto]. constructor. intros w' t Hw'. rewrite Ho in Hw'.
    injection Hw' as <-. apply Hcase.
  - destruct Hcase as (Ht & Hrun & th & Hth & Hbest).
    destruct (wakeup_one_ok o w t s Hwf Hex Ho Ht Hrun) as (s1 & Hs1 & Hwk). rewrite Hs1. cbn [mbind outcome_bind].
    destruct (wk_list _ _ _ Hwk _ _ Ho) as (w1 & Ho1 & [= Hl1 _]).
    destruct (IH w1 s1) as (s2 & ts & -> & Hd & Hwf2 & Hw2); [apply Hwk|by eapply others_wait_woken|done| |].
    { rewrite Hl1. pose proof (length_filter_lt (fun x => x ≠ t) (waiting_threads w) t Ht). 
      assert (~ ~ t = t) as Hnn by tauto. specialize (H (fun f => f eq_refl)). lia. }
    exists s2, (t :: ts). split_and!; [done| |done|done]. by eapply drains_cons.
  - exists s, []. split_and!; [done| |done|eauto]. constructor. intros w' t Hw'. rewrite Ho in Hw'.
    injection Hw' as <-. apply Hcase.
Qed.

Definition is_ready (s : kern) (t : Z) : Prop := exists th, threads s !! t = Some th /\ status th = Ready.

Lemma drains_ready o s ts s' : drains o s ts s' ->
  (forall t, is_ready s t -> is_ready s' t) /\ (forall t, t ∈ ts -> is_ready s' t).
Proof using Type.
  clear other_quiet. induction 1 as [|s w t th s1 ts s2 Ho Ht Hrun Hth Hbest Hone Hwk Hd [IH1 IH2]]; [set_solver|].
  destruct (wk_thread _ _ _ Hwk) as (_ & th1 & _ & Hth1 & _ & Hst1 & _).
  assert (is_ready s1 t) as Hr1 by by exists th1. split.
  - intros t' (th' & Hth' & Hst'). apply IH1. destruct (decide (t' = t)) as [->|Hne]; [done|].
    pose proof (wk_others _ _ _ Hwk t' Hne) as E. rewrite Hth' in E.
    destruct (threads s1 !! t') as [th2|] eqn:E2; [|done]. injection E as _ E _ _ _ _ _ _.
    exists th2. by rewrite E.
  - intros t' [->|Ht']%elem_of_cons; auto.
Qed.

(** A waiter woken by a free mutex has it locked. *)
Lemma wakeup_one_locks o w p t s s' : wf s -> others_wait o s -> objects s !! o = Some w -> kind_of w = KMutex 0 p None ->
  t ∈ waiting_threads w -> runnable o t s -> wakeup_one other_wakeup o t s = Done s' ->
  lock_at s' o = Some (KMutex 1 0 (Some t)).
Proof using other_quiet.
  intros Hwf Hex Ho Hk Hin [Hsw Hall]. destruct (waiter_status s o w t Hwf Hex Ho Hin) as (th & Hth & Hino & Hne & Hst & Hcb).
  pose proof Hwf as [Hb Hf]. unfold wakeup_one, the_thread. rewrite Hth. cbn [of_opt mbind outcome_bind].
  assert (exists s1, (if decide (status th = WaitSynchAll) then acquire_all (wait_objects th) t s
       else Acquire o t s) = Done s1 /\ base_ok s1 /\ same_waits s s1 /\ lock_at s1 o = Some (KMutex 1 0 (Some t)))
    as (s1 & -> & Hb1 & Hs1 & Hk1).
  { destruct (decide (status th = WaitSynchAll)) as [Ha|Ha].
    - pose proof (w_all _ (b_w _ Hb) _ _ Hth Ha) as Hnd.
      assert (Hos : forall o', o' ∈ wait_objects th -> is_Some (objects s !! o') /\ ShouldWait o' t s = Done false)
        by (intros o' Ho'; split; [by apply (w_exists _ (b_w _ Hb) t th)|by apply (Hall th)]).
      destruct (acquire_all_ok (wait_objects th) t s th Hb Hth Hnd Hos) as (s1 & E & Hb1 & Hs1 & _).
      exists s1. split_and!; try done. by apply (acquire_all_lock (wait_objects th) t s s1 o w p th).
    - destruct (Acquire_ok s o w t th Hb Ho Hth Hsw) as (s1 & E & []). exists s1. split_and!; try done. by apply (Acquire_lock s s1 o w p t th). }
  cbn [mbind outcome_bind]. destruct (sw_thread _ _ _ _ Hs1 Hth) as (th1 & Hth1 & Hf1).
  assert (wait_objects th1 = wait_objects th /\ wakeup_callback th1 = wakeup_callback th) as [Hw1 Hc1] by (by injection Hf1).
  destruct (signal_callback_ok o t th1 s1 Hth1) as (s2 & -> & Hq2); [congruence|by rewrite Hc1|].
  cbn [mbind outcome_bind]. assert (same_waits s s2) as Hs2 by (etrans; [exact Hs1|by apply quiet_waits]).
  destruct (sw_thread _ _ _ _ Hs2 Hth) as (th2 & Hth2 & Hf2). rewrite Hth2. cbn [of_opt mbind outcome_bind].
  assert (wf s2) as Hwf2 by (split; [by eapply quiet_base|by eapply w_from_same]).
  assert (resumable (status th2) = true) as Hst2 by (injection Hf2 as _ -> _ _ _ _ _ _; by destruct (status th)).
  destruct (release_waiter_ok s2 t th2 Hwf2 Hth2 Hst2) as (s3 & E & _ & Hl). intros E'.
  assert (s3 = s') as -> by (enough (Done s3 = Done s') as [= ->] by done; etrans; [symmetry; exact E|exact E']).
  rewrite Hl. unfold lock_at. by rewrite (qt_objects _ _ Hq2).
Qed.

(** A free mutex wakes nobody, or one waiter, who then has it. *)
Lemma drains_mutex m w p s ts s' : wf s -> others_wait m s -> objects s !! m = Some w -> kind_of w = KMutex 0 p None ->
  drains m s ts s' -> (ts = [] /\ s' = s) \/
  exists u, ts = [u] /\ u ∈ waiting_threads w /\ lock_at s' m = Some (KMutex 1 0 (Some u)).
Proof using other_quiet.
  intros Hwf Hex Ho Hk Hd. destruct Hd as [|s w1 t th s1 ts s2 Ho1 Ht Hrun Hth Hbest Hone Hwk Hd]; [by left|right].
  rewrite Ho in Ho1. injection Ho1 as <-. exists t.
  pose proof (wakeup_one_locks m w p t s s1 Hwf Hex Ho Hk Ht Hrun Hone) as Hl.
  destruct Hd as [|s1 w2 u thu s2 ts s3 Ho2 Hu [Hsw _] _ _ _ _ _]; [done|exfalso].
  destruct (wk_list _ _ _ Hwk _ _ Ho) as (w2' & E & [= E2 _]). rewrite Ho2 in E. injection E as <-.
  rewrite E2 in Hu. apply list_elem_of_filter in Hu as [Hne _].
  rewrite (ShouldWait_locked m u t 1 s1 Hl ltac:(lia) ltac:(done)) in Hsw. done.
Qed.

Lemma drains_done o s ts s' : drains o s ts s' ->
  forall w t, objects s' !! o = Some w -> t ∈ waiting_threads w -> ~ runnable o t s'.
Proof using Type. by induction 1. Qed.

Lemma drains_others o s ts s' : drains o s ts s' -> forall t, t ∉ ts ->
  wfields <$> threads s' !! t = wfields <$> threads s !! t.
Proof using Type.
  clear other_quiet. induction 1 as [|s w t th s1 ts s2 Ho Ht Hrun Hth Hbest Hone Hwk Hd IH]; [done|]. intros t' Ht'.
  rewrite IH by set_solver. apply (wk_others _ _ _ Hwk). set_solver.
Qed.

(** The reset of a pulse. *)
Definition settle (o : Z) (s : kern) : kern :=
  match objects s !! o with
  | Some w => match kind_of w with
              | KEvent Pulse _ => set_kind o (KEvent Pulse false) s
              | KTimer Pulse i n _ cb => set_kind o (KTimer Pulse i n false cb) s
              | _ => s
              end
  | None => s
  end.

Lemma settle_cases o s : settle o s = s \/ exists w k, objects s !! o = Some w /\
  settle o s = set_kind o k s /\ is_mutex (kind_of w) = false /\ is_mutex k = false /\
  shape k = shape (kind_of w) /\
  forall t, ShouldWait o t (set_kind o k s) = Done true.
Proof using Type.
  unfold settle. destruct (objects s !! o) as [w|] eqn:Ho; [|by left].
  assert (forall k t, (match k with KEvent _ b | KTimer _ _ _ b _ => b = false | _ => False end) ->
    ShouldWait o t (set_kind o k s) = Done true) as Hsw.
  { intros k t Hk. unfold ShouldWait, the_object. rewrite objects_kind, decide_True, Ho by done.
    simpl. destruct k; try done; by rewrite Hk. }
  destruct (kind_of w) as [[]| | |[]|] eqn:Hk; try by left.
  - right. exists w, (KEvent Pulse false). rewrite Hk. split_and!; try done. intros t. by apply Hsw.
  - right. eexists w, _. rewrite Hk. split_and!; try done. intros t. by apply Hsw.
Qed.

Lemma settle_wf o s : wf s -> wf (settle o s).
Proof using Type.
  intros [Hb Hf]. destruct (settle_cases o s) as [->|(w & k & Ho & -> & H1 & H2 & H3 & _)]; [done|].
  destruct (acquired_kind s o 0 w k Hb Ho H1 H2 H3) as [H _ _ _ _]. split; [done|].
  eapply w_from_same; [|done]. by eapply sw_kind.
Qed.

Lemma drains_runs o s ts s' : wf s -> others_wait o s -> drains o s ts s' -> runs s s'.
Proof using Type.
  clear other_quiet. intros Hwf Hex Hd. induction Hd as [|s w t th s1 ts s2 Ho Ht Hrun Hth Hbest Hone Hwk Hd IH]; [done|].
  etrans; [|apply IH; [apply Hwk|by eapply others_wait_woken]]. destruct (waiter_status s o w t Hwf Hex Ho Ht) as (th0 & Hth0 & _ & Hne & Hst & _).
  by eapply woken_runs.
Qed.

(** The exempt thread keeps what it has locked. *)
Lemma drains_keeps o s ts s' h : others_wait o s -> drains o s ts s' -> ex = Some h -> keeps_locks h s s'.
Proof using Type.
  clear other_quiet. intros Hex Hd Hh.
  induction Hd as [|s w t th s1 ts s2 Ho Ht Hrun Hth Hbest Hone Hwk Hd IH]; [done|].
  assert (h ≠ t) as Hne by (intros ->; by destruct (Hex _ _ Ho Ht)).
  etrans; [by apply (wk_locks _ _ _ Hwk)|]. by apply IH; eapply others_wait_woken.
Qed.

Lemma settle_keeps o s h : keeps_locks h s (settle o s).
Proof using Type.
  destruct (settle_cases o s) as [->|(w & k & Ho & -> & H1 & H2 & _)]; [done|].
  split; [|done].
  intros o' n _. unfold lock_at. rewrite objects_kind. destruct (decide (o' = o)) as [->|]; [|done]. rewrite Ho.
  simpl. unfold lock_of. by destruct (kind_of w), k.
Qed.

Lemma settle_runs o s : runs s (settle o s).
Proof using Type.
  destruct (settle_cases o s) as [->|(w & k & Ho & -> & _ & _ & Hk & _)]; [done|].
  apply sw_runs. by eapply sw_kind.
Qed.

(** The form used by the operations below. *)
Lemma wakeup_all_ok o w s : wf s -> others_wait o s -> objects s !! o = Some w ->
  exists s', WakeupAllWaitingThreads other_wakeup o s = Done s' /\ wf s' /\ runs s s' /\
    (forall w' t, objects s' !! o = Some w' -> t ∈ waiting_threads w' -> ~ runnable o t s') /\
    (forall h, ex = Some h -> keeps_locks h s s').
Proof using other_quiet.
  intros Hwf Hex Ho. unfold WakeupAllWaitingThreads, the_object. rewrite Ho. cbn [of_opt mbind outcome_bind].
  destruct (wakeup_loop_ok o _ w s Hwf Hex Ho (Nat.le_refl _)) as (s1 & ts & -> & Hd & Hwf1 & w1 & Hw1).
  cbn [mbind outcome_bind]. rewrite Hw1. cbn [of_opt mbind outcome_bind]. exists (settle o s1). split_and!.
  - unfold settle. rewrite Hw1. done.
  - by apply settle_wf.
  - etrans; [by eapply drains_runs|apply settle_runs].
  - intros w' t Hw' Hin Hrun. destruct (settle_cases o s1) as [E|(w2 & k & Ho2 & E & _ & _ & _ & Hsw)].
    + rewrite E in *. by eapply drains_done.
    + rewrite E in *. destruct Hrun as [Hrun _]. by rewrite Hsw in Hrun.
  - intros h Hh. etrans; [by eapply drains_keeps|apply settle_keeps].
Qed.

(** Waking the waiters of an object never fails; it wakes, one after the other, a
    runnable waiter of best priority with its objects acquired for it, makes
    them ready, leaves no waiter that could run, does not touch other threads
    and keeps the invariants of the heap. *)
Lemma wakeup_all_drains o w s : wf s -> others_wait o s -> objects s !! o = Some w ->
  exists s1 ts, WakeupAllWaitingThreads other_wakeup o s = Done (settle o s1) /\ drains o s ts s1 /\
    wf (settle o s1) /\ (forall t, t ∈ ts -> is_ready (settle o s1) t) /\
    (forall t, t ∉ ts -> wfields <$> threads (settle o s1) !! t = wfields <$> threads s !! t) /\
    forall w' t, objects (settle o s1) !! o = Some w' -> t ∈ waiting_threads w' ->
      ~ runnable o t (settle o s1).
Proof using other_quiet.
  intros Hwf Hex Ho. unfold WakeupAllWaitingThreads, the_object. rewrite Ho. cbn [of_opt mbind outcome_bind].
  destruct (wakeup_loop_ok o _ w s Hwf Hex Ho (Nat.le_refl _)) as (s1 & ts & -> & Hd & Hwf1 & w1 & Hw1).
  cbn [mbind outcome_bind]. rewrite Hw1. cbn [of_opt mbind outcome_bind]. exists s1, ts.
  assert (threads (settle o s1) = threads s1) as Et.
  { destruct (settle_cases o s1) as [->|(? & ? & _ & -> & _)]; done. }
  unfold is_ready. rewrite Et. split_and!.
  - unfold settle. rewrite Hw1. done.
  - done.
  - by apply settle_wf.
  - apply (drains_ready _ _ _ _ Hd).
  - by apply drains_others with (o := o).
  - intros w' t Hw' Hin Hrun. destruct (settle_cases o s1) as [E|(w2 & k & Ho2 & E & _ & _ & _ & Hsw)].
    + rewrite E in *. by eapply drains_done.
    + rewrite E in *. destruct Hrun as [Hrun _]. by rewrite Hsw in Hrun.
Qed.

End Waking.

End Exempt.

End KW.
