(* ===== verification/KernelOps.v ===== *)
(** * Operations of kernel objects, threads and the scheduler

    [Mutex], [Semaphore], [Event], [Timer] and [AddressArbiter]
    (core/hle/kernel/mutex.cpp, semaphore.cpp, event.cpp, timer.cpp,
    address_arbiter.cpp) and the life cycle of threads: [Thread::Stop], context
    switches, [ThreadManager::Reschedule], timeouts (thread.cpp). *)
From stdpp Require Import strings.
From S2P Require Import Prelude Results ThreadQueueList HandleTable CoreTiming ResourceLimit Kernel.

Module Ops.
Import Res Kern.

Definition add_object (o : Z) (k : kind) (s : kern) : kern :=
  with_objects (<[o := mk_wobj [] k]> (objects s)) s.

Definition GetCurrentThread (s : kern) : outcome (option Z) :=
  m ← the_manager (current_cpu s) s; Done (current_thread m).

Section Ops.
Context (other_wakeup : Z -> wakeup_reason -> Z -> option Z -> kern -> outcome kern).
Abbreviation WakeupAllWaitingThreads := (WakeupAllWaitingThreads other_wakeup).
Abbreviation run_wakeup_callback := (run_wakeup_callback other_wakeup).

(** ** Mutexes *)

(** [KernelSystem::CreateMutex]; [o] is the address of the new object. *)
Definition CreateMutex (o : Z) (initial_locked : bool) (s : kern) : outcome kern :=
  let s := add_object o (KMutex 0 0 None) s in
  if initial_locked then
    cur ← GetCurrentThread s;
    t ← of_opt FNullDeref cur;
    Acquire o t s
  else Done s.

(** The loop over the mutexes a thread holds. *)
Fixpoint release_mutexes (ms : list Z) (s : kern) : outcome kern :=
  match ms with
  | [] => Done s
  | m :: ms =>
      w ← the_object m s;
      match kind_of w with
      | KMutex _ p _ =>
          s ← WakeupAllWaitingThreads m (set_kind m (KMutex 0 p None) s);
          release_mutexes ms s
      | _ => Stop FNullDeref
      end
  end.
Definition ReleaseThreadMutexes (t : Z) (s : kern) : outcome kern :=
  th ← the_thread t s;
  s ← release_mutexes (held_mutexes th) s;
  Done (upd_thread t (set_held_mutexes []) s).

Definition ResultMutexNotHeld : result := make ErrCodes.WrongLockingThread Mod_Kernel InvalidArgument Permanent.
Definition ResultMutexNotLocked : result := make Desc.InvalidResultValue Mod_Kernel InvalidState Permanent.

(** [Mutex::Release] *)
Definition Mutex_Release (m t : Z) (s : kern) : outcome (result * kern) :=
  w ← the_object m s;
  match kind_of w with
  | KMutex n p holder =>
      if negb (bool_decide (holder = Some t)) then Done (ResultMutexNotHeld, s)
      else if n <=? 0 then Done (ResultMutexNotLocked, s)
      else
        let s := set_kind m (KMutex (n - 1) p holder) s in
        if n - 1 =? 0 then
          let s := upd_thread t (fun th => set_held_mutexes (set_erase m (held_mutexes th)) th) s in
          s ← UpdatePriority t s;
          s ← WakeupAllWaitingThreads m (set_kind m (KMutex (n - 1) p None) s);
          Done (ResultSuccess, PrepareReschedule s)
        else Done (ResultSuccess, s)
  | _ => Stop FNullDeref
  end.

(** ** Semaphores *)

Definition CreateSemaphore (o initial_count max_count : Z) (s : kern) : outcome (result * kern) :=
  if initial_count <=? max_count then Done (ResultSuccess, add_object o (KSemaphore max_count initial_count) s)
  else Done (ResultInvalidCombinationKernel, s).

(** [Semaphore::Release]; the sum is an [s32] and wraps. *)
Definition Semaphore_Release (o release_count : Z) (s : kern) : outcome (result_val Z * kern) :=
  w ← the_object o s;
  match kind_of w with
  | KSemaphore max available =>
      if s32 (release_count + available) <=? max then
        s ← WakeupAllWaitingThreads o (set_kind o (KSemaphore max (s32 (available + release_count))) s);
        Done (Val available, s)
      else Done (Err ResultOutOfRangeKernel, s)
  | _ => Stop FNullDeref
  end.

(** ** Events *)

Definition CreateEvent (o : Z) (reset : reset_type) (s : kern) : kern := add_object o (KEvent reset false) s.

Definition Event_set (o : Z) (signaled : bool) (s : kern) : outcome kern :=
  w ← the_object o s;
  match kind_of w with KEvent r _ => Done (set_kind o (KEvent r signaled) s) | _ => Stop FNullDeref end.
Definition Event_Signal (o : Z) (s : kern) : outcome kern :=
  s ← Event_set o true s; WakeupAllWaitingThreads o s.
Definition Event_Clear (o : Z) (s : kern) : outcome kern := Event_set o false s.

(** ** Timers *)

Definition CreateTimer (o : Z) (reset : reset_type) (s : kern) : kern :=
  let id := u64 (next_timer_callback_id s + 1) in
  with_timers (<[id := o]> (timer_table s)) id (add_object o (KTimer reset 0 0 false id) s).

Definition Timer_Cancel (o : Z) (s : kern) : outcome kern :=
  w ← the_object o s;
  match kind_of w with
  | KTimer _ _ _ _ cb => Done (with_timing (Timing.UnscheduleEvent timer_callback_event_type cb (timing s)) s)
  | _ => Stop FNullDeref
  end.

Definition Timer_set (o : Z) (f : kind -> kind) (s : kern) : outcome kern :=
  w ← the_object o s;
  match kind_of w with KTimer _ _ _ _ _ => Done (set_kind o (f (kind_of w)) s) | _ => Stop FNullDeref end.
Definition timer_signaled (b : bool) (k : kind) : kind :=
  match k with KTimer r i n _ cb => KTimer r i n b cb | k => k end.
Definition timer_delays (initial interval : Z) (k : kind) : kind :=
  match k with KTimer r _ _ b cb => KTimer r initial interval b cb | k => k end.
Definition Timer_Clear (o : Z) (s : kern) : outcome kern := Timer_set o (timer_signaled false) s.

Definition schedule_timer (cycles cb : Z) (s : kern) : outcome kern :=
  tm ← Timing.ScheduleEvent cycles timer_callback_event_type cb None false (timing s);
  Done (with_timing tm s).

Definition Timer_Signal (o cycles_late : Z) (s : kern) : outcome kern :=
  s ← Timer_set o (timer_signaled true) s;
  s ← WakeupAllWaitingThreads o s;
  w ← the_object o s;
  match kind_of w with
  | KTimer _ _ interval _ cb =>
      if interval =? 0 then Done s
      else schedule_timer (s64 (nsToCycles_u64 interval - cycles_late)) cb s
  | _ => Stop FNullDeref
  end.

Definition Timer_Set (o initial interval : Z) (s : kern) : outcome kern :=
  s ← Timer_Cancel o s;
  s ← Timer_set o (timer_delays initial interval) s;
  if initial =? 0 then Timer_Signal o 0 s
  else
    w ← the_object o s;
    match kind_of w with
    | KTimer _ _ _ _ cb => schedule_timer (nsToCycles initial) cb s
    | _ => Stop FNullDeref
    end.

(** [TimerManager::TimerCallback]; [at] throws for an unknown id. *)
Definition TimerCallback (callback_id cycles_late : Z) (s : kern) : outcome kern :=
  o ← of_opt FOutOfRange (timer_table s !! callback_id);
  Timer_Signal o cycles_late s.

(** ** Address arbiters *)

Definition CreateAddressArbiter (a : Z) (s : kern) : kern := with_arbiters (<[a := []]> (arbiters s)) s.

Definition arbiter_waiters (a : Z) (s : kern) : outcome (list Z) := of_opt FNullDeref (arbiters s !! a).
Definition set_waiters (a : Z) (l : list Z) (s : kern) : kern := with_arbiters (<[a := l]> (arbiters s)) s.

(** [AddressArbiter::WaitThread] *)
Definition WaitThread (a t wait_address : Z) (s : kern) : outcome kern :=
  l ← arbiter_waiters a s;
  _ ← the_thread t s;
  let s := upd_thread t (fun th => set_status WaitArb (set_wait_address wait_address th)) s in
  Done (set_waiters a (filter (fun x => x ≠ t) l ++ [t]) s).

Definition in_arb (s : kern) (t : Z) : bool :=
  match threads s !! t with Some th => bool_decide (status th = WaitArb) | None => false end.
Definition waits_at (address : Z) (s : kern) (t : Z) : bool :=
  match threads s !! t with Some th => wait_address th =? address | None => false end.
Definition threads_exist (l : list Z) (s : kern) : outcome unit :=
  of_opt FNullDeref (if forallb (fun t => bool_decide (is_Some (threads s !! t))) l then Some tt else None).

(** [PruneStaleWaiters], whose reports to the log are not modelled. *)
Definition PruneStaleWaiters (a : Z) (s : kern) : outcome kern :=
  l ← arbiter_waiters a s;
  _ ← threads_exist l s;
  Done (set_waiters a (filter (fun t => in_arb s t = true) l) s).

Fixpoint resume_all (ts : list Z) (s : kern) : outcome kern :=
  match ts with [] => Done s | t :: ts => s ← ResumeFromWait t s; resume_all ts s end.

(** [std::stable_partition] puts the threads of the address last. *)
Definition ResumeAllThreads (a address : Z) (s : kern) : outcome (Z * kern) :=
  s ← PruneStaleWaiters a s;
  l ← arbiter_waiters a s;
  let matching := filter (fun t => waits_at address s t = true) l in
  let rest := filter (fun t => waits_at address s t = false) l in
  s ← resume_all matching s;
  Done (Z.of_nat (length matching), set_waiters a rest s).

(** [std::min_element]: the first of the best priority. *)
Fixpoint min_priority (s : kern) (ts : list Z) (best : Z * nat) : outcome Z :=
  match ts with
  | [] => Done best.1
  | t :: ts =>
      th ← the_thread t s;
      min_priority s ts (if (current_priority th <? best.2)%nat then (t, current_priority th) else best)
  end.

Definition ResumeHighestPriorityThread (a address : Z) (s : kern) : outcome (bool * kern) :=
  s ← PruneStaleWaiters a s;
  l ← arbiter_waiters a s;
  let matching := filter (fun t => waits_at address s t = true) l in
  let rest := filter (fun t => waits_at address s t = false) l in
  match matching with
  | [] => Done (false, set_waiters a rest s)
  | t0 :: ts =>
      th0 ← the_thread t0 s;
      t ← min_priority s ts (t0, current_priority th0);
      s ← ResumeFromWait t s;
      Done (true, set_waiters a (rest ++ erase_first t matching) s)
  end.

Fixpoint resume_first (n : nat) (a address : Z) (s : kern) : outcome (Z * kern) :=
  match n with
  | O => Done (0, s)
  | S n =>
      '(b, s) ← ResumeHighestPriorityThread a address s;
      '(k, s) ← resume_first n a address s;
      Done ((if (b : bool) then 1 else 0) + k, s)
  end.

Inductive arbitration_type :=
| ASignal | WaitIfLessThan | DecrementAndWaitIfLessThan | WaitIfLessThanWithTimeout
| DecrementAndWaitIfLessThanWithTimeout.
Definition arbitration_of (type : Z) : option arbitration_type :=
  nth_error [ASignal; WaitIfLessThan; DecrementAndWaitIfLessThan; WaitIfLessThanWithTimeout;
             DecrementAndWaitIfLessThanWithTimeout] (Z.to_nat type).

(** [AddTicks] on the CPU of the calling thread. *)
Definition penalty (s : kern) : kern :=
  with_timing (Timing.with_timer (current_cpu s) (Timing.AddTicks 1614) (timing s)) s.

Definition signal_threads (a t address value : Z) (s : kern) : outcome kern :=
  '(n, s) ← (if value <? 0 then ResumeAllThreads a address s
             else resume_first (Z.to_nat value) a address s);
  th ← the_thread t s;
  Done (if (n =? 0) && (49 <=? current_priority th)%nat then penalty s else s).

(** [memory_value] is the word at the address; the second result is the word
    to store there. *)
Definition ArbitrateAddress (a t : Z) (type : Z) (address value nanoseconds memory_value : Z) (s : kern)
  : outcome (result * option Z * kern) :=
  let less := s32 memory_value <? value in
  let timed (s : kern) :=
    WakeAfterDelay t (s64 nanoseconds) false (upd_thread t (set_wakeup_callback (Some (CbArb a))) s) in
  match arbitration_of type with
  | None => Done (ResultInvalidEnumValueFnd, None, s)
  | Some ASignal => s ← signal_threads a t address value s; Done (ResultSuccess, None, s)
  | Some WaitIfLessThan =>
      if less then s ← WaitThread a t address s; Done (ResultSuccess, None, s)
      else Done (ResultSuccess, None, s)
  | Some WaitIfLessThanWithTimeout =>
      if less then s ← timed s; s ← WaitThread a t address s; Done (ResultTimeout, None, s)
      else Done (ResultTimeout, None, s)
  | Some DecrementAndWaitIfLessThan =>
      if less then
        s ← WaitThread a t address s; Done (ResultSuccess, Some (u32 (s32 memory_value - 1)), s)
      else Done (ResultSuccess, None, s)
  | Some DecrementAndWaitIfLessThanWithTimeout =>
      if less then
        s ← timed s;
        s ← WaitThread a t address s; Done (ResultTimeout, Some (u32 (s32 memory_value - 1)), s)
      else Done (ResultTimeout, None, s)
  end.

(** ** The life cycle of threads *)

(** [process->tls_slots[page].reset(slot)] *)
Definition free_tls (t : thread) (p : process) : process :=
  let page := u32 (tls_address t - TLS_AREA_VADDR) / TLS_PAGE_SIZE in
  let slot := u32 (tls_address t - TLS_AREA_VADDR) `mod` TLS_PAGE_SIZE / TLS_ENTRY_SIZE in
  set_tls_slots (alter (<[Z.to_nat slot := false]>) (Z.to_nat page) (tls_slots p)) p.

(** The end of [Thread::Stop]: give back the TLS slot. *)
Definition release_tls (t : Z) (s : kern) : outcome kern :=
  th ← the_thread t s;
  match owner_process th with
  | None => Done s
  | Some p =>
      pr ← the_process p s;
      let page := u32 (tls_address th - TLS_AREA_VADDR) / TLS_PAGE_SIZE in
      _ ← of_opt FOutOfRange (tls_slots pr !! Z.to_nat page);
      l ← of_opt FNullDeref (resource_limit pr);
      Done (upd_limit l (fun l => (Limit.Release Limit.Thread 1 l).2) (upd_process p (free_tls th) s))
  end.

Definition Thread_Stop (t : Z) (s : kern) : outcome kern :=
  th ← the_thread t s;
  let s := cancel_wakeup th s in
  let s := upd_manager (core_id th) (fun m => set_table (delete (thread_id th) (wakeup_callback_table m)) m) s in
  s ← (if decide (status th = Ready) then on_queue (core_id th) (Tql.remove (current_priority th) t) s
       else Done s);
  let s := upd_thread t (set_status Dead) s in
  s ← WakeupAllWaitingThreads t s;
  th ← the_thread t s;
  s ← remove_from_all (wait_objects th) t s;
  s ← ReleaseThreadMutexes t (upd_thread t (set_wait_objects []) s);
  release_tls t s.

Definition ExitCurrentThread (c : nat) (s : kern) : outcome kern :=
  m ← the_manager c s;
  t ← of_opt FNullDeref (current_thread m);
  s ← Thread_Stop t s;
  Done (PrepareReschedule (upd_manager c (fun m => set_thread_list (filter (fun x => x ≠ t) (thread_list m)) m) s)).

(** The loop of [TerminateProcessThreads] over the threads of a core. *)
Fixpoint stop_threads (c : nat) (p : Z) (ts : list Z) (s : kern) : outcome kern :=
  match ts with
  | [] => Done s
  | t :: ts =>
      m ← the_manager c s;
      th ← the_thread t s;
      if bool_decide (current_thread m = Some t) || negb (bool_decide (owner_process th = Some p))
      then stop_threads c p ts s
      else
        s ← Thread_Stop t s;
        stop_threads c p ts
          (upd_manager c (fun m => set_thread_list (erase_first t (thread_list m)) m) s)
  end.

Definition TerminateProcessThreads (c : nat) (p : Z) (s : kern) : outcome kern :=
  m ← the_manager c s;
  s ← stop_threads c p (thread_list m) s;
  m ← the_manager c s;
  match current_thread m with
  | None => Done s
  | Some t =>
      th ← the_thread t s;
      if decide (owner_process th = Some p) then ExitCurrentThread c s else Done s
  end.

(** ** Scheduling *)

Definition HaveReadyThreads (c : nat) (s : kern) : outcome bool :=
  m ← the_manager c s;
  r ← Tql.get_first (ready_queue m);
  Done (bool_decide (is_Some r)).

(** The loops of [PopNextReadyThread]: [better] is the priority to beat.
    Returns the thread, the queue and [unscheduled_ready_queue]. *)
Fixpoint pop_schedulable (fuel : nat) (better : option nat) (s : kern) (q : @Tql.tql Z) (skipped : list Z)
  : outcome (option Z * @Tql.tql Z * list Z) :=
  '(r, q) ← match better with Some p => Tql.pop_first_better p q | None => Tql.pop_first q end;
  match r with
  | None => Done (None, q, skipped)
  | Some t =>
      th ← the_thread t s;
      if can_schedule th then Done (Some t, q, skipped)
      else match fuel with
           | O => Stop FFuel
           | S fuel => pop_schedulable fuel better s q (skipped ++ [t])
           end
  end.

(** The skipped threads go back, the last one first. *)
Fixpoint push_skipped (s : kern) (ts : list Z) (q : @Tql.tql Z) : outcome (@Tql.tql Z) :=
  match ts with
  | [] => Done q
  | t :: ts => th ← the_thread t s; q ← Tql.push_back (current_priority th) t q; push_skipped s ts q
  end.

Definition PopNextReadyThread (c : nat) (s : kern) : outcome (option Z * kern) :=
  m ← the_manager c s;
  let fuel := length (concat (Tql.table (ready_queue m))) in
  '(running, p) ← match current_thread m with
                   | Some t => th ← the_thread t s;
                               Done (bool_decide (status th = Running), current_priority th)
                   | None => Done (false, O)
                   end;
  '(next, q, skipped) ← pop_schedulable fuel (if (running : bool) then Some p else None) s (ready_queue m) [];
  q ← push_skipped s (rev skipped) q;
  Done (match next with None => if (running : bool) then current_thread m else None | Some t => Some t end,
        upd_manager c (set_ready q) s).

(** [KernelSystem::SetCurrentProcessForCPU]; the page tables follow. *)
Definition SetCurrentProcessForCPU (p : Z) (core : nat) (s : kern) : kern :=
  if (current_cpu s =? core)%nat then with_current_process (Some p) (stored_processes s) s
  else with_current_process (current_process s) (<[core := Some p]> (stored_processes s)) s.

(** The first half of [SwitchContext]: put the previous thread aside. *)
Definition save_previous (c : nat) (s : kern) : outcome kern :=
  m ← the_manager c s;
  match current_thread m with
  | None => Done s
  | Some t =>
      th ← the_thread t s;
      tm ← of_opt FOutOfRange (Timing.timers (timing s) !! c);
      let s := upd_thread t (fun th => set_ctx (cpu m) (set_last_running_ticks (Timing.GetTicks tm) th)) s in
      if decide (status th = Running) then
        s ← on_queue c (Tql.push_front (current_priority th) t) s;
        Done (upd_thread t (set_status Ready) s)
      else Done s
  end.

Definition previous_process (c : nat) (s : kern) : option Z :=
  m ← managers s !! c; t ← current_thread m; th ← threads s !! t; owner_process th.

Definition SwitchContext (c : nat) (new_thread : option Z) (s : kern) : outcome kern :=
  let prev := previous_process c s in
  s ← save_previous c s;
  match new_thread with
  | None => Done (upd_manager c (set_current None) s)
  | Some t =>
      th ← the_thread t s;
      _ ← assert_ (bool_decide (status th = Ready));
      let s := cancel_wakeup th s in
      let s := upd_manager c (set_current (Some t)) s in
      s ← on_queue c (Tql.remove (current_priority th) t) s;
      let s := upd_thread t (set_status Running) s in
      p ← of_opt FAssert (owner_process th);
      let s := if decide (prev = Some p) then s else SetCurrentProcessForCPU p c s in
      Done (upd_manager c (set_cpu (ctx th) (tls_address th)) s)
  end.

Definition Reschedule (c : nat) (s : kern) : outcome kern :=
  m ← the_manager c s;
  '(next, s) ← PopNextReadyThread c s;
  match current_thread m, next with
  | None, None => Done s
  | _, _ => SwitchContext c next s
  end.

(** [WaitCurrentThread_Sleep] *)
Definition WaitCurrentThread_Sleep (c : nat) (s : kern) : outcome kern :=
  m ← the_manager c s;
  t ← of_opt FNullDeref (current_thread m);
  Done (upd_thread t (set_status WaitSleep) s).

(** [ThreadManager::ThreadWakeupCallback] *)
Definition ThreadWakeupCallback (c : nat) (thread_id : Z) (s : kern) : outcome kern :=
  m ← the_manager c s;
  match wakeup_callback_table m !! thread_id with
  | None => Done s
  | Some t =>
      th ← the_thread t s;
      s ← (if decide (status th ∈ [WaitSynchAny; WaitSynchAll; WaitArb; WaitHleEvent]) then
             s ← run_wakeup_callback Timeout t None s;
             th ← the_thread t s;
             s ← remove_from_all (wait_objects th) t s;
             Done (upd_thread t (set_wait_objects []) s)
           else Done s);
      ResumeFromWait t s
  end.

End Ops.
End Ops.
