(* ===== verification/KernelSystem.v ===== *)
(** * The kernel operations keep the kernel heap well formed

    [sys_ok] extends the invariants of the heap by those of the scheduler: the
    running thread of a core is its current thread.  Every operation of
    KernelOps succeeds on such a state and leads to one. *)
From stdpp Require Import strings.
From S2P Require Import Prelude Results ThreadQueueList HandleTable CoreTiming ResourceLimit Kernel KernelFacts KernelWakeup KernelOps.

Module KS.
Import Res Kern KF KW Ops.

Abbreviation wf := (wf None).

Record sys_rest (s : kern) : Prop := {
  so_current : forall c m t, managers s !! c = Some m -> current_thread m = Some t ->
    exists th, threads s !! t = Some th /\ core_id th = c;
  so_running : forall t th, threads s !! t = Some th -> status th = Running ->
    current_thread <$> managers s !! core_id th = Some (Some t);
  so_procs : forall t th, threads s !! t = Some th -> status th ≠ Dead ->
    exists p n l, owner_process th = Some p /\ pfields <$> processes s !! p = Some (n, Some l) /\
      u32 (tls_address th - TLS_AREA_VADDR) / TLS_PAGE_SIZE < Z.of_nat n;
  so_objects : forall t th, threads s !! t = Some th ->
    exists w, objects s !! t = Some w /\ kind_of w = KThread;
  so_clock : (Timing.current_timer (timing s) < length (Timing.timers (timing s)))%nat /\
    length (managers s) = length (Timing.timers (timing s));
  so_arbiters : forall a l t, arbiters s !! a = Some l -> t ∈ l -> is_Some (threads s !! t);
}.

Record sys_ok (s : kern) : Prop := { so_wf : wf s; so_rest : sys_rest s }.

Lemma current_lookup s c : current_thread <$> managers s !! c = (current_thread <$> managers s) !! c.
Proof. by rewrite list_lookup_fmap. Qed.

Lemma current_upd c f s : (forall m, current_thread (f m) = current_thread m) ->
  current_thread <$> managers (upd_manager c f s) = current_thread <$> managers s.
Proof.
  intros Hf. apply list_eq. intros i. rewrite !list_lookup_fmap. unfold upd_manager. simpl.
  rewrite list_lookup_alter. destruct (decide (c = i)) as [->|]; [|done].
  destruct (managers s !! i); simpl; [by rewrite Hf|done].
Qed.

Lemma rest_runs s s' : runs s s' -> sys_rest s -> sys_rest s'.
Proof.
  intros [R1 R2 R3 R3a R4 R5 R6] [H2 H3 H4 H6 H5 H7]. split.
  - intros c m' t Hm' Hc. pose proof (f_equal (fun l => l !! c) R1) as E. simpl in E.
    rewrite !list_lookup_fmap, Hm' in E. destruct (managers s !! c) as [m|] eqn:Hm; [|done].
    simpl in E. injection E as E. rewrite E in Hc. destruct (H2 _ _ _ Hm Hc) as (th & Ht & Hcore).
    destruct (R4 _ _ Ht) as (th' & Ht' & Hid & _). exists th'. split; [done|]. injection Hid as _ Hid _ _ _. congruence.
  - intros t th' Ht' Hst. destruct (R5 t ltac:(eauto)) as [th Ht]. destruct (R4 _ _ Ht) as (th2 & E & Hid & Hs & _).
    rewrite Ht' in E. injection E as <-. injection Hid as _ Hid _ _ _.
    rewrite current_lookup, R1, <- current_lookup, Hid. apply H3; [done|].
    destruct Hs as [Hs|[_ Hs]]; congruence.
  - intros t th' Ht' Hst. destruct (R5 t ltac:(eauto)) as [th Ht]. destruct (R4 _ _ Ht) as (th2 & E & Hid & Hs & _).
    rewrite Ht' in E. injection E as <-. injection Hid as _ _ _ Htls Hown.
    setoid_rewrite <- lookup_fmap. rewrite R2, Htls, Hown. setoid_rewrite lookup_fmap. apply (H4 t th); [done|].
    intros Hd. destruct Hs as [Hs|[Hs _]]; [congruence|]. by rewrite Hd in Hs.
  - intros t th' Ht'. destruct (R5 t ltac:(eauto)) as [th Ht]. destruct (H6 _ _ Ht) as (w & Ho & Hk).
    destruct (R6 _ _ Ho) as (w' & Ho' & Hsh & _). exists w'. split; [done|]. rewrite Hk in Hsh.
    by destruct (kind_of w').
  - unfold clocks in R3. injection R3 as -> ->.
    pose proof (f_equal length R1) as Hl. rewrite !length_fmap in Hl. by rewrite Hl.
  - intros a l t Ha Ht. rewrite R3a in Ha. destruct (H7 _ _ _ Ha Ht) as [th Hth].
    destruct (R4 _ _ Hth) as (th' & ? & _). eauto.
Qed.

Lemma sys_runs s s' : wf s' -> runs s s' -> sys_ok s -> sys_ok s'.
Proof. intros Hwf Hr [_ Hs]. split; [done|by eapply rest_runs]. Qed.

Lemma resched_ok s : sys_ok s -> sys_ok (PrepareReschedule s) /\ runs s (PrepareReschedule s).
Proof.
  intros Hs. assert (runs s (PrepareReschedule s)) as Hr by by apply sw_runs. split; [|done].
  eapply sys_runs; [|done|done]. pose proof (so_wf _ Hs) as [[H1 [] [] H4] H5]. by split; [split|].
Qed.

(** Setting the state of an object that is not a mutex. *)
Lemma set_kind_ok s o w k : sys_ok s -> objects s !! o = Some w -> is_mutex (kind_of w) = false ->
  is_mutex k = false -> shape k = shape (kind_of w) ->
  sys_ok (set_kind o k s) /\ runs s (set_kind o k s) /\
  objects (set_kind o k s) !! o = Some (mk_wobj (waiting_threads w) k).
Proof.
  intros Hs Ho H1 H2 H3. destruct (acquired_kind None s o 0 w k (wf_base _ _ (so_wf _ Hs)) Ho H1 H2 H3) as [Hb Hw _ _ _].
  assert (runs s (set_kind o k s)) as Hr by by apply sw_runs. split_and!; [|done|].
  - eapply sys_runs; [|done|done]. split; [done|]. eapply w_from_same; [done|apply Hs].
  - by rewrite objects_kind, decide_True, Ho.
Qed.

Section Ops.
Context (other_wakeup : Z -> wakeup_reason -> Z -> option Z -> kern -> outcome kern).
Context (other_quiet : forall n r t o s, exists s', other_wakeup n r t o s = Done s' /\ quiet s s').
Abbreviation WakeupAllWaitingThreads := (WakeupAllWaitingThreads other_wakeup).

(** No waiter of the object could run. *)
Definition drained (o : Z) (s : kern) : Prop :=
  forall w t, objects s !! o = Some w -> t ∈ waiting_threads w -> ~ runnable o t s.

Lemma wake_ok s o w : sys_ok s -> objects s !! o = Some w ->
  exists s', WakeupAllWaitingThreads o s = Done s' /\ sys_ok s' /\ runs s s' /\ drained o s'.
Proof using other_quiet.
  intros Hs Ho. destruct (wakeup_all_ok None _ other_quiet o w s (so_wf _ Hs) ltac:(done) Ho) as (s' & E & Hwf & Hr & Hd & _).
  exists s'. split_and!; [done| |done|done]. by eapply sys_runs.
Qed.

(** A mutex that was released is free, or locked by one of its waiters, who is ready. *)
Definition handed (m : Z) (w : wobj) (s : kern) : Prop :=
  lock_at s m = Some (KMutex 0 0 None) \/
  exists u, u ∈ waiting_threads w /\ is_ready s u /\ lock_at s m = Some (KMutex 1 0 (Some u)).

Lemma wake_mutex_ok s m w p : sys_ok s -> objects s !! m = Some w -> kind_of w = KMutex 0 p None ->
  exists s', WakeupAllWaitingThreads m s = Done s' /\ sys_ok s' /\ runs s s' /\ drained m s' /\ handed m w s'.
Proof using other_quiet.
  intros Hs Ho Hk.
  destruct (wakeup_all_drains None _ other_quiet m w s (so_wf _ Hs) ltac:(done) Ho) as (s1 & ts & E & Hd & Hwf & Hready & _ & Hnone).
  assert (runs s (settle m s1)) as Hr by (etrans; [eapply (drains_runs None); [apply Hs|done|exact Hd]|apply settle_runs]).
  exists (settle m s1). split_and!; [exact E|by eapply sys_runs|done|done|].
  assert (settle m s1 = s1) as ->.
  { pose proof (drains_runs None _ _ _ _ _ (so_wf _ Hs) ltac:(done) Hd) as Hr1. destruct (ru_objects _ _ Hr1 _ _ Ho) as (w1 & Ho1 & Hsh & _).
    destruct (settle_cases m s1) as [->|(w2 & k & Ho2 & _ & Hm & _)]; [done|]. rewrite Ho1 in Ho2. injection Ho2 as <-.
    rewrite Hk in Hsh. by destruct (kind_of w1). }
  destruct (drains_mutex None _ other_quiet m w p s ts s1 (so_wf _ Hs) ltac:(done) Ho Hk Hd) as [[-> ->]|(u & -> & Hu & Hl)].
  - left. unfold lock_at. rewrite Ho. cbn. unfold lock_of. by rewrite Hk.
  - right. exists u. split_and!; [done|apply (drains_ready None _ _ _ _ _ Hd); left|done].
Qed.

(** ** Events *)

Lemma Event_set_ok s o w r b b' : sys_ok s -> objects s !! o = Some w -> kind_of w = KEvent r b ->
  Event_set o b' s = Done (set_kind o (KEvent r b') s) /\ sys_ok (set_kind o (KEvent r b') s) /\
  runs s (set_kind o (KEvent r b') s) /\
  objects (set_kind o (KEvent r b') s) !! o = Some (mk_wobj (waiting_threads w) (KEvent r b')).
Proof using Type.
  intros Hs Ho Hk. unfold Event_set, the_object. rewrite Ho. cbn [of_opt mbind outcome_bind]. rewrite Hk.
  split; [done|]. apply set_kind_ok; rewrite ?Hk; done.
Qed.

Lemma Event_Signal_ok s o w r b : sys_ok s -> objects s !! o = Some w -> kind_of w = KEvent r b ->
  exists s', Event_Signal other_wakeup o s = Done s' /\ sys_ok s' /\ runs s s' /\ drained o s'.
Proof using other_quiet.
  intros Hs Ho Hk. destruct (Event_set_ok s o w r b true Hs Ho Hk) as (E & H1 & Hr & Ho').
  unfold Event_Signal. rewrite E. cbn [mbind outcome_bind].
  destruct (wake_ok _ _ _ H1 Ho') as (s' & -> & ? & ? & ?). exists s'. split_and!; try done. by etrans.
Qed.

(** ** Semaphores *)

Lemma Semaphore_Release_ok s o w max n k : sys_ok s -> objects s !! o = Some w ->
  kind_of w = KSemaphore max n ->
  exists r s', Semaphore_Release other_wakeup o k s = Done (r, s') /\ sys_ok s' /\ runs s s' /\
    (if s32 (k + n) <=? max then r = Val n /\ drained o s' else r = Err ResultOutOfRangeKernel /\ s' = s).
Proof using other_quiet.
  intros Hs Ho Hk. unfold Semaphore_Release, the_object. rewrite Ho. cbn [of_opt mbind outcome_bind]. rewrite Hk.
  destruct (s32 (k + n) <=? max); [|by eexists _, s].
  destruct (set_kind_ok s o w (KSemaphore max (s32 (n + k))) Hs Ho) as (H1 & Hr & Ho'); rewrite ?Hk; try done.
  destruct (wake_ok _ _ _ H1 Ho') as (s' & -> & ? & ? & ?). cbn [mbind outcome_bind].
  eexists _, s'. split_and!; try done. by etrans.
Qed.

(** ** Timers *)

Lemma enqueue_clock cycles ty u s : sys_ok s -> exists tm,
  Timing.ScheduleEvent cycles ty u None false (timing s) = Done tm /\
  (Timing.current_timer tm, length (Timing.timers tm)) = clocks s.
Proof using Type.
  intros Hs. unfold Timing.ScheduleEvent. destruct (Timing.event_queue_locked (timing s)); [by eexists|].
  simpl. destruct (in_range_lookup _ _ (proj1 (so_clock _ (so_rest _ Hs)))) as (tm & Htm). rewrite Htm. cbn [of_opt mbind outcome_bind].
  rewrite Nat.eqb_refl. eexists. split; [done|]. unfold Timing.with_timer. simpl.
  by rewrite length_alter.
Qed.

Lemma timing_ok s tm : sys_ok s -> (Timing.current_timer tm, length (Timing.timers tm)) = clocks s ->
  sys_ok (with_timing tm s) /\ runs s (with_timing tm s).
Proof using Type.
  intros Hs Hc. assert (runs s (with_timing tm s)) as Hr by by apply sw_runs, sw_timing.
  split; [|done]. eapply sys_runs; [|done|done]. pose proof (so_wf _ Hs) as [[H1 H2 H3 H4] H5].
  split; [split|]; [|by destruct H2|by destruct H3|exact H4|exact H5].
  eapply q_ok_same; [exact H1| |]; eauto.
Qed.

Lemma schedule_timer_ok s cycles cb : sys_ok s ->
  exists s', schedule_timer cycles cb s = Done s' /\ sys_ok s' /\ runs s s' /\ objects s' = objects s.
Proof using Type.
  intros Hs. unfold schedule_timer. destruct (enqueue_clock cycles timer_callback_event_type cb s Hs) as (tm & -> & Hc).
  cbn [mbind outcome_bind]. destruct (timing_ok s tm Hs Hc). eexists. by split_and!.
Qed.

Lemma Timer_Cancel_ok s o w r i n b cb : sys_ok s -> objects s !! o = Some w -> kind_of w = KTimer r i n b cb ->
  exists s', Timer_Cancel o s = Done s' /\ sys_ok s' /\ runs s s' /\ objects s' = objects s.
Proof using Type.
  intros Hs Ho Hk. unfold Timer_Cancel, the_object. rewrite Ho. cbn [of_opt mbind outcome_bind]. rewrite Hk.
  eexists. split; [done|]. destruct (timing_ok s (Timing.UnscheduleEvent timer_callback_event_type cb (timing s)) Hs)
    as [H1 H2]; [apply unschedule_clocks|]. by split_and!.
Qed.

Lemma Timer_set_ok s o w r i n b cb f r' i' n' b' : sys_ok s -> objects s !! o = Some w ->
  kind_of w = KTimer r i n b cb -> f (kind_of w) = KTimer r' i' n' b' cb -> r' = r ->
  exists s', Timer_set o f s = Done s' /\ sys_ok s' /\ runs s s' /\
    objects s' !! o = Some (mk_wobj (waiting_threads w) (KTimer r i' n' b' cb)).
Proof using Type.
  intros Hs Ho Hk Hf ->. unfold Timer_set, the_object. rewrite Ho. cbn [of_opt mbind outcome_bind].
  rewrite Hf, Hk. eexists. split; [done|]. apply set_kind_ok; rewrite ?Hk; done.
Qed.

Lemma shape_timer k r i n b cb : shape k = shape (KTimer r i n b cb) ->
  exists i' n' b', k = KTimer r i' n' b' cb.
Proof using Type. destruct k; simpl; try done. intros [= <- <-]. eauto. Qed.

Lemma Timer_Signal_ok s o w r i n b cb late : sys_ok s -> objects s !! o = Some w ->
  kind_of w = KTimer r i n b cb ->
  exists s', Timer_Signal other_wakeup o late s = Done s' /\ sys_ok s' /\ runs s s'.
Proof using other_quiet.
  intros Hs Ho Hk. unfold Timer_Signal.
  destruct (Timer_set_ok s o w r i n b cb (timer_signaled true) r i n true Hs Ho Hk) as (s1 & -> & H1 & Hr1 & Ho1);
    [by rewrite Hk|done|]. cbn [mbind outcome_bind].
  destruct (wake_ok _ _ _ H1 Ho1) as (s2 & -> & H2 & Hr2 & _). cbn [mbind outcome_bind].
  destruct (ru_objects _ _ Hr2 _ _ Ho1) as (w2 & Ho2 & Hsh & _). unfold the_object. rewrite Ho2.
  cbn [of_opt mbind outcome_bind]. destruct (shape_timer _ _ _ _ _ _ Hsh) as (i' & n' & b' & ->).
  assert (runs s s2) as Hr by by etrans. destruct (n' =? 0); [by exists s2|].
  destruct (schedule_timer_ok s2 (s64 (nsToCycles_u64 n' - late)) cb H2) as (s3 & -> & H3 & Hr3 & _).
  exists s3. split_and!; [done|done|by etrans].
Qed.

Lemma Timer_Set_ok s o w r i n b cb initial interval : sys_ok s -> objects s !! o = Some w ->
  kind_of w = KTimer r i n b cb ->
  exists s', Timer_Set other_wakeup o initial interval s = Done s' /\ sys_ok s' /\ runs s s'.
Proof using other_quiet.
  intros Hs Ho Hk. unfold Timer_Set. destruct (Timer_Cancel_ok s o w r i n b cb Hs Ho Hk) as (s1 & -> & H1 & Hr1 & Ho1).
  cbn [mbind outcome_bind]. rewrite <- Ho1 in Ho.
  destruct (Timer_set_ok s1 o w r i n b cb (timer_delays initial interval) r initial interval b H1 Ho Hk)
    as (s2 & -> & H2 & Hr2 & Ho2); [by rewrite Hk|done|]. cbn [mbind outcome_bind].
  assert (runs s s2) as Hr by by etrans. destruct (initial =? 0).
  - destruct (Timer_Signal_ok s2 o _ r initial interval b cb 0 H2 Ho2 eq_refl) as (s3 & -> & H3 & Hr3).
    exists s3. split_and!; [done|done|by etrans].
  - unfold the_object. rewrite Ho2. cbn [of_opt mbind outcome_bind kind_of].
    destruct (schedule_timer_ok s2 (nsToCycles initial) cb H2) as (s3 & -> & H3 & Hr3 & _).
    exists s3. split_and!; [done|done|by etrans].
Qed.

End Ops.

(** ** Mutexes *)

Definition unhold (m : Z) (th : thread) : thread := set_held_mutexes (set_erase m (held_mutexes th)) th.

Lemma elem_set_erase m m' l : m' ∈ set_erase m l <-> m' ≠ m /\ m' ∈ l.
Proof. unfold set_erase. by rewrite list_elem_of_filter. Qed.

Lemma set_erase_sorted m l : StronglySorted Z.lt l -> StronglySorted Z.lt (set_erase m l).
Proof.
  induction 1 as [|y l Hl IH Hy]; [constructor|]. unfold set_erase in *.
  destruct (decide (y ≠ m)); [rewrite filter_cons_True by done|by rewrite filter_cons_False].
  constructor; [done|]. apply Forall_forall. intros z [_ Hz]%list_elem_of_filter.
  by apply (proj1 (Forall_forall _ _) Hy).
Qed.

Lemma m_ok_unlock s m w n p q t th : m_ok None s -> objects s !! m = Some w ->
  kind_of w = KMutex n p (Some t) -> threads s !! t = Some th ->
  m_ok None (set_kind m (KMutex 0 q None) (upd_thread t (unhold m) s)).
Proof.
  intros [H1 H2 H3 H4] Ho Hk Hth. set (U := set_kind _ _ _).
  assert (forall o, objects U !! o = if decide (o = m) then Some (mk_wobj (waiting_threads w) (KMutex 0 q None))
    else objects s !! o) as EU.
  { intros o. unfold U. rewrite objects_kind. change (objects (upd_thread t (unhold m) s)) with (objects s).
    case_decide; [by rewrite Ho|done]. }
  change (threads U) with (threads (upd_thread t (unhold m) s)). split.
  - intros t' th' m' Ht' Hm'. change (threads U) with (threads (upd_thread t (unhold m) s)) in Ht'.
    rewrite threads_upd in Ht'. rewrite EU.
    assert (m' ≠ m /\ exists th0, threads s !! t' = Some th0 /\ m' ∈ held_mutexes th0) as (Hne & th0 & Ht0 & Hm0).
    { destruct (decide (t' = t)) as [->|Hne].
      - rewrite Hth in Ht'. injection Ht' as <-. apply elem_set_erase in Hm' as [? ?]. eauto.
      - split; [|eauto]. intros ->. destruct (H1 _ _ _ Ht' Hm') as (w' & n' & p' & h & Hw' & Hk' & Hx).
        rewrite Ho in Hw'. injection Hw' as <-. rewrite Hk in Hk'. injection Hk' as <- <- <-.
        destruct (Hx ltac:(done)) as [[= ->] _]. done. }
    rewrite decide_False by done. eauto.
  - intros m' w' n' p' t' Hw' Hk'. rewrite EU in Hw'. destruct (decide (m' = m)) as [->|Hne].
    { injection Hw' as <-. done. }
    destruct (H2 _ _ _ _ _ Hw' Hk') as (Hn & th' & Ht' & Hm'). split; [done|].
    change (threads U) with (threads (upd_thread t (unhold m) s)). rewrite threads_upd.
    destruct (decide (t' = t)) as [->|]; [|eauto]. rewrite Ht'. eexists. split; [done|].
    by apply elem_set_erase.
  - intros m' w' n' p' Hw'. rewrite EU in Hw'. case_decide; [|eauto]. injection Hw' as <-. by intros [= <- _].
  - intros t' th'. change (threads U) with (threads (upd_thread t (unhold m) s)).
    rewrite threads_upd. case_decide; [|apply H4]. subst. intros (th0 & Hth0 & ->)%fmap_Some.
    apply set_erase_sorted. eauto.
Qed.

Lemma d_ok_relock s m w n p t : d_ok s -> objects s !! m = Some w -> is_mutex (kind_of w) = true ->
  is_Some (threads s !! t) -> d_ok (set_kind m (KMutex n p (Some t)) s).
Proof.
  intros [H1 H2 H3 H4] Ho Hk Ht. split; try done.
  - intros o w' t'. rewrite objects_kind. case_decide; [|eauto]. subst. rewrite Ho. intros [= <-]. simpl. eauto.
  - intros t' th m' Ht' Hm'. rewrite objects_kind. case_decide; [|eauto]. subst. rewrite Ho.
    by eexists _, n, p, (Some t).
  - intros m' w' n' p' h. rewrite objects_kind. case_decide; [|eauto]. subst. rewrite Ho. intros [= <-].
    simpl. by intros [= _ _ <-].
Qed.

Lemma d_ok_unhold s m t : d_ok s -> d_ok (upd_thread t (unhold m) s).
Proof.
  intros [H1 H2 H3 H4].
  assert (forall t', is_Some (threads s !! t') -> is_Some (threads (upd_thread t (unhold m) s) !! t')) as Hsome.
  { intros t' [y Hy]. rewrite threads_upd. case_decide; subst; rewrite ?Hy; eauto. }
  split.
  - intros o w t' Ho Hin. apply Hsome. eauto.
  - intros t' th m'. rewrite threads_upd. case_decide; [|apply H2]. subst.
    intros (th0 & Hth0 & ->)%fmap_Some. intros [_ Hm]%elem_set_erase. eauto.
  - intros m' w n p h Ho Hk. apply Hsome. eauto.
  - intros t' th. rewrite threads_upd. case_decide; [|apply H4]. subst.
    intros (th0 & Hth0 & ->)%fmap_Some. apply (H4 t th0 Hth0).
Qed.

(** Unlocking up to the wakeup. *)
Lemma unlock_ok s m w n p t th : wf s -> objects s !! m = Some w -> kind_of w = KMutex n p (Some t) ->
  threads s !! t = Some th -> exists s',
    UpdatePriority t (upd_thread t (unhold m) (set_kind m (KMutex 0 p (Some t)) s)) = Done s' /\
    wf (set_kind m (KMutex 0 p None) s') /\ same_waits s (set_kind m (KMutex 0 p None) s') /\
    objects (set_kind m (KMutex 0 p None) s') !! m = Some (mk_wobj (waiting_threads w) (KMutex 0 p None)).
Proof.
  intros [Hb Hf] Ho Hk Hth. set (s1 := set_kind m (KMutex 0 p (Some t)) s). set (s2 := upd_thread t (unhold m) s1).
  assert (is_mutex (kind_of w) = true) as Hmu by by rewrite Hk.
  destruct (UpdatePriority_ok s2 t (unhold m th)) as (s3 & -> & Hq3 & He3 & Ho3).
  - apply d_ok_unhold. eapply d_ok_relock; [by apply (b_d None)|done|done|eauto].
  - apply q_ok_thread; [|done]. apply q_ok_objects, Hb.
  - unfold s2. rewrite threads_upd, decide_True by done. unfold s1. simpl. by rewrite Hth.
  - exists s3. split; [done|]. set (s4 := set_kind m (KMutex 0 p None) s3).
    assert (objects s1 !! m = Some (mk_wobj (waiting_threads w) (KMutex 0 p (Some t)))) as Ho1.
    { unfold s1. by rewrite objects_kind, decide_True, Ho. }
    assert (objects s3 !! m = Some (mk_wobj (waiting_threads w) (KMutex 0 p (Some t)))) as Hom3 by by rewrite Ho3.
    assert (same_waits s s4) as Hs4.
    { etrans; [apply (sw_kind m w (KMutex 0 p (Some t)) s Ho); by rewrite Hk|].
      etrans; [by apply (sw_upd t (unhold m))|]. etrans; [by apply prio_waits|].
      by eapply sw_kind. }
    set (U := set_kind m (KMutex 0 p None) (upd_thread t (unhold m) s)).
    assert (same_locks U s4) as HU.
    { split.
      - exact (sl_threads _ _ (prio_locks _ _ He3)).
      - f_equal. apply map_eq. intros i. unfold s4, U. rewrite !objects_kind, Ho3. case_decide.
        + subst. change (objects s2) with (objects s1). rewrite Ho1.
          change (objects (upd_thread t (unhold m) s)) with (objects s). by rewrite Ho.
        + change (objects s2) with (objects s1). unfold s1. rewrite objects_kind. by rewrite decide_False. }
    split_and!; [|done|by unfold s4; rewrite objects_kind, decide_True, Hom3].
    split; [split|].
    + by apply q_ok_objects.
    + eapply wb_ok_same; [exact Hs4|apply Hb].
    + eapply m_ok_same; [exact HU|]. eapply m_ok_unlock; [apply Hb|done..].
    + eapply t_ok_same; [exact Hs4|apply Hb].
    + by eapply w_from_same.
Qed.

Lemma m_ok_count s m w n n' p t : m_ok None s -> objects s !! m = Some w -> kind_of w = KMutex n p (Some t) ->
  0 < n' -> m_ok None (set_kind m (KMutex n' p (Some t)) s).
Proof.
  intros [H1 H2 H3 H4] Ho Hk Hn'. split; [| | |exact H4].
  - intros t' th m' Ht' Hm'. destruct (H1 _ _ _ Ht' Hm') as (w' & n0 & p0 & h & Hw' & Hk' & Hx).
    rewrite objects_kind. destruct (decide (m' = m)) as [->|]; [|by exists w', n0, p0, h].
    rewrite Ho in Hw'. injection Hw' as <-. rewrite Hk in Hk'. injection Hk' as <- <- <-.
    rewrite Ho. eexists _, n', p, (Some t). split_and!; [done|done|]. intros Hne. by destruct (Hx Hne).
  - intros m' w' n0 p0 t'. rewrite objects_kind. case_decide; [|eauto]. subst. rewrite Ho. intros [= <-].
    simpl. intros [= <- <- <-]. by destruct (H2 _ _ _ _ _ Ho Hk).
  - intros m' w' n0 p0. rewrite objects_kind. case_decide; [|eauto]. subst. rewrite Ho. by intros [= <-].
Qed.

Section Releasing.
Context (other_wakeup : Z -> wakeup_reason -> Z -> option Z -> kern -> outcome kern).
Context (other_quiet : forall n r t o s, exists s', other_wakeup n r t o s = Done s' /\ quiet s s').

Lemma Mutex_Release_ok s m w n p h t th : sys_ok s -> objects s !! m = Some w -> kind_of w = KMutex n p h ->
  threads s !! t = Some th -> exists r s', Mutex_Release other_wakeup m t s = Done (r, s') /\
    sys_ok s' /\ runs s s' /\
    if decide (h = Some t)
    then r = ResultSuccess /\
      (if n =? 1 then drained m s' /\ handed m w s' else lock_at s' m = Some (KMutex (n - 1) 0 (Some t)))
    else r = ResultMutexNotHeld /\ s' = s.
Proof using other_quiet.
  intros Hs Ho Hk Hth. unfold Mutex_Release, the_object. rewrite Ho. cbn [of_opt mbind outcome_bind]. rewrite Hk.
  destruct (decide (h = Some t)) as [->|Hne].
  2: { rewrite bool_decide_false by done. by eexists _, s. }
  rewrite bool_decide_true by done. cbn [negb]. pose proof (so_wf _ Hs) as Hwf. pose proof Hwf as [Hb Hf].
  destruct (m_holder _ (b_m _ _ Hb) _ _ _ _ _ Ho Hk) as [Hn _].
  destruct (Z.leb_spec n 0); [lia|]. destruct (Z.eqb_spec n 1) as [->|Hn1].
  - change (1 - 1 =? 0) with true. cbn iota. change (1 - 1) with 0.
    destruct (unlock_ok s m w 1 p t th Hwf Ho Hk Hth) as (s3 & E & Hwf4 & Hs4 & Ho4).
    unfold unhold in E. rewrite E. clear E. cbn [mbind outcome_bind].
    assert (runs s (set_kind m (KMutex 0 p None) s3)) as Hr4 by by apply sw_runs.
    assert (sys_ok (set_kind m (KMutex 0 p None) s3)) as Hsys4 by by eapply sys_runs.
    destruct (wake_mutex_ok _ other_quiet _ m _ p Hsys4 Ho4 eq_refl) as (s5 & -> & H5 & Hr5 & Hd5 & Hh5). cbn [mbind outcome_bind].
    destruct (resched_ok s5 H5) as [H6 Hr6].
    eexists _, (PrepareReschedule s5). split_and!; [done|done| |done|exact Hd5|exact Hh5].
    etrans; [exact Hr4|]. by etrans.
  - destruct (Z.eqb_spec (n - 1) 0); [lia|]. eexists _, _. split; [done|].
    assert (same_waits s (set_kind m (KMutex (n - 1) p (Some t)) s)) as Hsw
      by (apply (sw_kind m w (KMutex (n - 1) p (Some t)) s Ho); by rewrite Hk).
    split_and!; [|by apply sw_runs|done|unfold lock_at; by rewrite objects_kind, decide_True, Ho].
    eapply sys_runs; [|by apply sw_runs|exact Hs]. split; [split|by eapply w_from_same].
    + apply q_ok_objects, Hb.
    + eapply wb_ok_same; [exact Hsw|apply Hb].
    + eapply m_ok_count; [apply Hb|done|done|lia].
    + eapply t_ok_same; [exact Hsw|apply Hb].
Qed.

End Releasing.

(** ** Stopping a thread *)

Lemma m_ok_release t s m w n p q : m_ok (Some t) s -> objects s !! m = Some w ->
  kind_of w = KMutex n p (Some t) -> m_ok (Some t) (set_kind m (KMutex 0 q None) s).
Proof.
  intros [H1 H2 H3 H4] Ho Hk. split; [| | |exact H4].
  - intros t' th m' Ht' Hm'. destruct (H1 _ _ _ Ht' Hm') as (w' & n' & p' & h & Hw' & Hk' & Hx).
    rewrite objects_kind. destruct (decide (m' = m)) as [->|]; [|by exists w', n', p', h].
    rewrite Ho in Hw'. injection Hw' as <-. rewrite Hk in Hk'. injection Hk' as <- <- <-. rewrite Ho.
    eexists _, 0, q, None. split_and!; [done|done|]. intros Hne. destruct (Hx Hne) as [[= ->] _]. done.
  - intros m' w' n' p' t'. rewrite objects_kind. case_decide; [|apply H2]. rewrite Ho. by intros [= <-].
  - intros m' w' n' p'. rewrite objects_kind. case_decide; [|apply H3]. rewrite Ho. intros [= <-]. by intros [= <- _].
Qed.

Definition locked_by (t m : Z) (s : kern) : Prop := exists n, 0 < n /\ lock_at s m = Some (KMutex n 0 (Some t)).

Lemma keeps_locked t s s' m : keeps_locks t s s' -> locked_by t m s <-> locked_by t m s'.
Proof. intros H. unfold locked_by. split; intros (n & Hn & Hl); exists n; split; try done; by apply (kl_locks _ _ _ H m n Hn). Qed.

Lemma locked_kind t m s : locked_by t m s -> exists w n p, objects s !! m = Some w /\
  kind_of w = KMutex n p (Some t) /\ 0 < n.
Proof.
  intros (n & Hn & Hl). unfold lock_at in Hl. destruct (objects s !! m) as [w|]; [|done]. simpl in Hl.
  injection Hl as Hl. unfold lock_of in Hl. destruct (kind_of w) eqn:Hk; simpl in Hl; try done.
  injection Hl as -> ->. exists w. eauto.
Qed.

Lemma kind_locked t m s w n p : objects s !! m = Some w -> kind_of w = KMutex n p (Some t) -> 0 < n ->
  locked_by t m s.
Proof. intros Ho Hk Hn. exists n. split; [done|]. unfold lock_at. rewrite Ho. simpl. unfold lock_of. by rewrite Hk. Qed.

Lemma locked_set_kind t m q s m' : m' ≠ m -> locked_by t m' (set_kind m q s) <-> locked_by t m' s.
Proof. intros Hne. unfold locked_by, lock_at. by rewrite objects_kind, decide_False. Qed.

Lemma m_ok_weaken ex s : m_ok None s -> m_ok ex s.
Proof.
  intros [H1 H2 H3 H4]. split; try done. intros t th m Ht Hm.
  destruct (H1 _ _ _ Ht Hm) as (w & n & p & h & ? & ? & Hx). exists w, n, p, h. split_and!; [done|done|]. intros _. by apply Hx.
Qed.

Lemma wb_ok_dead s s' t th : wb_ok None s -> threads s !! t = Some th ->
  threads s' = <[t := set_status Dead th]> (threads s) -> objects s' = objects s -> wb_ok (Some t) s'.
Proof.
  intros [H1 H2 H3 H4 H5 H6] Hth Ht Ho.
  assert (forall t0 th0, threads s' !! t0 = Some th0 ->
    (t0 = t /\ th0 = set_status Dead th) \/ (t0 ≠ t /\ threads s !! t0 = Some th0)) as Hcase.
  { intros t0 th0. rewrite Ht, lookup_insert_Some. naive_solver. }
  assert (forall t0, is_Some (threads s !! t0) -> is_Some (threads s' !! t0)) as Hsome.
  { intros t0 Hs. rewrite Ht. destruct (decide (t0 = t)) as [->|]; [rewrite lookup_insert_eq|rewrite lookup_insert_ne]; eauto. }
  split; rewrite ?Ho; try done.
  - intros o w t0 Hw Hin. destruct (H1 _ _ _ Hw Hin) as (th0 & Hth0 & Hin'). rewrite Ht.
    destruct (decide (t0 = t)) as [->|]; [rewrite lookup_insert_eq|rewrite lookup_insert_ne by done; eauto].
    eexists. split; [done|]. simpl. congruence.
  - intros t0 th0 o [[-> ->]|[_ Hth0]]%Hcase Hin; [apply (H3 t th o Hth Hin)|eauto].
  - intros t0 th0 [[-> ->]|[_ Hth0]]%Hcase Hne; [done|apply (H4 t0 th0 Hth0); done].
  - intros t0 th0 [[-> ->]|[_ Hth0]]%Hcase; [done|eauto].
  - intros o w Hw Hk. apply Hsome. eauto.
Qed.

(** The first part of [Thread::Stop], up to the wakeup of the joiners. *)
Lemma kill_ok s t th : wf s -> threads s !! t = Some th ->
  exists s1, (let s0 := upd_manager (core_id th)
      (fun m => set_table (delete (thread_id th) (wakeup_callback_table m)) m) (cancel_wakeup th s) in
    (if decide (status th = Ready) then on_queue (core_id th) (Tql.remove (current_priority th) t) s0
     else Done s0)) = Done s1 /\
    let s2 := upd_thread t (set_status Dead) s1 in
    KW.wf (Some t) s2 /\ threads s2 = <[t := set_status Dead th]> (threads s) /\ objects s2 = objects s /\
    current_thread <$> managers s2 = current_thread <$> managers s /\ processes s2 = processes s /\
    clocks s2 = clocks s /\ arbiters s2 = arbiters s.
Proof.
  intros [[B1 B2 B3 B4] F] Hth. cbv zeta. set (c := core_id th).
  set (s0 := upd_manager c _ (cancel_wakeup th s)).
  assert (forall c' m', managers s0 !! c' = Some m' -> exists m, managers s !! c' = Some m /\
    ready_queue m' = ready_queue m) as Hm0.
  { intros c' m' [(<- & m & Hm & ->)|(_ & Hm)]%alter_lookup; eauto. }
  assert (current_thread <$> managers s0 = current_thread <$> managers s) as Hc0.
  { by apply (current_upd c _ (cancel_wakeup th s)). }
  assert (q_ok s0) as Hq0 by by eapply q_ok_same.
  assert (exists s1, (if decide (status th = Ready) then on_queue c (Tql.remove (current_priority th) t) s0
    else Done s0) = Done s1 /\ q_ok (upd_thread t (set_status Dead) s1) /\ threads s1 = threads s /\
    objects s1 = objects s /\ current_thread <$> managers s1 = current_thread <$> managers s0 /\
    processes s1 = processes s /\ clocks s1 = clocks s0 /\ arbiters s1 = arbiters s)
    as (s1 & -> & Hq1 & Et & Eo & Ec & Ep & Ek & Ea).
  { assert (sched_of s0 t = Some (c, status th, current_priority th)) as Hs.
    { unfold sched_of. change (threads s0) with (threads s). by rewrite Hth. }
    destruct (decide (status th = Ready)) as [Hr|Hr].
    - rewrite Hr in Hs. destruct (B4 t th Hth) as [_ Hcl].
      assert (length (managers s0) = length (managers s)) as Hl by apply length_alter.
      rewrite <- Hl in Hcl. destruct (in_range_lookup _ _ Hcl) as (m & Hm). destruct (Hq0 _ _ Hm) as (sp & Hsp).
      destruct (queue_prepared _ _ _ _ _ _ _ Hsp Hs) as [Hu _].
      destruct (queue_remove _ _ _ _ _ _ _ (c, Dead, current_priority th) Hsp Hs) as (q' & sp' & Hrm & Hq' & _);
        [done|done|done|].
      rewrite (on_queue_ok c _ s0 m q' Hm Hrm). eexists. split; [done|]. split_and!; try done.
      + eapply (q_ok_step s0 _ t th (c, Dead, current_priority th)); try done.
        * intros c' m'. by eapply (managers_upd _ _ s0).
        * intros t'. by rewrite (sched_upd t _ (upd_manager c (set_ready q') s0) th) by done.
      + by apply (current_upd c (set_ready q') s0).
    - exists s0. split_and!; try done.
      + eapply (q_ok_idle s0 _ t th (c, Dead, current_priority th)); try done; [by eauto|].
        intros t'. by rewrite (sched_upd t _ s0 th) by done. }
  exists s1. split; [done|]. set (s2 := upd_thread t (set_status Dead) s1).
  assert (threads s2 = <[t := set_status Dead th]> (threads s)) as Et2.
  { unfold s2, upd_thread. simpl. rewrite Et. by apply alter_insert_eq. }
  split_and!; [|done|done|by rewrite <- Hc0|done| |done].
  - split; [split|].
    + done.
    + by eapply wb_ok_dead.
    + eapply m_ok_threads with (s := s); [by apply m_ok_weaken|done|]. rewrite Et2.
      rewrite <- (alter_insert_eq _ _ _ _ Hth). by apply fmap_alter_same.
    + eapply t_ok_managers with (s := s) (f := set_status Dead) (t := t); [done| |done|].
      * by rewrite Et2, (alter_insert_eq _ _ _ _ Hth).
      * change (managers s2) with (managers s1). rewrite <- (length_fmap current_thread), Ec, length_fmap. apply length_alter.
    + intros t0 th0 o Ht0 Hin. change (objects s2) with (objects s1). rewrite Eo.
      rewrite Et2, lookup_insert_Some in Ht0. destruct Ht0 as [[<- <-]|[_ Ht0]]; [by apply (F t th)|by apply (F t0 th0)].
  - etrans; [exact Ek|]. apply unschedule_clocks.
Qed.

(** ** [Thread::Stop] *)

(** Leaving a stopped thread: it holds nothing and waits for nothing. *)
Lemma wf_unexempt s t th : KW.wf (Some t) s -> threads s !! t = Some th -> wait_objects th = [] ->
  (forall m, ~ locked_by t m s) -> wf (upd_thread t (set_held_mutexes []) s).
Proof.
  intros [[B1 B2 B3 B4] F] Hth Hw Hl. set (s' := upd_thread t (set_held_mutexes []) s).
  assert (same_waits s s') as Hs by by apply sw_upd.
  assert (forall t' th', threads s' !! t' = Some th' -> t' = t /\ wait_objects th' = [] /\ held_mutexes th' = [] \/
    t' ≠ t /\ threads s !! t' = Some th') as Hcase.
  { intros t' th'. unfold s'. rewrite threads_upd. case_decide; [|by right]. subst. rewrite Hth. intros [= <-]. by left. }
  split; [split|].
  - by apply q_ok_thread.
  - pose proof (wb_ok_same _ _ _ Hs B2) as [H1 H2 H3 H4 H5 H6]. split; try done.
    intros t' th' Ht' _ Hne. destruct (Hcase _ _ Ht') as [(-> & E & _)|[Hne' Ht0]]; [done|].
    by apply (H4 t' th' Ht'); [intros [= ->]|].
  - destruct B3 as [M1 M2 M3 M4]. split; [| |exact M3|].
    + intros t' th' m Ht' Hm. destruct (Hcase _ _ Ht') as [(_ & _ & E)|[Hne Ht0]].
      { rewrite E in Hm. by apply not_elem_of_nil in Hm. }
      destruct (M1 _ _ _ Ht0 Hm) as (w & n & p & h & ? & ? & Hx). exists w, n, p, h. split_and!; [done|done|].
      intros _. apply Hx. by intros [= ->].
    + intros m w n p t' Ho Hk. destruct (M2 _ _ _ _ _ Ho Hk) as (Hn & th' & Ht' & Hm). split; [done|].
      destruct (decide (t' = t)) as [->|Hne]; [by destruct (Hl m); eapply kind_locked|].
      exists th'. split; [|done]. unfold s'. by rewrite threads_upd, decide_False.
    + intros t' th' Ht'. destruct (Hcase _ _ Ht') as [(_ & _ & ->)|[_ Ht0]]; [constructor|eauto].
  - by eapply t_ok_same.
  - by eapply w_from_same.
Qed.

Lemma rest_dead s s2 t th : sys_rest s -> threads s !! t = Some th ->
  threads s2 = <[t := set_status Dead th]> (threads s) -> objects s2 = objects s ->
  current_thread <$> managers s2 = current_thread <$> managers s -> processes s2 = processes s ->
  clocks s2 = clocks s -> arbiters s2 = arbiters s -> sys_rest s2.
Proof.
  intros [H1 H2 H3 H4 H5 H6] Hth Et Eo Ec Ep Ek Ea.
  assert (forall t' th', threads s2 !! t' = Some th' -> t' = t /\ th' = set_status Dead th \/
    t' ≠ t /\ threads s !! t' = Some th') as Hcase.
  { intros t' th'. rewrite Et, lookup_insert_Some. naive_solver. }
  split.
  - intros c m' t' Hm' Hc. pose proof (f_equal (fun l => l !! c) Ec) as E. simpl in E.
    rewrite !list_lookup_fmap, Hm' in E. destruct (managers s !! c) as [m|] eqn:Hm; [|done].
    simpl in E. injection E as E. rewrite E in Hc. destruct (H1 _ _ _ Hm Hc) as (th' & Ht' & Hcore).
    rewrite Et. destruct (decide (t' = t)) as [->|]; [rewrite lookup_insert_eq|rewrite lookup_insert_ne by done; eauto].
    eexists. split; [done|]. simpl. congruence.
  - intros t' th' Ht' Hst. destruct (Hcase _ _ Ht') as [[-> ->]|[_ Ht0]]; [done|].
    rewrite current_lookup, Ec, <- current_lookup. by apply H2.
  - intros t' th' Ht' Hst. destruct (Hcase _ _ Ht') as [[-> ->]|[_ Ht0]]; [done|].
    rewrite Ep. by apply (H3 t' th').
  - intros t' th' Ht'. rewrite Eo. destruct (Hcase _ _ Ht') as [[-> ->]|[_ Ht0]]; eauto.
  - unfold clocks in Ek. injection Ek as -> ->.
    pose proof (f_equal length Ec) as Hl. rewrite !length_fmap in Hl. by rewrite Hl.
  - intros a l t' Ha Ht'. rewrite Ea in Ha. rewrite Et. apply lookup_insert_is_Some'. right. eauto.
Qed.

Lemma release_tls_ok s t th : sys_ok s -> threads s !! t = Some th ->
  (forall p, owner_process th = Some p -> exists n l, pfields <$> processes s !! p = Some (n, Some l) /\
      u32 (tls_address th - TLS_AREA_VADDR) / TLS_PAGE_SIZE < Z.of_nat n) ->
  exists s', release_tls t s = Done s' /\ sys_ok s' /\ runs s s' /\ threads s' = threads s /\ objects s' = objects s.
Proof.
  intros Hs Hth Hp. unfold release_tls, the_thread. rewrite Hth. cbn [of_opt mbind outcome_bind].
  destruct (owner_process th) as [p|]; [|by exists s].
  destruct (Hp p eq_refl) as (n & l & Hpr & Hn). unfold the_process.
  destruct (processes s !! p) as [pr|] eqn:Epr; [|done]. unfold pfields in Hpr.
  cbn [fmap option_fmap option_map] in Hpr. injection Hpr as <- Hl. cbn [of_opt mbind outcome_bind].
  set (page := u32 (tls_address th - TLS_AREA_VADDR) / TLS_PAGE_SIZE) in *.
  assert (0 <= page) by (apply Z.div_pos; [apply u32_range|done]).
  destruct (in_range_lookup (tls_slots pr) (Z.to_nat page) ltac:(lia)) as (sl & ->). cbn [of_opt mbind outcome_bind].
  rewrite Hl. cbn [of_opt mbind outcome_bind]. eexists. split; [done|].
  set (s' := upd_limit _ _ _).
  assert (same_waits s s') as Hsw.
  { split; try done. unfold s', upd_limit, upd_process. simpl. apply map_eq. intros i. rewrite !lookup_fmap.
    destruct (decide (i = p)) as [->|]; [rewrite lookup_alter_eq, Epr|by rewrite lookup_alter_ne].
    simpl. f_equal. unfold free_tls, set_tls_slots, pfields. simpl. by rewrite length_alter. }
  assert (runs s s') as Hr by by apply sw_runs. split_and!; try done.
  eapply sys_runs; [|exact Hr|exact Hs]. destruct Hs as [[[B1 B2 B3 B4] F] _]. split; [split|].
  - eapply q_ok_same; [exact B1|by eauto|done].
  - by eapply wb_ok_same. - eapply m_ok_threads; [exact B3|done|done]. - by eapply t_ok_same. - by eapply w_from_same.
Qed.

(** What is left of a stopped thread. *)
Definition stopped (t : Z) (s : kern) : Prop :=
  (exists th, threads s !! t = Some th /\ status th = Dead /\ wait_objects th = [] /\ held_mutexes th = []) /\
  (forall o w, objects s !! o = Some w -> t ∉ waiting_threads w) /\ (forall m, ~ locked_by t m s).

Lemma no_waiting s t th : wb_ok None s -> threads s !! t = Some th -> wait_objects th = [] ->
  forall o w, objects s !! o = Some w -> t ∉ waiting_threads w.
Proof.
  intros Hw Hth E o w Ho Hin. destruct (w_to _ Hw _ _ _ Ho Hin) as (th' & Ht' & Hin').
  rewrite Hth in Ht'. injection Ht' as <-. rewrite E in Hin'. by apply not_elem_of_nil in Hin'.
Qed.

Lemma no_locks s t th : m_ok None s -> threads s !! t = Some th -> held_mutexes th = [] ->
  forall m, ~ locked_by t m s.
Proof.
  intros Hm Hth E m Hl. destruct (locked_kind _ _ _ Hl) as (w & n & p & Ho & Hk & Hn).
  destruct (m_holder _ Hm _ _ _ _ _ Ho Hk) as (_ & th' & Ht' & Hin).
  rewrite Hth in Ht'. injection Ht' as <-. rewrite E in Hin. by apply not_elem_of_nil in Hin.
Qed.

(** A thread that waits for itself would be woken as a joiner of itself. *)
Definition not_self_waiting (t : Z) (s : kern) : Prop :=
  forall w, objects s !! t = Some w -> t ∉ waiting_threads w.

(** What a thread's end leaves of another thread. *)
Definition outlives (th th' : thread) : Prop :=
  ident th' = ident th /\ (status th' = status th \/ waiting_status (status th) = true /\ status th' = Ready).

Record after_stop (t : Z) (s s' : kern) : Prop := {
  as_stopped : stopped t s';
  as_current : current_thread <$> managers s' = current_thread <$> managers s;
  as_arbiters : arbiters s' = arbiters s;
  as_others : forall t' th, t' ≠ t -> threads s !! t' = Some th ->
    exists th', threads s' !! t' = Some th' /\ outlives th th';
  as_lists : forall o w, objects s !! o = Some w ->
    exists w', objects s' !! o = Some w' /\ forall t', t' ∈ waiting_threads w' -> t' ∈ waiting_threads w;
}.

Lemma held_are_locked s t th : m_ok None s -> threads s !! t = Some th ->
  forall m, m ∈ held_mutexes th -> locked_by t m s.
Proof.
  intros Hm Hth m Hin. destruct (m_held _ Hm _ _ _ Hth Hin) as (w & n & p & h & Ho & Hk & Hx).
  destruct (Hx ltac:(done)) as [-> Hn]. by eapply kind_locked.
Qed.


Section Stopping.
Context (other_wakeup : Z -> wakeup_reason -> Z -> option Z -> kern -> outcome kern).
Context (other_quiet : forall n r t o s, exists s', other_wakeup n r t o s = Done s' /\ quiet s s').

Lemma release_mutexes_ok t : forall ms s th, KW.wf (Some t) s -> threads s !! t = Some th -> wait_objects th = [] ->
  NoDup ms -> (forall m, m ∈ ms -> locked_by t m s) ->
  exists s', release_mutexes other_wakeup ms s = Done s' /\ KW.wf (Some t) s' /\ runs s s' /\
    forall m, locked_by t m s' -> locked_by t m s /\ m ∉ ms.
Proof using other_quiet.
  induction ms as [|m ms IH]; intros s th Hwf Hth Hw Hnd Hms; cbn [release_mutexes].
  { exists s. split_and!; try done. intros m Hm. split; [done|]. apply not_elem_of_nil. }
  apply NoDup_cons in Hnd as [Hnm Hnd]. destruct (locked_kind t m s (Hms m ltac:(left))) as (w & n & p & Ho & Hk & Hn).
  unfold the_object. rewrite Ho. cbn [of_opt mbind outcome_bind]. rewrite Hk.
  set (s1 := set_kind m (KMutex 0 p None) s).
  assert (same_waits s s1) as Hs1 by (apply (sw_kind m w _ s Ho); by rewrite Hk).
  assert (KW.wf (Some t) s1) as Hwf1.
  { destruct Hwf as [[B1 B2 B3 B4] F]. split; [split|by eapply w_from_same].
    - by apply q_ok_objects. - by eapply wb_ok_same. - by eapply m_ok_release. - by eapply t_ok_same. }
  assert (objects s1 !! m = Some (mk_wobj (waiting_threads w) (KMutex 0 p None))) as Ho1
    by (unfold s1; by rewrite objects_kind, decide_True, Ho).
  assert (~ locked_by t m s1) as Hfree.
  { intros (n' & Hn' & Hl). unfold lock_at in Hl. rewrite Ho1 in Hl. done. }
  assert (others_wait (Some t) m s1) as Hex.
  { intros w' t' Hw' Ht' [= <-]. destruct (w_to _ (b_w _ _ (wf_base _ _ Hwf1)) _ _ _ Hw' Ht') as (th' & Hth' & Hin).
    change (threads s1) with (threads s) in Hth'. rewrite Hth in Hth'. injection Hth' as <-. rewrite Hw in Hin.
    by apply not_elem_of_nil in Hin. }
  destruct (wakeup_all_ok (Some t) _ other_quiet m _ s1 Hwf1 Hex Ho1) as (s2 & -> & Hwf2 & Hr2 & _ & Hkeep).
  cbn [mbind outcome_bind]. specialize (Hkeep t eq_refl).
  destruct (ru_threads _ _ Hr2 t th Hth) as (th2 & Hth2 & _ & _ & _ & Hw2). destruct (Hw2 Hw) as [_ Hw2'].
  destruct (IH s2 th2 Hwf2 Hth2 Hw2' Hnd) as (s3 & -> & Hwf3 & Hr3 & Hl3).
  - intros m' Hm'. apply (keeps_locked t s1 s2 m' Hkeep). apply locked_set_kind; [by intros ->|].
    apply Hms. by right.
  - exists s3. split_and!; [done|done|etrans; [by apply sw_runs|by etrans]|]. intros m' Hm'.
    destruct (Hl3 m' Hm') as [Hl2 Hnin]. apply (keeps_locked t s1 s2 m' Hkeep) in Hl2.
    destruct (decide (m' = m)) as [->|Hne]; [done|]. apply locked_set_kind in Hl2; [|done].
    split; [done|]. by apply not_elem_of_cons.
Qed.

(** The second half of [Thread::Stop], on a thread that is dead. *)
Lemma bury_ok s t th hs : KW.wf (Some t) s -> sys_rest s -> threads s !! t = Some th -> status th = Dead ->
  held_mutexes th = hs -> (forall m, m ∈ hs -> locked_by t m s) ->
  (forall p, owner_process th = Some p -> exists n l, pfields <$> processes s !! p = Some (n, Some l) /\
      u32 (tls_address th - TLS_AREA_VADDR) / TLS_PAGE_SIZE < Z.of_nat n) ->
  exists s', (s1 ← remove_from_all (wait_objects th) t s;
              s2 ← ReleaseThreadMutexes other_wakeup t (upd_thread t (set_wait_objects []) s1);
              release_tls t s2) = Done s' /\ sys_ok s' /\ runs s s' /\ stopped t s'.
Proof using other_quiet.
  intros Hwf Hrest Hth Hdead Hhs Hlocked Hp.
  destruct (leave_ok (Some t) s t th Hwf Hth) as (s1 & -> & Hleft). cbn [mbind outcome_bind].
  set (s2 := upd_thread t (set_wait_objects []) s1) in *. pose proof (left_runs _ _ _ _ Hleft) as Hr2.
  pose proof (lf_locks _ _ _ _ Hleft) as Hlk.
  destruct Hleft as [Hwf2 (th0 & th2 & E & Hth2 & Hf2 & Hh2) _ _ _ _ _ _ _].
  rewrite Hth in E. injection E as <-.
  assert (wait_objects th2 = [] /\ status th2 = Dead) as [Hw2 Hst2] by (injection Hf2 as _ ? _ _ ? _ _ _; by split; [|congruence]).
  unfold ReleaseThreadMutexes, the_thread. rewrite Hth2. cbn [of_opt mbind outcome_bind]. rewrite Hh2, Hhs.
  pose proof (keeps_same t _ _ Hlk) as Hk2.
  destruct (release_mutexes_ok t hs s2 th2 Hwf2 Hth2 Hw2) as (s3 & -> & Hwf3 & Hr3 & Hl3).
  { rewrite <- Hhs, <- Hh2. apply sorted_nodup, (m_sorted _ (b_m _ _ (wf_base _ _ Hwf2)) _ _ Hth2). }
  { intros m Hm. by apply (keeps_locked t s s2 m Hk2), Hlocked. }
  cbn [mbind outcome_bind]. destruct (ru_threads _ _ Hr3 t th2 Hth2) as (th3 & Hth3 & Hid3 & _ & _ & Hw3).
  destruct (Hw3 Hw2) as [Hst3 Hw3'].
  assert (forall m, ~ locked_by t m s3) as Hnone.
  { intros m Hm. destruct (Hl3 m Hm) as [Hm2 Hnin]. apply Hnin.
    destruct (locked_kind _ _ _ Hm2) as (w & n & p & Ho & Hk & Hn).
    destruct (m_holder _ (b_m _ _ (wf_base _ _ Hwf2)) _ _ _ _ _ Ho Hk) as (_ & th' & Ht' & Hin).
    rewrite Hth2 in Ht'. injection Ht' as <-. by rewrite Hh2, Hhs in Hin. }
  pose proof (wf_unexempt s3 t th3 Hwf3 Hth3 Hw3' Hnone) as Hwf4.
  set (s4 := upd_thread t (set_held_mutexes []) s3) in *.
  assert (runs s s4) as Hr4 by (etrans; [exact Hr2|]; etrans; [exact Hr3|]; by apply sw_runs, sw_upd).
  assert (sys_ok s4) as H4 by (split; [done|by eapply rest_runs]).
  assert (threads s4 !! t = Some (set_held_mutexes [] th3)) as Hth4.
  { unfold s4. by rewrite threads_upd, decide_True, Hth3. }
  destruct (release_tls_ok s4 t _ H4 Hth4) as (s5 & -> & H5 & Hr5 & Et5 & Eo5).
  - destruct (ru_threads _ _ Hr4 t th Hth) as (th' & Ht' & Hid & _). rewrite Hth4 in Ht'. injection Ht' as <-.
    injection Hid as _ _ _ E1 E2. intros p Ho. cbn [owner_process tls_address set_held_mutexes] in *.
    rewrite E1. rewrite E2 in Ho. rewrite <- lookup_fmap, (ru_procs _ _ Hr4), lookup_fmap. by apply Hp.
  - exists s5. split_and!; [done|done|by etrans|].
    assert (threads s5 !! t = Some (set_held_mutexes [] th3)) as Hth5 by by rewrite Et5.
    pose proof (so_wf _ H5) as [[_ W M _] _]. split_and!.
    + exists (set_held_mutexes [] th3). split_and!; [done|by rewrite <- Hst2, <- Hst3|done|done].
    + by apply (no_waiting s5 t (set_held_mutexes [] th3)).
    + by apply (no_locks s5 t (set_held_mutexes [] th3)).
Qed.

Lemma Thread_Stop_ok s t th : sys_ok s -> threads s !! t = Some th -> status th ≠ Dead ->
  not_self_waiting t s ->
  exists s', Thread_Stop other_wakeup t s = Done s' /\ sys_ok s' /\ after_stop t s s'.
Proof using other_quiet.
  intros [Hwf Hrest] Hth Hst Hself. unfold Thread_Stop, the_thread. rewrite Hth. cbn [of_opt mbind outcome_bind].
  destruct (kill_ok s t th Hwf Hth) as (s1 & E1 & Hk). cbv zeta in E1, Hk |- *. rewrite E1. clear E1.
  cbn [mbind outcome_bind].
  set (s2 := upd_thread t (set_status Dead) s1) in *. destruct Hk as (Hwf2 & Et2 & Eo2 & Ec2 & Ep2 & Ek2 & Ea2).
  pose proof (rest_dead s s2 t th Hrest Hth Et2 Eo2 Ec2 Ep2 Ek2 Ea2) as Hrest2.
  assert (threads s2 !! t = Some (set_status Dead th)) as Hth2 by by rewrite Et2, lookup_insert_eq.
  destruct (so_objects _ Hrest2 _ _ Hth2) as (w & Ho & Hkind).
  assert (others_wait (Some t) t s2) as Hex.
  { intros w' t' Hw' Ht' [= <-]. rewrite Eo2 in Hw'. by apply (Hself w'). }
  destruct (wakeup_all_ok (Some t) _ other_quiet t w s2 Hwf2 Hex Ho) as (s3 & -> & Hwf3 & Hr3 & _ & Hkeep).
  cbn [mbind outcome_bind]. destruct (ru_threads _ _ Hr3 t _ Hth2) as (th3 & Hth3 & Hid3 & Hst3 & _ & _).
  rewrite Hth3. cbn [of_opt mbind outcome_bind].
  assert (status th3 = Dead) as Hdead by by destruct Hst3 as [->|[? _]].
  specialize (Hkeep t eq_refl).
  assert (forall m, m ∈ held_mutexes th3 -> locked_by t m s3) as Hlocked.
  { intros m Hm. apply (keeps_locked t s2 s3 m Hkeep). pose proof (kl_held _ _ _ Hkeep) as E.
    rewrite Hth3, Hth2 in E. injection E as E. rewrite E in Hm. simpl in Hm.
    destruct (held_are_locked s t th (b_m _ _ (wf_base _ _ Hwf)) Hth m Hm) as (n & Hn & Hl).
    exists n. split; [done|]. unfold lock_at. by rewrite Eo2. }
  destruct (bury_ok s3 t th3 (held_mutexes th3) Hwf3 (rest_runs _ _ Hr3 Hrest2) Hth3 Hdead eq_refl Hlocked)
    as (s4 & E & H4 & Hr4 & Hstop).
  - injection Hid3 as _ _ _ E1 E2. simpl in E1, E2. intros p Hp. rewrite E2 in Hp. rewrite E1.
    rewrite <- lookup_fmap, (ru_procs _ _ Hr3), Ep2, lookup_fmap.
    destruct (so_procs _ Hrest t th Hth Hst) as (p' & n & l & Ep & H). rewrite Hp in Ep. injection Ep as <-. eauto.
  - exists s4. assert (runs s2 s4) as Hr by by etrans. split_and!; [exact E|done|]. split; [done| | | |].
    + by rewrite (ru_current _ _ Hr).
    + by rewrite (ru_arbiters _ _ Hr).
    + intros t' th' Hne Ht'. destruct (ru_threads _ _ Hr t' th') as (th4 & Ht4 & Hid & Hs4 & _).
      { by rewrite Et2, lookup_insert_ne. }
      exists th4. by repeat split.
    + intros o w' Ho'. rewrite <- Eo2 in Ho'. destruct (ru_objects _ _ Hr _ _ Ho') as (w4 & ? & _ & ?). eauto.
Qed.

End Stopping.
End KS.
