(* ===== verification/KernelSched.v ===== *)
(** * The scheduler

    [PopNextReadyThread] picks the first schedulable thread of the best level
    that beats the running thread; [SwitchContext] then makes it the running
    thread of the core and puts the previous one back into the queue. *)
From stdpp Require Import strings.
From S2P Require Import Prelude Results ThreadQueueList HandleTable CoreTiming ResourceLimit Kernel KernelFacts KernelWakeup KernelOps KernelSystem.

Module Sched.
Import Res Kern KF KW Ops KS.

(** ** Popping *)

Abbreviation view := (Z -> option (nat * thread_status * nat)).

Lemma spec_pop_some t : forall x t', @Tql.spec_pop Z t = (Some x, t') ->
  length (concat t) = S (length (concat t')) /\ length t' = length t.
Proof.
  induction t as [|[|y d] t IH]; intros x t'; simpl; [done| |].
  - destruct (Tql.spec_pop t) as [r t1] eqn:E. intros [= -> <-]. simpl. destruct (IH _ _ eq_refl). split; [done|lia].
  - intros [= <- <-]. done.
Qed.

(** Where a pop takes its thread from; [n] bounds the level. *)
Lemma pop_level (q : @Tql.tql Z) sp n : Tql.rep q sp -> (n <= length (Tql.tbl sp))%nat ->
  let '(r, t') := Tql.spec_pop (take n (Tql.tbl sp)) in
  match r with
  | None => t' ++ drop n (Tql.tbl sp) = Tql.tbl sp /\ forall i, (i < n)%nat -> ~ Tql.busy (Tql.tbl sp) i
  | Some t => exists i d, Tql.tbl sp !! i = Some (t :: d) /\ (i < n)%nat /\
      t' ++ drop n (Tql.tbl sp) = <[i := d]> (Tql.tbl sp) /\ forall j, (j < i)%nat -> ~ Tql.busy (Tql.tbl sp) j
  end.
Proof.
  intros Hrep Hn. pose proof Hrep as (ls & Hwf & Hcov & Ht & _).
  pose proof (Tql.first_busy_least q ls n Hwf Hcov) as Hl. rewrite (Tql.rep_length _ _ Hrep) in Hl.
  specialize (Hl Hn). rewrite Ht in Hl. pose proof (Tql.spec_pop_least _ n _ Hn Hl) as H.
  destruct (Tql.spec_pop (take n (Tql.tbl sp))) as [r t']. destruct (Tql.first_busy _ _) as [i|].
  - destruct Hl as (_ & Hi & Hleast). destruct H as (y & d & Hd & -> & E). by exists i, d.
  - destruct H as [-> E]. by split.
Qed.

(** A view with thread [t] taken out of its queue. *)
Definition hidden (t : Z) (c p : nat) (v : view) : view := upd_view v t (c, Dormant, p).

Lemma queue_pop v c q sp n r q' : queue_ok v c q sp -> (n <= 64)%nat ->
  Tql.rep q' (Tql.mk_spec (snd (Tql.spec_pop (take n (Tql.tbl sp))) ++ drop n (Tql.tbl sp)) (Tql.used sp)) ->
  fst (Tql.spec_pop (take n (Tql.tbl sp))) = r ->
  match r with
  | None => queue_ok v c q' sp /\ forall t p, v t = Some (c, Ready, p) -> (n <= p)%nat
  | Some t => exists p sp', v t = Some (c, Ready, p) /\ (p < n)%nat /\ queue_ok (hidden t c p v) c q' sp' /\
      Tql.used sp' = Tql.used sp /\ length (concat (Tql.tbl sp)) = S (length (concat (Tql.tbl sp'))) /\
      forall t' p', v t' = Some (c, Ready, p') -> (p <= p')%nat
  end.
Proof.
  intros [H1 H2 H3 H4 H5] Hn Hrep Hr. pose proof (pop_level q sp n H1 ltac:(lia)) as Hpop.
  destruct (Tql.spec_pop (take n (Tql.tbl sp))) as [r0 tl] eqn:Esp. simpl in *. subst r0.
  assert (forall t p, v t = Some (c, Ready, p) -> Tql.busy (Tql.tbl sp) p) as Hbusy.
  { intros t p Hv. destruct (in_range_lookup (Tql.tbl sp) p) as (l & Hl).
    { apply (Tql.rep_used_range q); [done|by eapply H5]. }
    apply (H4 _ _ _ Hl) in Hv. unfold Tql.busy. destruct l as [|x d]; [by apply not_elem_of_nil in Hv|]. eauto. }
  destruct r as [t|].
  - destruct Hpop as (i & d & Hi & Hin & E & Hleast). rewrite E in Hrep.
    assert (v t = Some (c, Ready, i)) as Hv by (apply (H4 _ _ _ Hi); by left).
    assert (t ∉ d) as Hnd by (pose proof (H3 _ _ Hi) as Hd; by apply NoDup_cons in Hd as [? _]).
    exists i, (Tql.mk_spec (<[i := d]> (Tql.tbl sp)) (Tql.used sp)). split_and!; [done|done| |done| |].
    + split; simpl; [done|by rewrite length_insert| | |].
      * intros p l [(-> & -> & _)|[_ Hl]]%lookup_insert_split; [|by eapply H3].
        pose proof (H3 _ _ Hi) as Hd. by apply NoDup_cons in Hd as [_ ?].
      * intros p l t0 [(<- & -> & _)|[Hne Hl]]%lookup_insert_split; unfold hidden, upd_view; case_decide as Ht.
        -- subst. naive_solver.
        -- rewrite <- (H4 _ _ _ Hi). set_solver.
        -- subst. rewrite (H4 _ _ _ Hl). naive_solver.
        -- by apply H4.
      * intros t0 st p. unfold hidden, upd_view. case_decide; [|apply H5]. intros [= <- <-]. by eapply H5.
    + simpl. rewrite <- E. rewrite <- (take_drop n (Tql.tbl sp)) at 1. rewrite !concat_app, !length_app.
      apply spec_pop_some in Esp as [-> _]. done.
    + intros t' p' Hv'. apply Nat.nlt_ge. intros Hlt. by apply (Hleast p' Hlt), (Hbusy t').
  - destruct Hpop as [E Hnone]. rewrite E in Hrep. split.
    + split; try done.
    + intros t p Hv. apply Nat.nlt_ge. intros Hlt. by apply (Hnone p Hlt), (Hbusy t).
Qed.

(** What [better] lets through. *)
Definition bound (better : option nat) : nat := default 64%nat better.

Lemma pop_ok v c q sp better : queue_ok v c q sp -> (forall p, better = Some p -> p ∈ Tql.used sp) ->
  exists r q', match better with Some p => Tql.pop_first_better p q | None => Tql.pop_first q end = Done (r, q') /\
  match r with
  | None => queue_ok v c q' sp /\ forall t p, v t = Some (c, Ready, p) -> (bound better <= p)%nat
  | Some t => exists p sp', v t = Some (c, Ready, p) /\ (p < bound better)%nat /\
      queue_ok (hidden t c p v) c q' sp' /\ Tql.used sp' = Tql.used sp /\
      length (concat (Tql.tbl sp)) = S (length (concat (Tql.tbl sp'))) /\
      forall t' p', v t' = Some (c, Ready, p') -> (p <= p')%nat
  end.
Proof.
  intros Hq Hb. pose proof Hq as [H1 H2 _ _ _]. destruct better as [p|]; simpl.
  - destruct (Tql.pop_first_better_refines q sp p H1 (Hb p eq_refl)) as (q' & -> & Hrep).
    eexists _, q'. split; [done|]. apply (queue_pop v c q sp p _ q' Hq); [|done|done].
    pose proof (Tql.rep_used_range _ _ _ H1 (Hb p eq_refl)). lia.
  - destruct (Tql.pop_first_refines q sp H1) as (q' & -> & Hrep). eexists _, q'. split; [done|].
    pose proof (queue_pop v c q sp 64 (fst (Tql.spec_pop (Tql.tbl sp))) q' Hq (Nat.le_refl _)) as Hp.
    rewrite (take_ge (Tql.tbl sp)), (drop_ge (Tql.tbl sp)), app_nil_r in Hp by lia.
    exact (Hp Hrep eq_refl).
Qed.

(** ** The loop over threads that may not be scheduled *)

(** The view with the skipped threads out of the queue. *)
Definition hide (ts : list Z) (v : view) : view := fun t =>
  if decide (t ∈ ts) then (fun x => (x.1.1, Dormant, x.2)) <$> v t else v t.

Lemma hide_nil v t : hide [] v t = v t.
Proof. unfold hide. rewrite decide_False; [done|apply not_elem_of_nil]. Qed.

Lemma hide_snoc ts t c p v : v t = Some (c, Ready, p) -> t ∉ ts ->
  forall t', hide (ts ++ [t]) v t' = hidden t c p (hide ts v) t'.
Proof.
  intros Hv Ht t'. unfold hidden, upd_view, hide. destruct (decide (t' = t)) as [->|Hne].
  - rewrite decide_True by set_solver. by rewrite Hv.
  - destruct (decide (t' ∈ ts)); [rewrite decide_True by set_solver|rewrite decide_False by set_solver]; done.
Qed.

Lemma hide_ready ts v t c p : hide ts v t = Some (c, Ready, p) <-> (t ∉ ts) /\ v t = Some (c, Ready, p).
Proof.
  unfold hide. case_decide; [|tauto]. split; [|tauto]. destruct (v t); simpl; naive_solver.
Qed.

Definition schedulable (s : kern) (t : Z) : Prop := exists th, threads s !! t = Some th /\ can_schedule th = true.

Lemma sched_thread s t c p : sched_of s t = Some (c, Ready, p) ->
  exists th, threads s !! t = Some th /\ core_id th = c /\ status th = Ready /\ current_priority th = p.
Proof.
  unfold sched_of. intros (th & Hth & E)%fmap_Some. exists th. unfold sched in E. naive_solver.
Qed.

(** The outcome of the loops: [r] is the best schedulable thread that beats
    the bound, and only threads that may not be scheduled were skipped. *)
Record popped (s : kern) (c : nat) (better : option nat) (r : option Z) (q' : @Tql.tql Z) (skipped : list Z) : Prop := {
  pp_skipped : forall t, t ∈ skipped -> ~ schedulable s t /\ exists p, sched_of s t = Some (c, Ready, p);
  pp_nodup : NoDup skipped;
  pp_result :
    match r with
    | None => (exists sp, queue_ok (hide skipped (sched_of s)) c q' sp) /\
        forall t p, t ∉ skipped -> sched_of s t = Some (c, Ready, p) -> (bound better <= p)%nat
    | Some t => (t ∉ skipped) /\ schedulable s t /\ exists p, sched_of s t = Some (c, Ready, p) /\
        (p < bound better)%nat /\ (exists sp, queue_ok (hidden t c p (hide skipped (sched_of s))) c q' sp) /\
        forall t' p', t' ∉ skipped -> sched_of s t' = Some (c, Ready, p') -> (p <= p')%nat
    end;
}.

Lemma pop_schedulable_ok s c better : forall fuel q sp skipped,
  queue_ok (hide skipped (sched_of s)) c q sp -> (forall p, better = Some p -> p ∈ Tql.used sp) ->
  (length (concat (Tql.tbl sp)) <= fuel)%nat -> NoDup skipped ->
  (forall t, t ∈ skipped -> ~ schedulable s t /\ exists p, sched_of s t = Some (c, Ready, p)) ->
  exists r q' sk, pop_schedulable fuel better s q skipped = Done (r, q', sk) /\ popped s c better r q' sk.
Proof.
  induction fuel as [|fuel IH]; intros q sp skipped Hq Hb Hfuel Hnd Hsk;
    destruct (pop_ok _ _ _ _ _ Hq Hb) as (r & q' & E & Hr); cbn [pop_schedulable]; rewrite E;
    cbn [mbind outcome_bind]; (destruct r as [t|];
      [|exists None, q', skipped; split; [done|]; destruct Hr as [Hq' Hr]; split; [done|done|];
        split; [by eexists|]; intros t p Ht Hv; apply (Hr t), hide_ready; done]).
  - destruct Hr as (p & sp' & _ & _ & _ & _ & Hlen & _). lia.
  - destruct Hr as (p & sp' & Hv & Hp & Hq' & Hu & Hlen & Hbest). apply hide_ready in Hv as [Hnin Hv].
    destruct (sched_thread s t c p Hv) as (th & Hth & Hc & Hst & Hpr). unfold the_thread. rewrite Hth.
    cbn [of_opt mbind outcome_bind]. destruct (can_schedule th) eqn:Hcan.
    + exists (Some t), q', skipped. split; [done|]. split; [done|done|]. split; [done|]. split; [by exists th|].
      exists p. split_and!; [done|done|by eexists|]. intros t' p' Ht' Hv'. apply (Hbest t'), hide_ready. done.
    + apply (IH q' sp' (skipped ++ [t])).
      * eapply queue_ok_ext; [|exact Hq']. by apply hide_snoc.
      * intros p' Hp'. rewrite Hu. auto.
      * lia.
      * apply NoDup_app. split_and!; [done|set_solver|apply NoDup_singleton].
      * intros t' [Ht' | ->%list_elem_of_singleton]%elem_of_app; [by apply Hsk|]. split; [|by exists p].
        intros (th' & Hth' & Hcan'). rewrite Hth in Hth'. injection Hth' as <-. congruence.
Qed.

(** Putting the skipped threads back restores the queue. *)
Lemma push_skipped_ok s c v : forall ts q sp, queue_ok (fun t => if decide (t ∈ ts) then
    (fun x => (x.1.1, Dormant, x.2)) <$> v t else v t) c q sp -> NoDup ts ->
  (forall t, t ∈ ts -> exists p, v t = Some (c, Ready, p) /\ sched_of s t = Some (c, Ready, p)) ->
  exists q' sp', push_skipped s ts q = Done q' /\ queue_ok v c q' sp'.
Proof.
  induction ts as [|t ts IH]; intros q sp Hq Hnd Hts; cbn [push_skipped].
  { exists q, sp. split; [done|]. eapply queue_ok_ext; [|exact Hq]. intros t. cbn beta. by rewrite decide_False by apply not_elem_of_nil. }
  apply NoDup_cons in Hnd as [Hnt Hnd]. destruct (Hts t ltac:(set_solver)) as (p & Hv & Hs).
  destruct (sched_thread s t c p Hs) as (th & Hth & _ & _ & Hpr). unfold the_thread. rewrite Hth.
  cbn [of_opt mbind outcome_bind]. rewrite Hpr.
  set (v1 := fun t0 => _) in Hq.
  assert (v1 t = Some (c, Dormant, p)) as Hv1.
  { unfold v1. rewrite decide_True by set_solver. by rewrite Hv. }
  destruct (queue_prepared _ _ _ _ _ _ _ Hq Hv1) as [Hu _].
  destruct (queue_push false v1 c q sp t Dormant p p Hq Hv1) as (q1 & sp1 & E & Hq1 & _); [done|done|].
  cbn beta iota in E. rewrite E. cbn [mbind outcome_bind]. apply (IH q1 sp1); [|done|set_solver].
  eapply queue_ok_ext; [|exact Hq1]. intros t'. unfold upd_view, v1.
  destruct (decide (t' = t)) as [->|Hne]; [by rewrite decide_False|].
  destruct (decide (t' ∈ ts)); [rewrite decide_True by set_solver|rewrite decide_False by set_solver]; done.
Qed.

(** ** [PopNextReadyThread] *)

Definition running (s : kern) (c : nat) (t : Z) : Prop :=
  current_thread <$> managers s !! c = Some (Some t) /\ exists th, threads s !! t = Some th /\ status th = Running.

(** No schedulable ready thread of the core beats priority [n]. *)
Definition none_below (s : kern) (c n : nat) : Prop :=
  forall t p, schedulable s t -> sched_of s t = Some (c, Ready, p) -> (n <= p)%nat.

(** The choice: keep the running thread, take a ready one, or idle. *)
Inductive choice (s : kern) (c : nat) (q' : @Tql.tql Z) : option Z -> Prop :=
| choice_keep t th sp : running s c t -> threads s !! t = Some th -> queue_ok (sched_of s) c q' sp ->
    none_below s c (current_priority th) -> choice s c q' (Some t)
| choice_take t p sp : schedulable s t -> sched_of s t = Some (c, Ready, p) ->
    queue_ok (hidden t c p (sched_of s)) c q' sp -> none_below s c p ->
    (forall t' th', running s c t' -> threads s !! t' = Some th' -> (p < current_priority th')%nat) ->
    choice s c q' (Some t)
| choice_idle sp : (forall t, ~ running s c t) -> queue_ok (sched_of s) c q' sp -> none_below s c 64 ->
    choice s c q' None.

Lemma rev_elem (t : Z) l : t ∈ rev l <-> t ∈ l.
Proof. rewrite !list_elem_of_In. symmetry. apply in_rev. Qed.

Lemma choose_ok s c better q sp r q' sk : popped s c better r q' sk -> queue_ok (sched_of s) c q sp ->
  (forall p, better = Some p -> exists t th, running s c t /\ threads s !! t = Some th /\ current_priority th = p) ->
  (better = None -> forall t, ~ running s c t) ->
  exists q2, push_skipped s (rev sk) q' = Done q2 /\
    choice s c q2 (match r with None => if better is Some _ then mjoin (current_thread <$> managers s !! c) else None | Some t => Some t end).
Proof.
  intros [Hsk Hnd Hr] Hq Hb Hnb.
  assert (forall t n, schedulable s t -> (t ∉ sk -> (n : Prop)) -> n) as Hnot.
  { intros t n Hs H. apply H. intros Hin. by destruct (Hsk t Hin). }
  assert (forall p t th, better = Some p -> running s c t -> threads s !! t = Some th -> current_priority th = p) as Hcur.
  { intros p t th -> [Ht _] Hth. destruct (Hb p eq_refl) as (t' & th' & [Ht' _] & Hth' & <-). congruence. }
  destruct r as [t|].
  - destruct Hr as (Hnin & Hs & p & Hv & Hp & (sp' & Hq') & Hbest).
    destruct (push_skipped_ok s c (hidden t c p (sched_of s)) (rev sk) q' sp') as (q2 & sp2 & -> & Hq2).
    + eapply queue_ok_ext; [|exact Hq']. intros t'. unfold hidden, upd_view, hide.
      destruct (decide (t' = t)) as [->|Hne].
      * rewrite decide_False; [done|]. by rewrite rev_elem.
      * destruct (decide (t' ∈ sk)); [rewrite decide_True by by rewrite rev_elem|rewrite decide_False by by rewrite rev_elem]; done.
    + apply NoDup_ListNoDup, List.NoDup_rev. by apply NoDup_ListNoDup.
    + intros t' Ht'. rewrite rev_elem in Ht'. destruct (Hsk t' Ht') as (_ & p' & Hv'). exists p'.
      split; [|done]. unfold hidden. rewrite upd_view_other; [done|]. by intros ->.
    + exists q2. split; [done|]. eapply choice_take; [done|done|exact Hq2| |].
      * intros t' p' Hs' Hv'. apply (Hnot t' _ Hs'). intros Ht'. by apply (Hbest t').
      * intros t' th' Hrun Hth'. destruct better as [b|]; [|by destruct (Hnb eq_refl t')].
        by rewrite (Hcur b t' th' eq_refl Hrun Hth').
  - destruct Hr as ((sp' & Hq') & Hbest).
    destruct (push_skipped_ok s c (sched_of s) (rev sk) q' sp') as (q2 & sp2 & -> & Hq2).
    + eapply queue_ok_ext; [|exact Hq']. intros t'. unfold hide.
      destruct (decide (t' ∈ sk)); [rewrite decide_True by by rewrite rev_elem|rewrite decide_False by by rewrite rev_elem]; done.
    + apply NoDup_ListNoDup, List.NoDup_rev. by apply NoDup_ListNoDup.
    + intros t' Ht'. rewrite rev_elem in Ht'. destruct (Hsk t' Ht') as (_ & p' & Hv'). by exists p'.
    + exists q2. split; [done|].
      assert (none_below s c (bound better)) as Hnone.
      { intros t' p' Hs' Hv'. apply (Hnot t' _ Hs'). intros Ht'. by apply (Hbest t'). }
      destruct better as [b|]; [|by eapply choice_idle; auto].
      destruct (Hb b eq_refl) as (t & th & Hrun & Hth & <-). pose proof Hrun as [-> _].
      simpl. by eapply choice_keep.
Qed.

Lemma table_length (q : @Tql.tql Z) sp : Tql.rep q sp -> Tql.table q = Tql.tbl sp.
Proof. by intros (_ & _ & _ & H & _). Qed.

Lemma PopNext_ok s c m : sys_ok s -> managers s !! c = Some m ->
  exists next q', PopNextReadyThread c s = Done (next, upd_manager c (set_ready q') s) /\ choice s c q' next.
Proof.
  intros [Hwf Hrest] Hm. pose proof Hwf as [[Hq _ _ _] _]. destruct (Hq c m Hm) as (sp & Hsp).
  unfold PopNextReadyThread, the_manager. rewrite Hm. cbn [of_opt mbind outcome_bind].
  assert (exists b p, match current_thread m with
      | Some t => th ← the_thread t s; Done (bool_decide (status th = Running), current_priority th)
      | None => Done (false, O) end = Done (b, p) /\
      let better := if b : bool then Some p else None in
      (forall p, better = Some p -> p ∈ Tql.used sp) /\
      (forall p, better = Some p -> exists t th, running s c t /\ threads s !! t = Some th /\ current_priority th = p) /\
      (better = None -> forall t, ~ running s c t) /\
      (b = true -> current_thread m = mjoin (current_thread <$> managers s !! c)))
    as (b & p & -> & Hused & Hb & Hnb & Hcur).
  { destruct (current_thread m) as [t|] eqn:Hct.
    - destruct (so_current _ Hrest c m t Hm Hct) as (th & Hth & Hcore). unfold the_thread. rewrite Hth.
      cbn [of_opt mbind outcome_bind]. eexists _, _. split; [done|].
      assert (current_thread <$> managers s !! c = Some (Some t)) as Hct' by by rewrite Hm; simpl; rewrite Hct.
      case_bool_decide as Hrun; simpl; split_and!; try done.
      + intros p [= <-]. eapply (qo_prepared _ _ _ _ Hsp t (status th)). unfold sched_of. rewrite Hth. simpl.
        unfold sched. by rewrite Hcore.
      + intros p [= <-]. exists t, th. split_and!; try done. split; [done|]. by exists th.
      + by rewrite Hct'.
      + intros _ t' [E (th' & Hth' & Hst')]. rewrite Hct' in E. injection E as <-.
        rewrite Hth in Hth'. injection Hth' as <-. done.
    - exists false, O. split; [done|]. simpl. split_and!; try done.
      intros _ t [E _]. rewrite Hm in E. simpl in E. congruence. }
  cbn [mbind outcome_bind]. set (better := if b then Some p else None) in *.
  destruct (pop_schedulable_ok s c better (length (concat (Tql.table (ready_queue m)))) (ready_queue m) sp [])
    as (r & q1 & sk & -> & Hpop).
  - eapply queue_ok_ext; [|exact Hsp]. intros t. apply hide_nil.
  - done.
  - by rewrite (table_length _ _ (qo_rep _ _ _ _ Hsp)).
  - constructor.
  - by intros t ?%not_elem_of_nil.
  - cbn [mbind outcome_bind]. destruct (choose_ok s c better _ sp r q1 sk Hpop Hsp Hb Hnb) as (q2 & -> & Hch).
    cbn [mbind outcome_bind]. eexists _, q2. split; [done|]. destruct r as [t|]; [done|].
    destruct b; simpl in *; [|done]. by rewrite Hcur.
Qed.

(** ** Context switches *)

(** The invariants that do not mention the ready queues. *)
Record nq (s : kern) : Prop := {
  nq_w : wb_ok None s; nq_m : m_ok None s; nq_t : t_ok s; nq_from : w_from s;
  nq_procs : forall t th, threads s !! t = Some th -> status th ≠ Dead ->
    exists p n l, owner_process th = Some p /\ pfields <$> processes s !! p = Some (n, Some l) /\
      u32 (tls_address th - TLS_AREA_VADDR) / TLS_PAGE_SIZE < Z.of_nat n;
  nq_objects : forall t th, threads s !! t = Some th -> exists w, objects s !! t = Some w /\ kind_of w = KThread;
  nq_clock : (Timing.current_timer (timing s) < length (Timing.timers (timing s)))%nat /\
    length (managers s) = length (Timing.timers (timing s));
  nq_arbiters : forall a l t, arbiters s !! a = Some l -> t ∈ l -> is_Some (threads s !! t);
}.

Lemma nq_of s : sys_ok s -> nq s.
Proof. by intros [[[] ?] []]. Qed.

Lemma sys_of s : nq s -> q_ok s ->
  (forall c m t, managers s !! c = Some m -> current_thread m = Some t ->
    exists th, threads s !! t = Some th /\ core_id th = c) ->
  (forall t th, threads s !! t = Some th -> status th = Running ->
    current_thread <$> managers s !! core_id th = Some (Some t)) -> sys_ok s.
Proof. by intros [] ? ? ?. Qed.

(** A thread record with the same role in the invariants. *)
Definition same_role (th th' : thread) : Prop :=
  ident th' = ident th /\ held_mutexes th' = held_mutexes th /\ (status th = Dead -> status th' = Dead) /\
  (wfields th' = wfields th \/ wait_objects th = [] /\ wait_objects th' = []).

Lemma nq_thread s s' t th th' : nq s -> threads s !! t = Some th -> same_role th th' ->
  threads s' = <[t := th']> (threads s) -> objects s' = objects s -> processes s' = processes s ->
  clocks s' = clocks s -> length (managers s') = length (managers s) -> arbiters s' = arbiters s -> nq s'.
Proof.
  intros [H1 H2 H3 H4 H5 H6 H7 H8] Hth (Hid & Hheld & Hdead & Hwf) Et Eo Ep Ek El Ea.
  assert (forall t0 th0, threads s' !! t0 = Some th0 -> t0 = t /\ th0 = th' \/ t0 ≠ t /\ threads s !! t0 = Some th0) as Hcase.
  { intros t0 th0. rewrite Et, lookup_insert_Some. naive_solver. }
  assert (held_mutexes <$> threads s' = held_mutexes <$> threads s) as Eh.
  { rewrite Et, fmap_insert, Hheld. apply map_eq. intros i. rewrite lookup_insert. case_decide; [|done].
    subst. by rewrite lookup_fmap, Hth. }
  assert (wb_ok None s' /\ w_from s') as [W F].
  { destruct Hwf as [Hwf|[Hw Hw']].
    - assert (wfields <$> threads s' = wfields <$> threads s) as Ewf.
      { rewrite Et, fmap_insert, Hwf. apply map_eq. intros i. rewrite lookup_insert. case_decide; [|done].
        subst. by rewrite lookup_fmap, Hth. }
      set (s1 := with_objects (objects s') (with_threads (threads s') s)).
      assert (same_waits s s1) as Hs by (split; [done|by unfold s1; simpl; rewrite Eo|done..]).
      split.
      + pose proof (wb_ok_same None s s1 Hs H1) as [A1 A2 A3 A4 A5 A6]. by split.
      + exact (w_from_same s s1 Hs H4).
    - split; [by eapply wb_ok_thread|by eapply w_from_thread]. }
  split; [done|by eapply m_ok_threads| |done| | | |].
  - intros t0 th0 Ht0. rewrite El. destruct (Hcase _ _ Ht0) as [[-> ->]|[_ Ht1]]; [|eauto].
    injection Hid as _ -> -> _ _. eauto.
  - intros t0 th0 Ht0 Hst. rewrite Ep. destruct (Hcase _ _ Ht0) as [[-> ->]|[_ Ht1]]; [|eauto].
    injection Hid as _ _ _ -> ->. apply (H5 t th Hth). intros E. by apply Hst, Hdead.
  - intros t0 th0 Ht0. rewrite Eo. destruct (Hcase _ _ Ht0) as [[-> ->]|[_ Ht1]]; eauto.
  - unfold clocks in Ek. injection Ek as -> ->. by rewrite El.
  - intros a l t0 Ha Ht0. rewrite Ea in Ha. rewrite Et. apply lookup_insert_is_Some'. right. eauto.
Qed.

Lemma upd_manager_twice c f g s : upd_manager c f (upd_manager c g s) = upd_manager c (f ∘ g) s.
Proof.
  unfold upd_manager, with_managers. simpl. f_equal. apply list_eq. intros i. rewrite !list_lookup_alter.
  destruct (decide (c = i)) as [->|]; [|done]. destruct (decide (i = i)); [|done]. by destruct (managers s !! i).
Qed.

Lemma upd_manager_lookup c f s m : managers s !! c = Some m -> managers (upd_manager c f s) !! c = Some (f m).
Proof. intros Hm. unfold upd_manager. simpl. by rewrite list_lookup_alter, decide_True, Hm. Qed.

Lemma waits_nothing s t th : wb_ok None s -> threads s !! t = Some th -> waiting_status (status th) = false ->
  wait_objects th = [].
Proof.
  intros Hw Hth Hst. destruct (decide (wait_objects th = [])) as [|Hne]; [done|].
  destruct (w_status _ Hw _ _ Hth ltac:(done) Hne) as [E _]. congruence.
Qed.

(** The first half: [V] is the view of the queue once the new thread is
    chosen. *)
Lemma save_ok s c m q' sp V : sys_ok s -> managers s !! c = Some m -> queue_ok V c q' sp ->
  (forall t, running s c t -> V t = sched_of s t) ->
  exists s1 q1 sp1 V1, save_previous c (upd_manager c (set_ready q') s) = Done s1 /\
    queue_ok V1 c q1 sp1 /\ managers s1 = managers (upd_manager c (set_ready q1) s) /\ nq s1 /\
    objects s1 = objects s /\ timing s1 = timing s /\
    (forall t, ~ running s c t -> V1 t = V t) /\
    (forall t, running s c t -> V1 t = sched_of s1 t) /\
    forall t th, threads s !! t = Some th -> exists th1, threads s1 !! t = Some th1 /\
      ident th1 = ident th /\ current_priority th1 = current_priority th /\
      (running s c t -> status th1 = Ready) /\ (~ running s c t -> status th1 = status th) /\
      (current_thread m = Some t -> ctx th1 = cpu m) /\ (current_thread m ≠ Some t -> th1 = th) .
Proof.
  intros Hs Hm Hq HV. pose proof (nq_of _ Hs) as Hnq. pose proof Hs as [_ Hrest].
  unfold save_previous, the_manager. rewrite (upd_manager_lookup _ _ _ _ Hm). cbn [of_opt mbind outcome_bind].
  change (current_thread (set_ready q' m)) with (current_thread m).
  set (s0 := upd_manager c (set_ready q') s).
  destruct (current_thread m) as [t0|] eqn:Hct.
  2: { exists s0, q', sp, V. assert (forall t, ~ running s c t) as Hno
         by (intros t [E _]; rewrite Hm in E; simpl in E; congruence).
       split_and!; try done.
       - destruct Hnq as [[] [] H3 H4 H5 H6 H7 H8]. split; try done.
         + intros t th Ht. unfold s0, upd_manager. simpl. rewrite length_alter. by apply (H3 t th).
         + unfold s0, upd_manager. simpl. by rewrite length_alter.
       - intros t th Ht. exists th. split_and!; try done. by intros ?%Hno. }
  destruct (so_current _ Hrest c m t0 Hm Hct) as (th0 & Hth0 & Hcore).
  assert (exists tm, Timing.timers (timing s) !! c = Some tm) as (tm & Htm).
  { apply in_range_lookup. rewrite <- (proj2 (so_clock _ Hrest)). by eapply lookup_lt_Some. }
  unfold the_thread. change (threads s0) with (threads s). rewrite Hth0. cbn [of_opt mbind outcome_bind].
  change (timing s0) with (timing s). rewrite Htm. cbn [of_opt mbind outcome_bind].
  change (cpu (set_ready q' m)) with (cpu m).
  set (f := fun th => set_ctx (cpu m) (set_last_running_ticks (Timing.GetTicks tm) th)).
  change (upd_thread t0 _ s0) with (upd_thread t0 f s0).
  assert (forall t, running s c t -> t = t0) as Honly.
  { intros t [E _]. rewrite Hm in E. simpl in E. congruence. }
  destruct (decide (status th0 = Running)) as [Hrun|Hrun].
  - assert (running s c t0) as Hr0 by (split; [by rewrite Hm; simpl; rewrite Hct|by exists th0]).
    assert (V t0 = Some (c, Running, current_priority th0)) as HVt.
    { rewrite (HV t0 Hr0). unfold sched_of. rewrite Hth0. simpl. unfold sched. by rewrite Hcore, Hrun. }
    destruct (queue_prepared _ _ _ _ _ _ _ Hq HVt) as [Hu _].
    destruct (queue_push true V c q' sp t0 Running _ (current_priority th0) Hq HVt) as (q1 & sp1 & E & Hq1 & _);
      [done|done|]. cbn iota in E.
    rewrite (on_queue_ok c _ (upd_thread t0 f s0) (set_ready q' m) q1);
      [|by apply upd_manager_lookup|exact E]. cbn [mbind outcome_bind].
    set (s1 := upd_thread t0 (set_status Ready) _).
    assert (threads s1 = <[t0 := set_status Ready (f th0)]> (threads s)) as Et.
    { unfold s1, upd_thread. simpl. rewrite (alter_insert_eq _ _ _ _ Hth0).
      rewrite (alter_insert_eq _ _ _ _ (lookup_insert_eq _ _ _)). by rewrite insert_insert_eq. }
    exists s1, q1, sp1, (upd_view V t0 (c, Ready, current_priority th0)). split_and!; try done.
    + unfold s1. change (managers (upd_manager c (set_ready q1) s0) = managers (upd_manager c (set_ready q1) s)).
      unfold s0. by rewrite upd_manager_twice.
    + eapply (nq_thread s s1 t0 th0 _ Hnq Hth0); [|exact Et|done|done|done| |done].
      * assert (wait_objects th0 = []) by (eapply waits_nothing; [apply Hnq|exact Hth0|by rewrite Hrun]).
        split_and!; [done|done|by rewrite Hrun|by right].
      * unfold s1, upd_thread, s0, upd_manager. simpl. by rewrite !length_alter.
    + intros t Hnr. apply upd_view_other. by intros ->.
    + intros t Hr. rewrite (Honly t Hr), upd_view_same. unfold sched_of. rewrite Et, lookup_insert_eq. simpl.
      unfold sched. simpl. by rewrite Hcore.
    + intros t th Ht. destruct (decide (t = t0)) as [->|Hne].
      * rewrite Hth0 in Ht. injection Ht as <-. exists (set_status Ready (f th0)). rewrite Et, lookup_insert_eq.
        split_and!; try done.
      * exists th. rewrite Et, lookup_insert_ne by done. split_and!; try done; [by intros ->%Honly|congruence].
  - assert (~ running s c t0) as Hr0.
    { intros [_ (th & Hth & E)]. rewrite Hth0 in Hth. injection Hth as <-. done. }
    assert (forall t, ~ running s c t) as Hno by (intros t Hr; pose proof (Honly t Hr); by subst).
    set (s1 := upd_thread t0 f s0).
    assert (threads s1 = <[t0 := f th0]> (threads s)) as Et by by apply alter_insert_eq.
    exists s1, q', sp, V. split_and!; try done; [| |].
    + eapply (nq_thread s s1 t0 th0 _ Hnq Hth0); [|exact Et|done|done|done| |done].
      * split_and!; [done|done|done|by left].
      * unfold s1, upd_thread, s0, upd_manager. simpl. by rewrite !length_alter.
    + by intros t ?%Hno.
    + intros t th Ht. destruct (decide (t = t0)) as [->|Hne].
      * rewrite Hth0 in Ht. injection Ht as <-. exists (f th0). rewrite Et, lookup_insert_eq.
        split_and!; try done.
      * exists th. rewrite Et, lookup_insert_ne by done. split_and!; try done; [by intros ?%Hno|congruence].
Qed.

(** How a core looks after a switch to [next]. *)
Definition on_core (s : kern) (c : nat) (next : option Z) : Prop :=
  current_thread <$> managers s !! c = Some next /\
  match next with
  | Some t => exists th m, threads s !! t = Some th /\ status th = Running /\ managers s !! c = Some m /\
      cpu m = ctx th /\ cp15_uro m = tls_address th
  | None => True
  end.

(** The rest of the threads: the one that ran until now is ready, with its
    registers saved. *)
Definition switched (s s' : kern) (c : nat) (next : option Z) : Prop :=
  forall t th, threads s !! t = Some th -> exists th', threads s' !! t = Some th' /\ ident th' = ident th /\
    (next ≠ Some t -> (running s c t -> status th' = Ready) /\ (~ running s c t -> status th' = status th)) /\
    forall m, managers s !! c = Some m -> current_thread m = Some t -> ctx th' = cpu m.

Lemma other_managers c f s c' m' : managers (upd_manager c f s) !! c' = Some m' ->
  c' = c /\ (exists m, managers s !! c = Some m /\ m' = f m) \/ c' ≠ c /\ managers s !! c' = Some m'.
Proof. intros [(<- & m & Hm & ->)|(Hne & Hm)]%alter_lookup; [left|right]; eauto. Qed.

(** Threads of other cores keep their scheduling state. *)
Lemma queue_same_core v v' c q sp : queue_ok v c q sp ->
  (forall t, v' t = v t \/ exists x y, v t = Some x /\ v' t = Some y /\ x.1.1 ≠ c /\ y.1.1 ≠ c) -> queue_ok v' c q sp.
Proof.
  intros [H1 H2 H3 H4 H5] Hv. split; try done.
  - intros p l t Hl. rewrite (H4 _ _ _ Hl). destruct (Hv t) as [->|(x & y & -> & -> & Hx & Hy)]; [done|]. naive_solver.
  - intros t st p Ht. destruct (Hv t) as [E|(x & y & _ & E & _ & Hy)]; [rewrite E in Ht; eauto|]. naive_solver.
Qed.

Lemma ident_core th th' : ident th' = ident th -> core_id th' = core_id th.
Proof. by intros [= _ -> _ _ _]. Qed.

(** Only threads of the core change their state in a switch. *)
Lemma q_ok_switch s s' c q' sp : q_ok s -> queue_ok (sched_of s') c q' sp ->
  (forall c' m', managers s' !! c' = Some m' ->
     if decide (c' = c) then ready_queue m' = q'
     else exists m, managers s !! c' = Some m /\ ready_queue m' = ready_queue m) ->
  (forall t, sched_of s' t = sched_of s t \/
     exists x y, sched_of s t = Some x /\ sched_of s' t = Some y /\ x.1.1 = c /\ y.1.1 = c) -> q_ok s'.
Proof.
  intros Hq Hq' Hm Hv c' m' Hm'. specialize (Hm c' m' Hm'). destruct (decide (c' = c)) as [->|Hne].
  - exists sp. by rewrite Hm.
  - destruct Hm as (m & Hms & ->). destruct (Hq c' m Hms) as (sp0 & H0). exists sp0.
    eapply queue_same_core; [exact H0|]. intros t. destruct (Hv t) as [->|(x & y & -> & -> & Hx & Hy)]; [by left|].
    right. exists x, y. split_and!; congruence.
Qed.

(** The switch to a thread that is ready once the previous one is put aside. *)
Lemma resume_ok s s1 c m q1 sp1 V1 t p : sys_ok s -> managers s !! c = Some m ->
  managers s1 = managers (upd_manager c (set_ready q1) s) -> queue_ok V1 c q1 sp1 -> nq s1 -> timing s1 = timing s ->
  (forall t', t' ≠ t -> V1 t' = sched_of s1 t') -> (exists st, V1 t = Some (c, st, p)) ->
  (exists th1, threads s1 !! t = Some th1 /\ status th1 = Ready /\ core_id th1 = c /\ current_priority th1 = p) ->
  (forall t th, threads s !! t = Some th -> exists th1, threads s1 !! t = Some th1 /\ core_id th1 = core_id th /\
     current_priority th1 = current_priority th /\ (~ running s c t -> status th1 = status th) /\
     (running s c t -> status th1 = Ready)) ->
  (forall t, is_Some (threads s1 !! t) -> is_Some (threads s !! t)) ->
  forall prev, exists s', (th ← the_thread t s1;
      _ ← assert_ (bool_decide (status th = Ready));
      let s := cancel_wakeup th s1 in
      let s := upd_manager c (set_current (Some t)) s in
      s ← on_queue c (Tql.remove (current_priority th) t) s;
      let s := upd_thread t (set_status Running) s in
      p ← of_opt FAssert (owner_process th);
      let s := if decide (prev = Some p) then s else SetCurrentProcessForCPU p c s in
      Done (upd_manager c (set_cpu (ctx th) (tls_address th)) s)) = Done s' /\
    sys_ok s' /\ on_core s' c (Some t) /\
    forall t' th1, threads s1 !! t' = Some th1 -> exists th', threads s' !! t' = Some th' /\
      th' = if decide (t' = t) then set_status Running th1 else th1.
Proof.
  intros Hs Hm Em Hq1 Hnq Etm HV (st & HVt) (th1 & Hth1 & Hst1 & Hc1 & Hp1) Hthr Hback prev.
  pose proof Hs as [[[Hq _ _ _] _] Hrest]. unfold the_thread. rewrite Hth1. cbn [of_opt mbind outcome_bind].
  rewrite (bool_decide_true (status th1 = Ready)) by done. cbn [assert_ mbind outcome_bind]. cbv zeta.
  destruct (queue_prepared _ _ _ _ _ _ _ Hq1 HVt) as [Hu _].
  destruct (queue_remove V1 c q1 sp1 t st p (c, Running, p) Hq1 HVt) as (q2 & sp2 & E & Hq2 & _); [done..|].
  set (sa := upd_manager c (set_current (Some t)) (cancel_wakeup th1 s1)).
  assert (managers sa !! c = Some (set_current (Some t) (set_ready q1 m))) as Hma.
  { apply upd_manager_lookup. change (managers (cancel_wakeup th1 s1)) with (managers s1). rewrite Em.
    by apply upd_manager_lookup. }
  rewrite (on_queue_ok c _ sa _ q2 Hma) by by rewrite Hp1. cbn [mbind outcome_bind].
  destruct (nq_procs _ Hnq t th1 Hth1) as (pr & n & l & Epr & _); [by rewrite Hst1|].
  rewrite Epr. cbn [of_opt mbind outcome_bind]. set (sb := upd_thread t (set_status Running) _).
  set (sc := if decide (prev = Some pr) then sb else SetCurrentProcessForCPU pr c sb).
  assert (threads sc = threads sb /\ objects sc = objects sb /\ managers sc = managers sb /\
    timing sc = timing sb /\ processes sc = processes sb /\ arbiters sc = arbiters sb) as (E1 & E2 & E3 & E4 & E5 & E6).
  { unfold sc, SetCurrentProcessForCPU. by repeat case_match. }
  set (s' := upd_manager c (set_cpu (ctx th1) (tls_address th1)) sc).
  assert (threads s' = <[t := set_status Running th1]> (threads s1)) as Et.
  { unfold s', upd_manager. simpl. rewrite E1. unfold sb, upd_thread. simpl. by apply alter_insert_eq. }
  assert (exists f, managers s' = managers (upd_manager c f s) /\ ready_queue (f m) = q2 /\
    current_thread (f m) = Some t /\ cpu (f m) = ctx th1 /\ cp15_uro (f m) = tls_address th1) as (f & Ef & F1 & F2 & F3 & F4).
  { exists (set_cpu (ctx th1) (tls_address th1) ∘ set_ready q2 ∘ set_current (Some t) ∘ set_ready q1). split; [|done].
    assert (forall g a b, managers a = managers b -> managers (upd_manager c g a) = managers (upd_manager c g b)) as Hcong
      by (intros g a b Hab; unfold upd_manager; simpl; by rewrite Hab).
    unfold s'. rewrite (Hcong _ sc (upd_manager c (set_ready q2) sa) E3). rewrite upd_manager_twice.
    unfold sa. rewrite upd_manager_twice.
    rewrite (Hcong _ (cancel_wakeup th1 s1) (upd_manager c (set_ready q1) s) Em). by rewrite upd_manager_twice. }
  exists s'. split; [done|].
  assert (sched_of s' t = Some (c, Running, p)) as Hvt.
  { unfold sched_of. rewrite Et, lookup_insert_eq. simpl. unfold sched. simpl. by rewrite Hc1, Hp1. }
  assert (forall t', t' ≠ t -> threads s' !! t' = threads s1 !! t') as Hoth by (intros t' Hne; by rewrite Et, lookup_insert_ne).
  assert (managers s' !! c = Some (f m)) as Hmc by (rewrite Ef; by apply upd_manager_lookup).
  split_and!.
  - apply sys_of.
    + eapply (nq_thread s1 s' t th1 (set_status Running th1) Hnq Hth1); [|exact Et| | | | |].
      * assert (wait_objects th1 = []) by (eapply waits_nothing; [apply Hnq|exact Hth1|by rewrite Hst1]).
        split_and!; [done|done|by rewrite Hst1|by right].
      * unfold s', upd_manager. simpl. by rewrite E2.
      * unfold s', upd_manager. simpl. by rewrite E5.
      * unfold clocks, s', upd_manager. simpl. rewrite E4. apply unschedule_clocks.
      * rewrite Ef, Em. unfold upd_manager. simpl. by rewrite !length_alter.
      * unfold s', upd_manager. simpl. by rewrite E6.
    + eapply (q_ok_switch s s' c q2 sp2 Hq).
      * eapply queue_ok_ext; [|exact Hq2]. intros t'. unfold upd_view. case_decide; [by subst|].
        rewrite HV by done. unfold sched_of. by rewrite Hoth.
      * intros c' m' Hm'. rewrite Ef in Hm'. apply other_managers in Hm' as [[-> (m0 & Hm0 & ->)]|[Hne Hm']].
        -- rewrite decide_True by done. rewrite Hm in Hm0. by injection Hm0 as <-.
        -- rewrite decide_False by done. eauto.
      * intros t'. destruct (decide (t' = t)) as [->|Hne].
        -- right. destruct (Hback t ltac:(eauto)) as [th0 Hth0].
           destruct (Hthr t th0 Hth0) as (th1' & E0 & Hc & _). rewrite Hth1 in E0. injection E0 as <-.
           exists (sched th0), (c, Running, p). split_and!; [by unfold sched_of; rewrite Hth0|done| |done].
           simpl. by rewrite <- Hc.
        -- unfold sched_of. rewrite Hoth by done. destruct (threads s !! t') as [th0|] eqn:Hth0.
           ++ destruct (Hthr t' th0 Hth0) as (th1' & -> & Hc & Hp & Hnr & Hr). unfold sched. simpl.
              destruct (decide (core_id th0 = c)) as [Hcc|Hcc].
              ** right. eexists _, _. split_and!; [done|done|done|simpl; congruence].
              ** left. rewrite Hc, Hp, Hnr; [done|]. intros [Hcur (th & Hth & Hrun)].
                 rewrite Hth0 in Hth. injection Hth as <-. rewrite Hm in Hcur. simpl in Hcur. injection Hcur as Hcur.
                 destruct (so_current _ Hrest c m t' Hm Hcur) as (th & Hth & Hcore). congruence.
           ++ left. destruct (threads s1 !! t') eqn:E0; [|done]. destruct (Hback t' ltac:(eauto)). congruence.
    + intros c' m' t' Hm' Hc'. rewrite Ef in Hm'. apply other_managers in Hm' as [[-> (m0 & Hm0 & ->)]|[Hne Hm']].
      * rewrite Hm in Hm0. injection Hm0 as <-. rewrite F2 in Hc'. injection Hc' as <-.
        exists (set_status Running th1). by rewrite Et, lookup_insert_eq.
      * destruct (so_current _ Hrest c' m' t' Hm' Hc') as (th0 & Hth0 & Hcore).
        destruct (Hthr t' th0 Hth0) as (th1' & Hth1' & Hc & _). exists th1'. rewrite Hoth; [split; congruence|].
        intros ->. rewrite Hth1 in Hth1'. injection Hth1' as <-. congruence.
    + intros t' th' Ht' Hst'. destruct (decide (t' = t)) as [->|Hne].
      * rewrite Et, lookup_insert_eq in Ht'. injection Ht' as <-. change (core_id (set_status Running th1)) with (core_id th1).
        rewrite Hc1, Hmc. cbn. by rewrite F2.
      * rewrite Hoth in Ht' by done. destruct (Hback t' ltac:(eauto)) as [th0 Hth0].
        destruct (Hthr t' th0 Hth0) as (th1' & E0 & Hc & _ & Hnr & Hr). rewrite Ht' in E0. injection E0 as <-.
        assert (~ running s c t') as Hnr' by (intros H; by rewrite Hr in Hst').
        rewrite Hnr in Hst' by done. pose proof (so_running _ Hrest t' th0 Hth0 Hst') as Hcur.
        rewrite Hc. destruct (decide (core_id th0 = c)) as [Ec|Ec].
        -- rewrite Ec in Hcur. destruct Hnr'. split; [done|]. by exists th0.
        -- rewrite Ef. unfold upd_manager. simpl. rewrite list_lookup_alter, decide_False by done. done.
  - split; [by rewrite Hmc; simpl; rewrite F2|]. exists (set_status Running th1), (f m).
    split_and!; [by rewrite Et, lookup_insert_eq|done|done|done|done].
  - intros t' th Ht'. case_decide.
    + subst. rewrite Hth1 in Ht'. injection Ht' as <-. rewrite Et, lookup_insert_eq. eauto.
    + rewrite Hoth by done. eauto.
Qed.

(** Idling: the core has no current thread any more. *)
Lemma idle_ok s s1 c m q1 sp1 : sys_ok s -> managers s !! c = Some m -> (forall t, ~ running s c t) ->
  managers s1 = managers (upd_manager c (set_ready q1) s) -> queue_ok (sched_of s1) c q1 sp1 -> nq s1 ->
  (forall t th, threads s !! t = Some th -> exists th1, threads s1 !! t = Some th1 /\ core_id th1 = core_id th /\
     current_priority th1 = current_priority th /\ status th1 = status th) ->
  (forall t, is_Some (threads s1 !! t) -> is_Some (threads s !! t)) ->
  sys_ok (upd_manager c (set_current None) s1) /\ on_core (upd_manager c (set_current None) s1) c None.
Proof.
  intros Hs Hm Hno Em Hq1 Hnq Hthr Hback. pose proof Hs as [[[Hq _ _ _] _] Hrest].
  set (s' := upd_manager c (set_current None) s1).
  assert (managers s' = managers (upd_manager c (set_current None ∘ set_ready q1) s)) as Em'.
  { rewrite <- upd_manager_twice. unfold s', upd_manager at 1 2. simpl. by rewrite Em. }
  split; [|split; [|done]].
  2: { rewrite Em'. by rewrite (upd_manager_lookup _ _ _ _ Hm). }
  apply sys_of.
  - destruct Hnq as [[] [] H3 H4 H5 H6 H7 H8].
    assert (length (managers s') = length (managers s1)) as El by apply length_alter.
    split; try done; [by intros t th Ht; rewrite El; apply (H3 t th)|by rewrite El].
  - eapply (q_ok_switch s s' c q1 sp1 Hq); [exact Hq1| |].
    + intros c' m' Hm'. rewrite Em' in Hm'. apply other_managers in Hm' as [[-> (m0 & Hm0 & ->)]|[Hne Hm']].
      * by rewrite decide_True.
      * rewrite decide_False by done. eauto.
    + intros t. left. unfold sched_of. change (threads s') with (threads s1).
      destruct (threads s !! t) as [th|] eqn:Hth.
      * destruct (Hthr t th Hth) as (th1 & -> & Hc & Hp & Hst). simpl. unfold sched. by rewrite Hc, Hp, Hst.
      * destruct (threads s1 !! t) eqn:E; [|done]. destruct (Hback t ltac:(eauto)). congruence.
  - intros c' m' t Hm' Hc'. rewrite Em' in Hm'. apply other_managers in Hm' as [[-> (m0 & Hm0 & ->)]|[Hne Hm']]; [done|].
    destruct (so_current _ Hrest c' m' t Hm' Hc') as (th & Hth & Hcore).
    destruct (Hthr t th Hth) as (th1 & Ht1 & Hc & _). exists th1. split; [done|congruence].
  - intros t th1 Ht1 Hst1. destruct (Hback t ltac:(eauto)) as [th Hth].
    destruct (Hthr t th Hth) as (th1' & E & Hc & _ & Hst). change (threads s') with (threads s1) in Ht1.
    rewrite Ht1 in E. injection E as <-. rewrite Hst in Hst1.
    pose proof (so_running _ Hrest t th Hth Hst1) as Hcur. rewrite Hc, Em'.
    destruct (decide (core_id th = c)) as [Ec|Ec].
    + rewrite Ec in Hcur. destruct (Hno t). split; [done|]. by exists th.
    + unfold upd_manager. simpl. by rewrite list_lookup_alter, decide_False.
Qed.

Lemma ready_not_running s c t p : sched_of s t = Some (c, Ready, p) -> ~ running s c t.
Proof.
  intros Hv [_ (th & Hth & Hst)]. destruct (sched_thread _ _ _ _ Hv) as (th' & Hth' & _ & Hst' & _). congruence.
Qed.

Lemma Reschedule_ok s c m : sys_ok s -> managers s !! c = Some m ->
  exists next q' s', Reschedule c s = Done s' /\ choice s c q' next /\ sys_ok s' /\ on_core s' c next /\
    switched s s' c next.
Proof.
  intros Hs Hm. destruct (PopNext_ok s c m Hs Hm) as (next & q' & Epop & Hch).
  exists next, q'. unfold Reschedule, the_manager. rewrite Hm. cbn [of_opt mbind outcome_bind]. rewrite Epop.
  cbn [mbind outcome_bind]. set (s0 := upd_manager c (set_ready q') s).
  assert (exists V sp, queue_ok V c q' sp /\ (forall t, running s c t -> V t = sched_of s t) /\
    match next with
    | Some t => (forall t', t' ≠ t -> V t' = sched_of s t') /\ (running s c t \/ exists p, sched_of s t = Some (c, Ready, p) /\ V t = Some (c, Dormant, p)) /\
        (forall t', running s c t' -> True)
    | None => (forall t', V t' = sched_of s t') /\ (forall t, ~ running s c t)
    end) as (V & sp & HqV & HV & Hnext).
  { destruct Hch as [t th sp Hr Hth Hq _|t p sp Hs' Hv Hq _ _|sp Hno Hq _].
    - exists (sched_of s), sp. split_and!; try done. by left.
    - exists (hidden t c p (sched_of s)), sp. split_and!; [done| | | |done].
      + intros t' Hr. apply upd_view_other. intros ->. by apply (ready_not_running _ _ _ _ Hv).
      + intros t' Hne. by apply upd_view_other.
      + right. exists p. split; [done|]. apply upd_view_same.
    - exists (sched_of s), sp. by split_and!. }
  destruct (save_ok s c m q' sp V Hs Hm HqV HV) as (s1 & q1 & sp1 & V1 & Esave & Hq1 & Em & Hnq1 & Eo & Etm & HVn & HVr & Hthr).
  fold s0 in Esave.
  assert (forall t, is_Some (threads s1 !! t) -> is_Some (threads s !! t)) as Hback.
  { intros t [th1 Hth1]. destruct (nq_objects _ Hnq1 t th1 Hth1) as (w & Ho & Hk). rewrite Eo in Ho.
    apply (w_thread _ (b_w _ _ (wf_base _ _ (so_wf _ Hs))) t w Ho Hk). }
  assert (forall t, ~ running s c t -> t ∈ dom (threads s) -> sched_of s1 t = sched_of s t) as Hsame.
  { intros t Hnr [th Hth]%elem_of_dom. destruct (Hthr t th Hth) as (th1 & Hth1 & Hid & Hp & _ & Hst & _).
    unfold sched_of. rewrite Hth1, Hth. simpl. unfold sched. by rewrite (ident_core _ _ Hid), Hp, Hst. }
  assert (forall t, t ∉ dom (threads s) -> sched_of s1 t = sched_of s t) as Hnone.
  { intros t Hnd. apply not_elem_of_dom in Hnd. unfold sched_of. rewrite Hnd.
    destruct (threads s1 !! t) eqn:E; [|done]. destruct (Hback t ltac:(eauto)). congruence. }
  assert (forall t, ~ running s c t -> sched_of s1 t = sched_of s t) as Hsame'.
  { intros t Hnr. destruct (decide (t ∈ dom (threads s))); auto. }
  destruct next as [t|].
  - destruct Hnext as (HVo & Ht & _).
    assert (exists p th1, threads s1 !! t = Some th1 /\ status th1 = Ready /\ core_id th1 = c /\ current_priority th1 = p /\
      exists st, V1 t = Some (c, st, p)) as (p & th1 & Hth1 & Hst1 & Hc1 & Hp1 & HV1t).
    { assert (forall p, sched_of s1 t = Some (c, Ready, p) -> (exists st, V1 t = Some (c, st, p)) ->
        exists p th1, threads s1 !! t = Some th1 /\ status th1 = Ready /\ core_id th1 = c /\ current_priority th1 = p /\
          exists st, V1 t = Some (c, st, p)) as Hfrom.
      { intros p Hv HV1. destruct (sched_thread _ _ _ _ Hv) as (th1 & ? & ? & ? & ?). exists p, th1. by split_and!. }
      destruct Ht as [Hr|(p & Hv & HVt)].
      - pose proof Hr as [Hcur (th & Hth & Hst)]. destruct (Hthr t th Hth) as (th1 & Hth1 & Hid & Hp & Hrd & _).
        assert (core_id th = c) as Hc.
        { rewrite Hm in Hcur. simpl in Hcur. injection Hcur as Hcur.
          destruct (so_current _ (so_rest _ Hs) c m t Hm Hcur) as (th' & Hth' & ?). congruence. }
        assert (sched_of s1 t = Some (c, Ready, current_priority th)) as Hv.
        { unfold sched_of. rewrite Hth1. simpl. unfold sched. by rewrite (ident_core _ _ Hid), Hc, (Hrd Hr), Hp. }
        apply (Hfrom _ Hv). rewrite (HVr t Hr), Hv. by eexists.
      - pose proof (ready_not_running _ _ _ _ Hv) as Hnr. apply (Hfrom p); [by rewrite Hsame'|].
        rewrite (HVn t Hnr), HVt. by eexists. }
    destruct (resume_ok s s1 c m q1 sp1 V1 t p Hs Hm Em Hq1 Hnq1 Etm) with (prev := previous_process c s0)
      as (s' & E & Hs' & Hcore & Hthr'); [| done | by exists th1 | | done |].
    + intros t' Hne. destruct (decide (current_thread <$> managers s !! c = Some (Some t') /\
        status <$> threads s !! t' = Some Running)) as [[H1 H2]|Hn].
      * apply HVr. split; [done|]. destruct (threads s !! t') as [th|]; [|done]. exists th. by injection H2.
      * assert (~ running s c t') as Hnr.
        { intros [H1 (th & Hth & Hst)]. apply Hn. split; [done|]. by rewrite Hth, <- Hst. }
        rewrite HVn, HVo, Hsame' by done. done.
    + intros t' th Hth. destruct (Hthr t' th Hth) as (th' & ? & Hid & Hp & H1 & H2 & _).
      exists th'. split_and!; try done. by apply ident_core.
    + exists s'. assert (SwitchContext c (Some t) s0 = Done s') as Esw.
      { unfold SwitchContext. rewrite Esave. exact E. }
      split_and!; [by rewrite Esw; destruct (current_thread m)|done|done|done|].
      intros t' th Hth. destruct (Hthr t' th Hth) as (th' & Hth' & Hid & _ & H1 & H2 & H3 & _).
      destruct (Hthr' t' th' Hth') as (th2 & Hth2 & ->). eexists. split; [exact Hth2|]. split_and!.
      * by case_decide.
      * intros Hne. rewrite decide_False by congruence. done.
      * intros m0 Hm0 Hc0. rewrite Hm in Hm0. injection Hm0 as <-. specialize (H3 Hc0). by case_decide.
  - destruct Hnext as (HVo & Hno).
    destruct (idle_ok s s1 c m q1 sp1 Hs Hm Hno Em) as [Hs' Hcore]; [|done| |done|].
    + eapply queue_ok_ext; [|exact Hq1]. intros t. rewrite HVn, HVo, Hsame' by done. done.
    + intros t th Hth. destruct (Hthr t th Hth) as (th1 & ? & Hid & ? & _ & Hst & _).
      exists th1. split_and!; [done|by apply ident_core|done|by apply Hst].
    + destruct (current_thread m) as [t0|] eqn:Hct.
      * eexists. unfold SwitchContext. rewrite Esave. cbn [mbind outcome_bind].
        split_and!; [done|done|exact Hs'|exact Hcore|].
        intros t th Hth. destruct (Hthr t th Hth) as (th' & Hth' & Hid & _ & H1 & H2 & H3 & _).
        exists th'. split_and!; [done|done|done|]. intros m0 Hm0 Hc0. rewrite Hm in Hm0. injection Hm0 as <-.
        rewrite Hct in Hc0. by apply H3.
      * exists s0. assert (s1 = s0) as ->.
        { unfold save_previous, the_manager in Esave. unfold s0 in Esave. rewrite (upd_manager_lookup _ _ _ _ Hm) in Esave. simpl in Esave.
          rewrite Hct in Esave. by injection Esave. }
        assert (upd_manager c (set_current None) s0 = s0) as Eid.
        { unfold s0. rewrite upd_manager_twice. unfold upd_manager. f_equal. apply list_eq. intros i.
          rewrite !list_lookup_alter. destruct (decide (c = i)) as [<-|]; [|done]. rewrite Hm. simpl. f_equal.
          unfold set_current, set_ready. simpl. by rewrite Hct. }
        rewrite Eid in *. split_and!; [done|done|done|done|].
        intros t th Hth. exists th. split_and!; try done.
        -- intros _. split; [by intros ?%Hno|done].
        -- intros m0 Hm0 Hc0. rewrite Hm in Hm0. injection Hm0 as <-. congruence.
Qed.

End Sched.
