(* ===== verification/KernelSvc.v ===== *)
(** * System calls on threads and synchronization objects

    The handlers of [class SVC] (core/hle/kernel/svc.cpp) for handles, threads,
    wait objects, address arbiters and resource limits, with the creation of
    threads (thread.cpp) and the change of the running CPU (kernel.cpp).  A
    handler is a function in a monad of state and errors: [Err] is an early
    return of an error code and keeps the changes made before it.  The addresses
    of new objects, the words of guest memory and the validity of addresses are
    arguments; so is the memory side of the allocation of thread local storage.
    Objects are not destroyed when their last handle is closed. *)
From stdpp Require Import strings.
From S2P Require Import Prelude Results ThreadQueueList HandleTable CoreTiming ResourceLimit Tls Kernel KernelOps.

Module Svc.
Import Res Kern Ops.

(** ** The kernel at its start *)

(** [ThreadManager::ThreadManager]: its event and an empty queue of 64 levels;
    the registers of the CPU are [ctx]. *)
Definition register_manager (core_id : nat) (tm : Timing.timing ev_cb) : Timing.timing ev_cb :=
  Timing.RegisterEvent (ThreadWakeupEventType core_id) (Some (EvThreadWakeup core_id)) tm.
Definition new_manager (ctx : context) : manager :=
  mk_manager None (Tql.init (S ThreadPrioLowest)) [] ∅ ctx 0.
(** [TimerManager::TimerManager] *)
Definition register_timers (tm : Timing.timing ev_cb) : Timing.timing ev_cb :=
  Timing.RegisterEvent timer_callback_event_type (Some EvTimer) tm.

(** [KernelSystem::KernelSystem]; the resource limits have the addresses 0 to 3. *)
Definition new_kernel (num_cores : nat) (is_new_3ds : bool) (app_mem_alloc : Z) (ctx : context)
    (tm : Timing.timing ev_cb) : kern :=
  let tm := register_timers (foldl (fun tm c => register_manager c tm) tm (seq 0 num_cores)) in
  let lim := Limit.ResourceLimitList is_new_3ds app_mem_alloc in
  mk_kern ∅ ∅ ∅ (replicate num_cores (new_manager ctx)) tm ∅
    (list_to_map [(0, lim Limit.Application); (1, lim Limit.SysApplet); (2, lim Limit.LibApplet); (3, lim Limit.Other)])
    ∅ 0 1 None (replicate num_cores None) 0 false.

(** ** The monad of the handlers *)

Definition svc (A : Type) : Type := kern -> outcome (result_val A * kern).

#[global] Instance svc_ret : MRet svc := fun A a s => Done (Val a, s).
#[global] Instance svc_bind : MBind svc := fun A B k m s =>
  '(r, s) ← m s; match r with Val a => k a s | Err e => Done (Err e, s) end.

Definition fail {A} (e : result) : svc A := fun s => Done (Err e, s).
(** [R_UNLESS] *)
Definition r_unless (b : bool) (e : result) : svc unit := fun s => Done (if b then Val tt else Err e, s).
(** Reading the state, changing it, and operations that return a code. *)
Definition read {A} (f : kern -> outcome A) : svc A := fun s => a ← f s; Done (Val a, s).
Definition run (f : kern -> outcome kern) : svc unit := fun s => s ← f s; Done (Val tt, s).
Definition modify (f : kern -> kern) : svc unit := fun s => Done (Val tt, f s).
Definition lift {A} (f : kern -> outcome (result_val A * kern)) : svc A := f.
Definition code (r : result) : result_val unit := if r =? ResultSuccess then Val tt else Err r.
Definition run_code (f : kern -> outcome (result * kern)) : svc unit := fun s =>
  '(r, s) ← f s; Done (code r, s).

(** ** Handles *)

Definition cur_process : svc Z := read (fun s => of_opt FNullDeref (current_process s)).
Definition cur_thread : svc Z := read (fun s => t ← GetCurrentThread s; of_opt FNullDeref t).
Definition current_core (s : kern) : nat := current_cpu s.

(** [GetGeneric] on the table of the current process. *)
Definition lookup_handle (handle : Z) : svc (option obj_ref) :=
  p ← cur_process;
  read (fun s =>
    pr ← the_process p s;
    t ← GetCurrentThread s;
    Done (Handle.GetGeneric (RWait <$> t) (Some (RProcess p)) (handle_table pr) handle)).

(** [DynamicObjectCast<T>] *)
Definition cast_wait (r : obj_ref) (s : kern) : option Z := match r with RWait o => Some o | _ => None end.
Definition has_kind (f : kind -> bool) (r : obj_ref) (s : kern) : option Z :=
  match r with
  | RWait o => match objects s !! o with Some w => if f (kind_of w) then Some o else None | None => None end
  | _ => None
  end.
Definition is_event (k : kind) : bool := match k with KEvent _ _ => true | _ => false end.
Definition is_semaphore (k : kind) : bool := match k with KSemaphore _ _ => true | _ => false end.
Definition is_timer (k : kind) : bool := match k with KTimer _ _ _ _ _ => true | _ => false end.
Definition is_thread (k : kind) : bool := match k with KThread => true | _ => false end.
Definition cast_event := has_kind is_event.
Definition cast_semaphore := has_kind is_semaphore.
Definition cast_mutex := has_kind is_mutex.
Definition cast_timer := has_kind is_timer.
Definition cast_thread := has_kind is_thread.
Definition cast_arbiter (r : obj_ref) (s : kern) : option Z := match r with RArbiter a => Some a | _ => None end.
Definition cast_limit (r : obj_ref) (s : kern) : option Z := match r with RLimit l => Some l | _ => None end.
Definition cast_process (r : obj_ref) (s : kern) : option Z := match r with RProcess p => Some p | _ => None end.

(** [handle_table.Get<T>(handle)] followed by [R_UNLESS(object, ResultInvalidHandle)]. *)
Definition Get (cast : obj_ref -> kern -> option Z) (handle : Z) : svc Z :=
  r ← lookup_handle handle;
  o ← read (fun s => Done (match r with Some r => cast r s | None => None end));
  match o with Some o => mret o | None => fail ResultInvalidHandle end.

(** [handle_table.Create(out_handle, object)] *)
Definition new_handle (r : obj_ref) : svc Z :=
  p ← cur_process;
  lift (fun s =>
    pr ← the_process p s;
    '(h, t) ← Handle.Create r (handle_table pr);
    Done (h, upd_process p (set_handle_table t) s)).

(** The resource limit of the current process. *)
Definition cur_limit : svc Z :=
  p ← cur_process; read (fun s => pr ← the_process p s; of_opt FNullDeref (resource_limit pr)).
Definition reserve (ty : Limit.limit_type) (e : Z) : svc unit :=
  l ← cur_limit;
  lift (fun s =>
    lim ← of_opt FNullDeref (limits s !! l);
    let '(ok, lim) := Limit.Reserve ty 1 lim in
    Done (if (ok : bool) then Val tt else Err (make e Mod_OS OutOfResource Status),
          upd_limit l (fun _ => lim) s)).

Definition CloseHandle (handle : Z) : svc unit :=
  p ← cur_process;
  run_code (fun s =>
    pr ← the_process p s;
    let '(r, t) := Handle.Close handle (handle_table pr) in
    Done (r, upd_process p (set_handle_table t) s)).

Definition DuplicateHandle (handle : Z) : svc Z :=
  p ← cur_process;
  lift (fun s =>
    pr ← the_process p s;
    t ← GetCurrentThread s;
    '(h, tbl) ← Handle.Duplicate (RWait <$> t) (Some (RProcess p)) handle (handle_table pr);
    Done (h, upd_process p (set_handle_table tbl) s)).

(** ** Waiting *)

Section Handlers.
Context (other_wakeup : Z -> wakeup_reason -> Z -> option Z -> kern -> outcome kern).

Definition suspend (t : Z) (nano_seconds : Z) (cb : wakeup_cb) : svc unit :=
  _ ← run (WakeAfterDelay t nano_seconds false);
  _ ← modify (upd_thread t (set_wakeup_callback (Some cb)));
  modify PrepareReschedule.

(** [WaitSynchronization1] once the object is known. *)
Definition wait_one (object thread nano_seconds : Z) : svc unit :=
  wait ← read (ShouldWait object thread);
  if (wait : bool) then
    _ ← r_unless (negb (nano_seconds =? 0)) ResultTimeout;
    _ ← modify (upd_thread thread (set_wait_objects [object]));
    _ ← run (AddWaitingThread object thread);
    _ ← modify (upd_thread thread (set_status WaitSynchAny));
    _ ← suspend thread nano_seconds (CbSync false);
    fail ResultTimeout
  else run (Acquire object thread).

Definition WaitSynchronization1 (handle nano_seconds : Z) : svc unit :=
  object ← Get cast_wait handle;
  thread ← cur_thread;
  wait_one object thread nano_seconds.

Fixpoint get_objects (handles : list Z) : svc (list Z) :=
  match handles with
  | [] => mret []
  | h :: hs => o ← Get cast_wait h; os ← get_objects hs; mret (o :: os)
  end.

Fixpoint add_to_all (os : list Z) (t : Z) (s : kern) : outcome kern :=
  match os with [] => Done s | o :: os => s ← AddWaitingThread o t s; add_to_all os t s end.

(** [std::find_if]: the first object that is available, and its position. *)
Fixpoint first_available (os : list Z) (t : Z) (i : Z) (s : kern) : outcome (option (Z * Z)) :=
  match os with
  | [] => Done None
  | o :: os => wait ← ShouldWait o t s; if (wait : bool) then first_available os t (i + 1) s else Done (Some (o, i))
  end.

(** The result and the value of [out], [None] when it is not written. *)
Definition wait_all (objects : list Z) (thread nano_seconds : Z) : svc (result * option Z) :=
  all ← read (all_available objects thread);
  if (all : bool) then
    _ ← run (acquire_all objects thread);
    mret (ResultSuccess, None)
  else
    _ ← r_unless (negb (nano_seconds =? 0)) ResultTimeout;
    _ ← modify (upd_thread thread (set_status WaitSynchAll));
    _ ← run (add_to_all objects thread);
    _ ← modify (upd_thread thread (set_wait_objects objects));
    _ ← suspend thread nano_seconds (CbSync false);
    mret (ResultTimeout, Some (-1)).

Definition wait_any (objects : list Z) (thread nano_seconds : Z) : svc (result * option Z) :=
  first ← read (first_available objects thread 0);
  match first with
  | Some (object, i) =>
      _ ← run (Acquire object thread);
      mret (ResultSuccess, Some (s32 i))
  | None =>
      _ ← r_unless (negb (nano_seconds =? 0)) ResultTimeout;
      _ ← modify (upd_thread thread (set_status WaitSynchAny));
      _ ← run (add_to_all objects thread);
      _ ← modify (upd_thread thread (set_wait_objects objects));
      _ ← suspend thread nano_seconds (CbSync true);
      mret (ResultTimeout, Some (-1))
  end.

Definition WaitSynchronizationN (valid : Z -> bool) (Read32 : Z -> Z)
    (handles_address handle_count : Z) (all : bool) (nano_seconds : Z) : svc (result * option Z) :=
  thread ← cur_thread;
  _ ← r_unless (valid handles_address) ResultInvalidPointer;
  _ ← r_unless (0 <=? handle_count) ResultOutOfRange;
  objects ← get_objects ((fun i => Read32 (u32 (handles_address + u32 (Z.of_nat i * 4)))) <$> seq 0 (Z.to_nat handle_count));
  if all then wait_all objects thread nano_seconds else wait_any objects thread nano_seconds.

(** The data cache is not emulated: flushing, storing and invalidating it check
    the handle only. *)
Definition InvalidateProcessDataCache (process_handle address size : Z) : svc unit :=
  _ ← Get cast_process process_handle; mret tt.
Definition StoreProcessDataCache (process_handle address size : Z) : svc unit :=
  _ ← Get cast_process process_handle; mret tt.
Definition FlushProcessDataCache (process_handle address size : Z) : svc unit :=
  _ ← Get cast_process process_handle; mret tt.

(** ** Address arbiters; [a] is the address of a new arbiter *)

Definition CreateAddressArbiter (a : Z) : svc Z :=
  _ ← reserve Limit.AddressArbiter ErrCodes.OutOfAddressArbiters;
  _ ← modify (Ops.CreateAddressArbiter a);
  new_handle (RArbiter a).

(** Returns the word to write to [address]. *)
Definition ArbitrateAddress (Read32 : Z -> Z) (handle address type value nanoseconds : Z)
  : svc (result * option Z) :=
  arbiter ← Get cast_arbiter handle;
  thread ← cur_thread;
  res ← lift (fun s =>
    '(r, word, s) ← Ops.ArbitrateAddress arbiter thread type address (s32 value) (u64 nanoseconds) (Read32 address) s;
    Done (Val (r, word), s));
  _ ← modify PrepareReschedule;
  mret res.

(** ** Resource limits *)

Definition GetResourceLimit (process_handle : Z) : svc Z :=
  p ← Get cast_process process_handle;
  l ← read (fun s => pr ← the_process p s; of_opt FNullDeref (resource_limit pr));
  new_handle (RLimit l).

Definition limit_types : list Limit.limit_type :=
  [Limit.Priority; Limit.Commit; Limit.Thread; Limit.Event; Limit.Mutex; Limit.Semaphore; Limit.Timer;
   Limit.SharedMemory; Limit.AddressArbiter; Limit.CpuTime].

Section Memory.
Context {M : Type} (Read32 Read64 : M -> Z -> Z) (Write64 : Z -> Z -> M -> M).

(** The name indexes an array of ten values and is not checked. *)
Fixpoint current_values (l : Limit.t) (names values : Z) (n : nat) (i : Z) (m : M) : outcome M :=
  match n with
  | O => Done m
  | S n =>
      ty ← of_opt FOutOfRange (limit_types !! Z.to_nat (Read32 m (u32 (names + u32 (i * 4)))));
      current_values l names values n (i + 1)
        (Write64 (u32 (values + u32 (i * 8))) (u64 (Limit.GetCurrentValue ty l)) m)
  end.

Definition GetResourceLimitCurrentValues (values resource_limit_handle names name_count : Z) (m : M) : svc M :=
  l ← Get cast_limit resource_limit_handle;
  read (fun s => lim ← of_opt FNullDeref (limits s !! l); current_values lim names values (Z.to_nat name_count) 0 m).

(** An early return keeps the values written before it. *)
Fixpoint limit_values (l : Limit.t) (names values : Z) (n : nat) (i : Z) (m : M) : result * M :=
  match n with
  | O => (ResultSuccess, m)
  | S n =>
      match limit_types !! Z.to_nat (Read32 m (u32 (names + u32 (i * 4)))) with
      | None => (ResultInvalidEnumValue, m)
      | Some ty =>
          limit_values l names values n (i + 1)
            (Write64 (u32 (values + u32 (i * 8))) (u64 (Limit.GetLimitValue ty l)) m)
      end
  end.

Definition GetResourceLimitLimitValues (values resource_limit_handle names name_count : Z) (m : M) : svc (result * M) :=
  l ← Get cast_limit resource_limit_handle;
  read (fun s => lim ← of_opt FNullDeref (limits s !! l);
                 Done (limit_values lim names values (Z.to_nat name_count) 0 m)).

(** The limits and [app_mem_alloc] of the shared configuration page. *)
Fixpoint set_limits (l : Limit.t) (names resource_list : Z) (n : nat) (i : Z) (m : M) (app_mem_alloc : Z)
  : result * Limit.t * Z :=
  match n with
  | O => (ResultSuccess, l, app_mem_alloc)
  | S n =>
      match limit_types !! Z.to_nat (Read32 m (u32 (names + u32 (i * 4)))) with
      | None => (ResultInvalidEnumValue, l, app_mem_alloc)
      | Some ty =>
          let value := s64 (Read64 m (u32 (resource_list + u32 (i * 8)))) in
          let value_high := s32 (Z.shiftr value 32) in
          if value_high <? 0 then (ResultOutOfRangeKernel, l, app_mem_alloc)
          else
            set_limits (Limit.SetLimitValue ty (s32 value) l) names resource_list n (i + 1) m
              (if bool_decide (ty = Limit.Commit) && negb (value_high =? 0) then value_high else app_mem_alloc)
      end
  end.

Definition SetResourceLimitLimitValues (res_limit names resource_list name_count : Z) (m : M) (app_mem_alloc : Z)
  : svc (result * Z) :=
  l ← Get cast_limit res_limit;
  lift (fun s =>
    lim ← of_opt FNullDeref (limits s !! l);
    let '(r, lim, app) := set_limits lim names resource_list (Z.to_nat name_count) 0 m app_mem_alloc in
    Done (Val (r, app), upd_limit l (fun _ => lim) s)).
End Memory.

(** ** Threads *)

(** The memory side of the allocation of thread local storage: whether a new
    page can be had for the process when all slots are taken. *)
Context (page_available : kern -> Z -> bool).

Definition AllocateThreadLocalStorage (p : Z) : svc Z :=
  lift (fun s =>
    pr ← the_process p s;
    match Tls.find_slot (tls_slots pr) 0 with
    | Some (tls_page, tls_slot) =>
        Done (Val (Tls.address tls_page tls_slot),
              upd_process p (set_tls_slots (Tls.mark tls_page tls_slot true (tls_slots pr))) s)
    | None =>
        if page_available s p then
          let tls_page := length (tls_slots pr) in
          Done (Val (Tls.address tls_page 0),
                upd_process p (set_tls_slots (Tls.mark tls_page 0 true (tls_slots pr ++ [Tls.new_page]))) s)
        else Done (Err ResultOutOfMemory, s)
    end).

Definition USER32MODE : Z := 16.
Definition ResetThreadContext (stack_top entry_point arg : Z) (c : context) : context :=
  let c := set_register 0 arg c in
  let c := set_register 15 entry_point c in
  let c := set_register 13 stack_top c in
  mk_context (cpu_registers c) (Z.lor USER32MODE (Z.shiftl (Z.land entry_point 1) 5)) (fpu c) (fpscr c).

(** [ThreadContext context{}] *)
Definition new_context : context := mk_context (replicate 16 0) 0 0 0.

(** [Thread] with the members [CreateThread] sets; [tls_address] is not
    initialized before the allocation and has the value [junk]. *)
Definition new_thread (id core : Z) (priority : nat) (ticks : Z) (owner : Z) (junk : Z) : thread :=
  mk_thread id Dormant (Z.to_nat core) priority priority [] [] [] 0 None new_context true ticks junk (Some owner) core.

Definition ResultInvalidEntry : result := make Desc.InvalidAddress Mod_Kernel InvalidArgument Permanent.

(** The new thread joins its core; [t] is its address. *)
Definition add_thread (t junk : Z) (priority : nat) (processor_id owner_process : Z) (s : kern) : outcome kern :=
  let core := Z.to_nat processor_id in
  _ ← of_opt FOutOfRange (if 0 <=? processor_id then Some tt else None);
  tm ← of_opt FOutOfRange (Timing.timers (timing s) !! core);
  let s := upd_manager core (fun m => set_thread_list (thread_list m ++ [t]) m) s in
  s ← on_queue core (Tql.prepare priority) s;
  let id := next_thread_id s in
  let s := with_next_thread_id (u32 (id + 1)) s in
  let s := with_threads (<[t := new_thread id processor_id priority (Timing.GetTicks tm) owner_process junk]> (threads s)) s in
  let s := add_object t KThread s in
  Done (upd_manager core (fun m => set_table (<[id := t]> (wakeup_callback_table m)) m) s).

(** [if (make_ready)] *)
Definition start_thread (core : nat) (t : Z) (s : kern) : outcome kern :=
  th ← the_thread t s;
  s ← on_queue core (Tql.push_back (current_priority th) t) s;
  Done (upd_thread t (set_status Ready) s).

(** [KernelSystem::CreateThread] *)
Definition CreateThread_ (t : Z) (junk : Z) (valid : Z -> bool)
    (entry_point priority arg processor_id stack_top owner_process : Z) (make_ready : bool) : svc Z :=
  _ ← r_unless (negb (Z.of_nat ThreadPrioLowest <? priority)) ResultOutOfRange;
  _ ← r_unless (negb (ThreadProcessorIdMax <? processor_id)) ResultOutOfRangeKernel;
  _ ← r_unless (valid entry_point) ResultInvalidEntry;
  _ ← run (add_thread t junk (Z.to_nat priority) processor_id owner_process);
  tls ← AllocateThreadLocalStorage owner_process;
  _ ← modify (upd_thread t (set_tls_address tls));
  _ ← modify (upd_thread t (fun th => set_ctx (ResetThreadContext stack_top entry_point arg (ctx th)) th));
  _ ← (if make_ready then run (start_thread (Z.to_nat processor_id) t) else mret tt);
  mret t.

Definition FPSCR_DEFAULT_NAN : Z := Z.shiftl 1 25.
Definition FPSCR_FLUSH_TO_ZERO : Z := Z.shiftl 1 24.
Definition FPSCR_ROUND_TOZERO : Z := Z.shiftl 3 22.
Definition FPSCR_IXC : Z := Z.shiftl 1 4.
Definition set_fpscr (v : Z) (th : thread) : thread :=
  set_ctx (mk_context (cpu_registers (ctx th)) (cpsr (ctx th)) (fpu (ctx th)) v) th.

(** [SetupMainThread]; [sleep_time_ns] is positive when the start of an
    application is delayed by the settings. *)
Definition HEAP_VADDR_END : Z := 0x10000000.
Definition SetupMainThread (t junk : Z) (valid : Z -> bool) (entry_point priority owner_process : Z)
    (sleep_time_ns : Z) : svc Z :=
  processor ← read (fun s => pr ← the_process owner_process s; Done (ideal_processor pr));
  thread ← lift (fun s =>
    '(r, s) ← CreateThread_ t junk valid entry_point priority 0 processor HEAP_VADDR_END owner_process
                (sleep_time_ns =? 0) s;
    t ← Unwrap r;
    Done (Val t, s));
  _ ← modify (upd_thread thread (set_fpscr
        (Z.lor (Z.lor (Z.lor FPSCR_DEFAULT_NAN FPSCR_FLUSH_TO_ZERO) FPSCR_ROUND_TOZERO) FPSCR_IXC)));
  _ ← (if negb (sleep_time_ns =? 0) then
         _ ← modify (upd_thread thread (set_status WaitSleep));
         run (WakeAfterDelay thread sleep_time_ns false)
       else mret tt);
  mret thread.

(** [SVC::CreateThread]; the processors [-2] (default) and [-1] (all). *)
Definition CreateThread (t junk : Z) (valid : Z -> bool) (entry_point arg stack_top priority processor_id : Z) : svc Z :=
  _ ← r_unless (priority <=? Z.of_nat ThreadPrioLowest) ResultOutOfRange;
  p ← cur_process;
  l ← cur_limit;
  max_priority ← read (fun s => lim ← of_opt FNullDeref (limits s !! l); Done (u32 (Limit.GetLimitValue Limit.Priority lim)));
  free ← read (fun s => pr ← the_process p s; Done (no_thread_restrictions pr));
  _ ← r_unless ((max_priority <=? priority) || free) ResultNotAuthorized;
  processor_id ← (if processor_id =? -2
                  then read (fun s => pr ← the_process p s; _ ← assert_ (negb (ideal_processor pr =? -2)); Done (ideal_processor pr))
                  else mret processor_id);
  processor_id ← (if processor_id =? -1 then mret 0
                  else if (0 <=? processor_id) && (processor_id <=? 3) then mret processor_id
                  else fail ResultOutOfRange);
  _ ← reserve Limit.Thread ErrCodes.OutOfThreads;
  thread ← CreateThread_ t junk valid entry_point priority arg processor_id stack_top p true;
  _ ← modify (upd_thread thread (set_fpscr (Z.lor (Z.lor FPSCR_DEFAULT_NAN FPSCR_FLUSH_TO_ZERO) FPSCR_ROUND_TOZERO)));
  _ ← modify PrepareReschedule;
  new_handle (RWait thread).

Definition ExitThread : svc unit :=
  c ← read (fun s => Done (current_core s));
  _ ← run (ExitCurrentThread other_wakeup c);
  modify PrepareReschedule.

Definition GetThreadPriority (handle : Z) : svc Z :=
  t ← Get cast_thread handle;
  read (fun s => th ← the_thread t s; Done (Z.of_nat (current_priority th))).

Fixpoint update_mutexes (ms : list Z) (s : kern) : outcome kern :=
  match ms with [] => Done s | m :: ms => s ← Mutex_UpdatePriority m s; update_mutexes ms s end.

Definition SetThreadPriority (handle priority : Z) : svc unit :=
  _ ← r_unless (priority <=? Z.of_nat ThreadPrioLowest) ResultOutOfRange;
  thread ← Get cast_thread handle;
  l ← cur_limit;
  max_priority ← read (fun s => lim ← of_opt FNullDeref (limits s !! l); Done (u32 (Limit.GetLimitValue Limit.Priority lim)));
  _ ← r_unless (max_priority <=? priority) ResultNotAuthorized;
  _ ← run (SetPriority thread (Z.to_nat priority));
  _ ← run (UpdatePriority thread);
  _ ← run (fun s => th ← the_thread thread s; update_mutexes (pending_mutexes th) s);
  modify PrepareReschedule.

Definition GetProcessId (process_handle : Z) : svc Z :=
  p ← Get cast_process process_handle; read (fun s => pr ← the_process p s; Done (process_id pr)).

(** A dead owner is an assertion failure. *)
Definition GetProcessIdOfThread (thread_handle : Z) : svc Z :=
  t ← Get cast_thread thread_handle;
  read (fun s =>
    th ← the_thread t s;
    p ← of_opt FAssert (owner_process th);
    pr ← of_opt FAssert (processes s !! p);
    Done (process_id pr)).

Definition GetThreadId (handle : Z) : svc Z :=
  t ← Get cast_thread handle; read (fun s => th ← the_thread t s; Done (thread_id th)).

Definition GetThreadInfo (thread_handle type : Z) : svc Z :=
  t ← Get cast_thread thread_handle;
  if type =? 0x10000 then read (fun s => th ← the_thread t s; Done (tls_address th))
  else fail ResultInvalidEnumValue.

(** The threads of all cores, in the order of the lists. *)
Definition ResultThreadNotFound : result := make 25 Mod_OS WrongArgument Permanent.
Definition OpenThread (process_handle thread_id_ : Z) : svc Z :=
  if process_handle =? 0 then fail ResultThreadNotFound
  else
    p ← Get cast_process process_handle;
    found ← read (fun s => Done (List.find (fun t =>
      match threads s !! t with
      | Some th => bool_decide (owner_process th = Some p) && (thread_id th =? thread_id_)
      | None => false
      end) (concat (thread_list <$> managers s))));
    match found with
    | Some t => new_handle (RWait t)
    | None => fail ResultThreadNotFound
    end.

Definition SleepThread (nanoseconds : Z) : svc unit :=
  c ← read (fun s => Done (current_core s));
  ready ← read (HaveReadyThreads c);
  if (nanoseconds =? 0) && negb ready then mret tt
  else
    _ ← run (WaitCurrentThread_Sleep c);
    t ← cur_thread;
    _ ← run (WakeAfterDelay t nanoseconds false);
    modify PrepareReschedule.

Definition GetSystemTick : svc Z :=
  read (fun s => tm ← of_opt FOutOfRange (Timing.timers (timing s) !! current_cpu s); Done (s64 (Timing.GetTicks tm))).

(** [KernelSystem::SetRunningCPU]; the page tables are not part of this state. *)
Definition with_current_cpu (c : nat) (s : kern) : kern :=
  mk_kern (threads s) (objects s) (arbiters s) (managers s) (timing s) (processes s) (limits s) (timer_table s)
    (next_timer_callback_id s) (next_thread_id s) (current_process s) (stored_processes s) c (rescheduled s).
Definition SetRunningCPU (c : nat) (s : kern) : outcome kern :=
  let s := match current_process s with
           | Some p => with_current_process (Some p) (<[current_cpu s := Some p]> (stored_processes s)) s
           | None => s
           end in
  let s := with_current_cpu c s in
  tm ← Timing.SetCurrentTimer c (timing s);
  let s := with_timing tm s in
  p ← of_opt FOutOfRange (stored_processes s !! c);
  Done match p with
       | Some p => with_current_process (Some p) (stored_processes s) s
       | None => s
       end.

(** ** Wait objects; [o] is the address of a new object *)

(** Only the values 0 (one shot) and 2 (pulse) are tested for. *)
Definition reset_of (value : Z) : reset_type :=
  if value =? 0 then OneShot else if value =? 2 then Pulse else Sticky.

Definition CreateMutex (o initial_locked : Z) : svc Z :=
  _ ← reserve Limit.Mutex ErrCodes.OutOfMutexes;
  _ ← run (Ops.CreateMutex o (negb (initial_locked =? 0)));
  new_handle (RWait o).

Definition ReleaseMutex (handle : Z) : svc unit :=
  mutex ← Get cast_mutex handle;
  thread ← cur_thread;
  run_code (Mutex_Release other_wakeup mutex thread).

Definition CreateSemaphore (o initial_count max_count : Z) : svc Z :=
  _ ← reserve Limit.Semaphore ErrCodes.OutOfSemaphores;
  _ ← run_code (Ops.CreateSemaphore o initial_count max_count);
  new_handle (RWait o).

Definition ReleaseSemaphore (handle release_count : Z) : svc Z :=
  semaphore ← Get cast_semaphore handle;
  lift (Semaphore_Release other_wakeup semaphore release_count).

Definition CreateEvent (o reset : Z) : svc Z :=
  _ ← reserve Limit.Event ErrCodes.OutOfEvents;
  _ ← modify (Ops.CreateEvent o (reset_of reset));
  new_handle (RWait o).

Definition SignalEvent (handle : Z) : svc unit :=
  evt ← Get cast_event handle; run (Event_Signal other_wakeup evt).
Definition ClearEvent (handle : Z) : svc unit :=
  evt ← Get cast_event handle; run (Event_Clear evt).

Definition CreateTimer (o reset : Z) : svc Z :=
  _ ← reserve Limit.Timer ErrCodes.OutOfTimers;
  _ ← modify (Ops.CreateTimer o (reset_of reset));
  new_handle (RWait o).

Definition ClearTimer (handle : Z) : svc unit :=
  timer ← Get cast_timer handle; run (Timer_Clear timer).
Definition SetTimer (handle initial interval : Z) : svc unit :=
  _ ← r_unless ((0 <=? initial) && (0 <=? interval)) ResultOutOfRangeKernel;
  timer ← Get cast_timer handle;
  run (Timer_Set other_wakeup timer initial interval).
Definition CancelTimer (handle : Z) : svc unit :=
  timer ← Get cast_timer handle; run (Timer_Cancel timer).

End Handlers.
End Svc.
