(* ===== verification/KernelCalls.v ===== *)
(** * System calls keep the kernel heap well formed

    What the operations of KernelSvc do to a well-formed kernel: suspending the
    running thread, time-outs, waiting for one or several objects and arbiters.
    KernelActions adds the creation of objects and threads. *)
From stdpp Require Import strings.
From S2P Require Import Prelude Results ThreadQueueList HandleTable CoreTiming ResourceLimit Tls Kernel KernelFacts KernelWakeup KernelOps KernelSystem KernelSched KernelSvc.

Module Calls.
Import Res Kern KF KW Ops KS Sched Svc.

(** ** Changing one thread *)

Lemma sys_prio s s' : sys_ok s -> prio_eq s s' -> q_ok s' -> sys_ok s'.
Proof.
  intros Hs He Hq. pose proof (prio_waits _ _ He) as Hw. eapply sys_runs; [|by apply sw_runs|done].
  destruct Hs as [[Hb Hf] _]. split; [by eapply base_prio|by eapply w_from_same].
Qed.

(** Threads keep what the system part mentions; some may stop running. *)
Lemma rest_back s s' : sys_rest s ->
  (forall t0 th0, threads s' !! t0 = Some th0 -> exists th1, threads s !! t0 = Some th1 /\
    (core_id th0, tls_address th0, owner_process th0) = (core_id th1, tls_address th1, owner_process th1) /\
    (status th0 = Running -> status th1 = Running) /\ (status th1 = Dead -> status th0 = Dead)) ->
  (forall t0, is_Some (threads s !! t0) -> is_Some (threads s' !! t0)) ->
  (forall o w, objects s !! o = Some w -> exists w', objects s' !! o = Some w' /\ shape (kind_of w') = shape (kind_of w)) ->
  current_thread <$> managers s' = current_thread <$> managers s -> pfields <$> processes s' = pfields <$> processes s ->
  clocks s' = clocks s ->
  (forall a l x, arbiters s' !! a = Some l -> x ∈ l -> is_Some (threads s !! x)) -> sys_rest s'.
Proof.
  intros [H1 H2 H3 H4 H5 H6] Hback Hsome Eo Ec Ep Ek Ha. split.
  - intros c m' t' Hm' Hc. pose proof (f_equal (fun l => l !! c) Ec) as E. simpl in E.
    rewrite !list_lookup_fmap, Hm' in E. destruct (managers s !! c) as [m|] eqn:Hm; [|done].
    simpl in E. injection E as E. rewrite E in Hc. destruct (H1 _ _ _ Hm Hc) as (th0 & Ht0 & Hcore).
    destruct (Hsome t' ltac:(eauto)) as [th' Ht']. destruct (Hback _ _ Ht') as (th1 & Ht1 & Hid & _).
    exists th'. split; [done|]. injection Hid as I1 _ _. congruence.
  - intros t' th0 (th1 & Ht1 & Hid & Hr & _)%Hback Hst. injection Hid as -> _ _.
    rewrite current_lookup, Ec, <- current_lookup. auto.
  - intros t' th0 (th1 & Ht1 & Hid & _ & Hd)%Hback Hst. injection Hid as _ -> ->. setoid_rewrite <- lookup_fmap.
    rewrite Ep. setoid_rewrite lookup_fmap. apply (H3 t' th1); auto.
  - intros t' th0 (th1 & Ht1 & _)%Hback. destruct (H4 _ _ Ht1) as (w & Ho & Hk). destruct (Eo _ _ Ho) as (w' & Ho' & Hsh).
    exists w'. split; [done|]. rewrite Hk in Hsh. by destruct (kind_of w').
  - unfold clocks in Ek. injection Ek as -> ->. pose proof (f_equal length Ec) as Hl. rewrite !length_fmap in Hl. by rewrite Hl.
  - intros a l x Hl Hx. eauto.
Qed.

Lemma rest_thread s s' t th th' : sys_rest s -> threads s !! t = Some th ->
  (core_id th', tls_address th', owner_process th') = (core_id th, tls_address th, owner_process th) ->
  (status th' = Running -> status th = Running) -> (status th = Dead -> status th' = Dead) ->
  threads s' = <[t := th']> (threads s) ->
  (forall o w, objects s !! o = Some w -> exists w', objects s' !! o = Some w' /\ shape (kind_of w') = shape (kind_of w)) ->
  current_thread <$> managers s' = current_thread <$> managers s -> pfields <$> processes s' = pfields <$> processes s ->
  clocks s' = clocks s ->
  (forall a l x, arbiters s' !! a = Some l -> x ∈ l -> is_Some (threads s !! x)) -> sys_rest s'.
Proof.
  intros Hs Hth Hid Hrun Hdead Et. apply rest_back; [done| |].
  - intros t0 th0. rewrite Et, lookup_insert_Some. intros [[<- <-]|[_ ?]]; [exists th|exists th0]; by split_and!.
  - intros t0 Ht0. rewrite Et. apply lookup_insert_is_Some'. by right.
Qed.

(** A thread that waits for no object and is not ready changes its status. *)
Lemma park_ok s s' t th th' : sys_ok s -> threads s !! t = Some th -> wait_objects th = [] ->
  status th ≠ Ready -> status th ≠ Dead -> status th' ≠ Ready -> status th' ≠ Running ->
  (ident th', current_priority th', held_mutexes th', wait_objects th') =
    (ident th, current_priority th, held_mutexes th, []) ->
  threads s' = <[t := th']> (threads s) -> objects s' = objects s -> managers s' = managers s ->
  processes s' = processes s -> clocks s' = clocks s ->
  (forall a l x, arbiters s' !! a = Some l -> x ∈ l -> is_Some (threads s !! x)) -> sys_ok s'.
Proof.
  intros Hs Hth Hw N1 N2 N3 N4 E Et Eo Em Ep Ek Ha. pose proof Hs as [[[B1 B2 B3 B4] F] R]. injection E as I1 I2 I3 I4 I5 Hcp Hh Hw'.
  split; [split; [split|]|].
  - eapply (q_ok_idle s s' t th (sched th')); try done; [by rewrite Em; eauto|].
    intros t'. unfold sched_of, upd_view. rewrite Et. case_decide; subst; [by rewrite lookup_insert_eq|by rewrite lookup_insert_ne].
  - by eapply wb_ok_thread.
  - eapply m_ok_threads; [done|done|]. rewrite Et, fmap_insert, Hh. apply insert_id. by rewrite lookup_fmap, Hth.
  - intros t0 th0. rewrite Et, Em, lookup_insert_Some. intros [[<- <-]|[_ ?]]; [|by eauto].
    rewrite I2, I3. eauto.
  - by eapply w_from_thread.
  - eapply (rest_thread s s' t th th'); try done; [by rewrite I2, I4, I5| |by rewrite Em|by rewrite Ep].
    intros o w Ho. rewrite Eo. eauto.
Qed.

(** ** Suspending the running thread on objects *)

Definition join (os : list Z) (t o : Z) (w : wobj) : wobj :=
  if decide (o ∈ os) then mk_wobj (if decide (t ∈ waiting_threads w) then waiting_threads w
                                  else waiting_threads w ++ [t]) (kind_of w) else w.
Definition attach (os : list Z) (t : Z) (s : kern) : kern :=
  with_objects (map_imap (fun o w => Some (join os t o w)) (objects s)) s.

Lemma objects_attach os t s o : objects (attach os t s) !! o = join os t o <$> objects s !! o.
Proof. unfold attach. simpl. rewrite map_lookup_imap. by destruct (objects s !! o). Qed.

Lemma attach_prio os t s s' : prio_eq s s' -> prio_eq (attach os t s) (attach os t s').
Proof.
  intros [H1 H2 H3 H4 H5 H6 H7 H8 H9]. split; try done. apply map_eq. intros i.
  pose proof (f_equal (fun m => m !! i) H2) as E. simpl in E. rewrite !lookup_fmap in *.
  rewrite !objects_attach. destruct (objects s !! i) as [w|], (objects s' !! i) as [w'|]; try done.
  simpl in *. injection E as E1 E2. unfold join, bare_obj. rewrite E1. case_decide; simpl; by rewrite E2, ?E1.
Qed.

Lemma attach_cons o os t s w : objects s !! o = Some w ->
  attach (o :: os) t s = attach os t (set_waiting o
    (if decide (t ∈ waiting_threads w) then waiting_threads w else waiting_threads w ++ [t]) s).
Proof.
  intros Ho. unfold attach, with_objects. simpl. f_equal. apply map_eq. intros i.
  rewrite !map_lookup_imap. change (alter ?f o (objects s)) with (objects (set_waiting o
    (if decide (t ∈ waiting_threads w) then waiting_threads w else waiting_threads w ++ [t]) s)).
  rewrite objects_waiting. destruct (decide (i = o)) as [->|Hne].
  - rewrite Ho. simpl. f_equal. unfold join. rewrite (decide_True (P := o ∈ o :: os)) by left. simpl.
    destruct (decide (o ∈ os)); [|done]. destruct (decide (t ∈ waiting_threads w)); simpl.
    + by rewrite decide_True.
    + by rewrite decide_True by (apply elem_of_app; right; left).
  - destruct (objects s !! i) as [w'|]; [|done]. simpl. f_equal. unfold join.
    destruct (decide (i ∈ os)); [by rewrite decide_True by (right; done)|].
    rewrite decide_False; [done|]. by rewrite not_elem_of_cons.
Qed.

Lemma add_to_all_ok t os : forall s, d_ok s -> q_ok s -> is_Some (threads s !! t) ->
  (forall o, o ∈ os -> is_Some (objects s !! o)) ->
  exists s', add_to_all os t s = Done s' /\ q_ok s' /\ prio_eq (attach os t s) s'.
Proof.
  induction os as [|o os IH]; intros s Hd Hq Ht Hos.
  { exists s. split_and!; [done|done|]. split; try done. apply map_eq. intros i.
    rewrite !lookup_fmap, objects_attach. destruct (objects s !! i) as [w|]; [|done]. simpl. f_equal. }
  destruct (Hos o ltac:(left)) as [w Hw]. cbn [add_to_all].
  destruct (AddWaitingThread_ok s o w t Hd Hq Hw Ht) as (s1 & -> & Hq1 & He1). cbn [mbind outcome_bind].
  set (s0 := set_waiting _ _ s) in He1.
  assert (d_ok s0) as Hd0.
  { eapply d_ok_waiting; [done|done|]. intros t' Ht'. case_decide; [by eapply (d_waiting s Hd)|].
    apply elem_of_app in Ht' as [?|Ht'%list_elem_of_singleton]; [by eapply (d_waiting s Hd)|by subst]. }
  destruct (IH s1) as (s2 & -> & Hq2 & He2).
  - by eapply d_ok_prio.
  - done.
  - destruct Ht as [th Hth]. destruct (pe_thread s0 s1 t th He1 Hth) as (th1 & ? & _). eauto.
  - intros o' Ho'. destruct (Hos o' ltac:(by right)) as [w' Hw'].
    assert (is_Some (objects s0 !! o')) as [w0 Hw0].
    { unfold s0. rewrite objects_waiting. case_decide; [subst; rewrite Hw; by eexists|eauto]. }
    destruct (pe_object _ _ _ _ He1 Hw0) as (w1 & ? & _). eauto.
  - exists s2. split_and!; [done|done|]. rewrite (attach_cons o os t s w Hw). fold s0.
    etrans; [|exact He2]. by apply attach_prio.
Qed.

(** Thread [t], which waits for nothing, on the lists of [os]. *)
Definition asleep (os : list Z) (st : thread_status) (cb : wakeup_cb) (th : thread) : thread :=
  set_wakeup_callback (Some cb) (set_wait_objects os (set_status st th)).

Section Attached.
Context (s : kern) (t : Z) (th : thread) (os : list Z) (st : thread_status) (cb : wakeup_cb).
Context (Hs : sys_ok s) (Hth : threads s !! t = Some th) (Hw : wait_objects th = []) (Hrun : status th = Running).
Context (Hos : forall o, o ∈ os -> is_Some (objects s !! o)) (Hst : waiting_status st = true).
Context (Hcb : forall a, cb ≠ CbArb a) (Hall : st = WaitSynchAll -> NoDup os).

Definition attached : kern := upd_thread t (asleep os st cb) (attach os t s).

Lemma attached_threads : threads attached = <[t := asleep os st cb th]> (threads s).
Proof using Hth. by apply alter_insert_eq. Qed.

Lemma attached_objects o w : objects attached !! o = Some w -> exists w0, objects s !! o = Some w0 /\
  kind_of w = kind_of w0 /\ waiting_threads w = if decide (o ∈ os) then waiting_threads w0 ++ [t] else waiting_threads w0.
Proof using Hs Hth Hw.
  change (objects attached) with (objects (attach os t s)). rewrite objects_attach.
  intros (w0 & Ho & ->)%fmap_Some. exists w0. split; [done|]. unfold join. case_decide; [|done].
  simpl. rewrite (decide_False (P := t ∈ waiting_threads w0)); [done|].
  apply (no_waiting s t th (b_w _ _ (wf_base _ _ (so_wf _ Hs))) Hth Hw o w0 Ho).
Qed.

Lemma attached_back o w0 : objects s !! o = Some w0 -> exists w, objects attached !! o = Some w /\
  kind_of w = kind_of w0 /\ forall t', t' ∈ waiting_threads w0 -> t' ∈ waiting_threads w.
Proof using All.
  intros Ho. change (objects attached) with (objects (attach os t s)). rewrite objects_attach, Ho.
  eexists. split; [done|]. unfold join. repeat case_decide; simpl; split; try done. intros t'. set_solver.
Qed.

Lemma attached_wb : wb_ok None attached /\ w_from attached.
Proof using All.
  pose proof (so_wf _ Hs) as [[_ [W1 W2 W3 W4 W5 W6] _ _] F].
  assert (forall t0 th0, threads attached !! t0 = Some th0 ->
    t0 = t /\ th0 = asleep os st cb th \/ t0 ≠ t /\ threads s !! t0 = Some th0) as Hcase.
  { intros t0 th0. rewrite attached_threads, lookup_insert_Some. naive_solver. }
  split; [split|].
  - intros o w t0 (w0 & Ho & _ & ->)%attached_objects Ht0.
    assert (o ∈ os /\ t0 = t \/ t0 ∈ waiting_threads w0) as [[Hin ->]|Hin].
    { case_decide; [|by right]. apply elem_of_app in Ht0 as [?|?%list_elem_of_singleton]; [by right|by left]. }
    + rewrite attached_threads, lookup_insert_eq. by eexists.
    + destruct (W1 o w0 t0 Ho Hin) as (th0 & Ht & Hino). rewrite attached_threads.
      destruct (decide (t0 = t)) as [->|]; [|rewrite lookup_insert_ne by done; eauto].
      rewrite Hth in Ht. injection Ht as <-. rewrite Hw in Hino. by apply not_elem_of_nil in Hino.
  - intros o w (w0 & Ho & _ & ->)%attached_objects. case_decide; [|by eapply W2].
    apply NoDup_app. split_and!; [by eapply W2| |by apply NoDup_singleton].
    intros x Hx ->%list_elem_of_singleton. eapply (no_waiting s t th); eauto. apply Hs.
  - intros t0 th0 o [[-> ->]|[_ Ht0]]%Hcase Ho.
    + destruct (Hos o Ho) as [w0 Hw0]. destruct (attached_back o w0 Hw0) as (w & ? & _). eauto.
    + destruct (W3 _ _ _ Ht0 Ho) as [w0 Hw0]. destruct (attached_back o w0 Hw0) as (w & ? & _). eauto.
  - intros t0 th0 [[-> ->]|[_ Ht0]]%Hcase _ Hne; [|by eapply W4]. split; [done|]. intros a [= E]. by eapply Hcb.
  - intros t0 th0 [[-> ->]|[_ Ht0]]%Hcase; [done|by eapply W5].
  - intros o w (w0 & Ho & Hk & _)%attached_objects Hkw. rewrite attached_threads.
    apply lookup_insert_is_Some'. right. rewrite Hk in Hkw. by eapply W6.
  - intros t0 th0 o [[-> ->]|[_ Ht0]]%Hcase Ho.
    + destruct (Hos o Ho) as [w0 Hw0]. change (objects attached) with (objects (attach os t s)).
      rewrite objects_attach, Hw0. eexists. split; [done|]. unfold join. rewrite decide_True by done. simpl.
      case_decide; [done|]. set_solver.
    + destruct (F _ _ _ Ht0 Ho) as (w0 & Hw0 & Hin). destruct (attached_back o w0 Hw0) as (w & ? & _ & Hl). eauto.
Qed.

Lemma attached_locks : same_locks s attached.
Proof using All.
  split.
  - change (threads attached) with (alter (asleep os st cb) t (threads s)). by apply fmap_alter_same.
  - apply map_eq. intros i. rewrite !lookup_fmap. change (objects attached) with (objects (attach os t s)).
    rewrite objects_attach. destruct (objects s !! i); [|done]. simpl. unfold join. by case_decide.
Qed.

(** A state that differs from [attached] in priorities only. *)
Lemma attached_ok s' : prio_eq attached s' -> q_ok s' -> sys_ok s'.
Proof using All.
  intros He Hq. pose proof (prio_waits _ _ He) as Hsw. pose proof attached_wb as [W F].
  assert (sys_rest attached) as R.
  { apply (rest_thread s attached t th (asleep os st cb th)); try done; [apply Hs|by rewrite Hrun|exact attached_threads| |].
    - intros o w Ho. destruct (attached_back o w Ho) as (w' & ? & E & _). exists w'. by rewrite E.
    - intros a l x Ha Hx. by apply (so_arbiters _ (so_rest _ Hs) a l x). }
  split; [split; [split|]|].
  - done.
  - by eapply wb_ok_same.
  - eapply m_ok_same; [etrans; [apply attached_locks|by apply prio_locks]|apply Hs].
  - eapply t_ok_same; [exact Hsw|]. intros t0 th0. rewrite attached_threads, lookup_insert_Some.
    pose proof (b_t _ _ (wf_base _ _ (so_wf _ Hs))) as T. intros [[<- <-]|[_ ?]]; [apply (T t th Hth)|by eapply T].
  - by eapply w_from_same.
  - eapply rest_runs; [by apply sw_runs|done].
Qed.
End Attached.

(** ** Waiting *)

Lemma sys_waits s s' : sys_ok s -> base_ok None s' -> same_waits s s' -> sys_ok s'.
Proof.
  intros Hs Hb Hw. eapply sys_runs; [|by apply sw_runs|done]. split; [done|]. eapply w_from_same; [done|apply Hs].
Qed.

Lemma sys_acquired o t s s' : sys_ok s -> acquired None o t s s' -> sys_ok s'.
Proof. intros Hs []. by eapply sys_waits. Qed.

(** The thread is suspended on [os]. *)
Definition suspended (t : Z) (os : list Z) (st : thread_status) (cb : wakeup_cb) (s : kern) : Prop :=
  exists th, threads s !! t = Some th /\ status th = st /\ wait_objects th = os /\ wakeup_callback th = Some cb.

Lemma WakeAfterDelay_ok s s1 t th ns : sys_ok s -> timing s1 = timing s -> threads s1 !! t = Some th ->
  exists tm, WakeAfterDelay t ns false s1 = Done (with_timing tm s1) /\
    (Timing.current_timer tm, length (Timing.timers tm)) = clocks s.
Proof.
  intros Hs Etm Hth. unfold WakeAfterDelay. destruct (ns =? -1).
  { exists (timing s1). rewrite Etm. split; [|done]. f_equal. destruct s1. simpl in *. by rewrite <- Etm. }
  unfold the_thread. rewrite Hth. cbn [of_opt mbind outcome_bind]. rewrite Etm.
  destruct (enqueue_clock (nsToCycles ns) (ThreadWakeupEventType (core_id th)) (thread_id th) s Hs) as (tm & -> & E).
  by exists tm.
Qed.

(** The end of a wait: the time-out and the callback. *)
Lemma suspend_ok s s1 t th ns cb : sys_ok s -> timing s1 = timing s -> threads s1 !! t = Some th ->
  sys_ok (upd_thread t (set_wakeup_callback (Some cb)) s1) ->
  exists s', suspend t ns cb s1 = Done (Val tt, s') /\ sys_ok s' /\
    suspended t (wait_objects th) (status th) cb s' /\ objects s' = objects s1.
Proof.
  intros Hs Etm Hth H1. unfold suspend, run, modify, mbind at 1, svc_bind.
  destruct (WakeAfterDelay_ok s s1 t th ns Hs Etm Hth) as (tm & -> & Hc).
  cbn [mbind outcome_bind]. eexists. split; [done|].
  destruct (timing_ok _ tm H1) as [H2 _].
  { rewrite Hc. unfold clocks. change (timing (upd_thread t (set_wakeup_callback (Some cb)) s1)) with (timing s1). by rewrite Etm. }
  split_and!; [exact (proj1 (resched_ok _ H2))| |done].
  exists (set_wakeup_callback (Some cb) th). split_and!; try done.
  change (threads (upd_thread t (set_wakeup_callback (Some cb)) s1) !! t = Some (set_wakeup_callback (Some cb) th)).
  by rewrite threads_upd, decide_True, Hth.
Qed.

Lemma run_thread s t th : sys_ok s -> threads s !! t = Some th -> status th = Running -> wait_objects th = [].
Proof. intros Hs Hth Hr. eapply waits_nothing; [apply Hs|done|]. by rewrite Hr. Qed.

Lemma prio_thread t f g s s' : prio_eq s s' ->
  (forall th th', bare_thread th = bare_thread th' -> bare_thread (f th) = bare_thread (g th')) ->
  prio_eq (upd_thread t g s) (upd_thread t f s').
Proof.
  intros [H1 H2 H3 H4 H5 H6 H7 H8 H9] Hf. split; try done. apply map_eq. intros i.
  pose proof (f_equal (fun m => m !! i) H1) as E. simpl in E. rewrite !lookup_fmap in *. rewrite !threads_upd.
  case_decide; [subst i|done]. destruct (threads s !! t), (threads s' !! t); try done. simpl in *.
  f_equal. apply Hf. by apply (inj Some) in E.
Qed.

Lemma put_asleep s t th os st cb : sys_ok s -> threads s !! t = Some th -> status th = Running ->
  (forall o, o ∈ os -> is_Some (objects s !! o)) -> waiting_status st = true -> (forall a, cb ≠ CbArb a) ->
  (st = WaitSynchAll -> NoDup os) -> forall ns,
  exists s', (_ ← modify (upd_thread t (set_status st)); _ ← run (add_to_all os t);
              _ ← modify (upd_thread t (set_wait_objects os)); suspend t ns cb) s = Done (Val tt, s') /\
    sys_ok s' /\ suspended t os st cb s'.
Proof.
  intros Hs Hth Hr Hos Hst Hcb Hall ns. pose proof (run_thread s t th Hs Hth Hr) as Hw.
  unfold run, modify, mbind at 1 2 3, svc_bind. cbn [mbind outcome_bind].
  set (s0 := upd_thread t (set_status st) s).
  pose proof (b_d _ _ (wf_base _ _ (so_wf _ Hs))) as [D1 D2 D3 D4].
  assert (forall t0, is_Some (threads s0 !! t0) <-> is_Some (threads s !! t0)) as Hdom.
  { intros t0. unfold s0. rewrite threads_upd. case_decide; [|done]. subst. by rewrite fmap_is_Some. }
  assert (d_ok s0) as Hd0.
  { split.
    - intros o w t0 Ho Ht. apply Hdom. eauto.
    - intros t0 th0 m Ht0 Hm. unfold s0 in Ht0. rewrite threads_upd in Ht0. case_decide; [|by eapply D2].
      subst t0. rewrite Hth in Ht0. injection Ht0 as <-. by eapply D2.
    - intros m w n p h Ho Hk. apply Hdom. eauto.
    - intros t0 th0 Ht0. unfold s0 in Ht0. rewrite threads_upd in Ht0. case_decide; [|by eapply D4].
      subst t0. rewrite Hth in Ht0. injection Ht0 as <-. apply (D4 t th Hth). }
  assert (q_ok s0) as Hq0.
  { eapply (q_ok_idle s s0 t th (core_id th, st, current_priority th)); try done.
    - apply Hs. - by rewrite Hr. - simpl. by destruct st. - by eauto.
    - intros t0. unfold s0. by rewrite (sched_upd t _ s th Hth). }
  destruct (add_to_all_ok t os s0 Hd0 Hq0) as (s1 & -> & Hq1 & He1); [apply Hdom; eauto|done|].
  cbn [mbind outcome_bind].
  assert (exists th1, threads s1 !! t = Some th1 /\ status th1 = st) as (th1 & Hth1 & Hst1).
  { destruct (pe_thread _ _ t (set_status st th) He1) as (th1 & ? & E%bare_fields).
    - change (threads s0 !! t = Some (set_status st th)). unfold s0. by rewrite threads_upd, decide_True, Hth.
    - exists th1. split; [done|]. apply E. }
  destruct (suspend_ok s (upd_thread t (set_wait_objects os) s1) t (set_wait_objects os th1) ns cb) as (s' & E & Hs' & Hsus & _).
  - done.
  - change (timing s1 = timing s). by rewrite (pe_timing _ _ He1).
  - by rewrite threads_upd, decide_True, Hth1.
  - apply (attached_ok s t th os st cb Hs Hth Hw Hr Hos Hst Hcb Hall).
    + assert (attached s t os st cb = upd_thread t (set_wakeup_callback (Some cb)) (upd_thread t (set_wait_objects os) (attach os t s0))) as ->.
      { unfold attached, upd_thread, s0, with_threads, attach. simpl. f_equal. rewrite (alter_insert_eq _ _ _ _ Hth).
        rewrite (alter_insert_eq _ _ _ _ Hth), !(alter_insert_eq _ _ _ _ (lookup_insert_eq _ _ _)), !insert_insert_eq. done. }
      apply prio_thread; [apply prio_thread; [done|]|]; intros [] []; unfold bare_thread; simpl; by intros [=]; subst.
    + by do 2 (apply q_ok_thread; [|done]).
  - exists s'. split_and!; [exact E|done|]. simpl in Hsus. by rewrite Hst1 in Hsus.
Qed.

(** The order of [WaitSynchronization1]: the list of objects comes first. *)
Lemma put_asleep_one s t th o w : sys_ok s -> threads s !! t = Some th -> status th = Running ->
  objects s !! o = Some w -> forall ns,
  exists s', (_ ← modify (upd_thread t (set_wait_objects [o])); _ ← run (AddWaitingThread o t);
              _ ← modify (upd_thread t (set_status WaitSynchAny)); suspend t ns (CbSync false)) s = Done (Val tt, s') /\
    sys_ok s' /\ suspended t [o] WaitSynchAny (CbSync false) s'.
Proof.
  intros Hs Hth Hr Ho ns. pose proof (run_thread s t th Hs Hth Hr) as Hw.
  unfold run, modify, mbind at 1 2 3, svc_bind. cbn [mbind outcome_bind].
  set (s0 := upd_thread t (set_wait_objects [o]) s).
  pose proof (wf_base _ _ (so_wf _ Hs)) as Hb.
  assert (threads s0 = <[t := set_wait_objects [o] th]> (threads s)) as Et by by apply alter_insert_eq.
  assert (d_ok s0) as Hd0.
  { pose proof (b_d _ _ Hb) as [D1 D2 D3 D4].
    assert (forall t0 th0, threads s0 !! t0 = Some th0 -> exists th1, threads s !! t0 = Some th1 /\
      held_mutexes th0 = held_mutexes th1 /\ nominal_priority th0 = nominal_priority th1 /\ core_id th0 = core_id th1) as Hback.
    { intros t0 th0. rewrite Et, lookup_insert_Some. intros [[<- <-]|[_ ?]]; [exists th|exists th0]; by split_and!. }
    split.
    - intros o' w' t0 Ho' Ht. rewrite Et. apply lookup_insert_is_Some'. right. eauto.
    - intros t0 th0 m (th1 & Ht1 & -> & _)%Hback. by apply (D2 t0 th1).
    - intros m w' n p h Ho' Hk. rewrite Et. apply lookup_insert_is_Some'. right. eauto.
    - intros t0 th0 (th1 & Ht1 & _ & -> & ->)%Hback. by apply (D4 t0 th1). }
  assert (q_ok s0) as Hq0 by by apply q_ok_thread; [apply Hb|].
  destruct (add_to_all_ok t [o] s0 Hd0 Hq0) as (s1 & E1 & Hq1 & He1).
  { rewrite Et, lookup_insert_eq. eauto. }
  { intros o' ->%list_elem_of_singleton. eauto. }
  cbn [add_to_all] in E1. destruct (AddWaitingThread o t s0) as [s1'|] eqn:EA; [|done]. cbn [mbind outcome_bind] in *.
  injection E1 as ->.
  destruct (pe_thread _ _ t (set_wait_objects [o] th) He1) as (th1 & Hth1 & Hf1%bare_fields);
    [by change (threads s0 !! t = Some (set_wait_objects [o] th)); rewrite Et, lookup_insert_eq|].
  destruct Hf1 as (_ & _ & _ & _ & _ & Hw1 & _).
  destruct (suspend_ok s (upd_thread t (set_status WaitSynchAny) s1) t (set_status WaitSynchAny th1) ns (CbSync false))
    as (s' & E & Hs' & Hsus & _).
  - done.
  - change (timing s1 = timing s). by rewrite (pe_timing _ _ He1).
  - by rewrite threads_upd, decide_True, Hth1.
  - assert (q_ok (upd_thread t (set_status WaitSynchAny) s1)) as Hq2.
    { destruct (pe_thread _ _ t (set_wait_objects [o] th) He1) as (th2 & Hth2 & Hf2%bare_fields);
        [by change (threads s0 !! t = Some (set_wait_objects [o] th)); rewrite Et, lookup_insert_eq|].
      rewrite Hth1 in Hth2. injection Hth2 as <-. destruct Hf2 as (_ & Hst2 & _).
      eapply (q_ok_idle s1 _ t th1 (core_id th1, WaitSynchAny, current_priority th1)); try done.
      - simpl in Hst2. by rewrite Hst2, Hr.
      - by eauto.
      - intros t0. by rewrite (sched_upd t _ s1 th1). }
    apply (attached_ok s t th [o] WaitSynchAny (CbSync false) Hs Hth Hw Hr); try done.
    + intros o' ->%list_elem_of_singleton. eauto.
    + assert (attached s t [o] WaitSynchAny (CbSync false) = upd_thread t (set_wakeup_callback (Some (CbSync false)))
        (upd_thread t (set_status WaitSynchAny) (attach [o] t s0))) as ->.
      { unfold attached, upd_thread, s0, with_threads, attach. simpl. f_equal. rewrite (alter_insert_eq _ _ _ _ Hth).
        rewrite (alter_insert_eq _ _ _ _ Hth), !(alter_insert_eq _ _ _ _ (lookup_insert_eq _ _ _)), !insert_insert_eq. done. }
      apply prio_thread; [apply prio_thread; [done|]|]; intros [] []; unfold bare_thread; simpl; by intros [=]; subst.
    + by apply q_ok_thread.
  - exists s'. split_and!; [exact E|done|]. simpl in Hsus, Hw1. by rewrite Hw1 in Hsus.
Qed.

(** Waiting for one object: it is acquired, or the wait times out at once, or
    the thread is suspended. *)
Lemma wait_one_ok s o w t th ns : sys_ok s -> objects s !! o = Some w -> threads s !! t = Some th ->
  status th = Running -> exists b, ShouldWait o t s = Done b /\
  exists r s', wait_one o t ns s = Done (r, s') /\ sys_ok s' /\
    if b then r = Err ResultTimeout /\
      (if ns =? 0 then s' = s else suspended t [o] WaitSynchAny (CbSync false) s')
    else r = Val tt /\ Acquire o t s = Done s' /\ acquired None o t s s'.
Proof.
  intros Hs Ho Hth Hr. pose proof (wf_base _ _ (so_wf _ Hs)) as Hb.
  destruct (ShouldWait_ok None s o w t Hb Ho) as [b Eb]. exists b. split; [done|].
  unfold wait_one, mbind at 1, svc_bind, read. rewrite Eb. cbn [mbind outcome_bind]. destruct b.
  - destruct (ns =? 0) eqn:Ens.
    { eexists _, s. unfold r_unless, mbind, svc_bind. simpl. by split_and!. }
    destruct (put_asleep_one s t th o w Hs Hth Hr Ho ns) as (s' & E & Hs' & Hsus).
    exists (Err ResultTimeout), s'. split_and!; [|done|done|done].
    unfold mbind, svc_bind, r_unless in E |- *. simpl. unfold run, modify in *. simpl in *.
    destruct (AddWaitingThread o t _) as [s1|]; [|done]. simpl in *.
    destruct (suspend t ns _ _) as [[r s2]|]; [|done]. by injection E as -> ->.
  - destruct (Acquire_ok None s o w t th Hb Ho Hth Eb) as (s' & E & Ha). unfold run. rewrite E.
    cbn [mbind outcome_bind]. eexists _, s'. split_and!; try done. by eapply sys_acquired.
Qed.

Lemma first_available_ok os t s : base_ok None s -> (forall o, o ∈ os -> is_Some (objects s !! o)) ->
  forall i, exists r, first_available os t i s = Done r /\
    match r with
    | Some (o, j) => o ∈ os /\ ShouldWait o t s = Done false /\ os !! Z.to_nat (j - i) = Some o /\ i <= j /\
        forall k o', (k < Z.to_nat (j - i))%nat -> os !! k = Some o' -> ShouldWait o' t s = Done true
    | None => forall o, o ∈ os -> ShouldWait o t s = Done true
    end.
Proof.
  intros Hb. induction os as [|o os IH]; intros Hos i; cbn [first_available].
  { exists None. split; [done|]. by intros o ?%not_elem_of_nil. }
  destruct (Hos o ltac:(left)) as [w Hw]. destruct (ShouldWait_ok None s o w t Hb Hw) as [b Eb].
  rewrite Eb. cbn [mbind outcome_bind]. destruct b.
  - destruct (IH ltac:(intros; apply Hos; by right) (i + 1)) as (r & -> & Hr). exists r. split; [done|].
    destruct r as [[o' j]|].
    + destruct Hr as (H1 & H2 & H3 & H4 & H5). replace (Z.to_nat (j - i)) with (S (Z.to_nat (j - (i + 1)))) by lia.
      split_and!; [by right|done|done|lia|]. intros [|k] o2 Hk; simpl; [by intros [= <-]|]. apply H5. lia.
    + intros o' [->|Ho']%elem_of_cons; auto.
  - exists (Some (o, i)). rewrite Z.sub_diag. split_and!; [done|left|done|done|lia|]. change (Z.to_nat 0) with 0%nat. lia.
Qed.

(** Waiting for any of several objects. *)
Lemma wait_any_ok s os t th ns : sys_ok s -> (forall o, o ∈ os -> is_Some (objects s !! o)) ->
  threads s !! t = Some th -> status th = Running -> exists f, first_available os t 0 s = Done f /\
  exists r s', wait_any os t ns s = Done (r, s') /\ sys_ok s' /\
    match f with
    | Some (o, i) => r = Val (ResultSuccess, Some (s32 i)) /\ Acquire o t s = Done s'
    | None => if ns =? 0 then r = Err ResultTimeout /\ s' = s
              else r = Val (ResultTimeout, Some (-1)) /\ suspended t os WaitSynchAny (CbSync true) s'
    end.
Proof.
  intros Hs Hos Hth Hr. pose proof (wf_base _ _ (so_wf _ Hs)) as Hb.
  destruct (first_available_ok os t s Hb Hos 0) as (f & Ef & Hf). exists f. split; [done|].
  unfold wait_any, mbind at 1, svc_bind, read. rewrite Ef. cbn [mbind outcome_bind]. destruct f as [[o i]|].
  - destruct Hf as (Ho & Hsw & _). destruct (Hos o Ho) as [w Hw].
    destruct (Acquire_ok None s o w t th Hb Hw Hth Hsw) as (s' & E & Ha). unfold mbind, svc_bind, run. rewrite E.
    cbn [mbind outcome_bind]. eexists _, s'. split_and!; try done. by eapply sys_acquired.
  - destruct (ns =? 0) eqn:Ens.
    { eexists _, s. unfold r_unless, mbind, svc_bind. simpl. by split_and!. }
    destruct (put_asleep s t th os WaitSynchAny (CbSync true) Hs Hth Hr Hos eq_refl ltac:(done) ltac:(done) ns)
      as (s' & E & Hs' & Hsus). eexists _, s'. split_and!; [|done|reflexivity|done].
    unfold mbind, svc_bind, r_unless in E |- *. simpl. unfold run, modify in *. simpl in *.
    destruct (add_to_all os t _) as [s1|]; [|done]. simpl in *.
    destruct (suspend t ns _ _) as [[r s2]|]; [|done]. by injection E as -> ->.
Qed.

(** Waiting for all of several objects. *)
Lemma wait_all_ok s os t th ns : sys_ok s -> (forall o, o ∈ os -> is_Some (objects s !! o)) -> NoDup os ->
  threads s !! t = Some th -> status th = Running -> exists b, all_available os t s = Done b /\
  exists r s', wait_all os t ns s = Done (r, s') /\ sys_ok s' /\
    if b then r = Val (ResultSuccess, None) /\ acquire_all os t s = Done s'
    else if ns =? 0 then r = Err ResultTimeout /\ s' = s
    else r = Val (ResultTimeout, Some (-1)) /\ suspended t os WaitSynchAll (CbSync false) s'.
Proof.
  intros Hs Hos Hnd Hth Hr. pose proof (wf_base _ _ (so_wf _ Hs)) as Hb.
  destruct (all_available_ok None os t s Hb Hos) as (b & Eb & Hiff). exists b. split; [done|].
  unfold wait_all, mbind at 1, svc_bind, read. rewrite Eb. cbn [mbind outcome_bind]. destruct b.
  - destruct (acquire_all_ok None os t s th Hb Hth Hnd) as (s' & E & Hb' & Hsw & _).
    { intros o Ho. split; [auto|]. by apply (proj1 Hiff). }
    unfold mbind, svc_bind, run. rewrite E. cbn [mbind outcome_bind]. eexists _, s'. split_and!; try done. by eapply sys_waits.
  - destruct (ns =? 0) eqn:Ens.
    { eexists _, s. unfold r_unless, mbind, svc_bind. simpl. by split_and!. }
    destruct (put_asleep s t th os WaitSynchAll (CbSync false) Hs Hth Hr Hos eq_refl ltac:(done) ltac:(done) ns)
      as (s' & E & Hs' & Hsus). eexists _, s'. split_and!; [|done|reflexivity|done].
    unfold mbind, svc_bind, r_unless in E |- *. simpl. unfold run, modify in *. simpl in *.
    destruct (add_to_all os t _) as [s1|]; [|done]. simpl in *.
    destruct (suspend t ns _ _) as [[r s2]|]; [|done]. by injection E as -> ->.
Qed.

(** ** Sleeping *)

Lemma current_thread_ok s t th : sys_ok s -> threads s !! t = Some th -> status th = Running ->
  exists m, managers s !! core_id th = Some m /\ current_thread m = Some t.
Proof.
  intros Hs Hth Hr. pose proof (so_running _ (so_rest _ Hs) t th Hth Hr) as E.
  destruct (managers s !! core_id th) as [m|]; [|done]. injection E as E. eauto.
Qed.

(** The end of [SleepThread]. *)
Lemma sleep_ok s t th ns : sys_ok s -> threads s !! t = Some th -> status th = Running ->
  exists s1 tm, WaitCurrentThread_Sleep (core_id th) s = Done s1 /\ WakeAfterDelay t ns false s1 = Done (with_timing tm s1) /\
    sys_ok (PrepareReschedule (with_timing tm s1)) /\ threads s1 = <[t := set_status WaitSleep th]> (threads s) /\
    managers s1 = managers s /\ timing s1 = timing s.
Proof.
  intros Hs Hth Hr. destruct (current_thread_ok s t th Hs Hth Hr) as (m & Hm & Hc).
  unfold WaitCurrentThread_Sleep, the_manager. rewrite Hm. cbn [of_opt mbind outcome_bind]. rewrite Hc.
  cbn [of_opt mbind outcome_bind]. set (s1 := upd_thread t (set_status WaitSleep) s).
  assert (threads s1 = <[t := set_status WaitSleep th]> (threads s)) as Et by by apply alter_insert_eq.
  assert (sys_ok s1) as H1.
  { pose proof (run_thread s t th Hs Hth Hr) as Hw.
    eapply (park_ok s s1 t th (set_status WaitSleep th)); try done; try by rewrite Hr.
    - by simpl; rewrite Hw. - apply (so_arbiters _ (so_rest _ Hs)). }
  destruct (WakeAfterDelay_ok s s1 t (set_status WaitSleep th) ns Hs eq_refl) as (tm & E & Hck).
  { by rewrite Et, lookup_insert_eq. }
  exists s1, tm. split_and!; try done. apply resched_ok. by apply timing_ok.
Qed.

(** ** Time-outs *)

Lemma thread_at (f : thread -> thread) t s th : threads s !! t = Some th ->
  threads (upd_thread t f s) = <[t := f th]> (threads s).
Proof. intros. by apply alter_insert_eq. Qed.

Lemma sys_woken t th s s' : sys_ok s -> threads s !! t = Some th -> resumable (status th) = true ->
  woken None t s s' -> sys_ok s'.
Proof.
  intros Hs Hth Hst [W1 (th0 & th' & E & Ht' & Hid & Hr & _) W3 W4 W5 W6 W7 W8 _ _]. split; [done|].
  rewrite Hth in E. injection E as <-. injection Hid as _ I1 _ I2 I3.
  assert (forall t0 th0, threads s' !! t0 = Some th0 -> t0 ≠ t -> exists th1, threads s !! t0 = Some th1 /\ wfields th0 = wfields th1) as Hoth.
  { intros t0 th0 Ht0 Hne. pose proof (W3 t0 Hne) as E. rewrite Ht0 in E. destruct (threads s !! t0) as [th1|]; [|done].
    exists th1. split; [done|]. change (Some (wfields th0) = Some (wfields th1)) in E. by apply (inj Some) in E. }
  eapply (rest_back s s'); [apply Hs| | | |done|done|done|].
  - intros t0 th0 Ht0. destruct (decide (t0 = t)) as [->|Hne].
    + rewrite Ht' in Ht0. injection Ht0 as <-. exists th. rewrite I1, I2, I3, Hr. split_and!; try done.
      intros Hd. by rewrite Hd in Hst.
    + destruct (Hoth _ _ Ht0 Hne) as (th1 & ? & E). exists th1. injection E as _ -> -> _ _ _ -> ->. by split_and!.
  - intros t0 [th1 Ht1]. destruct (decide (t0 = t)) as [->|Hne]; [eauto|]. pose proof (W3 t0 Hne) as E.
    rewrite Ht1 in E. destruct (threads s' !! t0); [eauto|done].
  - intros o w Ho. destruct (W4 _ _ Ho) as (w' & ? & [= _ E]). eauto.
  - intros a l x. rewrite W8. apply (so_arbiters _ (so_rest _ Hs)).
Qed.

Lemma sys_resumed t th s s' : sys_ok s -> threads s !! t = Some th -> wait_objects th = [] ->
  resumable (status th) = true -> base_ok None s' -> resumed t s s' -> sys_ok s'.
Proof.
  intros Hs Hth Hw Hst Hb [R1 R2 R3 R4 R5 R6 _]. rewrite (alter_insert_eq _ _ _ _ Hth) in R1.
  split; [split; [done|]|].
  - eapply w_from_thread; [apply Hs|exact R1|done|done].
  - eapply (rest_thread s s' t th (made_ready th)); try done; [apply Hs| | | | | |].
    + intros Hd. by rewrite Hd in Hst.
    + intros o w Ho. rewrite R2. eauto.
    + assert (forall l, current_thread <$> l = current_thread <$> (bare_manager <$> l)) as Hc
        by (intros l; by rewrite <- list_fmap_compose).
      by rewrite (Hc (managers s')), R3, <- Hc.
    + by rewrite R5.
    + unfold clocks. rewrite R6, Hth. apply unschedule_clocks.
    + rewrite R4. apply (so_arbiters _ (so_rest _ Hs)).
Qed.

(** Taking a thread off an arbiter's list. *)
Lemma arbiter_ok s x : sys_ok s -> (forall a l t, x !! a = Some l -> t ∈ l -> is_Some (threads s !! t)) ->
  sys_ok (with_arbiters x s).
Proof.
  intros Hs Hx. pose proof Hs as [[[B1 [] [] B4] F] [R1 R2 R3 R4 R5 _]].
  by split; [split; [split|]|split].
Qed.

Lemma sys_quiet s s' : sys_ok s -> quiet s s' -> sys_ok s'.
Proof.
  intros Hs Hq. eapply sys_waits; [done| |by apply quiet_waits]. eapply quiet_base; [done|apply Hs].
Qed.

Section Timeouts.
Context (other_wakeup : Z -> wakeup_reason -> Z -> option Z -> kern -> outcome kern).
Context (other_quiet : forall n r t o s, exists s', other_wakeup n r t o s = Done s' /\ quiet s s').

Lemma timeout_callback_ok t th s : sys_ok s -> threads s !! t = Some th ->
  exists s', run_wakeup_callback other_wakeup Timeout t None s = Done s' /\ sys_ok s' /\
    (exists th', threads s' !! t = Some th' /\ wfields th' = wfields th) /\
    forall a l, wakeup_callback th = Some (CbArb a) -> arbiters s' !! a = Some l -> t ∉ l.
Proof using other_quiet.
  intros Hs Hth. unfold run_wakeup_callback, the_thread. rewrite Hth. cbn [of_opt mbind outcome_bind].
  assert (forall s', quiet s s' -> sys_ok s' /\ exists th', threads s' !! t = Some th' /\ wfields th' = wfields th) as Hquiet.
  { intros s' Hq. split; [by eapply sys_quiet|]. by apply (sw_thread s s' t th (quiet_waits _ _ Hq)). }
  destruct (wakeup_callback th) as [[d|a|n]|]; cbn [WakeUp].
  - eexists. split; [done|]. edestruct Hquiet as [H1 H2]; [|split; [exact H1|split; [exact H2|done]]]. by apply quiet_upd.
  - eexists. split; [done|]. split; [|split; [by exists th|]].
    2: { intros a' l Ea. injection Ea as <-. cbn [arbiters with_arbiters]. rewrite lookup_alter_eq. intros (l0 & _ & ->)%fmap_Some.
         by intros [? _]%list_elem_of_filter. }
    apply arbiter_ok; [done|].
    intros a' l t'. rewrite lookup_alter_Some. intros [(-> & l0 & Hl & ->)|[_ Hl]] Hin.
    + apply list_elem_of_filter in Hin as [_ Hin]. by eapply (so_arbiters _ (so_rest _ Hs)).
    + by eapply (so_arbiters _ (so_rest _ Hs)).
  - destruct (other_quiet n Timeout t None s) as (s' & E & Hq). exists s'. split; [done|]. destruct (Hquiet s' Hq) as [H1 H2]. by split_and!.
  - exists s. split; [done|]. destruct (Hquiet s ltac:(done)) as [H1 H2]. by split_and!.
Qed.

(** The event of a thread that still waits. *)
Lemma ThreadWakeupCallback_ok c id s m t th : sys_ok s -> managers s !! c = Some m ->
  wakeup_callback_table m !! id = Some t -> threads s !! t = Some th -> resumable (status th) = true ->
  exists s', ThreadWakeupCallback other_wakeup c id s = Done s' /\ sys_ok s' /\ is_ready s' t /\
    (forall o w, objects s' !! o = Some w -> t ∉ waiting_threads w) /\
    forall a l, status th = WaitArb -> wakeup_callback th = Some (CbArb a) -> arbiters s' !! a = Some l -> t ∉ l.
Proof using other_quiet.
  intros Hs Hm Htab Hth Hst. unfold ThreadWakeupCallback, the_manager. rewrite Hm. cbn [of_opt mbind outcome_bind].
  rewrite Htab. replace (the_thread t s) with (Done th) by (unfold the_thread; by rewrite Hth). cbn [of_opt mbind outcome_bind].
  assert (forall s' th', sys_ok s' -> threads s' !! t = Some th' -> status th' = Ready -> is_ready s' t /\
    forall o w, objects s' !! o = Some w -> t ∉ waiting_threads w) as Hend.
  { intros s' th' Hs' Ht' Hr. split; [by exists th'|]. intros o w Ho Hin.
    destruct (w_to _ (b_w _ _ (wf_base _ _ (so_wf _ Hs'))) _ _ _ Ho Hin) as (th2 & E & Hin2). rewrite Ht' in E. injection E as <-.
    rewrite (waits_nothing s' t th') in Hin2; [by apply not_elem_of_nil in Hin2|apply Hs'|done|by rewrite Hr]. }
  destruct (decide (status th ∈ _)) as [Hin|Hnin].
  - destruct (timeout_callback_ok t th s Hs Hth) as (s1 & -> & H1 & (th1 & Hth1 & Hf1) & Harb). cbn [mbind outcome_bind].
    unfold the_thread. rewrite Hth1. cbn [of_opt mbind outcome_bind].
    assert (resumable (status th1) = true) as Hst1 by by injection Hf1 as _ -> _ _ _ _ _ _.
    destruct (release_waiter_ok None s1 t th1 (so_wf _ H1) Hth1 Hst1) as (s2 & E & Hw & _).
    pose proof (wk_thread _ _ _ _ Hw) as (x & th2 & _ & Ht2 & _ & Hr2 & _).
    pose proof (sys_woken t th1 s1 s2 H1 Hth1 Hst1 Hw) as H2.
    exists s2. split_and!; [|done|by eapply Hend..|].
    2: { intros a l _. rewrite (wk_arbiters _ _ _ _ Hw). apply Harb. }
    destruct (remove_from_all _ t s1) as [s3|]; [exact E|done].
  - cbn [mbind outcome_bind]. assert (wait_objects th = []) as Hw.
    { eapply waits_nothing; [apply Hs|done|]. destruct (status th) eqn:E; try done; set_solver. }
    destruct (ResumeFromWait_ok None s t th (wf_base _ _ (so_wf _ Hs)) Hth Hw Hst) as (s' & E & Hb & Hr).
    pose proof (sys_resumed t th s s' Hs Hth Hw Hst Hb Hr) as H2. exists s'. split_and!; [done|done|..|intros a l Ha; destruct Hnin; rewrite Ha; set_solver];
      eapply (Hend s' (made_ready th)); try done; by rewrite (rs_threads _ _ _ Hr), (alter_insert_eq _ _ _ _ Hth), lookup_insert_eq.
Qed.
End Timeouts.

(** ** Address arbiters *)

(** A thread that an arbiter may resume. *)
Definition arb_waiter (s : kern) (t : Z) : Prop :=
  exists th, threads s !! t = Some th /\ wait_objects th = [] /\
    (status th = WaitArb \/ status th = Ready /\ wakeup_callback th = None).

Lemma made_ready_id th : status th = Ready -> wakeup_callback th = None -> made_ready th = th.
Proof. destruct th; simpl. by intros -> ->. Qed.

Lemma resume_arb_ok s t : sys_ok s -> arb_waiter s t ->
  exists s', ResumeFromWait t s = Done s' /\ sys_ok s' /\ threads s' = alter made_ready t (threads s) /\
    arbiters s' = arbiters s.
Proof.
  intros Hs (th & Hth & Hw & [Hst|[Hst Hcb]]).
  - destruct (ResumeFromWait_ok None s t th (wf_base _ _ (so_wf _ Hs)) Hth Hw ltac:(by rewrite Hst)) as (s' & E & Hb & Hr).
    exists s'. split_and!; [done| |apply Hr|apply Hr]. by apply (sys_resumed t th s); rewrite ?Hst.
  - exists s. unfold ResumeFromWait, the_thread. rewrite Hth. cbn [of_opt mbind outcome_bind].
    rewrite Hw, Hst, Hcb. simpl. split_and!; try done. symmetry. rewrite (alter_insert_eq _ _ _ _ Hth).
    apply insert_id. by rewrite made_ready_id.
Qed.

Lemma arb_waiter_alter s s' t t' : threads s' = alter made_ready t (threads s) -> arb_waiter s t' -> arb_waiter s' t'.
Proof.
  intros Et (th & Hth & Hw & Hst). unfold arb_waiter. rewrite Et. destruct (decide (t' = t)) as [->|Hne].
  - rewrite lookup_alter_eq, Hth. eexists. split_and!; [done|done|]. by right.
  - rewrite lookup_alter_ne by done. eauto.
Qed.

Lemma resume_all_ok ts : forall s, sys_ok s -> (forall t, t ∈ ts -> arb_waiter s t) ->
  exists s', resume_all ts s = Done s' /\ sys_ok s' /\ arbiters s' = arbiters s /\
    threads s' = foldl (fun m t => alter made_ready t m) (threads s) ts.
Proof.
  induction ts as [|t ts IH]; intros s Hs Hts; cbn [resume_all]; [by exists s|].
  destruct (resume_arb_ok s t Hs (Hts t ltac:(left))) as (s1 & -> & H1 & E1 & A1). cbn [mbind outcome_bind].
  destruct (IH s1 H1) as (s2 & -> & H2 & A2 & E2).
  - intros t' Ht'. eapply arb_waiter_alter; [done|]. apply Hts. by right.
  - exists s2. split_and!; [done|done|congruence|]. by rewrite E2, E1.
Qed.

Lemma foldl_ready ts m t : (foldl (fun m t => alter made_ready t m) m ts : gmap Z thread) !! t =
  if decide (t ∈ ts) then made_ready <$> m !! t else m !! t.
Proof.
  revert m. induction ts as [|x ts IH]; intros m; [done|]. cbn [foldl].
  rewrite IH. destruct (decide (t = x)) as [->|Hne].
  - rewrite lookup_alter_eq, (decide_True (P := x ∈ x :: ts)) by left. destruct (m !! x) as [th|]; [|by case_decide].
    case_decide; [|done]. by destruct th.
  - rewrite lookup_alter_ne by done. destruct (decide (t ∈ ts)); [by rewrite decide_True by (right; done)|].
    by rewrite decide_False by (rewrite not_elem_of_cons; done).
Qed.

(** The threads that wait for an address on an arbiter's list. *)
Definition waiters_at (s : kern) (address : Z) (l : list Z) : list Z :=
  filter (fun t => waits_at address s t = true) (filter (fun t => in_arb s t = true) l).

Lemma waiters_at_waiter s address l t : sys_ok s -> t ∈ waiters_at s address l ->
  arb_waiter s t /\ t ∈ l /\ exists th, threads s !! t = Some th /\ status th = WaitArb /\ wait_address th = address.
Proof.
  intros Hs [Ha [Hi Hl]%list_elem_of_filter]%list_elem_of_filter. unfold waits_at, in_arb in *.
  destruct (threads s !! t) as [th|] eqn:Hth; [|done]. apply bool_decide_eq_true in Hi. apply Z.eqb_eq in Ha.
  split_and!; [|done|by exists th]. exists th. split_and!; [done| |by left].
  eapply waits_nothing; [apply Hs|done|by rewrite Hi].
Qed.

Lemma Prune_ok s a l : sys_ok s -> arbiters s !! a = Some l ->
  PruneStaleWaiters a s = Done (set_waiters a (filter (fun t => in_arb s t = true) l) s) /\
  sys_ok (set_waiters a (filter (fun t => in_arb s t = true) l) s).
Proof.
  intros Hs Ha. unfold PruneStaleWaiters, arbiter_waiters, threads_exist. rewrite Ha. cbn [of_opt mbind outcome_bind].
  assert (forallb (fun t => bool_decide (is_Some (threads s !! t))) l = true) as ->.
  { apply forallb_forall. intros t Ht. apply bool_decide_eq_true. eapply (so_arbiters _ (so_rest _ Hs)); [done|].
    by apply list_elem_of_In. }
  split; [done|]. apply arbiter_ok; [done|]. intros a' l' t. rewrite lookup_insert_Some.
  intros [[<- <-]|[_ Hl]] Hin; [apply list_elem_of_filter in Hin as [_ Hin]|]; by eapply (so_arbiters _ (so_rest _ Hs)).
Qed.

(** Setting the list of an arbiter to threads that exist. *)
Lemma set_waiters_ok s a l l0 : sys_ok s -> arbiters s !! a = Some l0 -> (forall t, t ∈ l -> t ∈ l0) ->
  sys_ok (set_waiters a l s).
Proof.
  intros Hs Ha Hl. apply arbiter_ok; [done|]. intros a' l' t. rewrite lookup_insert_Some.
  intros [[<- <-]|[_ Hl']] Hin; [apply Hl in Hin|]; by eapply (so_arbiters _ (so_rest _ Hs)).
Qed.

Lemma ResumeAllThreads_ok s a address l : sys_ok s -> arbiters s !! a = Some l ->
  exists s', ResumeAllThreads a address s = Done (Z.of_nat (length (waiters_at s address l)), s') /\ sys_ok s' /\
    threads s' = foldl (fun m t => alter made_ready t m) (threads s) (waiters_at s address l) /\
    exists l', arbiters s' = <[a := l']> (arbiters s) /\ forall t, t ∈ l' -> t ∈ l /\ t ∉ waiters_at s address l.
Proof.
  intros Hs Ha. destruct (Prune_ok s a l Hs Ha) as [E H1]. unfold ResumeAllThreads. rewrite E. cbn [mbind outcome_bind].
  set (s1 := set_waiters a (filter (fun t => in_arb s t = true) l) s) in *.
  unfold arbiter_waiters. change (arbiters s1) with (<[a := filter (fun t => in_arb s t = true) l]> (arbiters s)).
  rewrite lookup_insert_eq. cbn [of_opt mbind outcome_bind].
  destruct (resume_all_ok (waiters_at s address l) s1 H1) as (s2 & E2 & H2 & A2 & T2).
  { intros t Ht. by apply (waiters_at_waiter s address l t). }
  unfold waiters_at at 1 in E2. change (waits_at address s) with (waits_at address s1) in E2. rewrite E2. cbn [mbind outcome_bind].
  eexists. split; [done|]. split_and!.
  - eapply (set_waiters_ok s2 a); [done|by rewrite A2; apply lookup_insert_eq|]. by intros t [_ ?]%list_elem_of_filter.
  - exact T2.
  - eexists. split; [by unfold set_waiters, with_arbiters; simpl; rewrite A2; unfold s1; simpl; rewrite insert_insert_eq|].
    intros t [Hn Hl]%list_elem_of_filter. split; [by apply list_elem_of_filter in Hl as [_ ?]|].
    intros [Hy _]%list_elem_of_filter. assert (waits_at address s t = false) as Hn' by exact Hn. by rewrite Hy in Hn'.
Qed.

(** [std::min_element] over existing threads. *)
Lemma min_priority_ok s ts : (forall t, t ∈ ts -> is_Some (threads s !! t)) -> forall b,
  exists t p, min_priority s ts b = Done t /\ (t = b.1 /\ p = b.2 \/ t ∈ ts /\ current_priority <$> threads s !! t = Some p) /\
    (p <= b.2)%nat /\ forall t' th', t' ∈ ts -> threads s !! t' = Some th' -> (p <= current_priority th')%nat.
Proof.
  intros Hex. induction ts as [|t ts IH]; intros b; cbn [min_priority].
  { exists b.1, b.2. split_and!; [done|by left|done|]. by intros t' th' ?%not_elem_of_nil. }
  destruct (Hex t ltac:(left)) as [th Hth]. unfold the_thread. rewrite Hth. cbn [of_opt mbind outcome_bind].
  set (b' := if (current_priority th <? b.2)%nat then (t, current_priority th) else b).
  destruct (IH ltac:(intros; apply Hex; by right) b') as (t' & p & E & Ht' & Hle & Hmin). exists t', p.
  assert ((b'.2 <= b.2)%nat /\ (b'.2 <= current_priority th)%nat /\ (b' = b \/ b' = (t, current_priority th))) as (L1 & L2 & Hb').
  { unfold b'. destruct (Nat.ltb_spec (current_priority th) b.2); simpl; split_and!; try lia; [by right|by left]. }
  split_and!; [exact E| |lia|].
  - destruct Ht' as [[-> ->]|[Ht' Hp]]; [|right; split; [by right|done]].
    destruct Hb' as [->| ->]; [by left|]. right. split; [by left|]. simpl. by rewrite Hth.
  - intros t2 th2 [->|Ht2]%elem_of_cons Hth2; [|by eapply Hmin]. rewrite Hth in Hth2. injection Hth2 as <-. lia.
Qed.

Lemma erase_first_elem t x l : x ∈ erase_first t l -> x ∈ l.
Proof.
  induction l as [|y l IH]; simpl; [done|]. destruct (y =? t); [by right|]. rewrite !elem_of_cons. naive_solver.
Qed.

(** One round of a signal: the first waiter of best priority is resumed. *)
Lemma ResumeHighest_ok s a address l : sys_ok s -> arbiters s !! a = Some l ->
  exists s' l', arbiters s' = <[a := l']> (arbiters s) /\ (forall t, t ∈ l' -> t ∈ l) /\ sys_ok s' /\
  match waiters_at s address l with
  | [] => ResumeHighestPriorityThread a address s = Done (false, s') /\ threads s' = threads s /\ waiters_at s' address l' = []
  | _ => ResumeHighestPriorityThread a address s = Done (true, s') /\
      exists t, t ∈ waiters_at s address l /\ threads s' = alter made_ready t (threads s) /\
        (forall t' th th', t' ∈ waiters_at s address l -> threads s !! t = Some th -> threads s !! t' = Some th' ->
          (current_priority th <= current_priority th')%nat) /\
        (NoDup l -> NoDup l' /\ waiters_at s' address l' = filter (fun x => x ≠ t) (waiters_at s address l))
  end.
Proof.
  intros Hs Ha. destruct (Prune_ok s a l Hs Ha) as [E H1]. unfold ResumeHighestPriorityThread. rewrite E. cbn [mbind outcome_bind].
  set (s1 := set_waiters a (filter (fun t => in_arb s t = true) l) s) in *.
  unfold arbiter_waiters. change (arbiters s1) with (<[a := filter (fun t => in_arb s t = true) l]> (arbiters s)).
  rewrite lookup_insert_eq. cbn [of_opt mbind outcome_bind].
  set (rest := filter (fun t => waits_at address s1 t = false) _).
  change (filter (fun t => waits_at address s1 t = true) (filter (fun t => in_arb s t = true) l)) with (waiters_at s address l).
  assert (forall t, t ∈ rest -> t ∈ l /\ waits_at address s t = false) as Hrest.
  { intros t [Hw Hi]%list_elem_of_filter. split; [by apply list_elem_of_filter in Hi as [_ ?]|exact Hw]. }
  destruct (waiters_at s address l) as [|t0 ts] eqn:EW.
  - exists (set_waiters a rest s1), rest. split; [unfold set_waiters, with_arbiters, s1; simpl; by rewrite insert_insert_eq|].
    split; [by intros t [? _]%Hrest|]. split.
    { eapply set_waiters_ok; [exact H1|apply lookup_insert_eq|]. by intros t [_ ?]%list_elem_of_filter. }
    split_and!; [done|done|]. unfold waiters_at. apply filter_none. intros t [Hi Hr]%list_elem_of_filter.
    destruct (Hrest t Hr) as [_ Hn]. change (~ waits_at address s t = true). by rewrite Hn.
  - assert (forall t, t ∈ t0 :: ts -> arb_waiter s t /\ t ∈ l) as Hts.
    { intros t Ht. rewrite <- EW in Ht. by destruct (waiters_at_waiter s address l t Hs Ht) as (? & ? & _). }
    destruct (Hts t0 ltac:(left)) as [(th0 & Hth0 & _) _]. unfold the_thread.
    change (threads s1) with (threads s). rewrite Hth0. cbn [of_opt mbind outcome_bind].
    destruct (min_priority_ok s1 ts) with (b := (t0, current_priority th0)) as (t & p & -> & Ht & Hle & Hmin).
    { intros t Ht. destruct (Hts t ltac:(by right)) as [(th & ? & _) _]. by exists th. }
    cbn [mbind outcome_bind]. change (threads s1) with (threads s) in *.
    assert (t ∈ t0 :: ts /\ current_priority <$> threads s !! t = Some p) as [Hin Hp].
    { destruct Ht as [[-> ->]|[? ?]]; [split; [by left|by simpl; rewrite Hth0]|split; [by right|done]]. }
    destruct (resume_arb_ok s1 t H1) as (s2 & -> & H2 & T2 & A2); [by apply Hts|]. cbn [mbind outcome_bind].
    change (threads s1) with (threads s) in T2.
    exists (set_waiters a (rest ++ erase_first t (t0 :: ts)) s2), (rest ++ erase_first t (t0 :: ts)).
    split; [unfold set_waiters, with_arbiters; simpl; rewrite A2; unfold s1; simpl; by rewrite insert_insert_eq|].
    assert (forall x, x ∈ rest ++ erase_first t (t0 :: ts) -> x ∈ l) as Hl'.
    { intros x [Hx|Hx]%elem_of_app; [by apply Hrest in Hx as [? _]|]. apply erase_first_elem in Hx. by apply Hts. }
    split; [done|]. split.
    { apply arbiter_ok; [done|]. intros a' l2 x. rewrite A2, lookup_insert_Some.
      intros [[<- <-]|[Hne Hl2]] Hx.
      - rewrite T2. apply lookup_alter_is_Some. apply Hl' in Hx. by eapply (so_arbiters _ (so_rest _ Hs)).
      - rewrite T2. apply lookup_alter_is_Some. unfold s1 in Hl2. simpl in Hl2. rewrite lookup_insert_ne in Hl2 by done.
        by eapply (so_arbiters _ (so_rest _ Hs)). }
    split; [done|]. exists t. split_and!; [done|exact T2| |].
    + intros t' th th' Ht' Hth Hth'. rewrite Hth in Hp. injection Hp as <-.
      apply elem_of_cons in Ht' as [->|Ht']; [rewrite Hth0 in Hth'; injection Hth' as <-; exact Hle|by eapply Hmin].
    + intros Hnd. assert (NoDup (t0 :: ts)) as Hnd2 by (rewrite <- EW; by do 2 apply NoDup_filter).
      rewrite erase_first_filter by done.
      assert (forall x, waits_at address (set_waiters a (rest ++ filter (fun x => x ≠ t) (t0 :: ts)) s2) x = waits_at address s x) as Ewa.
      { intros x. unfold waits_at. change (threads (set_waiters a _ s2)) with (threads s2). rewrite T2.
        destruct (decide (x = t)) as [->|]; [rewrite lookup_alter_eq; by destruct (threads s !! t)|by rewrite lookup_alter_ne]. }
      assert (forall x, x ≠ t -> in_arb (set_waiters a (rest ++ filter (fun x => x ≠ t) (t0 :: ts)) s2) x = in_arb s x) as Eia.
      { intros x Hx. unfold in_arb. change (threads (set_waiters a _ s2)) with (threads s2). by rewrite T2, lookup_alter_ne. }
      split.
      * apply NoDup_app. split_and!; [by do 2 apply NoDup_filter| |by apply NoDup_filter].
        intros x [_ Hn]%Hrest [_ Hx]%list_elem_of_filter. rewrite <- EW in Hx. apply list_elem_of_filter in Hx as [Hx _]. congruence.
      * unfold waiters_at at 1. rewrite filter_app, filter_app. rewrite (filter_none _ (filter _ rest)).
        2: { intros x [_ [_ Hn]%Hrest]%list_elem_of_filter. rewrite Ewa, Hn. done. }
        simpl app. rewrite (filter_all _ (filter _ (t0 :: ts))).
        2: { intros x [Hx Hx2]%list_elem_of_filter. rewrite Eia by done. rewrite <- EW in Hx2.
             apply list_elem_of_filter in Hx2 as [_ Hx2]. by apply list_elem_of_filter in Hx2 as [? _]. }
        rewrite filter_all; [done|]. intros x [Hx Hx2]%list_elem_of_filter. rewrite Ewa. rewrite <- EW in Hx2.
        by apply list_elem_of_filter in Hx2 as [? _].
Qed.

Lemma ready_priority ts m (t : Z) : current_priority <$> (foldl (fun m t => alter made_ready t m) m ts : gmap Z thread) !! t =
  current_priority <$> m !! t.
Proof. rewrite foldl_ready. case_decide; [|done]. by destruct (m !! t). Qed.

(** No thread outside [ws] had a better priority than one in [ws]. *)
Definition best_first (s : kern) (ws all : list Z) : Prop :=
  forall w u th th', w ∈ ws -> u ∈ all -> u ∉ ws -> threads s !! w = Some th -> threads s !! u = Some th' ->
    (current_priority th <= current_priority th')%nat.

Lemma length_filter_ne (t : Z) l : NoDup l -> t ∈ l -> length l = S (length (filter (fun x => x ≠ t) l)).
Proof.
  induction 1 as [|x l Hx Hnd IH]; [by intros ?%not_elem_of_nil|]. intros Ht. destruct (decide (x = t)) as [->|Hne].
  - rewrite filter_cons_False by naive_solver. rewrite filter_all; [done|]. intros y Hy ->. done.
  - rewrite filter_cons_True by done. simpl. f_equal. apply IH. by apply elem_of_cons in Ht as [->|].
Qed.

Lemma resume_first_ok a address n : forall s l, sys_ok s -> arbiters s !! a = Some l ->
  exists s' ws l', resume_first n a address s = Done (Z.of_nat (length ws), s') /\ sys_ok s' /\
    threads s' = foldl (fun m t => alter made_ready t m) (threads s) ws /\ arbiters s' = <[a := l']> (arbiters s) /\
    (forall t, t ∈ ws -> t ∈ waiters_at s address l) /\
    (NoDup l -> NoDup ws /\ length ws = Nat.min n (length (waiters_at s address l)) /\ best_first s ws (waiters_at s address l)).
Proof.
  induction n as [|n IH]; intros s l Hs Ha; cbn [resume_first].
  { exists s, [], l. split_and!; try done; [by rewrite insert_id|by intros t ?%not_elem_of_nil|].
    intros _. split_and!; [constructor|done|]. by intros w u th th' ?%not_elem_of_nil. }
  destruct (ResumeHighest_ok s a address l Hs Ha) as (s1 & l1 & A1 & L1 & H1 & Hcase).
  destruct (IH s1 l1 H1) as (s2 & ws & l2 & E2 & H2 & T2 & A2 & W2 & N2); [by rewrite A1, lookup_insert_eq|].
  rewrite A1, insert_insert_eq in A2. destruct (waiters_at s address l) as [|t0 ts] eqn:EW.
  - destruct Hcase as (-> & T1 & W1). cbn [mbind outcome_bind]. rewrite E2. cbn [mbind outcome_bind].
    assert (ws = []) as -> by (destruct ws as [|w ws]; [done|]; specialize (W2 w ltac:(left)); rewrite W1 in W2; by apply not_elem_of_nil in W2).
    exists s2, [], l2. split_and!; try done; [by rewrite T2, T1|]. intros _. split_and!; [constructor|done|].
    by intros w u th th' ?%not_elem_of_nil.
  - destruct Hcase as (-> & t & Ht & T1 & Hmin & Hnd). cbn [mbind outcome_bind]. rewrite E2. cbn [mbind outcome_bind].
    assert (forall x, current_priority <$> threads s1 !! x = current_priority <$> threads s !! x) as Hprio.
    { intros x. rewrite T1. apply (ready_priority [t]). }
    exists s2, (t :: ws), l2. split_and!; [cbn [length]; f_equal; f_equal; lia|done|by rewrite T2, T1|done| |].
    + intros x [->|Hx]%elem_of_cons; [done|]. specialize (W2 x Hx).
      destruct (waiters_at_waiter s1 address l1 x H1 W2) as (_ & Hl1 & th1 & Ht1 & Hst & Haddr).
      rewrite <- EW. rewrite T1 in Ht1. assert (threads s !! x = Some th1) as Hx'.
      { destruct (decide (x = t)) as [->|Hne]; [|by rewrite lookup_alter_ne in Ht1].
        rewrite lookup_alter_eq in Ht1. destruct (threads s !! t); [|done]. simpl in Ht1. injection Ht1 as <-. done. }
      unfold waiters_at, waits_at, in_arb. rewrite !list_elem_of_filter, Hx', Hst, Haddr. split_and!; [by apply Z.eqb_refl|done|by apply L1].
    + intros Hl. destruct (Hnd Hl) as [Hl1 Hf]. destruct (N2 Hl1) as (Nw & Lw & Bw). rewrite Hf in *.
      assert (NoDup (t0 :: ts)) as Hnd2 by (rewrite <- EW; by do 2 apply NoDup_filter).
      split_and!.
      * apply NoDup_cons. split; [|done]. intros Hin. specialize (W2 t Hin). by apply list_elem_of_filter in W2 as [? _].
      * rewrite (length_filter_ne t (t0 :: ts)) by done. change (length (t :: ws)) with (S (length ws)). rewrite Lw. lia.
      * intros w u th th' Hw Hu Hnu Hth Hth'. apply not_elem_of_cons in Hnu as [Hut Hnu].
        apply elem_of_cons in Hw as [->|Hw]; [by apply (Hmin u)|].
        assert (forall x thx, threads s !! x = Some thx -> exists y, threads s1 !! x = Some y /\ current_priority y = current_priority thx) as Hp.
        { intros x thx Hx. pose proof (Hprio x) as E. rewrite Hx in E. destruct (threads s1 !! x) as [y|]; [|done].
          exists y. split; [done|]. by injection E. }
        destruct (Hp _ _ Hth) as (y & Hy & <-), (Hp _ _ Hth') as (y' & Hy' & <-).
        eapply (Bw w u); try done. by apply list_elem_of_filter.
Qed.

Lemma penalty_ok s : sys_ok s -> sys_ok (penalty s).
Proof.
  intros Hs. unfold penalty. apply timing_ok; [done|]. unfold clocks, Timing.with_timer. simpl. by rewrite length_alter.
Qed.

(** Signalling an address: [value] threads, or all if it is negative. *)
Lemma signal_threads_ok s a t th address value l : sys_ok s -> arbiters s !! a = Some l -> threads s !! t = Some th ->
  exists s' ws, signal_threads a t address value s = Done s' /\ sys_ok s' /\
    threads s' = foldl (fun m t => alter made_ready t m) (threads s) ws /\
    (forall t, t ∈ ws -> t ∈ waiters_at s address l) /\
    (NoDup l -> NoDup ws /\ best_first s ws (waiters_at s address l) /\
      length ws = (if value <? 0 then length (waiters_at s address l)
                   else Nat.min (Z.to_nat value) (length (waiters_at s address l)))).
Proof.
  intros Hs Ha Hth. unfold signal_threads.
  assert (exists s1 ws, (if value <? 0 then ResumeAllThreads a address s else resume_first (Z.to_nat value) a address s) =
      Done (Z.of_nat (length ws), s1) /\ sys_ok s1 /\
    threads s1 = foldl (fun m t => alter made_ready t m) (threads s) ws /\ (forall t, t ∈ ws -> t ∈ waiters_at s address l) /\
    (NoDup l -> NoDup ws /\ best_first s ws (waiters_at s address l) /\
      length ws = (if value <? 0 then length (waiters_at s address l)
                   else Nat.min (Z.to_nat value) (length (waiters_at s address l))))) as (s1 & ws & -> & H1 & T1 & W1 & N1).
  { destruct (value <? 0).
    - destruct (ResumeAllThreads_ok s a address l Hs Ha) as (s1 & E & H1 & T1 & _). exists s1, (waiters_at s address l).
      split_and!; try done. intros Hl. split_and!; [by do 2 apply NoDup_filter| |done]. by intros w u th1 th2 _ ? ?.
    - destruct (resume_first_ok a address (Z.to_nat value) s l Hs Ha) as (s1 & ws & l' & E & H1 & T1 & _ & W1 & N1).
      exists s1, ws. split_and!; try done. intros Hl. by destruct (N1 Hl) as (? & ? & ?). }
  cbn [mbind outcome_bind]. unfold the_thread.
  assert (is_Some (threads s1 !! t)) as [th1 ->] by (rewrite T1, foldl_ready, Hth; case_decide; eauto).
  cbn [of_opt mbind outcome_bind]. eexists _, ws. split; [done|].
  destruct (_ && _); split_and!; try done. by apply penalty_ok.
Qed.

Lemma WaitThread_ok s s1 a l t th cb address : sys_ok s -> arbiters s !! a = Some l -> threads s !! t = Some th ->
  status th = Running -> threads s1 = <[t := set_wakeup_callback cb th]> (threads s) -> objects s1 = objects s ->
  managers s1 = managers s -> processes s1 = processes s -> arbiters s1 = arbiters s -> clocks s1 = clocks s ->
  exists s', WaitThread a t address s1 = Done s' /\ sys_ok s' /\
    threads s' = <[t := set_status WaitArb (set_wait_address address (set_wakeup_callback cb th))]> (threads s) /\
    arbiters s' = <[a := filter (fun x => x ≠ t) l ++ [t]]> (arbiters s).
Proof.
  intros Hs Ha Hth Hr Et Eo Em Ep Ea Ek. unfold WaitThread, arbiter_waiters, the_thread. rewrite Ea, Ha, Et, lookup_insert_eq.
  cbn [of_opt mbind outcome_bind]. eexists. split; [done|]. set (s2 := set_waiters _ _ _).
  assert (threads s2 = <[t := set_status WaitArb (set_wait_address address (set_wakeup_callback cb th))]> (threads s)) as Et2.
  { change (threads s2) with (alter (fun th => set_status WaitArb (set_wait_address address th)) t (threads s1)).
    rewrite Et, (alter_insert_eq _ _ _ _ (lookup_insert_eq _ _ _)). by rewrite insert_insert_eq. }
  assert (arbiters s2 = <[a := filter (fun x => x ≠ t) l ++ [t]]> (arbiters s)) as Ea2.
  { unfold s2, set_waiters, upd_thread. simpl. by rewrite Ea. }
  split_and!; [|done|done]. pose proof (run_thread s t th Hs Hth Hr) as Hw.
  eapply (park_ok s s2 t th); try done; try by rewrite Hr.
  - by simpl.
  - by simpl.
  - by simpl; rewrite Hw.
  - intros a' l' x. rewrite Ea2, lookup_insert_Some. intros [[<- <-]|[_ Hl]] Hx.
    + apply elem_of_app in Hx as [[_ Hx]%list_elem_of_filter| ->%list_elem_of_singleton]; [|eauto].
      by eapply (so_arbiters _ (so_rest _ Hs)).
    + by eapply (so_arbiters _ (so_rest _ Hs)).
Qed.

Definition decrements (ty : arbitration_type) : bool :=
  match ty with DecrementAndWaitIfLessThan | DecrementAndWaitIfLessThanWithTimeout => true | _ => false end.

(** Arbitrating an address: signal, or suspend the running thread when the word
    is below the value. *)
Lemma ArbitrateAddress_ok s a l t th type address value ns word : sys_ok s -> arbiters s !! a = Some l ->
  threads s !! t = Some th -> status th = Running ->
  exists r w s', Ops.ArbitrateAddress a t type address value ns word s = Done (r, w, s') /\ sys_ok s' /\
    match arbitration_of type with
    | None => r = ResultInvalidEnumValueFnd /\ w = None /\ s' = s
    | Some ASignal => r = ResultSuccess /\ w = None
    | Some ty =>
        if s32 word <? value then
          (exists th', threads s' !! t = Some th' /\ status th' = WaitArb /\ wait_address th' = address) /\
          (exists l', arbiters s' !! a = Some l' /\ t ∈ l') /\
          w = (if decrements ty then Some (u32 (s32 word - 1)) else None)
        else w = None /\ s' = s
    end.
Proof.
  intros Hs Ha Hth Hr. unfold Ops.ArbitrateAddress. cbv zeta.
  assert (exists s', WaitThread a t address s = Done s' /\ sys_ok s' /\
    (exists th', threads s' !! t = Some th' /\ status th' = WaitArb /\ wait_address th' = address) /\
    exists l', arbiters s' !! a = Some l' /\ t ∈ l') as (sw & Ew & Hsw & Tw & Aw).
  { destruct (WaitThread_ok s s a l t th (wakeup_callback th) address Hs Ha Hth Hr) as (s' & E & H' & T & A); try done.
    { symmetry. apply insert_id. rewrite Hth. by destruct th. }
    exists s'. split_and!; [done|done| |].
    - rewrite T, lookup_insert_eq. by eexists.
    - rewrite A, lookup_insert_eq. eexists. split; [done|]. set_solver. }
  assert (exists s1 s', WakeAfterDelay t (s64 ns) false (upd_thread t (set_wakeup_callback (Some (CbArb a))) s) = Done s1 /\
    WaitThread a t address s1 = Done s' /\ sys_ok s' /\
    (exists th', threads s' !! t = Some th' /\ status th' = WaitArb /\ wait_address th' = address) /\
    exists l', arbiters s' !! a = Some l' /\ t ∈ l') as (s1 & st & E1 & Et & Hst & Tt & At).
  { destruct (WakeAfterDelay_ok s (upd_thread t (set_wakeup_callback (Some (CbArb a))) s) t
      (set_wakeup_callback (Some (CbArb a)) th) (s64 ns) Hs eq_refl) as (tm & E & Hc).
    { by rewrite threads_upd, decide_True, Hth. }
    destruct (WaitThread_ok s (with_timing tm (upd_thread t (set_wakeup_callback (Some (CbArb a))) s)) a l t th
      (Some (CbArb a)) address Hs Ha Hth Hr) as (s' & E' & H' & T & A); try done.
    { by apply alter_insert_eq. }
    exists (with_timing tm (upd_thread t (set_wakeup_callback (Some (CbArb a))) s)), s'. split_and!; try done.
    - rewrite T, lookup_insert_eq. by eexists.
    - rewrite A, lookup_insert_eq. eexists. split; [done|]. set_solver. }
  destruct (arbitration_of type) as [[]|].
  - destruct (signal_threads_ok s a t th address value l Hs Ha Hth) as (s' & ws & -> & H' & _).
    cbn [mbind outcome_bind]. by eexists _, _, s'.
  - destruct (s32 word <? value); [rewrite Ew; cbn [mbind outcome_bind]; by eexists _, _, sw|by eexists _, _, s].
  - destruct (s32 word <? value); [rewrite Ew; cbn [mbind outcome_bind]; by eexists _, _, sw|by eexists _, _, s].
  - destruct (s32 word <? value); [|by eexists _, _, s].
    rewrite E1. cbn [mbind outcome_bind]. rewrite Et. cbn [mbind outcome_bind]. by eexists _, _, st.
  - destruct (s32 word <? value); [|by eexists _, _, s].
    rewrite E1. cbn [mbind outcome_bind]. rewrite Et. cbn [mbind outcome_bind]. by eexists _, _, st.
  - by eexists _, _, s.
Qed.

End Calls.
