(* ===== verification/KernelActions.v ===== *)
(** * Everything that happens to the kernel

    New objects and threads, ending threads, priorities and the change of the
    running CPU keep the kernel well formed; [act] lists the events of a running
    kernel, and every sequence of them runs from its start.  The theorems on
    mutexes, waiting, scheduling and arbiters are stated here for well-formed
    kernels. *)
From stdpp Require Import strings.
From S2P Require Import Prelude Results ThreadQueueList HandleTable CoreTiming ResourceLimit Tls Kernel KernelFacts KernelWakeup KernelOps KernelSystem KernelSched KernelSvc KernelCalls.

Module Acts.
Import Res Kern KF KW Ops KS Sched Svc Calls.

(** ** New objects *)

(** The state a new object may have. *)
Definition fresh_kind (k : kind) : bool :=
  match k with KThread => false | KMutex n _ h => (n =? 0) && bool_decide (h = None) | _ => true end.

Lemma add_object_ok s o k : sys_ok s -> objects s !! o = None -> fresh_kind k = true -> sys_ok (add_object o k s).
Proof.
  intros Hs Ho Hk. pose proof Hs as [[[B1 [W1 W2 W3 W4 W5 W6] [M1 M2 M3 M4] B4] F] [R1 R2 R3 R4 R5 R6]].
  assert (forall o' w, objects (add_object o k s) !! o' = Some w -> o' = o /\ w = mk_wobj [] k \/ objects s !! o' = Some w) as Hcase.
  { intros o' w. simpl. rewrite lookup_insert_Some. naive_solver. }
  assert (forall o' w, objects s !! o' = Some w -> objects (add_object o k s) !! o' = Some w) as Hkeep.
  { intros o' w Hw. simpl. rewrite lookup_insert_ne; [done|]. intros ->. congruence. }
  split; [split; [split|]|]; [by apply q_ok_objects| | |exact B4| |].
  - split; try done.
    + intros o' w t [[-> ->]|Hw]%Hcase Ht; [by apply not_elem_of_nil in Ht|eauto].
    + intros o' w [[-> ->]|Hw]%Hcase; [constructor|eauto].
    + intros t th o' Ht Hin. destruct (W3 _ _ _ Ht Hin) as [w Hw]. eauto.
    + intros o' w [[-> ->]|Hw]%Hcase; [simpl; by intros ->|eauto].
  - split; try done.
    + intros t th m Ht Hm. destruct (M1 _ _ _ Ht Hm) as (w & n & p & h & Hw & ?). exists w, n, p, h. split; [auto|done].
    + intros m w n p t [[-> ->]|Hw]%Hcase; [|eauto]. simpl. intros ->. by apply andb_true_iff in Hk as [_ ?%bool_decide_eq_true].
    + intros m w n p [[-> ->]|Hw]%Hcase; [|eauto]. simpl. intros ->. apply andb_true_iff in Hk as [Hn _]. by apply Z.eqb_eq.
  - intros t th o' Ht Hin. destruct (F _ _ _ Ht Hin) as (w & Hw & ?). eauto.
  - split; try done. intros t th Ht. destruct (R4 _ _ Ht) as (w & Hw & ?). eauto.
Qed.

Lemma with_timers_ok s tbl n : sys_ok s -> sys_ok (with_timers tbl n s).
Proof. intros [[[B1 [] [] B4] F] []]. by split; [split; [split|]|split]. Qed.

Lemma CreateTimer_ok s o r : sys_ok s -> objects s !! o = None -> sys_ok (Ops.CreateTimer o r s).
Proof. intros Hs Ho. unfold Ops.CreateTimer. cbv zeta. apply with_timers_ok. by apply add_object_ok. Qed.

Lemma CreateSemaphore_ok s o n max : sys_ok s -> objects s !! o = None ->
  exists r s', Ops.CreateSemaphore o n max s = Done (r, s') /\ sys_ok s' /\
    if n <=? max then r = ResultSuccess /\ objects s' = <[o := mk_wobj [] (KSemaphore max n)]> (objects s)
    else r = ResultInvalidCombinationKernel /\ s' = s.
Proof.
  intros Hs Ho. unfold Ops.CreateSemaphore. destruct (n <=? max); eexists _, _; split_and!; try done.
  by apply add_object_ok.
Qed.

(** A mutex is created free or locked by the running thread. *)
Lemma CreateMutex_ok s o locked m t th : sys_ok s -> objects s !! o = None ->
  managers s !! current_cpu s = Some m -> current_thread m = Some t -> threads s !! t = Some th ->
  exists s', Ops.CreateMutex o locked s = Done s' /\ sys_ok s'.
Proof.
  intros Hs Ho Hm Ht Hth. unfold Ops.CreateMutex. cbv zeta. set (s1 := add_object o _ s).
  assert (sys_ok s1) as H1 by by apply add_object_ok. destruct locked; [|by exists s1].
  unfold GetCurrentThread, the_manager. change (managers s1 !! current_cpu s1) with (managers s !! current_cpu s).
  rewrite Hm. cbn [of_opt mbind outcome_bind]. rewrite Ht. cbn [of_opt mbind outcome_bind].
  assert (objects s1 !! o = Some (mk_wobj [] (KMutex 0 0 None))) as Ho1 by apply lookup_insert_eq.
  destruct (Acquire_ok None s1 o _ t th (wf_base _ _ (so_wf _ H1)) Ho1 Hth) as (s2 & E & Ha).
  { unfold ShouldWait, the_object. by rewrite Ho1. }
  exists s2. split; [done|]. by eapply sys_acquired.
Qed.

(** ** New threads *)

Lemma queue_fresh v c q sp t x : queue_ok v c q sp -> v t = None ->
  (x.1.1 = c -> x.1.2 ≠ Ready /\ x.2 ∈ Tql.used sp) ->
  queue_ok (upd_view v t x) c q sp.
Proof.
  intros [H1 H2 H3 H4 H5] Hv Hx. split; try done.
  - intros p l t' Hl. rewrite (H4 p l t' Hl). unfold upd_view. case_decide; [|done]. subst. rewrite Hv.
    split; [done|]. intros [= ->]. by destruct (Hx eq_refl).
  - intros t' st p. unfold upd_view. case_decide; [|by apply H5]. intros [= ->]. by apply Hx.
Qed.

(** The processes may get more pages of thread local storage. *)
Definition more_pages (s s' : kern) : Prop := forall p n l, pfields <$> processes s !! p = Some (n, l) ->
  exists n', (n <= n')%nat /\ pfields <$> processes s' !! p = Some (n', l).

Lemma new_thread_ok s s' t th c q' sp' : sys_ok s -> threads s !! t = None -> objects s !! t = None ->
  threads s' = <[t := th]> (threads s) -> objects s' = <[t := mk_wobj [] KThread]> (objects s) ->
  wait_objects th = [] -> held_mutexes th = [] -> status th ≠ WaitSynchAll -> status th ≠ Running ->
  (nominal_priority th < 64)%nat -> core_id th = c -> (c < length (managers s))%nat ->
  (exists p n l, owner_process th = Some p /\ pfields <$> processes s' !! p = Some (n, Some l) /\
      u32 (tls_address th - TLS_AREA_VADDR) / TLS_PAGE_SIZE < Z.of_nat n) -> more_pages s s' ->
  (forall c' m', managers s' !! c' = Some m' -> if decide (c' = c) then ready_queue m' = q'
     else exists m, managers s !! c' = Some m /\ ready_queue m' = ready_queue m) ->
  queue_ok (upd_view (sched_of s) t (sched th)) c q' sp' ->
  current_thread <$> managers s' = current_thread <$> managers s -> clocks s' = clocks s -> arbiters s' = arbiters s -> sys_ok s'.
Proof.
  intros Hs Ht Ho Et Eo Hw Hh N1 N2 Hp Hc Hl Howner Hpages Hm Hq Ecur Ek Ea.
  pose proof Hs as [[[B1 [W1 W2 W3 W4 W5 W6] [M1 M2 M3 M4] B4] F] [R1 R2 R3 R4 R5 R6]].
  assert (forall t' th', threads s' !! t' = Some th' -> t' = t /\ th' = th \/ t' ≠ t /\ threads s !! t' = Some th') as Hcase.
  { intros t' th'. rewrite Et, lookup_insert_Some. naive_solver. }
  assert (forall o w, objects s' !! o = Some w -> o = t /\ w = mk_wobj [] KThread \/ objects s !! o = Some w) as Hobj.
  { intros o w. rewrite Eo, lookup_insert_Some. naive_solver. }
  assert (forall o w, objects s !! o = Some w -> objects s' !! o = Some w) as Hkeep.
  { intros o w Hw'. rewrite Eo, lookup_insert_ne; [done|]. intros ->. congruence. }
  assert (forall t' th', threads s !! t' = Some th' -> threads s' !! t' = Some th') as Hkt.
  { intros t' th' Ht'. rewrite Et, lookup_insert_ne; [done|]. intros ->. congruence. }
  assert (length (managers s') = length (managers s)) as El.
  { pose proof (f_equal length Ecur) as E. by rewrite !length_fmap in E. }
  split; [split; [split|]|].
  - intros c' m' Hm'. specialize (Hm c' m' Hm'). destruct (decide (c' = c)) as [->|Hne].
    + rewrite Hm. exists sp'. eapply queue_ok_ext; [|exact Hq]. intros t'. unfold sched_of, upd_view. rewrite Et.
      case_decide; subst; [by rewrite lookup_insert_eq|by rewrite lookup_insert_ne].
    + destruct Hm as (m & Hm & ->). destruct (B1 _ _ Hm) as [sp Hsp]. exists sp.
      eapply queue_ok_ext; [|apply (queue_fresh _ _ _ _ t (sched th) Hsp); [by unfold sched_of; rewrite Ht|simpl; congruence]].
      intros t'. unfold sched_of at 1, upd_view. rewrite Et. case_decide; subst; [by rewrite lookup_insert_eq|by rewrite lookup_insert_ne].
  - split.
    + intros o w t' [[-> ->]|Ho']%Hobj Hin; [by apply not_elem_of_nil in Hin|].
      destruct (W1 _ _ _ Ho' Hin) as (th' & ? & ?). eauto.
    + intros o w [[-> ->]|Ho']%Hobj; [constructor|eauto].
    + intros t' th' o [[-> ->]|[_ Ht']]%Hcase Hin; [rewrite Hw in Hin; by apply not_elem_of_nil in Hin|].
      destruct (W3 _ _ _ Ht' Hin) as [w ?]. eauto.
    + intros t' th' [[-> ->]|[_ Ht']]%Hcase; [done|eauto].
    + intros t' th' [[-> ->]|[_ Ht']]%Hcase; [done|eauto].
    + intros o w [[-> ->]|Ho']%Hobj Hk; [rewrite Et, lookup_insert_eq; eauto|]. destruct (W6 _ _ Ho' Hk) as [th' ?]. eauto.
  - split.
    + intros t' th' m [[-> ->]|[_ Ht']]%Hcase Hin; [rewrite Hh in Hin; by apply not_elem_of_nil in Hin|].
      destruct (M1 _ _ _ Ht' Hin) as (w & n & p & h & Hw' & ?). exists w, n, p, h. split; [auto|done].
    + intros m w n p h [[-> ->]|Ho']%Hobj Hk; [done|]. destruct (M2 _ _ _ _ _ Ho' Hk) as (? & th' & ? & ?). eauto.
    + intros m w n p [[-> ->]|Ho']%Hobj; [done|eauto].
    + intros t' th' [[-> ->]|[_ Ht']]%Hcase; [rewrite Hh; constructor|eauto].
  - intros t' th' [[-> ->]|[_ Ht']]%Hcase; rewrite El; [by rewrite Hc|eauto].
  - intros t' th' o [[-> ->]|[_ Ht']]%Hcase Hin; [rewrite Hw in Hin; by apply not_elem_of_nil in Hin|].
    destruct (F _ _ _ Ht' Hin) as (w & ? & ?). eauto.
  - split.
    + intros c' m' t' Hm' Hcu. pose proof (f_equal (fun l => l !! c') Ecur) as E. simpl in E.
      rewrite !list_lookup_fmap, Hm' in E. destruct (managers s !! c') as [m|] eqn:Em; [|done]. injection E as E.
      rewrite E in Hcu. destruct (R1 _ _ _ Em Hcu) as (th' & ? & ?). eauto.
    + intros t' th' [[-> ->]|[_ Ht']]%Hcase Hst; [done|]. rewrite current_lookup, Ecur, <- current_lookup. eauto.
    + intros t' th' [[-> ->]|[_ Ht']]%Hcase Hst; [exact Howner|].
      destruct (R3 _ _ Ht' Hst) as (p & n & l & Hpo & Hpf & Hlt). destruct (Hpages _ _ _ Hpf) as (n' & Hle & Hpf').
      exists p, n', l. split_and!; [done|done|lia].
    + intros t' th' [[-> ->]|[_ Ht']]%Hcase; [rewrite Eo, lookup_insert_eq; eauto|]. destruct (R4 _ _ Ht') as (w & ? & ?). eauto.
    + unfold clocks in Ek. injection Ek as -> ->. by rewrite El.
    + intros a l t' Ha Hin. rewrite Ea in Ha. destruct (R6 _ _ _ Ha Hin) as [th' ?]. eauto.
Qed.

(** A slot of thread local storage can be had. *)
Definition tls_available (page_available : kern -> Z -> bool) (s : kern) (p : Z) : Prop :=
  exists pr, processes s !! p = Some pr /\ is_Some (resource_limit pr) /\ Z.of_nat (length (tls_slots pr)) < 2 ^ 16 - 1 /\
    Tls.full_pages (tls_slots pr) /\ (is_Some (Tls.find_slot (tls_slots pr) 0) \/ page_available s p = true).

Lemma process_upd p f s p' : processes (upd_process p f s) !! p' =
  if decide (p' = p) then f <$> processes s !! p else processes s !! p'.
Proof.
  unfold upd_process. simpl. destruct (decide (p' = p)) as [->|]; [apply lookup_alter_eq|by apply lookup_alter_ne].
Qed.

Lemma alloc_tls_ok page_available s p : tls_available page_available s p ->
  exists pr x y, processes s !! p = Some pr /\
    let slots := if decide (x < length (tls_slots pr))%nat then tls_slots pr else tls_slots pr ++ [Tls.new_page] in
    AllocateThreadLocalStorage page_available p s =
      Done (Val (Tls.address x y), upd_process p (set_tls_slots (Tls.mark x y true slots)) s) /\
    (x < length slots)%nat /\ ~ Tls.used (tls_slots pr) x y /\ (y < Tls.slots_per_page)%nat /\
    Tls.page_of (Tls.address x y) = Z.of_nat x.
Proof.
  intros (pr & Hpr & _ & Hlen & Hfull & Hav). exists pr. unfold AllocateThreadLocalStorage, lift, the_process.
  rewrite Hpr. cbn [of_opt mbind outcome_bind]. destruct (Tls.find_slot (tls_slots pr) 0) as [[x y]|] eqn:Ef.
  - destruct (Tls.find_slot_some _ _ _ _ Ef) as (page & _ & Hp & Hy). rewrite Nat.sub_0_r in Hp.
    pose proof (lookup_lt_Some _ _ _ Hp) as Hx. pose proof (lookup_lt_Some _ _ _ Hy) as Hyl.
    rewrite (Hfull page) in Hyl by (by eapply list_elem_of_lookup_2).
    exists x, y. split; [done|]. cbv zeta. rewrite decide_True by done. split_and!; [done|done| |done|].
    + intros (page' & Hp' & Hy'). congruence.
    + apply Tls.page_slot_address; [lia|done].
  - destruct Hav as [[? ?]|Hav]; [done|]. rewrite Hav. exists (length (tls_slots pr)), 0%nat. split; [done|].
    cbv zeta. rewrite decide_False by lia. split_and!; [done|rewrite length_app; simpl; lia| |unfold Tls.slots_per_page; lia|].
    + intros (page' & Hp' & _). by apply lookup_lt_Some in Hp'; apply Nat.lt_irrefl in Hp'.
    + apply Tls.page_slot_address; [lia|unfold Tls.slots_per_page; lia].
Qed.

Lemma pfields_alter p q f (m : gmap Z process) : pfields <$> alter f p m !! q =
  if decide (q = p) then (fun x => pfields (f x)) <$> m !! p else pfields <$> m !! q.
Proof.
  destruct (decide (q = p)) as [->|]; [rewrite lookup_alter_eq; by destruct (m !! p)|by rewrite lookup_alter_ne].
Qed.

Lemma add_thread_eq s t junk priority pid p : 0 <= pid -> sys_ok s -> (Z.to_nat pid < length (managers s))%nat ->
  (priority < 64)%nat -> threads s !! t = None ->
  exists tm q1 sp1 F, Timing.timers (timing s) !! Z.to_nat pid = Some tm /\
  let th := new_thread (next_thread_id s) pid priority (Timing.GetTicks tm) p junk in
  exists s1, add_thread t junk priority pid p s = Done s1 /\ threads s1 = <[t := th]> (threads s) /\
    objects s1 = <[t := mk_wobj [] KThread]> (objects s) /\ managers s1 = managers (upd_manager (Z.to_nat pid) F s) /\
    (forall m, managers s !! Z.to_nat pid = Some m -> ready_queue (F m) = q1) /\ (forall m, current_thread (F m) = current_thread m) /\
    queue_ok (upd_view (sched_of s) t (Z.to_nat pid, Dormant, priority)) (Z.to_nat pid) q1 sp1 /\ priority ∈ Tql.used sp1 /\
    processes s1 = processes s /\ timing s1 = timing s /\ arbiters s1 = arbiters s /\ current_process s1 = current_process s /\
    current_cpu s1 = current_cpu s /\ limits s1 = limits s.
Proof.
  intros Hpid Hs Hc Hp Ht. set (c := Z.to_nat pid) in *. pose proof (so_clock _ (so_rest _ Hs)) as [_ Hcl].
  destruct (in_range_lookup (Timing.timers (timing s)) c ltac:(lia)) as [tm Htm].
  destruct (in_range_lookup _ _ Hc) as [m Hm]. destruct (b_q _ _ (wf_base _ _ (so_wf _ Hs)) c m Hm) as [sp Hsp].
  destruct (prepare_ok _ _ _ _ priority Hsp Hp) as (q1 & sp1 & Eq & Hq1 & Hu).
  exists tm, q1, sp1, (fun m => set_table (<[next_thread_id s := t]> (wakeup_callback_table m)) (set_ready q1 (set_thread_list (thread_list m ++ [t]) m))).
  split; [done|]. cbv zeta. unfold add_thread. cbv zeta. fold c. rewrite Htm. destruct (Z.leb_spec 0 pid); [|lia].
  cbn [of_opt mbind outcome_bind].
  set (s0 := upd_manager c (fun m => set_thread_list (thread_list m ++ [t]) m) s).
  assert (managers s0 !! c = Some (set_thread_list (thread_list m ++ [t]) m)) as Hm0
    by exact (upd_manager_lookup c (fun m => set_thread_list (thread_list m ++ [t]) m) s m Hm).
  rewrite (on_queue_ok c _ s0 _ q1 Hm0 Eq). cbn [mbind outcome_bind]. eexists. split; [done|].
  split_and!; try done.
  - change (managers (upd_manager c (fun m => set_table (<[next_thread_id s := t]> (wakeup_callback_table m)) m)
      (upd_manager c (set_ready q1) s0)) = managers (upd_manager c (fun m => set_table (<[next_thread_id s := t]>
        (wakeup_callback_table m)) (set_ready q1 (set_thread_list (thread_list m ++ [t]) m))) s)).
    unfold s0. by rewrite !upd_manager_twice.
  - apply queue_fresh; [done|by unfold sched_of; rewrite Ht|]. intros _. by split.
Qed.

(** What [CreateThread_] does with valid arguments: a new thread, dormant or
    ready, with a slot of thread local storage nobody uses. *)
Lemma CreateThread_ok page_available s t junk valid entry priority arg pid stack p (make_ready : bool) pr :
  sys_ok s -> threads s !! t = None -> objects s !! t = None -> 0 <= priority <= 63 -> 0 <= pid <= ThreadProcessorIdMax ->
  (Z.to_nat pid < length (managers s))%nat -> valid entry = true ->
  (forall s', processes s' = processes s -> tls_available page_available s' p) -> processes s !! p = Some pr ->
  exists s' th x y, CreateThread_ page_available t junk valid entry priority arg pid stack p make_ready s = Done (Val t, s') /\
    sys_ok s' /\ threads s' = <[t := th]> (threads s) /\ status th = (if make_ready then Ready else Dormant) /\
    current_priority th = Z.to_nat priority /\ core_id th = Z.to_nat pid /\ owner_process th = Some p /\
    tls_address th = Tls.address x y /\ ~ Tls.used (tls_slots pr) x y /\ (y < Tls.slots_per_page)%nat /\
    exists pr', processes s' !! p = Some pr' /\ Tls.used (tls_slots pr') x y.
Proof.
  intros Hs Ht Ho Hp Hpid Hc Hv Htls Hpr. set (c := Z.to_nat pid) in *.
  destruct (add_thread_eq s t junk (Z.to_nat priority) pid p ltac:(lia) Hs Hc ltac:(lia) Ht)
    as (tm & q1 & sp1 & F & Htm & s1 & E1 & T1 & O1 & M1 & F1 & F2 & Q1 & U1 & P1 & K1 & A1 & CP1 & CC1 & L1).
  fold c in M1, F1, Q1. set (th0 := new_thread _ _ _ _ _ _) in T1.
  destruct (alloc_tls_ok page_available s1 p (Htls s1 P1)) as (pr0 & x & y & Hpr0 & E2 & Hx & Hnu & Hy & Hpage).
  cbv zeta in E2, Hx. rewrite P1, Hpr in Hpr0. injection Hpr0 as <-.
  set (slots := if decide _ then tls_slots pr else _) in *. set (s2 := upd_process p _ s1) in E2.
  set (th1 := set_ctx (ResetThreadContext stack entry arg (ctx th0)) (set_tls_address (Tls.address x y) th0)).
  set (s3 := upd_thread t (fun th => set_ctx (ResetThreadContext stack entry arg (ctx th)) th)
               (upd_thread t (set_tls_address (Tls.address x y)) s2)).
  assert (threads s3 = <[t := th1]> (threads s)) as T3.
  { change (threads s3) with (alter (fun th => set_ctx (ResetThreadContext stack entry arg (ctx th)) th) t
      (alter (set_tls_address (Tls.address x y)) t (threads s1))). rewrite T1.
    by rewrite !(alter_insert_eq _ _ _ _ (lookup_insert_eq _ _ _)), !insert_insert_eq. }
  assert (exists s4 th F' q' sp', (if make_ready then start_thread c t s3 else Done s3) = Done s4 /\
    th = (if make_ready then set_status Ready th1 else th1) /\ threads s4 = <[t := th]> (threads s) /\
    objects s4 = objects s1 /\ processes s4 = processes s2 /\ timing s4 = timing s1 /\ arbiters s4 = arbiters s1 /\
    managers s4 = managers (upd_manager c F' s) /\ (forall m, managers s !! c = Some m -> ready_queue (F' m) = q') /\
    (forall m, current_thread (F' m) = current_thread m) /\ queue_ok (upd_view (sched_of s) t (sched th)) c q' sp')
    as (s4 & th & F' & q' & sp' & E4 & Eth & T4 & O4 & P4 & K4 & A4 & M4 & F1' & F2' & Q4).
  { destruct make_ready; [|by exists s3, th1, F, q1, sp1].
    destruct (in_range_lookup _ _ Hc) as [m Hm].
    destruct (queue_push false _ _ _ _ t Dormant (Z.to_nat priority) (Z.to_nat priority) Q1 (upd_view_same _ _ _) ltac:(done) U1)
      as (q2 & sp2 & E & Q2 & _). simpl in E.
    assert (managers s3 !! c = Some (F m)) as Hm3 by (change (managers s3) with (managers s1); rewrite M1; by apply upd_manager_lookup).
    unfold start_thread, the_thread. rewrite T3, lookup_insert_eq. cbn [of_opt mbind outcome_bind].
    rewrite (on_queue_ok c _ s3 (F m) q2 Hm3) by by rewrite (F1 m Hm). cbn [mbind outcome_bind].
    eexists _, (set_status Ready th1), (set_ready q2 ∘ F), q2, sp2. split; [done|]. split; [done|]. split_and!; try done.
    - change (alter (set_status Ready) t (threads s3) = <[t := set_status Ready th1]> (threads s)).
      rewrite T3, (alter_insert_eq _ _ _ _ (lookup_insert_eq _ _ _)). by rewrite insert_insert_eq.
    - change (managers (upd_manager c (set_ready q2) s3) = managers (upd_manager c (set_ready q2 ∘ F) s)).
      rewrite <- upd_manager_twice. unfold upd_manager at 1 2. simpl. change (managers s3) with (managers s1). by rewrite M1.
    - eapply queue_ok_ext; [|exact Q2]. intros t'. by rewrite upd_view_twice. }
  assert (exists pr', processes s4 !! p = Some pr' /\ tls_slots pr' = Tls.mark x y true slots /\ resource_limit pr' = resource_limit pr)
    as (pr' & Hpr' & Sl' & Lim').
  { rewrite P4. unfold s2. rewrite process_upd, decide_True, P1, Hpr by done. eexists. by split_and!. }
  assert (is_Some (resource_limit pr)) as [lim Hlim].
  { destruct (Htls s eq_refl) as (pr0 & Hpr0 & ? & _). rewrite Hpr in Hpr0. by injection Hpr0 as <-. }
  assert (core_id th1 = c) as Hcore by done.
  assert (sys_ok s4) as H4.
  { eapply (new_thread_ok s s4 t th c q' sp'); try done.
    - by rewrite O4, O1. - by rewrite Eth; destruct make_ready. - by rewrite Eth; destruct make_ready.
    - by rewrite Eth; destruct make_ready. - by rewrite Eth; destruct make_ready.
    - rewrite Eth. destruct make_ready; simpl; lia.
    - by rewrite Eth; destruct make_ready.
    - exists p, (length slots), lim. split_and!.
      + by rewrite Eth; destruct make_ready.
      + rewrite Hpr'. simpl. unfold pfields. rewrite Sl', Lim', Hlim. unfold Tls.mark. by rewrite length_alter.
      + replace (tls_address th) with (Tls.address x y) by by rewrite Eth; destruct make_ready.
        unfold Tls.page_of in Hpage. rewrite Hpage. lia.
    - intros p' n l Hpf. rewrite P4. unfold s2. change (processes (upd_process p ?f s1)) with (alter f p (processes s1)).
      rewrite pfields_alter, P1. case_decide; [|by exists n]. subst p'. rewrite Hpr in Hpf |- *. simpl in *.
      unfold pfields in *. injection Hpf as <- <-. simpl. unfold Tls.mark. rewrite length_alter.
      exists (length slots). split; [|done]. unfold slots. case_decide; [done|]. rewrite length_app. lia.
    - intros c' m'. rewrite M4. intros [[-> (m0 & Hm0 & ->)]|[Hne Hm']]%other_managers.
      + rewrite decide_True by done. eauto.
      + rewrite decide_False by done. eauto.
    - rewrite M4. by apply current_upd.
    - unfold clocks. by rewrite K4, K1.
    - by rewrite A4. }
  exists s4, th, x, y. split_and!; try done; try (by rewrite Eth; destruct make_ready).
  - unfold CreateThread_, mbind at 1 2 3 4 5 6 7, svc_bind, r_unless, run, modify.
    destruct (Z.ltb_spec (Z.of_nat ThreadPrioLowest) priority); [unfold ThreadPrioLowest in *; lia|].
    destruct (Z.ltb_spec ThreadProcessorIdMax pid); [lia|]. rewrite Hv. cbn [negb]. cbn [mbind outcome_bind].
    rewrite E1. cbn [mbind outcome_bind]. rewrite E2. cbn [mbind outcome_bind]. fold s3. fold c.
    unfold mbind at 1, svc_bind. destruct make_ready; [rewrite E4; done|]. injection E4 as <-. done.
  - exists pr'. split; [done|]. rewrite Sl'. destruct (in_range_lookup slots x Hx) as [page Hpg].
    apply (Tls.mark_used _ _ _ _ _ _ page Hpg); [|by rewrite decide_True].
    assert (length page = Tls.slots_per_page) as ->; [|done].
    destruct (Htls s eq_refl) as (pr0 & Hpr0 & _ & _ & Hfull & _). rewrite Hpr in Hpr0. injection Hpr0 as <-.
    apply list_elem_of_lookup_2 in Hpg. unfold slots in Hpg. case_decide; [by apply Hfull|].
    apply elem_of_app in Hpg as [?| ->%list_elem_of_singleton]; [by apply Hfull|done].
Qed.

(** ** Priorities *)

(** Changing the priorities of a thread. *)
Lemma nominal_ok s s' t th p c q' sp' : sys_ok s -> threads s !! t = Some th -> (p < 64)%nat -> core_id th = c ->
  threads s' = <[t := set_nominal_priority p (set_current_priority p th)]> (threads s) ->
  managers s' = managers (upd_manager c (set_ready q') s) -> objects s' = objects s -> processes s' = processes s ->
  clocks s' = clocks s -> arbiters s' = arbiters s -> queue_ok (upd_view (sched_of s) t (c, status th, p)) c q' sp' -> sys_ok s'.
Proof.
  intros Hs Hth Hp Hc Et Em Eo Ep Ek Ea Hq. pose proof Hs as [[[B1 [W1 W2 W3 W4 W5 W6] B3 B4] F] R].
  set (th' := set_nominal_priority p (set_current_priority p th)) in *.
  assert (forall t0 th0, threads s' !! t0 = Some th0 -> t0 = t /\ th0 = th' \/ t0 ≠ t /\ threads s !! t0 = Some th0) as Hcase.
  { intros t0 th0. rewrite Et, lookup_insert_Some. naive_solver. }
  assert (forall t0, is_Some (threads s !! t0) -> is_Some (threads s' !! t0)) as Hsome.
  { intros t0 Ht0. rewrite Et. apply lookup_insert_is_Some'. by right. }
  assert (length (managers s') = length (managers s)) as El by (rewrite Em; apply length_alter).
  destruct (manager_of s t th (b_d _ _ (wf_base _ _ (so_wf _ Hs))) Hth) as [m Hm]. rewrite Hc in Hm.
  split; [split; [split|]|].
  - eapply (q_ok_step s s' t th (c, status th, p) q' sp' B1 Hth); [done| | |by rewrite Hc].
    + intros c' m'. rewrite Em, Hc. by apply (managers_upd c q' s m).
    + intros t'. unfold sched_of, upd_view. rewrite Et. case_decide; subst; [|by rewrite lookup_insert_ne].
      by rewrite lookup_insert_eq.
  - split; rewrite ?Eo; try done.
    + intros o w t0 Ho Hin. destruct (W1 _ _ _ Ho Hin) as (th0 & Ht0 & Hin0). rewrite Et.
      destruct (decide (t0 = t)) as [->|]; [rewrite lookup_insert_eq|rewrite lookup_insert_ne by done; eauto].
      rewrite Hth in Ht0. injection Ht0 as <-. by eexists.
    + intros t0 th0 o [[-> ->]|[_ Ht0]]%Hcase; [by apply (W3 t th)|by eapply W3].
    + intros t0 th0 [[-> ->]|[_ Ht0]]%Hcase; [by apply (W4 t th)|by eapply W4].
    + intros t0 th0 [[-> ->]|[_ Ht0]]%Hcase; [by apply (W5 t th)|by eapply W5].
    + intros o w Ho Hk. apply Hsome. eauto.
  - eapply m_ok_threads; [done|done|]. rewrite Et, fmap_insert. apply insert_id. by rewrite lookup_fmap, Hth.
  - intros t0 th0 Ht0. rewrite El. apply Hcase in Ht0 as [[-> ->]|[_ Ht0]]; [|eauto].
    split; [done|]. by destruct (B4 t th Hth).
  - intros t0 th0 o Ht0. rewrite Eo. apply Hcase in Ht0 as [[-> ->]|[_ Ht0]]; [by apply (F t th)|by apply (F t0 th0)].
  - apply (rest_thread s s' t th th'); try done.
    + intros o w. rewrite Eo. eauto.
    + rewrite Em. by apply current_upd.
    + by rewrite Ep.
    + rewrite Ea. apply (so_arbiters _ R).
Qed.

Lemma SetPriority_ok s t th p : sys_ok s -> threads s !! t = Some th -> (p < 64)%nat ->
  exists s', SetPriority t p s = Done s' /\ sys_ok s' /\ objects s' = objects s /\
    threads s' = <[t := set_nominal_priority p (set_current_priority p th)]> (threads s).
Proof.
  intros Hs Hth Hp. pose proof (wf_base _ _ (so_wf _ Hs)) as Hb. unfold SetPriority.
  assert ((p <=? ThreadPrioLowest) && (ThreadPrioHighest <=? p) = true)%nat as ->.
  { apply andb_true_iff. split; apply Nat.leb_le; unfold ThreadPrioLowest, ThreadPrioHighest; lia. }
  unfold the_thread. rewrite Hth. cbn [of_opt assert_ mbind outcome_bind].
  destruct (requeue_ok s t th p (b_d _ _ Hb) (b_q _ _ Hb) Hth Hp) as (q' & sp' & -> & Hq). cbn [mbind outcome_bind].
  eexists. split; [done|]. assert (threads (upd_thread t (fun th => set_nominal_priority p (set_current_priority p th))
    (upd_manager (core_id th) (set_ready q') s)) = <[t := set_nominal_priority p (set_current_priority p th)]> (threads s)) as Et
    by exact (alter_insert_eq (fun th => set_nominal_priority p (set_current_priority p th)) t (threads s) th Hth).
  split_and!; [|done|exact Et]. by eapply (nominal_ok s _ t th p (core_id th) q' sp').
Qed.

Lemma sys_UpdatePriority s t th : sys_ok s -> threads s !! t = Some th ->
  exists s', UpdatePriority t s = Done s' /\ sys_ok s' /\ prio_eq s s'.
Proof.
  intros Hs Hth. pose proof (wf_base _ _ (so_wf _ Hs)) as Hb.
  destruct (UpdatePriority_ok s t th (b_d _ _ Hb) (b_q _ _ Hb) Hth) as (s' & E & Hq & He & _).
  exists s'. split_and!; [done|by eapply sys_prio|done].
Qed.

Lemma update_mutexes_ok ms : forall s, sys_ok s -> (forall m, m ∈ ms -> is_Some (objects s !! m)) ->
  exists s', update_mutexes ms s = Done s' /\ sys_ok s' /\ prio_eq s s'.
Proof.
  induction ms as [|m ms IH]; intros s Hs Hms; cbn [update_mutexes]; [by exists s|].
  destruct (Hms m ltac:(left)) as [w Hw]. pose proof (wf_base _ _ (so_wf _ Hs)) as Hb.
  destruct (Mutex_UpdatePriority_ok s m w (b_d _ _ Hb) (b_q _ _ Hb) Hw) as (s1 & -> & Hq & He). cbn [mbind outcome_bind].
  destruct (IH s1) as (s2 & -> & H2 & He2); [by eapply sys_prio| |].
  - intros m' Hm'. destruct (Hms m' ltac:(by right)) as [w' Hw']. destruct (pe_object _ _ _ _ He Hw') as (w2 & ? & _). eauto.
  - exists s2. split_and!; [done|done|by etrans].
Qed.

(** The end of [SetThreadPriority]. *)
Definition set_thread_priority (t : Z) (p : nat) (s : kern) : outcome kern :=
  s ← SetPriority t p s; s ← UpdatePriority t s; th ← the_thread t s; update_mutexes (pending_mutexes th) s.

(** ** Ending the running thread, changing the running CPU *)

Lemma thread_list_ok c f s : sys_ok s -> sys_ok (upd_manager c (fun m => set_thread_list (f m) m) s).
Proof.
  intros Hs. assert (runs s (upd_manager c (fun m => set_thread_list (f m) m) s)) as Hr.
  { apply sw_runs. split; try done. by apply current_upd. }
  eapply sys_runs; [|exact Hr|done]. pose proof (so_wf _ Hs) as [[H1 H2 H3 H4] H5].
  split; [split|]; [|by destruct H2|by destruct H3| |exact H5].
  - eapply q_ok_same; [exact H1| |done]. intros c' m' [[-> (m & ? & ->)]|[_ ?]]%other_managers; eauto.
  - intros t th Ht. unfold upd_manager. simpl. rewrite length_alter. by apply (H4 t th).
Qed.

Lemma ExitCurrentThread_ok other_wakeup s t th :
  (forall n r t o s, exists s', other_wakeup n r t o s = Done s' /\ quiet s s') ->
  sys_ok s -> threads s !! t = Some th -> status th = Running ->
  exists s', ExitCurrentThread other_wakeup (core_id th) s = Done s' /\ sys_ok s' /\ stopped t s'.
Proof.
  intros Hother Hs Hth Hr. destruct (current_thread_ok s t th Hs Hth Hr) as (m & Hm & Hc).
  unfold ExitCurrentThread, the_manager. rewrite Hm. cbn [of_opt mbind outcome_bind]. rewrite Hc. cbn [of_opt mbind outcome_bind].
  destruct (Thread_Stop_ok other_wakeup Hother s t th Hs Hth) as (s1 & -> & H1 & [Hst _ _ _]).
  { by rewrite Hr. }
  { intros w Hw. eapply (no_waiting s t th); [apply Hs|done|by eapply run_thread|done]. }
  cbn [mbind outcome_bind]. eexists. split; [done|]. split; [|exact Hst]. apply resched_ok.
  by apply (thread_list_ok (core_id th) (fun m => filter (fun x => x ≠ t) (thread_list m))).
Qed.

Lemma SetRunningCPU_ok c s : sys_ok s -> (c < length (managers s))%nat ->
  (c < length (stored_processes s))%nat -> exists s', SetRunningCPU c s = Done s' /\ sys_ok s' /\
    current_cpu s' = c /\ threads s' = threads s /\ objects s' = objects s.
Proof.
  intros Hs Hc Hst. unfold SetRunningCPU. cbv zeta.
  set (s1 := match current_process s with Some p => _ | None => s end).
  assert (sys_ok s1 /\ threads s1 = threads s /\ objects s1 = objects s /\ managers s1 = managers s /\ timing s1 = timing s /\
    length (stored_processes s1) = length (stored_processes s)) as (H1 & E1 & E2 & E3 & E4 & E5).
  { unfold s1. destruct (current_process s); [|done]. split_and!; try done; [|simpl; by rewrite length_insert].
    destruct Hs as [[[B1 [] [] B4] F] []]. by split; [split; [split|]|split]. }
  unfold Timing.SetCurrentTimer. simpl. rewrite E4.
  pose proof (so_clock _ (so_rest _ Hs)) as [_ Hcl].
  destruct (in_range_lookup (Timing.timers (timing s)) c ltac:(lia)) as [tm Htm]. rewrite Htm. cbn [of_opt mbind outcome_bind].
  destruct (in_range_lookup (stored_processes s1) c ltac:(lia)) as [p Hp].
  change (stored_processes (with_timing ?x (with_current_cpu c s1))) with (stored_processes s1). rewrite Hp. cbn [of_opt mbind outcome_bind].
  eexists. split; [done|]. destruct H1 as [[[B1 [] [] B4] F] [R1 R2 R3 R4 R5 R6]].
  assert (length (managers s1) = length (Timing.timers (timing s))) as Hl by congruence.
  assert ((c < length (Timing.timers (timing s)))%nat) by lia.
  destruct p; split_and!; try done; by split; [split; [split|]|split].
Qed.

(** ** The start *)

Lemma register_ok ty cb (tm : Timing.timing ev_cb) : Timing.timers (Timing.RegisterEvent ty cb tm) = Timing.timers tm /\
  Timing.current_timer (Timing.RegisterEvent ty cb tm) = Timing.current_timer tm.
Proof. done. Qed.

Lemma register_cores cs (tm : Timing.timing ev_cb) :
  Timing.timers (foldl (fun tm c => register_manager c tm) tm cs) = Timing.timers tm /\
  Timing.current_timer (foldl (fun tm c => register_manager c tm) tm cs) = Timing.current_timer tm.
Proof. revert tm. induction cs as [|c cs IH]; intros tm; [done|]. simpl. by destruct (IH (register_manager c tm)) as [-> ->]. Qed.

(** The kernel once processes are loaded; nothing runs yet. *)
Definition booted (num_cores : nat) (is_new_3ds : bool) (app_mem_alloc : Z) (ctx : context)
    (tm : Timing.timing ev_cb) (ps : gmap Z process) : kern :=
  with_processes ps (new_kernel num_cores is_new_3ds app_mem_alloc ctx tm).

Lemma booted_ok n is_new app ctx tm ps : length (Timing.timers tm) = n -> (Timing.current_timer tm < n)%nat ->
  sys_ok (booted n is_new app ctx tm ps).
Proof.
  intros Hn Hc. set (b := booted n is_new app ctx tm ps).
  assert (forall t th, threads b !! t = Some th -> False) as Ht by (intros t th; simpl; by rewrite lookup_empty).
  assert (forall o w, objects b !! o = Some w -> False) as Ho by (intros o w; simpl; by rewrite lookup_empty).
  assert (forall a l, arbiters b !! a = Some l -> False) as Ha by (intros a l; simpl; by rewrite lookup_empty).
  split; [split; [split|]|].
  - intros c m Hm. apply lookup_replicate in Hm as [-> _]. exists (Tql.mk_spec (replicate 64 []) ∅). split.
    + apply (Tql.rep_init 64). + done.
    + intros p l [-> _]%lookup_replicate. constructor.
    + intros p l t [-> _]%lookup_replicate. split; [by intros ?%not_elem_of_nil|]. unfold sched_of. simpl. by rewrite lookup_empty.
    + intros t st p. unfold sched_of. simpl. by rewrite lookup_empty.
  - split; intros; exfalso; eauto.
  - split; intros; exfalso; eauto.
  - intros t th H. exfalso. eauto.
  - intros t th o H. exfalso. eauto.
  - split; try (intros; exfalso; eauto; fail).
    + intros c m t Hm. apply lookup_replicate in Hm as [-> _]. done.
    + assert (timing b =
        register_timers (foldl (fun tm c => register_manager c tm) tm (seq 0 n))) as -> by done.
      unfold register_timers. destruct (register_ok timer_callback_event_type (Some EvTimer) (foldl (fun tm c => register_manager c tm) tm (seq 0 n))) as [-> ->].
      destruct (register_cores (seq 0 n) tm) as [-> ->]. split; [lia|]. unfold booted, new_kernel. simpl. by rewrite length_replicate.
Qed.

(** ** The events of a running kernel *)

(** System calls of the running thread [t] on objects found by their handles,
    timer and time-out events, and the scheduler. *)
Inductive act :=
| AWait (t o nano_seconds : Z)
| AWaitAny (t : Z) (os : list Z) (nano_seconds : Z)
| AWaitAll (t : Z) (os : list Z) (nano_seconds : Z)
| ASleep (t nano_seconds : Z)
| AArbitrate (a t type address value nano_seconds word : Z)
| ASignalEvent (o : Z) | AClearEvent (o : Z)
| AReleaseSemaphore (o count : Z)
| AReleaseMutex (m t : Z)
| ASetTimer (o initial interval : Z) | ACancelTimer (o : Z) | AClearTimer (o : Z)
| ATimerFires (callback_id cycles_late : Z)
| ATimeout (core : nat) (id : Z)
| ASetPriority (t : Z) (priority : nat)
| AExit (t : Z)
| AReschedule (core : nat)
| ASetRunningCPU (core : nat)
| ACreateEvent (o : Z) (r : reset_type)
| ACreateSemaphore (o initial max : Z)
| ACreateMutex (o : Z) (locked : bool)
| ACreateTimer (o : Z) (r : reset_type)
| ACreateAddressArbiter (a : Z)
| ACreateThread (t junk : Z) (entry_point priority arg pid stack_top owner : Z) (make_ready : bool).

Section Running.
Context (other_wakeup : Z -> wakeup_reason -> Z -> option Z -> kern -> outcome kern).
Context (valid : Z -> bool) (page_available : kern -> Z -> bool).

(** The state a handler leaves, whatever it returns. *)
Definition state {A} (r : outcome (A * kern)) : outcome kern := '(_, s) ← r; Done s.

Definition exec (a : act) (s : kern) : outcome kern :=
  match a with
  | AWait t o ns => state (wait_one o t ns s)
  | AWaitAny t os ns => state (wait_any os t ns s)
  | AWaitAll t os ns => state (wait_all os t ns s)
  | ASleep t ns =>
      th ← the_thread t s; s ← WaitCurrentThread_Sleep (core_id th) s; s ← WakeAfterDelay t ns false s; Done (PrepareReschedule s)
  | AArbitrate a t ty addr v ns w => state (Ops.ArbitrateAddress a t ty addr v ns w s)
  | ASignalEvent o => Event_Signal other_wakeup o s
  | AClearEvent o => Event_Clear o s
  | AReleaseSemaphore o n => state (Semaphore_Release other_wakeup o n s)
  | AReleaseMutex m t => state (Mutex_Release other_wakeup m t s)
  | ASetTimer o i n => Timer_Set other_wakeup o i n s
  | ACancelTimer o => Timer_Cancel o s
  | AClearTimer o => Timer_Clear o s
  | ATimerFires id late => TimerCallback other_wakeup id late s
  | ATimeout c id => ThreadWakeupCallback other_wakeup c id s
  | ASetPriority t p => set_thread_priority t p s
  | AExit t => th ← the_thread t s; ExitCurrentThread other_wakeup (core_id th) s
  | AReschedule c => Reschedule c s
  | ASetRunningCPU c => SetRunningCPU c s
  | ACreateEvent o r => Done (Ops.CreateEvent o r s)
  | ACreateSemaphore o n max => state (Ops.CreateSemaphore o n max s)
  | ACreateMutex o locked => Ops.CreateMutex o locked s
  | ACreateTimer o r => Done (Ops.CreateTimer o r s)
  | ACreateAddressArbiter a => Done (Ops.CreateAddressArbiter a s)
  | ACreateThread t junk e p arg pid stack owner ready =>
      state (CreateThread_ page_available t junk valid e p arg pid stack owner ready s)
  end.

Definition runs_now (t : Z) (s : kern) : Prop := exists th, threads s !! t = Some th /\ status th = Running.
Definition exists_in (s : kern) (os : list Z) : Prop := forall o, o ∈ os -> is_Some (objects s !! o).
Definition of_kind (f : kind -> bool) (o : Z) (s : kern) : Prop := exists w, objects s !! o = Some w /\ f (kind_of w) = true.
Definition is_new (o : Z) (s : kern) : Prop := objects s !! o = None /\ threads s !! o = None.

(** When an event can happen: handles name existing objects of the right kind,
    waiting is done by the running thread, new objects have new addresses, and
    time-outs and timers are those of waiting threads and existing timers.  A
    wait for all objects of a list has no object twice in it, although the call
    accepts one: see [KernelTheorems.KT.duplicate_wait_all_stops].  A thread is
    created on a core there is, with thread local storage to be had, which
    [KernelSystem::CreateThread] does not check itself. *)
Definition allowed (a : act) (s : kern) : Prop :=
  match a with
  | AWait t o _ => runs_now t s /\ is_Some (objects s !! o)
  | AWaitAny t os _ => runs_now t s /\ exists_in s os
  | AWaitAll t os _ => runs_now t s /\ exists_in s os /\ NoDup os
  | ASleep t _ => runs_now t s
  | AArbitrate a t _ _ _ _ _ => runs_now t s /\ is_Some (arbiters s !! a)
  | ASignalEvent o | AClearEvent o => of_kind is_event o s
  | AReleaseSemaphore o _ => of_kind is_semaphore o s
  | AReleaseMutex m t => of_kind is_mutex m s /\ is_Some (threads s !! t)
  | ASetTimer o _ _ | ACancelTimer o | AClearTimer o => of_kind is_timer o s
  | ATimerFires id _ => exists o, timer_table s !! id = Some o /\ of_kind is_timer o s
  | ATimeout c id => exists m, managers s !! c = Some m /\ forall t, wakeup_callback_table m !! id = Some t ->
      exists th, threads s !! t = Some th /\ resumable (status th) = true
  | ASetPriority t p => (p < 64)%nat /\ exists th, threads s !! t = Some th /\ exists_in s (pending_mutexes th)
  | AExit t => runs_now t s
  | AReschedule c => (c < length (managers s))%nat
  | ASetRunningCPU c => (c < length (managers s))%nat /\ (c < length (stored_processes s))%nat
  | ACreateEvent o _ | ACreateSemaphore o _ _ | ACreateTimer o _ => is_new o s
  | ACreateMutex o _ => is_new o s /\ exists m, managers s !! current_cpu s = Some m /\ is_Some (current_thread m)
  | ACreateAddressArbiter a => arbiters s !! a = None
  | ACreateThread t _ e p _ pid _ owner _ =>
      is_new t s /\ 0 <= p <= 63 /\ 0 <= pid <= ThreadProcessorIdMax /\ (Z.to_nat pid < length (managers s))%nat /\
      valid e = true /\ forall s', processes s' = processes s -> tls_available page_available s' owner
  end.

End Running.

(** ** Every event keeps the invariants *)

Lemma is_event_kind k : is_event k = true -> exists r b, k = KEvent r b.
Proof. destruct k; eauto; done. Qed.
Lemma is_semaphore_kind k : is_semaphore k = true -> exists m n, k = KSemaphore m n.
Proof. destruct k; eauto; done. Qed.
Lemma is_mutex_kind k : is_mutex k = true -> exists n p h, k = KMutex n p h.
Proof. destruct k; eauto; done. Qed.
Lemma is_timer_kind k : is_timer k = true -> exists r i n b cb, k = KTimer r i n b cb.
Proof. destruct k; try done. by eexists _, _, _, _, _. Qed.

Lemma Timer_Clear_ok s o w r i n b cb : sys_ok s -> objects s !! o = Some w -> kind_of w = KTimer r i n b cb ->
  exists s', Timer_Clear o s = Done s' /\ sys_ok s'.
Proof.
  intros Hs Ho Hk. destruct (Timer_set_ok s o w r i n b cb (timer_signaled false) r i n false Hs Ho Hk) as (s' & E & H & _);
    [by rewrite Hk|done|]. by exists s'.
Qed.

Section Acting.
Context (other_wakeup : Z -> wakeup_reason -> Z -> option Z -> kern -> outcome kern).
Context (other_quiet : forall n r t o s, exists s', other_wakeup n r t o s = Done s' /\ quiet s s').
Context (valid : Z -> bool) (page_available : kern -> Z -> bool).
Abbreviation exec := (exec other_wakeup valid page_available).
Abbreviation allowed := (allowed valid page_available).

Lemma wait_acts_ok a s : sys_ok s -> allowed a s ->
  match a with AWait _ _ _ | AWaitAny _ _ _ | AWaitAll _ _ _ | ASleep _ _ | AArbitrate _ _ _ _ _ _ _ | AExit _ | ATimeout _ _ => True | _ => False end ->
  exists s', exec a s = Done s' /\ sys_ok s'.
Proof using other_quiet.
  intros Hs Ha Hcase. destruct a; try done; cbn [allowed exec] in *; clear Hcase.
  - destruct Ha as [(th & Hth & Hr) [w Ho]]. destruct (wait_one_ok s o w t th nano_seconds Hs Ho Hth Hr) as (b & _ & r & s' & -> & H' & _).
    by exists s'.
  - destruct Ha as [(th & Hth & Hr) Hos]. destruct (wait_any_ok s os t th nano_seconds Hs Hos Hth Hr) as (b & _ & r & s' & -> & H' & _).
    by exists s'.
  - destruct Ha as [(th & Hth & Hr) [Hos Hnd]]. destruct (wait_all_ok s os t th nano_seconds Hs Hos Hnd Hth Hr) as (b & _ & r & s' & -> & H' & _).
    by exists s'.
  - destruct Ha as (th & Hth & Hr). destruct (sleep_ok s t th nano_seconds Hs Hth Hr) as (s1 & tm & E1 & E2 & H' & _).
    unfold the_thread. rewrite Hth. cbn [of_opt mbind outcome_bind]. rewrite E1. cbn [mbind outcome_bind]. rewrite E2.
    cbn [mbind outcome_bind]. by eexists.
  - destruct Ha as [(th & Hth & Hr) [l Hl]]. destruct (ArbitrateAddress_ok s a l t th type address value nano_seconds word Hs Hl Hth Hr)
      as (r & w & s' & -> & H' & _). by exists s'.
  - destruct Ha as (m & Hm & Ht). destruct (wakeup_callback_table m !! id) as [t|] eqn:Etab.
    + destruct (Ht t eq_refl) as (th & Hth & Hst).
      destruct (ThreadWakeupCallback_ok other_wakeup other_quiet core id s m t th Hs Hm Etab Hth Hst) as (s' & E & H' & _). by exists s'.
    + exists s. unfold ThreadWakeupCallback, the_manager. rewrite Hm. cbn [of_opt mbind outcome_bind]. by rewrite Etab.
  - destruct Ha as (th & Hth & Hr). unfold the_thread. rewrite Hth. cbn [of_opt mbind outcome_bind].
    destruct (ExitCurrentThread_ok other_wakeup s t th other_quiet Hs Hth Hr) as (s' & E & H' & _). by exists s'.
Qed.

Lemma object_acts_ok a s : sys_ok s -> allowed a s ->
  match a with ASignalEvent _ | AClearEvent _ | AReleaseSemaphore _ _ | AReleaseMutex _ _ | ASetTimer _ _ _ | ACancelTimer _
  | AClearTimer _ | ATimerFires _ _ => True | _ => False end ->
  exists s', exec a s = Done s' /\ sys_ok s'.
Proof using other_quiet.
  intros Hs Ha Hcase. destruct a; try done; cbn [allowed exec] in *; clear Hcase.
  - destruct Ha as (w & Ho & (r & b & Hk)%is_event_kind).
    destruct (Event_Signal_ok other_wakeup other_quiet s o w r b Hs Ho Hk) as (s' & -> & H' & _). by exists s'.
  - destruct Ha as (w & Ho & (r & b & Hk)%is_event_kind).
    destruct (Event_set_ok s o w r b false Hs Ho Hk) as (E & H' & _). unfold Event_Clear. rewrite E. by eexists.
  - destruct Ha as (w & Ho & (mx & n & Hk)%is_semaphore_kind).
    destruct (Semaphore_Release_ok other_wakeup other_quiet s o w mx n count Hs Ho Hk) as (r & s' & -> & H' & _). by exists s'.
  - destruct Ha as [(w & Ho & (n & p & h & Hk)%is_mutex_kind) [th Hth]].
    destruct (Mutex_Release_ok other_wakeup other_quiet s m w n p h t th Hs Ho Hk Hth) as (r & s' & -> & H' & _). by exists s'.
  - destruct Ha as (w & Ho & (r & i & n & b & cb & Hk)%is_timer_kind).
    destruct (Timer_Set_ok other_wakeup other_quiet s o w r i n b cb initial interval Hs Ho Hk) as (s' & E & H' & _). by exists s'.
  - destruct Ha as (w & Ho & (r & i & n & b & cb & Hk)%is_timer_kind).
    destruct (Timer_Cancel_ok s o w r i n b cb Hs Ho Hk) as (s' & E & H' & _). by exists s'.
  - destruct Ha as (w & Ho & (r & i & n & b & cb & Hk)%is_timer_kind). by eapply Timer_Clear_ok.
  - destruct Ha as (o & Htab & w & Ho & (r & i & n & b & cb & Hk)%is_timer_kind). unfold TimerCallback. rewrite Htab.
    cbn [of_opt mbind outcome_bind].
    destruct (Timer_Signal_ok other_wakeup other_quiet s o w r i n b cb cycles_late Hs Ho Hk) as (s' & E & H' & _). by exists s'.
Qed.

Lemma other_acts_ok a s : sys_ok s -> allowed a s ->
  match a with ASetPriority _ _ | AReschedule _ | ASetRunningCPU _ | ACreateEvent _ _ | ACreateSemaphore _ _ _ | ACreateMutex _ _
  | ACreateTimer _ _ | ACreateAddressArbiter _ | ACreateThread _ _ _ _ _ _ _ _ _ => True | _ => False end ->
  exists s', exec a s = Done s' /\ sys_ok s'.
Proof using Type.
  intros Hs Ha Hcase. destruct a; try done; cbn [allowed exec] in *; clear Hcase.
  - destruct Ha as (Hp & th & Hth & Hpend). unfold set_thread_priority.
    destruct (SetPriority_ok s t th priority Hs Hth Hp) as (s1 & -> & H1 & O1 & T1). cbn [mbind outcome_bind].
    set (th1 := set_nominal_priority _ _) in T1. assert (threads s1 !! t = Some th1) as Hth1 by by rewrite T1, lookup_insert_eq.
    pose proof (wf_base _ _ (so_wf _ H1)) as Hb1. unfold UpdatePriority, the_thread. rewrite Hth1. cbn [of_opt mbind outcome_bind].
    destruct (best_priority_ok s1 (held_mutexes th1)) with (best := nominal_priority th1) as (p & -> & Hle).
    { intros m Hm. by apply (d_held s1 (b_d _ _ Hb1) t th1). }
    cbn [mbind outcome_bind]. destruct (BoostPriority_ok s1 t th1 p (b_d _ _ Hb1) (b_q _ _ Hb1) Hth1) as (s2 & -> & Hq & He & T2 & O2).
    { simpl in Hle. lia. }
    cbn [mbind outcome_bind]. rewrite T2, lookup_alter_eq, Hth1. cbn [of_opt mbind outcome_bind fmap option_fmap option_map].
    destruct (update_mutexes_ok (pending_mutexes (set_current_priority p th1)) s2) as (s3 & E & H3 & _).
    + by eapply sys_prio. + intros m Hm. rewrite O2, O1. by apply Hpend. + by exists s3.
  - destruct (in_range_lookup _ _ Ha) as [m Hm]. destruct (Reschedule_ok s core m Hs Hm) as (next & q' & s' & E & _ & H' & _). by exists s'.
  - destruct Ha as [H1 H2]. destruct (SetRunningCPU_ok core s Hs H1 H2) as (s' & E & H' & _). by exists s'.
  - eexists. split; [done|]. by apply add_object_ok; [|apply Ha|].
  - destruct (CreateSemaphore_ok s o initial max Hs (proj1 Ha)) as (r & s' & -> & H' & _). by exists s'.
  - destruct Ha as [[Ho _] (m & Hm & [t Ht])]. destruct (so_current _ (so_rest _ Hs) _ _ _ Hm Ht) as (th & Hth & _).
    by eapply CreateMutex_ok.
  - eexists. split; [done|]. apply CreateTimer_ok; [done|apply Ha].
  - eexists. split; [done|]. apply arbiter_ok; [done|]. intros a' l t. rewrite lookup_insert_Some.
    intros [[<- <-]|[_ Hl]] Hin; [by apply not_elem_of_nil in Hin|by eapply (so_arbiters _ (so_rest _ Hs))].
  - destruct Ha as ([Ho Ht] & Hp & Hpid & Hc & Hv & Htls). destruct (Htls s eq_refl) as (pr & Hpr & _).
    destruct (CreateThread_ok page_available s t junk valid entry_point priority arg pid stack_top owner make_ready pr
      Hs Ht Ho Hp Hpid Hc Hv Htls Hpr) as (s' & th & x & y & -> & H' & _). by exists s'.
Qed.

Lemma act_ok a s : sys_ok s -> allowed a s -> exists s', exec a s = Done s' /\ sys_ok s'.
Proof using other_quiet.
  intros Hs Ha. destruct a; (by apply wait_acts_ok) || (by apply object_acts_ok) || by apply other_acts_ok.
Qed.

(** A history of allowed events. *)
Inductive history (s : kern) : list act -> kern -> Prop :=
| history_nil : history s [] s
| history_snoc as_ a s1 s2 : history s as_ s1 -> allowed a s1 -> exec a s1 = Done s2 -> history s (as_ ++ [a]) s2.

Lemma history_ok s as_ s' : sys_ok s -> history s as_ s' -> sys_ok s'.
Proof using other_quiet.
  intros Hs. induction 1 as [|as_ a s1 s2 Hh IH Ha E]; [done|]. destruct (act_ok a s1 IH Ha) as (s3 & E3 & H3).
  rewrite E in E3. by injection E3 as <-.
Qed.
End Acting.

End Acts.
