(* ===== verification/KernelTheorems.v ===== *)
(** * The behaviour of the kernel

    What holds in every state a running kernel can reach, and what its
    operations do in such states: scheduling, waiting and waking, mutexes with
    priority inheritance, arbiters, time-outs and the life of threads. *)
From stdpp Require Import strings.
From S2P Require Import Prelude Results ThreadQueueList HandleTable CoreTiming ResourceLimit Tls Kernel KernelFacts KernelWakeup KernelOps KernelSystem KernelSched KernelSvc KernelCalls KernelActions.

Module KT.
Import Res Kern KF KW Ops KS Sched Svc Calls Acts.

(** ** What the invariants say *)

(** The list of a mutex and the mutex agree. *)
Lemma held_iff s t th m : sys_ok s -> threads s !! t = Some th ->
  m ∈ held_mutexes th <-> exists w n p, objects s !! m = Some w /\ kind_of w = KMutex n p (Some t) /\ 0 < n.
Proof.
  intros Hs Hth. pose proof (b_m _ _ (wf_base _ _ (so_wf _ Hs))) as Hm. split.
  - intros Hin. destruct (m_held _ Hm _ _ _ Hth Hin) as (w & n & p & h & Ho & Hk & Hx).
    destruct (Hx ltac:(done)) as [-> Hn]. by exists w, n, p.
  - intros (w & n & p & Ho & Hk & _). destruct (m_holder _ Hm _ _ _ _ _ Ho Hk) as (_ & th' & Ht' & Hin).
    rewrite Hth in Ht'. by injection Ht' as <-.
Qed.

Lemma waiting_iff s o w t th : sys_ok s -> objects s !! o = Some w -> threads s !! t = Some th ->
  t ∈ waiting_threads w <-> o ∈ wait_objects th.
Proof.
  intros Hs Ho Hth. destruct (so_wf _ Hs) as [[_ Hw _ _] F]. split; intros Hin.
  - destruct (w_to _ Hw _ _ _ Ho Hin) as (th' & Ht' & ?). rewrite Hth in Ht'. by injection Ht' as <-.
  - destruct (F _ _ _ Hth Hin) as (w' & Ho' & ?). rewrite Ho in Ho'. by injection Ho' as <-.
Qed.

Lemma ready_iff s c m p l t : sys_ok s -> managers s !! c = Some m -> Tql.table (ready_queue m) !! p = Some l ->
  t ∈ l <-> exists th, threads s !! t = Some th /\ core_id th = c /\ status th = Ready /\ current_priority th = p.
Proof.
  intros Hs Hm Hl. destruct (b_q _ _ (wf_base _ _ (so_wf _ Hs)) c m Hm) as [sp Hsp].
  rewrite (table_length _ _ (qo_rep _ _ _ _ Hsp)) in Hl. rewrite (qo_exact _ _ _ _ Hsp p l t Hl). split.
  - intros Hv. by apply sched_thread in Hv.
  - intros (th & Hth & <- & Hst & <-). unfold sched_of. rewrite Hth. simpl. unfold sched. by rewrite Hst.
Qed.

Lemma one_running s t t' th th' : sys_ok s -> threads s !! t = Some th -> threads s !! t' = Some th' ->
  status th = Running -> status th' = Running -> core_id th = core_id th' -> t = t'.
Proof.
  intros Hs Hth Hth' Hr Hr' Hc. pose proof (so_running _ (so_rest _ Hs) _ _ Hth Hr) as E.
  pose proof (so_running _ (so_rest _ Hs) _ _ Hth' Hr') as E'. rewrite Hc in E. congruence.
Qed.

(** ** Reachable states *)

Section Reachable.
Context (other_wakeup : Z -> wakeup_reason -> Z -> option Z -> kern -> outcome kern).
(** The wakeup callbacks of IPC and HLE requests leave scheduling alone. *)
Context (other_quiet : forall n r t o s, exists s', other_wakeup n r t o s = Done s' /\ quiet s s').
Context (valid : Z -> bool) (page_available : kern -> Z -> bool).

(** C2: A kernel with loaded processes never fails an assertion, dereferences null or
    leaves a container, whatever sequence of the events of [act] it goes
    through, system calls, timer events, time-outs of waiting threads, thread
    creations and reschedules, as long as each may happen: the next one
    always completes.  [allowed] says when an event may happen; the one system
    call it narrows is the wait for all objects of a list, which must not name
    an object twice, because there an assertion does fail
    ([duplicate_wait_all_stops]). *)
Theorem kernel_never_faults n is_new app ctx tm ps acts s a :
  length (Timing.timers tm) = n -> (Timing.current_timer tm < n)%nat ->
  history other_wakeup valid page_available (booted n is_new app ctx tm ps) acts s ->
  allowed valid page_available a s ->
  exists s', exec other_wakeup valid page_available a s = Done s'.
Proof using other_quiet.
  intros Hn Hc Hh Ha. pose proof (booted_ok n is_new app ctx tm ps Hn Hc) as H0.
  destruct (act_ok other_wakeup other_quiet valid page_available a s) as (s' & E & _); [|done|by exists s'].
  by eapply history_ok.
Qed.

(** C3: In every state such a kernel reaches, a core runs at most one thread; the
    queue of a core holds exactly its ready threads, each at its current
    priority; a thread is on the waiting list of exactly the objects it waits
    for; and a thread's list of held mutexes is exactly the mutexes locked by
    it, so no mutex has two holders. *)
Theorem kernel_consistent n is_new app ctx tm ps acts s :
  length (Timing.timers tm) = n -> (Timing.current_timer tm < n)%nat ->
  history other_wakeup valid page_available (booted n is_new app ctx tm ps) acts s ->
  (forall t t' th th', threads s !! t = Some th -> threads s !! t' = Some th' ->
     status th = Running -> status th' = Running -> core_id th = core_id th' -> t = t') /\
  (forall c m p l t, managers s !! c = Some m -> Tql.table (ready_queue m) !! p = Some l ->
     t ∈ l <-> exists th, threads s !! t = Some th /\ core_id th = c /\ status th = Ready /\ current_priority th = p) /\
  (forall o w t th, objects s !! o = Some w -> threads s !! t = Some th -> t ∈ waiting_threads w <-> o ∈ wait_objects th) /\
  (forall t th m, threads s !! t = Some th -> m ∈ held_mutexes th <->
     exists w n p, objects s !! m = Some w /\ kind_of w = KMutex n p (Some t) /\ 0 < n).
Proof using other_quiet.
  intros Hn Hc Hh. pose proof (booted_ok n is_new app ctx tm ps Hn Hc) as H0.
  assert (sys_ok s) as Hs by by eapply history_ok. split_and!.
  - intros t t' th th'. by apply one_running.
  - intros c m p l t. by apply ready_iff.
  - intros o w t th. by apply waiting_iff.
  - intros t th m. by apply held_iff.
Qed.

End Reachable.

(** A small kernel: two cores, one process, no callbacks of other parts. *)
Definition no_callback (n : Z) (r : wakeup_reason) (t : Z) (o : option Z) (s : kern) : outcome kern := Done s.
Lemma no_callback_quiet : forall n r t o s, exists s', no_callback n r t o s = Done s' /\ quiet s s'.
Proof. intros. eexists. split; [done|]. reflexivity. Defined.
Definition any_address (a : Z) : bool := true.
Definition no_page (s : kern) (p : Z) : bool := false.

Definition demo_timing : Timing.timing ev_cb :=
  Timing.mk_timing ∅ [Timing.new_timer 0; Timing.new_timer 0] 0 false.
Definition demo_process : process :=
  mk_process 1 (Handle.mk_table [] [] 1 0) [replicate 8 false] (Some 0) 0 false.
Definition demo_start : kern :=
  booted 2 false 0 new_context demo_timing {[ 1 := demo_process ]}.

Abbreviation demo_exec := (exec no_callback any_address no_page).
Fixpoint steps (acts : list act) (s : kern) : kern :=
  match acts with [] => s | a :: acts => match demo_exec a s with Done s => steps acts s | Stop _ => s end end.

(** Two threads; the first waits for an event. *)
Definition demo_acts : list act :=
  [ACreateThread 100 0 0x100000 30 0 0 0x8000000 1 true; ACreateThread 101 0 0x100000 20 0 1 0x9000000 1 true;
   AReschedule 0; AReschedule 1; ACreateEvent 200 OneShot; AWait 100 200 (-1)].
Definition demo (n : nat) : kern := steps (take n demo_acts) demo_start.

Lemma demo_tls k p s' : (k < 2)%nat -> p = 1 -> processes s' = processes (demo k) -> tls_available no_page s' p.
Proof.
  intros Hk -> E. unfold tls_available. rewrite E. destruct k as [|[|k]]; [| |lia];
    (eexists; split; [vm_compute; reflexivity|split; [eexists; vm_compute; reflexivity|split; [vm_compute; reflexivity|split]]]).
  - intros page. rewrite list_elem_of_In. vm_compute. intros [<-|[]]. reflexivity.
  - left. eexists. vm_compute. reflexivity.
  - intros page. rewrite list_elem_of_In. vm_compute. intros [<-|[]]. reflexivity.
  - left. eexists. vm_compute. reflexivity.
Defined.

(** Every prefix of these events may happen. *)
Lemma demo_prefix k : (k <= 6)%nat -> history no_callback any_address no_page demo_start (take k demo_acts) (demo k).
Proof.
  assert (history no_callback any_address no_page demo_start (take 0 demo_acts) (demo 0)) as H0 by constructor.
  assert (history no_callback any_address no_page demo_start (take 1 demo_acts) (demo 1)) as H1.
  { apply (history_snoc _ _ _ _ [] _ (demo 0)); [done| |vm_compute; reflexivity].
    split; [split; vm_compute; reflexivity|]. split; [lia|]. split; [unfold ThreadProcessorIdMax; lia|].
    split; [vm_compute; lia|]. split; [reflexivity|]. intros s'. by apply (demo_tls 0); [lia|]. }
  assert (history no_callback any_address no_page demo_start (take 2 demo_acts) (demo 2)) as H2.
  { apply (history_snoc _ _ _ _ [ _] _ (demo 1)); [done| |vm_compute; reflexivity].
    split; [split; vm_compute; reflexivity|]. split; [lia|]. split; [unfold ThreadProcessorIdMax; lia|].
    split; [vm_compute; lia|]. split; [reflexivity|]. intros s'. by apply (demo_tls 1); [lia|]. }
  assert (history no_callback any_address no_page demo_start (take 3 demo_acts) (demo 3)) as H3
    by (apply (history_snoc _ _ _ _ [ _; _] _ (demo 2)); [done|vm_compute; lia|vm_compute; reflexivity]).
  assert (history no_callback any_address no_page demo_start (take 4 demo_acts) (demo 4)) as H4
    by (apply (history_snoc _ _ _ _ [ _; _; _] _ (demo 3)); [done|vm_compute; lia|vm_compute; reflexivity]).
  assert (history no_callback any_address no_page demo_start (take 5 demo_acts) (demo 5)) as H5
    by (apply (history_snoc _ _ _ _ [ _; _; _; _] _ (demo 4)); [done|split; vm_compute; reflexivity|vm_compute; reflexivity]).
  assert (history no_callback any_address no_page demo_start (take 6 demo_acts) (demo 6)) as H6.
  { apply (history_snoc _ _ _ _ [ _; _; _; _; _] _ (demo 5)); [done| |vm_compute; reflexivity].
    split; [eexists; split; vm_compute; reflexivity|eexists; vm_compute; reflexivity]. }
  intros Hk. do 7 (destruct k as [|k]; [assumption|]). lia.
Qed.

Lemma demo_history : history no_callback any_address no_page demo_start demo_acts (demo 6).
Proof. exact (demo_prefix 6 (Nat.le_refl _)). Qed.

Lemma demo_ok k : (k <= 6)%nat -> sys_ok (demo k).
Proof.
  intros Hk. eapply (history_ok no_callback no_callback_quiet); [|by apply demo_prefix].
  apply booted_ok; vm_compute; lia.
Qed.

Lemma kernel_never_faults_witness : exists s', demo_exec (ASignalEvent 200) (demo 6) = Done s'.
Proof.
  apply (kernel_never_faults no_callback no_callback_quiet any_address no_page 2 false 0 new_context demo_timing
    {[ 1 := demo_process ]} demo_acts (demo 6) (ASignalEvent 200) eq_refl ltac:(vm_compute; lia) demo_history).
  eexists. split; vm_compute; reflexivity.
Defined.

Lemma kernel_consistent_witness : exists w th, objects (demo 6) !! 200 = Some w /\ threads (demo 6) !! 100 = Some th /\
  (100 ∈ waiting_threads w <-> 200 ∈ wait_objects th).
Proof.
  destruct (objects (demo 6) !! 200) as [w|] eqn:Ew; [|vm_compute in Ew; discriminate Ew].
  destruct (threads (demo 6) !! 100) as [th|] eqn:Et; [|vm_compute in Et; discriminate Et].
  exists w, th. split; [reflexivity|]. split; [reflexivity|].
  exact (proj1 (proj2 (proj2 (kernel_consistent no_callback no_callback_quiet any_address no_page 2 false 0 new_context demo_timing
    {[ 1 := demo_process ]} demo_acts (demo 6) eq_refl ltac:(vm_compute; lia) demo_history))) 200 w 100 th Ew Et).
Defined.

(** ** Scheduling *)

Lemma ready_view s t th c : threads s !! t = Some th -> core_id th = c -> status th = Ready ->
  sched_of s t = Some (c, Ready, current_priority th).
Proof. intros Hth <- Hst. unfold sched_of. rewrite Hth. simpl. unfold sched. by rewrite Hst. Qed.

(** C13: [Reschedule] never fails.  The thread it leaves running was running or
    ready and allowed to run, no ready thread of the core that may be scheduled has a
    better priority, and the running thread is only replaced for a strictly
    better one; its registers are saved and it becomes ready.  The core idles
    only when nothing can run. *)
Theorem reschedule_picks_best s c m : sys_ok s -> managers s !! c = Some m ->
  exists next s', Reschedule c s = Done s' /\ current_thread <$> managers s' !! c = Some next /\
  match next with
  | Some t => exists th th' m', threads s !! t = Some th /\ threads s' !! t = Some th' /\ managers s' !! c = Some m' /\
      status th' = Running /\ cpu m' = ctx th' /\ cp15_uro m' = tls_address th' /\
      (running s c t \/ core_id th = c /\ status th = Ready /\ can_schedule th = true) /\
      (forall t1 th1, threads s !! t1 = Some th1 -> core_id th1 = c -> status th1 = Ready -> can_schedule th1 = true ->
         (current_priority th <= current_priority th1)%nat) /\
      (forall t1 th1, running s c t1 -> t1 ≠ t -> threads s !! t1 = Some th1 -> (current_priority th < current_priority th1)%nat)
  | None => (forall t, ~ running s c t) /\
      forall t1 th1, threads s !! t1 = Some th1 -> core_id th1 = c -> status th1 = Ready -> can_schedule th1 = false
  end /\
  forall t1, running s c t1 -> next ≠ Some t1 ->
    exists th1', threads s' !! t1 = Some th1' /\ status th1' = Ready /\ ctx th1' = cpu m.
Proof.
  intros Hs Hm. destruct (Reschedule_ok s c m Hs Hm) as (next & q' & s' & E & Hch & _ & [Hcur Hon] & Hsw).
  exists next, s'. split; [done|]. split; [done|].
  assert (forall n t1 th1, none_below s c n -> threads s !! t1 = Some th1 -> core_id th1 = c -> status th1 = Ready ->
    can_schedule th1 = true -> (n <= current_priority th1)%nat) as Hnone.
  { intros n t1 th1 Hn Ht1 Hc1 Hs1 Hcan. apply (Hn t1); [by exists th1|by apply ready_view]. }
  assert (forall t t1, running s c t -> running s c t1 -> t1 = t) as Hone by (intros t t1 [E1 _] [E2 _]; congruence).
  split.
  - destruct Hch as [t th sp Hr Hth _ Hn|t p sp (th & Hth & Hcan) Hv _ Hn Hbeat|sp Hno _ Hn].
    + destruct Hon as (th' & m' & Ht' & Hst' & Hm' & Hcpu & Huro). exists th, th', m'. split_and!; try done; [by left|by eauto|].
      intros t1 th1 Hr1 Hne. by rewrite (Hone t t1 Hr Hr1) in Hne.
    + destruct Hon as (th' & m' & Ht' & Hst' & Hm' & Hcpu & Huro). exists th, th', m'.
      destruct (sched_thread _ _ _ _ Hv) as (th0 & E0 & Hc0 & Hst0 & Hp0). rewrite Hth in E0. injection E0 as <-.
      rewrite Hp0. split_and!; try done; [by right|by eauto|]. intros t1 th1 Hr1 _. by apply Hbeat.
    + split; [done|]. intros t1 th1 Ht1 Hc1 Hs1. destruct (can_schedule th1) eqn:Hcan; [|done].
      pose proof (Hnone _ _ _ Hn Ht1 Hc1 Hs1 Hcan). pose proof (wf_base _ _ (so_wf _ Hs)) as [B1 _ _ B4].
      pose proof (prio_bound s t1 th1 B1 B4 Ht1). lia.
  - intros t1 Hr1 Hne. pose proof Hr1 as [Hc1 (th1 & Ht1 & Hst1)]. destruct (Hsw t1 th1 Ht1) as (th1' & Ht1' & _ & H1 & H2).
    exists th1'. split_and!; [done|by apply H1|]. rewrite Hm in Hc1. injection Hc1 as Hc1. by apply H2.
Qed.

Lemma reschedule_picks_best_witness : exists next s', Reschedule 0 (demo 2) = Done s' /\
  current_thread <$> managers s' !! 0%nat = Some next /\ next = Some 100.
Proof.
  destruct (managers (demo 2) !! 0%nat) as [m|] eqn:Hm; [|vm_compute in Hm; discriminate].
  destruct (reschedule_picks_best (demo 2) 0 m (demo_ok 2 ltac:(lia)) Hm) as (next & s' & E & Hn & _).
  exists next, s'. split; [exact E|]. split; [exact Hn|]. vm_compute in E. injection E as <-. vm_compute in Hn. by injection Hn as <-.
Defined.

(** ** Waking *)

Section Waking.
Context (other_wakeup : Z -> wakeup_reason -> Z -> option Z -> kern -> outcome kern).
Context (other_quiet : forall n r t o s, exists s', other_wakeup n r t o s = Done s' /\ quiet s s').

(** C14: Waking the waiters of an object never fails.  It wakes one after the
    other a waiter of best priority among those that could run, with the objects it
    waits for acquired and its waiting lists left; these are ready at the end,
    no other thread changes, and no thread that could run is left waiting. *)
Theorem wakeup_all_best_first s o w : sys_ok s -> objects s !! o = Some w ->
  exists s1 ts, WakeupAllWaitingThreads other_wakeup o s = Done (settle o s1) /\ drains None other_wakeup o s ts s1 /\
    (forall t, t ∈ ts -> is_ready (settle o s1) t) /\
    (forall t, t ∉ ts -> wfields <$> threads (settle o s1) !! t = wfields <$> threads s !! t) /\
    forall w' t, objects (settle o s1) !! o = Some w' -> t ∈ waiting_threads w' -> ~ runnable o t (settle o s1).
Proof using other_quiet.
  intros Hs Ho. destruct (wakeup_all_drains None other_wakeup other_quiet o w s (so_wf _ Hs) ltac:(done) Ho)
    as (s1 & ts & E & Hd & _ & Hr & Hf & Hn). exists s1, ts. by split_and!.
Qed.

Lemma lock_at_kind s m n h : lock_at s m = Some (KMutex n 0 h) -> exists w p, objects s !! m = Some w /\ kind_of w = KMutex n p h.
Proof using Type.
  unfold lock_at, lock_of. destruct (objects s !! m) as [w|] eqn:Ho; [|done]. simpl. intros [= Hl].
  destruct (kind_of w) as [| |n' p' h'| |] eqn:Hk; try done. injection Hl as -> ->. by exists w, p'.
Qed.

(** A waiter of a free mutex that cannot run waits for something else as well. *)
Lemma drained_waits_elsewhere s m w p u thu : sys_ok s -> objects s !! m = Some w -> kind_of w = KMutex 0 p None ->
  drained m s -> u ∈ waiting_threads w -> threads s !! u = Some thu ->
  status thu = WaitSynchAll /\ exists o, o ∈ wait_objects thu /\ ShouldWait o u s ≠ Done false.
Proof using Type.
  intros Hs Ho Hk Hd Hu Hthu. pose proof (Hd w u Ho Hu) as Hnr.
  assert (ShouldWait m u s = Done false) as Hsw by (unfold ShouldWait, the_object; rewrite Ho; cbn [of_opt mbind outcome_bind]; by rewrite Hk).
  destruct (decide (status thu = WaitSynchAll)) as [Ha|Ha].
  - split; [done|]. destruct (decide (Forall (fun o => ShouldWait o u s = Done false) (wait_objects thu))) as [Hall|Hnot].
    + destruct Hnr. split; [done|]. intros th0 E0 _ o' Ho2. rewrite Hthu in E0. injection E0 as <-.
      by apply (proj1 (Forall_forall _ _) Hall).
    + apply not_Forall_Exists in Hnot; [|intros o'; apply _]. apply Exists_exists in Hnot as (o' & Hin & Hne). eauto.
  - destruct Hnr. split; [done|]. intros th0 E0 Hst. rewrite Hthu in E0. by injection E0 as <-.
Qed.

(** C15: Releasing a mutex.  Only its holder can; a nested lock is counted
    down; the last release either hands the mutex on, to one of its waiters, which
    is ready and has it locked once, or leaves it unlocked without a holder, and then
    every thread that waits for it waits for several objects at once and
    another of them is not available. *)
Theorem mutex_release_hands_on s m w n p h t th : sys_ok s -> objects s !! m = Some w -> kind_of w = KMutex n p h ->
  threads s !! t = Some th -> exists r s', Mutex_Release other_wakeup m t s = Done (r, s') /\
    if decide (h = Some t) then r = ResultSuccess /\
      if n =? 1 then exists w' p', objects s' !! m = Some w' /\
        ((exists u, kind_of w' = KMutex 1 p' (Some u) /\ u ∈ waiting_threads w /\ is_ready s' u) \/
         kind_of w' = KMutex 0 p' None /\
         forall u thu, u ∈ waiting_threads w' -> threads s' !! u = Some thu ->
           status thu = WaitSynchAll /\ exists o, o ∈ wait_objects thu /\ ShouldWait o u s' ≠ Done false)
      else lock_at s' m = Some (KMutex (n - 1) 0 (Some t))
    else r = ResultMutexNotHeld /\ s' = s.
Proof using other_quiet.
  intros Hs Ho Hk Hth. destruct (Mutex_Release_ok other_wakeup other_quiet s m w n p h t th Hs Ho Hk Hth) as (r & s' & E & Hs' & Hr & Hcase).
  exists r, s'. split; [done|]. destruct (decide (h = Some t)); [|done]. destruct Hcase as [-> Hcase]. split; [done|].
  destruct (n =? 1); [|done]. destruct Hcase as [Hd [Hl|(u & Hu & Hr' & Hl)]]; destruct (lock_at_kind _ _ _ _ Hl) as (w' & p' & Ho' & Hk');
    exists w', p'; (split; [done|]).
  - right. split; [done|]. intros u thu. by eapply drained_waits_elsewhere.
  - left. by exists u.
Qed.

(** C16: Ending a thread that does not wait for its own end: it is dead, on the
    waiting list of no wait object and holds no mutex; the other threads keep
    their state except that waiters may have become ready.  The lists of the address
    arbiters stay as they are, the ended thread included: an arbiter drops it
    when it is next signalled. *)
Theorem thread_stop_releases s t th : sys_ok s -> threads s !! t = Some th -> status th ≠ Dead ->
  (forall w, objects s !! t = Some w -> t ∉ waiting_threads w) ->
  exists s', Thread_Stop other_wakeup t s = Done s' /\
    (exists th', threads s' !! t = Some th' /\ status th' = Dead /\ wait_objects th' = [] /\ held_mutexes th' = []) /\
    (forall o w, objects s' !! o = Some w -> t ∉ waiting_threads w) /\
    (forall m w n p, objects s' !! m = Some w -> kind_of w ≠ KMutex n p (Some t)) /\
    arbiters s' = arbiters s /\
    forall t' th1, t' ≠ t -> threads s !! t' = Some th1 -> exists th2, threads s' !! t' = Some th2 /\ ident th2 = ident th1 /\
      (status th2 = status th1 \/ waiting_status (status th1) = true /\ status th2 = Ready).
Proof using other_quiet.
  intros Hs Hth Hst Hself. destruct (Thread_Stop_ok other_wakeup other_quiet s t th Hs Hth Hst Hself) as (s' & E & Hs' & [[H1 [H2 H3]] _ Ha H4 _]).
  exists s'. split_and!; try done. intros m w n p Ho Hk. destruct (m_holder _ (b_m _ _ (wf_base _ _ (so_wf _ Hs'))) _ _ _ _ _ Ho Hk) as [Hn _].
  by apply (H3 m), (kind_locked t m s' w n p).
Qed.

(** C34: The time-out of a waiting thread makes it ready and takes it off the waiting
    list of every wait object and, when it waits on an address arbiter with a
    time-out, off the list of the arbiter; the kernel stays well formed. *)
Theorem timeout_ends_wait s c id m t th : sys_ok s -> managers s !! c = Some m ->
  wakeup_callback_table m !! id = Some t -> threads s !! t = Some th -> resumable (status th) = true ->
  exists s', ThreadWakeupCallback other_wakeup c id s = Done s' /\ sys_ok s' /\ is_ready s' t /\
    (forall o w, objects s' !! o = Some w -> t ∉ waiting_threads w) /\
    forall a l, status th = WaitArb -> wakeup_callback th = Some (CbArb a) -> arbiters s' !! a = Some l -> t ∉ l.
Proof using other_quiet. apply (ThreadWakeupCallback_ok other_wakeup other_quiet). Qed.
End Waking.

(** Resuming a thread cancels its time-out: no event of its core and
    identifier is left in any event queue. *)
Lemma resume_cancels_timeout s t th s' : threads s !! t = Some th -> status th ≠ Ready ->
  Timing.event_queue_locked (timing s) = false -> ResumeFromWait t s = Done s' ->
  forall tm e, tm ∈ Timing.timers (timing s') -> e ∈ Timing.event_queue tm ->
    ~ Timing.matches (ThreadWakeupEventType (core_id th)) (thread_id th) e.
Proof.
  intros Hth Hst Hlock E. unfold ResumeFromWait, the_thread in E. rewrite Hth in E. cbn [of_opt mbind outcome_bind] in E.
  assert (timing s' = Timing.UnscheduleEvent (ThreadWakeupEventType (core_id th)) (thread_id th) (timing s)) as ->.
  { destruct (bool_decide (wait_objects th = [])); [|done]. cbn [assert_ mbind outcome_bind] in E.
    destruct (status th); try done; unfold on_queue, the_manager in E;
    (destruct (managers _ !! core_id th) as [m|]; [|done]; cbn [of_opt mbind outcome_bind] in E;
     destruct (Tql.push_back _ _ _) as [q|]; [|done]; cbn [mbind outcome_bind] in E; by injection E as <-). }
  unfold Timing.UnscheduleEvent. rewrite Hlock. simpl. intros tm e (tm0 & -> & _)%list_elem_of_fmap.
  by intros [? _]%list_elem_of_filter.
Qed.

(** ** Priority inheritance *)

Definition mutex_prio (s : kern) (m : Z) : option nat :=
  w ← objects s !! m; match kind_of w with KMutex _ p _ => Some p | _ => None end.
Definition prio_of (s : kern) (t : Z) : option nat := current_priority <$> threads s !! t.

Lemma min_fold x b l : foldr Nat.min (if (x <? b)%nat then x else b) l = Nat.min x (foldr Nat.min b l).
Proof. induction l as [|y l IH]; simpl; [destruct (Nat.ltb_spec x b); lia|]. rewrite IH. lia. Qed.

Lemma best_priority_min s ms : (forall m, m ∈ ms -> exists w n p h, objects s !! m = Some w /\ kind_of w = KMutex n p h) ->
  forall b, best_priority s ms b = Done (foldr Nat.min b (omap (mutex_prio s) ms)).
Proof.
  induction ms as [|m ms IH]; intros Hms b; [done|]. cbn [best_priority].
  destruct (Hms m ltac:(left)) as (w & n & p & h & Ho & Hk). unfold mutex_priority, the_object. rewrite Ho.
  cbn [of_opt mbind outcome_bind]. rewrite Hk. cbn [mbind outcome_bind]. rewrite IH by (intros; apply Hms; by right).
  assert (mutex_prio s m = Some p) as Hp by (unfold mutex_prio; rewrite Ho; simpl; by rewrite Hk).
  simpl. rewrite Hp. simpl. by rewrite min_fold.
Qed.

Lemma best_waiter_min s ts : (forall t, t ∈ ts -> is_Some (threads s !! t)) ->
  forall b, best_waiter s ts b = Done (foldr Nat.min b (omap (prio_of s) ts)).
Proof.
  induction ts as [|t ts IH]; intros Hts b; [done|]. cbn [best_waiter]. destruct (Hts t ltac:(left)) as [th Hth].
  unfold the_thread. rewrite Hth. cbn [of_opt mbind outcome_bind]. rewrite IH by (intros; apply Hts; by right).
  assert (prio_of s t = Some (current_priority th)) as Hp by (unfold prio_of; by rewrite Hth).
  simpl. rewrite Hp. simpl. by rewrite min_fold.
Qed.

Lemma UpdatePriority_min s t th : d_ok s -> q_ok s -> threads s !! t = Some th ->
  exists s', UpdatePriority t s = Done s' /\ objects s' = objects s /\
    threads s' = <[t := set_current_priority (foldr Nat.min (nominal_priority th) (omap (mutex_prio s) (held_mutexes th))) th]> (threads s).
Proof.
  intros Hd Hq Hth. unfold UpdatePriority, the_thread. rewrite Hth. cbn [of_opt mbind outcome_bind].
  rewrite best_priority_min by (intros m Hm; by apply (d_held s Hd t th)). cbn [mbind outcome_bind].
  destruct (BoostPriority_ok s t th (foldr Nat.min (nominal_priority th) (omap (mutex_prio s) (held_mutexes th))) Hd Hq Hth) as (s' & E & _ & _ & Et & Eo).
  { pose proof (proj1 (d_thread s Hd t th Hth)). set (l := omap _ _). clearbody l. induction l; simpl; lia. }
  exists s'. split_and!; [done|done|]. by rewrite Et, (alter_insert_eq _ _ _ _ Hth).
Qed.

(** C18: Priority inheritance.  [Mutex::UpdatePriority] gives a held mutex the best
    priority among its waiters and, when that changes, its holder the best of its nominal
    priority and the priorities of all mutexes it holds. *)
Theorem priority_inheritance s m w n p h th : sys_ok s -> objects s !! m = Some w -> kind_of w = KMutex n p (Some h) ->
  threads s !! h = Some th ->
  let best := foldr Nat.min ThreadPrioLowest (omap (prio_of s) (waiting_threads w)) in
  exists s', Mutex_UpdatePriority m s = Done s' /\ mutex_prio s' m = Some best /\
    if decide (best = p) then s' = s
    else prio_of s' h = Some (foldr Nat.min (nominal_priority th) (omap (mutex_prio s') (held_mutexes th))) /\
      (forall m', m' ≠ m -> mutex_prio s' m' = mutex_prio s m') /\ forall t, t ≠ h -> threads s' !! t = threads s !! t.
Proof.
  intros Hs Ho Hk Hth best. pose proof (wf_base _ _ (so_wf _ Hs)) as Hb. pose proof (b_d _ _ Hb) as Hd.
  unfold Mutex_UpdatePriority, the_object. rewrite Ho. cbn [of_opt mbind outcome_bind]. rewrite Hk.
  rewrite best_waiter_min by (intros t Ht; by eapply (d_waiting s Hd)). cbn [mbind outcome_bind]. fold best.
  destruct (Nat.eqb_spec best p) as [He|Hne].
  { exists s. rewrite decide_True by done. split_and!; try done. unfold mutex_prio. rewrite Ho. simpl. by rewrite Hk, He. }
  set (s1 := set_kind m (KMutex n best (Some h)) s).
  assert (prio_eq s s1) as He1 by (apply (prio_eq_kind m w); [done|by rewrite Hk]).
  destruct (UpdatePriority_min s1 h th) as (s2 & E & Eo & Et); [by eapply d_ok_prio|by apply q_ok_objects, Hb|done|].
  exists s2. assert (forall m', mutex_prio s2 m' = mutex_prio s1 m') as Hmp by (intros m'; unfold mutex_prio; by rewrite Eo).
  assert (forall m', mutex_prio s1 m' = if decide (m' = m) then Some best else mutex_prio s m') as Hm1.
  { intros m'. unfold mutex_prio, s1. rewrite objects_kind. case_decide; [|done]. by rewrite Ho. }
  rewrite decide_False by done. split_and!; [done|by rewrite Hmp, Hm1, decide_True| | |].
  - unfold prio_of. rewrite Et, lookup_insert_eq. simpl. f_equal. f_equal. apply list_omap_ext, Forall_Forall2_diag, Forall_forall.
    intros x _. by rewrite Hmp.
  - intros m' Hm'. by rewrite Hmp, Hm1, decide_False.
  - intros t Ht. by rewrite Et, lookup_insert_ne.
Qed.

(** ** Waiting *)

(** C19: [WaitSynchronization1] on an object acquires it if it is available, returns
    the time-out code at once for a zero time-out, and suspends the running thread
    otherwise: it then is on the waiting list of the object and stays there
    until it is woken. *)
Theorem wait_synchronization_one s o w t th ns : sys_ok s -> objects s !! o = Some w -> threads s !! t = Some th ->
  status th = Running -> exists b r s', ShouldWait o t s = Done b /\ wait_one o t ns s = Done (r, s') /\ sys_ok s' /\
    if b then r = Err ResultTimeout /\
      if ns =? 0 then s' = s else exists th' w', threads s' !! t = Some th' /\ objects s' !! o = Some w' /\
        status th' = WaitSynchAny /\ wait_objects th' = [o] /\ t ∈ waiting_threads w'
    else r = Val tt /\ Acquire o t s = Done s'.
Proof.
  intros Hs Ho Hth Hr. destruct (wait_one_ok s o w t th ns Hs Ho Hth Hr) as (b & Eb & r & s' & E & Hs' & Hcase).
  exists b, r, s'. split_and!; try done. destruct b; [|by destruct Hcase as (? & ? & _)]. destruct Hcase as [-> Hcase].
  split; [done|]. destruct (ns =? 0); [done|]. destruct Hcase as (th' & Ht' & Hst & Hw & _).
  destruct (wf_from _ _ (so_wf _ Hs') t th' o Ht') as (w' & Ho' & Hin); [rewrite Hw; left|]. by exists th', w'.
Qed.

(** [WaitSynchronizationN] accepts a list that names an object twice.  Waiting for all of
    them, with an event that resets on acquisition and is signalled, finds both
    available, acquires the first and stops at the assertion of the second. *)
Theorem duplicate_wait_all_stops s o w t ns : objects s !! o = Some w -> kind_of w = KEvent OneShot true ->
  wait_all [o; o] t ns s = Stop FAssert.
Proof.
  intros Ho Hk. assert (ShouldWait o t s = Done false) as Hsw
    by (unfold ShouldWait, the_object; rewrite Ho; cbn [of_opt mbind outcome_bind]; by rewrite Hk).
  set (s1 := set_kind o (KEvent OneShot false) s).
  assert (Acquire o t s = Done s1) as E1
    by (unfold Acquire; rewrite Hsw; unfold the_object; rewrite Ho; cbn [of_opt mbind outcome_bind]; by rewrite Hk).
  assert (objects s1 !! o = Some (mk_wobj (waiting_threads w) (KEvent OneShot false))) as Ho1
    by (unfold s1; by rewrite objects_kind, decide_True, Ho).
  assert (Acquire o t s1 = Stop FAssert) as E2
    by (unfold Acquire, ShouldWait, the_object; rewrite Ho1; reflexivity).
  unfold wait_all, mbind at 1, svc_bind, read. cbn [all_available]. rewrite Hsw. cbn [mbind outcome_bind].
  unfold mbind at 1, svc_bind, run. cbn [acquire_all]. rewrite E1. cbn [mbind outcome_bind]. by rewrite E2.
Qed.

(** ** Address arbiters *)

(** Signalling an address resumes exactly [min value waiters] of the threads that
    wait there on the arbiter, or all of them for a negative value: those of best
    priority.  Every other thread is left as it is. *)
Theorem arbiter_signal_wakes_best s a t th address value l : sys_ok s -> arbiters s !! a = Some l -> NoDup l ->
  threads s !! t = Some th ->
  exists s' ws, signal_threads a t address value s = Done s' /\ sys_ok s' /\ NoDup ws /\
    (forall u, u ∈ ws -> u ∈ waiters_at s address l) /\
    length ws = (if value <? 0 then length (waiters_at s address l)
                 else Nat.min (Z.to_nat value) (length (waiters_at s address l))) /\
    best_first s ws (waiters_at s address l) /\
    forall u, if decide (u ∈ ws) then threads s' !! u = made_ready <$> threads s !! u else threads s' !! u = threads s !! u.
Proof.
  intros Hs Ha Hnd Hth. destruct (signal_threads_ok s a t th address value l Hs Ha Hth) as (s' & ws & E & Hs' & T & W & N).
  destruct (N Hnd) as (N1 & N2 & N3). exists s', ws. split_and!; try done. intros u. rewrite T, foldl_ready. by case_decide.
Qed.

(** ** Semaphores *)

(** [Semaphore::Release] does not check the sign of the count and adds in 32 bits: a sum
    past 2^31 wraps, passes the test against the maximum and leaves a negative count
    when nobody waits. *)
Theorem semaphore_release_wraps other_wakeup s o w mx n k : objects s !! o = Some w -> kind_of w = KSemaphore mx n ->
  waiting_threads w = [] -> 0 <= n <= mx -> mx < 2 ^ 31 -> 0 <= k < 2 ^ 31 -> 2 ^ 31 <= n + k ->
  exists s', Semaphore_Release other_wakeup o k s = Done (Val n, s') /\
    objects s' !! o = Some (mk_wobj [] (KSemaphore mx (n + k - 2 ^ 32))) /\ n + k - 2 ^ 32 < 0.
Proof.
  intros Ho Hk Hw Hn Hmx Hk1 Hsum. unfold Semaphore_Release, the_object. rewrite Ho. cbn [of_opt mbind outcome_bind]. rewrite Hk.
  assert (s32 (k + n) = n + k - 2 ^ 32) as -> by zdm. assert (s32 (n + k) = n + k - 2 ^ 32) as -> by zdm.
  destruct (Z.leb_spec (n + k - 2 ^ 32) mx); [|lia]. unfold WakeupAllWaitingThreads, the_object.
  set (s1 := set_kind o _ s). assert (objects s1 !! o = Some (mk_wobj [] (KSemaphore mx (n + k - 2 ^ 32)))) as Ho1.
  { unfold s1. by rewrite objects_kind, decide_True, Ho, <- Hw. }
  rewrite Ho1. cbn [of_opt mbind outcome_bind length waiting_threads wakeup_loop].
  unfold GetHighestPriorityReadyThread, the_object. rewrite Ho1. cbn [of_opt mbind outcome_bind best_ready waiting_threads].
  rewrite Ho1. cbn [of_opt mbind outcome_bind kind_of]. exists s1. split_and!; [done|done|lia].
Qed.

(** ** The life of threads *)

(** Creating a thread with valid arguments, when thread local storage can be had, adds
    exactly one thread, at its priority on its core, ready if so asked; its storage
    slot was free and is taken. *)
Lemma create_thread_fresh page_available s t junk valid entry priority arg pid stack p (make_ready : bool) pr :
  sys_ok s -> threads s !! t = None -> objects s !! t = None -> 0 <= priority <= 63 -> 0 <= pid <= ThreadProcessorIdMax ->
  (Z.to_nat pid < length (managers s))%nat -> valid entry = true ->
  (forall s', processes s' = processes s -> tls_available page_available s' p) -> processes s !! p = Some pr ->
  exists s' th x y, CreateThread_ page_available t junk valid entry priority arg pid stack p make_ready s = Done (Val t, s') /\
    threads s' = <[t := th]> (threads s) /\ status th = (if make_ready then Ready else Dormant) /\
    current_priority th = Z.to_nat priority /\ core_id th = Z.to_nat pid /\ owner_process th = Some p /\
    tls_address th = Tls.address x y /\ ~ Tls.used (tls_slots pr) x y /\
    exists pr', processes s' !! p = Some pr' /\ Tls.used (tls_slots pr') x y.
Proof.
  intros Hs Ht Ho Hp Hpid Hc Hv Htls Hpr.
  destruct (CreateThread_ok page_available s t junk valid entry priority arg pid stack p make_ready pr Hs Ht Ho Hp Hpid Hc Hv Htls Hpr)
    as (s' & th & x & y & E & _ & H1 & H2 & H3 & H4 & H5 & H6 & H7 & _ & H8). by exists s', th, x, y.
Qed.

(** ** Error paths *)

(** [svcCreateSemaphore] reserves the semaphore before it checks the counts: a rejected
    call keeps the reservation, so the process can no longer create that many semaphores. *)
Theorem create_semaphore_leaks s o initial mx p pr l lim lim' : initial > mx ->
  current_process s = Some p -> processes s !! p = Some pr -> resource_limit pr = Some l -> limits s !! l = Some lim ->
  Limit.Reserve Limit.Semaphore 1 lim = (true, lim') ->
  CreateSemaphore o initial mx s = Done (Err ResultInvalidCombinationKernel, upd_limit l (fun _ => lim') s).
Proof.
  intros Hc Hp Hpr Hl Hlim Hres. unfold CreateSemaphore, reserve, cur_limit, cur_process, read, lift, run_code, mbind, svc_bind.
  rewrite Hp. cbn [of_opt mbind outcome_bind]. unfold the_process. rewrite Hpr. cbn [of_opt mbind outcome_bind]. rewrite Hl.
  cbn [of_opt mbind outcome_bind]. rewrite Hlim. cbn [of_opt mbind outcome_bind]. rewrite Hres. cbn [of_opt mbind outcome_bind].
  unfold Ops.CreateSemaphore. destruct (Z.leb_spec initial mx); [lia|]. reflexivity.
Qed.

(** ** The theorems on a small kernel *)

(** Thread 100 holds a mutex, the more urgent thread 101 waits for it. *)
Definition locked_state : kern := steps [AWait 101 300 (-1)] (steps [ACreateMutex 300 true] (demo 4)).
(** Thread 101 waits at an address. *)
Definition arbiter_state : kern :=
  steps [AArbitrate 400 101 1 0x1000 5 0 0] (steps [ACreateAddressArbiter 400] (demo 4)).
Definition semaphore_state : kern := steps [ACreateSemaphore 500 0x7FFFFFFE 0x7FFFFFFF] (demo 4).

Lemma act_state a s : sys_ok s -> allowed any_address no_page a s -> sys_ok (steps [a] s).
Proof.
  intros Hs Ha. destruct (act_ok no_callback no_callback_quiet any_address no_page a s Hs Ha) as (s' & E & H).
  unfold steps. by rewrite E.
Qed.

Lemma locked_state_ok : sys_ok locked_state.
Proof.
  unfold locked_state.
  apply act_state; [apply act_state; [apply demo_ok; lia|]|].
  - split; [split; vm_compute; reflexivity|]. eexists. split; [vm_compute; reflexivity|eexists; vm_compute; reflexivity].
  - split; [eexists; split; vm_compute; reflexivity|eexists; vm_compute; reflexivity].
Qed.

Lemma arbiter_state_ok : sys_ok arbiter_state.
Proof.
  unfold arbiter_state.
  apply act_state; [apply act_state; [apply demo_ok; lia|vm_compute; reflexivity]|].
  split; [eexists; split; vm_compute; reflexivity|eexists; vm_compute; reflexivity].
Qed.

Lemma wakeup_all_best_first_witness : exists s' , WakeupAllWaitingThreads no_callback 300 locked_state = Done s' /\
  threads s' !! 101 = threads locked_state !! 101.
Proof.
  destruct (objects locked_state !! 300) as [w|] eqn:Ho; [|vm_compute in Ho; discriminate].
  destruct (wakeup_all_best_first no_callback no_callback_quiet locked_state 300 w locked_state_ok Ho) as (s1 & ts & E & _).
  revert E. generalize (settle 300 s1). intros s' E. exists s'. split; [exact E|].
  vm_compute in E. injection E as <-. vm_compute. reflexivity.
Defined.

Lemma mutex_release_hands_on_witness : exists r s', Mutex_Release no_callback 300 100 locked_state = Done (r, s') /\
  r = ResultSuccess /\ (match objects s' !! 300 with Some w => kind_of w | None => KThread end) = KMutex 1 63 (Some 101).
Proof.
  destruct (objects locked_state !! 300) as [w|] eqn:Ho; [|vm_compute in Ho; discriminate].
  destruct (threads locked_state !! 100) as [th|] eqn:Hth; [|vm_compute in Hth; discriminate].
  assert (kind_of w = KMutex 1 20 (Some 100)) as Hk by (vm_compute in Ho; injection Ho as <-; reflexivity).
  destruct (mutex_release_hands_on no_callback no_callback_quiet locked_state 300 w 1 20 (Some 100) 100 th locked_state_ok Ho Hk Hth)
    as (r & s' & E & Hcase). exists r, s'. split; [exact E|]. rewrite decide_True in Hcase by reflexivity.
  split; [apply Hcase|]. vm_compute in E. injection E as <- <-. vm_compute. reflexivity.
Defined.

Lemma thread_stop_releases_witness : exists s', Thread_Stop no_callback 100 locked_state = Done s' /\
  exists th', threads s' !! 100 = Some th' /\ status th' = Dead /\ held_mutexes th' = [].
Proof.
  destruct (threads locked_state !! 100) as [th|] eqn:Hth; [|vm_compute in Hth; discriminate].
  destruct (thread_stop_releases no_callback no_callback_quiet locked_state 100 th locked_state_ok Hth)
    as (s' & E & (th' & H1 & H2 & _ & H3) & _).
  - vm_compute in Hth. injection Hth as <-. discriminate.
  - intros w Hw. vm_compute in Hw. injection Hw as <-. intros Hin. apply list_elem_of_In in Hin. exact Hin.
  - exists s'. split; [exact E|]. exists th'. by split_and!.
Defined.

(** Thread 101 waits at an address with a time-out. *)
Definition arbiter_timeout_state : kern :=
  steps [AArbitrate 400 101 3 0x1000 5 1000 0] (steps [ACreateAddressArbiter 400] (demo 4)).

Lemma arbiter_timeout_state_ok : sys_ok arbiter_timeout_state.
Proof.
  unfold arbiter_timeout_state.
  apply act_state; [apply act_state; [apply demo_ok; lia|vm_compute; reflexivity]|].
  split; [eexists; split; vm_compute; reflexivity|eexists; vm_compute; reflexivity].
Qed.

Lemma timeout_ends_wait_witness : exists s', ThreadWakeupCallback no_callback 1 2 arbiter_timeout_state = Done s' /\ is_ready s' 101 /\
  arbiters arbiter_timeout_state !! 400 = Some [101] /\ forall l, arbiters s' !! 400 = Some l -> 101 ∉ l.
Proof.
  destruct (managers arbiter_timeout_state !! 1%nat) as [m|] eqn:Hm; [|vm_compute in Hm; discriminate].
  destruct (threads arbiter_timeout_state !! 101) as [th|] eqn:Hth; [|vm_compute in Hth; discriminate].
  assert (status th = WaitArb /\ wakeup_callback th = Some (CbArb 400)) as [Hst Hcb]
    by (vm_compute in Hth; injection Hth as <-; split; reflexivity).
  assert (Hid : wakeup_callback_table m !! 2 = Some 101) by (vm_compute in Hm; injection Hm as <-; vm_compute; reflexivity).
  assert (Hres : resumable (status th) = true) by (rewrite Hst; reflexivity).
  destruct (timeout_ends_wait no_callback no_callback_quiet arbiter_timeout_state 1 2 m 101 th arbiter_timeout_state_ok Hm Hid Hth Hres)
    as (s' & E & _ & Hr & _ & Ha).
  exists s'. split; [exact E|]. split; [exact Hr|]. split; [vm_compute; reflexivity|]. intros l Hl. exact (Ha 400 l Hst Hcb Hl).
Defined.

Lemma resume_cancels_timeout_witness : exists s', ResumeFromWait 101 arbiter_state = Done s' /\
  forall tm e, tm ∈ Timing.timers (timing s') -> e ∈ Timing.event_queue tm ->
    ~ Timing.matches (ThreadWakeupEventType 1) 2 e.
Proof.
  destruct (threads arbiter_state !! 101) as [th|] eqn:Hth; [|vm_compute in Hth; discriminate].
  destruct (ResumeFromWait 101 arbiter_state) as [s'|] eqn:E; [|vm_compute in E; discriminate].
  exists s'. split; [reflexivity|].
  assert (core_id th = 1%nat /\ thread_id th = 2 /\ status th = WaitArb) as (Hc & Hi & Hst)
    by (vm_compute in Hth; injection Hth as <-; split_and!; reflexivity).
  rewrite <- Hc, <- Hi. apply (resume_cancels_timeout arbiter_state 101 th s' Hth); [by rewrite Hst|vm_compute; reflexivity|exact E].
Defined.

Lemma priority_inheritance_witness : exists s', Mutex_UpdatePriority 300 locked_state = Done s' /\ mutex_prio s' 300 = Some 20%nat.
Proof.
  destruct (objects locked_state !! 300) as [w|] eqn:Ho; [|vm_compute in Ho; discriminate].
  destruct (threads locked_state !! 100) as [th|] eqn:Hth; [|vm_compute in Hth; discriminate].
  assert (kind_of w = KMutex 1 20 (Some 100) /\ waiting_threads w = [101]) as [Hk Hw]
    by (vm_compute in Ho; injection Ho as <-; split; reflexivity).
  destruct (priority_inheritance locked_state 300 w 1 20 100 th locked_state_ok Ho Hk Hth) as (s' & E & Hp & _).
  exists s'. split; [exact E|]. rewrite Hp, Hw. vm_compute. reflexivity.
Defined.

Lemma wait_synchronization_one_witness : exists r s', wait_one 200 100 (-1) (demo 5) = Done (r, s') /\ r = Err ResultTimeout.
Proof.
  destruct (objects (demo 5) !! 200) as [w|] eqn:Ho; [|vm_compute in Ho; discriminate].
  destruct (threads (demo 5) !! 100) as [th|] eqn:Hth; [|vm_compute in Hth; discriminate].
  destruct (wait_synchronization_one (demo 5) 200 w 100 th (-1) (demo_ok 5 ltac:(lia)) Ho Hth) as (b & r & s' & Eb & E & _ & Hcase).
  - vm_compute in Hth. injection Hth as <-. reflexivity.
  - exists r, s'. split; [exact E|]. vm_compute in Eb. injection Eb as <-. apply Hcase.
Defined.

(** A signalled event in a reachable state, waited for twice. *)
Lemma duplicate_wait_all_stops_witness : wait_all [200; 200] 100 (-1) (steps [ASignalEvent 200] (demo 5)) = Stop FAssert.
Proof.
  destruct (objects (steps [ASignalEvent 200] (demo 5)) !! 200) as [w|] eqn:Ho; [|vm_compute in Ho; discriminate].
  apply (duplicate_wait_all_stops _ 200 w 100 (-1) Ho). vm_compute in Ho. injection Ho as <-. reflexivity.
Defined.

Lemma arbiter_signal_wakes_best_witness : exists s' ws, signal_threads 400 100 0x1000 1 arbiter_state = Done s' /\ length ws = 1%nat /\
  forall u, if decide (u ∈ ws) then threads s' !! u = made_ready <$> threads arbiter_state !! u
            else threads s' !! u = threads arbiter_state !! u.
Proof.
  destruct (arbiters arbiter_state !! 400) as [l|] eqn:Hl; [|vm_compute in Hl; discriminate].
  destruct (threads arbiter_state !! 100) as [th|] eqn:Hth; [|vm_compute in Hth; discriminate].
  assert (l = [101]) as -> by (vm_compute in Hl; injection Hl as <-; reflexivity).
  destruct (arbiter_signal_wakes_best arbiter_state 400 100 th 0x1000 1 [101] arbiter_state_ok Hl (NoDup_singleton _) Hth)
    as (s' & ws & E & _ & _ & _ & Hn & _ & Hall). exists s', ws. split; [exact E|]. split; [rewrite Hn; vm_compute; reflexivity|exact Hall].
Defined.

Lemma semaphore_release_wraps_witness : exists s', Semaphore_Release no_callback 500 5 semaphore_state = Done (Val 0x7FFFFFFE, s') /\
  objects s' !! 500 = Some (mk_wobj [] (KSemaphore 0x7FFFFFFF (-0x7FFFFFFD))).
Proof.
  destruct (objects semaphore_state !! 500) as [w|] eqn:Ho; [|vm_compute in Ho; discriminate].
  assert (kind_of w = KSemaphore 0x7FFFFFFF 0x7FFFFFFE /\ waiting_threads w = []) as [Hk Hw]
    by (vm_compute in Ho; injection Ho as <-; split; reflexivity).
  destruct (semaphore_release_wraps no_callback semaphore_state 500 w 0x7FFFFFFF 0x7FFFFFFE 5 Ho Hk Hw) as (s' & E & Ho' & _); try lia.
  exists s'. split; [exact E|exact Ho'].
Defined.

Lemma create_thread_fresh_witness : exists s' th x y,
  CreateThread_ no_page 100 0 any_address 0x100000 30 0 0 0x8000000 1 true (demo 0) = Done (Val 100, s') /\
  threads s' !! 100 = Some th /\ status th = Ready /\ tls_address th = Tls.address x y.
Proof.
  assert (processes (demo 0) !! 1 = Some demo_process) as Hpr by (vm_compute; reflexivity).
  assert (threads (demo 0) !! 100 = None) as Ht by (vm_compute; reflexivity).
  assert (objects (demo 0) !! 100 = None) as Ho by (vm_compute; reflexivity).
  assert (Z.to_nat 0 < length (managers (demo 0)))%nat as Hc by (vm_compute; lia).
  destruct (create_thread_fresh no_page (demo 0) 100 0 any_address 0x100000 30 0 0 0x8000000 1 true demo_process (demo_ok 0 ltac:(lia))
    Ht Ho ltac:(lia) ltac:(unfold ThreadProcessorIdMax; lia) Hc eq_refl (fun s' => demo_tls 0 1 s' ltac:(lia) eq_refl) Hpr)
    as (s' & th & x & y & E & Et & Hst & _ & _ & _ & Htls & _).
  exists s', th, x, y. split_and!; [exact E|by rewrite Et, lookup_insert_eq|exact Hst|exact Htls].
Defined.

Lemma create_semaphore_leaks_witness : exists s', CreateSemaphore 600 5 3 (demo 4) = Done (Err ResultInvalidCombinationKernel, s') /\
  Limit.GetCurrentValue Limit.Semaphore <$> limits s' !! 0 = Some 1 /\
  Limit.GetCurrentValue Limit.Semaphore <$> limits (demo 4) !! 0 = Some 0.
Proof.
  destruct (limits (demo 4) !! 0) as [lim|] eqn:Hl; [|vm_compute in Hl; discriminate].
  destruct (processes (demo 4) !! 1) as [pr|] eqn:Hpr; [|vm_compute in Hpr; discriminate].
  destruct (Limit.Reserve Limit.Semaphore 1 lim) as [[] lim'] eqn:Hr; [|vm_compute in Hl; injection Hl as <-; vm_compute in Hr; discriminate].
  exists (upd_limit 0 (fun _ => lim') (demo 4)). split.
  - apply (create_semaphore_leaks (demo 4) 600 5 3 1 pr 0 lim lim'); [lia|vm_compute; reflexivity|exact Hpr| |exact Hl|exact Hr].
    vm_compute in Hpr. injection Hpr as <-. reflexivity.
  - vm_compute in Hl. injection Hl as <-. vm_compute in Hr. injection Hr as <-. split; vm_compute; reflexivity.
Defined.

End KT.
