(* ===== verification/MemoryMap.v ===== *)
(** * Address map

    The physical and virtual memory areas of the console (include/core/memory.h). *)
From S2P Require Import Prelude PageTable.

Module Map.

(** ** Physical memory *)

Definition IO_AREA_PADDR : Z := 0x10100000.
Definition IO_AREA_SIZE : Z := 0x00400000.
Definition VRAM_PADDR : Z := 0x18000000.
Definition VRAM_SIZE : Z := 0x00600000.
Definition VRAM_PADDR_END : Z := VRAM_PADDR + VRAM_SIZE.
Definition N3DS_EXTRA_RAM_PADDR : Z := 0x1F000000.
Definition N3DS_EXTRA_RAM_SIZE : Z := 0x00400000.
Definition DSP_RAM_PADDR : Z := 0x1FF00000.
Definition DSP_RAM_SIZE : Z := 0x00080000.
Definition FCRAM_PADDR : Z := 0x20000000.
Definition FCRAM_SIZE : Z := 0x08000000.
Definition FCRAM_N3DS_SIZE : Z := 0x10000000.
Definition FCRAM_PADDR_END : Z := FCRAM_PADDR + FCRAM_SIZE.
Definition FCRAM_N3DS_PADDR_END : Z := FCRAM_PADDR + FCRAM_N3DS_SIZE.

(** ** Virtual memory *)

Definition PROCESS_IMAGE_VADDR : Z := 0x00100000.
Definition PROCESS_IMAGE_MAX_SIZE : Z := 0x03F00000.
Definition PROCESS_IMAGE_VADDR_END : Z := PROCESS_IMAGE_VADDR + PROCESS_IMAGE_MAX_SIZE.
Definition IPC_MAPPING_VADDR : Z := 0x04000000.
Definition IPC_MAPPING_SIZE : Z := 0x04000000.
Definition IPC_MAPPING_VADDR_END : Z := IPC_MAPPING_VADDR + IPC_MAPPING_SIZE.
Definition HEAP_VADDR : Z := 0x08000000.
Definition HEAP_SIZE : Z := 0x08000000.
Definition HEAP_VADDR_END : Z := HEAP_VADDR + HEAP_SIZE.
Definition SHARED_MEMORY_VADDR : Z := 0x10000000.
Definition SHARED_MEMORY_SIZE : Z := 0x04000000.
Definition SHARED_MEMORY_VADDR_END : Z := SHARED_MEMORY_VADDR + SHARED_MEMORY_SIZE.
Definition LINEAR_HEAP_VADDR : Z := 0x14000000.
Definition LINEAR_HEAP_SIZE : Z := 0x08000000.
Definition LINEAR_HEAP_VADDR_END : Z := LINEAR_HEAP_VADDR + LINEAR_HEAP_SIZE.
Definition N3DS_EXTRA_RAM_VADDR : Z := 0x1E800000.
Definition N3DS_EXTRA_RAM_VADDR_END : Z := N3DS_EXTRA_RAM_VADDR + N3DS_EXTRA_RAM_SIZE.
Definition IO_AREA_VADDR : Z := 0x1EC00000.
Definition IO_AREA_VADDR_END : Z := IO_AREA_VADDR + IO_AREA_SIZE.
Definition VRAM_VADDR : Z := 0x1F000000.
Definition VRAM_VADDR_END : Z := VRAM_VADDR + VRAM_SIZE.
Definition DSP_RAM_VADDR : Z := 0x1FF00000.
Definition DSP_RAM_VADDR_END : Z := DSP_RAM_VADDR + DSP_RAM_SIZE.
Definition CONFIG_MEMORY_VADDR : Z := 0x1FF80000.
Definition CONFIG_MEMORY_SIZE : Z := 0x1000.
Definition CONFIG_MEMORY_VADDR_END : Z := CONFIG_MEMORY_VADDR + CONFIG_MEMORY_SIZE.
Definition SHARED_PAGE_VADDR : Z := 0x1FF81000.
Definition SHARED_PAGE_SIZE : Z := 0x1000.
Definition SHARED_PAGE_VADDR_END : Z := SHARED_PAGE_VADDR + SHARED_PAGE_SIZE.
Definition TLS_AREA_VADDR : Z := 0x1FF82000.
Definition TLS_ENTRY_SIZE : Z := 0x200.
Definition NEW_LINEAR_HEAP_VADDR : Z := 0x30000000.
Definition NEW_LINEAR_HEAP_SIZE : Z := 0x10000000.
Definition NEW_LINEAR_HEAP_VADDR_END : Z := NEW_LINEAR_HEAP_VADDR + NEW_LINEAR_HEAP_SIZE.
Definition PLUGIN_3GX_FB_VADDR : Z := 0x06000000.
Definition PLUGIN_3GX_FB_SIZE : Z := 0x000A9000.
Definition PLUGIN_3GX_FB_VADDR_END : Z := PLUGIN_3GX_FB_VADDR + PLUGIN_3GX_FB_SIZE.

(** [munfold] replaces the constants by their values. *)
Ltac munfold := unfold VRAM_PADDR_END, FCRAM_PADDR_END, FCRAM_N3DS_PADDR_END, HEAP_VADDR_END, SHARED_MEMORY_VADDR_END,
  LINEAR_HEAP_VADDR_END, N3DS_EXTRA_RAM_VADDR_END, IO_AREA_VADDR_END, VRAM_VADDR_END, DSP_RAM_VADDR_END,
  CONFIG_MEMORY_VADDR_END, SHARED_PAGE_VADDR_END, NEW_LINEAR_HEAP_VADDR_END, PLUGIN_3GX_FB_VADDR_END,
  IO_AREA_PADDR, IO_AREA_SIZE, VRAM_PADDR, VRAM_SIZE, N3DS_EXTRA_RAM_PADDR, N3DS_EXTRA_RAM_SIZE, DSP_RAM_PADDR,
  DSP_RAM_SIZE, FCRAM_PADDR, FCRAM_SIZE, FCRAM_N3DS_SIZE, HEAP_VADDR, HEAP_SIZE, SHARED_MEMORY_VADDR,
  SHARED_MEMORY_SIZE, LINEAR_HEAP_VADDR, LINEAR_HEAP_SIZE, N3DS_EXTRA_RAM_VADDR, IO_AREA_VADDR, VRAM_VADDR,
  DSP_RAM_VADDR, CONFIG_MEMORY_VADDR, CONFIG_MEMORY_SIZE, SHARED_PAGE_VADDR, SHARED_PAGE_SIZE, TLS_AREA_VADDR,
  TLS_ENTRY_SIZE, NEW_LINEAR_HEAP_VADDR, NEW_LINEAR_HEAP_SIZE, PLUGIN_3GX_FB_VADDR, PLUGIN_3GX_FB_SIZE,
  CITRA_PAGE_MASK, CITRA_PAGE_SIZE, CITRA_PAGE_BITS in *.
Ltac mlia := munfold; lia.

End Map.
