(* ===== verification/MemoryRegion.v ===== *)
(** * Memory regions of the FCRAM

    [MemoryRegionInfo] (core/hle/kernel/memory.cpp): the allocator of the
    APPLICATION, SYSTEM and BASE regions.  Free memory is a set of offsets kept by
    [boost::icl::interval_set<u32>]; the library is an interface here, the class
    [IntervalSet], with its documented behaviour as the laws [IntervalLaws]
    (iteration visits maximal right-open intervals in ascending order) and an
    instance on sorted lists. *)
From S2P Require Import Prelude Results PageTable MemoryMap.

Module Region.
Import Map.

(** ** Interval sets *)

(** A right-open interval: lower and upper bound; empty unless lower < upper. *)
Definition interval : Type := Z * Z.
Definition inside (x : Z) (i : interval) : Prop := i.1 <= x < i.2.
Definition covers (l : list interval) (x : Z) : Prop := exists i, i ∈ l /\ inside x i.
Definition length_of (i : interval) : Z := i.2 - i.1.
Definition total (l : list interval) : Z := foldr (fun i n => length_of i + n) 0 l.

(** Maximal intervals in ascending order, above a bound. *)
Fixpoint above (b : Z) (l : list interval) : Prop :=
  match l with [] => True | i :: l => b < i.1 /\ i.1 < i.2 /\ above i.2 l end.
Definition canonical (l : list interval) : Prop := exists b, above b l.

Class IntervalSet (S : Type) := {
  set_empty : S;
  blocks : S -> list interval;
  set_add : interval -> S -> S;
  set_sub : interval -> S -> S;
  set_union : S -> S -> S;
  set_minus : S -> S -> S;
  set_contains : interval -> S -> bool;
  set_intersects : interval -> S -> bool;
}.

Class IntervalLaws (S : Type) `{IntervalSet S} : Prop := {
  blocks_canonical s : canonical (blocks s);
  blocks_empty : blocks set_empty = [];
  covers_add i s x : covers (blocks (set_add i s)) x <-> inside x i \/ covers (blocks s) x;
  covers_sub i s x : covers (blocks (set_sub i s)) x <-> covers (blocks s) x /\ ~ inside x i;
  covers_union s s' x : covers (blocks (set_union s s')) x <-> covers (blocks s) x \/ covers (blocks s') x;
  covers_minus s s' x : covers (blocks (set_minus s s')) x <-> covers (blocks s) x /\ ~ covers (blocks s') x;
  contains_spec i s : set_contains i s = true <-> forall x, inside x i -> covers (blocks s) x;
  intersects_spec i s : set_intersects i s = true <-> exists x, inside x i /\ covers (blocks s) x;
}.

(** ** The allocator *)

Section Allocator.
Context {S : Type} `{IntervalSet S}.

Record region := mk_region { base : Z; size : Z; used : Z; free_blocks : S; is_locked : bool }.

Definition Reset (base_ size_ : Z) (r : region) : outcome region :=
  _ ← assert_ (negb (is_locked r));
  Done (mk_region base_ size_ 0 (set_add (base_, u32 (base_ + size_)) set_empty) (is_locked r)).

(** The loop of [HeapAllocate] from the highest block down. *)
Fixpoint heap_blocks (bs : list interval) (rest : Z) (result : S) : S * Z :=
  match bs with
  | [] => (result, rest)
  | i :: bs =>
      if rest <=? u32 (i.2 - i.1) then (set_add (u32 (i.2 - rest), i.2) result, 0)
      else heap_blocks bs (u32 (rest - u32 (i.2 - i.1))) (set_add i result)
  end.

(** An empty set when there is not enough space. *)
Definition HeapAllocate (size_ : Z) (r : region) : outcome (S * region) :=
  _ ← assert_ (negb (is_locked r));
  let '(result, rest) := heap_blocks (rev (blocks (free_blocks r))) size_ set_empty in
  Done (if negb (rest =? 0) then (set_empty, r)
        else (result, mk_region (base r) (size r) (u32 (used r + size_)) (set_minus (free_blocks r) result) (is_locked r))).

Definition take_interval (i : interval) (size_ : Z) (r : region) : region :=
  mk_region (base r) (size r) (u32 (used r + size_)) (set_sub i (free_blocks r)) (is_locked r).

(** At a given offset. *)
Definition LinearAllocateAt (offset size_ : Z) (r : region) : outcome (bool * region) :=
  _ ← assert_ (negb (is_locked r));
  let interval := (offset, u32 (offset + size_)) in
  Done (if set_contains interval (free_blocks r) then (true, take_interval interval size_ r) else (false, r)).

(** The first block that is large enough. *)
Fixpoint find_block (bs : list interval) (size_ : Z) : option interval :=
  match bs with
  | [] => None
  | i :: bs => if size_ <=? u32 (i.2 - i.1) then Some i else find_block bs size_
  end.

Definition LinearAllocate (size_ : Z) (r : region) : outcome (option Z * region) :=
  _ ← assert_ (negb (is_locked r));
  Done match find_block (blocks (free_blocks r)) size_ with
       | Some i => (Some i.1, take_interval (i.1, u32 (i.1 + size_)) size_ r)
       | None => (None, r)
       end.

Definition RLinearAllocate (size_ : Z) (r : region) : outcome (option Z * region) :=
  _ ← assert_ (negb (is_locked r));
  Done match find_block (rev (blocks (free_blocks r))) size_ with
       | Some i => (Some (u32 (i.2 - size_)), take_interval (u32 (i.2 - size_), i.2) size_ r)
       | None => (None, r)
       end.

Definition Free (offset size_ : Z) (r : region) : outcome region :=
  if is_locked r then Done r
  else
    let interval := (offset, u32 (offset + size_)) in
    _ ← assert_ (negb (set_intersects interval (free_blocks r)));
    Done (mk_region (base r) (size r) (u32 (used r - size_)) (set_add interval (free_blocks r)) (is_locked r)).

Definition Unlock (r : region) : region := mk_region (base r) (size r) (used r) (free_blocks r) false.
(** [serialize] when loading. *)
Definition load_region (saved : region) : region :=
  mk_region (base saved) (size saved) (used saved) (free_blocks saved) true.
End Allocator.

#[global] Arguments region S : clear implicits.

(** ** The regions of the system *)

(** Sizes of APPLICATION, SYSTEM and BASE for each memory mode. *)
Definition memory_region_sizes : list (list Z) :=
  [[0x04000000; 0x02C00000; 0x01400000]; [0; 0; 0];
   [0x06000000; 0x00C00000; 0x01400000]; [0x05000000; 0x01C00000; 0x01400000];
   [0x04800000; 0x02400000; 0x01400000]; [0x02000000; 0x04C00000; 0x01400000];
   [0x07C00000; 0x06400000; 0x02000000]; [0x0B200000; 0x02E00000; 0x02000000]].

Section Init.
Context {S : Type} `{IntervalSet S}.

Fixpoint reset_regions (rs : list (region S)) (sizes : list Z) (base_ : Z) : outcome (list (region S) * Z) :=
  match rs, sizes with
  | r :: rs, n :: sizes =>
      r ← Reset base_ n r;
      '(rs, b) ← reset_regions rs sizes (u32 (base_ + size r));
      Done (r :: rs, b)
  | _, _ => Done ([], base_)
  end.

(** The sizes the configuration page reports ([ConfigMemDef]). *)
Record config_mem := mk_config_mem { app_mem_type : Z; app_mem_alloc : Z; sys_mem_alloc : Z; base_mem_alloc : Z }.

Definition MemoryInit (memory_mode : nat) (is_new_3ds : bool) (rs : list (region S)) : outcome (list (region S) * config_mem) :=
  sizes ← of_opt FOutOfRange (memory_region_sizes !! memory_mode);
  '(rs, base_) ← reset_regions rs sizes 0;
  _ ← assert_ (base_ =? if is_new_3ds then FCRAM_N3DS_SIZE else FCRAM_SIZE);
  app ← of_opt FOutOfRange (rs !! 0%nat);
  sys ← of_opt FOutOfRange (rs !! 1%nat);
  base ← of_opt FOutOfRange (rs !! 2%nat);
  Done (rs, mk_config_mem (Z.of_nat memory_mode) (size app) (size sys) (size base)).

(** [MemoryRegion::APPLICATION], [SYSTEM] and [BASE] are 1, 2 and 3. *)
Definition GetMemoryRegion (m : Z) (rs : list (region S)) : outcome (region S) :=
  if (m =? 1) || (m =? 2) || (m =? 3) then of_opt FOutOfRange (rs !! Z.to_nat (m - 1)) else Stop FUnreachable.
End Init.

(** [MemoryMode::NewProd] and [New3dsMemoryMode::Legacy]. *)
Definition NewProd : nat := 6.
Definition Legacy : nat := 0.
Definition report_app_size (memory_mode : nat) (c : config_mem) : outcome config_mem :=
  sizes ← of_opt FOutOfRange (memory_region_sizes !! memory_mode);
  n ← of_opt FOutOfRange (sizes !! 0%nat);
  Done (mk_config_mem (app_mem_type c) n (sys_mem_alloc c) (base_mem_alloc c)).

(** [system_mode] is the mode of the kernel, [GetMemoryMode()]. *)
Definition UpdateReportedMemory (system_mode memory_mode n3ds_mode : nat) (c : config_mem) : outcome config_mem :=
  if (system_mode =? NewProd)%nat && (n3ds_mode =? Legacy)%nat then report_app_size memory_mode c else Done c.
Definition RestoreReportedMemory (system_mode : nat) (c : config_mem) : outcome config_mem :=
  if (system_mode =? NewProd)%nat then report_app_size system_mode c else Done c.

(** ** Lists of maximal intervals *)

Lemma covers_nil x : ~ covers [] x.
Proof. by intros (i & ?%not_elem_of_nil & _). Qed.
Lemma covers_cons i l x : covers (i :: l) x <-> inside x i \/ covers l x.
Proof.
  unfold covers. setoid_rewrite elem_of_cons. split.
  - intros (j & [->|Hj] & Hx); eauto.
  - intros [Hx|(j & Hj & Hx)]; eauto.
Qed.
Lemma covers_app l l' x : covers (l ++ l') x <-> covers l x \/ covers l' x.
Proof.
  unfold covers. setoid_rewrite elem_of_app. split.
  - intros (j & [Hj|Hj] & Hx); eauto.
  - intros [(j & Hj & Hx)|(j & Hj & Hx)]; eauto.
Qed.

Lemma above_weaken b b' l : b' <= b -> above b l -> above b' l.
Proof. destruct l; simpl; [done|]. intros Hb (? & ? & ?). split_and!; [lia|done|done]. Qed.

Lemma above_covers b l x : above b l -> covers l x -> b < x.
Proof.
  revert b. induction l as [|i l IH]; intros b; [by intros _ ?%covers_nil|].
  simpl. intros (Hb & Hi & Hl) [Hx|Hx]%covers_cons; [unfold inside in Hx; lia|]. specialize (IH _ Hl Hx). lia.
Qed.

Lemma above_block b l i : above b l -> i ∈ l -> b < i.1 < i.2.
Proof.
  revert b. induction l as [|j l IH]; intros b; [by intros _ ?%not_elem_of_nil|].
  simpl. intros (Hb & Hj & Hl) [->|Hi]%elem_of_cons; [lia|]. specialize (IH _ Hl Hi). lia.
Qed.

(** The list is determined by what it covers. *)
Lemma canonical_unique l : forall b l', above b l -> above b l' -> (forall x, covers l x <-> covers l' x) -> l = l'.
Proof.
  induction l as [|[a c] l IH]; intros b [|[a' c'] l'] Hl Hl' Hx; [done| | |].
  - simpl in Hl'. destruct (covers_nil a'). apply Hx, covers_cons. left. unfold inside; simpl. lia.
  - simpl in Hl. destruct (covers_nil a). apply Hx, covers_cons. left. unfold inside; simpl. lia.
  - simpl in Hl, Hl'. destruct Hl as (Hb & Hac & Hl), Hl' as (Hb' & Hac' & Hl').
    assert (forall x, covers l x -> c < x) as L1 by (intros x; by apply above_covers).
    assert (forall x, covers l' x -> c' < x) as L2 by (intros x; by apply above_covers).
    assert (forall x, (a <= x < c \/ covers l x) <-> (a' <= x < c' \/ covers l' x)) as Hx'.
    { intros x. pose proof (Hx x) as H. by rewrite !covers_cons in H. }
    assert (a = a') as <-.
    { pose proof (proj1 (Hx' a) ltac:(left; lia)) as [?|H1%L2]; pose proof (proj2 (Hx' a') ltac:(left; lia)) as [?|H2%L1]; lia. }
    assert (c = c') as <-.
    { destruct (Z.lt_trichotomy c c') as [Hlt|[|Hlt]]; [|done|].
      - destruct (proj2 (Hx' c) ltac:(left; lia)) as [?|?%L1]; lia.
      - destruct (proj1 (Hx' c') ltac:(left; lia)) as [?|?%L2]; lia. }
    f_equal. apply (IH c); [done|done|]. intros x. split; intros H.
    + pose proof (L1 x H). destruct (proj1 (Hx' x) (or_intror H)) as [?|?]; [lia|done].
    + pose proof (L2 x H). destruct (proj2 (Hx' x) (or_intror H)) as [?|?]; [lia|done].
Qed.

Lemma above_split b l1 i l2 : above b (l1 ++ i :: l2) ->
  i.1 < i.2 /\ above i.2 l2 /\ forall x, covers l1 x -> x < i.1.
Proof.
  revert b. induction l1 as [|j l1 IH]; intros b; simpl.
  - intros (_ & Hi & Hl). split_and!; [done|done|]. by intros x ?%covers_nil.
  - intros (_ & Hj & Hl). destruct (IH _ Hl) as (Hi & Hl2 & Hx). split_and!; [done|done|].
    intros x [Hin|Hin]%covers_cons; [|auto]. pose proof (above_block _ _ i Hl ltac:(apply elem_of_app; right; left)).
    unfold inside in Hin. lia.
Qed.

Lemma total_app l l' : total (l ++ l') = total l + total l'.
Proof. induction l as [|i l IH]; simpl; [done|]. unfold total in *. simpl. lia. Qed.

(** ** Allocation *)

Section Laws.
Context {S : Type} `{IntervalLaws S}.
Implicit Types r : region S.

(** Free memory lies in the region, whose end fits 32 bits. *)
Record region_ok r : Prop := {
  ro_base : 0 <= base r; ro_size : 0 <= size r; ro_end : base r + size r < 2 ^ 32;
  ro_free : forall x, covers (blocks (free_blocks r)) x -> base r <= x < base r + size r;
  ro_unlocked : is_locked r = false;
}.

Lemma block_bounds r i : region_ok r -> i ∈ blocks (free_blocks r) -> base r <= i.1 /\ i.1 < i.2 /\ i.2 <= base r + size r.
Proof using Type*.
  intros Hr Hi. destruct (blocks_canonical (free_blocks r)) as [b Hb]. pose proof (above_block b _ i Hb Hi) as [_ Hlt].
  destruct (ro_free _ Hr i.1) as [? _]; [exists i; split; [done|unfold inside; lia]|].
  destruct (ro_free _ Hr (i.2 - 1)) as [_ ?]; [exists i; split; [done|unfold inside; lia]|]. lia.
Qed.

Lemma total_cons i l : total (i :: l) = i.2 - i.1 + total l.
Proof using Type. done. Qed.

Lemma total_nonneg l : (forall i, i ∈ l -> i.1 < i.2) -> 0 <= total l.
Proof using Type.
  induction l as [|i l IH]; intros Hl; [done|]. rewrite total_cons. pose proof (Hl i ltac:(left)).
  specialize (IH ltac:(intros; apply Hl; by right)). lia.
Qed.

Lemma heap_blocks_fail bs : (forall i, i ∈ bs -> 0 <= i.1 /\ i.1 < i.2 /\ i.2 < 2 ^ 32) -> forall n result,
  0 <= n < 2 ^ 32 -> total bs < n -> exists res, heap_blocks bs n result = (res, n - total bs).
Proof using Type*.
  induction bs as [|i bs IH]; intros Hb n result Hn Ht; cbn [heap_blocks].
  { exists result. unfold total. simpl. f_equal. lia. }
  destruct (Hb i ltac:(left)) as (B1 & B2 & B3). rewrite total_cons in *.
  assert (0 <= total bs) as Hpos by (apply total_nonneg; intros j Hj; apply Hb; by right).
  rewrite (u32_small (i.2 - i.1)) by lia. destruct (Z.leb_spec n (i.2 - i.1)); [lia|]. rewrite u32_small by lia.
  destruct (IH ltac:(intros; apply Hb; by right) (n - (i.2 - i.1)) (set_add i result)) as (res & ->); [lia|lia|].
  exists res. f_equal. lia.
Qed.

Lemma heap_blocks_some bs : (forall i, i ∈ bs -> 0 <= i.1 /\ i.1 < i.2 /\ i.2 < 2 ^ 32) -> forall n result,
  0 < n < 2 ^ 32 -> n <= total bs -> exists res bs1 i bs2 k, heap_blocks bs n result = (res, 0) /\ bs = bs1 ++ i :: bs2 /\
    0 < k <= length_of i /\ total bs1 + k = n /\
    forall x, covers (blocks res) x <-> covers (blocks result) x \/ covers bs1 x \/ inside x (i.2 - k, i.2).
Proof using Type*.
  induction bs as [|i bs IH]; intros Hb n result Hn Ht; cbn [heap_blocks]; [unfold total in Ht; simpl in Ht; lia|].
  destruct (Hb i ltac:(left)) as (B1 & B2 & B3). rewrite total_cons in Ht.
  rewrite (u32_small (i.2 - i.1)) by lia. destruct (Z.leb_spec n (i.2 - i.1)).
  - eexists _, [], i, bs, n. split; [done|]. split; [done|]. split; [unfold length_of; lia|]. split; [done|].
    intros x. rewrite covers_add, u32_small by lia. pose proof (covers_nil x). tauto.
  - rewrite u32_small by lia.
    destruct (IH ltac:(intros; apply Hb; by right) (n - (i.2 - i.1)) (set_add i result)) as (res & bs1 & j & bs2 & k & E & -> & Hk & Hs & Hx); [lia|lia|].
    exists res, (i :: bs1), j, bs2, k. split; [done|]. split; [done|]. split; [done|]. split; [rewrite total_cons; lia|].
    intros x. rewrite Hx, covers_add, covers_cons. tauto.
Qed.

Lemma total_rev l : total (rev l) = total l.
Proof using Type. induction l as [|i l IH]; [done|]. simpl rev. rewrite total_app, IH. unfold total. simpl. lia. Qed.

Lemma covers_rev l x : covers (rev l) x <-> covers l x.
Proof using Type.
  unfold covers. split; intros (i & Hi & Hx); exists i; (split; [|done]);
    apply list_elem_of_In; apply list_elem_of_In in Hi; [by apply in_rev|by apply in_rev; rewrite rev_involutive].
Qed.

Lemma blocks_nil (s : S) : (forall x, ~ covers (blocks s) x) -> blocks s = [].
Proof using Type*.
  intros Hn. destruct (blocks_canonical s) as [b Hb]. apply (canonical_unique _ b []); [done|done|].
  intros x. split; [by intros ?%Hn|by intros ?%covers_nil].
Qed.

(** What an allocation takes. *)
Record taken r (res : S) (n : Z) r' : Prop := {
  tk_total : total (blocks res) = n;
  tk_free : forall x, covers (blocks res) x -> covers (blocks (free_blocks r)) x;
  tk_rest : forall x, covers (blocks (free_blocks r')) x <-> covers (blocks (free_blocks r)) x /\ ~ covers (blocks res) x;
  tk_used : used r' = u32 (used r + n);
  tk_same : (base r', size r', is_locked r') = (base r, size r, is_locked r);
}.

Lemma rev_block_bounds r i : region_ok r -> i ∈ rev (blocks (free_blocks r)) -> 0 <= i.1 /\ i.1 < i.2 /\ i.2 < 2 ^ 32.
Proof using Type*.
  intros Hr Hi. apply list_elem_of_In, in_rev, list_elem_of_In in Hi. pose proof (block_bounds r i Hr Hi). destruct Hr. lia.
Qed.

(** The blocks the loop of [HeapAllocate] collects: the topmost [n] free bytes. *)
Lemma heap_result r n : region_ok r -> 0 <= n < 2 ^ 32 -> n <= total (blocks (free_blocks r)) ->
  exists res, heap_blocks (rev (blocks (free_blocks r))) n set_empty = (res, 0) /\ total (blocks res) = n /\
    (forall x, covers (blocks res) x -> covers (blocks (free_blocks r)) x) /\
    forall x y, covers (blocks (free_blocks r)) x -> ~ covers (blocks res) x -> covers (blocks res) y -> x < y.
Proof using Type*.
  intros Hr Hn Hge. assert (forall i, i ∈ rev (blocks (free_blocks r)) -> 0 <= i.1 /\ i.1 < i.2 /\ i.2 < 2 ^ 32) as Hbs
    by (intros i; by apply rev_block_bounds).
  destruct (blocks_canonical (free_blocks r)) as [b Hb]. set (L := blocks (free_blocks r)) in *.
  destruct (decide (n = 0)) as [->|Hn0].
  { assert (exists res, heap_blocks (rev L) 0 set_empty = (res, 0) /\ forall x, ~ covers (blocks res) x) as (res & E & Hno).
    { destruct (rev L) as [|i l].
      - exists set_empty. split; [done|]. rewrite blocks_empty. apply covers_nil.
      - eexists. cbn [heap_blocks]. pose proof (Hbs i ltac:(left)). pose proof (u32_range (i.2 - i.1)).
        destruct (Z.leb_spec 0 (u32 (i.2 - i.1))); [|lia]. split; [done|]. intros x. rewrite covers_add, blocks_empty, u32_small by lia.
        unfold inside. simpl. intros [?|?%covers_nil]; [lia|done]. }
    exists res. split; [done|]. rewrite (blocks_nil res Hno). split_and!; [done|by intros x ?%covers_nil|by intros x y _ _ ?%covers_nil]. }
  destruct (heap_blocks_some (rev L) Hbs n set_empty ltac:(lia) ltac:(by rewrite total_rev)) as (res & bs1 & i & bs2 & k & E & EL & Hk & Hs & Hx).
  assert (L = rev bs2 ++ i :: rev bs1) as EL'.
  { rewrite <- (rev_involutive L), EL, rev_app_distr. simpl. by rewrite <- app_assoc. }
  rewrite EL' in Hb. destruct (above_split _ _ _ _ Hb) as (Hi2 & Hb1 & Hb2). unfold length_of in Hk.
  assert (forall x, covers (blocks res) x <-> covers ((i.2 - k, i.2) :: rev bs1) x) as Hx'.
  { intros x. rewrite Hx, blocks_empty, covers_cons, covers_rev. pose proof (covers_nil x). tauto. }
  assert (blocks res = (i.2 - k, i.2) :: rev bs1) as Eres.
  { destruct (blocks_canonical res) as [b' Hb']. apply (canonical_unique _ (Z.min b' (i.2 - k - 1))); [|simpl; split_and!; [lia|lia|done]|exact Hx'].
    eapply above_weaken; [|exact Hb']. lia. }
  exists res. split; [done|]. split; [rewrite Eres, total_cons, total_rev; simpl; lia|]. rewrite EL', Eres. split.
  - intros x. rewrite covers_app, !covers_cons. unfold inside. simpl. intros [?|?]; [right; left; lia|by right; right].
  - intros x y. rewrite covers_app, !covers_cons. intros [H1|[H1|H1]] H2 H3.
    + pose proof (Hb2 x H1).
      assert (i.1 <= y); [|lia]. destruct H3 as [H3|H3]; [unfold inside in H3; simpl in H3; lia|].
      pose proof (above_covers _ _ _ Hb1 H3). lia.
    + assert (x < i.2 - k) by (unfold inside in *; simpl in *; lia).
      destruct H3 as [H3|H3]; [unfold inside in H3; simpl in H3; lia|]. pose proof (above_covers _ _ _ Hb1 H3). lia.
    + by destruct H2; right.
Qed.

Lemma HeapAllocate_ok r n : region_ok r -> 0 <= n < 2 ^ 32 -> exists res r', HeapAllocate n r = Done (res, r') /\
  if total (blocks (free_blocks r)) <? n then res = set_empty /\ r' = r
  else taken r res n r' /\ forall x y, covers (blocks (free_blocks r')) x -> covers (blocks res) y -> x < y.
Proof using Type*.
  intros Hr Hn. unfold HeapAllocate. rewrite (ro_unlocked _ Hr). cbn [negb assert_ mbind outcome_bind].
  destruct (Z.ltb_spec (total (blocks (free_blocks r))) n) as [Hlt|Hge].
  - destruct (heap_blocks_fail (rev (blocks (free_blocks r))) ltac:(intros i; by apply rev_block_bounds) n set_empty Hn) as (res & ->); [by rewrite total_rev|].
    rewrite total_rev. destruct (Z.eqb_spec (n - total (blocks (free_blocks r))) 0); [lia|]. by exists set_empty, r.
  - destruct (heap_result r n Hr Hn Hge) as (res & -> & Htot & Hin & Htop). change (negb (0 =? 0)) with false. cbv iota.
    eexists _, _. split; [done|]. split; [split|]; cbn [free_blocks used base size is_locked]; [done|done|intros x; by rewrite covers_minus|done|by rewrite (ro_unlocked _ Hr)|].
    intros x y. rewrite covers_minus. intros [H1 H2] H3. by apply Htop.
Qed.
End Laws.

(** ** An instance: lists of intervals *)

(** [blocks] sorts and merges. *)
Fixpoint merge_in (i : interval) (l : list interval) : list interval :=
  match l with
  | [] => [i]
  | j :: l' =>
      if i.2 <? j.1 then i :: l
      else if j.2 <? i.1 then j :: merge_in i l'
      else merge_in (Z.min i.1 j.1, Z.max i.2 j.2) l'
  end.
Definition add_block (i : interval) (l : list interval) : list interval := if i.1 <? i.2 then merge_in i l else l.
Definition sort_blocks (l : list interval) : list interval := foldr add_block [] l.
Definition cut (i j : interval) : list interval := [(j.1, Z.min j.2 i.1); (Z.max j.1 i.2, j.2)].
Definition cut_all (i : interval) (l : list interval) : list interval := if i.1 <? i.2 then l ≫= cut i else l.
Definition empty_interval (j : interval) : bool := negb (j.1 <? j.2).
Definition overlaps (i j : interval) : bool := Z.max i.1 j.1 <? Z.min i.2 j.2.

#[export] Instance list_intervals : IntervalSet (list interval) := {
  set_empty := [];
  blocks := sort_blocks;
  set_add := cons;
  set_sub := cut_all;
  set_union := app;
  set_minus l l' := foldr cut_all l l';
  set_contains i l := forallb empty_interval (foldr cut_all [i] l);
  set_intersects i l := existsb (overlaps i) l;
}.

Lemma merge_in_above l : forall b i, b < i.1 -> i.1 < i.2 -> above b l -> above b (merge_in i l).
Proof.
  induction l as [|j l IH]; intros b i Hb Hi Hl; simpl; [done|]. simpl in Hl. destruct Hl as (Hj & Hjj & Hl).
  destruct (Z.ltb_spec i.2 j.1); [done|]. destruct (Z.ltb_spec j.2 i.1).
  - split_and!; [done|done|]. by apply IH.
  - apply IH; simpl; [lia|lia|]. eapply above_weaken; [|done]. lia.
Qed.

Lemma merge_in_covers l : forall i x, i.1 < i.2 -> (forall j, j ∈ l -> j.1 < j.2) ->
  covers (merge_in i l) x <-> inside x i \/ covers l x.
Proof.
  induction l as [|j l IH]; intros i x Hi Hl; simpl; [by rewrite covers_cons|].
  pose proof (Hl j ltac:(left)). assert (forall j, j ∈ l -> j.1 < j.2) as Hl' by (intros; apply Hl; by right).
  destruct (Z.ltb_spec i.2 j.1); [by rewrite covers_cons|]. destruct (Z.ltb_spec j.2 i.1).
  - rewrite !covers_cons, (IH i x Hi Hl'). tauto.
  - rewrite IH by (simpl; first [lia|done]). rewrite covers_cons. unfold inside. simpl. split.
    + intros [?|?]; [|tauto]. destruct (decide (i.1 <= x < i.2)); [tauto|]. right. left. lia.
    + intros [?|[?|?]]; [left; lia|left; lia|tauto].
Qed.

Lemma sort_blocks_above l : canonical (sort_blocks l).
Proof.
  induction l as [|i l (b & IH)]; [by exists 0|]. cbn [sort_blocks foldr]. unfold add_block. destruct (Z.ltb_spec i.1 i.2); [|by exists b].
  exists (Z.min b (i.1 - 1)). apply merge_in_above; [lia|done|]. eapply above_weaken; [|done]. lia.
Qed.

Lemma sort_blocks_covers l x : covers (sort_blocks l) x <-> covers l x.
Proof.
  induction l as [|i l IH]; [done|]. cbn [sort_blocks foldr]. rewrite covers_cons, <- IH. unfold add_block.
  destruct (Z.ltb_spec i.1 i.2) as [Hi|Hi].
  - apply merge_in_covers; [done|]. intros j Hj. destruct (sort_blocks_above l) as (b & Hb).
    by destruct (above_block b _ j Hb Hj).
  - unfold inside. split; [tauto|]. intros [?|?]; [lia|done].
Qed.

Lemma cut_all_covers i l x : covers (cut_all i l) x <-> covers l x /\ ~ inside x i.
Proof.
  unfold cut_all, inside. destruct (Z.ltb_spec i.1 i.2); [|split; [|tauto]; intros ?; split; [done|lia]].
  induction l as [|j l IH]; simpl; [split; [by intros ?%covers_nil|by intros [?%covers_nil _]]|].
  rewrite !covers_cons, IH. unfold inside. simpl. split.
  - intros [?|[?|[? ?]]]; [split; [left|]; lia|split; [left|]; lia|tauto].
  - intros [[?|?] ?]; [|tauto]. destruct (decide (x < i.1)); [left; lia|right; left; lia].
Qed.

Lemma cut_list_covers l l' x : covers (foldr cut_all l l') x <-> covers l x /\ ~ covers l' x.
Proof.
  induction l' as [|i l' IH]; simpl; [pose proof (covers_nil x); tauto|]. rewrite cut_all_covers, IH, covers_cons. tauto.
Qed.

Lemma all_empty l : forallb empty_interval l = true <-> forall x, ~ covers l x.
Proof.
  rewrite forallb_forall. unfold empty_interval. split.
  - intros Hl x (j & Hj & Hx). apply list_elem_of_In in Hj. specialize (Hl j Hj). unfold inside in Hx.
    destruct (Z.ltb_spec j.1 j.2); [done|lia].
  - intros Hl j Hj. destruct (Z.ltb_spec j.1 j.2); [|done]. destruct (Hl j.1). exists j. apply list_elem_of_In in Hj. unfold inside. split; [done|lia].
Qed.

#[export] Instance inside_dec x i : Decision (inside x i).
Proof. unfold inside. apply _. Defined.
#[export] Instance covers_dec l x : Decision (covers l x).
Proof.
  refine (cast_if (decide (Exists (inside x) l))); [abstract by apply Exists_exists|].
  abstract (intros Hc; apply Exists_exists in Hc; done).
Defined.

Lemma some_overlap i l : existsb (overlaps i) l = true <-> exists x, inside x i /\ covers l x.
Proof.
  rewrite existsb_exists. unfold overlaps, covers, inside. split.
  - intros (j & Hj & Ho%Z.ltb_lt). apply list_elem_of_In in Hj. exists (Z.max i.1 j.1). split; [lia|]. exists j. split; [done|lia].
  - intros (x & Hi & j & Hj & Hx). exists j. apply list_elem_of_In in Hj. split; [done|]. apply Z.ltb_lt. lia.
Qed.

#[export] Instance list_laws : IntervalLaws (list interval).
Proof.
  split; cbn [blocks set_empty set_add set_sub set_union set_minus set_contains set_intersects list_intervals].
  - apply sort_blocks_above.
  - done.
  - intros i s x. by rewrite !sort_blocks_covers, covers_cons.
  - intros i s x. by rewrite !sort_blocks_covers, cut_all_covers.
  - intros s s' x. by rewrite !sort_blocks_covers, covers_app.
  - intros s s' x. by rewrite !sort_blocks_covers, cut_list_covers.
  - intros i s. rewrite all_empty. split; intros Hc x.
    + intros Hx. rewrite sort_blocks_covers. destruct (decide (covers s x)) as [|Hn]; [done|]. destruct (Hc x).
      apply cut_list_covers. split; [|done]. apply covers_cons. by left.
    + rewrite cut_list_covers, covers_cons. intros [[Hx|?%covers_nil] Hn]; [|done]. apply Hn, sort_blocks_covers, Hc, Hx.
  - intros i s. setoid_rewrite sort_blocks_covers. apply some_overlap.
Qed.

(** ** The bytes in use

    The contract of a region: a set of bytes in use.  [bytes l] is the set a list of
    intervals covers. *)

Definition bytes (l : list interval) : gset Z := list_to_set (l ≫= fun i => seqZ i.1 (i.2 - i.1)).

Lemma elem_of_bytes l x : x ∈ bytes l <-> covers l x.
Proof.
  unfold bytes, covers, inside. rewrite elem_of_list_to_set, list_elem_of_bind. setoid_rewrite elem_of_seqZ.
  split; intros (i & Hi & Hx); exists i; split; first [done|lia].
Qed.

Lemma bytes_total b l : above b l -> Z.of_nat (base.size (bytes l)) = total l.
Proof.
  revert b. induction l as [|i l IH]; intros b; [done|]. simpl. intros (_ & Hi & Hl).
  assert (bytes (i :: l) = list_to_set (seqZ i.1 (i.2 - i.1)) ∪ bytes l) as -> by (unfold bytes; cbn [mbind list_bind]; by rewrite list_to_set_app_L).
  rewrite size_union, size_list_to_set, length_seqZ, Nat2Z.inj_add, (IH _ Hl) by (try apply NoDup_seqZ;
    intros x; rewrite elem_of_list_to_set, elem_of_seqZ, elem_of_bytes; intros Hx ?%(above_covers _ _ _ Hl); lia).
  unfold total, length_of. simpl. lia.
Qed.

Section Ledger.
Context {S : Type} `{IntervalLaws S}.
Implicit Types r : region S.

Definition free_bytes r : gset Z := bytes (blocks (free_blocks r)).
Definition range (a n : Z) : gset Z := bytes [(a, a + n)].

Lemma elem_of_range a n x : x ∈ range a n <-> a <= x < a + n.
Proof using Type.
  unfold range. rewrite elem_of_bytes, covers_cons. unfold inside. simpl. split; [|tauto]. intros [?|?%covers_nil]; [done|done].
Qed.

Lemma size_blocks (s : S) : Z.of_nat (base.size (bytes (blocks s))) = total (blocks s).
Proof using Type*. destruct (blocks_canonical s) as [b Hb]. by eapply bytes_total. Qed.

Lemma size_range a n : 0 <= n -> Z.of_nat (base.size (range a n)) = n.
Proof using Type.
  intros Hn. destruct (decide (n = 0)) as [->|].
  - assert (range a 0 = ∅) as ->; [|done]. apply set_eq. intros x. rewrite elem_of_range. split; [lia|]. by intros ?%elem_of_empty.
  - unfold range. rewrite (bytes_total (a - 1)) by (simpl; lia). unfold total, length_of. simpl. lia.
Qed.

(** The bytes in use are those of the region that are not free, and are counted by [used]. *)
Record ledger r (live : gset Z) : Prop := {
  lg_ok : region_ok r;
  lg_live : live = range (base r) (size r) ∖ free_bytes r;
  lg_used : used r = Z.of_nat (base.size live);
}.

Definition layout r : Z * Z * bool := (base r, size r, is_locked r).

(** Taking free bytes, giving bytes in use back. *)
Lemma ledger_take r r' live (got : gset Z) : ledger r live -> got ⊆ free_bytes r -> free_bytes r' = free_bytes r ∖ got ->
  used r' = u32 (used r + Z.of_nat (base.size got)) -> layout r' = layout r ->
  ledger r' (live ∪ got) /\ got ## live.
Proof using Type*.
  intros [Hr Hl Hu] Hg Hf Hu' [= Hb Hs Hk].
  assert (got ## live) as Hd by (clear -Hl Hg; set_solver).
  assert (got ⊆ range (base r) (size r)) as Hin.
  { intros x Hx. apply elem_of_range. by apply (ro_free _ Hr), elem_of_bytes, Hg. }
  assert (live ∪ got ⊆ range (base r) (size r)) as Hsub by (clear -Hl Hin; set_solver).
  apply subseteq_size, Nat2Z.inj_le in Hsub. rewrite size_range in Hsub by apply Hr. rewrite size_union in Hsub by (clear -Hd; set_solver).
  split; [|done]. split.
  - destruct Hr as [H1 H2 H3 H4 H5]. split; rewrite ?Hb, ?Hs; [done|done|done| |congruence].
    intros x Hx%elem_of_bytes. apply H4, elem_of_bytes. change (x ∈ free_bytes r') in Hx. rewrite Hf in Hx. by apply elem_of_difference in Hx as [? _].
  - rewrite Hb, Hs, Hf, Hl. apply set_eq. intros x. rewrite elem_of_union, !elem_of_difference.
    destruct (decide (x ∈ got)) as [Hx|]; [|tauto]. specialize (Hin x Hx). tauto.
  - rewrite Hu', Hu, size_union by (clear -Hd; set_solver). destruct Hr. rewrite u32_small; lia.
Qed.

Lemma ledger_give r r' live (back : gset Z) : ledger r live -> back ⊆ live -> free_bytes r' = free_bytes r ∪ back ->
  used r' = u32 (used r - Z.of_nat (base.size back)) -> layout r' = layout r -> ledger r' (live ∖ back).
Proof using Type*.
  intros [Hr Hl Hu] Hg Hf Hu' [= Hb Hs Hk].
  assert (live ⊆ range (base r) (size r)) as Hsub by (rewrite Hl; intros x [? _]%elem_of_difference; done).
  pose proof (subseteq_size _ _ Hg) as Hle. pose proof (subseteq_size _ _ Hsub) as Hle'. apply Nat2Z.inj_le in Hle, Hle'.
  rewrite size_range in Hle' by apply Hr. split.
  - destruct Hr as [H1 H2 H3 H4 H5]. split; rewrite ?Hb, ?Hs; [done|done|done| |congruence].
    intros x Hx%elem_of_bytes. change (x ∈ free_bytes r') in Hx. rewrite Hf in Hx. apply elem_of_union in Hx as [Hx|Hx].
    + by apply H4, elem_of_bytes.
    + by apply elem_of_range, Hsub, Hg.
  - rewrite Hb, Hs, Hf, Hl. apply set_eq. intros x. rewrite !elem_of_difference, elem_of_union. tauto.
  - rewrite Hu', Hu, size_difference by done. destruct Hr. rewrite u32_small; lia.
Qed.
End Ledger.

(** ** Contiguous allocation *)

(** A run of covered bytes lies in one block. *)
Lemma run_in_block l : forall b a n, above b l -> 0 < n -> (forall x, a <= x < a + n -> covers l x) ->
  exists i, i ∈ l /\ i.1 <= a /\ a + n <= i.2.
Proof.
  induction l as [|i l IH]; intros b a n Hl Hn Hx; [destruct (covers_nil a); apply Hx; lia|].
  simpl in Hl. destruct Hl as (_ & Hi & Hl). assert (forall x, covers l x -> i.2 < x) as Hgt by (intros x; by apply above_covers).
  destruct (proj1 (covers_cons _ _ _) (Hx a ltac:(lia))) as [Ha|Ha]; [unfold inside in Ha|].
  - exists i. split; [left|]. split; [lia|]. destruct (Z.leb_spec (a + n) i.2); [done|].
    destruct (proj1 (covers_cons _ _ _) (Hx i.2 ltac:(lia))) as [Hc|Hc]; [unfold inside in Hc; lia|apply Hgt in Hc; lia].
  - pose proof (Hgt a Ha) as Hgta. destruct (IH _ a n Hl Hn) as (j & Hj & Hr).
    + intros x Hr. destruct (proj1 (covers_cons _ _ _) (Hx x Hr)) as [Hc|Hc]; [unfold inside in Hc; lia|done].
    + exists j. split; [by right|done].
Qed.

Lemma find_block_none bs n : (forall i, i ∈ bs -> 0 <= i.1 /\ i.1 < i.2 /\ i.2 < 2 ^ 32) ->
  find_block bs n = None -> forall i, i ∈ bs -> i.2 - i.1 < n.
Proof.
  induction bs as [|j bs IH]; intros Hb E i Hi; [by apply not_elem_of_nil in Hi|]. simpl in E.
  pose proof (Hb j ltac:(left)). rewrite u32_small in E by lia. destruct (Z.leb_spec n (j.2 - j.1)); [done|].
  apply elem_of_cons in Hi as [->|Hi]; [done|]. apply IH; [|done|done]. intros k Hk. apply Hb. by right.
Qed.

Lemma find_block_some bs n i : (forall i, i ∈ bs -> 0 <= i.1 /\ i.1 < i.2 /\ i.2 < 2 ^ 32) ->
  find_block bs n = Some i -> n <= i.2 - i.1 /\ exists l1 l2, bs = l1 ++ i :: l2 /\ forall j, j ∈ l1 -> j.2 - j.1 < n.
Proof.
  induction bs as [|j bs IH]; intros Hb E; [done|]. simpl in E.
  pose proof (Hb j ltac:(left)). rewrite u32_small in E by lia. destruct (Z.leb_spec n (j.2 - j.1)).
  - injection E as ->. split; [done|]. exists [], bs. split; [done|]. by intros k ?%not_elem_of_nil.
  - destruct IH as (Hn & l1 & l2 & -> & Hl); [intros k Hk; apply Hb; by right|done|]. split; [done|].
    exists (j :: l1), l2. split; [done|]. intros k [->|Hk]%elem_of_cons; [done|auto].
Qed.

Section Linear.
Context {S : Type} `{IntervalLaws S}.
Implicit Types r : region S.

Lemma run_block r a n : 0 < n -> range a n ⊆ free_bytes r -> exists i, i ∈ blocks (free_blocks r) /\ i.1 <= a /\ a + n <= i.2.
Proof using Type*.
  intros Hn Hf. destruct (blocks_canonical (free_blocks r)) as [b Hb]. apply (run_in_block _ b); [done|done|].
  intros x Hx. by apply elem_of_bytes, Hf, elem_of_range.
Qed.

Lemma block_free r i a n : i ∈ blocks (free_blocks r) -> i.1 <= a -> a + n <= i.2 -> range a n ⊆ free_bytes r.
Proof using Type*.
  intros Hi Ha Hn x Hx%elem_of_range. apply elem_of_bytes. exists i. split; [done|]. unfold inside. lia.
Qed.

Lemma no_block r n a : region_ok r -> 0 < n -> (forall i, i ∈ blocks (free_blocks r) -> i.2 - i.1 < n) -> ~ range a n ⊆ free_bytes r.
Proof using Type*. intros Hr Hn Hl Hf. destruct (run_block r a n Hn Hf) as (i & Hi & ? & ?). specialize (Hl i Hi). lia. Qed.

Lemma block_bounds32 r i : region_ok r -> i ∈ blocks (free_blocks r) -> 0 <= i.1 /\ i.1 < i.2 /\ i.2 < 2 ^ 32.
Proof using Type*. intros Hr Hi. pose proof (block_bounds r i Hr Hi). destruct Hr. lia. Qed.

Lemma take_bytes r a n : free_bytes (take_interval (a, a + n) n r) = free_bytes r ∖ range a n.
Proof using Type*.
  apply set_eq. intros x. unfold free_bytes, take_interval. cbn [free_blocks].
  rewrite elem_of_difference, !elem_of_bytes, covers_sub, elem_of_range. done.
Qed.

Lemma ledger_interval r live a n : ledger r live -> 0 <= n -> range a n ⊆ free_bytes r ->
  ledger (take_interval (a, a + n) n r) (live ∪ range a n) /\ range a n ## live.
Proof using Type*.
  intros Hl Hn Hf. apply (ledger_take r); [done|done|apply take_bytes| |done]. unfold take_interval. cbn [used]. by rewrite size_range.
Qed.

(** [LinearAllocate] takes the lowest run of [n] free bytes. *)
Lemma LinearAllocate_ok r n : region_ok r -> 0 <= n < 2 ^ 32 -> exists a r', LinearAllocate n r = Done (a, r') /\
  match a with
  | None => r' = r /\ (0 < n -> forall x, ~ range x n ⊆ free_bytes r)
  | Some a => r' = take_interval (a, a + n) n r /\ range a n ⊆ free_bytes r /\
      (0 < n -> forall x, range x n ⊆ free_bytes r -> a <= x)
  end.
Proof using Type*.
  intros Hr Hn. unfold LinearAllocate. rewrite (ro_unlocked _ Hr). cbn [negb assert_ mbind outcome_bind].
  destruct (find_block _ n) as [i|] eqn:E.
  - apply find_block_some in E as (Hi & l1 & l2 & El & Hl1); [|intros j; by apply block_bounds32].
    assert (i ∈ blocks (free_blocks r)) as Hin by (rewrite El; apply elem_of_app; right; left).
    pose proof (block_bounds32 r i Hr Hin). rewrite u32_small by lia. eexists _, _. split; [done|]. split; [done|].
    split; [apply (block_free r i); [done|lia|lia]|]. intros Hpos x (j & Hj & Hx & Hxn)%run_block; [|done].
    destruct (blocks_canonical (free_blocks r)) as [b Hb]. rewrite El in Hb, Hj. destruct (above_split _ _ _ _ Hb) as (_ & Hb2 & _).
    apply elem_of_app in Hj as [Hj%Hl1|[->|Hj]%elem_of_cons]; [lia|lia|]. pose proof (above_block _ _ j Hb2 Hj). lia.
  - eexists _, _. split; [done|]. split; [done|]. intros Hpos x. apply no_block; [done|done|].
    apply find_block_none; [intros j; by apply block_bounds32|done].
Qed.

(** [RLinearAllocate] takes the highest. *)
Lemma RLinearAllocate_ok r n : region_ok r -> 0 <= n < 2 ^ 32 -> exists a r', RLinearAllocate n r = Done (a, r') /\
  match a with
  | None => r' = r /\ (0 < n -> forall x, ~ range x n ⊆ free_bytes r)
  | Some a => r' = take_interval (a, a + n) n r /\ range a n ⊆ free_bytes r /\
      (0 < n -> forall x, range x n ⊆ free_bytes r -> x <= a)
  end.
Proof using Type*.
  intros Hr Hn. unfold RLinearAllocate. rewrite (ro_unlocked _ Hr). cbn [negb assert_ mbind outcome_bind].
  destruct (find_block _ n) as [i|] eqn:E.
  - apply find_block_some in E as (Hi & l1 & l2 & El & Hl1); [|intros j; by apply rev_block_bounds].
    apply (f_equal (@rev interval)) in El. rewrite rev_involutive, rev_app_distr in El. simpl in El. rewrite <- app_assoc in El. simpl in El.
    assert (i ∈ blocks (free_blocks r)) as Hin by (rewrite El; apply elem_of_app; right; left).
    pose proof (block_bounds32 r i Hr Hin). rewrite u32_small by lia. eexists _, _. split; [done|]. cbv iota beta. replace (i.2 - n + n) with i.2 by lia.
    split; [done|]. split; [apply (block_free r i); [done|lia|lia]|]. intros Hpos x (j & Hj & Hx & Hxn)%run_block; [|done].
    destruct (blocks_canonical (free_blocks r)) as [b Hb]. pose proof (block_bounds32 r j Hr Hj). rewrite El in Hb, Hj.
    destruct (above_split _ _ _ _ Hb) as (_ & _ & Hb1). apply elem_of_app in Hj as [Hj|[->|Hj]%elem_of_cons]; [|lia|].
    + pose proof (Hb1 (j.2 - 1) ltac:(exists j; split; [done|unfold inside; lia])). lia.
    + apply list_elem_of_In, in_rev, list_elem_of_In, Hl1 in Hj. lia.
  - eexists _, _. split; [done|]. split; [done|]. intros Hpos x. apply no_block; [done|done|].
    intros j Hj. apply (find_block_none (rev (blocks (free_blocks r)))); [intros k; by apply rev_block_bounds|done|].
    by apply list_elem_of_In, in_rev; rewrite rev_involutive; apply list_elem_of_In.
Qed.
End Linear.

End Region.
