(* ===== verification/RegionTheorems.v ===== *)
(** * Theorems about the memory regions

    [request]: the calls that reach a region, with the bytes the callers own as a set.
    A history of calls that free only what they own never fails, the counters
    account for every byte, and the two allocators grant the topmost free bytes or
    the first fit.  [MemoryInit] lays the regions out. *)
From S2P Require Import Prelude Results PageTable MemoryMap MemoryRegion.
Import Map Region.

Module RT.

Inductive request :=
  | RHeap (n : Z)
  | RLinearAt (a n : Z)
  | RLinear (n : Z)
  | RLinearHigh (n : Z)
  | RFree (a n : Z).

Section History.
Context {S : Type} `{IntervalLaws S}.
Implicit Types r : region S.

(** A region with the bytes its callers own. *)
Definition serve (q : request) (st : region S * gset Z) : outcome (region S * gset Z) :=
  let '(r, live) := st in
  match q with
  | RHeap n => '(res, r) ← HeapAllocate n r; Done (r, live ∪ bytes (blocks res))
  | RLinearAt a n => '(ok, r) ← LinearAllocateAt a n r; Done (r, if ok : bool then live ∪ range a n else live)
  | RLinear n => '(o, r) ← LinearAllocate n r; Done (r, if o is Some a then live ∪ range a n else live)
  | RLinearHigh n => '(o, r) ← RLinearAllocate n r; Done (r, if o is Some a then live ∪ range a n else live)
  | RFree a n => r ← Free a n r; Done (r, live ∖ range a n)
  end.

(** Sizes and ends fit 32 bits; only owned bytes are freed. *)
Definition allowed (q : request) (live : gset Z) : Prop :=
  match q with
  | RHeap n | RLinear n | RLinearHigh n => 0 <= n < 2 ^ 32
  | RLinearAt a n => 0 <= a /\ 0 <= n /\ a + n < 2 ^ 32
  | RFree a n => 0 <= a /\ 0 <= n /\ a + n < 2 ^ 32 /\ range a n ⊆ live
  end.

Inductive history : list request -> region S * gset Z -> region S * gset Z -> Prop :=
  | history_nil st : history [] st st
  | history_cons q qs st st1 st2 : allowed q st.2 -> serve q st = Done st1 -> history qs st1 st2 -> history (q :: qs) st st2.

Lemma contains_range a n (s : S) : set_contains (a, a + n) s = true <-> range a n ⊆ bytes (blocks s).
Proof using Type*.
  rewrite contains_spec. unfold inside. simpl. split.
  - intros Hc x Hx%elem_of_range. by apply elem_of_bytes, Hc.
  - intros Hc x Hx. by apply elem_of_bytes, Hc, elem_of_range.
Qed.

Lemma serve_ok q r live : ledger r live -> allowed q live -> exists r' live', serve q (r, live) = Done (r', live') /\
  ledger r' live' /\ layout r' = layout r.
Proof using Type*.
  intros Hl Ha. pose proof (lg_ok _ _ Hl) as Hr. destruct q as [n|a n|n|n|a n]; simpl in Ha; unfold serve.
  - destruct (HeapAllocate_ok r n Hr Ha) as (res & r' & -> & Hres). eexists _, _. split; [done|].
    destruct (total (blocks (free_blocks r)) <? n).
    + destruct Hres as [-> ->]. rewrite blocks_empty. change (bytes []) with (∅ : gset Z). by rewrite union_empty_r_L.
    + destruct Hres as [[Ht Hin Hrest Hu Hs] _]. split; [|done]. apply (ledger_take r); [done| | |by rewrite size_blocks, Ht|done].
      * intros x Hx%elem_of_bytes. by apply elem_of_bytes, Hin.
      * apply set_eq. intros x. unfold free_bytes. by rewrite elem_of_difference, !elem_of_bytes.
  - unfold LinearAllocateAt. rewrite (ro_unlocked _ Hr). cbn [negb assert_ mbind outcome_bind]. rewrite u32_small by lia.
    destruct (set_contains _ _) eqn:E; eexists _, _; (split; [done|]); [|done].
    apply contains_range in E. split; [|done]. apply ledger_interval; [done|lia|done].
  - destruct (LinearAllocate_ok r n Hr Ha) as ([a|] & r' & -> & Hres); eexists _, _; (split; [done|]).
    + destruct Hres as (-> & Hf & _). split; [|done]. apply ledger_interval; [done|lia|done].
    + by destruct Hres as [-> _].
  - destruct (RLinearAllocate_ok r n Hr Ha) as ([a|] & r' & -> & Hres); eexists _, _; (split; [done|]).
    + destruct Hres as (-> & Hf & _). split; [|done]. apply ledger_interval; [done|lia|done].
    + by destruct Hres as [-> _].
  - destruct Ha as (H1 & H2 & H3 & Hsub). unfold Free. rewrite (ro_unlocked _ Hr), (u32_small (a + n)) by lia.
    destruct (set_intersects _ _) eqn:E.
    { apply intersects_spec in E as (x & Hx & Hf). rewrite (lg_live _ _ Hl) in Hsub.
      pose proof (Hsub x (proj2 (elem_of_range _ _ _) Hx)) as [_ Hn]%elem_of_difference. by destruct Hn; apply elem_of_bytes. }
    assert (layout r = (base r, size r, false)) as Hlay by (unfold layout; by rewrite (ro_unlocked _ Hr)).
    cbn [negb assert_ mbind outcome_bind]. eexists _, _. split; [done|]. split; [|by rewrite Hlay]. apply (ledger_give r); [done|done| | |by rewrite Hlay].
    + apply set_eq. intros x. unfold free_bytes. cbn [free_blocks]. rewrite elem_of_union, !elem_of_bytes, covers_add, elem_of_range.
      unfold inside. simpl. tauto.
    + cbn [used]. by rewrite size_range.
Qed.

Lemma region_Reset_ok a n r : 0 <= a -> 0 <= n -> a + n < 2 ^ 32 -> is_locked r = false ->
  exists r', Reset a n r = Done r' /\ ledger r' ∅ /\ base r' = a /\ size r' = n.
Proof using Type*.
  intros Ha Hn Hs Hk. unfold Reset. rewrite Hk. cbn [negb assert_ mbind outcome_bind]. rewrite u32_small by lia.
  eexists. split; [done|]. split; [|done].
  assert (forall x, covers (blocks (set_add (a, a + n) set_empty)) x <-> a <= x < a + n) as Hc.
  { intros x. rewrite covers_add, blocks_empty. unfold inside. simpl. pose proof (covers_nil x). tauto. }
  split; [split|..]; cbn [base size used free_blocks is_locked]; [done|done|done|by intros x ?%Hc|done| |done].
  unfold free_bytes. cbn [free_blocks]. apply set_eq. intros x. rewrite elem_of_difference, elem_of_bytes, elem_of_range, Hc.
  split; [by intros ?%elem_of_empty|tauto].
Qed.

Lemma history_ledger qs st st' : history qs st st' -> ledger st.1 st.2 -> ledger st'.1 st'.2 /\ layout st'.1 = layout st.1.
Proof using Type*.
  induction 1 as [st|q qs [r live] st1 st2 Ha E _ IH]; [done|]. intros Hl.
  destruct (serve_ok q r live Hl Ha) as (r' & live' & E' & Hl' & Hs). rewrite E in E'. injection E' as ->.
  destruct (IH Hl') as [Hl2 Hs2]. split; [done|]. by rewrite Hs2.
Qed.

(** C35: After any history of calls on a region that was just reset, in which
    callers free only bytes they own, no assertion of the region has failed and
    none fails on the next such call; the bytes owned by callers and the free
    bytes partition the region; and [used] is the number of owned bytes. *)
Theorem region_accounts a n r0 r1 qs r live : 0 <= a -> 0 <= n -> a + n < 2 ^ 32 -> is_locked r0 = false ->
  Reset a n r0 = Done r1 -> history qs (r1, ∅) (r, live) ->
  (forall q, allowed q live -> exists st, serve q (r, live) = Done st) /\
  live ## free_bytes r /\ live ∪ free_bytes r = range a n /\
  used r = Z.of_nat (base.size live) /\ used r + total (blocks (free_blocks r)) = n.
Proof using Type*.
  intros Ha Hn Hs Hk E Hh. destruct (region_Reset_ok a n r0 Ha Hn Hs Hk) as (r1' & E' & Hl & Hb & Hz).
  rewrite E in E'. injection E' as <-. destruct (history_ledger _ _ _ Hh Hl) as [Hr [= Hb' Hz' _]]. simpl in Hr, Hb', Hz'.
  destruct Hr as [Hok Hlive Hu]. rewrite Hb', Hz', Hb, Hz in Hlive.
  assert (live ## free_bytes r) as Hd by (rewrite Hlive; by intros x [_ ?]%elem_of_difference).
  assert (live ∪ free_bytes r = range a n) as Hun.
  { apply set_eq. intros x. rewrite elem_of_union, Hlive, elem_of_difference.
    destruct (decide (x ∈ free_bytes r)) as [Hx|]; [|tauto]. split; [|tauto]. intros _. apply elem_of_range.
    rewrite <- Hb, <- Hz, <- Hb', <- Hz'. by apply (ro_free _ Hok), elem_of_bytes. }
  split_and!; [|done|done|done|].
  - intros q Hq. assert (ledger r live) as Hl' by (split; [done| |done]; by rewrite Hb', Hz', Hb, Hz).
    destruct (serve_ok q r live Hl' Hq) as (r' & live' & -> & _). by exists (r', live').
  - rewrite Hu, <- size_blocks. change (bytes (blocks (free_blocks r))) with (free_bytes r). rewrite <- (size_range a n Hn), <- Hun, size_union by done. lia.
Qed.

(** [HeapAllocate] fails, leaving the region unchanged, exactly when fewer than
    [n] bytes are free, however fragmented they are; otherwise it takes exactly [n]
    free bytes, the topmost ones. *)
Theorem heap_allocate_topmost r n : region_ok r -> 0 <= n < 2 ^ 32 -> exists res r', HeapAllocate n r = Done (res, r') /\
  (total (blocks (free_blocks r)) < n -> res = set_empty /\ r' = r) /\
  (n <= total (blocks (free_blocks r)) -> total (blocks res) = n /\
     bytes (blocks res) ⊆ free_bytes r /\ free_bytes r' = free_bytes r ∖ bytes (blocks res) /\
     forall x y, x ∈ free_bytes r' -> y ∈ bytes (blocks res) -> x < y).
Proof using Type*.
  intros Hr Hn. destruct (HeapAllocate_ok r n Hr Hn) as (res & r' & E & Hres). exists res, r'. split; [done|].
  destruct (Z.ltb_spec (total (blocks (free_blocks r))) n) as [Hlt|Hge]; [split; [done|lia]|split; [lia|]].
  intros _. destruct Hres as [[Ht Hin Hrest _ _] Htop]. split_and!; [done| | |].
  - intros x Hx%elem_of_bytes. by apply elem_of_bytes, Hin.
  - apply set_eq. intros x. unfold free_bytes. by rewrite elem_of_difference, !elem_of_bytes.
  - intros x y Hx%elem_of_bytes Hy%elem_of_bytes. by apply Htop.
Qed.

(** [LinearAllocate] grants the lowest run of [n] free bytes and
    [RLinearAllocate] the highest; they fail, leaving the region unchanged, exactly
    when no run of [n] free bytes exists. *)
Lemma linear_allocate_fits r n : region_ok r -> 0 < n < 2 ^ 32 ->
  (exists a r', LinearAllocate n r = Done (a, r') /\ match a with
     | Some a => range a n ⊆ free_bytes r /\ (forall x, range x n ⊆ free_bytes r -> a <= x) /\
         free_bytes r' = free_bytes r ∖ range a n
     | None => r' = r /\ forall x, ~ range x n ⊆ free_bytes r
     end) /\
  (exists a r', RLinearAllocate n r = Done (a, r') /\ match a with
     | Some a => range a n ⊆ free_bytes r /\ (forall x, range x n ⊆ free_bytes r -> x <= a) /\
         free_bytes r' = free_bytes r ∖ range a n
     | None => r' = r /\ forall x, ~ range x n ⊆ free_bytes r
     end).
Proof using Type*.
  intros Hr Hn. split.
  - destruct (LinearAllocate_ok r n Hr ltac:(lia)) as (a & r' & E & Ha). exists a, r'. split; [done|]. destruct a as [a|].
    + destruct Ha as (-> & Hf & Hlow). split; [done|]. split; [intros x; apply Hlow; lia|apply take_bytes].
    + destruct Ha as [-> Hno]. split; [done|]. intros x. apply Hno. lia.
  - destruct (RLinearAllocate_ok r n Hr ltac:(lia)) as (a & r' & E & Ha). exists a, r'. split; [done|]. destruct a as [a|].
    + destruct Ha as (-> & Hf & Hlow). split; [done|]. split; [intros x; apply Hlow; lia|apply take_bytes].
    + destruct Ha as [-> Hno]. split; [done|]. intros x. apply Hno. lia.
Qed.
End History.

(** ** Initialisation *)

Section Init.
Context {S : Type} `{IntervalLaws S}.
Implicit Types r : region S.

(** The values of [MemoryMode]. *)
Definition memory_modes : list nat := [0; 2; 3; 4; 5; 6; 7]%nat.
Definition is_new_mode (mode : nat) : bool := (6 <=? mode)%nat.

(** In a memory mode of its console, [MemoryInit] lays the three regions out in sequence, all
    free and without gap or overlap from offset 0 to the end of FCRAM, and reports their
    sizes; a mode of the other console fails the assertion. *)
Lemma memory_init_tiles_fcram mode is_new r1 r2 r3 : mode ∈ memory_modes ->
  is_locked r1 = false -> is_locked r2 = false -> is_locked r3 = false ->
  if Bool.eqb (is_new_mode mode) is_new then
    exists app sys bas, MemoryInit mode is_new [r1; r2; r3] =
        Done ([app; sys; bas], mk_config_mem (Z.of_nat mode) (size app) (size sys) (size bas)) /\
      ledger app ∅ /\ ledger sys ∅ /\ ledger bas ∅ /\
      base app = 0 /\ base sys = base app + size app /\ base bas = base sys + size sys /\
      base bas + size bas = (if is_new then FCRAM_N3DS_SIZE else FCRAM_SIZE)
  else MemoryInit mode is_new [r1; r2; r3] = Stop FAssert.
Proof using Type*.
  intros Hm H1 H2 H3.
  assert (exists a b c, memory_region_sizes !! mode = Some [a; b; c] /\ 0 <= a /\ 0 <= b /\ 0 <= c /\
    a + b + c = (if is_new_mode mode then FCRAM_N3DS_SIZE else FCRAM_SIZE)) as (a & b & c & E & Ha & Hb & Hc & Hs).
  { unfold memory_modes in Hm. repeat (apply elem_of_cons in Hm as [->|Hm]; [do 3 eexists; split; [reflexivity|vm_compute; repeat split; discriminate]|]).
    by apply not_elem_of_nil in Hm. }
  assert (a + b + c < 2 ^ 32) as Hlt by (rewrite Hs; by destruct (is_new_mode mode)).
  destruct (region_Reset_ok 0 a r1 ltac:(lia) Ha ltac:(lia) H1) as (app & E1 & L1 & B1 & S1).
  destruct (region_Reset_ok a b r2 Ha Hb ltac:(lia) H2) as (sys & E2 & L2 & B2 & S2).
  destruct (region_Reset_ok (a + b) c r3 ltac:(lia) Hc ltac:(lia) H3) as (bas & E3 & L3 & B3 & S3).
  assert (reset_regions [r1; r2; r3] [a; b; c] 0 = Done ([app; sys; bas], a + b + c)) as Er.
  { cbn [reset_regions]. rewrite E1. cbn [mbind outcome_bind]. rewrite S1, (u32_small (0 + a)) by lia. rewrite Z.add_0_l, E2.
    cbn [mbind outcome_bind]. rewrite S2, (u32_small (a + b)), E3 by lia. cbn [mbind outcome_bind]. by rewrite S3, u32_small by lia. }
  unfold MemoryInit. rewrite E. cbn [of_opt mbind outcome_bind]. rewrite Er. cbn [mbind outcome_bind]. rewrite Hs.
  destruct (is_new_mode mode), is_new; cbn [Bool.eqb]; try reflexivity;
    (eexists _, _, _; split; [reflexivity|]; rewrite B1, B2, B3, S1, S2, S3; split_and!; try done; lia).
Qed.
End Init.
(** ** A concrete region *)

Definition small_region : region (list interval) := mk_region 0 0 0 [] false.
Definition small_reset : region (list interval) := mk_region 0x1000 0x100 0 [(0x1000, 0x1100)] false.
Definition small_used : region (list interval) := mk_region 0x1000 0x100 0x40 [(0x1000, 0x1080); (0x10c0, 0x1100)] false.

Lemma small_used_ok : region_ok small_used.
Proof.
  split; cbn [base size used free_blocks is_locked small_used]; [lia|lia|lia| |reflexivity].
  intros x (i & Hi & Hx). change (i ∈ [(0x1000, 0x1080); (0x10c0, 0x1100)]) in Hi.
  apply elem_of_cons in Hi as [->|Hi%list_elem_of_singleton]; [|subst i]; unfold inside in Hx; simpl in Hx; lia.
Qed.

Lemma region_accounts_witness : exists r live,
  history [RHeap 0x20; RLinear 0x40; RFree 0x1000 0x10] (small_reset, ∅) (r, live) /\ used r = Z.of_nat (base.size live) /\
  used r = 0x50.
Proof.
  assert (exists st, history [RHeap 0x20; RLinear 0x40; RFree 0x1000 0x10] (small_reset, ∅) st /\ used st.1 = 0x50) as ([r live] & Hh & Hu).
  { eexists. split.
    - eapply history_cons; [simpl; lia|reflexivity|]. eapply history_cons; [simpl; lia|reflexivity|].
      eapply history_cons; [|reflexivity|apply history_nil]. simpl. split_and!; [lia|lia|lia|].
      intros x Hx%elem_of_range. apply elem_of_union_r, elem_of_range. lia.
    - reflexivity. }
  exists r, live. split; [exact Hh|]. split; [|exact Hu].
  apply (@region_accounts (list interval) list_intervals list_laws 0x1000 0x100 small_region small_reset _ r live ltac:(lia) ltac:(lia) ltac:(lia) eq_refl eq_refl Hh).
Defined.

Lemma heap_allocate_topmost_witness : exists res r', HeapAllocate 0x50 small_used = Done (res, r') /\ total (blocks res) = 0x50.
Proof.
  destruct (heap_allocate_topmost small_used 0x50 small_used_ok ltac:(lia)) as (res & r' & E & _ & H).
  exists res, r'. split; [exact E|]. apply H. vm_compute. discriminate.
Defined.

Lemma linear_allocate_fits_witness : exists a r', RLinearAllocate 0x50 small_used = Done (a, r') /\ a = Some 0x1030 /\
  match a with Some a => forall x, range x 0x50 ⊆ free_bytes small_used -> x <= a | None => False end.
Proof.
  destruct (linear_allocate_fits small_used 0x50 small_used_ok ltac:(lia)) as [_ (a & r' & E & H)].
  exists a, r'. split; [exact E|]. assert (a = Some 0x1030) as -> by (vm_compute in E; congruence). split; [reflexivity|apply H].
Defined.

Lemma memory_init_tiles_fcram_witness : exists app sys bas c,
  MemoryInit 6 true [small_region; small_region; small_region] = Done ([app; sys; bas], c) /\ base bas + size bas = FCRAM_N3DS_SIZE.
Proof.
  destruct (memory_init_tiles_fcram 6 true small_region small_region small_region ltac:(do 5 right; left) eq_refl eq_refl eq_refl)
    as (app & sys & bas & E & _ & _ & _ & _ & _ & _ & H).
  exists app, sys, bas, (mk_config_mem (Z.of_nat 6) (size app) (size sys) (size bas)). split; [exact E|exact H].
Defined.

End RT.
