(* ===== verification/GuestMemory.v ===== *)
(** * Guest memory

    [MemorySystem] (core/memory.cpp): reads and writes of guest memory through a
    page table, blocks, the pages that the rasterizer caches, and physical
    addresses.  Host memory is a function from addresses to bytes.  The GPU is an
    interface, [Gpu]: flushing may write back cached surfaces, and registers may be
    read and written through the Luma3DS mirror of the I/O area.  The write watch
    only logs and is left out, as is the serialization. *)
From S2P Require Import Prelude Results PageTable MemoryMap.
Import Map.

Module Guest.

(** ** Host memory *)

Definition bytes : Type := Z -> Z.

(** [memcpy] of a little-endian value of [n] bytes. *)
Fixpoint load (n : nat) (a : Z) (m : bytes) : Z :=
  match n with O => 0 | S n => m a + 256 * load n (a + 1) m end.
Fixpoint store (n : nat) (a v : Z) (m : bytes) : bytes :=
  match n with O => m | S n => store n (a + 1) (v / 256) (fun x => if x =? a then v `mod` 256 else m x) end.

(** [memcpy] from a buffer and [memset]. *)
Definition copy_out (a : Z) (n : nat) (m : bytes) : list Z := m <$> seqZ a (Z.of_nat n).
Definition copy_in (a : Z) (l : list Z) (m : bytes) : bytes :=
  fun x => if (a <=? x) && (x <? a + Z.of_nat (length l)) then l !!! Z.to_nat (x - a) else m x.
Definition fill (a n v : Z) (m : bytes) : bytes := fun x => if (a <=? x) && (x <? a + n) then v else m x.

(** ** The GPU *)

Inductive flush_mode := Flush | Invalidate | FlushAndInvalidate.

(** [FlushRegion], [InvalidateRegion] and [FlushAndInvalidateRegion] of the rasterizer
    take a physical address and a size. *)
Class Gpu (W : Type) := {
  FlushRegion : flush_mode -> Z -> Z -> W * bytes -> W * bytes;
  ReadReg : Z -> W -> Z * W;
  WriteReg : Z -> Z -> W * bytes -> W * bytes;
}.

Section Memory.
Context {W : Type} `{Gpu W}.

(** Where the host keeps the memories of the console. *)
Context (fcram vram dsp_ram n3ds_extra_ram : Z).
Definition fcram_mem : MRef.backing := MRef.mk_backing fcram FCRAM_N3DS_SIZE.
Definition vram_mem : MRef.backing := MRef.mk_backing vram VRAM_SIZE.
Definition dsp_mem : MRef.backing := MRef.mk_backing dsp_ram DSP_RAM_SIZE.
Definition n3ds_extra_ram_mem : MRef.backing := MRef.mk_backing n3ds_extra_ram N3DS_EXTRA_RAM_SIZE.

(** [marks]: the pages the [RasterizerCacheMarker] has marked as cached. *)
Record msys := mk_msys { gpu : W; mem : bytes; marks : gset Z; plugin_fb_address : Z }.
Definition with_mem (m : bytes) (s : msys) : msys := mk_msys (gpu s) m (marks s) (plugin_fb_address s).
Definition with_gpu (gm : W * bytes) (s : msys) : msys := mk_msys gm.1 gm.2 (marks s) (plugin_fb_address s).
Definition with_marks (k : gset Z) (s : msys) : msys := mk_msys (gpu s) (mem s) k (plugin_fb_address s).

(** ** Cached pages *)

Definition within (addr lo hi : Z) : bool := (lo <=? addr) && (addr <? hi).

(** [RasterizerCacheMarker::At]: the element of the arrays for an address, named by its page. *)
Definition At (addr : Z) : option Z :=
  if within addr VRAM_VADDR VRAM_VADDR_END || within addr LINEAR_HEAP_VADDR LINEAR_HEAP_VADDR_END ||
     within addr NEW_LINEAR_HEAP_VADDR NEW_LINEAR_HEAP_VADDR_END || within addr PLUGIN_3GX_FB_VADDR PLUGIN_3GX_FB_VADDR_END
  then Some (addr / CITRA_PAGE_SIZE) else None.
Definition Mark (addr : Z) (cached : bool) (k : gset Z) : gset Z :=
  match At addr with
  | Some p => if cached then {[p]} ∪ k else k ∖ {[p]}
  | None => k
  end.
Definition IsCached (k : gset Z) (addr : Z) : bool :=
  match At addr with Some p => bool_decide (p ∈ k) | None => false end.

Definition GetPointerForRasterizerCache (addr : Z) (s : msys) : outcome MRef.t :=
  if within addr LINEAR_HEAP_VADDR LINEAR_HEAP_VADDR_END then MRef.make fcram_mem (addr - LINEAR_HEAP_VADDR)
  else if within addr NEW_LINEAR_HEAP_VADDR NEW_LINEAR_HEAP_VADDR_END then MRef.make fcram_mem (addr - NEW_LINEAR_HEAP_VADDR)
  else if within addr VRAM_VADDR VRAM_VADDR_END then MRef.make vram_mem (addr - VRAM_VADDR)
  else if within addr PLUGIN_3GX_FB_VADDR PLUGIN_3GX_FB_VADDR_END && negb (plugin_fb_address s =? 0)
  then MRef.make fcram_mem (u32 (u32 (addr - PLUGIN_3GX_FB_VADDR + plugin_fb_address s) - FCRAM_PADDR))
  else Stop FUnreachable.

Definition CheckRegion (mode : flush_mode) (start end_ region_start region_end paddr_region_start : Z) (gm : W * bytes) : W * bytes :=
  if (region_end <=? start) || (end_ <=? region_start) then gm
  else
    let overlap_start := Z.max start region_start in
    let overlap_end := Z.min end_ region_end in
    FlushRegion mode (u32 (paddr_region_start + (overlap_start - region_start))) (u32 (overlap_end - overlap_start)) gm.

Definition RasterizerFlushVirtualRegion (start size : Z) (mode : flush_mode) (s : msys) : msys :=
  let end_ := u32 (start + size) in
  let gm := CheckRegion mode start end_ LINEAR_HEAP_VADDR LINEAR_HEAP_VADDR_END FCRAM_PADDR (gpu s, mem s) in
  let gm := CheckRegion mode start end_ NEW_LINEAR_HEAP_VADDR NEW_LINEAR_HEAP_VADDR_END FCRAM_PADDR gm in
  let gm := CheckRegion mode start end_ VRAM_VADDR VRAM_VADDR_END VRAM_PADDR gm in
  let gm := if negb (plugin_fb_address s =? 0)
            then CheckRegion mode start end_ PLUGIN_3GX_FB_VADDR PLUGIN_3GX_FB_VADDR_END (plugin_fb_address s) gm else gm in
  with_gpu gm s.

(** [MapPages], with [IsPoweredOn]: flushes and invalidates what the rasterizer has of the
    range, then writes the page table.  The address spaces ([VMManager]) only see the
    page table. *)
Definition MapPages (powered_on : bool) (base size : Z) (memory : MRef.t) (type : PT.page_type) (pt : PT.table) (s : msys)
  : outcome (PT.table * msys) :=
  let s := if powered_on
           then RasterizerFlushVirtualRegion (u32 (Z.shiftl base CITRA_PAGE_BITS)) (u32 (size * CITRA_PAGE_SIZE)) FlushAndInvalidate s
           else s in
  pt ← PT.map_pages (IsCached (marks s)) base size memory type pt;
  Done (pt, s).

(** ** Single accesses of [n] bytes *)

Definition page_of (vaddr : Z) : Z := Z.shiftr vaddr CITRA_PAGE_BITS.
Definition offset_of (vaddr : Z) : Z := Z.land vaddr CITRA_PAGE_MASK.

Definition GetFCRAMPointer (offset : Z) : outcome Z := _ ← assert_ (offset <=? FCRAM_N3DS_SIZE); Done (fcram + offset).
Definition GetFCRAMRef (offset : Z) : outcome MRef.t := _ ← assert_ (offset <=? FCRAM_N3DS_SIZE); MRef.make fcram_mem offset.
Definition GetFCRAMOffset (pointer : Z) : outcome Z :=
  _ ← assert_ ((fcram <=? pointer) && (pointer <=? fcram + FCRAM_N3DS_SIZE)); Done (u32 (pointer - fcram)).
Definition GetDspMemory (offset : Z) : outcome Z := _ ← assert_ (offset <=? DSP_RAM_SIZE); Done (dsp_ram + offset).

(** The mirror of physical memory above 0x80000000. *)
Inductive luma := LumaFCRAM (offset : Z) | LumaIO (reg : Z).
Definition luma_mapping (vaddr : Z) : option luma :=
  if Z.testbit vaddr 31 then
    let paddr := Z.land vaddr 0x7FFFFFFF in
    if Z.land paddr 0xF0000000 =? FCRAM_PADDR then Some (LumaFCRAM (paddr - FCRAM_PADDR))
    else if (Z.land paddr 0xF0000000 =? 0x10000000) && (IO_AREA_PADDR <=? paddr)
    then Some (LumaIO (paddr - IO_AREA_PADDR + 0x1EC00000)) else None
  else None.

Definition Read (n : nat) (pt : PT.table) (vaddr : Z) (s : msys) : outcome (Z * msys) :=
  let e := PT.get pt (page_of vaddr) in
  if negb (PT.pointer e =? 0) then Done (load n (PT.pointer e + offset_of vaddr) (mem s), s)
  else match luma_mapping vaddr with
  | Some (LumaFCRAM offset) => p ← GetFCRAMPointer offset; Done (load n p (mem s), s)
  | Some (LumaIO reg) =>
      let '(v, g) := ReadReg reg (gpu s) in Done (wrap (8 * Z.of_nat n) v, with_gpu (g, mem s) s)
  | None =>
      match PT.attribute e with
      | PT.Unmapped => Done (0, s)
      | PT.Memory => Stop FAssert
      | PT.RasterizerCachedMemory =>
          let s := RasterizerFlushVirtualRegion vaddr (Z.of_nat n) Flush s in
          r ← GetPointerForRasterizerCache vaddr s;
          Done (load n (MRef.GetPtr r) (mem s), s)
      end
  end.

Definition Write (n : nat) (pt : PT.table) (vaddr data : Z) (s : msys) : outcome msys :=
  let e := PT.get pt (page_of vaddr) in
  if negb (PT.pointer e =? 0) then Done (with_mem (store n (PT.pointer e + offset_of vaddr) data (mem s)) s)
  else match luma_mapping vaddr with
  | Some (LumaFCRAM offset) => p ← GetFCRAMPointer offset; Done (with_mem (store n p data (mem s)) s)
  | Some (LumaIO reg) =>
      _ ← assert_ (n =? 4)%nat; Done (with_gpu (WriteReg reg (u32 data) (gpu s, mem s)) s)
  | None =>
      match PT.attribute e with
      | PT.Unmapped => Done s
      | PT.Memory => Stop FAssert
      | PT.RasterizerCachedMemory =>
          let s := RasterizerFlushVirtualRegion vaddr (Z.of_nat n) Invalidate s in
          r ← GetPointerForRasterizerCache vaddr s;
          Done (with_mem (store n (MRef.GetPtr r) data (mem s)) s)
      end
  end.

(** [AtomicCompareAndSwap] *)
Definition compare_and_swap (n : nat) (p data expected : Z) (s : msys) : bool * msys :=
  if load n p (mem s) =? expected then (true, with_mem (store n p data (mem s)) s) else (false, s).

Definition WriteExclusive (n : nat) (pt : PT.table) (vaddr data expected : Z) (s : msys) : outcome (bool * msys) :=
  let e := PT.get pt (page_of vaddr) in
  if negb (PT.pointer e =? 0) then Done (compare_and_swap n (PT.pointer e + offset_of vaddr) data expected s)
  else match PT.attribute e with
  | PT.Unmapped => Done (true, s)
  | PT.Memory => Stop FAssert
  | PT.RasterizerCachedMemory =>
      let s := RasterizerFlushVirtualRegion vaddr (Z.of_nat n) Invalidate s in
      r ← GetPointerForRasterizerCache vaddr s;
      Done (compare_and_swap n (MRef.GetPtr r) data expected s)
  end.

Definition IsValidVirtualAddress (pt : PT.table) (vaddr : Z) : bool :=
  let e := PT.get pt (page_of vaddr) in
  negb (PT.pointer e =? 0) || bool_decide (PT.attribute e = PT.RasterizerCachedMemory).

(** Null for an unmapped address. *)
Definition GetPointer (pt : PT.table) (vaddr : Z) (s : msys) : outcome Z :=
  let e := PT.get pt (page_of vaddr) in
  if negb (PT.pointer e =? 0) then Done (PT.pointer e + offset_of vaddr)
  else if bool_decide (PT.attribute e = PT.RasterizerCachedMemory)
  then MRef.GetPtr <$> GetPointerForRasterizerCache vaddr s else Done 0.

Fixpoint ReadCString (pt : PT.table) (vaddr : Z) (max_length : nat) (s : msys) : outcome (list Z * msys) :=
  match max_length with
  | O => Done ([], s)
  | S n =>
      '(c, s) ← Read 1 pt vaddr s;
      if c =? 0 then Done ([], s)
      else '(l, s) ← ReadCString pt (u32 (vaddr + 1)) n s; Done (c :: l, s)
  end.

(** ** Blocks *)

(** One round of the loops over pages: where the bytes are. *)
Inductive spot := Nowhere | Host (p : Z).

Definition attribute_at (pt : PT.table) (page_index : Z) : outcome PT.entry :=
  if page_index <? PAGE_TABLE_NUM_ENTRIES then Done (PT.get pt page_index) else Stop FOutOfRange.

Definition locate (mode : flush_mode) (unsafe : bool) (pt : PT.table) (page_index page_offset copy_amount : Z) (s : msys)
  : outcome (spot * msys) :=
  let current_vaddr := u32 (Z.shiftl page_index CITRA_PAGE_BITS + page_offset) in
  e ← attribute_at pt page_index;
  match PT.attribute e with
  | PT.Unmapped => Done (Nowhere, s)
  | PT.Memory => Done (Host (PT.pointer e + page_offset), s)
  | PT.RasterizerCachedMemory =>
      let s := if unsafe then s else RasterizerFlushVirtualRegion current_vaddr (u32 copy_amount) mode s in
      r ← GetPointerForRasterizerCache current_vaddr s;
      Done (Host (MRef.GetPtr r), s)
  end.

Definition amount (page_offset remaining_size : Z) : Z := Z.min (CITRA_PAGE_SIZE - page_offset) remaining_size.

(** One more round than pages is enough: see [ReadBlock_ok]. *)
Definition rounds (size : Z) : nat := S (S (Z.to_nat (size / CITRA_PAGE_SIZE))).

Fixpoint read_loop (fuel : nat) (unsafe : bool) (pt : PT.table) (page_index page_offset remaining_size : Z) (s : msys)
  : outcome (list Z * msys) :=
  if remaining_size <=? 0 then Done ([], s)
  else match fuel with
  | O => Stop FFuel
  | S fuel =>
      let copy_amount := amount page_offset remaining_size in
      '(p, s) ← locate Flush unsafe pt page_index page_offset copy_amount s;
      let chunk := match p with
                   | Nowhere => replicate (Z.to_nat copy_amount) 0
                   | Host p => copy_out p (Z.to_nat copy_amount) (mem s)
                   end in
      '(l, s) ← read_loop fuel unsafe pt (page_index + 1) 0 (remaining_size - copy_amount) s;
      Done (chunk ++ l, s)
  end.
Definition ReadBlockImpl (unsafe : bool) (pt : PT.table) (src_addr size : Z) (s : msys) : outcome (list Z * msys) :=
  read_loop (rounds size) unsafe pt (page_of src_addr) (offset_of src_addr) size s.
Definition ReadBlock := ReadBlockImpl false.

Fixpoint write_loop (fuel : nat) (unsafe : bool) (pt : PT.table) (page_index page_offset : Z) (src : list Z) (s : msys)
  : outcome msys :=
  match src with
  | [] => Done s
  | _ =>
      match fuel with
      | O => Stop FFuel
      | S fuel =>
          let copy_amount := amount page_offset (Z.of_nat (length src)) in
          '(p, s) ← locate Invalidate unsafe pt page_index page_offset copy_amount s;
          let s := match p with
                   | Nowhere => s
                   | Host p => with_mem (copy_in p (take (Z.to_nat copy_amount) src) (mem s)) s
                   end in
          write_loop fuel unsafe pt (page_index + 1) 0 (drop (Z.to_nat copy_amount) src) s
      end
  end.
Definition WriteBlockImpl (unsafe : bool) (pt : PT.table) (dest_addr : Z) (src : list Z) (s : msys) : outcome msys :=
  write_loop (rounds (Z.of_nat (length src))) unsafe pt (page_of dest_addr) (offset_of dest_addr) src s.
Definition WriteBlock := WriteBlockImpl false.

Fixpoint zero_loop (fuel : nat) (pt : PT.table) (page_index page_offset remaining_size : Z) (s : msys) : outcome msys :=
  if remaining_size <=? 0 then Done s
  else match fuel with
  | O => Stop FFuel
  | S fuel =>
      let copy_amount := amount page_offset remaining_size in
      '(p, s) ← locate Invalidate false pt page_index page_offset copy_amount s;
      let s := match p with Nowhere => s | Host p => with_mem (fill p copy_amount 0 (mem s)) s end in
      zero_loop fuel pt (page_index + 1) 0 (remaining_size - copy_amount) s
  end.
Definition ZeroBlock (pt : PT.table) (dest_addr size : Z) (s : msys) : outcome msys :=
  zero_loop (rounds size) pt (page_of dest_addr) (offset_of dest_addr) size s.

Fixpoint copy_loop (fuel : nat) (dest_pt src_pt : PT.table) (page_index page_offset dest_addr remaining_size : Z) (s : msys)
  : outcome msys :=
  if remaining_size <=? 0 then Done s
  else match fuel with
  | O => Stop FFuel
  | S fuel =>
      let copy_amount := amount page_offset remaining_size in
      '(p, s) ← locate Flush false src_pt page_index page_offset copy_amount s;
      s ← match p with
          | Nowhere => ZeroBlock dest_pt dest_addr copy_amount s
          | Host p => WriteBlock dest_pt dest_addr (copy_out p (Z.to_nat copy_amount) (mem s)) s
          end;
      copy_loop fuel dest_pt src_pt (page_index + 1) 0 (u32 (dest_addr + copy_amount)) (remaining_size - copy_amount) s
  end.
Definition CopyBlock (dest_pt src_pt : PT.table) (dest_addr src_addr size : Z) (s : msys) : outcome msys :=
  copy_loop (rounds size) dest_pt src_pt (page_of src_addr) (offset_of src_addr) dest_addr size s.

(** ** Physical memory *)

(** [PhysMemRegionInfo]: the memory, its first address and the end of the area. *)
Record phys_info := mk_phys { backing_mem : option MRef.backing; region_start : Z; region_end : Z }.
Definition no_region : phys_info := mk_phys None 0 0.

Definition memory_areas : list (Z * Z * MRef.backing) :=
  [(VRAM_PADDR, VRAM_SIZE, vram_mem); (DSP_RAM_PADDR, DSP_RAM_SIZE, dsp_mem);
   (FCRAM_PADDR, FCRAM_N3DS_SIZE, fcram_mem); (N3DS_EXTRA_RAM_PADDR, N3DS_EXTRA_RAM_SIZE, n3ds_extra_ram_mem)].

Fixpoint find_area (address : Z) (l : list (Z * Z * MRef.backing)) : phys_info :=
  match l with
  | [] => no_region
  | (start, size, b) :: l =>
      if (start <=? address) && (address <=? start + size) then mk_phys (Some b) start (u32 (start + size)) else find_area address l
  end.

(** The last answer is cached. *)
Definition GetPhysMemRegionInfo (address : Z) (cache : phys_info) : phys_info :=
  if (region_start cache <=? address) && (address <? region_end cache) then cache else find_area address memory_areas.

Definition GetPhysicalPointer (address : Z) (cache : phys_info) : Z * phys_info :=
  let i := GetPhysMemRegionInfo address cache in
  (match backing_mem i with None => 0 | Some b => MRef.host b + (address - region_start i) end, i).
Definition GetPhysicalRef (address : Z) (cache : phys_info) : outcome (MRef.t * phys_info) :=
  let i := GetPhysMemRegionInfo address cache in
  match backing_mem i with
  | None => Done (MRef.Null, i)
  | Some b => r ← MRef.make b (address - region_start i); Done (r, i)
  end.
Definition IsValidPhysicalAddress (address : Z) (cache : phys_info) : outcome (bool * phys_info) :=
  '(r, i) ← GetPhysicalRef address cache; Done (negb (MRef.GetPtr r =? 0), i).

(** ** Marking pages as cached *)

Definition PhysicalToVirtualAddressForRasterizer (addr : Z) (s : msys) : list Z :=
  if within addr VRAM_PADDR VRAM_PADDR_END then [addr - VRAM_PADDR + VRAM_VADDR]
  else if negb (plugin_fb_address s =? 0) && within addr (plugin_fb_address s) (u32 (plugin_fb_address s + PLUGIN_3GX_FB_SIZE))
  then [addr - plugin_fb_address s + PLUGIN_3GX_FB_VADDR]
  else if within addr FCRAM_PADDR FCRAM_PADDR_END
  then [addr - FCRAM_PADDR + LINEAR_HEAP_VADDR; addr - FCRAM_PADDR + NEW_LINEAR_HEAP_VADDR]
  else if within addr FCRAM_PADDR_END FCRAM_N3DS_PADDR_END then [addr - FCRAM_PADDR + NEW_LINEAR_HEAP_VADDR]
  else [].

(** One page of one page table. *)
Definition mark_page (cached : bool) (vaddr : Z) (s : msys) (pt : PT.table) : outcome PT.table :=
  let p := page_of vaddr in
  match cached, PT.attribute (PT.get pt p) with
  | _, PT.Unmapped => Done pt
  | true, PT.Memory => Done (<[p := PT.mk_entry PT.RasterizerCachedMemory 0]> pt)
  | false, PT.RasterizerCachedMemory =>
      r ← GetPointerForRasterizerCache (vaddr - offset_of vaddr) s;
      Done (<[p := PT.mk_entry PT.Memory (MRef.GetPtr r)]> pt)
  | true, PT.RasterizerCachedMemory | false, PT.Memory => Stop FUnreachable
  end.

Fixpoint each_table (f : PT.table -> outcome PT.table) (pts : list PT.table) : outcome (list PT.table) :=
  match pts with [] => Done [] | pt :: pts => pt ← f pt; pts ← each_table f pts; Done (pt :: pts) end.

Fixpoint mark_vaddrs (cached : bool) (vaddrs : list Z) (s : msys) (pts : list PT.table) : outcome (msys * list PT.table) :=
  match vaddrs with
  | [] => Done (s, pts)
  | vaddr :: vaddrs =>
      let s := with_marks (Mark vaddr cached (marks s)) s in
      pts ← each_table (mark_page cached vaddr s) pts;
      mark_vaddrs cached vaddrs s pts
  end.

Fixpoint mark_pages (n : nat) (cached : bool) (paddr : Z) (s : msys) (pts : list PT.table) : outcome (msys * list PT.table) :=
  match n with
  | O => Done (s, pts)
  | S n =>
      '(s, pts) ← mark_vaddrs cached (PhysicalToVirtualAddressForRasterizer paddr s) s pts;
      mark_pages n cached (u32 (paddr + CITRA_PAGE_SIZE)) s pts
  end.

Definition RasterizerMarkRegionCached (start size : Z) (cached : bool) (s : msys) (pts : list PT.table)
  : outcome (msys * list PT.table) :=
  if start =? 0 then Done (s, pts)
  else
    let num_pages := u32 (Z.shiftr (u32 (start + size - 1)) CITRA_PAGE_BITS - Z.shiftr start CITRA_PAGE_BITS + 1) in
    mark_pages (Z.to_nat num_pages) cached start s pts.

End Memory.

#[global] Arguments msys W : clear implicits.

End Guest.
