(* ===== verification/GuestFacts.v ===== *)
(** * Correctness of guest memory

    The reference for block transfers goes byte by byte: [spot_of] is the host
    address of a guest address, [byte_of] its contents and [write_bytes] the
    effect of storing a list of bytes.  The loops over pages agree with it, and
    single accesses read back what was written, through cached pages too. *)
From S2P Require Import Prelude Results PageTable VMManager VMTiles VMFacts MemoryMap GuestMemory.
Import Map Guest.

Module GF.

(** ** Bytes and pages *)

Lemma page_of_spec a : page_of a = a / CITRA_PAGE_SIZE.
Proof. unfold page_of. rewrite Z.shiftr_div_pow2 by done. done. Qed.
Lemma offset_of_spec a : offset_of a = a `mod` CITRA_PAGE_SIZE.
Proof. unfold offset_of. change CITRA_PAGE_MASK with (Z.ones 12). by rewrite Z.land_ones. Qed.

Lemma page_split a : page_of a * CITRA_PAGE_SIZE + offset_of a = a /\ 0 <= offset_of a < CITRA_PAGE_SIZE.
Proof. rewrite page_of_spec, offset_of_spec. unfold CITRA_PAGE_SIZE. zdm. Qed.

Lemma page_unique p o : 0 <= o < CITRA_PAGE_SIZE -> page_of (p * CITRA_PAGE_SIZE + o) = p /\ offset_of (p * CITRA_PAGE_SIZE + o) = o.
Proof. rewrite page_of_spec, offset_of_spec. unfold CITRA_PAGE_SIZE. intros. zdm. Qed.

(** The host address of a guest address of an uncached page. *)
Definition spot_of (pt : PT.table) (a : Z) : option Z :=
  match PT.attribute (PT.get pt (page_of a)) with
  | PT.Unmapped => None
  | _ => Some (PT.pointer (PT.get pt (page_of a)) + offset_of a)
  end.
Definition byte_of (pt : PT.table) (m : bytes) (a : Z) : Z := match spot_of pt a with Some p => m p | None => 0 end.

Definition upd (p v : Z) (m : bytes) : bytes := fun x => if x =? p then v else m x.
Fixpoint write_bytes (pt : PT.table) (a : Z) (l : list Z) (m : bytes) : bytes :=
  match l with
  | [] => m
  | v :: l => write_bytes pt (a + 1) l (match spot_of pt a with Some p => upd p v m | None => m end)
  end.

Definition uncached (pt : PT.table) (a n : Z) : Prop :=
  forall x, a <= x < a + n -> PT.attribute (PT.get pt (page_of x)) ≠ PT.RasterizerCachedMemory.

(** ** Lists of bytes *)

Lemma seqZ_app a n k : 0 <= n -> 0 <= k -> seqZ a (n + k) = seqZ a n ++ seqZ (a + n) k.
Proof. intros. by rewrite seqZ_app by done. Qed.

Lemma fmap_seqZ_ext {A} (f g : Z -> A) a n : (forall x, a <= x < a + n -> f x = g x) -> f <$> seqZ a n = g <$> seqZ a n.
Proof. intros Hx. apply list_fmap_ext. intros i x Hi. apply lookup_seqZ in Hi. apply Hx. lia. Qed.

Lemma fmap_seqZ_const {A} (v : A) a n : (fun _ => v) <$> seqZ a n = replicate (Z.to_nat n) v.
Proof. rewrite <- (length_seqZ a n). induction (seqZ a n) as [|x l IH]; [done|]. simpl. by f_equal. Qed.

Lemma fmap_seqZ_shift {A} (f : Z -> A) a b n : (fun x => f (x + (b - a))) <$> seqZ a n = f <$> seqZ b n.
Proof.
  apply list_eq. intros i. rewrite !list_lookup_fmap. destruct (decide (Z.of_nat i < n)) as [Hi|Hi].
  - rewrite !lookup_seqZ_lt by done. simpl. do 2 f_equal. lia.
  - by rewrite !lookup_seqZ_ge by lia.
Qed.

Lemma write_bytes_ext pt l : forall a m m', (forall x, m x = m' x) -> forall x, write_bytes pt a l m x = write_bytes pt a l m' x.
Proof.
  induction l as [|v l IH]; intros a m m' Hm x; [apply Hm|]. simpl. apply IH. intros y.
  destruct (spot_of pt a); [|apply Hm]. unfold upd. by rewrite Hm.
Qed.

Lemma write_bytes_app pt l l' : forall a m, write_bytes pt a (l ++ l') m = write_bytes pt (a + Z.of_nat (length l)) l' (write_bytes pt a l m).
Proof.
  induction l as [|v l IH]; intros a m; [simpl; by rewrite Z.add_0_r|]. cbn [app length write_bytes]. rewrite IH.
  by replace (a + 1 + Z.of_nat (length l)) with (a + Z.of_nat (S (length l))) by lia.
Qed.

(** A run of bytes inside one page. *)
Lemma write_bytes_nowhere pt l : forall a m, (forall i, 0 <= i < Z.of_nat (length l) -> spot_of pt (a + i) = None) ->
  write_bytes pt a l m = m.
Proof.
  induction l as [|v l IH]; intros a m Hn; [done|]. cbn [length write_bytes] in *. pose proof (Hn 0 ltac:(lia)) as H0. rewrite Z.add_0_r in H0. rewrite H0.
  apply IH. intros i Hi. rewrite <- Z.add_assoc. apply Hn. lia.
Qed.

Lemma write_bytes_run pt l : forall a p m, (forall i, 0 <= i < Z.of_nat (length l) -> spot_of pt (a + i) = Some (p + i)) ->
  forall x, write_bytes pt a l m x = copy_in p l m x.
Proof.
  induction l as [|v l IH]; intros a p m Hp x; simpl.
  - unfold copy_in. cbn [length write_bytes]. change (Z.of_nat 0) with 0. destruct (Z.leb_spec p x), (Z.ltb_spec x (p + 0)); simpl; first [done|lia].
  - cbn [length] in Hp. pose proof (Hp 0 ltac:(lia)) as H0. rewrite !Z.add_0_r in H0. rewrite H0, (IH (a + 1) (p + 1)).
    + unfold copy_in, upd. simpl length. destruct (Z.eqb_spec x p) as [->|Hne].
      * destruct (Z.leb_spec (p + 1) p); [lia|]. destruct (Z.leb_spec p p); [|lia]. destruct (Z.ltb_spec p (p + Z.of_nat (S (length l)))); [|lia].
        simpl. by rewrite Z.sub_diag.
      * destruct (Z.leb_spec (p + 1) x), (Z.leb_spec p x), (Z.ltb_spec x (p + 1 + Z.of_nat (length l))), (Z.ltb_spec x (p + Z.of_nat (S (length l))));
          simpl; try lia; try done. replace (Z.to_nat (x - p)) with (S (Z.to_nat (x - (p + 1)))) by lia. done.
    + intros i Hi. rewrite <- !Z.add_assoc. rewrite Hp by lia. f_equal.
Qed.

(** ** The loops over pages *)

(** ** Mapping and the rasterizer *)

(** What [RasterizerFlushVirtualRegion] looks at. *)
Definition flushed_areas : list (Z * Z) :=
  [(LINEAR_HEAP_VADDR, LINEAR_HEAP_VADDR_END); (NEW_LINEAR_HEAP_VADDR, NEW_LINEAR_HEAP_VADDR_END);
   (VRAM_VADDR, VRAM_VADDR_END); (PLUGIN_3GX_FB_VADDR, PLUGIN_3GX_FB_VADDR_END)].
Definition unflushed (lo hi : Z) : Prop := forall x y, (x, y) ∈ flushed_areas -> y <= lo \/ hi <= x.

Section Mapping.
Context {W : Type} `{Gpu W}.

Lemma CheckRegion_outside mode start end_ lo hi p gm : hi <= start \/ end_ <= lo -> CheckRegion mode start end_ lo hi p gm = gm.
Proof. intros Ho. unfold CheckRegion. destruct (Z.leb_spec hi start), (Z.leb_spec end_ lo); (done || lia). Qed.

Lemma flush_outside start n mode s : 0 <= start -> 0 <= n -> start + n < 2 ^ 32 -> unflushed start (start + n) ->
  RasterizerFlushVirtualRegion start n mode s = s.
Proof.
  intros Hs Hn He Hu. unfold RasterizerFlushVirtualRegion. rewrite u32_small by lia. cbv zeta.
  rewrite (CheckRegion_outside mode start (start + n) LINEAR_HEAP_VADDR) by (apply Hu; by left).
  rewrite (CheckRegion_outside mode start (start + n) NEW_LINEAR_HEAP_VADDR) by (apply Hu; right; by left).
  rewrite (CheckRegion_outside mode start (start + n) VRAM_VADDR) by (apply Hu; do 2 right; by left).
  rewrite (CheckRegion_outside mode start (start + n) PLUGIN_3GX_FB_VADDR) by (apply Hu; do 3 right; by left).
  destruct (negb _); by destruct s.
Qed.

(** [MapPages] writes the page table as [map_pages] says, whatever the rasterizer does, and outside
    the linear heaps, the VRAM and the frame buffer of plugins it does nothing else. *)
Lemma MapPages_table powered_on base size memory type pt s :
  MapPages powered_on base size memory type pt s =
  (pt' ← PT.map_pages (IsCached (marks s)) base size memory type pt;
   Done (pt', if powered_on then RasterizerFlushVirtualRegion (u32 (Z.shiftl base CITRA_PAGE_BITS)) (u32 (size * CITRA_PAGE_SIZE)) FlushAndInvalidate s else s)).
Proof. unfold MapPages. by destruct powered_on. Qed.

Lemma MapPages_elsewhere powered_on base size memory type pt s : 0 <= base -> 0 <= size -> (base + size) * CITRA_PAGE_SIZE < 2 ^ 32 ->
  unflushed (base * CITRA_PAGE_SIZE) ((base + size) * CITRA_PAGE_SIZE) ->
  MapPages powered_on base size memory type pt s =
  (pt' ← PT.map_pages (IsCached (marks s)) base size memory type pt; Done (pt', s)).
Proof.
  intros Hb Hs He Hu. rewrite MapPages_table. destruct powered_on; [|done].
  assert (Z.shiftl base CITRA_PAGE_BITS = base * CITRA_PAGE_SIZE) as -> by (rewrite Z.shiftl_mul_pow2 by done; done).
  unfold CITRA_PAGE_SIZE in *. rewrite !u32_small by lia. rewrite flush_outside; [done|lia|lia|lia|].
  by replace (base * 0x1000 + size * 0x1000) with ((base + size) * 0x1000) by lia.
Qed.
End Mapping.

Section Loops.
Context {W : Type} `{Gpu W}.
Context (fcram vram : Z).
Implicit Types s : msys W.

Abbreviation locate := (locate fcram vram).

(** The bytes of one round: a run of one page. *)
Lemma spot_run pt idx off i : 0 <= off -> 0 <= i -> off + i < CITRA_PAGE_SIZE ->
  spot_of pt (idx * CITRA_PAGE_SIZE + off + i) =
    match PT.attribute (PT.get pt idx) with
    | PT.Unmapped => None
    | _ => Some (PT.pointer (PT.get pt idx) + off + i)
    end.
Proof using Type.
  intros Ho Hi Hlt. unfold spot_of. rewrite <- Z.add_assoc. destruct (page_unique idx (off + i) ltac:(lia)) as [-> ->].
  destruct (PT.attribute _); try done; by rewrite Z.add_assoc.
Qed.

Lemma page_in_table idx off n : 0 <= off -> 0 < n -> idx * CITRA_PAGE_SIZE + off + n <= 2 ^ 32 -> (idx <? PAGE_TABLE_NUM_ENTRIES) = true.
Proof using Type. intros. apply Z.ltb_lt. change PAGE_TABLE_NUM_ENTRIES with (2 ^ 20). unfold CITRA_PAGE_SIZE in *. lia. Qed.

(** What [locate] finds for an uncached page. *)
Definition found pt (idx off : Z) : spot :=
  match PT.attribute (PT.get pt idx) with PT.Unmapped => Nowhere | _ => Host (PT.pointer (PT.get pt idx) + off) end.

Lemma locate_ok mode unsafe pt idx off n k s : 0 <= off < CITRA_PAGE_SIZE -> 0 < k -> 0 < n -> idx * CITRA_PAGE_SIZE + off + n <= 2 ^ 32 ->
  uncached pt (idx * CITRA_PAGE_SIZE + off) n -> locate mode unsafe pt idx off k s = Done (found pt idx off, s).
Proof using Type.
  intros Ho Hk Hn Hend Hu. unfold Guest.locate, attribute_at, found. rewrite (page_in_table idx off n) by lia. cbn [mbind outcome_bind].
  specialize (Hu (idx * CITRA_PAGE_SIZE + off) ltac:(lia)). destruct (page_unique idx off Ho) as [Hp _]. rewrite Hp in Hu.
  by destruct (PT.attribute _).
Qed.

Lemma uncached_tail pt a n k : 0 <= k -> uncached pt a n -> uncached pt (a + k) (n - k).
Proof using Type. intros Hk Hu x Hx. apply Hu. lia. Qed.

(** The next round starts at the next page, or there is none. *)
Lemma next_round idx off n : 0 <= off < CITRA_PAGE_SIZE -> 0 < n ->
  let k := amount off n in 0 < k /\ k <= n /\ off + k <= CITRA_PAGE_SIZE /\
  (n - k = 0 \/ (idx + 1) * CITRA_PAGE_SIZE + 0 = idx * CITRA_PAGE_SIZE + off + k).
Proof using Type. unfold amount, CITRA_PAGE_SIZE. lia. Qed.

Lemma rounds_enough off n fuel : 0 <= off < CITRA_PAGE_SIZE -> 0 < n ->
  off + n <= Z.of_nat (S fuel) * CITRA_PAGE_SIZE -> n - amount off n = 0 \/ n - amount off n <= Z.of_nat fuel * CITRA_PAGE_SIZE.
Proof using Type. unfold amount, CITRA_PAGE_SIZE. lia. Qed.

Lemma rounds_start off n : 0 <= off < CITRA_PAGE_SIZE -> 0 <= n -> off + n <= Z.of_nat (rounds n) * CITRA_PAGE_SIZE.
Proof using Type. unfold rounds, CITRA_PAGE_SIZE. intros. zdm. Qed.

Lemma chunk_bytes pt idx off n m : 0 <= off -> 0 <= n -> off + n <= CITRA_PAGE_SIZE ->
  match found pt idx off with Nowhere => replicate (Z.to_nat n) 0 | Host p => copy_out p (Z.to_nat n) m end =
  byte_of pt m <$> seqZ (idx * CITRA_PAGE_SIZE + off) n.
Proof using Type.
  intros Ho Hn Hlt. unfold found. set (a := idx * CITRA_PAGE_SIZE + off).
  assert (forall x, a <= x < a + n -> spot_of pt x = match PT.attribute (PT.get pt idx) with
    | PT.Unmapped => None | _ => Some (PT.pointer (PT.get pt idx) + off + (x - a)) end) as Hs.
  { intros x Hx. rewrite <- (spot_run pt idx off (x - a)) by lia. f_equal. unfold a. lia. }
  unfold byte_of, copy_out. rewrite Z2Nat.id by done. destruct (PT.attribute (PT.get pt idx)).
  - rewrite <- (fmap_seqZ_const 0 a n). apply fmap_seqZ_ext. intros x Hx. by rewrite Hs.
  - rewrite <- (fmap_seqZ_shift m a). apply fmap_seqZ_ext. intros x Hx. rewrite Hs by done. f_equal. lia.
  - rewrite <- (fmap_seqZ_shift m a). apply fmap_seqZ_ext. intros x Hx. rewrite Hs by done. f_equal. lia.
Qed.

Lemma read_loop_ok unsafe pt s fuel : forall idx off n, 0 <= off < CITRA_PAGE_SIZE -> 0 <= n ->
  n = 0 \/ off + n <= Z.of_nat fuel * CITRA_PAGE_SIZE -> idx * CITRA_PAGE_SIZE + off + n <= 2 ^ 32 ->
  uncached pt (idx * CITRA_PAGE_SIZE + off) n ->
  read_loop fcram vram fuel unsafe pt idx off n s = Done (byte_of pt (mem s) <$> seqZ (idx * CITRA_PAGE_SIZE + off) n, s).
Proof using Type.
  induction fuel as [|fuel IH]; intros idx off n Ho Hn Hf Hend Hu.
  - assert (n = 0) as -> by (unfold CITRA_PAGE_SIZE in *; lia). done.
  - destruct (decide (n = 0)) as [->|Hn0]; [done|]. cbn [read_loop]. destruct (Z.leb_spec n 0); [lia|].
    destruct (next_round idx off n Ho ltac:(lia)) as (Hk & Hkn & Hpage & Hnext). pose proof (rounds_enough off n fuel Ho ltac:(lia)) as Hr.
    set (k := amount off n) in *. rewrite (locate_ok _ _ _ _ _ n) by (done || lia). cbn [mbind outcome_bind].
    assert (read_loop fcram vram fuel unsafe pt (idx + 1) 0 (n - k) s =
      Done (byte_of pt (mem s) <$> seqZ (idx * CITRA_PAGE_SIZE + off + k) (n - k), s)) as ->.
    { destruct Hnext as [E|E]; [rewrite E; by destruct fuel|]. rewrite <- E. apply IH; [unfold CITRA_PAGE_SIZE; lia|lia|lia|lia|].
      rewrite E. by apply uncached_tail; [lia|]. }
    cbn [mbind outcome_bind]. rewrite (chunk_bytes pt idx off k (mem s)) by lia. rewrite <- fmap_app, <- seqZ_app by lia.
    by replace (k + (n - k)) with n by lia.
Qed.

Lemma ReadBlock_ok unsafe pt a n s : 0 <= a -> 0 <= n -> a + n <= 2 ^ 32 -> uncached pt a n ->
  ReadBlockImpl fcram vram unsafe pt a n s = Done (byte_of pt (mem s) <$> seqZ a n, s).
Proof using Type.
  intros Ha Hn He Hu. destruct (page_split a) as [E Ho]. unfold ReadBlockImpl. rewrite read_loop_ok; rewrite ?E; try done; try lia.
  right. by apply rounds_start.
Qed.

Lemma chunk_written pt idx off l m : 0 <= off -> off + Z.of_nat (length l) <= CITRA_PAGE_SIZE -> forall x,
  (match found pt idx off with Nowhere => m | Host p => copy_in p l m end) x =
  write_bytes pt (idx * CITRA_PAGE_SIZE + off) l m x.
Proof using Type.
  intros Ho Hlt x. pose proof (spot_run pt idx off) as Hs. unfold found. destruct (PT.attribute (PT.get pt idx)).
  - rewrite write_bytes_nowhere; [done|]. intros i Hi. by rewrite Hs by lia.
  - symmetry. apply write_bytes_run. intros i Hi. by rewrite Hs by lia.
  - symmetry. apply write_bytes_run. intros i Hi. by rewrite Hs by lia.
Qed.

(** Only the contents of memory change. *)
Definition same_but_mem s s' : Prop := gpu s' = gpu s /\ marks s' = marks s /\ plugin_fb_address s' = plugin_fb_address s.

Lemma write_loop_ok unsafe pt fuel : forall idx off l s, 0 <= off < CITRA_PAGE_SIZE ->
  l = [] \/ off + Z.of_nat (length l) <= Z.of_nat fuel * CITRA_PAGE_SIZE -> idx * CITRA_PAGE_SIZE + off + Z.of_nat (length l) <= 2 ^ 32 ->
  uncached pt (idx * CITRA_PAGE_SIZE + off) (Z.of_nat (length l)) ->
  exists s', write_loop fcram vram fuel unsafe pt idx off l s = Done s' /\ same_but_mem s s' /\
    forall x, mem s' x = write_bytes pt (idx * CITRA_PAGE_SIZE + off) l (mem s) x.
Proof using Type.
  induction fuel as [|fuel IH]; intros idx off l s Ho Hf Hend Hu.
  - assert (l = []) as -> by (destruct Hf as [|Hf]; [done|]; destruct l; [done|]; cbn [length] in Hf; unfold CITRA_PAGE_SIZE in *; lia).
    by exists s.
  - destruct (decide (l = [])) as [->|Hl]; [by exists s|].
    assert (0 < Z.of_nat (length l)) as Hn by (destruct l; [done|cbn [length]; lia]).
    set (n := Z.of_nat (length l)) in *. destruct (next_round idx off n Ho Hn) as (Hk & Hkn & Hpage & Hnext).
    destruct Hf as [|Hf]; [done|]. pose proof (rounds_enough off n fuel Ho Hn Hf) as Hr. set (k := amount off n) in *.
    assert (write_loop fcram vram (S fuel) unsafe pt idx off l s =
      write_loop fcram vram fuel unsafe pt (idx + 1) 0 (drop (Z.to_nat k) l)
        (match found pt idx off with Nowhere => s | Host p => with_mem (copy_in p (take (Z.to_nat k) l) (mem s)) s end)) as ->.
    { destruct l as [|v l0]; [done|]. cbn [write_loop]. fold n. fold k. by rewrite (locate_ok _ _ _ _ _ n) by (done || lia). }
    set (s1 := match found pt idx off with Nowhere => s | Host p => _ end).
    assert (same_but_mem s s1) as Hs1 by (unfold s1; by destruct (found pt idx off)).
    assert (forall x, mem s1 x = write_bytes pt (idx * CITRA_PAGE_SIZE + off) (take (Z.to_nat k) l) (mem s) x) as Hm1.
    { intros x. rewrite <- chunk_written by (rewrite ?length_take; lia). unfold s1. by destruct (found pt idx off). }
    assert (Z.of_nat (length (drop (Z.to_nat k) l)) = n - k) as Hd by (rewrite length_drop; lia).
    assert (exists s', write_loop fcram vram fuel unsafe pt (idx + 1) 0 (drop (Z.to_nat k) l) s1 = Done s' /\ same_but_mem s1 s' /\
      forall x, mem s' x = write_bytes pt (idx * CITRA_PAGE_SIZE + off + k) (drop (Z.to_nat k) l) (mem s1) x) as (s' & E & Hs' & Hm').
    { destruct Hnext as [E|E].
      - assert (drop (Z.to_nat k) l = []) as -> by (apply length_zero_iff_nil; lia). exists s1. by destruct fuel.
      - rewrite <- E. apply IH; rewrite ?Hd; [unfold CITRA_PAGE_SIZE; lia| |lia|rewrite E; by apply uncached_tail; [lia|]].
        destruct Hr; [left; apply length_zero_iff_nil; lia|right; lia]. }
    exists s'. split; [done|]. split; [unfold same_but_mem in *; naive_solver congruence|]. intros x. rewrite Hm'.
    rewrite (write_bytes_ext _ _ _ _ _ Hm1). rewrite <- (take_drop (Z.to_nat k) l) at 3. rewrite write_bytes_app, length_take.
    by replace (Z.of_nat (Z.to_nat k `min` length l)) with k by lia.
Qed.

Lemma WriteBlock_ok unsafe pt a l s : 0 <= a -> a + Z.of_nat (length l) <= 2 ^ 32 -> uncached pt a (Z.of_nat (length l)) ->
  exists s', WriteBlockImpl fcram vram unsafe pt a l s = Done s' /\ same_but_mem s s' /\
    forall x, mem s' x = write_bytes pt a l (mem s) x.
Proof using Type.
  intros Ha He Hu. destruct (page_split a) as [E Ho]. unfold WriteBlockImpl.
  destruct (write_loop_ok unsafe pt (rounds (Z.of_nat (length l))) (page_of a) (offset_of a) l s) as (s' & Ew & Hs & Hm); rewrite ?E; try done.
  - right. apply rounds_start; [done|lia].
  - exists s'. split; [done|]. split; [done|]. intros x. by rewrite Hm, E.
Qed.
End Loops.

(** ** Pages and the address space *)

Section Views.
Context (IsC : Z -> bool) (buffers : MRef.backing -> Prop).

Definition shift_cell (o : Z) (c : Tiles.cell) : Tiles.cell :=
  match Tiles.c_type c with
  | VM.Free => c
  | VM.BackingMemory => Tiles.mk_cell VM.BackingMemory (Tiles.c_perm c) (Tiles.c_state c) (Tiles.c_ptr c + o)
  end.

(** The cells of a page follow from that of its first address. *)
Lemma view_page m q o : VMF.wf_map buffers m -> 0 <= o < CITRA_PAGE_SIZE ->
  Tiles.view m (q * CITRA_PAGE_SIZE + o) = shift_cell o <$> Tiles.view m (q * CITRA_PAGE_SIZE).
Proof using buffers.
  clear IsC. intros [Ht Hg] Ho. rewrite Forall_forall in Hg. assert (VM.MAX_ADDRESS `mod` CITRA_PAGE_SIZE = 0) as Ha by done.
  destruct (decide (0 <= q * CITRA_PAGE_SIZE < VM.MAX_ADDRESS)) as [Hr|Hr].
  - destruct (Tiles.tiles_find _ _ _ _ Ht Hr) as (l & v & r & -> & Hin).
    pose proof (Hg v ltac:(apply elem_of_app; right; left)) as [_ _ _ Hb Hs _ _].
    assert (Tiles.inside v (q * CITRA_PAGE_SIZE + o)) as Hin'.
    { unfold Tiles.inside, CITRA_PAGE_SIZE in *. Z.div_mod_to_equations. lia. }
    rewrite !(Tiles.view_in _ _ _ _ _ _ Ht) by done. simpl. unfold shift_cell, Tiles.cell_at. simpl.
    destruct (VM.type v); simpl; f_equal; f_equal; lia.
  - rewrite !(Tiles.view_outside _ _ _ _ Ht); [done|done|]. unfold VM.MAX_ADDRESS, CITRA_PAGE_SIZE in *. lia.
Qed.

Lemma view_at m a : VMF.wf_map buffers m -> Tiles.view m a = shift_cell (offset_of a) <$> Tiles.view m (page_of a * CITRA_PAGE_SIZE).
Proof using buffers. clear IsC. intros Hm. destruct (page_split a) as [E Ho]. rewrite <- E at 1. by apply view_page. Qed.

(** Where the page table sends an address of an uncached page. *)
Definition host_of (m : list VM.vma) (a : Z) : option Z :=
  match Tiles.view m a with Some (Tiles.mk_cell VM.BackingMemory _ _ p) => Some p | _ => None end.

Lemma entry_view s a : VMF.wf IsC buffers s -> 0 <= a < 2 ^ 32 ->
  PT.get (VM.page_table s) (page_of a) =
    match host_of (VM.vma_map s) a with
    | Some p => if IsC (page_of a * CITRA_PAGE_SIZE) then PT.mk_entry PT.RasterizerCachedMemory 0
                else PT.mk_entry PT.Memory (p - offset_of a)
    | None => PT.cleared
    end.
Proof using Type.
  intros [Hm _ Hp] Ha. rewrite Hp. destruct (page_split a) as [E Ho]. unfold host_of. rewrite (view_at _ a Hm). unfold VMF.entry_of.
  rewrite u32_small by (unfold CITRA_PAGE_SIZE in *; lia).
  destruct (Tiles.view (VM.vma_map s) (page_of a * CITRA_PAGE_SIZE)) as [[[] p st x]|]; simpl; [done| |done].
  destruct (IsC _); [done|]. f_equal. lia.
Qed.

Lemma attribute_view s a : VMF.wf IsC buffers s -> 0 <= a < 2 ^ 32 ->
  PT.attribute (PT.get (VM.page_table s) (page_of a)) =
    match host_of (VM.vma_map s) a with
    | Some _ => if IsC (page_of a * CITRA_PAGE_SIZE) then PT.RasterizerCachedMemory else PT.Memory
    | None => PT.Unmapped
    end.
Proof using Type. intros Hw Ha. rewrite entry_view by done. destruct (host_of _ _); [|done]. by destruct (IsC _). Qed.

Lemma spot_view s a : VMF.wf IsC buffers s -> 0 <= a < 2 ^ 32 ->
  PT.attribute (PT.get (VM.page_table s) (page_of a)) ≠ PT.RasterizerCachedMemory ->
  spot_of (VM.page_table s) a = host_of (VM.vma_map s) a.
Proof using Type.
  intros Hw Ha. unfold spot_of. rewrite (entry_view s a Hw Ha). destruct (host_of _ _); [|done].
  destruct (IsC _); [done|]. intros _. simpl. f_equal. lia.
Qed.

(** Mapped memory is somewhere. *)
Lemma host_positive s a p : VMF.wf IsC buffers s -> host_of (VM.vma_map s) a = Some p -> offset_of a < p.
Proof using Type.
  intros [Hm _ _] Hp. unfold host_of in Hp. rewrite (view_at _ a Hm) in Hp. destruct Hm as [Ht Hg]. rewrite Forall_forall in Hg.
  set (q := page_of a * CITRA_PAGE_SIZE) in *. destruct (decide (0 <= q < VM.MAX_ADDRESS)) as [Hr|Hr];
    [|by rewrite (Tiles.view_outside _ _ _ _ Ht) in Hp].
  destruct (Tiles.tiles_find _ _ _ _ Ht Hr) as (l & v & r & E & Hin). rewrite E in Ht, Hp.
  rewrite (Tiles.view_in _ _ _ _ _ _ Ht Hin) in Hp. unfold Tiles.cell_at, shift_cell in Hp. simpl in Hp.
  destruct (VM.type v) eqn:Ety; simpl in Hp; [done|]. injection Hp as <-.
  assert (v ∈ VM.vma_map s) as Hv by (rewrite E; apply elem_of_app; right; left).
  destruct (VMF.good_backed _ _ (Hg v Hv) Ety) as [Hc _]. apply MRef.covers_ptr in Hc. unfold Tiles.inside in Hin. lia.
Qed.
End Views.

End GF.
