(* ===== verification/GuestTheorems.v ===== *)
(** * What guest memory promises

    Block transfers copy exactly the bytes the address space maps, single accesses
    read back what was written even when the rasterizer caches the page, and
    marking pages as cached keeps the page tables in agreement with the address
    spaces. *)
From S2P Require Import Prelude Results PageTable VMManager VMTiles VMFacts VMTheorems MemoryMap GuestMemory GuestFacts.
Import Map Guest GF.

Module GT.

(** ** Bytewise writes *)

Lemma write_bytes_frame pt l : forall a m x, (forall i, 0 <= i < Z.of_nat (length l) -> spot_of pt (a + i) ≠ Some x) ->
  write_bytes pt a l m x = m x.
Proof.
  induction l as [|v l IH]; intros a m x Hx; [done|]. cbn [length write_bytes] in *. rewrite IH.
  - pose proof (Hx 0 ltac:(lia)) as H0. rewrite Z.add_0_r in H0. destruct (spot_of pt a) as [p|]; [|done]. unfold upd.
    destruct (Z.eqb_spec x p) as [->|]; [done|done].
  - intros i Hi. rewrite <- Z.add_assoc. apply Hx. lia.
Qed.

Definition one_to_one (pt : PT.table) (a n : Z) : Prop :=
  (forall x, a <= x < a + n -> is_Some (spot_of pt x)) /\
  forall x y p, a <= x < a + n -> a <= y < a + n -> spot_of pt x = Some p -> spot_of pt y = Some p -> x = y.

Lemma write_bytes_read pt l : forall a m, one_to_one pt a (Z.of_nat (length l)) ->
  byte_of pt (write_bytes pt a l m) <$> seqZ a (Z.of_nat (length l)) = l.
Proof.
  induction l as [|v l IH]; intros a m [Hs Hi]; [done|]. cbn [length write_bytes] in *.
  rewrite seqZ_cons by lia. replace (Z.pred (Z.of_nat (S (length l)))) with (Z.of_nat (length l)) by lia.
  replace (Z.succ a) with (a + 1) by lia. destruct (Hs a ltac:(lia)) as [p Hp]. rewrite Hp. cbn [fmap list_fmap]. f_equal.
  - unfold byte_of. rewrite Hp, write_bytes_frame; [unfold upd; by rewrite Z.eqb_refl|].
    intros i Hr E. pose proof (Hi a (a + 1 + i) p ltac:(lia) ltac:(lia) Hp E). lia.
  - apply IH. split; [intros x Hx; apply Hs; lia|]. intros x y q Hx Hy. apply Hi; lia.
Qed.

Lemma byte_of_ext pt m m' a : (forall x, m x = m' x) -> byte_of pt m a = byte_of pt m' a.
Proof. intros Hm. unfold byte_of. by destruct (spot_of pt a). Qed.

Section Blocks.
Context {W : Type} `{Gpu W}.
Context (fcram vram : Z) (buffers : MRef.backing -> Prop).
Implicit Types s : msys W.

(** The address space [vm] as the memory system [s] sees it. *)
Definition seen (vm : VM.vmm) s : Prop := VMF.wf (IsCached (marks s)) buffers vm.

Definition plain (vm : VM.vmm) s (a n : Z) : Prop :=
  forall x, a <= x < a + n -> IsCached (marks s) (page_of x * CITRA_PAGE_SIZE) = false.

Lemma plain_uncached vm s a n : seen vm s -> 0 <= a -> a + n <= 2 ^ 32 -> plain vm s a n -> uncached (VM.page_table vm) a n.
Proof using Type.
  intros Hw Ha He Hp x Hx. rewrite (attribute_view _ _ _ _ Hw) by lia. rewrite (Hp x Hx). by destruct (host_of _ _).
Qed.

Lemma plain_spot vm s a n x : seen vm s -> 0 <= a -> a + n <= 2 ^ 32 -> plain vm s a n -> a <= x < a + n ->
  spot_of (VM.page_table vm) x = host_of (VM.vma_map vm) x.
Proof using Type. intros Hw Ha He Hp Hx. eapply spot_view; [exact Hw|lia|]. by apply (plain_uncached vm s a n). Qed.

(** C37: On a range without pages the rasterizer caches, [ReadBlock] returns the byte
    at the host address the address space gives each guest address, and zero for
    unmapped ones, whatever the alignment; [WriteBlock] changes no byte outside
    the range and, when no two addresses of the range share a byte and all are
    mapped, reading the range back gives the bytes written.  The loops over pages
    end and stay inside the page table. *)
Theorem block_transfers_exact vm s a l : seen vm s -> 0 <= a -> a + Z.of_nat (length l) <= 2 ^ 32 ->
  plain vm s a (Z.of_nat (length l)) ->
  let host := host_of (VM.vma_map vm) in
  let pt := VM.page_table vm in
  ReadBlock fcram vram pt a (Z.of_nat (length l)) s =
    Done ((fun x => match host x with Some p => mem s p | None => 0 end) <$> seqZ a (Z.of_nat (length l)), s) /\
  exists s', WriteBlock fcram vram pt a l s = Done s' /\
    (forall q, (forall x, a <= x < a + Z.of_nat (length l) -> host x ≠ Some q) -> mem s' q = mem s q) /\
    ((forall x, a <= x < a + Z.of_nat (length l) -> is_Some (host x)) ->
     (forall x y q, a <= x < a + Z.of_nat (length l) -> a <= y < a + Z.of_nat (length l) -> host x = Some q -> host y = Some q -> x = y) ->
     ReadBlock fcram vram pt a (Z.of_nat (length l)) s' = Done (l, s')).
Proof using Type.
  intros Hw Ha He Hp host pt. pose proof (plain_uncached _ _ _ _ Hw Ha He Hp) as Hu.
  assert (forall x, a <= x < a + Z.of_nat (length l) -> spot_of pt x = host x) as Hs by (intros x; by apply (plain_spot vm s a (Z.of_nat (length l)))).
  split.
  { unfold ReadBlock. rewrite ReadBlock_ok by (done || lia). do 2 f_equal. apply fmap_seqZ_ext. intros x Hx. unfold byte_of. by rewrite Hs. }
  destruct (WriteBlock_ok fcram vram false pt a l s Ha He Hu) as (s' & E & _ & Hm). exists s'. split; [done|]. split.
  - intros q Hq. rewrite Hm. apply write_bytes_frame. intros i Hi. rewrite Hs by lia. apply Hq. lia.
  - intros Hmap Hinj. unfold ReadBlock. rewrite ReadBlock_ok by (done || lia). do 2 f_equal.
    rewrite (fmap_seqZ_ext _ (byte_of pt (write_bytes pt a l (mem s)))) by (intros; by apply byte_of_ext).
    apply write_bytes_read. split; [intros x Hx; rewrite Hs by done; by apply Hmap|].
    intros x y q Hx Hy. rewrite !Hs by done. by apply Hinj.
Qed.
End Blocks.

(** ** Single accesses *)

Lemma load_ext n : forall a m m', (forall x, a <= x < a + Z.of_nat n -> m x = m' x) -> load n a m = load n a m'.
Proof.
  induction n as [|n IH]; intros a m m' Hm; [done|]. cbn [load]. rewrite (Hm a) by lia. do 2 f_equal.
  apply IH. intros x Hx. apply Hm. lia.
Qed.

Lemma store_frame n : forall a v m x, ~ (a <= x < a + Z.of_nat n) -> store n a v m x = m x.
Proof.
  induction n as [|n IH]; intros a v m x Hx; [done|]. cbn [store]. rewrite IH by lia. destruct (Z.eqb_spec x a); [lia|done].
Qed.

Lemma load_store n : forall a v m, load n a (store n a v m) = v `mod` 256 ^ Z.of_nat n.
Proof.
  induction n as [|n IH]; intros a v m; [by rewrite Z.mod_1_r|]. cbn [load store]. rewrite IH, store_frame by lia. rewrite Z.eqb_refl.
  rewrite Nat2Z.inj_succ, Z.pow_succ_r by lia. rewrite Z.rem_mul_r by lia. lia.
Qed.

(** Where the GPU keeps the memory it draws to, and what flushing promises: it
    writes back bytes the GPU has newer values of, in the flushed range, which are
    then up to date; invalidating writes nothing. *)
Definition physical_host (fcram vram q : Z) : option Z :=
  if within q FCRAM_PADDR FCRAM_N3DS_PADDR_END then Some (fcram + (q - FCRAM_PADDR))
  else if within q VRAM_PADDR VRAM_PADDR_END then Some (vram + (q - VRAM_PADDR)) else None.

Class GpuLaws (W : Type) `{Gpu W} (fcram vram : Z) := {
  newer : W -> Z -> Prop;
  flush_writes mode p n w m x : (FlushRegion mode p n (w, m)).2 x ≠ m x ->
    mode ≠ Invalidate /\ exists q, p <= q < p + n /\ newer w q /\ physical_host fcram vram q = Some x;
  flush_newer mode p n w m q : newer (FlushRegion mode p n (w, m)).1 q -> newer w q /\ ~ (p <= q < p + n);
}.

Section Single.
Context {W : Type} `{GpuLaws W fcram vram}.
Context (buffers : MRef.backing -> Prop).
Implicit Types s : msys W.

(** The physical address of an address the rasterizer may cache, but for the plugin's frame buffer. *)
Definition cached_physical (a : Z) : option Z :=
  if within a LINEAR_HEAP_VADDR LINEAR_HEAP_VADDR_END then Some (FCRAM_PADDR + (a - LINEAR_HEAP_VADDR))
  else if within a NEW_LINEAR_HEAP_VADDR NEW_LINEAR_HEAP_VADDR_END then Some (FCRAM_PADDR + (a - NEW_LINEAR_HEAP_VADDR))
  else if within a VRAM_VADDR VRAM_VADDR_END then Some (VRAM_PADDR + (a - VRAM_VADDR)) else None.

Lemma CheckRegion_out mode a e lo hi pa gm : hi <= a \/ e <= lo -> CheckRegion mode a e lo hi pa gm = gm.
Proof using Type.
  intros Hor. unfold CheckRegion. destruct (Z.leb_spec hi a); [done|]. destruct (Z.leb_spec e lo); [done|lia].
Qed.

Lemma CheckRegion_in mode a e lo hi pa gm : lo <= a -> a < e -> e <= hi -> 0 <= lo -> hi < 2 ^ 32 -> 0 <= pa -> pa + (a - lo) < 2 ^ 32 ->
  CheckRegion mode a e lo hi pa gm = FlushRegion mode (pa + (a - lo)) (e - a) gm.
Proof using Type.
  intros. unfold CheckRegion. destruct (Z.leb_spec hi a); [lia|]. destruct (Z.leb_spec e lo); [lia|]. cbn [orb].
  by rewrite Z.max_l, Z.min_l, !u32_small by lia.
Qed.

Lemma within_spec a lo hi : within a lo hi = true <-> lo <= a < hi.
Proof using Type. unfold within. rewrite andb_true_iff, Z.leb_le, Z.ltb_lt. done. Qed.

(** The areas are whole pages, so an access inside a page stays inside its area. *)
Lemma page_end a n hi : offset_of a + n <= CITRA_PAGE_SIZE -> a < hi -> hi `mod` CITRA_PAGE_SIZE = 0 -> a + n <= hi.
Proof using Type. rewrite offset_of_spec. unfold CITRA_PAGE_SIZE. intros. Z.div_mod_to_equations. lia. Qed.

(** Exactly one of the areas is flushed. *)
Ltac one_region a n lo hi :=
  rewrite (CheckRegion_in _ a (a + n) lo hi) by mlia; repeat rewrite CheckRegion_out by mlia;
  replace (a + n - a) with n by lia; by destruct (negb _).

Lemma flush_region s a n mode q : cached_physical a = Some q -> 0 < n -> offset_of a + n <= CITRA_PAGE_SIZE ->
  RasterizerFlushVirtualRegion a n mode s = with_gpu (FlushRegion mode q n (gpu s, mem s)) s.
Proof using Type.
  intros Hq Hn Hpage. unfold RasterizerFlushVirtualRegion. pose proof (page_end a n) as He.
  unfold cached_physical in Hq. destruct (within a LINEAR_HEAP_VADDR LINEAR_HEAP_VADDR_END) eqn:E1.
  { apply within_spec in E1. injection Hq as <-. specialize (He LINEAR_HEAP_VADDR_END Hpage ltac:(lia) ltac:(done)).
    rewrite u32_small by mlia. one_region a n LINEAR_HEAP_VADDR LINEAR_HEAP_VADDR_END. }
  destruct (within a NEW_LINEAR_HEAP_VADDR NEW_LINEAR_HEAP_VADDR_END) eqn:E2.
  { apply within_spec in E2. injection Hq as <-. specialize (He NEW_LINEAR_HEAP_VADDR_END Hpage ltac:(lia) ltac:(done)).
    rewrite u32_small by mlia. one_region a n NEW_LINEAR_HEAP_VADDR NEW_LINEAR_HEAP_VADDR_END. }
  destruct (within a VRAM_VADDR VRAM_VADDR_END) eqn:E3; [|done].
  apply within_spec in E3. injection Hq as <-. specialize (He VRAM_VADDR_END Hpage ltac:(lia) ltac:(done)).
  rewrite u32_small by mlia. one_region a n VRAM_VADDR VRAM_VADDR_END.
Qed.

Lemma pointer_for_cache s a q p : cached_physical a = Some q -> physical_host fcram vram q = Some p ->
  exists r, GetPointerForRasterizerCache fcram vram a s = Done r /\ MRef.GetPtr r = p.
Proof using Type.
  unfold cached_physical, GetPointerForRasterizerCache, physical_host, MRef.make. intros Hq Hp.
  destruct (within a LINEAR_HEAP_VADDR LINEAR_HEAP_VADDR_END) eqn:E1.
  { apply within_spec in E1. injection Hq as <-. destruct (Z.leb_spec (a - LINEAR_HEAP_VADDR) (MRef.bytes (fcram_mem fcram))) as [_|?]; [|simpl in *; mlia].
    rewrite (proj2 (within_spec _ _ _)) in Hp by mlia. injection Hp as <-. eexists. split; [done|]. simpl. lia. }
  destruct (within a NEW_LINEAR_HEAP_VADDR NEW_LINEAR_HEAP_VADDR_END) eqn:E2.
  { apply within_spec in E2. injection Hq as <-. destruct (Z.leb_spec (a - NEW_LINEAR_HEAP_VADDR) (MRef.bytes (fcram_mem fcram))) as [_|?]; [|simpl in *; mlia].
    rewrite (proj2 (within_spec _ _ _)) in Hp by mlia. injection Hp as <-. eexists. split; [done|]. simpl. lia. }
  destruct (within a VRAM_VADDR VRAM_VADDR_END) eqn:E3; [|done]. apply within_spec in E3. injection Hq as <-.
  destruct (Z.leb_spec (a - VRAM_VADDR) (MRef.bytes (vram_mem vram))) as [_|?]; [|simpl in *; mlia].
  destruct (within (VRAM_PADDR + (a - VRAM_VADDR)) FCRAM_PADDR FCRAM_N3DS_PADDR_END) eqn:E4; [apply within_spec in E4; mlia|].
  rewrite (proj2 (within_spec _ _ _)) in Hp by mlia. injection Hp as <-. eexists. split; [done|]. simpl. lia.
Qed.

(** Bytes the GPU has newer values of are not in memory. *)
Lemma flush_clean mode p n w m : (forall q, p <= q < p + n -> ~ newer w q) -> forall x, (FlushRegion mode p n (w, m)).2 x = m x.
Proof using Type*.
  intros Hn x. destruct (decide ((FlushRegion mode p n (w, m)).2 x = m x)) as [|Hne]; [done|].
  apply flush_writes in Hne as (_ & q & Hq & Hw & _). by destruct (Hn q Hq).
Qed.

(** The rasterizer's pages are where the address space has them. *)
Definition linear_at (a p : Z) : Prop := exists q, cached_physical a = Some q /\ physical_host fcram vram q = Some p.

Lemma no_luma a : 0 <= a < 2 ^ 31 -> luma_mapping a = None.
Proof using Type.
  intros Ha. unfold luma_mapping. assert (Z.testbit a 31 = false) as ->; [|done].
  rewrite <- (Z.mod_small a (2 ^ 31)) by done. by apply Z.mod_pow2_bits_high.
Qed.

(** An access of [n] bytes inside a mapped page, whether or not the rasterizer
    caches the page, reads back what was last written there, modulo the width,
    and the write changes no byte but those [n]: flushing before the read does not
    bring back what the GPU had drawn before the write. *)
Theorem single_access_reads_back vm s n a v p : VMF.wf (IsCached (marks s)) buffers vm -> 0 <= a < 2 ^ 31 -> (0 < n)%nat ->
  offset_of a + Z.of_nat n <= CITRA_PAGE_SIZE -> host_of (VM.vma_map vm) a = Some p ->
  (IsCached (marks s) (page_of a * CITRA_PAGE_SIZE) = true -> linear_at a p) ->
  exists s1 s2, Write fcram vram n (VM.page_table vm) a v s = Done s1 /\
    Read fcram vram n (VM.page_table vm) a s1 = Done (v `mod` 256 ^ Z.of_nat n, s2) /\
    (forall x, ~ (p <= x < p + Z.of_nat n) -> mem s1 x = mem s x) /\ forall x, mem s2 x = mem s1 x.
Proof using Type*.
  intros Hw Ha Hn Hpage Hp Hl. pose proof (host_positive _ _ _ _ _ Hw Hp) as Hpos. unfold Write, Read.
  rewrite (entry_view _ _ _ _ Hw) by lia. rewrite Hp, no_luma by done. destruct (IsCached _ _) eqn:Hc.
  - destruct (Hl eq_refl) as (q & Hq & Hhost). cbn [PT.pointer PT.attribute Z.eqb negb].
    assert (forall mode s, RasterizerFlushVirtualRegion a (Z.of_nat n) mode s = with_gpu (FlushRegion mode q (Z.of_nat n) (gpu s, mem s)) s) as Hf
      by (intros; apply flush_region; [done|lia|done]).
    rewrite !Hf.
    destruct (FlushRegion Invalidate q (Z.of_nat n) (gpu s, mem s)) as [w1 m1] eqn:E1.
    destruct (pointer_for_cache (with_gpu (w1, m1) s) a q p Hq Hhost) as (r & -> & Hr). cbn [mbind outcome_bind]. rewrite Hr.
    set (m2 := store n p v m1). set (s1 := with_mem m2 (with_gpu (w1, m1) s)). set (gm := FlushRegion Flush q (Z.of_nat n) (w1, m2)).
    exists s1, (with_gpu gm s1). split; [done|]. rewrite !Hf. change (gpu s1, mem s1) with (w1, m2). fold gm.
    assert (forall x, m1 x = mem s x) as Hm1.
    { intros x. destruct (decide (m1 x = mem s x)) as [|Hne]; [done|].
      destruct (flush_writes Invalidate q (Z.of_nat n) (gpu s) (mem s) x) as [? _]; [by rewrite E1|done]. }
    assert (forall x, gm.2 x = m2 x) as Hm3.
    { intros x. apply flush_clean. intros y Hy Hnew.
      destruct (flush_newer Invalidate q (Z.of_nat n) (gpu s) (mem s) y) as [_ Hno]; [by rewrite E1|done]. }
    destruct (pointer_for_cache (with_gpu gm s1) a q p Hq Hhost) as (r' & -> & Hr'). cbn [mbind outcome_bind]. rewrite Hr'.
    change (mem (with_gpu gm s1)) with gm.2. rewrite (load_ext _ _ gm.2 m2) by (intros; apply Hm3). unfold m2 at 1. rewrite load_store.
    split; [done|]. split; [|exact Hm3]. intros x Hx. change (mem s1) with m2. unfold m2. by rewrite store_frame.
  - cbn [PT.pointer PT.attribute]. destruct (Z.eqb_spec (p - offset_of a) 0); [lia|]. cbn [negb].
    replace (p - offset_of a + offset_of a) with p by lia. eexists _, _. split; [done|]. cbn [with_mem mem]. rewrite load_store.
    split; [done|]. split; [|done]. intros x Hx. by apply store_frame.
Qed.
End Single.

(** ** Accesses across pages *)

(** A single access looks up the page of its first byte only: what the next page is
    mapped to makes no difference, even when the access runs into it. *)
Lemma crossing_access_ignores_next_page {W : Type} `{Gpu W} fcram vram n pt pt' a (s : msys W) :
  PT.get pt (page_of a) = PT.get pt' (page_of a) -> Read fcram vram n pt a s = Read fcram vram n pt' a s.
Proof. intros E. unfold Read. by rewrite E. Qed.

(** ** Marking pages *)

Section Marks.
Context {W : Type} `{Gpu W}.
Context (fcram vram : Z) (buffers : MRef.backing -> Prop).
Implicit Types s : msys W.

Lemma At_page a p : At a = Some p -> p = page_of a.
Proof using Type. unfold At. rewrite page_of_spec. destruct (_ || _); [by intros [= <-]|done]. Qed.

Lemma At_page_base a : At (page_of a * CITRA_PAGE_SIZE) = At a.
Proof using Type.
  unfold At. destruct (page_split a) as [E Ho]. rewrite (page_of_spec a) in *.
  assert (forall lo hi, lo `mod` CITRA_PAGE_SIZE = 0 -> hi `mod` CITRA_PAGE_SIZE = 0 ->
    within (a / CITRA_PAGE_SIZE * CITRA_PAGE_SIZE) lo hi = within a lo hi) as Hw.
  { intros lo hi Hlo Hhi. apply eq_true_iff_eq. rewrite !within_spec. unfold CITRA_PAGE_SIZE in *. Z.div_mod_to_equations. lia. }
  rewrite !Hw by done. destruct (_ || _); [|done]. f_equal. apply Z.div_mul. done.
Qed.

Lemma IsCached_mark a b cached k : At a = Some (page_of a) -> 
  IsCached (Mark a cached k) b = if decide (page_of b = page_of a) then cached else IsCached k b.
Proof using Type.
  intros Ha. unfold IsCached, Mark. rewrite Ha. destruct (decide (page_of b = page_of a)) as [E|E].
  - assert (At b = Some (page_of a)) as -> by (by rewrite <- (At_page_base b), E, At_page_base).
    destruct cached; [apply bool_decide_true|apply bool_decide_false]; set_solver.
  - destruct (At b) as [p|] eqn:Hb; [|done]. apply At_page in Hb as ->. destruct cached; apply bool_decide_ext; set_solver.
Qed.

(** The address space has the page of [a], if it maps it, where the rasterizer's is. *)
Definition linear_page (m : list VM.vma) (a : Z) : Prop :=
  forall p, host_of m (page_of a * CITRA_PAGE_SIZE) = Some p -> @linear_at fcram vram (page_of a * CITRA_PAGE_SIZE) p.

Lemma page_of_base q : page_of (q * CITRA_PAGE_SIZE) = q.
Proof using Type. rewrite page_of_spec. by apply Z.div_mul. Qed.

Lemma At_range a p : At a = Some p -> 0 <= a < 2 ^ 30.
Proof using Type.
  unfold At. destruct (_ || _) eqn:E; [|done]. intros _. rewrite !orb_true_iff, !within_spec in E. mlia.
Qed.

(** Marking the page of [a] changes the entry of that page only. *)
Lemma entry_mark m a cached k q : VMF.wf_map buffers m -> At a = Some (page_of a) ->
  let c := Tiles.view m (q * CITRA_PAGE_SIZE) in
  VMF.entry_of (IsCached (Mark a cached k)) q c =
    if decide (q = page_of a) then VMF.entry_of (fun _ => cached) q c else VMF.entry_of (IsCached k) q c.
Proof using Type.
  intros Hm Ha c. unfold VMF.entry_of. destruct c as [[[] p st x]|] eqn:Hc; [by case_decide| |by case_decide].
  assert (0 <= q * CITRA_PAGE_SIZE < VM.MAX_ADDRESS) as Hr.
  { destruct (decide (0 <= q * CITRA_PAGE_SIZE < VM.MAX_ADDRESS)); [done|]. subst c.
    by rewrite (Tiles.view_outside _ _ _ _ (VMF.wf_tiles _ _ Hm)) in Hc. }
  rewrite u32_small by (unfold VM.MAX_ADDRESS in *; lia). rewrite IsCached_mark, page_of_base by done. by case_decide.
Qed.

Lemma mark_page_ok cached a s m pt : VMF.pages_agree (IsCached (marks s)) m pt -> VMF.wf_map buffers m -> At a = Some (page_of a) ->
  IsCached (marks s) a = negb cached -> linear_page m a ->
  exists pt', mark_page fcram vram cached a (with_marks (Mark a cached (marks s)) s) pt = Done pt' /\
    VMF.pages_agree (IsCached (Mark a cached (marks s))) m pt'.
Proof using Type.
  intros Hp Hm Ha Hc Hl. unfold mark_page. set (pg := page_of a). pose proof (At_range _ _ Ha) as Hr.
  destruct (page_split a) as [E Ho]. fold pg in E.
  assert (IsCached (marks s) (u32 (pg * CITRA_PAGE_SIZE)) = negb cached) as Hcp.
  { rewrite u32_small by (unfold CITRA_PAGE_SIZE in *; lia). unfold IsCached in *. unfold pg. by rewrite At_page_base. }
  assert (forall e, (forall c, c = Tiles.view m (pg * CITRA_PAGE_SIZE) -> e = VMF.entry_of (fun _ => cached) pg c) ->
    VMF.pages_agree (IsCached (Mark a cached (marks s))) m (<[pg := e]> pt)) as Hset.
  { intros e He q. rewrite PT.get_insert, entry_mark by done. fold pg. destruct (decide (pg = q)) as [<-|Hne].
    - rewrite decide_True by done. by apply He.
    - rewrite decide_False by done. apply Hp. }
  pose proof (Hp pg) as Hpg. rewrite Hpg. specialize (Hl). unfold linear_page, host_of in Hl. fold pg in Hl.
  destruct (Tiles.view m (pg * CITRA_PAGE_SIZE)) as [[[] p st x]|] eqn:Hv.
  1, 3: (exists pt; split; [by destruct cached|]; intros q; rewrite entry_mark by done; fold pg; case_decide; [subst q|apply Hp]; rewrite Hpg, Hv; done).
  cbn [VMF.entry_of]. rewrite Hcp. destruct cached; cbn [negb PT.attribute].
  - eexists. split; [done|]. apply Hset. by intros c ->.
  - destruct (Hl x eq_refl) as (q & Hq & Hh).
    destruct (@pointer_for_cache W fcram vram (with_marks (Mark a false (marks s)) s) _ q x Hq Hh) as (r & Hr' & Hx).
    replace (a - offset_of a) with (pg * CITRA_PAGE_SIZE) by lia. rewrite Hr'. cbn [mbind outcome_bind]. eexists. split; [done|].
    rewrite Hx. apply Hset. by intros c ->.
Qed.

(** A list of pages, in every page table. *)
Lemma each_table_ok f (R : VM.vmm -> PT.table -> PT.table -> Prop) vms : forall pts,
  Forall2 (fun vm pt => exists pt', f pt = Done pt' /\ R vm pt pt') vms pts ->
  exists pts', each_table f pts = Done pts' /\ Forall2 (fun vm pt' => exists pt, R vm pt pt') vms pts'.
Proof using Type.
  induction vms as [|vm vms IH]; intros pts Hf; inversion Hf as [|? pt ? pts0 (pt' & E & HR) Hrest]; subst; [by exists []|].
  destruct (IH pts0 Hrest) as (pts' & E' & H'). exists (pt' :: pts'). cbn [each_table]. rewrite E. cbn [mbind outcome_bind].
  rewrite E'. cbn [mbind outcome_bind]. split; [done|]. constructor; [by exists pt|done].
Qed.

Definition agree (k : gset Z) (vm : VM.vmm) (pt : PT.table) : Prop :=
  VMF.wf_map buffers (VM.vma_map vm) /\ VMF.pages_agree (IsCached k) (VM.vma_map vm) pt.

Lemma mark_vaddrs_ok cached vms vs : forall s pts, Forall (fun v => At v = Some (page_of v)) vs -> NoDup (page_of <$> vs) ->
  (forall v, v ∈ vs -> IsCached (marks s) v = negb cached) ->
  (forall v vm, v ∈ vs -> vm ∈ vms -> linear_page (VM.vma_map vm) v) -> Forall2 (agree (marks s)) vms pts ->
  exists s' pts', mark_vaddrs fcram vram cached vs s pts = Done (s', pts') /\ mem s' = mem s /\ Forall2 (agree (marks s')) vms pts' /\
    forall b, IsCached (marks s') b = if decide (page_of b ∈ page_of <$> vs) then cached else IsCached (marks s) b.
Proof using Type.
  induction vs as [|v vs IH]; intros s pts Ha Hn Hm Hl Hag.
  { exists s, pts. split; [done|]. split; [done|]. split; [done|]. intros b. by rewrite decide_False by apply not_elem_of_nil. }
  apply Forall_cons in Ha as [Hv Ha]. rewrite fmap_cons in Hn. apply NoDup_cons in Hn as [Hv' Hn]. cbn [mark_vaddrs].
  set (s1 := with_marks (Mark v cached (marks s)) s).
  destruct (each_table_ok (mark_page fcram vram cached v s1) (fun vm _ pt' => agree (marks s1) vm pt') vms pts) as (pts1 & -> & Hpts1).
  { apply Forall2_same_length_lookup. split; [by eapply Forall2_length|]. intros i vm pt Hi Hpt.
    destruct (Forall2_lookup_lr _ _ _ _ _ _ Hag Hi Hpt) as [Hwf Hpa]. 
    destruct (mark_page_ok cached v s (VM.vma_map vm) pt Hpa Hwf Hv) as (pt' & E & Hpt'); [apply Hm; left| |].
    - apply Hl; [left|]. by apply list_elem_of_lookup_2 in Hi.
    - exists pt'. split; [done|]. by split. }
  cbn [mbind outcome_bind]. destruct (IH s1 pts1 Ha Hn) as (s' & pts' & E & Hmem & Hag' & Hc).
  - intros w Hw. change (marks s1) with (Mark v cached (marks s)). rewrite IsCached_mark by done. rewrite decide_False; [apply Hm; by right|].
    intros Heq. apply Hv'. rewrite <- Heq. by apply list_elem_of_fmap_2.
  - intros w vm Hw. apply Hl. by right.
  - eapply Forall2_impl; [exact Hpts1|]. by intros vm pt (_ & ?).
  - exists s', pts'. rewrite E. split; [done|]. split; [done|]. split; [done|]. intros b. rewrite Hc.
    change (marks s1) with (Mark v cached (marks s)). rewrite IsCached_mark by done.
    destruct (decide (page_of b ∈ page_of <$> vs)) as [Hb|Hb]; [rewrite decide_True; [done|rewrite fmap_cons; by right]|].
    destruct (decide (page_of b = page_of v)) as [Hbv|Hbv].
    + rewrite decide_True; [done|]. rewrite Hbv, fmap_cons. left.
    + rewrite decide_False; [done|]. rewrite fmap_cons. by intros [?|?]%elem_of_cons.
Qed.

Lemma mark_vaddrs_app cached vs vs' : forall s pts, mark_vaddrs fcram vram cached (vs ++ vs') s pts =
  ('(s, pts) ← mark_vaddrs fcram vram cached vs s pts; mark_vaddrs fcram vram cached vs' s pts).
Proof using Type.
  induction vs as [|v vs IH]; intros s pts; [done|]. cbn [app mark_vaddrs]. destruct (each_table _ pts); [|done]. cbn [mbind outcome_bind]. apply IH.
Qed.

Lemma mark_vaddrs_plugin cached vs : forall s pts s' pts', mark_vaddrs fcram vram cached vs s pts = Done (s', pts') ->
  plugin_fb_address s' = plugin_fb_address s.
Proof using Type.
  induction vs as [|v vs IH]; intros s pts s' pts'; cbn [mark_vaddrs]; [by intros [= -> _]|].
  destruct (each_table _ pts); [|done]. cbn [mbind outcome_bind]. by intros ->%IH.
Qed.

(** The virtual addresses of a physical one. *)
Lemma phys_virt s q v : plugin_fb_address s = 0 ->
  v ∈ PhysicalToVirtualAddressForRasterizer q s <-> @cached_physical v = Some q.
Proof using Type.
  intros Hpl. unfold PhysicalToVirtualAddressForRasterizer, cached_physical. rewrite Hpl. cbn [Z.eqb negb andb].
  destruct (within q VRAM_PADDR VRAM_PADDR_END) eqn:E1; [|destruct (within q FCRAM_PADDR FCRAM_PADDR_END) eqn:E2;
    [|destruct (within q FCRAM_PADDR_END FCRAM_N3DS_PADDR_END) eqn:E3]];
  destruct (within v LINEAR_HEAP_VADDR LINEAR_HEAP_VADDR_END) eqn:F1; destruct (within v NEW_LINEAR_HEAP_VADDR NEW_LINEAR_HEAP_VADDR_END) eqn:F2;
  destruct (within v VRAM_VADDR VRAM_VADDR_END) eqn:F3;
  repeat match goal with
  | H : within _ _ _ = true |- _ => apply within_spec in H
  | H : within _ _ _ = false |- _ => apply not_true_iff_false in H; rewrite within_spec in H
  end; rewrite ?elem_of_cons, elem_of_nil; split; intros Hx; try (injection Hx as Hx); munfold; try lia; try discriminate;
  try (f_equal; lia).
Qed.

(** Areas are whole pages. *)
Lemma within_page a o lo hi : lo `mod` CITRA_PAGE_SIZE = 0 -> hi `mod` CITRA_PAGE_SIZE = 0 -> 0 <= o < CITRA_PAGE_SIZE ->
  within (page_of a * CITRA_PAGE_SIZE + o) lo hi = within a lo hi.
Proof using Type.
  intros Hlo Hhi Ho. rewrite page_of_spec. apply eq_true_iff_eq. rewrite !within_spec. unfold CITRA_PAGE_SIZE in *. Z.div_mod_to_equations. lia.
Qed.

Lemma page_shift a q d o : q = a + d -> d `mod` CITRA_PAGE_SIZE = 0 ->
  offset_of q = offset_of a /\ page_of a * CITRA_PAGE_SIZE + o + d = page_of q * CITRA_PAGE_SIZE + o.
Proof using Type. intros -> Hd. rewrite !offset_of_spec, !page_of_spec. unfold CITRA_PAGE_SIZE in *. Z.div_mod_to_equations. lia. Qed.

Lemma cached_page a q : cached_physical a = Some q -> offset_of q = offset_of a /\ At a = Some (page_of a) /\
  forall o, 0 <= o < CITRA_PAGE_SIZE -> cached_physical (page_of a * CITRA_PAGE_SIZE + o) = Some (page_of q * CITRA_PAGE_SIZE + o).
Proof using Type.
  intros Hq. unfold At. assert (within a LINEAR_HEAP_VADDR LINEAR_HEAP_VADDR_END || within a NEW_LINEAR_HEAP_VADDR NEW_LINEAR_HEAP_VADDR_END ||
    within a VRAM_VADDR VRAM_VADDR_END = true) as Hw.
  { unfold cached_physical in Hq. by destruct (within a LINEAR_HEAP_VADDR _), (within a NEW_LINEAR_HEAP_VADDR _), (within a VRAM_VADDR _). }
  rewrite <- page_of_spec. split; [|split].
  - unfold cached_physical in Hq. destruct (within a LINEAR_HEAP_VADDR _); [|destruct (within a NEW_LINEAR_HEAP_VADDR _); [|destruct (within a VRAM_VADDR _); [|done]]];
      injection Hq as <-.
    + by destruct (page_shift a (FCRAM_PADDR + (a - LINEAR_HEAP_VADDR)) (FCRAM_PADDR - LINEAR_HEAP_VADDR) 0 ltac:(lia) ltac:(done)).
    + by destruct (page_shift a (FCRAM_PADDR + (a - NEW_LINEAR_HEAP_VADDR)) (FCRAM_PADDR - NEW_LINEAR_HEAP_VADDR) 0 ltac:(lia) ltac:(done)).
    + by destruct (page_shift a (VRAM_PADDR + (a - VRAM_VADDR)) (VRAM_PADDR - VRAM_VADDR) 0 ltac:(lia) ltac:(done)).
  - destruct (within a VRAM_VADDR _), (within a LINEAR_HEAP_VADDR _), (within a NEW_LINEAR_HEAP_VADDR _); done.
  - intros o Ho. unfold cached_physical in *. rewrite !within_page by done.
    destruct (within a LINEAR_HEAP_VADDR _); [|destruct (within a NEW_LINEAR_HEAP_VADDR _); [|destruct (within a VRAM_VADDR _); [|done]]]; injection Hq as <-; f_equal.
    + destruct (page_shift a (FCRAM_PADDR + (a - LINEAR_HEAP_VADDR)) (FCRAM_PADDR - LINEAR_HEAP_VADDR) o ltac:(lia) ltac:(done)). lia.
    + destruct (page_shift a (FCRAM_PADDR + (a - NEW_LINEAR_HEAP_VADDR)) (FCRAM_PADDR - NEW_LINEAR_HEAP_VADDR) o ltac:(lia) ltac:(done)). lia.
    + destruct (page_shift a (VRAM_PADDR + (a - VRAM_VADDR)) (VRAM_PADDR - VRAM_VADDR) o ltac:(lia) ltac:(done)). lia.
Qed.

(** The loop over pages marks a list of virtual addresses. *)
Definition page_list (n : nat) (start : Z) : list Z := (fun i => start + CITRA_PAGE_SIZE * Z.of_nat i) <$> seq 0 n.

Lemma page_list_succ n start : page_list (S n) start = start :: page_list n (start + CITRA_PAGE_SIZE).
Proof using Type.
  unfold page_list. cbn [seq]. rewrite fmap_cons. f_equal; [lia|]. rewrite <- seq_shift, <- list_fmap_compose. apply list_fmap_ext.
  intros i x _. unfold compose. lia.
Qed.

Lemma mark_pages_list cached s0 n : plugin_fb_address s0 = 0 -> forall start s pts, plugin_fb_address s = 0 -> 0 <= start ->
  start + CITRA_PAGE_SIZE * Z.of_nat n < 2 ^ 32 ->
  mark_pages fcram vram n cached start s pts =
  mark_vaddrs fcram vram cached (page_list n start ≫= fun q => PhysicalToVirtualAddressForRasterizer q s0) s pts.
Proof using Type.
  intros Hs0. induction n as [|n IH]; intros start s pts Hs Hst He; [done|]. rewrite page_list_succ. cbn [mark_pages mbind list_bind].
  rewrite mark_vaddrs_app. replace (PhysicalToVirtualAddressForRasterizer start s) with (PhysicalToVirtualAddressForRasterizer start s0)
    by (unfold PhysicalToVirtualAddressForRasterizer; by rewrite Hs, Hs0).
  destruct (mark_vaddrs _ _ _ _ s pts) as [[s' pts']|] eqn:E; [|done]. cbn [mbind outcome_bind].
  rewrite u32_small by (unfold CITRA_PAGE_SIZE in *; lia). apply IH; [|unfold CITRA_PAGE_SIZE in *; lia..].
  by rewrite (mark_vaddrs_plugin _ _ _ _ _ _ E).
Qed.

Lemma page_list_elem n start q : q ∈ page_list n start <-> exists i, (i < n)%nat /\ q = start + CITRA_PAGE_SIZE * Z.of_nat i.
Proof using Type.
  unfold page_list. rewrite list_elem_of_fmap. setoid_rewrite elem_of_seq. split; intros (i & H1 & H2); exists i; (split; [|done || lia]); [lia|done].
Qed.

(** The pages of a physical range, as the rasterizer sees them. *)
Definition rasterized (start size a : Z) : Prop :=
  exists q, cached_physical a = Some q /\ page_of start <= page_of q <= page_of (start + size - 1).

Definition in_video_memory (start size : Z) : Prop :=
  VRAM_PADDR <= start /\ start + size <= VRAM_PADDR_END \/ FCRAM_PADDR <= start /\ start + size <= FCRAM_N3DS_PADDR_END.

Definition page_count (start size : Z) : nat := Z.to_nat (page_of (start + size - 1) - page_of start + 1).

Lemma page_count_spec start size : in_video_memory start size -> 0 < size ->
  u32 (Z.shiftr (u32 (start + size - 1)) CITRA_PAGE_BITS - Z.shiftr start CITRA_PAGE_BITS + 1) = Z.of_nat (page_count start size) /\
  0 <= start /\ start + CITRA_PAGE_SIZE * Z.of_nat (page_count start size) < 2 ^ 32 /\
  forall i, (i < page_count start size)%nat <-> page_of (start + CITRA_PAGE_SIZE * Z.of_nat i) <= page_of (start + size - 1).
Proof using Type.
  intros Hv Hs. assert (0 < start /\ start + size <= 0x30000000) as [H1 H2] by (unfold in_video_memory in Hv; mlia).
  clear Hv. unfold page_count. fold (page_of (u32 (start + size - 1))). fold (page_of start). rewrite (u32_small (start + size - 1)) by lia.
  rewrite !page_of_spec. setoid_rewrite page_of_spec. unfold CITRA_PAGE_SIZE. split; [|split; [lia|split]].
  - rewrite u32_small by (Z.div_mod_to_equations; lia). rewrite Z2Nat.id; [done|]. Z.div_mod_to_equations; lia.
  - Z.div_mod_to_equations; lia.
  - intros i. Z.div_mod_to_equations; lia.
Qed.

Lemma marked_pages start size s v : plugin_fb_address s = 0 -> in_video_memory start size -> 0 < size ->
  let vs := page_list (page_count start size) start ≫= fun q => PhysicalToVirtualAddressForRasterizer q s in
  (v ∈ vs -> rasterized start size v) /\ (page_of v ∈ page_of <$> vs <-> rasterized start size v).
Proof using Type.
  intros Hpl Hv Hs vs. destruct (page_count_spec start size Hv Hs) as (_ & Hst & _ & Hcount).
  assert (forall v, v ∈ vs -> rasterized start size v) as Hvs.
  { intros w (q & Hw & Hq)%list_elem_of_bind. apply phys_virt in Hw; [|done]. apply page_list_elem in Hq as (i & Hi & ->).
    exists (start + CITRA_PAGE_SIZE * Z.of_nat i). split; [done|]. split; [|by apply Hcount].
    rewrite !page_of_spec. unfold CITRA_PAGE_SIZE. Z.div_mod_to_equations; lia. }
  split; [apply Hvs|]. split.
  - intros (w & Hw & Hin)%list_elem_of_fmap. apply Hvs in Hin as (q & Hq & Hr). destruct (cached_page w q Hq) as (_ & _ & Hmate).
    destruct (page_split v) as [Ev Hov]. specialize (Hmate (offset_of v) Hov). rewrite <- Hw, Ev in Hmate. eexists. split; [exact Hmate|].
    by destruct (page_unique (page_of q) (offset_of v) Hov) as [-> _].
  - intros (q & Hq & Hr). destruct (cached_page v q Hq) as (_ & _ & Hmate). destruct (page_split start) as [Es Hos].
    specialize (Hmate (offset_of start) Hos). apply list_elem_of_fmap. exists (page_of v * CITRA_PAGE_SIZE + offset_of start). split.
    { by destruct (page_unique (page_of v) (offset_of start) Hos) as [-> _]. }
    apply list_elem_of_bind. exists (page_of q * CITRA_PAGE_SIZE + offset_of start). split; [by apply phys_virt|].
    apply page_list_elem. exists (Z.to_nat (page_of q - page_of start)).
    assert (page_of q * CITRA_PAGE_SIZE + offset_of start = start + CITRA_PAGE_SIZE * Z.of_nat (Z.to_nat (page_of q - page_of start))) as E
      by (clear -Hr Es; unfold CITRA_PAGE_SIZE in *; lia).
    split; [|exact E]. apply Hcount. rewrite <- E. destruct (page_unique (page_of q) (offset_of start) Hos) as [-> _]. lia.
Qed.

Lemma marked_distinct start size s : plugin_fb_address s = 0 ->
  NoDup (page_of <$> (page_list (page_count start size) start ≫= fun q => PhysicalToVirtualAddressForRasterizer q s)).
Proof using Type.
  intros Hpl. apply NoDup_fmap_2_strong.
  - intros v w (q & Hv & Hq)%list_elem_of_bind (q' & Hw & Hq')%list_elem_of_bind Hpage. apply (phys_virt _ _ _ Hpl) in Hv, Hw.
    apply page_list_elem in Hq as (i & _ & Hi), Hq' as (i' & _ & Hi').
    destruct (cached_page v q Hv) as (Ho & _ & Hmate), (cached_page w q' Hw) as (Ho' & _).
    destruct (page_split w) as [Ew Hw']. specialize (Hmate (offset_of w) Hw'). rewrite Hpage, Ew, Hw in Hmate. injection Hmate as Hmate.
    assert (offset_of v = offset_of w) as Hoff.
    { rewrite <- Ho, <- Ho'. rewrite !offset_of_spec, Hi, Hi'. rewrite !(Z.mul_comm CITRA_PAGE_SIZE), !Z.mod_add by done. done. }
    destruct (page_split v) as [Ev _]. rewrite <- Ev, <- Ew. by rewrite Hpage, Hoff.
  - apply NoDup_bind.
    + intros q q' v _ _ Hv Hw. apply (phys_virt _ _ _ Hpl) in Hv, Hw. congruence.
    + intros q _. unfold PhysicalToVirtualAddressForRasterizer. rewrite Hpl. cbn [Z.eqb negb andb].
      destruct (within _ _ _); [apply NoDup_singleton|]. destruct (within _ _ _).
      { apply NoDup_cons. split; [|apply NoDup_singleton]. intros ?%list_elem_of_singleton. mlia. }
      destruct (within _ _ _); [apply NoDup_singleton|apply NoDup_nil_2].
    + unfold page_list. apply NoDup_fmap_2_strong; [|apply NoDup_seq]. intros i j _ _ E. unfold CITRA_PAGE_SIZE in E. lia.
Qed.

(** C36: Marking a range of video memory as cached, or as no longer cached, when all its
    pages are in the other state and every address space maps them, if at all,
    where the rasterizer expects them, never reaches an unreachable case and
    leaves the page table of every address space in agreement with it; exactly
    the pages of the range change, and memory does not. *)
Theorem mark_region_keeps_agreement start size cached s vms : in_video_memory start size -> 0 < size -> plugin_fb_address s = 0 ->
  Forall (VMF.wf (IsCached (marks s)) buffers) vms ->
  (forall a, rasterized start size a -> IsCached (marks s) a = negb cached) ->
  (forall a vm, rasterized start size a -> vm ∈ vms -> linear_page (VM.vma_map vm) a) ->
  exists s' pts', RasterizerMarkRegionCached fcram vram start size cached s (VM.page_table <$> vms) = Done (s', pts') /\ mem s' = mem s /\
    Forall2 (fun vm pt => VMF.wf (IsCached (marks s')) buffers (VM.mk_vmm (VM.vma_map vm) pt (VM.is_locked vm))) vms pts' /\
    forall b, (rasterized start size b -> IsCached (marks s') b = cached) /\
              (~ rasterized start size b -> IsCached (marks s') b = IsCached (marks s) b).
Proof using Type.
  intros Hv Hs Hpl Hwf Hm Hl. destruct (page_count_spec start size Hv Hs) as (Hcount & Hst & He & _). unfold RasterizerMarkRegionCached.
  destruct (Z.eqb_spec start 0) as [->|_]; [unfold in_video_memory in Hv; mlia|]. rewrite Hcount, Nat2Z.id.
  rewrite (mark_pages_list cached s) by done. set (vs := page_list _ _ ≫= _).
  pose proof (fun v => marked_pages start size s v Hpl Hv Hs) as Hvs. fold vs in Hvs.
  destruct (mark_vaddrs_ok cached vms vs s (VM.page_table <$> vms)) as (s' & pts' & E & Hmem & Hag & Hc).
  - apply Forall_forall. intros v Hin. apply Hvs in Hin as (q & Hq & _). by destruct (cached_page v q Hq) as (_ & ? & _).
  - by apply marked_distinct.
  - intros v Hin. by apply Hm, (proj1 (Hvs v)).
  - intros v vm Hin. apply Hl. by apply (proj1 (Hvs v)).
  - apply Forall2_fmap_r, Forall2_same_length_lookup. split; [done|]. intros i vm vm' Hi Hi'. simplify_eq.
    rewrite Forall_lookup in Hwf. destruct (Hwf i vm Hi) as [H1 _ H3]. by split.
  - exists s', pts'. split; [done|]. split; [done|]. split.
    + apply Forall2_same_length_lookup. split; [by eapply Forall2_length|]. intros i vm pt Hi Hpt. rewrite Forall_lookup in Hwf.
      destruct (Hwf i vm Hi) as [H1 H2 _], (Forall2_lookup_lr _ _ _ _ _ _ Hag Hi Hpt) as [_ H3]. by split.
    + intros b. rewrite Hc. destruct (Hvs b) as [_ Hb]. by split; intros Hr; [rewrite decide_True by (by apply Hb)|rewrite decide_False by (by rewrite Hb)].
Qed.
End Marks.

(** ** A small machine *)

(** A GPU that never draws, and three pages of FCRAM mapped into the linear heap. *)
Definition F : Z := 0x10000000.
Definition V : Z := 0x30000000.
#[export] Instance idle_gpu : Gpu unit := {
  FlushRegion _ _ _ gm := gm;
  ReadReg _ w := (0, w);
  WriteReg _ _ gm := gm;
}.
#[export] Instance idle_laws : GpuLaws unit F V.
Proof.
  refine {| newer := fun _ _ => False |}; cbn [FlushRegion idle_gpu fst snd]; [by intros mode p n w m x []|by intros mode p n w m q []].
Defined.

Definition only_fcram (b : MRef.backing) : Prop := b = fcram_mem F.
Lemma guest_fcram_apart b1 b2 : only_fcram b1 -> only_fcram b2 -> b1 ≠ b2 ->
  MRef.host b1 + MRef.bytes b1 < MRef.host b2 \/ MRef.host b2 + MRef.bytes b2 < MRef.host b1.
Proof. intros -> -> []. done. Qed.

Lemma fcram_backs : VMF.backs only_fcram (MRef.Ref (fcram_mem F) 0) 0x3000.
Proof. split; [|reflexivity]. cbv [MRef.covers fcram_mem MRef.host MRef.bytes]. unfold F. split_and!; mlia. Qed.

Lemma mapped_state k : exists vm, VMF.wf (IsCached k) only_fcram vm /\
  forall a, host_of (VM.vma_map vm) a =
    if decide (LINEAR_HEAP_VADDR <= a < LINEAR_HEAP_VADDR + 0x3000) then Some (F + (a - LINEAR_HEAP_VADDR)) else None.
Proof.
  destruct (VMT.Reset_ok (IsCached k) only_fcram (VM.mk_vmm [] PT.Clear false) eq_refl) as (vm0 & _ & Hw0 & Hl0 & Hv0).
  destruct (VMT.MapBackingMemory_ok (IsCached k) only_fcram guest_fcram_apart vm0 LINEAR_HEAP_VADDR (MRef.Ref (fcram_mem F) 0) 0x3000
    VM.StContinuous Hw0 Hl0 ltac:(mlia) ltac:(lia) ltac:(mlia) eq_refl eq_refl fcram_backs) as [(_ & j & vm & _ & Hw & _ & Hv & _)|[Hno _]].
  - exists vm. split; [exact Hw|]. intros a. unfold host_of. rewrite Hv.
    destruct (decide (LINEAR_HEAP_VADDR <= a < LINEAR_HEAP_VADDR + 0x3000)); [cbn [MRef.GetPtr]; f_equal; unfold fcram_mem; cbn [MRef.host]; lia|].
    rewrite Hv0. unfold VMT.initial_view. by case_decide.
  - destruct Hno. intros a Ha. rewrite Hv0. unfold VMT.initial_view. rewrite decide_True; [done|]. unfold VM.MAX_ADDRESS. mlia.
Qed.

Definition quiet_memory : bytes := fun x => x `mod` 256.
Definition demo (k : gset Z) : msys unit := mk_msys tt quiet_memory k 0.

(** Five bytes across the boundary of two pages. *)
Lemma block_transfers_exact_witness : exists vm s', WriteBlock F V (VM.page_table vm) 0x14000ffe [1; 2; 3; 4; 5] (demo ∅) = Done s' /\
  ReadBlock F V (VM.page_table vm) 0x14000ffe 5 s' = Done ([1; 2; 3; 4; 5], s').
Proof.
  destruct (mapped_state ∅) as (vm & Hw & Hh).
  destruct (block_transfers_exact F V only_fcram vm (demo ∅) 0x14000ffe [1; 2; 3; 4; 5] Hw ltac:(lia)) as (_ & s' & E & _ & Hr).
  - vm_compute. discriminate.
  - intros x _. unfold IsCached. destruct (At _); reflexivity.
  - exists vm, s'. split; [exact E|]. apply Hr; cbn [length].
    + intros x Hx. rewrite Hh, decide_True by mlia. eexists. reflexivity.
    + intros x y q Hx Hy. rewrite !Hh, !decide_True by mlia. intros [= <-] [= Heq]. lia.
Defined.

(** A page the rasterizer has cached. *)
Definition cached_pages : gset Z := {[ 0x14001 ]}.
Lemma single_access_reads_back_witness : exists vm s1 s2, Write F V 4 (VM.page_table vm) 0x14001010 0x12345678 (demo cached_pages) = Done s1 /\
  Read F V 4 (VM.page_table vm) 0x14001010 s1 = Done (0x12345678, s2).
Proof.
  destruct (mapped_state cached_pages) as (vm & Hw & Hh).
  destruct (single_access_reads_back (fcram := F) (vram := V) only_fcram vm (demo cached_pages) 4 0x14001010 0x12345678 (F + 0x1010) Hw) as (s1 & s2 & E1 & E2 & _).
  - lia.
  - lia.
  - vm_compute. discriminate.
  - rewrite Hh. vm_compute. reflexivity.
  - intros _. exists 0x20001010. split; vm_compute; reflexivity.
  - exists vm, s1, s2. split; [exact E1|exact E2].
Defined.

Lemma mark_region_keeps_agreement_witness : exists vm s' pts',
  RasterizerMarkRegionCached F V 0x20000000 0x1001 true (demo ∅) [VM.page_table vm] = Done (s', pts') /\
  IsCached (marks s') 0x14001000 = true /\ IsCached (marks s') 0x14002000 = false.
Proof.
  destruct (mapped_state ∅) as (vm & Hw & Hh).
  destruct (mark_region_keeps_agreement F V only_fcram 0x20000000 0x1001 true (demo ∅) [vm]) as (s' & pts' & E & _ & _ & Hm).
  - right. mlia.
  - lia.
  - reflexivity.
  - constructor; [exact Hw|constructor].
  - intros a _. unfold IsCached. destruct (At a); reflexivity.
  - intros a w (q & Hq & _) ->%list_elem_of_singleton p. rewrite Hh. case_decide as Hr; [|intros [=]]. intros [= <-].
    exists (FCRAM_PADDR + (page_of a * CITRA_PAGE_SIZE - LINEAR_HEAP_VADDR)). split.
    + unfold cached_physical. rewrite (proj2 (within_spec _ _ _)); [reflexivity|mlia].
    + unfold physical_host. rewrite (proj2 (within_spec _ _ _)); [f_equal; mlia|mlia].
  - exists vm, s', pts'. split; [exact E|]. split.
    + apply (Hm 0x14001000). exists 0x20001000. split; vm_compute; [reflexivity|split; discriminate].
    + rewrite (proj2 (Hm 0x14002000)); [reflexivity|]. intros (q & Hq & Hr). vm_compute in Hq. injection Hq as <-. vm_compute in Hr. by destruct Hr as [_ []].
Defined.

End GT.
