(* ===== verification/RegionPages.v ===== *)
(** * Whole pages of the FCRAM

    When all requests are for whole pages, the regions hand out whole pages:
    [whole] sets of bytes, their blocks have page-aligned bounds ([whole_blocks]), and
    [HeapAllocate] keeps the property ([heap_allocate_whole]), as every request for
    whole pages does ([serve_whole]).  [nth_byte] numbers
    the bytes of a list of blocks in the order they are mapped. *)
From S2P Require Import Prelude Results PageTable MemoryMap MemoryRegion RegionTheorems.
Import Map Region.

Module RP.

(** A set of bytes made of whole pages. *)
Definition whole (X : gset Z) : Prop := forall x y, x / CITRA_PAGE_SIZE = y / CITRA_PAGE_SIZE -> x ∈ X -> y ∈ X.

Lemma whole_empty : whole ∅.
Proof. intros x y _ []%not_elem_of_empty. Qed.

Lemma whole_union X Y : whole X -> whole Y -> whole (X ∪ Y).
Proof. intros HX HY x y E. rewrite !elem_of_union. intros [?|?]; eauto. Qed.

Lemma whole_difference X Y : whole X -> whole Y -> whole (X ∖ Y).
Proof. intros HX HY x y E. rewrite !elem_of_difference. intros [? Hn]. split; [eauto|]. intros ?. apply Hn. eapply HY; [symmetry; exact E|done]. Qed.

Lemma whole_range a n : a `mod` CITRA_PAGE_SIZE = 0 -> n `mod` CITRA_PAGE_SIZE = 0 -> whole (range a n).
Proof. intros Ha Hn x y E. rewrite !elem_of_range. unfold CITRA_PAGE_SIZE in *. Z.div_mod_to_equations. lia. Qed.

Definition aligned_block (i : interval) : Prop := i.1 `mod` CITRA_PAGE_SIZE = 0 /\ i.2 `mod` CITRA_PAGE_SIZE = 0.

(** Blocks of whole pages have aligned bounds: the byte before a block and the byte
    after it are not in the set. *)
Lemma above_between b l1 i l2 : above b (l1 ++ i :: l2) -> ~ covers (l1 ++ i :: l2) (i.1 - 1) /\ ~ covers (l1 ++ i :: l2) i.2.
Proof.
  revert b. induction l1 as [|j l1 IH]; intros b; simpl.
  - intros (Hb & Hi & Hl). rewrite !covers_cons. unfold inside. split; (intros [?|Hc]; [lia|]); pose proof (above_covers _ _ _ Hl Hc); lia.
  - intros (Hb & Hj & Hl). destruct (IH _ Hl) as [H1 H2]. pose proof (above_block _ _ i Hl ltac:(apply elem_of_app; right; left)).
    rewrite !covers_cons. unfold inside. split; (intros [?|?]; [lia|done]).
Qed.

Lemma whole_blocks b l : above b l -> whole (bytes l) -> Forall aligned_block l.
Proof.
  intros Hb Hw. apply Forall_forall. intros i Hi. apply list_elem_of_split in Hi as (l1 & l2 & ->).
  destruct (above_between _ _ _ _ Hb) as [H1 H2]. pose proof (above_block _ _ i Hb ltac:(apply elem_of_app; right; left)) as Hlt.
  assert (forall x, i.1 <= x < i.2 -> x ∈ bytes (l1 ++ i :: l2)) as Hin.
  { intros x Hx. apply elem_of_bytes, covers_app. right. apply covers_cons. by left. }
  rewrite <- elem_of_bytes in H1, H2. split.
  - destruct (decide (i.1 `mod` CITRA_PAGE_SIZE = 0)) as [|Hne]; [done|]. destruct H1. apply (Hw i.1); [|apply Hin; lia].
    unfold CITRA_PAGE_SIZE in *. Z.div_mod_to_equations. lia.
  - destruct (decide (i.2 `mod` CITRA_PAGE_SIZE = 0)) as [|Hne]; [done|]. destruct H2. apply (Hw (i.2 - 1)); [|apply Hin; lia].
    unfold CITRA_PAGE_SIZE in *. Z.div_mod_to_equations. lia.
Qed.

(** ** Numbering the bytes of blocks *)

Fixpoint nth_byte (l : list interval) (k : Z) : Z :=
  match l with [] => 0 | i :: l => if k <? i.2 - i.1 then i.1 + k else nth_byte l (k - (i.2 - i.1)) end.

Lemma nth_byte_in l : (forall i, i ∈ l -> i.1 < i.2) -> forall k, 0 <= k < total l -> covers l (nth_byte l k).
Proof.
  induction l as [|i l IH]; intros Hl k Hk; [unfold total in Hk; simpl in Hk; lia|]. rewrite total_cons in Hk. apply covers_cons. simpl.
  destruct (Z.ltb_spec k (i.2 - i.1)); [left; unfold inside; lia|]. right. apply IH; [set_solver|lia].
Qed.

Lemma nth_byte_inj l : forall b, above b l -> forall k k', 0 <= k < total l -> 0 <= k' < total l -> nth_byte l k = nth_byte l k' -> k = k'.
Proof.
  induction l as [|i l IH]; intros b Hb k k' Hk Hk' E; [unfold total in Hk; simpl in Hk; lia|]. rewrite total_cons in Hk, Hk'. destruct Hb as (Hb & Hi & Hl).
  assert (forall j, i.2 - i.1 <= j < i.2 - i.1 + total l -> i.2 < nth_byte l (j - (i.2 - i.1))) as Hin.
  { intros j Hj. eapply above_covers; [exact Hl|]. apply nth_byte_in; [intros x Hx; eapply above_block in Hx; [|exact Hl]; lia|lia]. }
  simpl in E. destruct (Z.ltb_spec k (i.2 - i.1)), (Z.ltb_spec k' (i.2 - i.1)); [lia| | |].
  - specialize (Hin k' ltac:(lia)). lia.
  - specialize (Hin k ltac:(lia)). lia.
  - apply (IH _ Hl) in E; lia.
Qed.

Lemma nth_byte_onto l x : (forall i, i ∈ l -> i.1 < i.2) -> covers l x -> exists k, 0 <= k < total l /\ nth_byte l k = x.
Proof.
  induction l as [|i l IH]; intros Hl Hx; [by apply covers_nil in Hx|]. rewrite total_cons. simpl.
  assert (0 <= total l) by (apply total_nonneg; set_solver). pose proof (Hl i ltac:(left)). apply covers_cons in Hx as [Hx|Hx].
  - unfold inside in Hx. exists (x - i.1). split; [lia|]. destruct (Z.ltb_spec (x - i.1) (i.2 - i.1)); lia.
  - destruct IH as (k & Hk & E); [set_solver|done|]. exists (k + (i.2 - i.1)). split; [lia|].
    destruct (Z.ltb_spec (k + (i.2 - i.1)) (i.2 - i.1)); [lia|]. by replace (k + (i.2 - i.1) - (i.2 - i.1)) with k by lia.
Qed.

Lemma nth_byte_offset l : Forall aligned_block l -> forall k, 0 <= k < total l -> (nth_byte l k - k) `mod` CITRA_PAGE_SIZE = 0.
Proof.
  induction 1 as [|i l [H1 H2] Hl IH]; intros k Hk; [unfold total in Hk; simpl in Hk; lia|]. rewrite total_cons in Hk. simpl.
  destruct (Z.ltb_spec k (i.2 - i.1)); [by replace (i.1 + k - k) with i.1 by lia|]. specialize (IH (k - (i.2 - i.1)) ltac:(lia)).
  revert IH. generalize (nth_byte l (k - (i.2 - i.1))). intros z. unfold CITRA_PAGE_SIZE in *. Z.div_mod_to_equations. lia.
Qed.

(** ** Allocation *)

Section Whole.
Context {S : Type} `{IntervalLaws S}.
Implicit Types r : region S.

Lemma heap_blocks_whole bs : (forall i, i ∈ bs -> aligned_block i /\ 0 <= i.1 < i.2 /\ i.2 < 2 ^ 32) -> forall n (acc res : S) rest,
  0 <= n < 2 ^ 32 -> n `mod` CITRA_PAGE_SIZE = 0 -> whole (bytes (blocks acc)) -> heap_blocks bs n acc = (res, rest) -> whole (bytes (blocks res)).
Proof.
  assert (forall i (s : S), aligned_block i -> whole (bytes (blocks s)) -> whole (bytes (blocks (set_add i s)))) as Hadd.
  { intros i s [Ha Hb] Hs x y E. rewrite !elem_of_bytes, !covers_add, <- !elem_of_bytes. intros [Hx|Hx]; [left|right; by apply (Hs x)].
    unfold inside, CITRA_PAGE_SIZE in *. Z.div_mod_to_equations. lia. }
  induction bs as [|i bs IH]; intros Hbs n acc res rest Hn Ha Hw; simpl; [by intros [= <- _]|].
  destruct (Hbs i ltac:(left)) as ([H1 H2] & Hi & Hi2). rewrite u32_small by lia. destruct (Z.leb_spec n (i.2 - i.1)).
  - intros [= <- _]. apply Hadd; [|done]. rewrite u32_small by lia. split; [|done]. cbn [fst snd]. by rewrite Zminus_mod, H2, Ha.
  - rewrite u32_small by lia. apply IH; [by intros j Hj; apply Hbs; right|lia| |by apply Hadd]. by rewrite Zminus_mod, Ha, (Zminus_mod i.2), H1, H2.
Qed.

Lemma heap_allocate_whole r n res r' : region_ok r -> whole (free_bytes r) -> 0 <= n < 2 ^ 32 -> n `mod` CITRA_PAGE_SIZE = 0 ->
  HeapAllocate n r = Done (res, r') -> whole (bytes (blocks res)).
Proof.
  intros Hr Hw Hn Ha. unfold HeapAllocate. rewrite (ro_unlocked _ Hr). cbn [negb assert_ mbind outcome_bind].
  destruct (heap_blocks (rev (blocks (free_blocks r))) n set_empty) as [s rest] eqn:E.
  assert (whole (bytes (blocks (set_empty : S)))) as He by (rewrite blocks_empty; apply whole_empty).
  destruct (negb (rest =? 0)); intros [= <- _]; [done|]. eapply heap_blocks_whole; [|exact Hn|exact Ha|exact He|exact E].
  intros i Hi. pose proof (rev_block_bounds r i Hr Hi). split; [|lia]. destruct (blocks_canonical (free_blocks r)) as [b Hb].
  apply (proj1 (Forall_forall _ _) (whole_blocks _ _ Hb Hw)). by apply list_elem_of_In, in_rev, list_elem_of_In.
Qed.

(** What is free is what is not in use. *)
Lemma ledger_free r live : ledger r live -> free_bytes r = range (base r) (size r) ∖ live.
Proof.
  intros [Hok -> _]. apply set_eq. intros x. rewrite elem_of_difference, elem_of_difference, elem_of_range.
  split; [|destruct (decide (x ∈ free_bytes r)); tauto]. intros Hx. unfold free_bytes in *. pose proof Hx as Hc. rewrite elem_of_bytes in Hc.
  pose proof (ro_free _ Hok x Hc). tauto.
Qed.

(** A region of whole pages with whole pages in use. *)
Record paged r live : Prop := {
  pg_base : base r `mod` CITRA_PAGE_SIZE = 0; pg_size : size r `mod` CITRA_PAGE_SIZE = 0; pg_live : whole live;
}.

Lemma paged_free r live : ledger r live -> paged r live -> whole (free_bytes r).
Proof. intros Hl [Hb Hs Hw]. rewrite (ledger_free r live Hl). apply whole_difference; [by apply whole_range|done]. Qed.

Lemma free_block_aligned r live i : ledger r live -> paged r live -> i ∈ blocks (free_blocks r) -> aligned_block i.
Proof.
  intros Hl Hp. destruct (blocks_canonical (free_blocks r)) as [b Hb]. apply (proj1 (Forall_forall _ _)), (whole_blocks b); [done|].
  by eapply paged_free.
Qed.

(** Requests for whole pages. *)
Definition page_request (q : RT.request) : Prop :=
  match q with
  | RT.RHeap n | RT.RLinear n | RT.RLinearHigh n => n `mod` CITRA_PAGE_SIZE = 0
  | RT.RLinearAt a n | RT.RFree a n => a `mod` CITRA_PAGE_SIZE = 0 /\ n `mod` CITRA_PAGE_SIZE = 0
  end.

Lemma find_block_in l n i : find_block l n = Some i -> i ∈ l.
Proof. induction l as [|j l IH]; simpl; [done|]. destruct (n <=? _); [intros [= ->]; left|right; auto]. Qed.

Lemma serve_whole q r live r' live' : ledger r live -> paged r live -> RT.allowed q live -> page_request q ->
  RT.serve q (r, live) = Done (r', live') -> whole live'.
Proof.
  intros Hl Hp Ha Hq. pose proof (lg_ok _ _ Hl) as Hok. pose proof (pg_live _ _ Hp) as Hw.
  destruct q as [n|a n|n|n|a n]; simpl in Ha, Hq; unfold RT.serve.
  - destruct (HeapAllocate n r) as [[res r1]|] eqn:E; [|done]. intros [= <- <-]. apply whole_union; [done|].
    by apply (heap_allocate_whole r n res r1 Hok (paged_free r live Hl Hp) Ha Hq).
  - unfold LinearAllocateAt. rewrite (ro_unlocked _ Hok). cbn [negb assert_ mbind outcome_bind]. destruct (set_contains _ _); intros [= <- <-]; [|done].
    apply whole_union; [done|]. apply whole_range; apply Hq.
  - unfold LinearAllocate. rewrite (ro_unlocked _ Hok). cbn [negb assert_ mbind outcome_bind]. destruct (find_block _ n) as [i|] eqn:E; intros [= <- <-]; [|done].
    destruct (free_block_aligned r live i Hl Hp (find_block_in _ _ _ E)) as [H1 _]. apply whole_union; [done|]. by apply whole_range.
  - unfold RLinearAllocate. rewrite (ro_unlocked _ Hok). cbn [negb assert_ mbind outcome_bind]. destruct (find_block _ n) as [i|] eqn:E; intros [= <- <-]; [|done].
    assert (i ∈ blocks (free_blocks r)) as Hi by (apply list_elem_of_In, in_rev, list_elem_of_In; by eapply find_block_in).
    pose proof (block_bounds32 r i Hok Hi). apply find_block_some in E as [Hn _]; [|by intros j; apply rev_block_bounds].
    destruct (free_block_aligned r live i Hl Hp Hi) as [_ H2]. apply whole_union; [done|]. rewrite u32_small by lia.
    apply whole_range; [|done]. by rewrite Zminus_mod, H2, Hq.
  - destruct (Free a n r); [|done]. intros [= <- <-]. apply whole_difference; [done|]. apply whole_range; apply Hq.
Qed.

(** A request takes only what it frees from its callers. *)
Lemma serve_keeps q r live r' live' (X : gset Z) : RT.serve q (r, live) = Done (r', live') -> X ⊆ live ->
  match q with RT.RFree a n => range a n ## X | _ => True end -> X ⊆ live'.
Proof.
  intros E HX Hf. destruct q as [n|a n|n|n|a n]; simpl in E; apply outcome_bind_done in E as (x & _ & E).
  - destruct x. injection E as _ <-. set_solver.
  - destruct x as [[] ?]; injection E as _ <-; set_solver.
  - destruct x as [[] ?]; injection E as _ <-; set_solver.
  - destruct x as [[] ?]; injection E as _ <-; set_solver.
  - injection E as _ <-. set_solver.
Qed.
End Whole.

End RP.
