(* ===== verification/ProcessMemory.v ===== *)
(** * Memory of a process

    The memory operations of [Process] (core/hle/kernel/process.cpp), shared
    memory blocks (shared_memory.cpp), shared pages and special mappings
    (memory.cpp) and the system calls on memory (svc.cpp).  They work on the
    address space of the process ([VMManager]), the regions of the FCRAM
    ([MemoryRegion]), its contents and page marks ([GuestMemory]) and the resource
    limit ([ResourceLimit]); the state [st] is that of one process and of the
    memories it shares with the others.  Log output is left out. *)
From S2P Require Import Prelude Results PageTable VMManager ResourceLimit Tls MemoryMap MemoryRegion GuestMemory.
Import Res Map.

Module Proc.

Section Process.
Context {S : Type} `{Region.IntervalSet S} {W : Type} `{Guest.Gpu W}.

(** Host addresses of the memories; the pages [ConfigMem::Handler] and [SharedPage::Handler]. *)
Context (fcram vram dsp_ram n3ds_extra_ram : Z) (config_mem_handler shared_page_handler : MRef.backing).

(** The kernel's shared parts: [memory_regions] and [MemorySystem]. *)
Record kmem := mk_kmem { regions : list (Region.region S); memory : Guest.msys W; phys_cache : Guest.phys_info }.

(** [memory_region] is the number of the region and is set when the process runs. *)
Record proc := mk_proc {
  vm_manager : VM.vmm; memory_region : option nat; holding_memory : S; holding_tls_memory : S;
  memory_used : Z; tls_slots : list (list bool); resource_limit : Limit.t; kernel_version : Z;
}.

Record st := mk_st { process : proc; kernel : kmem }.

Definition set_vm (v : VM.vmm) (s : st) : st :=
  let p := process s in
  mk_st (mk_proc v (memory_region p) (holding_memory p) (holding_tls_memory p) (memory_used p) (tls_slots p) (resource_limit p) (kernel_version p)) (kernel s).
Definition set_holding (h : S) (s : st) : st :=
  let p := process s in
  mk_st (mk_proc (vm_manager p) (memory_region p) h (holding_tls_memory p) (memory_used p) (tls_slots p) (resource_limit p) (kernel_version p)) (kernel s).
Definition set_holding_tls (h : S) (s : st) : st :=
  let p := process s in
  mk_st (mk_proc (vm_manager p) (memory_region p) (holding_memory p) h (memory_used p) (tls_slots p) (resource_limit p) (kernel_version p)) (kernel s).
Definition set_used (n : Z) (s : st) : st :=
  let p := process s in
  mk_st (mk_proc (vm_manager p) (memory_region p) (holding_memory p) (holding_tls_memory p) n (tls_slots p) (resource_limit p) (kernel_version p)) (kernel s).
Definition set_tls (t : list (list bool)) (s : st) : st :=
  let p := process s in
  mk_st (mk_proc (vm_manager p) (memory_region p) (holding_memory p) (holding_tls_memory p) (memory_used p) t (resource_limit p) (kernel_version p)) (kernel s).
Definition set_limit (l : Limit.t) (s : st) : st :=
  let p := process s in
  mk_st (mk_proc (vm_manager p) (memory_region p) (holding_memory p) (holding_tls_memory p) (memory_used p) (tls_slots p) l (kernel_version p)) (kernel s).
Definition set_region_of (r : option nat) (s : st) : st :=
  let p := process s in
  mk_st (mk_proc (vm_manager p) r (holding_memory p) (holding_tls_memory p) (memory_used p) (tls_slots p) (resource_limit p) (kernel_version p)) (kernel s).
Definition set_kernel (k : kmem) (s : st) : st := mk_st (process s) k.
Definition set_memory (m : Guest.msys W) (s : st) : st :=
  set_kernel (mk_kmem (regions (kernel s)) m (phys_cache (kernel s))) s.
Definition set_region (i : nat) (r : Region.region S) (s : st) : st :=
  set_kernel (mk_kmem (<[i := r]> (regions (kernel s))) (memory (kernel s)) (phys_cache (kernel s))) s.

(** ** State and errors *)

Definition pm (A : Type) : Type := st -> outcome (result_val A * st).
#[global] Instance pm_ret : MRet pm := fun A a s => Done (Val a, s).
Definition throw {A} (e : result) : pm A := fun s => Done (Err e, s).
#[global] Instance pm_bind : MBind pm := fun A B k m s =>
  '(r, s) ← m s;
  match r with Val a => k a s | Err e => Done (Err e, s) end.
Definition get : pm st := fun s => Done (Val s, s).
Definition modify (f : st -> st) : pm unit := fun s => Done (Val tt, f s).
Definition lift {A} (o : outcome A) : pm A := fun s => a ← o; Done (Val a, s).
Definition unless (b : bool) (e : result) : pm unit := if b then mret tt else throw e.

(** [R_TRY] *)
Definition try_ (f : VM.vmm -> outcome (result * VM.vmm)) : pm unit := fun s =>
  '(r, v) ← f (vm_manager (process s));
  Done (if IsError r then Err r else Val tt, set_vm v s).

Definition IsC (s : st) : Z -> bool := Guest.IsCached (Guest.marks (memory (kernel s))).

(** [memory_region->...] and a named region. *)
Definition my_region : pm nat := s ← get; lift (of_opt FNullDeref (memory_region (process s))).
Definition in_region {A} (i : nat) (f : Region.region S -> outcome (A * Region.region S)) : pm A := fun s =>
  r ← of_opt FOutOfRange (regions (kernel s) !! i);
  '(a, r) ← f r;
  Done (Val a, set_region i r s).
Definition free_in (i : nat) (offset size : Z) : pm unit :=
  in_region i (fun r => r ← Region.Free offset size r; Done (tt, r)).

Definition reserve (ty : Limit.limit_type) (n : Z) : pm bool := fun s =>
  let '(b, l) := Limit.Reserve ty n (resource_limit (process s)) in Done (Val b, set_limit l s).
Definition release (ty : Limit.limit_type) (n : Z) : pm unit := fun s =>
  let '(_, l) := Limit.Release ty n (resource_limit (process s)) in Done (Val tt, set_limit l s).
Definition add_used (n : Z) : pm unit := modify (fun s => set_used (u32 (memory_used (process s) + n)) s).
Definition hold (i : Region.interval) : pm unit := modify (fun s => set_holding (Region.set_add i (holding_memory (process s))) s).
Definition unhold (i : Region.interval) : pm unit := modify (fun s => set_holding (Region.set_sub i (holding_memory (process s))) s).

(** [std::fill] of host memory with zero. *)
Definition zero_host (p n : Z) : pm unit :=
  modify (fun s => set_memory (Guest.with_mem (Guest.fill p n 0 (Guest.mem (memory (kernel s)))) (memory (kernel s))) s).
Definition zero_fcram (lower upper : Z) : pm unit :=
  lo ← lift (Guest.GetFCRAMPointer fcram lower);
  hi ← lift (Guest.GetFCRAMPointer fcram upper);
  zero_host lo (hi - lo).

(** Mapping that must succeed, then the permissions. *)
Definition map_at (target : Z) (mem : MRef.t) (size : Z) (state : VM.memory_state) (perms : Z) : pm unit := fun s =>
  '(r, v) ← VM.MapBackingMemory (IsC s) target mem size state (vm_manager (process s));
  match r with
  | Err _ => Stop FAssert
  | Val i => '(_, v) ← VM.Reprotect (IsC s) i perms v; Done (Val tt, set_vm v s)
  end.

(** [vma->second.type != VMAType::Free || base + size < target + size], where [vma] may be [end()]. *)
Definition range_free (target size : Z) : pm bool :=
  s ← get;
  i ← lift (VM.FindVMA (VM.vma_map (vm_manager (process s))) target);
  v ← lift (VM.at_ (VM.vma_map (vm_manager (process s))) i);
  mret (negb (negb (bool_decide (VM.type v = VM.Free)) || (u32 (VM.base v + VM.size v) <? u32 (target + size)))).

(** ** Heap and linear heap *)

Definition GetLinearHeapAreaAddress (p : proc) : Z :=
  if kernel_version p <? 0x22C then LINEAR_HEAP_VADDR else NEW_LINEAR_HEAP_VADDR.
Definition GetLinearHeapBase : pm Z :=
  s ← get; i ← my_region; r ← lift (of_opt FOutOfRange (regions (kernel s) !! i));
  mret (u32 (GetLinearHeapAreaAddress (process s) + Region.base r)).
Definition GetLinearHeapLimit : pm Z :=
  s ← get; i ← my_region; r ← lift (of_opt FOutOfRange (regions (kernel s) !! i));
  b ← GetLinearHeapBase; mret (u32 (b + Region.size r)).

(** [target < lo || target + size > hi || target + size < target] *)
Definition outside (target size lo hi : Z) : bool :=
  (target <? lo) || (hi <? u32 (target + size)) || (u32 (target + size) <? target).

(** Maps the heap block by block. *)
Fixpoint map_heap (blocks : list Region.interval) (target : Z) (perms : Z) (state : VM.memory_state) : pm unit :=
  match blocks with
  | [] => mret tt
  | i :: blocks =>
      let size := u32 (i.2 - i.1) in
      _ ← zero_fcram i.1 i.2;
      mem ← lift (Guest.GetFCRAMRef fcram i.1);
      _ ← map_at target mem size state perms;
      map_heap blocks (u32 (target + size)) perms state
  end.

Definition HeapAllocate (target size perms : Z) (state : VM.memory_state) (skip_range_check : bool) : pm Z :=
  _ ← unless (negb (outside target size HEAP_VADDR HEAP_VADDR_END) || skip_range_check) ResultInvalidAddress;
  free ← range_free target size;
  _ ← unless free ResultInvalidAddressState;
  i ← my_region;
  fcram_set ← in_region i (Region.HeapAllocate size);
  _ ← unless (negb (bool_decide (Region.blocks fcram_set = []))) ResultOutOfHeapMemory;
  _ ← map_heap (Region.blocks fcram_set) target perms state;
  _ ← modify (fun s => set_holding (Region.set_union (holding_memory (process s)) fcram_set) s);
  _ ← add_used size;
  _ ← reserve Limit.Commit size;
  mret target.

(** Frees the heap block by block. *)
Fixpoint free_blocks (i : nat) (blocks : list (MRef.t * Z)) : pm unit :=
  match blocks with
  | [] => mret tt
  | (backing_memory, block_size) :: blocks =>
      offset ← lift (Guest.GetFCRAMOffset fcram (MRef.GetPtr backing_memory));
      _ ← free_in i offset block_size;
      _ ← unhold (offset, u32 (offset + block_size));
      free_blocks i blocks
  end.

Definition backing_blocks (target size : Z) : pm (list (MRef.t * Z)) := fun s =>
  r ← VM.GetBackingBlocksForRange target size (vm_manager (process s)); Done (r, s).

Definition HeapFree (target size : Z) : pm unit :=
  _ ← unless (negb (outside target size HEAP_VADDR HEAP_VADDR_END)) ResultInvalidAddress;
  if size =? 0 then mret tt else
  blocks ← backing_blocks target size;
  i ← my_region;
  _ ← free_blocks i blocks;
  _ ← (fun s => '(r, v) ← VM.UnmapRange (IsC s) target size (vm_manager (process s));
            _ ← assert_ (IsSuccess r); Done (Val tt, set_vm v s)) : pm unit;
  _ ← add_used (- size);
  release Limit.Commit size.

(** The address and the offset of the block. *)
Definition linear_place (target size : Z) : pm (Z * Z) :=
  s ← get;
  if target =? 0 then
    i ← my_region;
    offset ← in_region i (Region.LinearAllocate size);
    match offset with
    | None => throw ResultOutOfHeapMemory
    | Some offset => mret (u32 (offset + GetLinearHeapAreaAddress (process s)), offset)
    end
  else
    lo ← GetLinearHeapBase;
    hi ← GetLinearHeapLimit;
    _ ← unless (negb (outside target size lo hi)) ResultInvalidAddress;
    i ← my_region;
    let physical_offset := u32 (target - GetLinearHeapAreaAddress (process s)) in
    ok ← in_region i (Region.LinearAllocateAt physical_offset size);
    _ ← unless ok ResultInvalidAddressState;
    mret (target, physical_offset).

Definition LinearAllocate (target size perms : Z) : pm Z :=
  '(target, physical_offset) ← linear_place target size;
  mem ← lift (Guest.GetFCRAMRef fcram physical_offset);
  _ ← zero_host (MRef.GetPtr mem) size;
  _ ← map_at target mem size VM.StContinuous perms;
  _ ← hold (physical_offset, u32 (physical_offset + size));
  _ ← add_used size;
  _ ← reserve Limit.Commit size;
  mret target.

Definition LinearFree (target size : Z) : pm unit :=
  lo ← GetLinearHeapBase;
  hi ← GetLinearHeapLimit;
  _ ← unless (negb (outside target size lo hi)) ResultInvalidAddress;
  if size =? 0 then mret tt else
  s ← get;
  _ ← try_ (VM.UnmapRange (IsC s) target size);
  i ← my_region;
  let physical_offset := u32 (target - GetLinearHeapAreaAddress (process s)) in
  _ ← free_in i physical_offset size;
  _ ← unhold (physical_offset, u32 (physical_offset + size));
  _ ← add_used (- size);
  release Limit.Commit size.

(** ** Thread local storage *)

Definition page_table_of (s : st) : PT.table := VM.page_table (vm_manager (process s)).

(** A page from the BASE region; the result of mapping it is ignored. *)
Definition new_tls_page : pm (nat * nat) :=
  s ← get;
  let tls_page := length (tls_slots (process s)) in
  let base_memory_region := 2%nat in
  offset ← in_region base_memory_region (Region.LinearAllocate CITRA_PAGE_SIZE);
  match offset with
  | None => throw ResultOutOfMemory
  | Some offset =>
      _ ← modify (fun s => set_holding_tls (Region.set_add (offset, u32 (offset + CITRA_PAGE_SIZE)) (holding_tls_memory (process s))) s);
      _ ← add_used CITRA_PAGE_SIZE;
      _ ← modify (fun s => set_tls (tls_slots (process s) ++ [Tls.new_page]) s);
      let tls_page_addr := u32 (TLS_AREA_VADDR + u32 (Z.of_nat tls_page * CITRA_PAGE_SIZE)) in
      mem ← lift (Guest.GetFCRAMRef fcram offset);
      _ ← (fun s => '(_, v) ← VM.MapBackingMemory (IsC s) tls_page_addr mem CITRA_PAGE_SIZE VM.StLocked (vm_manager (process s));
                    Done (Val tt, set_vm v s)) : pm unit;
      mret (tls_page, 0%nat)
  end.

Definition AllocateThreadLocalStorage : pm Z :=
  s ← get;
  '(tls_page, tls_slot) ← match Tls.find_slot (tls_slots (process s)) 0 with
                          | Some at_ => mret at_
                          | None => new_tls_page
                          end;
  _ ← modify (fun s => set_tls (Tls.mark tls_page tls_slot true (tls_slots (process s))) s);
  let tls_address := Tls.address tls_page tls_slot in
  _ ← (fun s => m ← Guest.ZeroBlock fcram vram (page_table_of s) tls_address TLS_ENTRY_SIZE (memory (kernel s));
                Done (Val tt, set_memory m s)) : pm unit;
  mret tls_address.

(** ** Aliases *)

(** [source - target < size || target - source < size] *)
Definition ranges_overlap (target source size : Z) : bool :=
  (u32 (source - target) <? size) || (u32 (target - source) <? size).

Fixpoint map_blocks (blocks : list (MRef.t * Z)) (target : Z) (state : VM.memory_state) (perms : Z) : pm unit :=
  match blocks with
  | [] => mret tt
  | (backing_memory, block_size) :: blocks =>
      _ ← map_at target backing_memory block_size state perms;
      map_blocks blocks (u32 (target + block_size)) state perms
  end.

Definition change_state (target size : Z) (expected : VM.memory_state) (expected_perms : Z) (new : VM.memory_state) (perms : Z) : pm unit :=
  s ← get; try_ (VM.ChangeMemoryState (IsC s) target size expected expected_perms new perms).

Definition Map (target source size perms : Z) (privileged : bool) : pm unit :=
  _ ← unless (privileged || negb (outside source size HEAP_VADDR HEAP_VADDR_END)) ResultInvalidAddress;
  if ranges_overlap target source size then
    if privileged then
      if source =? target then change_state source size VM.StPrivate VM.PermReadWrite VM.StAliasCode perms
      else throw ResultInvalidAddress
    else throw ResultInvalidAddressState
  else
    free ← range_free target size;
    _ ← unless free ResultInvalidAddressState;
    let source_state := if privileged then VM.StLocked else VM.StAliased in
    let target_state := if privileged then VM.StAliasCode else VM.StAlias in
    let source_perm := if privileged then VM.PermNone else VM.PermReadWrite in
    _ ← change_state source size VM.StPrivate VM.PermReadWrite source_state source_perm;
    blocks ← backing_blocks source size;
    map_blocks blocks target target_state perms.

Definition Unmap (target source size perms : Z) (privileged : bool) : pm unit :=
  _ ← unless (privileged || negb (outside source size HEAP_VADDR HEAP_VADDR_END)) ResultInvalidAddress;
  if ranges_overlap target source size then
    if privileged then
      if source =? target then change_state source size VM.StAliasCode VM.PermNone VM.StPrivate perms
      else throw ResultInvalidAddress
    else throw ResultInvalidAddressState
  else
    let source_state := if privileged then VM.StLocked else VM.StAliased in
    s ← get;
    _ ← try_ (VM.UnmapRange (IsC s) target size);
    change_state source size source_state VM.PermNone VM.StPrivate perms.

(** ** The end of a process *)

Fixpoint free_entries (i : nat) (entries : list Region.interval) (commit : bool) : pm unit :=
  match entries with
  | [] => mret tt
  | e :: entries =>
      let size := u32 (e.2 - e.1) in
      _ ← free_in i e.1 size;
      _ ← add_used (- size);
      _ ← (if commit then release Limit.Commit size else mret tt);
      free_entries i entries commit
  end.

(** Nothing is done before [Run] has set the region. *)
Definition FreeAllMemory : pm unit :=
  s ← get;
  match memory_region (process s) with
  | None => mret tt
  | Some i =>
      _ ← free_entries i (Region.blocks (holding_memory (process s))) true;
      _ ← modify (set_holding Region.set_empty);
      _ ← free_entries 2 (Region.blocks (holding_tls_memory (process s))) false;
      _ ← modify (set_holding_tls Region.set_empty);
      modify (set_tls [])
  end.

(** ** System calls *)

Definition MEMOP_FREE : Z := 1.
Definition MEMOP_COMMIT : Z := 3.
Definition MEMOP_MAP : Z := 4.
Definition MEMOP_UNMAP : Z := 5.
Definition MEMOP_PROTECT : Z := 6.
Definition MEMOP_OPERATION_MASK : Z := 0xFF.
Definition MEMOP_REGION_MASK : Z := 0xF00.
Definition MEMOP_LINEAR : Z := 0x10000.

(** The result is what [out_addr] receives, if anything. *)
Definition ControlMemory (addr0 addr1 size operation permissions : Z) : pm (option Z) :=
  _ ← unless (Z.land addr0 CITRA_PAGE_MASK =? 0) ResultMisalignedAddress;
  _ ← unless (Z.land addr1 CITRA_PAGE_MASK =? 0) ResultMisalignedAddress;
  _ ← unless (Z.land size CITRA_PAGE_MASK =? 0) ResultMisalignedSize;
  let operation := Z.land operation (Z.lnot MEMOP_REGION_MASK) in
  _ ← unless (Z.land permissions VM.PermReadWrite =? permissions) ResultInvalidCombination;
  let op := Z.land operation MEMOP_OPERATION_MASK in
  if op =? MEMOP_FREE then
    _ ← (if (HEAP_VADDR <=? addr0) && (addr0 <? HEAP_VADDR_END) then HeapFree addr0 size
         else
           lo ← GetLinearHeapBase;
           hi ← GetLinearHeapLimit;
           if (lo <=? addr0) && (addr0 <? hi) then LinearFree addr0 size else throw ResultInvalidAddress);
    mret (Some addr0)
  else if op =? MEMOP_COMMIT then
    if negb (Z.land operation MEMOP_LINEAR =? 0) then a ← LinearAllocate addr0 size permissions; mret (Some a)
    else a ← HeapAllocate addr0 size permissions VM.StPrivate false; mret (Some a)
  else if op =? MEMOP_MAP then _ ← Map addr0 addr1 size permissions false; mret None
  else if op =? MEMOP_UNMAP then _ ← Unmap addr0 addr1 size permissions false; mret None
  else if op =? MEMOP_PROTECT then
    s ← get; _ ← try_ (VM.ReprotectRange (IsC s) addr0 size permissions); mret None
  else throw ResultInvalidCombination.

(** [MemoryInfo]: the run of areas around [addr] with the same permissions and state. *)
Record memory_info := mk_memory_info { base_address : Z; info_size : Z; permission : Z; state : VM.memory_state }.

Definition mismatch (v w : VM.vma) : bool :=
  negb (bool_decide (VM.permissions w = VM.permissions v)) || negb (bool_decide (VM.meminfo_state w = VM.meminfo_state v)).

(** The last of the leading areas that match [v], starting with [v] itself. *)
Fixpoint run_end (v last : VM.vma) (l : list VM.vma) : VM.vma :=
  match l with
  | [] => last
  | w :: l => if mismatch v w then last else run_end v w l
  end.

Definition QueryMemory (addr : Z) : pm memory_info :=
  s ← get;
  let m := VM.vma_map (vm_manager (process s)) in
  i ← lift (VM.FindVMA m addr);
  match m !! i with
  | None => throw ResultInvalidAddress
  | Some v =>
      let lower := run_end v v (rev (take i m)) in
      let upper := run_end v v (drop (Datatypes.S i) m) in
      mret (mk_memory_info (VM.base lower) (u32 (VM.base upper + VM.size upper - VM.base lower)) (VM.permissions v) (VM.meminfo_state v))
  end.

(** ** Shared pages and special mappings *)

(** [MapBackingMemory(...).Unwrap()] and [Reprotect]. *)
Definition MapSharedPages : pm unit :=
  cfg ← lift (MRef.make config_mem_handler 0);
  _ ← map_at CONFIG_MEMORY_VADDR cfg CONFIG_MEMORY_SIZE VM.StShared VM.PermRead;
  page ← lift (MRef.make shared_page_handler 0);
  map_at SHARED_PAGE_VADDR page SHARED_PAGE_SIZE VM.StShared VM.PermRead.

Record AddressMapping := mk_mapping { map_address : Z; map_size : Z; read_only : bool; unk_flag : bool }.

(** Virtual and physical base and the size; VRAM comes before the I/O area it overlaps. *)
Definition special_areas : list (Z * Z * Z) :=
  [(VRAM_VADDR, VRAM_PADDR, VRAM_SIZE); (IO_AREA_VADDR, IO_AREA_PADDR, IO_AREA_SIZE);
   (DSP_RAM_VADDR, DSP_RAM_PADDR, DSP_RAM_SIZE);
   (N3DS_EXTRA_RAM_VADDR, N3DS_EXTRA_RAM_PADDR, N3DS_EXTRA_RAM_SIZE - 0x20000)].

Fixpoint find_special (lo hi : Z) (l : list (Z * Z * Z)) : option (Z * Z) :=
  match l with
  | [] => None
  | (vaddr, paddr, size) :: l => if (vaddr <=? lo) && (hi <=? vaddr + size) then Some (vaddr, paddr) else find_special lo hi l
  end.

Definition physical_ref (paddr : Z) : pm MRef.t := fun s =>
  '(r, c) ← Guest.GetPhysicalRef fcram vram dsp_ram n3ds_extra_ram paddr (phys_cache (kernel s));
  Done (Val r, set_kernel (mk_kmem (regions (kernel s)) (memory (kernel s)) c) s).

(** Mappings that are not supported are reported and skipped. *)
Definition HandleSpecialMapping (m : AddressMapping) : pm unit :=
  let mapping_limit := u32 (map_address m + map_size m) in
  if mapping_limit <? map_address m then mret tt
  else match find_special (map_address m) mapping_limit special_areas with
  | None => mret tt
  | Some (vaddr_base, paddr_base) =>
      if paddr_base =? IO_AREA_PADDR then mret tt
      else
        target ← physical_ref (u32 (paddr_base + (map_address m - vaddr_base)));
        map_at (map_address m) target (map_size m) (if unk_flag m then VM.StStatic else VM.StIO)
          (if read_only m then VM.PermRead else VM.PermReadWrite)
  end.

(** ** Running a process *)

(** [CodeSet::Segment] with the bytes of the code set it names. *)
Record segment := mk_segment { seg_addr : Z; seg_data : list Z }.
Definition PermReadExecute : Z := 5.

(** The result of the allocation is ignored. *)
Definition ignore {A} (m : pm A) : pm unit := fun s => '(_, s) ← m s; Done (Val tt, s).

Definition write_block (addr : Z) (data : list Z) : pm unit := fun s =>
  m ← Guest.WriteBlock fcram vram (page_table_of s) addr data (memory (kernel s)); Done (Val tt, set_memory m s).

Definition MapSegment (g : segment) (permissions : Z) (memory_state : VM.memory_state) : pm unit :=
  _ ← ignore (HeapAllocate (seg_addr g) (Z.of_nat (length (seg_data g))) permissions memory_state true);
  write_block (seg_addr g) (seg_data g).

Fixpoint special_mappings (l : list AddressMapping) : pm unit :=
  match l with [] => mret tt | m :: l => _ ← HandleSpecialMapping m; special_mappings l end.

(** [Run] up to the plugin loader and the main thread; [region] is [flags.memory_region]. *)
Definition GetMemoryRegionIndex (region : Z) : outcome nat :=
  if (region =? 1) || (region =? 2) || (region =? 3) then Done (Z.to_nat (region - 1)) else Stop FUnreachable.

Definition Run (region stack_size : Z) (code rodata data : segment) (address_mappings : list AddressMapping) : pm unit :=
  i ← lift (GetMemoryRegionIndex region);
  _ ← modify (set_region_of (Some i));
  ok ← reserve Limit.Thread 1;
  if negb (ok : bool) then mret tt else
  _ ← MapSegment code PermReadExecute VM.StCode;
  _ ← MapSegment rodata VM.PermRead VM.StCode;
  _ ← MapSegment data VM.PermReadWrite VM.StPrivate;
  _ ← ignore (HeapAllocate (u32 (HEAP_VADDR_END - stack_size)) stack_size VM.PermReadWrite VM.StLocked true);
  _ ← MapSharedPages;
  special_mappings address_mappings.

End Process.
#[global] Arguments st S W : clear implicits.
#[global] Arguments proc S : clear implicits.
#[global] Arguments kmem S W : clear implicits.

End Proc.
