(* ===== verification/SharedMemory.v ===== *)
(** * Shared memory blocks

    [SharedMemory] (core/hle/kernel/shared_memory.cpp) and the system calls that
    create, map and unmap blocks (svc.cpp).  Creation and destruction act on the
    owner's process, mapping on the target's; names, log output and handles are
    left out. *)
From S2P Require Import Prelude Results PageTable VMManager ResourceLimit MemoryMap MemoryRegion GuestMemory ProcessMemory.
Import Res Map Proc.

Module Shm.

Definition DontCare : Z := 0x10000000.
Definition ReadWriteExecute : Z := 7.

Section Blocks.
Context {S : Type} `{Region.IntervalSet S} {W : Type} `{Guest.Gpu W}.
Context (fcram : Z).
Abbreviation pm := (pm (S := S) (W := W)).

Record SharedMemory := mk_block {
  linear_heap_phys_offset : Z; backing_blocks : list (MRef.t * Z); block_size : Z; block_region : nat;
  permissions : Z; other_permissions : Z; base_address : Z; block_holding : S;
}.

Definition ConvertPermissions (permission : Z) : Z := Z.land permission ReadWriteExecute.

(** [~SharedMemory]; [has_owner] says whether the owner still exists. *)
Fixpoint free_holding (i : nat) (entries : list Region.interval) : pm unit :=
  match entries with
  | [] => mret tt
  | e :: entries => _ ← free_in i e.1 (u32 (e.2 - e.1)); free_holding i entries
  end.
Definition destroy (has_owner : bool) (b : SharedMemory) : pm unit :=
  _ ← free_holding (block_region b) (Region.blocks (block_holding b));
  if has_owner then
    _ ← release Limit.SharedMemory 1;
    if negb (base_address b =? 0) then
      ignore (change_state (base_address b) (block_size b) VM.StLocked VM.PermNone VM.StPrivate VM.PermReadWrite)
    else add_used (- block_size b)
  else mret tt.

(** The block before its memory is found; an early return destroys it. *)
Definition new_block (size region permissions other_permissions : Z) : outcome SharedMemory :=
  i ← GetMemoryRegionIndex region;
  Done (mk_block 0 [] size i permissions other_permissions 0 Region.set_empty).

Definition or_destroy {A} (has_owner : bool) (b : SharedMemory) (m : pm A) : pm A := fun s =>
  '(r, s) ← m s;
  match r with
  | Val a => Done (Val a, s)
  | Err e => '(_, s) ← destroy has_owner b s; Done (Err e, s)
  end.

(** An assertion that an operation succeeds. *)
Definition sure {A} (m : pm A) : pm A := fun s => '(r, s) ← m s; a ← Unwrap r; Done (Val a, s).

(** A block given by its address in the owner, and one from the linear heap. *)
Definition block_at (b : SharedMemory) (address : Z) : pm SharedMemory :=
  _ ← or_destroy true b (change_state address (block_size b) VM.StPrivate VM.PermReadWrite VM.StLocked (ConvertPermissions (permissions b)));
  blocks ← sure (Proc.backing_blocks address (block_size b));
  mret (mk_block 0 blocks (block_size b) (block_region b) (permissions b) (other_permissions b) address (block_holding b)).

Definition linear_block (has_owner : bool) (b : SharedMemory) : pm SharedMemory :=
  offset ← in_region (block_region b) (Region.LinearAllocate (block_size b));
  offset ← lift (of_opt FAssert offset);
  _ ← zero_fcram fcram offset (u32 (offset + block_size b));
  mem ← lift (Guest.GetFCRAMRef fcram offset);
  _ ← (if has_owner then add_used (block_size b) else mret tt);
  mret (mk_block offset [(mem, block_size b)] (block_size b) (block_region b) (permissions b) (other_permissions b) 0
          (Region.set_add (offset, u32 (offset + block_size b)) (block_holding b))).

Definition CreateSharedMemory (has_owner : bool) (size permissions other_permissions address region : Z) : pm SharedMemory :=
  b ← lift (new_block size region permissions other_permissions);
  if address =? 0 then linear_block has_owner b
  else if has_owner then block_at b address else lift (Stop FNullDeref).

Fixpoint applet_blocks (l : list Region.interval) : pm (list (MRef.t * Z)) :=
  match l with
  | [] => mret []
  | i :: l =>
      mem ← lift (Guest.GetFCRAMRef fcram i.1);
      _ ← zero_fcram fcram i.1 i.2;
      rest ← applet_blocks l;
      mret ((mem, u32 (i.2 - i.1)) :: rest)
  end.

(** From the SYSTEM region, without owner. *)
Definition CreateSharedMemoryForApplet (offset size permissions other_permissions : Z) : pm SharedMemory :=
  set ← in_region 1 (Region.HeapAllocate size);
  _ ← lift (assert_ (negb (bool_decide (Region.blocks set = []))));
  blocks ← applet_blocks (Region.blocks set);
  mret (mk_block 0 blocks size 1 permissions other_permissions (u32 (HEAP_VADDR + offset)) set).

(** [SharedMemory::Map] into a process; [is_owner] says whether it owns the block. *)
Definition Map (b : SharedMemory) (is_owner : bool) (address perms other_perms : Z) : pm unit :=
  let own_other_permissions := if is_owner then permissions b else other_permissions b in
  _ ← unless (negb ((base_address b =? 0) && negb (other_perms =? DontCare))) ResultInvalidCombination;
  _ ← unless (Z.land perms (Z.lnot own_other_permissions) =? 0) ResultInvalidCombination;
  _ ← unless (negb (negb (base_address b =? 0) && (other_perms =? DontCare))) ResultInvalidCombination;
  _ ← unless (negb (negb (other_perms =? DontCare) && negb (Z.land (permissions b) (Z.lnot other_perms) =? 0))) ResultWrongPermission;
  _ ← unless (negb (negb (address =? 0) && ((address <? HEAP_VADDR) || (SHARED_MEMORY_VADDR_END <=? u32 (address + block_size b)))))
        ResultInvalidAddress;
  let target_address := if (base_address b =? 0) && (address =? 0) then u32 (linear_heap_phys_offset b + LINEAR_HEAP_VADDR) else address in
  free ← range_free target_address (block_size b);
  _ ← unless free ResultInvalidAddressState;
  map_blocks (backing_blocks b) target_address VM.StShared (ConvertPermissions perms).

Definition Unmap (b : SharedMemory) (address : Z) : pm unit :=
  s ← get; try_ (VM.UnmapRange (IsC s) address (block_size b)).

(** Meant for blocks in one piece; another one is only reported. *)
Definition GetPointer (b : SharedMemory) (offset : Z) : outcome Z :=
  '(r, _) ← of_opt FOutOfRange (head (backing_blocks b));
  p ← MRef.add r offset; Done (MRef.GetPtr p).

(** ** System calls *)

Definition VerifyPermissions (p : Z) : bool :=
  (p =? 0) || (p =? 1) || (p =? 2) || (p =? 3) || (p =? DontCare).

(** Up to the creation of the handle; [shared_device_mem] and [region_flag] are
    the flags of the process. *)
Definition CreateMemoryBlock (addr size my_permission other_permission : Z) (shared_device_mem : bool) (region_flag : Z) : pm SharedMemory :=
  _ ← unless (size `mod` CITRA_PAGE_SIZE =? 0) ResultMisalignedSize;
  _ ← unless (VerifyPermissions my_permission) ResultInvalidCombination;
  _ ← unless (VerifyPermissions other_permission) ResultInvalidCombination;
  _ ← unless (negb (((addr <? PROCESS_IMAGE_VADDR) || (SHARED_MEMORY_VADDR_END <? u32 (addr + size))) && negb (addr =? 0))) ResultInvalidAddress;
  ok ← reserve Limit.SharedMemory 1;
  _ ← unless ok (make ErrCodes.OutOfSharedMems Mod_OS OutOfResource Status);
  let region := if (addr =? 0) && shared_device_mem then region_flag else 3 in
  CreateSharedMemory true size my_permission other_permission addr region.

Definition MapMemoryBlock (b : SharedMemory) (is_owner : bool) (addr perms other_perms : Z) : pm unit :=
  if ((1 <=? perms) && (perms <=? 7)) || (perms =? DontCare) then Map b is_owner addr perms other_perms
  else throw ResultInvalidCombination.

Definition UnmapMemoryBlock (b : SharedMemory) (addr : Z) : pm unit := Unmap b addr.

End Blocks.
#[global] Arguments SharedMemory S : clear implicits.

End Shm.
