(* ===== verification/ProcessFacts.v ===== *)
(** * Facts about the memory of a process

    What the operations of [ProcessMemory] do to the view of the address space
    ([VMTiles]) and to host memory.  [remap]: how a view changes when a range is
    mapped, given that [Reprotect] is applied to the whole area the new mapping was
    merged into.  [map_blocks_ok], [map_heap_ok]: the loops over blocks. *)
From S2P Require Import Prelude Results PageTable VMManager VMTiles VMFacts VMTheorems ResourceLimit MemoryMap MemoryRegion RegionPages GuestMemory GuestFacts ProcessMemory.
Import Res Map Proc.

Module PF.
Import Tiles.

Definition vw (v : VM.vmm) : Z -> option cell := view (VM.vma_map v).

(** A cell outside a new mapping: unchanged, or given the permissions of the new
    mapping when it had the state and the default permissions the mapping had
    before [Reprotect]. *)
Definition kept (st : VM.memory_state) (perms : Z) (o o' : option cell) : Prop :=
  o' = o \/ exists c, o = Some c /\ c_type c = VM.BackingMemory /\ c_perm c = VM.PermReadWrite /\ c_state c = st /\
                      o' = Some (VMT.set_perm perms c).

(** The addresses [t, t + n) get the host addresses [ptr]. *)
Record remap (st : VM.memory_state) (perms t n : Z) (ptr : Z -> Z) (V V' : Z -> option cell) : Prop := {
  rm_in : forall a, t <= a < t + n -> V' a = Some (mk_cell VM.BackingMemory perms st (ptr (a - t)));
  rm_out : forall a, ~ (t <= a < t + n) -> kept st perms (V a) (V' a);
}.

Lemma kept_trans st perms o o' o'' : kept st perms o o' -> kept st perms o' o'' -> kept st perms o o''.
Proof.
  intros [->|(c & -> & ? & ? & ? & ->)]; [done|]. intros [->|(c' & E & ? & ? & ? & ->)]; right; [by exists c|].
  injection E as <-. by exists c.
Qed.

Lemma kept_same st perms x : kept st perms (Some (mk_cell VM.BackingMemory perms st x)) (Some (mk_cell VM.BackingMemory perms st x)).
Proof. by left. Qed.

(** A cell that already has the permissions stays as it is. *)
Lemma kept_done st perms x o : kept st perms (Some (mk_cell VM.BackingMemory perms st x)) o -> o = Some (mk_cell VM.BackingMemory perms st x).
Proof. intros [->|(c & E & _ & _ & _ & ->)]; [done|]. by injection E as <-. Qed.

Lemma kept_free st perms o o' : kept st perms o o' -> o = Some free_cell -> o' = Some free_cell.
Proof. intros [->|(c & -> & E & _)] H; [done|]. injection H as ->. done. Qed.

(** Two mappings in a row. *)
Lemma remap_app st perms t n n' ptr ptr' V V' V'' : 0 <= n -> 0 <= n' -> remap st perms t n ptr V V' -> remap st perms (t + n) n' ptr' V' V'' ->
  remap st perms t (n + n') (fun k => if k <? n then ptr k else ptr' (k - n)) V V''.
Proof.
  intros Hn Hn' [Hi Ho] [Hi' Ho']. split; intros a Ha.
  - destruct (Z.ltb_spec (a - t) n).
    + pose proof (Ho' a ltac:(lia)) as Hk. rewrite Hi in Hk by lia. by apply kept_done in Hk.
    + rewrite Hi' by lia. by replace (a - t - n) with (a - (t + n)) by lia.
  - eapply kept_trans; [apply Ho; lia|apply Ho'; lia].
Qed.

Lemma remap_ext st perms t n ptr ptr' V V' : (forall k, 0 <= k < n -> ptr k = ptr' k) -> remap st perms t n ptr V V' -> remap st perms t n ptr' V V'.
Proof. intros He [Hi Ho]. split; [|done]. intros a Ha. rewrite <- He by lia. by apply Hi. Qed.

(** ** Steps of the monad *)

Section Steps.
Context {S : Type} `{Region.IntervalSet S} {W : Type} `{Guest.Gpu W}.
Implicit Types s : st S W.

Lemma pm_step {A B} (m : pm A) (k : A -> pm B) s a s' : m s = Done (Val a, s') -> (m ≫= k) s = k a s'.
Proof. intros E. unfold mbind, pm_bind. by rewrite E. Qed.

Lemma pm_fail {A B} (m : pm A) (k : A -> pm B) s e s' : m s = Done (Err e, s') -> (m ≫= k) s = Done (Err e, s').
Proof. intros E. unfold mbind, pm_bind. by rewrite E. Qed.

Lemma unless_true {B} e (k : unit -> pm B) s : (unless true e ≫= k) s = k tt s.
Proof. done. Qed.

Lemma unless_false {B} e (k : unit -> pm B) s : (unless false e ≫= k) s = Done (Err e, s).
Proof. done. Qed.

Lemma in_region_ok {A} i (f : Region.region S -> outcome (A * Region.region S)) s r a r' :
  regions (kernel s) !! i = Some r -> f r = Done (a, r') -> in_region i f s = Done (Val a, set_region i r' s).
Proof. intros E Ef. unfold in_region. rewrite E. cbn [of_opt mbind outcome_bind]. by rewrite Ef. Qed.

Lemma free_in_ok i o n s r r' : regions (kernel s) !! i = Some r -> Region.Free o n r = Done r' -> free_in i o n s = Done (Val tt, set_region i r' s).
Proof. intros E Ef. apply (in_region_ok _ _ _ r); [done|]. by rewrite Ef. Qed.

Lemma my_region_ok s i : memory_region (process s) = Some i -> my_region s = Done (Val i, s).
Proof. intros E. unfold my_region, mbind, pm_bind, lift. cbn. by rewrite E. Qed.
End Steps.

Section Facts.
Context {S : Type} `{Region.IntervalLaws S} {W : Type} `{Guest.Gpu W}.
Context (fcram : Z) (buffers : MRef.backing -> Prop).
Context (buffers_apart : forall b1 b2, buffers b1 -> buffers b2 -> b1 ≠ b2 ->
  MRef.host b1 + MRef.bytes b1 < MRef.host b2 \/ MRef.host b2 + MRef.bytes b2 < MRef.host b1).
Context (fcram_buffer : buffers (Guest.fcram_mem fcram)) (fcram_pos : 0 < fcram).
Abbreviation st := (st S W).
Implicit Types s : st.

Definition vm (s : st) : VM.vmm := vm_manager (process s).
Definition memb (s : st) : Guest.bytes := Guest.mem (memory (kernel s)).

(** A state with another address space and other host memory. *)
Definition upd (v : VM.vmm) (m : Guest.bytes) (s : st) : st := set_memory (Guest.with_mem m (memory (kernel s))) (set_vm v s).

Lemma upd_self s : s = upd (vm s) (memb s) s.
Proof. by destruct s as [[] [? [] ?]]. Qed.

(** The address space is well formed and can be changed. *)
Definition vm_ok (s : st) : Prop := VMF.wf (IsC s) buffers (vm s) /\ VM.is_locked (vm s) = false.

Lemma map_at_ok s t mem n state perms : vm_ok s -> VMT.page_range t n -> VMF.backs buffers mem n -> all_free (VM.vma_map (vm s)) t (t + n) ->
  exists v, map_at t mem n state perms s = Done (Val tt, set_vm v s) /\ vm_ok (set_vm v s) /\
    remap state perms t n (fun k => MRef.GetPtr mem + k) (vw (vm s)) (vw v).
Proof using buffers_apart.
  intros [Hw Hl] [Hge Hn He Ha Hna] Hb Hf. unfold map_at. assert (VM.MAX_ADDRESS < 2 ^ 32) by done.
  destruct (VMT.MapBackingMemory_ok (IsC s) buffers buffers_apart (vm s) t mem n state Hw Hl Hge Hn ltac:(lia) Ha Hna Hb)
    as [(_ & j & v1 & E1 & Hw1 & Hl1 & Hv1 & u & Hu & Hu1 & Hu2)|[[] _]]; [|done].
  assert (forall a, inside u a -> vw v1 a = Some (cell_at u a)) as Hin.
  { intros a. apply view_elem; [apply Hw1|by eapply list_elem_of_lookup_2]. }
  assert (VM.type u = VM.BackingMemory /\ VM.permissions u = VM.PermReadWrite /\ VM.meminfo_state u = state) as (Hty & Hp & Hs).
  { pose proof (Hin t ltac:(unfold inside; lia)) as E. unfold vw in E. rewrite Hv1, decide_True in E by lia. by injection E. }
  destruct (VMT.Reprotect_ok (IsC s) buffers buffers_apart v1 j u perms Hw1 Hl1 Hu Hty) as (j' & v & E2 & Hw2 & Hl2 & Hv2).
  exists v. fold (vm s). rewrite E1. cbn [mbind outcome_bind]. rewrite E2. cbn [mbind outcome_bind]. split_and!; [done|done|].
  split; intros a Ha'; unfold vw; rewrite Hv2, Hv1.
  - rewrite !decide_True by (unfold inside; lia). done.
  - rewrite (decide_False (P := t <= a < t + n)) by done. case_decide as Hia; [|by left].
    specialize (Hin a Hia). unfold vw in Hin. rewrite Hv1, decide_False in Hin by done. rewrite Hin.
    right. exists (cell_at u a). unfold cell_at at 2 3 4. done.
Qed.

(** ** Lists of blocks *)

(** The byte at offset [k] of a list of blocks of host memory. *)
Fixpoint host_byte (l : list (MRef.t * Z)) (k : Z) : Z :=
  match l with [] => 0 | (r, n) :: l => if k <? n then MRef.GetPtr r + k else host_byte l (k - n) end.

(** Blocks that can be mapped at an aligned address. *)
Definition mappable (l : list (MRef.t * Z)) : Prop :=
  Forall (fun b => 0 < b.2 /\ b.2 `mod` CITRA_PAGE_SIZE = 0 /\ VMF.backs buffers b.1 b.2) l.

Lemma blocks_size_nonneg l : mappable l -> 0 <= VMT.blocks_size l.
Proof using Type. induction 1 as [|[r n] l [Hn _] _ IH]; simpl in *; lia. Qed.

(** Mapping the rest of a free range after its first part was mapped. *)
Lemma free_after state perms t n m v v' ptr : 0 <= n -> 0 <= m -> all_free (VM.vma_map v) t (t + (n + m)) ->
  remap state perms t n ptr (vw v) (vw v') -> all_free (VM.vma_map v') (t + n) (t + n + m).
Proof using Type.
  intros Hn Hm Hf [_ Ho] a Ha. eapply kept_free; [apply Ho; lia|]. apply Hf. lia.
Qed.

Lemma map_blocks_ok l : mappable l -> forall s t state perms, vm_ok s ->
  0 <= t -> t `mod` CITRA_PAGE_SIZE = 0 -> t + VMT.blocks_size l <= VM.MAX_ADDRESS ->
  all_free (VM.vma_map (vm s)) t (t + VMT.blocks_size l) ->
  exists v, map_blocks l t state perms s = Done (Val tt, set_vm v s) /\ vm_ok (set_vm v s) /\
    remap state perms t (VMT.blocks_size l) (host_byte l) (vw (vm s)) (vw v).
Proof using buffers_apart.
  induction 1 as [|[r n] l (Hn & Ha & Hb) Hl IH]; intros s t state perms Hok Ht Hta He Hf; simpl in *.
  - exists (vm s). assert (set_vm (vm s) s = s) as E by by destruct s as [[] ?]. rewrite E. split_and!; [done|done|].
    split; intros a Ha; [lia|by left].
  - pose proof (blocks_size_nonneg l Hl) as Hsz. assert (VM.MAX_ADDRESS < 2 ^ 32) by done.
    destruct (map_at_ok s t r n state perms Hok) as (v1 & E1 & Hok1 & Hr1); [split; try done; lia|done| |].
    { intros a Hra. apply Hf. lia. }
    unfold mbind, pm_bind. rewrite E1. cbn [mbind outcome_bind]. rewrite u32_small by lia.
    destruct (IH (set_vm v1 s) (t + n) state perms Hok1) as (v2 & E2 & Hok2 & Hr2); [lia|by apply aligned_sum|lia| |].
    { eapply free_after; [..|exact Hr1]; [lia|lia|done]. }
    exists v2. split_and!; [exact E2|done|]. eapply remap_app; [lia|lia|exact Hr1|exact Hr2].
Qed.
(** The blocks of an allocation: within the FCRAM and page aligned. *)
Definition pages (l : list Region.interval) : Prop :=
  Forall (fun i => 0 <= i.1 < i.2 /\ i.2 <= FCRAM_N3DS_SIZE /\ i.1 `mod` CITRA_PAGE_SIZE = 0 /\ i.2 `mod` CITRA_PAGE_SIZE = 0) l.

Lemma GetFCRAMRef_ok o : o <= FCRAM_N3DS_SIZE -> Guest.GetFCRAMRef fcram o = Done (MRef.Ref (Guest.fcram_mem fcram) o).
Proof using Type.
  intros Ho. unfold Guest.GetFCRAMRef, MRef.make. cbn [Guest.fcram_mem MRef.bytes]. destruct (Z.leb_spec o FCRAM_N3DS_SIZE); [done|lia].
Qed.

Lemma fcram_ref_backs o n : 0 <= o -> o + n <= FCRAM_N3DS_SIZE -> VMF.backs buffers (MRef.Ref (Guest.fcram_mem fcram) o) n.
Proof using fcram_buffer fcram_pos. intros Ho Hn. split; [|done]. cbn [MRef.covers Guest.fcram_mem MRef.host MRef.bytes]. split_and!; mlia. Qed.

Lemma zero_fcram_ok lo hi s : lo <= FCRAM_N3DS_SIZE -> hi <= FCRAM_N3DS_SIZE ->
  zero_fcram fcram lo hi s = Done (Val tt, upd (vm s) (Guest.fill (fcram + lo) (hi - lo) 0 (memb s)) s).
Proof using Type.
  intros Hlo Hhi. unfold zero_fcram, Guest.GetFCRAMPointer, lift, mbind, pm_bind. destruct (Z.leb_spec lo FCRAM_N3DS_SIZE), (Z.leb_spec hi FCRAM_N3DS_SIZE); try lia.
  cbn [assert_ mbind outcome_bind]. unfold zero_host, modify. replace (fcram + hi - (fcram + lo)) with (hi - lo) by lia.
  by destruct s as [[] []].
Qed.

Lemma map_heap_ok l : pages l -> forall s t state perms, vm_ok s ->
  0 <= t -> t `mod` CITRA_PAGE_SIZE = 0 -> t + Region.total l <= VM.MAX_ADDRESS ->
  all_free (VM.vma_map (vm s)) t (t + Region.total l) ->
  exists v m, map_heap fcram l t perms state s = Done (Val tt, upd v m s) /\ vm_ok (upd v m s) /\
    remap state perms t (Region.total l) (fun k => fcram + RP.nth_byte l k) (vw (vm s)) (vw v) /\
    forall x, m x = if decide (x - fcram ∈ Region.bytes l) then 0 else memb s x.
Proof using buffers_apart fcram_buffer fcram_pos.
  induction 1 as [|[lo hi] l (Hi & Hh & Ha & Hb) Hl IH]; intros s t state perms Hok Ht Hta He Hf; cbn [map_heap fst snd] in *.
  - exists (vm s), (memb s). rewrite <- upd_self. split_and!; [done|done|split; intros a Hra; [unfold Region.total in Hra; simpl in Hra; lia|by left]|].
    intros x. rewrite decide_False; [done|rewrite Region.elem_of_bytes; apply Region.covers_nil].
  - assert (0 <= Region.total l) as Hsz by (apply Region.total_nonneg; intros i Hil; rewrite Forall_forall in Hl; destruct (Hl i Hil); lia).
    rewrite Region.total_cons in *. cbn [fst snd] in *. assert (VM.MAX_ADDRESS < 2 ^ 32) by done.
    unfold mbind, pm_bind, lift. rewrite zero_fcram_ok by lia. cbn [mbind outcome_bind]. rewrite GetFCRAMRef_ok by lia. cbn [mbind outcome_bind].
    assert (FCRAM_N3DS_SIZE < 2 ^ 32) by mlia. rewrite (u32_small (hi - lo)) by lia.
    set (s1 := upd (vm s) (Guest.fill (fcram + lo) (hi - lo) 0 (memb s)) s).
    destruct (map_at_ok s1 t (MRef.Ref (Guest.fcram_mem fcram) lo) (hi - lo) state perms Hok) as (v1 & E1 & Hok1 & Hr1);
      [split; [lia|lia|lia|done|by apply aligned_diff]|apply fcram_ref_backs; lia|intros a Hra; apply Hf; lia|].
    rewrite E1. cbn [mbind outcome_bind]. rewrite u32_small by lia.
    destruct (IH (set_vm v1 s1) (t + (hi - lo)) state perms Hok1) as (v2 & m2 & E2 & Hok2 & Hr2 & Hm2);
      [lia|by apply aligned_sum, aligned_diff|lia| |].
    { eapply free_after; [..|exact Hr1]; [lia|lia|]. intros a Hra. apply Hf. lia. }
    exists v2, m2. split_and!; [exact E2|exact Hok2| |].
    + eapply remap_ext; [|eapply remap_app; [| |exact Hr1|exact Hr2]]; [|lia|lia]. intros k Hk. cbn [MRef.GetPtr Guest.fcram_mem MRef.host RP.nth_byte fst snd].
      destruct (k <? hi - lo); lia.
    + intros x. rewrite Hm2. change (memb (set_vm v1 s1) x) with (Guest.fill (fcram + lo) (hi - lo) 0 (memb s) x). unfold Guest.fill.
      assert (x - fcram ∈ Region.bytes ((lo, hi) :: l) <-> lo <= x - fcram < hi \/ x - fcram ∈ Region.bytes l) as E
        by (by rewrite !Region.elem_of_bytes, Region.covers_cons).
      destruct (decide (x - fcram ∈ Region.bytes l)); [by rewrite decide_True by (rewrite E; tauto)|].
      destruct (Z.leb_spec (fcram + lo) x), (Z.ltb_spec x (fcram + lo + (hi - lo))); simpl.
      1: by rewrite decide_True by (rewrite E; lia). all: rewrite decide_False; [done|]; rewrite E; intros [?|?]; [lia|done].
Qed.
End Facts.
End PF.
