(* ===== verification/ProcessOwnership.v ===== *)
(** * The memory a process owns

    [owned]: the invariant that ties the address space of a process to the FCRAM.
    Every mapped address of its code, heap and linear heap has an FCRAM byte of
    its own that the process holds, every held byte is mapped, linear addresses
    are at their physical offset, and what the process holds is in use in its
    region.  [grow] and [shrink] are the two ways the operations change it,
    [owned_others] is what the calls of other processes do. *)
From S2P Require Import Prelude Results PageTable VMManager VMTiles VMFacts VMTheorems ResourceLimit MemoryMap MemoryRegion RegionPages RegionTheorems GuestMemory GuestFacts ProcessMemory ProcessFacts.
Import Res Map Proc.

Module PO.
Import Tiles PF.
Import -(notations) Region.

Section Owned.
Context {S : Type} `{IntervalLaws S} {W : Type} `{Guest.Gpu W}.
Context (fcram : Z) (buffers : MRef.backing -> Prop).
Abbreviation st := (st S W).
Abbreviation vm_ok := (vm_ok buffers).
Implicit Types (s : st) (r : region S) (live : gset Z).

Definition host s (a : Z) : option Z := GF.host_of (VM.vma_map (vm s)) a.
Definition held s : gset Z := bytes (blocks (holding_memory (process s))).
Definition area s : Z := GetLinearHeapAreaAddress (process s).
Definition linear_size s : Z := if kernel_version (process s) <? 0x22C then LINEAR_HEAP_SIZE else NEW_LINEAR_HEAP_SIZE.

(** Where a process has memory of its own. *)
Definition in_image (a : Z) : Prop := PROCESS_IMAGE_VADDR <= a < PROCESS_IMAGE_VADDR_END.
Definition in_heap (a : Z) : Prop := HEAP_VADDR <= a < HEAP_VADDR_END.
Definition in_linear s r (a : Z) : Prop := area s + base r <= a < area s + base r + size r.
Definition private s r (a : Z) : Prop := in_image a \/ in_heap a \/ in_linear s r a.

Record owned (i : nat) s r live : Prop := {
  ow_vm : vm_ok s;
  ow_region : memory_region (process s) = Some i;
  ow_lookup : regions (kernel s) !! i = Some r;
  ow_ledger : ledger r live;
  ow_paged : RP.paged r live;
  ow_end : base r + size r <= linear_size s;
  ow_held : held s ⊆ live;
  ow_host : forall a p, private s r a -> host s a = Some p -> p - fcram ∈ held s /\ (p - fcram - a) `mod` CITRA_PAGE_SIZE = 0;
  ow_linear : forall a p, in_linear s r a -> host s a = Some p -> p = fcram + (a - area s);
  ow_inj : forall a a' p, private s r a -> private s r a' -> host s a = Some p -> host s a' = Some p -> a = a';
  ow_onto : forall o, o ∈ held s -> exists a, private s r a /\ host s a = Some (fcram + o);
}.

(** Parts of the state the invariant depends on besides memory. *)
Record frame (i : nat) s r s' r' : Prop := {
  fr_region : memory_region (process s') = memory_region (process s);
  fr_version : kernel_version (process s') = kernel_version (process s);
  fr_lookup : regions (kernel s') !! i = Some r';
  fr_layout : layout r' = layout r;
}.

Lemma frame_private i s r s' r' a : frame i s r s' r' ->
  area s' = area s /\ linear_size s' = linear_size s /\ (in_linear s' r' a <-> in_linear s r a) /\ (private s' r' a <-> private s r a).
Proof using Type.
  intros [_ Hv _ Hl]. unfold private, in_linear, area, linear_size, GetLinearHeapAreaAddress. rewrite Hv. injection Hl as -> -> _. tauto.
Qed.

Lemma host_remap state perms t n ptr s s' a : remap state perms t n ptr (vw (vm s)) (vw (vm s')) ->
  host s' a = if decide (t <= a < t + n) then Some (ptr (a - t)) else host s a.
Proof using Type.
  intros [Hi Ho]. unfold host, GF.host_of, vw in *. case_decide as Ha; [by rewrite Hi|].
  destruct (Ho a Ha) as [->|(c & E & Hty & _ & _ & ->)]; [done|]. rewrite E. destruct c as [[] ]; done.
Qed.
(** The addresses of a page are backed by consecutive bytes. *)
Lemma host_page s a a' p : vm_ok s -> host s a = Some p -> a / CITRA_PAGE_SIZE = a' / CITRA_PAGE_SIZE -> host s a' = Some (p + (a' - a)).
Proof using Type.
  intros [[Hm _ _] _] Hp E. unfold host, GF.host_of in *. set (q := a / CITRA_PAGE_SIZE) in *.
  assert (a = q * CITRA_PAGE_SIZE + a `mod` CITRA_PAGE_SIZE) as Ea by (unfold q; pose proof (Z.div_mod a CITRA_PAGE_SIZE ltac:(done)); lia).
  assert (a' = q * CITRA_PAGE_SIZE + a' `mod` CITRA_PAGE_SIZE) as Ea' by (rewrite E; pose proof (Z.div_mod a' CITRA_PAGE_SIZE ltac:(done)); lia).
  rewrite Ea, (GF.view_page buffers) in Hp by (try done; by apply Z.mod_pos_bound).
  rewrite Ea', (GF.view_page buffers) by (try done; by apply Z.mod_pos_bound).
  destruct (view _ (q * CITRA_PAGE_SIZE)) as [[[] pm cs x]|]; simpl in *; [done| |done]. injection Hp as <-. f_equal. lia.
Qed.

(** ** More memory *)

(** A numbering of the new bytes [got] by the offsets of the range they are mapped at. *)
Record numbers (f : Z -> Z) (n : Z) (got : gset Z) : Prop := {
  nb_in : forall k, 0 <= k < n -> f k ∈ got;
  nb_inj : forall k k', 0 <= k < n -> 0 <= k' < n -> f k = f k' -> k = k';
  nb_onto : forall o, o ∈ got -> exists k, 0 <= k < n /\ f k = o;
  nb_offset : forall k, 0 <= k < n -> (f k - k) `mod` CITRA_PAGE_SIZE = 0;
}.

Lemma grow i s r live s' r' got t n f state perms : owned i s r live -> vm_ok s' -> frame i s r s' r' ->
  ledger r' (live ∪ got) -> RP.whole got -> held s' = held s ∪ got -> got ## live ->
  (forall a, t <= a < t + n -> private s r a /\ host s a = None) -> t `mod` CITRA_PAGE_SIZE = 0 -> numbers f n got ->
  remap state perms t n (fun k => fcram + f k) (vw (vm s)) (vw (vm s')) ->
  (forall a, t <= a < t + n -> in_linear s r a -> f (a - t) = a - area s) ->
  owned i s' r' (live ∪ got).
Proof using Type*.
  intros Ho Hok Hf Hled Hwg Hheld Hdis Hpriv Ht Hnum Hrm Hlin. pose proof Hf as [Hfr Hfv Hfl Hlay].
  pose proof (fun a => host_remap _ _ _ _ _ _ _ a Hrm) as Hh. pose proof Ho as [_ Hr _ _ [Hbal Hsal Hw] He Hheld0 Hhost Hlinear Hinj Honto].
  assert (forall a p, host s a = Some p -> private s r a -> p - fcram ∈ live) as Hin by (intros a p Hp Ha; apply Hheld0, (Hhost a p Ha Hp)).
  assert (forall a, t <= a < t + n -> (f (a - t) - a) `mod` CITRA_PAGE_SIZE = 0) as Hoff.
  { intros a Ha. replace (f (a - t) - a) with (f (a - t) - (a - t) - t) by lia. rewrite Zminus_mod, Ht, (nb_offset _ _ _ Hnum) by lia. done. }
  assert (forall a, (in_linear s' r' a <-> in_linear s r a) /\ (private s' r' a <-> private s r a)) as Hiff.
  { intros a. destruct (frame_private i s r s' r' a Hf) as (_ & _ & ? & ?). done. }
  destruct (frame_private i s r s' r' 0 Hf) as (Har & Hls & _ & _). injection Hlay as Hb Hs _.
  split; [done|congruence|done|done|split; [by rewrite Hb|by rewrite Hs|by apply RP.whole_union]|by rewrite Hb, Hs, Hls|rewrite Hheld; set_solver| | | |].
  - intros a p Ha. rewrite Hh, Hheld, elem_of_union. case_decide as Hat.
    + intros [= <-]. replace (fcram + f (a - t) - fcram) with (f (a - t)) by lia. split; [right; apply (nb_in _ _ _ Hnum); lia|by apply Hoff].
    + intros Hp. destruct (Hhost a p) as [? ?]; [by apply Hiff|done|]. by split; [left|].
  - intros a p Ha. rewrite Hh, Har. apply Hiff in Ha. case_decide as Hat; [|by apply Hlinear]. intros [= <-]. by rewrite Hlin.
  - intros a a' p Ha Ha'. apply Hiff in Ha, Ha'. rewrite !Hh. do 2 case_decide.
    + intros [= <-] E. assert (f (a - t) = f (a' - t)) as E' by (injection E; lia). apply (nb_inj _ _ _ Hnum) in E'; lia.
    + intros [= <-] Hp. exfalso. apply (Hdis (f (a - t))); [apply (nb_in _ _ _ Hnum); lia|]. replace (f (a - t)) with (fcram + f (a - t) - fcram) by lia. by apply (Hin a').
    + intros Hp [= <-]. exfalso. apply (Hdis (f (a' - t))); [apply (nb_in _ _ _ Hnum); lia|]. replace (f (a' - t)) with (fcram + f (a' - t) - fcram) by lia. by apply (Hin a).
    + by apply Hinj.
  - intros o. rewrite Hheld, elem_of_union. intros [Hx|Hx].
    + destruct (Honto o Hx) as (a & Ha & Hp). exists a. rewrite Hh. split; [by apply Hiff|]. case_decide as Hat; [|done].
      destruct (Hpriv a Hat) as [_ E]. congruence.
    + destruct (nb_onto _ _ _ Hnum o Hx) as (k & Hk & <-). exists (t + k). rewrite Hh, decide_True by lia. replace (t + k - t) with k by lia.
      split; [|done]. apply Hiff, Hpriv. lia.
Qed.

(** ** Less memory *)

Lemma shrink i s r live s' r' old t n : owned i s r live -> vm_ok s' -> frame i s r s' r' -> 0 <= n ->
  (forall o, o ∈ old <-> exists a, t <= a < t + n /\ host s a = Some (fcram + o)) -> (forall a, t <= a < t + n -> private s r a) ->
  t `mod` CITRA_PAGE_SIZE = 0 -> n `mod` CITRA_PAGE_SIZE = 0 -> ledger r' (live ∖ old) -> held s' = held s ∖ old ->
  (forall a, vw (vm s') a = if decide (t <= a < t + n) then Some free_cell else vw (vm s) a) ->
  owned i s' r' (live ∖ old).
Proof using Type*.
  intros Ho Hok Hf Hn0 Hold Hpriv Ht Hn Hled Hheld Hv. pose proof Hf as [Hfr Hfv Hfl Hlay].
  pose proof Ho as [[Hvw _] Hr _ _ [Hbal Hsal Hw] He Hheld0 Hhost Hlinear Hinj Honto].
  assert (forall a, host s' a = if decide (t <= a < t + n) then None else host s a) as Hh.
  { intros a. unfold host, GF.host_of, vw in *. rewrite Hv. by case_decide. }
  assert (forall a, (in_linear s' r' a <-> in_linear s r a) /\ (private s' r' a <-> private s r a)) as Hiff.
  { intros a. destruct (frame_private i s r s' r' a Hf) as (_ & _ & ? & ?). done. }
  destruct (frame_private i s r s' r' 0 Hf) as (Har & Hls & _ & _). injection Hlay as Hb Hs _.
  split; [done|congruence|done|done| |by rewrite Hb, Hs, Hls|rewrite Hheld; set_solver| | | |].
  - split; [by rewrite Hb|by rewrite Hs|]. apply RP.whole_difference; [done|]. intros o y E (a & Ha & Hp)%Hold. apply Hold. destruct (Hhost a _ (Hpriv a Ha) Hp) as [_ Hmod].
    replace (fcram + o - fcram - a) with (o - a) in Hmod by lia. exists (a + (y - o)).
    assert (a / CITRA_PAGE_SIZE = (a + (y - o)) / CITRA_PAGE_SIZE) as Ea by (unfold CITRA_PAGE_SIZE in *; Z.div_mod_to_equations; lia).
    split; [|rewrite (host_page s a _ _ (ow_vm _ _ _ _ Ho) Hp Ea); f_equal; lia].
    clear - Ea Ha Ht Hn. unfold CITRA_PAGE_SIZE in *. Z.div_mod_to_equations. lia.
  - intros a p Ha. rewrite Hh, Hheld. case_decide as Hat; [done|]. apply Hiff in Ha. intros Hp. destruct (Hhost a p Ha Hp) as [Hin Hmod].
    split; [|done]. apply elem_of_difference. split; [done|]. rewrite Hold. intros (a' & Ha' & Hp'). replace (fcram + (p - fcram)) with p in Hp' by lia.
    rewrite (Hinj a a' p Ha) in Hat; [done|by apply Hpriv|done|done].
  - intros a p Ha. rewrite Hh, Har. case_decide; [done|]. apply Hlinear. by apply Hiff.
  - intros a a' p Ha Ha'. apply Hiff in Ha, Ha'. rewrite !Hh. do 2 case_decide; try done. by apply Hinj.
  - intros o. rewrite Hheld, elem_of_difference. intros [Hx Hno]. destruct (Honto o Hx) as (a & Ha & Hp). exists a. split; [by apply Hiff|].
    rewrite Hh, decide_False; [done|]. intros Hat. apply Hno, Hold. eauto.
Qed.
(** ** Other processes *)

(** A request of another process for whole pages, which does not free memory held here. *)
Definition foreign s (q : RT.request) live : Prop :=
  RT.allowed q live /\ RP.page_request q /\ match q with RT.RFree a n => range a n ## held s | _ => True end.

Lemma owned_others i s r live q : owned i s r live -> foreign s q live ->
  exists r' live', RT.serve q (r, live) = Done (r', live') /\ owned i (set_region i r' s) r' live'.
Proof using Type*.
  intros Ho (Ha & Hq & Hf). pose proof Ho as [Hvm Hr Hlk Hled Hp He Hh Hhost Hlin Hinj Honto].
  destruct (RT.serve_ok q r live Hled Ha) as (r' & live' & E & Hled' & Hlay). exists r', live'. split; [done|].
  pose proof (RP.serve_whole q r live r' live' Hled Hp Ha Hq E) as Hw. injection Hlay as Hb Hs _.
  assert (forall a, private (set_region i r' s) r' a <-> private s r a) as Hpr by (intros a; unfold private, in_linear; by rewrite Hb, Hs).
  split; try done.
  - cbn. apply list_lookup_insert_eq. by eapply lookup_lt_Some.
  - destruct Hp as [Hp1 Hp2 _]. by split; [rewrite Hb|rewrite Hs|].
  - by rewrite Hb, Hs.
  - change (held (set_region i r' s)) with (held s). by eapply RP.serve_keeps.
  - intros a p Hpa. apply Hhost. by apply Hpr.
  - intros a p Hpa. apply Hlin. revert Hpa. unfold in_linear. by rewrite Hb, Hs.
  - intros a a' p Hpa Hpa'. apply Hinj; by apply Hpr.
  - intros o Hx. destruct (Honto o Hx) as (a & Hpa & Hho). exists a. split; [by apply Hpr|done].
Qed.
End Owned.

End PO.
