(* ===== verification/ProcessHeap.v ===== *)
(** * Commit, free and protect

    The operations on the heap and the linear heap of a process, on a state in
    which the process owns its memory ([owned]): each either fails without effect or
    keeps the invariant and does what [committed] and [freed] say.  The counters of a
    process count what it holds ([committed_accounts], [freed_accounts]). *)
From S2P Require Import Prelude Results PageTable VMManager VMTiles VMFacts VMTheorems ResourceLimit MemoryMap MemoryRegion RegionPages RegionTheorems GuestMemory GuestFacts ProcessMemory ProcessFacts ProcessOwnership.
Import Res Map Proc.

Module PHeap.
Import Tiles VMF PF PO.
Import -(notations) Region.

Section Operations.
Context {S : Type} `{IntervalLaws S} {W : Type} `{Guest.Gpu W}.
Context (fcram : Z) (buffers : MRef.backing -> Prop).
Context (buffers_apart : forall b1 b2, buffers b1 -> buffers b2 -> b1 ≠ b2 ->
  MRef.host b1 + MRef.bytes b1 < MRef.host b2 \/ MRef.host b2 + MRef.bytes b2 < MRef.host b1).
Context (fcram_buffer : buffers (Guest.fcram_mem fcram)) (fcram_pos : 0 < fcram).
Abbreviation st := (st S W).
Abbreviation vm_ok := (vm_ok buffers).
Abbreviation owned := (owned fcram buffers).
Implicit Types (s : st) (r : region S) (live got : gset Z).

Lemma range_free_ok s t n : vm_ok s -> 0 <= t < VM.MAX_ADDRESS -> 0 <= n -> t + n < 2 ^ 32 ->
  exists b, range_free t n s = Done (Val b, s) /\ (0 < n -> b = true <-> all_free (VM.vma_map (vm s)) t (t + n)).
Proof.
  intros [Hw _] Ht Hn Hb. pose proof (wf_tiles _ _ (wf_vmas _ _ _ Hw)) as Htl.
  destruct (tiles_find _ _ _ t Htl Ht) as (l & v & r & Hm & Hi). 
  assert (VM.FindVMA (VM.vma_map (vm s)) t = Done (length l)) as E1 by (rewrite Hm in Htl |- *; by apply FindVMA_spec).
  assert (VM.at_ (VM.vma_map (vm s)) (length l) = Done v) as E2 by (unfold VM.at_; by rewrite Hm, list_lookup_middle).
  assert (v ∈ VM.vma_map (vm s)) as Hin by (rewrite Hm; apply elem_of_app; right; left).
  pose proof (proj1 (Forall_forall _ _) (wf_good _ _ (wf_vmas _ _ _ Hw)) v Hin) as Hg.
  pose proof (good_base _ _ Hg). pose proof (good_end _ _ Hg). assert (VM.MAX_ADDRESS < 2 ^ 32) by done.
  eexists. split.
  - unfold range_free, mbind, pm_bind, get, lift. cbn [mbind outcome_bind]. fold (vm s). rewrite E1. cbn [mbind outcome_bind]. fold (vm s). rewrite E2. done.
  - intros Hpos. rewrite (all_free_area (IsC s) buffers (vm s) l v r t (t + n) Hw Hm Hi ltac:(lia)).
    rewrite !u32_small by (unfold Tiles.inside in Hi; lia). rewrite negb_true_iff, orb_false_iff, negb_false_iff, bool_decide_eq_true, Z.ltb_ge. done.
Qed.
(** ** Commit *)

(** What a successful commit of [n] bytes at [t] does: the new bytes [got] back exactly the
    range, with the permissions asked for, and read zero; nothing else is written or
    moved; the counters grow by [n]. *)
Record committed s s' t n perms state got : Prop := {
  cm_size : Z.of_nat (base.size got) = n;
  cm_cells : forall a, t <= a < t + n -> exists o, o ∈ got /\
    vw (vm s') a = Some (mk_cell VM.BackingMemory perms state (fcram + o)) /\ memb s' (fcram + o) = 0;
  cm_kept : forall a, ~ (t <= a < t + n) -> kept state perms (vw (vm s) a) (vw (vm s') a);
  cm_memory : forall x, x - fcram ∉ got -> memb s' x = memb s x;
  cm_held : held s' = held s ∪ got;
  cm_used : memory_used (process s') = u32 (memory_used (process s) + n);
  cm_limit : resource_limit (process s') = (Limit.Reserve Limit.Commit n (resource_limit (process s))).2;
}.

(** A refused request leaves everything but the bookkeeping of the region as it was. *)
Definition refused i s s' : Prop := exists r', s' = set_region i r' s.

Lemma map_heap_numbers (res : S) n got : got = bytes (blocks res) -> total (blocks res) = n -> RP.whole got ->
  (forall x, x ∈ got -> 0 <= x < FCRAM_N3DS_SIZE) ->
  pages (blocks res) /\ numbers (RP.nth_byte (blocks res)) n got /\ Z.of_nat (base.size got) = n.
Proof.
  intros -> <- Hw Hb. destruct (blocks_canonical res) as [b Hab]. pose proof (RP.whole_blocks b _ Hab Hw) as Hal.
  assert (forall i, i ∈ blocks res -> i.1 < i.2) as Hlt by (intros i Hi; pose proof (above_block b _ i Hab Hi); lia).
  assert (forall i x, i ∈ blocks res -> i.1 <= x < i.2 -> 0 <= x < FCRAM_N3DS_SIZE) as Hin.
  { intros i x Hi Hx. apply Hb, elem_of_bytes. exists i. by split. }
  split_and!; [| |by eapply bytes_total].
  - apply Forall_forall. intros i Hi. rewrite Forall_forall in Hal. destruct (Hal i Hi) as [? ?]. pose proof (Hlt i Hi).
    pose proof (Hin i i.1 Hi ltac:(lia)). pose proof (Hin i (i.2 - 1) Hi ltac:(lia)). split_and!; try done; lia.
  - split.
    + intros k Hk. apply elem_of_bytes. by apply RP.nth_byte_in.
    + intros k k' Hk Hk'. by eapply RP.nth_byte_inj.
    + intros o Ho%elem_of_bytes. by apply RP.nth_byte_onto.
    + intros k Hk. by apply RP.nth_byte_offset.
Qed.

(** Everything in use in the region of a process is in the FCRAM. *)
Lemma live_bounds i s r live x : owned i s r live -> x ∈ live -> 0 <= x < FCRAM_N3DS_SIZE.
Proof.
  intros Ho Hx. pose proof (ow_ledger _ _ _ _ _ _ Ho) as [[Hb _ _ _ _] El _]. rewrite El in Hx. apply elem_of_difference in Hx as [Hx%elem_of_range _].
  pose proof (ow_end _ _ _ _ _ _ Ho) as He. unfold linear_size in He. destruct (_ <? _); mlia.
Qed.

(** Allocation on the heap at an address that passed the tests. *)
Lemma heap_taken i s r live n : owned i s r live -> 0 <= n < 2 ^ 32 -> n `mod` CITRA_PAGE_SIZE = 0 ->
  exists res r', in_region i (Region.HeapAllocate n) s = Done (Val res, set_region i r' s) /\ layout r' = layout r /\
    (blocks res = [] /\ owned i (set_region i r' s) r' live /\ (0 < n -> Z.of_nat (base.size (free_bytes r)) < n) \/
     0 < n /\ blocks res ≠ [] /\ total (blocks res) = n /\ RP.whole (bytes (blocks res)) /\ bytes (blocks res) ## live /\
       ledger r' (live ∪ bytes (blocks res))).
Proof.
  intros Ho Hn Ha. pose proof (ow_ledger _ _ _ _ _ _ Ho) as Hled. pose proof (lg_ok _ _ Hled) as Hok.
  destruct (HeapAllocate_ok r n Hok Hn) as (res & r' & E & Hres).
  assert (RT.serve (RT.RHeap n) (r, live) = Done (r', live ∪ bytes (blocks res))) as Es by (unfold RT.serve; by rewrite E).
  destruct (RT.serve_ok (RT.RHeap n) r live Hled Hn) as (r1 & live1 & Es' & Hled' & Hlay). rewrite Es in Es'. injection Es' as <- <-.
  exists res, r'. split; [by eapply in_region_ok; [apply Ho|]|]. split; [done|].
  assert (blocks res = [] -> owned i (set_region i r' s) r' live) as Hempty.
  { intros Eb. destruct (owned_others fcram buffers i s r live (RT.RHeap n) Ho) as (r2 & live2 & Es2 & Ho2); [by split_and!|].
    rewrite Es in Es2. injection Es2 as <- <-. rewrite Eb in Ho2. change (bytes []) with (∅ : gset Z) in Ho2. by rewrite union_empty_r_L in Ho2. }
  unfold free_bytes. rewrite size_blocks. destruct (Z.ltb_spec (total (blocks (free_blocks r))) n) as [Hlt|Hge].
  - destruct Hres as [-> ->]. left. rewrite blocks_empty in *. by split_and!; [|apply Hempty|].
  - destruct Hres as [[Ht Hin Hrest Hu Hs] _]. destruct (blocks res) as [|b bs] eqn:Eb.
    + left. split_and!; [done|by apply Hempty|]. unfold total in Ht. simpl in Ht. lia.
    + right. assert (0 < n).
      { destruct (blocks_canonical res) as [z Hz]. rewrite Eb in Hz. rewrite total_cons in Ht. assert (0 <= total bs).
        { apply total_nonneg. intros j Hj. pose proof (above_block z (b :: bs) j Hz ltac:(by right)). lia. }
        pose proof (above_block z (b :: bs) b Hz ltac:(left)). lia. }
      rewrite <- Eb in *. split_and!; [done|by rewrite Eb|done| | |done].
      * eapply RP.heap_allocate_whole; [exact Hok| |exact Hn|exact Ha|exact E]. eapply RP.paged_free; apply Ho.
      * intros x Hx%elem_of_bytes%Hin Hl. rewrite (lg_live _ _ Hled) in Hl. apply elem_of_difference in Hl as [_ Hl]. apply Hl. by apply elem_of_bytes.
Qed.

(** The state after the blocks were mapped. *)
Definition heap_done i r' (res : S) n v m s : st :=
  set_limit (Limit.Reserve Limit.Commit n (resource_limit (process s))).2
    (set_used (u32 (memory_used (process s) + n)) (set_holding (set_union (holding_memory (process s)) res) (upd v m (set_region i r' s)))).

Lemma heap_commit i s r live r' (res : S) t n perms state : owned i s r live -> layout r' = layout r ->
  0 < n -> total (blocks res) = n -> RP.whole (bytes (blocks res)) -> bytes (blocks res) ## live -> ledger r' (live ∪ bytes (blocks res)) ->
  0 <= t -> t + n <= VM.MAX_ADDRESS -> t `mod` CITRA_PAGE_SIZE = 0 -> (forall a, t <= a < t + n -> in_image a \/ in_heap a) ->
  all_free (VM.vma_map (vm s)) t (t + n) ->
  exists v m, map_heap fcram (blocks res) t perms state (set_region i r' s) = Done (Val tt, upd v m (set_region i r' s)) /\
    owned i (heap_done i r' res n v m s) r' (live ∪ bytes (blocks res)) /\
    committed s (heap_done i r' res n v m s) t n perms state (bytes (blocks res)).
Proof.
  intros Ho Hlay Hn Htot Hw Hdis Hled Ht Hend Hta Hin Hf.
  destruct (map_heap_numbers res n (bytes (blocks res)) eq_refl Htot Hw) as (Hpg & Hnum & Hsz).
  { intros x Hx. assert (x ∈ live ∪ bytes (blocks res)) as Hl by (apply elem_of_union; by right).
    rewrite (lg_live _ _ Hled) in Hl. apply elem_of_difference in Hl as [Hl%elem_of_range _]. injection Hlay as Hb' Hs' _. rewrite Hb', Hs' in Hl.
    pose proof (ro_base _ (lg_ok _ _ (ow_ledger _ _ _ _ _ _ Ho))). pose proof (ow_end _ _ _ _ _ _ Ho) as He. unfold linear_size in He. destruct (_ <? _); mlia. }
  destruct (map_heap_ok fcram buffers buffers_apart fcram_buffer fcram_pos (blocks res) Hpg (set_region i r' s) t state perms) as
    (v & m & E & Hok' & Hrm & Hm); [apply Ho|done|done|by rewrite Htot|by rewrite Htot|]. rewrite Htot in Hrm.
  exists v, m. split; [done|]. set (s' := heap_done i r' res n v m s).
  assert (held s' = held s ∪ bytes (blocks res)) as Hheld.
  { unfold held. cbn. apply set_eq. intros x. by rewrite elem_of_union, !elem_of_bytes, covers_union. }
  split.
  - eapply (grow fcram buffers i s r live s' r' (bytes (blocks res)) t n (RP.nth_byte (blocks res))); try done.
    + split; try done. cbn. apply list_lookup_insert_eq. eapply lookup_lt_Some, Ho.
    + intros a Ha. split; [unfold private; specialize (Hin a Ha); tauto|]. unfold host, GF.host_of. by rewrite (Hf a Ha).
    + intros a Ha Hl. exfalso. specialize (Hin a Ha). revert Hin Hl. unfold in_image, in_heap, in_linear, area, GetLinearHeapAreaAddress.
      pose proof (ro_base _ (lg_ok _ _ (ow_ledger _ _ _ _ _ _ Ho))). destruct (_ <? _); munfold; unfold PROCESS_IMAGE_VADDR, PROCESS_IMAGE_VADDR_END, PROCESS_IMAGE_MAX_SIZE, PROCESS_IMAGE_VADDR; lia.
  - split; try done.
    + intros a Ha. exists (RP.nth_byte (blocks res) (a - t)). pose proof (nb_in _ _ _ Hnum (a - t) ltac:(lia)). split_and!; [done| |].
      * by apply (rm_in _ _ _ _ _ _ _ Hrm).
      * change (memb s') with m. rewrite Hm, decide_True; [done|]. by replace (fcram + RP.nth_byte (blocks res) (a - t) - fcram) with (RP.nth_byte (blocks res) (a - t)) by lia.
    + intros a Ha. by apply (rm_out _ _ _ _ _ _ _ Hrm).
    + intros x Hx. change (memb s') with m. by rewrite Hm, decide_False.
Qed.

Lemma outside_spec t n lo hi : 0 <= t < 2 ^ 32 -> 0 <= n < 2 ^ 32 -> hi < 2 ^ 32 -> outside t n lo hi = false <-> lo <= t /\ t + n <= hi.
Proof.
  intros Ht Hn Hh. unfold outside. rewrite !orb_false_iff, !Z.ltb_ge. destruct (decide (t + n < 2 ^ 32)) as [Hs|Hs].
  - rewrite u32_small by lia. lia.
  - assert (u32 (t + n) = t + n - 2 ^ 32) as -> by (clear - Ht Hn Hs; zdm). lia.
Qed.

Lemma set_region_self i r s : regions (kernel s) !! i = Some r -> set_region i r s = s.
Proof. intros E. destruct s as [p [rs m c]]. unfold set_region, set_kernel. cbn in *. by rewrite (list_insert_id rs i r E). Qed.

(** What became of a request for [n] bytes. *)
Definition commit_outcome i s r live t n perms state (res : result_val Z) s' : Prop :=
  match res with
  | Err _ => exists r', s' = set_region i r' s /\ layout r' = layout r /\ owned i s' r' live
  | Val a => a = t /\ exists r' got, layout r' = layout r /\ got ## live /\ owned i s' r' (live ∪ got) /\ committed s s' t n perms state got
  end.

Lemma process_heap_allocate_ok i s r live t n perms state skip : owned i s r live -> 0 <= n < 2 ^ 32 -> n `mod` CITRA_PAGE_SIZE = 0 ->
  0 <= t < VM.MAX_ADDRESS -> t + n <= VM.MAX_ADDRESS -> t `mod` CITRA_PAGE_SIZE = 0 -> (forall a, t <= a < t + n -> in_image a \/ in_heap a) ->
  outside t n HEAP_VADDR HEAP_VADDR_END = false \/ skip = true ->
  exists res s', Proc.HeapAllocate fcram t n perms state skip s = Done (res, s') /\ commit_outcome i s r live t n perms state res s' /\
    (0 < n -> match res with
      | Err e => e = ResultInvalidAddressState /\ ~ all_free (VM.vma_map (vm s)) t (t + n) \/
                 e = ResultOutOfHeapMemory /\ all_free (VM.vma_map (vm s)) t (t + n) /\ Z.of_nat (base.size (free_bytes r)) < n
      | Val _ => all_free (VM.vma_map (vm s)) t (t + n)
      end).
Proof.
  intros Ho Hn Hna Ht Hend Hta Hin Hskip. assert (VM.MAX_ADDRESS < 2 ^ 32) by done. unfold Proc.HeapAllocate.
  assert (negb (outside t n HEAP_VADDR HEAP_VADDR_END) || skip = true) as -> by (destruct Hskip as [->| ->]; [done|apply orb_true_r]).
  rewrite unless_true. destruct (range_free_ok s t n (ow_vm _ _ _ _ _ _ Ho) Ht ltac:(lia) ltac:(lia)) as (b & E & Hb).
  rewrite (pm_step _ _ _ _ _ E). destruct b.
  2: { rewrite unless_false. eexists _, _. split; [done|]. split.
       - exists r. by rewrite (set_region_self i r s (ow_lookup _ _ _ _ _ _ Ho)).
       - intros Hpos. left. split; [done|]. intros Hf. by apply Hb in Hf. }
  rewrite unless_true, (pm_step _ _ _ _ _ (my_region_ok _ _ (ow_region _ _ _ _ _ _ Ho))).
  destruct (heap_taken i s r live n Ho Hn Hna) as (res & r' & E1 & Hlay & [(Hnil & Ho1 & Hfull)|(Hpos & Hne & Htot & Hw & Hdis & Hled)]);
    rewrite (pm_step _ _ _ _ _ E1).
  - rewrite bool_decide_eq_true_2 by done. simpl negb. rewrite unless_false. eexists _, _. split; [done|]. split; [by exists r'|].
    intros Hpos. right. split; [done|]. split; [by apply Hb|auto].
  - rewrite bool_decide_eq_false_2 by done. simpl negb. rewrite unless_true.
    destruct (heap_commit i s r live r' res t n perms state) as (v & m & E2 & Ho2 & Hc); try done; [lia|by apply Hb|].
    rewrite (pm_step _ _ _ _ _ E2). eexists _, _. split; [reflexivity|]. split; [|intros _; by apply Hb].
    split; [done|]. exists r', (bytes (blocks res)). by split_and!.
Qed.

(** ** The linear heap *)

Lemma whole_run o n : 0 < n -> RP.whole (range o n) -> o `mod` CITRA_PAGE_SIZE = 0.
Proof.
  intros Hn Hw. destruct (decide (o `mod` CITRA_PAGE_SIZE = 0)) as [|Hne]; [done|]. exfalso.
  assert (o - 1 ∈ range o n) as Hin; [|apply elem_of_range in Hin; lia].
  apply (Hw o); [|apply elem_of_range; lia]. unfold CITRA_PAGE_SIZE in *. Z.div_mod_to_equations. lia.
Qed.

(** Free pages of the region are not mapped in the linear heap. *)
Lemma host_none s a : vm_ok s -> 0 <= a < VM.MAX_ADDRESS -> host s a = None -> view (VM.vma_map (vm s)) a = Some free_cell.
Proof.
  intros [Hw _] Ha Hn. pose proof (wf_tiles _ _ (wf_vmas _ _ _ Hw)) as Ht. destruct (tiles_find _ _ _ a Ht Ha) as (l & v & r & Hm & Hi).
  unfold host, GF.host_of in Hn. rewrite Hm in Ht, Hn |- *. rewrite (view_in _ _ _ _ _ _ Ht Hi) in Hn |- *.
  destruct (VM.type v) eqn:Ety; [|unfold cell_at in Hn; by rewrite Ety in Hn]. f_equal. apply (good_free_cell buffers); [|done].
  apply (proj1 (Forall_forall _ _) (wf_good _ _ (wf_vmas _ _ _ Hw))). rewrite Hm. apply elem_of_app. right. left.
Qed.

Lemma linear_bounds i s r live o n : owned i s r live -> 0 < n -> range o n ⊆ free_bytes r ->
  base r <= o /\ o + n <= base r + size r /\ area s + o + n <= VM.MAX_ADDRESS /\ 0 <= o /\ o + n <= FCRAM_N3DS_SIZE /\ 0 < area s /\ area s `mod` CITRA_PAGE_SIZE = 0.
Proof.
  intros Ho Hn Hf. pose proof (ro_free _ (lg_ok _ _ (ow_ledger _ _ _ _ _ _ Ho))) as Hin. pose proof (ro_base _ (lg_ok _ _ (ow_ledger _ _ _ _ _ _ Ho))).
  assert (forall x, o <= x < o + n -> base r <= x < base r + size r) as Hb.
  { intros x Hx. apply Hin, elem_of_bytes, Hf, elem_of_range, Hx. }
  pose proof (Hb o ltac:(lia)). pose proof (Hb (o + n - 1) ltac:(lia)). pose proof (ow_end _ _ _ _ _ _ Ho) as He.
  assert (0 < area s /\ area s `mod` CITRA_PAGE_SIZE = 0 /\ linear_size s <= FCRAM_N3DS_SIZE /\ area s + linear_size s <= VM.MAX_ADDRESS) as (? & ? & ? & ?).
  { unfold area, linear_size, GetLinearHeapAreaAddress, VM.MAX_ADDRESS. by destruct (_ <? _). }
  split_and!; try done; lia.
Qed.

Lemma linear_free i s r live o n : owned i s r live -> 0 < n -> range o n ⊆ free_bytes r -> all_free (VM.vma_map (vm s)) (area s + o) (area s + o + n).
Proof.
  intros Ho Hn Hf a Ha. destruct (linear_bounds i s r live o n Ho Hn Hf) as (? & ? & ? & ? & ? & ? & ?).
  apply host_none; [apply Ho|lia|]. destruct (host s a) as [p|] eqn:Hp; [exfalso|done].
  assert (in_linear s r a) as Hl by (unfold in_linear; lia). pose proof (ow_linear _ _ _ _ _ _ Ho a p Hl Hp) as ->.
  destruct (ow_host _ _ _ _ _ _ Ho a _ ltac:(right; by right) Hp) as [Hh _]. apply (ow_held _ _ _ _ _ _ Ho) in Hh.
  replace (fcram + (a - area s) - fcram) with (a - area s) in Hh by lia. rewrite (lg_live _ _ (ow_ledger _ _ _ _ _ _ Ho)) in Hh.
  apply elem_of_difference in Hh as [_ Hh]. apply Hh, Hf, elem_of_range. lia.
Qed.

(** The state after a run of the linear heap was mapped. *)
Definition linear_done i r' o n v m s : st :=
  set_limit (Limit.Reserve Limit.Commit n (resource_limit (process s))).2
    (set_used (u32 (memory_used (process s) + n)) (set_holding (set_add (o, o + n) (holding_memory (process s))) (upd v m (set_region i r' s)))).

Lemma linear_commit i s r live o n perms : owned i s r live -> 0 < n -> n `mod` CITRA_PAGE_SIZE = 0 -> o `mod` CITRA_PAGE_SIZE = 0 -> range o n ⊆ free_bytes r ->
  let r' := take_interval (o, o + n) n r in let m := Guest.fill (fcram + o) n 0 (memb s) in
  exists v, map_at (area s + o) (MRef.Ref (Guest.fcram_mem fcram) o) n VM.StContinuous perms (upd (vm s) m (set_region i r' s)) =
      Done (Val tt, upd v m (set_region i r' s)) /\
    owned i (linear_done i r' o n v m s) r' (live ∪ range o n) /\ range o n ## live /\ committed s (linear_done i r' o n v m s) (area s + o) n perms VM.StContinuous (range o n).
Proof.
  intros Ho Hn Hna Hoa Hf r' m. destruct (linear_bounds i s r live o n Ho Hn Hf) as (Hb1 & Hb2 & Hb3 & Hb4 & Hb5 & Hb6 & Hb7).
  destruct (ledger_interval r live o n (ow_ledger _ _ _ _ _ _ Ho) ltac:(lia) Hf) as [Hled Hdis].
  destruct (map_at_ok buffers buffers_apart (upd (vm s) m (set_region i r' s)) (area s + o) (MRef.Ref (Guest.fcram_mem fcram) o) n VM.StContinuous perms)
    as (v & E & Hok & Hrm); [apply Ho|split; [lia|lia|lia|by apply aligned_sum|done]|by apply fcram_ref_backs|exact (linear_free i s r live o n Ho Hn Hf)|].
  exists v. split; [exact E|]. set (s' := linear_done i r' o n v m s).
  assert (held s' = held s ∪ range o n) as Hheld.
  { unfold held. change (holding_memory (process s')) with (set_add (o, o + n) (holding_memory (process s))).
    apply set_eq. intros x. rewrite elem_of_union, elem_of_range, !elem_of_bytes, covers_add. unfold inside. simpl. tauto. }
  split; [|split; [done|]].
  - eapply (grow fcram buffers i s r live s' r' (range o n) (area s + o) n (fun k => o + k)); try done.
    + split; try done. cbn. apply list_lookup_insert_eq. eapply lookup_lt_Some, Ho.
    + by apply RP.whole_range.
    + intros a Ha. split; [right; right; unfold in_linear; lia|]. unfold host, GF.host_of. by rewrite (linear_free i s r live o n Ho Hn Hf a Ha).
    + by apply aligned_sum.
    + split; [intros k Hk; apply elem_of_range; lia|lia| |]; [intros x Hx%elem_of_range; exists (x - o); lia|intros k Hk; by replace (o + k - k) with o by lia].
    + eapply remap_ext; [|exact Hrm]. intros k Hk. cbn. lia.
    + intros a Ha _. lia.
  - split; try done.
    + apply size_range. lia.
    + intros a Ha. exists (a - area s). split; [apply elem_of_range; lia|]. split.
      * change (vw (vm s')) with (vw v). rewrite (rm_in _ _ _ _ _ _ _ Hrm) by done. do 2 f_equal. cbn. lia.
      * change (memb s') with m. unfold m, Guest.fill. destruct (Z.leb_spec (fcram + o) (fcram + (a - area s))), (Z.ltb_spec (fcram + (a - area s)) (fcram + o + n)); [done|lia..].
    + intros a Ha. by apply (rm_out _ _ _ _ _ _ _ Hrm).
    + intros x Hx. change (memb s') with m. unfold m, Guest.fill. destruct (Z.leb_spec (fcram + o) x), (Z.ltb_spec x (fcram + o + n)); try done. destruct Hx. apply elem_of_range. lia.
Qed.

Lemma lift_ok {A} s (o : outcome A) a : o = Done a -> lift o s = Done (Val a, s).
Proof. by intros ->. Qed.

Lemma linear_heap_base i s r live : owned i s r live ->
  GetLinearHeapBase s = Done (Val (area s + base r), s) /\ GetLinearHeapLimit s = Done (Val (area s + base r + size r), s) /\
  0 < area s + base r /\ area s + base r + size r <= VM.MAX_ADDRESS.
Proof.
  intros Ho. pose proof (lg_ok _ _ (ow_ledger _ _ _ _ _ _ Ho)) as Hok. pose proof (ro_base _ Hok). pose proof (ro_size _ Hok).
  assert (0 < area s /\ area s + linear_size s <= VM.MAX_ADDRESS) as (? & ?).
  { unfold area, linear_size, GetLinearHeapAreaAddress, VM.MAX_ADDRESS. by destruct (_ <? _). }
  pose proof (ow_end _ _ _ _ _ _ Ho). assert (VM.MAX_ADDRESS < 2 ^ 32) by done.
  assert (of_opt FOutOfRange (regions (kernel s) !! i) = Done r) as Hlk by by rewrite (ow_lookup _ _ _ _ _ _ Ho).
  assert (GetLinearHeapBase s = Done (Val (area s + base r), s)) as E.
  { unfold GetLinearHeapBase. rewrite (pm_step get _ s s s eq_refl), (pm_step _ _ _ _ _ (my_region_ok _ _ (ow_region _ _ _ _ _ _ Ho))).
    rewrite (pm_step _ _ _ _ _ (lift_ok s _ _ Hlk)). unfold mret, pm_ret. fold (area s). by rewrite u32_small by lia. }
  split_and!; [done| |lia|lia]. unfold GetLinearHeapLimit. rewrite (pm_step get _ s s s eq_refl), (pm_step _ _ _ _ _ (my_region_ok _ _ (ow_region _ _ _ _ _ _ Ho))).
  rewrite (pm_step _ _ _ _ _ (lift_ok s _ _ Hlk)), (pm_step _ _ _ _ _ E). unfold mret, pm_ret. by rewrite u32_small by lia.
Qed.

(** The place [LinearAllocate] finds: the run asked for, or the lowest one. *)
Lemma linear_place_ok i s r live t n : owned i s r live -> 0 < n < 2 ^ 32 -> n `mod` CITRA_PAGE_SIZE = 0 -> 0 <= t < 2 ^ 32 -> t `mod` CITRA_PAGE_SIZE = 0 ->
  (exists o, linear_place t n s = Done (Val (area s + o, o), set_region i (take_interval (o, o + n) n r) s) /\
     range o n ⊆ free_bytes r /\ o `mod` CITRA_PAGE_SIZE = 0 /\ (t ≠ 0 -> t = area s + o) /\ (t = 0 -> forall x, range x n ⊆ free_bytes r -> o <= x)) \/
  exists e, linear_place t n s = Done (Err e, s) /\
    (e = ResultOutOfHeapMemory /\ t = 0 /\ (forall o, ~ range o n ⊆ free_bytes r) \/
     e = ResultInvalidAddress /\ t ≠ 0 /\ ~ (area s + base r <= t /\ t + n <= area s + base r + size r) \/
     e = ResultInvalidAddressState /\ t ≠ 0 /\ ~ range (t - area s) n ⊆ free_bytes r).
Proof.
  intros Ho Hn Hna Ht Hta. pose proof (ow_ledger _ _ _ _ _ _ Ho) as Hled. pose proof (lg_ok _ _ Hled) as Hok. pose proof (ow_lookup _ _ _ _ _ _ Ho) as Hlk.
  unfold linear_place. rewrite (pm_step get _ _ _ _ eq_refl). destruct (Z.eqb_spec t 0) as [E0|E0].
  - rewrite (pm_step _ _ _ _ _ (my_region_ok _ _ (ow_region _ _ _ _ _ _ Ho))).
    destruct (LinearAllocate_ok r n Hok ltac:(lia)) as ([o|] & r' & E & Hres); rewrite (pm_step _ _ _ _ _ (in_region_ok _ _ _ r _ r' Hlk E)).
    + left. destruct Hres as (-> & Hf & Hlow). exists o. destruct (linear_bounds i s r live o n Ho ltac:(lia) Hf) as (? & ? & ? & ? & ? & ? & ?).
      assert (VM.MAX_ADDRESS < 2 ^ 32) by done. fold (area s). rewrite u32_small by lia. split_and!; [by rewrite Z.add_comm|done| |done|intros _; apply Hlow; lia].
      destruct (ledger_interval r live o n Hled ltac:(lia) Hf) as [_ Hdis].
      assert (RT.serve (RT.RLinear n) (r, live) = Done (take_interval (o, o + n) n r, live ∪ range o n)) as Es by (unfold RT.serve; by rewrite E).
      pose proof (RP.serve_whole (RT.RLinear n) r live _ _ Hled (ow_paged _ _ _ _ _ _ Ho) ltac:(simpl; lia) Hna Es) as Hw.
      apply (whole_run o n); [lia|]. replace (range o n) with ((live ∪ range o n) ∖ live)
        by (rewrite difference_union_distr_l_L, difference_diag_L, union_empty_l_L; by apply difference_disjoint_L).
      apply RP.whole_difference; [done|apply Ho].
    + right. destruct Hres as [-> Hno]. exists ResultOutOfHeapMemory. rewrite (set_region_self i r s Hlk). split; [done|]. left. split_and!; [done|done|]. apply Hno. lia.
  - destruct (linear_heap_base i s r live Ho) as (E1 & E2 & Hpos & Hend). rewrite (pm_step _ _ _ _ _ E1), (pm_step _ _ _ _ _ E2).
    assert (VM.MAX_ADDRESS < 2 ^ 32) by done. destruct (outside t n (area s + base r) (area s + base r + size r)) eqn:Eo; simpl negb.
    + rewrite unless_false. right. eexists. split; [done|]. right. left. split_and!; [done|done|]. intros Hin%outside_spec; [congruence|lia..].
    + apply outside_spec in Eo; [|lia..]. rewrite unless_true, (pm_step _ _ _ _ _ (my_region_ok _ _ (ow_region _ _ _ _ _ _ Ho))). fold (area s).
      pose proof (ro_base _ Hok). pose proof (ro_end _ Hok). assert (0 <= area s) by (unfold area, GetLinearHeapAreaAddress; by destruct (_ <? _)).
      rewrite (u32_small (t - area s)) by lia. unfold LinearAllocateAt.
      assert (LinearAllocateAt (t - area s) n r = Done (if set_contains (t - area s, t - area s + n) (free_blocks r) then (true, take_interval (t - area s, t - area s + n) n r) else (false, r))) as E.
      { unfold LinearAllocateAt. rewrite (ro_unlocked _ Hok). cbn [negb assert_ mbind outcome_bind]. by rewrite u32_small by lia. }
      destruct (set_contains _ _) eqn:Ec; rewrite (pm_step _ _ _ _ _ (in_region_ok _ _ _ r _ _ Hlk E)).
      * rewrite unless_true. left. exists (t - area s). replace (area s + (t - area s)) with t by lia. split_and!; [done|by apply RT.contains_range| |done|done].
        apply aligned_diff; [done|]. unfold area, GetLinearHeapAreaAddress. by destruct (_ <? _).
      * rewrite unless_false. right. exists ResultInvalidAddressState. rewrite (set_region_self i r s Hlk). split; [done|]. right. right. split_and!; [done|done|].
        intros Hc%RT.contains_range. congruence.
Qed.

Lemma zero_host_ok p n s : zero_host p n s = Done (Val tt, upd (vm s) (Guest.fill p n 0 (memb s)) s).
Proof. by destruct s as [[] []]. Qed.

Lemma linear_allocate_ok i s r live t n perms : owned i s r live -> 0 < n < 2 ^ 32 -> n `mod` CITRA_PAGE_SIZE = 0 -> 0 <= t < 2 ^ 32 -> t `mod` CITRA_PAGE_SIZE = 0 ->
  exists res s', Proc.LinearAllocate fcram t n perms s = Done (res, s') /\
  match res with
  | Val a => exists o r', a = area s + o /\ (t ≠ 0 -> t = a) /\ (t = 0 -> forall x, range x n ⊆ free_bytes r -> o <= x) /\ layout r' = layout r /\ range o n ⊆ free_bytes r /\ range o n ## live /\
      owned i s' r' (live ∪ range o n) /\ committed s s' a n perms VM.StContinuous (range o n)
  | Err e => s' = s /\
    (e = ResultOutOfHeapMemory /\ t = 0 /\ (forall o, ~ range o n ⊆ free_bytes r) \/
     e = ResultInvalidAddress /\ t ≠ 0 /\ ~ (area s + base r <= t /\ t + n <= area s + base r + size r) \/
     e = ResultInvalidAddressState /\ t ≠ 0 /\ ~ range (t - area s) n ⊆ free_bytes r)
  end.
Proof.
  intros Ho Hn Hna Ht Hta. unfold Proc.LinearAllocate. destruct (linear_place_ok i s r live t n Ho Hn Hna Ht Hta) as [(o & E & Hf & Hoa & Hto & Hlow)|(e & E & He)].
  2: { rewrite (pm_fail _ _ _ _ _ E). eexists _, _. split; [done|]. done. }
  rewrite (pm_step _ _ _ _ _ E). destruct (linear_bounds i s r live o n Ho ltac:(lia) Hf) as (? & ? & ? & ? & ? & ? & ?).
  rewrite (pm_step _ _ _ _ _ (lift_ok _ _ _ (GetFCRAMRef_ok fcram o ltac:(lia)))).
  destruct (linear_commit i s r live o n perms Ho ltac:(lia) Hna Hoa Hf) as (v & E2 & Ho2 & Hdis & Hc).
  rewrite (pm_step _ _ _ _ _ (zero_host_ok _ _ _)).
  rewrite (pm_step _ _ _ _ _ E2). assert (VM.MAX_ADDRESS < 2 ^ 32) by done. rewrite (u32_small (o + n)) by lia.
  eexists _, _. split; [reflexivity|]. exists o, (take_interval (o, o + n) n r). by split_and!.
Qed.

(** ** Free *)

(** What freeing [n] bytes at [t] does: the range becomes free, the bytes [old] that
    backed it are no longer held, nothing else changes and the counters shrink. *)
Record freed s s' t n old : Prop := {
  fd_cells : forall a, vw (vm s') a = if decide (t <= a < t + n) then Some free_cell else vw (vm s) a;
  fd_old : forall o, o ∈ old <-> exists a, t <= a < t + n /\ host s a = Some (fcram + o);
  fd_held : held s' = held s ∖ old;
  fd_memory : memb s' = memb s;
  fd_used : memory_used (process s') = u32 (memory_used (process s) - n);
  fd_limit : resource_limit (process s') = (Limit.Release Limit.Commit n (resource_limit (process s))).2;
}.

Lemma free_run r live o n : ledger r live -> 0 <= o -> 0 <= n -> o + n < 2 ^ 32 -> range o n ⊆ live ->
  exists r', Region.Free o n r = Done r' /\ ledger r' (live ∖ range o n) /\ layout r' = layout r.
Proof.
  intros Hl Hn Ho He Hs. destruct (RT.serve_ok (RT.RFree o n) r live Hl) as (r' & live' & E & Hl' & Hlay); [by split_and!|].
  unfold RT.serve in E. destruct (Free o n r) as [r1|]; [|done]. injection E as <- <-. by exists r1.
Qed.

Lemma mapped_host s a : all_mapped (VM.vma_map (vm s)) a (a + 1) -> is_Some (host s a).
Proof. intros Hm. destruct (Hm a ltac:(lia)) as ([ty p st x] & Hc & Hty). unfold host, GF.host_of. rewrite Hc. simpl in Hty. subst. by eexists. Qed.

Lemma try_ok f s v v' : f (vm s) = Done (ResultSuccess, v) -> v' = v -> try_ f s = Done (Val tt, set_vm v' s).
Proof. intros E ->. unfold try_. fold (vm s). rewrite E. done. Qed.

Definition linear_freed i r' o n v s : st :=
  set_limit (Limit.Release Limit.Commit n (resource_limit (process s))).2
    (set_used (u32 (memory_used (process s) - n)) (set_holding (set_sub (o, o + n) (holding_memory (process s))) (set_region i r' (set_vm v s)))).

Lemma linear_free_ok i s r live t n : owned i s r live -> 0 < n < 2 ^ 32 -> n `mod` CITRA_PAGE_SIZE = 0 -> 0 <= t < 2 ^ 32 -> t `mod` CITRA_PAGE_SIZE = 0 ->
  exists res s', Proc.LinearFree t n s = Done (res, s') /\
  match res with
  | Val _ => (forall a, t <= a < t + n -> private s r a /\ is_Some (host s a)) /\
      exists r' old, layout r' = layout r /\ old ⊆ held s /\ owned i s' r' (live ∖ old) /\ freed s s' t n old
  | Err e => s' = s /\
    (e = ResultInvalidAddress /\ ~ (area s + base r <= t /\ t + n <= area s + base r + size r) \/
     e = ResultInvalidAddressState /\ ~ all_mapped (VM.vma_map (vm s)) t (t + n))
  end.
Proof.
  intros Ho Hn Hna Ht Hta. unfold Proc.LinearFree. destruct (linear_heap_base i s r live Ho) as (E1 & E2 & Hpos & Hend).
  rewrite (pm_step _ _ _ _ _ E1), (pm_step _ _ _ _ _ E2). assert (VM.MAX_ADDRESS < 2 ^ 32) by done.
  destruct (outside t n (area s + base r) (area s + base r + size r)) eqn:Eo; simpl negb.
  { rewrite unless_false. eexists _, _. split; [done|]. split; [done|]. left. split; [done|]. intros Hin%outside_spec; [congruence|lia..]. }
  apply outside_spec in Eo as [Hlo Hhi]; [|lia..]. rewrite unless_true. destruct (Z.eqb_spec n 0); [lia|].
  rewrite (pm_step get _ _ _ _ eq_refl). destruct (ow_vm _ _ _ _ _ _ Ho) as [Hw Hl].
  destruct (VMT.UnmapRange_ok (IsC s) buffers buffers_apart (vm s) t n Hw Hl) as [(Hm & v & E & Hw' & Hl' & Hv)|(Hm & E)]; [by split; try lia| |].
  2: { rewrite (pm_fail _ _ s ResultInvalidAddressState s). 2: { unfold try_. fold (vm s). rewrite E. cbn [mbind outcome_bind]. by destruct s as [[] ?]. }
       eexists _, _. split; [done|]. split; [done|]. by right. }
  rewrite (pm_step _ _ _ tt (set_vm v s)) by (by eapply try_ok).
  rewrite (pm_step _ _ _ _ _ (my_region_ok (set_vm v s) _ (ow_region _ _ _ _ _ _ Ho))). fold (area s).
  pose proof (ow_ledger _ _ _ _ _ _ Ho) as Hled. pose proof (ro_base _ (lg_ok _ _ Hled)). pose proof (ro_end _ (lg_ok _ _ Hled)).
  set (o := t - area s). rewrite (u32_small o), (u32_small (o + n)) by (unfold o; lia).
  assert (forall a, t <= a < t + n -> in_linear s r a /\ host s a = Some (fcram + (a - area s)) /\ a - area s ∈ held s) as Hin.
  { intros a Ha. assert (in_linear s r a) as Hla by (unfold in_linear; lia). destruct (mapped_host s a) as [p Hp]; [intros x Hx; apply Hm; lia|].
    pose proof (ow_linear _ _ _ _ _ _ Ho a p Hla Hp) as ->. destruct (ow_host _ _ _ _ _ _ Ho a _ ltac:(right; by right) Hp) as [Hh _].
    split_and!; try done. by replace (a - area s) with (fcram + (a - area s) - fcram) by lia. }
  assert (range o n ⊆ held s) as Hheld by (intros x Hx%elem_of_range; unfold o in Hx; replace x with (area s + x - area s) by lia; apply Hin; lia).
  destruct (free_run r live o n Hled) as (r' & E3 & Hled' & Hlay); [unfold o; lia|lia|unfold o; lia|etrans; [exact Hheld|apply Ho]|].
  rewrite (pm_step _ _ _ _ _ (free_in_ok i o n (set_vm v s) r r' (ow_lookup _ _ _ _ _ _ Ho) E3)).
  eexists _, (linear_freed i r' o n v s). split; [reflexivity|]. set (s' := linear_freed i r' o n v s).
  assert (held s' = held s ∖ range o n) as Hheld'.
  { unfold held. change (holding_memory (process s')) with (set_sub (o, o + n) (holding_memory (process s))).
    apply set_eq. intros x. rewrite elem_of_difference, elem_of_range, !elem_of_bytes, covers_sub. unfold inside. simpl. tauto. }
  assert (forall x, x ∈ range o n <-> exists a, t <= a < t + n /\ host s a = Some (fcram + x)) as Hold.
  { intros x. rewrite elem_of_range. split.
    - intros Hx. exists (area s + x). unfold o in Hx. destruct (Hin (area s + x) ltac:(lia)) as (_ & -> & _). split; [lia|]. f_equal. lia.
    - intros (a & Ha & Hp). destruct (Hin a Ha) as (_ & Hp' & _). rewrite Hp' in Hp. injection Hp. unfold o. lia. }
  split; [intros a Ha; destruct (Hin a Ha) as (? & -> & _); split; [by right; right|by eexists]|].
  exists r', (range o n). split; [done|]. split; [done|]. split; [|by split].
  eapply (shrink fcram buffers i s r live s' r' (range o n) t n); try done; [|lia|].
  - split; try done. cbn. apply list_lookup_insert_eq. eapply lookup_lt_Some, Ho.
  - intros a Ha. right. right. by apply Hin.
Qed.

(** The FCRAM behind a list of blocks, and the condition under which [HeapFree] can free them one by one. *)
Fixpoint block_set (bl : list (MRef.t * Z)) : gset Z :=
  match bl with [] => ∅ | (m, sz) :: bl => range (MRef.GetPtr m - fcram) sz ∪ block_set bl end.
Fixpoint freeable live (bl : list (MRef.t * Z)) : Prop :=
  match bl with
  | [] => True
  | (m, sz) :: bl => let o := MRef.GetPtr m - fcram in
      0 < sz /\ 0 <= o /\ o + sz <= FCRAM_N3DS_SIZE /\ range o sz ⊆ live /\ range o sz ## block_set bl /\ freeable live bl
  end.

Lemma freeable_minus live (Y : gset Z) bl : freeable live bl -> Y ## block_set bl -> freeable (live ∖ Y) bl.
Proof.
  induction bl as [|[m sz] bl IH]; simpl; [done|]. intros (? & ? & ? & Hl & ? & ?) Hd. apply disjoint_union_r in Hd as [Hd1 Hd2].
  split_and!; try done; [|by apply IH]. intros x Hx. apply elem_of_difference. split; [by apply Hl|]. intros Hy. by apply (Hd1 x).
Qed.

Lemma free_blocks_ok i bl : forall s r live, freeable live bl -> regions (kernel s) !! i = Some r -> ledger r live ->
  exists r' h, Proc.free_blocks fcram i bl s = Done (Val tt, set_holding h (set_region i r' s)) /\ layout r' = layout r /\
    ledger r' (live ∖ block_set bl) /\ bytes (blocks h) = held s ∖ block_set bl.
Proof.
  assert (FCRAM_N3DS_SIZE < 2 ^ 32) by mlia.
  induction bl as [|[m sz] bl IH]; intros s r live Hf Hlk Hled.
  - exists r, (holding_memory (process s)). rewrite (set_region_self i r s Hlk). simpl. rewrite !difference_empty_L. split_and!; try done. by destruct s as [[] ?].
  - destruct Hf as (Hsz & Ho & Hend & Hl & Hd & Hf). set (o := MRef.GetPtr m - fcram) in *. cbn [Proc.free_blocks].
    assert (Guest.GetFCRAMOffset fcram (MRef.GetPtr m) = Done o) as E.
    { unfold Guest.GetFCRAMOffset. destruct (Z.leb_spec fcram (MRef.GetPtr m)), (Z.leb_spec (MRef.GetPtr m) (fcram + FCRAM_N3DS_SIZE)); try lia.
      cbn [andb assert_ mbind outcome_bind]. fold o. by rewrite u32_small by lia. }
    rewrite (pm_step _ _ _ _ _ (lift_ok s _ _ E)). destruct (free_run r live o sz Hled Ho ltac:(lia) ltac:(lia) Hl) as (r1 & E1 & Hled1 & Hlay1).
    rewrite (pm_step _ _ _ _ _ (free_in_ok i o sz s r r1 Hlk E1)). rewrite u32_small by lia.
    set (s1 := set_holding (set_sub (o, o + sz) (holding_memory (process s))) (set_region i r1 s)).
    rewrite (pm_step (unhold (o, o + sz)) _ _ tt s1 eq_refl).
    destruct (IH s1 r1 (live ∖ range o sz)) as (r2 & h & E2 & Hlay2 & Hled2 & Hh); [by apply freeable_minus|cbn; apply list_lookup_insert_eq; by eapply lookup_lt_Some|done|].
    exists r2, h. rewrite E2. split_and!; [|congruence| |].
    + do 2 f_equal. unfold s1, set_holding, set_region, set_kernel. cbn. by rewrite list_insert_insert_eq.
    + cbn [block_set]. fold o. by rewrite <- difference_difference_l_L.
    + rewrite Hh. cbn [block_set]. fold o. rewrite <- difference_difference_l_L. f_equal. unfold held. change (holding_memory (process s1)) with (set_sub (o, o + sz) (holding_memory (process s))).
      apply set_eq. intros x. rewrite elem_of_difference, elem_of_range, !elem_of_bytes, covers_sub. unfold inside. simpl. tauto.
Qed.

(** The blocks of a range whose addresses have bytes of their own. *)
Lemma blocks_freeable s live bl : (forall x, x ∈ live -> 0 <= x < FCRAM_N3DS_SIZE) -> forall t n, VMT.sized bl n ->
  (forall a, t <= a < t + n -> exists o, host s a = Some (fcram + o) /\ VMT.block_ptr bl (a - t) = Some (fcram + o) /\ o ∈ live) ->
  (forall a a' p, t <= a < t + n -> t <= a' < t + n -> host s a = Some p -> host s a' = Some p -> a = a') ->
  freeable live bl /\ forall o, o ∈ block_set bl <-> exists a, t <= a < t + n /\ host s a = Some (fcram + o).
Proof.
  intros Hb. induction bl as [|[m sz] bl IH]; intros t n [Hpos Hsum] Hin Hinj; cbn [freeable block_set].
  - simpl in Hsum. split; [done|]. intros o. split; [by intros ?%elem_of_empty|intros (a & ? & _); lia].
  - apply Forall_cons in Hpos as [Hsz Hpos]. simpl in Hsz, Hsum. set (o := MRef.GetPtr m - fcram).
    assert (0 <= VMT.blocks_size bl) as Hge. { clear - Hpos. induction Hpos as [|[] ? ?]; simpl in *; lia. }
    assert (forall k, 0 <= k < sz -> host s (t + k) = Some (fcram + (o + k)) /\ o + k ∈ live) as Hfirst.
    { intros k Hk. destruct (Hin (t + k) ltac:(lia)) as (x & Hx & Hp & Hl). simpl in Hp. replace (t + k - t) with k in Hp by lia.
      destruct (Z.ltb_spec k sz); [|lia]. assert (x = o + k) as -> by (injection Hp; unfold o; lia). done. }
    destruct (IH (t + sz) (n - sz)) as [Hf Hset].
    + by split; [|lia].
    + intros a Ha. destruct (Hin a ltac:(lia)) as (x & Hx & Hp & Hl). exists x. split_and!; try done. simpl in Hp.
      destruct (Z.ltb_spec (a - t) sz); [lia|]. by replace (a - (t + sz)) with (a - t - sz) by lia.
    + intros a a' p Ha Ha' Hp Hp'. apply (Hinj a a' p); [lia|lia|done|done].
    + pose proof (Hb _ (proj2 (Hfirst 0 ltac:(lia)))). pose proof (Hb _ (proj2 (Hfirst (sz - 1) ltac:(lia)))). split.
      * split_and!; try done; try lia.
        -- intros x Hx%elem_of_range. replace x with (o + (x - o)) by lia. apply Hfirst. lia.
        -- intros x Hx%elem_of_range (a & Ha & Hp)%Hset. destruct (Hfirst (x - o) ltac:(lia)) as [Hp' _]. replace (o + (x - o)) with x in Hp' by lia.
           assert (a = t + (x - o)); [|lia]. apply (Hinj _ _ (fcram + x)); [lia|lia|done|done].
      * intros x. rewrite elem_of_union, elem_of_range, Hset. split.
        -- intros [Hx|(a & Ha & Hp)]; [|exists a; split; [lia|done]]. exists (t + (x - o)). split; [lia|].
           destruct (Hfirst (x - o) ltac:(lia)) as [-> _]. f_equal. lia.
        -- intros (a & Ha & Hp). destruct (decide (a < t + sz)) as [Hlt|Hlt]; [left|right; exists a; split; [lia|done]].
           destruct (Hfirst (a - t) ltac:(lia)) as [Hp' _]. replace (t + (a - t)) with a in Hp' by lia. rewrite Hp in Hp'. injection Hp'. lia.
Qed.

Definition heap_freed i r' h n v s : st :=
  set_limit (Limit.Release Limit.Commit n (resource_limit (process s))).2
    (set_used (u32 (memory_used (process s) - n)) (set_vm v (set_holding h (set_region i r' s)))).

Lemma heap_blocks_free i s r live t n bl : owned i s r live -> 0 < n -> all_mapped (VM.vma_map (vm s)) t (t + n) ->
  (forall a, t <= a < t + n -> in_heap a) -> VMT.sized bl n ->
  (forall a, t <= a < t + n -> VMT.block_ptr bl (a - t) = c_ptr <$> view (VM.vma_map (vm s)) a) ->
  freeable live bl /\ block_set bl ⊆ held s /\ forall o, o ∈ block_set bl <-> exists a, t <= a < t + n /\ host s a = Some (fcram + o).
Proof.
  intros Ho Hn Hm Hh Hsz Hp.
  assert (forall a, t <= a < t + n -> exists o, host s a = Some (fcram + o) /\ VMT.block_ptr bl (a - t) = Some (fcram + o) /\ o ∈ held s) as Hin.
  { intros a Ha. destruct (mapped_host s a) as [p Hpa]; [intros x Hx; apply Hm; lia|].
    destruct (ow_host _ _ _ _ _ _ Ho a p ltac:(right; left; by apply Hh) Hpa) as [Hx _]. exists (p - fcram).
    replace (fcram + (p - fcram)) with p by lia. split_and!; try done. rewrite Hp by done. unfold host, GF.host_of in Hpa.
    destruct (view _ a) as [[[] ? ? x]|]; [done| |done]. injection Hpa as <-. done. }
  destruct (blocks_freeable s live bl (fun x => live_bounds i s r live x Ho) t n Hsz) as [Hf Hset].
  - intros a Ha. destruct (Hin a Ha) as (o & H2 & H3 & H4). exists o. split_and!; try done. by apply (ow_held _ _ _ _ _ _ Ho).
  - intros a a' p Ha Ha' Hpa Hpa'. by apply (ow_inj _ _ _ _ _ _ Ho a a' p); [right; left; apply Hh|right; left; apply Hh|..].
  - split_and!; try done. intros o (a & Ha & Hpa)%Hset. destruct (Hin a Ha) as (o' & Hpa' & _ & Hx). rewrite Hpa in Hpa'. injection Hpa' as E.
    by replace o with o' by lia.
Qed.

Lemma heap_free_ok i s r live t n : owned i s r live -> 0 < n < 2 ^ 32 -> n `mod` CITRA_PAGE_SIZE = 0 -> 0 <= t < 2 ^ 32 -> t `mod` CITRA_PAGE_SIZE = 0 ->
  exists res s', Proc.HeapFree fcram t n s = Done (res, s') /\
  match res with
  | Val _ => (forall a, t <= a < t + n -> private s r a /\ is_Some (host s a)) /\
      exists r' old, layout r' = layout r /\ old ⊆ held s /\ owned i s' r' (live ∖ old) /\ freed s s' t n old
  | Err e => s' = s /\
    (e = ResultInvalidAddress /\ ~ (HEAP_VADDR <= t /\ t + n <= HEAP_VADDR_END) \/
     e = ResultInvalidAddressState /\ ~ all_mapped (VM.vma_map (vm s)) t (t + n))
  end.
Proof.
  intros Ho Hn Hna Ht Hta. unfold Proc.HeapFree. assert (VM.MAX_ADDRESS < 2 ^ 32) by done. assert (HEAP_VADDR_END <= VM.MAX_ADDRESS) by done.
  destruct (outside t n HEAP_VADDR HEAP_VADDR_END) eqn:Eo; simpl negb.
  { rewrite unless_false. eexists _, _. split; [done|]. split; [done|]. left. split; [done|]. intros Hin%outside_spec; [congruence|lia..]. }
  apply outside_spec in Eo as [Hlo Hhi]; [|lia..]. rewrite unless_true. destruct (Z.eqb_spec n 0); [lia|].
  assert (VMT.page_range t n) as Hpr by (split; try done; lia). destruct (ow_vm _ _ _ _ _ _ Ho) as [Hw Hl].
  destruct (VMT.GetBackingBlocksForRange_ok (IsC s) buffers (vm s) t n Hw Hpr) as [(Hm & bl & E & Hsz & Hbp)|(Hm & E)].
  2: { rewrite (pm_fail _ _ s ResultInvalidAddressState s) by (unfold backing_blocks; fold (vm s); by rewrite E).
       eexists _, _. split; [done|]. split; [done|]. by right. }
  rewrite (pm_step (backing_blocks t n) _ s bl s) by (unfold backing_blocks; fold (vm s); by rewrite E).
  rewrite (pm_step _ _ _ _ _ (my_region_ok s _ (ow_region _ _ _ _ _ _ Ho))).
  destruct (heap_blocks_free i s r live t n bl Ho ltac:(lia) Hm ltac:(intros a Ha; unfold in_heap; lia) Hsz Hbp) as (Hf & Hheld & Hold).
  destruct (free_blocks_ok i bl s r live Hf (ow_lookup _ _ _ _ _ _ Ho) (ow_ledger _ _ _ _ _ _ Ho)) as (r' & h & E1 & Hlay & Hled & Hh).
  rewrite (pm_step _ _ _ _ _ E1).
  destruct (VMT.UnmapRange_ok (IsC s) buffers buffers_apart (vm s) t n Hw Hl Hpr) as [(_ & v & E2 & Hw' & Hl' & Hv)|(Hno & _)]; [|done].
  rewrite (pm_step _ _ (set_holding h (set_region i r' s)) tt (set_vm v (set_holding h (set_region i r' s)))).
  2: { change (vm_manager (process (set_holding h (set_region i r' s)))) with (vm s). change (IsC (set_holding h (set_region i r' s))) with (IsC s). by rewrite E2. }
  eexists _, (heap_freed i r' h n v s). split; [reflexivity|]. set (s' := heap_freed i r' h n v s).
  split; [intros a Ha; split; [right; left; unfold in_heap; lia|apply mapped_host; intros x Hx; apply Hm; lia]|].
  exists r', (block_set bl). split; [done|]. split; [done|]. split; [|by split].
  eapply (shrink fcram buffers i s r live s' r' (block_set bl) t n); try done; [|lia|].
  - split; try done. cbn. apply list_lookup_insert_eq. eapply lookup_lt_Some, Ho.
  - intros a Ha. right. left. unfold in_heap. lia.
Qed.

(** ** Accounts *)

Lemma bijection_size (h : Z -> option Z) t n (X : gset Z) : 0 <= n -> (forall o, o ∈ X <-> exists a, t <= a < t + n /\ h a = Some (fcram + o)) ->
  (forall a, t <= a < t + n -> is_Some (h a)) -> (forall a a' p, t <= a < t + n -> t <= a' < t + n -> h a = Some p -> h a' = Some p -> a = a') ->
  Z.of_nat (base.size X) = n.
Proof.
  intros Hn HX Hs Hi. assert (X = list_to_set ((fun a => default 0 (h a) - fcram) <$> seqZ t n)) as ->.
  { apply set_eq. intros o. rewrite HX, elem_of_list_to_set, list_elem_of_fmap. split.
    - intros (a & Ha & E). exists a. rewrite E. unfold default, from_option, id.  split; [lia|by apply elem_of_seqZ].
    - intros (a & -> & Ha%elem_of_seqZ). exists a. split; [done|]. destruct (Hs a Ha) as [p E]. rewrite E. unfold default, from_option, id.  f_equal. lia. }
  rewrite size_list_to_set; [rewrite length_fmap, length_seqZ; lia|]. apply NoDup_fmap_2_strong; [|apply NoDup_seqZ].
  intros a a' Ha%elem_of_seqZ Ha'%elem_of_seqZ E. destruct (Hs a Ha) as [p Ep], (Hs a' Ha') as [p' Ep']. rewrite Ep, Ep' in E. unfold default, from_option, id in E. 
  apply (Hi a a' p); try done. rewrite Ep'. f_equal. lia.
Qed.

(** What the counters say beyond the memory held on the heaps: thread local storage and shared memory. *)
Definition other_used s : Z := u32 (memory_used (process s) - Z.of_nat (base.size (held s))).
Definition other_commit s : Z := s32 (Limit.current_values (resource_limit (process s)) Limit.Commit - Z.of_nat (base.size (held s))).

Lemma u32_cancel a b c d : d = b + c -> u32 (u32 (a + c) - d) = u32 (a - b).
Proof. intros ->. unfold u32, wrap. rewrite Zminus_mod_idemp_l. f_equal. lia. Qed.
Lemma s32_cancel a b c d : d = b + c -> s32 (s32 (a + c) - d) = s32 (a - b).
Proof. intros ->. unfold s32, swrap. change (2 ^ 32) with 4294967296. change (2 ^ (32 - 1)) with 2147483648. Z.div_mod_to_equations. lia. Qed.

Lemma committed_accounts s s' t n perms state got : committed s s' t n perms state got -> got ## held s ->
  other_used s' = other_used s /\ other_commit s' = other_commit s.
Proof.
  intros [Hsz _ _ _ Hh Hu Hl] Hd. unfold other_used, other_commit. rewrite Hh, Hu, Hl, size_union by done. split; [apply u32_cancel; lia|].
  unfold Limit.Reserve. cbn [snd Limit.current_values]. rewrite Limit.upd_same. apply s32_cancel. lia.
Qed.

Lemma freed_accounts s s' t n old : freed s s' t n old -> old ⊆ held s -> Z.of_nat (base.size old) = n ->
  other_used s' = other_used s /\ other_commit s' = other_commit s.
Proof.
  intros [_ _ Hh _ Hu Hl] Hs Hsz. unfold other_used, other_commit. rewrite Hh, Hu, Hl, size_difference by done.
  pose proof (subseteq_size _ _ Hs). replace (memory_used (process s) - n) with (memory_used (process s) + - n) by lia. split; [apply u32_cancel; lia|].
  unfold Limit.Release. cbn [snd Limit.current_values]. rewrite Limit.upd_same.
  replace (Limit.current_values (resource_limit (process s)) Limit.Commit - n) with (Limit.current_values (resource_limit (process s)) Limit.Commit + - n) by lia.
  apply s32_cancel. lia.
Qed.

Lemma freed_size i s r live s' t n old : owned i s r live -> 0 <= n -> (forall a, t <= a < t + n -> private s r a /\ is_Some (host s a)) -> freed s s' t n old ->
  Z.of_nat (base.size old) = n.
Proof.
  intros Ho Hn Hp Hf. apply (bijection_size (host s) t n old Hn (fd_old _ _ _ _ _ Hf)); [intros a Ha; by apply Hp|].
  intros a a' p Ha Ha' E E'. apply (ow_inj _ _ _ _ _ _ Ho a a' p); [by apply Hp|by apply Hp|done|done].
Qed.

(** Changing permissions does not move memory. *)
Lemma owned_vm i s r live v : owned i s r live -> vm_ok (set_vm v s) -> (forall a, host (set_vm v s) a = host s a) -> owned i (set_vm v s) r live.
Proof.
  intros [Hok Hr Hlk Hl Hp He Hh Hho Hli Hin Hon] Hok' E. split; try done.
  - intros a p Ha. rewrite E. by apply Hho.
  - intros a p Ha. rewrite E. by apply Hli.
  - intros a a' p Ha Ha'. rewrite !E. by apply Hin.
  - intros o Hx. destruct (Hon o Hx) as (a & Ha & Hp'). exists a. by rewrite E.
Qed.

Lemma reprotect_owned_ok i s r live t n perms : owned i s r live -> VMT.page_range t n ->
  (all_mapped (VM.vma_map (vm s)) t (t + n) /\ exists v, try_ (VM.ReprotectRange (IsC s) t n perms) s = Done (Val tt, set_vm v s) /\ owned i (set_vm v s) r live /\
     forall a, vw v a = if decide (t <= a < t + n) then VMT.set_perm perms <$> vw (vm s) a else vw (vm s) a) \/
  (~ all_mapped (VM.vma_map (vm s)) t (t + n) /\ try_ (VM.ReprotectRange (IsC s) t n perms) s = Done (Err ResultInvalidAddressState, s)).
Proof.
  intros Ho Hpr. destruct (ow_vm _ _ _ _ _ _ Ho) as [Hw Hl]. unfold try_. fold (vm s).
  destruct (VMT.ReprotectRange_ok (IsC s) buffers buffers_apart (vm s) t n perms Hw Hl Hpr) as [(Hm & v & -> & Hw' & Hl' & Hv)|(Hm & ->)]; [left|right].
  - split; [done|]. exists v. split; [done|]. split; [|done]. apply owned_vm; [done|done|]. intros a. unfold host, GF.host_of.
    change (vm (set_vm v s)) with v. rewrite Hv. case_decide; [|done]. by destruct (view _ a) as [[] |].
  - split; [done|]. cbn [mbind outcome_bind]. by destruct s as [[] ?].
Qed.
End Operations.

End PHeap.
