(* ===== verification/ProcessTheorems.v ===== *)
(** * What the memory system calls promise

    Any history of [ControlMemory] calls that commit, free and protect memory,
    interleaved with the requests of other processes, keeps the memory of a process its
    own and never stops the emulator. *)
From S2P Require Import Prelude Results PageTable VMManager VMTiles VMFacts VMTheorems ResourceLimit MemoryMap MemoryRegion RegionPages RegionTheorems GuestMemory GuestFacts GuestTheorems ProcessMemory ProcessFacts ProcessOwnership ProcessHeap.
Import Res Map Proc.

Module PrT.
Import Tiles VMF PF PO PHeap.
Import -(notations) Region.

Section Histories.
Context {S : Type} `{IntervalLaws S} {W : Type} `{Guest.Gpu W}.
Context (fcram : Z) (buffers : MRef.backing -> Prop).
Context (buffers_apart : forall b1 b2, buffers b1 -> buffers b2 -> b1 ≠ b2 ->
  MRef.host b1 + MRef.bytes b1 < MRef.host b2 \/ MRef.host b2 + MRef.bytes b2 < MRef.host b1).
Context (fcram_buffer : buffers (Guest.fcram_mem fcram)) (fcram_pos : 0 < fcram).
Abbreviation st := (st S W).
Abbreviation owned := (owned fcram buffers).
Implicit Types (s : st) (r : region S) (live got : gset Z).

(** ** One call *)

(** The arguments of [ControlMemory]. *)
Record call := mk_call { addr0 : Z; addr1 : Z; csize : Z; operation : Z; perms : Z }.
Definition control (c : call) : pm (S := S) (W := W) (option Z) := Proc.ControlMemory fcram (addr0 c) (addr1 c) (csize c) (operation c) (perms c).

Definition memop (c : call) : Z := Z.land (Z.land (operation c) (Z.lnot MEMOP_REGION_MASK)) MEMOP_OPERATION_MASK.
Definition linear_flag (c : call) : bool := negb (Z.land (Z.land (operation c) (Z.lnot MEMOP_REGION_MASK)) MEMOP_LINEAR =? 0).

(** Calls other than MAP and UNMAP, with 32-bit arguments.  A linear commit and a protection
    must not be empty, and a protection must end inside the address space: the
    kernel asserts both. *)
Record sensible (c : call) : Prop := {
  sn_addr : 0 <= addr0 c < 2 ^ 32; sn_size : 0 <= csize c < 2 ^ 32;
  sn_memop : memop c ≠ MEMOP_MAP /\ memop c ≠ MEMOP_UNMAP;
  sn_linear : memop c = MEMOP_COMMIT -> linear_flag c = true -> 0 < csize c;
  sn_protect : memop c = MEMOP_PROTECT -> 0 < csize c /\ addr0 c + csize c <= VM.MAX_ADDRESS;
}.

(** What every call keeps: the memory of the other processes, the layout of the region, the counters. *)
Record keeps i s r live s' r' live' : Prop := {
  kp_owned : owned i s' r' live'; kp_layout : layout r' = layout r;
  kp_others : live' ∖ held s' = live ∖ held s;
  kp_memory : forall x, x - fcram ∉ held s' -> memb s' x = memb s x;
  kp_used : other_used s' = other_used s; kp_commit : other_commit s' = other_commit s;
}.

Lemma unchanged_keeps i s r live : owned i s r live -> keeps i s r live s r live.
Proof. by split. Qed.

Lemma keeps_committed i s r live s' r' t n p state got : owned i s r live -> owned i s' r' (live ∪ got) -> layout r' = layout r -> got ## live ->
  committed fcram s s' t n p state got -> keeps i s r live s' r' (live ∪ got).
Proof.
  intros Ho Ho' Hlay Hd Hc. assert (got ## held s) as Hdh by (intros x Hx Hy; apply (Hd x Hx), (ow_held _ _ _ _ _ _ Ho), Hy).
  destruct (committed_accounts fcram s s' t n p state got Hc Hdh) as [? ?]. split; try done.
  - rewrite (cm_held _ _ _ _ _ _ _ _ Hc). set_solver.
  - intros x Hx. apply (cm_memory _ _ _ _ _ _ _ _ Hc). rewrite (cm_held _ _ _ _ _ _ _ _ Hc) in Hx. set_solver.
Qed.

Lemma keeps_freed i s r live s' r' t n old : owned i s r live -> owned i s' r' (live ∖ old) -> layout r' = layout r -> old ⊆ held s -> 0 <= n ->
  (forall a, t <= a < t + n -> private s r a /\ is_Some (host s a)) -> freed fcram s s' t n old -> keeps i s r live s' r' (live ∖ old).
Proof.
  intros Ho Ho' Hlay Hs Hn Hp Hf. pose proof (freed_size fcram buffers i s r live s' t n old Ho Hn Hp Hf) as Hsz.
  destruct (freed_accounts fcram s s' t n old Hf Hs Hsz) as [? ?]. split; try done.
  - rewrite (fd_held _ _ _ _ _ _ Hf). pose proof (ow_held _ _ _ _ _ _ Ho). set_solver.
  - intros x _. by rewrite (fd_memory _ _ _ _ _ _ Hf).
Qed.

(** A call that runs to an end and keeps the invariant. *)
Definition runs {A} (i : nat) (m : pm (S := S) (W := W) A) s r live : Prop :=
  exists res s' r' live', m s = Done (res, s') /\ keeps i s r live s' r' live'.

Lemma runs_unless {B} i b e (k : unit -> pm (S := S) (W := W) B) s r live : owned i s r live -> (b = true -> runs i (k tt) s r live) -> runs i (unless b e ≫= k) s r live.
Proof.
  intros Ho Hk. destruct b; [by apply Hk|]. exists (Err e), s, r, live. split; [done|by apply unchanged_keeps].
Qed.

(** The rest of a call does not change the state. *)
Lemma runs_then {A B} i (m : pm (S := S) (W := W) A) (k : A -> B) s r live : runs i m s r live -> runs i (a ← m; mret (k a)) s r live.
Proof.
  intros (res & s' & r' & live' & E & Hk). destruct res as [a|e].
  - exists (Val (k a)), s', r', live'. split; [by rewrite (pm_step _ _ _ _ _ E)|done].
  - exists (Err e), s', r', live'. split; [by rewrite (pm_fail _ _ _ _ _ E)|done].
Qed.

Lemma mapped_range s t n a : all_mapped (VM.vma_map (vm s)) t (t + n) -> t <= a < t + n -> is_Some (host s a).
Proof. intros Hm Ha. apply mapped_host. intros x Hx. apply Hm. lia. Qed.

Section Steps.
Context (i : nat) (s : st) (r : region S) (live : gset Z) (Ho : owned i s r live).
Context (t n : Z) (Ht : 0 <= t < 2 ^ 32) (Hn : 0 <= n < 2 ^ 32) (Hta : t `mod` CITRA_PAGE_SIZE = 0) (Hna : n `mod` CITRA_PAGE_SIZE = 0).

Lemma heap_free_runs : runs i (Proc.HeapFree fcram t n) s r live.
Proof using All.
  destruct (decide (n = 0)) as [E0|E0].
  - rewrite E0. unfold runs, Proc.HeapFree. destruct (outside _ _ _ _).
    + exists (Err ResultInvalidAddress), s, r, live. split; [done|by apply unchanged_keeps].
    + exists (Val tt), s, r, live. split; [done|by apply unchanged_keeps].
  - destruct (heap_free_ok fcram buffers buffers_apart i s r live t n Ho ltac:(lia) Hna Ht Hta) as ([[]|e] & s' & E & Hres).
    + destruct Hres as (Hp & r' & old & Hlay & Hold & Ho' & Hf). exists (Val tt), s', r', (live ∖ old). split; [done|].
      apply (keeps_freed i s r live s' r' t n old); [done|done|done|done|lia|done|done].
    + destruct Hres as [-> _]. exists (Err e), s, r, live. split; [done|by apply unchanged_keeps].
Qed.

Lemma linear_free_runs : runs i (Proc.LinearFree t n) s r live.
Proof using All.
  destruct (decide (n = 0)) as [E0|E0].
  - rewrite E0. unfold runs, Proc.LinearFree. destruct (linear_heap_base fcram buffers i s r live Ho) as (E1 & E2 & _).
    rewrite (pm_step _ _ _ _ _ E1), (pm_step _ _ _ _ _ E2). destruct (outside _ _ _ _).
    + exists (Err ResultInvalidAddress), s, r, live. split; [done|by apply unchanged_keeps].
    + exists (Val tt), s, r, live. split; [done|by apply unchanged_keeps].
  - destruct (linear_free_ok fcram buffers buffers_apart i s r live t n Ho ltac:(lia) Hna Ht Hta) as ([[]|e] & s' & E & Hres).
    + destruct Hres as (Hp & r' & old & Hlay & Hold & Ho' & Hf). exists (Val tt), s', r', (live ∖ old). split; [done|].
      apply (keeps_freed i s r live s' r' t n old); [done|done|done|done|lia|done|done].
    + destruct Hres as [-> _]. exists (Err e), s, r, live. split; [done|by apply unchanged_keeps].
Qed.

Lemma linear_allocate_runs p : 0 < n -> runs i (Proc.LinearAllocate fcram t n p) s r live.
Proof using All.
  intros Hpos. destruct (linear_allocate_ok fcram buffers buffers_apart fcram_buffer fcram_pos i s r live t n p Ho ltac:(lia) Hna Ht Hta) as ([a|e] & s' & E & Hres).
  - destruct Hres as (o & r' & _ & _ & _ & Hlay & _ & Hd & Ho' & Hc). exists (Val a), s', r', (live ∪ range o n). split; [done|].
    by eapply keeps_committed.
  - destruct Hres as [-> _]. exists (Err e), s, r, live. split; [done|by apply unchanged_keeps].
Qed.

Lemma heap_allocate_runs p state : runs i (Proc.HeapAllocate fcram t n p state false) s r live.
Proof using All.
  destruct (outside t n HEAP_VADDR HEAP_VADDR_END) eqn:Eo.
  { exists (Err ResultInvalidAddress), s, r, live. unfold Proc.HeapAllocate. rewrite Eo. split; [done|by apply unchanged_keeps]. }
  pose proof Eo as Hin. apply outside_spec in Hin; [|done|done|done]. assert (HEAP_VADDR_END < VM.MAX_ADDRESS) by done.
  destruct (process_heap_allocate_ok fcram buffers buffers_apart fcram_buffer fcram_pos i s r live t n p state false Ho Hn Hna) as (res & s' & E & Hres & _);
    [lia|lia|done|right; unfold in_heap; lia|by left|].
  destruct res as [a|e].
  - destruct Hres as (_ & r' & got & Hlay & Hd & Ho' & Hc). exists (Val a), s', r', (live ∪ got). split; [done|]. by eapply keeps_committed.
  - destruct Hres as (r' & -> & Hlay & Ho'). exists (Err e), (set_region i r' s), r', live. split; [done|]. by split.
Qed.

Lemma protect_runs p : 0 < n -> t + n <= VM.MAX_ADDRESS -> runs i (try_ (VM.ReprotectRange (IsC s) t n p)) s r live.
Proof using All.
  intros Hpos Hend. destruct (reprotect_owned_ok fcram buffers buffers_apart i s r live t n p Ho) as [(_ & v & E & Ho' & _)|(_ & E)]; [by split; try lia| |].
  - exists (Val tt), (set_vm v s), r, live. split; [done|]. by split.
  - exists (Err ResultInvalidAddressState), s, r, live. split; [done|by apply unchanged_keeps].
Qed.
End Steps.

Lemma control_runs i s r live c : owned i s r live -> sensible c -> runs i (control c) s r live.
Proof.
  intros Ho [Ht Hn [Hmap Hunmap] Hlin Hprot]. unfold control, Proc.ControlMemory.
  apply runs_unless; [done|]. intros Ha%aligned_bool. apply runs_unless; [done|]. intros _. apply runs_unless; [done|]. intros Hna%aligned_bool.
  apply runs_unless; [done|]. intros _. fold (memop c). cbv zeta. fold (memop c).
  destruct (Z.eqb_spec (memop c) MEMOP_FREE); [|destruct (Z.eqb_spec (memop c) MEMOP_COMMIT) as [Ec|];
    [|destruct (Z.eqb_spec (memop c) MEMOP_MAP); [done|destruct (Z.eqb_spec (memop c) MEMOP_UNMAP); [done|]]]].
  - apply (runs_then i _ (fun _ => Some (addr0 c))). destruct (_ && _); [by apply heap_free_runs|].
    destruct (linear_heap_base fcram buffers i s r live Ho) as (E1 & E2 & _). unfold runs. rewrite (pm_step _ _ _ _ _ E1), (pm_step _ _ _ _ _ E2).
    destruct (_ && _); [by apply linear_free_runs|]. exists (Err ResultInvalidAddress), s, r, live. split; [done|by apply unchanged_keeps].
  - fold (linear_flag c). destruct (linear_flag c) eqn:El.
    + apply (runs_then i _ Some). apply linear_allocate_runs; try done. by apply Hlin.
    + apply (runs_then i _ Some). by apply heap_allocate_runs.
  - destruct (Z.eqb_spec (memop c) MEMOP_PROTECT) as [Ep|].
    + unfold runs. rewrite (pm_step get _ _ _ _ eq_refl). apply (runs_then i _ (fun _ => None)). destruct (Hprot Ep). by apply protect_runs.
    + exists (Err ResultInvalidCombination), s, r, live. split; [done|by apply unchanged_keeps].
Qed.

(** ** Histories *)

(** What happens to the region of the process: its own calls and the requests of others. *)
Inductive event := Own (c : call) | Other (q : RT.request).

(** The state of the process and the bytes in use in its region. *)
Definition happen (i : nat) (e : event) (x : st * gset Z) : outcome (st * gset Z) :=
  let '(s, live) := x in
  match e with
  | Own c => '(_, s') ← control c s; Done (s', (live ∖ held s) ∪ held s')
  | Other q => r ← of_opt FOutOfRange (regions (kernel s) !! i); '(r', live') ← RT.serve q (r, live); Done (set_region i r' s, live')
  end.
Definition permitted (e : event) (x : st * gset Z) : Prop :=
  match e with Own c => sensible c | Other q => foreign x.1 q x.2 end.

Inductive history (i : nat) : list event -> st * gset Z -> st * gset Z -> Prop :=
  | history_nil x : history i [] x x
  | history_cons e es x x1 x2 : permitted e x -> happen i e x = Done x1 -> history i es x1 x2 -> history i (e :: es) x x2.

Lemma live_split live live' (h h' : gset Z) : live' ∖ h' = live ∖ h -> h' ⊆ live' -> live' = (live ∖ h) ∪ h'.
Proof.
  intros <- Hs. apply set_eq. intros x. rewrite elem_of_union, elem_of_difference.
  destruct (decide (x ∈ h')) as [Hx|Hx]; [split; [by right|by intros _; apply Hs]|tauto].
Qed.

Lemma happen_ok i e s r live : owned i s r live -> permitted e (s, live) ->
  exists s' r' live', happen i e (s, live) = Done (s', live') /\ owned i s' r' live' /\ layout r' = layout r /\
    other_used s' = other_used s /\ other_commit s' = other_commit s.
Proof.
  intros Ho Hp. destruct e as [c|q]; simpl in Hp; unfold happen.
  - destruct (control_runs i s r live c Ho Hp) as (res & s' & r' & live' & E & [Ho' Hlay Hoth _ Hu Hc]). exists s', r', live'.
    rewrite E. cbn [mbind outcome_bind]. rewrite <- (live_split live live' (held s) (held s') Hoth (ow_held _ _ _ _ _ _ Ho')). by split_and!.
  - destruct (owned_others fcram buffers i s r live q Ho Hp) as (r' & live' & E & Ho'). exists (set_region i r' s), r', live'.
    rewrite (ow_lookup _ _ _ _ _ _ Ho). cbn [of_opt mbind outcome_bind]. rewrite E. split_and!; try done.
    destruct (RT.serve_ok q r live (ow_ledger _ _ _ _ _ _ Ho) (proj1 Hp)) as (r1 & live1 & E1 & _ & Hlay). rewrite E in E1. by injection E1 as <- <-.
Qed.

Lemma history_owned i es x y : history i es x y -> forall r, owned i x.1 r x.2 ->
  exists r', owned i y.1 r' y.2 /\ layout r' = layout r /\ other_used y.1 = other_used x.1 /\ other_commit y.1 = other_commit x.1.
Proof.
  induction 1 as [x|e es [s live] x1 x2 Hp Hh _ IH]; intros r Ho; [by exists r|].
  destruct (happen_ok i e s r live Ho Hp) as (s' & r' & live' & E & Ho' & Hlay & Hu & Hc). rewrite Hh in E. injection E as ->.
  destruct (IH r' Ho') as (r2 & Ho2 & Hlay2 & Hu2 & Hc2). exists r2. simpl in *. split_and!; [done|congruence..].
Qed.

(** C4: The memory of a process stays its own.  Starting from a state in which every mapped
    address of its code, heap and linear heap has an FCRAM byte of its own that the
    process holds, every held byte is mapped and in use in its region, and linear
    addresses are at their physical offsets, any history of [ControlMemory] calls
    that commit, free and protect memory, interleaved with the requests of other
    processes, does not stop the emulator, and the same holds afterwards; the counters
    of the process change by exactly what it commits and frees.  The calls left out
    are MAP and UNMAP, linear commits and protections of no bytes, and
    protections past the end of the address space: the last three do stop the
    emulator on an assertion ([empty_linear_commit_stops], [empty_protect_stops]). *)
Theorem control_memory_keeps_ownership i es s0 r0 live0 s live : owned i s0 r0 live0 -> history i es (s0, live0) (s, live) ->
  (forall e, permitted e (s, live) -> exists x, happen i e (s, live) = Done x) /\
  exists r, owned i s r live /\ layout r = layout r0 /\
    u32 (memory_used (process s) - Z.of_nat (base.size (held s))) = u32 (memory_used (process s0) - Z.of_nat (base.size (held s0))).
Proof.
  intros Ho Hh. destruct (history_owned i es _ _ Hh r0 Ho) as (r & Ho' & Hlay & Hu & _). split; [|by exists r].
  intros e Hp. destruct (happen_ok i e s r live Ho' Hp) as (s' & r' & live' & E & _). by exists (s', live').
Qed.

(** ** Calls that stop the emulator *)

(** A protection of no bytes, or past the end of the address space. *)
Theorem empty_protect_stops s t n p : 0 <= t < 2 ^ 32 -> t `mod` CITRA_PAGE_SIZE = 0 -> 0 <= n < 2 ^ 32 -> n `mod` CITRA_PAGE_SIZE = 0 ->
  Z.land p VM.PermReadWrite = p -> n = 0 \/ VM.MAX_ADDRESS < t + n ->
  control (mk_call t 0 n MEMOP_PROTECT p) s = Stop FAssert.
Proof.
  intros Ht Hta Hn Hna Hp Hbad. unfold control, Proc.ControlMemory. cbn [addr0 addr1 csize operation perms].
  apply aligned_bool in Hta, Hna. unfold VM.page_aligned in Hta, Hna. rewrite Hta, unless_true. change (Z.land 0 CITRA_PAGE_MASK =? 0) with true.
  rewrite unless_true, Hna, unless_true. cbv zeta. rewrite Hp, (Z.eqb_refl p), unless_true. change (Z.land (Z.land MEMOP_PROTECT (Z.lnot MEMOP_REGION_MASK)) MEMOP_OPERATION_MASK) with MEMOP_PROTECT.
  cbv zeta. change (MEMOP_PROTECT =? MEMOP_FREE) with false. change (MEMOP_PROTECT =? MEMOP_COMMIT) with false.
  change (MEMOP_PROTECT =? MEMOP_MAP) with false. change (MEMOP_PROTECT =? MEMOP_UNMAP) with false. change (MEMOP_PROTECT =? MEMOP_PROTECT) with true. cbv iota.
  rewrite (pm_step get _ _ _ _ eq_refl). unfold mbind at 1, pm_bind, try_, VM.ReprotectRange, VM.CarveVMARange, VM.page_aligned.
  rewrite Hta, Hna. destruct (VM.is_locked _); [done|]. cbn [negb assert_ mbind outcome_bind]. cbv zeta. assert (VM.MAX_ADDRESS < 2 ^ 32) by done.
  destruct (Z.leb_spec t (u32 (t + n))) as [Hle|]; [|done]. cbn [assert_ mbind outcome_bind].
  destruct (Z.leb_spec (u32 (t + n)) VM.MAX_ADDRESS) as [Hend|]; [|done]. cbn [assert_ mbind outcome_bind].
  destruct (Z.ltb_spec 0 n) as [Hpos|]; [|done]. exfalso. destruct Hbad as [->|Hbad]; [lia|].
  destruct (Z.lt_ge_cases (t + n) (2 ^ 32)); [rewrite u32_small in Hend by lia; lia|].
  assert (u32 (t + n) = t + n - 2 ^ 32) as E by zdm. lia.
Qed.

(** Mapping no bytes, as a linear commit of size 0 does once its place is found. *)
Theorem empty_linear_commit_stops s t mem state p : vm_ok buffers s -> 0 <= t < VM.MAX_ADDRESS -> t `mod` CITRA_PAGE_SIZE = 0 ->
  map_at t mem 0 state p s = Stop FAssert.
Proof.
  intros [Hw Hl] Ht Hta. pose proof (wf_tiles _ _ (wf_vmas _ _ _ Hw)) as Htl.
  destruct (tiles_find _ _ _ t Htl Ht) as (l & v & r & Hm & Hi).
  assert (VM.FindVMA (VM.vma_map (vm s)) t = Done (length l)) as E1 by (rewrite Hm in Htl |- *; by apply FindVMA_spec).
  pose proof (proj1 (Forall_forall _ _) (wf_good _ _ (wf_vmas _ _ _ Hw)) v ltac:(rewrite Hm; apply elem_of_app; right; left)) as Hg.
  pose proof (good_base _ _ Hg). pose proof (good_end _ _ Hg). pose proof (good_below buffers v Hg). unfold Tiles.inside in Hi.
  unfold map_at, VM.MapBackingMemory. fold (vm s). rewrite Hl. cbn [negb assert_ mbind outcome_bind].
  destruct (negb _); [|done]. cbn [assert_ mbind outcome_bind]. unfold VM.CarveVMA. rewrite E1.
  apply aligned_bool in Hta as Hta'. rewrite Hta'. change (VM.page_aligned 0) with true. cbn [assert_ mbind outcome_bind].
  rewrite Hm, list_lookup_middle by done. destruct (bool_decide _); [|done]. cbn [negb]. cbv zeta.
  rewrite (u32_small (t - VM.base v)) by lia. rewrite Z.add_0_r, u32_small by lia.
  destruct (Z.ltb_spec (VM.size v) (t - VM.base v)); [lia|]. destruct (Z.eqb_spec (t - VM.base v) (VM.size v)); [lia|]. cbn [negb].
  destruct (Z.eq_dec (t - VM.base v) 0) as [E0|E0].
  - rewrite E0. unfold VM.SplitVMA, VM.at_. rewrite Hm, list_lookup_middle by done. cbn [of_opt mbind outcome_bind].
    destruct (0 <? VM.size v); [|done]. done.
  - destruct (SplitVMA_spec buffers (vm s) l v r (t - VM.base v) Hm) as (v2 & E2 & _); [by rewrite Hm in Htl|done|lia| |].
    { pose proof (good_base_aligned _ _ Hg). by apply aligned_diff. }
    rewrite E2. cbn [fmap outcome_fmap snd mbind outcome_bind].
    unfold VM.SplitVMA, VM.at_. cbn [VM.vma_map]. rewrite list_lookup_middle by done. cbn [of_opt mbind outcome_bind VM.size low_part].
    rewrite Z.ltb_irrefl. destruct (Z.eqb_spec (t - VM.base v) 0); done.
Qed.

(** ** Commit and free *)

Definition commit_call (t n p : Z) (linear : bool) : call := mk_call t 0 n (if linear then MEMOP_COMMIT + MEMOP_LINEAR else MEMOP_COMMIT) p.
Definition free_call (t n : Z) : call := mk_call t 0 n MEMOP_FREE 0.

(** Aligned arguments and permissions without execution. *)
Definition page_args (t n p : Z) : Prop :=
  0 <= t < 2 ^ 32 /\ t `mod` CITRA_PAGE_SIZE = 0 /\ 0 < n < 2 ^ 32 /\ n `mod` CITRA_PAGE_SIZE = 0 /\ Z.land p VM.PermReadWrite = p.

Lemma commit_step t n p linear s : page_args t n p ->
  control (commit_call t n p linear) s = (a ← (if linear then Proc.LinearAllocate fcram t n p else Proc.HeapAllocate fcram t n p VM.StPrivate false); mret (Some a)) s.
Proof.
  intros (_ & Ht & _ & Hn & Hp). unfold control, Proc.ControlMemory, commit_call. cbn [addr0 addr1 csize operation perms].
  apply aligned_bool in Ht, Hn. unfold VM.page_aligned in Ht, Hn. rewrite Ht, unless_true. change (Z.land 0 CITRA_PAGE_MASK =? 0) with true.
  rewrite unless_true, Hn, unless_true, Hp, Z.eqb_refl, unless_true. by destruct linear.
Qed.

Lemma free_step t n s : page_args t n 0 -> HEAP_VADDR <= t < HEAP_VADDR_END ->
  control (free_call t n) s = (_ ← Proc.HeapFree fcram t n; mret (Some t)) s.
Proof.
  intros (_ & Ht & _ & Hn & _) Hin. unfold control, Proc.ControlMemory, free_call. cbn [addr0 addr1 csize operation perms].
  apply aligned_bool in Ht, Hn. unfold VM.page_aligned in Ht, Hn. rewrite Ht, unless_true. change (Z.land 0 CITRA_PAGE_MASK =? 0) with true.
  rewrite unless_true, Hn, unless_true. change (Z.land 0 VM.PermReadWrite =? 0) with true. rewrite unless_true.
  change (Z.land (Z.land MEMOP_FREE (Z.lnot MEMOP_REGION_MASK)) MEMOP_OPERATION_MASK =? MEMOP_FREE) with true. cbv iota.
  destruct (Z.leb_spec HEAP_VADDR t), (Z.ltb_spec t HEAP_VADDR_END); try lia. done.
Qed.

(** The free bytes of the region are determined by the bytes in use. *)
Lemma owned_free_bytes i s r live s' r' live' : owned i s r live -> owned i s' r' live' -> layout r' = layout r -> live' = live -> free_bytes r' = free_bytes r.
Proof.
  intros Ho Ho' Hlay ->. rewrite (RP.ledger_free r live), (RP.ledger_free r' live); [|apply Ho'|apply Ho]. by injection Hlay as -> ->.
Qed.

Lemma owned_got i s r live s' r' got : owned i s r live -> owned i s' r' (live ∪ got) -> layout r' = layout r -> got ## live -> got ⊆ free_bytes r.
Proof.
  intros Ho Ho' Hlay Hd x Hx. rewrite (RP.ledger_free r live) by apply Ho. apply elem_of_difference. split; [|by intros Hl; apply (Hd x)].
  assert (x ∈ live ∪ got) as Hin by (apply elem_of_union; by right). rewrite (lg_live _ _ (ow_ledger _ _ _ _ _ _ Ho')) in Hin.
  apply elem_of_difference in Hin as [Hin _]. by injection Hlay as <- <- _.
Qed.

(** What a granted commit of [n] bytes at [t] does to the address space and the counters. *)
Record granted s s' t n perms state got : Prop := {
  gr_size : Z.of_nat (base.size got) = n;
  gr_cells : forall a, t <= a < t + n -> exists o, o ∈ got /\ vw (vm s') a = Some (mk_cell VM.BackingMemory perms state (fcram + o));
  gr_kept : forall a, ~ (t <= a < t + n) -> kept state perms (vw (vm s) a) (vw (vm s') a);
  gr_held : held s' = held s ∪ got;
  gr_used : memory_used (process s') = u32 (memory_used (process s) + n);
  gr_limit : resource_limit (process s') = (Limit.Reserve Limit.Commit n (resource_limit (process s))).2;
}.

(** The new addresses read zero and nothing else is written. *)
Definition zeroed s s' t n got : Prop :=
  (forall a, t <= a < t + n -> exists o, o ∈ got /\ host s' a = Some (fcram + o) /\ memb s' (fcram + o) = 0) /\
  forall x, x - fcram ∉ got -> memb s' x = memb s x.

Lemma committed_granted s s' t n perms state got : committed fcram s s' t n perms state got ->
  granted s s' t n perms state got /\ zeroed s s' t n got.
Proof.
  intros [A1 A2 A3 A4 A5 A6 A7]. split; [split; try done|split; [|done]].
  - intros a Ha. destruct (A2 a Ha) as (o & ? & ? & _). by exists o.
  - intros a Ha. destruct (A2 a Ha) as (o & ? & E & ?). exists o. split_and!; [done| |done].
    unfold host, GF.host_of. unfold vw in E. by rewrite E.
Qed.

Lemma commit_ok i s r live t n p linear : owned i s r live -> page_args t n p ->
  exists res s', control (commit_call t n p linear) s = Done (res, s') /\
  match res with
  | Val (Some a) => exists r' got, owned i s' r' (live ∪ got) /\ layout r' = layout r /\ got ⊆ free_bytes r /\ all_free (VM.vma_map (vm s)) a (a + n) /\
      committed fcram s s' a n p (if linear then VM.StContinuous else VM.StPrivate) got /\ (t ≠ 0 -> a = t) /\
      (linear = true -> got = range (a - area s) n) /\
      (linear = true -> t = 0 -> forall o, range o n ⊆ free_bytes r -> a <= area s + o)
  | Val None => False
  | Err e => exists r', s' = set_region i r' s /\ owned i s' r' live /\ free_bytes r' = free_bytes r /\
      if linear then t = 0 /\ (forall o, ~ range o n ⊆ free_bytes r) \/
                     t ≠ 0 /\ ~ (area s + base r <= t /\ t + n <= area s + base r + size r /\ range (t - area s) n ⊆ free_bytes r)
      else ~ (HEAP_VADDR <= t /\ t + n <= HEAP_VADDR_END /\ all_free (VM.vma_map (vm s)) t (t + n) /\ n <= Z.of_nat (base.size (free_bytes r)))
  end.
Proof.
  intros Ho Ha. pose proof Ha as (Ht & Hta & Hn & Hna & _). rewrite commit_step by done. destruct linear.
  - destruct (linear_allocate_ok fcram buffers buffers_apart fcram_buffer fcram_pos i s r live t n p Ho Hn Hna Ht Hta) as ([a|e] & s' & E & Hres).
    + destruct Hres as (o & r' & -> & Hto & Hlow & Hlay & Hf & Hd & Ho' & Hc). rewrite (pm_step _ _ _ _ _ E). eexists (Val (Some _)), s'. split; [done|].
      exists r', (range o n). replace (area s + o - area s) with o by lia. split_and!; try done; [by apply (linear_free fcram buffers i s r live o n Ho ltac:(lia) Hf)|intros Hne; by rewrite <- Hto|].
      intros _ E0 x Hx. specialize (Hlow E0 x Hx). lia.
    + destruct Hres as [-> He]. rewrite (pm_fail _ _ _ _ _ E). eexists (Err e), s. split; [done|]. exists r.
      rewrite (set_region_self i r s (ow_lookup _ _ _ _ _ _ Ho)). split_and!; try done. destruct He as [(_ & ? & ?)|[(_ & ? & Hno)|(_ & ? & Hno)]]; [by left|right; tauto..].
  - destruct (outside t n HEAP_VADDR HEAP_VADDR_END) eqn:Eo.
    { exists (Err ResultInvalidAddress), s. unfold Proc.HeapAllocate. rewrite Eo. split; [done|]. exists r.
      rewrite (set_region_self i r s (ow_lookup _ _ _ _ _ _ Ho)). split_and!; try done. intros (? & ? & _).
      assert (outside t n HEAP_VADDR HEAP_VADDR_END = false); [by apply outside_spec; [|lia| |]|congruence]. }
    pose proof Eo as Hin. apply outside_spec in Hin; [|done|lia|done]. assert (HEAP_VADDR_END < VM.MAX_ADDRESS) by done.
    destruct (process_heap_allocate_ok fcram buffers buffers_apart fcram_buffer fcram_pos i s r live t n p VM.StPrivate false Ho ltac:(lia) Hna) as (res & s' & E & Hres & Hcase);
      [lia|lia|done|right; unfold in_heap; lia|by left|]. destruct res as [a|e].
    + destruct Hres as (-> & r' & got & Hlay & Hd & Ho' & Hc). rewrite (pm_step _ _ _ _ _ E). eexists (Val (Some t)), s'. split; [done|].
      exists r', got. split_and!; try done; [by eapply owned_got|by apply Hcase; lia].
    + destruct Hres as (r' & -> & Hlay & Ho'). rewrite (pm_fail _ _ _ _ _ E). eexists (Err e), _. split; [done|]. exists r'. split_and!; try done.
      * by eapply owned_free_bytes.
      * intros (_ & _ & Hf & Hsz). destruct (Hcase ltac:(lia)) as [[_ Hno]|(_ & _ & Hlt)]; [done|lia].
Qed.

(** C22: What a commit does.  On the heap it is granted exactly when the range lies in the heap area, is
    free, and enough bytes of the region are free; on the linear heap exactly when the run asked for
    (the lowest one for address 0) is free.  A refused commit changes no mapping, byte or
    counter.  A granted one takes free bytes of the region, maps exactly the range with the
    permissions asked for, on the linear heap at its physical offset; no other mapping
    moves, and at most the permissions of neighbours merged with the new area
    change.  On the heap the new memory reads zero and no other byte is written.  On the linear
    heap nothing is said about the bytes: the memory is zeroed too, but mapping it
    then makes the rasterizer flush the range, which may write old surfaces back
    ([Guest.MapPages]; heap addresses are not flushed, [GF.MapPages_elsewhere]). *)
Theorem commit_maps_zeroed i s r live t n p linear : owned i s r live -> page_args t n p ->
  exists res s', control (commit_call t n p linear) s = Done (res, s') /\
  match res with
  | Val (Some a) => exists r' got, owned i s' r' (live ∪ got) /\ layout r' = layout r /\ got ⊆ free_bytes r /\ all_free (VM.vma_map (vm s)) a (a + n) /\
      granted s s' a n p (if linear then VM.StContinuous else VM.StPrivate) got /\ (t ≠ 0 -> a = t) /\
      (linear = false -> zeroed s s' a n got) /\
      (linear = true -> got = range (a - area s) n) /\
      (linear = true -> t = 0 -> forall o, range o n ⊆ free_bytes r -> a <= area s + o)
  | Val None => False
  | Err e => exists r', s' = set_region i r' s /\ owned i s' r' live /\ free_bytes r' = free_bytes r /\
      if linear then t = 0 /\ (forall o, ~ range o n ⊆ free_bytes r) \/
                     t ≠ 0 /\ ~ (area s + base r <= t /\ t + n <= area s + base r + size r /\ range (t - area s) n ⊆ free_bytes r)
      else ~ (HEAP_VADDR <= t /\ t + n <= HEAP_VADDR_END /\ all_free (VM.vma_map (vm s)) t (t + n) /\ n <= Z.of_nat (base.size (free_bytes r)))
  end.
Proof.
  intros Ho Ha. destruct (commit_ok i s r live t n p linear Ho Ha) as (res & s' & E & Hres). exists res, s'. split; [done|].
  destruct res as [[a|]|e]; [|done|done]. destruct Hres as (r' & got & A1 & A2 & A3 & A4 & A5 & A6 & A7 & A8).
  destruct (committed_granted _ _ _ _ _ _ _ A5). exists r', got. by split_and!.
Qed.

Lemma freed_got i s s1 r1 live1 s2 t n p state got old : owned i s1 r1 live1 -> committed fcram s s1 t n p state got -> freed fcram s1 s2 t n old ->
  Z.of_nat (base.size old) = n -> old = got.
Proof.
  intros _ Hc Hf Hsz. apply set_eq. assert (old ⊆ got) as Hs.
  { intros o (a & Ha & E)%(fd_old _ _ _ _ _ _ Hf). destruct (cm_cells _ _ _ _ _ _ _ _ Hc a Ha) as (o' & Ho' & Ec & _).
    unfold host, GF.host_of in E. unfold vw in Ec. rewrite Ec in E. injection E as E. by replace o with o' by lia. }
  apply set_eq. apply set_subseteq_size_eq; [done|]. pose proof (cm_size _ _ _ _ _ _ _ _ Hc). lia.
Qed.

(** C23: Freeing what was committed.  After a granted commit on the heap, freeing the range succeeds,
    the process holds what it held before, its region has the same free bytes, its counter
    is back and every mapping is as before the commit, up to the permissions of
    neighbours the new area was merged with. *)
Theorem commit_free_roundtrip i s r live t n p s1 : owned i s r live -> page_args t n p -> HEAP_VADDR <= t -> t + n <= HEAP_VADDR_END ->
  0 <= memory_used (process s) < 2 ^ 32 -> control (commit_call t n p false) s = Done (Val (Some t), s1) ->
  exists s2 r2, control (free_call t n) s1 = Done (Val (Some t), s2) /\ owned i s2 r2 live /\ held s2 = held s /\ free_bytes r2 = free_bytes r /\
    memory_used (process s2) = memory_used (process s) /\ forall a, kept VM.StPrivate p (vw (vm s) a) (vw (vm s2) a).
Proof.
  intros Ho Ha Hlo Hhi Hmu E. pose proof Ha as (Ht & Hta & Hn & Hna & _).
  destruct (commit_ok i s r live t n p false Ho Ha) as (res & s' & E' & Hres). rewrite E in E'. injection E' as <- <-.
  destruct Hres as (r1 & got & Ho1 & Hlay1 & Hgot & Hfree & Hc & _). assert (page_args t n 0) as Ha0 by (by destruct Ha as (? & ? & ? & ? & _)).
  rewrite free_step by (done || lia). 
  destruct (heap_free_ok fcram buffers buffers_apart i s1 r1 (live ∪ got) t n Ho1 Hn Hna Ht Hta) as ([[]|e] & s2 & E2 & Hres2).
  2: { destruct Hres2 as [_ [(_ & Hno)|(_ & Hno)]]; destruct Hno; [done|]. intros a Hat. destruct (cm_cells _ _ _ _ _ _ _ _ Hc a Hat) as (o & _ & Ec & _).
       eexists. by split; [exact Ec|]. }
  destruct Hres2 as (Hp & r2 & old & Hlay & Hold & Ho2 & Hf). pose proof (freed_size fcram buffers i s1 r1 _ s2 t n old Ho1 ltac:(lia) Hp Hf) as Hsz.
  pose proof (freed_got i s s1 r1 _ s2 t n p _ got old Ho1 Hc Hf Hsz) as ->.
  assert (got ## live) as Hd.
  { intros x Hx Hl. apply Hgot in Hx. rewrite (RP.ledger_free r live) in Hx by apply Ho. by apply elem_of_difference in Hx as [_ ?]. }
  assert ((live ∪ got) ∖ got = live) as El by (rewrite difference_union_distr_l_L, difference_diag_L, union_empty_r_L; by apply difference_disjoint_L).
  assert (got ## held s) as Hdh by (intros x Hx Hy; apply (Hd x Hx), (ow_held _ _ _ _ _ _ Ho), Hy).
  rewrite El in Ho2. exists s2, r2. rewrite (pm_step _ _ _ _ _ E2). split_and!; [done|done| | | |].
  - rewrite (fd_held _ _ _ _ _ _ Hf), (cm_held _ _ _ _ _ _ _ _ Hc), difference_union_distr_l_L, difference_diag_L, union_empty_r_L. by apply difference_disjoint_L.
  - eapply owned_free_bytes; [exact Ho|exact Ho2|congruence|done].
  - rewrite (fd_used _ _ _ _ _ _ Hf), (cm_used _ _ _ _ _ _ _ _ Hc). replace n with (0 + n) at 2 by lia. rewrite (u32_cancel _ 0) by done. rewrite Z.sub_0_r. by apply u32_small.
  - intros a. rewrite (fd_cells _ _ _ _ _ _ Hf). case_decide as Hat; [|by apply (cm_kept _ _ _ _ _ _ _ _ Hc)]. left. symmetry. by apply Hfree.
Qed.
End Histories.

(** ** A small process *)

(** Sixteen pages of FCRAM, nothing mapped. *)
Definition small : region (list interval) := mk_region 0 0x10000 0 [(0, 0x10000)] false.
Definition idle (v : VM.vmm) : st (list interval) unit :=
  mk_st (mk_proc v (Some 0%nat) [] [] 0 [] Limit.Create 0) (mk_kmem [small] (GT.demo ∅) Guest.no_region).

Lemma small_ledger : ledger small ∅.
Proof.
  destruct (@RT.region_Reset_ok (list interval) list_intervals list_laws 0 0x10000 (mk_region 0 0 0 [] false)) as (r & E & Hl & _); [lia|lia|lia|reflexivity|].
  assert (Reset 0 0x10000 (mk_region 0 0 0 ([] : list interval) false) = Done small) as E' by reflexivity. rewrite E in E'. injection E' as ->. exact Hl.
Qed.

Lemma idle_owned : exists v, owned (W := unit) GT.F GT.only_fcram 0 (idle v) small ∅ /\ forall a, 0 <= a < VM.MAX_ADDRESS -> view (VM.vma_map v) a = Some free_cell.
Proof.
  destruct (VMT.Reset_ok (Guest.IsCached ∅) GT.only_fcram (VM.mk_vmm [] PT.Clear false) eq_refl) as (v & _ & Hw & Hl & Hv). exists v.
  assert (forall a, host (idle v) a = None) as Hh.
  { intros a. unfold host, GF.host_of. change (vm (idle v)) with v. rewrite Hv. unfold VMT.initial_view. by case_decide. }
  split; [|intros a Ha; rewrite Hv; unfold VMT.initial_view; by rewrite decide_True].
  split.
  - by split.
  - reflexivity.
  - reflexivity.
  - apply small_ledger.
  - split; [reflexivity|reflexivity|apply RP.whole_empty].
  - unfold linear_size. cbn [kernel_version process idle]. vm_compute. congruence.
  - intros o Ho%elem_of_bytes. by apply covers_nil in Ho.
  - intros a p _ E. by rewrite Hh in E.
  - intros a p _ E. by rewrite Hh in E.
  - intros a a' p _ _ E. by rewrite Hh in E.
  - intros o Ho%elem_of_bytes. by apply covers_nil in Ho.
Qed.

Definition two_pages : call := commit_call HEAP_VADDR 0x2000 3 false.

Lemma two_pages_sensible : sensible two_pages.
Proof. split; [split; vm_compute; congruence|split; vm_compute; congruence|split; vm_compute; congruence|vm_compute; congruence|vm_compute; congruence]. Qed.

Lemma small_args : page_args HEAP_VADDR 0x2000 3.
Proof. unfold page_args. split_and!; vm_compute; congruence. Qed.

Lemma control_memory_keeps_ownership_witness : exists v x r, history GT.F 0 [Own two_pages] (idle v, ∅) x /\
  owned (W := unit) GT.F GT.only_fcram 0 x.1 r x.2 /\ layout r = layout small.
Proof.
  destruct idle_owned as (v & Ho & _).
  destruct (@control_memory_keeps_ownership (list interval) list_intervals list_laws unit GT.idle_gpu GT.F GT.only_fcram GT.guest_fcram_apart eq_refl eq_refl
    0 [] (idle v) small ∅ (idle v) ∅ Ho (history_nil GT.F 0 (idle v, ∅))) as [Hnext _].
  destruct (Hnext (Own two_pages) two_pages_sensible) as [[s live] E].
  assert (history GT.F 0 [Own two_pages] (idle v, ∅) (s, live)) as Hh by (econstructor; [exact two_pages_sensible|exact E|constructor]).
  destruct (@control_memory_keeps_ownership (list interval) list_intervals list_laws unit GT.idle_gpu GT.F GT.only_fcram GT.guest_fcram_apart eq_refl eq_refl
    0 [Own two_pages] (idle v) small ∅ s live Ho Hh) as [_ (r & Hor & Hl & _)].
  exists v, (s, live), r. split; [exact Hh|]. split; [exact Hor|exact Hl].
Defined.

Lemma heap_free_range v : (forall a, 0 <= a < VM.MAX_ADDRESS -> view (VM.vma_map v) a = Some free_cell) -> all_free (VM.vma_map v) HEAP_VADDR (HEAP_VADDR + 0x2000).
Proof. intros Hv a Ha. apply Hv. unfold VM.MAX_ADDRESS. mlia. Qed.

Lemma small_free : Z.of_nat (base.size (free_bytes small)) = 0x10000.
Proof. unfold free_bytes. rewrite size_blocks. reflexivity. Qed.

Lemma commit_maps_zeroed_witness : exists v s', all_free (VM.vma_map v) HEAP_VADDR (HEAP_VADDR + 0x2000) /\
  control GT.F two_pages (idle v) = Done (Val (Some HEAP_VADDR), s').
Proof.
  destruct idle_owned as (v & Ho & Hv). pose proof (heap_free_range v Hv) as Hf.
  destruct (@commit_maps_zeroed (list interval) list_intervals list_laws unit GT.idle_gpu GT.F GT.only_fcram GT.guest_fcram_apart eq_refl eq_refl
    0 (idle v) small ∅ HEAP_VADDR 0x2000 3 false Ho small_args) as (res & s' & E & Hres). exists v, s'. split; [exact Hf|].
  destruct res as [[a|]|e]; [|destruct Hres|].
  - destruct Hres as (r' & got & _ & _ & _ & _ & _ & Ha & _). rewrite Ha in E by discriminate. exact E.
  - destruct Hres as (r' & _ & _ & _ & Hno). destruct Hno. split; [|split; [|split]]; [discriminate|discriminate|exact Hf|rewrite small_free; discriminate].
Defined.

Lemma commit_free_roundtrip_witness : exists v s1 s2, control GT.F two_pages (idle v) = Done (Val (Some HEAP_VADDR), s1) /\
  control GT.F (free_call HEAP_VADDR 0x2000) s1 = Done (Val (Some HEAP_VADDR), s2) /\ memory_used (process s2) = 0.
Proof.
  destruct idle_owned as (v & Ho & Hv). pose proof (heap_free_range v Hv) as Hf.
  destruct (@commit_ok (list interval) list_intervals list_laws unit GT.idle_gpu GT.F GT.only_fcram GT.guest_fcram_apart eq_refl eq_refl
    0 (idle v) small ∅ HEAP_VADDR 0x2000 3 false Ho small_args) as ([[a|]|e] & s1 & E & Hres); [|destruct Hres|].
  - destruct Hres as (r' & got & _ & _ & _ & _ & _ & Ha & _). rewrite Ha in E by discriminate.
    destruct (@commit_free_roundtrip (list interval) list_intervals list_laws unit GT.idle_gpu GT.F GT.only_fcram GT.guest_fcram_apart eq_refl eq_refl
      0 (idle v) small ∅ HEAP_VADDR 0x2000 3 s1 Ho small_args) as (s2 & r2 & E2 & _ & _ & _ & Hu & _); [discriminate|discriminate|split; [discriminate|reflexivity]|exact E|].
    exists v, s1, s2. split; [exact E|]. split; [exact E2|exact Hu].
  - destruct Hres as (r' & _ & _ & _ & Hno). destruct Hno. split; [|split; [|split]]; [discriminate|discriminate|exact Hf|rewrite small_free; discriminate].
Defined.
End PrT.
