(* ===== verification/StringUtil.v ===== *)
(** * Strings

    [std::string] as a list of characters, the helpers of common/string_util.cpp, and
    the number parsers of the C++ library that the sources call.  [split_join] and
    [split_app]: splitting what was joined. *)
From stdpp Require Export strings.
From Stdlib Require Import Ascii.
From S2P Require Import Prelude.
Open Scope Z_scope.

Module Str.

Abbreviation str := (list ascii).
Definition lit (s : string) : str := String.list_ascii_of_string s.

Definition newline : ascii := "010"%char.
Definition nul : ascii := "000"%char.
Definition code (c : ascii) : Z := Z.of_N (N_of_ascii c).

(** [std::getline] until the end of the stream: the last piece may be empty. *)
Fixpoint split (delim : ascii) (s : str) : list str :=
  match s with
  | [] => [[]]
  | c :: s =>
      if decide (c = delim) then [] :: split delim s
      else match split delim s with [] => [[c]] | l :: ls => (c :: l) :: ls end
  end.

(** [getline] fails on an empty rest, whose piece is dropped. *)
Fixpoint drop_empty_last (ls : list str) : list str :=
  match ls with
  | [] => []
  | [l] => match l with [] => [] | _ => [l] end
  | l :: ls => l :: drop_empty_last ls
  end.
Definition SplitString (s : str) (delim : ascii) : list str := drop_empty_last (split delim s).

Definition is_blank (c : ascii) : bool := bool_decide (c ∈ [" "%char; "009"%char; "013"%char; "010"%char]).
Fixpoint drop_while (p : ascii -> bool) (s : str) : str :=
  match s with [] => [] | c :: s' => if p c then drop_while p s' else s end.
Definition StripSpaces (s : str) : str := reverse (drop_while is_blank (reverse (drop_while is_blank s))).

(** ** [strtol] and [strtoul] in base 16 *)

Definition is_space (c : ascii) : bool := (code c =? 32) || ((9 <=? code c) && (code c <=? 13)).
Definition hex_digit (c : ascii) : option Z :=
  let n := code c in
  if (48 <=? n) && (n <=? 57) then Some (n - 48)
  else if (97 <=? n) && (n <=? 102) then Some (n - 87)
  else if (65 <=? n) && (n <=? 70) then Some (n - 55) else None.

(** The value of the leading digits after [acc], [None] when there is no digit. *)
Fixpoint digits (acc : option Z) (s : str) : option Z :=
  match s with
  | [] => acc
  | c :: s =>
      match hex_digit c with
      | Some d => digits (Some (16 * default 0 acc + d)) s
      | None => acc
      end
  end.
Definition drop_0x (s : str) : str :=
  match s with
  | a :: b :: c :: s' =>
      if bool_decide (a = "0"%char) && (bool_decide (b = "x"%char) || bool_decide (b = "X"%char)) && bool_decide (is_Some (hex_digit c))
      then c :: s' else s
  | _ => s
  end.
Definition parse_hex (s : str) : option Z :=
  match drop_while is_space s with
  | c :: s' =>
      if decide (c = "-"%char) then Z.opp <$> digits None (drop_0x s')
      else if decide (c = "+"%char) then digits None (drop_0x s')
      else digits None (drop_0x (c :: s'))
  | [] => None
  end.

(** [None]: [std::invalid_argument] or [std::out_of_range], both [std::logic_error]. *)
Definition stoi (s : str) : option Z :=
  v ← parse_hex s; if (- 2 ^ 31 <=? v) && (v <? 2 ^ 31) then Some v else None.
Definition stoul (s : str) : option Z :=
  v ← parse_hex s; if Z.abs v <? 2 ^ 64 then Some (u64 v) else None.

Example stoul_prefix : stoul (lit " 0x1fG4") = Some 31 /\ stoul (lit "-1") = Some (2 ^ 64 - 1) /\ stoul (lit "0xyz") = Some 0 /\ stoul (lit "g") = None.
Proof. repeat split; reflexivity. Qed.

(** ** Splitting and stripping *)

Lemma split_nonempty d s : split d s ≠ [].
Proof. destruct s as [|c s]; [done|]. cbn [split]. destruct (decide _); [done|]. by destruct (split d s). Qed.

Lemma split_app d l s : d ∉ l -> split d (l ++ d :: s) = l :: split d s.
Proof.
  induction l as [|c l IH]; intros Hd; cbn [app split].
  - by rewrite decide_True.
  - apply not_elem_of_cons in Hd as [Hc Hd]. rewrite decide_False by done. by rewrite IH.
Qed.

Definition join_lines (ls : list str) : str := mjoin ((fun l => l ++ [newline]) <$> ls).

Lemma split_join ls s : Forall (fun l => newline ∉ l) ls -> split newline (join_lines ls ++ s) = ls ++ split newline s.
Proof.
  unfold join_lines. induction 1 as [|l ls Hl _ IH]; [done|]. cbn [fmap list_fmap mjoin list_join]. rewrite <- !app_assoc. cbn [app].
  rewrite split_app by done. f_equal. exact IH.
Qed.

Lemma drop_empty_last_app ls : drop_empty_last (ls ++ [[]]) = ls.
Proof.
  induction ls as [|l ls IH]; [done|]. cbn [app drop_empty_last]. rewrite IH. destruct ls as [|l' ls]; [|done]. done.
Qed.

Lemma SplitString_join ls : Forall (fun l => newline ∉ l) ls -> SplitString (join_lines ls) newline = ls.
Proof. intros Hl. unfold SplitString. rewrite <- (app_nil_r (join_lines ls)), split_join by done. apply drop_empty_last_app. Qed.

(** What [StripSpaces] leaves alone. *)
Definition stripped (s : str) : Prop :=
  match s with [] => True | c :: _ => is_blank c = false end /\ match last s with None => True | Some c => is_blank c = false end.

Lemma StripSpaces_id s : stripped s -> StripSpaces s = s.
Proof.
  intros [Hf Hl]. unfold StripSpaces. assert (drop_while is_blank s = s) as ->.
  { destruct s as [|c s]; [done|]. cbn [drop_while]. by rewrite Hf. }
  rewrite <- (reverse_involutive s) at 2. f_equal. destruct (reverse s) as [|c r] eqn:E; [done|].
  cbn [drop_while]. rewrite <- (reverse_involutive s), E, reverse_cons, last_snoc in Hl. by rewrite Hl.
Qed.

End Str.
