(* ===== verification/CheatCodes.v ===== *)
(** * Cheats

    Gateway cheat codes (core/cheats/gateway_cheat.cpp) and the list of cheats of a
    game (core/cheats/cheats.cpp).  A cheat is a small program of lines; [Execute] runs it
    on the memory of a process, which it sees through the interface [Ram].  The log
    output, the directories of the host and the lock on the list are left out. *)
From stdpp Require Import strings.
From Stdlib Require Import Ascii.
From S2P Require Import Prelude StringUtil.
Import Str.
Open Scope Z_scope.

Module Cheat.

(** ** Lines *)

(** [Unnamed]: a value of the enumeration without an enumerator. *)
Inductive CheatType :=
| Null | Write32 | Write16 | Write8 | GreaterThan32 | LessThan32 | EqualTo32 | NotEqualTo32
| GreaterThan16WithMask | LessThan16WithMask | EqualTo16WithMask | NotEqualTo16WithMask
| LoadOffset | Loop | Terminator | LoopExecuteVariant | FullTerminator | SetOffset | AddValue | SetValue
| IncrementiveWrite32 | IncrementiveWrite16 | IncrementiveWrite8 | Load32 | Load16 | Load8 | AddOffset
| Joker | Patch | Unnamed (n : Z).
#[global] Instance CheatType_eq_dec : EqDecision CheatType.
Proof. solve_decision. Defined.

Definition CheatTypes : list (Z * CheatType) :=
  [(-1, Null); (0x00, Write32); (0x01, Write16); (0x02, Write8); (0x03, GreaterThan32); (0x04, LessThan32);
   (0x05, EqualTo32); (0x06, NotEqualTo32); (0x07, GreaterThan16WithMask); (0x08, LessThan16WithMask);
   (0x09, EqualTo16WithMask); (0x0A, NotEqualTo16WithMask); (0x0B, LoadOffset); (0x0C, Loop);
   (0xD0, Terminator); (0xD1, LoopExecuteVariant); (0xD2, FullTerminator); (0xD3, SetOffset);
   (0xD4, AddValue); (0xD5, SetValue); (0xD6, IncrementiveWrite32); (0xD7, IncrementiveWrite16);
   (0xD8, IncrementiveWrite8); (0xD9, Load32); (0xDA, Load16); (0xDB, Load8); (0xDC, AddOffset);
   (0xDD, Joker); (0xE, Patch)].
Definition to_CheatType (n : Z) : CheatType :=
  match list_find (fun p => p.1 = n) CheatTypes with Some (_, (_, t)) => t | None => Unnamed n end.

(** The numbers are [None] when the constructor left them unset. *)
Record CheatLine := mk_line { type : CheatType; address : option Z; value : option Z; first : option Z; cheat_line : str; valid : bool }.

Definition cheat_length : nat := 17.
Definition substr (pos n : nat) (s : str) : str := take n (drop pos s).

(** A parser that throws leaves what was assigned before it. *)
Definition parse_line (line : str) : CheatLine :=
  if negb (length line =? cheat_length)%nat then mk_line Null None None None line false
  else
    let type_temp := substr 0 1 line in
    let sub_type_temp := if bool_decide (type_temp = lit "D") || bool_decide (type_temp = lit "d") then substr 1 1 line else [] in
    match stoi (type_temp ++ sub_type_temp) with
    | None => mk_line Null None None None line false
    | Some t =>
        match stoul (substr 0 8 line) with
        | None => mk_line Null None None None line false
        | Some f =>
            let f := u32 f in
            let a := Z.land f 0x0FFFFFFF in
            match stoul (substr 9 8 line) with
            | None => mk_line Null (Some a) None (Some f) line false
            | Some v => mk_line (to_CheatType t) (Some a) (Some (u32 v)) (Some f) line true
            end
        end
    end.

Definition init (o : option Z) : outcome Z := of_opt FUninitialized o.

(** ** The machine *)

(** Memory of a process: [Read8], [Read16], [Read32] and the writes, by width in bytes. *)
Class Ram (P M : Type) := {
  read : P -> nat -> Z -> M -> outcome (Z * M);
  write : P -> nat -> Z -> Z -> M -> outcome M;
}.

Record State := mk_State { reg : Z; offset : Z; if_flag : Z; loop_count : Z; loop_back_line : Z; current_line_nr : Z; loop_flag : bool }.
Definition initial : State := mk_State 0 0 0 0 0 0 false.
Definition set_reg (r : Z) (s : State) := mk_State r (offset s) (if_flag s) (loop_count s) (loop_back_line s) (current_line_nr s) (loop_flag s).
Definition set_offset (o : Z) (s : State) := mk_State (reg s) o (if_flag s) (loop_count s) (loop_back_line s) (current_line_nr s) (loop_flag s).
Definition set_if (i : Z) (s : State) := mk_State (reg s) (offset s) i (loop_count s) (loop_back_line s) (current_line_nr s) (loop_flag s).
Definition set_count (c : Z) (s : State) := mk_State (reg s) (offset s) (if_flag s) c (loop_back_line s) (current_line_nr s) (loop_flag s).
Definition set_line (n : Z) (s : State) := mk_State (reg s) (offset s) (if_flag s) (loop_count s) (loop_back_line s) n (loop_flag s).

Section Machine.
Context {P M : Type} `{Ram P M}.

(** [invalidated]: the ranges passed to [System::InvalidateCacheRange], the oldest first. *)
Record env := mk_env { ram : M; invalidated : list (Z * Z) }.
Definition InvalidateCacheRange (addr size : Z) (e : env) : env := mk_env (ram e) (invalidated e ++ [(addr, size)]).

(** The process the cheat runs on and the state of the pad. *)
Context (process : P) (pad_state : Z).

Definition Read (n : nat) (addr : Z) (e : env) : outcome (Z * env) :=
  '(v, m) ← read process n addr (ram e); Done (v, mk_env m (invalidated e)).
Definition Write (n : nat) (addr data : Z) (e : env) : outcome env :=
  m ← write process n addr data (ram e); Done (mk_env m (invalidated e)).

(** Write [data] of [n] bytes unless it is there. *)
Definition poke (n : nat) (addr data : Z) (e : env) : outcome env :=
  let data := wrap (8 * Z.of_nat n) data in
  '(val, e) ← Read n addr e;
  if negb (val =? data) then e ← Write n addr data e; Done (InvalidateCacheRange addr (Z.of_nat n) e) else Done e.

Definition WriteOp (n : nat) (line : CheatLine) (s : State) (e : env) : outcome (State * env) :=
  a ← init (address line); v ← init (value line);
  e ← poke n (u32 (a + offset s)) v e; Done (s, e).

Definition fail (s : State) : State := set_if (u32 (if_flag s + 1)) s.

Definition CompOp (n : nat) (comp : Z -> Z -> bool) (line : CheatLine) (s : State) (e : env) : outcome (State * env) :=
  a ← init (address line); v ← init (value line);
  '(val, e) ← Read n (u32 (a + offset s)) e;
  Done (if comp v val then s else fail s, e).

(** The comparisons of the line's value with memory. *)
Definition masked (cmp : Z -> Z -> bool) (v val : Z) : bool :=
  cmp (u16 v) (Z.land (u16 (Z.shiftr (u32 (Z.lnot v)) 16)) val).
Definition greater (v val : Z) : bool := val <? v.

Definition LoadOffsetOp (line : CheatLine) (s : State) (e : env) : outcome (State * env) :=
  a ← init (address line);
  '(val, e) ← Read 4 (u32 (a + offset s)) e; Done (set_offset val s, e).

Definition LoopOp (line : CheatLine) (s : State) (e : env) : outcome (State * env) :=
  v ← init (value line);
  Done (mk_State (reg s) (offset s) (if_flag s) (u32 (loop_count s + 1)) (current_line_nr s) (current_line_nr s) (loop_count s <? v), e).

Definition TerminateOp (s : State) : State := if 0 <? if_flag s then set_if (if_flag s - 1) s else s.

Definition jump_back (s : State) : State := set_line (u64 (loop_back_line s - 1)) s.
Definition LoopExecuteVariantOp (s : State) : State := if loop_flag s then jump_back s else set_count 0 s.
Definition FullTerminateOp (s : State) : State :=
  if loop_flag s then jump_back s else mk_State 0 0 0 0 (loop_back_line s) (current_line_nr s) false.

Definition SetOffsetOp (line : CheatLine) (s : State) (e : env) : outcome (State * env) := v ← init (value line); Done (set_offset v s, e).
Definition AddValueOp (line : CheatLine) (s : State) (e : env) : outcome (State * env) := v ← init (value line); Done (set_reg (u32 (reg s + v)) s, e).
Definition SetValueOp (line : CheatLine) (s : State) (e : env) : outcome (State * env) := v ← init (value line); Done (set_reg v s, e).
Definition AddOffsetOp (line : CheatLine) (s : State) (e : env) : outcome (State * env) := v ← init (value line); Done (set_offset (u32 (offset s + v)) s, e).

Definition IncrementiveWriteOp (n : nat) (line : CheatLine) (s : State) (e : env) : outcome (State * env) :=
  v ← init (value line);
  e ← poke n (u32 (v + offset s)) (reg s) e;
  Done (set_offset (u32 (offset s + Z.of_nat n)) s, e).

Definition LoadOp (n : nat) (line : CheatLine) (s : State) (e : env) : outcome (State * env) :=
  v ← init (value line);
  '(val, e) ← Read n (u32 (v + offset s)) e; Done (set_reg val s, e).

Definition JokerOp (line : CheatLine) (s : State) (e : env) : outcome (State * env) :=
  v ← init (value line);
  let pressed := Z.land pad_state v =? v in
  Done (if pressed then s else fail s, e).

(** ** Patches *)

Definition patch_source (lines : list CheatLine) (is_first : bool) (line_nr : Z) : outcome Z :=
  l ← of_opt FOutOfRange (lines !! Z.to_nat line_nr);
  init (if is_first then first l else value l).

(** The loops over words and over the remaining bytes. *)
Fixpoint patch_words (fuel : nat) (lines : list CheatLine) (is_first : bool) (line_nr addr num_bytes : Z) (e : env)
  : outcome (bool * Z * Z * Z * env) :=
  if num_bytes <? 4 then Done (is_first, line_nr, addr, num_bytes, e)
  else match fuel with
  | O => Stop FFuel
  | S fuel =>
      tmp ← patch_source lines is_first line_nr;
      let line_nr := if negb is_first && (4 <? num_bytes) then line_nr + 1 else line_nr in
      e ← Write 4 addr tmp e;
      patch_words fuel lines (negb is_first) line_nr (u32 (addr + 4)) (num_bytes - 4) e
  end.
Fixpoint patch_bytes (fuel : nat) (lines : list CheatLine) (is_first : bool) (line_nr bit_offset addr num_bytes : Z) (e : env) : outcome env :=
  if num_bytes <=? 0 then Done e
  else match fuel with
  | O => Stop FFuel
  | S fuel =>
      tmp ← patch_source lines is_first line_nr;
      e ← Write 1 addr (u8 (Z.shiftr tmp bit_offset)) e;
      patch_bytes fuel lines is_first line_nr (bit_offset + 8) (u32 (addr + 1)) (num_bytes - 1) e
  end.

(** [std::ceil(value / 8.0)]: the quotient of a 32-bit integer and a power of two is exact. *)
Definition ceil_div8 (v : Z) : Z := (v + 7) / 8.

Definition PatchOp (lines : list CheatLine) (line : CheatLine) (s : State) (e : env) : outcome (State * env) :=
  num_bytes ← init (value line);
  if 0 <? if_flag s then Done (set_line (current_line_nr s + ceil_div8 num_bytes) s, e)
  else
    a ← init (address line);
    let addr := u32 (a + offset s) in
    let e := InvalidateCacheRange addr num_bytes e in
    let line_nr := if 0 <? num_bytes then current_line_nr s + 1 else current_line_nr s in
    '(is_first, line_nr, addr, rest, e) ← patch_words (Z.to_nat (num_bytes / 4)) lines true line_nr addr num_bytes e;
    e ← patch_bytes 3 lines is_first line_nr 0 addr rest e;
    Done (set_line line_nr s, e).

(** ** Execution *)

Definition execute_line (lines : list CheatLine) (line : CheatLine) (s : State) (e : env) : outcome (State * env) :=
  match type line with
  | Null => Done (s, e)
  | Write32 => WriteOp 4 line s e
  | Write16 => WriteOp 2 line s e
  | Write8 => WriteOp 1 line s e
  | GreaterThan32 => CompOp 4 greater line s e
  | LessThan32 => CompOp 4 Z.ltb line s e
  | EqualTo32 => CompOp 4 Z.eqb line s e
  | NotEqualTo32 => CompOp 4 (fun v val => negb (v =? val)) line s e
  | GreaterThan16WithMask => CompOp 2 (masked greater) line s e
  | LessThan16WithMask => CompOp 2 (masked Z.ltb) line s e
  | EqualTo16WithMask => CompOp 2 (masked Z.eqb) line s e
  | NotEqualTo16WithMask => CompOp 2 (masked (fun v val => negb (v =? val))) line s e
  | LoadOffset => LoadOffsetOp line s e
  | Loop => LoopOp line s e
  | Terminator => Done (TerminateOp s, e)
  | LoopExecuteVariant => Done (LoopExecuteVariantOp s, e)
  | FullTerminator => Done (FullTerminateOp s, e)
  | SetOffset => SetOffsetOp line s e
  | AddValue => AddValueOp line s e
  | SetValue => SetValueOp line s e
  | IncrementiveWrite32 => IncrementiveWriteOp 4 line s e
  | IncrementiveWrite16 => IncrementiveWriteOp 2 line s e
  | IncrementiveWrite8 => IncrementiveWriteOp 1 line s e
  | Load32 => LoadOp 4 line s e
  | Load16 => LoadOp 2 line s e
  | Load8 => LoadOp 1 line s e
  | AddOffset => AddOffsetOp line s e
  | Joker => JokerOp line s e
  | Patch => PatchOp lines line s e
  | Unnamed _ => Done (s, e)
  end.

Definition is_condition (t : CheatType) : bool :=
  match t with
  | GreaterThan32 | LessThan32 | EqualTo32 | NotEqualTo32 | GreaterThan16WithMask | LessThan16WithMask
  | EqualTo16WithMask | NotEqualTo16WithMask | Joker => true
  | _ => false
  end.

(** A line of a block whose condition failed. *)
Definition skip_line (lines : list CheatLine) (line : CheatLine) (s : State) (e : env) : outcome (State * env) :=
  if is_condition (type line) then Done (fail s, e)
  else match type line with
  | Patch => PatchOp lines line s e
  | Terminator => Done (TerminateOp s, e)
  | FullTerminator => Done (FullTerminateOp s, e)
  | _ => Done (s, e)
  end.

(** One round of the loop over the lines. *)
Definition step (lines : list CheatLine) (line : CheatLine) (s : State) (e : env) : outcome (State * env) :=
  '(s, e) ← (if 0 <? if_flag s then skip_line lines line s e else execute_line lines line s e);
  Done (set_line (u64 (current_line_nr s + 1)) s, e).

Fixpoint run (fuel : nat) (lines : list CheatLine) (s : State) (e : env) : outcome (State * env) :=
  match lines !! Z.to_nat (current_line_nr s) with
  | None => Done (s, e)
  | Some line =>
      match fuel with
      | O => Stop FFuel
      | S fuel => '(s, e) ← step lines line s e; run fuel lines s e
      end
  end.

(** Each jump back to a [Loop] line uses up one of its rounds: see [run_ends]. *)
Definition rounds (lines : list CheatLine) : Z :=
  foldr (fun l n => match type l with Loop => default 0 (value l) | _ => 0 end + n) 0 lines.
Definition steps (lines : list CheatLine) : nat := Z.to_nat (Z.of_nat (length lines) * (1 + rounds lines)).

Definition Execute_lines (lines : list CheatLine) (e : env) : outcome env :=
  '(_, e) ← run (steps lines) lines initial e; Done e.

End Machine.
#[global] Arguments env M : clear implicits.

(** ** Cheats and their files *)

Record GatewayCheat := mk_cheat { enabled : bool; name : str; cheat_lines : list CheatLine; comments : str }.

(** The constructor from the text of a cheat. *)
Definition from_code (name_ code_ comments_ : str) : GatewayCheat :=
  mk_cheat false name_ (parse_line <$> filter (fun l => l ≠ []) (SplitString code_ newline)) comments_.
Definition SetEnabled (b : bool) (c : GatewayCheat) : GatewayCheat := mk_cheat b (name c) (cheat_lines c) (comments c).

Definition GetCode (c : GatewayCheat) : str := join_lines (cheat_line <$> cheat_lines c).
Definition EnabledText : str := lit "*citra_enabled".
Definition ToString (c : GatewayCheat) : str :=
  lit "[" ++ name c ++ lit "]" ++ [newline] ++
  (if enabled c then EnabledText ++ [newline] else []) ++
  join_lines ((fun l => lit "*" ++ l) <$> SplitString (comments c) newline) ++
  GetCode c ++ [newline].

(** The variables of the loop of [LoadFile]. *)
Record loader := mk_loader { l_cheats : list GatewayCheat; l_comments : str; l_lines : list CheatLine; l_name : str; l_enabled : bool }.

Definition starts_with (c : ascii) (s : str) : bool := match s with c' :: _ => bool_decide (c' = c) | [] => false end.
Definition push_cheat (l : loader) : list GatewayCheat := l_cheats l ++ [mk_cheat (l_enabled l) (l_name l) (l_lines l) (l_comments l)].

Definition load_line (l : loader) (line : str) : loader :=
  let line := StripSpaces (filter (fun c => c ≠ nul) line) in
  if (2 <=? length line)%nat && starts_with "[" line then
    let name_ := substr 1 (length line - 2) line in
    match l_lines l with
    | [] => mk_loader (l_cheats l) [] [] name_ (l_enabled l)
    | _ => mk_loader (push_cheat l) [] [] name_ false
    end
  else if starts_with "*" line then
    if bool_decide (line = EnabledText) then mk_loader (l_cheats l) (l_comments l) (l_lines l) (l_name l) true
    else mk_loader (l_cheats l) (l_comments l ++ substr 1 (length line - 1) line ++ [newline]) (l_lines l) (l_name l) (l_enabled l)
  else match line with
  | [] => l
  | _ => mk_loader (l_cheats l) (l_comments l) (l_lines l ++ [parse_line line]) (l_name l) (l_enabled l)
  end.

Definition LoadFile (file : str) : list GatewayCheat :=
  let l := foldl load_line (mk_loader [] [] [] [] false) (split newline file) in
  match l_lines l with [] => l_cheats l | _ => push_cheat l end.

(** ** The engine *)

Section Engine.
Context {P M : Type} `{Ram P M}.

(** The files of the cheats directory by title. *)
Record engine := mk_engine { cheats_list : list GatewayCheat; loaded_title_id : option Z; process_id : Z; files : gmap Z str }.

Definition run_interval_ticks : Z := 50000000.

(** The cheats run on this process from now on; the delay of the first run. *)
Definition Connect (id : Z) (g : engine) : engine * Z := (mk_engine (cheats_list g) (loaded_title_id g) id (files g), run_interval_ticks).
Definition AddCheat (c : GatewayCheat) (g : engine) : engine := mk_engine (cheats_list g ++ [c]) (loaded_title_id g) (process_id g) (files g).
Definition RemoveCheat (index : nat) (g : engine) : engine :=
  if (length (cheats_list g) <=? index)%nat then g else mk_engine (delete index (cheats_list g)) (loaded_title_id g) (process_id g) (files g).
Definition UpdateCheat (index : nat) (c : GatewayCheat) (g : engine) : engine :=
  if (length (cheats_list g) <=? index)%nat then g else mk_engine (<[index := c]> (cheats_list g)) (loaded_title_id g) (process_id g) (files g).

Definition SaveCheatFile (title_id : Z) (g : engine) : engine :=
  mk_engine (cheats_list g) (loaded_title_id g) (process_id g) (<[title_id := mjoin (ToString <$> cheats_list g)]> (files g)).
Definition LoadCheatFile (title_id : Z) (g : engine) : engine :=
  if bool_decide (loaded_title_id g = Some title_id) then g
  else mk_engine (match files g !! title_id with Some f => LoadFile f | None => [] end) (Some title_id) (process_id g) (files g).

(** [GetProcessById] *)
Definition Execute (processes : Z -> option P) (pad_state : Z) (c : GatewayCheat) (id : Z) (e : env M) : outcome (env M) :=
  match processes id with
  | None => Done e
  | Some p => Execute_lines p pad_state (cheat_lines c) e
  end.

Fixpoint execute_all (processes : Z -> option P) (pad_state : Z) (id : Z) (cs : list GatewayCheat) (e : env M) : outcome (env M) :=
  match cs with
  | [] => Done e
  | c :: cs => e ← (if enabled c then Execute processes pad_state c id e else Done e); execute_all processes pad_state id cs e
  end.

(** The delay of the next run. *)
Definition RunCallback (processes : Z -> option P) (pad_state : Z) (cycles_late : Z) (g : engine) (e : env M) : outcome (Z * env M) :=
  e ← execute_all processes pad_state (process_id g) (cheats_list g) e;
  Done (s64 (run_interval_ticks - cycles_late), e).
End Engine.

End Cheat.
