(* ===== verification/CheatRuns.v ===== *)
(** * Cheats end

    What a line does to the position and the loop of a cheat ([moves]), and a measure
    that every step lowers: the rounds its loops have left and the lines ahead. *)
From stdpp Require Import strings.
From Stdlib Require Import Ascii.
From S2P Require Import Prelude StringUtil CheatCodes.
Import Str Cheat.
Open Scope Z_scope.

Module CR.

(** ** Parsed lines *)

Record wf_line (l : CheatLine) : Prop := {
  wf_set : type l ≠ Null -> is_Some (address l) /\ is_Some (value l);
  wf_value v : value l = Some v -> 0 <= v < 2 ^ 32 /\ is_Some (first l);
}.

Lemma parse_line_wf line : wf_line (parse_line line).
Proof.
  unfold parse_line. set (t := stoi _).
  destruct (negb _); [by split|]. destruct t as [t|]; [|by split]. destruct (stoul (substr 0 8 line)) as [f|]; [|by split].
  destruct (stoul (substr 9 8 line)) as [v|]; [|by split]. split; cbn; [by eauto|]. intros ? [= <-]. split; [apply u32_range|by eauto].
Qed.

Lemma parse_lines_wf ls : Forall wf_line (parse_line <$> ls).
Proof. apply Forall_fmap, Forall_true. intros l. apply parse_line_wf. Qed.

(** ** What the checks before running a cheat ask for *)

(** No conditional inside a loop before a [FullTerminator]: 1 after a [Loop] line, 2 after a condition behind it. *)
Fixpoint no_guarded_end (stage : nat) (lines : list CheatLine) : bool :=
  match lines with
  | [] => true
  | l :: lines =>
      match type l with
      | Loop => no_guarded_end (Nat.max 1 stage) lines
      | FullTerminator => negb (stage =? 2)%nat && no_guarded_end stage lines
      | t => no_guarded_end (if is_condition t && (0 <? stage)%nat then 2 else stage) lines
      end
  end.

(** The lines a patch copies from exist. *)
Fixpoint patches_inside (lines : list CheatLine) : bool :=
  match lines with
  | [] => true
  | l :: lines =>
      match type l, value l with
      | Patch, Some v => let k := Z.to_nat (ceil_div8 v) in
          (k <=? length lines)%nat && forallb (fun l => bool_decide (is_Some (value l))) (take k lines)
      | _, _ => true
      end && patches_inside lines
  end.

Lemma no_guarded_end_mono st lines : (st <= 2)%nat -> no_guarded_end st lines = true -> forall st', (st' <= st)%nat -> no_guarded_end st' lines = true.
Proof.
  revert st. induction lines as [|l ls IH]; intros st Hst Hs st' Hle; [done|]. cbn [no_guarded_end] in *.
  destruct (type l) eqn:E; cbn [is_condition andb] in *;
    try (eapply IH; [|exact Hs|]; lia);
    try (destruct (Nat.ltb_spec 0 st), (Nat.ltb_spec 0 st'); try lia; (eapply IH; [|exact Hs|]; lia)).
  apply andb_true_iff in Hs as [Hn Hs]. apply andb_true_iff. split; [|eapply IH; [|exact Hs|]; lia].
  apply negb_true_iff, Nat.eqb_neq in Hn. apply negb_true_iff, Nat.eqb_neq. lia.
Qed.

Lemma guarded_2 lines k l : no_guarded_end 2 lines = true -> lines !! k = Some l -> type l ≠ FullTerminator.
Proof.
  revert k. induction lines as [|l' ls IH]; intros k Hs Hk; [done|]. cbn [no_guarded_end] in Hs.
  destruct k as [|k]; cbn [lookup list_lookup] in Hk.
  - injection Hk as ->. intros E. by rewrite E in Hs.
  - apply (IH k); [|done]. destruct (type l'); cbn in Hs; try done.
Qed.

Lemma guarded_1 lines j k lj l : (j < k)%nat -> no_guarded_end 1 lines = true -> lines !! j = Some lj -> is_condition (type lj) = true ->
  lines !! k = Some l -> type l ≠ FullTerminator.
Proof.
  revert j k. induction lines as [|l' ls IH]; intros j k Hjk Hs Hj Hc Hk; [done|]. cbn [no_guarded_end] in Hs.
  destruct k as [|k]; [lia|]. cbn [lookup list_lookup] in Hk. destruct j as [|j]; cbn [lookup list_lookup] in Hj.
  - injection Hj as ->. apply (guarded_2 ls k); [|done]. destruct (type lj); cbn in Hc, Hs; done.
  - apply (IH j k); try done; [lia|]. destruct (type l'); cbn in Hs; try done; (eapply no_guarded_end_mono; [|exact Hs|]; lia).
Qed.

Lemma guarded lines i j k li lj l : (i < j < k)%nat -> no_guarded_end 0 lines = true -> lines !! i = Some li -> type li = Loop ->
  lines !! j = Some lj -> is_condition (type lj) = true -> lines !! k = Some l -> type l ≠ FullTerminator.
Proof.
  revert i j k. induction lines as [|l' ls IH]; intros i j k Hijk Hs Hi Ht Hj Hc Hk; [done|]. cbn [no_guarded_end] in Hs.
  destruct k as [|k]; [lia|]. destruct j as [|j]; [lia|]. cbn [lookup list_lookup] in Hk, Hj. destruct i as [|i]; cbn [lookup list_lookup] in Hi.
  - injection Hi as ->. rewrite Ht in Hs. by apply (guarded_1 ls j k lj); [lia|..].
  - apply (IH i j k); try done; [lia|]. destruct (type l'); cbn in Hs; try done; (eapply no_guarded_end_mono; [|exact Hs|]; lia).
Qed.

Lemma patch_lines lines i l v : patches_inside lines = true -> lines !! i = Some l -> type l = Patch -> value l = Some v ->
  forall k, (i < k <= i + Z.to_nat (ceil_div8 v))%nat -> exists l', lines !! k = Some l' /\ is_Some (value l').
Proof.
  revert i. induction lines as [|l' ls IH]; intros i Hp Hi Ht Hv k Hk; [done|]. cbn [patches_inside] in Hp.
  apply andb_true_iff in Hp as [Hp Hps]. destruct i as [|i]; cbn [lookup list_lookup] in Hi.
  - injection Hi as ->. rewrite Ht, Hv in Hp. apply andb_true_iff in Hp as [Hlen Hf]. apply Nat.leb_le in Hlen.
    destruct k as [|k]; [lia|]. cbn [lookup list_lookup]. destruct (lookup_lt_is_Some_2 ls k) as [l' Hl']; [lia|].
    exists l'. split; [done|]. rewrite forallb_forall in Hf. apply (bool_decide_eq_true_1 (is_Some (value l'))), Hf.
    apply list_elem_of_In, (list_elem_of_lookup_2 _ k). rewrite lookup_take_lt by lia. done.
  - destruct k as [|k]; [lia|]. cbn [lookup list_lookup]. apply (IH i); try done; lia.
Qed.

(** ** One line *)

Section Runs.
Context {P M : Type} `{Ram P M} (process : P) (pad_state : Z).
Implicit Types (s t : State) (e : env M) (l : CheatLine).

(** The faults of memory accesses. *)
Definition mem_fault (f : fault) : Prop := (exists n a m, read process n a m = Stop f) \/ exists n a v m, write process n a v m = Stop f.

(** A computation only stops where a memory access does, and its results satisfy [Q]. *)
Definition ends {A} (Q : A -> Prop) (o : outcome A) : Prop := match o with Done a => Q a | Stop f => mem_fault f end.

Lemma ends_bind {A B} (Q : A -> Prop) (R : B -> Prop) (o : outcome A) (k : A -> outcome B) :
  ends Q o -> (forall a, Q a -> ends R (k a)) -> ends R (o ≫= k).
Proof. destruct o as [a|f]; [by intros Ha Hk; apply Hk|done]. Qed.

Lemma ends_mono {A} (Q R : A -> Prop) (o : outcome A) : ends Q o -> (forall a, Q a -> R a) -> ends R o.
Proof. destruct o; [by intros Ha Hk; apply Hk|done]. Qed.

Lemma ends_Read n a e : ends (fun _ => True) (Read process n a e).
Proof. unfold Read, ends. destruct (read process n a (ram e)) as [[v m]|f] eqn:E; cbn; [done|]. left. by eauto. Qed.

Lemma ends_Write n a v e : ends (fun _ => True) (Write process n a v e).
Proof. unfold Write, ends. destruct (write process n a v (ram e)) as [m|f] eqn:E; cbn; [done|]. right. by eauto. Qed.

Lemma ends_poke n a v e : ends (fun _ => True) (poke process n a v e).
Proof.
  unfold poke. apply (ends_bind (fun _ => True)); [apply ends_Read|]. intros [val e'] _. destruct (negb _); [|done].
  apply (ends_bind (fun _ => True)); [apply ends_Write|done].
Qed.

(** What a line does to the position, before the line number is raised. *)
Inductive moves l s : State -> Prop :=
| mv_loop v : type l = Loop -> value l = Some v -> if_flag s = 0 ->
    moves l s (mk_State (reg s) (offset s) (if_flag s) (u32 (loop_count s + 1)) (current_line_nr s) (current_line_nr s) (loop_count s <? v))
| mv_jump : loop_flag s = true -> type l ≠ Loop -> (0 < if_flag s -> type l = FullTerminator) -> moves l s (jump_back s)
| mv_next t d : 0 <= d <= 2 ^ 30 -> (type l = Loop -> 0 < if_flag s) -> current_line_nr t = current_line_nr s + d ->
    (loop_flag t = true -> loop_flag s = true /\ loop_count t = loop_count s /\ loop_back_line t = loop_back_line s) ->
    (0 < if_flag t -> 0 < if_flag s \/ is_condition (type l) = true) -> 0 <= if_flag t < 2 ^ 32 -> 0 <= loop_count t < 2 ^ 32 -> moves l s t.

Record in_range s : Prop := { ir_if : 0 <= if_flag s < 2 ^ 32; ir_count : 0 <= loop_count s < 2 ^ 32 }.

(** A line that keeps position and loop. *)
Lemma moves_same l s t : in_range s -> (type l = Loop -> 0 < if_flag s) -> current_line_nr t = current_line_nr s ->
  loop_flag t = loop_flag s -> loop_count t = loop_count s -> loop_back_line t = loop_back_line s -> if_flag t = if_flag s -> moves l s t.
Proof. intros [] Hl Hc Hf Hn Hb Hi. apply (mv_next l s t 0); rewrite ?Hc, ?Hf, ?Hn, ?Hb, ?Hi; auto; lia. Qed.

Lemma moves_fail l s : in_range s -> is_condition (type l) = true -> moves l s (fail s).
Proof.
  intros [] Hc. apply (mv_next l s _ 0); cbn; try done; try lia; auto using u32_range.
  intros E. by rewrite E in Hc.
Qed.

Lemma moves_test l s (b : bool) : in_range s -> is_condition (type l) = true -> moves l s (if b then s else fail s).
Proof.
  intros Hs Hc. destruct b; [|by apply moves_fail]. apply moves_same; auto. intros E. by rewrite E in Hc.
Qed.

(** ** Patches *)

Fixpoint write_seq (n : nat) (l : list Z) (addr : Z) (e : env M) : outcome (env M) :=
  match l with
  | [] => Done e
  | v :: l => e ← Write process n addr v e; write_seq n l (u32 (addr + Z.of_nat n)) e
  end.

Lemma ends_write_seq n vs : forall a e, ends (fun _ => True) (write_seq n vs a e).
Proof using Type.
  induction vs as [|v vs IH]; intros a e; [done|]. cbn [write_seq]. apply (ends_bind (fun _ => True)); [apply ends_Write|]. intros e' _. apply IH.
Qed.

(** The words of the lines behind line [i]: two per line. *)
Definition patch_word (lines : list CheatLine) (i w : Z) : Z :=
  match lines !! Z.to_nat (i + 1 + w / 2) with
  | Some l => default 0 (if Z.even w then first l else value l)
  | None => 0
  end.
(** The line the patch stands at before word [w] when [rest] bytes are left. *)
Definition patch_line (i w rest : Z) : Z := if 0 <? rest then i + 1 + w / 2 else i + (w + 1) / 2.

Definition has_word (lines : list CheatLine) (i w : Z) : Prop :=
  exists l, lines !! Z.to_nat (i + 1 + w / 2) = Some l /\ is_Some (first l) /\ is_Some (value l).

Lemma patch_source_word lines i w : has_word lines i w -> patch_source lines (Z.even w) (i + 1 + w / 2) = Done (patch_word lines i w).
Proof using Type. intros (l & Hl & [f Hf] & [v Hv]). unfold patch_source, patch_word. rewrite Hl. cbn. rewrite Hf, Hv. by destruct (Z.even w). Qed.

Lemma patch_line_next i w rest : 4 <= rest ->
  (if negb (Z.even w) && (4 <? rest) then patch_line i w rest + 1 else patch_line i w rest) = patch_line i (w + 1) (rest - 4).
Proof using Type.
  intros Hr. unfold patch_line. destruct (Z.ltb_spec 0 rest); [|lia]. pose proof (Zmod_even w) as Hw.
  destruct (Z.ltb_spec 4 rest), (Z.ltb_spec 0 (rest - 4)); try lia; destruct (Z.even w); cbn [negb andb]; Z.div_mod_to_equations; lia.
Qed.

Lemma patch_words_eq lines i m : forall w r addr e, 0 <= r < 4 -> 0 <= addr < 2 ^ 32 -> (forall j, w <= j < w + Z.of_nat m -> has_word lines i j) ->
  patch_words process m lines (Z.even w) (patch_line i w (4 * Z.of_nat m + r)) addr (4 * Z.of_nat m + r) e =
  (e ← write_seq 4 (patch_word lines i <$> seqZ w (Z.of_nat m)) addr e;
   Done (Z.even (w + Z.of_nat m), patch_line i (w + Z.of_nat m) r, u32 (addr + 4 * Z.of_nat m), r, e)).
Proof using Type.
  induction m as [|m IH]; intros w r addr e Hr Ha Hw.
  - cbn [patch_words]. destruct (Z.ltb_spec (4 * Z.of_nat 0 + r) 4); [|lia]. cbn. rewrite !Z.add_0_r, Z.add_0_l, u32_small by lia. done.
  - cbn [patch_words]. destruct (Z.ltb_spec (4 * Z.of_nat (S m) + r) 4); [lia|].
    assert (patch_line i w (4 * Z.of_nat (S m) + r) = i + 1 + w / 2) as Hk by (unfold patch_line; destruct (Z.ltb_spec 0 (4 * Z.of_nat (S m) + r)); lia).
    rewrite Hk at 1. rewrite patch_source_word by (apply Hw; lia). rewrite seqZ_cons by lia. cbn [mbind outcome_bind fmap list_fmap write_seq].
    destruct (Write process 4 addr (patch_word lines i w) e) as [e'|f]; [|done]. cbn [mbind outcome_bind].
    rewrite patch_line_next by lia. replace (negb (Z.even w)) with (Z.even (w + 1)) by (rewrite Z.even_add; by destruct (Z.even w)).
    replace (4 * Z.of_nat (S m) + r - 4) with (4 * Z.of_nat m + r) by lia. change (Z.of_nat 4) with 4.
    rewrite (IH (w + 1)); [|done|apply u32_range|intros j Hj; apply Hw; lia].
    replace (Z.pred (Z.of_nat (S m))) with (Z.of_nat m) by lia. replace (Z.succ w) with (w + 1) by lia. replace (w + 1 + Z.of_nat m) with (w + Z.of_nat (S m)) by lia.
    replace (u32 (u32 (addr + 4) + 4 * Z.of_nat m)) with (u32 (addr + 4 * Z.of_nat (S m))) by (unfold u32, wrap; rewrite Zplus_mod_idemp_l; f_equal; lia).
    done.
Qed.

Definition rest_bytes (w j n : Z) : list Z := (fun j => u8 (Z.shiftr w (8 * j))) <$> seqZ j n.

Lemma patch_bytes_eq lines i w n : forall fuel j addr e, (n <= fuel)%nat -> (0 < n -> has_word lines i w)%nat ->
  patch_bytes process fuel lines (Z.even w) (i + 1 + w / 2) (8 * j) addr (Z.of_nat n) e = write_seq 1 (rest_bytes (patch_word lines i w) j (Z.of_nat n)) addr e.
Proof using Type.
  induction n as [|n IH]; intros fuel j addr e Hf Hw; [by destruct fuel|].
  destruct fuel as [|fuel]; [lia|]. cbn [patch_bytes]. destruct (Z.leb_spec (Z.of_nat (S n)) 0); [lia|].
  rewrite patch_source_word by (apply Hw; lia). unfold rest_bytes. rewrite seqZ_cons by lia. cbn [mbind outcome_bind fmap list_fmap write_seq].
  destruct (Write process 1 addr _ e) as [e'|f]; [|done]. cbn [mbind outcome_bind]. replace (8 * j + 8) with (8 * (j + 1)) by lia.
  replace (Z.of_nat (S n) - 1) with (Z.of_nat n) by lia. change (Z.of_nat 1) with 1. rewrite (IH fuel (j + 1)); [|lia|intros; apply Hw; lia].
  unfold rest_bytes. do 2 f_equal. f_equal; lia.
Qed.

(** A patch writes the words and the bytes left of the lines behind it, and stops at the last of them. *)
Lemma PatchOp_eq lines l s e v a : value l = Some v -> address l = Some a -> if_flag s = 0 -> 0 <= v < 2 ^ 32 -> 0 <= current_line_nr s ->
  (forall j, 0 <= j <= v / 4 -> 4 * j < v -> has_word lines (current_line_nr s) j) ->
  PatchOp process lines l s e =
  let word := patch_word lines (current_line_nr s) in
  let addr := u32 (a + offset s) in
  e ← write_seq 4 (word <$> seqZ 0 (v / 4)) addr (InvalidateCacheRange addr v e);
  e ← write_seq 1 (rest_bytes (word (v / 4)) 0 (v mod 4)) (u32 (addr + 4 * (v / 4))) e;
  Done (set_line (current_line_nr s + ceil_div8 v) s, e).
Proof using Type.
  intros Hv Ha Hi Hr Hk Hw. unfold PatchOp. rewrite Hv, Ha, Hi. cbn [init of_opt mbind outcome_bind]. change (0 <? 0) with false. cbv iota zeta.
  set (i := current_line_nr s) in *. set (addr := u32 (a + offset s)).
  assert ((if 0 <? v then i + 1 else i) = patch_line i 0 v) as -> by (unfold patch_line; destruct (0 <? v); Z.div_mod_to_equations; lia).
  assert (0 <= v mod 4 < 4) as Hm by (apply Z.mod_pos_bound; lia).
  assert (4 * Z.of_nat (Z.to_nat (v / 4)) + v mod 4 = v) as Ev by (rewrite Z2Nat.id by (apply Z.div_pos; lia); symmetry; apply Z.div_mod; lia).
  pose proof (patch_words_eq lines i (Z.to_nat (v / 4)) 0 (v mod 4) addr (InvalidateCacheRange addr v e) Hm (u32_range _)) as Ew.
  rewrite Ev in Ew. change (Z.even 0) with true in Ew. rewrite Ew; clear Ew;
    [|intros j Hj; rewrite Z2Nat.id in Hj by (apply Z.div_pos; lia); apply Hw; Z.div_mod_to_equations; lia].
  rewrite !Z2Nat.id by (apply Z.div_pos; lia). rewrite Z.add_0_l.
  destruct (write_seq 4 _ addr _) as [e1|f]; [|done]. cbn [mbind outcome_bind].
  destruct (Z.eq_dec (v mod 4) 0) as [E0|E0].
  - rewrite E0. unfold rest_bytes. change (seqZ 0 0) with (@nil Z). cbn [fmap list_fmap write_seq patch_bytes mbind outcome_bind].
    change (0 <=? 0) with true. cbv iota. cbn [mbind outcome_bind]. do 3 f_equal. unfold patch_line, ceil_div8. change (0 <? 0) with false. cbv iota.
    Z.div_mod_to_equations; lia.
  - assert (patch_line i (v / 4) (v mod 4) = i + 1 + v / 4 / 2) as -> by (unfold patch_line; destruct (Z.ltb_spec 0 (v mod 4)); [done|lia]).
    change 0 with (8 * 0) at 1. rewrite <- (Z2Nat.id (v mod 4)) at 1 by lia.
    rewrite patch_bytes_eq; [|lia|intros _; apply Hw; Z.div_mod_to_equations; lia].
    rewrite Z2Nat.id by lia. destruct (write_seq 1 _ _ _) as [e2|f]; [|done]. cbn [mbind outcome_bind]. do 3 f_equal.
    unfold ceil_div8. Z.div_mod_to_equations; lia.
Qed.

Lemma patch_has_words lines l s v : Forall wf_line lines -> patches_inside lines = true -> 0 <= current_line_nr s ->
  lines !! Z.to_nat (current_line_nr s) = Some l -> type l = Patch -> value l = Some v -> 0 <= v ->
  forall j, 0 <= j <= v / 4 -> 4 * j < v -> has_word lines (current_line_nr s) j.
Proof using Type.
  intros Hwf Hp Hk Hl Ht Hv Hv0 j Hj Hlt. destruct (patch_lines lines _ l v Hp Hl Ht Hv (Z.to_nat (current_line_nr s + 1 + j / 2))) as (l' & Hl' & [v' Hv']).
  - unfold ceil_div8. split; [apply Z2Nat.inj_lt; Z.div_mod_to_equations; lia|].
    rewrite <- Z2Nat.inj_add by (Z.div_mod_to_equations; lia). apply Z2Nat.inj_le; Z.div_mod_to_equations; lia.
  - exists l'. split; [done|]. pose proof (Forall_lookup_1 _ _ _ _ Hwf Hl') as Hw. destruct (wf_value _ Hw v' Hv') as [_ Hf]. by eauto.
Qed.

(** ** One step *)

Definition moved l s (p : State * env M) : Prop := moves l s p.1.

Lemma ends_same {A} l s (o : outcome A) (k : A -> State * env M) : ends (fun _ => True) o -> (forall a, moves l s (k a).1) ->
  ends (moved l s) (a ← o; Done (k a)).
Proof using Type. intros Ho Hk. apply (ends_bind (fun _ => True)); [done|]. intros a _. apply Hk. Qed.

Lemma PatchOp_moves lines l s e : Forall wf_line lines -> patches_inside lines = true -> in_range s -> 0 <= current_line_nr s ->
  lines !! Z.to_nat (current_line_nr s) = Some l -> type l = Patch -> ends (moved l s) (PatchOp process lines l s e).
Proof using Type.
  intros Hwf Hp Hs Hk Hl Ht. pose proof (Forall_lookup_1 _ _ _ _ Hwf Hl) as Hw. destruct (wf_set _ Hw) as [[a Ha] [v Hv]]; [by rewrite Ht|].
  destruct (wf_value _ Hw v Hv) as [Hr _].
  assert (forall t, t = set_line (current_line_nr s + ceil_div8 v) s -> moves l s t) as Hmove.
  { intros t ->. destruct Hs. apply (mv_next l s _ (ceil_div8 v)); cbn; try done; [unfold ceil_div8; Z.div_mod_to_equations; lia|by rewrite Ht|by left]. }
  destruct (Z.ltb_spec 0 (if_flag s)) as [Hif|Hif].
  - unfold PatchOp. rewrite Hv. cbn [init of_opt mbind outcome_bind]. rewrite (proj2 (Z.ltb_lt _ _) Hif). by apply Hmove.
  - destruct Hs. rewrite (PatchOp_eq lines l s e v a) by (done || lia || (apply (patch_has_words lines l s v); done || lia)). cbv zeta.
    apply (ends_bind (fun _ => True)); [apply ends_write_seq|]. intros e1 _. apply (ends_bind (fun _ => True)); [apply ends_write_seq|]. intros e2 _.
    by apply Hmove.
Qed.

Lemma jump_moves l s t : in_range s -> type l ≠ Loop -> (0 < if_flag s -> type l = FullTerminator) ->
  (loop_flag s = false -> current_line_nr t = current_line_nr s /\ loop_flag t = false /\ (0 < if_flag t -> 0 < if_flag s) /\ in_range t) ->
  moves l s (if loop_flag s then jump_back s else t).
Proof using Type.
  intros Hs Hl Hf Ht. destruct (loop_flag s) eqn:E; [by apply mv_jump|]. destruct (Ht eq_refl) as (Hc & Hlt & Hi & []).
  apply (mv_next l s t 0); rewrite ?Hc, ?Hlt; try done; try lia; auto.
Qed.

Lemma Terminate_moves l s : in_range s -> type l ≠ Loop -> moves l s (TerminateOp s).
Proof using Type.
  intros [] Hl. unfold TerminateOp. destruct (Z.ltb_spec 0 (if_flag s)); [|by apply moves_same].
  apply (mv_next l s _ 0); cbn; try done; try lia; auto.
Qed.

Lemma FullTerminate_moves l s : in_range s -> type l = FullTerminator -> moves l s (FullTerminateOp s).
Proof using Type. intros Hs Ht. apply jump_moves; [done|by rewrite Ht|done|]. intros _. repeat split; cbn; lia. Qed.

Lemma skip_moves lines l s e : Forall wf_line lines -> patches_inside lines = true -> in_range s -> 0 <= current_line_nr s ->
  lines !! Z.to_nat (current_line_nr s) = Some l -> 0 < if_flag s -> ends (moved l s) (skip_line process lines l s e).
Proof using Type.
  intros Hwf Hp Hs Hk Hl Hif. unfold skip_line. destruct (is_condition (type l)) eqn:Hc; [by apply moves_fail|].
  destruct (type l) eqn:Ht; try discriminate Hc;
    first [by apply PatchOp_moves | apply Terminate_moves; [done|by rewrite Ht] | by apply FullTerminate_moves | apply moves_same; auto].
Qed.

Ltac ends_mem := first [apply ends_Read | apply ends_poke | apply ends_Write].

Lemma execute_moves lines l s e : Forall wf_line lines -> patches_inside lines = true -> in_range s -> 0 <= current_line_nr s ->
  lines !! Z.to_nat (current_line_nr s) = Some l -> if_flag s = 0 -> ends (moved l s) (execute_line process pad_state lines l s e).
Proof using Type.
  intros Hwf Hp Hs Hk Hl Hif. pose proof (Forall_lookup_1 _ _ _ _ Hwf Hl) as Hw.
  destruct (decide (type l = Null)) as [En|En]; [unfold execute_line; rewrite En; apply moves_same; auto; by rewrite En|].
  destruct (wf_set _ Hw En) as [[a Ha] [v Hv]]. unfold execute_line.
  destruct (type l) eqn:Ht; try done;
    unfold WriteOp, CompOp, LoadOffsetOp, LoopOp, SetOffsetOp, AddValueOp, SetValueOp, IncrementiveWriteOp, LoadOp, AddOffsetOp, JokerOp;
    rewrite ?Ha, ?Hv; cbn [init of_opt mbind outcome_bind ends];
    try (by apply PatchOp_moves); try (by apply FullTerminate_moves); try (apply Terminate_moves; [done|by rewrite Ht]);
    try (apply (ends_bind (fun _ => True)); [ends_mem|]; intros x _; try destruct x as [val e']; cbn [ends]);
    try (apply moves_same; auto; by rewrite Ht);
    try (apply moves_test; [done|by rewrite Ht]).
  - by apply mv_loop.
  - apply jump_moves; [done|by rewrite Ht|lia|]. intros E. destruct Hs. repeat split; cbn; try done; lia.
Qed.

(** ** The measure *)

Definition rounds_from (lines : list CheatLine) (k : Z) : Z := rounds (drop (Z.to_nat k) lines).

Lemma rounds_nonneg lines : Forall wf_line lines -> 0 <= rounds lines.
Proof using Type.
  induction 1 as [|l ls Hw _ IH]; cbn [rounds foldr]; [lia|]. fold (rounds ls). destruct (type l); try lia.
  destruct (value l) as [v|] eqn:Ev; cbn; [|lia]. destruct (wf_value _ Hw v Ev). lia.
Qed.

Lemma rounds_from_nonneg lines k : Forall wf_line lines -> 0 <= rounds_from lines k.
Proof using Type. intros Hw. by apply rounds_nonneg, Forall_drop. Qed.

Lemma rounds_from_at lines k l : 0 <= k -> lines !! Z.to_nat k = Some l ->
  rounds_from lines k = match type l with Loop => default 0 (value l) | _ => 0 end + rounds_from lines (k + 1).
Proof using Type.
  intros Hk Hl. unfold rounds_from. rewrite (drop_S _ _ _ Hl). replace (Z.to_nat (k + 1)) with (S (Z.to_nat k)) by lia. done.
Qed.

Lemma rounds_drop lines n : Forall wf_line lines -> rounds (drop n lines) <= rounds lines.
Proof using Type.
  intros Hw. revert n. induction Hw as [|l ls Hl Hw IH]; intros [|n]; cbn [drop]; try lia. etrans; [apply IH|].
  pose proof (rounds_from_at (l :: ls) 0 l ltac:(lia) eq_refl) as E. change (rounds_from (l :: ls) 0) with (rounds (l :: ls)) in E.
  change (rounds_from (l :: ls) (0 + 1)) with (rounds ls) in E. rewrite E. destruct (type l); try lia.
  destruct (value l) as [v|] eqn:Ev; cbn; [|lia]. destruct (wf_value _ Hl v Ev). lia.
Qed.

Lemma rounds_from_mono lines k k' : Forall wf_line lines -> 0 <= k <= k' -> rounds_from lines k' <= rounds_from lines k.
Proof using Type.
  intros Hw Hk. unfold rounds_from. replace (Z.to_nat k') with (Z.to_nat k + Z.to_nat (k' - k))%nat by lia.
  rewrite <- drop_drop. by apply rounds_drop, Forall_drop.
Qed.

(** The rounds left: those of the running loop, and those of the loops ahead. *)
Definition rounds_left (lines : list CheatLine) s : Z :=
  if loop_flag s then
    match lines !! Z.to_nat (loop_back_line s) with Some l => default 0 (value l) | None => 0 end - loop_count s +
    (if current_line_nr s <=? loop_back_line s then 0 else 1) + rounds_from lines (loop_back_line s + 1)
  else rounds_from lines (current_line_nr s).
Definition measure (lines : list CheatLine) s : Z :=
  let n := Z.of_nat (length lines) in n * rounds_left lines s + Z.max 0 (n - current_line_nr s).

Record good (lines : list CheatLine) s : Prop := {
  g_range : in_range s; g_line : 0 <= current_line_nr s;
  g_loop : loop_flag s = true -> 0 <= loop_back_line s <= current_line_nr s /\
    exists l v, lines !! Z.to_nat (loop_back_line s) = Some l /\ type l = Loop /\ value l = Some v /\ loop_count s <= v /\
      (0 < if_flag s -> exists j lj, loop_back_line s < j < current_line_nr s /\ lines !! Z.to_nat j = Some lj /\ is_condition (type lj) = true);
}.

Definition next (s : State) : State := set_line (u64 (current_line_nr s + 1)) s.

Lemma next_jump s : 0 <= loop_back_line s < 2 ^ 63 -> next (jump_back s) = set_line (loop_back_line s) s.
Proof using Type.
  intros Hb. unfold next, jump_back, set_line; cbn. f_equal. unfold u64, wrap.
  rewrite Zplus_mod_idemp_l, Z.mod_small by lia. lia.
Qed.

Section Step.
Context (lines : list CheatLine) (Hwf : Forall wf_line lines) (Hlen : Z.of_nat (length lines) < 2 ^ 62) (Hsafe : no_guarded_end 0 lines = true).

Lemma line_bound k l : 0 <= k -> lines !! Z.to_nat k = Some l -> k < Z.of_nat (length lines).
Proof using Type. intros Hk Hl%lookup_lt_Some. lia. Qed.

(** The position of a running loop is behind its [Loop] line, unless that line is about to run. *)
Lemma behind_loop l s : good lines s -> loop_flag s = true -> lines !! Z.to_nat (current_line_nr s) = Some l ->
  (type l = Loop -> 0 < if_flag s) -> loop_back_line s < current_line_nr s.
Proof using Type.
  intros [_ Hk Hg] Hf Hl Ht. destruct (Hg Hf) as (Hb & l' & v & Hl' & Ht' & _ & _ & Hj).
  destruct (Z.eq_dec (loop_back_line s) (current_line_nr s)) as [E|]; [|lia].
  rewrite E, Hl in Hl'. injection Hl' as <-. destruct (Hj (Ht Ht')) as (j & _ & Hj' & _). lia.
Qed.

Lemma step_loop l s v : good lines s -> lines !! Z.to_nat (current_line_nr s) = Some l -> type l = Loop -> value l = Some v -> if_flag s = 0 ->
  let s' := next (mk_State (reg s) (offset s) (if_flag s) (u32 (loop_count s + 1)) (current_line_nr s) (current_line_nr s) (loop_count s <? v)) in
  good lines s' /\ measure lines s' < measure lines s.
Proof using Hwf Hlen.
  intros Hg Hl Ht Hv Hif s'. pose proof Hg as [[] Hk Hgl]. pose proof (line_bound _ _ Hk Hl) as Hn.
  pose proof (Forall_lookup_1 _ _ _ _ Hwf Hl) as Hw. destruct (wf_value _ Hw v Hv) as [Hvr _].
  pose proof (rounds_from_at lines _ l Hk Hl) as Hr. rewrite Ht, Hv in Hr. cbn [from_option id] in Hr.
  set (k := current_line_nr s) in *. assert (current_line_nr s' = k + 1) as Hk' by (unfold s', next; cbn; unfold u64, wrap; rewrite Z.mod_small; lia).
  assert (rounds_left lines s' <= rounds_left lines s) as Hle.
  { transitivity ((if loop_count s <? v then v - loop_count s else 0) + rounds_from lines (k + 1)).
    - unfold rounds_left. rewrite Hk'. unfold s', next; cbn [loop_flag loop_back_line loop_count set_line]. rewrite Hl, Hv. cbn [from_option id].
      destruct (Z.ltb_spec (loop_count s) v); [|lia]. destruct (Z.leb_spec (k + 1) k); [lia|]. rewrite u32_small by lia. lia.
    - unfold rounds_left. fold k. destruct (loop_flag s) eqn:Ef; [|destruct (Z.ltb_spec (loop_count s) v); lia].
      destruct (Hgl eq_refl) as (Hb & l' & v' & Hl' & Ht' & Hv' & Hc & _). rewrite Hl', Hv'. cbn [from_option id].
      destruct (Z.leb_spec k (loop_back_line s)).
      + assert (loop_back_line s = k) as E by lia. rewrite E in *. rewrite Hl in Hl'. injection Hl' as <-. rewrite Hv in Hv'. injection Hv' as <-.
        destruct (Z.ltb_spec (loop_count s) v); lia.
      + pose proof (rounds_from_mono lines (loop_back_line s + 1) k Hwf ltac:(lia)). destruct (Z.ltb_spec (loop_count s) v); lia. }
  split.
  - split; [split; unfold s'; cbn; [lia|apply u32_range]|lia|]. intros Hf. rewrite Hk'. unfold s' in *; cbn in Hf |- *. apply Z.ltb_lt in Hf.
    split; [lia|]. exists l, v. rewrite u32_small by lia. repeat split; try done; lia.
  - unfold measure. rewrite Hk'. fold k. nia.
Qed.

Lemma step_jump l s : good lines s -> lines !! Z.to_nat (current_line_nr s) = Some l -> loop_flag s = true -> type l ≠ Loop ->
  (0 < if_flag s -> type l = FullTerminator) -> good lines (next (jump_back s)) /\ measure lines (next (jump_back s)) < measure lines s.
Proof using Hwf Hlen Hsafe.
  intros Hg Hl Hf Hnl Hft. pose proof (behind_loop l s Hg Hf Hl ltac:(done)) as Hlt. pose proof Hg as [Hr Hk Hgl].
  destruct (Hgl Hf) as (Hb & l' & v & Hl' & Ht' & Hv & Hc & Hj). pose proof (line_bound _ _ Hk Hl) as Hn.
  assert (if_flag s <= 0) as Hif.
  { destruct (Z.leb_spec (if_flag s) 0) as [|Hp]; [done|]. destruct (Hj Hp) as (j & lj & Hjr & Hlj & Hcj).
    destruct (guarded lines (Z.to_nat (loop_back_line s)) (Z.to_nat j) (Z.to_nat (current_line_nr s)) l' lj l); try done; [lia|by apply Hft]. }
  rewrite next_jump by lia. split.
  - split; cbn; [destruct Hr; by split|lia|]. intros _. split; [lia|]. exists l', v. repeat split; try done. lia.
  - unfold measure. cbn [current_line_nr set_line]. unfold rounds_left. cbn [loop_flag loop_count loop_back_line current_line_nr set_line].
    rewrite Hf, Hl', Hv. cbn [from_option id]. rewrite Z.leb_refl. destruct (Z.leb_spec (current_line_nr s) (loop_back_line s)); [lia|]. nia.
Qed.

Lemma step_next l s t d : good lines s -> lines !! Z.to_nat (current_line_nr s) = Some l -> 0 <= d <= 2 ^ 30 -> (type l = Loop -> 0 < if_flag s) ->
  current_line_nr t = current_line_nr s + d ->
  (loop_flag t = true -> loop_flag s = true /\ loop_count t = loop_count s /\ loop_back_line t = loop_back_line s) ->
  (0 < if_flag t -> 0 < if_flag s \/ is_condition (type l) = true) -> in_range t -> good lines (next t) /\ measure lines (next t) < measure lines s.
Proof using Hwf Hlen.
  intros Hg Hl Hd Hnl Hc Hfl Hif Ht. pose proof Hg as [Hr Hk Hgl]. pose proof (line_bound _ _ Hk Hl) as Hn.
  assert (current_line_nr (next t) = current_line_nr s + d + 1) as Hc' by (unfold next; cbn; rewrite Hc; unfold u64, wrap; rewrite Z.mod_small; lia).
  assert (rounds_left lines (next t) <= rounds_left lines s) as Hle.
  { unfold rounds_left at 1. rewrite Hc'. unfold next; cbn [loop_flag loop_count loop_back_line set_line]. destruct (loop_flag t) eqn:Ef.
    - destruct (Hfl eq_refl) as (Hf & -> & ->). pose proof (behind_loop l s Hg Hf Hl Hnl). unfold rounds_left. rewrite Hf.
      destruct (Z.leb_spec (current_line_nr s + d + 1) (loop_back_line s)); [lia|]. destruct (Z.leb_spec (current_line_nr s) (loop_back_line s)); lia.
    - unfold rounds_left. destruct (loop_flag s) eqn:Hf; [|apply rounds_from_mono; [done|lia]].
      pose proof (behind_loop l s Hg Hf Hl Hnl). destruct (Hgl eq_refl) as (Hb & l' & v & Hl' & _ & Hv & Hcv & _). rewrite Hl', Hv. cbn [from_option id].
      pose proof (rounds_from_mono lines (loop_back_line s + 1) (current_line_nr s + d + 1) Hwf ltac:(lia)).
      destruct (Z.leb_spec (current_line_nr s) (loop_back_line s)); lia. }
  split.
  - split; [destruct Ht; by split|lia|]. intros Hf. rewrite Hc'. unfold next in *; cbn in Hf |- *. destruct (Hfl Hf) as (Hfs & -> & ->).
    pose proof (behind_loop l s Hg Hfs Hl Hnl). destruct (Hgl Hfs) as (Hb & l' & v & Hl' & Ht' & Hv & Hcv & Hj). split; [lia|].
    exists l', v. repeat split; try done. intros Hp. destruct (Hif Hp) as [Hp'|Hcond].
    + destruct (Hj Hp') as (j & lj & Hjr & Hlj & Hcj). exists j, lj. split; [lia|done].
    + exists (current_line_nr s), l. split; [lia|done].
  - unfold measure. rewrite Hc'. nia.
Qed.

Lemma step_moves l s t : good lines s -> lines !! Z.to_nat (current_line_nr s) = Some l -> moves l s t ->
  good lines (next t) /\ measure lines (next t) < measure lines s.
Proof using Hwf Hlen Hsafe.
  intros Hg Hl [v Ht Hv Hi|Hf Hnl Hft|t' d Hd Hnl Hc Hfl Hif Hir Hcr].
  - by apply (step_loop l s v).
  - by apply (step_jump l s).
  - apply (step_next l s t' d); try done.
Qed.

Lemma rounds_left_nonneg s : good lines s -> 0 <= rounds_left lines s.
Proof using Hwf.
  intros [Hr Hk Hg]. unfold rounds_left.
  destruct (loop_flag s); [|by apply rounds_from_nonneg]. destruct (Hg eq_refl) as (_ & l & v & -> & _ & -> & Hc & _). cbn [from_option id].
  pose proof (rounds_from_nonneg lines (loop_back_line s + 1) Hwf). destruct (_ <=? _); lia.
Qed.
End Step.

(** ** A run *)

Lemma run_ends lines (Hp : patches_inside lines = true) : Forall wf_line lines -> Z.of_nat (length lines) < 2 ^ 62 -> no_guarded_end 0 lines = true ->
  forall fuel s e, good lines s -> measure lines s <= Z.of_nat fuel -> ends (fun _ => True) (run process pad_state fuel lines s e).
Proof using Type.
  intros Hwf Hlen Hsafe. induction fuel as [|fuel IH]; intros s e Hg Hm; cbn [run];
    destruct (lines !! Z.to_nat (current_line_nr s)) as [l|] eqn:Hl; try done; pose proof Hg as [Hr Hk _].
  - exfalso. pose proof (line_bound _ _ _ Hk Hl). pose proof (rounds_left_nonneg lines Hwf s Hg). unfold measure in Hm. nia.
  - apply (ends_bind (fun p => good lines p.1 /\ measure lines p.1 < measure lines s)).
    + unfold step. apply (ends_bind (moved l s)).
      * destruct (Z.ltb_spec 0 (if_flag s)); [by apply skip_moves|]. apply execute_moves; try done. destruct Hr. lia.
      * intros [t e'] Ht. cbn [ends fst]. by apply (step_moves lines Hwf Hlen Hsafe l).
    + intros [t e'] [Hgt Hmt]. apply IH; [done|]. cbn in Hmt. lia.
Qed.
End Runs.

End CR.
