(* ===== verification/CheatTheorems.v ===== *)
(** * What cheats promise

    Every cheat ends unless a [FullTerminator] closes a failed conditional inside a loop;
    failed conditionals skip their block, loops repeat their body, patches copy the
    bytes of their lines, and a saved list of cheats loads again.  [Backed] is what the
    theorem on patches asks of memory, and guest memory provides it. *)
From stdpp Require Import strings.
From Stdlib Require Import Ascii.
From S2P Require Import Prelude StringUtil PageTable MemoryMap GuestMemory GuestFacts GuestTheorems CheatCodes CheatRuns.
Import Str Map Cheat CR.
Open Scope Z_scope.

Module CT.

Section Runs.
Context {P M : Type} `{Ram P M} (process : P) (pad_state : Z).
Implicit Types (s t : State) (e : env M) (l : CheatLine) (lines : list CheatLine).

(** ** Cheats end *)

Lemma good_initial lines : good lines initial.
Proof using Type. split; [split; cbn; lia|done|done]. Qed.

Lemma measure_initial lines : Forall wf_line lines -> measure lines initial <= Z.of_nat (steps lines).
Proof using Type.
  intros Hw. pose proof (rounds_nonneg lines Hw). unfold measure, steps, rounds_left. cbn [loop_flag initial current_line_nr].
  change (rounds_from lines 0) with (rounds lines). nia.
Qed.

(** C17: Running the lines of a cheat, whatever their text, ends after at most as many steps
    as there are lines times one plus the loop counts, and stops the emulator only
    where an access to memory does, provided that the lines of every patch exist and that
    no [FullTerminator] comes after a conditional inside a loop. *)
Theorem cheat_ends (ls : list str) e : Z.of_nat (length ls) < 2 ^ 62 ->
  no_guarded_end 0 (parse_line <$> ls) = true -> patches_inside (parse_line <$> ls) = true ->
  match Execute_lines process pad_state (parse_line <$> ls) e with
  | Done _ => True
  | Stop f => mem_fault process f
  end.
Proof using Type.
  intros Hlen Hs Hp. pose proof (parse_lines_wf ls) as Hw. set (lines := parse_line <$> ls) in *.
  assert (ends process (fun _ => True) (Execute_lines process pad_state lines e)) as Hends; [|by destruct (Execute_lines _ _ _ _)].
  unfold Execute_lines. apply (ends_bind _ (fun _ => True)); [|by intros [? ?]].
  apply run_ends; try done; [unfold lines; by rewrite length_fmap|by apply measure_initial].
Qed.

(** ** Straight code *)

Definition straight (t : CheatType) : bool :=
  match t with
  | Loop | Terminator | LoopExecuteVariant | FullTerminator | Patch => false
  | _ => negb (is_condition t)
  end.

Definition core (r o : Z) : State := mk_State r o 0 0 0 0 false.
Definition with_core (t s : State) : State := mk_State (reg t) (offset t) (if_flag s) (loop_count s) (loop_back_line s) (current_line_nr s) (loop_flag s).

(** The body of a loop: the lines change the register and the offset. *)
Fixpoint sweep (body : list CheatLine) (r o : Z) e : outcome (Z * Z * env M) :=
  match body with
  | [] => Done (r, o, e)
  | l :: body => '(t, e) ← execute_line process pad_state [] l (core r o) e; sweep body (reg t) (offset t) e
  end.
Fixpoint sweeps (n : nat) (body : list CheatLine) (r o : Z) e : outcome (Z * Z * env M) :=
  match n with
  | O => Done (r, o, e)
  | S n => '(r, o, e) ← sweep body r o e; sweeps n body r o e
  end.

Lemma straight_frame lines l s e : straight (type l) = true ->
  execute_line process pad_state lines l s e = '(t, e) ← execute_line process pad_state [] l (core (reg s) (offset s)) e; Done (with_core t s, e).
Proof using Type.
  intros Hs. unfold execute_line, WriteOp, LoadOffsetOp, SetOffsetOp, AddValueOp, SetValueOp, AddOffsetOp, IncrementiveWriteOp, LoadOp.
  destruct s as [r o i c b k f]. destruct (type l); try discriminate Hs; cbn [core offset reg with_core]; try done;
    destruct (address l) as [a|], (value l) as [v|]; cbn [init of_opt mbind outcome_bind]; try done;
    try (destruct (poke process _ _ _ e); done); try (destruct (Read process _ _ e) as [[]|]; done).
Qed.

Lemma step_straight lines l s e : straight (type l) = true -> if_flag s = 0 ->
  step process pad_state lines l s e =
  '(t, e) ← execute_line process pad_state [] l (core (reg s) (offset s)) e; Done (next (with_core t s), e).
Proof using Type.
  intros Hs Hi. unfold step. rewrite Hi. change (0 <? 0) with false. cbv iota. rewrite straight_frame by done.
  destruct (execute_line _ _ _ _ _ _) as [[t e']|f]; done.
Qed.

Lemma next_line s k : current_line_nr s = k -> 0 <= k < 2 ^ 63 -> next s = set_line (k + 1) s.
Proof using Type. intros <- Hk. unfold next. f_equal. unfold u64, wrap. rewrite Z.mod_small; lia. Qed.

Lemma run_step fuel lines s e l k : current_line_nr s = k -> lines !! Z.to_nat k = Some l ->
  run process pad_state (S fuel) lines s e = '(s, e) ← step process pad_state lines l s e; run process pad_state fuel lines s e.
Proof using Type. intros <- Hl. cbn [run]. by rewrite Hl. Qed.

Lemma run_straight fuel lines body : forall s e k, Forall (fun l => straight (type l) = true) body -> if_flag s = 0 -> current_line_nr s = k ->
  0 <= k -> k + Z.of_nat (length body) < 2 ^ 63 -> (forall i l, body !! i = Some l -> lines !! Z.to_nat (k + Z.of_nat i) = Some l) ->
  run process pad_state (length body + fuel) lines s e =
  '(r, o, e) ← sweep body (reg s) (offset s) e;
  run process pad_state fuel lines (mk_State r o (if_flag s) (loop_count s) (loop_back_line s) (k + Z.of_nat (length body)) (loop_flag s)) e.
Proof using Type.
  induction body as [|l body IH]; intros s e k Hs Hi Hk Hk0 Hlen Hat.
  - cbn. rewrite Z.add_0_r, <- Hk. by destruct s.
  - apply Forall_cons in Hs as [Hsl Hs]. cbn [length] in *. change (S (length body) + fuel)%nat with (S (length body + fuel)).
    rewrite (run_step _ _ _ _ l k) by (done || (rewrite <- (Z.add_0_r k) at 1; by apply (Hat 0%nat))).
    rewrite step_straight by done. cbn [sweep]. destruct (execute_line _ _ _ _ _ _) as [[t e']|f]; [|done]. cbn [mbind outcome_bind].
    rewrite (next_line _ k) by (done || lia).
    rewrite (IH _ e' (k + 1)); [|done|done|done|lia|lia|].
    + cbn [reg offset set_line with_core if_flag loop_count loop_back_line loop_flag]. by replace (k + 1 + Z.of_nat (length body)) with (k + Z.of_nat (S (length body))) by lia.
    + intros i l' Hl'. replace (k + 1 + Z.of_nat i) with (k + Z.of_nat (S i)) by lia. by apply Hat.
Qed.

(** ** Loops *)

Section Loop.
Context (pre body post : list CheatLine) (loop end_ : CheatLine) (v : Z).
Context (loop_type : type loop = Loop) (loop_value : value loop = Some v) (end_type : type end_ = LoopExecuteVariant).
Context (value_range : 0 <= v < 2 ^ 32) (body_straight : Forall (fun l => straight (type l) = true) body).
Definition looping : list CheatLine := pre ++ loop :: body ++ end_ :: post.
Context (looping_length : Z.of_nat (length looping) < 2 ^ 62).
Definition loop_start : Z := Z.of_nat (length pre).
Definition loop_end : Z := loop_start + 1 + Z.of_nat (length body).

Definition at_loop r o c f b : State := mk_State r o 0 c b loop_start f.
Definition after_loop r o : State := mk_State r o 0 0 loop_start (loop_end + 1) false.

Lemma looping_at i : (i < length body)%nat -> looping !! Z.to_nat (loop_start + 1 + Z.of_nat i) = body !! i.
Proof using Type.
  intros Hi. unfold looping, loop_start. rewrite lookup_app_r by lia. replace (_ - _)%nat with (S i) by lia.
  rewrite lookup_cons; cbv iota. by rewrite lookup_app_l.
Qed.

Lemma looping_first : looping !! Z.to_nat loop_start = Some loop.
Proof using Type. unfold looping, loop_start. rewrite lookup_app_r by lia. by replace (_ - _)%nat with 0%nat by lia. Qed.

Lemma looping_last : looping !! Z.to_nat loop_end = Some end_.
Proof using Type.
  unfold looping, loop_end, loop_start. rewrite lookup_app_r by lia. replace (_ - _)%nat with (S (length body)) by lia.
  rewrite lookup_cons; cbv iota. rewrite lookup_app_r by lia. by rewrite Nat.sub_diag.
Qed.

Lemma loop_bounds : 0 <= loop_start /\ loop_start < loop_end < 2 ^ 62.
Proof using looping_length. unfold loop_end, loop_start. unfold looping in looping_length. rewrite !length_app in looping_length. cbn [length] in looping_length. rewrite length_app in looping_length. cbn [length] in looping_length. lia. Qed.

(** One round from the [Loop] line. *)
Lemma loop_round fuel r o c f b e : 0 <= c <= v ->
  run process pad_state (S (length body + S fuel)) looping (at_loop r o c f b) e =
  '(r, o, e) ← sweep body r o e;
  run process pad_state fuel looping (if c <? v then at_loop r o (c + 1) true loop_start else after_loop r o) e.
Proof using Type*.
  intros Hc. pose proof loop_bounds as [Hs He]. rewrite (run_step _ _ _ _ loop loop_start) by (done || apply looping_first).
  unfold step at 1. cbn [if_flag at_loop]. change (0 <? 0) with false. cbv iota. unfold execute_line at 1. rewrite loop_type. unfold LoopOp. rewrite loop_value.
  cbn [init of_opt mbind outcome_bind at_loop reg offset if_flag loop_count current_line_nr].
  change (set_line (u64 (loop_start + 1)) ?s) with (next s). rewrite (next_line _ loop_start) by (done || lia). cbn [set_line reg offset if_flag loop_count loop_back_line loop_flag].
  rewrite (run_straight _ looping body _ e (loop_start + 1)); [|done|done|done|lia|unfold loop_end in He; lia|].
  2: { intros i l Hl. rewrite looping_at; [done|by eapply lookup_lt_Some]. }
  cbn [set_line reg offset if_flag loop_count loop_back_line loop_flag]. fold loop_end.
  destruct (sweep body r o e) as [[[r' o'] e']|g]; [|done]. cbn [mbind outcome_bind].
  rewrite (run_step _ _ _ _ end_ loop_end) by (done || apply looping_last).
  unfold step. cbn [if_flag]. change (0 <? 0) with false. cbv iota. unfold execute_line. rewrite end_type. unfold LoopExecuteVariantOp.
  cbn [loop_flag mbind outcome_bind]. change (set_line (u64 (current_line_nr ?s + 1)) ?s) with (next s).
  destruct (Z.ltb_spec c v).
  - rewrite next_jump by (cbn; lia). rewrite u32_small by lia. done.
  - rewrite (next_line _ loop_end) by (done || lia). done.
Qed.

Lemma loop_rounds n : forall fuel r o c f b e, Z.of_nat n = v - c -> 0 <= c ->
  run process pad_state (S n * (length body + 2) + fuel) looping (at_loop r o c f b) e =
  '(r, o, e) ← sweeps (S n) body r o e; run process pad_state fuel looping (after_loop r o) e.
Proof using Type*.
  induction n as [|n IH]; intros fuel r o c f b e Hn Hc.
  - replace (1 * (length body + 2) + fuel)%nat with (S (length body + S fuel)) by lia. rewrite loop_round by lia.
    cbn [sweeps]. destruct (sweep body r o e) as [[[r' o'] e']|g]; [|done]. cbn [mbind outcome_bind]. destruct (Z.ltb_spec c v); [lia|done].
  - replace (S (S n) * (length body + 2) + fuel)%nat with (S (length body + S (S n * (length body + 2) + fuel))) by lia. rewrite loop_round by lia.
    cbn [sweeps]. destruct (sweep body r o e) as [[[r' o'] e']|g]; [|done]. cbn [mbind outcome_bind]. destruct (Z.ltb_spec c v); [|lia]. by apply IH; lia.
Qed.
End Loop.

(** A [Loop] line with value [v], straight code and [LoopExecuteVariant] run the code [v + 1] times
    and continue behind the loop with the counter reset, whatever the code does with the
    register, the offset and memory; the first fault in it is the fault of the loop. *)
Theorem loop_repeats_body pre body post loop end_ v fuel r o e :
  type loop = Loop -> value loop = Some v -> type end_ = LoopExecuteVariant -> 0 <= v < 2 ^ 32 ->
  Forall (fun l => straight (type l) = true) body -> let lines := pre ++ loop :: body ++ end_ :: post in
  Z.of_nat (length lines) < 2 ^ 62 ->
  run process pad_state (Z.to_nat (v + 1) * (length body + 2) + fuel) lines (mk_State r o 0 0 0 (Z.of_nat (length pre)) false) e =
  '(r, o, e) ← sweeps (Z.to_nat (v + 1)) body r o e;
  run process pad_state fuel lines (mk_State r o 0 0 (Z.of_nat (length pre)) (Z.of_nat (length pre + length body + 2)) false) e.
Proof using Type.
  intros Ht Hv He Hr Hb lines Hlen. replace (Z.to_nat (v + 1)) with (S (Z.to_nat v)) by lia.
  pose proof (loop_rounds pre body post loop end_ v Ht Hv He Hr Hb Hlen (Z.to_nat v) fuel r o 0 false 0 e) as E.
  change (mk_State r o 0 0 0 (Z.of_nat (length pre)) false) with (at_loop pre r o 0 false 0). unfold lines. fold (looping pre body post loop end_).
  rewrite E by lia. destruct (sweeps _ body r o e) as [[[r' o'] e']|g]; [|done]. cbn [mbind outcome_bind].
  unfold after_loop, loop_end, loop_start. do 2 f_equal. f_equal. lia.
Qed.

(** ** Failed conditionals *)

(** Code in which every conditional is closed, at the given depth of conditionals. *)
Fixpoint closed (depth : nat) (block : list CheatLine) : bool :=
  match block with
  | [] => (depth =? 1)%nat
  | l :: block =>
      if is_condition (type l) then closed (S depth) block
      else match type l with
      | Terminator => (2 <=? depth)%nat && closed (depth - 1) block
      | FullTerminator | Patch => false
      | _ => closed depth block
      end
  end.

Lemma set_if_line i n s : set_if i (set_line n s) = set_line n (set_if i s).
Proof using Type. done. Qed.

Lemma run_skips fuel lines end_ block : type end_ = Terminator -> forall depth s e k, closed depth block = true -> (0 < depth)%nat ->
  if_flag s = Z.of_nat depth -> current_line_nr s = k -> 0 <= k -> k + Z.of_nat (length block) < 2 ^ 62 -> Z.of_nat (depth + length block) < 2 ^ 32 ->
  (forall i l, (block ++ [end_]) !! i = Some l -> lines !! Z.to_nat (k + Z.of_nat i) = Some l) ->
  run process pad_state (S (length block) + fuel) lines s e = run process pad_state fuel lines (set_line (k + Z.of_nat (length block) + 1) (set_if 0 s)) e.
Proof using Type.
  intros He. induction block as [|l block IH]; intros depth s e k Hc Hd Hi Hk Hk0 Hlen Hsz Hat.
  - apply Nat.eqb_eq in Hc as ->. change (S (length (@nil CheatLine)) + fuel)%nat with (S fuel). cbn [length].
    assert (lines !! Z.to_nat k = Some end_) as Hl by (rewrite <- (Z.add_0_r k); by apply (Hat 0%nat)).
    rewrite (run_step _ _ _ _ end_ k) by done. unfold step, skip_line. rewrite Hi, He. change (0 <? Z.of_nat 1) with true. cbv iota. cbn [is_condition].
    unfold TerminateOp. rewrite Hi. change (0 <? Z.of_nat 1) with true. cbv iota. cbn [mbind outcome_bind]. change (set_line (u64 (current_line_nr ?t + 1)) ?t) with (next t).
    rewrite (next_line _ k) by (done || lia). by replace (k + Z.of_nat 0 + 1) with (k + 1) by lia.
  - assert (lines !! Z.to_nat k = Some l) as Hl by (rewrite <- (Z.add_0_r k); by apply (Hat 0%nat)). cbn [length] in *.
    change (S (S (length block)) + fuel)%nat with (S (S (length block) + fuel)). rewrite (run_step _ _ _ _ l k) by done.
    assert (forall depth' t, closed depth' block = true -> (0 < depth' <= S depth)%nat -> t = set_if (Z.of_nat depth') s ->
      run process pad_state (S (length block) + fuel) lines (next t) e =
      run process pad_state fuel lines (set_line (k + Z.of_nat (S (length block)) + 1) (set_if 0 s)) e) as Hgo.
    { intros depth' t Hc' Hd' ->. rewrite (next_line _ k) by (done || lia). rewrite (IH depth' _ e (k + 1)); [|done|lia|done|done|lia|lia|lia|].
      - f_equal. by replace (k + 1 + Z.of_nat (length block) + 1) with (k + Z.of_nat (S (length block)) + 1) by lia.
      - intros i l' Hl'. replace (k + 1 + Z.of_nat i) with (k + Z.of_nat (S i)) by lia. by apply Hat. }
    assert (s = set_if (Z.of_nat depth) s) as Hself by (rewrite <- Hi; by destruct s).
    unfold step, skip_line. rewrite Hi. destruct (Z.ltb_spec 0 (Z.of_nat depth)); [|lia]. cbn [closed] in Hc.
    destruct (is_condition (type l)) eqn:Hcond.
    { cbn [mbind outcome_bind]. apply (Hgo (S depth)); [done|lia|]. unfold fail. rewrite Hi, u32_small by lia. f_equal. lia. }
    destruct (type l) eqn:Ht; try discriminate Hc; try discriminate Hcond; cbn [mbind outcome_bind]; try (apply (Hgo depth); [done|lia|done]).
    apply andb_true_iff in Hc as [Hd2 Hc]. apply Nat.leb_le in Hd2. apply (Hgo (depth - 1)%nat); [done|lia|].
    unfold TerminateOp. rewrite Hi. destruct (Z.ltb_spec 0 (Z.of_nat depth)); [|lia]. f_equal. lia.
Qed.

(** When the test of a conditional fails, its block is skipped up to its own [Terminator], through
    the conditionals nested in it, without an effect: the run goes on behind
    it with the register, the offset, the loop and memory as the test left them. *)
Theorem failed_condition_skips_block pre block post cond end_ fuel s e e1 :
  is_condition (type cond) = true -> type end_ = Terminator -> closed 1 block = true -> let lines := pre ++ cond :: block ++ end_ :: post in
  Z.of_nat (length lines) < 2 ^ 32 -> current_line_nr s = Z.of_nat (length pre) -> if_flag s = 0 ->
  execute_line process pad_state lines cond s e = Done (fail s, e1) ->
  run process pad_state (length block + 2 + fuel) lines s e =
  run process pad_state fuel lines (set_line (Z.of_nat (length pre + length block + 2)) s) e1.
Proof using Type.
  intros Hc Ht Hb lines Hlen Hk Hi Ex. unfold lines in Hlen. rewrite length_app in Hlen. cbn [length] in Hlen. rewrite length_app in Hlen. cbn [length] in Hlen.
  replace (length block + 2 + fuel)%nat with (S (S (length block) + fuel)) by lia. set (k := Z.of_nat (length pre)) in *.
  assert (forall i, lines !! Z.to_nat (k + Z.of_nat i) = (cond :: block ++ end_ :: post) !! i) as Hat.
  { intros i. unfold lines, k. rewrite lookup_app_r by lia. f_equal. lia. }
  rewrite (run_step _ _ _ _ cond k) by (done || (rewrite <- (Z.add_0_r k); apply (Hat 0%nat))).
  unfold step. rewrite Hi. change (0 <? 0) with false. cbv iota. rewrite Ex. cbn [mbind outcome_bind]. change (set_line (u64 (current_line_nr ?t + 1)) ?t) with (next t).
  rewrite (next_line _ k) by (done || lia). rewrite (run_skips fuel lines end_ block Ht 1 _ e1 (k + 1)); try done; try lia.
  - f_equal. replace (k + 1 + Z.of_nat (length block) + 1) with (Z.of_nat (length pre + length block + 2)) by (unfold k; lia).
    destruct s; cbn in *. unfold set_line; cbn. by rewrite Hi.
  - cbn. by rewrite Hi.
  - intros i l Hl. replace (k + 1 + Z.of_nat i) with (k + Z.of_nat (S i)) by lia. rewrite Hat, lookup_cons; cbv iota.
    destruct (decide (i < length block)%nat) as [Hlt|Hge].
    + rewrite lookup_app_l in Hl |- * by done. done.
    + rewrite lookup_app_r in Hl |- * by lia. destruct (i - length block)%nat; [done|discriminate Hl].
Qed.
End Runs.

(** ** Patches *)

Lemma fmap_seqZ_at (f : Z -> Z) n i : 0 <= i < n -> (f <$> seqZ 0 n) !!! Z.to_nat i = f i.
Proof.
  intros Hi. apply list_lookup_total_correct. rewrite list_lookup_fmap, lookup_seqZ_lt by lia. cbn. f_equal. f_equal. lia.
Qed.

(** Byte [k] of a little-endian word. *)
Definition byte_at (v k : Z) : Z := Z.shiftr v (8 * k) `mod` 256.

(** Memory in which aligned writes below [area] change exactly their bytes. *)
Class Backed {P M : Type} `{Ram P M} (p : P) := {
  area : Z -> Prop;
  peek : M -> Z -> Z;
  write_backed (n : nat) a v m : (n = 1 \/ n = 4)%nat -> a `mod` Z.of_nat n = 0 -> (forall x, a <= x < a + Z.of_nat n -> area x) ->
    exists m', write p n a v m = Done m' /\
      forall x, area x -> peek m' x = if (a <=? x) && (x <? a + Z.of_nat n) then byte_at v (x - a) else peek m x;
}.

Section Patches.
Context {P M : Type} `{Backed P M p}.
Implicit Types (s : State) (e : env M) (l : CheatLine).

Lemma in_word a x n q : 0 < n -> (a <=? x) && (x <? a + n * Z.of_nat q) = true <-> 0 <= x - a < n * Z.of_nat q.
Proof using Type. intros. rewrite andb_true_iff, Z.leb_le, Z.ltb_lt. lia. Qed.

Lemma write_seq_backed (n : nat) vs : (n = 1 \/ n = 4)%nat -> forall a e, a `mod` Z.of_nat n = 0 -> 0 <= a ->
  a + Z.of_nat n * Z.of_nat (length vs) <= 2 ^ 32 -> (forall x, a <= x < a + Z.of_nat n * Z.of_nat (length vs) -> area x) ->
  exists e', write_seq p n vs a e = Done e' /\ invalidated e' = invalidated e /\
    forall x, area x -> peek (ram e') x =
      if (a <=? x) && (x <? a + Z.of_nat n * Z.of_nat (length vs)) then byte_at (vs !!! Z.to_nat ((x - a) / Z.of_nat n)) ((x - a) `mod` Z.of_nat n) else peek (ram e) x.
Proof using Type.
  intros Hn. assert (0 < Z.of_nat n) as Hn0 by lia. induction vs as [|v vs IH]; intros a e Ha H0a Hle Har.
  - exists e. split; [done|]. split; [done|]. intros x Hx. destruct (Z.leb_spec a x), (Z.ltb_spec x (a + Z.of_nat n * Z.of_nat (length (@nil Z)))); cbn in *; done || lia.
  - cbn [length] in *. cbn [write_seq]. destruct (write_backed n a v (ram e) Hn Ha) as (m' & Em & Hm); [intros x Hx; apply Har; nia|].
    unfold Write. rewrite Em. cbn [mbind outcome_bind].
    assert (vs = [] \/ a + Z.of_nat n < 2 ^ 32) as Hcase by (destruct vs; [by left|right; cbn [length] in *; nia]).
    destruct Hcase as [->|Hlt].
    + eexists. split; [done|]. split; [done|]. intros x Hx. cbn [ram length]. rewrite Hm by done. replace (Z.of_nat n * Z.of_nat 1) with (Z.of_nat n) by lia.
      destruct (Z.leb_spec a x), (Z.ltb_spec x (a + Z.of_nat n)); cbn [andb]; try done.
      rewrite Z.div_small, Z.mod_small by lia. done.
    + rewrite u32_small by lia. destruct (IH (a + Z.of_nat n) (mk_env m' (invalidated e))) as (e' & E & Hi & Hx').
      * rewrite <- Z.add_mod_idemp_r, Z.mod_same by lia. by rewrite Z.add_0_r.
      * lia.
      * nia.
      * intros x Hx. apply Har. nia.
      * exists e'. split; [done|]. split; [done|]. intros x Hx. rewrite Hx', Hm by done. cbn [ram].
        replace (a + Z.of_nat n + Z.of_nat n * Z.of_nat (length vs)) with (a + Z.of_nat n * Z.of_nat (S (length vs))) by lia.
        assert (Z.of_nat n <= Z.of_nat n * Z.of_nat (S (length vs))) by nia. destruct (Z.leb_spec (a + Z.of_nat n) x).
        -- destruct (Z.leb_spec a x), (Z.ltb_spec x (a + Z.of_nat n)), (Z.ltb_spec x (a + Z.of_nat n * Z.of_nat (S (length vs)))); cbn [andb]; try lia.
           replace (x - (a + Z.of_nat n)) with (x - a + (-1) * Z.of_nat n) by lia. rewrite Z.div_add, Z.mod_add by lia.
           replace (Z.to_nat ((x - a) / Z.of_nat n)) with (S (Z.to_nat ((x - a) / Z.of_nat n + -1))); [done|].
           pose proof (Z.div_le_lower_bound (x - a) (Z.of_nat n) 1 Hn0 ltac:(lia)). lia.
        -- cbn [andb]. destruct (Z.leb_spec a x), (Z.ltb_spec x (a + Z.of_nat n)), (Z.ltb_spec x (a + Z.of_nat n * Z.of_nat (S (length vs)))); cbn [andb]; try lia.
           rewrite Z.div_small, Z.mod_small by lia. done.
Qed.

(** Byte [k] of the lines behind line [i]: the two numbers of each line, low byte first. *)
Definition patch_byte (lines : list CheatLine) (i k : Z) : Z := byte_at (patch_word lines i (k / 4)) (k `mod` 4).

Lemma byte_at_u8 w j : 0 <= j -> byte_at (u8 (Z.shiftr w (8 * j))) 0 = byte_at w j.
Proof using Type. intros Hj. unfold byte_at, u8, wrap. change (8 * 0) with 0. rewrite Z.shiftr_0_r. change (2 ^ 8) with 256. by rewrite Z.mod_mod. Qed.

(** A patch of [v] bytes writes exactly the [v] bytes of the lines behind it, in order, at the word-aligned
    address asked for, after it had the instruction caches drop that range, and stops at
    the last line it used; inside a failed conditional it skips the same lines and does nothing. *)
Lemma patch_copies (ls : list str) l s e v a : let lines := parse_line <$> ls in patches_inside lines = true ->
  0 <= current_line_nr s -> lines !! Z.to_nat (current_line_nr s) = Some l -> type l = Patch -> value l = Some v -> address l = Some a ->
  0 <= v < 2 ^ 32 -> let addr := u32 (a + offset s) in addr `mod` 4 = 0 -> addr + v <= 2 ^ 32 -> (forall x, addr <= x < addr + v -> area x) ->
  (if_flag s = 0 -> exists e', PatchOp p lines l s e = Done (set_line (current_line_nr s + ceil_div8 v) s, e') /\
     invalidated e' = invalidated e ++ [(addr, v)] /\
     forall x, area x -> peek (ram e') x = if (addr <=? x) && (x <? addr + v) then patch_byte lines (current_line_nr s) (x - addr) else peek (ram e) x) /\
  (0 < if_flag s -> PatchOp p lines l s e = Done (set_line (current_line_nr s + ceil_div8 v) s, e)).
Proof using Type.
  intros lines Hp Hk Hl Ht Hv Ha Hr addr Hal Hle Har. split; [|intros Hif; unfold PatchOp; rewrite Hv; by rewrite (proj2 (Z.ltb_lt _ _) Hif)].
  intros Hi. pose proof (u32_range (a + offset s)) as Hu. fold addr in Hu.
  assert (0 <= v / 4 /\ v = 4 * (v / 4) + v mod 4 /\ 0 <= v mod 4 < 4) as (Hq & Ev & Hm) by (Z.div_mod_to_equations; lia).
  rewrite (PatchOp_eq p lines l s e v a) by (done || (apply (patch_has_words lines l s v); try done; [apply parse_lines_wf|lia])).
  cbv zeta. fold addr. set (word := patch_word lines (current_line_nr s)).
  destruct (write_seq_backed 4 (word <$> seqZ 0 (v / 4)) (or_intror eq_refl) addr (InvalidateCacheRange addr v e) Hal) as (e1 & E1 & I1 & H1);
    [lia|rewrite length_fmap, length_seqZ; lia|intros x; rewrite length_fmap, length_seqZ; intros Hx; apply Har; lia|].
  rewrite E1. cbn [mbind outcome_bind]. rewrite length_fmap, length_seqZ in H1.
  assert (0 < v mod 4 -> u32 (addr + 4 * (v / 4)) = addr + 4 * (v / 4)) as Hua by (intros; apply u32_small; lia).
  destruct (Z.eq_dec (v mod 4) 0) as [E0|E0].
  - rewrite E0. exists e1. split; [done|]. split; [by rewrite I1|]. intros x Hx. rewrite H1 by done.
    replace (Z.of_nat 4 * Z.of_nat (Z.to_nat (v / 4))) with v by lia. destruct (Z.leb_spec addr x), (Z.ltb_spec x (addr + v)); cbn [andb]; try done.
    unfold patch_byte. fold word. change (Z.of_nat 4) with 4. assert (0 <= (x - addr) / 4 < v / 4) by (Z.div_mod_to_equations; lia).
    by rewrite fmap_seqZ_at by lia.
  - rewrite Hua by lia.
    destruct (write_seq_backed 1 (rest_bytes (word (v / 4)) 0 (v mod 4)) (or_introl eq_refl) (addr + 4 * (v / 4)) e1) as (e2 & E2 & I2 & H2);
      [apply Z.mod_1_r|lia|unfold rest_bytes; rewrite length_fmap, length_seqZ; lia|intros x; unfold rest_bytes; rewrite length_fmap, length_seqZ; intros Hx; apply Har; lia|].
    rewrite E2. cbn [mbind outcome_bind]. exists e2. split; [done|]. split; [by rewrite I2, I1|]. intros x Hx. rewrite H2, H1 by done.
    unfold rest_bytes. rewrite length_fmap, length_seqZ. change (Z.of_nat 1) with 1. change (Z.of_nat 4) with 4.
    replace (addr + 4 * (v / 4) + 1 * Z.of_nat (Z.to_nat (v mod 4))) with (addr + v) by lia.
    replace (addr + 4 * Z.of_nat (Z.to_nat (v / 4))) with (addr + 4 * (v / 4)) by lia. unfold patch_byte. fold word.
    destruct (Z.leb_spec (addr + 4 * (v / 4)) x), (Z.ltb_spec x (addr + 4 * (v / 4))), (Z.leb_spec addr x), (Z.ltb_spec x (addr + v)); cbn [andb]; try lia; try done.
    + rewrite Z.mod_1_r, Z.div_1_r, fmap_seqZ_at, byte_at_u8 by lia.
      assert ((x - addr) / 4 = v / 4) as -> by (Z.div_mod_to_equations; lia). f_equal. Z.div_mod_to_equations; lia.
    + assert (0 <= (x - addr) / 4 < v / 4) by (Z.div_mod_to_equations; lia).
      by rewrite fmap_seqZ_at by lia.
Qed.
End Patches.

(** ** Guest memory *)

Section GuestRam.
Context {W : Type} `{Guest.Gpu W} (fcram vram : Z).

#[global] Instance guest_ram : Ram PT.table (Guest.msys W) := {
  read pt n a m := Guest.Read fcram vram n pt a m;
  write pt n a v m := Guest.Write fcram vram n pt a v m;
}.

(** Mapped pages that the rasterizer does not cache, no two of them on the same host page. *)
Context (pt : PT.table).
Definition guest_area (x : Z) : Prop := PT.pointer (PT.get pt (Guest.page_of x)) ≠ 0.
Definition guest_host (x : Z) : Z := PT.pointer (PT.get pt (Guest.page_of x)) + Guest.offset_of x.
Context (apart : forall x y, guest_area x -> guest_area y -> guest_host x = guest_host y -> x = y).

Lemma store_at (n : nat) : forall a v m x, Guest.store n a v m x = if (a <=? x) && (x <? a + Z.of_nat n) then byte_at v (x - a) else m x.
Proof using Type.
  induction n as [|n IH]; intros a v m x; cbn [Guest.store].
  - destruct (Z.leb_spec a x), (Z.ltb_spec x (a + Z.of_nat 0)); cbn; try lia; done.
  - rewrite IH. destruct (Z.eqb_spec x a) as [->|Hne].
    + destruct (Z.leb_spec (a + 1) a); [lia|]. cbn [andb]. destruct (Z.leb_spec a a), (Z.ltb_spec a (a + Z.of_nat (S n))); try lia. cbn [andb].
      unfold byte_at. rewrite Z.sub_diag. change (8 * 0) with 0. by rewrite Z.shiftr_0_r.
    + destruct (Z.leb_spec (a + 1) x), (Z.leb_spec a x), (Z.ltb_spec x (a + 1 + Z.of_nat n)), (Z.ltb_spec x (a + Z.of_nat (S n))); cbn [andb]; try lia; try done.
      unfold byte_at. f_equal. rewrite !Z.shiftr_div_pow2 by lia. replace (8 * (x - a)) with (8 + 8 * (x - (a + 1))) by lia.
      rewrite Z.pow_add_r by lia. change 256 with (2 ^ 8). rewrite Z.div_div by lia. done.
Qed.

Lemma same_page a n x : n = 1 \/ n = 4 -> a `mod` n = 0 -> a <= x < a + n ->
  Guest.page_of x = Guest.page_of a /\ Guest.offset_of x = Guest.offset_of a + (x - a).
Proof using Type.
  intros Hn Ha Hx. rewrite !GF.page_of_spec, !GF.offset_of_spec. unfold CITRA_PAGE_SIZE.
  destruct Hn as [-> | ->]; Z.div_mod_to_equations; lia.
Qed.

#[export] Instance guest_backed : Backed (M := Guest.msys W) pt.
Proof using apart.
  refine {| area := guest_area; peek m x := Guest.mem m (guest_host x) |}.
  intros n a v m Hn Ha Har.
  assert (Z.of_nat n = 1 \/ Z.of_nat n = 4) as Hn' by lia.
  assert (guest_area a) as Haa by (apply Har; lia). unfold write, guest_ram, Guest.Write. unfold guest_area in Haa.
  destruct (Z.eqb_spec (PT.pointer (PT.get pt (Guest.page_of a))) 0); [done|]. cbn [negb]. eexists. split; [done|].
  intros x Hx. cbn [Guest.with_mem Guest.mem]. rewrite store_at. fold (guest_host a).
  destruct (decide (a <= x < a + Z.of_nat n)) as [Hin|Hout].
  - destruct (same_page a (Z.of_nat n) x Hn' Ha Hin) as [Ep Eo].
    assert (guest_host x = guest_host a + (x - a)) as -> by (unfold guest_host; rewrite Ep, Eo; lia).
    destruct (Z.leb_spec (guest_host a) (guest_host a + (x - a))), (Z.ltb_spec (guest_host a + (x - a)) (guest_host a + Z.of_nat n)); try lia.
    destruct (Z.leb_spec a x), (Z.ltb_spec x (a + Z.of_nat n)); try lia. cbn [andb]. f_equal. lia.
  - assert ((a <=? x) && (x <? a + Z.of_nat n) = false) as -> by (destruct (Z.leb_spec a x), (Z.ltb_spec x (a + Z.of_nat n)); try done; lia).
    destruct (Z.leb_spec (guest_host a) (guest_host x)), (Z.ltb_spec (guest_host x) (guest_host a + Z.of_nat n)); cbn [andb]; try done.
    exfalso. apply Hout. set (y := a + (guest_host x - guest_host a)). assert (a <= y < a + Z.of_nat n) as Hy by (unfold y; lia).
    destruct (same_page a (Z.of_nat n) y Hn' Ha Hy) as [Ep Eo].
    assert (guest_host y = guest_host x) as E by (unfold guest_host at 1; rewrite Ep, Eo; unfold y, guest_host; lia).
    apply apart in E; [by subst y; rewrite <- E|by apply Har|done].
Defined.
End GuestRam.

(** ** Files *)

Definition one_line (l : str) : Prop := (newline ∉ l) /\ (nul ∉ l).

(** Texts the file format can tell apart. *)
Record code_text (l : str) : Prop := {
  ct_line : one_line l; ct_stripped : stripped l; ct_some : l ≠ [];
  ct_comment : starts_with "*"%char l = false; ct_header : ((2 <=? length l)%nat && starts_with "["%char l) = false;
}.
Record comment_text (l : str) : Prop := {
  cm_line : one_line l; cm_stripped : stripped (lit "*" ++ l); cm_enabled : lit "*" ++ l ≠ EnabledText;
}.
Record storable (c : GatewayCheat) : Prop := {
  sc_name : one_line (name c); sc_lines : cheat_lines c ≠ [];
  sc_code : Forall (fun l => l = parse_line (cheat_line l) /\ code_text (cheat_line l)) (cheat_lines c);
  sc_comments : exists cl, comments c = join_lines cl /\ Forall comment_text cl;
}.

Lemma load_line_clean line : nul ∉ line -> stripped line ->
  StripSpaces (filter (fun c => c ≠ nul) line) = line.
Proof.
  intros Hn Hs. rewrite filter_all; [by apply StripSpaces_id|]. intros c Hc ->. done.
Qed.

Lemma load_code l line : code_text line ->
  load_line l line = mk_loader (l_cheats l) (l_comments l) (l_lines l ++ [parse_line line]) (l_name l) (l_enabled l).
Proof.
  intros [[_ Hn] Hst Hne Hc Hh]. unfold load_line. rewrite load_line_clean by done. cbv zeta. rewrite Hh, Hc. by destruct line.
Qed.

Lemma load_comment l line : comment_text line ->
  load_line l (lit "*" ++ line) = mk_loader (l_cheats l) (l_comments l ++ line ++ [newline]) (l_lines l) (l_name l) (l_enabled l).
Proof.
  intros [[_ Hn] Hst He]. unfold load_line. rewrite load_line_clean; [|rewrite not_elem_of_app; split; [by apply (bool_decide_unpack _)|done]|done].
  cbv zeta. rewrite andb_false_r. cbn [starts_with lit String.list_ascii_of_string app].
  change (bool_decide ("*"%char = "*"%char)) with true. cbv iota. rewrite bool_decide_false by done. unfold substr. cbn [length]. rewrite Nat.sub_succ, Nat.sub_0_r. cbn [drop]. by rewrite firstn_all.
Qed.

Definition flush (l : loader) : list GatewayCheat := match l_lines l with [] => l_cheats l | _ => push_cheat l end.

Lemma load_header l name_ : one_line name_ -> (l_lines l = [] -> l_enabled l = false) ->
  load_line l (lit "[" ++ name_ ++ lit "]") = mk_loader (flush l) [] [] name_ false.
Proof.
  intros [_ Hn] Hl. unfold load_line. rewrite load_line_clean.
  - cbv zeta. cbn [lit String.list_ascii_of_string app starts_with length]. rewrite length_app. cbn [length].
    change (bool_decide ("["%char = "["%char)) with true. replace (2 <=? S (length name_ + 1))%nat with true by (symmetry; apply Nat.leb_le; lia).
    cbn [andb]. unfold substr. cbn [drop]. replace (S (length name_ + 1) - 2)%nat with (length name_) by lia. rewrite drop_0, take_app_length.
    unfold flush. destruct (l_lines l); [by rewrite Hl|done].
  - rewrite !not_elem_of_app. split; [by apply (bool_decide_unpack _)|]. split; [done|by apply (bool_decide_unpack _)].
  - split; [done|]. rewrite app_assoc. cbn [lit String.list_ascii_of_string]. by rewrite last_snoc.
Qed.

Lemma foldl_code ls : forall l, Forall (fun x => x = parse_line (cheat_line x) /\ code_text (cheat_line x)) ls ->
  foldl load_line l (cheat_line <$> ls) = mk_loader (l_cheats l) (l_comments l) (l_lines l ++ ls) (l_name l) (l_enabled l).
Proof.
  induction ls as [|x ls IH]; intros l Hf; cbn [fmap list_fmap foldl].
  - rewrite app_nil_r. by destruct l.
  - apply Forall_cons in Hf as [[Hx Ht] Hf]. rewrite load_code by done. rewrite IH by done. cbn. by rewrite <- app_assoc, <- Hx.
Qed.

Lemma foldl_comments cl : forall l, Forall comment_text cl ->
  foldl load_line l ((fun c => lit "*" ++ c) <$> cl) = mk_loader (l_cheats l) (l_comments l ++ join_lines cl) (l_lines l) (l_name l) (l_enabled l).
Proof.
  induction cl as [|x cl IH]; intros l Hf; cbn [fmap list_fmap foldl].
  - unfold join_lines. cbn. rewrite app_nil_r. by destruct l.
  - apply Forall_cons in Hf as [Hx Hf]. rewrite load_comment by done. rewrite IH by done. cbn [l_comments l_cheats l_lines l_name l_enabled].
    unfold join_lines at 2. cbn [fmap list_fmap mjoin list_join]. fold (join_lines cl). by rewrite <- !app_assoc.
Qed.

(** The lines of [ToString]. *)
Definition file_lines (c : GatewayCheat) : list str :=
  (lit "[" ++ name c ++ lit "]") :: (if enabled c then [EnabledText] else []) ++
  ((fun l => lit "*" ++ l) <$> SplitString (comments c) newline) ++ (cheat_line <$> cheat_lines c) ++ [[]].

Lemma join_lines_app l1 l2 : join_lines (l1 ++ l2) = join_lines l1 ++ join_lines l2.
Proof. unfold join_lines. by rewrite fmap_app, join_app. Qed.

Lemma join_lines_cons x l : join_lines (x :: l) = x ++ [newline] ++ join_lines l.
Proof. unfold join_lines. cbn [fmap list_fmap mjoin list_join]. by rewrite <- app_assoc. Qed.

Lemma ToString_lines c : ToString c = join_lines (file_lines c).
Proof.
  unfold file_lines, ToString, GetCode. rewrite join_lines_cons, !join_lines_app, <- !app_assoc. do 4 f_equal. by destruct (enabled c).
Qed.

Lemma foldl_cheat c l : storable c -> (l_lines l = [] -> l_enabled l = false) ->
  foldl load_line l (file_lines c) = mk_loader (flush l) (comments c) (cheat_lines c) (name c) (enabled c).
Proof.
  intros [Hn Hne Hcode (cl & Hcl & Hcom)] Hl. unfold file_lines. cbn [foldl]. rewrite load_header by done.
  rewrite Hcl, SplitString_join by (eapply Forall_impl; [exact Hcom|]; intros x [[Hx _] _ _]; exact Hx).
  rewrite !foldl_app.
  assert (foldl load_line (mk_loader (flush l) [] [] (name c) false) (if enabled c then [EnabledText] else []) = mk_loader (flush l) [] [] (name c) (enabled c)) as ->
    by (destruct (enabled c); reflexivity).
  rewrite foldl_comments, foldl_code by done. cbn. unfold load_line. cbn. by destruct c.
Qed.

Lemma lit_one_line (s : string) : bool_decide (newline ∉ lit s) = true -> newline ∉ lit s.
Proof. apply bool_decide_eq_true_1. Qed.

Lemma file_lines_newline c : storable c -> Forall (fun l => newline ∉ l) (file_lines c).
Proof.
  intros [[Hn _] Hne Hcode (cl & Hcl & Hcom)]. unfold file_lines. constructor.
  { rewrite !not_elem_of_app. split; [by apply lit_one_line|]. split; [done|by apply lit_one_line]. }
  rewrite !Forall_app. split; [destruct (enabled c); repeat constructor; by apply lit_one_line|]. split; [|split].
  - rewrite Hcl, SplitString_join by (eapply Forall_impl; [exact Hcom|]; intros x [[Hx _] _ _]; exact Hx).
    apply Forall_fmap. eapply Forall_impl; [exact Hcom|]. intros x [[Hx _] _ _]. cbn. apply not_elem_of_cons. split; [by apply (bool_decide_unpack _)|done].
  - apply Forall_fmap. eapply Forall_impl; [exact Hcode|]. by intros x (_ & [[Hx _] _ _ _ _]).
  - repeat constructor. apply not_elem_of_nil.
Qed.

Lemma foldl_cheats cs : forall l, Forall storable cs -> (l_lines l = [] -> l_enabled l = false) ->
  flush (foldl load_line l (mjoin (file_lines <$> cs))) = flush l ++ cs.
Proof.
  induction cs as [|c cs IH]; intros l Hcs Hl; cbn [fmap list_fmap mjoin list_join]; [cbn; by rewrite app_nil_r|].
  apply Forall_cons in Hcs as [Hc Hcs]. rewrite foldl_app, foldl_cheat by done. rewrite IH; [|done|].
  - unfold flush at 1. cbn [l_lines]. pose proof (sc_lines _ Hc). destruct (cheat_lines c) eqn:E; [done|]. unfold push_cheat. cbn.
    rewrite <- app_assoc. cbn. do 2 f_equal. rewrite <- E. by destruct c.
  - cbn. intros E. by destruct (sc_lines _ Hc).
Qed.

Lemma join_lines_join ls : mjoin (join_lines <$> ls) = join_lines (mjoin ls).
Proof. induction ls as [|l ls IH]; [done|]. change (join_lines l ++ mjoin (join_lines <$> ls) = join_lines (l ++ mjoin ls)). by rewrite join_lines_app, IH. Qed.

Lemma LoadFile_ToString cs : Forall storable cs -> LoadFile (mjoin (ToString <$> cs)) = cs.
Proof.
  intros Hcs. unfold LoadFile. fold (flush (foldl load_line (mk_loader [] [] [] [] false) (split newline (mjoin (ToString <$> cs))))).
  assert (mjoin (ToString <$> cs) = join_lines (mjoin (file_lines <$> cs)) ++ []) as ->.
  { rewrite app_nil_r, <- join_lines_join, <- list_fmap_compose. f_equal. apply list_fmap_ext. intros i c _. apply ToString_lines. }
  rewrite split_join.
  - rewrite foldl_app. cbn [split foldl]. set (l := foldl _ _ _).
    assert (load_line l [] = l) as -> by done. unfold l. by rewrite foldl_cheats.
  - clear - Hcs. induction Hcs as [|c cs Hc _ IH]; [constructor|].
    change (Forall (fun l => newline ∉ l) (file_lines c ++ mjoin (file_lines <$> cs))). apply Forall_app. split; [by apply file_lines_newline|done].
Qed.

(** C38: The cheats of a game that were saved load again in a later session as they were, the enabled ones enabled, provided
    that each has code, that its comments end in a newline and that no name, comment or code line could be read as something else. *)
Theorem saved_cheats_load_again title_id (g g' : engine) : Forall storable (cheats_list g) -> loaded_title_id g' ≠ Some title_id ->
  files g' !! title_id = files (SaveCheatFile title_id g) !! title_id ->
  cheats_list (LoadCheatFile title_id g') = cheats_list g /\ loaded_title_id (LoadCheatFile title_id g') = Some title_id.
Proof.
  intros Hs Hl Hf. unfold LoadCheatFile. rewrite bool_decide_false by done. cbn [cheats_list loaded_title_id]. split; [|done].
  rewrite Hf. unfold SaveCheatFile. cbn [files]. rewrite lookup_insert_eq. by apply LoadFile_ToString.
Qed.

(** ** On a concrete memory *)

(** One mapped page of code, all zero. *)
Definition page : PT.table := {[ 0x100 := PT.mk_entry PT.Memory 0x10000000 ]}.
Definition zeros : env (Guest.msys unit) := mk_env (Guest.mk_msys tt (fun _ => 0) ∅ 0) [].
#[local] Existing Instance GT.idle_gpu.
#[local] Instance page_ram : Ram PT.table (Guest.msys unit) := guest_ram GT.F GT.V.

(** A [FullTerminator] behind a failed conditional jumps back to a [Loop] line it then skips: the loop counter
    stands still.  Closing a conditional that is not open keeps [if_flag] from growing. *)
Definition hanging : list CheatLine :=
  parse_line <$> [lit "C0000000 00000002"; lit "D0000000 00000000"; lit "50100000 00000001"; lit "D2000000 00000000"].
Definition stuck (i line : Z) : State := mk_State 0 0 i 1 0 line true.

Lemma hanging_step fuel s t l : hanging !! Z.to_nat (current_line_nr s) = Some l -> step page 0 hanging l s zeros = Done (t, zeros) ->
  run page 0 (S fuel) hanging s zeros = run page 0 fuel hanging t zeros.
Proof. intros Hl E. by rewrite (run_step page 0 fuel hanging s zeros l _ eq_refl Hl), E. Qed.

Lemma hanging_stuck fuel : run page 0 fuel hanging (stuck 1 0) zeros = Stop FFuel /\ run page 0 fuel hanging (stuck 1 1) zeros = Stop FFuel /\
  run page 0 fuel hanging (stuck 0 2) zeros = Stop FFuel /\ run page 0 fuel hanging (stuck 1 3) zeros = Stop FFuel.
Proof.
  induction fuel as [|fuel (I0 & I1 & I2 & I3)]; [by vm_compute|].
  rewrite (hanging_step fuel (stuck 1 0) (stuck 1 1) _ eq_refl eq_refl), (hanging_step fuel (stuck 1 1) (stuck 0 2) _ eq_refl eq_refl),
    (hanging_step fuel (stuck 0 2) (stuck 1 3) _ eq_refl eq_refl), (hanging_step fuel (stuck 1 3) (stuck 1 0) _ eq_refl eq_refl). done.
Qed.

Lemma cheat_can_hang fuel : run page 0 fuel hanging initial zeros = Stop FFuel.
Proof.
  destruct fuel as [|[|[|fuel]]]; [by vm_compute..|]. set (s0 := mk_State 0 0 0 1 0 1 true). set (s1 := mk_State 0 0 0 1 0 2 true).
  rewrite (hanging_step _ initial s0 _ eq_refl eq_refl), (hanging_step _ s0 s1 _ eq_refl eq_refl), (hanging_step _ s1 (stuck 1 3) _ eq_refl eq_refl).
  apply hanging_stuck.
Qed.

(** A loop that counts three words down, a conditional that fails, and a patch of six bytes. *)
Definition sample : list str :=
  [lit "D5000000 00000007"; lit "C0000000 00000002"; lit "D4000000 FFFFFFFF"; lit "D6000000 00100000"; lit "D1000000 00000000";
   lit "D3000000 00000000"; lit "50100004 00000001"; lit "20100004 000000FF"; lit "D0000000 00000000"; lit "E010000C 00000006"; lit "44332211 00006655"].

Lemma cheat_ends_witness : no_guarded_end 0 (parse_line <$> sample) = true /\ patches_inside (parse_line <$> sample) = true /\
  (e ← Execute_lines page 0 (parse_line <$> sample) zeros; Done ((fun i => Guest.mem (ram e) (0x10000000 + i)) <$> seqZ 0 20, invalidated e)) =
    Done ([6; 0; 0; 0; 5; 0; 0; 0; 4; 0; 0; 0; 0x11; 0x22; 0x33; 0x44; 0x55; 0x66; 0; 0], [(0x100000, 4); (0x100004, 4); (0x100008, 4); (0x10000C, 6)]) /\
  match Execute_lines page 0 (parse_line <$> sample) zeros with Done _ => True | Stop f => mem_fault page f end.
Proof.
  split; [by vm_compute|]. split; [by vm_compute|]. split; [by vm_compute|].
  apply (cheat_ends page 0 sample zeros); [by vm_compute|by vm_compute|by vm_compute].
Defined.

Definition count_loop : CheatLine := parse_line (lit "C0000000 00000002").
Definition count_body : list CheatLine := parse_line <$> [lit "D4000000 00000005"; lit "D6000000 00100000"].
Definition count_end : CheatLine := parse_line (lit "D1000000 00000000").

Lemma loop_repeats_body_witness : exists e,
  sweeps page 0 3 count_body 0 0 zeros = Done (15, 12, e) /\ Guest.load 4 0x10000008 (Guest.mem (ram e)) = 15 /\
  run page 0 12 ([] ++ count_loop :: count_body ++ count_end :: []) initial zeros = Done (mk_State 15 12 0 0 0 4 false, e).
Proof.
  destruct (sweeps page 0 3 count_body 0 0 zeros) as [[[r o] e]|] eqn:E; [|by vm_compute in E].
  exists e. assert (r = 15 /\ o = 12 /\ Guest.load 4 0x10000008 (Guest.mem (ram e)) = 15) as (-> & -> & Hm) by (vm_compute in E; injection E as <- <- <-; by vm_compute).
  split; [done|]. split; [done|].
  pose proof (loop_repeats_body page 0 [] count_body [] count_loop count_end 2 0 0 0 zeros eq_refl eq_refl eq_refl ltac:(lia) ltac:(by repeat constructor) ltac:(done)) as Hrun.
  change (Z.to_nat (2 + 1)) with 3%nat in Hrun. rewrite E in Hrun. exact Hrun.
Defined.

Definition guard : CheatLine := parse_line (lit "50100000 00000001").
Definition guarded_block : list CheatLine := parse_line <$> [lit "60100004 00000001"; lit "00100000 00000009"; lit "D0000000 00000000"; lit "20100001 00000007"].
Definition guard_end : CheatLine := parse_line (lit "D0000000 00000000").
Definition last_line : CheatLine := parse_line (lit "20100002 00000003").

Lemma failed_condition_skips_block_witness :
  execute_line page 0 ([] ++ guard :: guarded_block ++ guard_end :: [last_line]) guard initial zeros = Done (fail initial, zeros) /\
  run page 0 7 ([] ++ guard :: guarded_block ++ guard_end :: [last_line]) initial zeros =
  run page 0 1 ([] ++ guard :: guarded_block ++ guard_end :: [last_line]) (set_line 6 initial) zeros.
Proof.
  split; [by vm_compute|].
  apply (failed_condition_skips_block page 0 [] guarded_block [last_line] guard guard_end 1 initial zeros zeros eq_refl eq_refl eq_refl); [done|done|done|by vm_compute].
Defined.

Lemma page_apart x y : guest_area page x -> guest_area page y -> guest_host page x = guest_host page y -> x = y.
Proof.
  assert (forall z, guest_area page z -> Guest.page_of z = 0x100 /\ guest_host page z = 0x10000000 + Guest.offset_of z) as Hz.
  { intros z. unfold guest_area, guest_host, PT.get, page. destruct (decide (Guest.page_of z = 0x100)) as [->|Hne].
    - rewrite lookup_singleton_eq. done.
    - rewrite lookup_singleton_ne by done. done. }
  intros Hx Hy E. destruct (Hz x Hx) as [Px Ex], (Hz y Hy) as [Py Ey]. rewrite Ex, Ey in E.
  destruct (GF.page_split x) as [Sx _], (GF.page_split y) as [Sy _]. rewrite Px in Sx. rewrite Py in Sy. lia.
Qed.

Definition patch_text : list str := [lit "E0100004 00000006"; lit "44332211 00006655"].

Lemma patch_copies_witness : exists e', PatchOp page (parse_line <$> patch_text) (parse_line (lit "E0100004 00000006")) initial zeros = Done (set_line 1 initial, e') /\
  (fun i => Guest.mem (ram e') (0x10000000 + i)) <$> seqZ 4 6 = [0x11; 0x22; 0x33; 0x44; 0x55; 0x66].
Proof.
  assert (forall x, 0x100004 <= x < 0x100004 + 6 -> area (Backed := guest_backed GT.F GT.V page page_apart) x) as Har.
  { intros x Hx. change (guest_area page x). unfold guest_area, PT.get, page. assert (Guest.page_of x = 0x100) as ->; [|by rewrite lookup_singleton_eq].
    rewrite GF.page_of_spec. unfold CITRA_PAGE_SIZE. Z.div_mod_to_equations; lia. }
  destruct (patch_copies (H0 := guest_backed GT.F GT.V page page_apart) patch_text (parse_line (lit "E0100004 00000006")) initial zeros 6 0x100004
    eq_refl ltac:(done) eq_refl eq_refl eq_refl eq_refl ltac:(lia) eq_refl ltac:(done) Har) as [Hrun _].
  destruct (Hrun eq_refl) as (e' & E & _). exists e'. split; [exact E|]. vm_compute in E. injection E as <-. by vm_compute.
Defined.

Definition two_cheats : engine := mk_engine
  [mk_cheat true (lit "Moon jump") [parse_line (lit "DD000000 00000001"); parse_line (lit "00100000 00000007")] (join_lines [lit "press A"; []]);
   mk_cheat false (lit "[odd]") [parse_line (lit "[")] []] None 3 ∅.

Lemma plain_text l : bool_decide (newline ∉ l) && bool_decide (nul ∉ l) = true -> one_line l.
Proof. rewrite andb_true_iff, !bool_decide_eq_true. done. Qed.

Lemma saved_cheats_load_again_witness :
  cheats_list (LoadCheatFile 5 (mk_engine [] None 3 (files (SaveCheatFile 5 two_cheats)))) = cheats_list two_cheats.
Proof.
  apply (saved_cheats_load_again 5 two_cheats (mk_engine [] None 3 (files (SaveCheatFile 5 two_cheats)))); [|done|done].
  repeat (apply Forall_cons; split); [split|split|apply Forall_nil; done]; try done; try by apply plain_text.
  - repeat (apply Forall_cons; split); try (apply Forall_nil; done); (split; [by vm_compute|]); split; try done; by apply plain_text.
  - exists [lit "press A"; []]. split; [done|]. repeat (apply Forall_cons; split); try (apply Forall_nil; done); split; try done; by apply plain_text.
  - repeat (apply Forall_cons; split); try (apply Forall_nil; done); (split; [by vm_compute|]); split; try done; by apply plain_text.
  - exists []. split; [done|]. by apply Forall_nil.
Defined.

(** A cheat without lines is not loaded again, and its mark enables the next cheat. *)
Example empty_cheat_enables_next : let line := parse_line (lit "00100000 00000007") in
  LoadFile (mjoin (ToString <$> [mk_cheat true (lit "A") [] []; mk_cheat false (lit "B") [line] []])) = [mk_cheat true (lit "B") [line] []].
Proof. by vm_compute. Qed.

(** A patch without lines behind it reads past the end of the cheat. *)
Example patch_past_end : Execute_lines page 0 [parse_line (lit "E0100000 00000004")] zeros = Stop FOutOfRange.
Proof. by vm_compute. Qed.

End CT.
