(* ===== verification/Ipc.v ===== *)
(** * Inter-process communication

    The descriptors of command buffers (core/hle/ipc.h) and their translation from the
    process that sends a command to the one that receives it
    (core/hle/kernel/ipc.cpp): handles are given to the receiver, static buffers are
    copied, and mapped buffers appear in its address space between two guard pages until
    the reply.  The recorder of the debugger is left out. *)
From S2P Require Import Prelude BitField Results HandleTable PageTable VMManager MemoryMap GuestMemory.
Import Res Map.

Module Ipc.

(** ** Descriptors *)

(** Words of the command buffer area; static buffers of a thread. *)
Definition COMMAND_BUFFER_LENGTH : Z := 64.
Definition MAX_STATIC_BUFFERS : Z := 16.

Inductive DescriptorType := StaticBuffer | PXIBuffer | MappedBuffer | CopyHandle | MoveHandle | CallingPid | Unknown.
Definition StaticBufferType : Z := 0x02.
Definition PXIBufferType : Z := 0x04.
Definition MappedBufferType : Z := 0x08.
Definition CopyHandleType : Z := 0x00.
Definition MoveHandleType : Z := 0x10.
Definition CallingPidType : Z := 0x20.

Definition field (position bits : Z) : BitField.t := BitField.mk position bits 32.
Definition translate_params_size : BitField.t := field 0 6.
Definition normal_params_size : BitField.t := field 6 6.
Definition command_id : BitField.t := field 16 16.

Definition MakeHeader (command_id_ normal_params_size_ translate_params_size_ : Z) : Z :=
  let header := BitField.Assign command_id 0 command_id_ in
  let header := BitField.Assign normal_params_size header normal_params_size_ in
  BitField.Assign translate_params_size header translate_params_size_.

Definition MoveHandleDesc (num_handles : Z) : Z := Z.lor MoveHandleType (u32 (Z.shiftl (u32 (num_handles - 1)) 26)).
Definition CopyHandleDesc (num_handles : Z) : Z := Z.lor CopyHandleType (u32 (Z.shiftl (u32 (num_handles - 1)) 26)).
Definition CallingPidDesc : Z := CallingPidType.
Definition IsHandleDescriptor (descriptor : Z) : bool := Z.land descriptor 0xF =? 0.
Definition HandleNumberFromDesc (handle_descriptor : Z) : Z := u32 (Z.shiftr handle_descriptor 26 + 1).

(** [StaticBufferDescInfo] and [MappedBufferDescInfo]. *)
Definition descriptor_type : BitField.t := field 0 4.
Definition buffer_id : BitField.t := field 10 4.
Definition static_size : BitField.t := field 14 18.
Definition flags : BitField.t := field 0 4.
Definition perms : BitField.t := field 1 2.
Definition mapped_size : BitField.t := field 4 28.

Definition StaticBufferDesc (size buffer_id_ : Z) : Z :=
  let info := BitField.Assign descriptor_type 0 StaticBufferType in
  let info := BitField.Assign buffer_id info buffer_id_ in
  BitField.Assign static_size info (u32 size).

Definition PXIBufferDesc (size buffer_id_ : Z) (is_read_only : bool) : Z :=
  let type := if is_read_only then Z.lor PXIBufferType 2 else PXIBufferType in
  Z.lor (Z.lor type (u32 (Z.shiftl size 8))) (Z.shiftl (Z.land buffer_id_ 0xF) 4).

(** [MappedBufferPermissions] *)
Definition PermR : Z := 1.
Definition PermW : Z := 2.
Definition PermRW : Z := 3.

Definition MappedBufferDesc (size perms_ : Z) : Z :=
  let info := BitField.Assign flags 0 MappedBufferType in
  let info := BitField.Assign perms info perms_ in
  BitField.Assign mapped_size info (u32 size).

Definition GetDescriptorType (descriptor : Z) : DescriptorType :=
  if IsHandleDescriptor descriptor then
    let t := Z.land descriptor 0x30 in
    if t =? CopyHandleType then CopyHandle
    else if t =? MoveHandleType then MoveHandle
    else if t =? CallingPidType then CallingPid else Unknown
  else if negb (Z.land descriptor MappedBufferType =? 0) then MappedBuffer
  else if negb (Z.land descriptor PXIBufferType =? 0) then PXIBuffer
  else StaticBuffer.

(** ** Words in memory *)

Fixpoint words_of_bytes (l : list Z) : list Z :=
  match l with
  | a :: b :: c :: d :: l => (a + 256 * (b + 256 * (c + 256 * d))) :: words_of_bytes l
  | _ => []
  end.
Definition bytes_of_word (w : Z) : list Z := (fun i => Z.shiftr w (8 * i) `mod` 256) <$> seqZ 0 4.
Definition bytes_of_words (l : list Z) : list Z := mjoin (bytes_of_word <$> l).

(** ** Translation *)

(** What a new block of the C++ heap is called. *)
Class Heap (A : Type) := { allocate : Z -> A -> Z * A }.

(** [cmd_buf]: words beyond the command are not set. *)
Abbreviation cmd_buf := (list (option Z)).

Section Translate.
Context {Obj : Type} {W : Type} `{Guest.Gpu W} {A : Type} `{Heap A} (fcram vram : Z).

(** The parts of a process that take part. *)
Record process := mk_process { vm_manager : VM.vmm; handle_table : Handle.table Obj; process_id : Z; self : Obj }.

Record MappedBufferContext := mk_context { permissions : Z; size : Z; source_address : Z; target_address : Z; buffer : MRef.backing }.

(** Processes by number, memory, the buffers mapped for the requests of the session, and the heap of the emulator. *)
Record st := mk_st { processes : gmap Z process; memory : Guest.msys W; mapped_buffer_context : list MappedBufferContext; heap : A }.

Definition set_memory (m : Guest.msys W) (s : st) : st := mk_st (processes s) m (mapped_buffer_context s) (heap s).
Definition set_contexts (l : list MappedBufferContext) (s : st) : st := mk_st (processes s) (memory s) l (heap s).
Definition set_process (p : Z) (x : process) (s : st) : st := mk_st (<[p := x]> (processes s)) (memory s) (mapped_buffer_context s) (heap s).
Definition set_vm (v : VM.vmm) (x : process) : process := mk_process v (handle_table x) (process_id x) (self x).
Definition set_handles (t : Handle.table Obj) (x : process) : process := mk_process (vm_manager x) t (process_id x) (self x).

(** State and error codes. *)
Definition im (B : Type) : Type := st -> outcome (result_val B * st).
#[global] Instance im_ret : MRet im := fun B b s => Done (Val b, s).
#[global] Instance im_bind : MBind im := fun B C k m s =>
  '(r, s) ← m s; match r with Val b => k b s | Err e => Done (Err e, s) end.
Definition throw {B} (e : result) : im B := fun s => Done (Err e, s).
Definition lift {B} (o : outcome B) : im B := fun s => b ← o; Done (Val b, s).
Definition on_state {B} (f : st -> outcome (B * st)) : im B := fun s => '(b, s) ← f s; Done (Val b, s).
Definition modify (f : st -> st) : im unit := on_state (fun s => Done (tt, f s)).
Definition check (b : bool) : im unit := lift (assert_ b).

Definition get_process (p : Z) : im process := on_state (fun s => x ← of_opt FAssert (processes s !! p); Done (x, s)).
Definition pages (p : Z) : im PT.table := x ← get_process p; mret (VM.page_table (vm_manager x)).

Definition ReadBlock (p addr size : Z) : im (list Z) :=
  pt ← pages p; on_state (fun s => '(l, m) ← Guest.ReadBlock fcram vram pt addr size (memory s); Done (l, set_memory m s)).
Definition WriteBlock (p addr : Z) (l : list Z) : im unit :=
  pt ← pages p; on_state (fun s => m ← Guest.WriteBlock fcram vram pt addr l (memory s); Done (tt, set_memory m s)).
Definition CopyBlock (dst src dest_addr src_addr size : Z) : im unit :=
  dst_pt ← pages dst; src_pt ← pages src;
  on_state (fun s => m ← Guest.CopyBlock fcram vram dst_pt src_pt dest_addr src_addr size (memory s); Done (tt, set_memory m s)).

(** A call of the address space or the handle table of a process. *)
Definition with_vm {B} (p : Z) (f : (Z -> bool) -> VM.vmm -> outcome (B * VM.vmm)) : im B :=
  x ← get_process p;
  on_state (fun s => '(b, v) ← f (Guest.IsCached (Guest.marks (memory s))) (vm_manager x); Done (b, set_process p (set_vm v x) s)).
Definition with_handles {B} (p : Z) (f : Handle.table Obj -> outcome (B * Handle.table Obj)) : im B :=
  x ← get_process p; on_state (fun s => '(b, t) ← f (handle_table x); Done (b, set_process p (set_handles t x) s)).

(** The words of [cmd_buf]. *)
Definition get_word (buf : cmd_buf) (i : Z) : outcome Z := o ← of_opt FOutOfRange (buf !! Z.to_nat i); of_opt FUninitialized o.
Definition set_word (i v : Z) (buf : cmd_buf) : outcome cmd_buf :=
  if i <? COMMAND_BUFFER_LENGTH then Done (<[Z.to_nat i := Some v]> buf) else Stop FOutOfRange.

(** The running thread and process of the kernel, for [GetGeneric]; the thread that sends. *)
Context (current_thread current_process : option Obj) (src_thread : Obj).

(** *** Handles *)

Definition find_object (src descriptor handle : Z) : im (option Obj) :=
  x ← get_process src;
  if handle =? Handle.CurrentThread then mret (Some src_thread)
  else if handle =? Handle.CurrentProcess then mret (Some (self x))
  else if handle =? 0 then mret None
  else
    let object := Handle.GetGeneric current_thread current_process (handle_table x) handle in
    if descriptor =? MoveHandleType then
      _ ← with_handles src (fun t => Done (Handle.Close handle t)); mret object
    else mret object.

Fixpoint translate_handles (n : nat) (src dst descriptor i : Z) (buf : cmd_buf) : im (Z * cmd_buf) :=
  match n with
  | O => mret (i, buf)
  | S n =>
      handle ← lift (get_word buf i);
      object ← find_object src descriptor handle;
      match object with
      | None => buf ← lift (set_word i 0 buf); translate_handles n src dst descriptor (i + 1) buf
      | Some object =>
          r ← with_handles dst (Handle.Create object);
          handle ← lift (match r with Val h => Done h | Err _ => Stop FAssert end);
          buf ← lift (set_word i handle buf);
          translate_handles n src dst descriptor (i + 1) buf
      end
  end.

Definition ResultCommandTooLarge : result := make 54 Mod_OS InvalidState Status.

(** *** Static buffers *)

Definition translate_static (src dst descriptor dst_address i : Z) (buf : cmd_buf) : im cmd_buf :=
  static_buffer_src_address ← lift (get_word buf i);
  data ← ReadBlock src static_buffer_src_address (BitField.ExtractValue static_size descriptor);
  let static_buffer_offset := COMMAND_BUFFER_LENGTH * 4 + 8 * BitField.ExtractValue buffer_id descriptor in
  target ← ReadBlock dst (u32 (dst_address + static_buffer_offset)) 8;
  match words_of_bytes target with
  | [target_descriptor; target_address] =>
      _ ← check (Z.of_nat (length data) <=? BitField.ExtractValue static_size target_descriptor);
      _ ← WriteBlock dst target_address data;
      lift (set_word i target_address buf)
  | _ => lift (Stop FUnreachable)
  end.

(** *** Mapped buffers *)

Definition AlignDown (value : Z) : Z := value - value `mod` CITRA_PAGE_SIZE.
Definition AlignUp (value : Z) : Z :=
  let m := value `mod` CITRA_PAGE_SIZE in if m =? 0 then u32 (value - m) else u32 (value - m + CITRA_PAGE_SIZE).

(** Page, offset in it and number of pages. *)
Definition page_start (address : Z) : Z := AlignDown address.
Definition page_offset (address : Z) : Z := u32 (address - page_start address).
Definition num_pages (address size : Z) : Z := Z.shiftr (AlignUp (u32 (page_offset address + size))) CITRA_PAGE_BITS.

Definition matches (perms_ size_ address : Z) (c : MappedBufferContext) : Prop :=
  permissions c = perms_ /\ size c = size_ /\ target_address c = address.
#[global] Instance matches_dec perms_ size_ address c : Decision (matches perms_ size_ address c).
Proof. unfold matches. apply _. Defined.

(** The areas next to the buffer are guard pages. *)
Definition check_guard (src address : Z) : im unit :=
  x ← get_process src;
  lift (let m := VM.vma_map (vm_manager x) in
        j ← VM.FindVMA m address; v ← VM.at_ m j; assert_ (bool_decide (VM.meminfo_state v = VM.StReserved))).

(** The sender of the reply is the receiver of the request. *)
Definition translate_mapped_reply (src dst size_ perms_ address : Z) : im unit :=
  '(k, c) ← on_state (fun s => f ← of_opt FAssert (list_find (matches perms_ size_ address) (mapped_buffer_context s)); Done (f, s));
  _ ← (if negb (perms_ =? PermR) then CopyBlock dst src (source_address c) (target_address c) size_ else mret tt);
  let start := page_start address in
  let n := num_pages address size_ in
  _ ← check_guard src (u32 (start - CITRA_PAGE_SIZE));
  _ ← check_guard src (u32 (start + n * CITRA_PAGE_SIZE));
  r ← with_vm src (fun ic => VM.UnmapRange ic (u32 (start - CITRA_PAGE_SIZE)) (u32 ((n + 2) * CITRA_PAGE_SIZE)));
  _ ← check (IsSuccess r);
  modify (fun s => set_contexts (delete k (mapped_buffer_context s)) s).

(** [make_shared<BufferMem>]: zeroed. *)
Definition set_bytes (f : Guest.bytes -> Guest.bytes) (s : st) : st := set_memory (Guest.with_mem (f (Guest.mem (memory s))) (memory s)) s.
Definition new_buffer (n : Z) : im MRef.backing := on_state (fun s =>
  let '(p, h) := allocate n (heap s) in
  Done (MRef.mk_backing p n, set_bytes (Guest.fill p n 0) (mk_st (processes s) (memory s) (mapped_buffer_context s) h))).

Definition guard (dst address : Z) : im unit :=
  r ← with_vm dst (fun ic => VM.ChangeMemoryState ic address CITRA_PAGE_SIZE VM.StShared VM.PermReadWrite VM.StReserved VM.PermNone);
  check (IsSuccess r).

(** The address of the buffer in the receiver. *)
Definition translate_mapped_request (src dst size_ perms_ address : Z) : im Z :=
  let offset := page_offset address in
  let bytes := (num_pages address size_ + 2) * CITRA_PAGE_SIZE in
  b ← new_buffer (u32 bytes);
  data ← ReadBlock src address size_;
  _ ← modify (set_bytes (Guest.copy_in (MRef.host b + CITRA_PAGE_SIZE + offset) data));
  r ← with_vm dst (fun ic => VM.MapBackingMemoryToBase ic IPC_MAPPING_VADDR IPC_MAPPING_SIZE (MRef.Ref b 0) (MRef.bytes b) VM.StShared);
  target ← lift (match r with Val t => Done t | Err _ => Stop FAssert end);
  _ ← guard dst target;
  _ ← guard dst (u32 (target + MRef.bytes b - CITRA_PAGE_SIZE));
  let target := u32 (target + CITRA_PAGE_SIZE) in
  let c := mk_context perms_ size_ address (u32 (target + offset)) b in
  _ ← modify (fun s => set_contexts (mapped_buffer_context s ++ [c]) s); mret (u32 (target + offset)).

Definition translate_mapped (src dst descriptor i : Z) (buf : cmd_buf) (reply : bool) : im (Z * cmd_buf) :=
  address ← lift (get_word buf i);
  let size_ := BitField.ExtractValue mapped_size descriptor in
  let perms_ := BitField.ExtractValue perms descriptor in
  if size_ =? 0 then buf ← lift (set_word i 0 buf); mret (i + 1, buf)
  else
    _ ← check (1 <=? num_pages address size_);
    if reply then _ ← translate_mapped_reply src dst size_ perms_ address; mret (i + 1, buf)
    else
      target ← translate_mapped_request src dst size_ perms_ address;
      buf ← lift (set_word i target buf); mret (i + 1, buf).

(** *** The loop over the descriptors *)

Definition translate_descriptor (src dst descriptor dst_address command_size i : Z) (buf : cmd_buf) (reply : bool) : im (Z * cmd_buf) :=
  match GetDescriptorType descriptor with
  | CopyHandle | MoveHandle =>
      let num_handles := HandleNumberFromDesc descriptor in
      if command_size <? i + num_handles then throw ResultCommandTooLarge
      else translate_handles (Z.to_nat num_handles) src dst descriptor i buf
  | CallingPid => x ← get_process src; buf ← lift (set_word i (process_id x) buf); mret (i + 1, buf)
  | StaticBuffer => buf ← translate_static src dst descriptor dst_address i buf; mret (i + 1, buf)
  | MappedBuffer => translate_mapped src dst descriptor i buf reply
  | PXIBuffer | Unknown => mret (i, buf)
  end.

Fixpoint translate_loop (fuel : nat) (src dst dst_address command_size i : Z) (buf : cmd_buf) (reply : bool) : im cmd_buf :=
  if command_size <=? i then mret buf
  else match fuel with
  | O => lift (Stop FFuel)
  | S fuel =>
      descriptor ← lift (get_word buf i);
      '(i, buf) ← translate_descriptor src dst descriptor dst_address command_size (i + 1) buf reply;
      translate_loop fuel src dst dst_address command_size i buf reply
  end.

Definition TranslateCommandBuffer (src dst src_address dst_address : Z) (reply : bool) : im unit :=
  _ ← get_process src; _ ← get_process dst;
  raw ← ReadBlock src src_address 4;
  header ← lift (of_opt FUnreachable (head (words_of_bytes raw)));
  let untranslated_size := 1 + BitField.ExtractValue normal_params_size header in
  let command_size := untranslated_size + BitField.ExtractValue translate_params_size header in
  _ ← check (command_size <=? COMMAND_BUFFER_LENGTH);
  command ← ReadBlock src src_address (command_size * 4);
  let words := words_of_bytes command in
  let buf := (Some <$> words) ++ replicate (Z.to_nat COMMAND_BUFFER_LENGTH - length words) None in
  buf ← translate_loop (Z.to_nat command_size) src dst dst_address command_size untranslated_size buf reply;
  words ← lift (of_opt FUninitialized (mapM id (take (Z.to_nat command_size) buf)));
  WriteBlock dst dst_address (bytes_of_words words).

End Translate.
#[global] Arguments process Obj : clear implicits.
#[global] Arguments st Obj W A : clear implicits.

End Ipc.
