(* ===== verification/IpcFacts.v ===== *)
(** * Facts about mapped buffers

    What lending a buffer does to the address space of the receiver ([lent]), and
    block copies between address spaces. *)
From S2P Require Import Prelude Results PageTable VMManager VMTiles VMFacts VMTheorems MemoryMap GuestMemory GuestFacts GuestTheorems Ipc.
Import Res Map.

Module IPF.
Import Tiles VMF.

(** ** More buffers *)

Lemma backs_mono (B B' : MRef.backing -> Prop) r n : (forall b, B b -> B' b) -> backs B r n -> backs B' r n.
Proof. intros HB [Hc Hb]. split; [done|]. destruct r; [done|by apply HB]. Qed.

Lemma wf_mono (IsC : Z -> bool) (B B' : MRef.backing -> Prop) v : (forall b, B b -> B' b) -> wf IsC B v -> wf IsC B' v.
Proof.
  intros HB [[Ht Hg] Hf Hp]. split; [split; [done|]|done|done]. eapply Forall_impl; [exact Hg|]. intros x [].
  split; try done. intros Hty. eapply backs_mono; [exact HB|auto].
Qed.

(** ** Lending a buffer *)

Section Lending.
Context (IsC : Z -> bool) (B : MRef.backing -> Prop).
Context (apart : forall b1 b2, B b1 -> B b2 -> b1 ≠ b2 ->
  MRef.host b1 + MRef.bytes b1 < MRef.host b2 \/ MRef.host b2 + MRef.bytes b2 < MRef.host b1).
Implicit Types v : VM.vmm.

(** The area [MapBackingMemoryToBase] picks has room for [n] bytes at [t]. *)
Definition room (base region n : Z) v (t : Z) : Prop :=
  exists x, VM.find_vma (VM.fits base n) (VM.vma_map v) = Some x /\ t = Z.max base (VM.base x) /\
    t + n <= VM.base x + VM.size x /\ t + n <= base + region.

Lemma map_to_base_ok v base region mem n st t : wf IsC B v -> VM.is_locked v = false -> 0 <= base -> base + region < 2 ^ 32 ->
  base `mod` CITRA_PAGE_SIZE = 0 -> 0 < n -> n `mod` CITRA_PAGE_SIZE = 0 -> room base region n v t -> backs B mem n ->
  all_free (VM.vma_map v) t (t + n) /\ 0 <= t /\ t `mod` CITRA_PAGE_SIZE = 0 /\ t + n <= VM.MAX_ADDRESS /\ base <= t /\
  exists v', VM.MapBackingMemoryToBase IsC base region mem n st v = Done (Val t, v') /\ wf IsC B v' /\ VM.is_locked v' = false /\
    forall a, view (VM.vma_map v') a =
      if decide (t <= a < t + n) then Some (mk_cell VM.BackingMemory VM.PermReadWrite st (MRef.GetPtr mem + (a - t))) else view (VM.vma_map v) a.
Proof using apart.
  intros Hw Hl H0 Hr Hba Hn Hna (x & Hx & Ht & Hend & Hreg) Hb. pose proof Hw as [[Htl Hg] _ _].
  pose proof (VMT.find_vma_spec (VM.fits base n) (VM.vma_map v)) as Hf. rewrite Hx in Hf. destruct Hf as (l & r & Hm & _ & Hf).
  apply (VMT.fits_reaches IsC B) in Hf; [|rewrite Hm in Hg; by apply Forall_app in Hg as [_ [Hg _]%Forall_cons]|lia..].
  pose proof (VMT.map_to_area IsC B apart v l x r base region mem n st) as Hmap. cbv zeta in Hmap. rewrite <- Ht in Hmap.
  rewrite (proj2 (Z.ltb_ge (base + region) _)), (proj2 (Z.ltb_ge (VM.base x + VM.size x) _)) in Hmap by lia.
  destruct Hmap as ([] & Hfree & v' & E); try done; try lia. split_and!; try done; try lia. by exists v'.
Qed.

(** A buffer of [n] bytes at [p], lent at [t] with a guard page on either side. *)
Definition lent (t n p : Z) (old : Z -> option cell) (a : Z) : option cell :=
  if decide (t <= a < t + n) then
    Some (if decide (t + CITRA_PAGE_SIZE <= a < t + n - CITRA_PAGE_SIZE)
          then mk_cell VM.BackingMemory VM.PermReadWrite VM.StShared (p + (a - t))
          else mk_cell VM.BackingMemory VM.PermNone VM.StReserved (p + (a - t)))
  else old a.

Lemma guard_ok v t : wf IsC B v -> VM.is_locked v = false -> VMT.page_range t CITRA_PAGE_SIZE ->
  (forall a, t <= a < t + CITRA_PAGE_SIZE -> exists p, view (VM.vma_map v) a = Some (mk_cell VM.BackingMemory VM.PermReadWrite VM.StShared p)) ->
  exists v', VM.ChangeMemoryState IsC t CITRA_PAGE_SIZE VM.StShared VM.PermReadWrite VM.StReserved VM.PermNone v = Done (ResultSuccess, v') /\
    wf IsC B v' /\ VM.is_locked v' = false /\
    forall a, view (VM.vma_map v') a =
      if decide (t <= a < t + CITRA_PAGE_SIZE) then VMT.set_state VM.StReserved VM.PermNone <$> view (VM.vma_map v) a else view (VM.vma_map v) a.
Proof using apart.
  intros Hw Hl Hr Hc. destruct (VMT.ChangeMemoryState_ok IsC B apart v t CITRA_PAGE_SIZE VM.StShared VM.PermReadWrite VM.StReserved VM.PermNone Hw Hl Hr)
    as [(_ & v' & E & Hw' & Hl' & Hv)|[Hno _]]; [by exists v'|].
  exfalso. apply Hno. intros a Ha. destruct (Hc a Ha) as [p Hp]. eexists. split; [exact Hp|]. done.
Qed.

Lemma lend_ok v base region b k t : let n := (k + 2) * CITRA_PAGE_SIZE in wf IsC B v -> VM.is_locked v = false -> 0 <= base -> base + region < 2 ^ 32 ->
  base `mod` CITRA_PAGE_SIZE = 0 -> 0 < k -> room base region n v t -> backs B (MRef.Ref b 0) n ->
  all_free (VM.vma_map v) t (t + n) /\ base <= t /\ t `mod` CITRA_PAGE_SIZE = 0 /\ t + n <= VM.MAX_ADDRESS /\
  exists v1 v2 v3, VM.MapBackingMemoryToBase IsC base region (MRef.Ref b 0) n VM.StShared v = Done (Val t, v1) /\
    VM.ChangeMemoryState IsC t CITRA_PAGE_SIZE VM.StShared VM.PermReadWrite VM.StReserved VM.PermNone v1 = Done (ResultSuccess, v2) /\
    VM.ChangeMemoryState IsC (t + n - CITRA_PAGE_SIZE) CITRA_PAGE_SIZE VM.StShared VM.PermReadWrite VM.StReserved VM.PermNone v2 = Done (ResultSuccess, v3) /\
    wf IsC B v3 /\ VM.is_locked v3 = false /\ forall a, view (VM.vma_map v3) a = lent t n (MRef.host b) (view (VM.vma_map v)) a.
Proof using apart.
  intros n Hw Hl H0 Hr Hba Hk Hroom Hb. assert (0 < CITRA_PAGE_SIZE) as Hps by done.
  assert (0 < n /\ CITRA_PAGE_SIZE + CITRA_PAGE_SIZE < n) as [Hn Hn2] by (unfold n; nia). assert (n `mod` CITRA_PAGE_SIZE = 0) as Hna by (unfold n; by rewrite Z.mod_mul).
  destruct (map_to_base_ok v base region _ n VM.StShared t Hw Hl H0 Hr Hba Hn Hna Hroom Hb) as (Hf & Ht0 & Hta & Hte & Hbt & v1 & E1 & Hw1 & Hl1 & Hv1).
  split; [done|]. split; [done|]. split; [done|]. split; [done|].
  destruct (guard_ok v1 t Hw1 Hl1) as (v2 & E2 & Hw2 & Hl2 & Hv2).
  { split; try done; lia. }
  { intros a Ha. rewrite Hv1, decide_True by lia. by eexists. }
  destruct (guard_ok v2 (t + n - CITRA_PAGE_SIZE) Hw2 Hl2) as (v3 & E3 & Hw3 & Hl3 & Hv3).
  { split; try done; try lia. replace (t + n - CITRA_PAGE_SIZE) with (t + (k + 1) * CITRA_PAGE_SIZE) by (unfold n; lia). by rewrite Z.mod_add. }
  { intros a Ha. rewrite Hv2, decide_False, Hv1, decide_True by lia. by eexists. }
  exists v1, v2, v3. split; [done|]. split; [done|]. split; [done|]. split; [done|]. split; [done|].
  intros a. rewrite Hv3, Hv2, Hv1. unfold lent. replace (MRef.GetPtr (MRef.Ref b 0)) with (MRef.host b) by (cbn; lia).
  destruct (decide (t <= a < t + n)) as [Ha|Ha].
  - destruct (decide (t + CITRA_PAGE_SIZE <= a < t + n - CITRA_PAGE_SIZE)).
    + by rewrite !decide_False by lia.
    + destruct (decide (t + n - CITRA_PAGE_SIZE <= a < t + n - CITRA_PAGE_SIZE + CITRA_PAGE_SIZE)).
      * by rewrite decide_False by lia.
      * by rewrite decide_True by lia.
  - by rewrite !decide_False by lia.
Qed.

(** Taking the buffer back. *)
Lemma unlend_ok v v0 t n p : wf IsC B v -> VM.is_locked v = false -> VMT.page_range t n -> all_free (VM.vma_map v0) t (t + n) ->
  (forall a, view (VM.vma_map v) a = lent t n p (view (VM.vma_map v0)) a) ->
  exists v', VM.UnmapRange IsC t n v = Done (ResultSuccess, v') /\ wf IsC B v' /\ VM.is_locked v' = false /\
    forall a, view (VM.vma_map v') a = view (VM.vma_map v0) a.
Proof using apart.
  intros Hw Hl Hr Hf Hv. destruct (VMT.UnmapRange_ok IsC B apart v t n Hw Hl Hr) as [(_ & v' & E & Hw' & Hl' & Hv')|[Hno _]].
  - exists v'. split; [done|]. split; [done|]. split; [done|]. intros a. rewrite Hv', Hv. unfold lent.
    destruct (decide (t <= a < t + n)) as [Ha|]; [by rewrite Hf|done].
  - exfalso. apply Hno. intros a Ha. rewrite Hv. unfold lent. rewrite decide_True by done. eexists. split; [done|]. by destruct (decide _).
Qed.
End Lending.

(** ** Block copies *)

Section Copies.
Context {W : Type} `{Guest.Gpu W} (fcram vram : Z).
Import Guest GF.
Implicit Types s : msys W.

(** Source and destination do not share bytes, and the source is mapped. *)
Record separate (spt dpt : PT.table) (a d n : Z) : Prop := {
  sp_mapped : forall x, a <= x < a + n -> is_Some (spot_of spt x);
  sp_apart : forall x y p, a <= x < a + n -> d <= y < d + n -> spot_of spt x = Some p -> spot_of dpt y ≠ Some p;
  sp_source : uncached spt a n; sp_dest : uncached dpt d n;
}.

Lemma separate_tail spt dpt a d n k : 0 <= k <= n -> separate spt dpt a d n -> separate spt dpt (a + k) (d + k) (n - k).
Proof using Type.
  intros Hk [Hm Ha Hs Hd]. split.
  - intros x Hx. apply Hm. lia.
  - intros x y p Hx Hy. apply Ha; lia.
  - by apply uncached_tail; [lia|].
  - by apply uncached_tail; [lia|].
Qed.

Lemma copy_loop_ok dpt spt fuel : forall idx off d n s, 0 <= off < CITRA_PAGE_SIZE -> 0 <= n -> 0 <= d ->
  n = 0 \/ off + n <= Z.of_nat fuel * CITRA_PAGE_SIZE -> idx * CITRA_PAGE_SIZE + off + n <= 2 ^ 32 -> d + n <= 2 ^ 32 ->
  separate spt dpt (idx * CITRA_PAGE_SIZE + off) d n ->
  exists s', copy_loop fcram vram fuel dpt spt idx off d n s = Done s' /\ same_but_mem s s' /\
    forall x, mem s' x = write_bytes dpt d (byte_of spt (mem s) <$> seqZ (idx * CITRA_PAGE_SIZE + off) n) (mem s) x.
Proof using Type.
  induction fuel as [|fuel IH]; intros idx off d n s Ho Hn Hd Hf Hend Hde Hsep.
  - assert (n = 0) as -> by (unfold CITRA_PAGE_SIZE in *; lia). by exists s.
  - destruct (decide (n = 0)) as [->|Hn0]; [by exists s|]. cbn [copy_loop]. destruct (Z.leb_spec n 0); [lia|].
    destruct (next_round idx off n Ho ltac:(lia)) as (Hk & Hkn & Hpage & Hnext). pose proof (rounds_enough off n fuel Ho ltac:(lia)) as Hr.
    set (k := amount off n) in *. set (a := idx * CITRA_PAGE_SIZE + off) in *.
    rewrite (locate_ok _ _ _ _ _ _ _ n) by (done || lia || apply (sp_source _ _ _ _ _ Hsep)). cbn [mbind outcome_bind].
    assert (found spt idx off = Host (PT.pointer (PT.get spt idx) + off)) as Hfound.
    { unfold found. destruct (sp_mapped _ _ _ _ _ Hsep a ltac:(lia)) as [p Hp]. pose proof (spot_run spt idx off 0 ltac:(lia) ltac:(lia) ltac:(lia)) as E.
      rewrite Z.add_0_r in E. fold a in E. rewrite Hp in E. by destruct (PT.attribute (PT.get spt idx)). }
    pose proof (chunk_bytes spt idx off k (mem s) ltac:(lia) ltac:(lia) ltac:(lia)) as Hchunk. rewrite Hfound in Hchunk |- *. rewrite Hchunk. fold a.
    set (chunk := byte_of spt (mem s) <$> seqZ a k). assert (Z.of_nat (length chunk) = k) as Hlen by (unfold chunk; rewrite length_fmap, length_seqZ; lia).
    destruct (WriteBlock_ok fcram vram false dpt d chunk s) as (s1 & E1 & Hs1 & Hm1); [lia|lia|rewrite Hlen; intros x Hx; apply (sp_dest _ _ _ _ _ Hsep); lia|].
    unfold WriteBlock. rewrite E1. cbn [mbind outcome_bind].
    assert (exists s', copy_loop fcram vram fuel dpt spt (idx + 1) 0 (u32 (d + k)) (n - k) s1 = Done s' /\ same_but_mem s1 s' /\
      forall x, mem s' x = write_bytes dpt (d + k) (byte_of spt (mem s1) <$> seqZ (a + k) (n - k)) (mem s1) x) as (s' & E & Hs' & Hm').
    { destruct Hnext as [E|E]; [rewrite E; exists s1; by destruct fuel|]. destruct (decide (n - k = 0)) as [E0|E0]; [rewrite E0; exists s1; by destruct fuel|].
      rewrite u32_small by lia. fold a in E. rewrite <- E. apply IH; [unfold CITRA_PAGE_SIZE; lia|lia|lia|lia|lia|lia|]. rewrite E. by apply separate_tail; [lia|]. }
    exists s'. split; [done|]. split; [unfold same_but_mem in *; naive_solver congruence|]. intros x. rewrite Hm'.
    rewrite (write_bytes_ext _ _ _ _ _ Hm1). replace (seqZ a n) with (seqZ a k ++ seqZ (a + k) (n - k)) by (rewrite <- seqZ_app by lia; f_equal; lia).
    rewrite fmap_app, write_bytes_app. fold chunk. rewrite Hlen. f_equal. apply fmap_seqZ_ext. intros y Hy. unfold byte_of.
    destruct (spot_of spt y) as [p|] eqn:Hp; [|done]. rewrite Hm1. apply GT.write_bytes_frame. intros i Hi. rewrite Hlen in Hi.
    apply (sp_apart _ _ _ _ _ Hsep y); [lia|lia|done].
Qed.

Lemma CopyBlock_ok dpt spt d a n s : 0 <= a -> 0 <= n -> 0 <= d -> a + n <= 2 ^ 32 -> d + n <= 2 ^ 32 -> separate spt dpt a d n ->
  exists s', CopyBlock fcram vram dpt spt d a n s = Done s' /\ same_but_mem s s' /\
    forall x, mem s' x = write_bytes dpt d (byte_of spt (mem s) <$> seqZ a n) (mem s) x.
Proof using Type.
  intros Ha Hn Hd He Hde Hsep. destruct (page_split a) as [E Ho]. unfold CopyBlock.
  destruct (copy_loop_ok dpt spt (rounds n) (page_of a) (offset_of a) d n s) as (s' & E' & Hs' & Hm'); rewrite ?E in *; try done; try lia.
  - right. by apply rounds_start.
  - by exists s'.
Qed.
End Copies.

End IPF.
