(* ===== verification/IpcTheorems.v ===== *)
(** * What the translation of commands promises

    Handles of a command name the same objects in the receiver, and a mapped buffer is lent
    for the time of a request: the receiver sees the bytes of the sender between two guard
    pages, and after the reply the sender has what the receiver left and the address space of
    the receiver is as it was. *)
From S2P Require Import Prelude Results HandleTable PageTable VMManager VMTiles VMFacts VMTheorems MemoryMap GuestMemory GuestFacts GuestTheorems Ipc IpcFacts.
Import Res Map Ipc.

Module IPT.
Import Tiles VMF GF IPF.

(** ** Pages of a buffer *)

Lemma page_offset_spec a : 0 <= a < 2 ^ 32 -> page_offset a = a `mod` CITRA_PAGE_SIZE.
Proof.
  intros Ha. unfold page_offset, page_start, AlignDown. replace (a - (a - a `mod` CITRA_PAGE_SIZE)) with (a `mod` CITRA_PAGE_SIZE) by lia.
  apply u32_small. unfold CITRA_PAGE_SIZE. Z.div_mod_to_equations; lia.
Qed.

Lemma num_pages_spec a n : 0 <= a < 2 ^ 32 -> 0 < n < 2 ^ 28 ->
  0 < num_pages a n /\ page_offset a + n <= num_pages a n * CITRA_PAGE_SIZE < page_offset a + n + CITRA_PAGE_SIZE.
Proof.
  intros Ha Hn. unfold num_pages. rewrite page_offset_spec by done. set (o := a `mod` CITRA_PAGE_SIZE).
  assert (0 <= o < CITRA_PAGE_SIZE) as Ho by (apply Z.mod_pos_bound; done).
  unfold AlignUp. rewrite (u32_small (o + n)) by (unfold CITRA_PAGE_SIZE in *; lia).
  rewrite Z.shiftr_div_pow2 by done. change (2 ^ CITRA_PAGE_BITS) with CITRA_PAGE_SIZE. unfold CITRA_PAGE_SIZE in *.
  destruct (Z.eqb_spec ((o + n) `mod` 4096) 0); rewrite u32_small by (Z.div_mod_to_equations; lia); Z.div_mod_to_equations; lia.
Qed.

(** ** Stepping *)

Section Steps.
Context {Obj : Type} {W : Type} `{Guest.Gpu W} {A : Type} `{Heap A} (fcram vram : Z).
Implicit Types s : st Obj W A.

Lemma step_state {C D} (f : st Obj W A -> outcome (C * st Obj W A)) (k : C -> im D) s c s' :
  f s = Done (c, s') -> (on_state f ≫= k) s = k c s'.
Proof using Type. intros E. unfold mbind, im_bind, on_state. by rewrite E. Qed.

Lemma step_bind {C D} (m : im C) (k : C -> im D) s c s' : m s = Done (Val c, s') -> (m ≫= k) s = k c s'.
Proof using Type. intros E. unfold mbind at 1, im_bind. by rewrite E. Qed.

Lemma step_process {D} p (k : process Obj -> im D) s x : processes s !! p = Some x -> (get_process p ≫= k) s = k x s.
Proof using Type. intros E. apply step_state. by rewrite E. Qed.

Lemma get_process_ok p s x : processes s !! p = Some x -> get_process p s = Done (Val x, s).
Proof using Type. intros E. unfold get_process, on_state. by rewrite E. Qed.

Lemma with_vm_ok {B} p (f : (Z -> bool) -> VM.vmm -> outcome (B * VM.vmm)) s x b v : processes s !! p = Some x ->
  f (Guest.IsCached (Guest.marks (memory s))) (vm_manager x) = Done (b, v) -> with_vm p f s = Done (Val b, set_process p (set_vm v x) s).
Proof using Type. intros Hp E. unfold with_vm. rewrite (step_process _ _ _ x Hp). unfold on_state. by rewrite E. Qed.

Lemma with_handles_ok {B} p (f : Handle.table Obj -> outcome (B * Handle.table Obj)) s x b t : processes s !! p = Some x ->
  f (handle_table x) = Done (b, t) -> with_handles p f s = Done (Val b, set_process p (set_handles t x) s).
Proof using Type. intros Hp E. unfold with_handles. rewrite (step_process _ _ _ x Hp). unfold on_state. by rewrite E. Qed.

Lemma ReadBlock_state p a n s x : processes s !! p = Some x -> 0 <= a -> 0 <= n -> a + n <= 2 ^ 32 -> uncached (VM.page_table (vm_manager x)) a n ->
  ReadBlock fcram vram p a n s = Done (Val (byte_of (VM.page_table (vm_manager x)) (Guest.mem (memory s)) <$> seqZ a n), s).
Proof using Type.
  intros Hp Ha Hn He Hu. unfold ReadBlock, pages. rewrite (step_bind _ _ s (VM.page_table (vm_manager x)) s).
  - unfold on_state, Guest.ReadBlock. rewrite ReadBlock_ok by done. by destruct s.
  - by rewrite (step_process _ _ _ x Hp).
Qed.

End Steps.

(** ** Lending a buffer *)

Section Buffers.
Context {Obj : Type} {W : Type} `{Guest.Gpu W} {A : Type} `{Heap A} (fcram vram : Z).
Context (B : MRef.backing -> Prop).
Context (apart : forall b1 b2, B b1 -> B b2 -> b1 ≠ b2 ->
  MRef.host b1 + MRef.bytes b1 < MRef.host b2 \/ MRef.host b2 + MRef.bytes b2 < MRef.host b1).
Implicit Types (s : st Obj W A) (x y : process Obj).

(** The address space of a process, as the memory of [s] sees it. *)
Definition sound (B : MRef.backing -> Prop) s x : Prop :=
  wf (Guest.IsCached (Guest.marks (memory s))) B (vm_manager x) /\ VM.is_locked (vm_manager x) = false.
Definition host x (a : Z) : option Z := host_of (VM.vma_map (vm_manager x)) a.
Definition plain s x (a n : Z) : Prop := GT.plain (vm_manager x) (memory s) a n.

(** A new block of the heap of the emulator. *)
Record new_block (b : MRef.backing) : Prop := {
  nb_host : 0 < MRef.host b; nb_bytes : 0 <= MRef.bytes b < 2 ^ 64;
  nb_apart : forall b', B b' -> MRef.host b + MRef.bytes b < MRef.host b' \/ MRef.host b' + MRef.bytes b' < MRef.host b;
}.
Definition with_block (b b' : MRef.backing) : Prop := B b' \/ b' = b.

Lemma with_block_apart b : new_block b -> forall b1 b2, with_block b b1 -> with_block b b2 -> b1 ≠ b2 ->
  MRef.host b1 + MRef.bytes b1 < MRef.host b2 \/ MRef.host b2 + MRef.bytes b2 < MRef.host b1.
Proof using apart.
  intros [Hh Hb Ha] b1 b2 [H1|H1] [H2|H2] Hne; subst.
  - by apply apart.
  - destruct (Ha b1 H1); lia.
  - by apply Ha.
  - done.
Qed.

(** Mapped addresses are bytes of known buffers. *)
Lemma host_known s x a p : sound B s x -> host x a = Some p -> exists b, B b /\ MRef.host b <= p < MRef.host b + MRef.bytes b.
Proof using Type.
  intros [[[Ht Hg] _ _] _] Hp. unfold host, host_of in Hp. destruct (view _ a) as [[[] q w p']|] eqn:Hv; try discriminate Hp. injection Hp as ->.
  destruct (decide (0 <= a < VM.MAX_ADDRESS)) as [Hr|Hr]; [|by rewrite (view_outside _ _ _ _ Ht Hr) in Hv].
  destruct (tiles_find _ _ _ a Ht Hr) as (l & v & r & Hm & Hi). rewrite Hm in Hv, Ht, Hg. rewrite (view_mid _ _ _ _ _ _ Ht) in Hv.
  rewrite decide_True in Hv by done. injection Hv as Hty _ _ Hptr. rewrite Hty in Hptr.
  apply Forall_app in Hg as [_ Hg]. apply Forall_cons in Hg as [[] _]. destruct (good_backed0 Hty) as [Hc Hb].
  destruct (VM.backing_memory v) as [|b o]; [done|]. exists b. split; [done|]. unfold inside in Hi. cbn in Hptr, Hc. lia.
Qed.

(** The bytes the sender has at an address. *)
Definition bytes_at x (m : Guest.bytes) (a n : Z) : list Z := byte_of (VM.page_table (vm_manager x)) m <$> seqZ a n.

Lemma plain_spots s x a n : sound B s x -> 0 <= a -> a + n <= 2 ^ 32 -> plain s x a n ->
  uncached (VM.page_table (vm_manager x)) a n /\ forall z, a <= z < a + n -> spot_of (VM.page_table (vm_manager x)) z = host x z.
Proof using Type.
  intros [Hw _] Ha He Hp. split; [by apply (GT.plain_uncached B _ (memory s))|].
  intros z Hz. by apply (GT.plain_spot B _ (memory s) a n).
Qed.

(** What [translate_mapped_request] leaves. *)
Record lent_to s s' (dst : Z) y (t n : Z) (c : MappedBufferContext) (data : list Z) : Prop := {
  lt_free : all_free (VM.vma_map (vm_manager y)) t (t + n);
  lt_range : IPC_MAPPING_VADDR <= t /\ t `mod` CITRA_PAGE_SIZE = 0 /\ t + n <= IPC_MAPPING_VADDR + IPC_MAPPING_SIZE;
  lt_vm : exists v, processes s' = <[dst := set_vm v y]> (processes s) /\ sound (with_block (buffer c)) s' (set_vm v y) /\
    forall a, view (VM.vma_map v) a = lent t n (MRef.host (buffer c)) (view (VM.vma_map (vm_manager y))) a;
  lt_context : mapped_buffer_context s' = mapped_buffer_context s ++ [c];
  lt_block : MRef.bytes (buffer c) = n;
  lt_data : forall i, 0 <= i < Z.of_nat (length data) ->
    Guest.mem (memory s') (MRef.host (buffer c) + (target_address c - t) + i) = data !!! Z.to_nat i;
  lt_padding : forall q, MRef.host (buffer c) <= q < MRef.host (buffer c) + n ->
    ~ (MRef.host (buffer c) + (target_address c - t) <= q < MRef.host (buffer c) + (target_address c - t) + Z.of_nat (length data)) ->
    Guest.mem (memory s') q = 0;
  lt_memory : same_but_mem (memory s) (memory s') /\
    forall q, ~ (MRef.host (buffer c) <= q < MRef.host (buffer c) + n) -> Guest.mem (memory s') q = Guest.mem (memory s) q;
}.

Definition block_size (address size_ : Z) : Z := (num_pages address size_ + 2) * CITRA_PAGE_SIZE.

Lemma lent_block_bounds address size_ : 0 <= address < 2 ^ 32 -> 0 < size_ < 2 ^ 28 ->
  0 < num_pages address size_ /\ CITRA_PAGE_SIZE + page_offset address + size_ + CITRA_PAGE_SIZE <= block_size address size_ < 2 ^ 29 /\ 0 <= page_offset address < CITRA_PAGE_SIZE.
Proof using Type.
  intros Ha Hs. destruct (num_pages_spec address size_ Ha Hs) as [Hk Hp]. unfold block_size.
  assert (0 <= page_offset address < CITRA_PAGE_SIZE) as Ho by (rewrite page_offset_spec by done; apply Z.mod_pos_bound; done).
  unfold CITRA_PAGE_SIZE in *. lia.
Qed.

Lemma mapped_request_ok s src dst x y size_ perms_ address t p h : processes s !! src = Some x -> processes s !! dst = Some y -> src ≠ dst ->
  sound B s x -> sound B s y -> 0 <= address -> 0 < size_ < 2 ^ 28 -> address + size_ <= 2 ^ 32 -> plain s x address size_ ->
  let n := block_size address size_ in allocate n (heap s) = (p, h) -> new_block (MRef.mk_backing p n) ->
  room IPC_MAPPING_VADDR IPC_MAPPING_SIZE n (vm_manager y) t ->
  let a := t + CITRA_PAGE_SIZE + page_offset address in
  exists s', translate_mapped_request fcram vram src dst size_ perms_ address s = Done (Val a, s') /\
    lent_to s s' dst y t n (mk_context perms_ size_ address a (MRef.mk_backing p n)) (bytes_at x (Guest.mem (memory s)) address size_).
Proof using apart.
  intros Hx Hy Hne Hsx Hsy Ha Hs He Hpl n Hal Hnb Hroom a. set (b := MRef.mk_backing p n) in *.
  assert (0 <= address < 2 ^ 32) as Har by lia. destruct (lent_block_bounds address size_ Har Hs) as (Hk & Hn & Ho). fold n in Hn.
  destruct (plain_spots s x address size_ Hsx Ha He Hpl) as [Hu Hsp].
  assert (forall z q, address <= z < address + size_ -> host x z = Some q -> ~ (p <= q < p + n)) as Hout.
  { intros z q Hz Hq. destruct (host_known s x z q Hsx Hq) as (b' & Hb' & Hin). pose proof (nb_apart _ Hnb b' Hb') as Hap. cbn in Hap. lia. }
  unfold translate_mapped_request. fold (block_size address size_). fold n. rewrite u32_small by lia.
  set (s1 := set_bytes (Guest.fill p n 0) (mk_st (processes s) (memory s) (mapped_buffer_context s) h)).
  unfold new_buffer. rewrite (step_state _ _ s b s1) by (by rewrite Hal).
  rewrite (step_bind (ReadBlock _ _ _ _ _) _ s1 _ s1 (ReadBlock_state fcram vram src address size_ s1 x Hx Ha ltac:(lia) He Hu)).
  assert (byte_of (VM.page_table (vm_manager x)) (Guest.mem (memory s1)) <$> seqZ address size_ = bytes_at x (Guest.mem (memory s)) address size_) as ->.
  { unfold bytes_at. apply fmap_seqZ_ext. intros z Hz. unfold byte_of. rewrite Hsp by done. destruct (host x z) as [q|] eqn:Hq; [|done].
    cbn. unfold Guest.fill. specialize (Hout z q Hz Hq). destruct (Z.leb_spec p q), (Z.ltb_spec q (p + n)); cbn; lia || done. }
  set (data := bytes_at x (Guest.mem (memory s)) address size_). assert (Z.of_nat (length data) = size_) as Hlen by (unfold data, bytes_at; rewrite length_fmap, length_seqZ; lia).
  set (s2 := set_bytes (Guest.copy_in (MRef.host b + CITRA_PAGE_SIZE + page_offset address) data) s1).
  rewrite (step_bind (modify _) _ s1 tt s2) by done.
  pose proof Hsy as [Hwy Hly].
  assert (wf (Guest.IsCached (Guest.marks (memory s))) (with_block b) (vm_manager y)) as Hwy' by (eapply wf_mono; [|exact Hwy]; by left).
  assert (backs (with_block b) (MRef.Ref b 0) n) as Hback.
  { split; [|by right]. destruct Hnb as [Hh Hb _]. cbn in *. lia. }
  destruct (lend_ok (Guest.IsCached (Guest.marks (memory s))) (with_block b) (with_block_apart b Hnb) (vm_manager y) IPC_MAPPING_VADDR IPC_MAPPING_SIZE b (num_pages address size_) t
    Hwy' Hly ltac:(done) ltac:(done) eq_refl Hk Hroom Hback) as (Hfree & Hbt & Hta & Hte & v1 & v2 & v3 & E1 & E2 & E3 & Hw3 & Hl3 & Hv3).
  fold (block_size address size_) in E1, E2, E3, Hfree, Hte, Hv3. fold n in E1, E2, E3, Hfree, Hte, Hv3.
  assert (t + n <= IPC_MAPPING_VADDR + IPC_MAPPING_SIZE) as Hreg by (by destruct Hroom as (? & _ & _ & _ & ?)).
  assert (IPC_MAPPING_VADDR + IPC_MAPPING_SIZE < 2 ^ 32) as H32 by done.
  rewrite (step_bind _ _ s2 _ _ (with_vm_ok dst _ s2 y _ v1 Hy E1)).
  rewrite (step_bind (lift _) _ _ t _) by done. set (s3 := set_process dst (set_vm v1 y) s2).
  assert (processes s3 !! dst = Some (set_vm v1 y)) as Hy3 by apply lookup_insert_eq.
  assert (guard dst t s3 = Done (Val tt, set_process dst (set_vm v2 y) s3)) as Eg1.
  { unfold guard. rewrite (step_bind _ _ s3 _ _ (with_vm_ok dst _ s3 (set_vm v1 y) _ v2 Hy3 E2)). done. }
  rewrite (step_bind _ _ s3 _ _ Eg1). set (s4 := set_process dst (set_vm v2 y) s3).
  assert (processes s4 !! dst = Some (set_vm v2 y)) as Hy4 by apply lookup_insert_eq.
  change (MRef.bytes b) with n. replace (u32 (t + n - CITRA_PAGE_SIZE)) with (t + n - CITRA_PAGE_SIZE) by (symmetry; apply u32_small; unfold CITRA_PAGE_SIZE, IPC_MAPPING_VADDR in *; lia).
  assert (guard dst (t + n - CITRA_PAGE_SIZE) s4 = Done (Val tt, set_process dst (set_vm v3 y) s4)) as Eg2.
  { unfold guard. rewrite (step_bind _ _ s4 _ _ (with_vm_ok dst _ s4 (set_vm v2 y) _ v3 Hy4 E3)). done. }
  rewrite (step_bind _ _ s4 _ _ Eg2). set (s5 := set_process dst (set_vm v3 y) s4).
  assert (u32 (t + CITRA_PAGE_SIZE) = t + CITRA_PAGE_SIZE) as -> by (apply u32_small; unfold CITRA_PAGE_SIZE, IPC_MAPPING_VADDR in *; lia).
  assert (u32 (t + CITRA_PAGE_SIZE + page_offset address) = a) as -> by (apply u32_small; unfold CITRA_PAGE_SIZE, IPC_MAPPING_VADDR in *; lia).
  set (c := mk_context perms_ size_ address a b). rewrite (step_bind (modify _) _ s5 tt (set_contexts (mapped_buffer_context s5 ++ [c]) s5)) by done.
  eexists. split; [done|]. split.
  - done.
  - done.
  - exists v3. split; [cbn; by rewrite !insert_insert_eq|]. split; [split; done|done].
  - done.
  - done.
  - intros i Hi. rewrite Hlen in Hi. cbn. unfold Guest.copy_in. replace (p + (a - t) + i) with (p + CITRA_PAGE_SIZE + page_offset address + i) by (unfold a; lia). rewrite Hlen.
    destruct (Z.leb_spec (p + CITRA_PAGE_SIZE + page_offset address) (p + CITRA_PAGE_SIZE + page_offset address + i)); [|lia].
    destruct (Z.ltb_spec (p + CITRA_PAGE_SIZE + page_offset address + i) (p + CITRA_PAGE_SIZE + page_offset address + size_)); [|lia]. cbn [andb]. f_equal. lia.
  - intros q Hq Hout'. rewrite Hlen in Hout'. cbn in Hq, Hout' |- *. unfold Guest.copy_in, Guest.fill. rewrite Hlen.
    destruct (Z.leb_spec (p + CITRA_PAGE_SIZE + page_offset address) q), (Z.ltb_spec q (p + CITRA_PAGE_SIZE + page_offset address + size_)); cbn [andb];
      try (exfalso; unfold a in Hout'; lia); destruct (Z.leb_spec p q), (Z.ltb_spec q (p + n)); cbn [andb]; lia || done.
  - split; [done|]. intros q Hq. cbn in Hq |- *. unfold Guest.copy_in, Guest.fill. rewrite Hlen.
    destruct (Z.leb_spec (p + CITRA_PAGE_SIZE + page_offset address) q), (Z.ltb_spec q (p + CITRA_PAGE_SIZE + page_offset address + size_)); cbn [andb];
      try (exfalso; unfold CITRA_PAGE_SIZE in *; lia); destruct (Z.leb_spec p q), (Z.ltb_spec q (p + n)); cbn [andb]; lia || done.
Qed.

(** ** Giving it back *)

Lemma check_guard_ok B' s p x address c : processes s !! p = Some x -> wf_map B' (VM.vma_map (vm_manager x)) -> 0 <= address < VM.MAX_ADDRESS ->
  view (VM.vma_map (vm_manager x)) address = Some c -> c_state c = VM.StReserved -> check_guard p address s = Done (Val tt, s).
Proof using Type.
  intros Hp [Ht _] Ha Hv Hc. unfold check_guard. rewrite (step_process _ _ _ x Hp). unfold lift.
  destruct (tiles_find _ _ _ address Ht Ha) as (l & v & r & Hm & Hi). rewrite Hm in Ht, Hv |- *. rewrite (FindVMA_spec _ _ _ _ Ht Hi). cbn [mbind outcome_bind].
  unfold VM.at_. rewrite list_lookup_middle by done. cbn [of_opt mbind outcome_bind].
  rewrite (view_mid _ _ _ _ _ _ Ht), decide_True in Hv by done. injection Hv as <-. cbn in Hc. by rewrite Hc.
Qed.

Lemma same_page_offset t o size_ : 0 <= t -> t `mod` CITRA_PAGE_SIZE = 0 -> 0 <= o < CITRA_PAGE_SIZE -> t + o < 2 ^ 32 ->
  page_start (t + o) = t /\ page_offset (t + o) = o /\ forall address, 0 <= address < 2 ^ 32 -> page_offset address = o -> num_pages (t + o) size_ = num_pages address size_.
Proof using Type.
  intros Ht Hta Ho Hlt. assert ((t + o) `mod` CITRA_PAGE_SIZE = o) as E by (unfold CITRA_PAGE_SIZE in *; Z.div_mod_to_equations; lia).
  unfold page_start, AlignDown. rewrite E. split; [lia|]. split; [rewrite page_offset_spec by lia; done|].
  intros address Ha Hoff. unfold num_pages. rewrite Hoff. by rewrite page_offset_spec, E by lia.
Qed.

Lemma find_context s c l : mapped_buffer_context s = l ++ [c] ->
  Forall (fun c' => target_address c' ≠ target_address c) l ->
  list_find (matches (permissions c) (size c) (target_address c)) (mapped_buffer_context s) = Some (length l, c).
Proof using Type.
  intros -> Hl. apply list_find_Some. split; [by apply list_lookup_middle|]. split; [done|].
  intros j c' Hj Hlt [_ [_ Hm]]. rewrite lookup_app_l in Hj by done. by apply (Forall_lookup_1 _ _ _ _ Hl Hj).
Qed.

(** The receiver's copy of the buffer. *)
Definition left_by (c : MappedBufferContext) (t : Z) (m : Guest.bytes) : list Z :=
  (fun i => m (MRef.host (buffer c) + (target_address c - t) + i)) <$> seqZ 0 (size c).

Record returned s s' (src : Z) x (dst : Z) y (t : Z) (c : MappedBufferContext) : Prop := {
  rt_vm : exists v, processes s' = <[dst := set_vm v y]> (processes s) /\ wf (Guest.IsCached (Guest.marks (memory s'))) (with_block (buffer c)) v /\
    forall a, view (VM.vma_map v) a = view (VM.vma_map (vm_manager y)) a;
  rt_readonly : permissions c = PermR -> memory s' = memory s;
  rt_written : permissions c ≠ PermR -> bytes_at x (Guest.mem (memory s')) (source_address c) (size c) = left_by c t (Guest.mem (memory s));
  rt_others : forall q, (forall a, source_address c <= a < source_address c + size c -> host x a ≠ Some q) ->
    Guest.mem (memory s') q = Guest.mem (memory s) q;
}.

Lemma seqZ_shift (f : Z -> Z) a n : (fun i => f (a + i)) <$> seqZ 0 n = f <$> seqZ a n.
Proof using Type.
  rewrite <- (fmap_seqZ_shift f 0 a n). apply fmap_seqZ_ext. intros i _. f_equal. lia.
Qed.

(** Copying the buffer back, when it may be written. *)
Lemma copy_back_ok s src dst x y y' t n c : processes s !! src = Some x -> processes s !! dst = Some y' -> sound B s x ->
  new_block (buffer c) -> MRef.bytes (buffer c) = n -> sound (with_block (buffer c)) s y' ->
  (forall a, view (VM.vma_map (vm_manager y')) a = lent t n (MRef.host (buffer c)) (view (VM.vma_map (vm_manager y))) a) ->
  t + CITRA_PAGE_SIZE <= target_address c -> target_address c + size c <= t + n - CITRA_PAGE_SIZE -> 0 <= t -> t + n <= 2 ^ 32 -> 0 <= size c ->
  plain s y' (target_address c) (size c) ->
  0 <= source_address c -> source_address c + size c <= 2 ^ 32 -> plain s x (source_address c) (size c) ->
  (forall a, source_address c <= a < source_address c + size c -> is_Some (host x a)) ->
  (forall a a' q, source_address c <= a < source_address c + size c -> source_address c <= a' < source_address c + size c -> host x a = Some q -> host x a' = Some q -> a = a') ->
  exists m, CopyBlock fcram vram src dst (source_address c) (target_address c) (size c) s = Done (Val tt, set_memory m s) /\
    same_but_mem (memory s) m /\ bytes_at x (Guest.mem m) (source_address c) (size c) = left_by c t (Guest.mem (memory s)) /\
    forall q, (forall a, source_address c <= a < source_address c + size c -> host x a ≠ Some q) -> Guest.mem m q = Guest.mem (memory s) q.
Proof using Type.
  intros Hx Hy Hsx Hnb Hn Hsy Hv Hlo Hhi Ht0 Hte Hs0 Hply Ha0 Hae Hplx Hmap Hinj.
  destruct (plain_spots s x _ _ Hsx Ha0 Hae Hplx) as [Hux Hspx].
  assert (uncached (VM.page_table (vm_manager y')) (target_address c) (size c) /\
    forall z, target_address c <= z < target_address c + size c -> spot_of (VM.page_table (vm_manager y')) z = Some (MRef.host (buffer c) + (z - t))) as [Huy Hspy].
  { destruct Hsy as [Hwy _]. assert (0 < CITRA_PAGE_SIZE) by done. split; [apply (GT.plain_uncached (with_block (buffer c)) _ (memory s)); (done || lia)|].
    intros z Hz. rewrite (GT.plain_spot (with_block (buffer c)) _ (memory s) (target_address c) (size c)) by (done || lia).
    unfold host_of. rewrite Hv. unfold lent. rewrite !decide_True by lia. done. }
  assert (separate (VM.page_table (vm_manager y')) (VM.page_table (vm_manager x)) (target_address c) (source_address c) (size c)) as Hsep.
  { split; [|..|done|done].
    - intros z Hz. rewrite Hspy by done. by eexists.
    - intros z z' q Hz Hz' Hq. rewrite Hspy in Hq by done. injection Hq as <-. rewrite Hspx by done. intros Hq.
      destruct (host_known s x z' _ Hsx Hq) as (b' & Hb' & Hin). pose proof (nb_apart _ Hnb b' Hb'). assert (0 < CITRA_PAGE_SIZE) by done. lia. }
  destruct (CopyBlock_ok fcram vram (VM.page_table (vm_manager x)) (VM.page_table (vm_manager y')) (source_address c) (target_address c) (size c) (memory s))
    as (m & E & Hsame & Hm); try done; try (assert (0 < CITRA_PAGE_SIZE) by done; lia).
  exists m. split.
  { unfold CopyBlock, pages. rewrite (step_bind _ _ s (VM.page_table (vm_manager x)) s) by (by rewrite (step_process _ _ _ x Hx)).
    rewrite (step_bind _ _ s (VM.page_table (vm_manager y')) s) by (by rewrite (step_process _ _ _ y' Hy)).
    unfold on_state. by rewrite E. }
  split; [done|].
  assert (byte_of (VM.page_table (vm_manager y')) (Guest.mem (memory s)) <$> seqZ (target_address c) (size c) = left_by c t (Guest.mem (memory s))) as El.
  { unfold left_by. rewrite <- (seqZ_shift (byte_of _ _)). apply fmap_seqZ_ext. intros i Hi. unfold byte_of. rewrite Hspy by lia. f_equal. lia. }
  rewrite El in Hm. assert (Z.of_nat (length (left_by c t (Guest.mem (memory s)))) = size c) as Hlen by (unfold left_by; rewrite length_fmap, length_seqZ; lia). split.
  - unfold bytes_at. rewrite (fmap_seqZ_ext _ (byte_of (VM.page_table (vm_manager x)) (write_bytes (VM.page_table (vm_manager x)) (source_address c) (left_by c t (Guest.mem (memory s))) (Guest.mem (memory s))))) by (intros; by apply GT.byte_of_ext).
    rewrite <- Hlen at 1. apply GT.write_bytes_read. rewrite Hlen. split; [intros z Hz; rewrite Hspx by done; by apply Hmap|].
    intros z z' q Hz Hz'. rewrite !Hspx by done. by apply Hinj.
  - intros q Hq. rewrite Hm. apply GT.write_bytes_frame. intros i Hi. rewrite Hlen in Hi. rewrite Hspx by lia. apply Hq. lia.
Qed.

Lemma mapped_reply_ok s src dst x y y' t n l c : processes s !! src = Some x -> processes s !! dst = Some y' -> src ≠ dst -> sound B s x ->
  (exists v, y' = set_vm v y) -> new_block (buffer c) -> MRef.bytes (buffer c) = n -> sound (with_block (buffer c)) s y' ->
  (forall a, view (VM.vma_map (vm_manager y')) a = lent t n (MRef.host (buffer c)) (view (VM.vma_map (vm_manager y))) a) ->
  all_free (VM.vma_map (vm_manager y)) t (t + n) -> 0 <= t -> t `mod` CITRA_PAGE_SIZE = 0 -> t + n <= VM.MAX_ADDRESS ->
  0 < size c < 2 ^ 28 -> 0 <= source_address c -> source_address c + size c <= 2 ^ 32 ->
  n = block_size (source_address c) (size c) -> target_address c = t + CITRA_PAGE_SIZE + page_offset (source_address c) ->
  mapped_buffer_context s = l ++ [c] -> Forall (fun c' => target_address c' ≠ target_address c) l ->
  plain s y' (target_address c) (size c) -> plain s x (source_address c) (size c) ->
  (permissions c ≠ PermR -> (forall a, source_address c <= a < source_address c + size c -> is_Some (host x a)) /\
    forall a a' q, source_address c <= a < source_address c + size c -> source_address c <= a' < source_address c + size c -> host x a = Some q -> host x a' = Some q -> a = a') ->
  exists s', translate_mapped_reply fcram vram dst src (size c) (permissions c) (target_address c) s = Done (Val tt, s') /\
    returned s s' src x dst y t c /\ mapped_buffer_context s' = l.
Proof using apart.
  intros Hx Hy Hne Hsx (v0 & Hy') Hnb Hn Hsy Hv Hfree Ht0 Hta Hte Hs Ha0 Hae Hns Htgt Hctx Hfirst Hply Hplx Hw.
  assert (0 <= source_address c < 2 ^ 32) as Har by lia. destruct (lent_block_bounds _ _ Har Hs) as (Hk & Hbn & Ho). rewrite <- Hns in Hbn.
  assert (0 < CITRA_PAGE_SIZE) as Hps by done. assert (VM.MAX_ADDRESS < 2 ^ 32) as Hmax by done.
  destruct (same_page_offset (t + CITRA_PAGE_SIZE) (page_offset (source_address c)) (size c)) as (Hst & Hoff & Hnum); [lia| |done|lia|].
  { rewrite <- Zplus_mod_idemp_l, Hta. by rewrite Z.mod_same. }
  rewrite <- Htgt in Hst, Hoff, Hnum. specialize (Hnum (source_address c) Har eq_refl).
  unfold translate_mapped_reply. rewrite (step_state _ _ s (length l, c) s) by (by rewrite (find_context s c l Hctx Hfirst)).
  assert (exists m, (if negb (permissions c =? PermR) then CopyBlock fcram vram src dst (source_address c) (target_address c) (size c) else mret tt) s = Done (Val tt, set_memory m s) /\
    same_but_mem (memory s) m /\ (permissions c = PermR -> m = memory s) /\
    (permissions c ≠ PermR -> bytes_at x (Guest.mem m) (source_address c) (size c) = left_by c t (Guest.mem (memory s))) /\
    forall q, (forall a, source_address c <= a < source_address c + size c -> host x a ≠ Some q) -> Guest.mem m q = Guest.mem (memory s) q) as (m & Em & Hsame & Hro & Hrw & Hoth).
  { destruct (Z.eqb_spec (permissions c) PermR) as [Ep|Ep]; cbn [negb].
    - exists (memory s). split; [by destruct s|]. done.
    - destruct (Hw Ep) as [Hmap Hinj]. destruct (copy_back_ok s src dst x y y' t n c) as (m & E & Hsame & Hb & Hoth); try done; try lia. by exists m. }
  rewrite (step_bind _ _ s tt _ Em). set (s1 := set_memory m s). cbv zeta.
  pose proof Hsame as (_ & Hmarks & _). destruct Hsy as [Hwy Hly].
  rewrite Hst, Hnum. replace (t + CITRA_PAGE_SIZE - CITRA_PAGE_SIZE) with t by lia. rewrite (u32_small t) by lia.
  assert (t + CITRA_PAGE_SIZE + num_pages (source_address c) (size c) * CITRA_PAGE_SIZE = t + n - CITRA_PAGE_SIZE) as -> by (rewrite Hns; unfold block_size; lia).
  rewrite (u32_small (t + n - CITRA_PAGE_SIZE)) by lia.
  assert ((num_pages (source_address c) (size c) + 2) * CITRA_PAGE_SIZE = n) as -> by (rewrite Hns; done). rewrite (u32_small n) by lia.
  assert (forall a, t <= a < t + n -> ~ (t + CITRA_PAGE_SIZE <= a < t + n - CITRA_PAGE_SIZE) -> check_guard dst a s1 = Done (Val tt, s1)) as Hguard.
  { intros a Ha Hg. eapply (check_guard_ok (with_block (buffer c)) s1 dst y' a); [done|apply Hwy|lia|rewrite Hv; unfold lent; by rewrite decide_True, decide_False by done|done]. }
  rewrite (step_bind _ _ s1 tt s1) by (apply Hguard; lia). rewrite (step_bind _ _ s1 tt s1) by (apply Hguard; lia).
  destruct (unlend_ok (Guest.IsCached (Guest.marks (memory s1))) (with_block (buffer c)) (with_block_apart _ Hnb) (vm_manager y') (vm_manager y) t n (MRef.host (buffer c)))
    as (v & Ev & Hwv & Hlv & Hvv); try done.
  { unfold s1. cbn [memory set_memory]. by rewrite Hmarks. }
  { split; try done; try lia. rewrite Hns. unfold block_size. by rewrite Z.mod_mul. }
  rewrite (step_bind _ _ s1 _ _ (with_vm_ok dst _ s1 y' _ v Hy Ev)). rewrite (step_bind (check _) _ _ tt (set_process dst (set_vm v y') s1)) by done.
  eexists. split; [done|]. split; [|cbn; rewrite Hctx; by rewrite delete_middle, app_nil_r].
  split; [|done|done|done].
  exists v. split; [|by split]. cbn. by rewrite Hy'.
Qed.

(** C24: A request lends a mapped buffer.  In room of the area for such buffers the receiver gets, page by page, a copy of
    the sender's bytes at the same offset in a page, the rest of the new block being zero, between two guard pages without
    permissions, and nothing else (the flush of a plugin's frame buffer that lies in the area is left out): its other mappings, the other processes and all memory outside the new
    block are as before, and the buffer is noted for the reply. *)
Theorem mapped_buffer_lent s src dst x y size_ perms_ address t p h : processes s !! src = Some x -> processes s !! dst = Some y -> src ≠ dst ->
  sound B s x -> sound B s y -> 0 <= address -> 0 < size_ < 2 ^ 28 -> address + size_ <= 2 ^ 32 -> plain s x address size_ ->
  let n := block_size address size_ in allocate n (heap s) = (p, h) -> new_block (MRef.mk_backing p n) ->
  room IPC_MAPPING_VADDR IPC_MAPPING_SIZE n (vm_manager y) t ->
  let a := t + CITRA_PAGE_SIZE + page_offset address in
  (forall z, a <= z < a + size_ -> Guest.IsCached (Guest.marks (memory s)) (Guest.page_of z * CITRA_PAGE_SIZE) = false) ->
  exists s' data, translate_mapped_request fcram vram src dst size_ perms_ address s = Done (Val a, s') /\
    lent_to s s' dst y t n (mk_context perms_ size_ address a (MRef.mk_backing p n)) data /\
    ReadBlock fcram vram src address size_ s = Done (Val data, s) /\ ReadBlock fcram vram dst a size_ s' = Done (Val data, s').
Proof using apart.
  intros Hx Hy Hne Hsx Hsy Ha Hs He Hpl n Hal Hnb Hroom a Hplt.
  destruct (mapped_request_ok s src dst x y size_ perms_ address t p h Hx Hy Hne Hsx Hsy Ha Hs He Hpl Hal Hnb Hroom) as (s' & E & Hl). fold a in E, Hl.
  exists s', (bytes_at x (Guest.mem (memory s)) address size_). split; [done|]. split; [done|].
  split; [apply (ReadBlock_state fcram vram src address size_ s x); try done; [lia|by apply (plain_spots s x address size_)]|].
  destruct Hl as [Hfree (Hr1 & Hr2 & Hr3) (v & Hps & [Hwv Hlv] & Hv) Hc Hb Hd _ [(_ & Hmarks & _) _]]. fold n in Hd, Hv.
  assert (processes s' !! dst = Some (set_vm v y)) as Hy' by (rewrite Hps; apply lookup_insert_eq).
  assert (0 < CITRA_PAGE_SIZE /\ IPC_MAPPING_VADDR + IPC_MAPPING_SIZE < 2 ^ 32 /\ 0 <= IPC_MAPPING_VADDR) as (Hps0 & H32 & Hipc) by done.
  assert (0 <= address < 2 ^ 32) as Har by lia. destruct (lent_block_bounds _ _ Har Hs) as (_ & Hbn & Ho). fold n in Hbn.
  assert (plain s' (set_vm v y) a size_) as Hply by (intros z Hz; rewrite Hmarks; by apply Hplt).
  assert (0 <= a /\ a + size_ <= 2 ^ 32) as [Ha0 Hae] by (unfold a; lia).
  rewrite (ReadBlock_state fcram vram dst a size_ s' (set_vm v y)); [|done|done|lia|done|by apply (GT.plain_uncached (with_block (MRef.mk_backing p n)) _ (memory s'))].
  do 3 f_equal. apply list_eq_same_length with (n := Z.to_nat size_); [unfold bytes_at; by rewrite length_fmap, length_seqZ|by rewrite length_fmap, length_seqZ|].
  intros i u w Hi Hu Hw. assert (w = bytes_at x (Guest.mem (memory s)) address size_ !!! i) as -> by (symmetry; by apply list_lookup_total_correct).
  rewrite list_lookup_fmap, lookup_seqZ_lt in Hu by lia. injection Hu as <-.
  pose proof (Hd (Z.of_nat i)) as E'. rewrite Nat2Z.id in E'. rewrite <- E' by (unfold bytes_at; rewrite length_fmap, length_seqZ; lia).
  unfold byte_of. rewrite (GT.plain_spot (with_block (MRef.mk_backing p n)) _ (memory s') a size_) by (done || lia).
  unfold host_of. change (vm_manager (set_vm v y)) with v. rewrite Hv. unfold lent. rewrite !decide_True by (unfold a; lia). f_equal. cbn. unfold a. lia.
Qed.

(** C25: The reply ends the loan.  After a request and whatever the receiver then wrote into the buffer, the reply unmaps it and its
    guard pages, so that the receiver's address space is as before the request, and forgets the buffer; the
    sender's buffer holds what the receiver left when it may be written, and no other byte of
    memory changes; a read-only buffer is not copied back. *)
Theorem mapped_buffer_returned s src dst x y size_ perms_ address t p h m : processes s !! src = Some x -> processes s !! dst = Some y -> src ≠ dst ->
  sound B s x -> sound B s y -> 0 <= address -> 0 < size_ < 2 ^ 28 -> address + size_ <= 2 ^ 32 -> plain s x address size_ ->
  let n := block_size address size_ in allocate n (heap s) = (p, h) -> new_block (MRef.mk_backing p n) ->
  room IPC_MAPPING_VADDR IPC_MAPPING_SIZE n (vm_manager y) t ->
  let a := t + CITRA_PAGE_SIZE + page_offset address in
  (forall z, a <= z < a + size_ -> Guest.IsCached (Guest.marks (memory s)) (Guest.page_of z * CITRA_PAGE_SIZE) = false) ->
  Forall (fun c => target_address c ≠ a) (mapped_buffer_context s) ->
  (perms_ ≠ PermR -> (forall z, address <= z < address + size_ -> is_Some (host x z)) /\
    forall z z' q, address <= z < address + size_ -> address <= z' < address + size_ -> host x z = Some q -> host x z' = Some q -> z = z') ->
  let c := mk_context perms_ size_ address a (MRef.mk_backing p n) in
  exists s1, translate_mapped_request fcram vram src dst size_ perms_ address s = Done (Val a, s1) /\
    (same_but_mem (memory s1) m -> exists s2,
      translate_mapped_reply fcram vram dst src size_ perms_ a (set_memory m s1) = Done (Val tt, s2) /\
      returned (set_memory m s) s2 src x dst y t c /\ mapped_buffer_context s2 = mapped_buffer_context s).
Proof using apart.
  intros Hx Hy Hne Hsx Hsy Ha Hs He Hpl n Hal Hnb Hroom a Hplt Hctx Hw c.
  destruct (mapped_request_ok s src dst x y size_ perms_ address t p h Hx Hy Hne Hsx Hsy Ha Hs He Hpl Hal Hnb Hroom) as (s1 & E & Hl). fold a in E, Hl.
  exists s1. split; [done|]. intros (_ & Hmm & _). fold n c in Hl.
  destruct Hl as [Hfree (Hr1 & Hr2 & Hr3) (v & Hps & [Hwv Hlv] & Hv) Hc Hb Hd _ [(_ & Hmarks & _) _]].
  assert (processes s1 !! dst = Some (set_vm v y)) as Hy' by (rewrite Hps; apply lookup_insert_eq).
  assert (processes s1 !! src = Some x) as Hx' by (rewrite Hps; by rewrite lookup_insert_ne).
  assert (0 <= IPC_MAPPING_VADDR /\ IPC_MAPPING_VADDR + IPC_MAPPING_SIZE <= VM.MAX_ADDRESS) as [Hipc Hmax] by done.
  destruct Hsx as [Hwx Hlx].
  destruct (mapped_reply_ok (set_memory m s1) src dst x y (set_vm v y) t n (mapped_buffer_context s) c) as (s2 & E2 & Hret & Hc2); try done; try lia.
  - split; [|done]. cbn [memory set_memory]. by rewrite Hmm, Hmarks.
  - by exists v.
  - split; [|done]. cbn [memory set_memory]. by rewrite Hmm.
  - intros z Hz. cbn [memory set_memory]. rewrite Hmm, Hmarks. by apply Hplt.
  - intros z Hz. cbn [memory set_memory]. rewrite Hmm, Hmarks. by apply Hpl.
  - exists s2. split; [done|]. split; [|done]. destruct Hret as [(v' & Hp2 & Hw2 & Hv2) Hro Hrw Hoth]. split; [|done|done|done].
    exists v'. split; [|done]. rewrite Hp2. cbn [processes set_memory]. rewrite Hps. by rewrite insert_insert_eq.
Qed.
End Buffers.

(** ** Handles *)

Section Handles.
Context {Obj : Type} {W : Type} `{Guest.Gpu W} {A : Type} `{Heap A} (fcram vram : Z).
Context (current_thread current_process : option Obj) (src_thread : Obj).
Implicit Types (s : st Obj W A) (x y : process Obj) (t : Handle.table Obj).

(** The object a word of a command names in the sender. *)
Definition resolve x (handle : Z) : option Obj :=
  if handle =? Handle.CurrentThread then Some src_thread
  else if handle =? Handle.CurrentProcess then Some (self x)
  else if handle =? 0 then None else Handle.lookup_handle (handle_table x) handle.

Definition free_slots t : nat := length (filter (fun o => o = None) (Handle.objects t)).

Lemma filter_none_insert (l : list (option Obj)) i o : l !! i = Some None ->
  length (filter (fun o => o = None) l) = S (length (filter (fun o => o = None) (<[i := Some o]> l))).
Proof using Type.
  revert i. induction l as [|a l IH]; intros [|i] Hi; try done.
  - injection Hi as ->. cbn [insert list_insert]. rewrite filter_cons_True, filter_cons_False by done. done.
  - cbn [insert list_insert lookup list_lookup] in *. destruct a as [a|].
    + rewrite !filter_cons_False by done. by apply IH.
    + rewrite !filter_cons_True by done. cbn [length]. f_equal. by apply IH.
Qed.

Lemma create_ok t o : Handle.wf t -> (0 < free_slots t)%nat ->
  exists h t', Handle.Create o t = Done (Val h, t') /\ Handle.wf t' /\ 0 <= h < 2 ^ 31 /\ Handle.lookup_handle t h = None /\
    (forall h', 0 <= h' < 2 ^ 31 -> Handle.lookup_handle t' h' = if decide (h' = h) then Some o else Handle.lookup_handle t h') /\
    free_slots t = S (free_slots t').
Proof using Type.
  intros Hw Hf. destruct (Handle.Create_step t o Hw) as [[_ Hno]|(i & t' & Hi & Ho & E & Hw' & Hobj & Hgen & _)].
  - exfalso. unfold free_slots in Hf. rewrite filter_none in Hf; [cbn in Hf; lia|]. intros a (i & Hi)%list_elem_of_lookup ->. by apply (Hno i).
  - set (h := Handle.encode (Handle.next_generation t) (Z.of_nat i)) in *. pose proof (Handle.wf_next _ Hw) as Hg.
    assert (0 <= Z.of_nat i < Handle.MAX_COUNT) as Hr by lia.
    exists h, t'. split; [done|]. split; [done|]. split; [apply Handle.encode_range; lia|]. split; [|split].
    + destruct (Handle.lookup_handle t h) as [o'|] eqn:Hl; [|done]. apply Handle.lookup_handle_spec in Hl as (_ & Hl & _).
      unfold h in Hl. rewrite Handle.GetSlot_encode, Nat2Z.id, Ho in Hl by lia. discriminate Hl.
    + intros h' Hh'. by apply Handle.Create_lookup.
    + unfold free_slots. rewrite Hobj. by apply filter_none_insert.
Qed.

Lemma GetGeneric_plain x handle : handle ≠ Handle.CurrentThread -> handle ≠ Handle.CurrentProcess ->
  Handle.GetGeneric current_thread current_process (handle_table x) handle = Handle.lookup_handle (handle_table x) handle.
Proof using Type.
  intros Ht Hp. unfold Handle.GetGeneric, Handle.lookup_handle. rewrite !(proj2 (Z.eqb_neq _ _)) by done.
  destruct (Handle.IsValid _ _); [|done]. cbn [negb]. by destruct (_ !! _).
Qed.

(** Whether translating the word closes the handle in the sender. *)
Definition closes (descriptor handle : Z) : bool :=
  (descriptor =? MoveHandleType) && negb (handle =? Handle.CurrentThread) && negb (handle =? Handle.CurrentProcess) && negb (handle =? 0).

Lemma find_object_ok s src x descriptor handle : processes s !! src = Some x ->
  find_object current_thread current_process src_thread src descriptor handle s =
  Done (Val (resolve x handle), if closes descriptor handle then set_process src (set_handles (Handle.Close handle (handle_table x)).2 x) s else s).
Proof using Type.
  intros Hx. unfold find_object, resolve, closes. rewrite (step_process _ _ s x Hx).
  destruct (Z.eqb_spec handle Handle.CurrentThread) as [|Ht]; [cbn [negb]; by rewrite andb_false_r|].
  destruct (Z.eqb_spec handle Handle.CurrentProcess) as [|Hp]; [cbn [negb]; by rewrite andb_false_r|].
  destruct (Z.eqb_spec handle 0) as [|Hz]; [cbn [negb]; by rewrite andb_false_r|]. cbn [negb]. rewrite !andb_true_r.
  rewrite GetGeneric_plain by done. destruct (descriptor =? MoveHandleType); [|done].
  rewrite (step_bind _ _ s (Handle.Close handle (handle_table x)).1 (set_process src (set_handles (Handle.Close handle (handle_table x)).2 x) s)); [done|].
  apply with_handles_ok; [done|]. by destruct (Handle.Close handle (handle_table x)).
Qed.

(** What one word becomes, with the receiver's table before and after. *)
Definition given x t t' (handle handle' : Z) : Prop :=
  match resolve x handle with
  | Some o => 0 <= handle' < 2 ^ 31 /\ Handle.lookup_handle t handle' = None /\ Handle.lookup_handle t' handle' = Some o
  | None => handle' = 0
  end.
Definition keeps_handles t t' : Prop := forall h o, 0 <= h < 2 ^ 31 -> Handle.lookup_handle t h = Some o -> Handle.lookup_handle t' h = Some o.

Lemma set_word_at (pre post : cmd_buf) (w : option Z) i v : i = Z.of_nat (length pre) -> i < COMMAND_BUFFER_LENGTH ->
  set_word i v (pre ++ w :: post) = Done (pre ++ Some v :: post).
Proof using Type.
  intros -> Hi. unfold set_word. rewrite (proj2 (Z.ltb_lt _ _) Hi), Nat2Z.id. f_equal. rewrite insert_app_r_alt, Nat.sub_diag by lia. done.
Qed.

Lemma get_word_at (pre post : cmd_buf) w i : i = Z.of_nat (length pre) -> get_word (pre ++ Some w :: post) i = Done w.
Proof using Type. intros ->. unfold get_word. rewrite Nat2Z.id, list_lookup_middle by done. done. Qed.

(** One word. *)
Lemma translate_handle_ok n s src dst x y descriptor i pre handle post : processes s !! src = Some x -> processes s !! dst = Some y -> src ≠ dst ->
  Handle.wf (handle_table y) -> (0 < free_slots (handle_table y))%nat -> i = Z.of_nat (length pre) -> i < COMMAND_BUFFER_LENGTH ->
  exists handle' t', Handle.wf t' /\ keeps_handles (handle_table y) t' /\ given x (handle_table y) t' handle handle' /\
    (forall h o, 0 <= h < 2 ^ 31 -> h ≠ handle' \/ resolve x handle = None -> Handle.lookup_handle t' h = Some o -> Handle.lookup_handle (handle_table y) h = Some o) /\
    (free_slots (handle_table y) <= S (free_slots t'))%nat /\
    let s1 := if closes descriptor handle then set_process src (set_handles (Handle.Close handle (handle_table x)).2 x) s else s in
    translate_handles current_thread current_process src_thread (S n) src dst descriptor i (pre ++ Some handle :: post) s =
    translate_handles current_thread current_process src_thread n src dst descriptor (i + 1) (pre ++ Some handle' :: post) (set_process dst (set_handles t' y) s1).
Proof using Type.
  intros Hx Hy Hne Hw Hf Hi Hlt. cbn [translate_handles].
  set (s1 := if closes descriptor handle then set_process src (set_handles (Handle.Close handle (handle_table x)).2 x) s else s).
  assert (processes s1 !! dst = Some y) as Hy1 by (unfold s1; destruct (closes _ _); [by cbn; rewrite lookup_insert_ne|done]).
  assert (forall D (k : Z -> im D), (lift (get_word (pre ++ Some handle :: post) i) ≫= k) s = k handle s) as Eget
    by (intros; apply step_bind; unfold lift; by rewrite get_word_at).
  destruct (resolve x handle) as [o|] eqn:Er.
  - destruct (create_ok (handle_table y) o Hw Hf) as (h & t' & Ec & Hw' & Hh & Hnone & Hlook & Hfree).
    exists h, t'. split; [done|]. split; [|split; [|split; [|split]]].
    + intros h' o' Hh' Hl. rewrite Hlook by done. destruct (decide (h' = h)) as [->|]; [|done]. congruence.
    + unfold given. rewrite Er. split; [done|]. split; [done|]. rewrite Hlook by done. by rewrite decide_True.
    + intros h' o' Hh' [Hne'|]; [|done]. rewrite Hlook by done. by rewrite decide_False.
    + lia.
    + rewrite Eget. rewrite (step_bind _ _ s (Some o) s1) by (rewrite (find_object_ok s src x) by done; by rewrite Er).
      rewrite (step_bind (with_handles _ _) _ s1 _ _ (with_handles_ok dst _ s1 y _ t' Hy1 Ec)).
      rewrite (step_bind (lift _) _ _ h (set_process dst (set_handles t' y) s1)) by done.
      rewrite (step_bind (lift _) _ _ (pre ++ Some h :: post) (set_process dst (set_handles t' y) s1)) by (unfold lift; by rewrite set_word_at).
      done.
  - exists 0, (handle_table y). split; [done|]. split; [by intros ? ?|]. split; [unfold given; by rewrite Er|]. split; [done|]. split; [lia|].
    rewrite Eget. rewrite (step_bind _ _ s None s1) by (rewrite (find_object_ok s src x) by done; by rewrite Er).
    rewrite (step_bind (lift _) _ _ (pre ++ Some 0 :: post) s1) by (unfold lift; by rewrite set_word_at).
    f_equal. destruct s1 as [ps m c hp]. cbn in Hy1 |- *. unfold set_process. cbn. f_equal. rewrite insert_id; [done|]. rewrite Hy1. by destruct y.
Qed.

(** What translating the words of a descriptor does to the table of the receiver. *)
Record given_all x t t' (hs hs' : list Z) : Prop := {
  ga_wf : Handle.wf t'; ga_keeps : keeps_handles t t'; ga_given : Forall2 (given x t t') hs hs';
  ga_only : forall h o, 0 <= h < 2 ^ 31 -> Handle.lookup_handle t' h = Some o -> Handle.lookup_handle t h = Some o \/ h ∈ hs';
}.

Lemma given_mono x t0 t t' t'' h h' : keeps_handles t0 t -> keeps_handles t' t'' -> given x t t' h h' -> given x t0 t'' h h'.
Proof using Type.
  intros Hk0 Hk1. unfold given. destruct (resolve x h) as [o|]; [|done]. intros (Hr & Hn & Ho). split; [done|]. split; [|by apply Hk1].
  destruct (Handle.lookup_handle t0 h') as [o'|] eqn:E; [|done]. by rewrite (Hk0 _ _ Hr E) in Hn.
Qed.

Lemma given_cons x t t1 t2 h h' hs hs' : keeps_handles t t1 -> given x t t1 h h' ->
  (forall g o, 0 <= g < 2 ^ 31 -> g ≠ h' \/ resolve x h = None -> Handle.lookup_handle t1 g = Some o -> Handle.lookup_handle t g = Some o) ->
  given_all x t1 t2 hs hs' -> given_all x t t2 (h :: hs) (h' :: hs').
Proof using Type.
  intros Hk Hg Ho [Hw2 Hk2 Hg2 Ho2]. split; [done|by intros g o Hr Hl; apply Hk2, Hk|constructor|].
  - eapply given_mono; [by intros ? ?| |exact Hg]. done.
  - eapply Forall2_impl; [exact Hg2|]. intros g g'. apply given_mono; [done|by intros ? ?].
  - intros g o Hr Hl. destruct (Ho2 g o Hr Hl) as [Hl1|Hin]; [|right; by apply list_elem_of_further].
    destruct (decide (g = h')) as [->|Hne]; [right; apply list_elem_of_here|left]. apply Ho; [done|by left|done].
Qed.

Lemma translate_handles_ok descriptor src dst x : descriptor ≠ MoveHandleType -> src ≠ dst -> forall hs s y pre post,
  processes s !! src = Some x -> processes s !! dst = Some y -> Handle.wf (handle_table y) -> (length hs <= free_slots (handle_table y))%nat ->
  Z.of_nat (length pre + length hs) <= COMMAND_BUFFER_LENGTH ->
  exists hs' t', translate_handles current_thread current_process src_thread (length hs) src dst descriptor (Z.of_nat (length pre)) (pre ++ (Some <$> hs) ++ post) s =
    Done (Val (Z.of_nat (length pre + length hs), pre ++ (Some <$> hs') ++ post), set_process dst (set_handles t' y) s) /\
    given_all x (handle_table y) t' hs hs'.
Proof using Type.
  intros Hd Hne hs. induction hs as [|h hs IH]; intros s y pre post Hx Hy Hw Hf Hlen.
  - exists [], (handle_table y). split.
    + cbn [translate_handles length fmap list_fmap app]. rewrite Nat.add_0_r. unfold mret, im_ret. do 2 f_equal. destruct s as [ps m c hp]. unfold set_process. cbn in Hy |- *. f_equal.
      rewrite insert_id; [done|]. rewrite Hy. by destruct y.
    + split; [done|by intros ? ?|constructor|by left].
  - cbn [length] in *. destruct (translate_handle_ok (length hs) s src dst x y descriptor (Z.of_nat (length pre)) pre h ((Some <$> hs) ++ post) Hx Hy Hne Hw) as
      (h' & t1 & Hw1 & Hk1 & Hg1 & Ho1 & Hf1 & E); [lia|done|lia|].
    assert (closes descriptor h = false) as Hc by (unfold closes; by rewrite (proj2 (Z.eqb_neq _ _) Hd)). rewrite Hc in E. cbv zeta in E.
    set (s1 := set_process dst (set_handles t1 y) s) in *.
    destruct (IH s1 (set_handles t1 y) (pre ++ [Some h']) post) as (hs' & t2 & E2 & Hga); [by cbn; rewrite lookup_insert_ne|apply lookup_insert_eq|done|cbn; lia|rewrite length_app; cbn; lia|].
    exists (h' :: hs'), t2. split.
    + change (pre ++ (Some <$> h :: hs) ++ post) with (pre ++ Some h :: (Some <$> hs) ++ post). rewrite E.
      rewrite length_app in E2. cbn [length] in E2. rewrite <- !app_assoc in E2. cbn [app] in E2.
      replace (Z.of_nat (length pre) + 1) with (Z.of_nat (length pre + 1)) by lia. rewrite E2.
      replace (length pre + 1 + length hs)%nat with (length pre + S (length hs))%nat by lia. do 2 f_equal.
      unfold s1, set_process. cbn. by rewrite insert_insert_eq.
    + by apply (given_cons x _ t1 t2).
Qed.

(** The number and kind of the descriptors the clients build. *)
Lemma handle_descriptors n : (1 <= n <= 64)%nat ->
  GetDescriptorType (CopyHandleDesc (Z.of_nat n)) = CopyHandle /\ GetDescriptorType (MoveHandleDesc (Z.of_nat n)) = MoveHandle /\
  HandleNumberFromDesc (CopyHandleDesc (Z.of_nat n)) = Z.of_nat n /\ HandleNumberFromDesc (MoveHandleDesc (Z.of_nat n)) = Z.of_nat n /\
  CopyHandleDesc (Z.of_nat n) ≠ MoveHandleType /\ (MoveHandleDesc (Z.of_nat n) = MoveHandleType <-> n = 1%nat).
Proof using Type.
  intros Hn. assert (n ∈ seq 1 64) as Hin by (apply elem_of_seq; lia). clear Hn. revert n Hin. apply Forall_forall.
  repeat (apply Forall_cons; split; [by (repeat split; try (by vm_compute); intros E; by vm_compute in E)|]). apply Forall_nil; done.
Qed.

(** C26: Translating a descriptor of [n] handles gives the receiver, for every handle that names an object of
    the sender (its own thread and process included), a new handle for the same object, zero for every other
    word, and changes none of its other handles; no other word of the command changes.  A
    descriptor that moves one handle closes it in the sender; one that copies, and one that
    moves several handles, leaves the sender's table as it is. *)
Theorem handles_translated s src dst x y (move : bool) dst_address command_size pre hs post reply :
  processes s !! src = Some x -> processes s !! dst = Some y -> src ≠ dst -> Handle.wf (handle_table y) ->
  (1 <= length hs <= free_slots (handle_table y))%nat -> Z.of_nat (length pre + length hs) <= command_size <= COMMAND_BUFFER_LENGTH ->
  let descriptor := if move then MoveHandleDesc (Z.of_nat (length hs)) else CopyHandleDesc (Z.of_nat (length hs)) in
  exists hs' t' s', translate_descriptor fcram vram current_thread current_process src_thread src dst descriptor dst_address command_size
      (Z.of_nat (length pre)) (pre ++ (Some <$> hs) ++ post) reply s =
    Done (Val (Z.of_nat (length pre + length hs), pre ++ (Some <$> hs') ++ post), set_process dst (set_handles t' y) s') /\
    given_all x (handle_table y) t' hs hs' /\
    s' = match move, hs with
         | true, [h] => if closes MoveHandleType h then set_process src (set_handles (Handle.Close h (handle_table x)).2 x) s else s
         | _, _ => s
         end.
Proof using Type.
  intros Hx Hy Hne Hw Hf Hlen descriptor. assert (1 <= length hs <= 64)%nat as Hn by (unfold COMMAND_BUFFER_LENGTH in *; lia).
  destruct (handle_descriptors (length hs) Hn) as (Tc & Tm & Nc & Nm & Dc & Dm).
  assert (translate_descriptor fcram vram current_thread current_process src_thread src dst descriptor dst_address command_size (Z.of_nat (length pre)) (pre ++ (Some <$> hs) ++ post) reply s =
    translate_handles current_thread current_process src_thread (length hs) src dst descriptor (Z.of_nat (length pre)) (pre ++ (Some <$> hs) ++ post) s) as ->.
  { unfold translate_descriptor, descriptor. destruct move; rewrite ?Tc, ?Tm, ?Nc, ?Nm, Nat2Z.id; (destruct (Z.ltb_spec command_size (Z.of_nat (length pre) + Z.of_nat (length hs))); [lia|done]). }
  destruct (decide (descriptor = MoveHandleType)) as [Ed|Ed].
  - unfold descriptor in Ed. destruct move; [|done]. apply Dm in Ed as E1. destruct hs as [|h [|? ?]]; try discriminate E1. clear E1.
    unfold descriptor. rewrite Ed. cbn [length fmap list_fmap app].
    destruct (translate_handle_ok 0 s src dst x y MoveHandleType (Z.of_nat (length pre)) pre h post Hx Hy Hne Hw) as (h' & t' & Hw' & Hk & Hg & Ho & _ & E); [lia|done|cbn [length] in *; lia|].
    exists [h'], t'. eexists. split; [|split; [|done]].
    + change (pre ++ [Some h] ++ post) with (pre ++ Some h :: post). rewrite E. cbn [translate_handles]. unfold mret, im_ret. do 4 f_equal. lia.
    + split; [done|done|by repeat constructor|]. intros g o Hr Hl. destruct (decide (g = h')) as [->|Hne']; [right; apply list_elem_of_here|left]. apply Ho; [done|by left|done].
  - destruct (translate_handles_ok descriptor src dst x Ed Hne hs s y pre post Hx Hy Hw) as (hs' & t' & E & Hga); [lia|unfold COMMAND_BUFFER_LENGTH in *; lia|].
    exists hs', t', s. split; [done|]. split; [done|]. destruct move; [|done]. destruct hs as [|h [|? ?]]; done.
Qed.
End Handles.

(** ** The loop over the descriptors ends *)

Section Loop.
Context {Obj : Type} {W : Type} `{Guest.Gpu W} {A : Type} `{Heap A} (fcram vram : Z).
Context (current_thread current_process : option Obj) (src_thread : Obj).
Implicit Types (s : st Obj W A).

Lemma im_bind_inv {C D} (m : st Obj W A -> outcome (result_val C * st Obj W A)) (k : C -> st Obj W A -> outcome (result_val D * st Obj W A)) s d s' :
  (m ≫= k : im D) s = Done (Val d, s') -> exists c s1, m s = Done (Val c, s1) /\ k c s1 = Done (Val d, s').
Proof using Type.
  unfold mbind, im_bind. destruct (m s) as [[[c|e] s1]|] eqn:E; cbn; [|done|done]. intros Hk. by exists c, s1.
Qed.

Lemma im_bind_ext {C D} (m : st Obj W A -> outcome (result_val C * st Obj W A)) (k k' : C -> st Obj W A -> outcome (result_val D * st Obj W A)) s :
  (forall c s1, m s = Done (Val c, s1) -> k c s1 = k' c s1) -> (m ≫= k : im D) s = (m ≫= k' : im D) s.
Proof using Type. unfold mbind, im_bind. intros Hk. destruct (m s) as [[[c|e] s1]|]; cbn; [by apply Hk|done|done]. Qed.

Lemma handles_forward n : forall src dst descriptor i buf s i' buf' s',
  translate_handles current_thread current_process src_thread n src dst descriptor i buf s = Done (Val (i', buf'), s') -> i <= i'.
Proof using Type.
  induction n as [|n IH]; intros src dst descriptor i buf s i' buf' s' E; cbn [translate_handles] in E; [injection E as <- _ _; lia|].
  apply im_bind_inv in E as (h & s1 & _ & E). apply im_bind_inv in E as ([o|] & s2 & _ & E).
  - do 3 (apply im_bind_inv in E as (? & ? & _ & E)). apply IH in E. lia.
  - apply im_bind_inv in E as (? & ? & _ & E). apply IH in E. lia.
Qed.

(** A descriptor never moves the index back. *)
Lemma descriptor_forward src dst descriptor dst_address command_size i buf reply s i' buf' s' :
  translate_descriptor fcram vram current_thread current_process src_thread src dst descriptor dst_address command_size i buf reply s = Done (Val (i', buf'), s') -> i <= i'.
Proof using Type.
  unfold translate_descriptor, translate_mapped. destruct (GetDescriptorType descriptor); intros E.
  all: try (destruct (_ <? _); [discriminate E|by apply handles_forward in E]).
  all: repeat (apply im_bind_inv in E as (? & ? & _ & E)); try (injection E as <- _ _; lia).
  destruct (_ =? 0).
  - apply im_bind_inv in E as (? & ? & _ & E). injection E as <- _ _. lia.
  - apply im_bind_inv in E as (? & ? & _ & E). destruct reply; repeat (apply im_bind_inv in E as (? & ? & _ & E)); injection E as <- _ _; lia.
Qed.

(** The words left to translate are fuel enough: more of it changes nothing. *)
Lemma translate_loop_fuel k : forall n src dst dst_address command_size i buf reply s, (Z.to_nat (command_size - i) <= n)%nat ->
  translate_loop fcram vram current_thread current_process src_thread (n + k) src dst dst_address command_size i buf reply s =
  translate_loop fcram vram current_thread current_process src_thread n src dst dst_address command_size i buf reply s.
Proof using Type.
  induction n as [|n IH]; intros src dst dst_address command_size i buf reply s Hn.
  - assert (command_size <= i) as Hi%Z.leb_le by lia. cbn [Nat.add]. by destruct k; cbn [translate_loop]; rewrite Hi.
  - cbn [Nat.add translate_loop]. destruct (Z.leb_spec command_size i); [done|].
    apply im_bind_ext. intros d s1 _. apply im_bind_ext. intros [i' buf'] s2 E. apply IH. apply descriptor_forward in E. lia.
Qed.
End Loop.

(** ** Two processes *)

Section Example.
#[local] Abbreviation F := GT.F.
#[local] Abbreviation V := GT.V.

(** A heap that only grows. *)
#[local] Instance growing_heap : Heap Z := {| allocate := fun n p => (p, p + n) |}.

Definition quiet (_ : Z) : bool := false.
Definition empty_vm : VM.vmm := VM.mk_vmm [VM.initial_vma] PT.Clear false.

Lemma empty_vm_wf IsC B : wf IsC B empty_vm.
Proof.
  split.
  - split; [done|]. constructor; [|constructor]. by split.
  - done.
  - intros q. change (PT.get (VM.page_table empty_vm) q) with PT.cleared. unfold view. cbn [VM.vma_map empty_vm list_find].
    by repeat case_decide.
Qed.

Lemma heap_vm : exists vm, wf (Guest.IsCached ∅) GT.only_fcram vm /\ VM.is_locked vm = false /\
  forall a, host_of (VM.vma_map vm) a =
    if decide (LINEAR_HEAP_VADDR <= a < LINEAR_HEAP_VADDR + 0x3000) then Some (F + (a - LINEAR_HEAP_VADDR)) else None.
Proof.
  destruct (VMT.MapBackingMemory_ok (Guest.IsCached ∅) GT.only_fcram GT.guest_fcram_apart empty_vm LINEAR_HEAP_VADDR (MRef.Ref (Guest.fcram_mem F) 0) 0x3000
    VM.StContinuous (empty_vm_wf _ _) eq_refl ltac:(mlia) ltac:(lia) ltac:(mlia) eq_refl eq_refl GT.fcram_backs) as [(_ & j & vm & _ & Hw & Hl & Hv & _)|[Hno _]].
  - exists vm. split; [exact Hw|]. split; [exact Hl|]. intros a. unfold host_of. rewrite Hv.
    destruct (decide (LINEAR_HEAP_VADDR <= a < LINEAR_HEAP_VADDR + 0x3000)); [cbn [MRef.GetPtr]; f_equal; unfold Guest.fcram_mem; cbn [MRef.host]; lia|].
    assert (view (VM.vma_map empty_vm) a = VMT.initial_view a) as -> by done. unfold VMT.initial_view. by case_decide.
  - destruct Hno. intros a Ha. assert (view (VM.vma_map empty_vm) a = VMT.initial_view a) as -> by done. unfold VMT.initial_view. rewrite decide_True; [done|]. unfold VM.MAX_ADDRESS. mlia.
Qed.

(** A client (process 1) and a server (process 2). *)
Definition client (v : VM.vmm) : process Z := mk_process v Handle.new 7 101.
Definition server : process Z := mk_process empty_vm Handle.new 8 102.
Definition two_processes (v : VM.vmm) : st Z unit Z := mk_st {[ 1 := client v; 2 := server ]} (GT.demo ∅) [] 0x50000000.

Lemma client_buffer v : (forall a, host_of (VM.vma_map v) a =
    if decide (LINEAR_HEAP_VADDR <= a < LINEAR_HEAP_VADDR + 0x3000) then Some (F + (a - LINEAR_HEAP_VADDR)) else None) ->
  (forall z, 0x14000ffe <= z < 0x14000ffe + 5 -> is_Some (host (client v) z)) /\
  forall z z' q, 0x14000ffe <= z < 0x14000ffe + 5 -> 0x14000ffe <= z' < 0x14000ffe + 5 -> host (client v) z = Some q -> host (client v) z' = Some q -> z = z'.
Proof.
  intros Hh. unfold host. cbn [vm_manager client]. split.
  - intros z Hz. rewrite Hh, decide_True by mlia. by eexists.
  - intros z z' q Hz Hz'. rewrite !Hh, !decide_True by mlia. intros [= <-] [= E]. lia.
Qed.

Lemma nothing_cached a n v : plain (two_processes v) (client v) a n.
Proof. intros z _. unfold Guest.IsCached. by destruct (Guest.At _). Qed.

Lemma demo_block : new_block GT.only_fcram (MRef.mk_backing 0x50000000 0x4000).
Proof. split; [done|done|]. intros b' ->. right. done. Qed.

Lemma demo_room : room IPC_MAPPING_VADDR IPC_MAPPING_SIZE 0x4000 empty_vm IPC_MAPPING_VADDR.
Proof. eexists. split; [reflexivity|]. by repeat split. Qed.

(** Five bytes across the boundary of two pages are lent. *)
Lemma mapped_buffer_lent_witness : exists v s' data,
  @translate_mapped_request Z unit GT.idle_gpu Z growing_heap F V 1 2 5 PermRW 0x14000ffe (two_processes v) = Done (Val 0x4001ffe, s') /\
  @ReadBlock Z unit GT.idle_gpu Z F V 2 0x4001ffe 5 s' = Done (Val data, s').
Proof.
  destruct heap_vm as (v & Hw & Hl & Hh).
  destruct (@mapped_buffer_lent Z unit GT.idle_gpu Z growing_heap F V GT.only_fcram GT.guest_fcram_apart (two_processes v) 1 2 (client v) server
    5 PermRW 0x14000ffe IPC_MAPPING_VADDR 0x50000000 0x50004000 eq_refl eq_refl) as (s' & data & E & _ & _ & R).
  - discriminate.
  - split; [exact Hw|exact Hl].
  - split; [apply empty_vm_wf|reflexivity].
  - lia.
  - lia.
  - lia.
  - apply nothing_cached.
  - reflexivity.
  - exact demo_block.
  - exact demo_room.
  - intros z _. unfold Guest.IsCached. destruct (Guest.At _); reflexivity.
  - exists v, s', data. split; [exact E|exact R].
Defined.

(** The server fills all memory it sees, the buffer included, with sevens. *)
Definition sevens : Guest.msys unit := Guest.mk_msys tt (fun _ => 7) ∅ 0.

Lemma mapped_buffer_returned_witness : exists v s1 s2,
  @translate_mapped_request Z unit GT.idle_gpu Z growing_heap F V 1 2 5 PermRW 0x14000ffe (two_processes v) = Done (Val 0x4001ffe, s1) /\
  @translate_mapped_reply Z unit GT.idle_gpu Z F V 2 1 5 PermRW 0x4001ffe (set_memory sevens s1) = Done (Val tt, s2) /\
  mapped_buffer_context s2 = [] /\ bytes_at (client v) (Guest.mem (memory s2)) 0x14000ffe 5 = [7; 7; 7; 7; 7].
Proof.
  destruct heap_vm as (v & Hw & Hl & Hh).
  assert (sound GT.only_fcram (two_processes v) (client v)) as Hc by (split; [exact Hw|exact Hl]).
  assert (sound GT.only_fcram (two_processes v) server) as Hs by (split; [apply empty_vm_wf|reflexivity]).
  destruct (@mapped_buffer_returned Z unit GT.idle_gpu Z growing_heap F V GT.only_fcram GT.guest_fcram_apart (two_processes v) 1 2 (client v) server
    5 PermRW 0x14000ffe IPC_MAPPING_VADDR 0x50000000 0x50004000 sevens eq_refl eq_refl) as (s1 & E1 & R).
  - discriminate.
  - exact Hc.
  - exact Hs.
  - lia.
  - lia.
  - lia.
  - apply nothing_cached.
  - reflexivity.
  - exact demo_block.
  - exact demo_room.
  - intros z _. unfold Guest.IsCached. destruct (Guest.At _); reflexivity.
  - constructor.
  - intros _. apply client_buffer, Hh.
  - destruct (@mapped_request_ok Z unit GT.idle_gpu Z growing_heap F V GT.only_fcram GT.guest_fcram_apart (two_processes v) 1 2 (client v) server
      5 PermRW 0x14000ffe IPC_MAPPING_VADDR 0x50000000 0x50004000 eq_refl eq_refl ltac:(discriminate) Hc Hs ltac:(lia) ltac:(lia) ltac:(lia)
      (nothing_cached _ _ _) eq_refl demo_block demo_room) as (s1' & E1' & Hlent).
    assert (s1' = s1) as -> by (pose proof (eq_trans (eq_sym E1') E1) as E; injection E as ->; reflexivity).
    destruct R as (s2 & E2 & Hr & Hctx).
    { destruct (lt_memory _ _ _ _ _ _ _ _ _ Hlent) as [Hm _]. unfold same_but_mem in *. by decompose [and] Hm. }
    exists v, s1, s2. split; [exact E1|]. split; [exact E2|]. split; [exact Hctx|].
    destruct Hr as [_ _ Hwr _]. exact (Hwr ltac:(discriminate)).
Defined.

(** A request that copies the handle of the client itself and an empty one. *)
Lemma handles_translated_witness : exists hs' t' s',
  @translate_descriptor Z unit GT.idle_gpu Z growing_heap F V None None 5 1 2 (CopyHandleDesc 2) 0 4 2 [Some 0x10042; Some (CopyHandleDesc 2); Some Handle.CurrentProcess; Some 0] false
    (two_processes empty_vm) =
  Done (Val (4, [Some 0x10042; Some (CopyHandleDesc 2)] ++ (Some <$> hs')), set_process 2 (set_handles t' server) s') /\
  given_all 5 (client empty_vm) (handle_table server) t' [Handle.CurrentProcess; 0] hs'.
Proof.
  destruct (@handles_translated Z unit GT.idle_gpu Z growing_heap F V None None 5 (two_processes empty_vm) 1 2 (client empty_vm) server false 0 4
    [Some 0x10042; Some (CopyHandleDesc 2)] [Handle.CurrentProcess; 0] [] false eq_refl eq_refl) as (hs' & t' & s' & E & Hg & _).
  - discriminate.
  - apply Handle.new_wf.
  - split; [vm_compute; lia|]. apply Nat.leb_le. vm_compute. reflexivity.
  - cbn [length]. unfold COMMAND_BUFFER_LENGTH. lia.
  - exists hs', t', s'. rewrite !app_nil_r in E. split; [exact E|exact Hg].
Defined.

End Example.

End IPT.
