(* ===== verification/ArmSupport.v ===== *)
(** * Arithmetic of the ARM interpreter

    Bit fields, sums with flags, saturation and the count of leading zeros
    (core/arm/skyeye_common/armsupp.cpp, armsupp.h, [clz] of
    dyncom/arm_dyncom_interpreter.cpp), each against what it computes as a number. *)
From S2P Require Import Prelude.

Module Arm.

(** ** Bits *)

(** [BITS] and [BIT] on a 32-bit word. *)
Definition BITS (s a b : Z) : Z := Z.shiftr (u32 (Z.shiftl s (31 - b))) (32 - b + a - 1).
Definition BIT (s n : Z) : Z := Z.land (Z.shiftr s n) 1.
Definition bit (s n : Z) : bool := negb (BIT s n =? 0).
Definition POS (i : Z) : Z := Z.shiftr (u32 (Z.lnot i)) 31.
Definition NEG (i : Z) : Z := Z.shiftr i 31.

(** Shifts of 32-bit words: the shift instructions of the hosts (x86, ARM64) use the amount modulo 32; in C++ an
    amount of 32 is undefined. *)
Definition shl32 (x n : Z) : Z := u32 (Z.shiftl x (n `mod` 32)).
Definition shr32 (x n : Z) : Z := Z.shiftr x (n `mod` 32).
Definition sar32 (x n : Z) : Z := u32 (Z.shiftr (s32 x) (n `mod` 32)).
(** [ROTATE_RIGHT_32] *)
Definition ROTATE_RIGHT_32 (n i : Z) : Z := Z.lor (shl32 n (32 - i)) (shr32 n i).
Definition not32 (x : Z) : Z := u32 (Z.lnot x).

(** ** armsupp.cpp *)

Definition ARMul_UnsignedAbsoluteDifference (left right : Z) : Z :=
  if right <? left then u8 (left - right) else u8 (right - left).

(** The sum, whether it carries and whether it overflows. *)
Definition AddWithCarry (left right carry_in : Z) : Z * bool * bool :=
  let unsigned_sum := u64 (left + right + carry_in) in
  let signed_sum := s32 left + s32 right + carry_in in
  let result := Z.land unsigned_sum 0xFFFFFFFF in
  (u32 result, negb (result =? unsigned_sum), negb (s32 result =? signed_sum)).

Definition AddOverflow (a b result : Z) : bool :=
  (negb (NEG a =? 0) && negb (NEG b =? 0) && negb (POS result =? 0)) ||
  (negb (POS a =? 0) && negb (POS b =? 0) && negb (NEG result =? 0)).
Definition SubOverflow (a b result : Z) : bool :=
  (negb (NEG a =? 0) && negb (POS b =? 0) && negb (POS result =? 0)) ||
  (negb (POS a =? 0) && negb (NEG b =? 0) && negb (NEG result =? 0)).

Definition ARMul_AddOverflowQ (a b : Z) : bool :=
  let result := u32 (a + b) in
  negb (Z.land (Z.lxor result a) 0x80000000 =? 0) && (Z.land (Z.lxor a b) 0x80000000 =? 0).

Definition ARMul_SignedSaturatedAdd8 (left right : Z) : Z :=
  let result := u8 (left + right) in
  if negb (Z.land (Z.lxor result left) 0x80 =? 0) && (Z.land (Z.lxor left right) 0x80 =? 0)
  then if negb (Z.land left 0x80 =? 0) then 0x80 else 0x7F
  else result.
Definition ARMul_SignedSaturatedSub8 (left right : Z) : Z :=
  let result := u8 (left - right) in
  if negb (Z.land (Z.lxor result left) 0x80 =? 0) && negb (Z.land (Z.lxor left right) 0x80 =? 0)
  then if negb (Z.land left 0x80 =? 0) then 0x80 else 0x7F
  else result.
Definition ARMul_SignedSaturatedAdd16 (left right : Z) : Z :=
  let result := u16 (left + right) in
  if negb (Z.land (Z.lxor result left) 0x8000 =? 0) && (Z.land (Z.lxor left right) 0x8000 =? 0)
  then if negb (Z.land left 0x8000 =? 0) then 0x8000 else 0x7FFF
  else result.
Definition ARMul_SignedSaturatedSub16 (left right : Z) : Z :=
  let result := u16 (left - right) in
  if negb (Z.land (Z.lxor result left) 0x8000 =? 0) && negb (Z.land (Z.lxor left right) 0x8000 =? 0)
  then if negb (Z.land left 0x8000 =? 0) then 0x8000 else 0x7FFF
  else result.

Definition ARMul_UnsignedSaturatedAdd8 (left right : Z) : Z :=
  let result := u8 (left + right) in if result <? left then 0xFF else result.
Definition ARMul_UnsignedSaturatedAdd16 (left right : Z) : Z :=
  let result := u16 (left + right) in if result <? left then 0xFFFF else result.
Definition ARMul_UnsignedSaturatedSub8 (left right : Z) : Z := if left <=? right then 0 else u8 (left - right).
Definition ARMul_UnsignedSaturatedSub16 (left right : Z) : Z := if left <=? right then 0 else u16 (left - right).

(** The value and whether it was saturated; [value] is signed. *)
Definition ARMul_SignedSatQ (value shift : Z) : Z * bool :=
  let max := u32 (s32 (Z.shiftl 1 shift) - 1) in
  let top := Z.shiftr value shift in
  if 0 <? top then (max, true) else if top <? -1 then (not32 max, true) else (u32 value, false).
Definition ARMul_UnsignedSatQ (value shift : Z) : Z * bool :=
  let max := u32 (s32 (Z.shiftl 1 shift) - 1) in
  if value <? 0 then (0, true) else if max <? u32 value then (max, true) else (u32 value, false).

(** [clz] *)
Definition clz (x : Z) : Z :=
  if x =? 0 then 32
  else
    let n := 1 in
    let '(n, x) := if Z.shiftr x 16 =? 0 then (n + 16, u32 (Z.shiftl x 16)) else (n, x) in
    let '(n, x) := if Z.shiftr x 24 =? 0 then (n + 8, u32 (Z.shiftl x 8)) else (n, x) in
    let '(n, x) := if Z.shiftr x 28 =? 0 then (n + 4, u32 (Z.shiftl x 4)) else (n, x) in
    let '(n, x) := if Z.shiftr x 30 =? 0 then (n + 2, u32 (Z.shiftl x 2)) else (n, x) in
    n - Z.shiftr x 31.

(** ** What they compute *)

Lemma BITS_spec s a b : 0 <= s -> 0 <= a <= b -> b <= 31 -> BITS s a b = (s / 2 ^ a) `mod` 2 ^ (b - a + 1).
Proof.
  intros Hs Ha Hb. unfold BITS, u32, wrap. apply Z.bits_inj'. intros i Hi.
  rewrite Z.shiftr_spec by lia. rewrite <- Z.shiftr_div_pow2 by lia.
  destruct (Z.ltb_spec i (b - a + 1)).
  - rewrite Z.mod_pow2_bits_low, Z.shiftl_spec, Z.mod_pow2_bits_low, Z.shiftr_spec by lia. f_equal. lia.
  - rewrite !Z.mod_pow2_bits_high by lia. done.
Qed.

Lemma BITS_range s a b : 0 <= s -> 0 <= a <= b -> b <= 31 -> 0 <= BITS s a b < 2 ^ (b - a + 1).
Proof. intros. rewrite BITS_spec by done. apply Z.mod_pos_bound. lia. Qed.

Lemma BIT_spec s n : 0 <= n -> BIT s n = Z.b2z (Z.testbit s n).
Proof. intros. unfold BIT. rewrite Z.testbit_spec' by lia. rewrite <- Z.shiftr_div_pow2 by lia. by rewrite (Z.land_ones _ 1). Qed.

Lemma bit_spec s n : 0 <= n -> bit s n = Z.testbit s n.
Proof. intros. unfold bit. rewrite BIT_spec by done. by destruct (Z.testbit s n). Qed.

(** The sign bit of a word of [w] bits. *)
Lemma top_bit w x : 0 < w -> 0 <= x < 2 ^ w -> Z.testbit x (w - 1) = (2 ^ (w - 1) <=? x).
Proof.
  intros Hw Hx. assert (2 ^ w = 2 * 2 ^ (w - 1)) as Hp by (rewrite <- Z.pow_succ_r by lia; f_equal; lia).
  apply Bool.eq_iff_eq_true. rewrite Z.testbit_true, Z.leb_le by lia. split; intros Ht.
  - destruct (Z.le_gt_cases (2 ^ (w - 1)) x); [done|]. rewrite Z.div_small in Ht by lia. done.
  - assert (x / 2 ^ (w - 1) = 1) as -> by (symmetry; apply Z.div_unique with (x - 2 ^ (w - 1)); lia). done.
Qed.

Lemma land_top w x : 0 < w -> 0 <= x -> (Z.land x (2 ^ (w - 1)) =? 0) = negb (Z.testbit x (w - 1)).
Proof.
  intros Hw Hx. destruct (Z.testbit x (w - 1)) eqn:E; cbn [negb].
  - apply Z.eqb_neq. intros H0. apply (f_equal (fun z => Z.testbit z (w - 1))) in H0.
    by rewrite Z.land_spec, E, Z.pow2_bits_true, Z.bits_0 in H0 by lia.
  - apply Z.eqb_eq. apply Z.bits_inj'. intros i Hi. rewrite Z.land_spec, Z.bits_0.
    destruct (decide (i = w - 1)) as [->|]; [by rewrite E|]. rewrite Z.pow2_bits_false by lia. apply andb_false_r.
Qed.

(** Two words differ in their top bit. *)
Lemma land_lxor_top w x y : 0 < w -> 0 <= x < 2 ^ w -> 0 <= y < 2 ^ w ->
  (Z.land (Z.lxor x y) (2 ^ (w - 1)) =? 0) = negb (xorb (2 ^ (w - 1) <=? x) (2 ^ (w - 1) <=? y)).
Proof.
  intros Hw Hx Hy. rewrite land_top; [|done|by apply Z.lxor_nonneg; lia]. rewrite Z.lxor_spec, !top_bit by done. done.
Qed.

(** The nearest number of a range. *)
Definition clamp (lo hi z : Z) : Z := Z.max lo (Z.min hi z).

(** Decides goals on the words of a width after the bit tests are comparisons. *)
Ltac words := repeat match goal with |- context [?a <=? ?b] => destruct (Z.leb_spec a b) end;
  cbn [xorb negb andb orb]; zwrap; Z.div_mod_to_equations; lia.

Lemma AddWithCarry_spec l r c : 0 <= l < 2 ^ 32 -> 0 <= r < 2 ^ 32 -> 0 <= c <= 1 ->
  AddWithCarry l r c = (u32 (l + r + c), 2 ^ 32 <=? l + r + c, negb ((- 2 ^ 31 <=? s32 l + s32 r + c) && (s32 l + s32 r + c <? 2 ^ 31))).
Proof.
  intros Hl Hr Hc. unfold AddWithCarry. rewrite (u64_small (l + r + c)) by lia. change 0xFFFFFFFF with (Z.ones 32).
  rewrite Z.land_ones by lia. fold (wrap 32 (l + r + c)). fold (u32 (l + r + c)). rewrite (u32_small (u32 _)) by apply u32_range.
  f_equal; [f_equal|].
  - destruct (Z.leb_spec (2 ^ 32) (l + r + c)); [|rewrite u32_small by lia; by rewrite Z.eqb_refl].
    assert (u32 (l + r + c) ≠ l + r + c) as Hne%Z.eqb_neq by (pose proof (u32_range (l + r + c)); lia). by rewrite Hne.
  - f_equal. set (S := s32 l + s32 r + c). assert (s32 (u32 (l + r + c)) = s32 S) as -> by (unfold S; zdm).
    assert (-2 ^ 32 <= S < 2 ^ 32) as HS by (unfold S; zdm). clearbody S.
    destruct (Z.leb_spec (-2 ^ 31) S), (Z.ltb_spec S (2 ^ 31)); cbn [andb].
    + rewrite s32_small by lia. apply Z.eqb_refl.
    + apply Z.eqb_neq. zdm.
    + apply Z.eqb_neq. zdm.
    + lia.
Qed.

(** The overflow tests are those of signed sums and differences. *)
Definition signed (z : Z) : bool := (- 2 ^ 31 <=? z) && (z <? 2 ^ 31).

Lemma NEG_spec a : 0 <= a < 2 ^ 32 -> negb (NEG a =? 0) = (2 ^ 31 <=? a).
Proof. intros Ha. unfold NEG. rewrite Z.shiftr_div_pow2 by lia. destruct (Z.leb_spec (2 ^ 31) a), (Z.eqb_spec (a / 2 ^ 31) 0); try done; zdm. Qed.
Lemma POS_spec a : 0 <= a < 2 ^ 32 -> negb (POS a =? 0) = (a <? 2 ^ 31).
Proof.
  intros Ha. unfold POS. assert (u32 (Z.lnot a) = 2 ^ 32 - 1 - a) as -> by (unfold Z.lnot; zdm).
  rewrite Z.shiftr_div_pow2 by lia. destruct (Z.ltb_spec a (2 ^ 31)), (Z.eqb_spec ((2 ^ 32 - 1 - a) / 2 ^ 31) 0); try done; zdm.
Qed.

(** Words as numbers, by cases. *)
Lemma s32_word a : 0 <= a < 2 ^ 32 -> s32 a = a - (if 2 ^ 31 <=? a then 2 ^ 32 else 0).
Proof. intros. destruct (Z.leb_spec (2 ^ 31) a); zdm. Qed.
Lemma u32_sum a b : 0 <= a < 2 ^ 32 -> 0 <= b < 2 ^ 32 -> u32 (a + b) = a + b - (if 2 ^ 32 <=? a + b then 2 ^ 32 else 0).
Proof. intros. destruct (Z.leb_spec (2 ^ 32) (a + b)); zdm. Qed.
Lemma u32_difference a b : 0 <= a < 2 ^ 32 -> 0 <= b < 2 ^ 32 -> u32 (a - b) = a - b + (if a <? b then 2 ^ 32 else 0).
Proof. intros. destruct (Z.ltb_spec a b); zdm. Qed.

Ltac cases := repeat match goal with |- context [?x <=? ?y] => destruct (Z.leb_spec x y) | |- context [?x <? ?y] => destruct (Z.ltb_spec x y) end.

Lemma AddOverflow_spec a b : 0 <= a < 2 ^ 32 -> 0 <= b < 2 ^ 32 -> AddOverflow a b (u32 (a + b)) = negb (signed (s32 a + s32 b)).
Proof.
  intros Ha Hb. pose proof (u32_range (a + b)). unfold AddOverflow, signed. rewrite !NEG_spec, !POS_spec by done.
  rewrite u32_sum, !s32_word by done.
  destruct (Z.leb_spec (2 ^ 31) a), (Z.leb_spec (2 ^ 31) b), (Z.leb_spec (2 ^ 32) (a + b)); cases; cbn; try done; exfalso; lia.
Qed.
Lemma SubOverflow_spec a b : 0 <= a < 2 ^ 32 -> 0 <= b < 2 ^ 32 -> SubOverflow a b (u32 (a - b)) = negb (signed (s32 a - s32 b)).
Proof.
  intros Ha Hb. pose proof (u32_range (a - b)). unfold SubOverflow, signed. rewrite !NEG_spec, !POS_spec by done.
  rewrite u32_difference, !s32_word by done.
  destruct (Z.leb_spec (2 ^ 31) a), (Z.leb_spec (2 ^ 31) b), (Z.ltb_spec a b); cases; cbn; try done; exfalso; lia.
Qed.

Lemma AddOverflowQ_spec a b : 0 <= a < 2 ^ 32 -> 0 <= b < 2 ^ 32 -> ARMul_AddOverflowQ a b = negb (signed (s32 a + s32 b)).
Proof.
  intros Ha Hb. pose proof (u32_range (a + b)). unfold ARMul_AddOverflowQ, signed. change 0x80000000 with (2 ^ (32 - 1)).
  rewrite !(land_lxor_top 32) by done. change (2 ^ (32 - 1)) with (2 ^ 31). rewrite u32_sum, !s32_word by done.
  destruct (Z.leb_spec (2 ^ 31) a), (Z.leb_spec (2 ^ 31) b), (Z.leb_spec (2 ^ 32) (a + b)); cases; cbn; try done; exfalso; lia.
Qed.

(** The saturating operations give the nearest number of their type. *)
Lemma s8_word a : 0 <= a < 2 ^ 8 -> s8 a = a - (if 2 ^ 7 <=? a then 2 ^ 8 else 0).
Proof. intros. destruct (Z.leb_spec (2 ^ 7) a); zdm. Qed.
Lemma s16_word a : 0 <= a < 2 ^ 16 -> s16 a = a - (if 2 ^ 15 <=? a then 2 ^ 16 else 0).
Proof. intros. destruct (Z.leb_spec (2 ^ 15) a); zdm. Qed.

Ltac saturates w := repeat match goal with |- context [Z.land (Z.lxor ?x ?y) _] => rewrite (land_lxor_top w x y) by (done || apply wrap_range; lia) end;
  rewrite (land_top w) by lia; rewrite (top_bit w) by lia;
  cases; cbn [negb xorb andb]; unfold clamp; zwrap; Z.div_mod_to_equations; lia.

Lemma SignedSaturatedAdd8_spec l r : 0 <= l < 2 ^ 8 -> 0 <= r < 2 ^ 8 -> ARMul_SignedSaturatedAdd8 l r = u8 (clamp (- 2 ^ 7) (2 ^ 7 - 1) (s8 l + s8 r)).
Proof. intros Hl Hr. unfold ARMul_SignedSaturatedAdd8. change 0x80 with (2 ^ (8 - 1)). rewrite !s8_word by done. change (2 ^ 7) with (2 ^ (8 - 1)). saturates 8. Qed.
Lemma SignedSaturatedSub8_spec l r : 0 <= l < 2 ^ 8 -> 0 <= r < 2 ^ 8 -> ARMul_SignedSaturatedSub8 l r = u8 (clamp (- 2 ^ 7) (2 ^ 7 - 1) (s8 l - s8 r)).
Proof. intros Hl Hr. unfold ARMul_SignedSaturatedSub8. change 0x80 with (2 ^ (8 - 1)). rewrite !s8_word by done. change (2 ^ 7) with (2 ^ (8 - 1)). saturates 8. Qed.
Lemma SignedSaturatedAdd16_spec l r : 0 <= l < 2 ^ 16 -> 0 <= r < 2 ^ 16 -> ARMul_SignedSaturatedAdd16 l r = u16 (clamp (- 2 ^ 15) (2 ^ 15 - 1) (s16 l + s16 r)).
Proof. intros Hl Hr. unfold ARMul_SignedSaturatedAdd16. change 0x8000 with (2 ^ (16 - 1)). rewrite !s16_word by done. change (2 ^ 15) with (2 ^ (16 - 1)). saturates 16. Qed.
Lemma SignedSaturatedSub16_spec l r : 0 <= l < 2 ^ 16 -> 0 <= r < 2 ^ 16 -> ARMul_SignedSaturatedSub16 l r = u16 (clamp (- 2 ^ 15) (2 ^ 15 - 1) (s16 l - s16 r)).
Proof. intros Hl Hr. unfold ARMul_SignedSaturatedSub16. change 0x8000 with (2 ^ (16 - 1)). rewrite !s16_word by done. change (2 ^ 15) with (2 ^ (16 - 1)). saturates 16. Qed.

Lemma UnsignedSaturated_spec l r : 0 <= l -> 0 <= r ->
  (l < 2 ^ 8 -> r < 2 ^ 8 -> ARMul_UnsignedSaturatedAdd8 l r = clamp 0 (2 ^ 8 - 1) (l + r) /\ ARMul_UnsignedSaturatedSub8 l r = clamp 0 (2 ^ 8 - 1) (l - r)) /\
  (l < 2 ^ 16 -> r < 2 ^ 16 -> ARMul_UnsignedSaturatedAdd16 l r = clamp 0 (2 ^ 16 - 1) (l + r) /\ ARMul_UnsignedSaturatedSub16 l r = clamp 0 (2 ^ 16 - 1) (l - r)).
Proof.
  intros Hl Hr. unfold ARMul_UnsignedSaturatedAdd8, ARMul_UnsignedSaturatedSub8, ARMul_UnsignedSaturatedAdd16, ARMul_UnsignedSaturatedSub16, clamp.
  split; intros Hl' Hr'; split; cases; zwrap; Z.div_mod_to_equations; lia.
Qed.

(** Saturation to [shift] bits and a sign, and to [shift] bits. *)
Lemma shiftr_cases v n : 0 <= n -> Z.shiftr v n = v / 2 ^ n.
Proof. intros. by apply Z.shiftr_div_pow2. Qed.

Lemma SignedSatQ_spec value shift : - 2 ^ 31 <= value < 2 ^ 31 -> 0 <= shift <= 31 ->
  ARMul_SignedSatQ value shift = (u32 (clamp (- 2 ^ shift) (2 ^ shift - 1) value), negb (value =? clamp (- 2 ^ shift) (2 ^ shift - 1) value)).
Proof.
  intros Hv Hs. unfold ARMul_SignedSatQ. rewrite Z.shiftl_mul_pow2, Z.mul_1_l, shiftr_cases by lia.
  assert (0 < 2 ^ shift <= 2 ^ 31) as Hp by (split; [lia|apply Z.pow_le_mono_r; lia]).
  assert (u32 (s32 (2 ^ shift) - 1) = 2 ^ shift - 1) as -> by (set (p := 2 ^ shift) in *; clearbody p; zdm).
  set (p := 2 ^ shift) in *. assert (0 < p <= 2 ^ 31) as Hp' by done. clearbody p.
  pose proof (Z.div_mod value p ltac:(lia)) as Hd. pose proof (Z.mod_pos_bound value p ltac:(lia)) as Hm.
  destruct (Z.ltb_spec 0 (value / p)) as [Ht|Ht]; [|destruct (Z.ltb_spec (value / p) (-1)) as [Ht2|Ht2]].
  - assert (p <= value) by nia. assert (clamp (- p) (p - 1) value = p - 1) as -> by (unfold clamp; lia).
    rewrite u32_small by lia. destruct (Z.eqb_spec value (p - 1)); [lia|done].
  - assert (value < - p) by nia. assert (clamp (- p) (p - 1) value = - p) as -> by (unfold clamp; lia).
    destruct (Z.eqb_spec value (- p)); [lia|]. f_equal. unfold not32, Z.lnot. f_equal. lia.
  - assert (- p <= value <= p - 1) by nia. assert (clamp (- p) (p - 1) value = value) as -> by (unfold clamp; lia).
    by rewrite Z.eqb_refl.
Qed.

Lemma UnsignedSatQ_spec value shift : - 2 ^ 31 <= value < 2 ^ 31 -> 0 <= shift <= 31 ->
  ARMul_UnsignedSatQ value shift = (clamp 0 (2 ^ shift - 1) value, negb (value =? clamp 0 (2 ^ shift - 1) value)).
Proof.
  intros Hv Hs. unfold ARMul_UnsignedSatQ. rewrite Z.shiftl_mul_pow2, Z.mul_1_l by lia.
  assert (0 < 2 ^ shift <= 2 ^ 31) as Hp by (split; [lia|apply Z.pow_le_mono_r; lia]).
  assert (u32 (s32 (2 ^ shift) - 1) = 2 ^ shift - 1) as -> by (set (p := 2 ^ shift) in *; clearbody p; zdm).
  set (p := 2 ^ shift) in *. clearbody p. unfold clamp.
  destruct (Z.ltb_spec value 0); [|rewrite u32_small by lia; destruct (Z.ltb_spec (p - 1) value)]; f_equal; try lia;
    destruct (Z.eqb_spec value (Z.max 0 (Z.min (p - 1) value))); cbn; try done; lia.
Qed.

(** The number of leading zeros: a step moves zeros from the word to the count. *)
Lemma clz_step k n x : 0 < k < 32 -> 0 < x < 2 ^ 32 ->
  exists n' x', (if Z.shiftr x (32 - k) =? 0 then (n + k, u32 (Z.shiftl x k)) else (n, x)) = (n', x') /\
    0 < x' < 2 ^ 32 /\ n' - Z.log2 x' = n - Z.log2 x /\ Z.log2 x <= Z.log2 x' /\ (Z.log2 x' < 32 - k -> Z.log2 x' = Z.log2 x + k).
Proof.
  intros Hk Hx. rewrite Z.shiftr_div_pow2, Z.shiftl_mul_pow2 by lia. destruct (Z.eqb_spec (x / 2 ^ (32 - k)) 0) as [Hz|Hz].
  - assert (2 ^ 32 = 2 ^ (32 - k) * 2 ^ k) as Hp by (rewrite <- Z.pow_add_r by lia; f_equal; lia).
    pose proof (Z.div_mod x (2 ^ (32 - k)) ltac:(lia)) as Hd. pose proof (Z.mod_pos_bound x (2 ^ (32 - k)) ltac:(lia)).
    assert (x * 2 ^ k < 2 ^ 32) by (rewrite Hp; apply Z.mul_lt_mono_pos_r; lia).
    assert (0 < x * 2 ^ k) by (apply Z.mul_pos_pos; lia). rewrite u32_small by lia.
    pose proof (Z.log2_mul_pow2 x k ltac:(lia) ltac:(lia)) as Hl. eexists _, _. split; [done|]. rewrite Hl. lia.
  - eexists _, _. split; [done|]. split; [done|]. split; [done|]. split; [lia|]. intros Hlog.
    assert (x < 2 ^ (32 - k)) by (apply Z.log2_lt_pow2; lia). rewrite Z.div_small in Hz by lia. done.
Qed.

Lemma clz_spec x : 0 < x < 2 ^ 32 -> clz x = 31 - Z.log2 x.
Proof.
  intros Hx. unfold clz. destruct (Z.eqb_spec x 0); [lia|].
  destruct (clz_step 16 1 x) as (n1 & x1 & E1 & H1 & D1 & G1 & L1); [lia|done|]. change (32 - 16) with 16 in *. rewrite E1.
  destruct (clz_step 8 n1 x1) as (n2 & x2 & E2 & H2 & D2 & G2 & L2); [lia|done|]. change (32 - 8) with 24 in *. rewrite E2.
  destruct (clz_step 4 n2 x2) as (n3 & x3 & E3 & H3 & D3 & G3 & L3); [lia|done|]. change (32 - 4) with 28 in *. rewrite E3.
  destruct (clz_step 2 n3 x3) as (n4 & x4 & E4 & H4 & D4 & G4 & L4); [lia|done|]. change (32 - 2) with 30 in *. rewrite E4.
  pose proof (Z.log2_nonneg x). assert (Z.log2 x4 < 32) as Hub by (apply Z.log2_lt_pow2; lia).
  assert (30 <= Z.log2 x4) by lia. rewrite Z.shiftr_div_pow2 by lia.
  assert (x4 / 2 ^ 31 = Z.log2 x4 - 30) as ->; [|lia].
  pose proof (Z.log2_spec x4 ltac:(lia)) as [Hlo Hhi]. destruct (decide (Z.log2 x4 = 30)) as [E|E].
  - rewrite E in *. rewrite Z.div_small by (change (Z.succ 30) with 31 in Hhi; lia). done.
  - assert (Z.log2 x4 = 31) as E' by lia. rewrite E' in *. symmetry. apply Z.div_unique with (x4 - 2 ^ 31); lia.
Qed.
End Arm.
