(* ===== verification/ArmState.v ===== *)
(** * State of the ARM interpreter

    [ARMul_State] (core/arm/skyeye_common/armstate.cpp, armstate.h): registers, the banks of the
    processor modes, flags, system registers, the memory behind the byte order of
    the mode and the exclusive monitor.  Debugger hooks are left out. *)
From S2P Require Import Prelude ArmSupport.

Module ArmS.
Import Arm.

(** ** Constants *)

(** [PrivilegeMode] *)
Definition USER32MODE : Z := 16.
Definition FIQ32MODE : Z := 17.
Definition IRQ32MODE : Z := 18.
Definition SVC32MODE : Z := 19.
Definition ABORT32MODE : Z := 23.
Definition UNDEF32MODE : Z := 27.
Definition SYSTEM32MODE : Z := 31.
(** The banks. *)
Definition USERBANK : Z := 0.
Definition FIQBANK : Z := 1.
Definition IRQBANK : Z := 2.
Definition SVCBANK : Z := 3.
Definition ABORTBANK : Z := 4.
Definition UNDEFBANK : Z := 5.
Definition SYSTEMBANK : Z := 7.
Definition INTBITS : Z := 0x1C0.
Definition RESERVATION_GRANULE_MASK : Z := 0xFFFFFFF8.

Inductive CP15Register :=
| CP15_MAIN_ID | CP15_CACHE_TYPE | CP15_TCM_STATUS | CP15_TLB_TYPE | CP15_CPU_ID | CP15_PROCESSOR_FEATURE_0
| CP15_PROCESSOR_FEATURE_1 | CP15_DEBUG_FEATURE_0 | CP15_AUXILIARY_FEATURE_0 | CP15_MEMORY_MODEL_FEATURE_0
| CP15_MEMORY_MODEL_FEATURE_1 | CP15_MEMORY_MODEL_FEATURE_2 | CP15_MEMORY_MODEL_FEATURE_3 | CP15_ISA_FEATURE_0
| CP15_ISA_FEATURE_1 | CP15_ISA_FEATURE_2 | CP15_ISA_FEATURE_3 | CP15_ISA_FEATURE_4 | CP15_CONTROL
| CP15_AUXILIARY_CONTROL | CP15_COPROCESSOR_ACCESS_CONTROL | CP15_TRANSLATION_BASE_TABLE_0
| CP15_TRANSLATION_BASE_TABLE_1 | CP15_TRANSLATION_BASE_CONTROL | CP15_DOMAIN_ACCESS_CONTROL | CP15_RESERVED
| CP15_FAULT_STATUS | CP15_INSTR_FAULT_STATUS | CP15_INST_FSR | CP15_FAULT_ADDRESS | CP15_WFAR | CP15_IFAR
| CP15_WAIT_FOR_INTERRUPT | CP15_PHYS_ADDRESS | CP15_INVALIDATE_INSTR_CACHE
| CP15_INVALIDATE_INSTR_CACHE_USING_MVA | CP15_INVALIDATE_INSTR_CACHE_USING_INDEX | CP15_FLUSH_PREFETCH_BUFFER
| CP15_FLUSH_BRANCH_TARGET_CACHE | CP15_FLUSH_BRANCH_TARGET_CACHE_ENTRY | CP15_INVALIDATE_DATA_CACHE
| CP15_INVALIDATE_DATA_CACHE_LINE_USING_MVA | CP15_INVALIDATE_DATA_CACHE_LINE_USING_INDEX
| CP15_INVALIDATE_DATA_AND_INSTR_CACHE | CP15_CLEAN_DATA_CACHE | CP15_CLEAN_DATA_CACHE_LINE_USING_MVA
| CP15_CLEAN_DATA_CACHE_LINE_USING_INDEX | CP15_DATA_SYNC_BARRIER | CP15_DATA_MEMORY_BARRIER
| CP15_CLEAN_AND_INVALIDATE_DATA_CACHE | CP15_CLEAN_AND_INVALIDATE_DATA_CACHE_LINE_USING_MVA
| CP15_CLEAN_AND_INVALIDATE_DATA_CACHE_LINE_USING_INDEX | CP15_INVALIDATE_ITLB
| CP15_INVALIDATE_ITLB_SINGLE_ENTRY | CP15_INVALIDATE_ITLB_ENTRY_ON_ASID_MATCH
| CP15_INVALIDATE_ITLB_ENTRY_ON_MVA | CP15_INVALIDATE_DTLB | CP15_INVALIDATE_DTLB_SINGLE_ENTRY
| CP15_INVALIDATE_DTLB_ENTRY_ON_ASID_MATCH | CP15_INVALIDATE_DTLB_ENTRY_ON_MVA | CP15_INVALIDATE_UTLB
| CP15_INVALIDATE_UTLB_SINGLE_ENTRY | CP15_INVALIDATE_UTLB_ENTRY_ON_ASID_MATCH
| CP15_INVALIDATE_UTLB_ENTRY_ON_MVA | CP15_DATA_CACHE_LOCKDOWN | CP15_TLB_LOCKDOWN | CP15_PRIMARY_REGION_REMAP
| CP15_NORMAL_REGION_REMAP | CP15_PID | CP15_CONTEXT_ID | CP15_THREAD_UPRW | CP15_THREAD_URO | CP15_THREAD_PRW
| CP15_PERFORMANCE_MONITOR_CONTROL | CP15_CYCLE_COUNTER | CP15_COUNT_0 | CP15_COUNT_1
| CP15_READ_MAIN_TLB_LOCKDOWN_ENTRY | CP15_WRITE_MAIN_TLB_LOCKDOWN_ENTRY | CP15_MAIN_TLB_LOCKDOWN_VIRT_ADDRESS
| CP15_MAIN_TLB_LOCKDOWN_PHYS_ADDRESS | CP15_MAIN_TLB_LOCKDOWN_ATTRIBUTE | CP15_TLB_DEBUG_CONTROL
| CP15_TLB_FAULT_ADDR | CP15_TLB_FAULT_STATUS.
#[global] Instance CP15Register_eq_dec : EqDecision CP15Register.
Proof. solve_decision. Defined.

(** ** Memory

    What the processor sees of memory: reads and writes of 1, 2, 4 and 8 bytes. *)
Class Bus (M : Type) := {
  bus_read : Z -> Z -> M -> outcome (Z * M);
  bus_write : Z -> Z -> Z -> M -> outcome M;
}.

(** ** The state *)

Record cpu (M : Type) := mk_cpu {
  Reg : list Z; Reg_usr : list Z; Reg_svc : list Z; Reg_abort : list Z; Reg_undef : list Z; Reg_irq : list Z;
  Reg_firq : list Z; Spsr : list Z; CP15 : CP15Register -> Z; VFP : list Z; ExtReg : list Z; Cpsr : Z;
  Spsr_copy : Z; Mode : Z; Bank : Z; NFlag : Z; ZFlag : Z; CFlag : Z; VFlag : Z; shifter_carry_out : Z;
  TFlag : Z; NumInstrsToExecute : Z; NirqSig : Z; exclusive_tag : Z; exclusive_state : bool; memory : M;
}.
#[global] Arguments Reg {M} _.
#[global] Arguments Reg_usr {M} _.
#[global] Arguments Reg_svc {M} _.
#[global] Arguments Reg_abort {M} _.
#[global] Arguments Reg_undef {M} _.
#[global] Arguments Reg_irq {M} _.
#[global] Arguments Reg_firq {M} _.
#[global] Arguments Spsr {M} _.
#[global] Arguments CP15 {M} _.
#[global] Arguments VFP {M} _.
#[global] Arguments ExtReg {M} _.
#[global] Arguments Cpsr {M} _.
#[global] Arguments Spsr_copy {M} _.
#[global] Arguments Mode {M} _.
#[global] Arguments Bank {M} _.
#[global] Arguments NFlag {M} _.
#[global] Arguments ZFlag {M} _.
#[global] Arguments CFlag {M} _.
#[global] Arguments VFlag {M} _.
#[global] Arguments shifter_carry_out {M} _.
#[global] Arguments TFlag {M} _.
#[global] Arguments NumInstrsToExecute {M} _.
#[global] Arguments NirqSig {M} _.
#[global] Arguments exclusive_tag {M} _.
#[global] Arguments exclusive_state {M} _.
#[global] Arguments memory {M} _.
#[global] Arguments mk_cpu {M}.

Section Setters.
Context {M : Type}.
Implicit Types s : cpu M.
Definition set_Reg (x : list Z) s : cpu M := mk_cpu x (Reg_usr s) (Reg_svc s) (Reg_abort s) (Reg_undef s) (Reg_irq s) (Reg_firq s) (Spsr s) (CP15 s) (VFP s) (ExtReg s) (Cpsr s) (Spsr_copy s) (Mode s) (Bank s) (NFlag s) (ZFlag s) (CFlag s) (VFlag s) (shifter_carry_out s) (TFlag s) (NumInstrsToExecute s) (NirqSig s) (exclusive_tag s) (exclusive_state s) (memory s).
Definition set_Reg_usr (x : list Z) s : cpu M := mk_cpu (Reg s) x (Reg_svc s) (Reg_abort s) (Reg_undef s) (Reg_irq s) (Reg_firq s) (Spsr s) (CP15 s) (VFP s) (ExtReg s) (Cpsr s) (Spsr_copy s) (Mode s) (Bank s) (NFlag s) (ZFlag s) (CFlag s) (VFlag s) (shifter_carry_out s) (TFlag s) (NumInstrsToExecute s) (NirqSig s) (exclusive_tag s) (exclusive_state s) (memory s).
Definition set_Reg_svc (x : list Z) s : cpu M := mk_cpu (Reg s) (Reg_usr s) x (Reg_abort s) (Reg_undef s) (Reg_irq s) (Reg_firq s) (Spsr s) (CP15 s) (VFP s) (ExtReg s) (Cpsr s) (Spsr_copy s) (Mode s) (Bank s) (NFlag s) (ZFlag s) (CFlag s) (VFlag s) (shifter_carry_out s) (TFlag s) (NumInstrsToExecute s) (NirqSig s) (exclusive_tag s) (exclusive_state s) (memory s).
Definition set_Reg_abort (x : list Z) s : cpu M := mk_cpu (Reg s) (Reg_usr s) (Reg_svc s) x (Reg_undef s) (Reg_irq s) (Reg_firq s) (Spsr s) (CP15 s) (VFP s) (ExtReg s) (Cpsr s) (Spsr_copy s) (Mode s) (Bank s) (NFlag s) (ZFlag s) (CFlag s) (VFlag s) (shifter_carry_out s) (TFlag s) (NumInstrsToExecute s) (NirqSig s) (exclusive_tag s) (exclusive_state s) (memory s).
Definition set_Reg_undef (x : list Z) s : cpu M := mk_cpu (Reg s) (Reg_usr s) (Reg_svc s) (Reg_abort s) x (Reg_irq s) (Reg_firq s) (Spsr s) (CP15 s) (VFP s) (ExtReg s) (Cpsr s) (Spsr_copy s) (Mode s) (Bank s) (NFlag s) (ZFlag s) (CFlag s) (VFlag s) (shifter_carry_out s) (TFlag s) (NumInstrsToExecute s) (NirqSig s) (exclusive_tag s) (exclusive_state s) (memory s).
Definition set_Reg_irq (x : list Z) s : cpu M := mk_cpu (Reg s) (Reg_usr s) (Reg_svc s) (Reg_abort s) (Reg_undef s) x (Reg_firq s) (Spsr s) (CP15 s) (VFP s) (ExtReg s) (Cpsr s) (Spsr_copy s) (Mode s) (Bank s) (NFlag s) (ZFlag s) (CFlag s) (VFlag s) (shifter_carry_out s) (TFlag s) (NumInstrsToExecute s) (NirqSig s) (exclusive_tag s) (exclusive_state s) (memory s).
Definition set_Reg_firq (x : list Z) s : cpu M := mk_cpu (Reg s) (Reg_usr s) (Reg_svc s) (Reg_abort s) (Reg_undef s) (Reg_irq s) x (Spsr s) (CP15 s) (VFP s) (ExtReg s) (Cpsr s) (Spsr_copy s) (Mode s) (Bank s) (NFlag s) (ZFlag s) (CFlag s) (VFlag s) (shifter_carry_out s) (TFlag s) (NumInstrsToExecute s) (NirqSig s) (exclusive_tag s) (exclusive_state s) (memory s).
Definition set_Spsr (x : list Z) s : cpu M := mk_cpu (Reg s) (Reg_usr s) (Reg_svc s) (Reg_abort s) (Reg_undef s) (Reg_irq s) (Reg_firq s) x (CP15 s) (VFP s) (ExtReg s) (Cpsr s) (Spsr_copy s) (Mode s) (Bank s) (NFlag s) (ZFlag s) (CFlag s) (VFlag s) (shifter_carry_out s) (TFlag s) (NumInstrsToExecute s) (NirqSig s) (exclusive_tag s) (exclusive_state s) (memory s).
Definition set_CP15 (x : CP15Register -> Z) s : cpu M := mk_cpu (Reg s) (Reg_usr s) (Reg_svc s) (Reg_abort s) (Reg_undef s) (Reg_irq s) (Reg_firq s) (Spsr s) x (VFP s) (ExtReg s) (Cpsr s) (Spsr_copy s) (Mode s) (Bank s) (NFlag s) (ZFlag s) (CFlag s) (VFlag s) (shifter_carry_out s) (TFlag s) (NumInstrsToExecute s) (NirqSig s) (exclusive_tag s) (exclusive_state s) (memory s).
Definition set_VFP (x : list Z) s : cpu M := mk_cpu (Reg s) (Reg_usr s) (Reg_svc s) (Reg_abort s) (Reg_undef s) (Reg_irq s) (Reg_firq s) (Spsr s) (CP15 s) x (ExtReg s) (Cpsr s) (Spsr_copy s) (Mode s) (Bank s) (NFlag s) (ZFlag s) (CFlag s) (VFlag s) (shifter_carry_out s) (TFlag s) (NumInstrsToExecute s) (NirqSig s) (exclusive_tag s) (exclusive_state s) (memory s).
Definition set_ExtReg (x : list Z) s : cpu M := mk_cpu (Reg s) (Reg_usr s) (Reg_svc s) (Reg_abort s) (Reg_undef s) (Reg_irq s) (Reg_firq s) (Spsr s) (CP15 s) (VFP s) x (Cpsr s) (Spsr_copy s) (Mode s) (Bank s) (NFlag s) (ZFlag s) (CFlag s) (VFlag s) (shifter_carry_out s) (TFlag s) (NumInstrsToExecute s) (NirqSig s) (exclusive_tag s) (exclusive_state s) (memory s).
Definition set_Cpsr (x : Z) s : cpu M := mk_cpu (Reg s) (Reg_usr s) (Reg_svc s) (Reg_abort s) (Reg_undef s) (Reg_irq s) (Reg_firq s) (Spsr s) (CP15 s) (VFP s) (ExtReg s) x (Spsr_copy s) (Mode s) (Bank s) (NFlag s) (ZFlag s) (CFlag s) (VFlag s) (shifter_carry_out s) (TFlag s) (NumInstrsToExecute s) (NirqSig s) (exclusive_tag s) (exclusive_state s) (memory s).
Definition set_Spsr_copy (x : Z) s : cpu M := mk_cpu (Reg s) (Reg_usr s) (Reg_svc s) (Reg_abort s) (Reg_undef s) (Reg_irq s) (Reg_firq s) (Spsr s) (CP15 s) (VFP s) (ExtReg s) (Cpsr s) x (Mode s) (Bank s) (NFlag s) (ZFlag s) (CFlag s) (VFlag s) (shifter_carry_out s) (TFlag s) (NumInstrsToExecute s) (NirqSig s) (exclusive_tag s) (exclusive_state s) (memory s).
Definition set_Mode (x : Z) s : cpu M := mk_cpu (Reg s) (Reg_usr s) (Reg_svc s) (Reg_abort s) (Reg_undef s) (Reg_irq s) (Reg_firq s) (Spsr s) (CP15 s) (VFP s) (ExtReg s) (Cpsr s) (Spsr_copy s) x (Bank s) (NFlag s) (ZFlag s) (CFlag s) (VFlag s) (shifter_carry_out s) (TFlag s) (NumInstrsToExecute s) (NirqSig s) (exclusive_tag s) (exclusive_state s) (memory s).
Definition set_Bank (x : Z) s : cpu M := mk_cpu (Reg s) (Reg_usr s) (Reg_svc s) (Reg_abort s) (Reg_undef s) (Reg_irq s) (Reg_firq s) (Spsr s) (CP15 s) (VFP s) (ExtReg s) (Cpsr s) (Spsr_copy s) (Mode s) x (NFlag s) (ZFlag s) (CFlag s) (VFlag s) (shifter_carry_out s) (TFlag s) (NumInstrsToExecute s) (NirqSig s) (exclusive_tag s) (exclusive_state s) (memory s).
Definition set_NFlag (x : Z) s : cpu M := mk_cpu (Reg s) (Reg_usr s) (Reg_svc s) (Reg_abort s) (Reg_undef s) (Reg_irq s) (Reg_firq s) (Spsr s) (CP15 s) (VFP s) (ExtReg s) (Cpsr s) (Spsr_copy s) (Mode s) (Bank s) x (ZFlag s) (CFlag s) (VFlag s) (shifter_carry_out s) (TFlag s) (NumInstrsToExecute s) (NirqSig s) (exclusive_tag s) (exclusive_state s) (memory s).
Definition set_ZFlag (x : Z) s : cpu M := mk_cpu (Reg s) (Reg_usr s) (Reg_svc s) (Reg_abort s) (Reg_undef s) (Reg_irq s) (Reg_firq s) (Spsr s) (CP15 s) (VFP s) (ExtReg s) (Cpsr s) (Spsr_copy s) (Mode s) (Bank s) (NFlag s) x (CFlag s) (VFlag s) (shifter_carry_out s) (TFlag s) (NumInstrsToExecute s) (NirqSig s) (exclusive_tag s) (exclusive_state s) (memory s).
Definition set_CFlag (x : Z) s : cpu M := mk_cpu (Reg s) (Reg_usr s) (Reg_svc s) (Reg_abort s) (Reg_undef s) (Reg_irq s) (Reg_firq s) (Spsr s) (CP15 s) (VFP s) (ExtReg s) (Cpsr s) (Spsr_copy s) (Mode s) (Bank s) (NFlag s) (ZFlag s) x (VFlag s) (shifter_carry_out s) (TFlag s) (NumInstrsToExecute s) (NirqSig s) (exclusive_tag s) (exclusive_state s) (memory s).
Definition set_VFlag (x : Z) s : cpu M := mk_cpu (Reg s) (Reg_usr s) (Reg_svc s) (Reg_abort s) (Reg_undef s) (Reg_irq s) (Reg_firq s) (Spsr s) (CP15 s) (VFP s) (ExtReg s) (Cpsr s) (Spsr_copy s) (Mode s) (Bank s) (NFlag s) (ZFlag s) (CFlag s) x (shifter_carry_out s) (TFlag s) (NumInstrsToExecute s) (NirqSig s) (exclusive_tag s) (exclusive_state s) (memory s).
Definition set_shifter_carry_out (x : Z) s : cpu M := mk_cpu (Reg s) (Reg_usr s) (Reg_svc s) (Reg_abort s) (Reg_undef s) (Reg_irq s) (Reg_firq s) (Spsr s) (CP15 s) (VFP s) (ExtReg s) (Cpsr s) (Spsr_copy s) (Mode s) (Bank s) (NFlag s) (ZFlag s) (CFlag s) (VFlag s) x (TFlag s) (NumInstrsToExecute s) (NirqSig s) (exclusive_tag s) (exclusive_state s) (memory s).
Definition set_TFlag (x : Z) s : cpu M := mk_cpu (Reg s) (Reg_usr s) (Reg_svc s) (Reg_abort s) (Reg_undef s) (Reg_irq s) (Reg_firq s) (Spsr s) (CP15 s) (VFP s) (ExtReg s) (Cpsr s) (Spsr_copy s) (Mode s) (Bank s) (NFlag s) (ZFlag s) (CFlag s) (VFlag s) (shifter_carry_out s) x (NumInstrsToExecute s) (NirqSig s) (exclusive_tag s) (exclusive_state s) (memory s).
Definition set_NumInstrsToExecute (x : Z) s : cpu M := mk_cpu (Reg s) (Reg_usr s) (Reg_svc s) (Reg_abort s) (Reg_undef s) (Reg_irq s) (Reg_firq s) (Spsr s) (CP15 s) (VFP s) (ExtReg s) (Cpsr s) (Spsr_copy s) (Mode s) (Bank s) (NFlag s) (ZFlag s) (CFlag s) (VFlag s) (shifter_carry_out s) (TFlag s) x (NirqSig s) (exclusive_tag s) (exclusive_state s) (memory s).
Definition set_NirqSig (x : Z) s : cpu M := mk_cpu (Reg s) (Reg_usr s) (Reg_svc s) (Reg_abort s) (Reg_undef s) (Reg_irq s) (Reg_firq s) (Spsr s) (CP15 s) (VFP s) (ExtReg s) (Cpsr s) (Spsr_copy s) (Mode s) (Bank s) (NFlag s) (ZFlag s) (CFlag s) (VFlag s) (shifter_carry_out s) (TFlag s) (NumInstrsToExecute s) x (exclusive_tag s) (exclusive_state s) (memory s).
Definition set_exclusive_tag (x : Z) s : cpu M := mk_cpu (Reg s) (Reg_usr s) (Reg_svc s) (Reg_abort s) (Reg_undef s) (Reg_irq s) (Reg_firq s) (Spsr s) (CP15 s) (VFP s) (ExtReg s) (Cpsr s) (Spsr_copy s) (Mode s) (Bank s) (NFlag s) (ZFlag s) (CFlag s) (VFlag s) (shifter_carry_out s) (TFlag s) (NumInstrsToExecute s) (NirqSig s) x (exclusive_state s) (memory s).
Definition set_exclusive_state (x : bool) s : cpu M := mk_cpu (Reg s) (Reg_usr s) (Reg_svc s) (Reg_abort s) (Reg_undef s) (Reg_irq s) (Reg_firq s) (Spsr s) (CP15 s) (VFP s) (ExtReg s) (Cpsr s) (Spsr_copy s) (Mode s) (Bank s) (NFlag s) (ZFlag s) (CFlag s) (VFlag s) (shifter_carry_out s) (TFlag s) (NumInstrsToExecute s) (NirqSig s) (exclusive_tag s) x (memory s).
Definition set_memory (x : M) s : cpu M := mk_cpu (Reg s) (Reg_usr s) (Reg_svc s) (Reg_abort s) (Reg_undef s) (Reg_irq s) (Reg_firq s) (Spsr s) (CP15 s) (VFP s) (ExtReg s) (Cpsr s) (Spsr_copy s) (Mode s) (Bank s) (NFlag s) (ZFlag s) (CFlag s) (VFlag s) (shifter_carry_out s) (TFlag s) (NumInstrsToExecute s) (NirqSig s) (exclusive_tag s) (exclusive_state s) x.
End Setters.


(** ** The monad of the processor *)

Section Operations.
Context {M : Type} `{Bus M}.
Implicit Types s : cpu M.

Definition arm (A : Type) : Type := cpu M -> outcome (A * cpu M).
#[global] Instance arm_ret : MRet arm := fun A a s => Done (a, s).
#[global] Instance arm_bind : MBind arm := fun A B k m s => '(a, s) ← m s; k a s.
Definition read {A} (f : cpu M -> A) : arm A := fun s => Done (f s, s).
Definition modify (f : cpu M -> cpu M) : arm unit := fun s => Done (tt, f s).
Definition lift {A} (o : outcome A) : arm A := fun s => a ← o; Done (a, s).

(** [Reg[i]]; an index beyond the array stops. *)
Definition at_index (l : list Z) (i : Z) : outcome Z := of_opt FOutOfRange (l !! Z.to_nat i).
Definition get_reg (i : Z) : arm Z := fun s => v ← at_index (Reg s) i; Done (v, s).
Definition put (i v : Z) (l : list Z) : list Z := <[Z.to_nat i := v]> l.
(** An assignment to a register, an [u32]. *)
Definition set_reg (i v : Z) : arm unit := fun s => _ ← at_index (Reg s) i; Done (tt, set_Reg (put i (u32 v) (Reg s)) s).

(** [InBigEndianMode], [InAPrivilegedMode], [CurrentModeHasSPSR], [GetInstructionSize] *)
Definition InBigEndianMode s : bool := bit (Cpsr s) 9.
Definition InAPrivilegedMode s : bool := negb (Mode s =? USER32MODE).
Definition CurrentModeHasSPSR s : bool := negb (Mode s =? SYSTEM32MODE) && InAPrivilegedMode s.
Definition GetInstructionSize s : Z := if TFlag s =? 0 then 4 else 2.

(** ** Modes *)

Definition reg s (i : Z) : Z := default 0 (Reg s !! Z.to_nat i).
Definition sp_lr s : list Z := [reg s 13; reg s 14].
Definition load_sp_lr (l : list Z) s : cpu M := set_Reg (put 14 (l !!! 1%nat) (put 13 (l !!! 0%nat) (Reg s))) s.
Definition put_spsr (bank v : Z) s : cpu M := set_Spsr (put bank v (Spsr s)) s.

(** The registers of the old mode are saved. *)
Definition save_bank s : cpu M :=
  let mode := Mode s in
  if (mode =? SYSTEM32MODE) || (mode =? USER32MODE) then set_Reg_usr (sp_lr s) s
  else if mode =? IRQ32MODE then put_spsr IRQBANK (Spsr_copy s) (set_Reg_irq (sp_lr s) s)
  else if mode =? SVC32MODE then put_spsr SVCBANK (Spsr_copy s) (set_Reg_svc (sp_lr s) s)
  else if mode =? ABORT32MODE then put_spsr ABORTBANK (Spsr_copy s) (set_Reg_abort (sp_lr s) s)
  else if mode =? UNDEF32MODE then put_spsr UNDEFBANK (Spsr_copy s) (set_Reg_undef (sp_lr s) s)
  else if mode =? FIQ32MODE then put_spsr FIQBANK (Spsr_copy s) (set_Reg_firq (take 7 (drop 8 (Reg s))) s)
  else s.

Definition load_spsr (bank : Z) s : cpu M := set_Spsr_copy (Spsr s !!! Z.to_nat bank) s.
Definition load_firq s : cpu M := set_Reg (take 8 (Reg s) ++ Reg_firq s ++ drop 15 (Reg s)) s.
Definition load_bank (new_mode : Z) s : cpu M :=
  if new_mode =? USER32MODE then set_Bank USERBANK (load_sp_lr (Reg_usr s) s)
  else if new_mode =? IRQ32MODE then set_Bank IRQBANK (load_spsr IRQBANK (load_sp_lr (Reg_irq s) s))
  else if new_mode =? SVC32MODE then set_Bank SVCBANK (load_spsr SVCBANK (load_sp_lr (Reg_svc s) s))
  else if new_mode =? ABORT32MODE then set_Bank ABORTBANK (load_spsr ABORTBANK (load_sp_lr (Reg_abort s) s))
  else if new_mode =? UNDEF32MODE then set_Bank UNDEFBANK (load_spsr UNDEFBANK (load_sp_lr (Reg_undef s) s))
  else if new_mode =? FIQ32MODE then set_Bank FIQBANK (load_spsr FIQBANK (load_firq s))
  else if new_mode =? SYSTEM32MODE then set_Bank SYSTEMBANK (load_sp_lr (Reg_usr s) s)
  else s.

Definition ChangePrivilegeMode (new_mode : Z) s : cpu M :=
  if Mode s =? new_mode then s
  else if new_mode =? USERBANK then s
  else
    let s := load_bank new_mode (save_bank s) in
    set_Mode new_mode (set_Cpsr (Z.lor (Z.land (Cpsr s) (not32 (Mode s))) new_mode) s).

(** ** System registers *)

Definition put_cp15 (r : CP15Register) (v : Z) s : cpu M := set_CP15 (fun r' => if decide (r' = r) then u32 v else CP15 s r') s.

(** [ResetMPCoreCP15Registers] *)
Definition reset_values : list (CP15Register * Z) :=
  [(CP15_MAIN_ID, 0x410FB024);
   (CP15_TLB_TYPE, 0x00000800);
   (CP15_PROCESSOR_FEATURE_0, 0x00000111);
   (CP15_PROCESSOR_FEATURE_1, 0x00000001);
   (CP15_DEBUG_FEATURE_0, 0x00000002);
   (CP15_MEMORY_MODEL_FEATURE_0, 0x01100103);
   (CP15_MEMORY_MODEL_FEATURE_1, 0x10020302);
   (CP15_MEMORY_MODEL_FEATURE_2, 0x01222000);
   (CP15_MEMORY_MODEL_FEATURE_3, 0x00000000);
   (CP15_ISA_FEATURE_0, 0x00100011);
   (CP15_ISA_FEATURE_1, 0x12002111);
   (CP15_ISA_FEATURE_2, 0x11221011);
   (CP15_ISA_FEATURE_3, 0x01102131);
   (CP15_ISA_FEATURE_4, 0x00000141);
   (CP15_CONTROL, 0x00054078);
   (CP15_AUXILIARY_CONTROL, 0x0000000F);
   (CP15_COPROCESSOR_ACCESS_CONTROL, 0x00000000);
   (CP15_TRANSLATION_BASE_TABLE_0, 0x00000000);
   (CP15_TRANSLATION_BASE_TABLE_1, 0x00000000);
   (CP15_TRANSLATION_BASE_CONTROL, 0x00000000);
   (CP15_DOMAIN_ACCESS_CONTROL, 0x00000000);
   (CP15_PHYS_ADDRESS, 0x00000000);
   (CP15_DATA_CACHE_LOCKDOWN, 0xFFFFFFF0);
   (CP15_TLB_LOCKDOWN, 0x00000000);
   (CP15_PRIMARY_REGION_REMAP, 0x00098AA4);
   (CP15_NORMAL_REGION_REMAP, 0x44E048E0);
   (CP15_PID, 0x00000000);
   (CP15_CONTEXT_ID, 0x00000000);
   (CP15_THREAD_UPRW, 0x00000000);
   (CP15_THREAD_URO, 0x00000000);
   (CP15_THREAD_PRW, 0x00000000);
   (CP15_PERFORMANCE_MONITOR_CONTROL, 0x00000000);
   (CP15_MAIN_TLB_LOCKDOWN_VIRT_ADDRESS, 0x00000000);
   (CP15_MAIN_TLB_LOCKDOWN_PHYS_ADDRESS, 0x00000000);
   (CP15_MAIN_TLB_LOCKDOWN_ATTRIBUTE, 0x00000000);
   (CP15_TLB_DEBUG_CONTROL, 0x00000000)].
Definition ResetMPCoreCP15Registers s : cpu M := foldl (fun s '(r, v) => put_cp15 r v s) s reset_values.

(** A register of coprocessor 15 and the operands that name it; some reads do not look at the first opcode. *)
Definition only (o o' : Z) : bool := o' =? o.
Definition any (o : Z) : bool := true.
Record row_t := row { r_crn : Z; r_opcode_1 : Z -> bool; r_crm : Z; r_opcode_2 : Z; r_register : CP15Register }.
Definition row_matches (crn opcode_1 crm opcode_2 : Z) (r : row_t) : bool :=
  (crn =? r_crn r) && r_opcode_1 r opcode_1 && (crm =? r_crm r) && (opcode_2 =? r_opcode_2 r).
Fixpoint select (rows : list row_t) (crn opcode_1 crm opcode_2 : Z) : option CP15Register :=
  match rows with
  | [] => None
  | r :: rows => if row_matches crn opcode_1 crm opcode_2 r then Some (r_register r) else select rows crn opcode_1 crm opcode_2
  end.

(** [ReadCP15Register] *)
Definition read_all : list row_t :=
  [row 13 (only 0) 0 2 CP15_THREAD_UPRW; row 13 (only 0) 0 3 CP15_THREAD_URO].
Definition read_privileged : list row_t :=
  [row 0 (only 0) 0 0 CP15_MAIN_ID; row 0 (only 0) 0 1 CP15_CACHE_TYPE; row 0 (only 0) 0 3 CP15_TLB_TYPE;
   row 0 (only 0) 0 5 CP15_CPU_ID; row 0 (only 0) 1 0 CP15_PROCESSOR_FEATURE_0;
   row 0 (only 0) 1 1 CP15_PROCESSOR_FEATURE_1; row 0 (only 0) 1 2 CP15_DEBUG_FEATURE_0;
   row 0 (only 0) 1 4 CP15_MEMORY_MODEL_FEATURE_0; row 0 (only 0) 1 5 CP15_MEMORY_MODEL_FEATURE_1;
   row 0 (only 0) 1 6 CP15_MEMORY_MODEL_FEATURE_2; row 0 (only 0) 1 7 CP15_MEMORY_MODEL_FEATURE_3;
   row 0 (only 0) 2 0 CP15_ISA_FEATURE_0; row 0 (only 0) 2 1 CP15_ISA_FEATURE_1;
   row 0 (only 0) 2 2 CP15_ISA_FEATURE_2; row 0 (only 0) 2 3 CP15_ISA_FEATURE_3;
   row 0 (only 0) 2 4 CP15_ISA_FEATURE_4; row 1 (only 0) 0 0 CP15_CONTROL; row 1 (only 0) 0 1 CP15_AUXILIARY_CONTROL;
   row 1 (only 0) 0 2 CP15_COPROCESSOR_ACCESS_CONTROL; row 2 (only 0) 0 0 CP15_TRANSLATION_BASE_TABLE_0;
   row 2 (only 0) 0 1 CP15_TRANSLATION_BASE_TABLE_1; row 2 (only 0) 0 2 CP15_TRANSLATION_BASE_CONTROL;
   row 3 (only 0) 0 0 CP15_DOMAIN_ACCESS_CONTROL; row 5 (only 0) 0 0 CP15_FAULT_STATUS;
   row 5 (only 0) 0 1 CP15_INSTR_FAULT_STATUS; row 6 (only 0) 0 0 CP15_FAULT_ADDRESS; row 6 (only 0) 0 1 CP15_WFAR;
   row 7 (only 0) 4 0 CP15_PHYS_ADDRESS; row 9 (only 0) 0 0 CP15_DATA_CACHE_LOCKDOWN;
   row 10 (only 0) 0 0 CP15_TLB_LOCKDOWN; row 10 (only 0) 2 0 CP15_PRIMARY_REGION_REMAP;
   row 10 (only 0) 2 1 CP15_NORMAL_REGION_REMAP; row 13 any 0 0 CP15_PID; row 13 any 0 1 CP15_CONTEXT_ID;
   row 13 any 0 4 CP15_THREAD_PRW; row 15 (only 0) 12 0 CP15_PERFORMANCE_MONITOR_CONTROL;
   row 15 (only 0) 12 1 CP15_CYCLE_COUNTER; row 15 (only 0) 12 2 CP15_COUNT_0; row 15 (only 0) 12 3 CP15_COUNT_1;
   row 15 (only 5) 5 2 CP15_MAIN_TLB_LOCKDOWN_VIRT_ADDRESS; row 15 (only 5) 6 2 CP15_MAIN_TLB_LOCKDOWN_PHYS_ADDRESS;
   row 15 (only 5) 7 2 CP15_MAIN_TLB_LOCKDOWN_ATTRIBUTE; row 15 (only 7) 1 0 CP15_TLB_DEBUG_CONTROL].
Definition readable (privileged : bool) (crn opcode_1 crm opcode_2 : Z) : option CP15Register :=
  select (read_all ++ if privileged then read_privileged else []) crn opcode_1 crm opcode_2.
Definition ReadCP15Register (crn opcode_1 crm opcode_2 : Z) s : Z :=
  match readable (InAPrivilegedMode s) crn opcode_1 crm opcode_2 with Some r => CP15 s r | None => 0 end.

(** [WriteCP15Register] *)
Definition write_privileged : list row_t :=
  [row 1 (only 0) 0 0 CP15_CONTROL; row 1 (only 0) 0 1 CP15_AUXILIARY_CONTROL;
   row 1 (only 0) 0 2 CP15_COPROCESSOR_ACCESS_CONTROL; row 2 (only 0) 0 0 CP15_TRANSLATION_BASE_TABLE_0;
   row 2 (only 0) 0 1 CP15_TRANSLATION_BASE_TABLE_1; row 2 (only 0) 0 2 CP15_TRANSLATION_BASE_CONTROL;
   row 3 (only 0) 0 0 CP15_DOMAIN_ACCESS_CONTROL; row 5 (only 0) 0 0 CP15_FAULT_STATUS;
   row 5 (only 0) 0 1 CP15_INSTR_FAULT_STATUS; row 6 (only 0) 0 0 CP15_FAULT_ADDRESS; row 6 (only 0) 0 1 CP15_WFAR;
   row 7 (only 0) 0 4 CP15_WAIT_FOR_INTERRUPT; row 7 (only 0) 5 0 CP15_INVALIDATE_INSTR_CACHE;
   row 7 (only 0) 5 1 CP15_INVALIDATE_INSTR_CACHE_USING_MVA;
   row 7 (only 0) 5 2 CP15_INVALIDATE_INSTR_CACHE_USING_INDEX; row 7 (only 0) 5 6 CP15_FLUSH_BRANCH_TARGET_CACHE;
   row 7 (only 0) 5 7 CP15_FLUSH_BRANCH_TARGET_CACHE_ENTRY; row 7 (only 0) 6 0 CP15_INVALIDATE_DATA_CACHE;
   row 7 (only 0) 6 1 CP15_INVALIDATE_DATA_CACHE_LINE_USING_MVA;
   row 7 (only 0) 6 2 CP15_INVALIDATE_DATA_CACHE_LINE_USING_INDEX;
   row 7 (only 0) 7 0 CP15_INVALIDATE_DATA_AND_INSTR_CACHE; row 7 (only 0) 10 0 CP15_CLEAN_DATA_CACHE;
   row 7 (only 0) 10 1 CP15_CLEAN_DATA_CACHE_LINE_USING_MVA;
   row 7 (only 0) 10 2 CP15_CLEAN_DATA_CACHE_LINE_USING_INDEX;
   row 7 (only 0) 14 0 CP15_CLEAN_AND_INVALIDATE_DATA_CACHE;
   row 7 (only 0) 14 1 CP15_CLEAN_AND_INVALIDATE_DATA_CACHE_LINE_USING_MVA;
   row 7 (only 0) 14 2 CP15_CLEAN_AND_INVALIDATE_DATA_CACHE_LINE_USING_INDEX;
   row 8 (only 0) 5 0 CP15_INVALIDATE_ITLB; row 8 (only 0) 5 1 CP15_INVALIDATE_ITLB_SINGLE_ENTRY;
   row 8 (only 0) 5 2 CP15_INVALIDATE_ITLB_ENTRY_ON_ASID_MATCH; row 8 (only 0) 5 3 CP15_INVALIDATE_ITLB_ENTRY_ON_MVA;
   row 8 (only 0) 6 0 CP15_INVALIDATE_DTLB; row 8 (only 0) 6 1 CP15_INVALIDATE_DTLB_SINGLE_ENTRY;
   row 8 (only 0) 6 2 CP15_INVALIDATE_DTLB_ENTRY_ON_ASID_MATCH; row 8 (only 0) 6 3 CP15_INVALIDATE_DTLB_ENTRY_ON_MVA;
   row 8 (only 0) 7 0 CP15_INVALIDATE_UTLB; row 8 (only 0) 7 1 CP15_INVALIDATE_UTLB_SINGLE_ENTRY;
   row 8 (only 0) 7 2 CP15_INVALIDATE_UTLB_ENTRY_ON_ASID_MATCH; row 8 (only 0) 7 3 CP15_INVALIDATE_UTLB_ENTRY_ON_MVA;
   row 9 (only 0) 0 0 CP15_DATA_CACHE_LOCKDOWN; row 10 (only 0) 0 0 CP15_TLB_LOCKDOWN;
   row 10 (only 0) 2 0 CP15_PRIMARY_REGION_REMAP; row 10 (only 0) 2 1 CP15_NORMAL_REGION_REMAP;
   row 13 (only 0) 0 0 CP15_PID; row 13 (only 0) 0 1 CP15_CONTEXT_ID; row 13 (only 0) 0 3 CP15_THREAD_URO;
   row 13 (only 0) 0 4 CP15_THREAD_PRW; row 15 (only 0) 12 0 CP15_PERFORMANCE_MONITOR_CONTROL;
   row 15 (only 0) 12 1 CP15_CYCLE_COUNTER; row 15 (only 0) 12 2 CP15_COUNT_0; row 15 (only 0) 12 3 CP15_COUNT_1;
   row 15 (only 5) 4 2 CP15_READ_MAIN_TLB_LOCKDOWN_ENTRY; row 15 (only 5) 4 4 CP15_WRITE_MAIN_TLB_LOCKDOWN_ENTRY;
   row 15 (only 5) 5 2 CP15_MAIN_TLB_LOCKDOWN_VIRT_ADDRESS; row 15 (only 5) 6 2 CP15_MAIN_TLB_LOCKDOWN_PHYS_ADDRESS;
   row 15 (only 5) 7 2 CP15_MAIN_TLB_LOCKDOWN_ATTRIBUTE; row 15 (only 7) 1 0 CP15_TLB_DEBUG_CONTROL].
Definition write_all : list row_t :=
  [row 7 (only 0) 5 4 CP15_FLUSH_PREFETCH_BUFFER; row 7 (only 0) 10 4 CP15_DATA_SYNC_BARRIER;
   row 7 (only 0) 10 5 CP15_DATA_MEMORY_BARRIER; row 13 (only 0) 0 2 CP15_THREAD_UPRW].
Definition write_selected (rows : list row_t) (value crn opcode_1 crm opcode_2 : Z) s : cpu M :=
  match select rows crn opcode_1 crm opcode_2 with Some r => put_cp15 r value s | None => s end.
Definition WriteCP15Register (value crn opcode_1 crm opcode_2 : Z) s : cpu M :=
  write_selected write_all value crn opcode_1 crm opcode_2
    (if InAPrivilegedMode s then write_selected write_privileged value crn opcode_1 crm opcode_2 s else s).

(** ** Reset *)

(** [VFPInit]: FPSID, FPSCR, FPEXC, FPINST, FPINST2, MVFR0, MVFR1. *)
Definition VFPInit s : cpu M := set_VFP [0x410120B4; 0; 0; 0xEE000A00; 0; 0x11111111; 0] s.

Definition Reset s : cpu M :=
  let s := VFPInit s in
  let s := set_Reg (put 15 0 (put 13 0x10000000 (Reg s))) s in
  let s := set_Bank SVCBANK (set_Mode SVC32MODE (set_Cpsr (Z.lor INTBITS SVC32MODE) s)) in
  set_NirqSig 1 (ResetMPCoreCP15Registers s).

(** The constructor: arrays are zero, the rest of [initial] is what the memory held. *)
Definition ARMul_State (initial : cpu M) (initial_mode : Z) : cpu M :=
  let zero n := replicate n 0 in
  let s := set_Reg (zero 16%nat) (set_Reg_usr (zero 2%nat) (set_Reg_svc (zero 2%nat) (set_Reg_abort (zero 2%nat) (set_Reg_undef (zero 2%nat)
    (set_Reg_irq (zero 2%nat) (set_Reg_firq (zero 7%nat) (set_Spsr (zero 7%nat) (set_CP15 (fun _ => 0) (set_VFP (zero 7%nat)
    (set_ExtReg (zero 64%nat) initial)))))))))) in
  ChangePrivilegeMode initial_mode (Reset s).

(** ** Memory in the byte order of the mode *)

Definition swap16 (x : Z) : Z := Z.lor (Z.shiftr x 8) (u16 (Z.shiftl x 8)).
Definition swap32 (x : Z) : Z :=
  Z.lor (Z.lor (Z.shiftr x 24) (Z.land (Z.shiftr x 8) 0xFF00)) (Z.lor (Z.land (u32 (Z.shiftl x 8)) 0xFF0000) (u32 (Z.shiftl x 24))).
Definition swap64 (x : Z) : Z := Z.lor (Z.shiftl (swap32 (u32 x)) 32) (swap32 (Z.shiftr x 32)).
Definition swap (n x : Z) : Z := if n =? 2 then swap16 x else if n =? 4 then swap32 x else if n =? 8 then swap64 x else x.

(** [ReadMemory8] to [ReadMemory64] and [WriteMemory8] to [WriteMemory64], [n] bytes. *)
Definition ReadMemory (n address : Z) : arm Z := fun s =>
  '(data, m) ← bus_read n address (memory s);
  Done (if InBigEndianMode s then swap n data else data, set_memory m s).
Definition WriteMemory (n address data : Z) : arm unit := fun s =>
  m ← bus_write n address (if InBigEndianMode s then swap n data else data) (memory s);
  Done (tt, set_memory m s).

(** ** The exclusive monitor *)

Definition IsExclusiveMemoryAccess (address : Z) s : bool := exclusive_state s && (exclusive_tag s =? Z.land address RESERVATION_GRANULE_MASK).
Definition SetExclusiveMemoryAddress (address : Z) s : cpu M := set_exclusive_state true (set_exclusive_tag (Z.land address RESERVATION_GRANULE_MASK) s).
Definition UnsetExclusiveMemoryAddress s : cpu M := set_exclusive_state false (set_exclusive_tag 0xFFFFFFFF s).

(** ** Reading the program counter (arm_dyncom_run.h) *)

Definition CHECK_READ_REG15_WA (Rn : Z) : arm Z :=
  if Rn =? 15 then pc ← get_reg 15; n ← read GetInstructionSize; mret (u32 (Z.land pc (not32 3) + n * 2)) else get_reg Rn.
Definition CHECK_READ_REG15 (Rn : Z) : arm Z :=
  if Rn =? 15 then pc ← get_reg 15; n ← read GetInstructionSize; mret (u32 (Z.land pc (not32 1) + n * 2)) else get_reg Rn.

(** ** Flags and the status register *)

Definition UPDATE_NFLAG (dst : Z) s : cpu M := set_NFlag (BIT dst 31) s.
Definition UPDATE_ZFLAG (dst : Z) s : cpu M := set_ZFlag (if dst =? 0 then 1 else 0) s.
Definition UPDATE_CFLAG_WITH_SC s : cpu M := set_CFlag (shifter_carry_out s) s.
Definition SAVE_NZCVT s : cpu M :=
  set_Cpsr (Z.lor (Z.lor (Z.lor (Z.lor (Z.lor (Z.land (Cpsr s) 0x0fffffdf) (u32 (Z.shiftl (NFlag s) 31))) (u32 (Z.shiftl (ZFlag s) 30)))
    (u32 (Z.shiftl (CFlag s) 29))) (u32 (Z.shiftl (VFlag s) 28))) (u32 (Z.shiftl (TFlag s) 5))) s.
Definition LOAD_NZCVT s : cpu M :=
  set_TFlag (Z.land (Z.shiftr (Cpsr s) 5) 1) (set_VFlag (Z.land (Z.shiftr (Cpsr s) 28) 1) (set_CFlag (Z.land (Z.shiftr (Cpsr s) 29) 1)
    (set_ZFlag (Z.land (Z.shiftr (Cpsr s) 30) 1) (set_NFlag (Z.shiftr (Cpsr s) 31) s)))).

(** ** Contexts of threads (dyncom/arm_dyncom.cpp) *)

Record thread_context := mk_thread_context { cpu_registers : list Z; cpsr : Z; fpu_registers : list Z; fpscr : Z; fpexc : Z }.
Definition VFP_FPSCR : nat := 1.
Definition VFP_FPEXC : nat := 2.
Definition SaveContext s : thread_context := mk_thread_context (Reg s) (Cpsr s) (ExtReg s) (VFP s !!! VFP_FPSCR) (VFP s !!! VFP_FPEXC).
Definition LoadContext (c : thread_context) s : cpu M :=
  set_VFP (<[VFP_FPEXC := fpexc c]> (<[VFP_FPSCR := fpscr c]> (VFP s))) (set_ExtReg (fpu_registers c) (set_Cpsr (cpsr c) (set_Reg (cpu_registers c) s))).

End Operations.
End ArmS.
