(* ===== verification/ArmOperands.v ===== *)
(** * Operands of ARM instructions

    Conditions, the shifter operand of data processing and the addressing modes of
    loads and stores (core/arm/dyncom/arm_dyncom_interpreter.cpp). *)
From S2P Require Import Prelude ArmSupport ArmState.

Module ArmOp.
Import Arm ArmS.

Section Operands.
Context {M : Type} `{Bus M}.
Implicit Types s : cpu M.
#[local] Abbreviation arm := (@ArmS.arm M).

(** ** Conditions *)

Definition CondPassed (cond : Z) s : bool :=
  let n_flag := negb (NFlag s =? 0) in
  let z_flag := negb (ZFlag s =? 0) in
  let c_flag := negb (CFlag s =? 0) in
  let v_flag := negb (VFlag s =? 0) in
  match cond with
  | 0 => z_flag
  | 1 => negb z_flag
  | 2 => c_flag
  | 3 => negb c_flag
  | 4 => n_flag
  | 5 => negb n_flag
  | 6 => v_flag
  | 7 => negb v_flag
  | 8 => c_flag && negb z_flag
  | 9 => negb c_flag || z_flag
  | 10 => eqb n_flag v_flag
  | 11 => negb (eqb n_flag v_flag)
  | 12 => negb z_flag && eqb n_flag v_flag
  | 13 => z_flag || negb (eqb n_flag v_flag)
  | 14 | 15 => true
  | _ => false
  end.

(** ** Shifter operands

    Each returns the operand and sets [shifter_carry_out]. *)

Definition operand (v carry : Z) : arm Z := _ ← modify (set_shifter_carry_out carry); mret v.
Definition RM (sht_oper : Z) : arm Z := CHECK_READ_REG15 (BITS sht_oper 0 3).
Definition RS (sht_oper : Z) : arm Z := CHECK_READ_REG15 (BITS sht_oper 8 11).
Definition carry_flag : arm Z := read CFlag.

Definition DPO_Immediate (sht_oper : Z) : arm Z :=
  let immed_8 := BITS sht_oper 0 7 in
  let rotate_imm := BITS sht_oper 8 11 in
  let shifter_operand := ROTATE_RIGHT_32 immed_8 (rotate_imm * 2) in
  c ← carry_flag;
  operand shifter_operand (if rotate_imm =? 0 then c else BIT shifter_operand 31).

Definition DPO_Register (sht_oper : Z) : arm Z := rm ← RM sht_oper; c ← carry_flag; operand rm c.

Definition DPO_LogicalShiftLeftByImmediate (sht_oper : Z) : arm Z :=
  let shift_imm := BITS sht_oper 7 11 in
  rm ← RM sht_oper; c ← carry_flag;
  if shift_imm =? 0 then operand rm c else operand (u32 (Z.shiftl rm shift_imm)) (BIT rm (32 - shift_imm)).

Definition DPO_LogicalShiftLeftByRegister (sht_oper : Z) : arm Z :=
  rm ← RM sht_oper; rs ← RS sht_oper; c ← carry_flag;
  let n := BITS rs 0 7 in
  if n =? 0 then operand rm c
  else if n <? 32 then operand (u32 (Z.shiftl rm n)) (BIT rm (32 - n))
  else if n =? 32 then operand 0 (BIT rm 0)
  else operand 0 0.

Definition DPO_LogicalShiftRightByImmediate (sht_oper : Z) : arm Z :=
  rm ← RM sht_oper;
  let shift_imm := BITS sht_oper 7 11 in
  if shift_imm =? 0 then operand 0 (BIT rm 31) else operand (Z.shiftr rm shift_imm) (BIT rm (shift_imm - 1)).

Definition DPO_LogicalShiftRightByRegister (sht_oper : Z) : arm Z :=
  rs ← RS sht_oper; rm ← RM sht_oper; c ← carry_flag;
  let n := BITS rs 0 7 in
  if n =? 0 then operand rm c
  else if n <? 32 then operand (Z.shiftr rm n) (BIT rm (n - 1))
  else if n =? 32 then operand 0 (BIT rm 31)
  else operand 0 0.

Definition DPO_ArithmeticShiftRightByImmediate (sht_oper : Z) : arm Z :=
  rm ← RM sht_oper;
  let shift_imm := BITS sht_oper 7 11 in
  if shift_imm =? 0 then operand (if BIT rm 31 =? 0 then 0 else 0xFFFFFFFF) (BIT rm 31)
  else operand (u32 (Z.shiftr (s32 rm) shift_imm)) (BIT rm (shift_imm - 1)).

Definition DPO_ArithmeticShiftRightByRegister (sht_oper : Z) : arm Z :=
  rs ← RS sht_oper; rm ← RM sht_oper; c ← carry_flag;
  let n := BITS rs 0 7 in
  if n =? 0 then operand rm c
  else if n <? 32 then operand (u32 (Z.shiftr (s32 rm) n)) (BIT rm (n - 1))
  else operand (if BIT rm 31 =? 0 then 0 else 0xffffffff) (BIT rm 31).

Definition DPO_RotateRightByImmediate (sht_oper : Z) : arm Z :=
  rm ← RM sht_oper; c ← carry_flag;
  let shift_imm := BITS sht_oper 7 11 in
  if shift_imm =? 0 then operand (Z.lor (u32 (Z.shiftl c 31)) (Z.shiftr rm 1)) (BIT rm 0)
  else operand (ROTATE_RIGHT_32 rm shift_imm) (BIT rm (shift_imm - 1)).

Definition DPO_RotateRightByRegister (sht_oper : Z) : arm Z :=
  rm ← RM sht_oper; rs ← RS sht_oper; c ← carry_flag;
  if BITS rs 0 7 =? 0 then operand rm c
  else if BITS rs 0 4 =? 0 then operand rm (BIT rm 31)
  else operand (ROTATE_RIGHT_32 rm (BITS rs 0 4)) (BIT rm (BITS rs 0 4 - 1)).

(** The function [GetShifterOp] returns. *)
Inductive shtop :=
| Immediate | Register | LogicalShiftLeftByImmediate | LogicalShiftLeftByRegister | LogicalShiftRightByImmediate
| LogicalShiftRightByRegister | ArithmeticShiftRightByImmediate | ArithmeticShiftRightByRegister
| RotateRightByImmediate | RotateRightByRegister.

Definition GetShifterOp (inst : Z) : option shtop :=
  if bit inst 25 then Some Immediate
  else if BITS inst 4 11 =? 0 then Some Register
  else if BITS inst 4 6 =? 0 then Some LogicalShiftLeftByImmediate
  else if BITS inst 4 7 =? 1 then Some LogicalShiftLeftByRegister
  else if BITS inst 4 6 =? 2 then Some LogicalShiftRightByImmediate
  else if BITS inst 4 7 =? 3 then Some LogicalShiftRightByRegister
  else if BITS inst 4 6 =? 4 then Some ArithmeticShiftRightByImmediate
  else if BITS inst 4 7 =? 5 then Some ArithmeticShiftRightByRegister
  else if BITS inst 4 6 =? 6 then Some RotateRightByImmediate
  else if BITS inst 4 7 =? 7 then Some RotateRightByRegister
  else None.

(** [SHIFTER_OPERAND]: the call through the pointer. *)
Definition shifter (f : option shtop) (sht_oper : Z) : arm Z :=
  match f with
  | None => lift (Stop FNullDeref)
  | Some Immediate => DPO_Immediate sht_oper
  | Some Register => DPO_Register sht_oper
  | Some LogicalShiftLeftByImmediate => DPO_LogicalShiftLeftByImmediate sht_oper
  | Some LogicalShiftLeftByRegister => DPO_LogicalShiftLeftByRegister sht_oper
  | Some LogicalShiftRightByImmediate => DPO_LogicalShiftRightByImmediate sht_oper
  | Some LogicalShiftRightByRegister => DPO_LogicalShiftRightByRegister sht_oper
  | Some ArithmeticShiftRightByImmediate => DPO_ArithmeticShiftRightByImmediate sht_oper
  | Some ArithmeticShiftRightByRegister => DPO_ArithmeticShiftRightByRegister sht_oper
  | Some RotateRightByImmediate => DPO_RotateRightByImmediate sht_oper
  | Some RotateRightByRegister => DPO_RotateRightByRegister sht_oper
  end.

(** ** Addresses

    Each returns the address and may write the base register back. *)

Definition W_BIT (inst : Z) : bool := bit inst 21.
Definition U_BIT (inst : Z) : bool := bit inst 23.
Definition OFFSET_12 (inst : Z) : Z := BITS inst 0 11.
Definition Rn_of (inst : Z) : Z := BITS inst 16 19.
Definition Rm_of (inst : Z) : Z := BITS inst 0 3.
Definition up_down (inst base offset : Z) : Z := if U_BIT inst then u32 (base + offset) else u32 (base - offset).
(** [cpu->Reg[i] += offset] or [-=] *)
Definition add_reg (inst i offset : Z) : arm unit := v ← get_reg i; set_reg i (up_down inst v offset).
Definition passed (inst : Z) : arm bool := read (CondPassed (BITS inst 28 31)).
Definition when (b : bool) (m : arm unit) : arm unit := if b then m else mret tt.

Definition LnSWoUB_ImmediateOffset (inst : Z) : arm Z :=
  rn ← CHECK_READ_REG15_WA (Rn_of inst); mret (up_down inst rn (OFFSET_12 inst)).

Definition LnSWoUB_RegisterOffset (inst : Z) : arm Z :=
  rn ← CHECK_READ_REG15_WA (Rn_of inst); rm ← CHECK_READ_REG15_WA (Rm_of inst); mret (up_down inst rn rm).

Definition LnSWoUB_ImmediatePostIndexed (inst : Z) : arm Z :=
  addr ← CHECK_READ_REG15_WA (Rn_of inst); _ ← add_reg inst (Rn_of inst) (OFFSET_12 inst); mret addr.

(** The base register gets the address. *)
Definition write_back (inst addr : Z) : arm Z :=
  p ← passed inst; _ ← when p (set_reg (Rn_of inst) addr); mret addr.

Definition LnSWoUB_ImmediatePreIndexed (inst : Z) : arm Z :=
  rn ← CHECK_READ_REG15_WA (Rn_of inst); write_back inst (up_down inst rn (OFFSET_12 inst)).

Definition LnSWoUB_RegisterPreIndexed (inst : Z) : arm Z :=
  rn ← CHECK_READ_REG15_WA (Rn_of inst); rm ← CHECK_READ_REG15_WA (Rm_of inst); write_back inst (up_down inst rn rm).
Definition MLnS_RegisterPreIndexed (inst : Z) : arm Z :=
  rn ← CHECK_READ_REG15_WA (Rn_of inst); rm ← CHECK_READ_REG15_WA (Rm_of inst); write_back inst (up_down inst rn rm).

(** The shifted index register. *)
Definition scaled_index (inst rm c : Z) : Z :=
  let shift_imm := BITS inst 7 11 in
  match BITS inst 5 6 with
  | 0 => u32 (Z.shiftl rm shift_imm)
  | 1 => if shift_imm =? 0 then 0 else Z.shiftr rm shift_imm
  | 2 => if shift_imm =? 0 then (if BIT rm 31 =? 1 then 0xFFFFFFFF else 0) else u32 (Z.shiftr (s32 rm) shift_imm)
  | 3 => if shift_imm =? 0 then Z.lor (u32 (Z.shiftl c 31)) (Z.shiftr rm 1) else ROTATE_RIGHT_32 rm shift_imm
  | _ => 0
  end.

Definition LnSWoUB_ScaledRegisterPreIndexed (inst : Z) : arm Z :=
  rm ← CHECK_READ_REG15_WA (Rm_of inst); rn ← CHECK_READ_REG15_WA (Rn_of inst); c ← carry_flag;
  write_back inst (up_down inst rn (scaled_index inst rm c)).

Definition LnSWoUB_ScaledRegisterPostIndexed (inst : Z) : arm Z :=
  addr ← CHECK_READ_REG15_WA (Rn_of inst); rm ← CHECK_READ_REG15_WA (Rm_of inst); c ← carry_flag;
  p ← passed inst; _ ← when p (add_reg inst (Rn_of inst) (scaled_index inst rm c)); mret addr.

Definition LnSWoUB_RegisterPostIndexed (inst : Z) : arm Z :=
  rm ← CHECK_READ_REG15_WA (Rm_of inst); addr ← CHECK_READ_REG15_WA (Rn_of inst);
  p ← passed inst; _ ← when p (add_reg inst (Rn_of inst) rm); mret addr.
Definition MLnS_RegisterPostIndexed (inst : Z) : arm Z :=
  rm ← CHECK_READ_REG15_WA (Rm_of inst); addr ← CHECK_READ_REG15_WA (Rn_of inst);
  p ← passed inst; _ ← when p (add_reg inst (Rn_of inst) rm); mret addr.

Definition LnSWoUB_ScaledRegisterOffset (inst : Z) : arm Z :=
  rm ← CHECK_READ_REG15_WA (Rm_of inst); rn ← CHECK_READ_REG15_WA (Rn_of inst); c ← carry_flag;
  mret (up_down inst rn (scaled_index inst rm c)).

Definition offset_8 (inst : Z) : Z := Z.lor (Z.shiftl (BITS inst 8 11) 4) (BITS inst 0 3).

Definition MLnS_ImmediateOffset (inst : Z) : arm Z :=
  rn ← CHECK_READ_REG15_WA (Rn_of inst); mret (up_down inst rn (offset_8 inst)).

Definition MLnS_RegisterOffset (inst : Z) : arm Z :=
  rn ← CHECK_READ_REG15_WA (Rn_of inst); rm ← CHECK_READ_REG15_WA (Rm_of inst); mret (up_down inst rn rm).

Definition MLnS_ImmediatePreIndexed (inst : Z) : arm Z :=
  rn ← CHECK_READ_REG15_WA (Rn_of inst); write_back inst (up_down inst rn (offset_8 inst)).

Definition MLnS_ImmediatePostIndexed (inst : Z) : arm Z :=
  rn ← CHECK_READ_REG15_WA (Rn_of inst);
  p ← passed inst; _ ← when p (set_reg (Rn_of inst) (up_down inst rn (offset_8 inst))); mret rn.

(** The loop that counts the registers of the list. *)
Fixpoint count_bits (fuel : nat) (i : Z) : Z :=
  match fuel with
  | O => 0
  | S fuel => if i =? 0 then 0 else (if bit i 0 then 1 else 0) + count_bits fuel (Z.shiftr i 1)
  end.
Definition count (inst : Z) : Z := count_bits 16 (BITS inst 0 15).
(** The base register moves by the size of the list. *)
Definition move_base (inst delta : Z) : arm unit :=
  p ← passed inst; when (p && W_BIT inst) (v ← get_reg (Rn_of inst); set_reg (Rn_of inst) (u32 (v + delta))).

Definition LdnStM_DecrementBefore (inst : Z) : arm Z :=
  rn ← CHECK_READ_REG15_WA (Rn_of inst); _ ← move_base inst (- (count inst * 4)); mret (u32 (rn - count inst * 4)).
Definition LdnStM_IncrementBefore (inst : Z) : arm Z :=
  rn ← CHECK_READ_REG15_WA (Rn_of inst); _ ← move_base inst (count inst * 4); mret (u32 (rn + 4)).
Definition LdnStM_IncrementAfter (inst : Z) : arm Z :=
  rn ← CHECK_READ_REG15_WA (Rn_of inst); _ ← move_base inst (count inst * 4); mret rn.
Definition LdnStM_DecrementAfter (inst : Z) : arm Z :=
  rn ← CHECK_READ_REG15_WA (Rn_of inst); _ ← move_base inst (- (count inst * 4)); mret (u32 (rn - count inst * 4 + 4)).

(** The function [GetAddressingOp] returns. *)
Inductive addressing :=
| ImmediateOffset | RegisterOffset | ScaledRegisterOffset | ImmediatePreIndexed | RegisterPreIndexed | ScaledRegisterPreIndexed
| ImmediatePostIndexed | RegisterPostIndexed | ScaledRegisterPostIndexed
| MImmediateOffset | MRegisterOffset | MImmediatePreIndexed | MRegisterPreIndexed | MImmediatePostIndexed | MRegisterPostIndexed
| IncrementAfter | IncrementBefore | DecrementAfter | DecrementBefore.

Definition GetAddressingOp (inst : Z) : option addressing :=
  if (BITS inst 24 27 =? 5) && (BIT inst 21 =? 0) then Some ImmediateOffset
  else if (BITS inst 24 27 =? 7) && (BIT inst 21 =? 0) && (BITS inst 4 11 =? 0) then Some RegisterOffset
  else if (BITS inst 24 27 =? 7) && (BIT inst 21 =? 0) && (BIT inst 4 =? 0) then Some ScaledRegisterOffset
  else if (BITS inst 24 27 =? 5) && (BIT inst 21 =? 1) then Some ImmediatePreIndexed
  else if (BITS inst 24 27 =? 7) && (BIT inst 21 =? 1) && (BITS inst 4 11 =? 0) then Some RegisterPreIndexed
  else if (BITS inst 24 27 =? 7) && (BIT inst 21 =? 1) && (BIT inst 4 =? 0) then Some ScaledRegisterPreIndexed
  else if (BITS inst 24 27 =? 4) && (BIT inst 21 =? 0) then Some ImmediatePostIndexed
  else if (BITS inst 24 27 =? 6) && (BIT inst 21 =? 0) && (BITS inst 4 11 =? 0) then Some RegisterPostIndexed
  else if (BITS inst 24 27 =? 6) && (BIT inst 21 =? 0) && (BIT inst 4 =? 0) then Some ScaledRegisterPostIndexed
  else if (BITS inst 24 27 =? 1) && (BITS inst 21 22 =? 2) && (BIT inst 7 =? 1) && (BIT inst 4 =? 1) then Some MImmediateOffset
  else if (BITS inst 24 27 =? 1) && (BITS inst 21 22 =? 0) && (BIT inst 7 =? 1) && (BIT inst 4 =? 1) then Some MRegisterOffset
  else if (BITS inst 24 27 =? 1) && (BITS inst 21 22 =? 3) && (BIT inst 7 =? 1) && (BIT inst 4 =? 1) then Some MImmediatePreIndexed
  else if (BITS inst 24 27 =? 1) && (BITS inst 21 22 =? 1) && (BIT inst 7 =? 1) && (BIT inst 4 =? 1) then Some MRegisterPreIndexed
  else if (BITS inst 24 27 =? 0) && (BITS inst 21 22 =? 2) && (BIT inst 7 =? 1) && (BIT inst 4 =? 1) then Some MImmediatePostIndexed
  else if (BITS inst 24 27 =? 0) && (BITS inst 21 22 =? 0) && (BIT inst 7 =? 1) && (BIT inst 4 =? 1) then Some MRegisterPostIndexed
  else if BITS inst 23 27 =? 0x11 then Some IncrementAfter
  else if BITS inst 23 27 =? 0x13 then Some IncrementBefore
  else if BITS inst 23 27 =? 0x10 then Some DecrementAfter
  else if BITS inst 23 27 =? 0x12 then Some DecrementBefore
  else None.

Definition GetAddressingOpLoadStoreT (inst : Z) : option addressing :=
  if BITS inst 25 27 =? 2 then Some ImmediatePostIndexed
  else if BITS inst 25 27 =? 3 then Some ScaledRegisterPostIndexed
  else None.

(** [inst_cream->get_addr(cpu, inst_cream->inst, addr)] *)
Definition get_addr (f : option addressing) (inst : Z) : arm Z :=
  match f with
  | None => lift (Stop FNullDeref)
  | Some ImmediateOffset => LnSWoUB_ImmediateOffset inst
  | Some RegisterOffset => LnSWoUB_RegisterOffset inst
  | Some ScaledRegisterOffset => LnSWoUB_ScaledRegisterOffset inst
  | Some ImmediatePreIndexed => LnSWoUB_ImmediatePreIndexed inst
  | Some RegisterPreIndexed => LnSWoUB_RegisterPreIndexed inst
  | Some ScaledRegisterPreIndexed => LnSWoUB_ScaledRegisterPreIndexed inst
  | Some ImmediatePostIndexed => LnSWoUB_ImmediatePostIndexed inst
  | Some RegisterPostIndexed => LnSWoUB_RegisterPostIndexed inst
  | Some ScaledRegisterPostIndexed => LnSWoUB_ScaledRegisterPostIndexed inst
  | Some MImmediateOffset => MLnS_ImmediateOffset inst
  | Some MRegisterOffset => MLnS_RegisterOffset inst
  | Some MImmediatePreIndexed => MLnS_ImmediatePreIndexed inst
  | Some MRegisterPreIndexed => MLnS_RegisterPreIndexed inst
  | Some MImmediatePostIndexed => MLnS_ImmediatePostIndexed inst
  | Some MRegisterPostIndexed => MLnS_RegisterPostIndexed inst
  | Some IncrementAfter => LdnStM_IncrementAfter inst
  | Some IncrementBefore => LdnStM_IncrementBefore inst
  | Some DecrementAfter => LdnStM_DecrementAfter inst
  | Some DecrementBefore => LdnStM_DecrementBefore inst
  end.

End Operands.
End ArmOp.
