(* ===== verification/ArmDecode.v ===== *)
(** * Decoding of ARM instructions

    The table of encodings and [DecodeARMInstruction] (core/arm/dyncom/arm_dyncom_dec.cpp).  The tables of
    translators (arm_dyncom_trans.cpp) and of labels ([InstLabel] in arm_dyncom_interpreter.cpp) list the
    same names in the same order, and behind them five Thumb branches: an index of these tables is an [op]. *)
From S2P Require Import Prelude ArmSupport.

Module ArmD.
Import Arm.

(** The names of the tables. *)
Inductive op :=
| i_vmla | i_vmls | i_vnmla | i_vnmls | i_vnmul | i_vmul | i_vadd | i_vsub | i_vdiv | i_vmovi | i_vmovr | i_vabs
| i_vneg | i_vsqrt | i_vcmp | i_vcmp2 | i_vcvtbds | i_vcvtbff | i_vcvtbfi | i_vmovbrs | i_vmsr | i_vmovbrc | i_vmrs
| i_vmovbcr | i_vmovbrrss | i_vmovbrrd | i_vstr | i_vpush | i_vstm | i_vpop | i_vldr | i_vldm | i_srs | i_rfe
| i_bkpt | i_blx | i_cps | i_pld | i_setend | i_clrex | i_rev16 | i_usad8 | i_sxtb | i_uxtb | i_sxth | i_sxtb16
| i_uxth | i_uxtb16 | i_cpy | i_uxtab | i_ssub8 | i_shsub8 | i_ssubaddx | i_strex | i_strexb | i_swp | i_swpb
| i_ssub16 | i_ssat16 | i_shsubaddx | i_qsubaddx | i_shaddsubx | i_shadd8 | i_shadd16 | i_sel | i_saddsubx | i_sadd8
| i_sadd16 | i_shsub16 | i_umaal | i_uxtab16 | i_usubaddx | i_usub8 | i_usub16 | i_usat16 | i_usada8 | i_uqsubaddx
| i_uqsub8 | i_uqsub16 | i_uqaddsubx | i_uqadd8 | i_uqadd16 | i_sxtab | i_uhsubaddx | i_uhsub8 | i_uhsub16
| i_uhaddsubx | i_uhadd8 | i_uhadd16 | i_uaddsubx | i_uadd8 | i_uadd16 | i_sxtah | i_sxtab16 | i_qadd8 | i_bxj
| i_clz | i_uxtah | i_bx | i_rev | i_revsh | i_qadd | i_qadd16 | i_qaddsubx | i_ldrex | i_qdadd | i_qdsub | i_qsub
| i_ldrexb | i_qsub8 | i_qsub16 | i_smuad | i_smmul | i_smusd | i_smlsd | i_smlsld | i_smmla | i_smmls | i_smlald
| i_smlad | i_smlaw | i_smulw | i_pkhtb | i_pkhbt | i_smul | i_smlalxy | i_smla | i_mcrr | i_mrrc | i_cmp | i_tst
| i_teq | i_cmn | i_smull | i_umull | i_umlal | i_smlal | i_mul | i_mla | i_ssat | i_usat | i_mrs | i_msr | i_and
| i_bic | i_ldm | i_eor | i_add | i_rsb | i_rsc | i_sbc | i_adc | i_sub | i_orr | i_mvn | i_mov | i_stm | i_ldrsh
| i_ldrsb | i_strd | i_ldrh | i_strh | i_ldrd | i_strt | i_strbt | i_ldrbt | i_ldrt | i_mrc | i_mcr | i_ldrb | i_strb
| i_ldr | i_ldrcond | i_str | i_cdp | i_stc | i_ldc | i_ldrexd | i_strexd | i_ldrexh | i_strexh | i_nop | i_yield
| i_wfe | i_wfi | i_sev | i_swi | i_bbl | i_b_2_thumb | i_b_cond_thumb | i_bl_1_thumb | i_bl_2_thumb | i_blx_1_thumb.

Definition ARMVFP2 : Z := 9.
Definition ARMVFP3 : Z := 10.
Definition ARMV6K : Z := 11.

(** An encoding: the number of conditions, the version and the conditions: first bit, last bit, value; the
    array has 21 places, those not listed are zero. *)
Record encoding := enc { e_op : op; attribute_value : nat; version : Z; content : list Z }.
Definition at_content (l : list Z) (i : nat) : Z := nth i l 0.

Definition arm_instruction : list encoding :=
  [enc i_vmla 5 ARMVFP2 [23; 27; 0x1c; 20; 21; 0; 9; 11; 5; 6; 6; 0; 4; 4; 0];
   enc i_vmls 5 ARMVFP2 [23; 27; 0x1c; 20; 21; 0; 9; 11; 5; 6; 6; 1; 4; 4; 0];
   enc i_vnmla 5 ARMVFP2 [23; 27; 0x1c; 20; 21; 1; 9; 11; 5; 6; 6; 1; 4; 4; 0];
   enc i_vnmls 5 ARMVFP2 [23; 27; 0x1c; 20; 21; 1; 9; 11; 5; 6; 6; 0; 4; 4; 0];
   enc i_vnmul 5 ARMVFP2 [23; 27; 0x1c; 20; 21; 2; 9; 11; 5; 6; 6; 1; 4; 4; 0];
   enc i_vmul 5 ARMVFP2 [23; 27; 0x1c; 20; 21; 2; 9; 11; 5; 6; 6; 0; 4; 4; 0];
   enc i_vadd 5 ARMVFP2 [23; 27; 0x1c; 20; 21; 3; 9; 11; 5; 6; 6; 0; 4; 4; 0];
   enc i_vsub 5 ARMVFP2 [23; 27; 0x1c; 20; 21; 3; 9; 11; 5; 6; 6; 1; 4; 4; 0];
   enc i_vdiv 5 ARMVFP2 [23; 27; 0x1d; 20; 21; 0; 9; 11; 5; 6; 6; 0; 4; 4; 0];
   enc i_vmovi 4 ARMVFP3 [23; 27; 0x1d; 20; 21; 3; 9; 11; 5; 4; 7; 0];
   enc i_vmovr 5 ARMVFP3 [23; 27; 0x1d; 16; 21; 0x30; 9; 11; 5; 6; 7; 1; 4; 4; 0];
   enc i_vabs 5 ARMVFP2 [23; 27; 0x1d; 16; 21; 0x30; 9; 11; 5; 6; 7; 3; 4; 4; 0];
   enc i_vneg 5 ARMVFP2 [23; 27; 0x1d; 17; 21; 0x18; 9; 11; 5; 6; 7; 1; 4; 4; 0];
   enc i_vsqrt 5 ARMVFP2 [23; 27; 0x1d; 16; 21; 0x31; 9; 11; 5; 6; 7; 3; 4; 4; 0];
   enc i_vcmp 5 ARMVFP2 [23; 27; 0x1d; 16; 21; 0x34; 9; 11; 5; 6; 6; 1; 4; 4; 0];
   enc i_vcmp2 5 ARMVFP2 [23; 27; 0x1d; 16; 21; 0x35; 9; 11; 5; 0; 6; 0x40];
   enc i_vcvtbds 5 ARMVFP2 [23; 27; 0x1d; 16; 21; 0x37; 9; 11; 5; 6; 7; 3; 4; 4; 0];
   enc i_vcvtbff 6 ARMVFP3 [23; 27; 0x1d; 19; 21; 7; 17; 17; 1; 9; 11; 5; 6; 6; 1];
   enc i_vcvtbfi 5 ARMVFP2 [23; 27; 0x1d; 19; 21; 7; 9; 11; 5; 6; 6; 1; 4; 4; 0];
   enc i_vmovbrs 3 ARMVFP2 [21; 27; 0x70; 8; 11; 0xa; 0; 6; 0x10];
   enc i_vmsr 2 ARMVFP2 [20; 27; 0xee; 0; 11; 0xa10];
   enc i_vmovbrc 4 ARMVFP2 [23; 27; 0x1c; 20; 20; 0; 8; 11; 0xb; 0; 4; 0x10];
   enc i_vmrs 2 ARMVFP2 [20; 27; 0xef; 0; 11; 0xa10];
   enc i_vmovbcr 4 ARMVFP2 [24; 27; 0xe; 20; 20; 1; 8; 11; 0xb; 0; 4; 0x10];
   enc i_vmovbrrss 3 ARMVFP2 [21; 27; 0x62; 8; 11; 0xa; 4; 4; 1];
   enc i_vmovbrrd 3 ARMVFP2 [21; 27; 0x62; 6; 11; 0x2c; 4; 4; 1];
   enc i_vstr 3 ARMVFP2 [24; 27; 0xd; 20; 21; 0; 9; 11; 5];
   enc i_vpush 3 ARMVFP2 [23; 27; 0x1a; 16; 21; 0x2d; 9; 11; 5];
   enc i_vstm 3 ARMVFP2 [25; 27; 6; 20; 20; 0; 9; 11; 5];
   enc i_vpop 3 ARMVFP2 [23; 27; 0x19; 16; 21; 0x3d; 9; 11; 5];
   enc i_vldr 3 ARMVFP2 [24; 27; 0xd; 20; 21; 1; 9; 11; 5];
   enc i_vldm 3 ARMVFP2 [25; 27; 6; 20; 20; 1; 9; 11; 5];
   enc i_srs 4 6 [25; 31; 0x7c; 22; 22; 1; 16; 20; 0xd; 8; 11; 5];
   enc i_rfe 4 6 [25; 31; 0x7c; 22; 22; 0; 20; 20; 1; 8; 11; 0xa];
   enc i_bkpt 2 3 [20; 27; 0x12; 4; 7; 7];
   enc i_blx 1 3 [25; 31; 0x7d];
   enc i_cps 3 6 [20; 31; 0xf10; 16; 16; 0; 5; 5; 0];
   enc i_pld 4 4 [26; 31; 0x3d; 24; 24; 1; 20; 22; 5; 12; 15; 0xf];
   enc i_setend 2 6 [16; 31; 0xf101; 4; 7; 0];
   enc i_clrex 1 6 [0; 31; 0xf57ff01f];
   enc i_rev16 2 6 [16; 27; 0x6bf; 4; 11; 0xfb];
   enc i_usad8 3 6 [20; 27; 0x78; 12; 15; 0xf; 4; 7; 1];
   enc i_sxtb 2 6 [16; 27; 0x6af; 4; 7; 7];
   enc i_uxtb 2 6 [16; 27; 0x6ef; 4; 7; 7];
   enc i_sxth 2 6 [16; 27; 0x6bf; 4; 7; 7];
   enc i_sxtb16 2 6 [16; 27; 0x68f; 4; 7; 7];
   enc i_uxth 2 6 [16; 27; 0x6ff; 4; 7; 7];
   enc i_uxtb16 2 6 [16; 27; 0x6cf; 4; 7; 7];
   enc i_cpy 2 6 [20; 27; 0x1a; 4; 11; 0];
   enc i_uxtab 2 6 [20; 27; 0x6e; 4; 9; 7];
   enc i_ssub8 2 6 [20; 27; 0x61; 4; 7; 0xf];
   enc i_shsub8 2 6 [20; 27; 0x63; 4; 7; 0xf];
   enc i_ssubaddx 2 6 [20; 27; 0x61; 4; 7; 5];
   enc i_strex 2 6 [20; 27; 0x18; 4; 7; 9];
   enc i_strexb 2 7 [20; 27; 0x1c; 4; 7; 9];
   enc i_swp 2 0 [20; 27; 0x10; 4; 7; 9];
   enc i_swpb 2 0 [20; 27; 0x14; 4; 7; 9];
   enc i_ssub16 2 6 [20; 27; 0x61; 4; 7; 7];
   enc i_ssat16 2 6 [20; 27; 0x6a; 4; 7; 3];
   enc i_shsubaddx 2 6 [20; 27; 0x63; 4; 7; 5];
   enc i_qsubaddx 2 6 [20; 27; 0x62; 4; 7; 5];
   enc i_shaddsubx 2 6 [20; 27; 0x63; 4; 7; 3];
   enc i_shadd8 2 6 [20; 27; 0x63; 4; 7; 9];
   enc i_shadd16 2 6 [20; 27; 0x63; 4; 7; 1];
   enc i_sel 2 6 [20; 27; 0x68; 4; 7; 0xb];
   enc i_saddsubx 2 6 [20; 27; 0x61; 4; 7; 3];
   enc i_sadd8 2 6 [20; 27; 0x61; 4; 7; 9];
   enc i_sadd16 2 6 [20; 27; 0x61; 4; 7; 1];
   enc i_shsub16 2 6 [20; 27; 0x63; 4; 7; 7];
   enc i_umaal 2 6 [20; 27; 4; 4; 7; 9];
   enc i_uxtab16 2 6 [20; 27; 0x6c; 4; 7; 7];
   enc i_usubaddx 2 6 [20; 27; 0x65; 4; 7; 5];
   enc i_usub8 2 6 [20; 27; 0x65; 4; 7; 0xf];
   enc i_usub16 2 6 [20; 27; 0x65; 4; 7; 7];
   enc i_usat16 2 6 [20; 27; 0x6e; 4; 7; 3];
   enc i_usada8 2 6 [20; 27; 0x78; 4; 7; 1];
   enc i_uqsubaddx 2 6 [20; 27; 0x66; 4; 7; 5];
   enc i_uqsub8 2 6 [20; 27; 0x66; 4; 7; 0xf];
   enc i_uqsub16 2 6 [20; 27; 0x66; 4; 7; 7];
   enc i_uqaddsubx 2 6 [20; 27; 0x66; 4; 7; 3];
   enc i_uqadd8 2 6 [20; 27; 0x66; 4; 7; 9];
   enc i_uqadd16 2 6 [20; 27; 0x66; 4; 7; 1];
   enc i_sxtab 2 6 [20; 27; 0x6a; 4; 7; 7];
   enc i_uhsubaddx 2 6 [20; 27; 0x67; 4; 7; 5];
   enc i_uhsub8 2 6 [20; 27; 0x67; 4; 7; 0xf];
   enc i_uhsub16 2 6 [20; 27; 0x67; 4; 7; 7];
   enc i_uhaddsubx 2 6 [20; 27; 0x67; 4; 7; 3];
   enc i_uhadd8 2 6 [20; 27; 0x67; 4; 7; 9];
   enc i_uhadd16 2 6 [20; 27; 0x67; 4; 7; 1];
   enc i_uaddsubx 2 6 [20; 27; 0x65; 4; 7; 3];
   enc i_uadd8 2 6 [20; 27; 0x65; 4; 7; 9];
   enc i_uadd16 2 6 [20; 27; 0x65; 4; 7; 1];
   enc i_sxtah 2 6 [20; 27; 0x6b; 4; 7; 7];
   enc i_sxtab16 2 6 [20; 27; 0x68; 4; 7; 7];
   enc i_qadd8 2 6 [20; 27; 0x62; 4; 7; 9];
   enc i_bxj 2 5 [20; 27; 0x12; 4; 7; 2];
   enc i_clz 2 3 [20; 27; 0x16; 4; 7; 1];
   enc i_uxtah 2 6 [20; 27; 0x6f; 4; 7; 7];
   enc i_bx 2 2 [20; 27; 0x12; 4; 7; 1];
   enc i_rev 2 6 [20; 27; 0x6b; 4; 7; 3];
   enc i_blx 2 3 [20; 27; 0x12; 4; 7; 3];
   enc i_revsh 2 6 [20; 27; 0x6f; 4; 7; 0xb];
   enc i_qadd 2 4 [20; 27; 0x10; 4; 7; 5];
   enc i_qadd16 2 6 [20; 27; 0x62; 4; 7; 1];
   enc i_qaddsubx 2 6 [20; 27; 0x62; 4; 7; 3];
   enc i_ldrex 2 0 [20; 27; 0x19; 4; 7; 9];
   enc i_qdadd 2 4 [20; 27; 0x14; 4; 7; 5];
   enc i_qdsub 2 4 [20; 27; 0x16; 4; 7; 5];
   enc i_qsub 2 4 [20; 27; 0x12; 4; 7; 5];
   enc i_ldrexb 2 7 [20; 27; 0x1d; 4; 7; 9];
   enc i_qsub8 2 6 [20; 27; 0x62; 4; 7; 0xf];
   enc i_qsub16 2 6 [20; 27; 0x62; 4; 7; 7];
   enc i_smuad 4 6 [20; 27; 0x70; 12; 15; 0xf; 6; 7; 0; 4; 4; 1];
   enc i_smmul 4 6 [20; 27; 0x75; 12; 15; 0xf; 6; 7; 0; 4; 4; 1];
   enc i_smusd 4 6 [20; 27; 0x70; 12; 15; 0xf; 6; 7; 1; 4; 4; 1];
   enc i_smlsd 3 6 [20; 27; 0x70; 6; 7; 1; 4; 4; 1];
   enc i_smlsld 3 6 [20; 27; 0x74; 6; 7; 1; 4; 4; 1];
   enc i_smmla 3 6 [20; 27; 0x75; 6; 7; 0; 4; 4; 1];
   enc i_smmls 3 6 [20; 27; 0x75; 6; 7; 3; 4; 4; 1];
   enc i_smlald 3 6 [20; 27; 0x74; 6; 7; 0; 4; 4; 1];
   enc i_smlad 3 6 [20; 27; 0x70; 6; 7; 0; 4; 4; 1];
   enc i_smlaw 3 4 [20; 27; 0x12; 7; 7; 1; 4; 5; 0];
   enc i_smulw 3 4 [20; 27; 0x12; 7; 7; 1; 4; 5; 2];
   enc i_pkhtb 2 6 [20; 27; 0x68; 4; 6; 5];
   enc i_pkhbt 2 6 [20; 27; 0x68; 4; 6; 1];
   enc i_smul 3 4 [20; 27; 0x16; 7; 7; 1; 4; 4; 0];
   enc i_smlalxy 3 4 [20; 27; 0x14; 7; 7; 1; 4; 4; 0];
   enc i_smla 3 4 [20; 27; 0x10; 7; 7; 1; 4; 4; 0];
   enc i_mcrr 1 6 [20; 27; 0xc4];
   enc i_mrrc 1 6 [20; 27; 0xc5];
   enc i_cmp 2 0 [26; 27; 0; 20; 24; 0x15];
   enc i_tst 2 0 [26; 27; 0; 20; 24; 0x11];
   enc i_teq 2 0 [26; 27; 0; 20; 24; 0x13];
   enc i_cmn 2 0 [26; 27; 0; 20; 24; 0x17];
   enc i_smull 2 0 [21; 27; 6; 4; 7; 9];
   enc i_umull 2 0 [21; 27; 4; 4; 7; 9];
   enc i_umlal 2 0 [21; 27; 5; 4; 7; 9];
   enc i_smlal 2 0 [21; 27; 7; 4; 7; 9];
   enc i_mul 2 0 [21; 27; 0; 4; 7; 9];
   enc i_mla 2 0 [21; 27; 1; 4; 7; 9];
   enc i_ssat 2 6 [21; 27; 0x35; 4; 5; 1];
   enc i_usat 2 6 [21; 27; 0x37; 4; 5; 1];
   enc i_mrs 4 0 [23; 27; 2; 20; 21; 0; 16; 19; 0xf; 0; 11; 0];
   enc i_msr 3 0 [23; 27; 2; 20; 21; 2; 4; 7; 0];
   enc i_and 2 0 [26; 27; 0; 21; 24; 0];
   enc i_bic 2 0 [26; 27; 0; 21; 24; 0xe];
   enc i_ldm 3 0 [25; 27; 4; 20; 22; 5; 15; 15; 0];
   enc i_eor 2 0 [26; 27; 0; 21; 24; 1];
   enc i_add 2 0 [26; 27; 0; 21; 24; 4];
   enc i_rsb 2 0 [26; 27; 0; 21; 24; 3];
   enc i_rsc 2 0 [26; 27; 0; 21; 24; 7];
   enc i_sbc 2 0 [26; 27; 0; 21; 24; 6];
   enc i_adc 2 0 [26; 27; 0; 21; 24; 5];
   enc i_sub 2 0 [26; 27; 0; 21; 24; 2];
   enc i_orr 2 0 [26; 27; 0; 21; 24; 0xc];
   enc i_mvn 2 0 [26; 27; 0; 21; 24; 0xf];
   enc i_mov 2 0 [26; 27; 0; 21; 24; 0xd];
   enc i_stm 2 0 [25; 27; 4; 20; 22; 4];
   enc i_ldm 4 0 [25; 27; 4; 22; 22; 1; 20; 20; 1; 15; 15; 1];
   enc i_ldrsh 3 2 [25; 27; 0; 20; 20; 1; 4; 7; 0xf];
   enc i_stm 3 0 [25; 27; 4; 22; 22; 0; 20; 20; 0];
   enc i_ldm 3 0 [25; 27; 4; 22; 22; 0; 20; 20; 1];
   enc i_ldrsb 3 2 [25; 27; 0; 20; 20; 1; 4; 7; 0xd];
   enc i_strd 3 4 [25; 27; 0; 20; 20; 0; 4; 7; 0xf];
   enc i_ldrh 3 0 [25; 27; 0; 20; 20; 1; 4; 7; 0xb];
   enc i_strh 3 0 [25; 27; 0; 20; 20; 0; 4; 7; 0xb];
   enc i_ldrd 3 4 [25; 27; 0; 20; 20; 0; 4; 7; 0xd];
   enc i_strt 3 0 [26; 27; 1; 24; 24; 0; 20; 22; 2];
   enc i_strbt 3 0 [26; 27; 1; 24; 24; 0; 20; 22; 6];
   enc i_ldrbt 3 0 [26; 27; 1; 24; 24; 0; 20; 22; 7];
   enc i_ldrt 3 0 [26; 27; 1; 24; 24; 0; 20; 22; 3];
   enc i_mrc 3 6 [24; 27; 0xe; 20; 20; 1; 4; 4; 1];
   enc i_mcr 3 0 [24; 27; 0xe; 20; 20; 0; 4; 4; 1];
   enc i_msr 3 0 [23; 27; 6; 20; 21; 2; 22; 22; 1];
   enc i_msr 4 0 [23; 27; 6; 20; 21; 2; 22; 22; 0; 16; 19; 4];
   enc i_msr 5 0 [23; 27; 6; 20; 21; 2; 22; 22; 0; 19; 19; 1; 16; 17; 0];
   enc i_msr 4 0 [23; 27; 6; 20; 21; 2; 22; 22; 0; 16; 17; 1];
   enc i_msr 4 0 [23; 27; 6; 20; 21; 2; 22; 22; 0; 17; 17; 1];
   enc i_ldrb 3 0 [26; 27; 1; 22; 22; 1; 20; 20; 1];
   enc i_strb 3 0 [26; 27; 1; 22; 22; 1; 20; 20; 0];
   enc i_ldr 4 0 [28; 31; 0xe; 26; 27; 1; 22; 22; 0; 20; 20; 1];
   enc i_ldrcond 3 0 [26; 27; 1; 22; 22; 0; 20; 20; 1];
   enc i_str 3 0 [26; 27; 1; 22; 22; 0; 20; 20; 0];
   enc i_cdp 2 0 [24; 27; 0xe; 4; 4; 0];
   enc i_stc 2 0 [25; 27; 6; 20; 20; 0];
   enc i_ldc 2 0 [25; 27; 6; 20; 20; 1];
   enc i_ldrexd 2 ARMV6K [20; 27; 0x1b; 4; 7; 9];
   enc i_strexd 2 ARMV6K [20; 27; 0x1a; 4; 7; 9];
   enc i_ldrexh 2 ARMV6K [20; 27; 0x1f; 4; 7; 9];
   enc i_strexh 2 ARMV6K [20; 27; 0x1e; 4; 7; 9];
   enc i_nop 5 ARMV6K [23; 27; 6; 22; 22; 0; 20; 21; 2; 16; 19; 0; 0; 7; 0];
   enc i_yield 5 ARMV6K [23; 27; 6; 22; 22; 0; 20; 21; 2; 16; 19; 0; 0; 7; 1];
   enc i_wfe 5 ARMV6K [23; 27; 6; 22; 22; 0; 20; 21; 2; 16; 19; 0; 0; 7; 2];
   enc i_wfi 5 ARMV6K [23; 27; 6; 22; 22; 0; 20; 21; 2; 16; 19; 0; 0; 7; 3];
   enc i_sev 5 ARMV6K [23; 27; 6; 22; 22; 0; 20; 21; 2; 16; 19; 0; 0; 7; 4];
   enc i_swi 1 0 [24; 27; 0xf];
   enc i_bbl 1 0 [25; 27; 5]].

(** When the conditions of its exclusion hold an encoding does not match; the row of one encoding is that of its index. *)
Record exclusion := exc { x_attribute_value : nat; x_content : list Z }.
Definition arm_exclusion_code : list exclusion :=
  [exc 0 []; exc 0 []; exc 0 []; exc 0 []; exc 0 []; exc 0 []; exc 0 []; exc 0 []; exc 0 []; exc 0 []; exc 0 [];
   exc 0 []; exc 0 []; exc 0 []; exc 0 []; exc 0 []; exc 0 [4; 4; 1]; exc 0 []; exc 0 []; exc 0 []; exc 0 [];
   exc 0 []; exc 0 []; exc 0 []; exc 0 []; exc 0 []; exc 0 []; exc 0 []; exc 0 []; exc 0 []; exc 0 []; exc 0 [];
   exc 0 []; exc 0 []; exc 0 []; exc 0 []; exc 0 []; exc 0 []; exc 0 []; exc 0 []; exc 0 []; exc 0 []; exc 0 [];
   exc 0 []; exc 0 []; exc 0 []; exc 0 []; exc 0 []; exc 0 []; exc 0 []; exc 0 []; exc 0 []; exc 0 []; exc 0 [];
   exc 0 []; exc 0 []; exc 0 []; exc 0 []; exc 0 []; exc 0 []; exc 0 []; exc 0 []; exc 0 []; exc 0 []; exc 0 [];
   exc 0 []; exc 0 []; exc 0 []; exc 0 []; exc 0 []; exc 0 []; exc 0 []; exc 0 []; exc 0 []; exc 0 []; exc 0 [];
   exc 0 []; exc 0 []; exc 0 []; exc 0 []; exc 0 []; exc 0 []; exc 0 []; exc 0 []; exc 0 []; exc 0 []; exc 0 [];
   exc 0 []; exc 0 []; exc 0 []; exc 0 []; exc 0 []; exc 0 []; exc 0 []; exc 0 []; exc 0 []; exc 0 []; exc 0 [];
   exc 0 []; exc 0 []; exc 0 []; exc 0 []; exc 0 []; exc 0 []; exc 0 []; exc 0 []; exc 0 []; exc 0 []; exc 0 [];
   exc 0 []; exc 0 []; exc 0 []; exc 0 []; exc 0 []; exc 0 []; exc 0 []; exc 0 []; exc 0 []; exc 0 []; exc 0 [];
   exc 0 []; exc 0 []; exc 0 []; exc 0 []; exc 0 []; exc 0 []; exc 0 []; exc 0 []; exc 0 []; exc 0 [];
   exc 3 [4; 4; 1; 7; 7; 1; 25; 25; 0]; exc 3 [4; 4; 1; 7; 7; 1; 25; 25; 0]; exc 3 [4; 4; 1; 7; 7; 1; 25; 25; 0];
   exc 3 [4; 4; 1; 7; 7; 1; 25; 25; 0]; exc 0 []; exc 0 []; exc 0 []; exc 0 []; exc 0 []; exc 0 []; exc 0 [];
   exc 0 []; exc 0 []; exc 0 []; exc 3 [4; 4; 1; 7; 7; 1; 25; 25; 0]; exc 3 [4; 4; 1; 7; 7; 1; 25; 25; 0]; exc 0 [];
   exc 3 [4; 4; 1; 7; 7; 1; 25; 25; 0]; exc 3 [4; 4; 1; 7; 7; 1; 25; 25; 0]; exc 3 [4; 4; 1; 7; 7; 1; 25; 25; 0];
   exc 3 [4; 4; 1; 7; 7; 1; 25; 25; 0]; exc 3 [4; 4; 1; 7; 7; 1; 25; 25; 0]; exc 3 [4; 4; 1; 7; 7; 1; 25; 25; 0];
   exc 3 [4; 4; 1; 7; 7; 1; 25; 25; 0]; exc 3 [4; 4; 1; 7; 7; 1; 25; 25; 0]; exc 3 [4; 4; 1; 7; 7; 1; 25; 25; 0];
   exc 3 [4; 4; 1; 7; 7; 1; 25; 25; 0]; exc 0 []; exc 0 []; exc 0 []; exc 0 []; exc 0 []; exc 0 []; exc 0 [];
   exc 0 []; exc 0 []; exc 0 []; exc 0 []; exc 0 []; exc 0 []; exc 0 []; exc 0 []; exc 0 []; exc 0 []; exc 0 [];
   exc 0 []; exc 0 []; exc 0 []; exc 0 []; exc 0 []; exc 0 []; exc 1 [28; 31; 0xe]; exc 0 []; exc 0 []; exc 0 [];
   exc 0 []; exc 0 []; exc 0 []; exc 0 []; exc 0 []; exc 0 []; exc 0 []; exc 0 []; exc 0 []; exc 0 []; exc 0 [];
   exc 0 []].

(** The loops over the conditions. *)
Fixpoint conditions (instr : Z) (content : list Z) (n base : nat) : bool :=
  match n with
  | O => true
  | S n =>
      (if (at_content content (base + 1) =? 31) && (at_content content base =? 0) then instr =? at_content content (base + 2)
       else BITS instr (at_content content base) (at_content content (base + 1)) =? at_content content (base + 2)) &&
      conditions instr content n (base + 3)
  end.
Fixpoint excluded (instr : Z) (content : list Z) (n base : nat) : bool :=
  match n with
  | O => true
  | S n => (BITS instr (at_content content base) (at_content content (base + 1)) =? at_content content (base + 2)) &&
           excluded instr content n (base + 3)
  end.
Definition selected (instr : Z) (e : encoding) (x : exclusion) : bool :=
  negb (version e =? ARMVFP3) && conditions instr (content e) (attribute_value e) 0 &&
  negb (negb (x_attribute_value x =? 0)%nat && excluded instr (x_content x) (x_attribute_value x) 0).
Fixpoint decode_from (instr : Z) (es : list encoding) (xs : list exclusion) : option op :=
  match es, xs with
  | e :: es, x :: xs => if selected instr e x then Some (e_op e) else decode_from instr es xs
  | _, _ => None
  end.
Definition DecodeARMInstruction (instr : Z) : option op := decode_from instr arm_instruction arm_exclusion_code.

End ArmD.
