(* ===== verification/ArmThumb.v ===== *)
(** * Thumb instructions as ARM instructions

    [TranslateThumbInstruction] (core/arm/dyncom/arm_dyncom_thumb.cpp): a Thumb instruction is the ARM
    instruction that does the same, except for the branches. *)
From S2P Require Import Prelude ArmSupport.

Module ArmT.
Import Arm.

Inductive ThumbDecodeStatus := UNDEFINED | DECODED | BRANCH | UNINITIALIZED.

(** The halfword at [address] of the word read there. *)
Definition GetThumbInstruction (instr address : Z) : Z :=
  if Z.land address 3 =? 0 then Z.land instr 0xFFFF else Z.shiftr instr 16.

(** [tinstr & mask], shifted. *)
Definition field_l (tinstr mask n : Z) : Z := Z.shiftl (Z.land tinstr mask) n.
Definition field_r (tinstr mask n : Z) : Z := Z.shiftr (Z.land tinstr mask) n.
(** A row of a table of base opcodes. *)
Definition subset (l : list Z) (i : Z) : Z := nth (Z.to_nat i) l 0.
(** [a | b | ...] *)
Definition ors (l : list Z) : Z := foldl Z.lor 0 l.

(** Arithmetic on low registers (case 8). *)
Inductive otype := t_norm | t_shift | t_neg | t_mul.
Definition low_register_ops : list (Z * otype) :=
  [(0xE0100000, t_norm); (0xE0300000, t_norm); (0xE1B00010, t_shift); (0xE1B00030, t_shift); (0xE1B00050, t_shift);
   (0xE0B00000, t_norm); (0xE0D00000, t_norm); (0xE1B00070, t_shift); (0xE1100000, t_norm); (0xE2700000, t_neg);
   (0xE1500000, t_norm); (0xE1700000, t_norm); (0xE1900000, t_norm); (0xE0100090, t_mul); (0xE1D00000, t_norm);
   (0xE1F00000, t_norm)].
Definition low_register_operation (tinstr : Z) : Z :=
  let '(opcode, type) := nth (Z.to_nat (field_r tinstr 0x03C0 6)) low_register_ops (0, t_norm) in
  match type with
  | t_norm => ors [opcode; field_l tinstr 0x0007 16; field_l tinstr 0x0007 12; field_r tinstr 0x0038 3]
  | t_shift => ors [opcode; field_l tinstr 0x0007 12; Z.land tinstr 0x0007; field_l tinstr 0x0038 (8 - 3)]
  | t_neg => ors [opcode; field_l tinstr 0x0007 12; field_l tinstr 0x0038 (16 - 3)]
  | t_mul => ors [opcode; field_l tinstr 0x0007 16; field_l tinstr 0x0007 8; field_r tinstr 0x0038 3]
  end.
Definition high_register_operation (tinstr : Z) : Z :=
  let Rd := (if Z.land tinstr (Z.shiftl 1 7) =? 0 then 0 else 8) + Z.land tinstr 0x0007 in
  let Rs := field_r tinstr 0x0078 3 in
  match field_r tinstr 0x03C0 6 with
  | 0x0 | 0x1 | 0x2 | 0x3 => ors [0xE0800000; Z.shiftl Rd 16; Z.shiftl Rd 12; Rs]
  | 0x4 | 0x5 | 0x6 | 0x7 => ors [0xE1500000; Z.shiftl Rd 16; Rs]
  | 0x8 | 0x9 | 0xA | 0xB => ors [0xE1A00000; Z.shiftl Rd 12; Rs]
  | 0xC | 0xD => ors [0xE12FFF10; Rs]
  | _ => ors [0xE1200030; Rs]
  end.

(** Cases 22 and 23; [None] is undefined. *)
Definition miscellaneous (tinstr : Z) : option Z :=
  let f := Z.land tinstr 0x0F00 in
  if f =? 0x0000 then Some (Z.lor (if Z.land tinstr (Z.shiftl 1 7) =? 0 then 0xE28DDF00 else 0xE24DDF00) (Z.land tinstr 0x007F))
  else if f =? 0x0e00 then Some (ors [0xEF000000; BITS tinstr 0 3; Z.shiftl (BITS tinstr 4 7) 8])
  else if f =? 0x0200 then
    Some (ors [subset [0xE6BF0070; 0xE6AF0070; 0xE6FF0070; 0xE6EF0070] (BITS tinstr 6 7); Z.shiftl (BITS tinstr 0 2) 12; BITS tinstr 3 5])
  else if f =? 0x600 then
    Some (if BIT tinstr 5 =? 0 then Z.lor 0xF1010000 (Z.shiftl (BIT tinstr 3) 9)
          else ors [0xF1080000; Z.shiftl (BIT tinstr 0) 6; Z.shiftl (BIT tinstr 1) 7; Z.shiftl (BIT tinstr 2) 8; Z.shiftl (BIT tinstr 4) 18])
  else if f =? 0x0a00 then
    let subset_index := BITS tinstr 6 7 in
    if subset_index =? 2 then None
    else Some (ors [subset [0xE6BF0F30; 0xE6BF0FB0; 0; 0xE6FF0FB0] subset_index; Z.shiftl (BITS tinstr 0 2) 12; BITS tinstr 3 5])
  else
    Some (Z.lor (subset [0xE92D0000; 0xE92D4000; 0xE8BD0000; 0xE8BD8000]
                   (Z.lor (Z.shiftr (Z.land tinstr (Z.shiftl 1 11)) 10) (field_r tinstr (Z.shiftl 1 8) 8)))
                (Z.land tinstr 0x00FF)).

(** The status and [*ainstr]; [*inst_size] is 2. *)
Definition no_update : Z := 0xDEADC0DE.
Definition TranslateThumbInstruction (addr instr : Z) : ThumbDecodeStatus * Z :=
  let tinstr := GetThumbInstruction instr addr in
  let ok (ainstr : Z) := (UNINITIALIZED, ainstr) in
  let branch := (BRANCH, no_update) in
  let undefined := (UNDEFINED, no_update) in
  let set b := negb (Z.land tinstr (Z.shiftl 1 b) =? 0) in
  match field_r tinstr 0xF800 11 with
  | 0 | 1 | 2 =>
      ok (ors [0xE1B00000; field_r tinstr 0x1800 (11 - 5); field_l tinstr 0x07C0 (7 - 6); field_r tinstr 0x0038 3; field_l tinstr 0x0007 12])
  | 3 =>
      ok (ors [subset [0xE0900000; 0xE0500000; 0xE2900000; 0xE2500000] (field_r tinstr 0x0600 9); field_r tinstr 0x01C0 6;
               field_l tinstr 0x0038 (16 - 3); field_l tinstr 0x0007 (12 - 0)])
  | 4 | 5 | 6 | 7 =>
      ok (ors [subset [0xE3B00000; 0xE3500000; 0xE2900000; 0xE2500000] (field_r tinstr 0x1800 11); Z.land tinstr 0x00FF;
               field_l tinstr 0x0700 (16 - 8); field_l tinstr 0x0700 (12 - 8)])
  | 8 => ok (if set 10 then high_register_operation tinstr else low_register_operation tinstr)
  | 9 => ok (ors [0xE59F0000; field_l tinstr 0x0700 (12 - 8); field_l tinstr 0x00FF (2 - 0)])
  | 10 | 11 =>
      ok (ors [subset [0xE7800000; 0xE18000B0; 0xE7C00000; 0xE19000D0; 0xE7900000; 0xE19000B0; 0xE7D00000; 0xE19000F0] (field_r tinstr 0xE00 9);
               field_l tinstr 0x0007 (12 - 0); field_l tinstr 0x0038 (16 - 3); field_r tinstr 0x01C0 6])
  | 12 | 13 | 14 | 15 =>
      ok (ors [subset [0xE5800000; 0xE5900000; 0xE5C00000; 0xE5D00000] (field_r tinstr 0x1800 11); field_l tinstr 0x0007 (12 - 0);
               field_l tinstr 0x0038 (16 - 3); field_r tinstr 0x07C0 (6 - (if set 12 then 0 else 2))])
  | 16 | 17 =>
      ok (ors [if set 11 then 0xE1D000B0 else 0xE1C000B0; field_l tinstr 0x0007 (12 - 0); field_l tinstr 0x0038 (16 - 3);
               field_r tinstr 0x01C0 (6 - 1); field_r tinstr 0x0600 (9 - 8)])
  | 18 | 19 => ok (ors [if set 11 then 0xE59D0000 else 0xE58D0000; field_l tinstr 0x0700 (12 - 8); field_l tinstr 0x00FF 2])
  | 20 | 21 => ok (ors [if set 11 then 0xE28D0F00 else 0xE28F0F00; field_l tinstr 0x0700 (12 - 8); Z.land tinstr 0x00FF])
  | 22 | 23 => match miscellaneous tinstr with Some ainstr => ok ainstr | None => undefined end
  | 24 | 25 =>
      if set 11 then
        let rn := BITS tinstr 8 10 in
        ok (ors [if Z.land tinstr (Z.shiftl 1 rn) =? 0 then Z.lor 0xE8900000 (Z.shiftl 1 21) else 0xE8900000; Z.shiftl rn 16; Z.land tinstr 0x00FF])
      else ok (ors [0xE8A00000; Z.shiftl (BITS tinstr 8 10) 16; Z.land tinstr 0x00FF])
  | 26 | 27 =>
      if Z.land tinstr 0x0F00 =? 0x0F00 then
        ok (Z.lor 0xEF000000
              (if Z.land tinstr 0x00FF =? 0x18 then field_l tinstr 0x00FF 16
               else if Z.land tinstr 0x00FF =? 0xFE then 0x180000 else Z.land tinstr 0x00FF))
      else if negb (Z.land tinstr 0x0F00 =? 0x0E00) then branch else undefined
  | 28 => branch
  | 29 => if Z.land tinstr 0x1 =? 0 then branch else undefined
  | 30 | 31 => branch
  | _ => ok no_update
  end.

End ArmT.
