(* ===== verification/ArmTranslate.v ===== *)
(** * Translation of ARM instructions

    What the interpreter keeps of an instruction it has decoded: the translators of
    core/arm/dyncom/arm_dyncom_trans.cpp and skyeye_common/vfp/vfpinstr.cpp, one per name of the table
    [arm_instruction_trans], and the Thumb decoder that uses them (arm_dyncom_interpreter.cpp).  Structures with
    the same fields (adc_inst and add_inst, umull_inst and umlal_inst) are one constructor. *)
From S2P Require Import Prelude ArmSupport ArmOperands ArmDecode ArmThumb.

Module ArmI.
Import Arm ArmOp ArmD ArmT.

(** [TransExtData] *)
Inductive TransExtData := COND | NON_BRANCH | DIRECT_BRANCH | INDIRECT_BRANCH | CALL | RET | END_OF_PAGE | THUMB | SINGLE_STEP.
#[global] Instance TransExtData_eq_dec : EqDecision TransExtData.
Proof. solve_decision. Defined.

(** The structures behind [arm_inst::component]. *)
Inductive component :=
| dp_inst (I S Rn Rd shifter_operand : Z) (shtop_func : option shtop)
| mov_inst (I S Rd shifter_operand : Z) (shtop_func : option shtop)
| cmp_inst (I Rn shifter_operand : Z) (shtop_func : option shtop)
| bbl_inst (L signed_immed_24 : Z)
| bkpt_inst (imm : Z)
| blx_inst (val inst : Z)
| bx_inst (Rm : Z)
| cdp_inst (opcode_1 CRn CRd cp_num opcode_2 CRm inst : Z)
| clz_inst (Rm Rd : Z)
| cps_inst (imod0 imod1 mmod A I F mode : Z)
| empty_inst
| no_inst
| ldst_inst (inst : Z) (get_addr : option addressing)
| extend_inst (Rd Rm rotate : Z)
| extend_add_inst (Rd Rn Rm rotate : Z)
| generic_arm_inst (Ra Rm Rn Rd op1 op2 : Z)
| mla_inst (S Rn Rd Rs Rm : Z)
| mul_inst (S Rd Rs Rm : Z)
| smul_inst (Rd Rs Rm x y : Z)
| long_inst (S RdHi RdLo Rs Rm : Z)
| smlad_inst (m Rm Rd Ra Rn op1 op2 : Z)
| smla_inst (x y Rm Rd Rs Rn : Z)
| smlalxy_inst (x y RdLo RdHi Rm Rn : Z)
| smlald_inst (RdLo RdHi Rm Rn swap op1 op2 : Z)
| ssat_inst (Rn Rd imm5 sat_imm shift_type : Z)
| umaal_inst (Rn Rm RdHi RdLo : Z)
| mrc_inst (opcode_1 opcode_2 cp_num crn crm Rd inst : Z)
| mcrr_inst (opcode_1 cp_num crm rt rt2 : Z)
| mrs_inst (R Rd : Z)
| msr_inst (field_mask R inst : Z)
| swi_inst (num : Z)
| swp_inst (Rn Rd Rm : Z)
| setend_inst (set_bigend : Z)
| pkh_inst (Rm Rn Rd imm : Z)
| rev_inst (Rd Rm op1 op2 : Z)
| b_2_thumb (imm : Z)
| b_cond_thumb (imm cond : Z)
| bl_1_thumb (imm : Z)
| bl_2_thumb (imm : Z)
| blx_1_thumb (imm instr : Z)
| vfp_inst (instr dp_operation : Z)
| vmovi_inst (single d imm : Z)
| vmovr_inst (single d m : Z)
| vmovbrs_inst (to_arm t n : Z)
| vmsr_inst (reg Rt : Z)
| vmovbrc_inst (esize index d t : Z)
| vmovbrr_inst (to_arm t t2 m : Z)
| vstr_inst (single n d imm32 add : Z)
| vpush_inst (single d imm32 regs : Z)
| vstm_inst (single add wback d n imm32 regs : Z).

Record arm_inst := mk_arm_inst { idx : op; cond : Z; br : TransExtData; comp : component }.
Definition set_br (b : TransExtData) (a : arm_inst) : arm_inst := mk_arm_inst (idx a) (cond a) b (comp a).

(** [ConditionCode::AL], and what a translator leaves in a field it does not set; no handler reads it. *)
Definition AL : Z := 14.
Definition unset : Z := 0.

(** ** Translators *)

(** core/arm/dyncom/arm_dyncom_trans.cpp *)
Definition InterpreterTranslate_adc (inst : Z) (index : op) : arm_inst :=
  mk_arm_inst index (BITS inst 28 31) (if BITS inst 12 15 =? 15 then INDIRECT_BRANCH else NON_BRANCH)
    (dp_inst (BIT inst 25) (BIT inst 20) (BITS inst 16 19) (BITS inst 12 15) (BITS inst 0 11) (GetShifterOp inst)).
Definition InterpreterTranslate_add (inst : Z) (index : op) : arm_inst :=
  mk_arm_inst index (BITS inst 28 31) (if BITS inst 12 15 =? 15 then INDIRECT_BRANCH else NON_BRANCH)
    (dp_inst (BIT inst 25) (BIT inst 20) (BITS inst 16 19) (BITS inst 12 15) (BITS inst 0 11) (GetShifterOp inst)).
Definition InterpreterTranslate_and (inst : Z) (index : op) : arm_inst :=
  mk_arm_inst index (BITS inst 28 31) (if BITS inst 12 15 =? 15 then INDIRECT_BRANCH else NON_BRANCH)
    (dp_inst (BIT inst 25) (BIT inst 20) (BITS inst 16 19) (BITS inst 12 15) (BITS inst 0 11) (GetShifterOp inst)).
Definition InterpreterTranslate_bbl (inst : Z) (index : op) : arm_inst :=
  mk_arm_inst index (BITS inst 28 31) (if BIT inst 24 =? 0 then DIRECT_BRANCH else CALL)
    (bbl_inst (BIT inst 24) (if BIT inst 23 =? 0 then u32 (Z.shiftl (Z.land inst 0x7fffff) 2) else u32 (Z.shiftl (Z.lor 0xff000000 (Z.land inst 0xffffff)) 2))).
Definition InterpreterTranslate_bic (inst : Z) (index : op) : arm_inst :=
  mk_arm_inst index (BITS inst 28 31) (if BITS inst 12 15 =? 15 then INDIRECT_BRANCH else NON_BRANCH)
    (dp_inst (BIT inst 25) (BIT inst 20) (BITS inst 16 19) (BITS inst 12 15) (BITS inst 0 11) (GetShifterOp inst)).
Definition InterpreterTranslate_bkpt (inst : Z) (index : op) : arm_inst :=
  mk_arm_inst index (BITS inst 28 31) NON_BRANCH
    (bkpt_inst (Z.lor (u32 (Z.shiftl (BITS inst 8 19) 4)) (BITS inst 0 3))).
Definition InterpreterTranslate_blx (inst : Z) (index : op) : arm_inst :=
  mk_arm_inst index (BITS inst 28 31) INDIRECT_BRANCH
    (blx_inst (if (BITS inst 20 27 =? 0x12) && (BITS inst 4 7 =? 0x3) then BITS inst 0 3 else BITS inst 0 23) inst).
Definition InterpreterTranslate_bx (inst : Z) (index : op) : arm_inst :=
  mk_arm_inst index (BITS inst 28 31) INDIRECT_BRANCH
    (bx_inst (BITS inst 0 3)).
Definition InterpreterTranslate_bxj (inst : Z) (index : op) : arm_inst := InterpreterTranslate_bx inst index.
Definition InterpreterTranslate_cdp (inst : Z) (index : op) : arm_inst :=
  mk_arm_inst index (BITS inst 28 31) NON_BRANCH
    (cdp_inst (BITS inst 20 23) (BITS inst 16 19) (BITS inst 12 15) (BITS inst 8 11) (BITS inst 5 7) (BITS inst 0 3) inst).
Definition InterpreterTranslate_clrex (inst : Z) (index : op) : arm_inst :=
  mk_arm_inst index (BITS inst 28 31) NON_BRANCH empty_inst.
Definition InterpreterTranslate_clz (inst : Z) (index : op) : arm_inst :=
  mk_arm_inst index (BITS inst 28 31) NON_BRANCH
    (clz_inst (BITS inst 0 3) (BITS inst 12 15)).
Definition InterpreterTranslate_cmn (inst : Z) (index : op) : arm_inst :=
  mk_arm_inst index (BITS inst 28 31) NON_BRANCH
    (cmp_inst (BIT inst 25) (BITS inst 16 19) (BITS inst 0 11) (GetShifterOp inst)).
Definition InterpreterTranslate_cmp (inst : Z) (index : op) : arm_inst :=
  mk_arm_inst index (BITS inst 28 31) NON_BRANCH
    (cmp_inst (BIT inst 25) (BITS inst 16 19) (BITS inst 0 11) (GetShifterOp inst)).
Definition InterpreterTranslate_cps (inst : Z) (index : op) : arm_inst :=
  mk_arm_inst index (BITS inst 28 31) NON_BRANCH
    (cps_inst (BIT inst 18) (BIT inst 19) (BIT inst 17) (BIT inst 8) (BIT inst 7) (BIT inst 6) (BITS inst 0 4)).
Definition InterpreterTranslate_cpy (inst : Z) (index : op) : arm_inst :=
  mk_arm_inst index (BITS inst 28 31) (if BITS inst 12 15 =? 15 then INDIRECT_BRANCH else NON_BRANCH)
    (mov_inst (BIT inst 25) (BIT inst 20) (BITS inst 12 15) (BITS inst 0 11) (GetShifterOp inst)).
Definition InterpreterTranslate_eor (inst : Z) (index : op) : arm_inst :=
  mk_arm_inst index (BITS inst 28 31) (if BITS inst 12 15 =? 15 then INDIRECT_BRANCH else NON_BRANCH)
    (dp_inst (BIT inst 25) (BIT inst 20) (BITS inst 16 19) (BITS inst 12 15) (BITS inst 0 11) (GetShifterOp inst)).
Definition InterpreterTranslate_ldc (inst : Z) (index : op) : arm_inst :=
  mk_arm_inst index (BITS inst 28 31) NON_BRANCH empty_inst.
Definition InterpreterTranslate_ldm (inst : Z) (index : op) : arm_inst :=
  mk_arm_inst index (BITS inst 28 31) (if BIT inst 15 =? 0 then NON_BRANCH else INDIRECT_BRANCH)
    (ldst_inst inst (GetAddressingOp inst)).
Definition InterpreterTranslate_sxth (inst : Z) (index : op) : arm_inst :=
  mk_arm_inst index (BITS inst 28 31) NON_BRANCH
    (extend_inst (BITS inst 12 15) (BITS inst 0 3) (BITS inst 10 11)).
Definition InterpreterTranslate_ldr (inst : Z) (index : op) : arm_inst :=
  mk_arm_inst index (BITS inst 28 31) (if BITS inst 12 15 =? 15 then INDIRECT_BRANCH else NON_BRANCH)
    (ldst_inst inst (GetAddressingOp inst)).
Definition InterpreterTranslate_ldrcond (inst : Z) (index : op) : arm_inst :=
  mk_arm_inst index (BITS inst 28 31) (if BITS inst 12 15 =? 15 then INDIRECT_BRANCH else NON_BRANCH)
    (ldst_inst inst (GetAddressingOp inst)).
Definition InterpreterTranslate_uxth (inst : Z) (index : op) : arm_inst :=
  mk_arm_inst index (BITS inst 28 31) NON_BRANCH
    (extend_inst (BITS inst 12 15) (BITS inst 0 3) (BITS inst 10 11)).
Definition InterpreterTranslate_uxtah (inst : Z) (index : op) : arm_inst :=
  mk_arm_inst index (BITS inst 28 31) NON_BRANCH
    (extend_add_inst (BITS inst 12 15) (BITS inst 16 19) (BITS inst 0 3) (BITS inst 10 11)).
Definition InterpreterTranslate_ldrb (inst : Z) (index : op) : arm_inst :=
  mk_arm_inst index (BITS inst 28 31) NON_BRANCH
    (ldst_inst inst (GetAddressingOp inst)).
Definition InterpreterTranslate_ldrbt (inst : Z) (index : op) : arm_inst :=
  mk_arm_inst index (BITS inst 28 31) NON_BRANCH
    (ldst_inst inst (GetAddressingOpLoadStoreT inst)).
Definition InterpreterTranslate_ldrd (inst : Z) (index : op) : arm_inst :=
  mk_arm_inst index (BITS inst 28 31) NON_BRANCH
    (ldst_inst inst (GetAddressingOp inst)).
Definition InterpreterTranslate_ldrex (inst : Z) (index : op) : arm_inst :=
  mk_arm_inst index (BITS inst 28 31) (if BITS inst 12 15 =? 15 then INDIRECT_BRANCH else NON_BRANCH)
    (generic_arm_inst unset unset (BITS inst 16 19) (BITS inst 12 15) unset unset).
Definition InterpreterTranslate_ldrexb (inst : Z) (index : op) : arm_inst := InterpreterTranslate_ldrex inst index.
Definition InterpreterTranslate_ldrexh (inst : Z) (index : op) : arm_inst := InterpreterTranslate_ldrex inst index.
Definition InterpreterTranslate_ldrexd (inst : Z) (index : op) : arm_inst := InterpreterTranslate_ldrex inst index.
Definition InterpreterTranslate_ldrh (inst : Z) (index : op) : arm_inst :=
  mk_arm_inst index (BITS inst 28 31) NON_BRANCH
    (ldst_inst inst (GetAddressingOp inst)).
Definition InterpreterTranslate_ldrsb (inst : Z) (index : op) : arm_inst :=
  mk_arm_inst index (BITS inst 28 31) NON_BRANCH
    (ldst_inst inst (GetAddressingOp inst)).
Definition InterpreterTranslate_ldrsh (inst : Z) (index : op) : arm_inst :=
  mk_arm_inst index (BITS inst 28 31) NON_BRANCH
    (ldst_inst inst (GetAddressingOp inst)).
Definition InterpreterTranslate_ldrt (inst : Z) (index : op) : arm_inst :=
  mk_arm_inst index (BITS inst 28 31) (if BITS inst 12 15 =? 15 then INDIRECT_BRANCH else NON_BRANCH)
    (ldst_inst inst (GetAddressingOpLoadStoreT inst)).
Definition InterpreterTranslate_mcr (inst : Z) (index : op) : arm_inst :=
  mk_arm_inst index (BITS inst 28 31) NON_BRANCH
    (mrc_inst (BITS inst 21 23) (BITS inst 5 7) (BITS inst 8 11) (BITS inst 16 19) (BITS inst 0 3) (BITS inst 12 15) inst).
Definition InterpreterTranslate_mcrr (inst : Z) (index : op) : arm_inst :=
  mk_arm_inst index (BITS inst 28 31) NON_BRANCH
    (mcrr_inst (BITS inst 4 7) (BITS inst 8 11) (BITS inst 0 3) (BITS inst 12 15) (BITS inst 16 19)).
Definition InterpreterTranslate_mla (inst : Z) (index : op) : arm_inst :=
  mk_arm_inst index (BITS inst 28 31) NON_BRANCH
    (mla_inst (BIT inst 20) (BITS inst 12 15) (BITS inst 16 19) (BITS inst 8 11) (BITS inst 0 3)).
Definition InterpreterTranslate_mov (inst : Z) (index : op) : arm_inst :=
  mk_arm_inst index (BITS inst 28 31) (if BITS inst 12 15 =? 15 then INDIRECT_BRANCH else NON_BRANCH)
    (mov_inst (BIT inst 25) (BIT inst 20) (BITS inst 12 15) (BITS inst 0 11) (GetShifterOp inst)).
Definition InterpreterTranslate_mrc (inst : Z) (index : op) : arm_inst :=
  mk_arm_inst index (BITS inst 28 31) NON_BRANCH
    (mrc_inst (BITS inst 21 23) (BITS inst 5 7) (BITS inst 8 11) (BITS inst 16 19) (BITS inst 0 3) (BITS inst 12 15) inst).
Definition InterpreterTranslate_mrrc (inst : Z) (index : op) : arm_inst := InterpreterTranslate_mcrr inst index.
Definition InterpreterTranslate_mrs (inst : Z) (index : op) : arm_inst :=
  mk_arm_inst index (BITS inst 28 31) NON_BRANCH
    (mrs_inst (BIT inst 22) (BITS inst 12 15)).
Definition InterpreterTranslate_msr (inst : Z) (index : op) : arm_inst :=
  mk_arm_inst index (BITS inst 28 31) NON_BRANCH
    (msr_inst (BITS inst 16 19) (BIT inst 22) inst).
Definition InterpreterTranslate_mul (inst : Z) (index : op) : arm_inst :=
  mk_arm_inst index (BITS inst 28 31) NON_BRANCH
    (mul_inst (BIT inst 20) (BITS inst 16 19) (BITS inst 8 11) (BITS inst 0 3)).
Definition InterpreterTranslate_mvn (inst : Z) (index : op) : arm_inst :=
  mk_arm_inst index (BITS inst 28 31) (if BITS inst 12 15 =? 15 then INDIRECT_BRANCH else NON_BRANCH)
    (mov_inst (BIT inst 25) (BIT inst 20) (BITS inst 12 15) (BITS inst 0 11) (GetShifterOp inst)).
Definition InterpreterTranslate_orr (inst : Z) (index : op) : arm_inst :=
  mk_arm_inst index (BITS inst 28 31) (if BITS inst 12 15 =? 15 then INDIRECT_BRANCH else NON_BRANCH)
    (dp_inst (BIT inst 25) (BIT inst 20) (BITS inst 16 19) (BITS inst 12 15) (BITS inst 0 11) (GetShifterOp inst)).
Definition InterpreterTranslate_nop (inst : Z) (index : op) : arm_inst :=
  mk_arm_inst index (BITS inst 28 31) NON_BRANCH no_inst.
Definition InterpreterTranslate_pkhbt (inst : Z) (index : op) : arm_inst :=
  mk_arm_inst index (BITS inst 28 31) NON_BRANCH
    (pkh_inst (BITS inst 0 3) (BITS inst 16 19) (BITS inst 12 15) (BITS inst 7 11)).
Definition InterpreterTranslate_pkhtb (inst : Z) (index : op) : arm_inst := InterpreterTranslate_pkhbt inst index.
Definition InterpreterTranslate_pld (inst : Z) (index : op) : arm_inst :=
  mk_arm_inst index (BITS inst 28 31) NON_BRANCH empty_inst.
Definition InterpreterTranslate_qadd (inst : Z) (index : op) : arm_inst :=
  mk_arm_inst index (BITS inst 28 31) NON_BRANCH
    (generic_arm_inst unset (BITS inst 0 3) (BITS inst 16 19) (BITS inst 12 15) (BITS inst 21 22) unset).
Definition InterpreterTranslate_qdadd (inst : Z) (index : op) : arm_inst := InterpreterTranslate_qadd inst index.
Definition InterpreterTranslate_qdsub (inst : Z) (index : op) : arm_inst := InterpreterTranslate_qadd inst index.
Definition InterpreterTranslate_qsub (inst : Z) (index : op) : arm_inst := InterpreterTranslate_qadd inst index.
Definition InterpreterTranslate_qadd8 (inst : Z) (index : op) : arm_inst :=
  mk_arm_inst index (BITS inst 28 31) NON_BRANCH
    (generic_arm_inst unset (BITS inst 0 3) (BITS inst 16 19) (BITS inst 12 15) (BITS inst 20 21) (BITS inst 5 7)).
Definition InterpreterTranslate_qadd16 (inst : Z) (index : op) : arm_inst := InterpreterTranslate_qadd8 inst index.
Definition InterpreterTranslate_qaddsubx (inst : Z) (index : op) : arm_inst := InterpreterTranslate_qadd8 inst index.
Definition InterpreterTranslate_qsub8 (inst : Z) (index : op) : arm_inst := InterpreterTranslate_qadd8 inst index.
Definition InterpreterTranslate_qsub16 (inst : Z) (index : op) : arm_inst := InterpreterTranslate_qadd8 inst index.
Definition InterpreterTranslate_qsubaddx (inst : Z) (index : op) : arm_inst := InterpreterTranslate_qadd8 inst index.
Definition InterpreterTranslate_rev (inst : Z) (index : op) : arm_inst :=
  mk_arm_inst index (BITS inst 28 31) NON_BRANCH
    (rev_inst (BITS inst 12 15) (BITS inst 0 3) (BITS inst 20 22) (BITS inst 5 7)).
Definition InterpreterTranslate_rev16 (inst : Z) (index : op) : arm_inst := InterpreterTranslate_rev inst index.
Definition InterpreterTranslate_revsh (inst : Z) (index : op) : arm_inst := InterpreterTranslate_rev inst index.
Definition InterpreterTranslate_rfe (inst : Z) (index : op) : arm_inst :=
  mk_arm_inst index AL INDIRECT_BRANCH
    (ldst_inst inst (GetAddressingOp inst)).
Definition InterpreterTranslate_rsb (inst : Z) (index : op) : arm_inst :=
  mk_arm_inst index (BITS inst 28 31) (if BITS inst 12 15 =? 15 then INDIRECT_BRANCH else NON_BRANCH)
    (dp_inst (BIT inst 25) (BIT inst 20) (BITS inst 16 19) (BITS inst 12 15) (BITS inst 0 11) (GetShifterOp inst)).
Definition InterpreterTranslate_rsc (inst : Z) (index : op) : arm_inst :=
  mk_arm_inst index (BITS inst 28 31) (if BITS inst 12 15 =? 15 then INDIRECT_BRANCH else NON_BRANCH)
    (dp_inst (BIT inst 25) (BIT inst 20) (BITS inst 16 19) (BITS inst 12 15) (BITS inst 0 11) (GetShifterOp inst)).
Definition InterpreterTranslate_sadd8 (inst : Z) (index : op) : arm_inst :=
  mk_arm_inst index (BITS inst 28 31) NON_BRANCH
    (generic_arm_inst unset (BITS inst 0 3) (BITS inst 16 19) (BITS inst 12 15) (BITS inst 20 21) (BITS inst 5 7)).
Definition InterpreterTranslate_sadd16 (inst : Z) (index : op) : arm_inst := InterpreterTranslate_sadd8 inst index.
Definition InterpreterTranslate_saddsubx (inst : Z) (index : op) : arm_inst := InterpreterTranslate_sadd8 inst index.
Definition InterpreterTranslate_ssub8 (inst : Z) (index : op) : arm_inst := InterpreterTranslate_sadd8 inst index.
Definition InterpreterTranslate_ssub16 (inst : Z) (index : op) : arm_inst := InterpreterTranslate_sadd8 inst index.
Definition InterpreterTranslate_ssubaddx (inst : Z) (index : op) : arm_inst := InterpreterTranslate_sadd8 inst index.
Definition InterpreterTranslate_sbc (inst : Z) (index : op) : arm_inst :=
  mk_arm_inst index (BITS inst 28 31) (if BITS inst 12 15 =? 15 then INDIRECT_BRANCH else NON_BRANCH)
    (dp_inst (BIT inst 25) (BIT inst 20) (BITS inst 16 19) (BITS inst 12 15) (BITS inst 0 11) (GetShifterOp inst)).
Definition InterpreterTranslate_sel (inst : Z) (index : op) : arm_inst :=
  mk_arm_inst index (BITS inst 28 31) NON_BRANCH
    (generic_arm_inst unset (BITS inst 0 3) (BITS inst 16 19) (BITS inst 12 15) (BITS inst 20 22) (BITS inst 5 7)).
Definition InterpreterTranslate_setend (inst : Z) (index : op) : arm_inst :=
  mk_arm_inst index AL NON_BRANCH
    (setend_inst (BIT inst 9)).
Definition InterpreterTranslate_sev (inst : Z) (index : op) : arm_inst :=
  mk_arm_inst index (BITS inst 28 31) NON_BRANCH no_inst.
Definition InterpreterTranslate_shadd8 (inst : Z) (index : op) : arm_inst :=
  mk_arm_inst index (BITS inst 28 31) NON_BRANCH
    (generic_arm_inst unset (BITS inst 0 3) (BITS inst 16 19) (BITS inst 12 15) (BITS inst 20 21) (BITS inst 5 7)).
Definition InterpreterTranslate_shadd16 (inst : Z) (index : op) : arm_inst := InterpreterTranslate_shadd8 inst index.
Definition InterpreterTranslate_shaddsubx (inst : Z) (index : op) : arm_inst := InterpreterTranslate_shadd8 inst index.
Definition InterpreterTranslate_shsub8 (inst : Z) (index : op) : arm_inst := InterpreterTranslate_shadd8 inst index.
Definition InterpreterTranslate_shsub16 (inst : Z) (index : op) : arm_inst := InterpreterTranslate_shadd8 inst index.
Definition InterpreterTranslate_shsubaddx (inst : Z) (index : op) : arm_inst := InterpreterTranslate_shadd8 inst index.
Definition InterpreterTranslate_smla (inst : Z) (index : op) : arm_inst :=
  mk_arm_inst index (BITS inst 28 31) NON_BRANCH
    (smla_inst (BIT inst 5) (BIT inst 6) (BITS inst 0 3) (BITS inst 16 19) (BITS inst 8 11) (BITS inst 12 15)).
Definition InterpreterTranslate_smlad (inst : Z) (index : op) : arm_inst :=
  mk_arm_inst index (BITS inst 28 31) NON_BRANCH
    (smlad_inst (BIT inst 5) (BITS inst 8 11) (BITS inst 16 19) (BITS inst 12 15) (BITS inst 0 3) (BITS inst 20 22) (BITS inst 5 7)).
Definition InterpreterTranslate_smuad (inst : Z) (index : op) : arm_inst := InterpreterTranslate_smlad inst index.
Definition InterpreterTranslate_smusd (inst : Z) (index : op) : arm_inst := InterpreterTranslate_smlad inst index.
Definition InterpreterTranslate_smlsd (inst : Z) (index : op) : arm_inst := InterpreterTranslate_smlad inst index.
Definition InterpreterTranslate_smlal (inst : Z) (index : op) : arm_inst :=
  mk_arm_inst index (BITS inst 28 31) NON_BRANCH
    (long_inst (BIT inst 20) (BITS inst 16 19) (BITS inst 12 15) (BITS inst 8 11) (BITS inst 0 3)).
Definition InterpreterTranslate_smlalxy (inst : Z) (index : op) : arm_inst :=
  mk_arm_inst index (BITS inst 28 31) NON_BRANCH
    (smlalxy_inst (BIT inst 5) (BIT inst 6) (BITS inst 12 15) (BITS inst 16 19) (BITS inst 8 11) (BITS inst 0 4)).
Definition InterpreterTranslate_smlaw (inst : Z) (index : op) : arm_inst :=
  mk_arm_inst index (BITS inst 28 31) NON_BRANCH
    (smlad_inst (BIT inst 6) (BITS inst 8 11) (BITS inst 16 19) (BITS inst 12 15) (BITS inst 0 3) unset unset).
Definition InterpreterTranslate_smlald (inst : Z) (index : op) : arm_inst :=
  mk_arm_inst index (BITS inst 28 31) NON_BRANCH
    (smlald_inst (BITS inst 12 15) (BITS inst 16 19) (BITS inst 8 11) (BITS inst 0 3) (BIT inst 5) (BITS inst 20 22) (BITS inst 5 7)).
Definition InterpreterTranslate_smlsld (inst : Z) (index : op) : arm_inst := InterpreterTranslate_smlald inst index.
Definition InterpreterTranslate_smmla (inst : Z) (index : op) : arm_inst :=
  mk_arm_inst index (BITS inst 28 31) NON_BRANCH
    (smlad_inst (BIT inst 5) (BITS inst 8 11) (BITS inst 16 19) (BITS inst 12 15) (BITS inst 0 3) (BITS inst 20 22) (BITS inst 5 7)).
Definition InterpreterTranslate_smmls (inst : Z) (index : op) : arm_inst := InterpreterTranslate_smmla inst index.
Definition InterpreterTranslate_smmul (inst : Z) (index : op) : arm_inst := InterpreterTranslate_smmla inst index.
Definition InterpreterTranslate_smul (inst : Z) (index : op) : arm_inst :=
  mk_arm_inst index (BITS inst 28 31) NON_BRANCH
    (smul_inst (BITS inst 16 19) (BITS inst 8 11) (BITS inst 0 3) (BIT inst 5) (BIT inst 6)).
Definition InterpreterTranslate_smull (inst : Z) (index : op) : arm_inst :=
  mk_arm_inst index (BITS inst 28 31) NON_BRANCH
    (long_inst (BIT inst 20) (BITS inst 16 19) (BITS inst 12 15) (BITS inst 8 11) (BITS inst 0 3)).
Definition InterpreterTranslate_smulw (inst : Z) (index : op) : arm_inst :=
  mk_arm_inst index (BITS inst 28 31) NON_BRANCH
    (smlad_inst (BIT inst 6) (BITS inst 8 11) (BITS inst 16 19) unset (BITS inst 0 3) unset unset).
Definition InterpreterTranslate_srs (inst : Z) (index : op) : arm_inst :=
  mk_arm_inst index AL NON_BRANCH
    (ldst_inst inst (GetAddressingOp inst)).
Definition InterpreterTranslate_ssat (inst : Z) (index : op) : arm_inst :=
  mk_arm_inst index (BITS inst 28 31) NON_BRANCH
    (ssat_inst (BITS inst 0 3) (BITS inst 12 15) (BITS inst 7 11) (BITS inst 16 20) (BIT inst 6)).
Definition InterpreterTranslate_ssat16 (inst : Z) (index : op) : arm_inst :=
  mk_arm_inst index (BITS inst 28 31) NON_BRANCH
    (ssat_inst (BITS inst 0 3) (BITS inst 12 15) unset (BITS inst 16 19) unset).
Definition InterpreterTranslate_stc (inst : Z) (index : op) : arm_inst :=
  mk_arm_inst index (BITS inst 28 31) NON_BRANCH empty_inst.
Definition InterpreterTranslate_stm (inst : Z) (index : op) : arm_inst :=
  mk_arm_inst index (BITS inst 28 31) NON_BRANCH
    (ldst_inst inst (GetAddressingOp inst)).
Definition InterpreterTranslate_sxtb (inst : Z) (index : op) : arm_inst :=
  mk_arm_inst index (BITS inst 28 31) NON_BRANCH
    (extend_inst (BITS inst 12 15) (BITS inst 0 3) (BITS inst 10 11)).
Definition InterpreterTranslate_str (inst : Z) (index : op) : arm_inst :=
  mk_arm_inst index (BITS inst 28 31) NON_BRANCH
    (ldst_inst inst (GetAddressingOp inst)).
Definition InterpreterTranslate_uxtb (inst : Z) (index : op) : arm_inst :=
  mk_arm_inst index (BITS inst 28 31) NON_BRANCH
    (extend_inst (BITS inst 12 15) (BITS inst 0 3) (BITS inst 10 11)).
Definition InterpreterTranslate_uxtab (inst : Z) (index : op) : arm_inst :=
  mk_arm_inst index (BITS inst 28 31) NON_BRANCH
    (extend_add_inst (BITS inst 12 15) (BITS inst 16 19) (BITS inst 0 3) (BITS inst 10 11)).
Definition InterpreterTranslate_strb (inst : Z) (index : op) : arm_inst :=
  mk_arm_inst index (BITS inst 28 31) NON_BRANCH
    (ldst_inst inst (GetAddressingOp inst)).
Definition InterpreterTranslate_strbt (inst : Z) (index : op) : arm_inst :=
  mk_arm_inst index (BITS inst 28 31) NON_BRANCH
    (ldst_inst inst (GetAddressingOpLoadStoreT inst)).
Definition InterpreterTranslate_strd (inst : Z) (index : op) : arm_inst :=
  mk_arm_inst index (BITS inst 28 31) NON_BRANCH
    (ldst_inst inst (GetAddressingOp inst)).
Definition InterpreterTranslate_strex (inst : Z) (index : op) : arm_inst :=
  mk_arm_inst index (BITS inst 28 31) NON_BRANCH
    (generic_arm_inst unset (BITS inst 0 3) (BITS inst 16 19) (BITS inst 12 15) unset unset).
Definition InterpreterTranslate_strexb (inst : Z) (index : op) : arm_inst := InterpreterTranslate_strex inst index.
Definition InterpreterTranslate_strexh (inst : Z) (index : op) : arm_inst := InterpreterTranslate_strex inst index.
Definition InterpreterTranslate_strexd (inst : Z) (index : op) : arm_inst := InterpreterTranslate_strex inst index.
Definition InterpreterTranslate_strh (inst : Z) (index : op) : arm_inst :=
  mk_arm_inst index (BITS inst 28 31) NON_BRANCH
    (ldst_inst inst (GetAddressingOp inst)).
Definition InterpreterTranslate_strt (inst : Z) (index : op) : arm_inst :=
  mk_arm_inst index (BITS inst 28 31) NON_BRANCH
    (ldst_inst inst (GetAddressingOpLoadStoreT inst)).
Definition InterpreterTranslate_sub (inst : Z) (index : op) : arm_inst :=
  mk_arm_inst index (BITS inst 28 31) (if BITS inst 12 15 =? 15 then INDIRECT_BRANCH else NON_BRANCH)
    (dp_inst (BIT inst 25) (BIT inst 20) (BITS inst 16 19) (BITS inst 12 15) (BITS inst 0 11) (GetShifterOp inst)).
Definition InterpreterTranslate_swi (inst : Z) (index : op) : arm_inst :=
  mk_arm_inst index (BITS inst 28 31) NON_BRANCH
    (swi_inst (BITS inst 0 23)).
Definition InterpreterTranslate_swp (inst : Z) (index : op) : arm_inst :=
  mk_arm_inst index (BITS inst 28 31) NON_BRANCH
    (swp_inst (BITS inst 16 19) (BITS inst 12 15) (BITS inst 0 3)).
Definition InterpreterTranslate_swpb (inst : Z) (index : op) : arm_inst :=
  mk_arm_inst index (BITS inst 28 31) NON_BRANCH
    (swp_inst (BITS inst 16 19) (BITS inst 12 15) (BITS inst 0 3)).
Definition InterpreterTranslate_sxtab (inst : Z) (index : op) : arm_inst :=
  mk_arm_inst index (BITS inst 28 31) NON_BRANCH
    (extend_add_inst (BITS inst 12 15) (BITS inst 16 19) (BITS inst 0 3) (BITS inst 10 11)).
Definition InterpreterTranslate_sxtab16 (inst : Z) (index : op) : arm_inst :=
  mk_arm_inst index (BITS inst 28 31) NON_BRANCH
    (extend_add_inst (BITS inst 12 15) (BITS inst 16 19) (BITS inst 0 3) (BITS inst 10 11)).
Definition InterpreterTranslate_sxtb16 (inst : Z) (index : op) : arm_inst := InterpreterTranslate_sxtab16 inst index.
Definition InterpreterTranslate_sxtah (inst : Z) (index : op) : arm_inst :=
  mk_arm_inst index (BITS inst 28 31) NON_BRANCH
    (extend_add_inst (BITS inst 12 15) (BITS inst 16 19) (BITS inst 0 3) (BITS inst 10 11)).
Definition InterpreterTranslate_teq (inst : Z) (index : op) : arm_inst :=
  mk_arm_inst index (BITS inst 28 31) NON_BRANCH
    (cmp_inst (BIT inst 25) (BITS inst 16 19) (BITS inst 0 11) (GetShifterOp inst)).
Definition InterpreterTranslate_tst (inst : Z) (index : op) : arm_inst :=
  mk_arm_inst index (BITS inst 28 31) NON_BRANCH
    (dp_inst (BIT inst 25) (BIT inst 20) (BITS inst 16 19) (BITS inst 12 15) (BITS inst 0 11) (GetShifterOp inst)).
Definition InterpreterTranslate_uadd8 (inst : Z) (index : op) : arm_inst :=
  mk_arm_inst index (BITS inst 28 31) NON_BRANCH
    (generic_arm_inst unset (BITS inst 0 3) (BITS inst 16 19) (BITS inst 12 15) (BITS inst 20 21) (BITS inst 5 7)).
Definition InterpreterTranslate_uadd16 (inst : Z) (index : op) : arm_inst := InterpreterTranslate_uadd8 inst index.
Definition InterpreterTranslate_uaddsubx (inst : Z) (index : op) : arm_inst := InterpreterTranslate_uadd8 inst index.
Definition InterpreterTranslate_usub8 (inst : Z) (index : op) : arm_inst := InterpreterTranslate_uadd8 inst index.
Definition InterpreterTranslate_usub16 (inst : Z) (index : op) : arm_inst := InterpreterTranslate_uadd8 inst index.
Definition InterpreterTranslate_usubaddx (inst : Z) (index : op) : arm_inst := InterpreterTranslate_uadd8 inst index.
Definition InterpreterTranslate_uhadd8 (inst : Z) (index : op) : arm_inst :=
  mk_arm_inst index (BITS inst 28 31) NON_BRANCH
    (generic_arm_inst unset (BITS inst 0 3) (BITS inst 16 19) (BITS inst 12 15) (BITS inst 20 21) (BITS inst 5 7)).
Definition InterpreterTranslate_uhadd16 (inst : Z) (index : op) : arm_inst := InterpreterTranslate_uhadd8 inst index.
Definition InterpreterTranslate_uhaddsubx (inst : Z) (index : op) : arm_inst := InterpreterTranslate_uhadd8 inst index.
Definition InterpreterTranslate_uhsub8 (inst : Z) (index : op) : arm_inst := InterpreterTranslate_uhadd8 inst index.
Definition InterpreterTranslate_uhsub16 (inst : Z) (index : op) : arm_inst := InterpreterTranslate_uhadd8 inst index.
Definition InterpreterTranslate_uhsubaddx (inst : Z) (index : op) : arm_inst := InterpreterTranslate_uhadd8 inst index.
Definition InterpreterTranslate_umaal (inst : Z) (index : op) : arm_inst :=
  mk_arm_inst index (BITS inst 28 31) NON_BRANCH
    (umaal_inst (BITS inst 0 3) (BITS inst 8 11) (BITS inst 16 19) (BITS inst 12 15)).
Definition InterpreterTranslate_umlal (inst : Z) (index : op) : arm_inst :=
  mk_arm_inst index (BITS inst 28 31) NON_BRANCH
    (long_inst (BIT inst 20) (BITS inst 16 19) (BITS inst 12 15) (BITS inst 8 11) (BITS inst 0 3)).
Definition InterpreterTranslate_umull (inst : Z) (index : op) : arm_inst :=
  mk_arm_inst index (BITS inst 28 31) NON_BRANCH
    (long_inst (BIT inst 20) (BITS inst 16 19) (BITS inst 12 15) (BITS inst 8 11) (BITS inst 0 3)).
Definition InterpreterTranslate_b_2_thumb (inst : Z) (index : op) : arm_inst :=
  mk_arm_inst index unset DIRECT_BRANCH
    (b_2_thumb (Z.lor (u32 (Z.shiftl (Z.land inst 0x3FF) 1)) (if (Z.land inst (u32 (Z.shiftl 1 10))) =? 0 then 0 else 0xFFFFF800))).
Definition InterpreterTranslate_b_cond_thumb (inst : Z) (index : op) : arm_inst :=
  mk_arm_inst index unset DIRECT_BRANCH
    (b_cond_thumb (Z.lor (u32 (Z.shiftl (Z.land inst 0x7F) 1)) (if (Z.land inst (u32 (Z.shiftl 1 7))) =? 0 then 0 else 0xFFFFFF00)) (Z.land (Z.shiftr inst 8) 0xf)).
Definition InterpreterTranslate_bl_1_thumb (inst : Z) (index : op) : arm_inst :=
  mk_arm_inst index unset NON_BRANCH
    (bl_1_thumb (Z.lor (u32 (Z.shiftl (Z.land inst 0x07FF) 12)) (if (Z.land inst (u32 (Z.shiftl 1 10))) =? 0 then 0 else 0xFF800000))).
Definition InterpreterTranslate_bl_2_thumb (inst : Z) (index : op) : arm_inst :=
  mk_arm_inst index unset DIRECT_BRANCH
    (bl_2_thumb (u32 (Z.shiftl (Z.land inst 0x07FF) 1))).
Definition InterpreterTranslate_blx_1_thumb (inst : Z) (index : op) : arm_inst :=
  mk_arm_inst index unset DIRECT_BRANCH
    (blx_1_thumb (u32 (Z.shiftl (Z.land inst 0x07FF) 1)) inst).
Definition InterpreterTranslate_uqadd8 (inst : Z) (index : op) : arm_inst :=
  mk_arm_inst index (BITS inst 28 31) NON_BRANCH
    (generic_arm_inst unset (BITS inst 0 3) (BITS inst 16 19) (BITS inst 12 15) (BITS inst 20 21) (BITS inst 5 7)).
Definition InterpreterTranslate_uqadd16 (inst : Z) (index : op) : arm_inst := InterpreterTranslate_uqadd8 inst index.
Definition InterpreterTranslate_uqaddsubx (inst : Z) (index : op) : arm_inst := InterpreterTranslate_uqadd8 inst index.
Definition InterpreterTranslate_uqsub8 (inst : Z) (index : op) : arm_inst := InterpreterTranslate_uqadd8 inst index.
Definition InterpreterTranslate_uqsub16 (inst : Z) (index : op) : arm_inst := InterpreterTranslate_uqadd8 inst index.
Definition InterpreterTranslate_uqsubaddx (inst : Z) (index : op) : arm_inst := InterpreterTranslate_uqadd8 inst index.
Definition InterpreterTranslate_usada8 (inst : Z) (index : op) : arm_inst :=
  mk_arm_inst index (BITS inst 28 31) NON_BRANCH
    (generic_arm_inst (BITS inst 12 15) (BITS inst 8 11) (BITS inst 0 3) (BITS inst 16 19) (BITS inst 20 24) (BITS inst 5 7)).
Definition InterpreterTranslate_usad8 (inst : Z) (index : op) : arm_inst := InterpreterTranslate_usada8 inst index.
Definition InterpreterTranslate_usat (inst : Z) (index : op) : arm_inst := InterpreterTranslate_ssat inst index.
Definition InterpreterTranslate_usat16 (inst : Z) (index : op) : arm_inst := InterpreterTranslate_ssat16 inst index.
Definition InterpreterTranslate_uxtab16 (inst : Z) (index : op) : arm_inst :=
  mk_arm_inst index (BITS inst 28 31) NON_BRANCH
    (extend_add_inst (BITS inst 12 15) (BITS inst 16 19) (BITS inst 0 3) (BITS inst 10 11)).
Definition InterpreterTranslate_uxtb16 (inst : Z) (index : op) : arm_inst := InterpreterTranslate_uxtab16 inst index.
Definition InterpreterTranslate_wfe (inst : Z) (index : op) : arm_inst :=
  mk_arm_inst index (BITS inst 28 31) NON_BRANCH no_inst.
Definition InterpreterTranslate_wfi (inst : Z) (index : op) : arm_inst :=
  mk_arm_inst index (BITS inst 28 31) NON_BRANCH no_inst.
Definition InterpreterTranslate_yield (inst : Z) (index : op) : arm_inst :=
  mk_arm_inst index (BITS inst 28 31) NON_BRANCH no_inst.
(** core/arm/skyeye_common/vfp/vfpinstr.cpp *)
Definition InterpreterTranslate_vmla (inst : Z) (index : op) : arm_inst :=
  mk_arm_inst index (BITS inst 28 31) NON_BRANCH
    (vfp_inst inst (BIT inst 8)).
Definition InterpreterTranslate_vmls (inst : Z) (index : op) : arm_inst :=
  mk_arm_inst index (BITS inst 28 31) NON_BRANCH
    (vfp_inst inst (BIT inst 8)).
Definition InterpreterTranslate_vnmla (inst : Z) (index : op) : arm_inst :=
  mk_arm_inst index (BITS inst 28 31) NON_BRANCH
    (vfp_inst inst (BIT inst 8)).
Definition InterpreterTranslate_vnmls (inst : Z) (index : op) : arm_inst :=
  mk_arm_inst index (BITS inst 28 31) NON_BRANCH
    (vfp_inst inst (BIT inst 8)).
Definition InterpreterTranslate_vnmul (inst : Z) (index : op) : arm_inst :=
  mk_arm_inst index (BITS inst 28 31) NON_BRANCH
    (vfp_inst inst (BIT inst 8)).
Definition InterpreterTranslate_vmul (inst : Z) (index : op) : arm_inst :=
  mk_arm_inst index (BITS inst 28 31) NON_BRANCH
    (vfp_inst inst (BIT inst 8)).
Definition InterpreterTranslate_vadd (inst : Z) (index : op) : arm_inst :=
  mk_arm_inst index (BITS inst 28 31) NON_BRANCH
    (vfp_inst inst (BIT inst 8)).
Definition InterpreterTranslate_vsub (inst : Z) (index : op) : arm_inst :=
  mk_arm_inst index (BITS inst 28 31) NON_BRANCH
    (vfp_inst inst (BIT inst 8)).
Definition InterpreterTranslate_vdiv (inst : Z) (index : op) : arm_inst :=
  mk_arm_inst index (BITS inst 28 31) NON_BRANCH
    (vfp_inst inst (BIT inst 8)).
Definition InterpreterTranslate_vmovi (inst : Z) (index : op) : arm_inst :=
  let single := Z.b2z ((BIT inst 8) =? 0) in
  let imm8 := Z.lor (u32 (Z.shiftl (BITS inst 16 19) 4)) (BITS inst 0 3) in
  mk_arm_inst index (BITS inst 28 31) NON_BRANCH
    (vmovi_inst single (if single =? 0 then Z.lor (BITS inst 12 15) (u32 (Z.shiftl (BIT inst 22) 4)) else Z.lor (u32 (Z.shiftl (BITS inst 12 15) 1)) (BIT inst 22)) (if negb (single =? 0) then Z.lor (Z.lor (Z.lor (u32 (Z.shiftl (BIT imm8 7) 31)) (u32 (Z.shiftl (Z.b2z ((BIT imm8 6) =? 0)) 30))) (u32 (Z.shiftl (if BIT imm8 6 =? 0 then 0 else 0x1f) 25))) (u32 (Z.shiftl (BITS imm8 0 5) 19)) else Z.lor (Z.lor (Z.lor (u32 (Z.shiftl (BIT imm8 7) 31)) (u32 (Z.shiftl (Z.b2z ((BIT imm8 6) =? 0)) 30))) (u32 (Z.shiftl (if BIT imm8 6 =? 0 then 0 else 0xff) 22))) (u32 (Z.shiftl (BITS imm8 0 5) 16)))).
Definition InterpreterTranslate_vmovr (inst : Z) (index : op) : arm_inst :=
  let single := Z.b2z ((BIT inst 8) =? 0) in
  mk_arm_inst index (BITS inst 28 31) NON_BRANCH
    (vmovr_inst single (if single =? 0 then Z.lor (BITS inst 12 15) (u32 (Z.shiftl (BIT inst 22) 4)) else Z.lor (u32 (Z.shiftl (BITS inst 12 15) 1)) (BIT inst 22)) (if single =? 0 then Z.lor (BITS inst 0 3) (u32 (Z.shiftl (BIT inst 5) 4)) else Z.lor (u32 (Z.shiftl (BITS inst 0 3) 1)) (BIT inst 5))).
Definition InterpreterTranslate_vabs (inst : Z) (index : op) : arm_inst :=
  mk_arm_inst index (BITS inst 28 31) NON_BRANCH
    (vfp_inst inst (BIT inst 8)).
Definition InterpreterTranslate_vneg (inst : Z) (index : op) : arm_inst :=
  mk_arm_inst index (BITS inst 28 31) NON_BRANCH
    (vfp_inst inst (BIT inst 8)).
Definition InterpreterTranslate_vsqrt (inst : Z) (index : op) : arm_inst :=
  mk_arm_inst index (BITS inst 28 31) NON_BRANCH
    (vfp_inst inst (BIT inst 8)).
Definition InterpreterTranslate_vcmp (inst : Z) (index : op) : arm_inst :=
  mk_arm_inst index (BITS inst 28 31) NON_BRANCH
    (vfp_inst inst (BIT inst 8)).
Definition InterpreterTranslate_vcmp2 (inst : Z) (index : op) : arm_inst :=
  mk_arm_inst index (BITS inst 28 31) NON_BRANCH
    (vfp_inst inst (BIT inst 8)).
Definition InterpreterTranslate_vcvtbds (inst : Z) (index : op) : arm_inst :=
  mk_arm_inst index (BITS inst 28 31) NON_BRANCH
    (vfp_inst inst (BIT inst 8)).
Definition InterpreterTranslate_vcvtbff (inst : Z) (index : op) : arm_inst :=
  mk_arm_inst index (BITS inst 28 31) NON_BRANCH
    (vfp_inst inst (BIT inst 8)).
Definition InterpreterTranslate_vcvtbfi (inst : Z) (index : op) : arm_inst :=
  mk_arm_inst index (BITS inst 28 31) NON_BRANCH
    (vfp_inst inst (BIT inst 8)).
Definition InterpreterTranslate_vmovbrs (inst : Z) (index : op) : arm_inst :=
  mk_arm_inst index (BITS inst 28 31) NON_BRANCH
    (vmovbrs_inst (Z.b2z ((BIT inst 20) =? 1)) (BITS inst 12 15) (Z.lor (BIT inst 7) (u32 (Z.shiftl (BITS inst 16 19) 1)))).
Definition InterpreterTranslate_vmsr (inst : Z) (index : op) : arm_inst :=
  mk_arm_inst index (BITS inst 28 31) NON_BRANCH
    (vmsr_inst (BITS inst 16 19) (BITS inst 12 15)).
Definition InterpreterTranslate_vmovbrc (inst : Z) (index : op) : arm_inst :=
  mk_arm_inst index (BITS inst 28 31) NON_BRANCH
    (vmovbrc_inst 32 (BIT inst 21) (Z.lor (BITS inst 16 19) (u32 (Z.shiftl (BIT inst 7) 4))) (BITS inst 12 15)).
Definition InterpreterTranslate_vmrs (inst : Z) (index : op) : arm_inst :=
  mk_arm_inst index (BITS inst 28 31) NON_BRANCH
    (vmsr_inst (BITS inst 16 19) (BITS inst 12 15)).
Definition InterpreterTranslate_vmovbcr (inst : Z) (index : op) : arm_inst :=
  mk_arm_inst index (BITS inst 28 31) NON_BRANCH
    (vmovbrc_inst 32 (BIT inst 21) (Z.lor (BITS inst 16 19) (u32 (Z.shiftl (BIT inst 7) 4))) (BITS inst 12 15)).
Definition InterpreterTranslate_vmovbrrss (inst : Z) (index : op) : arm_inst :=
  mk_arm_inst index (BITS inst 28 31) NON_BRANCH
    (vmovbrr_inst (Z.b2z ((BIT inst 20) =? 1)) (BITS inst 12 15) (BITS inst 16 19) (Z.lor (u32 (Z.shiftl (BITS inst 0 3) 1)) (BIT inst 5))).
Definition InterpreterTranslate_vmovbrrd (inst : Z) (index : op) : arm_inst :=
  mk_arm_inst index (BITS inst 28 31) NON_BRANCH
    (vmovbrr_inst (Z.b2z ((BIT inst 20) =? 1)) (BITS inst 12 15) (BITS inst 16 19) (Z.lor (u32 (Z.shiftl (BIT inst 5) 4)) (BITS inst 0 3))).
Definition InterpreterTranslate_vstr (inst : Z) (index : op) : arm_inst :=
  let single := Z.b2z ((BIT inst 8) =? 0) in
  mk_arm_inst index (BITS inst 28 31) NON_BRANCH
    (vstr_inst single (BITS inst 16 19) (if single =? 0 then Z.lor (BITS inst 12 15) (u32 (Z.shiftl (BIT inst 22) 4)) else Z.lor (u32 (Z.shiftl (BITS inst 12 15) 1)) (BIT inst 22)) (u32 (Z.shiftl (BITS inst 0 7) 2)) (BIT inst 23)).
Definition InterpreterTranslate_vpush (inst : Z) (index : op) : arm_inst :=
  let single := Z.b2z ((BIT inst 8) =? 0) in
  mk_arm_inst index (BITS inst 28 31) NON_BRANCH
    (vpush_inst single (if single =? 0 then Z.lor (BITS inst 12 15) (u32 (Z.shiftl (BIT inst 22) 4)) else Z.lor (u32 (Z.shiftl (BITS inst 12 15) 1)) (BIT inst 22)) (u32 (Z.shiftl (BITS inst 0 7) 2)) (if single =? 0 then BITS inst 1 7 else BITS inst 0 7)).
Definition InterpreterTranslate_vstm (inst : Z) (index : op) : arm_inst :=
  let single := Z.b2z ((BIT inst 8) =? 0) in
  mk_arm_inst index (BITS inst 28 31) NON_BRANCH
    (vstm_inst single (BIT inst 23) (BIT inst 21) (if single =? 0 then Z.lor (BITS inst 12 15) (u32 (Z.shiftl (BIT inst 22) 4)) else Z.lor (u32 (Z.shiftl (BITS inst 12 15) 1)) (BIT inst 22)) (BITS inst 16 19) (u32 (Z.shiftl (BITS inst 0 7) 2)) (if single =? 0 then BITS inst 1 7 else BITS inst 0 7)).
Definition InterpreterTranslate_vpop (inst : Z) (index : op) : arm_inst :=
  let single := Z.b2z ((BIT inst 8) =? 0) in
  mk_arm_inst index (BITS inst 28 31) NON_BRANCH
    (vpush_inst single (if single =? 0 then Z.lor (BITS inst 12 15) (u32 (Z.shiftl (BIT inst 22) 4)) else Z.lor (u32 (Z.shiftl (BITS inst 12 15) 1)) (BIT inst 22)) (u32 (Z.shiftl (BITS inst 0 7) 2)) (if single =? 0 then BITS inst 1 7 else BITS inst 0 7)).
Definition InterpreterTranslate_vldr (inst : Z) (index : op) : arm_inst :=
  let single := Z.b2z ((BIT inst 8) =? 0) in
  mk_arm_inst index (BITS inst 28 31) NON_BRANCH
    (vstr_inst single (BITS inst 16 19) (if single =? 0 then Z.lor (BITS inst 12 15) (u32 (Z.shiftl (BIT inst 22) 4)) else Z.lor (u32 (Z.shiftl (BITS inst 12 15) 1)) (BIT inst 22)) (u32 (Z.shiftl (BITS inst 0 7) 2)) (BIT inst 23)).
Definition InterpreterTranslate_vldm (inst : Z) (index : op) : arm_inst :=
  let single := Z.b2z ((BIT inst 8) =? 0) in
  mk_arm_inst index (BITS inst 28 31) NON_BRANCH
    (vstm_inst single (BIT inst 23) (BIT inst 21) (if single =? 0 then Z.lor (BITS inst 12 15) (u32 (Z.shiftl (BIT inst 22) 4)) else Z.lor (u32 (Z.shiftl (BITS inst 12 15) 1)) (BIT inst 22)) (BITS inst 16 19) (u32 (Z.shiftl (BITS inst 0 7) 2)) (if single =? 0 then BITS inst 1 7 else BITS inst 0 7)).

(** [arm_instruction_trans] *)
Definition arm_instruction_trans (index : op) : Z -> op -> arm_inst :=
  match index with
  | i_vmla => InterpreterTranslate_vmla | i_vmls => InterpreterTranslate_vmls | i_vnmla => InterpreterTranslate_vnmla
  | i_vnmls => InterpreterTranslate_vnmls | i_vnmul => InterpreterTranslate_vnmul | i_vmul => InterpreterTranslate_vmul
  | i_vadd => InterpreterTranslate_vadd | i_vsub => InterpreterTranslate_vsub | i_vdiv => InterpreterTranslate_vdiv
  | i_vmovi => InterpreterTranslate_vmovi | i_vmovr => InterpreterTranslate_vmovr | i_vabs => InterpreterTranslate_vabs
  | i_vneg => InterpreterTranslate_vneg | i_vsqrt => InterpreterTranslate_vsqrt | i_vcmp => InterpreterTranslate_vcmp
  | i_vcmp2 => InterpreterTranslate_vcmp2 | i_vcvtbds => InterpreterTranslate_vcvtbds
  | i_vcvtbff => InterpreterTranslate_vcvtbff | i_vcvtbfi => InterpreterTranslate_vcvtbfi
  | i_vmovbrs => InterpreterTranslate_vmovbrs | i_vmsr => InterpreterTranslate_vmsr | i_vmovbrc => InterpreterTranslate_vmovbrc
  | i_vmrs => InterpreterTranslate_vmrs | i_vmovbcr => InterpreterTranslate_vmovbcr
  | i_vmovbrrss => InterpreterTranslate_vmovbrrss | i_vmovbrrd => InterpreterTranslate_vmovbrrd
  | i_vstr => InterpreterTranslate_vstr | i_vpush => InterpreterTranslate_vpush | i_vstm => InterpreterTranslate_vstm
  | i_vpop => InterpreterTranslate_vpop | i_vldr => InterpreterTranslate_vldr | i_vldm => InterpreterTranslate_vldm
  | i_srs => InterpreterTranslate_srs | i_rfe => InterpreterTranslate_rfe | i_bkpt => InterpreterTranslate_bkpt
  | i_blx => InterpreterTranslate_blx | i_cps => InterpreterTranslate_cps | i_pld => InterpreterTranslate_pld
  | i_setend => InterpreterTranslate_setend | i_clrex => InterpreterTranslate_clrex | i_rev16 => InterpreterTranslate_rev16
  | i_usad8 => InterpreterTranslate_usad8 | i_sxtb => InterpreterTranslate_sxtb | i_uxtb => InterpreterTranslate_uxtb
  | i_sxth => InterpreterTranslate_sxth | i_sxtb16 => InterpreterTranslate_sxtb16 | i_uxth => InterpreterTranslate_uxth
  | i_uxtb16 => InterpreterTranslate_uxtb16 | i_cpy => InterpreterTranslate_cpy | i_uxtab => InterpreterTranslate_uxtab
  | i_ssub8 => InterpreterTranslate_ssub8 | i_shsub8 => InterpreterTranslate_shsub8
  | i_ssubaddx => InterpreterTranslate_ssubaddx | i_strex => InterpreterTranslate_strex
  | i_strexb => InterpreterTranslate_strexb | i_swp => InterpreterTranslate_swp | i_swpb => InterpreterTranslate_swpb
  | i_ssub16 => InterpreterTranslate_ssub16 | i_ssat16 => InterpreterTranslate_ssat16
  | i_shsubaddx => InterpreterTranslate_shsubaddx | i_qsubaddx => InterpreterTranslate_qsubaddx
  | i_shaddsubx => InterpreterTranslate_shaddsubx | i_shadd8 => InterpreterTranslate_shadd8
  | i_shadd16 => InterpreterTranslate_shadd16 | i_sel => InterpreterTranslate_sel | i_saddsubx => InterpreterTranslate_saddsubx
  | i_sadd8 => InterpreterTranslate_sadd8 | i_sadd16 => InterpreterTranslate_sadd16 | i_shsub16 => InterpreterTranslate_shsub16
  | i_umaal => InterpreterTranslate_umaal | i_uxtab16 => InterpreterTranslate_uxtab16
  | i_usubaddx => InterpreterTranslate_usubaddx | i_usub8 => InterpreterTranslate_usub8
  | i_usub16 => InterpreterTranslate_usub16 | i_usat16 => InterpreterTranslate_usat16 | i_usada8 => InterpreterTranslate_usada8
  | i_uqsubaddx => InterpreterTranslate_uqsubaddx | i_uqsub8 => InterpreterTranslate_uqsub8
  | i_uqsub16 => InterpreterTranslate_uqsub16 | i_uqaddsubx => InterpreterTranslate_uqaddsubx
  | i_uqadd8 => InterpreterTranslate_uqadd8 | i_uqadd16 => InterpreterTranslate_uqadd16 | i_sxtab => InterpreterTranslate_sxtab
  | i_uhsubaddx => InterpreterTranslate_uhsubaddx | i_uhsub8 => InterpreterTranslate_uhsub8
  | i_uhsub16 => InterpreterTranslate_uhsub16 | i_uhaddsubx => InterpreterTranslate_uhaddsubx
  | i_uhadd8 => InterpreterTranslate_uhadd8 | i_uhadd16 => InterpreterTranslate_uhadd16
  | i_uaddsubx => InterpreterTranslate_uaddsubx | i_uadd8 => InterpreterTranslate_uadd8
  | i_uadd16 => InterpreterTranslate_uadd16 | i_sxtah => InterpreterTranslate_sxtah | i_sxtab16 => InterpreterTranslate_sxtab16
  | i_qadd8 => InterpreterTranslate_qadd8 | i_bxj => InterpreterTranslate_bxj | i_clz => InterpreterTranslate_clz
  | i_uxtah => InterpreterTranslate_uxtah | i_bx => InterpreterTranslate_bx | i_rev => InterpreterTranslate_rev
  | i_revsh => InterpreterTranslate_revsh | i_qadd => InterpreterTranslate_qadd | i_qadd16 => InterpreterTranslate_qadd16
  | i_qaddsubx => InterpreterTranslate_qaddsubx | i_ldrex => InterpreterTranslate_ldrex | i_qdadd => InterpreterTranslate_qdadd
  | i_qdsub => InterpreterTranslate_qdsub | i_qsub => InterpreterTranslate_qsub | i_ldrexb => InterpreterTranslate_ldrexb
  | i_qsub8 => InterpreterTranslate_qsub8 | i_qsub16 => InterpreterTranslate_qsub16 | i_smuad => InterpreterTranslate_smuad
  | i_smmul => InterpreterTranslate_smmul | i_smusd => InterpreterTranslate_smusd | i_smlsd => InterpreterTranslate_smlsd
  | i_smlsld => InterpreterTranslate_smlsld | i_smmla => InterpreterTranslate_smmla | i_smmls => InterpreterTranslate_smmls
  | i_smlald => InterpreterTranslate_smlald | i_smlad => InterpreterTranslate_smlad | i_smlaw => InterpreterTranslate_smlaw
  | i_smulw => InterpreterTranslate_smulw | i_pkhtb => InterpreterTranslate_pkhtb | i_pkhbt => InterpreterTranslate_pkhbt
  | i_smul => InterpreterTranslate_smul | i_smlalxy => InterpreterTranslate_smlalxy | i_smla => InterpreterTranslate_smla
  | i_mcrr => InterpreterTranslate_mcrr | i_mrrc => InterpreterTranslate_mrrc | i_cmp => InterpreterTranslate_cmp
  | i_tst => InterpreterTranslate_tst | i_teq => InterpreterTranslate_teq | i_cmn => InterpreterTranslate_cmn
  | i_smull => InterpreterTranslate_smull | i_umull => InterpreterTranslate_umull | i_umlal => InterpreterTranslate_umlal
  | i_smlal => InterpreterTranslate_smlal | i_mul => InterpreterTranslate_mul | i_mla => InterpreterTranslate_mla
  | i_ssat => InterpreterTranslate_ssat | i_usat => InterpreterTranslate_usat | i_mrs => InterpreterTranslate_mrs
  | i_msr => InterpreterTranslate_msr | i_and => InterpreterTranslate_and | i_bic => InterpreterTranslate_bic
  | i_ldm => InterpreterTranslate_ldm | i_eor => InterpreterTranslate_eor | i_add => InterpreterTranslate_add
  | i_rsb => InterpreterTranslate_rsb | i_rsc => InterpreterTranslate_rsc | i_sbc => InterpreterTranslate_sbc
  | i_adc => InterpreterTranslate_adc | i_sub => InterpreterTranslate_sub | i_orr => InterpreterTranslate_orr
  | i_mvn => InterpreterTranslate_mvn | i_mov => InterpreterTranslate_mov | i_stm => InterpreterTranslate_stm
  | i_ldrsh => InterpreterTranslate_ldrsh | i_ldrsb => InterpreterTranslate_ldrsb | i_strd => InterpreterTranslate_strd
  | i_ldrh => InterpreterTranslate_ldrh | i_strh => InterpreterTranslate_strh | i_ldrd => InterpreterTranslate_ldrd
  | i_strt => InterpreterTranslate_strt | i_strbt => InterpreterTranslate_strbt | i_ldrbt => InterpreterTranslate_ldrbt
  | i_ldrt => InterpreterTranslate_ldrt | i_mrc => InterpreterTranslate_mrc | i_mcr => InterpreterTranslate_mcr
  | i_ldrb => InterpreterTranslate_ldrb | i_strb => InterpreterTranslate_strb | i_ldr => InterpreterTranslate_ldr
  | i_ldrcond => InterpreterTranslate_ldrcond | i_str => InterpreterTranslate_str | i_cdp => InterpreterTranslate_cdp
  | i_stc => InterpreterTranslate_stc | i_ldc => InterpreterTranslate_ldc | i_ldrexd => InterpreterTranslate_ldrexd
  | i_strexd => InterpreterTranslate_strexd | i_ldrexh => InterpreterTranslate_ldrexh | i_strexh => InterpreterTranslate_strexh
  | i_nop => InterpreterTranslate_nop | i_yield => InterpreterTranslate_yield | i_wfe => InterpreterTranslate_wfe
  | i_wfi => InterpreterTranslate_wfi | i_sev => InterpreterTranslate_sev | i_swi => InterpreterTranslate_swi
  | i_bbl => InterpreterTranslate_bbl | i_b_2_thumb => InterpreterTranslate_b_2_thumb
  | i_b_cond_thumb => InterpreterTranslate_b_cond_thumb | i_bl_1_thumb => InterpreterTranslate_bl_1_thumb
  | i_bl_2_thumb => InterpreterTranslate_bl_2_thumb | i_blx_1_thumb => InterpreterTranslate_blx_1_thumb
  end.

(** The Thumb decoder: the status, the ARM instruction and, for a branch, its translation. *)
Definition thumb_trans (tinstr : Z) (index : op) : option arm_inst := Some (arm_instruction_trans index tinstr index).
Definition DecodeThumbInstruction (inst addr : Z) : ThumbDecodeStatus * Z * option arm_inst :=
  let '(ret, ainstr) := TranslateThumbInstruction addr inst in
  match ret with
  | BRANCH =>
      let tinstr := GetThumbInstruction inst addr in
      match field_r tinstr 0xF800 11 with
      | 26 | 27 =>
          if negb (Z.land tinstr 0x0F00 =? 0x0E00) && negb (Z.land tinstr 0x0F00 =? 0x0F00)
          then (ret, ainstr, thumb_trans tinstr i_b_cond_thumb) else (ret, ainstr, None)
      | 28 => (ret, ainstr, thumb_trans tinstr i_b_2_thumb)
      | 8 | 29 => (ret, ainstr, thumb_trans tinstr i_blx_1_thumb)
      | 30 => (ret, ainstr, thumb_trans tinstr i_bl_1_thumb)
      | 31 => (ret, ainstr, thumb_trans tinstr i_bl_2_thumb)
      | _ => (UNDEFINED, ainstr, None)
      end
  | _ => (ret, ainstr, None)
  end.

End ArmI.
