(* ===== verification/ArmAlu.v ===== *)
(** * Data processing and multiplication

    The labels of [InterpreterMainLoop] (core/arm/dyncom/arm_dyncom_interpreter.cpp) for arithmetic, logic,
    multiplication, extension, packing and reversal.  A handler returns where it goes next. *)
From S2P Require Import Prelude ArmSupport ArmState ArmOperands ArmTranslate.

Module ArmA.
Import Arm ArmS ArmOp ArmI.

(** [goto DISPATCH], [FETCH_INST] and [return]. *)
Inductive next := Dispatch | Fetch | Return.

Section Handlers.
Context {M : Type} `{Bus M}.
Implicit Types s : cpu M.
#[local] Abbreviation arm := (@ArmS.arm M).

(** ** What the handlers share *)

(** [cpu->Reg[15] += cpu->GetInstructionSize(); FETCH_INST] *)
Definition advance : arm unit := pc ← get_reg 15; n ← read GetInstructionSize; set_reg 15 (pc + n).
Definition next_instruction : arm next := _ ← advance; mret Fetch.
(** [inst_base->cond == ConditionCode::AL || CondPassed(cpu, inst_base->cond)] *)
Definition pass (cond : Z) : arm bool := read (fun s => (cond =? AL) || CondPassed cond s).
Definition simple (cond : Z) (body : arm unit) : arm next := p ← pass cond; _ ← when p body; next_instruction.
(** The body says whether it writes the program counter and goes to [DISPATCH]. *)
Definition jumping (cond : Z) (body : arm bool) : arm next :=
  p ← pass cond; j ← (if p : bool then body else mret false); if j : bool then mret Dispatch else next_instruction.

(** [RN], with the program counter two instructions ahead. *)
Definition rn_pc (Rn : Z) : arm Z := v ← get_reg Rn; n ← read GetInstructionSize; mret (if Rn =? 15 then u32 (v + 2 * n) else v).
Definition set_bit (n : Z) (b : bool) s : cpu M := set_Cpsr (if b then Z.lor (Cpsr s) (Z.shiftl 1 n) else Z.land (Cpsr s) (not32 (Z.shiftl 1 n))) s.
(** [cpu->Cpsr |= (1 << 27)] *)
Definition set_Q (b : bool) : arm unit := when b (modify (set_bit 27 true)).
(** The status register of the mode that was interrupted comes back. *)
Definition restore_status s : cpu M :=
  if CurrentModeHasSPSR s then let s := set_Cpsr (Spsr_copy s) s in LOAD_NZCVT (ChangePrivilegeMode (Z.land (Spsr_copy s) 0x1F) s) else s.
Definition NZ (v : Z) s : cpu M := UPDATE_ZFLAG v (UPDATE_NFLAG v s).
Definition set_CV (carry overflow : bool) s : cpu M := set_VFlag (Z.b2z overflow) (set_CFlag (Z.b2z carry) s).

(** The tail of an arithmetic and of a logical operation. *)
Definition arith (Sb Rd : Z) (r : Z * bool * bool) : arm bool :=
  let '(result, carry, overflow) := r in
  _ ← set_reg Rd result;
  rd ← get_reg Rd;
  _ ← when (negb (Sb =? 0)) (modify (if Rd =? 15 then restore_status else fun s => set_CV carry overflow (NZ rd s)));
  mret (Rd =? 15).
Definition logical (Sb Rd result : Z) : arm bool :=
  _ ← set_reg Rd result;
  rd ← get_reg Rd;
  _ ← when (negb (Sb =? 0)) (modify (if Rd =? 15 then restore_status else fun s => UPDATE_CFLAG_WITH_SC (NZ rd s)));
  mret (Rd =? 15).

(** ** Data processing *)

Definition ADC_INST (Sb Rn Rd so : Z) (f : option shtop) : arm bool :=
  rn ← rn_pc Rn; v ← shifter f so; c ← carry_flag; arith Sb Rd (AddWithCarry rn v c).
Definition ADD_INST (Sb Rn Rd so : Z) (f : option shtop) : arm bool :=
  rn ← CHECK_READ_REG15_WA Rn; v ← shifter f so; arith Sb Rd (AddWithCarry rn v 0).
Definition AND_INST (Sb Rn Rd so : Z) (f : option shtop) : arm bool :=
  lop ← rn_pc Rn; rop ← shifter f so; logical Sb Rd (Z.land lop rop).
Definition BIC_INST (Sb Rn Rd so : Z) (f : option shtop) : arm bool :=
  lop ← rn_pc Rn; rop ← shifter f so; logical Sb Rd (Z.land lop (not32 rop)).
Definition EOR_INST (Sb Rn Rd so : Z) (f : option shtop) : arm bool :=
  lop ← rn_pc Rn; rop ← shifter f so; logical Sb Rd (Z.lxor lop rop).
Definition ORR_INST (Sb Rn Rd so : Z) (f : option shtop) : arm bool :=
  lop ← rn_pc Rn; rop ← shifter f so; logical Sb Rd (Z.lor lop rop).
Definition RSB_INST (Sb Rn Rd so : Z) (f : option shtop) : arm bool :=
  rn ← rn_pc Rn; v ← shifter f so; arith Sb Rd (AddWithCarry (not32 rn) v 1).
Definition RSC_INST (Sb Rn Rd so : Z) (f : option shtop) : arm bool :=
  rn ← rn_pc Rn; v ← shifter f so; c ← carry_flag; arith Sb Rd (AddWithCarry (not32 rn) v c).
Definition SBC_INST (Sb Rn Rd so : Z) (f : option shtop) : arm bool :=
  rn ← rn_pc Rn; v ← shifter f so; c ← carry_flag; arith Sb Rd (AddWithCarry rn (not32 v) c).
Definition SUB_INST (Sb Rn Rd so : Z) (f : option shtop) : arm bool :=
  rn ← CHECK_READ_REG15_WA Rn; v ← shifter f so; arith Sb Rd (AddWithCarry rn (not32 v) 1).

Definition MOV_INST (Sb Rd so : Z) (f : option shtop) : arm bool := v ← shifter f so; logical Sb Rd v.
Definition MVN_INST (Sb Rd so : Z) (f : option shtop) : arm bool := v ← shifter f so; logical Sb Rd (not32 v).
Definition CPY_INST (Rd so : Z) (f : option shtop) : arm bool := v ← shifter f so; _ ← set_reg Rd v; mret (Rd =? 15).

Definition compare (r : Z * bool * bool) : arm unit :=
  let '(result, carry, overflow) := r in modify (fun s => set_CV carry overflow (NZ result s)).
Definition CMN_INST (Rn so : Z) (f : option shtop) : arm unit :=
  rn ← rn_pc Rn; v ← shifter f so; compare (AddWithCarry rn v 0).
Definition CMP_INST (Rn so : Z) (f : option shtop) : arm unit :=
  rn ← rn_pc Rn; v ← shifter f so; compare (AddWithCarry rn (not32 v) 1).
Definition TEQ_INST (Rn so : Z) (f : option shtop) : arm unit :=
  lop ← rn_pc Rn; rop ← shifter f so; modify (fun s => UPDATE_CFLAG_WITH_SC (NZ (Z.lxor lop rop) s)).
Definition TST_INST (Rn so : Z) (f : option shtop) : arm unit :=
  lop ← rn_pc Rn; rop ← shifter f so; modify (fun s => UPDATE_CFLAG_WITH_SC (NZ (Z.land lop rop) s)).

Definition CLZ_INST (Rm Rd : Z) : arm unit := rm ← get_reg Rm; set_reg Rd (clz rm).

(** ** Multiplication *)

Definition set_NZ (Sb Rd : Z) : arm unit := rd ← get_reg Rd; when (negb (Sb =? 0)) (modify (NZ rd)).
Definition MLA_INST (Sb Rn Rd Rs Rm : Z) : arm unit :=
  rm ← get_reg Rm; rs ← get_reg Rs; rn ← get_reg Rn;
  _ ← set_reg Rd (Z.land (u64 (rm * rs + rn)) 0xffffffff); set_NZ Sb Rd.
Definition MUL_INST (Sb Rd Rs Rm : Z) : arm unit :=
  rm ← get_reg Rm; rs ← get_reg Rs; _ ← set_reg Rd (Z.land (u64 (rm * rs)) 0xffffffff); set_NZ Sb Rd.

(** The lower or the upper half of a register as a signed number. *)
Definition half (top v : Z) : Z :=
  if top =? 0 then s32 (if BIT v 15 =? 0 then BITS v 0 15 else Z.lor (BITS v 0 15) 0xffff0000)
  else s32 (if BIT v 31 =? 0 then BITS v 16 31 else Z.lor (BITS v 16 31) 0xffff0000).
Definition SMLA_INST (x y Rm Rd Rs Rn : Z) : arm unit :=
  rm ← get_reg Rm; rs ← get_reg Rs; rn ← get_reg Rn;
  let product := u32 (half x rm * half y rs) in
  let result := u32 (product + rn) in
  _ ← set_Q (AddOverflow product rn result); set_reg Rd result.
Definition SMUL_INST (Rd Rs Rm x y : Z) : arm unit :=
  rm ← get_reg Rm; rs ← get_reg Rs; set_reg Rd (u32 (half x rm) * u32 (half y rs)).

Definition swap_halves (v : Z) : Z := Z.lor (u32 (Z.shiftl (Z.land v 0xFFFF) 16)) (Z.shiftr v 16).
Definition lo_half (v : Z) : Z := s16 (Z.land v 0xFFFF).
Definition hi_half (v : Z) : Z := s16 (Z.land (Z.shiftr v 16) 0xFFFF).
Definition SMLAD_INST (m Rm Rd Ra Rn op2 : Z) : arm unit :=
  rm ← get_reg Rm; rn ← get_reg Rn;
  let rm := if m =? 0 then rm else swap_halves rm in
  let product1 := u32 (lo_half rn * lo_half rm) in
  let product2 := u32 (hi_half rn * hi_half rm) in
  let add := BIT op2 1 =? 0 in
  let rd_val := u32 (if add then product1 + product2 else product1 - product2) in
  rd_val ← (if Ra =? 15 then mret rd_val
            else ra ← get_reg Ra; _ ← set_Q (ARMul_AddOverflowQ rd_val ra); mret (u32 (rd_val + ra)));
  _ ← set_reg Rd rd_val;
  set_Q (add && ARMul_AddOverflowQ product1 product2).

(** [BITS] on a 64-bit integer. *)
Definition BITS64 (v a b : Z) : Z := Z.shiftr (s64 (Z.shiftl v (63 - b))) (64 - b + a - 1).
Definition widen (v : Z) : Z := if BIT v 31 =? 0 then v else s64 (Z.lor v 0xffffffff00000000).
Definition set_long (RdLo RdHi lo hi : Z) : arm unit := _ ← set_reg RdLo lo; set_reg RdHi hi.
Definition long_flags (Sb RdHi RdLo : Z) : arm unit :=
  hi ← get_reg RdHi; lo ← get_reg RdLo;
  when (negb (Sb =? 0)) (modify (fun s => set_ZFlag (Z.b2z ((hi =? 0) && (lo =? 0))) (set_NFlag (BIT hi 31) s))).
Definition SMLAL_INST (Sb RdHi RdLo Rs Rm : Z) : arm unit :=
  rm ← get_reg Rm; rs ← get_reg Rs; rdhi ← get_reg RdHi; rdlo ← get_reg RdLo;
  let rst := s64 (s64 (widen rm * widen rs) + s64 (s64 (Z.shiftl rdhi 32) + rdlo)) in
  _ ← set_long RdLo RdHi (BITS64 rst 0 31) (BITS64 rst 32 63); long_flags Sb RdHi RdLo.
Definition SMULL_INST (Sb RdHi RdLo Rs Rm : Z) : arm unit :=
  rm ← get_reg Rm; rs ← get_reg Rs;
  let rst := s64 (widen rm * widen rs) in
  _ ← set_reg RdHi (BITS64 rst 32 63); _ ← set_reg RdLo (BITS64 rst 0 31); long_flags Sb RdHi RdLo.
(** [BITS] on an [unsigned long long]. *)
Definition BITSu64 (v a b : Z) : Z := Z.shiftr (u64 (Z.shiftl v (63 - b))) (64 - b + a - 1).
Definition UMLAL_INST (Sb RdHi RdLo Rs Rm : Z) : arm unit :=
  rm ← get_reg Rm; rs ← get_reg Rs; rdhi ← get_reg RdHi; rdlo ← get_reg RdLo;
  let rst := u64 (u64 (rm * rs) + u64 (u64 (Z.shiftl rdhi 32) + rdlo)) in
  _ ← set_long RdLo RdHi (BITSu64 rst 0 31) (BITSu64 rst 32 63); long_flags Sb RdHi RdLo.
Definition UMULL_INST (Sb RdHi RdLo Rs Rm : Z) : arm unit :=
  rm ← get_reg Rm; rs ← get_reg Rs;
  let rst := u64 (rm * rs) in
  _ ← set_reg RdHi (BITSu64 rst 32 63); _ ← set_reg RdLo (BITSu64 rst 0 31); long_flags Sb RdHi RdLo.
Definition UMAAL_INST (Rn Rm RdHi RdLo : Z) : arm unit :=
  rm ← get_reg Rm; rn ← get_reg Rn; rd_lo ← get_reg RdLo; rd_hi ← get_reg RdHi;
  let result := u64 (rm * rn + rd_lo + rd_hi) in
  set_long RdLo RdHi (Z.land result 0xFFFFFFFF) (Z.land (Z.shiftr result 32) 0xFFFFFFFF).
Definition SMLALXY_INST (x y RdLo RdHi Rm Rn : Z) : arm unit :=
  rn ← get_reg Rn; rm ← get_reg Rm; rdhi ← get_reg RdHi; rdlo ← get_reg RdLo;
  let operand top v :=
    let v := Z.land (if top =? 0 then v else Z.shiftr v 16) 0xFFFF in
    if Z.land v 0x8000 =? 0 then v else u64 (v - 65536) in
  let dest := u64 (Z.lor (Z.shiftl rdhi 32) rdlo + operand x rn * operand y rm) in
  set_long RdLo RdHi (Z.land dest 0xFFFFFFFF) (Z.land (Z.shiftr dest 32) 0xFFFFFFFF).
Definition SMLALD_INST (RdLo RdHi Rm Rn swap op2 : Z) : arm unit :=
  rdlo ← get_reg RdLo; rdhi ← get_reg RdHi; rn ← get_reg Rn; rm ← get_reg Rm;
  let rm := if swap =? 1 then swap_halves rm else rm in
  let product1 := lo_half rn * lo_half rm in
  let product2 := hi_half rn * hi_half rm in
  let acc := s64 (Z.lor rdlo (s64 (Z.shiftl rdhi 32))) in
  let result := s64 (s32 (if BIT op2 1 =? 0 then product1 + product2 else product1 - product2) + acc) in
  set_long RdLo RdHi (Z.land result 0xFFFFFFFF) (Z.land (Z.shiftr result 32) 0xFFFFFFFF).

Definition SMLAW_INST (m Rm Rd Ra Rn : Z) : arm unit :=
  rm ← get_reg Rm; rn ← get_reg Rn; ra ← get_reg Ra;
  let operand2 := if m =? 1 then hi_half rm else lo_half rm in
  let result := s32 rn * operand2 + Z.shiftl (s32 ra) 16 in
  _ ← set_reg Rd (BITS64 result 16 47);
  rd ← get_reg Rd;
  set_Q (negb (Z.shiftr result 16 =? s32 rd)).
Definition SMULW_INST (m Rm Rd Rn : Z) : arm unit :=
  rm ← get_reg Rm; rn ← get_reg Rn;
  let rm := if m =? 1 then hi_half rm else lo_half rm in
  set_reg Rd (BITS64 (rm * s32 rn) 16 47).
Definition SMMLA_INST (m Rm Rd Ra Rn op2 : Z) : arm unit :=
  rm ← get_reg Rm; rn ← get_reg Rn;
  let result := s32 rn * s32 rm in
  result ← (if Ra =? 15 then mret result
            else ra ← get_reg Ra;
                 mret (s64 (if BIT op2 1 =? 0 then result + s64 (Z.shiftl ra 32) else s64 (Z.shiftl ra 32) - result)));
  let result := if m =? 1 then s64 (result + 0x80000000) else result in
  set_reg Rd (Z.land (Z.shiftr result 32) 0xFFFFFFFF).

End Handlers.
End ArmA.
