(* ===== verification/ArmParallel.v ===== *)
(** * Media instructions

    The labels of [InterpreterMainLoop] (core/arm/dyncom/arm_dyncom_interpreter.cpp) for saturating arithmetic,
    parallel additions and subtractions of bytes and halfwords, selection, packing, extension and reversal. *)
From S2P Require Import Prelude ArmSupport ArmState ArmOperands ArmTranslate ArmAlu.

Module ArmP.
Import Arm ArmS ArmOp ArmI ArmA.

Section Handlers.
Context {M : Type} `{Bus M}.
Implicit Types s : cpu M.
#[local] Abbreviation arm := (@ArmS.arm M).

(** Halfwords and bytes of a word, and words made of them. *)
Definition lo16 (v : Z) : Z := Z.land v 0xFFFF.
Definition hi16 (v : Z) : Z := Z.land (Z.shiftr v 16) 0xFFFF.
Definition byte (n v : Z) : Z := Z.land (Z.shiftr v (8 * n)) 0xFF.
Definition join16 (lo hi : Z) : Z := Z.lor (Z.land lo 0xFFFF) (Z.shiftl (Z.land hi 0xFFFF) 16).
Definition join8 (b0 b1 b2 b3 : Z) : Z :=
  Z.lor (Z.lor (Z.lor (Z.land b0 0xFF) (Z.shiftl (Z.land b1 0xFF) 8)) (Z.shiftl (Z.land b2 0xFF) 16)) (Z.shiftl (Z.land b3 0xFF) 24).

(** The four operations on halfwords [op2] selects: both sums, exchanged with the difference low, exchanged with
    the sum low, both differences; [None] for another [op2]. *)
Definition halves (add sub : Z -> Z -> Z) (op2 rn_lo rn_hi rm_lo rm_hi : Z) : option (Z * Z) :=
  match op2 with
  | 0 => Some (add rn_lo rm_lo, add rn_hi rm_hi)
  | 1 => Some (sub rn_lo rm_hi, add rn_hi rm_lo)
  | 2 => Some (add rn_lo rm_hi, sub rn_hi rm_lo)
  | 3 => Some (sub rn_lo rm_lo, sub rn_hi rm_hi)
  | _ => None
  end.

(** ** Saturation *)

Definition saturated (result : Z) : Z := if POS result =? 0 then 0x7FFFFFFF else 0x80000000.
Definition QADD_INST (op1 Rm Rn Rd : Z) : arm unit :=
  rm ← get_reg Rm; rn ← get_reg Rn;
  let doubled := u32 (rn * 2) in
  let double_overflows := AddOverflow rn rn doubled in
  let mul := if double_overflows then saturated doubled else doubled in
  let add a b := let r := u32 (a + b) in (r, AddOverflow a b r) in
  let sub a b := let r := u32 (a - b) in (r, SubOverflow a b r) in
  let '(result, overflows, q) :=
    match op1 with
    | 0 => (add rm rn, false)
    | 1 => (sub rm rn, false)
    | 2 => (add rm mul, double_overflows)
    | 3 => (sub rm mul, double_overflows)
    | _ => ((0, false), false)
    end in
  _ ← set_Q (overflows || q);
  set_reg Rd (if overflows : bool then saturated result else result).

Definition QADD8_INST (op2 Rm Rn Rd : Z) : arm unit :=
  rm ← get_reg Rm; rn ← get_reg Rn;
  let bytes f := (Z.lor (f (byte 0 rn) (byte 0 rm)) (Z.shiftl (f (byte 1 rn) (byte 1 rm)) 8),
                  Z.lor (f (byte 2 rn) (byte 2 rm)) (Z.shiftl (f (byte 3 rn) (byte 3 rm)) 8)) in
  let '(lo_result, hi_result) :=
    match halves ARMul_SignedSaturatedAdd16 ARMul_SignedSaturatedSub16 op2 (lo16 rn) (hi16 rn) (lo16 rm) (hi16 rm) with
    | Some r => r
    | None => if op2 =? 4 then bytes ARMul_SignedSaturatedAdd8 else if op2 =? 7 then bytes ARMul_SignedSaturatedSub8 else (0, 0)
    end in
  set_reg Rd (join16 lo_result hi_result).

Definition UQADD8_INST (op2 Rm Rn Rd : Z) : arm unit :=
  rm ← get_reg Rm; rn ← get_reg Rn;
  let bytes f := (Z.lor (f (byte 0 rn) (byte 0 rm)) (Z.shiftl (f (byte 1 rn) (byte 1 rm)) 8),
                  Z.lor (f (byte 2 rn) (byte 2 rm)) (Z.shiftl (f (byte 3 rn) (byte 3 rm)) 8)) in
  let '(lo_val, hi_val) :=
    match halves ARMul_UnsignedSaturatedAdd16 ARMul_UnsignedSaturatedSub16 op2 (lo16 rn) (hi16 rn) (lo16 rm) (hi16 rm) with
    | Some r => r
    | None => if op2 =? 4 then bytes ARMul_UnsignedSaturatedAdd8 else bytes ARMul_UnsignedSaturatedSub8
    end in
  set_reg Rd (join16 lo_val hi_val).

(** The operand of SSAT and USAT: an arithmetic shift by 32 is written as one by 0. *)
Definition sat_operand (shift_type imm5 rn : Z) : Z :=
  let shift_amount := if (shift_type =? 1) && (imm5 =? 0) then 31 else imm5 in
  if shift_type =? 0 then u32 (Z.shiftl rn shift_amount) else if shift_type =? 1 then u32 (Z.shiftr (s32 rn) shift_amount) else rn.
Definition saturate (f : Z -> Z -> Z * bool) (Rn Rd imm5 sat_imm shift_type : Z) : arm unit :=
  rn ← get_reg Rn;
  let '(v, q) := f (s32 (sat_operand shift_type imm5 rn)) sat_imm in
  _ ← set_Q q; set_reg Rd v.
Definition SSAT_INST (Rn Rd imm5 sat_imm shift_type : Z) : arm unit := saturate ARMul_SignedSatQ Rn Rd imm5 sat_imm shift_type.
Definition USAT_INST (Rn Rd imm5 sat_imm shift_type : Z) : arm unit := saturate ARMul_UnsignedSatQ Rn Rd imm5 sat_imm shift_type.
Definition saturate16 (f : Z -> Z -> Z * bool) (Rn Rd saturate_to : Z) : arm unit :=
  rn ← get_reg Rn;
  let '(lo, sat1) := f (s16 rn) saturate_to in
  let '(hi, sat2) := f (Z.shiftr (s32 rn) 16) saturate_to in
  _ ← set_reg Rd (Z.lor (Z.land lo 0xFFFF) (u32 (Z.shiftl hi 16))); set_Q (sat1 || sat2).
Definition SSAT16_INST (Rn Rd saturate_to : Z) : arm unit := saturate16 ARMul_SignedSatQ Rn Rd saturate_to.
Definition USAT16_INST (Rn Rd saturate_to : Z) : arm unit := saturate16 ARMul_UnsignedSatQ Rn Rd saturate_to.

(** ** Parallel arithmetic *)

(** The bits of the status register that say how the bytes compared. *)
Definition set_GE16 (lo hi : bool) s : cpu M := set_bit 19 hi (set_bit 18 hi (set_bit 17 lo (set_bit 16 lo s))).
Definition set_GE8 (b0 b1 b2 b3 : bool) s : cpu M := set_bit 19 b3 (set_bit 18 b2 (set_bit 17 b1 (set_bit 16 b0 s))).

Definition SADD8_INST (op2 Rm Rn Rd : Z) : arm unit :=
  rm ← get_reg Rm; rn ← get_reg Rn;
  match halves Z.add Z.sub op2 (s16 (lo16 rn)) (s16 (hi16 rn)) (s16 (lo16 rm)) (s16 (hi16 rm)) with
  | Some (lo, hi) => _ ← set_reg Rd (join16 lo hi); modify (set_GE16 (0 <=? lo) (0 <=? hi))
  | None =>
      when ((op2 =? 4) || (op2 =? 7))
        (let f := if op2 =? 4 then Z.add else Z.sub in
         let v n := f (s8 (byte n rn)) (s8 (byte n rm)) in
         _ ← set_reg Rd (join8 (v 0) (v 1) (v 2) (v 3)); modify (set_GE8 (0 <=? v 0) (0 <=? v 1) (0 <=? v 2) (0 <=? v 3)))
  end.

Definition SHADD8_INST (op2 Rm Rn Rd : Z) : arm unit :=
  rm ← get_reg Rm; rn ← get_reg Rn;
  match halves Z.add Z.sub op2 (s16 (lo16 rn)) (s16 (hi16 rn)) (s16 (lo16 rm)) (s16 (hi16 rm)) with
  | Some (lo, hi) => set_reg Rd (join16 (Z.shiftr lo 1) (Z.shiftr hi 1))
  | None =>
      when ((op2 =? 4) || (op2 =? 7))
        (let f := if op2 =? 4 then Z.add else Z.sub in
         let v n := Z.shiftr (f (s8 (byte n rn)) (s8 (byte n rm))) 1 in
         set_reg Rd (join8 (v 0) (v 1) (v 2) (v 3)))
  end.

Definition UADD8_INST (op2 Rm Rn Rd : Z) : arm unit :=
  rm ← get_reg Rm; rn ← get_reg Rn;
  let none (x : Z) := Z.land (u32 x) 0xFFFF0000 =? 0 in
  match halves Z.add Z.sub op2 (lo16 rn) (hi16 rn) (lo16 rm) (hi16 rm) with
  | Some (lo, hi) =>
      let '(ge_lo, ge_hi) :=
        match op2 with
        | 0 => (negb (none lo), negb (none hi))
        | 1 => (0 <=? lo, 0x10000 <=? hi)
        | 2 => (0x10000 <=? lo, 0 <=? hi)
        | _ => (none lo, none hi)
        end in
      _ ← modify (set_GE16 ge_lo ge_hi); set_reg Rd (join16 lo hi)
  | None =>
      if (op2 =? 4) || (op2 =? 7) then
        let f := if op2 =? 4 then Z.add else Z.sub in
        let v n := f (byte n rn) (byte n rm) in
        let ge n := (if op2 =? 4 then 0x100 else 0) <=? v n in
        _ ← modify (set_GE8 (ge 0) (ge 1) (ge 2) (ge 3));
        set_reg Rd (join16 (Z.lor (Z.land (v 0) 0xFF) (Z.shiftl (Z.land (v 1) 0xFF) 8)) (Z.lor (Z.land (v 2) 0xFF) (Z.shiftl (Z.land (v 3) 0xFF) 8)))
      else set_reg Rd (join16 0 0)
  end.

Definition UHADD8_INST (op2 Rm Rn Rd : Z) : arm unit :=
  rm ← get_reg Rm; rn ← get_reg Rn;
  let add a b := u32 (a + b) in
  let sub a b := u32 (a - b) in
  match halves add sub op2 (lo16 rn) (hi16 rn) (lo16 rm) (hi16 rm) with
  | Some (lo, hi) => set_reg Rd (join16 (Z.shiftr lo 1) (Z.shiftr hi 1))
  | None =>
      when ((op2 =? 4) || (op2 =? 7))
        (let f := if op2 =? 4 then add else sub in
         let v n := Z.shiftr (f (byte n rn) (byte n rm)) 1 in
         set_reg Rd (join8 (v 0) (v 1) (v 2) (v 3)))
  end.

Definition SEL_INST (Rm Rn Rd : Z) : arm unit :=
  to ← get_reg Rm; from ← get_reg Rn; cpsr ← read Cpsr;
  let select n mask := Z.land (if Z.land cpsr (Z.shiftl 1 n) =? 0 then to else from) mask in
  set_reg Rd (Z.lor (Z.lor (Z.lor (select 16 0xff) (select 17 0x0000ff00)) (select 18 0x00ff0000)) (select 19 0xff000000)).

Definition USADA8_INST (Ra Rm Rn Rd : Z) : arm unit :=
  rm ← get_reg Rm; rn ← get_reg Rn;
  let diff n := ARMul_UnsignedAbsoluteDifference (byte n rn) (byte n rm) in
  let finalDif := diff 0 + diff 1 + diff 2 + diff 3 in
  if Ra =? 15 then set_reg Rd finalDif else ra ← get_reg Ra; set_reg Rd (finalDif + ra).

(** ** Packing, reversal and extension *)

Definition PKHBT_INST (Rm Rn Rd imm : Z) : arm unit :=
  rn ← get_reg Rn; rm ← get_reg Rm; set_reg Rd (Z.lor (Z.land rn 0xFFFF) (Z.land (u32 (Z.shiftl rm imm)) 0xFFFF0000)).
Definition PKHTB_INST (Rm Rn Rd imm : Z) : arm unit :=
  rn ← get_reg Rn; rm ← get_reg Rm;
  let shift_imm := if imm =? 0 then 31 else imm in
  set_reg Rd (Z.lor (Z.land (Z.shiftr (s32 rm) shift_imm) 0xFFFF) (Z.land rn 0xFFFF0000)).

Definition REV_INST (Rd Rm op1 op2 : Z) : arm unit :=
  rm ← get_reg Rm;
  if (op1 =? 3) && (op2 =? 1) then
    set_reg Rd (Z.lor (Z.lor (Z.lor (Z.shiftl (Z.land rm 0xFF) 24) (Z.shiftl (Z.land (Z.shiftr rm 8) 0xFF) 16))
      (Z.shiftl (Z.land (Z.shiftr rm 16) 0xFF) 8)) (Z.land (Z.shiftr rm 24) 0xFF))
  else if (op1 =? 3) && (op2 =? 5) then
    set_reg Rd (Z.lor (Z.lor (Z.lor (Z.shiftl (Z.land rm 0xFF) 8) (Z.shiftr (Z.land rm 0xFF00) 8)) (Z.shiftl (Z.land rm 0xFF0000) 8))
      (Z.shiftr (Z.land rm 0xFF000000) 8))
  else when ((op1 =? 7) && (op2 =? 5))
    (_ ← set_reg Rd (Z.lor (Z.shiftl (Z.land rm 0xFF) 8) (Z.shiftr (Z.land rm 0xFF00) 8));
     rd ← get_reg Rd; when (negb (Z.land rd 0x8000 =? 0)) (set_reg Rd (Z.lor rd 0xffff0000))).

(** The rotated operand. *)
Definition rotated (Rm rotate : Z) : arm Z := rm ← get_reg Rm; mret (ROTATE_RIGHT_32 rm (8 * rotate)).
Definition SXTH_INST (Rd Rm rotate : Z) : arm unit :=
  v ← rotated Rm rotate; set_reg Rd (if BIT v 15 =? 0 then Z.land v 0xffff else Z.lor v 0xffff0000).
Definition SXTB_INST (Rd Rm rotate : Z) : arm unit :=
  v ← rotated Rm rotate; set_reg Rd (if BIT v 7 =? 0 then Z.land v 0xff else Z.lor v 0xffffff00).
Definition UXTH_INST (Rd Rm rotate : Z) : arm unit := v ← rotated Rm rotate; set_reg Rd (Z.land v 0xffff).
Definition UXTB_INST (Rd Rm rotate : Z) : arm unit := v ← rotated Rm rotate; set_reg Rd (Z.land v 0xff).
Definition UXTAH_INST (Rd Rn Rm rotate : Z) : arm unit :=
  v ← rotated Rm rotate; rn ← get_reg Rn; set_reg Rd (rn + Z.land v 0xffff).
Definition UXTAB_INST (Rd Rn Rm rotate : Z) : arm unit :=
  v ← rotated Rm rotate; rn ← get_reg Rn; set_reg Rd (rn + Z.land v 0xff).
Definition SXTAB_INST (Rd Rn Rm rotate : Z) : arm unit :=
  v ← rotated Rm rotate; rn ← get_reg Rn;
  let operand2 := Z.land v 0xff in
  set_reg Rd (rn + if Z.land 0x80 operand2 =? 0 then operand2 else Z.lor 0xFFFFFF00 operand2).
Definition SXTAH_INST (Rd Rn Rm rotate : Z) : arm unit :=
  v ← rotated Rm rotate; rn ← get_reg Rn;
  let operand2 := Z.land v 0xffff in
  set_reg Rd (rn + if Z.land 0x8000 operand2 =? 0 then operand2 else Z.lor 0xFFFF0000 operand2).
Definition SXTAB16_INST (Rd Rn Rm rotate : Z) : arm unit :=
  rm ← get_reg Rm; rn ← get_reg Rn;
  let rotation := rotate * 8 in
  let rm := if rotation =? 0 then rm else Z.lor (u32 (Z.shiftl rm (32 - rotation))) (Z.shiftr rm rotation) in
  let lo_byte := u32 (s8 (Z.land rm 0xFF)) in
  let hi_byte := u32 (s8 (Z.land (Z.shiftr rm 16) 0xFF)) in
  let '(lo, hi) := if Rn =? 15 then (lo_byte, hi_byte) else (u32 (rn + lo_byte), u32 (Z.shiftr rn 16 + hi_byte)) in
  set_reg Rd (Z.lor (Z.land lo 0xFFFF) (u32 (Z.shiftl hi 16))).
Definition UXTAB16_INST (Rd Rn Rm rotate : Z) : arm unit :=
  rm ← get_reg Rm;
  let rotated_rm := ROTATE_RIGHT_32 rm (rotate * 8) in
  if Rn =? 15 then set_reg Rd (Z.land rotated_rm 0x00FF00FF)
  else
    rn ← get_reg Rn;
    let lo_result := u16 (Z.land rn 0xFFFF + Z.land rotated_rm 0xFF) in
    let hi_result := u16 (Z.shiftr rn 16 + Z.land (Z.shiftr rotated_rm 16) 0xFF) in
    set_reg Rd (Z.lor (Z.shiftl hi_result 16) (Z.land lo_result 0xFFFF)).

End Handlers.
End ArmP.
