(* ===== verification/ArmTransfer.v ===== *)
(** * Branches, loads and stores, system instructions

    The labels of [InterpreterMainLoop] (core/arm/dyncom/arm_dyncom_interpreter.cpp) that move the program
    counter, memory and the status and system registers. *)
From S2P Require Import Prelude ArmSupport ArmState ArmOperands ArmTranslate ArmAlu ArmParallel.

Module ArmM.
Import Arm ArmS ArmOp ArmI ArmA.

Section Handlers.
Context {M : Type} `{Bus M}.
Implicit Types s : cpu M.
#[local] Abbreviation arm := (@ArmS.arm M).

(** ** Branches *)

Definition BBL_INST (L signed_immed_24 : Z) : arm bool :=
  pc ← get_reg 15; _ ← when (negb (L =? 0)) (set_reg 14 (pc + 4)); _ ← set_reg 15 (pc + 8 + signed_immed_24); mret true.

(** The sign extension of the immediate, times four. *)
Definition blx_offset (signed_int : Z) : Z :=
  s32 (Z.shiftl (if Z.land signed_int 0x800000 =? 0 then signed_int else Z.lor 0x3F000000 signed_int) 2).
Definition BLX_INST (val inst : Z) : arm bool :=
  pc ← get_reg 15; n ← read GetInstructionSize;
  if (BITS inst 20 27 =? 0x12) && (BITS inst 4 7 =? 0x3) then
    jump_address ← get_reg val;
    t ← read TFlag;
    _ ← set_reg 14 (if t =? 0 then pc + n else Z.lor (u32 (pc + n)) 0x1);
    _ ← set_reg 15 (Z.land jump_address 0xfffffffe);
    _ ← modify (set_TFlag (Z.land jump_address 0x1)); mret true
  else
    _ ← set_reg 14 (pc + n);
    _ ← modify (set_TFlag 0x1);
    _ ← set_reg 15 (pc + 8 + blx_offset val + Z.shiftl (BIT inst 24) 1); mret true.

Definition BX_INST (Rm : Z) : arm bool :=
  address ← rn_pc Rm;
  _ ← modify (set_TFlag (Z.land address 1)); _ ← set_reg 15 (Z.land address 0xfffffffe); mret true.

Definition B_2_THUMB (imm : Z) : arm next := pc ← get_reg 15; _ ← set_reg 15 (pc + 4 + imm); mret Dispatch.
Definition B_COND_THUMB (imm cond : Z) : arm next :=
  p ← read (CondPassed cond); pc ← get_reg 15;
  _ ← set_reg 15 (if p : bool then pc + 4 + imm else pc + 2); mret Dispatch.
Definition BL_1_THUMB (imm : Z) : arm next := pc ← get_reg 15; _ ← set_reg 14 (pc + 4 + imm); next_instruction.
Definition BL_2_THUMB (imm : Z) : arm next :=
  pc ← get_reg 15; lr ← get_reg 14;
  let tmp := Z.lor (u32 (pc + 2)) 1 in
  _ ← set_reg 15 (lr + imm); _ ← set_reg 14 tmp; mret Dispatch.
Definition BLX_1_THUMB (imm : Z) : arm next :=
  tmp ← get_reg 15; lr ← get_reg 14;
  _ ← set_reg 15 (Z.land (u32 (lr + imm)) 0xFFFFFFFC); _ ← set_reg 14 (Z.lor (u32 (tmp + 2)) 1);
  _ ← modify (set_TFlag 0); mret Dispatch.

(** ** Loads and stores of one register *)

Definition Rd_of (inst : Z) : Z := BITS inst 12 15.
Definition load (n inst : Z) (f : option addressing) (extend : Z -> Z) : arm unit :=
  addr ← get_addr f inst; value ← ReadMemory n addr; set_reg (Rd_of inst) (extend value).
(** A loaded program counter enters Thumb code when its lowest bit is set. *)
Definition LDR_INST (inst : Z) (f : option addressing) : arm bool :=
  addr ← get_addr f inst; value ← ReadMemory 4 addr;
  _ ← set_reg (Rd_of inst) value;
  if Rd_of inst =? 15 then
    _ ← modify (set_TFlag (Z.land value 0x1)); pc ← get_reg 15; _ ← set_reg 15 (Z.land pc 0xFFFFFFFE); mret true
  else mret false.
Definition LDRB_INST (inst : Z) (f : option addressing) : arm unit := load 1 inst f (fun v => v).
Definition LDRH_INST (inst : Z) (f : option addressing) : arm unit := load 2 inst f (fun v => v).
Definition LDRSB_INST (inst : Z) (f : option addressing) : arm unit :=
  load 1 inst f (fun v => if BIT v 7 =? 0 then v else Z.lor v 0xffffff00).
Definition LDRSH_INST (inst : Z) (f : option addressing) : arm unit :=
  load 2 inst f (fun v => if BIT v 15 =? 0 then v else Z.lor v 0xffff0000).
Definition LDRD_INST (inst : Z) (f : option addressing) : arm unit :=
  addr ← get_addr f inst;
  lo ← ReadMemory 4 addr; _ ← set_reg (Rd_of inst + 0) lo;
  hi ← ReadMemory 4 (u32 (addr + 4)); set_reg (Rd_of inst + 1) hi.

Definition stored (inst : Z) : arm Z := get_reg (Rd_of inst).
Definition STR_INST (inst : Z) (f : option addressing) : arm unit :=
  addr ← get_addr f inst; value ← rn_pc (Rd_of inst); WriteMemory 4 addr value.
Definition STRB_INST (inst : Z) (f : option addressing) : arm unit :=
  addr ← get_addr f inst; value ← stored inst; WriteMemory 1 addr (Z.land value 0xff).
Definition STRH_INST (inst : Z) (f : option addressing) : arm unit :=
  addr ← get_addr f inst; value ← stored inst; WriteMemory 2 addr (Z.land value 0xffff).
Definition STRD_INST (inst : Z) (f : option addressing) : arm unit :=
  addr ← get_addr f inst;
  lo ← get_reg (Rd_of inst); _ ← WriteMemory 4 addr lo;
  hi ← get_reg (Rd_of inst + 1); WriteMemory 4 (u32 (addr + 4)) hi.

(** The unprivileged forms access memory in user mode. *)
Definition in_user_mode {A} (m : arm A) : arm A :=
  previous_mode ← read Mode; _ ← modify (ChangePrivilegeMode USER32MODE); a ← m; _ ← modify (ChangePrivilegeMode previous_mode); mret a.
Definition load_user (n inst : Z) (f : option addressing) : arm unit :=
  addr ← get_addr f inst; value ← in_user_mode (ReadMemory n addr); set_reg (Rd_of inst) value.
Definition LDRBT_INST (inst : Z) (f : option addressing) : arm unit := load_user 1 inst f.
Definition LDRT_INST (inst : Z) (f : option addressing) : arm unit := load_user 4 inst f.
Definition STRBT_INST (inst : Z) (f : option addressing) : arm unit :=
  addr ← get_addr f inst; value ← stored inst; in_user_mode (WriteMemory 1 addr (Z.land value 0xff)).
Definition STRT_INST (inst : Z) (f : option addressing) : arm unit :=
  addr ← get_addr f inst; value ← rn_pc (Rd_of inst); in_user_mode (WriteMemory 4 addr value).

(** ** Loads and stores of several registers *)

Definition listed (inst : Z) (l : list Z) : list Z := filter (fun i => bit inst i = true) l.
Definition below (n : Z) : list Z := seqZ 0 n.
(** [for (i ...) if (BIT(inst, i)) { ...; addr += 4; }] *)
Fixpoint load_each (put_word : Z -> Z -> arm unit) (l : list Z) (addr : Z) : arm Z :=
  match l with
  | [] => mret addr
  | i :: l => v ← ReadMemory 4 addr; _ ← put_word i v; load_each put_word l (u32 (addr + 4))
  end.
Fixpoint store_each (word : Z -> arm Z) (l : list Z) (addr : Z) : arm Z :=
  match l with
  | [] => mret addr
  | i :: l => v ← word i; _ ← WriteMemory 4 addr v; store_each word l (u32 (addr + 4))
  end.

(** A register of user mode: r13 and r14 are banked in the other modes. *)
Definition get_user_reg (i : Z) : arm Z :=
  mode ← read Mode;
  if (i <? 13) || (mode =? USER32MODE) then get_reg i else r ← read Reg_usr; lift (at_index r (i - 13)).
Definition set_user_reg (i v : Z) : arm unit :=
  mode ← read Mode;
  if (i <? 13) || (mode =? USER32MODE) then set_reg i v else modify (fun s => set_Reg_usr (put (i - 13) (u32 v) (Reg_usr s)) s).

(** A loaded program counter enters Thumb code when its lowest bit is set. *)
Definition set_loaded (i v : Z) : arm unit :=
  if i =? 15 then _ ← modify (set_TFlag (Z.land v 0x1)); set_reg 15 (Z.land v 0xFFFFFFFE) else set_reg i v.

Definition LDM_INST (inst : Z) (f : option addressing) : arm bool :=
  addr ← get_addr f inst;
  _ ← (if bit inst 22 then
         if bit inst 15 then
           addr ← load_each set_reg (listed inst (below 15)) addr;
           _ ← modify restore_status;
           v ← ReadMemory 4 addr; set_reg 15 v
         else _ ← load_each set_user_reg (listed inst (below 15)) addr; mret tt
       else _ ← load_each set_loaded (listed inst (below 16)) addr; mret tt);
  mret (bit inst 15).

Definition STM_INST (inst : Z) (f : option addressing) : arm unit :=
  let Rn := Rn_of inst in
  old_RN ← get_reg Rn;
  addr ← get_addr f inst;
  addr ← (if bit inst 22 then store_each get_user_reg (listed inst (below 15)) addr
          else store_each (fun i => if i =? Rn then mret old_RN else get_reg i) (listed inst (below 15)) addr);
  when (bit inst 15) (pc ← get_reg 15; WriteMemory 4 addr (u32 (pc + 8))).

(** ** Exclusive accesses and swaps *)

Definition LDREX_INST (n Rn Rd : Z) : arm unit :=
  read_addr ← get_reg Rn; _ ← modify (SetExclusiveMemoryAddress read_addr); v ← ReadMemory n read_addr; set_reg Rd v.
Definition LDREXD_INST (Rn Rd : Z) : arm unit :=
  read_addr ← get_reg Rn; _ ← modify (SetExclusiveMemoryAddress read_addr);
  lo ← ReadMemory 4 read_addr; _ ← set_reg Rd lo; hi ← ReadMemory 4 (u32 (read_addr + 4)); set_reg (Rd + 1) hi.
(** The store happens and 0 is returned when the address is still reserved. *)
Definition exclusive (Rn Rd : Z) (write : Z -> arm unit) : arm unit :=
  write_addr ← get_reg Rn;
  b ← read (IsExclusiveMemoryAccess write_addr);
  if b : bool then _ ← modify UnsetExclusiveMemoryAddress; _ ← write write_addr; set_reg Rd 0 else set_reg Rd 1.
Definition STREX_INST (n Rm Rn Rd : Z) : arm unit := exclusive Rn Rd (fun a => v ← get_reg Rm; WriteMemory n a (wrap (8 * n) v)).
Definition STREXD_INST (Rm Rn Rd : Z) : arm unit :=
  exclusive Rn Rd (fun a =>
    rt ← get_reg (Rm + 0); rt2 ← get_reg (Rm + 1);
    big ← read InBigEndianMode;
    WriteMemory 8 a (if big : bool then Z.lor (Z.shiftl rt 32) rt2 else Z.lor (Z.shiftl rt2 32) rt)).
Definition CLREX_INST : arm next := _ ← modify UnsetExclusiveMemoryAddress; next_instruction.
Definition SWP_INST (Rn Rd Rm : Z) : arm unit :=
  addr ← get_reg Rn; value ← ReadMemory 4 addr; rm ← get_reg Rm; _ ← WriteMemory 4 addr rm; set_reg Rd value.
Definition SWPB_INST (Rn Rd Rm : Z) : arm unit :=
  addr ← get_reg Rn; value ← ReadMemory 1 addr; rm ← get_reg Rm; _ ← WriteMemory 1 addr (Z.land rm 0xFF); set_reg Rd value.

(** ** Status and system registers *)

(** What CPS does to the status register of a privileged mode. *)
Definition cps_status (imod0 imod1 mmod A I F mode : Z) s : cpu M :=
  let set (b : Z) := negb (b =? 0) in
  let bits (b : bool) (n v : Z) := if b then Z.shiftl v n else 0 in
  let aif_val := Z.lor (Z.lor (bits (set A) 8 imod0) (bits (set I) 7 imod0)) (bits (set F) 6 imod0) in
  let aif_mask := Z.lor (Z.lor (bits (set A) 8 1) (bits (set I) 7 1)) (bits (set F) 6 1) in
  let s := if set imod1 then set_Cpsr (Z.lor (Z.land (Cpsr s) (not32 aif_mask)) aif_val) s else s in
  if set mmod then ChangePrivilegeMode mode (set_Cpsr (Z.lor (Z.land (Cpsr s) 0xffffffe0) mode) s) else s.
Definition CPS_INST (imod0 imod1 mmod A I F mode : Z) : arm next :=
  _ ← modify (fun s => if InAPrivilegedMode s then cps_status imod0 imod1 mmod A I F mode s else s); next_instruction.

Definition MRS_INST (R Rd : Z) : arm unit :=
  if R =? 0 then _ ← modify SAVE_NZCVT; v ← read Cpsr; set_reg Rd v else v ← read Spsr_copy; set_reg Rd v.

Definition UserMask : Z := 0xf80f0200.
Definition PrivMask : Z := 0x000001df.
Definition StateMask : Z := 0x01000020.
Definition msr_byte_mask (inst : Z) : Z :=
  Z.lor (Z.lor (Z.lor (if bit inst 16 then 0xff else 0) (if bit inst 17 then 0xff00 else 0)) (if bit inst 18 then 0xff0000 else 0))
    (if bit inst 19 then 0xff000000 else 0).
Definition masked (old v mask : Z) : Z := Z.lor (Z.land old (not32 mask)) (Z.land v mask).
(** The bits of the status register an operand may set. *)
Definition msr_mask (privileged : bool) (operand inst : Z) : Z :=
  if privileged then (if Z.land operand StateMask =? 0 then Z.land (msr_byte_mask inst) (Z.lor UserMask PrivMask) else 0)
  else Z.land (msr_byte_mask inst) UserMask.
Definition msr_cpsr (operand inst : Z) s : cpu M :=
  let mask := msr_mask (InAPrivilegedMode s) operand inst in
  let s := SAVE_NZCVT s in
  let s := set_Cpsr (masked (Cpsr s) operand mask) s in
  LOAD_NZCVT (ChangePrivilegeMode (Z.land (Cpsr s) 0x1F) s).
Definition msr_spsr (operand inst : Z) s : cpu M :=
  if CurrentModeHasSPSR s then
    set_Spsr_copy (masked (Spsr_copy s) operand (Z.land (msr_byte_mask inst) (Z.lor (Z.lor UserMask PrivMask) StateMask))) s
  else s.
Definition MSR_INST (R inst : Z) : arm unit :=
  operand ← (if bit inst 25 then mret (ROTATE_RIGHT_32 (BITS inst 0 7) (BITS inst 8 11 * 2)) else get_reg (BITS inst 0 3));
  modify (if R =? 0 then msr_cpsr operand inst else msr_spsr operand inst).

Definition SETEND_INST (set_bigend : Z) : arm next := _ ← modify (set_bit 9 (set_bigend =? 1)); next_instruction.

Definition MCR_INST (opcode_1 opcode_2 cp_num crn crm Rd : Z) : arm unit :=
  when (negb (Rd =? 15) && (cp_num =? 15)) (v ← get_reg Rd; modify (WriteCP15Register v crn opcode_1 crm opcode_2)).
Definition MRC_INST (opcode_1 opcode_2 cp_num crn crm Rd : Z) : arm unit :=
  when (cp_num =? 15)
    (value ← read (ReadCP15Register crn opcode_1 crm opcode_2);
     if Rd =? 15 then modify (fun s => LOAD_NZCVT (set_Cpsr (masked (Cpsr s) value 0xF0000000) s)) else set_reg Rd value).

(** Return from an exception and storing its state. *)
Definition RFE_INST (inst : Z) (f : option addressing) : arm next :=
  address ← get_addr f inst;
  v ← ReadMemory 4 address; _ ← modify (set_Cpsr (u32 v));
  pc ← ReadMemory 4 (u32 (address + 4)); _ ← set_reg 15 pc; mret Dispatch.
Definition SRS_INST (inst : Z) (f : option addressing) : arm next :=
  address ← get_addr f inst;
  lr ← get_reg 14; _ ← WriteMemory 4 address lr;
  spsr ← read Spsr_copy; _ ← WriteMemory 4 (u32 (address + 4)) spsr; next_instruction.

(** An instruction of a coprocessor that is absent ends the run. *)
Definition CDP_INST (cond : Z) : arm next :=
  p ← pass cond; if p : bool then _ ← modify (set_NumInstrsToExecute 0); mret Return else next_instruction.

End Handlers.
End ArmM.
