(* ===== verification/ArmVfp.v ===== *)
(** * Instructions of the vector floating-point unit

    The labels of core/arm/skyeye_common/vfp/vfpinstr.cpp and the register transfers of vfp.cpp.  The
    arithmetic on floating-point numbers ([vfp_single_cpdo], [vfp_double_cpdo]) is a parameter. *)
From S2P Require Import Prelude ArmSupport ArmState ArmOperands ArmTranslate ArmAlu.

Module ArmV.
Import Arm ArmS ArmOp ArmI ArmA.

(** The floating-point operations: the instruction is of double precision, the instruction and the
    status register; the result is the exceptions raised. *)
Class Vfp (M : Type) := cpdo : bool -> Z -> Z -> cpu M -> outcome (Z * cpu M).

(** [VFPSystemRegister] *)
Definition VFP_FPSID : nat := 0.
Definition VFP_FPINST : nat := 3.
Definition VFP_FPINST2 : nat := 4.
Definition VFP_MVFR0 : nat := 5.
Definition VFP_MVFR1 : nat := 6.
Definition VFP_EXCEPTION_ERROR : Z := 0xFFFFFEFF.
(** The condition flags of the floating-point status. *)
Definition FPSCR_flags : Z := 0xF0000000.

Section Handlers.
Context {M : Type} `{Bus M} `{Vfp M}.
Implicit Types s : cpu M.
#[local] Abbreviation arm := (@ArmS.arm M).

Definition get_ext (i : Z) : arm Z := fun s => v ← at_index (ExtReg s) i; Done (v, s).
Definition set_ext (i v : Z) : arm unit := fun s => _ ← at_index (ExtReg s) i; Done (tt, set_ExtReg (put i (u32 v) (ExtReg s)) s).
Definition get_vfp (i : nat) : arm Z := read (fun s => VFP s !!! i).
Definition set_vfp (i : nat) (v : Z) : arm unit := modify (fun s => set_VFP (<[i := u32 v]> (VFP s)) s).

(** ** vfp.cpp *)

Definition VMOVBRS (to_arm t n : Z) : arm unit :=
  if to_arm =? 0 then v ← get_reg t; set_ext n v else v ← get_ext n; set_reg t v.
Definition VMOVBRRD (to_arm t t2 n : Z) : arm unit :=
  if to_arm =? 0 then
    v2 ← get_reg t2; _ ← set_ext (n * 2 + 1) v2; v1 ← get_reg t; set_ext (n * 2) v1
  else v2 ← get_ext (n * 2 + 1); _ ← set_reg t2 v2; v1 ← get_ext (n * 2); set_reg t v1.
Definition VMOVBRRSS (to_arm t t2 n : Z) : arm unit :=
  if to_arm =? 0 then
    v1 ← get_reg t; _ ← set_ext (n + 0) v1; v2 ← get_reg t2; set_ext (n + 1) v2
  else v1 ← get_ext (n + 0); _ ← set_reg t v1; v2 ← get_ext (n + 1); set_reg t2 v2.
Definition VMOVI (single d imm : Z) : arm unit :=
  if single =? 0 then _ ← set_ext (d * 2 + 1) imm; set_ext (d * 2) 0 else set_ext d imm.
Definition VMOVR (single d m : Z) : arm unit :=
  if single =? 0 then
    hi ← get_ext (m * 2 + 1); _ ← set_ext (d * 2 + 1) hi; lo ← get_ext (m * 2); set_ext (d * 2) lo
  else v ← get_ext m; set_ext d v.

Definition vfp_raise_exceptions (exceptions fpscr : Z) : arm unit :=
  if exceptions =? VFP_EXCEPTION_ERROR then lift (Stop FUnreachable)
  else
    let fpscr := if Z.land exceptions FPSCR_flags =? 0 then fpscr else Z.land fpscr (not32 FPSCR_flags) in
    set_vfp VFP_FPSCR (Z.lor fpscr exceptions).

(** ** vfpinstr.cpp *)

(** VMLA and the other arithmetic instructions. *)
Definition VFP_CDP (instr dp_operation : Z) : arm unit :=
  fpscr ← get_vfp VFP_FPSCR;
  ret ← (cpdo (negb (dp_operation =? 0)) instr fpscr : arm Z);
  fpscr ← get_vfp VFP_FPSCR; vfp_raise_exceptions ret fpscr.

Definition VMOVBRC_INST (index d t : Z) : arm unit := v ← get_reg t; set_ext (2 * d + index) v.
Definition VMOVBCR_INST (index d t : Z) : arm unit := v ← get_ext (2 * d + index); set_reg t v.
Definition VMSR_INST (reg rt : Z) : arm unit :=
  p ← read InAPrivilegedMode;
  let write i := v ← get_reg rt; set_vfp i v in
  match reg with
  | 1 => write VFP_FPSCR
  | 8 => when p (write VFP_FPEXC)
  | 9 => when p (write VFP_FPINST)
  | 10 => when p (write VFP_FPINST2)
  | _ => mret tt
  end.
Definition load_vfp_flags s : cpu M :=
  let v := VFP s !!! VFP_FPSCR in
  set_VFlag (Z.land (Z.shiftr v 28) 1) (set_CFlag (Z.land (Z.shiftr v 29) 1)
    (set_ZFlag (Z.land (Z.shiftr v 30) 1) (set_NFlag (Z.land (Z.shiftr v 31) 1) s))).
Definition VMRS_INST (reg rt : Z) : arm unit :=
  p ← read InAPrivilegedMode;
  let move i := v ← get_vfp i; set_reg rt v in
  match reg with
  | 1 => if rt =? 15 then modify load_vfp_flags else move VFP_FPSCR
  | 0 => move VFP_FPSID
  | 6 => move VFP_MVFR1
  | 7 => move VFP_MVFR0
  | 8 => when p (move VFP_FPEXC)
  | 9 => when p (move VFP_FPINST)
  | 10 => when p (move VFP_FPINST2)
  | _ => mret tt
  end.

(** A single or a double register in memory, in the byte order of the mode; the size of the access. *)
Definition store_ext (single addr d : Z) : arm unit :=
  if single =? 0 then
    word1 ← get_ext (d * 2 + 0); word2 ← get_ext (d * 2 + 1);
    big ← read InBigEndianMode;
    if big : bool then _ ← WriteMemory 4 addr word2; WriteMemory 4 (u32 (addr + 4)) word1
    else _ ← WriteMemory 4 addr word1; WriteMemory 4 (u32 (addr + 4)) word2
  else v ← get_ext d; WriteMemory 4 addr v.
Definition load_ext (single addr d : Z) : arm unit :=
  if single =? 0 then
    word1 ← ReadMemory 4 addr; word2 ← ReadMemory 4 (u32 (addr + 4));
    big ← read InBigEndianMode;
    if big : bool then _ ← set_ext (d * 2 + 0) word2; set_ext (d * 2 + 1) word1
    else _ ← set_ext (d * 2 + 0) word1; set_ext (d * 2 + 1) word2
  else v ← ReadMemory 4 addr; set_ext d v.
Definition ext_size (single : Z) : Z := if single =? 0 then 8 else 4.

(** [base + imm32] or [base - imm32]; the program counter is the aligned address of the instruction plus 8. *)
Definition vfp_address (n imm32 add : Z) : arm Z :=
  v ← get_reg n;
  let base := if n =? 15 then Z.land v 0xFFFFFFFC + 8 else v in
  mret (u32 (if add =? 0 then u32 base - imm32 else u32 base + imm32)).
Definition VSTR_INST (single n d imm32 add : Z) : arm unit := addr ← vfp_address n imm32 add; store_ext single addr d.
Definition VLDR_INST (single n d imm32 add : Z) : arm unit := addr ← vfp_address n imm32 add; load_ext single addr d.

(** [for (i = 0; i < regs; i++)] *)
Fixpoint each_ext (f : Z -> Z -> arm unit) (size : Z) (regs : nat) (addr d : Z) : arm unit :=
  match regs with
  | O => mret tt
  | S regs => _ ← f addr d; each_ext f size regs (u32 (addr + size)) (d + 1)
  end.
Definition VPUSH_INST (single d imm32 regs : Z) : arm unit :=
  sp ← get_reg 13;
  _ ← each_ext (store_ext single) (ext_size single) (Z.to_nat regs) (u32 (sp - imm32)) d;
  sp ← get_reg 13; set_reg 13 (sp - imm32).
Definition VPOP_INST (single d imm32 regs : Z) : arm unit :=
  addr ← get_reg 13;
  _ ← each_ext (load_ext single) (ext_size single) (Z.to_nat regs) addr d;
  sp ← get_reg 13; set_reg 13 (sp + imm32).
(** VSTM and VLDM: in ARM code the program counter reads 8 bytes ahead. *)
Definition multiple (f : Z -> Z -> arm unit) (single add wback d n imm32 regs : Z) : arm unit :=
  v ← get_reg n;
  let address := if n =? 15 then u32 (v + 8) else v in
  let address := if add =? 0 then u32 (address - imm32) else address in
  _ ← each_ext f (ext_size single) (Z.to_nat regs) address d;
  when (negb (wback =? 0)) (v ← get_reg n; set_reg n (if add =? 0 then v - imm32 else v + imm32)).
Definition VSTM_INST (single add wback d n imm32 regs : Z) : arm unit := multiple (store_ext single) single add wback d n imm32 regs.
Definition VLDM_INST (single add wback d n imm32 regs : Z) : arm unit := multiple (load_ext single) single add wback d n imm32 regs.

End Handlers.
End ArmV.
