(* ===== verification/ArmFloat.v ===== *)
(** * Floating-point numbers

    The software floating point of the vector unit on unpacked numbers (core/arm/skyeye_common/vfp/vfp_helper.h,
    and the parts vfpsingle.cpp and vfpdouble.cpp have in common, which the source writes once for each
    precision).  A packed number is its 32 or 64 bits. *)
From S2P Require Import Prelude ArmSupport.

Module ArmFl.
Import Arm.

(** ** Precisions *)

Inductive precision := single | double.
(** The bits of a number, of its mantissa and of its exponent; the low bits of a significand. *)
Definition width (p : precision) : Z := match p with single => 32 | double => 64 end.
Definition MANTISSA_BITS (p : precision) : Z := match p with single => 23 | double => 52 end.
Definition EXPONENT_BITS (p : precision) : Z := match p with single => 8 | double => 11 end.
Definition LOW_BITS (p : precision) : Z := width p - MANTISSA_BITS p - 2.
Definition LOW_BITS_MASK (p : precision) : Z := Z.shiftl 1 (LOW_BITS p) - 1.
Definition SIGNIFICAND_QNAN (p : precision) : Z := Z.shiftl 1 (MANTISSA_BITS p - 1 + LOW_BITS p).
(** The exponent of an infinity, 255 or 2047, and the bias. *)
Definition max_exponent (p : precision) : Z := match p with single => 255 | double => 2047 end.
Definition bias (p : precision) : Z := match p with single => 127 | double => 1023 end.
Definition uint (p : precision) (x : Z) : Z := wrap (width p) x.
Definition sint (p : precision) (x : Z) : Z := swrap (width p) x.

(** ** The status register (asm_vfp.h) *)

Definition FPSCR_NFLAG : Z := 0x80000000.
Definition FPSCR_ZFLAG : Z := 0x40000000.
Definition FPSCR_CFLAG : Z := 0x20000000.
Definition FPSCR_VFLAG : Z := 0x10000000.
Definition FPSCR_DEFAULT_NAN : Z := 0x2000000.
Definition FPSCR_FLUSH_TO_ZERO : Z := 0x1000000.
Definition FPSCR_RMODE_MASK : Z := 0xC00000.
Definition FPSCR_STRIDE_MASK : Z := 0x300000.
Definition FPSCR_LENGTH_MASK : Z := 0x70000.
Definition FPSCR_LENGTH_BIT : Z := 16.
Definition FPSCR_IDC : Z := 0x80.
Definition FPSCR_IXC : Z := 0x10.
Definition FPSCR_UFC : Z := 8.
Definition FPSCR_OFC : Z := 4.
Definition FPSCR_DZC : Z := 2.
Definition FPSCR_IOC : Z := 1.
Definition FPSCR_ROUND_NEAREST : Z := 0.
Definition FPSCR_ROUND_PLUSINF : Z := 0x400000.
Definition FPSCR_ROUND_MINUSINF : Z := 0x800000.
Definition FPSCR_ROUND_TOZERO : Z := 0xC00000.

(** A mask shares a bit with a value. *)
Definition has (x m : Z) : bool := negb (Z.land x m =? 0).

(** ** Types of numbers *)

Definition VFP_NUMBER : Z := 1.
Definition VFP_ZERO : Z := 2.
Definition VFP_DENORMAL : Z := 4.
Definition VFP_INFINITY : Z := 8.
Definition VFP_NAN : Z := 16.
Definition VFP_QNAN : Z := 16.
Definition VFP_SNAN : Z := 48.
Definition VFP_NAN_FLAG : Z := 0x100.

(** [vfp_single] and [vfp_double]: the sign is bit 15, an [s16] and a [u16]. *)
Record unpacked := mk_unpacked { exponent : Z; sign : Z; significand : Z }.
#[global] Instance unpacked_eq_dec : EqDecision unpacked.
Proof. solve_decision. Defined.
Definition with_exponent (e : Z) (v : unpacked) : unpacked := mk_unpacked (s16 e) (sign v) (significand v).
Definition with_sign (x : Z) (v : unpacked) : unpacked := mk_unpacked (exponent v) x (significand v).
Definition with_significand (x : Z) (v : unpacked) : unpacked := mk_unpacked (exponent v) (sign v) x.
Definition vfp_sign_negate (x : Z) : Z := Z.lxor x 0x8000.

Definition packed_sign (p : precision) (v : Z) : Z := Z.land v (Z.shiftl 1 (width p - 1)).
Definition packed_negate (p : precision) (v : Z) : Z := Z.lxor v (Z.shiftl 1 (width p - 1)).
Definition packed_abs (p : precision) (v : Z) : Z := Z.land v (Z.shiftl 1 (width p - 1) - 1).
Definition packed_exponent (p : precision) (v : Z) : Z := Z.land (Z.shiftr v (MANTISSA_BITS p)) (Z.shiftl 1 (EXPONENT_BITS p) - 1).
Definition packed_mantissa (p : precision) (v : Z) : Z := Z.land v (Z.shiftl 1 (MANTISSA_BITS p) - 1).

(** [vfp_single_type] and [vfp_double_type] *)
Definition vfp_type (p : precision) (s : unpacked) : Z :=
  if exponent s =? max_exponent p then
    if significand s =? 0 then VFP_INFINITY else if has (significand s) (SIGNIFICAND_QNAN p) then VFP_QNAN else VFP_SNAN
  else if exponent s =? 0 then
    if significand s =? 0 then Z.lor VFP_NUMBER VFP_ZERO else Z.lor VFP_NUMBER VFP_DENORMAL
  else VFP_NUMBER.

(** [vfp_single_unpack] and [vfp_double_unpack]: the number and the exceptions. *)
Definition vfp_unpack (p : precision) (val fpscr : Z) : unpacked * Z :=
  let e := packed_exponent p val in
  let m := Z.shiftr (uint p (Z.shiftl val (width p - MANTISSA_BITS p))) 2 in
  let m := if negb (e =? 0) && negb (e =? max_exponent p) then Z.lor m (Z.shiftl 1 (width p - 2)) else m in
  let s := mk_unpacked e (Z.shiftr (packed_sign p val) (width p - 16)) m in
  if has fpscr FPSCR_FLUSH_TO_ZERO && has (vfp_type p s) VFP_DENORMAL then (mk_unpacked 0 0 0, FPSCR_IDC) else (s, 0).

(** [vfp_single_pack] and [vfp_double_pack] *)
Definition vfp_pack (p : precision) (s : unpacked) : Z :=
  uint p (Z.shiftl (sign s) (width p - 16) + Z.shiftl (exponent s) (MANTISSA_BITS p) + Z.shiftr (significand s) (LOW_BITS p)).

(** ** Words *)

(** [vfp_shiftright32jamming] and [vfp_shiftright64jamming] *)
Definition vfp_shiftrightjamming (p : precision) (val shift : Z) : Z :=
  if shift =? 0 then val
  else if shift <? width p then Z.lor (Z.shiftr val shift) (Z.b2z (negb (uint p (Z.shiftl val (width p - shift)) =? 0)))
  else Z.b2z (negb (val =? 0)).

Definition vfp_hi64to32jamming (val : Z) : Z :=
  let highval := Z.shiftr val 32 in
  let lowval := Z.land val 0xffffffff in
  if 1 <=? lowval then Z.lor highval 1 else highval.

(** 128-bit numbers: the high and the low word. *)
Definition add128 (nh nl mh ml : Z) : Z * Z :=
  let resl := u64 (nl + ml) in
  let resh := u64 (nh + mh) in
  (if resl <? nl then u64 (resh + 1) else resh, resl).
Definition sub128 (nh nl mh ml : Z) : Z * Z :=
  let resl := u64 (nl - ml) in
  let resh := u64 (nh - mh) in
  (if nl <? resl then u64 (resh - 1) else resh, resl).
Definition mul64to128 (n m : Z) : Z * Z :=
  let nl := u32 n in
  let ml := u32 m in
  let rl := u64 (nl * ml) in
  let nh := u32 (Z.shiftr n 32) in
  let rma := u64 (nh * ml) in
  let mh := u32 (Z.shiftr m 32) in
  let rmb := u64 (nl * mh) in
  let rma := u64 (rma + rmb) in
  let rh := u64 (nh * mh) in
  let rh := u64 (rh + u64 (Z.shiftl (Z.b2z (rma <? rmb)) 32 + Z.shiftr rma 32)) in
  let rma := u64 (Z.shiftl rma 32) in
  let rl := u64 (rl + rma) in
  (u64 (rh + Z.b2z (rl <? rma)), rl).
Definition shift64left (n : Z) : Z * Z := (Z.shiftr n 63, u64 (Z.shiftl n 1)).
Definition vfp_hi64multiply64 (n m : Z) : Z := let '(rh, rl) := mul64to128 n m in Z.lor rh (Z.b2z (negb (rl =? 0))).

(** [while]: a step either goes on ([inl]) or is the end ([inr]); [2 ^ 128] steps are more than a word of 128 bits can count. *)
Fixpoint repeat_step {A B} (n : positive) (step : A -> A + B) (a : A) : A + B :=
  match n with
  | xH => step a
  | xO n => match repeat_step n step a with inl a => repeat_step n step a | r => r end
  | xI n => match step a with inl a => match repeat_step n step a with inl a => repeat_step n step a | r => r end | r => r end
  end.
Definition while {A} (cond : A -> bool) (body : A -> A) (a : A) : outcome A :=
  match repeat_step (2 ^ 128) (fun a => if cond a then inl (body a) else inr a) a with inl _ => Stop FFuel | inr a => Done a end.

Definition negative64 (x : Z) : bool := s64 x <? 0.
Definition vfp_estimate_div128to64 (nh nl m : Z) : outcome Z :=
  if m <=? nh then Done (2 ^ 64 - 1)
  else
    let mh := Z.shiftr m 32 in
    let z := if u64 (Z.shiftl mh 32) <=? nh then 0xffffffff00000000 else u64 (Z.shiftl (nh / mh) 32) in
    let '(termh, terml) := mul64to128 m z in
    let '(remh, reml) := sub128 nh nl termh terml in
    let ml := u64 (Z.shiftl m 32) in
    '(z, (remh, reml)) ← while (fun '(_, (remh, _)) => negative64 remh)
      (fun '(z, (remh, reml)) => (u64 (z - 0x100000000), add128 remh reml mh ml)) (z, (remh, reml));
    let remh := Z.lor (u64 (Z.shiftl remh 32)) (Z.shiftr reml 32) in
    Done (if u64 (Z.shiftl mh 32) <=? remh then Z.lor z 0xffffffff else Z.lor z (remh / mh)).

(** [fls]: the place of the last bit set, from 1. *)
Definition fls (x : Z) : Z :=
  if x =? 0 then 0
  else
    let r := 32 in
    let '(x, r) := if Z.land x 0xffff0000 =? 0 then (u32 (Z.shiftl x 16), r - 16) else (x, r) in
    let '(x, r) := if Z.land x 0xff000000 =? 0 then (u32 (Z.shiftl x 8), r - 8) else (x, r) in
    let '(x, r) := if Z.land x 0xf0000000 =? 0 then (u32 (Z.shiftl x 4), r - 4) else (x, r) in
    let '(x, r) := if Z.land x 0xc0000000 =? 0 then (u32 (Z.shiftl x 2), r - 2) else (x, r) in
    if Z.land x 0x80000000 =? 0 then r - 1 else r.

(** ** What both precisions do *)

Definition default_qnan (p : precision) : unpacked := mk_unpacked (max_exponent p) 0 (SIGNIFICAND_QNAN p).

(** [vfp_single_normalise_denormal] and [vfp_double_normalise_denormal] *)
Definition denormal_bits (p : precision) (m : Z) : Z :=
  match p with
  | single => 31 - fls m
  | double => let bits := 31 - fls (u32 (Z.shiftr m 32)) in if bits =? 31 then 63 - fls (u32 m) else bits
  end.
Definition vfp_normalise_denormal (p : precision) (v : unpacked) : unpacked :=
  let bits := denormal_bits p (significand v) in
  if bits =? 0 then v
  else with_significand (uint p (Z.shiftl (significand v) bits)) (with_exponent (exponent v - (bits - 1)) v).
(** [if (v.exponent == 0 && v.significand) normalise_denormal(&v)] *)
Definition vfp_unpack_normal (p : precision) (val fpscr : Z) : unpacked * Z :=
  let '(v, exceptions) := vfp_unpack p val fpscr in
  (if (exponent v =? 0) && negb (significand v =? 0) then vfp_normalise_denormal p v else v, exceptions).

(** The shift that brings the highest bit of a significand to the top. *)
Definition normal_shift (p : precision) (m : Z) : Z :=
  match p with
  | single => 32 - fls m
  | double => let shift := 32 - fls (u32 (Z.shiftr m 32)) in if shift =? 32 then 64 - fls (u32 m) else shift
  end.
Definition rounding_increment (p : precision) (rmode sgn m : Z) : Z :=
  if rmode =? FPSCR_ROUND_NEAREST then
    let incr := Z.shiftl 1 (LOW_BITS p) in if Z.land m (Z.shiftl 1 (LOW_BITS p + 1)) =? 0 then incr - 1 else incr
  else if rmode =? FPSCR_ROUND_TOZERO then 0
  else if xorb (rmode =? FPSCR_ROUND_PLUSINF) (negb (sgn =? 0)) then Z.shiftl 1 (LOW_BITS p + 1) - 1
  else 0.
(** A number too small is shifted down; denormals are flushed on demand: exponent, sign, significand,
    whether it underflows and the exceptions. *)
Definition tiny (p : precision) (e sgn m fpscr exceptions : Z) : Z * Z * Z * bool * Z :=
  if e <? 0 then
    let m := vfp_shiftrightjamming p m (- e) in
    let underflow := has m (Z.shiftl 1 (LOW_BITS p + 1) - 1) in
    if has (vfp_type p (mk_unpacked 0 sgn m)) VFP_DENORMAL && has fpscr FPSCR_FLUSH_TO_ZERO
    then (0, 0, 0, false, Z.lor exceptions FPSCR_UFC)
    else (0, sgn, m, underflow, exceptions)
  else (e, sgn, m, false, exceptions).
(** From the rounding increment to the packed number. *)
Definition round_normal (p : precision) (e sgn m : Z) (underflow : bool) (fpscr exceptions : Z) : Z * Z :=
  let incr := rounding_increment p (Z.land fpscr FPSCR_RMODE_MASK) sgn m in
  let '(e, m, incr) := if uint p (m + incr) <? m then (e + 1, Z.lor (Z.shiftr m 1) (Z.land m 1), Z.shiftr incr 1) else (e, m, incr) in
  let exceptions := if has m (Z.shiftl 1 (LOW_BITS p + 1) - 1) then Z.lor exceptions FPSCR_IXC else exceptions in
  let m := uint p (m + incr) in
  if max_exponent p - 1 <=? e then
    let exceptions := Z.lor exceptions (Z.lor FPSCR_OFC FPSCR_IXC) in
    (vfp_pack p (if incr =? 0 then mk_unpacked (max_exponent p - 2) sgn (Z.shiftl 1 (width p - 1) - 1) else mk_unpacked (max_exponent p) sgn 0),
     exceptions)
  else
    let e := if Z.shiftr m (LOW_BITS p + 1) =? 0 then 0 else e in
    let underflow := if negb (e =? 0) || (Z.shiftl 1 (width p - 1) <? m) then false else underflow in
    (vfp_pack p (mk_unpacked (s16 e) sgn (Z.shiftr m 1)), if underflow then Z.lor exceptions FPSCR_UFC else exceptions).
(** [vfp_single_normaliseround] and [vfp_double_normaliseround]: the packed number and the exceptions. *)
Definition vfp_normaliseround (p : precision) (v : unpacked) (fpscr exceptions : Z) : Z * Z :=
  if (exponent v =? max_exponent p) && ((significand v =? 0) || negb (exceptions =? 0)) then (vfp_pack p v, exceptions)
  else if significand v =? 0 then (vfp_pack p (with_exponent 0 v), exceptions)
  else
    let shift := normal_shift p (significand v) in
    let e := exponent v - shift in
    let m := uint p (Z.shiftl (significand v) shift) in
    let '(e, sgn, m, underflow, exceptions) := tiny p e (sign v) m fpscr exceptions in
    round_normal p e sgn m underflow fpscr exceptions.

(** [vfp_propagate_nan]: [n] is a NaN, [m] may be absent. *)
Definition vfp_propagate_nan (p : precision) (vn : unpacked) (vm : option unpacked) (fpscr : Z) : unpacked * Z :=
  let tn := vfp_type p vn in
  let tm := from_option (vfp_type p) 0 vm in
  let nan :=
    if has fpscr FPSCR_DEFAULT_NAN then default_qnan p
    else
      let nan := if (tn =? VFP_SNAN) || (negb (tm =? VFP_SNAN) && (tn =? VFP_QNAN)) then vn else default vn vm in
      with_significand (Z.lor (significand nan) (SIGNIFICAND_QNAN p)) nan in
  (nan, if (tn =? VFP_SNAN) || (tm =? VFP_SNAN) then FPSCR_IOC else VFP_NAN_FLAG).

(** [vfp_single_fadd_nonnumber] and [vfp_double_fadd_nonnumber] *)
Definition vfp_fadd_nonnumber (p : precision) (vn vm : unpacked) (fpscr : Z) : unpacked * Z :=
  let tn := vfp_type p vn in
  let tm := vfp_type p vm in
  if has (Z.land tn tm) VFP_INFINITY then
    if Z.lxor (sign vn) (sign vm) =? 0 then (vn, 0) else (default_qnan p, FPSCR_IOC)
  else if has tn VFP_INFINITY && has tm VFP_NUMBER then (vn, 0)
  else vfp_propagate_nan p vn (Some vm) fpscr.

(** [vfp_single_add] and [vfp_double_add] *)
Definition vfp_add (p : precision) (vn vm : unpacked) (fpscr : Z) : unpacked * Z :=
  let '(vn, vm) := if exponent vn <? exponent vm then (vm, vn) else (vn, vm) in
  if exponent vn =? max_exponent p then vfp_fadd_nonnumber p vn vm fpscr
  else
    let exp_diff := exponent vn - exponent vm in
    let m_sig := vfp_shiftrightjamming p (significand vm) exp_diff in
    if negb (Z.lxor (sign vn) (sign vm) =? 0) then
      let m_sig := uint p (significand vn - m_sig) in
      if sint p m_sig <? 0 then
        (mk_unpacked (exponent vn) (vfp_sign_negate (sign vn)) (uint p (uint p (Z.lnot m_sig) + 1)), 0)
      else if m_sig =? 0 then
        (mk_unpacked (exponent vn) (if Z.land fpscr FPSCR_RMODE_MASK =? FPSCR_ROUND_MINUSINF then 0x8000 else 0) m_sig, 0)
      else (with_significand m_sig vn, 0)
    else (with_significand (uint p (significand vn + m_sig)) vn, 0).

(** The high half of a product, with the rest in its lowest bit. *)
Definition product (p : precision) (n m : Z) : Z :=
  match p with single => vfp_hi64to32jamming (u64 (n * m)) | double => vfp_hi64multiply64 n m end.
(** [vfp_single_multiply] and [vfp_double_multiply] *)
Definition is_zero (v : unpacked) : bool := Z.lor (exponent v) (significand v) =? 0.
Definition vfp_multiply (p : precision) (vn vm : unpacked) (fpscr : Z) : unpacked * Z :=
  let '(vn, vm) := if exponent vn <? exponent vm then (vm, vn) else (vn, vm) in
  let sgn := Z.lxor (sign vn) (sign vm) in
  if exponent vn =? max_exponent p then
    if negb (significand vn =? 0) || ((exponent vm =? max_exponent p) && negb (significand vm =? 0))
    then vfp_propagate_nan p vn (Some vm) fpscr
    else if is_zero vm then (default_qnan p, FPSCR_IOC)
    else (mk_unpacked (exponent vn) sgn 0, 0)
  else if is_zero vm then (mk_unpacked 0 sgn 0, 0)
  else (mk_unpacked (s16 (exponent vn + exponent vm - bias p + 2)) sgn (product p (significand vn) (significand vm)), 0).

(** [vfp_compare] of two packed numbers. *)
Definition nan_flags (p : precision) (signal_on_qnan : bool) (v ret : Z) : Z :=
  if (packed_exponent p v =? max_exponent p) && negb (packed_mantissa p v =? 0) then
    let ret := Z.lor ret (Z.lor FPSCR_CFLAG FPSCR_VFLAG) in
    if signal_on_qnan || negb (has (packed_mantissa p v) (Z.shiftl 1 (MANTISSA_BITS p - 1))) then Z.lor ret FPSCR_IOC else ret
  else ret.
Definition vfp_compare (p : precision) (d : Z) (signal_on_qnan : bool) (m : Z) : Z :=
  let ret := nan_flags p signal_on_qnan d (nan_flags p signal_on_qnan m 0) in
  if ret =? 0 then
    let negative := negb (packed_sign p d =? 0) in
    if (sint p d =? sint p m) || (packed_abs p (Z.lor d m) =? 0) then Z.lor FPSCR_ZFLAG FPSCR_CFLAG
    else if negb (packed_sign p (Z.lxor d m) =? 0) then if negative then FPSCR_NFLAG else FPSCR_CFLAG
    else if xorb negative (sint p d <? sint p m) then FPSCR_NFLAG
    else if xorb negative (sint p m <? sint p d) then FPSCR_CFLAG
    else 0
  else ret.

(** ** Operations on packed numbers: the result and the exceptions *)

(** The operands of [fmul] and [fadd], denormals normalised. *)
Definition operands (p : precision) (n m fpscr : Z) : unpacked * unpacked * Z :=
  let '(vn, e1) := vfp_unpack_normal p n fpscr in
  let '(vm, e2) := vfp_unpack_normal p m fpscr in
  (vn, vm, Z.lor e1 e2).
Definition fmul (p : precision) (negate : bool) (n m fpscr : Z) : Z * Z :=
  let '(vn, vm, exceptions) := operands p n m fpscr in
  let '(vd, e) := vfp_multiply p vn vm fpscr in
  let vd := if negate then with_sign (vfp_sign_negate (sign vd)) vd else vd in
  vfp_normaliseround p vd fpscr (Z.lor exceptions e).
Definition fadd (p : precision) (n m fpscr : Z) : Z * Z :=
  let '(vn, vm, exceptions) := operands p n m fpscr in
  let '(vd, e) := vfp_add p vn vm fpscr in
  vfp_normaliseround p vd fpscr (Z.lor exceptions e).
(** [vfp_single_multiply_accumulate] and [vfp_double_multiply_accumulate] *)
Definition multiply_accumulate (p : precision) (neg_multiply neg_subtract : bool) (d n m fpscr : Z) : Z * Z :=
  let '(vn, vm, exceptions) := operands p n m fpscr in
  let '(vp, e1) := vfp_multiply p vn vm fpscr in
  let vp := if neg_multiply then with_sign (vfp_sign_negate (sign vp)) vp else vp in
  let '(vn, e2) := vfp_unpack_normal p d fpscr in
  let vn := if neg_subtract then with_sign (vfp_sign_negate (sign vn)) vn else vn in
  let '(vd, e3) := vfp_add p vn vp fpscr in
  vfp_normaliseround p vd fpscr (Z.lor (Z.lor (Z.lor exceptions e1) e2) e3).

End ArmFl.
