(* ===== verification/ArmFloatOps.v ===== *)
(** * Floating-point instructions

    The operations of core/arm/skyeye_common/vfp/vfpsingle.cpp and vfpdouble.cpp on the extension registers and their
    dispatch, [vfp_single_cpdo] and [vfp_double_cpdo].  Short vectors are included. *)
From S2P Require Import Prelude ArmSupport ArmState ArmAlu ArmVfp ArmFloat.

Module ArmFo.
Import Arm ArmS ArmV ArmFl.

(** ** Square roots *)

Definition sqrt_oddadjust : list Z :=
  [0x0004; 0x0022; 0x005d; 0x00b1; 0x011d; 0x019f; 0x0236; 0x02e0; 0x039c; 0x0468; 0x0545; 0x0631; 0x072b; 0x0832; 0x0946; 0x0a67].
Definition sqrt_evenadjust : list Z :=
  [0x0a2d; 0x08af; 0x075a; 0x0629; 0x051a; 0x0429; 0x0356; 0x029e; 0x0200; 0x0179; 0x0109; 0x00af; 0x0068; 0x0034; 0x0012; 0x0002].
Definition vfp_estimate_sqrt_significand (e m : Z) : Z :=
  let a := u32 (Z.shiftl m 1) in
  let index := Z.to_nat (Z.land (Z.shiftr a 27) 15) in
  let finish a z := u32 (u64 (Z.shiftl a 31) / z + Z.shiftr z 1) in
  if negb (Z.land e 1 =? 0) then
    let z := u32 (0x4000 + Z.shiftr a 17 - sqrt_oddadjust !!! index) in
    let z := u32 (u32 (Z.shiftl (a / z) 14) + u32 (Z.shiftl z 15)) in
    finish (Z.shiftr a 1) z
  else
    let z := u32 (0x8000 + Z.shiftr a 17 - sqrt_evenadjust !!! index) in
    let z := u32 (a / z + z) in
    let z := if 0x20000 <=? z then 0xffff8000 else u32 (Z.shiftl z 15) in
    if z <=? a then u32 (Z.shiftr (s32 a) 1) else finish a z.

(** What [sqrt] does before the estimate: the packed result, or the operand. *)
Definition sqrt_special (p : precision) (m fpscr : Z) : Z * Z + unpacked * Z :=
  let '(vm, exceptions) := vfp_unpack p m fpscr in
  let tm := vfp_type p vm in
  let copy := inl (vfp_pack p vm, 0) in
  let invalid := inl (vfp_pack p (default_qnan p), FPSCR_IOC) in
  if has tm VFP_NAN then let '(vd, ret) := vfp_propagate_nan p vm None fpscr in inl (vfp_pack p vd, ret)
  else if has tm VFP_INFINITY then if sign vm =? 0 then copy else invalid
  else if has tm VFP_ZERO then copy
  else
    let vm := if has tm VFP_DENORMAL then vfp_normalise_denormal p vm else vm in
    if negb (sign vm =? 0) then invalid else inr (vm, exceptions).

Definition single_sqrt_significand (e m : Z) : outcome Z :=
  let z := u32 (vfp_estimate_sqrt_significand e m + 2) in
  z ← (if Z.land z (LOW_BITS_MASK single) <=? 5 then
         if z <? 2 then Done 0xffffffff
         else
           let m := u32 (Z.shiftl m (if Z.land e 1 =? 0 then 1 else 0)) in
           let rem := s64 (u64 (u64 (Z.shiftl m 32) - u64 (z * z))) in
           '(z, rem) ← while (fun '(_, rem) => rem <? 0)
             (fun '(z, rem) => let z := u32 (z - 1) in (z, s64 (rem + Z.lor (u64 (Z.shiftl z 1)) 1))) (z, rem);
           Done (Z.lor z (Z.b2z (negb (rem =? 0))))
       else Done z);
  Done (vfp_shiftrightjamming single z 1).
Definition single_sqrt (m fpscr : Z) : outcome (Z * Z) :=
  match sqrt_special single m fpscr with
  | inl r => Done r
  | inr (vm, exceptions) =>
      z ← single_sqrt_significand (exponent vm) (significand vm);
      let '(r, e) := vfp_normaliseround single (mk_unpacked (s16 (Z.shiftr (exponent vm - 127) 1 + 127)) 0 z) fpscr 0 in
      Done (r, Z.lor exceptions e)
  end.

Definition double_sqrt_significand (e m : Z) : outcome Z :=
  let z := u64 (Z.shiftl (vfp_estimate_sqrt_significand e (u32 (Z.shiftr m 32))) 31) in
  let m := Z.shiftr m (1 + Z.land e 1) in
  d ← vfp_estimate_div128to64 m 0 z;
  let z := u64 (z + u64 (2 + d)) in
  z ← (if Z.land z (LOW_BITS_MASK double) <=? 5 then
         if z <? 2 then Done (2 ^ 64 - 1)
         else
           let m := u64 (Z.shiftl m 2) in
           let '(termh, terml) := mul64to128 z z in
           let '(remh, reml) := sub128 m 0 termh terml in
           '(z, (remh, reml)) ← while (fun '(_, (remh, _)) => negative64 remh)
             (fun '(z, (remh, reml)) =>
                let z := u64 (z - 1) in
                let '(termh, terml) := shift64left z in (z, add128 remh reml termh (Z.lor terml 1))) (z, (remh, reml));
           Done (Z.lor z (Z.b2z (negb (Z.lor remh reml =? 0))))
       else Done z);
  Done (vfp_shiftrightjamming double z 1).
Definition double_sqrt (m fpscr : Z) : outcome (Z * Z) :=
  match sqrt_special double m fpscr with
  | inl r => Done r
  | inr (vm, exceptions) =>
      z ← double_sqrt_significand (exponent vm) (significand vm);
      let '(r, e) := vfp_normaliseround double (mk_unpacked (s16 (Z.shiftr (exponent vm - 1023) 1 + 1023)) 0 z) fpscr 0 in
      Done (r, Z.lor exceptions e)
  end.

(** ** Division *)

(** What [fdiv] does without dividing: the packed result, or the operands, the sign and the exceptions. *)
Definition div_special (p : precision) (n m fpscr : Z) : Z * Z + unpacked * unpacked * Z :=
  let '(vn, e1) := vfp_unpack p n fpscr in
  let '(vm, e2) := vfp_unpack p m fpscr in
  let exceptions := Z.lor e1 e2 in
  let sgn := Z.lxor (sign vn) (sign vm) in
  let tn := vfp_type p vn in
  let tm := vfp_type p vm in
  let pack (e exceptions : Z) := inl (vfp_pack p (mk_unpacked e sgn 0), exceptions) in
  if has tn VFP_NAN then let '(vd, e) := vfp_propagate_nan p vn (Some vm) fpscr in inl (vfp_pack p vd, Z.lor exceptions e)
  else if has tm VFP_NAN then let '(vd, e) := vfp_propagate_nan p vm (Some vn) fpscr in inl (vfp_pack p vd, Z.lor exceptions e)
  else if has (Z.land tm tn) (Z.lor VFP_INFINITY VFP_ZERO) then inl (vfp_pack p (default_qnan p), FPSCR_IOC)
  else if has tn VFP_INFINITY then pack (max_exponent p) exceptions
  else if has tm VFP_ZERO then pack (max_exponent p) (Z.lor exceptions FPSCR_DZC)
  else if has tm VFP_INFINITY || has tn VFP_ZERO then pack 0 exceptions
  else
    inr (if has tn VFP_DENORMAL then vfp_normalise_denormal p vn else vn,
         if has tm VFP_DENORMAL then vfp_normalise_denormal p vm else vm, sgn).
(** The dividend is made smaller than the divisor: exponent, dividend and divisor. *)
Definition div_align (p : precision) (vn vm : unpacked) : Z * Z * Z :=
  let e := s16 (exponent vn - exponent vm + bias p - 1) in
  let m := uint p (Z.shiftl (significand vm) 1) in
  if m <=? uint p (2 * significand vn) then (s16 (e + 1), Z.shiftr (significand vn) 1, m) else (e, significand vn, m).
Definition single_quotient (n m : Z) : Z :=
  let z := u32 (u64 (Z.shiftl n 32) / m) in
  if Z.land z 0x3f =? 0 then Z.lor z (Z.b2z (negb (u64 (m * z) =? u64 (Z.shiftl n 32)))) else z.
Definition double_quotient (n m : Z) : outcome Z :=
  z ← vfp_estimate_div128to64 n 0 m;
  if Z.land z 0x1ff <=? 2 then
    let '(termh, terml) := mul64to128 m z in
    let '(remh, reml) := sub128 n 0 termh terml in
    '(z, (_, reml)) ← while (fun '(_, (remh, _)) => negative64 remh)
      (fun '(z, (remh, reml)) => (u64 (z - 1), add128 remh reml 0 m)) (z, (remh, reml));
    Done (Z.lor z (Z.b2z (negb (reml =? 0))))
  else Done z.
Definition quotient (p : precision) (n m : Z) : outcome Z :=
  match p with single => Done (single_quotient n m) | double => double_quotient n m end.
Definition fdiv (p : precision) (n m fpscr : Z) : outcome (Z * Z) :=
  match div_special p n m fpscr with
  | inl r => Done r
  | inr (vn, vm, sgn) =>
      let '(e, n, m) := div_align p vn vm in
      z ← quotient p n m;
      Done (vfp_normaliseround p (mk_unpacked e sgn z) fpscr 0)
  end.

(** ** Conversions *)

(** [vfp_single_fcvtd]: to a double. *)
Definition single_to_double (m fpscr : Z) : Z * Z :=
  let '(vm, exceptions) := vfp_unpack single m fpscr in
  let tm := vfp_type single vm in
  let exceptions := if tm =? VFP_SNAN then Z.lor exceptions FPSCR_IOC else exceptions in
  let vm := if has tm VFP_DENORMAL then vfp_normalise_denormal single vm else vm in
  let m := Z.shiftl (significand vm) 32 in
  if has tm (Z.lor VFP_INFINITY VFP_NAN) then
    (vfp_pack double (mk_unpacked 2047 (sign vm) (if tm =? VFP_QNAN then Z.lor m (SIGNIFICAND_QNAN double) else m)), exceptions)
  else
    vfp_normaliseround double (mk_unpacked (if has tm VFP_ZERO then 0 else s16 (exponent vm + (1023 - 127))) (sign vm) m) fpscr exceptions.
(** [vfp_double_fcvts]: to a single. *)
Definition double_to_single (m fpscr : Z) : Z * Z :=
  let '(vm, exceptions) := vfp_unpack double m fpscr in
  let tm := vfp_type double vm in
  let exceptions := if tm =? VFP_SNAN then FPSCR_IOC else exceptions in
  let vm := if has tm VFP_DENORMAL then vfp_normalise_denormal double vm else vm in
  let m := vfp_hi64to32jamming (significand vm) in
  if has tm (Z.lor VFP_INFINITY VFP_NAN) then
    (vfp_pack single (mk_unpacked 255 (sign vm) (if tm =? VFP_QNAN then Z.lor m (SIGNIFICAND_QNAN single) else m)), exceptions)
  else
    vfp_normaliseround single (mk_unpacked (if has tm VFP_ZERO then 0 else s16 (exponent vm - (1023 - 127))) (sign vm) m) fpscr exceptions.

(** From integers: [fuito] and [fsito]. *)
Definition from_unsigned (p : precision) (m fpscr : Z) : Z * Z :=
  vfp_normaliseround p (mk_unpacked (bias p + (width p - 1) - 1) 0 m) fpscr 0.
Definition from_signed (p : precision) (m fpscr : Z) : Z * Z :=
  let sgn := Z.shiftr (Z.land m 0x80000000) 16 in
  vfp_normaliseround p (mk_unpacked (bias p + (width p - 1) - 1) sgn (if negb (sgn =? 0) then u32 (- m) else m)) fpscr 0.

(** To integers: the integer part and the rest of a number of at least one. *)
Definition integer_part (p : precision) (v : unpacked) : Z * Z :=
  let shift := bias p + (width p - 1) - exponent v in
  let m := uint p (Z.shiftl (significand v) 1) in
  (u32 (Z.shiftr m shift), if 0 <? shift then uint p (Z.shiftl m (width p - shift)) else 0).
Definition integer_increment (p : precision) (rmode sgn d : Z) : Z :=
  if rmode =? FPSCR_ROUND_NEAREST then (let incr := Z.shiftl 1 (width p - 1) in if Z.land d 1 =? 0 then incr - 1 else incr)
  else if rmode =? FPSCR_ROUND_TOZERO then 0
  else if xorb (rmode =? FPSCR_ROUND_PLUSINF) (negb (sgn =? 0)) then Z.shiftl 1 (width p) - 1
  else 0.
(** [ftoui]; the double precision forgets the exceptions when the number is too big. *)
Definition to_unsigned (p : precision) (m fpscr : Z) : Z * Z :=
  let rmode := Z.land fpscr FPSCR_RMODE_MASK in
  let '(v, exceptions) := vfp_unpack p m fpscr in
  let tm := vfp_type p v in
  let exceptions := if has tm VFP_DENORMAL then Z.lor exceptions FPSCR_IDC else exceptions in
  let sgn := if has tm VFP_NAN then 1 else sign v in
  let negative := negb (sgn =? 0) in
  if bias p + 32 <=? exponent v then
    (if negative then 0 else 0xffffffff, match p with single => Z.lor exceptions FPSCR_IOC | double => FPSCR_IOC end)
  else if bias p <=? exponent v then
    let '(d, rem) := integer_part p v in
    let incr := integer_increment p rmode sgn d in
    let '(d, exceptions) :=
      if uint p (rem + incr) <? rem then (if d <? 0xffffffff then (d + 1, exceptions) else (d, Z.lor exceptions FPSCR_IOC)) else (d, exceptions) in
    if negb (d =? 0) && negative then (0, Z.lor exceptions FPSCR_IOC)
    else (d, if negb (rem =? 0) then Z.lor exceptions FPSCR_IXC else exceptions)
  else if is_zero v then (0, exceptions)
  else if rmode =? FPSCR_ROUND_NEAREST then
    if bias p - 1 <=? exponent v then (if negative then 0 else 1, Z.lor exceptions (if negative then FPSCR_IOC else FPSCR_IXC))
    else (0, Z.lor exceptions FPSCR_IXC)
  else if (rmode =? FPSCR_ROUND_PLUSINF) && negb negative then (1, Z.lor exceptions FPSCR_IXC)
  else if rmode =? FPSCR_ROUND_MINUSINF then (0, Z.lor exceptions (if negative then FPSCR_IOC else FPSCR_IXC))
  else (0, Z.lor exceptions FPSCR_IXC).
(** [ftosi] *)
Definition to_signed (p : precision) (m fpscr : Z) : Z * Z :=
  let rmode := Z.land fpscr FPSCR_RMODE_MASK in
  let '(v, exceptions) := vfp_unpack p m fpscr in
  let tm := vfp_type p v in
  let exceptions := if has tm VFP_DENORMAL then Z.lor exceptions FPSCR_IDC else exceptions in
  let negative := negb (sign v =? 0) in
  if has tm VFP_NAN then (0, Z.lor exceptions FPSCR_IOC)
  else if bias p + 31 <=? exponent v then (if negative then 0x80000000 else 0x7fffffff, Z.lor exceptions FPSCR_IOC)
  else if bias p <=? exponent v then
    let '(d, rem) := integer_part p v in
    let incr := integer_increment p rmode (sign v) d in
    let d := if (uint p (rem + incr) <? rem) && (d <? 0xffffffff) then d + 1 else d in
    let limit := 0x7fffffff + Z.b2z negative in
    let '(d, exceptions) :=
      if limit <? d then (limit, Z.lor exceptions FPSCR_IOC) else (d, if negb (rem =? 0) then Z.lor exceptions FPSCR_IXC else exceptions) in
    (if negative then u32 (- d) else d, exceptions)
  else if is_zero v then (0, exceptions)
  else
    (if rmode =? FPSCR_ROUND_NEAREST then if bias p - 1 <=? exponent v then if negative then 0xffffffff else 1 else 0
     else if (rmode =? FPSCR_ROUND_PLUSINF) && negb negative then 1
     else if (rmode =? FPSCR_ROUND_MINUSINF) && negative then 0xffffffff
     else 0, Z.lor exceptions FPSCR_IXC).
Definition to_zero (fpscr : Z) : Z := Z.lor (Z.land fpscr (not32 FPSCR_RMODE_MASK)) FPSCR_ROUND_TOZERO.

(** [vfp_single_fsub]: addition of the negated operand, unless that is the quiet NaN. *)
Definition single_fsub (n m fpscr : Z) : Z * Z :=
  let '(vm, exceptions) := vfp_unpack single m fpscr in
  let m := if has exceptions FPSCR_IDC then vfp_pack single vm else m in
  let m := if negb (m =? 0x7FC00000) then packed_negate single m else m in
  let '(r, e) := fadd single n m fpscr in (r, Z.lor e exceptions).
(** [vfp_double_fsub] *)
Definition double_fsub (n m fpscr : Z) : Z * Z :=
  let '(vn, vm, exceptions) := operands double n m fpscr in
  let vm := with_sign (vfp_sign_negate (sign vm)) vm in
  let '(vd, e) := vfp_add double vn vm fpscr in
  vfp_normaliseround double vd fpscr (Z.lor exceptions e).

(** ** The double precision

    vfpdouble.cpp repeats vfpsingle.cpp for the other width: its functions are the same ones at [double]. *)
Definition vfp_double_type := vfp_type double.
Definition vfp_double_unpack := vfp_unpack double.
Definition vfp_double_pack := vfp_pack double.
Definition vfp_double_normalise_denormal := vfp_normalise_denormal double.
Definition vfp_double_normaliseround := vfp_normaliseround double.
Definition vfp_double_propagate_nan := vfp_propagate_nan double.
Definition vfp_double_compare := vfp_compare double.
Definition vfp_double_fadd_nonnumber := vfp_fadd_nonnumber double.
Definition vfp_double_add := vfp_add double.
Definition vfp_double_multiply := vfp_multiply double.
Definition vfp_double_multiply_accumulate := multiply_accumulate double.
Definition vfp_double_fmul := fmul double false.
Definition vfp_double_fnmul := fmul double true.
Definition vfp_double_fadd := fadd double.
Definition vfp_double_fdiv := fdiv double.
Definition vfp_double_fuito := from_unsigned double.
Definition vfp_double_fsito := from_signed double.
Definition vfp_double_ftoui := to_unsigned double.
Definition vfp_double_ftosi := to_signed double.
Definition vfp_double_ftouiz (m fpscr : Z) : Z * Z := vfp_double_ftoui m (to_zero fpscr).
Definition vfp_double_ftosiz (m fpscr : Z) : Z * Z := vfp_double_ftosi m (to_zero fpscr).

(** ** Registers *)

Section Registers.
Context {M : Type} `{Bus M}.
Implicit Types s : cpu M.
#[local] Abbreviation arm := (@ArmS.arm M).

(** vfp.cpp *)
Definition vfp_get_float (r : Z) : arm Z := get_ext r.
Definition vfp_put_float (val r : Z) : arm unit := set_ext r val.
Definition vfp_get_double (r : Z) : arm Z :=
  hi ← get_ext (r * 2 + 1); lo ← get_ext (r * 2); mret (Z.lor (Z.shiftl hi 32) lo).
Definition vfp_put_double (val r : Z) : arm unit :=
  _ ← set_ext (r * 2) (Z.land val 0xffffffff); set_ext (r * 2 + 1) (Z.shiftr val 32).

Definition get (p : precision) : Z -> arm Z := match p with single => vfp_get_float | double => vfp_get_double end.
Definition put (p : precision) : Z -> Z -> arm unit := match p with single => vfp_put_float | double => vfp_put_double end.

(** An operation gets its destination, its first operand and its second: for single precision the second is
    the value of the register, for double precision the register. *)
Definition operation : Type := Z -> Z -> Z -> Z -> arm Z.
Definition give (p : precision) (dest : Z) (r : Z * Z) : arm Z := _ ← put p r.1 dest; mret r.2.
Definition second (p : precision) (m : Z) : arm Z := match p with single => mret m | double => vfp_get_double m end.
(** Operations of one operand, of two and of three. *)
Definition unary (p q : precision) (f : Z -> Z -> Z * Z) : operation := fun dest _ m fpscr => m ← second p m; give q dest (f m fpscr).
Definition unary_loop (p : precision) (f : Z -> Z -> outcome (Z * Z)) : operation :=
  fun dest _ m fpscr => m ← second p m; r ← lift (f m fpscr); give p dest r.
Definition binary (p : precision) (f : Z -> Z -> Z -> Z * Z) : operation :=
  fun dest n m fpscr => n ← get p n; m ← second p m; give p dest (f n m fpscr).
Definition binary_loop (p : precision) (f : Z -> Z -> Z -> outcome (Z * Z)) : operation :=
  fun dest n m fpscr => n ← get p n; m ← second p m; r ← lift (f n m fpscr); give p dest r.
Definition accumulate (p : precision) (neg_multiply neg_subtract : bool) : operation :=
  fun dest n m fpscr => n ← get p n; m ← second p m; d ← get p dest; give p dest (multiply_accumulate p neg_multiply neg_subtract d n m fpscr).
Definition compare_with (p : precision) (signal_on_qnan zero : bool) : operation :=
  fun dest _ m fpscr => m ← (if zero then mret 0 else second p m); d ← get p dest; mret (vfp_compare p d signal_on_qnan m).
(** The operand of [fuito] and [fsito] is a single register. *)
Definition from_integer (p : precision) (f : Z -> Z -> Z * Z) : operation :=
  fun dest _ m fpscr => m ← match p with single => mret m | double => vfp_get_float m end; give p dest (f m fpscr).

(** The flags of an operation: always scalar; the destination and the operand are of the other precision. *)
Record op := mk_op { fn : option operation; OP_SCALAR : bool; OP_OTHER : bool; OP_SM : bool }.
Definition vector (f : operation) : op := mk_op (Some f) false false false.
Definition scalar (f : operation) : op := mk_op (Some f) true false false.
Definition none : op := mk_op None false false false.

Definition fops (p : precision) (f_sub : operation) : list op :=
  [vector (accumulate p false false); vector (accumulate p false true); vector (binary p (fmul p false)); vector (binary p (fadd p));
   vector (accumulate p true false); vector (accumulate p true true); vector (binary p (fmul p true)); vector f_sub;
   vector (binary_loop p (fdiv p))].
Definition single_fops : list op := fops single (binary single single_fsub).
Definition double_fops : list op := fops double (binary double double_fsub).

Definition copies (p : precision) : list op :=
  [vector (unary p p (fun m _ => (m, 0))); vector (unary p p (fun m _ => (packed_abs p m, 0))); vector (unary p p (fun m _ => (packed_negate p m, 0)))].
Definition compares (p : precision) : list op :=
  [scalar (compare_with p false false); scalar (compare_with p true false); scalar (compare_with p false true); scalar (compare_with p true true);
   none; none; none].
Definition to_integers (p : precision) (other : bool) : list op :=
  let op f := mk_op (Some (unary p single f)) true other false in
  [op (to_unsigned p); op (fun m fpscr => to_unsigned p m (to_zero fpscr)); op (to_signed p); op (fun m fpscr => to_signed p m (to_zero fpscr))].
Definition single_fops_ext : list op :=
  copies single ++ [vector (unary_loop single single_sqrt); none; none; none; none] ++ compares single ++
  [mk_op (Some (unary single double single_to_double)) true true false;
   scalar (from_integer single (from_unsigned single)); scalar (from_integer single (from_signed single)); none; none; none; none; none; none] ++
  to_integers single false.
Definition double_fops_ext : list op :=
  copies double ++ [vector (unary_loop double double_sqrt); none; none; none; none] ++ compares double ++
  [mk_op (Some (unary double single double_to_single)) true true false;
   mk_op (Some (from_integer double (from_unsigned double))) true false true;
   mk_op (Some (from_integer double (from_signed double))) true false true; none; none; none; none; none; none] ++
  to_integers double true.

(** ** Dispatch *)

Definition FOP_MASK : Z := 0x00b00040.
Definition FOP_EXT : Z := 0x00b00040.
Definition FOP_TO_IDX (inst : Z) : Z := Z.lor (Z.shiftr (Z.land inst 0x00b00000) 20) (Z.shiftr (Z.land inst (Z.shiftl 1 6)) 4).
Definition FEXT_TO_IDX (inst : Z) : Z := Z.lor (Z.shiftr (Z.land inst 0x000f0000) 15) (Z.shiftr (Z.land inst (Z.shiftl 1 7)) 7).
Definition vfp_get_sd (inst : Z) : Z := Z.lor (Z.shiftr (Z.land inst 0x0000f000) 11) (Z.shiftr (Z.land inst (Z.shiftl 1 22)) 22).
Definition vfp_get_dd (inst : Z) : Z := Z.lor (Z.shiftr (Z.land inst 0x0000f000) 12) (Z.shiftr (Z.land inst (Z.shiftl 1 22)) 18).
Definition vfp_get_sm (inst : Z) : Z := Z.lor (Z.shiftl (Z.land inst 0x0000000f) 1) (Z.shiftr (Z.land inst (Z.shiftl 1 5)) 5).
Definition vfp_get_dm (inst : Z) : Z := Z.lor (Z.land inst 0x0000000f) (Z.shiftr (Z.land inst (Z.shiftl 1 5)) 1).
Definition vfp_get_sn (inst : Z) : Z := Z.lor (Z.shiftr (Z.land inst 0x000f0000) 15) (Z.shiftr (Z.land inst (Z.shiftl 1 7)) 7).
Definition vfp_get_dn (inst : Z) : Z := Z.lor (Z.shiftr (Z.land inst 0x000f0000) 16) (Z.shiftr (Z.land inst (Z.shiftl 1 7)) 3).

(** The banks of registers, eight single or four double ones, and the next register of a vector. *)
Definition bank_mask (p : precision) : Z := match p with single => 0x18 | double => 0x0c end.
Definition index_mask (p : precision) : Z := match p with single => 7 | double => 3 end.
Definition FREG_BANK (p : precision) (x : Z) : Z := Z.land x (bank_mask p).
Definition next_reg (p : precision) (vecstride x : Z) : Z :=
  FREG_BANK p x + Z.land (Z.land x (index_mask p) + vecstride) (index_mask p).

(** [for (vecitr = 0; vecitr <= veclen; vecitr += 1 << FPSCR_LENGTH_BIT)] *)
Fixpoint each_element (p : precision) (f : operation) (fpscr vecstride : Z) (n : nat) (dest sn sm exceptions : Z) : arm Z :=
  match n with
  | O => mret exceptions
  | S n =>
      m ← (match p with single => vfp_get_float sm | double => mret sm end);
      except ← f dest sn m fpscr;
      each_element p f fpscr vecstride n (next_reg p vecstride dest) (next_reg p vecstride sn)
        (if FREG_BANK p sm =? 0 then sm else next_reg p vecstride sm) (Z.lor exceptions (Z.land except (not32 VFP_NAN_FLAG)))
  end.
Definition find_op (ext plain : list op) (inst : Z) : outcome op :=
  let o := Z.land inst FOP_MASK in
  of_opt FOutOfRange (if o =? FOP_EXT then ext !! Z.to_nat (FEXT_TO_IDX inst) else plain !! Z.to_nat (FOP_TO_IDX o)).
Definition vecstride_of (fpscr : Z) : Z := 1 + Z.b2z (Z.land fpscr FPSCR_STRIDE_MASK =? FPSCR_STRIDE_MASK).
Definition elements (p : precision) (o : op) (dest fpscr : Z) : nat :=
  if OP_SCALAR o || (FREG_BANK p dest =? 0) then 1%nat else Z.to_nat (1 + Z.shiftr (Z.land fpscr FPSCR_LENGTH_MASK) FPSCR_LENGTH_BIT).

Definition vfp_single_cpdo (inst fpscr : Z) : arm Z :=
  o ← lift (find_op single_fops_ext single_fops inst);
  let dest := if OP_OTHER o then vfp_get_dd inst else vfp_get_sd inst in
  match fn o with
  | Some f => each_element single f fpscr (vecstride_of fpscr) (elements single o dest fpscr) dest (vfp_get_sn inst) (vfp_get_sm inst) 0
  | None => lift (Stop FUnreachable)
  end.
Definition vfp_double_cpdo (inst fpscr : Z) : arm Z :=
  o ← lift (find_op double_fops_ext double_fops inst);
  let dest := if OP_OTHER o then vfp_get_sd inst else vfp_get_dd inst in
  let dm := if OP_SM o then vfp_get_sm inst else vfp_get_dm inst in
  match fn o with
  | Some f => each_element double f fpscr (vecstride_of fpscr) (elements double o dest fpscr) dest (vfp_get_dn inst) dm 0
  | None => mret 0xffffffff
  end.

#[export] Instance vfp_unit : Vfp M := fun dp inst fpscr => if dp then vfp_double_cpdo inst fpscr else vfp_single_cpdo inst fpscr.

End Registers.
End ArmFo.
