(* ===== verification/ArmInterpreter.v ===== *)
(** * The interpreter

    [InterpreterMainLoop] and the translation of blocks (core/arm/dyncom/arm_dyncom_interpreter.cpp), the buffer of
    translated instructions (arm_dyncom_trans.cpp) and [ARM_DynCom] (arm_dyncom.cpp).  Debugger hooks are
    left out, but for the Thumb bit of the status register, which they bring up to date. *)
From S2P Require Import Prelude ArmSupport ArmState ArmOperands ArmDecode ArmThumb ArmTranslate ArmAlu ArmParallel ArmTransfer ArmVfp.

Module ArmX.
Import Arm ArmS ArmOp ArmD ArmT ArmI ArmA ArmP ArmM ArmV.

(** ** Labels *)

Section Labels.
Context {M : Type} `{Bus M} `{Vfp M}.
#[local] Abbreviation arm := (@ArmS.arm M).

(** The component of another instruction. *)
Definition bad {A} : arm A := lift (Stop FUninitialized).

Definition on_dp (c : component) (k : Z -> Z -> Z -> Z -> option shtop -> arm bool) : arm bool :=
  match c with dp_inst _ Sb Rn Rd so f => k Sb Rn Rd so f | _ => bad end.
Definition on_mov (c : component) (k : Z -> Z -> Z -> option shtop -> arm bool) : arm bool :=
  match c with mov_inst _ Sb Rd so f => k Sb Rd so f | _ => bad end.
Definition on_cmp (c : component) (k : Z -> Z -> option shtop -> arm unit) : arm unit :=
  match c with cmp_inst _ Rn so f => k Rn so f | _ => bad end.
Definition on_ldst {A} (c : component) (k : Z -> option addressing -> arm A) : arm A :=
  match c with ldst_inst inst f => k inst f | _ => bad end.
Definition on_generic (c : component) (k : Z -> Z -> Z -> Z -> Z -> Z -> arm unit) : arm unit :=
  match c with generic_arm_inst Ra Rm Rn Rd op1 op2 => k Ra Rm Rn Rd op1 op2 | _ => bad end.
Definition on_op2 (c : component) (k : Z -> Z -> Z -> Z -> arm unit) : arm unit :=
  on_generic c (fun _ Rm Rn Rd _ op2 => k op2 Rm Rn Rd).
Definition on_extend (c : component) (k : Z -> Z -> Z -> arm unit) : arm unit :=
  match c with extend_inst Rd Rm rotate => k Rd Rm rotate | _ => bad end.
Definition on_extend_add (c : component) (k : Z -> Z -> Z -> Z -> arm unit) : arm unit :=
  match c with extend_add_inst Rd Rn Rm rotate => k Rd Rn Rm rotate | _ => bad end.
Definition on_long (c : component) (k : Z -> Z -> Z -> Z -> Z -> arm unit) : arm unit :=
  match c with long_inst Sb RdHi RdLo Rs Rm => k Sb RdHi RdLo Rs Rm | _ => bad end.
Definition on_smlad (c : component) (k : Z -> Z -> Z -> Z -> Z -> Z -> arm unit) : arm unit :=
  match c with smlad_inst m Rm Rd Ra Rn _ op2 => k m Rm Rd Ra Rn op2 | _ => bad end.
Definition on_ssat (c : component) (k : Z -> Z -> Z -> Z -> Z -> arm unit) : arm unit :=
  match c with ssat_inst Rn Rd imm5 sat_imm shift_type => k Rn Rd imm5 sat_imm shift_type | _ => bad end.
Definition on_coprocessor (c : component) (k : Z -> Z -> Z -> Z -> Z -> Z -> arm unit) : arm unit :=
  match c with mrc_inst opcode_1 opcode_2 cp_num crn crm Rd _ => k opcode_1 opcode_2 cp_num crn crm Rd | _ => bad end.

(** [cpu->Reg[15] += 4]: LDRD and VSTM. *)
Definition simple4 (cond : Z) (body : arm unit) : arm next :=
  p ← pass cond; _ ← when p body; pc ← get_reg 15; _ ← set_reg 15 (pc + 4); mret Fetch.
(** Conditions are not looked at. *)
Definition always (body : arm bool) : arm next := j ← body; if j : bool then mret Dispatch else next_instruction.

(** The labels; SWI is a part of the loop. *)
Definition execute (a : arm_inst) : arm next :=
  let c := comp a in
  let simple := simple (cond a) in
  let simple4 := simple4 (cond a) in
  let jumping := jumping (cond a) in
  let nothing := simple (mret tt) in
  match idx a with
  | i_adc => jumping (on_dp c ADC_INST)
  | i_add => jumping (on_dp c ADD_INST)
  | i_and => jumping (on_dp c AND_INST)
  | i_bic => jumping (on_dp c BIC_INST)
  | i_eor => jumping (on_dp c EOR_INST)
  | i_orr => jumping (on_dp c ORR_INST)
  | i_rsb => jumping (on_dp c RSB_INST)
  | i_rsc => jumping (on_dp c RSC_INST)
  | i_sbc => jumping (on_dp c SBC_INST)
  | i_sub => jumping (on_dp c SUB_INST)
  | i_mov => jumping (on_mov c MOV_INST)
  | i_mvn => jumping (on_mov c MVN_INST)
  | i_cpy => jumping (on_mov c (fun _ => CPY_INST))
  | i_cmn => simple (on_cmp c CMN_INST)
  | i_cmp => simple (on_cmp c CMP_INST)
  | i_teq => simple (on_cmp c TEQ_INST)
  | i_tst => simple (match c with dp_inst _ _ Rn _ so f => TST_INST Rn so f | _ => bad end)
  | i_clz => simple (match c with clz_inst Rm Rd => CLZ_INST Rm Rd | _ => bad end)
  | i_mla => simple (match c with mla_inst Sb Rn Rd Rs Rm => MLA_INST Sb Rn Rd Rs Rm | _ => bad end)
  | i_mul => simple (match c with mul_inst Sb Rd Rs Rm => MUL_INST Sb Rd Rs Rm | _ => bad end)
  | i_smla => simple (match c with smla_inst x y Rm Rd Rs Rn => SMLA_INST x y Rm Rd Rs Rn | _ => bad end)
  | i_smul => simple (match c with smul_inst Rd Rs Rm x y => SMUL_INST Rd Rs Rm x y | _ => bad end)
  | i_smlad | i_smlsd | i_smuad | i_smusd => simple (on_smlad c SMLAD_INST)
  | i_smlaw => simple (on_smlad c (fun m Rm Rd Ra Rn _ => SMLAW_INST m Rm Rd Ra Rn))
  | i_smulw => simple (on_smlad c (fun m Rm Rd _ Rn _ => SMULW_INST m Rm Rd Rn))
  | i_smmla | i_smmls | i_smmul => simple (on_smlad c SMMLA_INST)
  | i_smlal => simple (on_long c SMLAL_INST)
  | i_smull => simple (on_long c SMULL_INST)
  | i_umlal => simple (on_long c UMLAL_INST)
  | i_umull => simple (on_long c UMULL_INST)
  | i_umaal => simple (match c with umaal_inst Rn Rm RdHi RdLo => UMAAL_INST Rn Rm RdHi RdLo | _ => bad end)
  | i_smlalxy => simple (match c with smlalxy_inst x y RdLo RdHi Rm Rn => SMLALXY_INST x y RdLo RdHi Rm Rn | _ => bad end)
  | i_smlald | i_smlsld =>
      simple (match c with smlald_inst RdLo RdHi Rm Rn swap _ op2 => SMLALD_INST RdLo RdHi Rm Rn swap op2 | _ => bad end)
  | i_qadd | i_qdadd | i_qdsub | i_qsub => simple (on_generic c (fun _ Rm Rn Rd op1 _ => QADD_INST op1 Rm Rn Rd))
  | i_qadd8 | i_qadd16 | i_qaddsubx | i_qsub8 | i_qsub16 | i_qsubaddx => simple (on_op2 c QADD8_INST)
  | i_uqadd8 | i_uqadd16 | i_uqaddsubx | i_uqsub8 | i_uqsub16 | i_uqsubaddx => simple (on_op2 c UQADD8_INST)
  | i_sadd8 | i_ssub8 | i_sadd16 | i_saddsubx | i_ssubaddx | i_ssub16 => simple (on_op2 c SADD8_INST)
  | i_shadd8 | i_shadd16 | i_shaddsubx | i_shsub8 | i_shsub16 | i_shsubaddx => simple (on_op2 c SHADD8_INST)
  | i_uadd8 | i_uadd16 | i_uaddsubx | i_usub8 | i_usub16 | i_usubaddx => simple (on_op2 c UADD8_INST)
  | i_uhadd8 | i_uhadd16 | i_uhaddsubx | i_uhsubaddx | i_uhsub8 | i_uhsub16 => simple (on_op2 c UHADD8_INST)
  | i_ssat => simple (on_ssat c SSAT_INST)
  | i_usat => simple (on_ssat c USAT_INST)
  | i_ssat16 => simple (on_ssat c (fun Rn Rd _ sat_imm _ => SSAT16_INST Rn Rd sat_imm))
  | i_usat16 => simple (on_ssat c (fun Rn Rd _ sat_imm _ => USAT16_INST Rn Rd sat_imm))
  | i_sel => simple (on_generic c (fun _ Rm Rn Rd _ _ => SEL_INST Rm Rn Rd))
  | i_usad8 | i_usada8 => simple (on_generic c (fun Ra Rm Rn Rd _ _ => USADA8_INST Ra Rm Rn Rd))
  | i_pkhbt => simple (match c with pkh_inst Rm Rn Rd imm => PKHBT_INST Rm Rn Rd imm | _ => bad end)
  | i_pkhtb => simple (match c with pkh_inst Rm Rn Rd imm => PKHTB_INST Rm Rn Rd imm | _ => bad end)
  | i_rev | i_rev16 | i_revsh => simple (match c with rev_inst Rd Rm op1 op2 => REV_INST Rd Rm op1 op2 | _ => bad end)
  | i_sxth => simple (on_extend c SXTH_INST)
  | i_sxtb => simple (on_extend c SXTB_INST)
  | i_uxth => simple (on_extend c UXTH_INST)
  | i_uxtb => simple (on_extend c UXTB_INST)
  | i_uxtah => simple (on_extend_add c UXTAH_INST)
  | i_uxtab => simple (on_extend_add c UXTAB_INST)
  | i_sxtab => simple (on_extend_add c SXTAB_INST)
  | i_sxtah => simple (on_extend_add c SXTAH_INST)
  | i_sxtab16 | i_sxtb16 => simple (on_extend_add c SXTAB16_INST)
  | i_uxtab16 | i_uxtb16 => simple (on_extend_add c UXTAB16_INST)
  | i_bbl =>
      match c with
      | bbl_inst L i => p ← pass (cond a); if p : bool then _ ← BBL_INST L i; mret Dispatch else (_ ← advance; mret Dispatch)
      | _ => bad
      end
  | i_blx =>
      match c with
      | blx_inst val inst => p ← pass (cond a); if p : bool then _ ← BLX_INST val inst; mret Dispatch else (_ ← advance; mret Dispatch)
      | _ => bad
      end
  | i_bx | i_bxj =>
      match c with
      | bx_inst Rm => p ← pass (cond a); if p : bool then _ ← BX_INST Rm; mret Dispatch else (_ ← advance; mret Dispatch)
      | _ => bad
      end
  | i_b_2_thumb => match c with b_2_thumb imm => B_2_THUMB imm | _ => bad end
  | i_b_cond_thumb => match c with b_cond_thumb imm cond => B_COND_THUMB imm cond | _ => bad end
  | i_bl_1_thumb => match c with bl_1_thumb imm => BL_1_THUMB imm | _ => bad end
  | i_bl_2_thumb => match c with bl_2_thumb imm => BL_2_THUMB imm | _ => bad end
  | i_blx_1_thumb => match c with blx_1_thumb imm _ => BLX_1_THUMB imm | _ => bad end
  | i_ldr => always (on_ldst c LDR_INST)
  | i_ldrcond => p ← read (CondPassed (cond a)); if p : bool then always (on_ldst c LDR_INST) else next_instruction
  | i_ldrb => simple (on_ldst c LDRB_INST)
  | i_ldrh => simple (on_ldst c LDRH_INST)
  | i_ldrsb => simple (on_ldst c LDRSB_INST)
  | i_ldrsh => simple (on_ldst c LDRSH_INST)
  | i_ldrbt => simple (on_ldst c LDRBT_INST)
  | i_ldrt => simple (on_ldst c LDRT_INST)
  | i_ldrd => simple4 (on_ldst c LDRD_INST)
  | i_str => simple (on_ldst c STR_INST)
  | i_strb => simple (on_ldst c STRB_INST)
  | i_strh => simple (on_ldst c STRH_INST)
  | i_strbt => simple (on_ldst c STRBT_INST)
  | i_strt => simple (on_ldst c STRT_INST)
  | i_strd => simple (on_ldst c STRD_INST)
  | i_ldm => jumping (on_ldst c LDM_INST)
  | i_stm => simple (on_ldst c STM_INST)
  | i_ldrex => simple (on_generic c (fun _ _ Rn Rd _ _ => LDREX_INST 4 Rn Rd))
  | i_ldrexb => simple (on_generic c (fun _ _ Rn Rd _ _ => LDREX_INST 1 Rn Rd))
  | i_ldrexh => simple (on_generic c (fun _ _ Rn Rd _ _ => LDREX_INST 2 Rn Rd))
  | i_ldrexd => simple (on_generic c (fun _ _ Rn Rd _ _ => LDREXD_INST Rn Rd))
  | i_strex => simple (on_generic c (fun _ Rm Rn Rd _ _ => STREX_INST 4 Rm Rn Rd))
  | i_strexb => simple (on_generic c (fun _ Rm Rn Rd _ _ => STREX_INST 1 Rm Rn Rd))
  | i_strexh => simple (on_generic c (fun _ Rm Rn Rd _ _ => STREX_INST 2 Rm Rn Rd))
  | i_strexd => simple (on_generic c (fun _ Rm Rn Rd _ _ => STREXD_INST Rm Rn Rd))
  | i_clrex => CLREX_INST
  | i_swp => simple (match c with swp_inst Rn Rd Rm => SWP_INST Rn Rd Rm | _ => bad end)
  | i_swpb => simple (match c with swp_inst Rn Rd Rm => SWPB_INST Rn Rd Rm | _ => bad end)
  | i_cps => match c with cps_inst imod0 imod1 mmod A1 I1 F1 mode => CPS_INST imod0 imod1 mmod A1 I1 F1 mode | _ => bad end
  | i_mrs => simple (match c with mrs_inst R Rd => MRS_INST R Rd | _ => bad end)
  | i_msr => simple (match c with msr_inst _ R inst => MSR_INST R inst | _ => bad end)
  | i_setend => match c with setend_inst b => SETEND_INST b | _ => bad end
  | i_mcr => simple (on_coprocessor c MCR_INST)
  | i_mrc => simple (on_coprocessor c MRC_INST)
  | i_rfe => on_ldst c RFE_INST
  | i_srs => on_ldst c SRS_INST
  | i_cdp => CDP_INST (cond a)
  | i_vmla | i_vmls | i_vnmla | i_vnmls | i_vnmul | i_vmul | i_vadd | i_vsub | i_vdiv | i_vabs | i_vneg | i_vsqrt | i_vcmp | i_vcmp2
  | i_vcvtbds | i_vcvtbff | i_vcvtbfi => simple (match c with vfp_inst instr dp => VFP_CDP instr dp | _ => bad end)
  | i_vmovi => simple (match c with vmovi_inst single d imm => VMOVI single d imm | _ => bad end)
  | i_vmovr => simple (match c with vmovr_inst single d m => VMOVR single d m | _ => bad end)
  | i_vmovbrs => simple (match c with vmovbrs_inst to_arm t n => VMOVBRS to_arm t n | _ => bad end)
  | i_vmsr => simple (match c with vmsr_inst reg rt => VMSR_INST reg rt | _ => bad end)
  | i_vmrs => simple (match c with vmsr_inst reg rt => VMRS_INST reg rt | _ => bad end)
  | i_vmovbrc => simple (match c with vmovbrc_inst _ index d t => VMOVBRC_INST index d t | _ => bad end)
  | i_vmovbcr => simple (match c with vmovbrc_inst _ index d t => VMOVBCR_INST index d t | _ => bad end)
  | i_vmovbrrss => simple (match c with vmovbrr_inst to_arm t t2 m => VMOVBRRSS to_arm t t2 m | _ => bad end)
  | i_vmovbrrd => simple (match c with vmovbrr_inst to_arm t t2 m => VMOVBRRD to_arm t t2 m | _ => bad end)
  | i_vstr => simple (match c with vstr_inst single n d imm32 add => VSTR_INST single n d imm32 add | _ => bad end)
  | i_vldr => simple (match c with vstr_inst single n d imm32 add => VLDR_INST single n d imm32 add | _ => bad end)
  | i_vpush => simple (match c with vpush_inst single d imm32 regs => VPUSH_INST single d imm32 regs | _ => bad end)
  | i_vpop => simple (match c with vpush_inst single d imm32 regs => VPOP_INST single d imm32 regs | _ => bad end)
  | i_vstm =>
      simple4 (match c with vstm_inst single add wback d n imm32 regs => VSTM_INST single add wback d n imm32 regs | _ => bad end)
  | i_vldm =>
      simple (match c with vstm_inst single add wback d n imm32 regs => VLDM_INST single add wback d n imm32 regs | _ => bad end)
  | i_bkpt | i_mcrr | i_mrrc | i_sev | i_wfe | i_wfi | i_yield | i_nop | i_pld | i_stc | i_ldc => nothing
  | i_swi => bad
  end.

End Labels.

(** ** The buffer of translated instructions *)

(** The interpreter: the processor, the offset of the block of an address, the buffer by offsets and its top, and
    the ticks given to the timer. *)
Record core (M : Type) := mk_core {
  state : cpu M; instruction_cache : gmap Z Z; trans_cache_buf : gmap Z arm_inst; trans_cache_buf_top : Z; ticks : Z }.
#[global] Arguments mk_core {M}.
#[global] Arguments state {M} _.
#[global] Arguments instruction_cache {M} _.
#[global] Arguments trans_cache_buf {M} _.
#[global] Arguments trans_cache_buf_top {M} _.
#[global] Arguments ticks {M} _.

(** [SVCContext::CallSVC], which may change the processor and clear the cache. *)
Class Svc (M : Type) := CallSVC : Z -> core M -> outcome (core M).

(** [sizeof(arm_inst)], the size of the structure behind [component] and [TRANS_CACHE_SIZE]. *)
Definition sizeof_arm_inst : Z := 12.
Definition sizeof (c : component) : Z :=
  match c with
  | no_inst => 0
  | empty_inst => 1
  | bkpt_inst _ | bx_inst _ | swi_inst _ | setend_inst _ | b_2_thumb _ | bl_1_thumb _ | bl_2_thumb _ => 4
  | blx_inst _ _ | clz_inst _ _ | mrs_inst _ _ | b_cond_thumb _ _ | blx_1_thumb _ _ | vfp_inst _ _ | vmsr_inst _ _ => 8
  | extend_inst _ _ _ | msr_inst _ _ _ | swp_inst _ _ _ | vmovi_inst _ _ _ | vmovr_inst _ _ _ | vmovbrs_inst _ _ _ => 12
  | bbl_inst _ _ | ldst_inst _ _ | extend_add_inst _ _ _ _ | mul_inst _ _ _ _ | umaal_inst _ _ _ _ | pkh_inst _ _ _ _
  | rev_inst _ _ _ _ | vmovbrc_inst _ _ _ _ | vmovbrr_inst _ _ _ _ | vpush_inst _ _ _ _ => 16
  | generic_arm_inst _ _ _ _ _ _ | mla_inst _ _ _ _ _ | smul_inst _ _ _ _ _ | long_inst _ _ _ _ _ | ssat_inst _ _ _ _ _
  | mcrr_inst _ _ _ _ _ | vstr_inst _ _ _ _ _ => 20
  | mov_inst _ _ _ _ _ | cmp_inst _ _ _ _ | smla_inst _ _ _ _ _ _ | smlalxy_inst _ _ _ _ _ _ => 24
  | cdp_inst _ _ _ _ _ _ _ | cps_inst _ _ _ _ _ _ _ | smlad_inst _ _ _ _ _ _ _ | smlald_inst _ _ _ _ _ _ _
  | mrc_inst _ _ _ _ _ _ _ | vstm_inst _ _ _ _ _ _ _ => 28
  | dp_inst _ _ _ _ _ _ => 32
  end.
Definition TRANS_CACHE_SIZE : Z := 64 * 1024 * 2000.
(** The size a label gives to [INC_PC]. *)
Definition increment (o : op) : Z :=
  match o with
  | i_nop | i_yield | i_wfe | i_wfi | i_sev => 0
  | i_pld | i_clrex | i_stc | i_ldc => 1
  | i_bkpt | i_setend | i_bxj | i_bx | i_swi | i_b_2_thumb | i_bl_1_thumb | i_bl_2_thumb => 4
  | i_vmla | i_vmls | i_vnmla | i_vnmls | i_vnmul | i_vmul | i_vadd | i_vsub | i_vdiv | i_vabs | i_vneg | i_vsqrt | i_vcmp
  | i_vcmp2 | i_vcvtbds | i_vcvtbff | i_vcvtbfi | i_vmsr | i_vmrs | i_blx | i_clz | i_mrs | i_b_cond_thumb | i_blx_1_thumb => 8
  | i_vmovi | i_vmovr | i_vmovbrs | i_sxtb | i_uxtb | i_sxth | i_uxth | i_swp | i_swpb | i_msr => 12
  | i_vmovbrc | i_vmovbcr | i_vmovbrrss | i_vmovbrrd | i_vpush | i_vpop | i_srs | i_rfe | i_rev16 | i_sxtb16 | i_uxtb16
  | i_uxtab | i_umaal | i_uxtab16 | i_sxtab | i_sxtah | i_sxtab16 | i_uxtah | i_rev | i_revsh | i_pkhtb | i_pkhbt | i_mul
  | i_ldm | i_stm | i_ldrsh | i_ldrsb | i_strd | i_ldrh | i_strh | i_ldrd | i_strt | i_strbt | i_ldrbt | i_ldrt | i_ldrb
  | i_strb | i_ldr | i_ldrcond | i_str | i_bbl => 16
  | i_vstr | i_vldr | i_usad8 | i_ssub8 | i_shsub8 | i_ssubaddx | i_strex | i_strexb | i_ssub16 | i_ssat16 | i_shsubaddx
  | i_qsubaddx | i_shaddsubx | i_shadd8 | i_shadd16 | i_sel | i_saddsubx | i_sadd8 | i_sadd16 | i_shsub16 | i_usubaddx
  | i_usub8 | i_usub16 | i_usat16 | i_usada8 | i_uqsubaddx | i_uqsub8 | i_uqsub16 | i_uqaddsubx | i_uqadd8 | i_uqadd16
  | i_uhsubaddx | i_uhsub8 | i_uhsub16 | i_uhaddsubx | i_uhadd8 | i_uhadd16 | i_uaddsubx | i_uadd8 | i_uadd16 | i_qadd8
  | i_qadd | i_qadd16 | i_qaddsubx | i_ldrex | i_qdadd | i_qdsub | i_qsub | i_ldrexb | i_qsub8 | i_qsub16 | i_smul | i_mcrr
  | i_mrrc | i_smull | i_umull | i_umlal | i_smlal | i_mla | i_ssat | i_usat | i_ldrexd | i_strexd | i_ldrexh | i_strexh => 20
  | i_cpy | i_smlalxy | i_smla | i_cmp | i_teq | i_cmn | i_mvn | i_mov => 24
  | i_vstm | i_vldm | i_cps | i_smuad | i_smmul | i_smusd | i_smlsd | i_smlsld | i_smmla | i_smmls | i_smlald | i_smlad
  | i_smlaw | i_smulw | i_mrc | i_mcr | i_cdp => 28
  | i_tst | i_and | i_bic | i_eor | i_add | i_rsb | i_rsc | i_sbc | i_adc | i_sub | i_orr => 32
  end.

Section Interpreter.
Context {M : Type} `{Bus M} `{Vfp M} `{Svc M}.
#[local] Abbreviation arm := (@ArmS.arm M).
Implicit Types k : core M.

Definition with_state (s : cpu M) k : core M := mk_core s (instruction_cache k) (trans_cache_buf k) (trans_cache_buf_top k) (ticks k).
Definition on_state (f : cpu M -> cpu M) k : core M := with_state (f (state k)) k.
Definition AddTicks (n : Z) k : core M := mk_core (state k) (instruction_cache k) (trans_cache_buf k) (trans_cache_buf_top k) (ticks k + n).
Definition AllocBuffer (a : arm_inst) k : outcome (core M) :=
  let start := trans_cache_buf_top k in
  let top := start + (sizeof_arm_inst + sizeof (comp a)) in
  _ ← assert_ (top <=? TRANS_CACHE_SIZE);
  Done (mk_core (state k) (instruction_cache k) (<[start := a]> (trans_cache_buf k)) top (ticks k)).
Definition ClearInstructionCache k : core M := mk_core (state k) ∅ (trans_cache_buf k) 0 (ticks k).

(** ** Translation *)

(** The size of the instruction at [phys_addr] and its translation. *)
Definition fetch_word (phys_addr : Z) : arm Z := fun s =>
  '(data, m) ← bus_read 4 (Z.land phys_addr 0xFFFFFFFC) (memory s); Done (data, set_memory m s).
Definition translate_arm (inst_size inst : Z) : outcome (Z * arm_inst) :=
  match DecodeARMInstruction inst with
  | Some index => Done (inst_size, arm_instruction_trans index inst index)
  | None => Stop FUndecoded
  end.
Definition translate_word (thumb : bool) (phys_addr inst : Z) : outcome (Z * arm_inst) :=
  if thumb then
    match DecodeThumbInstruction inst phys_addr with
    | (BRANCH, _, Some a) => Done (2, a)
    | (BRANCH, _, None) => Stop FUndecoded
    | (_, ainstr, _) => translate_arm 2 ainstr
    end
  else translate_arm 4 inst.
Definition InterpreterTranslateInstruction (phys_addr : Z) : arm (Z * arm_inst) :=
  inst ← fetch_word phys_addr; t ← read TFlag; lift (translate_word (negb (t =? 0)) phys_addr inst).

(** Instructions are translated up to a branch or the end of the page; a page holds 2048 halfwords. *)
Definition page_instructions : nat := 2048.
Fixpoint translate_block (fuel : nat) (phys_addr : Z) k : outcome (core M) :=
  match fuel with
  | O => Stop FFuel
  | S fuel =>
      '((inst_size, a), s) ← InterpreterTranslateInstruction phys_addr (state k);
      let phys_addr := u32 (phys_addr + inst_size) in
      let a := if Z.land phys_addr 0xfff =? 0 then set_br END_OF_PAGE a else a in
      k ← AllocBuffer a (with_state s k);
      if decide (br a = NON_BRANCH) then translate_block fuel phys_addr k else Done k
  end.
Definition remember (pc_start bb_start : Z) k : core M :=
  mk_core (state k) (<[pc_start := bb_start]> (instruction_cache k)) (trans_cache_buf k) (trans_cache_buf_top k) (ticks k).
Definition InterpreterTranslateBlock (addr : Z) k : outcome (Z * core M) :=
  let bb_start := trans_cache_buf_top k in
  let pc_start := reg (state k) 15 in
  k ← translate_block page_instructions addr k;
  Done (bb_start, remember pc_start bb_start k).
Definition InterpreterTranslateSingle (addr : Z) k : outcome (Z * core M) :=
  let bb_start := trans_cache_buf_top k in
  let pc_start := reg (state k) 15 in
  '((_, a), s) ← InterpreterTranslateInstruction addr (state k);
  k ← AllocBuffer (if decide (br a = NON_BRANCH) then set_br SINGLE_STEP a else a) (with_state s k);
  Done (bb_start, remember pc_start bb_start k).

(** ** The main loop *)

(** [&trans_cache_buf[ptr]] *)
Definition at_ptr (ptr : Z) k : outcome arm_inst := of_opt FUninitialized (trans_cache_buf k !! ptr).

(** [DISPATCH]: [None] is [goto END]. *)
Definition align_pc (s : cpu M) : cpu M := set_Reg (put 15 (Z.land (reg s 15) (if TFlag s =? 0 then 0xfffffffc else 0xfffffffe)) (Reg s)) s.
Definition DISPATCH k : outcome (option (Z * arm_inst) * core M) :=
  let s := state k in
  if (NirqSig s =? 0) && (Z.land (Cpsr s) 0x80 =? 0) then Done (None, k)
  else
    let k := on_state align_pc k in
    let pc := reg (state k) 15 in
    '(ptr, k) ← match instruction_cache k !! pc with
                | Some ptr => Done (ptr, k)
                | None => if NumInstrsToExecute (state k) =? 1 then InterpreterTranslateSingle pc k else InterpreterTranslateBlock pc k
                end;
    a ← at_ptr ptr k;
    Done (Some (ptr, a), k).

(** The debugger hook brings the Thumb bit up to date. *)
Definition GDB_BP_CHECK (s : cpu M) : cpu M := set_Cpsr (Z.lor (Z.land (Cpsr s) (not32 (Z.shiftl 1 5))) (u32 (Z.shiftl (TFlag s) 5))) s.
Definition END (s : cpu M) : cpu M := set_NumInstrsToExecute 0 (SAVE_NZCVT s).

(** A label: where it goes, [num_instrs] and the interpreter. *)
Definition run_state (m : arm next) (num_instrs : Z) k : outcome (next * Z * core M) :=
  '(x, s) ← m (state k); Done (x, num_instrs, with_state s k).
Definition SWI_INST (cond num num_instrs : Z) k : outcome (next * Z * core M) :=
  if (cond =? AL) || CondPassed cond (state k) then
    let k := AddTicks num_instrs k in
    let left := NumInstrsToExecute (state k) in
    let k := on_state (set_NumInstrsToExecute (if left <=? num_instrs then 0 else left - num_instrs)) k in
    k ← CallSVC (Z.land num 0xFFFF) k;
    run_state next_instruction 0 (on_state UnsetExclusiveMemoryAddress k)
  else run_state next_instruction num_instrs k.
Definition run_label (a : arm_inst) (num_instrs : Z) k : outcome (next * Z * core M) :=
  match idx a, comp a with
  | i_swi, swi_inst num => SWI_INST (cond a) num num_instrs k
  | _, _ => run_state (execute a) num_instrs k
  end.

(** [FETCH_INST] after a label, and [goto DISPATCH]: the next instruction and its place; [None] is [goto END]. *)
Definition FETCH_INST (x : next) (ptr : Z) (a : arm_inst) k : outcome (option (Z * arm_inst) * core M) :=
  match x with
  | Fetch =>
      if decide (br a = NON_BRANCH) then
        let ptr := ptr + (sizeof_arm_inst + increment (idx a)) in
        a ← at_ptr ptr k; Done (Some (ptr, a), k)
      else DISPATCH k
  | _ => DISPATCH k
  end.

(** From [GOTO_NEXT_INST] on the instruction [a] at [ptr]; the result is [num_instrs]. *)
Fixpoint main_loop (fuel : nat) (ptr : Z) (a : arm_inst) (num_instrs : Z) k : outcome (Z * core M) :=
  match fuel with
  | O => Stop FFuel
  | S fuel =>
      let k := on_state GDB_BP_CHECK k in
      if NumInstrsToExecute (state k) <=? num_instrs then Done (num_instrs, on_state END k)
      else
        '(x, num_instrs, k) ← run_label a (u32 (num_instrs + 1)) k;
        match x with
        | Return => Done (num_instrs, k)
        | _ =>
            '(r, k) ← FETCH_INST x ptr a k;
            match r with Some (ptr, a) => main_loop fuel ptr a num_instrs k | None => Done (num_instrs, on_state END k) end
        end
  end.
Definition InterpreterMainLoop (fuel : nat) k : outcome (Z * core M) :=
  '(r, k) ← DISPATCH (on_state LOAD_NZCVT k);
  match r with Some (ptr, a) => main_loop fuel ptr a 0 k | None => Done (0, on_state END k) end.

(** ** [ARM_DynCom] *)

Definition ExecuteInstructions (fuel : nat) (num_instructions : Z) k : outcome (core M) :=
  '(ticks_executed, k) ← InterpreterMainLoop fuel (on_state (set_NumInstrsToExecute num_instructions) k);
  Done (AddTicks ticks_executed k).
(** [downcount] is that of the timer. *)
Definition Run (fuel : nat) (downcount : Z) k : outcome (core M) := ExecuteInstructions fuel (Z.max downcount 0) k.
Definition Step (fuel : nat) k : outcome (core M) := ExecuteInstructions fuel 1 k.
Definition PrepareReschedule k : core M := on_state (set_NumInstrsToExecute 0) k.

End Interpreter.
End ArmX.
