(* ===== verification/ArmFrame.v ===== *)
(** * What instructions leave alone

    A frame is a relation between the states before and after an operation that holds for the elementary
    updates of the interpreter; every label but RFE then respects it.  The frames used are the type of
    the state and what user mode cannot change. *)
From S2P Require Import Prelude ArmSupport ArmState ArmOperands ArmDecode ArmTranslate ArmAlu ArmParallel ArmTransfer ArmVfp ArmInterpreter.

Module ArmF.
Import Arm ArmS ArmOp ArmD ArmI ArmA ArmP ArmM ArmV ArmX.

(** ** Frames *)

(** A flag: 0 or 1. *)
Definition flag (v : Z) : Prop := v = 0 \/ v = 1.

Lemma flag_b2z b : flag (Z.b2z b).
Proof. destruct b; [by right|by left]. Qed.
Lemma flag_if (b : bool) : flag (if b then 1 else 0).
Proof. destruct b; [by right|by left]. Qed.
Lemma flag_land v : flag (Z.land v 1).
Proof. change 1 with (Z.ones 1) at 1. rewrite Z.land_ones by lia. pose proof (Z.mod_pos_bound v (2 ^ 1) ltac:(lia)). unfold flag. change (2 ^ 1) with 2 in *. lia. Qed.
Lemma flag_BIT v n : flag (BIT v n).
Proof. apply flag_land. Qed.
Create HintDb arm.
#[export] Hint Resolve flag_b2z flag_if flag_land flag_BIT : arm.
#[export] Hint Extern 1 (flag 0) => left; reflexivity : arm.
#[export] Hint Extern 1 (flag 1) => right; reflexivity : arm.

(** The operands of CPS are a bit and a mode. *)
Definition typed (c : component) : Prop := match c with cps_inst imod0 _ _ _ _ _ mode => flag imod0 /\ 0 <= mode < 32 | _ => True end.

(** The component of an instruction is of the kind its label looks at. *)
Definition kind (c : component) : nat :=
  match c with
  | dp_inst _ _ _ _ _ _ => 0 | mov_inst _ _ _ _ _ => 1 | cmp_inst _ _ _ _ => 2 | bbl_inst _ _ => 3 | bkpt_inst _ => 4
  | blx_inst _ _ => 5 | bx_inst _ => 6 | cdp_inst _ _ _ _ _ _ _ => 7 | clz_inst _ _ => 8 | cps_inst _ _ _ _ _ _ _ => 9
  | empty_inst => 10 | no_inst => 11 | ldst_inst _ _ => 12 | extend_inst _ _ _ => 13 | extend_add_inst _ _ _ _ => 14
  | generic_arm_inst _ _ _ _ _ _ => 15 | mla_inst _ _ _ _ _ => 16 | mul_inst _ _ _ _ => 17 | smul_inst _ _ _ _ _ => 18
  | long_inst _ _ _ _ _ => 19 | smlad_inst _ _ _ _ _ _ _ => 20 | smla_inst _ _ _ _ _ _ => 21 | smlalxy_inst _ _ _ _ _ _ => 22
  | smlald_inst _ _ _ _ _ _ _ => 23 | ssat_inst _ _ _ _ _ => 24 | umaal_inst _ _ _ _ => 25 | mrc_inst _ _ _ _ _ _ _ => 26
  | mcrr_inst _ _ _ _ _ => 27 | mrs_inst _ _ => 28 | msr_inst _ _ _ => 29 | swi_inst _ => 30 | swp_inst _ _ _ => 31
  | setend_inst _ => 32 | pkh_inst _ _ _ _ => 33 | rev_inst _ _ _ _ => 34 | b_2_thumb _ => 35 | b_cond_thumb _ _ => 36
  | bl_1_thumb _ => 37 | bl_2_thumb _ => 38 | blx_1_thumb _ _ => 39 | vfp_inst _ _ => 40 | vmovi_inst _ _ _ => 41
  | vmovr_inst _ _ _ => 42 | vmovbrs_inst _ _ _ => 43 | vmsr_inst _ _ => 44 | vmovbrc_inst _ _ _ _ => 45
  | vmovbrr_inst _ _ _ _ => 46 | vstr_inst _ _ _ _ _ => 47 | vpush_inst _ _ _ _ => 48 | vstm_inst _ _ _ _ _ _ _ => 49
  end%nat.
Definition fits (o : op) (c : component) : Prop := kind c = kind (comp (arm_instruction_trans o 0 o)).
Definition proper (a : arm_inst) : Prop := fits (idx a) (comp a) /\ typed (comp a).

Section Frames.
Context {M : Type} `{Bus M}.
Implicit Types s : cpu M.
#[local] Abbreviation arm := (@ArmS.arm M).

(** An operation ends in a related state or with a fault of a given set, to which the faults of memory belong and
    all others but the end of the fuel, a use of what is not initialized and a word that does not decode. *)
Class Faults (P : fault -> Prop) : Prop := {
  ordinary f : f ≠ FFuel -> f ≠ FUninitialized -> f ≠ FUndecoded -> P f;
  read_fault n a m f : bus_read n a m = Stop f -> P f;
  write_fault n a d m f : bus_write n a d m = Stop f -> P f;
}.
Definition goes (P : fault -> Prop) (R : cpu M -> cpu M -> Prop) {A} s (o : outcome (A * cpu M)) : Prop :=
  match o with Done (_, s') => R s s' | Stop f => P f end.
Definition Respects (P : fault -> Prop) (R : cpu M -> cpu M -> Prop) {A} (m : arm A) : Prop := forall s, goes P R s (m s).

Lemma respects_done P R {A} (m : arm A) s a s' : Respects P R m -> m s = Done (a, s') -> R s s'.
Proof. intros Hm E. specialize (Hm s). by rewrite E in Hm. Qed.
Lemma respects_stop P R {A} (m : arm A) s f : Respects P R m -> m s = Stop f -> P f.
Proof. intros Hm E. specialize (Hm s). by rewrite E in Hm. Qed.

Class Frame (R : cpu M -> cpu M -> Prop) : Prop := {
  frame_refl s : R s s;
  frame_trans s1 s2 s3 : R s1 s2 -> R s2 s3 -> R s1 s3;
  frame_Reg i v s : R s (set_Reg (put i (u32 v) (Reg s)) s);
  frame_carry v s : v = CFlag s \/ flag v -> R s (set_shifter_carry_out v s);
  frame_NFlag v s : flag v -> R s (set_NFlag v s);
  frame_ZFlag v s : flag v -> R s (set_ZFlag v s);
  frame_CFlag v s : v = shifter_carry_out s \/ flag v -> R s (set_CFlag v s);
  frame_VFlag v s : flag v -> R s (set_VFlag v s);
  frame_TFlag v s : flag v -> R s (set_TFlag v s);
  frame_bit n b s : 9 <= n <= 31 -> R s (set_bit n b s);
  frame_restore s : R s (restore_status s);
  frame_memory m s : R s (set_memory m s);
  frame_reserve a s : R s (SetExclusiveMemoryAddress a s);
  frame_unreserve s : R s (UnsetExclusiveMemoryAddress s);
  frame_usr i v s : Mode s ≠ USER32MODE -> R s (set_Reg_usr (put i (u32 v) (Reg_usr s)) s);
  frame_in_user s s' : R (ChangePrivilegeMode USER32MODE s) s' -> R s (ChangePrivilegeMode (Mode s) s');
  frame_cps imod0 imod1 mmod A1 I1 F1 mode s : flag imod0 -> 0 <= mode < 32 -> InAPrivilegedMode s = true -> R s (cps_status imod0 imod1 mmod A1 I1 F1 mode s);
  frame_save s : R s (SAVE_NZCVT s);
  frame_msr operand inst s : R s (msr_cpsr operand inst s);
  frame_spsr operand inst s : CurrentModeHasSPSR s = true -> R s (msr_spsr operand inst s);
  frame_mrc v s : R s (LOAD_NZCVT (set_Cpsr (masked (Cpsr s) v 0xF0000000) s));
  frame_mcr v crn opcode_1 crm opcode_2 s : R s (WriteCP15Register v crn opcode_1 crm opcode_2 s);
  frame_stop s : R s (set_NumInstrsToExecute 0 s);
  frame_ExtReg i v s : R s (set_ExtReg (put i (u32 v) (ExtReg s)) s);
  frame_VFP i v s : i = VFP_FPSCR \/ InAPrivilegedMode s = true -> R s (set_VFP (<[i := u32 v]> (VFP s)) s);
}.

Context (P : fault -> Prop) `{!Faults P} (R : cpu M -> cpu M -> Prop) `{!Frame R}.

(** ** Composition *)

Lemma goes_done {A} (a : A) s s' : R s s' -> goes P R s (Done (a, s')).
Proof. done. Qed.
Lemma respects_ret {A} (a : A) : Respects P R (mret a).
Proof. intros s. by apply goes_done, frame_refl. Qed.
Lemma goes_trans {A} s s1 (o : outcome (A * cpu M)) : R s s1 -> goes P R s1 o -> goes P R s o.
Proof. intros H1. destruct o as [[a s2]|f]; [by intros H2; apply goes_done, (frame_trans s s1)|done]. Qed.
Lemma goes_bind {A B} s (o : outcome A) (k : A -> outcome (B * cpu M)) :
  (forall f, o = Stop f -> P f) -> (forall a, o = Done a -> goes P R s (k a)) -> goes P R s (o ≫= k).
Proof. intros Hf Hk. destruct o as [a|f]; cbn; [by apply Hk|by apply Hf]. Qed.
Lemma respects_bind {A B} (m : arm A) (k : A -> arm B) : Respects P R m -> (forall a, Respects P R (k a)) -> Respects P R (m ≫= k).
Proof.
  intros Hm Hk s. apply goes_bind; [intros f; by apply respects_stop with R|].
  intros [a s1] E. eapply goes_trans; [by eapply respects_done|apply Hk].
Qed.
Lemma respects_read {A} (f : cpu M -> A) : Respects P R (read f).
Proof. intros s. by apply goes_done, frame_refl. Qed.
Lemma respects_modify f : (forall s, R s (f s)) -> Respects P R (modify f).
Proof. intros Hf s. apply goes_done, Hf. Qed.
Lemma respects_lift {A} (o : outcome A) : (forall f, o = Stop f -> P f) -> Respects P R (lift o : arm A).
Proof. intros Hf s. apply goes_bind; [done|]. intros a _. apply goes_done, frame_refl. Qed.
Lemma respects_stopped {A} f : f ≠ FFuel -> f ≠ FUninitialized -> f ≠ FUndecoded -> Respects P R (lift (Stop f) : arm A).
Proof. intros Hf Hu Hd. apply respects_lift. intros f' [= <-]. by apply ordinary. Qed.
Lemma respects_if {A} (b : bool) (m1 m2 : arm A) : Respects P R m1 -> Respects P R m2 -> Respects P R (if b then m1 else m2).
Proof. by destruct b. Qed.
Lemma respects_when b (m : arm unit) : Respects P R m -> Respects P R (when b m).
Proof. intros Hm. unfold when. apply respects_if; [done|apply respects_ret]. Qed.
Lemma at_index_fault l i f : at_index l i = Stop f -> P f.
Proof. unfold at_index, of_opt. destruct (l !! _); [done|]. intros [= <-]. by apply ordinary. Qed.
Lemma respects_get_reg i : Respects P R (get_reg i).
Proof. intros s. apply goes_bind; [apply at_index_fault|]. intros v _. apply goes_done, frame_refl. Qed.
Lemma respects_set_reg i v : Respects P R (set_reg i v).
Proof. intros s. apply goes_bind; [apply at_index_fault|]. intros x _. apply goes_done, frame_Reg. Qed.
Lemma respects_get_ext i : Respects P R (get_ext i).
Proof. intros s. apply goes_bind; [apply at_index_fault|]. intros v _. apply goes_done, frame_refl. Qed.
Lemma respects_set_ext i v : Respects P R (set_ext i v).
Proof. intros s. apply goes_bind; [apply at_index_fault|]. intros x _. apply goes_done, frame_ExtReg. Qed.
Lemma respects_ReadMemory n a : Respects P R (ReadMemory n a).
Proof. intros s. apply goes_bind; [intros f; apply read_fault|]. intros [d m] _. apply goes_done, frame_memory. Qed.
Lemma respects_WriteMemory n a d : Respects P R (WriteMemory n a d).
Proof. intros s. apply goes_bind; [intros f; apply write_fault|]. intros m _. apply goes_done, frame_memory. Qed.
Lemma respects_in_user {A} (m : arm A) : Respects P R m -> Respects P R (in_user_mode m).
Proof.
  intros Hm s. unfold in_user_mode. specialize (Hm (ChangePrivilegeMode USER32MODE s)).
  change (goes P R s ('(a, s') ← m (ChangePrivilegeMode USER32MODE s); Done (a, ChangePrivilegeMode (Mode s) s'))).
  destruct (m _) as [[a s']|f]; [by apply goes_done, frame_in_user|done].
Qed.

(** Goes through a handler; what is left is an update of the state. *)
Ltac respect :=
  repeat (cbv beta zeta; lazymatch goal with
    | |- Respects _ _ (mret _) => apply respects_ret
    | |- Respects _ _ (mbind _ _) => apply respects_bind; [|intros ?]
    | |- Respects _ _ (when _ _) => apply respects_when
    | |- Respects _ _ (read _) => apply respects_read
    | |- Respects _ _ (modify _) => apply respects_modify; intros ?
    | |- Respects _ _ (lift (Stop _)) => apply respects_stopped; discriminate
    | |- Respects _ _ (get_reg _) => apply respects_get_reg
    | |- Respects _ _ (set_reg _ _) => apply respects_set_reg
    | |- Respects _ _ (get_ext _) => apply respects_get_ext
    | |- Respects _ _ (set_ext _ _) => apply respects_set_ext
    | |- Respects _ _ (ReadMemory _ _) => apply respects_ReadMemory
    | |- Respects _ _ (WriteMemory _ _ _) => apply respects_WriteMemory
    | |- Respects _ _ (if ?b then _ else _) => destruct b
    | |- Respects _ _ (match ?x with _ => _ end) => destruct x
    end).

(** ** Updates shared by the handlers *)

Lemma frame_NZ v s : R s (NZ v s).
Proof. unfold NZ, UPDATE_ZFLAG, UPDATE_NFLAG. eapply frame_trans; [apply (frame_NFlag (BIT v 31))|apply frame_ZFlag]; auto with arm. Qed.
Lemma frame_CV c o s : R s (set_CV c o s).
Proof. unfold set_CV. eapply frame_trans; [apply (frame_CFlag (Z.b2z c))|apply frame_VFlag]; auto with arm. Qed.
Lemma frame_SC s : R s (UPDATE_CFLAG_WITH_SC s).
Proof. apply frame_CFlag. by left. Qed.
Lemma frame_GE16 a b s : R s (set_GE16 a b s).
Proof. unfold set_GE16. do 3 (eapply frame_trans; [|apply frame_bit; lia]). apply frame_bit. lia. Qed.
Lemma frame_GE8 a b c d s : R s (set_GE8 a b c d s).
Proof. unfold set_GE8. do 3 (eapply frame_trans; [|apply frame_bit; lia]). apply frame_bit. lia. Qed.
Lemma frame_vfp_flags s : R s (load_vfp_flags s).
Proof.
  unfold load_vfp_flags. repeat (eapply frame_trans; [|first [apply frame_VFlag|apply frame_CFlag; right|apply frame_ZFlag|apply frame_NFlag]; apply flag_land]).
  apply frame_refl.
Qed.

Lemma respects_advance : Respects P R advance.
Proof. unfold advance. respect. Qed.
Lemma respects_next : Respects P R next_instruction.
Proof. unfold next_instruction. respect. apply respects_advance. Qed.
Lemma respects_simple c m : Respects P R m -> Respects P R (simple c m).
Proof. intros Hm. unfold simple, pass. respect; first [exact Hm | apply respects_next]. Qed.
Lemma respects_simple4 c m : Respects P R m -> Respects P R (simple4 c m).
Proof. intros Hm. unfold simple4, pass. respect; first [exact Hm | apply respects_next]. Qed.
Lemma respects_jumping c m : Respects P R m -> Respects P R (jumping c m).
Proof. intros Hm. unfold jumping, pass. respect; first [exact Hm | apply respects_next]. Qed.
Lemma respects_always m : Respects P R m -> Respects P R (always m).
Proof. intros Hm. unfold always. respect; first [exact Hm | apply respects_next]. Qed.
Lemma respects_rn_pc i : Respects P R (rn_pc i).
Proof. unfold rn_pc. respect. Qed.
Lemma respects_read15 i : Respects P R (CHECK_READ_REG15 i).
Proof. unfold CHECK_READ_REG15. respect. Qed.
Lemma respects_read15_WA i : Respects P R (CHECK_READ_REG15_WA i).
Proof. unfold CHECK_READ_REG15_WA. respect. Qed.
Lemma respects_Q b : Respects P R (set_Q b).
Proof. unfold set_Q. respect. apply frame_bit. lia. Qed.

(** ** Operands *)

Lemma respects_operand v c : flag c -> Respects P R (operand v c).
Proof. intros Hc. unfold operand. respect. apply frame_carry. by right. Qed.
(** A shifter operand may keep the carry flag. *)
Lemma respects_carry {A} (k : Z -> arm A) :
  (forall s, goes P R s (k (CFlag s) s)) -> Respects P R (carry_flag ≫= k).
Proof. intros Hk s. apply Hk. Qed.
Lemma operand_carry v c s : c = CFlag s \/ flag c -> goes P R s (operand v c s).
Proof. intros Hc. by apply goes_done, frame_carry. Qed.

Lemma respects_shifter f so : Respects P R (shifter f so).
Proof.
  destruct f as [[]|]; cbn [shifter]; [..|respect];
    unfold DPO_Immediate, DPO_Register, DPO_LogicalShiftLeftByImmediate, DPO_LogicalShiftLeftByRegister, DPO_LogicalShiftRightByImmediate,
      DPO_LogicalShiftRightByRegister, DPO_ArithmeticShiftRightByImmediate, DPO_ArithmeticShiftRightByRegister, DPO_RotateRightByImmediate,
      DPO_RotateRightByRegister, RM, RS; cbv zeta;
    repeat (apply respects_bind; [apply respects_read15|intros ?]);
    first [ apply respects_carry; intros ?; repeat case_match; apply operand_carry; auto with arm
          | repeat case_match; apply respects_operand; auto with arm ].
Qed.

Lemma respects_add_reg inst i o : Respects P R (add_reg inst i o).
Proof. unfold add_reg. respect. Qed.
Lemma respects_get_addr f inst : Respects P R (get_addr f inst).
Proof.
  destruct f as [[]|]; cbn [get_addr]; [..|respect];
    unfold LnSWoUB_ImmediateOffset, LnSWoUB_RegisterOffset, LnSWoUB_ScaledRegisterOffset, LnSWoUB_ImmediatePreIndexed, LnSWoUB_RegisterPreIndexed,
      LnSWoUB_ScaledRegisterPreIndexed, LnSWoUB_ImmediatePostIndexed, LnSWoUB_RegisterPostIndexed, LnSWoUB_ScaledRegisterPostIndexed,
      MLnS_ImmediateOffset, MLnS_RegisterOffset, MLnS_ImmediatePreIndexed, MLnS_RegisterPreIndexed, MLnS_ImmediatePostIndexed,
      MLnS_RegisterPostIndexed, LdnStM_IncrementAfter, LdnStM_IncrementBefore, LdnStM_DecrementAfter, LdnStM_DecrementBefore,
      write_back, move_base, add_reg, carry_flag, passed, CHECK_READ_REG15_WA; respect.
Qed.

(** ** Data processing and multiplication *)

Lemma respects_arith b Rd r : Respects P R (arith b Rd r).
Proof.
  destruct r as [[v c] o]. unfold arith. respect.
  destruct (Rd =? 15); [apply frame_restore|]. eapply frame_trans; [apply frame_NZ|apply frame_CV].
Qed.
Lemma respects_logical b Rd v : Respects P R (logical b Rd v).
Proof.
  unfold logical. respect. destruct (Rd =? 15); [apply frame_restore|]. eapply frame_trans; [apply frame_NZ|apply frame_SC].
Qed.
Lemma respects_compare r : Respects P R (compare r).
Proof. destruct r as [[v c] o]. unfold compare. respect. eapply frame_trans; [apply frame_NZ|apply frame_CV]. Qed.

Lemma respects_set_NZ b Rd : Respects P R (set_NZ b Rd).
Proof. unfold set_NZ. respect. apply frame_NZ. Qed.
Lemma respects_long_flags b hi lo : Respects P R (long_flags b hi lo).
Proof. unfold long_flags. respect. eapply frame_trans; [apply (frame_NFlag (BIT a 31))|apply frame_ZFlag]; auto with arm. Qed.
Lemma respects_set_long lo hi a b : Respects P R (set_long lo hi a b).
Proof. unfold set_long. respect. Qed.
Lemma respects_rotated Rm r : Respects P R (rotated Rm r).
Proof. unfold rotated. respect. Qed.

(** ** Transfers *)

Lemma respects_load_each f l addr : (forall i v, Respects P R (f i v)) -> Respects P R (load_each f l addr).
Proof. intros Hf. revert addr. induction l as [|i l IH]; intros addr; cbn [load_each]; respect; [apply Hf|apply IH]. Qed.
Lemma respects_store_each f l addr : (forall i, Respects P R (f i)) -> Respects P R (store_each f l addr).
Proof. intros Hf. revert addr. induction l as [|i l IH]; intros addr; cbn [store_each]; respect; [apply Hf|apply IH]. Qed.
Lemma respects_each_ext f size n addr d : (forall a i, Respects P R (f a i)) -> Respects P R (each_ext f size n addr d).
Proof. intros Hf. revert addr d. induction n as [|n IH]; intros addr d; cbn [each_ext]; respect; [apply Hf|apply IH]. Qed.
Lemma respects_exclusive Rn Rd f : (forall a, Respects P R (f a)) -> Respects P R (exclusive Rn Rd f).
Proof. intros Hf. unfold exclusive. respect; [apply frame_unreserve|apply Hf]. Qed.
Lemma respects_TFlag v : Respects P R (modify (set_TFlag (Z.land v 1))).
Proof. respect. apply frame_TFlag. apply flag_land. Qed.
Lemma respects_reserve a : Respects P R (modify (SetExclusiveMemoryAddress a)).
Proof. respect. apply frame_reserve. Qed.
Lemma respects_user_reg i : Respects P R (get_user_reg i).
Proof. unfold get_user_reg. respect. apply respects_lift, at_index_fault. Qed.
(** What depends on the mode is done in the mode it is decided in. *)
Lemma respects_decided {A B} (f : cpu M -> A) (k : A -> arm B) :
  (forall s, goes P R s (k (f s) s)) -> Respects P R (read f ≫= k).
Proof. intros Hk s. apply Hk. Qed.
Lemma respects_set_user_reg i v : Respects P R (set_user_reg i v).
Proof.
  unfold set_user_reg. apply respects_decided. intros s.
  destruct (_ || _) eqn:Hm; [apply respects_set_reg|].
  apply orb_false_iff in Hm as [_ Hm%Z.eqb_neq]. by apply goes_done, frame_usr.
Qed.
Lemma respects_VMSR register rt : Respects P R (VMSR_INST register rt).
Proof.
  unfold VMSR_INST. apply respects_decided. cbv zeta. intros s.
  assert (W : forall i, i = VFP_FPSCR \/ InAPrivilegedMode s = true -> goes P R s ((v ← get_reg rt; set_vfp i v) s)).
  { intros i Hi. apply goes_bind; [intros f; apply respects_stop with R, respects_get_reg|].
    intros [v s1] E1. apply outcome_bind_done in E1 as (? & _ & E1). injection E1 as -> <-. by apply goes_done, frame_VFP. }
  assert (W' : forall i, goes P R s (when (InAPrivilegedMode s) (v ← get_reg rt; set_vfp i v) s)).
  { intros i. destruct (InAPrivilegedMode s) eqn:Hp; [by apply W; right|]. apply goes_done, frame_refl. }
  repeat case_match; first [apply W' | apply W; by left | apply goes_done, frame_refl].
Qed.
Lemma respects_CPS imod0 imod1 mmod A1 I1 F1 mode : flag imod0 -> 0 <= mode < 32 -> Respects P R (CPS_INST imod0 imod1 mmod A1 I1 F1 mode).
Proof.
  intros Hi Hm. unfold CPS_INST. apply respects_bind; [|intros _; apply respects_next]. apply respects_modify. intros s.
  destruct (InAPrivilegedMode s) eqn:Hp; [by apply frame_cps|apply frame_refl].
Qed.
Lemma respects_MSR r inst : Respects P R (MSR_INST r inst).
Proof.
  unfold MSR_INST. apply respects_bind; [respect|intros operand]. apply respects_modify. intros s.
  destruct (r =? 0); [apply frame_msr|]. destruct (CurrentModeHasSPSR s) eqn:Hs; [by apply frame_spsr|].
  unfold msr_spsr. rewrite Hs. apply frame_refl.
Qed.
Lemma respects_set_loaded i v : Respects P R (set_loaded i v).
Proof. unfold set_loaded. respect. apply frame_TFlag, flag_land. Qed.

(** Goes through a label: the lemma of each operation, the cases of its conditions. *)
Ltac label :=
  repeat (cbv beta zeta; lazymatch goal with
    | |- Respects _ _ (mret _) => apply respects_ret
    | |- Respects _ _ (mbind _ _) => apply respects_bind; [|intros ?]
    | |- Respects _ _ (when _ _) => apply respects_when
    | |- Respects _ _ (read _) => apply respects_read
    | |- Respects _ _ carry_flag => apply respects_read
    | |- Respects _ _ (lift (Stop _)) => apply respects_stopped; discriminate
    | |- Respects _ _ (get_reg _) => apply respects_get_reg
    | |- Respects _ _ (set_reg _ _) => apply respects_set_reg
    | |- Respects _ _ (get_ext _) => apply respects_get_ext
    | |- Respects _ _ (set_ext _ _) => apply respects_set_ext
    | |- Respects _ _ (get_vfp _) => apply respects_read
    | |- Respects _ _ (set_vfp _ _) => apply respects_modify; intros ?; apply frame_VFP; by left
    | |- Respects _ _ (ReadMemory _ _) => apply respects_ReadMemory
    | |- Respects _ _ (WriteMemory _ _ _) => apply respects_WriteMemory
    | |- Respects _ _ (shifter _ _) => apply respects_shifter
    | |- Respects _ _ (get_addr _ _) => apply respects_get_addr
    | |- Respects _ _ (arith _ _ _) => apply respects_arith
    | |- Respects _ _ (logical _ _ _) => apply respects_logical
    | |- Respects _ _ (compare _) => apply respects_compare
    | |- Respects _ _ (set_NZ _ _) => apply respects_set_NZ
    | |- Respects _ _ (long_flags _ _ _) => apply respects_long_flags
    | |- Respects _ _ (set_long _ _ _ _) => apply respects_set_long
    | |- Respects _ _ (rotated _ _) => apply respects_rotated
    | |- Respects _ _ (rn_pc _) => apply respects_rn_pc
    | |- Respects _ _ (CHECK_READ_REG15_WA _) => apply respects_read15_WA
    | |- Respects _ _ (set_Q _) => apply respects_Q
    | |- Respects _ _ (in_user_mode _) => apply respects_in_user
    | |- Respects _ _ (load_each _ _ _) => apply respects_load_each; intros ? ?
    | |- Respects _ _ (store_each _ _ _) => apply respects_store_each; intros ?
    | |- Respects _ _ (each_ext _ _ _ _ _) => apply respects_each_ext; intros ? ?
    | |- Respects _ _ (exclusive _ _ _) => apply respects_exclusive; intros ?
    | |- Respects _ _ (modify (set_TFlag (Z.land _ _))) => apply respects_TFlag
    | |- Respects _ _ (modify (SetExclusiveMemoryAddress _)) => apply respects_reserve
    | |- Respects _ _ (modify restore_status) => apply respects_modify, frame_restore
    | |- Respects _ _ (get_user_reg _) => apply respects_user_reg
    | |- Respects _ _ (set_user_reg _ _) => apply respects_set_user_reg
    | |- Respects _ _ (set_loaded _ _) => apply respects_set_loaded
    | |- Respects _ _ advance => apply respects_advance
    | |- Respects _ _ next_instruction => apply respects_next
    | |- Respects _ _ (pass _) => apply respects_read
    | |- Respects _ _ (simple _ _) => apply respects_simple
    | |- Respects _ _ (simple4 _ _) => apply respects_simple4
    | |- Respects _ _ (jumping _ _) => apply respects_jumping
    | |- Respects _ _ (always _) => apply respects_always
    | |- Respects _ _ (if ?b then _ else _) => destruct b
    | |- Respects _ _ (match ?x with _ => _ end) => destruct x
    end).

(** ** Labels *)

Lemma frame_logic_flags v s : R s (UPDATE_CFLAG_WITH_SC (NZ v s)).
Proof. eapply frame_trans; [apply frame_NZ|apply frame_SC]. Qed.

Context `{Vfp M}.
Hypothesis respects_cpdo : forall d i f, Respects P R (cpdo d i f).

(** The updates of the state register by register, and the labels by their code. *)
Ltac update :=
  apply respects_modify; intros ?; cbv beta;
  lazymatch goal with
  | |- _ _ (UPDATE_CFLAG_WITH_SC _) => apply frame_logic_flags
  | |- _ _ (set_GE16 _ _ _) => apply frame_GE16
  | |- _ _ (set_GE8 _ _ _ _ _) => apply frame_GE8
  | |- _ _ (set_bit _ _ _) => apply frame_bit; lia
  | |- _ _ (SAVE_NZCVT _) => apply frame_save
  | |- _ _ (LOAD_NZCVT _) => apply frame_mrc
  | |- _ _ (WriteCP15Register _ _ _ _ _ _) => apply frame_mcr
  | |- _ _ (set_NumInstrsToExecute 0 _) => apply frame_stop
  | |- _ _ (load_vfp_flags _) => apply frame_vfp_flags
  | |- _ _ (set_TFlag _ _) => apply frame_TFlag; auto with arm
  | |- _ _ (UnsetExclusiveMemoryAddress _) => apply frame_unreserve
  | |- _ _ (set_Cpsr (u32 _) _) => auto
  end.
Ltac unfold_label :=
  match goal with |- Respects _ _ ?m => let rec head t := lazymatch t with ?f _ => head f | _ => t end in let h := head m in unfold h end.
Ltac labels :=
  repeat (label; lazymatch goal with
    | |- Respects _ _ (VMSR_INST _ _) => apply respects_VMSR
    | |- Respects _ _ (MSR_INST _ _) => apply respects_MSR
    | |- Respects _ _ (CPS_INST _ _ _ _ _ _ _) => apply respects_CPS; assumption
    | |- Respects _ _ (cpdo _ _ _) => apply respects_cpdo
    | |- Respects _ _ (modify _) => update
    | |- Respects _ _ _ => unfold_label
    end).

(** Every label respects every frame, RFE those that allow any status register. *)
Lemma respects_execute a :
  (idx a = i_rfe -> forall v s, R s (set_Cpsr (u32 v) s)) -> idx a ≠ i_swi -> proper a -> Respects P R (execute a).
Proof.
  destruct a as [o c b cm]. unfold proper, execute. cbn [idx comp cond]. intros Ha Hs [Hf Hc].
  destruct o; try exact (False_ind _ (Hs eq_refl)); destruct cm; try discriminate Hf; clear Hf Hs;
    first [specialize (Ha eq_refl) | clear Ha]; cbn [typed] in Hc; try match type of Hc with _ /\ _ => destruct Hc as [? ?] end;
    cbv [on_dp on_mov on_cmp on_ldst on_generic on_op2 on_extend on_extend_add on_long on_smlad on_ssat on_coprocessor]; labels.
Qed.

End Frames.

(** Translations are proper, and as long as their labels say. *)
Lemma trans_idx o w : idx (arm_instruction_trans o w o) = o.
Proof. destruct o; reflexivity. Qed.
Lemma trans_fits o w : fits o (comp (arm_instruction_trans o w o)).
Proof. unfold fits. destruct o; reflexivity. Qed.
Lemma BITS_mode w : 0 <= BITS w 0 4 < 32.
Proof.
  unfold BITS. rewrite Z.shiftr_div_pow2 by lia. pose proof (u32_range (Z.shiftl w (31 - 4))) as [Hl Hh].
  split; [apply Z.div_pos; lia|apply Z.div_lt_upper_bound; lia].
Qed.
Lemma trans_typed o w : typed (comp (arm_instruction_trans o w o)).
Proof.
  destruct o; try exact Logic.I. change (flag (BIT w 18) /\ 0 <= BITS w 0 4 < 32). split; [apply flag_BIT|apply BITS_mode].
Qed.
Lemma trans_proper o w : proper (arm_instruction_trans o w o).
Proof. unfold proper. rewrite trans_idx. split; [apply trans_fits|apply trans_typed]. Qed.
Lemma fits_size o c : fits o c -> sizeof c = increment o.
Proof. unfold fits. destruct c; destruct o; intros [=]; reflexivity. Qed.
End ArmF.
