(* ===== verification/ArmTyping.v ===== *)
(** * The type of the processor

    Sizes of the register files, 32-bit registers and one-bit flags: every label keeps them, so no access to a
    register file of another label is out of range.  A label neither adds to the instructions left nor touches the interrupt line. *)
From S2P Require Import Prelude BitField ArmSupport ArmState ArmOperands ArmDecode ArmTranslate ArmAlu ArmParallel ArmTransfer ArmVfp ArmInterpreter ArmFrame.

Module ArmTy.
Import Arm ArmS ArmOp ArmD ArmI ArmA ArmP ArmM ArmV ArmX ArmF.

(** ** Words *)

Definition word (v : Z) : Prop := 0 <= v < 2 ^ 32.

Lemma word_u32 v : word (u32 v).
Proof. apply u32_range. Qed.
Lemma word_not32 v : word (not32 v).
Proof. apply u32_range. Qed.
Lemma word_bits v : 0 <= v -> (forall i, 32 <= i -> Z.testbit v i = false) -> word v.
Proof.
  intros Hv Hb. assert (E : v = u32 v).
  { apply Z.bits_inj'. intros i Hi. unfold u32. rewrite BitField.wrap_testbit by lia.
    destruct (Z.ltb_spec i 32); [done|]. rewrite Hb by lia. done. }
  rewrite E. apply u32_range.
Qed.
Lemma word_high v i : word v -> 32 <= i -> Z.testbit v i = false.
Proof. intros [Hl Hh] Hi. apply Z.bits_above_log2; [lia|]. destruct (decide (v = 0)) as [->|]; [cbn; lia|]. apply Z.log2_lt_pow2; [lia|]. apply Z.lt_le_trans with (2 ^ 32); [lia|]. apply Z.pow_le_mono_r; lia. Qed.
Lemma word_lor a b : word a -> word b -> word (Z.lor a b).
Proof. intros Ha Hb. apply word_bits; [apply Z.lor_nonneg; unfold word in *; lia|]. intros i Hi. by rewrite Z.lor_spec, !word_high. Qed.
Lemma word_land_l a b : word a -> word (Z.land a b).
Proof. intros Ha. apply word_bits; [apply Z.land_nonneg; unfold word in *; lia|]. intros i Hi. by rewrite Z.land_spec, word_high. Qed.
Lemma word_land_r a b : word b -> word (Z.land a b).
Proof. rewrite Z.land_comm. apply word_land_l. Qed.
Lemma word_if (c : bool) a b : word a -> word b -> word (if c then a else b).
Proof. by destruct c. Qed.
Lemma word_masked old v mask : word mask -> word (masked old v mask).
Proof. intros Hm. apply word_lor; [apply word_land_r, word_not32|by apply word_land_r]. Qed.
Lemma word_flag v : flag v -> word v.
Proof. unfold flag, word. lia. Qed.
Lemma word_small v : 0 <= v < 32 -> word v.
Proof. unfold word. lia. Qed.
#[export] Hint Resolve word_u32 word_not32 word_lor word_if word_masked word_flag : arm.
#[export] Hint Extern 1 (word (Z.land _ (not32 _))) => apply word_land_r, word_not32 : arm.
#[export] Hint Extern 3 (word (Z.land _ _)) => first [apply word_land_r; unfold word; lia | apply word_land_l] : arm.
#[export] Hint Extern 1 (word _) => unfold word; lia : arm.
Lemma flag_top v : word v -> flag (Z.shiftr v 31).
Proof. intros [Hl Hh]. rewrite Z.shiftr_div_pow2 by lia. unfold flag. assert (v / 2 ^ 31 < 2) by (apply Z.div_lt_upper_bound; lia). assert (0 <= v / 2 ^ 31) by (apply Z.div_pos; lia). lia. Qed.
#[export] Hint Resolve flag_top : arm.

(** ** The type *)

Definition file (n : nat) (l : list Z) : Prop := length l = n /\ Forall word l.
Lemma file_insert n i v l : file n l -> word v -> file n (<[i := v]> l).
Proof. intros [Hn Hl] Hv. split; [by rewrite length_insert|by apply Forall_insert]. Qed.
Lemma file_lookup n l i : file n l -> (i < n)%nat -> word (l !!! i).
Proof. intros [Hn Hl] Hi. rewrite list_lookup_total_alt. destruct (l !! i) eqn:E; cbn; [by eapply Forall_lookup|]. apply lookup_ge_None in E. lia. Qed.
Lemma file_put n i v l : file n l -> word v -> file n (put i v l).
Proof. apply file_insert. Qed.
#[export] Hint Resolve file_insert file_put : arm.

Section Types.
Context {M : Type} `{Bus M}.
Implicit Types s : cpu M.

Record wf s : Prop := {
  wf_Reg : file 16 (Reg s); wf_usr : file 2 (Reg_usr s); wf_svc : file 2 (Reg_svc s); wf_abort : file 2 (Reg_abort s);
  wf_undef : file 2 (Reg_undef s); wf_irq : file 2 (Reg_irq s); wf_firq : file 7 (Reg_firq s); wf_Spsr : file 7 (Spsr s);
  wf_CP15 r : word (CP15 s r); wf_VFP : file 7 (VFP s); wf_ExtReg : file 64 (ExtReg s); wf_Cpsr : word (Cpsr s);
  wf_Spsr_copy : word (Spsr_copy s); wf_Mode : 0 <= Mode s < 32; wf_NFlag : flag (NFlag s); wf_ZFlag : flag (ZFlag s);
  wf_CFlag : flag (CFlag s); wf_VFlag : flag (VFlag s); wf_carry : flag (shifter_carry_out s); wf_TFlag : flag (TFlag s);
}.

(** An update of a field keeps the type of the others. *)
Ltac retype := intros; match goal with W : wf _ |- _ => destruct W end; constructor; cbn -[Z.land Z.lor Z.shiftl Z.shiftr Z.pow u32]; auto 12 with arm.

Lemma wf_reg s i : wf s -> word (reg s i).
Proof. intros [[_ Hr]]. unfold reg. destruct (Reg s !! Z.to_nat i) eqn:E; cbn; [by eapply Forall_lookup|by unfold word]. Qed.
Lemma wf_sp_lr s : wf s -> file 2 (sp_lr s).
Proof. intros W. split; [done|]. unfold sp_lr. apply Forall_cons. split; [by apply wf_reg|]. apply Forall_cons. split; [by apply wf_reg|done]. Qed.
Lemma wf_save_bank s : wf s -> wf (save_bank s).
Proof.
  intros W. pose proof (wf_sp_lr s W) as Hsl. unfold save_bank. destruct W.
  repeat match goal with |- context [if ?b then _ else _] => destruct b end; constructor; cbn; auto with arm; try (apply file_insert; done).
  split; [rewrite length_take, length_drop; destruct wf_Reg0 as [-> _]; done|]. apply Forall_take, Forall_drop, wf_Reg0.
Qed.
Lemma wf_load_sp_lr l s : wf s -> file 2 l -> wf (load_sp_lr l s).
Proof.
  intros W Hl. pose proof (file_lookup 2 l 0 Hl ltac:(lia)). pose proof (file_lookup 2 l 1 Hl ltac:(lia)).
  destruct W. constructor; cbn; auto with arm.
Qed.
Lemma wf_load_firq s : wf s -> wf (load_firq s).
Proof.
  intros W. destruct W. constructor; cbn; auto with arm. destruct wf_Reg0 as [Hn Hr], wf_firq0 as [Hn' Hf].
  split; [rewrite !length_app, length_take, length_drop, Hn, Hn'; done|]. repeat apply Forall_app_2; auto using Forall_take, Forall_drop.
Qed.
Lemma wf_load_spsr b s : wf s -> 0 <= b < 7 -> wf (load_spsr b s).
Proof. intros W Hb. pose proof (file_lookup 7 (Spsr s) (Z.to_nat b) (wf_Spsr _ W) ltac:(lia)). destruct W. constructor; cbn; auto with arm. Qed.
Lemma wf_set_Bank b s : wf s -> wf (set_Bank b s).
Proof. retype. Qed.
Lemma wf_load_bank m s : wf s -> wf (load_bank m s).
Proof.
  intros W. unfold load_bank.
  repeat match goal with |- context [if ?b then _ else _] => destruct b end; try done; apply wf_set_Bank;
    try (apply wf_load_spsr; [|done]); try apply wf_load_firq; try apply wf_load_sp_lr; try done; apply W.
Qed.
Lemma wf_set_Cpsr v s : wf s -> word v -> wf (set_Cpsr v s).
Proof. retype. Qed.
Lemma wf_ChangePrivilegeMode m s : wf s -> 0 <= m < 32 -> wf (ChangePrivilegeMode m s).
Proof.
  intros W Hm. unfold ChangePrivilegeMode. destruct (_ =? m); [done|]. destruct (m =? _); [done|].
  pose proof (wf_load_bank m _ (wf_save_bank s W)) as W'. cbv zeta. generalize dependent (load_bank m (save_bank s)). clear W.
  intros s'. pose proof (word_small m Hm). retype.
Qed.
Lemma wf_SAVE s : wf s -> wf (SAVE_NZCVT s).
Proof. retype. Qed.
Lemma wf_LOAD s : wf s -> wf (LOAD_NZCVT s).
Proof. retype. Qed.


Lemma mode_bits v : 0 <= v -> 0 <= Z.land v 0x1F < 32.
Proof. intros Hv. change 0x1F with (Z.ones 5). rewrite Z.land_ones by lia. apply Z.mod_pos_bound. done. Qed.
Lemma word_shifted_flag v n : flag v -> 0 <= n < 32 -> word (Z.shiftl v n).
Proof.
  intros [->| ->] Hn; [rewrite Z.shiftl_0_l; unfold word; lia|]. rewrite Z.shiftl_1_l. unfold word.
  split; [lia|]. apply Z.pow_lt_mono_r; lia.
Qed.
Lemma wf_set_bit n b s : wf s -> 0 <= n < 32 -> wf (set_bit n b s).
Proof.
  intros W Hn. apply wf_set_Cpsr; [done|]. pose proof (word_shifted_flag 1 n ltac:(by right) Hn).
  destruct b; [apply word_lor; [apply W|done]|auto with arm].
Qed.
Lemma wf_restore s : wf s -> wf (restore_status s).
Proof.
  intros W. unfold restore_status. destruct (CurrentModeHasSPSR s); [|done]. cbv zeta.
  pose proof (wf_Spsr_copy s W) as Hc. apply wf_LOAD, wf_ChangePrivilegeMode; [by apply wf_set_Cpsr|]. apply mode_bits, Hc.
Qed.
Lemma wf_msr operand inst s : wf s -> wf (msr_cpsr operand inst s).
Proof.
  intros W. unfold msr_cpsr. cbv zeta. assert (W1 := wf_SAVE s W). revert W1. generalize (SAVE_NZCVT s). intros s1 W1.
  set (v := masked _ _ _). assert (Hv : word v). { apply word_masked. unfold msr_mask. repeat apply word_if; first [by apply word_land_r|done]. }
  apply wf_LOAD, wf_ChangePrivilegeMode; [by apply wf_set_Cpsr|]. apply mode_bits. apply Hv.
Qed.
Lemma wf_cps imod0 imod1 mmod A1 I1 F1 mode s : flag imod0 -> 0 <= mode < 32 -> wf s -> wf (cps_status imod0 imod1 mmod A1 I1 F1 mode s).
Proof.
  intros Hi Hm W. unfold cps_status. cbv beta zeta. set (s1 := if negb (imod1 =? 0) then _ else _).
  assert (W1 : wf s1).
  { subst s1. destruct (negb (imod1 =? 0)); [|done]. apply wf_set_Cpsr; [done|]. apply word_lor; [auto with arm|].
    repeat apply word_lor; (apply word_if; [apply word_shifted_flag; [done|lia]|unfold word; lia]). }
  destruct (negb (mmod =? 0)); [|done]. apply wf_ChangePrivilegeMode; [|done]. apply wf_set_Cpsr; [done|].
  pose proof (word_small mode Hm). auto with arm.
Qed.
Lemma wf_put_cp15 r v s : wf s -> wf (put_cp15 r v s).
Proof. retype. intros r'. case_decide; auto with arm. Qed.
Lemma wf_write_cp15 rows v crn opcode_1 crm opcode_2 s : wf s -> wf (write_selected rows v crn opcode_1 crm opcode_2 s).
Proof. intros W. unfold write_selected. case_match; [by apply wf_put_cp15|done]. Qed.

(** ** The frame *)

Definition keeps_type s s' : Prop := wf s -> wf s'.

#[export] Instance type_frame : Frame keeps_type.
Proof.
  constructor; unfold keeps_type.
  all: try solve [auto using wf_set_bit, wf_restore, wf_msr, wf_cps | retype].
  - intros v s [-> | ?]; retype.
  - intros v s [-> | ?]; retype.
  - intros. apply wf_set_bit; [done|lia].
  - intros s s' Hs W. apply wf_ChangePrivilegeMode; [|apply W]. by apply Hs, wf_ChangePrivilegeMode.
  - intros. unfold msr_spsr. destruct (CurrentModeHasSPSR s); [|done]. retype. by apply word_masked, word_land_r.
  - intros. unfold WriteCP15Register. apply wf_write_cp15. destruct (InAPrivilegedMode s); [by apply wf_write_cp15|done].
Qed.

End Types.
End ArmTy.
