(* ===== verification/ArmIsolation.v ===== *)
(** * What user mode cannot change

    In user mode a label changes neither the mode nor the interrupt masks, the registers and status registers of the other
    modes, the system registers that need a privilege and the control registers of the floating-point unit. *)
From S2P Require Import Prelude BitField ArmSupport ArmState ArmOperands ArmDecode ArmTranslate ArmAlu ArmParallel ArmTransfer ArmVfp ArmInterpreter ArmFrame.

Module ArmU.
Import Arm ArmS ArmOp ArmD ArmI ArmA ArmP ArmM ArmV ArmX ArmF.

Section Isolation.
Context {M : Type} `{Bus M}.
Implicit Types s : cpu M.

(** In user mode, with the status register in step and a Thumb flag of one bit. *)
Definition user s : Prop := Mode s = USER32MODE /\ Z.land (Cpsr s) 0x1F = USER32MODE /\ flag (TFlag s).

(** The registers of coprocessor 15 that user mode may write. *)
Definition user_writable (r : CP15Register) : Prop :=
  r ∈ [CP15_FLUSH_PREFETCH_BUFFER; CP15_DATA_SYNC_BARRIER; CP15_DATA_MEMORY_BARRIER; CP15_THREAD_UPRW].

(** What the second state has in common with the first. *)
Record same_privileged s s' : Prop := {
  same_masks : Z.land (Cpsr s') PrivMask = Z.land (Cpsr s) PrivMask;
  same_usr : Reg_usr s' = Reg_usr s; same_svc : Reg_svc s' = Reg_svc s; same_abort : Reg_abort s' = Reg_abort s;
  same_undef : Reg_undef s' = Reg_undef s; same_irq : Reg_irq s' = Reg_irq s; same_firq : Reg_firq s' = Reg_firq s;
  same_Spsr : Spsr s' = Spsr s; same_Spsr_copy : Spsr_copy s' = Spsr_copy s; same_Bank : Bank s' = Bank s;
  same_CP15 r : ~ user_writable r -> CP15 s' r = CP15 s r;
  same_VFP i : i ≠ VFP_FPSCR -> VFP s' !! i = VFP s !! i; same_Nirq : NirqSig s' = NirqSig s }.

Definition isolates s s' : Prop := user s -> user s' /\ same_privileged s s'.

Lemma same_refl s : same_privileged s s.
Proof. by constructor. Qed.
Lemma same_trans s1 s2 s3 : same_privileged s1 s2 -> same_privileged s2 s3 -> same_privileged s1 s3.
Proof.
  intros [? ? ? ? ? ? ? ? ? ? C1 V1 ?] [? ? ? ? ? ? ? ? ? ? C2 V2 ?].
  constructor; try congruence; [intros r Hr; by rewrite C2, C1|intros i Hi; by rewrite V2, V1].
Qed.

(** An update of a field that is not privileged. *)
Ltac plain := intros (? & ? & ?); split; [by split_and!|by constructor].

(** The status register may change above its mode and masks. *)
Lemma land_agree m v v' : 0 <= m -> (forall i, 0 <= i -> Z.testbit m i = true -> Z.testbit v' i = Z.testbit v i) -> Z.land v' m = Z.land v m.
Proof. intros Hm Hb. apply Z.bits_inj'. intros i Hi. rewrite !Z.land_spec. destruct (Z.testbit m i) eqn:E; [|by rewrite !andb_false_r]. by rewrite Hb. Qed.
Lemma mode_in_mask v v' : Z.land v' PrivMask = Z.land v PrivMask -> Z.land v' 0x1F = Z.land v 0x1F.
Proof.
  intros E. change 0x1F with (Z.land PrivMask 0x1F). by rewrite !Z.land_assoc, E.
Qed.
Lemma isolates_Cpsr v s : Z.land v PrivMask = Z.land (Cpsr s) PrivMask -> isolates s (set_Cpsr v s).
Proof.
  intros E (Hm & Hc & Ht). split; [split_and!; [done|by rewrite <- Hc; apply mode_in_mask|done]|by constructor].
Qed.
Lemma user_unprivileged s : user s -> InAPrivilegedMode s = false.
Proof. intros (Hm & _). unfold InAPrivilegedMode. by rewrite Hm. Qed.
Lemma user_no_spsr s : user s -> CurrentModeHasSPSR s = false.
Proof. intros Hu. unfold CurrentModeHasSPSR. by rewrite user_unprivileged, andb_false_r. Qed.
Lemma user_stays s : user s -> ChangePrivilegeMode USER32MODE s = s.
Proof. intros (Hm & _). unfold ChangePrivilegeMode. by rewrite Hm. Qed.

(** A bit of the masks or the mode. *)
Lemma priv_bit i : 0 <= i -> Z.testbit PrivMask i = true -> i ∈ [0; 1; 2; 3; 4; 6; 7; 8].
Proof.
  intros Hi Hb. assert (i <= 8). { apply Z.nlt_ge. intros Hgt. rewrite Z.bits_above_log2 in Hb; [done|done|]. by change (Z.log2 PrivMask) with 8. }
  assert (Hall : forallb (fun i => implb (Z.testbit PrivMask i) (bool_decide (i ∈ [0; 1; 2; 3; 4; 6; 7; 8]))) (seqZ 0 9) = true) by reflexivity.
  rewrite forallb_forall in Hall. specialize (Hall i). rewrite <- list_elem_of_In, elem_of_seqZ, Hb in Hall.
  apply (bool_decide_eq_true_1 (i ∈ _)), Hall. lia.
Qed.
Lemma save_masks s : flag (TFlag s) -> Z.land (Cpsr (SAVE_NZCVT s)) PrivMask = Z.land (Cpsr s) PrivMask.
Proof.
  intros Ht. apply land_agree; [done|]. intros i Hi Hb. cbn -[Z.lor Z.land Z.shiftl u32 Z.testbit].
  rewrite !Z.lor_spec, Z.land_spec. unfold u32. rewrite !BitField.wrap_testbit, !Z.shiftl_spec by lia.
  assert (Hlow : i < 9 /\ i ≠ 5 /\ Z.testbit 0x0fffffdf i = true).
  { apply priv_bit in Hb; [|done]. by repeat (apply elem_of_cons in Hb as [-> | Hb]; [done|]); apply elem_of_nil in Hb. }
  destruct Hlow as (Hl & H5 & ->). rewrite !(Z.testbit_neg_r _ (i - _)) by lia. rewrite andb_true_r, !andb_false_r, !orb_false_r.
  destruct Ht as [-> | ->]; [by rewrite Z.bits_0, andb_false_r, orb_false_r|].
  change 1 with (2 ^ 0). rewrite Z.pow2_bits_eqb by lia. destruct (Z.eqb_spec 0 (i - 5)); [lia|]. by rewrite andb_false_r, orb_false_r.
Qed.
Lemma masked_masks old v b : 0 <= b -> Z.land (masked old v (Z.land b UserMask)) PrivMask = Z.land old PrivMask.
Proof.
  intros Hb0. apply land_agree; [done|]. intros i Hi Hb. unfold masked. rewrite Z.lor_spec, !Z.land_spec. unfold not32, u32.
  rewrite BitField.wrap_testbit, Z.lnot_spec, Z.land_spec by lia.
  assert (Hlow : i < 32 /\ Z.testbit UserMask i = false).
  { apply priv_bit in Hb; [|done]. by repeat (apply elem_of_cons in Hb as [-> | Hb]; [done|]); apply elem_of_nil in Hb. }
  destruct Hlow as (Hl & ->). rewrite !andb_false_r. cbn. rewrite orb_false_r. destruct (Z.ltb_spec i 32); [|lia]. by rewrite andb_true_r.
Qed.

Lemma same_Cpsr v s s' : same_privileged s s' -> Z.land v PrivMask = Z.land (Cpsr s) PrivMask -> same_privileged s (set_Cpsr v s').
Proof. intros [] E. by constructor. Qed.
Lemma user_LOAD s : user s -> user (LOAD_NZCVT s).
Proof. intros (Hm & Hc & _). split_and!; [done..|]. apply flag_land. Qed.
Lemma isolates_LOAD s : isolates s (LOAD_NZCVT s).
Proof. intros U. split; [by apply user_LOAD|by constructor]. Qed.
Lemma isolates_trans s1 s2 s3 : isolates s1 s2 -> isolates s2 s3 -> isolates s1 s3.
Proof. intros I1 I2 U. destruct (I1 U) as [U2 S1]. destruct (I2 U2) as [U3 S2]. split; [done|by eapply same_trans]. Qed.
Lemma isolates_SAVE s : isolates s (SAVE_NZCVT s).
Proof. intros U. apply isolates_Cpsr; [|done]. apply save_masks, U. Qed.
Lemma isolates_msr operand inst s : isolates s (msr_cpsr operand inst s).
Proof.
  intros U. unfold msr_cpsr. cbv zeta. rewrite (user_unprivileged s U). unfold msr_mask.
  destruct (isolates_SAVE s U) as [U1 S1]. revert U1 S1. generalize (SAVE_NZCVT s). intros s1 U1 S1.
  assert (I2 : isolates s1 (set_Cpsr (masked (Cpsr s1) operand (Z.land (msr_byte_mask inst) UserMask)) s1)).
  { apply isolates_Cpsr, masked_masks. unfold msr_byte_mask. repeat (apply Z.lor_nonneg; split); by case_match. }
  destruct (I2 U1) as [U2 S2]. revert U2 S2. generalize (set_Cpsr (masked (Cpsr s1) operand (Z.land (msr_byte_mask inst) UserMask)) s1).
  intros s2 U2 S2. destruct U2 as (Hm & Hc & Ht). rewrite Hc, user_stays by done.
  destruct (isolates_LOAD s2) as [U3 S3]; [done|]. split; [done|]. eapply same_trans; [exact S1|]. by eapply same_trans.
Qed.
Lemma isolates_put_cp15 r v s : user_writable r -> isolates s (put_cp15 r v s).
Proof.
  intros Hr (Hm & Hc & Ht). split; [by split_and!|]. constructor; try done.
  intros r' Hr'. cbn. case_decide as Heq; [by subst|done].
Qed.
Lemma select_in rows crn opcode_1 crm opcode_2 r : select rows crn opcode_1 crm opcode_2 = Some r -> r ∈ map r_register rows.
Proof.
  induction rows as [|x rows IH]; cbn; [done|]. destruct (row_matches _ _ _ _ x); [intros [= <-]; by left|right; by apply IH].
Qed.
Lemma isolates_cp15 v crn opcode_1 crm opcode_2 s : isolates s (WriteCP15Register v crn opcode_1 crm opcode_2 s).
Proof.
  intros U. unfold WriteCP15Register. rewrite user_unprivileged by done. unfold write_selected.
  destruct (select write_all _ _ _ _) eqn:E; [|by split; [|apply same_refl]].
  apply isolates_put_cp15; [|done]. by apply select_in in E.
Qed.
Lemma isolates_set_bit n b s : 9 <= n <= 31 -> isolates s (set_bit n b s).
Proof.
  intros Hn. apply isolates_Cpsr, land_agree; [done|]. intros i Hi Hb.
  assert (Hlow : i < 9).
  { apply priv_bit in Hb; [|done]. by repeat (apply elem_of_cons in Hb as [-> | Hb]; [done|]); apply elem_of_nil in Hb. }
  destruct b; rewrite ?Z.lor_spec, ?Z.land_spec.
  - rewrite Z.shiftl_spec, (Z.testbit_neg_r 1), orb_false_r by lia. done.
  - unfold not32, u32. rewrite BitField.wrap_testbit, Z.lnot_spec, Z.shiftl_spec by lia.
    rewrite (Z.testbit_neg_r 1) by lia. destruct (Z.ltb_spec i 32); [|lia]. by rewrite andb_true_r.
Qed.

#[export] Instance isolation_frame : Frame isolates.
Proof.
  constructor; intros.
  - intros U. by split; [|apply same_refl].
  - by eapply isolates_trans.
  - plain.
  - plain.
  - plain.
  - plain.
  - plain.
  - plain.
  - intros (? & ? & ?). split; [by split_and!|by constructor].
  - by apply isolates_set_bit.
  - intros U. unfold restore_status. rewrite user_no_spsr by done. by split; [|apply same_refl].
  - plain.
  - plain.
  - plain.
  - by intros (? & ?).
  - intros U. rewrite user_stays in H0 by done. destruct (H0 U) as [U1 S1]. destruct U as [-> _]. by rewrite user_stays.
  - intros U. by rewrite user_unprivileged in *.
  - by apply isolates_SAVE.
  - by apply isolates_msr.
  - intros U. by rewrite user_no_spsr in *.
  - eapply isolates_trans; [|apply isolates_LOAD]. apply isolates_Cpsr.
    change 0xF0000000 with (Z.land 0xF0000000 UserMask). by apply masked_masks.
  - apply isolates_cp15.
  - plain.
  - plain.
  - intros U. destruct H0 as [-> | Hp]; [|by rewrite user_unprivileged in Hp]. destruct U as (? & ? & ?).
    split; [by split_and!|]. constructor; try done. intros i Hi. cbn. by rewrite list_lookup_insert_ne.
Qed.

(** ** A status register out of step *)

Lemma arm_bind_done {A B} (o : ArmS.arm A) (k : A -> ArmS.arm B) s b s2 : (o ≫= k) s = Done (b, s2) -> exists a s1, o s = Done (a, s1) /\ k a s1 = Done (b, s2).
Proof. intros E. apply outcome_bind_done in E as ([a s1] & E1 & E2). by exists a, s1. Qed.
Lemma read_done n a s v s' : ReadMemory n a s = Done (v, s') ->
  exists w m, bus_read n a (memory s) = Done (w, m) /\ v = (if InBigEndianMode s then swap n w else w) /\ s' = set_memory m s.
Proof. intros E. apply outcome_bind_done in E as ([w m] & E1 & E2). injection E2 as <- <-. by exists w, m. Qed.
Lemma get_reg_keeps i s v s' : get_reg i s = Done (v, s') -> s' = s.
Proof. intros E. by apply outcome_bind_done in E as (? & _ & [= _ <-]). Qed.
Lemma set_reg_keeps i v s x s' : set_reg i v s = Done (x, s') -> Cpsr s' = Cpsr s /\ Mode s' = Mode s /\ TFlag s' = TFlag s.
Proof. intros E. by apply outcome_bind_done in E as (? & _ & [= _ <-]). Qed.
Lemma mode_entered m s : m ≠ USERBANK -> Mode (LOAD_NZCVT (ChangePrivilegeMode m s)) = m.
Proof. intros Hm. unfold ChangePrivilegeMode. destruct (Z.eqb_spec (Mode s) m); [done|]. by rewrite (proj2 (Z.eqb_neq m USERBANK)). Qed.
(** In user mode MSR takes the mode of the status register for the mode to enter, without a look at its privilege. *)
Lemma msr_enters operand inst s : Mode s = USER32MODE -> flag (TFlag s) -> Z.land (Cpsr s) 0x1F ≠ USERBANK ->
  Mode (msr_cpsr operand inst s) = Z.land (Cpsr s) 0x1F.
Proof.
  intros Hm Ht Hn. unfold msr_cpsr. cbv zeta. assert (InAPrivilegedMode s = false) as -> by (unfold InAPrivilegedMode; by rewrite Hm).
  assert (E : Z.land (masked (Cpsr (SAVE_NZCVT s)) operand (Z.land (msr_byte_mask inst) UserMask)) 0x1F = Z.land (Cpsr s) 0x1F).
  { apply mode_in_mask. rewrite masked_masks; [by apply save_masks|]. unfold msr_byte_mask. repeat (apply Z.lor_nonneg; split); by case_match. }
  unfold msr_mask. revert E. generalize (SAVE_NZCVT s). intros s1 E. cbn [Cpsr set_Cpsr]. rewrite E. by apply mode_entered.
Qed.
End Isolation.
End ArmU.
