(* ===== verification/ArmRun.v ===== *)
(** * Runs of the interpreter

    The interpreter executes translated instructions only, and what every label respects, a whole run respects.  The
    buffer holds blocks: translations one behind the other up to one that ends its block; a block of the cache lies below the
    top of the buffer. *)
From stdpp Require Import gmap.
From S2P Require Import Prelude ArmSupport ArmState ArmOperands ArmDecode ArmThumb ArmTranslate ArmAlu ArmVfp ArmInterpreter ArmFrame.

Module ArmRun.
Import Arm ArmS ArmOp ArmD ArmT ArmI ArmA ArmV ArmX ArmF.

(** ** Blocks *)

Definition size (a : arm_inst) : Z := sizeof_arm_inst + sizeof (comp a).
Lemma size_pos a : 0 < size a.
Proof. unfold size, sizeof_arm_inst. destruct (comp a); cbn; lia. Qed.

(** The block at [p], below [top]; its instructions satisfy [ok]. *)
Inductive block (ok : arm_inst -> Prop) (buf : gmap Z arm_inst) (top : Z) : Z -> Prop :=
| block_end p a : buf !! p = Some a -> ok a -> br a ≠ NON_BRANCH -> p + size a <= top -> block ok buf top p
| block_next p a : buf !! p = Some a -> ok a -> br a = NON_BRANCH -> p + size a <= top -> block ok buf top (p + size a) -> block ok buf top p.

Lemma block_first ok buf top p : block ok buf top p -> exists a, buf !! p = Some a /\ ok a /\ (br a = NON_BRANCH -> block ok buf top (p + size a)).
Proof. intros [? a|? a]; exists a; done. Qed.
Lemma block_mono ok buf buf' top top' p :
  top <= top' -> (forall q a, q + size a <= top -> buf !! q = Some a -> buf' !! q = Some a) -> block ok buf top p -> block ok buf' top' p.
Proof.
  intros Ht Hb. induction 1 as [p a E Ho He Hp|p a E Ho He Hp B IH].
  - apply block_end with a; [by apply Hb|done..|lia].
  - apply block_next with a; [by apply Hb|done..|lia|done].
Qed.

Lemma translate_arm_proper n w r : translate_arm n w = Done r -> r.1 = n /\ proper r.2.
Proof. unfold translate_arm. destruct (DecodeARMInstruction w); [|done]. intros [= <-]. split; [done|apply trans_proper]. Qed.
Lemma thumb_proper w addr t z a : DecodeThumbInstruction w addr = (t, z, Some a) -> proper a.
Proof.
  unfold DecodeThumbInstruction. destruct (TranslateThumbInstruction addr w) as [[] ainstr]; try discriminate.
  destruct (field_r _ 0xF800 11) as [|q|q]; try discriminate.
  assert (T : forall o tinstr, (BRANCH, ainstr, thumb_trans tinstr o) = (t, z, Some a) -> proper a) by (intros o tinstr [= _ _ <-]; apply trans_proper).
  repeat (destruct q as [q|q|]; try discriminate; try apply T); destruct (_ && _); [apply T|discriminate|apply T|discriminate].
Qed.
Lemma translate_word_proper t addr w n a : translate_word t addr w = Done (n, a) -> n = (if t then 2 else 4) /\ proper a.
Proof.
  unfold translate_word. destruct t; [|by intros [E1 E2]%translate_arm_proper].
  destruct (DecodeThumbInstruction w addr) as [[[] ainstr] o] eqn:E; try (by intros [E1 E2]%translate_arm_proper).
  destruct o as [a'|]; [|done]. intros [= <- <-]. split; [done|]. by eapply thumb_proper.
Qed.

(** ** Runs *)

Section Runs.
Context {M : Type} `{Bus M} `{Vfp M} `{Svc M}.
Implicit Types s : cpu M.
Implicit Types k : core M.

(** A frame of the whole loop. *)
Class RunFrame (R : cpu M -> cpu M -> Prop) : Prop := {
  #[global] run_frame :: Frame R;
  run_left n s : 0 <= n <= NumInstrsToExecute s -> R s (set_NumInstrsToExecute n s);
  run_load s : R s (LOAD_NZCVT s);
  run_thumb s : R s (GDB_BP_CHECK s);
  run_align s : R s (align_pc s);
}.

Context (P : fault -> Prop) `{!Faults P} (R : cpu M -> cpu M -> Prop) `{!RunFrame R}.
Hypothesis cpdo_respects : forall d i f, Respects P R (cpdo d i f).

(** RFE is translated only when the frame allows any status register, and what is not decoded is an allowed fault. *)
Definition returns (a : arm_inst) : Prop := idx a = i_rfe -> forall v s, R s (set_Cpsr (u32 v) s).
Hypothesis fetched : forall t addr a m w m', bus_read 4 a m = Done (w, m') ->
  match translate_word t addr w with Done (_, a) => returns a | Stop f => P f end.

(** A system call respects the frame; it keeps the buffer and it keeps or clears the cache. *)
Definition same_cache k k' : Prop :=
  trans_cache_buf k' = trans_cache_buf k /\
  (instruction_cache k' = instruction_cache k /\ trans_cache_buf_top k' = trans_cache_buf_top k \/ instruction_cache k' = ∅).
Hypothesis svc_respects : forall n k, match CallSVC n k with Done k' => R (state k) (state k') /\ same_cache k k' | Stop f => P f end.

Definition ok (a : arm_inst) : Prop := proper a /\ returns a.
Definition blocked k : Prop := forall pc p, instruction_cache k !! pc = Some p -> block ok (trans_cache_buf k) (trans_cache_buf_top k) p.
(** The instruction to execute is the first of a block. *)
Definition at_block k (ptr : Z) (a : arm_inst) : Prop := trans_cache_buf k !! ptr = Some a /\ exists top, block ok (trans_cache_buf k) top ptr.

Lemma at_block_ok k ptr a : at_block k ptr a -> ok a.
Proof. intros [E [top B]]. apply block_first in B as (a' & E' & Ho & _). congruence. Qed.

Definition yields {A} (o : outcome A) (Q : A -> Prop) : Prop := match o with Done a => Q a | Stop f => P f end.
Lemma yields_bind {A B} (o : outcome A) (h : A -> outcome B) Q Q' : yields o Q -> (forall a, Q a -> yields (h a) Q') -> yields (o ≫= h) Q'.
Proof. destruct o; cbn; eauto. Qed.
Lemma yields_weaken {A} (o : outcome A) (Q Q' : A -> Prop) : yields o Q -> (forall a, Q a -> Q' a) -> yields o Q'.
Proof. destruct o; cbn; eauto. Qed.

(** ** Translation *)

Definition unit_size s : Z := if TFlag s =? 0 then 4 else 2.
(** Another memory. *)
Definition other_memory s s' : Prop := exists m, s' = set_memory m s.
Lemma translate_yields addr s :
  yields (InterpreterTranslateInstruction addr s) (fun '((n, a), s') => n = unit_size s /\ ok a /\ other_memory s s').
Proof.
  unfold InterpreterTranslateInstruction. unfold mbind, arm_bind at 1. unfold fetch_word.
  destruct (bus_read 4 _ (memory s)) as [[w m]|f] eqn:E; [|by apply read_fault in E].
  pose proof (fetched (negb (TFlag s =? 0)) addr _ _ _ _ E) as Hw. cbn.
  destruct (translate_word _ addr w) as [[n a]|f] eqn:Ew; [|done].
  apply translate_word_proper in Ew as [Hn Hp]. cbn. split_and!; [|done|by eexists].
  rewrite Hn. unfold unit_size. by destruct (TFlag s =? 0).
Qed.

Lemma alloc_yields a k :
  yields (AllocBuffer a k) (fun k' => state k' = state k /\ instruction_cache k' = instruction_cache k /\
    trans_cache_buf k' = <[trans_cache_buf_top k := a]> (trans_cache_buf k) /\ trans_cache_buf_top k' = trans_cache_buf_top k + size a /\ ticks k' = ticks k).
Proof.
  unfold AllocBuffer. cbv zeta. destruct (_ <=? TRANS_CACHE_SIZE); [done|].
  cut (P FAssert); [done|]. by apply ordinary.
Qed.

(** What a translation leaves. *)
Record extends k k' : Prop := {
  ext_state : other_memory (state k) (state k'); ext_cache : instruction_cache k' = instruction_cache k;
  ext_ticks : ticks k' = ticks k;
  ext_top : trans_cache_buf_top k <= trans_cache_buf_top k';
  ext_buf q a : q + size a <= trans_cache_buf_top k -> trans_cache_buf k !! q = Some a -> trans_cache_buf k' !! q = Some a }.
Lemma extends_alloc k k' a s :
  other_memory (state k) s -> state k' = s -> instruction_cache k' = instruction_cache k ->
  trans_cache_buf k' = <[trans_cache_buf_top k := a]> (trans_cache_buf k) -> trans_cache_buf_top k' = trans_cache_buf_top k + size a ->
  ticks k' = ticks k -> extends k k'.
Proof.
  intros Hm <- Hc Hb Ht Hticks. pose proof (size_pos a). constructor; [done|done|done|lia|].
  intros q b Hq E. rewrite Hb, lookup_insert_ne; [done|]. pose proof (size_pos b). lia.
Qed.
Lemma extends_trans k1 k2 k3 : extends k1 k2 -> extends k2 k3 -> extends k1 k3.
Proof.
  intros [[m1 E1] C1 K1 T1 B1] [[m2 E2] C2 K2 T2 B2]. constructor; [|congruence|congruence|lia|].
  - exists m2. by rewrite E2, E1.
  - intros q a Hq E. apply B2; [lia|]. by apply B1.
Qed.
Lemma extends_block k k' p : extends k k' -> block ok (trans_cache_buf k) (trans_cache_buf_top k) p -> block ok (trans_cache_buf k') (trans_cache_buf_top k') p.
Proof. intros E. apply block_mono; [apply E|]. intros q a. apply E. Qed.

(** A block ends at the latest with its page. *)
Definition room (addr : Z) : Z := 4096 - addr `mod` 4096.
Lemma land_page addr : 0 <= addr -> Z.land addr 0xfff = addr `mod` 4096.
Proof. intros Ha. change 0xfff with (Z.ones 12). by rewrite Z.land_ones. Qed.
Lemma next_room addr n : (n = 2 \/ n = 4) -> 0 <= addr -> addr `mod` n = 0 ->
  let addr' := u32 (addr + n) in
  0 <= addr' /\ addr' `mod` n = 0 /\ (Z.land addr' 0xfff = 0 \/ room addr' = room addr - n).
Proof.
  intros Hn Ha Hm addr'. assert (Ha' : 0 <= addr') by apply u32_range. split; [done|]. rewrite land_page by done. unfold room, addr', u32, wrap.
  destruct Hn as [-> | ->]; split; Z.div_mod_to_equations; lia.
Qed.

Lemma translate_block_yields fuel : forall addr k,
  0 <= addr -> addr `mod` unit_size (state k) = 0 -> (P FFuel \/ room addr <= 2 * Z.of_nat fuel) ->
  yields (translate_block fuel addr k) (fun k' => extends k k' /\ block ok (trans_cache_buf k') (trans_cache_buf_top k') (trans_cache_buf_top k)).
Proof.
  induction fuel as [|fuel IH]; intros addr k Ha Hm Hf; cbn [translate_block].
  - destruct Hf as [Hf|Hf]; [done|]. unfold room in Hf. pose proof (Z.mod_pos_bound addr 4096 ltac:(lia)). lia.
  - eapply yields_bind; [apply translate_yields|]. intros [[n a] s] (-> & Ho & Hs). cbv zeta.
    pose proof (next_room addr (unit_size (state k))) as Hr. destruct Hr as (Ha' & Hm' & Hr); [unfold unit_size; destruct (_ =? 0); auto|done|done|].
    set (addr' := u32 (addr + unit_size (state k))) in *. clearbody addr'.
    set (a' := if Z.land addr' 0xfff =? 0 then set_br END_OF_PAGE a else a).
    assert (Ho' : ok a') by (subst a'; by destruct (_ =? 0)).
    eapply yields_bind; [apply alloc_yields|]. intros k1 (E1 & E2 & E3 & E4 & E5). cbn in E1, E2, E3, E4, E5.
    assert (X : extends k k1) by (by eapply extends_alloc).
    assert (Hat : trans_cache_buf k1 !! trans_cache_buf_top k = Some a') by (by rewrite E3, lookup_insert_eq).
    destruct (decide (br a' = NON_BRANCH)) as [Hb|Hb].
    + eapply yields_weaken; [apply IH; [done| |]|].
      * destruct Hs as [m ->]. by rewrite E1.
      * destruct Hf as [Hf|Hf]; [by left|right]. destruct Hr as [Hr|Hr]; [|unfold unit_size in Hr; destruct (TFlag _ =? 0); lia].
        exfalso. subst a'. by rewrite Hr in Hb.
      * intros k2 [X2 B2]. split; [by eapply extends_trans|].
        apply block_next with a'; [by apply (ext_buf k1 k2); [done|lia|]|done|done| |by rewrite <- E4].
        rewrite <- E4. apply X2.
    + split; [done|]. apply block_end with a'; [done..|]. lia.
Qed.

(** ** Dispatching *)

Lemma other_memory_R s s' : other_memory s s' -> R s s'.
Proof. intros [m ->]. apply frame_memory. Qed.
Lemma remember_blocked pc p k k' :
  blocked k -> extends k k' -> block ok (trans_cache_buf k') (trans_cache_buf_top k') p -> blocked (remember pc p k').
Proof.
  intros Hk X B pc' p'. cbn. destruct (decide (pc' = pc)) as [->|Hne].
  - rewrite lookup_insert_eq. by intros [= <-].
  - rewrite lookup_insert_ne by done. rewrite (ext_cache _ _ X). intros E. by eapply extends_block, Hk.
Qed.

(** What finding a block leaves. *)
Definition found k '((p, k') : Z * core M) : Prop :=
  R (state k) (state k') /\ blocked k' /\ ticks k' = ticks k /\ exists top, block ok (trans_cache_buf k') top p.
Lemma translate_blocked addr k :
  0 <= addr -> addr `mod` unit_size (state k) = 0 -> blocked k ->
  yields (InterpreterTranslateBlock addr k) (found k).
Proof.
  intros Ha Hm Hk. unfold InterpreterTranslateBlock. cbv zeta. eapply yields_bind; [apply translate_block_yields; [done|done|]|].
  - right. unfold room. pose proof (Z.mod_pos_bound addr 4096 ltac:(lia)). change (Z.of_nat page_instructions) with 2048. lia.
  - intros k' [X B]. cbn. split_and!; [apply other_memory_R, X|by eapply remember_blocked|apply X|by eexists].
Qed.
Lemma translate_single_blocked addr k :
  blocked k -> yields (InterpreterTranslateSingle addr k) (found k).
Proof.
  intros Hk. unfold InterpreterTranslateSingle. cbv zeta. eapply yields_bind; [apply translate_yields|]. intros [[n a] s] (_ & Ho & Hs).
  set (a' := if decide (br a = NON_BRANCH) then set_br SINGLE_STEP a else a).
  assert (Ha' : ok a' /\ br a' ≠ NON_BRANCH) by (subst a'; by destruct (decide (br a = NON_BRANCH))). destruct Ha' as [Ho' Hb].
  eapply yields_bind; [apply alloc_yields|]. intros k1 (E1 & E2 & E3 & E4 & E5). cbn in E1, E2, E3, E4, E5. cbn.
  assert (X : extends k k1) by (by eapply extends_alloc).
  assert (B : block ok (trans_cache_buf k1) (trans_cache_buf_top k1) (trans_cache_buf_top k)).
  { apply block_end with a'; [by rewrite E3, lookup_insert_eq|done..|lia]. }
  split_and!; [rewrite E1; by apply other_memory_R|by eapply remember_blocked|done|by eexists].
Qed.

Lemma land_aligned x n : 0 <= n <= 32 -> Z.land x (Z.ones 32 - Z.ones n) `mod` 2 ^ n = 0.
Proof.
  intros Hn. rewrite <- Z.land_ones by lia. apply Z.bits_inj'. intros i Hi. rewrite !Z.land_spec, Z.bits_0, Z.testbit_ones_nonneg by lia.
  destruct (Z.ltb_spec i n); [|by rewrite andb_false_r]. rewrite !andb_true_r.
  rewrite Z.sub_nocarry_ldiff, Z.ldiff_spec, !Z.testbit_ones_nonneg by
    (try lia; apply Z.bits_inj'; intros j Hj; rewrite Z.ldiff_spec, Z.bits_0, !Z.testbit_ones_nonneg by lia; destruct (Z.ltb_spec j n), (Z.ltb_spec j 32); try lia; done).
  destruct (Z.ltb_spec i n); [|lia]. by rewrite andb_false_r, andb_false_r.
Qed.
Lemma align_aligned s : unit_size (align_pc s) = unit_size s /\ 0 <= reg (align_pc s) 15 /\ reg (align_pc s) 15 `mod` unit_size s = 0.
Proof.
  split; [done|]. unfold align_pc, reg. cbn [Reg set_Reg].
  set (x := Z.land (default 0 (Reg s !! Z.to_nat 15)) (if TFlag s =? 0 then 0xfffffffc else 0xfffffffe)).
  assert (Hx : 0 <= x /\ x `mod` unit_size s = 0).
  { subst x. unfold unit_size. destruct (TFlag s =? 0); split; try (by apply Z.land_nonneg; right);
      [by apply (land_aligned _ 2)|by apply (land_aligned _ 1)]. }
  clearbody x. unfold put. destruct (decide (Z.to_nat 15 < length (Reg s))%nat).
  - rewrite list_lookup_insert_eq by done. exact Hx.
  - rewrite lookup_ge_None_2 by (rewrite length_insert; lia). split; [done|]. unfold unit_size. destruct (TFlag s =? 0); reflexivity.
Qed.

(** The next instruction is the first of a block. *)
Definition dispatched k '((r, k') : option (Z * arm_inst) * core M) : Prop :=
  R (state k) (state k') /\ blocked k' /\ ticks k' = ticks k /\ match r with Some (ptr, a) => at_block k' ptr a | None => True end.
Lemma dispatch_yields k : blocked k -> yields (DISPATCH k) (dispatched k).
Proof.
  intros Hk. unfold DISPATCH. cbv zeta. destruct (_ && _); [split_and!; [apply frame_refl|done|done|done]|].
  set (k1 := on_state align_pc k). assert (HR1 : R (state k) (state k1)) by apply run_align. assert (Ht1 : ticks k1 = ticks k) by done.
  assert (Hk1 : blocked k1) by done.
  destruct (align_aligned (state k)) as (Hu & Hpos & Hmod). rewrite <- Hu in Hmod.
  change (align_pc (state k)) with (state k1) in Hpos, Hmod. clearbody k1.
  eapply (yields_bind _ _ (found k)).
  - destruct (instruction_cache k1 !! _) as [p|] eqn:Ec; [split_and!; [done|done|done|eexists; by eapply Hk1]|].
    assert (W : forall o : outcome (Z * core M), yields o (found k1) ->
      yields o (found k)).
    { intros o Ho. eapply yields_weaken; [exact Ho|]. intros [p k'] (HR & ? & Ht & ?). split_and!; [by eapply frame_trans|done|by rewrite Ht|done]. }
    destruct (_ =? 1); apply W; [by apply translate_single_blocked|by apply translate_blocked].
  - intros [p k2] (HR & Hk2 & Ht & top & B). unfold at_ptr. destruct (block_first _ _ _ _ B) as (a & E & _ & _). rewrite E. cbn.
    split_and!; [done|done|done|split; [done|by exists top]].
Qed.

(** ** The main loop *)

(** A label keeps the buffer; the cache is as it was or empty. *)
Lemma same_cache_refl k k' : trans_cache_buf k' = trans_cache_buf k -> instruction_cache k' = instruction_cache k -> trans_cache_buf_top k' = trans_cache_buf_top k -> same_cache k k'.
Proof. intros ? ? ?. split; [done|by left]. Qed.
Lemma same_cache_blocked k k' : same_cache k k' -> blocked k -> blocked k'.
Proof.
  intros [Hb [[Hc Ht]|Hc]] Hk pc p; rewrite Hc; [|done]. rewrite Hb, Ht. apply Hk.
Qed.

(** Frames under which the instructions left do not grow; a label counts one. *)
Definition shrinks : Prop := forall s s', R s s' -> 0 <= NumInstrsToExecute s -> 0 <= NumInstrsToExecute s' <= NumInstrsToExecute s.
(** The ticks a system call adds at most, and what the ticks can come to. *)
Definition svc_ticks (c : Z) : Prop := 0 <= c /\ forall n k k', CallSVC n k = Done k' -> ticks k' <= ticks k + c.
Definition account (c : Z) k (num : Z) : Z := ticks k + num + (1 + c) * Z.max 0 (NumInstrsToExecute (state k) - num).
Lemma account_mono c k k' num num' d :
  0 <= c -> ticks k' + num' <= ticks k + num + d -> Z.max 0 (NumInstrsToExecute (state k') - num') <= Z.max 0 (NumInstrsToExecute (state k) - num) ->
  account c k' num' <= account c k num + d.
Proof. intros Hc Ht Hm. unfold account. pose proof (Z.mul_le_mono_nonneg_l _ _ (1 + c) ltac:(lia) Hm). lia. Qed.
Definition counted (num : Z) k '((x, num', k') : next * Z * core M) : Prop :=
  R (state k) (state k') /\ same_cache k k' /\ 0 <= num' /\
  (shrinks -> 0 <= NumInstrsToExecute (state k) ->
   0 <= NumInstrsToExecute (state k') <= NumInstrsToExecute (state k) /\
   NumInstrsToExecute (state k') - num' <= Z.max 0 (NumInstrsToExecute (state k) - num) /\
   forall c, svc_ticks c -> account c k' num' <= account c k num + c).

Lemma run_state_yields (m : arm next) num k :
  Respects P R m -> yields (run_state m num k) (fun '(x, num', k') => num' = num /\ ticks k' = ticks k /\ R (state k) (state k') /\ same_cache k k').
Proof.
  intros Hm. specialize (Hm (state k)). unfold run_state. destruct (m (state k)) as [[x s]|f]; [|done].
  split_and!; [done|done|done|by apply same_cache_refl].
Qed.
Lemma run_state_counted (m : arm next) num k : 0 <= num -> Respects P R m -> yields (run_state m num k) (counted num k).
Proof.
  intros Hnum Hm. eapply yields_weaken; [by apply run_state_yields|]. intros [[x num'] k'] (-> & Ht & HR & Hc).
  split; [done|]. split; [done|]. split; [done|]. intros Hs HN. pose proof (Hs _ _ HR HN).
  split; [done|]. split; [lia|]. intros c [Hp _]. apply account_mono; lia.
Qed.
Lemma next_respects : Respects P R next_instruction.
Proof. apply respects_next; [done|apply run_frame]. Qed.
Lemma swi_counted c n num k : 0 <= num -> yields (SWI_INST c n num k) (counted num k).
Proof.
  intros Hnum. unfold SWI_INST. destruct (_ || _); [|apply run_state_counted; [done|apply next_respects]].
  set (k0 := AddTicks num k). set (left := if _ <=? _ then _ else _).
  assert (Hl : left = Z.max 0 (NumInstrsToExecute (state k) - num)).
  { subst left. change (NumInstrsToExecute (state k0)) with (NumInstrsToExecute (state k)). destruct (Z.leb_spec (NumInstrsToExecute (state k)) num); lia. }
  clearbody left. set (s1 := set_NumInstrsToExecute left (state k0)). assert (HR1 : R (state k) s1).
  { subst s1. change (state k0) with (state k). destruct (Z.leb_spec (NumInstrsToExecute (state k)) num).
    - replace left with 0 by lia. apply frame_stop.
    - apply run_left. lia. }
  change (on_state (set_NumInstrsToExecute left) k0) with (with_state s1 k0). assert (HN1 : NumInstrsToExecute s1 = left) by done. clearbody s1. cbv zeta.
  pose proof (svc_respects (Z.land n 0xFFFF) (with_state s1 k0)) as Hsvc.
  destruct (CallSVC _ _) as [k2|f] eqn:Esvc; [|done]. destruct Hsvc as [HR2 Hc2]. cbn in HR2.
  change (yields (run_state next_instruction 0 (on_state UnsetExclusiveMemoryAddress k2)) (counted num k)).
  assert (HR3 : R (state k) (UnsetExclusiveMemoryAddress (state k2))).
  { eapply frame_trans; [exact HR1|]. eapply frame_trans; [exact HR2|apply frame_unreserve]. }
  assert (Hs3 : shrinks -> 0 <= NumInstrsToExecute (state k2) <= left).
  { intros Hs. rewrite <- HN1. apply Hs; [done|lia]. }
  eapply yields_weaken; [apply run_state_yields, next_respects|].
  intros [[x num'] k'] (-> & Ht' & HR & Hc). cbn in Ht', HR. split; [by eapply frame_trans|]. split.
  { destruct Hc2 as [Hb2 Hc2], Hc as [Hb Hc]. split; [by rewrite Hb|]. destruct Hc as [[-> ->]|Hc]; [exact Hc2|by right]. }
  split; [done|]. intros Hsh HN. pose proof (Hs3 Hsh) as H2N. pose proof (Hsh _ _ HR ltac:(cbn; lia)) as H3N. cbn in H3N.
  split; [lia|]. split; [lia|]. intros d [Hd Hticks]. specialize (Hticks _ _ _ Esvc). change (ticks (with_state s1 k0)) with (ticks k + num) in Hticks.
  apply account_mono; lia.
Qed.
Lemma run_label_counted a num k : 0 <= num -> ok a -> yields (run_label a num k) (counted num k).
Proof.
  intros Hnum [Hp Hr]. unfold run_label.
  assert (Hi : idx a = i_swi \/ idx a ≠ i_swi) by (destruct (idx a); first [by left | by right]). destruct Hi as [E|E].
  - rewrite E. destruct Hp as [Hf _]. unfold fits in Hf. rewrite E in Hf. destruct (comp a); try discriminate Hf. by apply swi_counted.
  - assert (Hx : yields (run_state (execute a) num k) (counted num k)).
    { apply run_state_counted; [done|].
      apply respects_execute; [done|apply run_frame|exact cpdo_respects|exact Hr|exact E|exact Hp]. }
    destruct (idx a); try exact Hx. by destruct (E eq_refl).
Qed.

Lemma fetch_yields x ptr a k k' :
  at_block k ptr a -> same_cache k k' -> blocked k' -> yields (FETCH_INST x ptr a k') (dispatched k').
Proof.
  intros [E [top B]] [Hb _] Hk'. pose proof (at_block_ok k ptr a (conj E (ex_intro _ top B))) as [[Hf _] _].
  assert (D : yields (DISPATCH k') (dispatched k')) by (by apply dispatch_yields).
  unfold FETCH_INST. destruct x; [exact D| |exact D]. destruct (decide (br a = NON_BRANCH)) as [Hn|Hn]; [|exact D].
  destruct (block_first _ _ _ _ B) as (a1 & E1 & _ & B1). rewrite E in E1. injection E1 as <-. specialize (B1 Hn).
  cbv zeta. rewrite <- (fits_size _ _ Hf). change (sizeof_arm_inst + sizeof (comp a)) with (size a).
  destruct (block_first _ _ _ _ B1) as (a2 & E2 & _ & _). unfold at_ptr. rewrite Hb, E2. cbn. split_and!; [apply frame_refl|done|done|].
  split; [by rewrite Hb|]. exists top. by rewrite Hb.
Qed.

(** What the loop leaves. *)
Definition finished k num '((num', k') : Z * core M) : Prop :=
  R (state k) (state k') /\ blocked k' /\
  (shrinks -> 0 <= NumInstrsToExecute (state k) < 2 ^ 32 -> forall c, svc_ticks c -> ticks k' + num' <= account c k num).
Lemma end_frame s : R s (END s).
Proof. eapply frame_trans; [apply frame_save|apply frame_stop]. Qed.
Lemma account_final c k num a : svc_ticks c -> account c k num <= a -> ticks k + num <= a.
Proof.
  intros [Hc _]. unfold account. pose proof (Z.mul_nonneg_nonneg (1 + c) (Z.max 0 (NumInstrsToExecute (state k) - num)) ltac:(lia) ltac:(lia)). lia.
Qed.
Lemma main_loop_yields fuel : forall ptr a num k,
  blocked k -> at_block k ptr a -> 0 <= num ->
  (P FFuel \/ shrinks /\ 0 <= NumInstrsToExecute (state k) < 2 ^ 32 /\ NumInstrsToExecute (state k) - num < Z.of_nat fuel) -> fuel ≠ O ->
  yields (main_loop fuel ptr a num k) (finished k num).
Proof.
  induction fuel as [|fuel IH]; intros ptr a num k Hk Ha Hnum Hf Hne; [done|]. cbn [main_loop]. cbv zeta.
  set (k1 := on_state GDB_BP_CHECK k). assert (HR1 : R (state k) (state k1)) by apply run_thumb.
  assert (Hk1 : blocked k1) by done. assert (Ha1 : at_block k1 ptr a) by done.
  assert (HNk : NumInstrsToExecute (state k1) = NumInstrsToExecute (state k)) by done. assert (Htk : ticks k1 = ticks k) by done. clearbody k1.
  destruct (Z.leb_spec (NumInstrsToExecute (state k1)) num) as [Hend|Hgo].
  { split; [eapply frame_trans; [exact HR1|apply end_frame]|]. split; [done|]. intros _ _ c [Hc _]. unfold account. cbn. rewrite Htk.
    pose proof (Z.mul_nonneg_nonneg (1 + c) (Z.max 0 (NumInstrsToExecute (state k) - num)) ltac:(lia) ltac:(lia)). lia. }
  pose proof (u32_range (num + 1)) as Hn1.
  eapply yields_bind; [apply run_label_counted; [lia|by eapply at_block_ok]|]. intros [[x num2] k2] (HR2 & Hc2 & Hnum2 & Hcount).
  assert (Hk2 : blocked k2) by (by eapply same_cache_blocked).
  assert (HR : R (state k) (state k2)) by (by eapply frame_trans).
  assert (Hcount' : shrinks -> 0 <= NumInstrsToExecute (state k) < 2 ^ 32 ->
    0 <= NumInstrsToExecute (state k2) <= NumInstrsToExecute (state k) /\ NumInstrsToExecute (state k2) - num2 < NumInstrsToExecute (state k) - num /\
    forall c, svc_ticks c -> account c k2 num2 <= account c k num).
  { intros Hs HN. rewrite u32_small in Hcount by lia. destruct (Hcount Hs) as (H4 & H5 & H6); [lia|]. split; [lia|]. split; [lia|].
    intros c Hc. specialize (H6 c Hc). etrans; [exact H6|]. unfold account. rewrite HNk, Htk, !Z.max_r by lia. lia. }
  clear Hcount. assert (Hfetch : yields (FETCH_INST x ptr a k2) (dispatched k2)) by (by eapply fetch_yields).
  assert (Hcont : yields ('(r, k3) ← FETCH_INST x ptr a k2; match r with Some (ptr, a) => main_loop fuel ptr a num2 k3 | None => Done (num2, on_state END k3) end)
    (finished k num)).
  { eapply yields_bind; [exact Hfetch|]. intros [[[ptr' a']|] k3] (HR3 & Hk3 & Ht3 & Ha3).
    - destruct (decide (fuel = O)) as [->|Hfuel]; [destruct Hf as [Hf|(Hs & HN & Hf)]; [exact Hf|lia]|].
      eapply yields_weaken; [apply (IH ptr' a' num2 k3); [done..| |done]|].
      + destruct Hf as [Hf|(Hs & HN & Hf)]; [by left|right]. split; [done|]. destruct (Hcount' Hs HN) as (H4 & H5 & _).
        pose proof (Hs _ _ HR3 ltac:(lia)). lia.
      + intros [num' k'] (HR4 & Hk4 & Hticks). split; [eapply frame_trans; [exact HR|]; by eapply frame_trans|]. split; [done|].
        intros Hs HN c Hc. destruct (Hcount' Hs HN) as (H4 & H5 & H6). specialize (H6 c Hc). pose proof (Hs _ _ HR3 ltac:(lia)).
        specialize (Hticks Hs ltac:(lia) c Hc). etrans; [exact Hticks|]. etrans; [|exact H6].
        rewrite <- (Z.add_0_r (account c k2 num2)). destruct Hc as [Hc _]. apply account_mono; lia.
    - split; [eapply frame_trans; [exact HR|]; eapply frame_trans; [exact HR3|apply end_frame]|]. split; [done|].
      intros Hs HN c Hc. destruct (Hcount' Hs HN) as (_ & _ & H6). specialize (H6 c Hc).
      change (ticks (on_state END k3)) with (ticks k3). rewrite Ht3. by apply (account_final c). }
  destruct x; [exact Hcont|exact Hcont|]. split; [done|]. split; [done|]. intros Hs HN c Hc. destruct (Hcount' Hs HN) as (_ & _ & H6).
  specialize (H6 c Hc). by apply (account_final c).
Qed.

Lemma execute_instructions_yields fuel n k :
  blocked k -> fuel ≠ O -> (P FFuel \/ shrinks /\ 0 <= n < 2 ^ 32 /\ n < Z.of_nat fuel) ->
  yields (ExecuteInstructions fuel n k) (fun k' => R (set_NumInstrsToExecute n (state k)) (state k') /\ blocked k' /\
    (shrinks -> 0 <= n < 2 ^ 32 -> forall c, svc_ticks c -> ticks k' <= ticks k + (1 + c) * n)).
Proof.
  intros Hk Hne Hf. unfold ExecuteInstructions.
  set (k1 := on_state (set_NumInstrsToExecute n) k). assert (Hk1 : blocked k1) by done. assert (Ht1 : ticks k1 = ticks k) by done.
  change (set_NumInstrsToExecute n (state k)) with (state k1). assert (HN : NumInstrsToExecute (state k1) = n) by done. clearbody k1.
  eapply (yields_bind _ _ (finished k1 0)).
  2: { intros [num' k'] (HR & Hb & Hticks). split; [done|]. split; [done|]. intros Hs Hn c Hc. rewrite HN in Hticks.
    specialize (Hticks Hs Hn c Hc). unfold account in Hticks. rewrite HN, Z.max_r in Hticks by lia. cbn. rewrite <- Ht1.
    replace (n - 0) with n in Hticks by lia. lia. }
  unfold InterpreterMainLoop. set (k2 := on_state LOAD_NZCVT k1). assert (HR2 : R (state k1) (state k2)) by apply run_load.
  assert (Hk2 : blocked k2) by done. assert (Ht2 : ticks k2 = ticks k1) by done.
  assert (HN2 : NumInstrsToExecute (state k2) = NumInstrsToExecute (state k1)) by done. clearbody k2.
  assert (Hacc : forall k3, R (state k2) (state k3) -> ticks k3 = ticks k2 -> shrinks -> 0 <= NumInstrsToExecute (state k1) < 2 ^ 32 ->
    forall c, svc_ticks c -> account c k3 0 <= account c k1 0).
  { intros k3 HR3 Ht3 Hs Hn c [Hc _]. pose proof (Hs _ _ HR3 ltac:(lia)). rewrite <- (Z.add_0_r (account c k1 0)). apply account_mono; lia. }
  eapply yields_bind; [by apply dispatch_yields|]. intros [[[ptr a]|] k3] (HR3 & Hk3 & Ht3 & Ha3).
  - eapply yields_weaken; [apply (main_loop_yields fuel ptr a 0 k3); [done..| |done]|].
    + destruct Hf as [Hf|(Hs & Hn & Hf)]; [by left|right]. split; [done|]. pose proof (Hs _ _ HR3 ltac:(lia)). lia.
    + intros [num' k'] (HR & Hb & Hticks). split; [eapply frame_trans; [exact HR2|]; by eapply frame_trans|]. split; [done|].
      intros Hs Hn c Hc. pose proof (Hs _ _ HR3 ltac:(lia)). etrans; [apply Hticks; [done|lia|done]|]. by apply Hacc.
  - split; [eapply frame_trans; [exact HR2|]; eapply frame_trans; [exact HR3|apply end_frame]|]. split; [done|].
    intros Hs Hn c Hc. apply (account_final c k3 0); [done|]. by apply Hacc.
Qed.

End Runs.
End ArmRun.
