(* ===== verification/ArmRounding.v ===== *)
(** * Rounding

    What rounding a real number to a floating-point number means, by exact arithmetic on fractions, and when a word
    that forgets low bits but one still rounds to the same number. *)
From S2P Require Import Prelude BitField ArmSupport ArmFloat.

Module ArmR.
Import Arm ArmFl.

(** ** The specification *)

Inductive rounding := ToNearest | ToPlusInf | ToMinusInf | ToZero.
Definition rounding_of (fpscr : Z) : rounding :=
  match Z.land (Z.shiftr fpscr 22) 3 with 0 => ToNearest | 1 => ToPlusInf | 2 => ToMinusInf | _ => ToZero end.
(** Whether a number that is not exact grows in magnitude. *)
Definition outward (mode : rounding) (neg : bool) : bool :=
  match mode with ToPlusInf => negb neg | ToMinusInf => neg | _ => false end.

(** The integer next to the fraction [n / d], ties to even. *)
Definition round_fraction (mode : rounding) (neg : bool) (n d : Z) : Z :=
  let q := n / d in
  let r := n mod d in
  match mode with
  | ToNearest => match 2 * r ?= d with Lt => q | Gt => q + 1 | Eq => if Z.even q then q else q + 1 end
  | _ => if (r =? 0) || negb (outward mode neg) then q else q + 1
  end.

(** [a / b * 2 ^ k] as a fraction; the exponent of its highest bit. *)
Definition scale_num (a k : Z) : Z := a * 2 ^ Z.max 0 k.
Definition ratlog2 (a b : Z) : Z := let l := Z.log2 a - Z.log2 b in if scale_num a (- l) <? scale_num b l then l - 1 else l.

(** The weight of the lowest bit of the smallest number. *)
Definition lowest (p : precision) : Z := 1 - bias p - MANTISSA_BITS p.
Definition limit (p : precision) (mode : rounding) (neg : bool) (bits : Z) : Z :=
  let infinity := max_exponent p * 2 ^ MANTISSA_BITS p in
  if infinity <=? bits then (match mode with ToNearest => infinity | _ => if outward mode neg then infinity else infinity - 1 end) else bits.
(** [a / b * 2 ^ e] as the bits of a number without its sign: its mantissa counts units of
    [2 ^ q]; beyond the largest number is infinity, or that number when rounding towards zero. *)
Definition round_magnitude (p : precision) (mode : rounding) (neg : bool) (a b e : Z) : Z :=
  let q := Z.max (lowest p) (ratlog2 a b + e - MANTISSA_BITS p) in
  let bits := (q - lowest p) * 2 ^ MANTISSA_BITS p + round_fraction mode neg (scale_num a (e - q)) (scale_num b (q - e)) in
  limit p mode neg bits.
Definition round_number (p : precision) (mode : rounding) (neg : bool) (a b e : Z) : Z :=
  Z.b2z neg * 2 ^ (width p - 1) + (if a =? 0 then 0 else round_magnitude p mode neg a b e).

(** With flush-to-zero a number below the smallest normal one becomes plus zero before it is rounded. *)
Definition flushes (fpscr : Z) : bool := Z.testbit fpscr 24.
Definition subnormal (p : precision) (a b e : Z) : bool := negb (a =? 0) && (ratlog2 a b + e <? 1 - bias p).
Definition round_flushing (p : precision) (fpscr : Z) (neg : bool) (a b e : Z) : Z :=
  if flushes fpscr && subnormal p a b e then 0 else round_number p (rounding_of fpscr) neg a b e.

(** The number that bits stand for: its sign, its mantissa and the weight of the mantissa. *)
Definition exponent_field (p : precision) (v : Z) : Z := v / 2 ^ MANTISSA_BITS p mod 2 ^ EXPONENT_BITS p.
Definition finite (p : precision) (v : Z) : bool := negb (exponent_field p v =? max_exponent p).
Definition negative (p : precision) (v : Z) : bool := 2 ^ (width p - 1) <=? v.
Definition mantissa (p : precision) (v : Z) : Z := v mod 2 ^ MANTISSA_BITS p + (if exponent_field p v =? 0 then 0 else 2 ^ MANTISSA_BITS p).
Definition weight (p : precision) (v : Z) : Z := Z.max 1 (exponent_field p v) - 1 + lowest p.

(** An operand: with flush-to-zero plus zero stands for a denormal number of either sign. *)
Definition operand (p : precision) (fpscr v : Z) : Z :=
  if flushes fpscr && (exponent_field p v =? 0) && negb (mantissa p v =? 0) then 0 else v.

(** ** Fractions that round alike *)

(** Two fractions that compare alike with every half. *)
Definition same_halves (n d n' d' : Z) : Prop := forall i, (i * d ?= 2 * n) = (i * d' ?= 2 * n').

Lemma same_halves_le n d n' d' i : same_halves n d n' d' -> i * d <= 2 * n <-> i * d' <= 2 * n'.
Proof. intros E. rewrite <- !Z.compare_le_iff. by rewrite E. Qed.
Lemma same_halves_lt n d n' d' i : same_halves n d n' d' -> 2 * n < i * d <-> 2 * n' < i * d'.
Proof. intros E. rewrite <- !Z.compare_gt_iff. by rewrite E. Qed.
Lemma same_halves_div n d n' d' : 0 < d -> 0 < d' -> same_halves n d n' d' -> n / d = n' / d'.
Proof.
  intros Hd Hd' E. pose proof (Z.mul_div_le n d Hd). pose proof (Z.mul_succ_div_gt n d Hd).
  apply Z.div_unique_pos with (n' - d' * (n / d)); [|lia].
  pose proof (proj1 (same_halves_le n d n' d' (2 * (n / d)) E) ltac:(lia)).
  pose proof (proj1 (same_halves_lt n d n' d' (2 * (n / d) + 2) E) ltac:(lia)). lia.
Qed.
Lemma round_same_halves mode neg n d n' d' : 0 < d -> 0 < d' -> same_halves n d n' d' -> round_fraction mode neg n d = round_fraction mode neg n' d'.
Proof.
  intros Hd Hd' E. unfold round_fraction. rewrite !Z.mod_eq, <- (same_halves_div n d n' d') by (done || lia). set (q := n / d).
  pose proof (E (2 * q)) as E0. pose proof (E (2 * q + 1)) as E1.
  replace (2 * q * d) with (2 * (q * d)) in E0 by ring. replace (2 * q * d') with (2 * (q * d')) in E0 by ring.
  replace ((2 * q + 1) * d) with (2 * (q * d) + d) in E1 by ring. replace ((2 * q + 1) * d') with (2 * (q * d') + d') in E1 by ring.
  rewrite !(Z.mul_comm _ q). generalize dependent (q * d). generalize dependent (q * d'). intros P' P E0 E1.
  assert ((2 * (n - P) ?= d) = (2 * (n' - P') ?= d')) as ->.
  { destruct (Z.compare_spec (2 * P + d) (2 * n)), (Z.compare_spec (2 * P' + d') (2 * n')); try discriminate;
      destruct (Z.compare_spec (2 * (n - P)) d), (Z.compare_spec (2 * (n' - P')) d'); try done; lia. }
  assert ((n - P =? 0) = (n' - P' =? 0)) as ->; [|done].
  destruct (Z.compare_spec (2 * P) (2 * n)), (Z.compare_spec (2 * P') (2 * n')); try discriminate;
    destruct (Z.eqb_spec (n - P) 0), (Z.eqb_spec (n' - P') 0); try done; lia.
Qed.

(** ** Words that stand for a fraction *)

(** The word compares with every multiple of [2 ^ h] as the fraction does. *)
Definition stands_for (h m a b : Z) : Prop := forall j, (j * 2 ^ h ?= m) = (j * 2 ^ h * b ?= a).

Lemma stands_exact m b : 0 < b -> stands_for 0 m (m * b) b.
Proof. intros Hb j. rewrite !Z.mul_1_r, !(Z.mul_comm _ b). apply Zmult_compare_compat_l. lia. Qed.
Lemma stands_weaken h h' m a b : 0 <= h <= h' -> stands_for h m a b -> stands_for h' m a b.
Proof.
  intros Hh E j. replace (2 ^ h') with (2 ^ (h' - h) * 2 ^ h) by (rewrite <- Z.pow_add_r by lia; f_equal; lia).
  rewrite !Z.mul_assoc. apply E.
Qed.
Lemma stands_shift h s m a b : 0 <= h -> 0 <= s -> 0 < b -> stands_for h m a b -> stands_for (h + s) (m * 2 ^ s) (a * 2 ^ s) b.
Proof.
  intros Hh Hs Hb E j. rewrite Z.pow_add_r by lia.
  replace (j * (2 ^ h * 2 ^ s)) with (2 ^ s * (j * 2 ^ h)) by ring. replace (2 ^ s * (j * 2 ^ h) * b) with (2 ^ s * (j * 2 ^ h * b)) by ring.
  rewrite !(Z.mul_comm _ (2 ^ s)). rewrite <- !(Zmult_compare_compat_l _ _ (2 ^ s)) by lia. apply E.
Qed.
Lemma stands_halves h k m a b : 0 <= h < k -> stands_for h m a b -> same_halves m (2 ^ k) a (b * 2 ^ k).
Proof.
  intros Hk E i. replace (2 ^ k) with (2 * (2 ^ (k - 1 - h) * 2 ^ h)) by (rewrite <- Z.pow_add_r by lia; rewrite <- Z.pow_succ_r by lia; f_equal; lia).
  set (t := 2 ^ (k - 1 - h)). replace (i * (2 * (t * 2 ^ h))) with (2 * (i * t * 2 ^ h)) by ring.
  replace (i * (b * (2 * (t * 2 ^ h)))) with (2 * (i * t * 2 ^ h * b)) by ring.
  rewrite <- !(Zmult_compare_compat_l _ _ 2) by lia. apply E.
Qed.

(** The shift that keeps what it loses in the lowest bit. *)
Definition jam (m k : Z) : Z := Z.lor (m / 2 ^ k) (Z.b2z (negb (m mod 2 ^ k =? 0))).
Lemma lor_1 q : 0 <= q -> Z.lor q 1 = if Z.even q then q + 1 else q.
Proof.
  intros Hq. assert (W : forall x, Z.lor 1 (Z.shiftl x 1) = 1 + x * 2) by (intros; by apply (lor_shiftl_add 1 1)).
  destruct (Z.even q) eqn:E.
  - apply Z.even_spec in E as [x ->]. rewrite (Z.mul_comm 2), Z.lor_comm. change (x * 2) with (x * 2 ^ 1) at 1.
    rewrite <- Z.shiftl_mul_pow2, W by lia. lia.
  - rewrite <- Z.negb_odd in E. apply negb_false_iff, Z.odd_spec in E as [x ->].
    replace (2 * x + 1) with (1 + x * 2) by ring. rewrite <- W, Z.lor_comm, Z.lor_assoc. by rewrite Z.lor_diag.
Qed.
(** Multiples of two cannot fall between a fraction and its integer part with the rest in its lowest bit. *)
Definition sticky (a d : Z) : Z := Z.lor (a / d) (Z.b2z (negb (a mod d =? 0))).
Lemma sticky_cases a d : 0 <= a -> 0 < d -> sticky a d = if a mod d =? 0 then a / d else if Z.even (a / d) then a / d + 1 else a / d.
Proof.
  intros Ha Hd. unfold sticky. destruct (a mod d =? 0); [apply Z.lor_0_r|]. apply lor_1. by apply Z.div_pos.
Qed.
Lemma sticky_stands a d : 0 <= a -> 0 < d -> stands_for 1 (sticky a d) a d.
Proof.
  intros Ha H0 j. rewrite sticky_cases by lia. change (2 ^ 1) with 2. pose proof (Z.div_mod a d ltac:(lia)) as Hd.
  pose proof (Z.mod_pos_bound a d ltac:(lia)) as Hr. set (q := a / d) in *. set (r := a mod d) in *.
  rewrite Hd. destruct (Z.eqb_spec r 0) as [Hz|Hz].
  - rewrite Hz, Z.add_0_r, (Z.mul_comm _ d). apply Zmult_compare_compat_l. lia.
  - assert (Hc : forall q', q' = 2 * (q / 2) + 1 -> (j * 2 ?= q') = (j * 2 * d ?= d * q + r)).
    { intros q' ->. pose proof (Z.div_mod q 2 ltac:(lia)). pose proof (Z.mod_pos_bound q 2 ltac:(lia)).
      destruct (Z.compare_spec (j * 2) (2 * (q / 2) + 1)); [lia|symmetry; apply Z.compare_lt_iff|symmetry; apply Z.compare_gt_iff].
      - assert (j * 2 * d <= q * d) by (apply Z.mul_le_mono_nonneg_r; lia). lia.
      - assert ((q + 1) * d <= j * 2 * d) by (apply Z.mul_le_mono_nonneg_r; lia). lia. }
    apply Hc. destruct (Z.even q) eqn:E.
    + apply Z.even_spec in E as [x ->]. rewrite (Z.mul_comm 2), Z.div_mul by lia. lia.
    + rewrite <- Z.negb_odd in E. apply negb_false_iff, Z.odd_spec in E as [x ->].
      replace (2 * x + 1) with (1 + x * 2) by ring. rewrite Z.div_add by lia. change (1 / 2) with 0. lia.
Qed.
Lemma jam_cases m k : 0 <= m -> 0 <= k ->
  jam m k = if m mod 2 ^ k =? 0 then m / 2 ^ k else if Z.even (m / 2 ^ k) then m / 2 ^ k + 1 else m / 2 ^ k.
Proof. intros Hm Hk. apply sticky_cases; lia. Qed.
Lemma jam_stands m k : 0 <= m -> 0 <= k -> stands_for 1 (jam m k) m (2 ^ k).
Proof. intros Hm Hk. apply sticky_stands; lia. Qed.
(** A number between two consecutive multiples, and any word between them. *)
Lemma between_stands h m a b i : 0 <= h -> 0 < b -> i * 2 ^ h < m < (i + 1) * 2 ^ h -> i * 2 ^ h * b < a < (i + 1) * 2 ^ h * b -> stands_for h m a b.
Proof.
  intros Hh Hb Hm Ha j. set (t := 2 ^ h) in *. assert (0 < t) by (apply Z.pow_pos_nonneg; lia).
  destruct (Z.le_gt_cases j i).
  - assert (j * t <= i * t) by (apply Z.mul_le_mono_nonneg_r; lia).
    assert (j * t * b <= i * t * b) by (apply Z.mul_le_mono_nonneg_r; lia).
    transitivity Lt; [|symmetry]; apply Z.compare_lt_iff; lia.
  - assert ((i + 1) * t <= j * t) by (apply Z.mul_le_mono_nonneg_r; lia).
    assert ((i + 1) * t * b <= j * t * b) by (apply Z.mul_le_mono_nonneg_r; lia).
    transitivity Gt; [|symmetry]; apply Z.compare_gt_iff; lia.
Qed.
(** Jamming a word that stands for a fraction. *)
Lemma jam_stands_for h m k a b : 0 <= m -> 0 <= k -> 0 <= h -> 0 < b -> stands_for h m a b -> stands_for (Z.max 1 (h - k)) (jam m k) a (b * 2 ^ k).
Proof.
  intros Hm Hk Hh Hb E j. set (g := Z.max 1 (h - k)).
  pose proof (jam_stands m k Hm Hk (j * 2 ^ (g - 1))) as Hj. change (2 ^ 1) with 2 in Hj.
  assert (Hg : 2 ^ g = 2 ^ (g - 1) * 2) by (replace g with (Z.succ (g - 1)) at 1 by lia; rewrite Z.pow_succ_r by lia; ring).
  assert (Hp : 2 ^ g * 2 ^ k = 2 ^ (g + k - h) * 2 ^ h) by (rewrite <- !Z.pow_add_r by lia; f_equal; lia).
  rewrite Hg, Z.mul_assoc, Hj, <- (Z.mul_assoc j), <- Hg, <- (Z.mul_assoc j), Hp, (Z.mul_assoc j), E. f_equal.
  rewrite <- Z.mul_assoc, <- (Z.mul_assoc j), (Z.mul_assoc _ (2 ^ h)), <- Hp. ring.
Qed.

(** ** The specification looks at the number alone *)

Lemma scale_le a b k N : 0 <= N -> 0 <= N + k -> scale_num b k <= scale_num a (- k) <-> b * 2 ^ (N + k) <= a * 2 ^ N.
Proof.
  intros HN Hk. unfold scale_num. destruct (Z.le_gt_cases 0 k).
  - rewrite (Z.max_r 0 k), (Z.max_l 0 (- k)), Z.pow_add_r, Z.mul_1_r by lia.
    replace (b * (2 ^ N * 2 ^ k)) with (b * 2 ^ k * 2 ^ N) by ring. rewrite <- Z.mul_le_mono_pos_r; [done|lia].
  - rewrite (Z.max_l 0 k), (Z.max_r 0 (- k)), Z.mul_1_r by lia.
    replace (2 ^ N) with (2 ^ (- k) * 2 ^ (N + k)) by (rewrite <- Z.pow_add_r by lia; f_equal; lia).
    rewrite Z.mul_assoc, <- Z.mul_le_mono_pos_r; [done|lia].
Qed.
Lemma log2_bounds a N : 0 < a -> 0 <= N -> 2 ^ (N + Z.log2 a) <= a * 2 ^ N < 2 ^ (N + Z.log2 a + 1).
Proof.
  intros Ha HN. pose proof (Z.log2_spec a Ha) as [Hl Hh]. pose proof (Z.log2_nonneg a). rewrite !Z.pow_add_r in * by lia.
  rewrite Z.pow_succ_r in Hh by lia. assert (0 < 2 ^ N) by lia. split; [nia|]. change (2 ^ 1) with 2. nia.
Qed.
Lemma drop_power_le a b x y c : 0 <= x -> 0 <= y -> 0 <= c -> b * 2 ^ (x + c) <= a * 2 ^ (y + c) <-> b * 2 ^ x <= a * 2 ^ y.
Proof. intros Hx Hy Hc. rewrite !Z.pow_add_r, !Z.mul_assoc by lia. rewrite <- Z.mul_le_mono_pos_r; [done|lia]. Qed.
Lemma ratlog2_spec a b N : 0 < a -> 0 < b -> 0 <= N -> 0 <= N + ratlog2 a b ->
  b * 2 ^ (N + ratlog2 a b) <= a * 2 ^ N < b * 2 ^ (N + ratlog2 a b + 1).
Proof.
  intros Ha Hb HN. unfold ratlog2. set (l := Z.log2 a - Z.log2 b).
  pose proof (Z.log2_nonneg a). pose proof (Z.log2_nonneg b).
  assert (Hup : forall K, 0 <= K -> 0 <= K + l -> a * 2 ^ K < b * 2 ^ (K + l + 1)).
  { intros K HK Hl. apply Z.nle_gt. rewrite <- (drop_power_le _ _ _ _ (Z.log2 b)) by lia. apply Z.nle_gt.
    pose proof (log2_bounds a (K + Z.log2 b) Ha ltac:(lia)) as [_ B1]. pose proof (log2_bounds b (K + l + 1 + Z.log2 b) Hb ltac:(lia)) as [B2 _].
    eapply Z.lt_le_trans; [apply B1|]. etrans; [|apply B2]. apply Z.pow_le_mono_r; lia. }
  assert (Hlo : forall K, 0 <= K -> 0 <= K + l - 1 -> b * 2 ^ (K + l - 1) <= a * 2 ^ K).
  { intros K HK Hl. rewrite <- (drop_power_le _ _ _ _ (Z.log2 b)) by lia. apply Z.lt_le_incl.
    pose proof (log2_bounds a (K + Z.log2 b) Ha ltac:(lia)) as [B1 _]. pose proof (log2_bounds b (K + l - 1 + Z.log2 b) Hb ltac:(lia)) as [_ B2].
    eapply Z.lt_le_trans; [apply B2|]. etrans; [|apply B1]. apply Z.pow_le_mono_r; lia. }
  destruct (Z.ltb_spec (scale_num a (- l)) (scale_num b l)) as [Hlt|Hge]; intros HL.
  - replace (N + (l - 1)) with (N + l - 1) in * by lia. split; [by apply Hlo|]. replace (N + l - 1 + 1) with (N + l) by lia.
    apply Z.nle_gt. intros Hle. apply (scale_le a b l N) in Hle; lia.
  - split; [by apply (scale_le a b l N)|by apply Hup].
Qed.

(** Two ways to write a number. *)
Definition same_value (a b e a' b' e' N : Z) : Prop := 0 <= N + e /\ 0 <= N + e' /\ a * b' * 2 ^ (N + e) = a' * b * 2 ^ (N + e').
Lemma same_value_shift a b e a' b' e' N K : 0 <= K -> same_value a b e a' b' e' N -> same_value a b e a' b' e' (K + N).
Proof.
  intros HK (He & He' & E). split; [lia|]. split; [lia|]. rewrite <- !Z.add_assoc, !(Z.pow_add_r _ K), !(Z.mul_comm (2 ^ K)), !Z.mul_assoc by lia. by rewrite E.
Qed.
Lemma ratlog2_le a b e a' b' e' N : 0 < a -> 0 < b -> 0 < a' -> 0 < b' -> same_value a b e a' b' e' N ->
  ratlog2 a b + e <= ratlog2 a' b' + e'.
Proof.
  intros Ha Hb Ha' Hb' E. set (L := ratlog2 a b). set (L' := ratlog2 a' b').
  destruct (same_value_shift _ _ _ _ _ _ N (Z.abs L + Z.abs L') ltac:(lia) E) as (He & He' & E').
  destruct E as (Hn & Hn' & _). set (K := Z.abs L + Z.abs L') in *. assert (HK : K = Z.abs L + Z.abs L') by done. clearbody K.
  destruct (ratlog2_spec a b (K + N + e)) as [Hl _]; [lia..|]. destruct (ratlog2_spec a' b' (K + N + e')) as [_ Hh]; [lia..|].
  fold L in Hl. fold L' in Hh.
  assert (b * b' * 2 ^ (K + N + e + L) < b * b' * 2 ^ (K + N + e' + L' + 1)).
  { apply Z.le_lt_trans with (a * b' * 2 ^ (K + N + e)); [|rewrite E']; nia. }
  apply Z.mul_lt_mono_pos_l in H; [|nia]. apply Z.pow_lt_mono_r_iff in H; lia.
Qed.
Lemma ratlog2_same a b e a' b' e' N : 0 < a -> 0 < b -> 0 < a' -> 0 < b' -> same_value a b e a' b' e' N ->
  ratlog2 a b + e = ratlog2 a' b' + e'.
Proof.
  intros Ha Hb Ha' Hb' E. apply Z.le_antisymm; [by eapply ratlog2_le|]. eapply (ratlog2_le _ _ _ _ _ _ N); [done..|].
  destruct E as (? & ? & ?). by split_and!.
Qed.
Lemma round_same_ratio mode neg n d n' d' : 0 < d -> 0 < d' -> n * d' = n' * d -> round_fraction mode neg n d = round_fraction mode neg n' d'.
Proof.
  intros Hd Hd' E. apply round_same_halves; [done..|]. intros i.
  rewrite (Zmult_compare_compat_l _ _ d' ltac:(lia)). rewrite (Zmult_compare_compat_l (i * d') _ d ltac:(lia)).
  f_equal; [ring|]. replace (d' * (2 * n)) with (2 * (n * d')) by ring. rewrite E. ring.
Qed.
Lemma scale_same a b e a' b' e' q N : same_value a b e a' b' e' N ->
  scale_num a (e - q) * scale_num b' (q - e') = scale_num a' (e' - q) * scale_num b (q - e).
Proof.
  intros (He & He' & E). unfold scale_num.
  apply (Z.mul_cancel_r _ _ (2 ^ (N + e + N + e'))); [lia|].
  replace (a * 2 ^ Z.max 0 (e - q) * (b' * 2 ^ Z.max 0 (q - e')) * 2 ^ (N + e + N + e'))
    with (a * b' * 2 ^ (N + e) * (2 ^ Z.max 0 (e - q) * 2 ^ Z.max 0 (q - e') * 2 ^ (N + e'))).
  2:{ replace (N + e + N + e') with ((N + e) + (N + e')) by lia. rewrite (Z.pow_add_r 2 (N + e) (N + e')) by lia. ring. }
  replace (a' * 2 ^ Z.max 0 (e' - q) * (b * 2 ^ Z.max 0 (q - e)) * 2 ^ (N + e + N + e'))
    with (a' * b * 2 ^ (N + e') * (2 ^ Z.max 0 (e' - q) * 2 ^ Z.max 0 (q - e) * 2 ^ (N + e))).
  2:{ replace (N + e + N + e') with ((N + e) + (N + e')) by lia. rewrite (Z.pow_add_r 2 (N + e) (N + e')) by lia. ring. }
  rewrite E. f_equal. rewrite <- !Z.pow_add_r by lia. f_equal. lia.
Qed.
Lemma scale_pos a k : 0 < a -> 0 < scale_num a k.
Proof. intros Ha. unfold scale_num. assert (0 < 2 ^ Z.max 0 k) by lia. nia. Qed.
Lemma round_same_value p mode neg a b e a' b' e' N : 0 < a -> 0 < b -> 0 < a' -> 0 < b' -> same_value a b e a' b' e' N ->
  round_magnitude p mode neg a b e = round_magnitude p mode neg a' b' e'.
Proof.
  intros Ha Hb Ha' Hb' E. unfold round_magnitude. rewrite (ratlog2_same a b e a' b' e' N) by done.
  rewrite (round_same_ratio mode neg _ _ (scale_num a' (e' - Z.max (lowest p) (ratlog2 a' b' + e' - MANTISSA_BITS p)))
    (scale_num b' (Z.max (lowest p) (ratlog2 a' b' + e' - MANTISSA_BITS p) - e'))); [done|by apply scale_pos..|]. by eapply scale_same.
Qed.
Lemma flushing_same_value p fpscr neg a b e a' b' e' N : 0 < a -> 0 < b -> 0 < a' -> 0 < b' -> same_value a b e a' b' e' N ->
  round_flushing p fpscr neg a b e = round_flushing p fpscr neg a' b' e'.
Proof.
  intros Ha Hb Ha' Hb' E. unfold round_flushing, subnormal, round_number.
  rewrite (ratlog2_same a b e a' b' e' N), (round_same_value p _ neg a b e a' b' e' N), !(proj2 (Z.eqb_neq _ 0)) by (done || lia). done.
Qed.
Lemma round_shifted p fpscr neg a b e s : 0 < a -> 0 < b -> 0 <= s ->
  round_flushing p fpscr neg a b e = round_flushing p fpscr neg (a * 2 ^ s) b (e - s).
Proof.
  intros Ha Hb Hs. apply (flushing_same_value _ _ _ _ _ _ _ _ _ (Z.abs e + s)); try done; [nia|].
  split; [lia|]. split; [lia|]. replace (Z.abs e + s + e) with (s + (Z.abs e + s + (e - s))) by lia. rewrite Z.pow_add_r by lia. ring.
Qed.
Lemma ratlog2_unique a b L : 0 < a -> 0 < b -> 0 <= L -> b * 2 ^ L <= a < b * 2 ^ (L + 1) -> ratlog2 a b = L.
Proof.
  intros Ha Hb HL [Hl Hh]. set (N := Z.abs (ratlog2 a b)). assert (HN : N = Z.abs (ratlog2 a b)) by done. clearbody N.
  destruct (ratlog2_spec a b N) as [Rl Rh]; [lia..|].
  assert (Hl' : b * 2 ^ (N + L) <= a * 2 ^ N) by (rewrite (Z.add_comm N), Z.pow_add_r by lia; nia).
  assert (Hh' : a * 2 ^ N < b * 2 ^ (N + L + 1)) by (replace (N + L + 1) with (L + 1 + N) by lia; rewrite (Z.pow_add_r _ (L + 1)) by lia; nia).
  assert (A1 : b * 2 ^ (N + ratlog2 a b) < b * 2 ^ (N + L + 1)) by lia. assert (A2 : b * 2 ^ (N + L) < b * 2 ^ (N + ratlog2 a b + 1)) by lia.
  apply Z.mul_lt_mono_pos_l in A1, A2; [|lia..]. apply Z.pow_lt_mono_r_iff in A1, A2; lia.
Qed.
Lemma stands_le h m a b x : 0 <= h <= x -> stands_for h m a b -> 2 ^ x <= m <-> 2 ^ x * b <= a.
Proof.
  intros Hx E. replace (2 ^ x) with (2 ^ (x - h) * 2 ^ h) by (rewrite <- Z.pow_add_r by lia; f_equal; lia).
  rewrite <- !Z.compare_le_iff. by rewrite E.
Qed.
Lemma stands_log2 h m a b x : 0 <= h <= x -> 0 < a -> 0 < b -> stands_for h m a b -> 2 ^ x <= m < 2 ^ (x + 1) -> ratlog2 a b = x.
Proof.
  intros Hx Ha Hb E [Hl Hh]. apply ratlog2_unique; [done..|lia|]. rewrite !(Z.mul_comm b). split; [by apply (stands_le h m)|].
  apply Z.nle_gt. intros Hle. apply (stands_le h m) in Hle; [lia|lia|done].
Qed.

End ArmR.
