(* ===== verification/ArmFloatFacts.v ===== *)
(** * Rounding of unpacked numbers

    The words of the software floating point are numbers, and [vfp_normaliseround] rounds as the specification says. *)
From S2P Require Import Prelude BitField ArmSupport ArmFloat ArmRounding.

Module ArmFf.
Import Arm ArmFl ArmR.

(** ** Bits *)

Lemma has_low x k : 0 <= k -> has x (Z.shiftl 1 k - 1) = negb (x mod 2 ^ k =? 0).
Proof. intros Hk. unfold has. rewrite Z.shiftl_1_l. replace (2 ^ k - 1) with (Z.ones k) by (rewrite Z.ones_equiv; lia). by rewrite Z.land_ones. Qed.
Lemma land_bit x k : 0 <= k -> Z.land x (2 ^ k) = Z.b2z (Z.testbit x k) * 2 ^ k.
Proof.
  intros Hk. apply Z.bits_inj'. intros i Hi. rewrite Z.land_spec, Z.pow2_bits_eqb, <- Z.shiftl_mul_pow2, Z.shiftl_spec by lia.
  destruct (Z.eqb_spec k i) as [-> |].
  - rewrite Z.sub_diag, andb_true_r. by destruct (Z.testbit x i).
  - rewrite andb_false_r. destruct (Z.testbit x k); cbn [Z.b2z]; [|by rewrite Z.bits_0].
    destruct (Z.le_gt_cases k i); [|by rewrite Z.testbit_neg_r by lia]. change 1 with (2 ^ 0). rewrite Z.pow2_bits_eqb by lia.
    symmetry. apply Z.eqb_neq. lia.
Qed.
Lemma land_bit_even x k : 0 <= k -> (Z.land x (Z.shiftl 1 k) =? 0) = Z.even (x / 2 ^ k).
Proof.
  intros Hk. rewrite Z.shiftl_1_l, land_bit, <- Z.negb_odd, <- Z.bit0_odd, <- Z.shiftr_div_pow2, Z.shiftr_spec by lia.
  rewrite Z.add_0_l. destruct (Z.testbit x k); cbn; [|done]. apply Z.eqb_neq. lia.
Qed.
Lemma land_high x j : 0 <= j <= 32 -> 0 <= x < 2 ^ 32 -> (Z.land x (2 ^ 32 - 2 ^ j) =? 0) = (Z.shiftr x j =? 0).
Proof.
  intros Hj Hx. replace (2 ^ 32 - 2 ^ j) with (Z.shiftl (Z.ones (32 - j)) j).
  2:{ rewrite Z.shiftl_mul_pow2, Z.ones_equiv, <- Z.sub_1_r by lia. rewrite Z.mul_sub_distr_r, <- Z.pow_add_r by lia. f_equal; [f_equal; lia|lia]. }
  assert (E : Z.land x (Z.shiftl (Z.ones (32 - j)) j) = Z.shiftl (Z.shiftr x j) j).
  { apply Z.bits_inj'. intros i Hi. rewrite Z.land_spec, !Z.shiftl_spec by lia. destruct (Z.le_gt_cases j i).
    - rewrite Z.shiftr_spec by lia. replace (i - j + j) with i by lia. destruct (Z.le_gt_cases 32 i).
      + rewrite <- (Z.mod_small x (2 ^ 32)), Z.mod_pow2_bits_high by lia. done.
      + rewrite Z.ones_spec_low by lia. apply andb_true_r.
    - rewrite !(Z.testbit_neg_r _ (i - j)) by lia. apply andb_false_r. }
  rewrite E, Z.shiftl_mul_pow2 by lia. assert (0 < 2 ^ j) by lia. destruct (Z.eqb_spec (Z.shiftr x j) 0) as [-> |]; [done|]. apply Z.eqb_neq. nia.
Qed.

(** ** The highest bit *)

Lemma fls_step k r x : 0 < k < 32 -> 0 < x < 2 ^ 32 ->
  exists x' r', (if Z.land x (2 ^ 32 - 2 ^ (32 - k)) =? 0 then (u32 (Z.shiftl x k), r - k) else (x, r)) = (x', r') /\
    0 < x' < 2 ^ 32 /\ r' + Z.log2 x' = r + Z.log2 x /\ Z.log2 x <= Z.log2 x' /\ (Z.log2 x' < 32 - k -> Z.log2 x' = Z.log2 x + k).
Proof.
  intros Hk Hx. rewrite land_high by lia. destruct (clz_step k (- r) x Hk Hx) as (n' & x' & E & H1 & H2 & H3 & H4).
  exists x', (- n'). destruct (_ =? 0); injection E as <- <-; (split; [f_equal; lia|split_and!; (done || lia)]).
Qed.
Lemma fls_spec x : 0 < x < 2 ^ 32 -> fls x = Z.log2 x + 1.
Proof.
  intros Hx. unfold fls. destruct (Z.eqb_spec x 0); [lia|].
  destruct (fls_step 16 32 x) as (x1 & r1 & E1 & H1 & D1 & G1 & L1); [lia|done|]. change (2 ^ 32 - 2 ^ (32 - 16)) with 0xffff0000 in E1. rewrite E1.
  destruct (fls_step 8 r1 x1) as (x2 & r2 & E2 & H2 & D2 & G2 & L2); [lia|done|]. change (2 ^ 32 - 2 ^ (32 - 8)) with 0xff000000 in E2. rewrite E2.
  destruct (fls_step 4 r2 x2) as (x3 & r3 & E3 & H3 & D3 & G3 & L3); [lia|done|]. change (2 ^ 32 - 2 ^ (32 - 4)) with 0xf0000000 in E3. rewrite E3.
  destruct (fls_step 2 r3 x3) as (x4 & r4 & E4 & H4 & D4 & G4 & L4); [lia|done|]. change (2 ^ 32 - 2 ^ (32 - 2)) with 0xc0000000 in E4. rewrite E4.
  pose proof (land_high x4 31 ltac:(lia) ltac:(lia)) as E5. change (2 ^ 32 - 2 ^ 31) with 0x80000000 in E5. rewrite E5, Z.shiftr_div_pow2 by lia.
  pose proof (Z.log2_nonneg x). pose proof (Z.log2_spec x4 ltac:(lia)) as [Hl Hh]. assert (Z.log2 x4 < 32) by (apply Z.log2_lt_pow2; lia).
  assert (30 <= Z.log2 x4) by lia. destruct (Z.eq_dec (Z.log2 x4) 30) as [E|E].
  - rewrite E in Hh. change (2 ^ Z.succ 30) with (2 ^ 31) in Hh. rewrite Z.div_small by lia. cbn. lia.
  - assert (E' : Z.log2 x4 = 31) by lia. rewrite E' in Hl. destruct (Z.eqb_spec (x4 / 2 ^ 31) 0) as [Hz|]; [|lia].
    apply Z.div_small_iff in Hz; lia.
Qed.
Lemma log2_top x : 0 < x < 2 ^ 32 -> Z.log2 x < 32.
Proof. intros. apply Z.log2_lt_pow2; lia. Qed.

(** A 64-bit word by its halves. *)
Lemma log2_high x : 2 ^ 32 <= x < 2 ^ 64 -> 0 < u32 (Z.shiftr x 32) < 2 ^ 32 /\ Z.log2 (u32 (Z.shiftr x 32)) = Z.log2 x - 32.
Proof.
  intros Hx. rewrite u32_small by (rewrite Z.shiftr_div_pow2 by lia; zdm). pose proof (Z.log2_shiftr x 32 ltac:(lia)) as ->.
  pose proof (Z.log2_le_pow2 x 32 ltac:(lia)). rewrite Z.shiftr_div_pow2 by lia. split; [zdm|lia].
Qed.
Lemma high_zero x : 0 < x < 2 ^ 32 -> u32 (Z.shiftr x 32) = 0 /\ u32 x = x.
Proof. intros Hx. rewrite Z.shiftr_div_pow2 by lia. zdm. Qed.
Lemma normal_shift_spec p m : 0 < m < 2 ^ width p -> normal_shift p m = width p - 1 - Z.log2 m.
Proof.
  destruct p; cbn [width normal_shift]; intros Hm; cbv zeta; [rewrite fls_spec by done; lia|].
  destruct (Z.le_gt_cases (2 ^ 32) m).
  - destruct (log2_high m) as [H1 H2]; [lia|]. rewrite fls_spec, H2 by done. pose proof (log2_top _ H1).
    destruct (Z.eqb_spec (32 - (Z.log2 m - 32 + 1)) 32); [|lia]. pose proof (Z.log2_nonneg (u32 (Z.shiftr m 32))). lia.
  - destruct (high_zero m) as [-> ->]; [lia|]. rewrite (fls_spec m) by lia. change (fls 0) with 0. destruct (Z.eqb_spec (32 - 0) 32); lia.
Qed.
Lemma denormal_bits_spec p m : 0 < m < 2 ^ (width p - 1) -> denormal_bits p m = width p - 2 - Z.log2 m.
Proof.
  destruct p; cbn [width denormal_bits]; intros Hm; cbv zeta; [rewrite fls_spec by lia; lia|].
  destruct (Z.le_gt_cases (2 ^ 32) m).
  - destruct (log2_high m) as [H1 H2]; [lia|]. rewrite fls_spec, H2 by done. pose proof (log2_top _ H1).
    destruct (Z.eqb_spec (31 - (Z.log2 m - 32 + 1)) 31); [|lia]. pose proof (Z.log2_nonneg (u32 (Z.shiftr m 32))). lia.
  - destruct (high_zero m) as [-> ->]; [lia|]. rewrite (fls_spec m) by lia. change (fls 0) with 0. destruct (Z.eqb_spec (31 - 0) 31); lia.
Qed.

(** ** Jamming *)

Lemma uint_small p x : 0 <= x < 2 ^ width p -> uint p x = x.
Proof. apply Z.mod_small. Qed.
Lemma jamming_spec p m k : 0 <= m < 2 ^ width p -> 0 <= k -> vfp_shiftrightjamming p m k = jam m k.
Proof.
  intros Hm Hk. unfold vfp_shiftrightjamming, jam. assert (Hw : 0 < width p) by (by destruct p).
  destruct (Z.eqb_spec k 0) as [-> |]; [rewrite Z.mod_1_r, Z.div_1_r; cbn; by rewrite Z.lor_0_r|].
  destruct (Z.ltb_spec k (width p)).
  - rewrite Z.shiftr_div_pow2, Z.shiftl_mul_pow2 by lia. unfold uint, wrap.
    replace (2 ^ width p) with (2 ^ k * 2 ^ (width p - k)) by (rewrite <- Z.pow_add_r by lia; f_equal; lia).
    rewrite Z.mul_mod_distr_r by lia. assert (0 < 2 ^ (width p - k)) by lia. do 3 f_equal.
    destruct (Z.eqb_spec (m mod 2 ^ k) 0) as [-> |]; [done|]. apply Z.eqb_neq. nia.
  - assert (2 ^ width p <= 2 ^ k) by (apply Z.pow_le_mono_r; lia). by rewrite Z.div_small, Z.mod_small by lia.
Qed.

(** ** The rounding increment *)

Definition sign_bit (neg : bool) : Z := if neg then 0x8000 else 0.
(** The unit of the rounded number in a normalised significand. *)
Definition unit_ (p : precision) : Z := 2 ^ (LOW_BITS p + 1).

Lemma rmode_cases fpscr (P : Z -> rounding -> Prop) :
  P FPSCR_ROUND_NEAREST ToNearest -> P FPSCR_ROUND_PLUSINF ToPlusInf -> P FPSCR_ROUND_MINUSINF ToMinusInf -> P FPSCR_ROUND_TOZERO ToZero ->
  P (Z.land fpscr FPSCR_RMODE_MASK) (rounding_of fpscr).
Proof.
  intros P0 P1 P2 P3. unfold rounding_of.
  assert (E : Z.land fpscr FPSCR_RMODE_MASK = Z.shiftl (Z.land (Z.shiftr fpscr 22) 3) 22).
  { apply Z.bits_inj'. intros i Hi.
    change FPSCR_RMODE_MASK with (Z.shiftl 3 22). rewrite !Z.land_spec, !Z.shiftl_spec by lia. destruct (Z.le_gt_cases 22 i).
    - rewrite Z.land_spec, Z.shiftr_spec by lia. by replace (i - 22 + 22) with i by lia.
    - rewrite !(Z.testbit_neg_r _ (i - 22)) by lia. apply andb_false_r. }
  rewrite E. change 3 with (Z.ones 2) at 1. change 3 with (Z.ones 2). rewrite Z.land_ones by lia.
  pose proof (Z.mod_pos_bound (Z.shiftr fpscr 22) (2 ^ 2) ltac:(lia)) as Hr. change (2 ^ 2) with 4 in *.
  set (r := Z.shiftr fpscr 22 mod 4) in *. clearbody r.
  assert (r = 0 \/ r = 1 \/ r = 2 \/ r = 3) as [-> | [-> | [-> | ->]]] by lia; done.
Qed.

(** The increment, with nothing left of it for a number that is not to grow. *)
Definition increment_of (p : precision) (mode : rounding) (neg : bool) (m : Z) : Z :=
  match mode with
  | ToNearest => if Z.even (m / unit_ p) then unit_ p / 2 - 1 else unit_ p / 2
  | _ => if outward mode neg then unit_ p - 1 else 0
  end.
Lemma increment_spec p fpscr neg m : rounding_increment p (Z.land fpscr FPSCR_RMODE_MASK) (sign_bit neg) m = increment_of p (rounding_of fpscr) neg m.
Proof.
  apply (rmode_cases fpscr (fun r mode => rounding_increment p r (sign_bit neg) m = increment_of p mode neg m));
    unfold rounding_increment, increment_of; rewrite ?land_bit_even by (by destruct p); by destruct p, neg.
Qed.

Lemma unit_half p : unit_ p = 2 * (unit_ p / 2) /\ 1 < unit_ p / 2.
Proof. by destruct p. Qed.
Lemma increment_bound p mode neg m : 0 <= increment_of p mode neg m < unit_ p.
Proof. pose proof (unit_half p). unfold increment_of. destruct mode; [destruct (Z.even _)|destruct (outward _ neg)..]; lia. Qed.
Lemma even_mod x : Z.even x = (x mod 2 =? 0).
Proof. apply Zeven_mod. Qed.
Lemma increment_rounds p mode neg m : 0 <= m -> (m + increment_of p mode neg m) / unit_ p = round_fraction mode neg m (unit_ p).
Proof.
  intros Hm. unfold round_fraction, increment_of. destruct (unit_half p) as [Hu Hu2]. set (u := unit_ p) in *. pose proof (Z.div_mod m u ltac:(lia)) as Hd. pose proof (Z.mod_pos_bound m u ltac:(lia)) as Hr.
  set (q := m / u) in *. set (r := m mod u) in *. set (h := u / 2) in *. clearbody q r h u.
  assert (Hq : forall x k, 0 <= r + x - k * u < u -> (m + x) / u = q + k).
  { intros x k Hx. symmetry. apply Z.div_unique with (r + x - k * u); [lia|]. rewrite Hd. ring. }
  destruct mode; cbn [outward].
  - destruct (Z.compare_spec (2 * r) u); destruct (Z.even q); try (rewrite (Hq _ 1) by lia; lia); rewrite (Hq _ 0) by lia; lia.
  - destruct neg; cbn; [rewrite (Hq _ 0) by lia; rewrite orb_true_r; lia|]. rewrite orb_false_r.
    destruct (Z.eqb_spec r 0); [rewrite (Hq _ 0) by lia|rewrite (Hq _ 1) by lia]; lia.
  - destruct neg; cbn; [|rewrite (Hq _ 0) by lia; rewrite orb_true_r; lia]. rewrite orb_false_r.
    destruct (Z.eqb_spec r 0); [rewrite (Hq _ 0) by lia|rewrite (Hq _ 1) by lia]; lia.
  - rewrite orb_true_r, (Hq _ 0) by lia. lia.
Qed.

(** ** Packing *)

Definition signed_bits (p : precision) (neg : bool) (bits : Z) : Z := Z.b2z neg * 2 ^ (width p - 1) + bits.
Lemma pack_spec p e neg m bits : bits = e * 2 ^ MANTISSA_BITS p + m / 2 ^ LOW_BITS p -> 0 <= bits < 2 ^ (width p - 1) ->
  vfp_pack p (mk_unpacked e (sign_bit neg) m) = signed_bits p neg bits.
Proof.
  intros Hb Hr. unfold vfp_pack, signed_bits, uint, wrap. cbn [sign exponent significand].
  rewrite !Z.shiftl_mul_pow2, Z.shiftr_div_pow2 by (by destruct p). rewrite <- Z.add_assoc, <- Hb.
  assert (E : sign_bit neg * 2 ^ (width p - 16) = Z.b2z neg * 2 ^ (width p - 1)) by (by destruct p, neg).
  rewrite E. apply Z.mod_small. assert (2 ^ width p = 2 * 2 ^ (width p - 1)) by (by destruct p). destruct neg; cbn [Z.b2z]; lia.
Qed.
Lemma unit_low p : unit_ p = 2 * 2 ^ LOW_BITS p.
Proof. by destruct p. Qed.
Lemma half_div p m : m / 2 / 2 ^ LOW_BITS p = m / unit_ p.
Proof. rewrite Z.div_div by (by destruct p). by rewrite unit_low. Qed.

(** A significand that carries out of its word: half of it, its lowest bit kept. *)
Lemma sticky_half m : 0 <= m -> Z.lor (Z.shiftr m 1) (Z.land m 1) = m / 2 + Z.b2z (negb (m mod 2 =? 0) && Z.even (m / 2)).
Proof.
  intros Hm. rewrite Z.shiftr_div_pow2 by lia. change (2 ^ 1) with 2. change 1 with (Z.ones 1). rewrite Z.land_ones by lia. change (2 ^ 1) with 2.
  pose proof (Z.mod_pos_bound m 2 ltac:(lia)). destruct (Z.eqb_spec (m mod 2) 0) as [-> |]; [by rewrite Z.lor_0_r, Z.add_0_r|].
  replace (m mod 2) with 1 by lia. rewrite lor_1 by (apply Z.div_pos; lia). destruct (Z.even (m / 2)); cbn; lia.
Qed.

(** ** From the increment to the packed number *)

Lemma numbers p : 0 < LOW_BITS p /\ 2 ^ width p = 2 * 2 ^ MANTISSA_BITS p * unit_ p /\ 2 ^ (width p - 1) = 2 ^ MANTISSA_BITS p * unit_ p /\
  1 < 2 ^ MANTISSA_BITS p /\ max_exponent p * 2 ^ MANTISSA_BITS p < 2 ^ (width p - 1) /\ 2 < max_exponent p < 3000.
Proof. by destruct p. Qed.

(** A number beyond the largest: infinity, or the largest when nothing is added to it. *)
Lemma overflow_pack p neg incr : 
  vfp_pack p (if incr =? 0 then mk_unpacked (max_exponent p - 2) (sign_bit neg) (Z.shiftl 1 (width p - 1) - 1)
              else mk_unpacked (max_exponent p) (sign_bit neg) 0) =
  signed_bits p neg (max_exponent p * 2 ^ MANTISSA_BITS p - Z.b2z (incr =? 0)).
Proof. destruct (incr =? 0); (apply pack_spec; [by destruct p|by destruct p]). Qed.
Lemma limit_over p mode neg m bits : max_exponent p * 2 ^ MANTISSA_BITS p <= bits ->
  limit p mode neg bits = max_exponent p * 2 ^ MANTISSA_BITS p - Z.b2z (increment_of p mode neg m =? 0).
Proof.
  intros Hb. unfold limit. destruct (Z.leb_spec (max_exponent p * 2 ^ MANTISSA_BITS p) bits); [|lia].
  pose proof (unit_half p). unfold increment_of. destruct mode; [destruct (Z.even _)|destruct (outward _ neg)..];
    match goal with |- context [?x =? 0] => destruct (Z.eqb_spec x 0) end; cbn [Z.b2z]; lia.
Qed.
Lemma limit_under p mode neg bits : bits < max_exponent p * 2 ^ MANTISSA_BITS p -> limit p mode neg bits = bits.
Proof. intros Hb. unfold limit. destruct (Z.leb_spec (max_exponent p * 2 ^ MANTISSA_BITS p) bits); [lia|done]. Qed.

Lemma sticky_carry p mode neg m : 0 <= m < 2 ^ width p -> 2 ^ width p <= m + increment_of p mode neg m ->
  2 ^ (width p - 1) <= Z.lor (Z.shiftr m 1) (Z.land m 1) + Z.shiftr (increment_of p mode neg m) 1 < 2 ^ (width p - 1) + unit_ p /\
  0 < Z.shiftr (increment_of p mode neg m) 1.
Proof.
  intros Hm Hc. rewrite sticky_half, Z.shiftr_div_pow2 by lia. change (2 ^ 1) with 2.
  assert (Hs : increment_of p mode neg m ∈ [0; unit_ p / 2 - 1; unit_ p / 2; unit_ p - 1]).
  { unfold increment_of. destruct mode; [destruct (Z.even _)|destruct (outward _ neg)..]; set_solver. }
  rewrite !elem_of_cons, elem_of_nil in Hs.
  assert (Hb : 0 <= Z.b2z (negb (m mod 2 =? 0) && Z.even (m / 2)) <= 1 /\
    (m mod 2 = 1 -> (m / 2) mod 2 = 0 -> Z.b2z (negb (m mod 2 =? 0) && Z.even (m / 2)) = 1)).
  { rewrite even_mod. split; [by destruct (_ && _)|]. by intros -> ->. }
  set (incr := increment_of p mode neg m) in *. set (c := Z.b2z _) in *. clearbody incr c. destruct Hb as [Hb1 Hb2].
  pose proof (Z.div_mod m 2 ltac:(lia)). pose proof (Z.mod_pos_bound m 2 ltac:(lia)).
  pose proof (Z.div_mod (m / 2) 2 ltac:(lia)). pose proof (Z.mod_pos_bound (m / 2) 2 ltac:(lia)).
  pose proof (Z.div_mod incr 2 ltac:(lia)). pose proof (Z.mod_pos_bound incr 2 ltac:(lia)).
  destruct p; cbn [width] in *; [change (unit_ single) with 256 in *|change (unit_ double) with 2048 in *];
    [change (256 / 2) with 128 in *|change (2048 / 2) with 1024 in *]; lia.
Qed.
Lemma final_pack p e neg x : 0 <= e < max_exponent p - 1 -> 0 <= x < 2 ^ width p -> (x / unit_ p = 0 -> e = 0) ->
  vfp_pack p (mk_unpacked (s16 (if Z.shiftr x (LOW_BITS p + 1) =? 0 then 0 else e)) (sign_bit neg) (Z.shiftr x 1)) =
  signed_bits p neg (e * 2 ^ MANTISSA_BITS p + x / unit_ p).
Proof.
  intros He Hx Hz. destruct (numbers p) as (HL & HW & HW1 & HM & Hinf & Hmax).
  rewrite !Z.shiftr_div_pow2 by lia. change (2 ^ (LOW_BITS p + 1)) with (unit_ p).
  assert (Hu : 0 < unit_ p) by (by destruct p). assert (Hk : 0 <= x / unit_ p < 2 * 2 ^ MANTISSA_BITS p).
  { split; [apply Z.div_pos; lia|]. apply Z.div_lt_upper_bound; lia. }
  replace (if x / unit_ p =? 0 then 0 else e) with e by (destruct (Z.eqb_spec (x / unit_ p) 0); [by apply Hz|done]).
  assert (Hs : s16 e = e) by zdm. rewrite Hs. change (2 ^ 1) with 2. apply pack_spec; [by rewrite half_div|]. split; [nia|].
  apply Z.le_lt_trans with (max_exponent p * 2 ^ MANTISSA_BITS p); [nia|done].
Qed.
Lemma round_normal_bits p e neg m uf fpscr exceptions :
  0 <= e -> 0 <= m < 2 ^ width p -> 2 ^ (width p - 1) <= m \/ e = 0 ->
  (round_normal p e (sign_bit neg) m uf fpscr exceptions).1 =
  signed_bits p neg (limit p (rounding_of fpscr) neg (e * 2 ^ MANTISSA_BITS p + round_fraction (rounding_of fpscr) neg m (unit_ p))).
Proof.
  intros He Hm Hn. unfold round_normal. rewrite increment_spec. set (mode := rounding_of fpscr).
  pose proof (increment_bound p mode neg m) as Hi. rewrite <- increment_rounds by lia. pose proof (limit_over p mode neg m) as Hover.
  pose proof (sticky_carry p mode neg m Hm) as Hcarry.
  destruct (numbers p) as (HL & HW & HW1 & HM & Hinf & Hmax). set (incr := increment_of p mode neg m) in *.
  pose proof (unit_half p). set (u := unit_ p) in *. set (T := 2 ^ MANTISSA_BITS p) in *. assert (Hu : 0 < u) by lia.
  destruct (Z.ltb_spec (uint p (m + incr)) m) as [Hc|Hc].
  - assert (Hle : 2 ^ width p <= m + incr).
    { apply Z.nlt_ge. intros Hlt. rewrite uint_small in Hc by lia. lia. }
    destruct (Hcarry Hle) as [Hm' Hi']. assert (Hn' : (m + incr) / u = 2 * T) by (symmetry; apply Z.div_unique with (m + incr - 2 ^ width p); nia).
    rewrite Hn'. set (m' := Z.lor (Z.shiftr m 1) (Z.land m 1)) in *. set (incr' := Z.shiftr incr 1) in *.
    rewrite (uint_small p (m' + incr')) by nia. assert (Hx : (m' + incr') / u = T) by (symmetry; apply Z.div_unique with (m' + incr' - T * u); nia).
    destruct (Z.leb_spec (max_exponent p - 1) (e + 1)); cbn [fst].
    + assert ((max_exponent p - 2) * T <= e * T) by (apply Z.mul_le_mono_nonneg_r; lia).
      rewrite Hover, overflow_pack by lia. destruct (Z.eqb_spec incr' 0), (Z.eqb_spec incr 0); try done; lia.
    + assert (e * T <= (max_exponent p - 3) * T) by (apply Z.mul_le_mono_nonneg_r; lia).
      rewrite limit_under by lia. assert (0 <= m' + incr' < 2 ^ width p) by nia.
      rewrite final_pack; fold u; [|lia..]. fold T. rewrite Hx. f_equal. lia.
  - assert (Hlt : m + incr < 2 ^ width p).
    { assert (u < 2 ^ width p) by nia. apply Z.nle_gt. intros Hle. unfold uint, wrap in Hc. rewrite <- (Z.mod_unique_pos (m + incr) (2 ^ width p) 1 (m + incr - 2 ^ width p)) in Hc; lia. }
    rewrite (uint_small p (m + incr)) by lia.
    assert (Hk : 0 <= (m + incr) / u < 2 * T) by (split; [apply Z.div_pos; lia|apply Z.div_lt_upper_bound; lia]).
    assert (Ht : 2 ^ (width p - 1) <= m -> T <= (m + incr) / u) by (intros; apply Z.div_le_lower_bound; lia).
    destruct (Z.leb_spec (max_exponent p - 1) e); cbn [fst].
    + assert ((max_exponent p - 1) * T <= e * T) by (apply Z.mul_le_mono_nonneg_r; lia).
      rewrite Hover, overflow_pack by lia. done.
    + assert (e * T <= (max_exponent p - 2) * T) by (apply Z.mul_le_mono_nonneg_r; lia).
      rewrite limit_under by lia. rewrite final_pack; fold u; [done|lia..].
Qed.

(** ** Numbers of any size *)

Lemma flush_bit fpscr : has fpscr FPSCR_FLUSH_TO_ZERO = flushes fpscr.
Proof. unfold has, flushes. change FPSCR_FLUSH_TO_ZERO with (2 ^ 24). rewrite land_bit by lia. by destruct (Z.testbit fpscr 24). Qed.

Lemma tiny_kept p e sgn m fpscr exceptions : flushes fpscr && (e <? 0) = false -> 0 <= m < 2 ^ width p ->
  exists uf exceptions', tiny p e sgn m fpscr exceptions = (Z.max e 0, sgn, jam m (Z.max (- e) 0), uf, exceptions').
Proof.
  intros Hf Hm. unfold tiny. rewrite flush_bit. destruct (Z.ltb_spec e 0).
  - rewrite andb_true_r in Hf. rewrite Hf, andb_false_r. rewrite jamming_spec by lia. rewrite Z.max_r, Z.max_l by lia. eauto.
  - rewrite Z.max_l, Z.max_r by lia. assert (jam m 0 = m) as ->; [|eauto]. rewrite jam_cases by lia. by rewrite Z.mod_1_r, Z.div_1_r.
Qed.
Lemma jam_bound m k w : 0 <= m < 2 ^ w -> 0 <= k -> 0 < w -> 0 <= jam m k < 2 ^ w.
Proof.
  intros Hm Hk Hw. rewrite jam_cases by lia. assert (0 < 2 ^ k) by lia. assert (0 <= m / 2 ^ k) by (apply Z.div_pos; lia).
  assert (Hle : m / 2 ^ k <= m) by (apply Z.div_le_upper_bound; nia). destruct (Z.eqb_spec (m mod 2 ^ k) 0); [lia|].
  destruct (Z.even (m / 2 ^ k)) eqn:E; [|lia]. assert (He : Z.even (2 ^ w) = true) by (rewrite Z.even_pow by lia; done).
  destruct (Z.eq_dec (m / 2 ^ k + 1) (2 ^ w)) as [Heq|]; [|lia]. rewrite <- Heq, Z.add_1_r, Z.even_succ, <- Z.negb_even, E in He. done.
Qed.

(** A number that is too small is flushed. *)
Lemma jam_not_zero m k : 0 < m -> 0 <= k -> jam m k ≠ 0.
Proof.
  intros Hm Hk. rewrite jam_cases by lia. pose proof (Z.div_mod m (2 ^ k) ltac:(lia)). assert (0 <= m / 2 ^ k) by (apply Z.div_pos; lia).
  destruct (Z.eqb_spec (m mod 2 ^ k) 0); [intros E; rewrite E in *; lia|]. destruct (Z.even (m / 2 ^ k)) eqn:E; [lia|]. intros E0. by rewrite E0 in E.
Qed.
Lemma tiny_flushed p e sgn m fpscr exceptions : flushes fpscr = true -> e < 0 -> 0 < m < 2 ^ width p ->
  tiny p e sgn m fpscr exceptions = (0, 0, 0, false, Z.lor exceptions FPSCR_UFC).
Proof.
  intros Hf He Hm. unfold tiny. rewrite flush_bit, Hf, (proj2 (Z.ltb_lt e 0)), jamming_spec by lia. pose proof (jam_not_zero m (- e) ltac:(lia) ltac:(lia)) as Hj.
  unfold vfp_type. cbn [exponent significand]. rewrite (proj2 (Z.eqb_neq (jam m (- e)) 0)) by done. by destruct p.
Qed.
Lemma round_zero p fpscr exceptions : (round_normal p 0 0 0 false fpscr exceptions).1 = 0.
Proof.
  pose proof (increment_spec p fpscr false 0) as E. change (sign_bit false) with 0 in E. unfold round_normal. rewrite E. unfold increment_of.
  destruct (rounding_of fpscr); by destruct p.
Qed.

(** A normalised significand that stands for the number is rounded as the number. *)
Lemma round_normalised p e neg m fpscr exceptions a b h : 2 ^ (width p - 1) <= m < 2 ^ width p ->
  0 <= h <= LOW_BITS p -> 0 < a -> 0 < b -> stands_for h m a b ->
  (let '(e, sgn, m, uf, exceptions) := tiny p e (sign_bit neg) m fpscr exceptions in round_normal p e sgn m uf fpscr exceptions).1 =
  round_flushing p fpscr neg a b (e - bias p - (width p - 2)).
Proof.
  intros Hm Hh Ha Hb Hs. destruct (numbers p) as (HL & HW & HW1 & HM & Hinf & Hmax).
  assert (Hw : 31 < width p /\ 0 < MANTISSA_BITS p) by (by destruct p). assert (Hpq : MANTISSA_BITS p + LOW_BITS p = width p - 2) by (unfold LOW_BITS; lia).
  assert (Hlog : ratlog2 a b = width p - 1).
  { apply (stands_log2 h m); try done; [lia|]. by replace (width p - 1 + 1) with (width p) by lia. }
  unfold round_flushing, subnormal. rewrite Hlog, (proj2 (Z.eqb_neq a 0)) by lia. cbn [negb andb].
  replace (width p - 1 + (e - bias p - (width p - 2)) <? 1 - bias p) with (e <? 0) by (destruct (Z.ltb_spec e 0); symmetry; [apply Z.ltb_lt|apply Z.ltb_ge]; lia).
  destruct (flushes fpscr && (e <? 0)) eqn:Hf; [apply andb_prop in Hf as [Hf He%Z.ltb_lt]; rewrite tiny_flushed by (done || lia); apply round_zero|].
  destruct (tiny_kept p e (sign_bit neg) m fpscr exceptions Hf ltac:(lia)) as (uf & exceptions' & ->).
  pose proof (jam_bound m (Z.max (- e) 0) (width p) ltac:(lia) ltac:(lia) ltac:(lia)) as Hj.
  rewrite round_normal_bits; [|lia|done|].
  2:{ destruct (Z.le_gt_cases 0 e); [left|right; lia]. rewrite Z.max_r by lia.
      assert (jam m 0 = m) as ->; [|lia]. rewrite jam_cases by lia. by rewrite Z.mod_1_r, Z.div_1_r. }
  unfold signed_bits, round_number, round_magnitude. destruct (Z.eqb_spec a 0); [lia|]. do 2 f_equal.
  rewrite Hlog. unfold lowest. replace (Z.max (1 - bias p - MANTISSA_BITS p) _) with (Z.max e 0 + (1 - bias p - MANTISSA_BITS p)) by lia.
  f_equal; [f_equal; lia|]. set (k := Z.max (- e) 0) in *.
  replace (e - bias p - (width p - 2) - (Z.max e 0 + (1 - bias p - MANTISSA_BITS p))) with (- (LOW_BITS p + 1 + k)) by lia.
  replace (Z.max e 0 + (1 - bias p - MANTISSA_BITS p) - (e - bias p - (width p - 2))) with (LOW_BITS p + 1 + k) by lia.
  unfold scale_num. rewrite (Z.max_l 0 (- _)), (Z.max_r 0 (LOW_BITS p + 1 + k)), Z.mul_1_r by lia.
  apply round_same_halves; [by destruct p|nia|]. replace (b * 2 ^ (LOW_BITS p + 1 + k)) with (b * 2 ^ k * 2 ^ (LOW_BITS p + 1)).
  2:{ rewrite (Z.pow_add_r _ (LOW_BITS p + 1) k) by lia. ring. }
  apply stands_halves with (h := Z.max 1 (h - k)); [lia|]. by apply jam_stands_for; [lia..|].
Qed.
Definition top_shift (p : precision) (m : Z) : Z := width p - 1 - Z.log2 m.
Lemma normaliseround_stands p v fpscr exceptions neg a b h : sign v = sign_bit neg -> 0 < significand v < 2 ^ width p ->
  exponent v ≠ max_exponent p \/ exceptions = 0 -> 0 <= h <= LOW_BITS p -> 0 < a -> 0 < b ->
  stands_for h (significand v * 2 ^ top_shift p (significand v)) (a * 2 ^ top_shift p (significand v)) b ->
  (vfp_normaliseround p v fpscr exceptions).1 = round_flushing p fpscr neg a b (exponent v - bias p - (width p - 2)).
Proof.
  intros Hsg Hm He Hh Ha Hb Hs. unfold vfp_normaliseround. assert (Hw : 31 < width p) by (by destruct p).
  destruct (Z.eqb_spec (significand v) 0); [lia|]. cbn [orb].
  replace ((exponent v =? max_exponent p) && negb (exceptions =? 0)) with false.
  2:{ destruct He as [He | ->]; [|by rewrite andb_false_r]. by destruct (Z.eqb_spec (exponent v) (max_exponent p)). }
  rewrite normal_shift_spec, Hsg by done. fold (top_shift p (significand v)). set (s := top_shift p (significand v)) in *.
  assert (Hlog : Z.log2 (significand v) < width p) by (apply Z.log2_lt_pow2; lia). pose proof (Z.log2_spec (significand v) ltac:(lia)) as [Hl Hh'].
  assert (Hs0 : s = width p - 1 - Z.log2 (significand v)) by done.
  assert (Hm' : 2 ^ (width p - 1) <= significand v * 2 ^ s < 2 ^ width p).
  { replace (width p - 1) with (Z.log2 (significand v) + s) by lia. replace (width p) with (Z.succ (Z.log2 (significand v)) + s) by lia.
    rewrite !Z.pow_add_r by (pose proof (Z.log2_nonneg (significand v)); lia). assert (0 < 2 ^ s) by lia. nia. }
  rewrite Z.shiftl_mul_pow2, uint_small by lia.
  rewrite (round_normalised p (exponent v - s) neg (significand v * 2 ^ s) fpscr exceptions (a * 2 ^ s) b h); [|done..|nia|done|done].
  replace (exponent v - s - bias p - (width p - 2)) with (exponent v - bias p - (width p - 2) - s) by lia.
  symmetry. apply round_shifted; lia.
Qed.
(** A significand that lost bits is still near the top; one that lost nothing may be anywhere. *)
Lemma normaliseround_rounds p v fpscr exceptions neg a b h : sign v = sign_bit neg -> 0 < significand v < 2 ^ width p ->
  exponent v ≠ max_exponent p \/ exceptions = 0 -> 0 <= h -> h + top_shift p (significand v) <= LOW_BITS p -> 0 < a -> 0 < b -> stands_for h (significand v) a b ->
  (vfp_normaliseround p v fpscr exceptions).1 = round_flushing p fpscr neg a b (exponent v - bias p - (width p - 2)).
Proof.
  intros Hsg Hm He Hh Hhs Ha Hb Hs. assert (0 <= top_shift p (significand v)).
  { unfold top_shift. assert (Z.log2 (significand v) < width p) by (apply Z.log2_lt_pow2; lia). lia. }
  apply (normaliseround_stands _ _ _ _ _ _ _ (h + top_shift p (significand v))); try done; [lia|by apply stands_shift; [lia..|]].
Qed.
Lemma normaliseround_exact p v fpscr exceptions neg b : sign v = sign_bit neg -> 0 < significand v < 2 ^ width p ->
  exponent v ≠ max_exponent p \/ exceptions = 0 -> 0 < b ->
  (vfp_normaliseround p v fpscr exceptions).1 = round_flushing p fpscr neg (significand v * b) b (exponent v - bias p - (width p - 2)).
Proof.
  intros Hsg Hm He Hb. apply (normaliseround_stands _ _ _ _ _ _ _ 0); try done; [by destruct p|nia|].
  replace (significand v * b * 2 ^ top_shift p (significand v)) with (significand v * 2 ^ top_shift p (significand v) * b) by ring. by apply stands_exact.
Qed.

(** ** Unpacking *)

Lemma fields p : width p = 1 + EXPONENT_BITS p + MANTISSA_BITS p /\ max_exponent p = 2 ^ EXPONENT_BITS p - 1 /\
  2 ^ (width p - 1) = 2 ^ EXPONENT_BITS p * 2 ^ MANTISSA_BITS p /\ 2 ^ (width p - 2) = 2 ^ MANTISSA_BITS p * 2 ^ LOW_BITS p /\
  LOW_BITS p = width p - MANTISSA_BITS p - 2 /\ 0 < MANTISSA_BITS p < 100 /\ 0 < EXPONENT_BITS p /\ 31 < width p < 100 /\ 6 < LOW_BITS p < 100 /\ 0 < bias p < 1100.
Proof. by destruct p. Qed.
Lemma s16_small z : - 2 ^ 15 <= z < 2 ^ 15 -> s16 z = z.
Proof. intros. zdm. Qed.
Lemma packed_exponent_spec p v : packed_exponent p v = exponent_field p v.
Proof.
  unfold packed_exponent, exponent_field. rewrite Z.shiftr_div_pow2, Z.shiftl_1_l by (by destruct p).
  replace (2 ^ EXPONENT_BITS p - 1) with (Z.ones (EXPONENT_BITS p)) by (by destruct p). apply Z.land_ones. by destruct p.
Qed.
Lemma exponent_range p v : 0 <= exponent_field p v <= max_exponent p.
Proof. destruct (fields p) as (_ & -> & _). pose proof (Z.mod_pos_bound (v / 2 ^ MANTISSA_BITS p) (2 ^ EXPONENT_BITS p)). unfold exponent_field. destruct p; cbn -[Z.pow] in *; lia. Qed.
Lemma packed_sign_spec p v : 0 <= v < 2 ^ width p -> Z.shiftr (packed_sign p v) (width p - 16) = sign_bit (negative p v).
Proof.
  intros Hv. unfold packed_sign, negative. pose proof (top_bit (width p) v ltac:(by destruct p) Hv) as <-.
  rewrite Z.shiftl_1_l, land_bit by (by destruct p). by destruct (Z.testbit v (width p - 1)), p.
Qed.
Lemma significand_spec p v : 0 <= v -> Z.shiftr (uint p (Z.shiftl v (width p - MANTISSA_BITS p))) 2 = v mod 2 ^ MANTISSA_BITS p * 2 ^ LOW_BITS p.
Proof.
  intros Hv. destruct (fields p) as (HW & Hmax & H1 & H2 & HL & HM & HE & Hw & HL' & Hb). unfold uint, wrap.
  rewrite Z.shiftl_mul_pow2, Z.shiftr_div_pow2 by lia.
  replace (2 ^ width p) with (2 ^ MANTISSA_BITS p * 2 ^ (width p - MANTISSA_BITS p)) by (rewrite <- Z.pow_add_r by lia; f_equal; lia).
  rewrite Z.mul_mod_distr_r by lia. replace (2 ^ (width p - MANTISSA_BITS p)) with (2 ^ LOW_BITS p * 2 ^ 2) by (rewrite <- Z.pow_add_r by lia; f_equal; lia).
  rewrite Z.mul_assoc. apply Z.div_mul. lia.
Qed.
Lemma lor_add k a b : 0 <= k -> 0 <= a < 2 ^ k -> Z.lor a (b * 2 ^ k) = a + b * 2 ^ k.
Proof. intros Hk Ha. rewrite <- (lor_shiftl_add k a b) by lia. by rewrite Z.shiftl_mul_pow2 by lia. Qed.

(** What the operations get: the number of the bits with its highest bit just below the top of the word. *)
Record unpacks (p : precision) (v : Z) (u : unpacked) (s : Z) : Prop := {
  unpacks_sign : sign u = sign_bit (negative p v);
  unpacks_shift : 0 <= s;
  unpacks_significand : significand u = mantissa p v * 2 ^ s;
  unpacks_exponent : exponent u - bias p - (width p - 2) = weight p v - s;
  unpacks_range : - MANTISSA_BITS p <= exponent u < max_exponent p;
  unpacks_normal : 2 ^ (width p - 2) <= significand u < 2 ^ (width p - 1);
  unpacks_low : LOW_BITS p <= s }.
Lemma unpack_zero p v fpscr : 0 <= v < 2 ^ width p -> finite p v = true -> mantissa p v = 0 ->
  vfp_unpack_normal p v fpscr = (mk_unpacked 0 (sign_bit (negative p v)) 0, 0) /\
  vfp_unpack p v fpscr = (mk_unpacked 0 (sign_bit (negative p v)) 0, 0).
Proof.
  intros Hv Hf Hz. unfold vfp_unpack_normal, vfp_unpack. rewrite packed_exponent_spec, packed_sign_spec, significand_spec by lia.
  unfold mantissa in Hz. pose proof (Z.mod_pos_bound v (2 ^ MANTISSA_BITS p) ltac:(by destruct p)).
  assert (0 < 2 ^ MANTISSA_BITS p) by (by destruct p).
  destruct (Z.eqb_spec (exponent_field p v) 0) as [He|]; [|lia]. rewrite Z.add_0_r in Hz. rewrite He, Hz. destruct (has fpscr _); by destruct p.
Qed.
(** What flushing an operand leaves. *)
Lemma unpack_flushed p v fpscr : 0 <= v < 2 ^ width p -> finite p v = true -> operand p fpscr v ≠ v ->
  vfp_unpack p v fpscr = (mk_unpacked 0 0 0, FPSCR_IDC) /\ operand p fpscr v = 0.
Proof.
  intros Hv Hf Ho. unfold operand in *. destruct (flushes fpscr && (exponent_field p v =? 0) && negb (mantissa p v =? 0)) eqn:E; [|done]. split; [|done].
  apply andb_prop in E as [[Hfl He%Z.eqb_eq]%andb_prop Hm%negb_true_iff%Z.eqb_neq].
  unfold vfp_unpack. rewrite packed_exponent_spec, packed_sign_spec, significand_spec, flush_bit, Hfl, He by lia.
  unfold mantissa in Hm. rewrite He, Z.eqb_refl, Z.add_0_r in Hm. cbn [Z.eqb negb andb]. unfold vfp_type. cbn [exponent significand].
  assert (v mod 2 ^ MANTISSA_BITS p * 2 ^ LOW_BITS p ≠ 0) by (assert (0 < 2 ^ LOW_BITS p) by (by destruct p); nia).
  rewrite (proj2 (Z.eqb_neq (_ * _) 0)) by done. by destruct p.
Qed.
Lemma not_flushed p v fpscr sgn m : finite p v = true -> mantissa p v ≠ 0 -> operand p fpscr v = v ->
  has fpscr FPSCR_FLUSH_TO_ZERO && has (vfp_type p (mk_unpacked (exponent_field p v) sgn m)) VFP_DENORMAL = false.
Proof.
  intros Hf Hm Ho. rewrite flush_bit. destruct (flushes fpscr) eqn:Hfl; [|done]. unfold operand in Ho. rewrite Hfl, (proj2 (Z.eqb_neq (mantissa p v) 0)) in Ho by done.
  cbn [andb negb] in *. rewrite andb_true_r in Ho. destruct (Z.eqb_spec (exponent_field p v) 0); [subst v; by destruct p|].
  unfold vfp_type, finite in *. cbn [exponent]. destruct (exponent_field p v =? max_exponent p); [done|].
  rewrite (proj2 (Z.eqb_neq (exponent_field p v) 0)) by done. done.
Qed.
Lemma unpack_number p v fpscr : 0 <= v < 2 ^ width p -> finite p v = true -> mantissa p v ≠ 0 -> operand p fpscr v = v ->
  exists u s, vfp_unpack_normal p v fpscr = (u, 0) /\ unpacks p v u s.
Proof.
  intros Hv Hf Hz Hn. unfold vfp_unpack_normal, vfp_unpack. rewrite packed_exponent_spec, packed_sign_spec, significand_spec, not_flushed by (done || lia).
  destruct (fields p) as (HW & Hmax & H1 & H2 & HL & HM & HE & Hw & HL' & Hb). pose proof (exponent_range p v) as Her.
  unfold mantissa in Hz. pose proof (Z.mod_pos_bound v (2 ^ MANTISSA_BITS p) ltac:(lia)) as Hfr. set (f := v mod 2 ^ MANTISSA_BITS p) in *.
  assert (Hne : exponent_field p v ≠ max_exponent p) by (unfold finite in Hf; by destruct (Z.eqb_spec (exponent_field p v) (max_exponent p))).
  assert (Hm : mantissa p v = f + (if exponent_field p v =? 0 then 0 else 2 ^ MANTISSA_BITS p)) by done.
  assert (Hwt : weight p v = Z.max 1 (exponent_field p v) - 1 + (1 - bias p - MANTISSA_BITS p)) by done.
  destruct (Z.eqb_spec (exponent_field p v) (max_exponent p)); [done|]. cbn [negb andb exponent significand].
  destruct (Z.eqb_spec (exponent_field p v) 0) as [He|He]; cbn [negb andb].
  - rewrite Z.add_0_r in *. assert (Hpos : 0 < f * 2 ^ LOW_BITS p) by nia.
    destruct (Z.eqb_spec (f * 2 ^ LOW_BITS p) 0); [lia|]. cbn [negb]. unfold vfp_normalise_denormal. cbn [exponent significand].
    assert (Hlt : f * 2 ^ LOW_BITS p < 2 ^ (width p - 2)) by nia.
    rewrite denormal_bits_spec by (split; [done|]; apply Z.lt_trans with (2 ^ (width p - 2)); [done|apply Z.pow_lt_mono_r; lia]).
    assert (Hl2 : Z.log2 (f * 2 ^ LOW_BITS p) < width p - 2) by (apply Z.log2_lt_pow2; lia).
    pose proof (Z.log2_spec (f * 2 ^ LOW_BITS p) ltac:(lia)) as [Ll Lh]. pose proof (Z.log2_nonneg (f * 2 ^ LOW_BITS p)).
    assert (Hll : LOW_BITS p <= Z.log2 (f * 2 ^ LOW_BITS p)) by (apply Z.log2_le_pow2; nia).
    set (bits := width p - 2 - Z.log2 (f * 2 ^ LOW_BITS p)) in *. destruct (Z.eqb_spec bits 0); [lia|].
    assert (Hmul : 2 ^ (width p - 2) <= f * 2 ^ LOW_BITS p * 2 ^ bits < 2 ^ (width p - 1)).
    { replace (width p - 2) with (Z.log2 (f * 2 ^ LOW_BITS p) + bits) by lia.
      replace (width p - 1) with (Z.succ (Z.log2 (f * 2 ^ LOW_BITS p)) + bits) by lia. rewrite !Z.pow_add_r by lia. nia. }
    exists (mk_unpacked (1 - bits) (sign_bit (negative p v)) (f * 2 ^ LOW_BITS p * 2 ^ bits)), (LOW_BITS p + bits). split.
    + assert (2 ^ (width p - 1) < 2 ^ width p) by (apply Z.pow_lt_mono_r; lia).
      unfold with_significand, with_exponent. cbn [exponent sign significand]. rewrite Z.shiftl_mul_pow2, uint_small by lia.
      rewrite He. rewrite s16_small by lia. do 2 f_equal. lia.
    + constructor; cbn [exponent sign significand]; try lia. rewrite Hm, Z.pow_add_r by lia. ring.
  - rewrite Z.shiftl_1_l. replace (2 ^ (width p - 2)) with (1 * 2 ^ (width p - 2)) by lia.
    rewrite lor_add, H2 by nia. exists (mk_unpacked (exponent_field p v) (sign_bit (negative p v)) ((f + 2 ^ MANTISSA_BITS p) * 2 ^ LOW_BITS p)), (LOW_BITS p).
    split; [do 2 f_equal; ring|]. constructor; cbn [exponent sign significand]; try (done || lia).
    assert (H3 : 2 ^ (width p - 1) = 2 * 2 ^ (width p - 2)) by (rewrite <- Z.pow_succ_r by lia; f_equal; lia). rewrite H3, H2. nia.
Qed.

End ArmFf.
