(* ===== verification/ArmFloatMul.v ===== *)
(** * Products of floating-point numbers

    The 128-bit arithmetic is exact, and a product of finite numbers is rounded once. *)
From S2P Require Import Prelude BitField ArmSupport ArmFloat ArmRounding ArmFloatFacts.

Module ArmFm.
Import Arm ArmFl ArmR ArmFf.

(** ** Double words *)

Lemma u64_range z : 0 <= u64 z < 2 ^ 64.
Proof. by apply wrap_range. Qed.
(** A sum of words carries when it is smaller than a term. *)
Lemma add_carries a b : 0 <= a < 2 ^ 64 -> 0 <= b < 2 ^ 64 -> u64 (a + b) + 2 ^ 64 * Z.b2z (u64 (a + b) <? b) = a + b.
Proof. intros Ha Hb. destruct (Z.ltb_spec (u64 (a + b)) b) as [H|H]; cbn [Z.b2z]; revert H; zdm. Qed.
Lemma mul64to128_spec n m : 0 <= n < 2 ^ 64 -> 0 <= m < 2 ^ 64 ->
  let '(rh, rl) := mul64to128 n m in rh * 2 ^ 64 + rl = n * m /\ 0 <= rh < 2 ^ 64 /\ 0 <= rl < 2 ^ 64.
Proof.
  intros Hn Hm. unfold mul64to128. rewrite !Z.shiftr_div_pow2 by lia.
  assert (En : n = u32 (n / 2 ^ 32) * 2 ^ 32 + u32 n /\ 0 <= u32 (n / 2 ^ 32) < 2 ^ 32 /\ 0 <= u32 n < 2 ^ 32) by (split; [zdm|split; apply u32_range]).
  assert (Em : m = u32 (m / 2 ^ 32) * 2 ^ 32 + u32 m /\ 0 <= u32 (m / 2 ^ 32) < 2 ^ 32 /\ 0 <= u32 m < 2 ^ 32) by (split; [zdm|split; apply u32_range]).
  set (nh := u32 (n / 2 ^ 32)) in *. set (nl := u32 n) in *. set (mh := u32 (m / 2 ^ 32)) in *. set (ml := u32 m) in *. clearbody nh nl mh ml.
  destruct En as (En & Hnh & Hnl), Em as (Em & Hmh & Hml).
  assert (P : forall x y, 0 <= x < 2 ^ 32 -> 0 <= y < 2 ^ 32 -> 0 <= x * y <= (2 ^ 32 - 1) * (2 ^ 32 - 1)) by (intros; nia).
  pose proof (P nl ml Hnl Hml) as P0. pose proof (P nh ml Hnh Hml) as P1. pose proof (P nl mh Hnl Hmh) as P2. pose proof (P nh mh Hnh Hmh) as P3.
  rewrite !(u64_small (_ * _)) by lia. set (rl0 := nl * ml) in *. set (a := nh * ml) in *. set (b := nl * mh) in *. set (c := nh * mh) in *.
  assert (Et : n * m = c * 2 ^ 64 + (a + b) * 2 ^ 32 + rl0) by (subst; unfold rl0, a, b, c; ring). clearbody rl0 a b c. clear P En Em.
  pose proof (add_carries a b ltac:(lia) ltac:(lia)) as C1. set (r := u64 (a + b)) in *. set (k1 := Z.b2z (r <? b)) in *.
  assert (Hk1 : 0 <= k1 <= 1) by (unfold k1; by destruct (_ <? _)). pose proof (u64_range (a + b)) as Hr. fold r in Hr. clearbody r k1.
  rewrite !Z.shiftl_mul_pow2 by lia. set (s := u64 (r * 2 ^ 32)). assert (Hs : r * 2 ^ 32 = (r / 2 ^ 32) * 2 ^ 64 + s /\ 0 <= s < 2 ^ 64 /\ 0 <= r / 2 ^ 32 < 2 ^ 32).
  { unfold s. split; [zdm|]. split; [apply u64_range|zdm]. }
  destruct Hs as (Es & Hs & Hq). set (q := r / 2 ^ 32) in *. clearbody q s.
  pose proof (add_carries rl0 s ltac:(lia) Hs) as C2. set (rl := u64 (rl0 + s)) in *. set (k2 := Z.b2z (rl <? s)) in *.
  assert (Hk2 : 0 <= k2 <= 1) by (unfold k2; by destruct (_ <? _)). pose proof (u64_range (rl0 + s)) as Hrl. fold rl in Hrl. clearbody rl k2.
  assert (Hfin : n * m = (c + (k1 * 2 ^ 32 + q) + k2) * 2 ^ 64 + rl) by lia.
  assert (Hnm : n * m < 2 ^ 128) by (apply Z.le_lt_trans with ((2 ^ 64 - 1) * (2 ^ 64 - 1)); [nia|lia]).
  assert (Hhi : 0 <= c + (k1 * 2 ^ 32 + q) + k2 < 2 ^ 64) by lia.
  rewrite (u64_small (k1 * 2 ^ 32 + q)), (u64_small (c + _)), (u64_small (_ + k2)) by lia. lia.
Qed.

(** ** The significand of a product *)

Lemma hi64to32_spec v : 0 <= v < 2 ^ 64 -> vfp_hi64to32jamming v = jam v 32.
Proof.
  intros Hv. unfold vfp_hi64to32jamming, jam. rewrite Z.shiftr_div_pow2 by lia. change 0xffffffff with (Z.ones 32). rewrite Z.land_ones by lia.
  pose proof (Z.mod_pos_bound v (2 ^ 32) ltac:(lia)). destruct (Z.leb_spec 1 (v mod 2 ^ 32)), (Z.eqb_spec (v mod 2 ^ 32) 0); try lia; [done|].
  by rewrite Z.lor_0_r.
Qed.
Lemma product_spec p n m : 0 <= n < 2 ^ (width p - 1) -> 0 <= m < 2 ^ (width p - 1) -> product p n m = jam (n * m) (width p).
Proof.
  intros Hn Hm. destruct p; cbn [product width] in *.
  - rewrite u64_small, hi64to32_spec by nia. done.
  - unfold vfp_hi64multiply64. pose proof (mul64to128_spec n m ltac:(lia) ltac:(lia)) as Hp. destruct (mul64to128 n m) as [rh rl].
    destruct Hp as (E & Hh & Hl). unfold jam. rewrite <- E. rewrite Z.div_add_l, (Z.add_comm (rh * _)), Z.mod_add, Z.div_small, Z.mod_small, Z.add_0_r by lia. done.
Qed.

Lemma jam_low m k x : 0 <= m -> 0 <= k -> 2 ^ (x + k) <= m -> 0 <= x -> 2 ^ x <= jam m k.
Proof.
  intros Hm Hk Hx Hx0. assert (2 ^ x <= m / 2 ^ k). { apply Z.div_le_lower_bound; [lia|]. by rewrite <- Z.pow_add_r, Z.add_comm by lia. }
  rewrite jam_cases by lia. destruct (_ =? 0); [done|]. destruct (Z.even _); lia.
Qed.

(** ** Products *)

Lemma is_zero_number p v u s : unpacks p v u s -> is_zero u = false.
Proof.
  intros []. unfold is_zero. apply Z.eqb_neq. rewrite Z.lor_eq_0_iff. assert (0 < 2 ^ (width p - 2)) by (by destruct p). lia.
Qed.
Lemma sign_lxor a b : Z.lxor (sign_bit a) (sign_bit b) = sign_bit (xorb a b).
Proof. by destruct a, b. Qed.
Lemma sign_negate a : vfp_sign_negate (sign_bit a) = sign_bit (negb a).
Proof. by destruct a. Qed.

(** The product before it is rounded. *)
Lemma multiply_numbers p n m un um sn sm fpscr : unpacks p n un sn -> unpacks p m um sm ->
  exists e, vfp_multiply p un um fpscr =
    (mk_unpacked e (sign_bit (xorb (negative p n) (negative p m))) (jam (significand un * significand um) (width p)), 0) /\
    e = exponent un + exponent um - bias p + 2.
Proof.
  intros Un Um. pose proof (is_zero_number _ _ _ _ Un) as Zn. pose proof (is_zero_number _ _ _ _ Um) as Zm.
  destruct (fields p) as (HW & Hmax & H1 & H2 & HL & HM & HE & Hw & HL' & Hb). destruct Un as [Sn _ _ _ Rn Nn _], Um as [Sm _ _ _ Rm Nm _].
  assert (0 < 2 ^ (width p - 2)) by lia. assert (max_exponent p < 3000) by (by destruct p).
  exists (exponent un + exponent um - bias p + 2). split; [|done]. unfold vfp_multiply.
  destruct (Z.ltb_spec (exponent un) (exponent um)).
  - destruct (Z.eqb_spec (exponent um) (max_exponent p)); [lia|]. rewrite Zn, product_spec, Sn, Sm, sign_lxor, xorb_comm, (Z.mul_comm (significand um)) by lia.
    rewrite s16_small by lia. do 2 f_equal. lia.
  - destruct (Z.eqb_spec (exponent un) (max_exponent p)); [lia|]. rewrite Zm, product_spec, Sn, Sm, sign_lxor by lia. by rewrite s16_small by lia.
Qed.

(** Zero, before and after rounding. *)
Lemma normaliseround_zero p e neg fpscr exceptions : e ≠ max_exponent p ->
  (vfp_normaliseround p (mk_unpacked e (sign_bit neg) 0) fpscr exceptions).1 = signed_bits p neg 0.
Proof.
  intros He. unfold vfp_normaliseround. cbn [exponent significand]. rewrite (proj2 (Z.eqb_neq _ _) He). cbn [andb Z.eqb fst with_exponent sign significand].
  apply pack_spec; [by destruct p|split; [done|by destruct p]].
Qed.

Lemma round_flushing_zero p fpscr neg b e : round_flushing p fpscr neg 0 b e = signed_bits p neg 0.
Proof. unfold round_flushing, subnormal. by rewrite andb_false_r. Qed.

(** A finite operand: zero, or a number. *)
Definition zero_operand (p : precision) (v : Z) : unpacked := mk_unpacked 0 (sign_bit (negative p v)) 0.
Lemma mantissa_nonneg p v : 0 <= mantissa p v.
Proof.
  unfold mantissa. pose proof (Z.mod_pos_bound v (2 ^ MANTISSA_BITS p) ltac:(by destruct p)).
  assert (0 < 2 ^ MANTISSA_BITS p) by (by destruct p). destruct (_ =? 0); lia.
Qed.
Lemma unpack_finite p v fpscr : 0 <= v < 2 ^ width p -> finite p v = true -> let w := operand p fpscr v in
  (mantissa p w = 0 /\ exists e, vfp_unpack_normal p v fpscr = (zero_operand p w, e)) \/
  (0 < mantissa p w /\ exists u s, vfp_unpack_normal p v fpscr = (u, 0) /\ unpacks p w u s).
Proof.
  intros Hv Hf. cbv zeta. destruct (decide (operand p fpscr v = v)) as [Ho|Ho].
  - rewrite Ho. pose proof (mantissa_nonneg p v). destruct (Z.eq_dec (mantissa p v) 0) as [Hz|Hz].
    + left. split; [done|]. exists 0. by apply unpack_zero.
    + right. split; [lia|]. by apply unpack_number.
  - destruct (unpack_flushed p v fpscr Hv Hf Ho) as [E ->]. left. split; [by destruct p|]. exists FPSCR_IDC. unfold vfp_unpack_normal. rewrite E. by destruct p.
Qed.
Lemma product_zero p x : 0 <= x < 2 ^ (width p - 1) -> product p 0 x = 0 /\ product p x 0 = 0.
Proof. intros Hx. split; rewrite product_spec by (destruct p; cbn [width] in *; lia); rewrite ?Z.mul_0_r, ?Z.mul_0_l; by destruct p. Qed.
(** A product with a zero is zero. *)
Lemma multiply_zero p vn vm fpscr a b : sign vn = sign_bit a -> sign vm = sign_bit b ->
  - MANTISSA_BITS p <= exponent vn < max_exponent p -> - MANTISSA_BITS p <= exponent vm < max_exponent p ->
  0 <= significand vn < 2 ^ (width p - 1) -> 0 <= significand vm < 2 ^ (width p - 1) ->
  (exponent vn = 0 /\ significand vn = 0) \/ (exponent vm = 0 /\ significand vm = 0) ->
  exists e, vfp_multiply p vn vm fpscr = (mk_unpacked e (sign_bit (xorb a b)) 0, 0) /\ e ≠ max_exponent p.
Proof.
  intros Sn Sm Rn Rm Nn Nm Hz. destruct (fields p) as (HW & Hmax & H1 & H2 & HL & HM & HE & Hw & HL' & Hb).
  assert (max_exponent p < 3000 /\ max_exponent p = 2 * bias p + 1) as [Hm3 Hmb] by (by destruct p).
  assert (W : forall x y c d, sign x = sign_bit c -> sign y = sign_bit d -> - MANTISSA_BITS p <= exponent x < max_exponent p -> exponent y <= exponent x ->
    - MANTISSA_BITS p <= exponent y -> 0 <= significand x < 2 ^ (width p - 1) -> 0 <= significand y < 2 ^ (width p - 1) ->
    (exponent x = 0 /\ significand x = 0) \/ (exponent y = 0 /\ significand y = 0) ->
    exists e, (if exponent x =? max_exponent p then
      if negb (significand x =? 0) || ((exponent y =? max_exponent p) && negb (significand y =? 0)) then vfp_propagate_nan p x (Some y) fpscr
      else if is_zero y then (default_qnan p, FPSCR_IOC) else (mk_unpacked (exponent x) (Z.lxor (sign x) (sign y)) 0, 0)
    else if is_zero y then (mk_unpacked 0 (Z.lxor (sign x) (sign y)) 0, 0)
    else (mk_unpacked (s16 (exponent x + exponent y - bias p + 2)) (Z.lxor (sign x) (sign y)) (product p (significand x) (significand y)), 0)) =
    (mk_unpacked e (sign_bit (xorb c d)) 0, 0) /\ e ≠ max_exponent p).
  { intros x y c d -> -> Rx Hyx Ry Nx Ny Hxy. rewrite (proj2 (Z.eqb_neq (exponent x) (max_exponent p))) by lia. rewrite sign_lxor.
    destruct (is_zero y) eqn:Ez; [exists 0; split; [done|lia]|]. exists (exponent x + exponent y - bias p + 2). rewrite s16_small by lia.
    destruct Hxy as [[E1 E2]|[E1 E2]].
    - rewrite E2. destruct (product_zero p (significand y) Ny) as [-> _]. split; [done|lia].
    - unfold is_zero in Ez. rewrite E1, E2 in Ez. done. }
  unfold vfp_multiply. destruct (Z.ltb_spec (exponent vn) (exponent vm)).
  - rewrite xorb_comm. apply W; (done || lia || tauto).
  - apply W; try done; lia.
Qed.

Lemma fmul_rounds p negate n m fpscr : 0 <= n < 2 ^ width p -> 0 <= m < 2 ^ width p -> finite p n = true -> finite p m = true ->
  (fmul p negate n m fpscr).1 =
  (let n := operand p fpscr n in let m := operand p fpscr m in
   round_flushing p fpscr (xorb (xorb (negative p n) (negative p m)) negate) (mantissa p n * mantissa p m) 1 (weight p n + weight p m)).
Proof.
  intros Hn Hm Fn Fm. pose proof (unpack_finite p n fpscr Hn Fn) as Un. pose proof (unpack_finite p m fpscr Hm Fm) as Um. cbv zeta in *. revert Un Um. unfold fmul, operands.
  generalize (vfp_unpack_normal p n fpscr) (vfp_unpack_normal p m fpscr) (operand p fpscr n) (operand p fpscr m). clear. intros vn vm n m Un Um. destruct (fields p) as (HW & Hmax & H1 & H2 & HL & HM & HE & Hw & HL' & Hb).
  assert (Hneg : forall x, (if negate then vfp_sign_negate (sign_bit x) else sign_bit x) = sign_bit (xorb x negate)) by (intros []; by destruct negate).
  assert (Hpos : 0 < 2 ^ (width p - 2) /\ 0 < 2 ^ (width p - 1) /\ 0 < max_exponent p) by (by destruct p).
  assert (Hzero : forall vd e ex, mantissa p n * mantissa p m = 0 -> vd = mk_unpacked e (sign_bit (xorb (negative p n) (negative p m))) 0 -> e ≠ max_exponent p ->
    (vfp_normaliseround p (if negate then with_sign (vfp_sign_negate (sign vd)) vd else vd) fpscr ex).1 =
    round_flushing p fpscr (xorb (xorb (negative p n) (negative p m)) negate) (mantissa p n * mantissa p m) 1 (weight p n + weight p m)).
  { intros vd e ex -> -> He. pose proof (normaliseround_zero p e (xorb (xorb (negative p n) (negative p m)) negate) fpscr ex He) as E.
    rewrite round_flushing_zero. rewrite <- Hneg in E. destruct negate; exact E. }
  destruct Un as [[Zn [en ->]]|(Pn & un & sn & -> & Un)], Um as [[Zm [em ->]]|(Pm & um & sm & -> & Um)].
  - destruct (multiply_zero p (zero_operand p n) (zero_operand p m) fpscr (negative p n) (negative p m)) as (e & -> & He); cbn; try lia; try done.
    eapply Hzero; [|done..]. by rewrite Zn.
  - destruct (multiply_zero p (zero_operand p n) um fpscr (negative p n) (negative p m)) as (e & -> & He); try apply Um; cbn; try lia; try done;
      [destruct Um; lia|]. eapply Hzero; [|done..]. by rewrite Zn.
  - destruct (multiply_zero p un (zero_operand p m) fpscr (negative p n) (negative p m)) as (e & -> & He); try apply Un; cbn; try lia; try done;
      [destruct Un; lia|]. eapply Hzero; [|done..]. by rewrite Zm, Z.mul_0_r.
  - destruct (multiply_numbers p n m un um sn sm fpscr Un Um) as (e & -> & He).
    destruct Un as [_ Psn Gn En Rn Nn Ln], Um as [_ Psm Gm Em Rm Nm Lm]. set (P := significand un * significand um) in *.
    assert (HP : 2 ^ (width p - 4 + width p) <= P < 2 ^ (width p - 2 + width p)).
    { replace (width p - 4 + width p) with ((width p - 2) + (width p - 2)) by lia. replace (width p - 2 + width p) with ((width p - 1) + (width p - 1)) by lia.
      rewrite !Z.pow_add_r by lia. unfold P. nia. }
    assert (0 < 2 ^ (width p - 4 + width p)) by lia.
    assert (HJ : 2 ^ (width p - 4) <= jam P (width p)) by (apply jam_low; lia).
    assert (HJ' : jam P (width p) < 2 ^ width p).
    { rewrite jam_cases by lia. assert (P / 2 ^ width p < 2 ^ (width p - 2)) by (apply Z.div_lt_upper_bound; [lia|rewrite <- Z.pow_add_r by lia; rewrite Z.add_comm; lia]).
      assert (2 ^ (width p - 2) < 2 ^ width p) by (apply Z.pow_lt_mono_r; lia). destruct (_ =? 0); [lia|]. destruct (Z.even _); lia. }
    pose proof (Z.log2_le_pow2 (jam P (width p)) (width p - 4) ltac:(lia)) as Hlog.
    replace (if negate then _ else _) with (mk_unpacked e (sign_bit (xorb (xorb (negative p n) (negative p m)) negate)) (jam P (width p))) by (rewrite <- Hneg; by destruct negate).
    rewrite (normaliseround_rounds p _ fpscr 0 (xorb (xorb (negative p n) (negative p m)) negate) P (2 ^ width p) 1);
      cbn [sign significand exponent]; [|done|lia|by right|lia|unfold top_shift; lia|lia|lia|apply jam_stands; lia].
    apply (flushing_same_value _ _ _ _ _ _ _ _ _ 4000); [lia|lia|nia|lia|].
    assert (HPn : P = mantissa p n * mantissa p m * 2 ^ (sn + sm)) by (unfold P; rewrite Gn, Gm, Z.pow_add_r by lia; ring).
    assert (max_exponent p < 3000) by (by destruct p).
    split; [lia|]. split; [lia|]. rewrite HPn, Z.mul_1_r, <- !Z.mul_assoc, <- !Z.pow_add_r by lia. do 3 f_equal. lia.
Qed.

End ArmFm.
