(* ===== verification/ArmFloatAdd.v ===== *)
(** * Sums of floating-point numbers

    The operands are aligned by jamming the smaller; the sum is rounded once. *)
From S2P Require Import Prelude BitField ArmSupport ArmFloat ArmRounding ArmFloatFacts ArmFloatMul.

Module ArmFa.
Import Arm ArmFl ArmR ArmFf ArmFm.

(** ** Jamming an operand is jamming the sum *)

Lemma add_jam n m k : Z.even n = true -> 0 <= n -> 0 <= m -> 0 <= k -> n + jam m k = jam (n * 2 ^ k + m) k.
Proof.
  intros He Hn Hm Hk. rewrite !jam_cases by nia. rewrite (Z.add_comm (n * _)), Z.mod_add, Z.div_add, (Z.add_comm _ n), Z.even_add, He by lia.
  destruct (_ =? 0); [done|]. destruct (Z.even (m / 2 ^ k)); cbn; lia.
Qed.
Lemma sub_jam n m k : Z.even n = true -> 0 <= m -> 0 <= k -> m <= n * 2 ^ k -> n - jam m k = jam (n * 2 ^ k - m) k.
Proof.
  intros He Hm Hk Hle. rewrite !jam_cases by lia. set (d := 2 ^ k) in *. assert (0 < d) by (unfold d; lia).
  pose proof (Z.div_mod m d ltac:(lia)) as Hd. pose proof (Z.mod_pos_bound m d ltac:(lia)) as Hr. set (q := m / d) in *. set (r := m mod d) in *.
  destruct (Z.eqb_spec r 0) as [Hz|Hz].
  - rewrite <- (Z.div_unique_pos (n * d - m) d (n - q) 0), <- (Z.mod_unique_pos (n * d - m) d (n - q) 0) by lia. done.
  - rewrite <- (Z.div_unique_pos (n * d - m) d (n - q - 1) (d - r)), <- (Z.mod_unique_pos (n * d - m) d (n - q - 1) (d - r)) by lia.
    destruct (Z.eqb_spec (d - r) 0); [lia|]. rewrite !Z.even_sub, He. destruct (Z.even q); cbn; lia.
Qed.

(** ** Aligned operands *)

(** An unpacked operand: its sign, and a number of units below its lowest bit. *)
Record aligned (p : precision) (u : unpacked) (neg : bool) (M w s : Z) : Prop := {
  aligned_sign : sign u = sign_bit neg;
  aligned_mantissa : 0 <= M;
  aligned_significand : significand u = M * 2 ^ s;
  aligned_exponent : exponent u - bias p - (width p - 2) = w - s;
  aligned_range : - MANTISSA_BITS p <= exponent u < max_exponent p;
  aligned_bound : significand u < 2 ^ (width p - 1);
  aligned_normal : 0 < M -> 2 ^ (width p - 2) <= significand u;
  aligned_zero : M = 0 -> exponent u = 0;
  aligned_low : LOW_BITS p <= s;
  aligned_weight : lowest p <= w }.
Lemma aligned_number p v u s : unpacks p v u s -> 0 < mantissa p v -> aligned p u (negative p v) (mantissa p v) (weight p v) s.
Proof. intros [] Hm. constructor; (done || (unfold weight; lia)). Qed.
Lemma aligned_zero_operand p v : mantissa p v = 0 -> aligned p (zero_operand p v) (negative p v) 0 (lowest p) (LOW_BITS p + 1).
Proof. intros Hm. constructor; cbn [zero_operand sign significand exponent]; try done; try lia; by destruct p. Qed.

(** The sign of a sum: an exact zero of opposite signs is negative when rounding down. *)
Definition sum_sign (mode : rounding) (neg neg' : bool) (t : Z) : bool :=
  if t <? 0 then true else if 0 <? t then false else if eqb neg neg' then neg else match mode with ToMinusInf => true | _ => false end.
Definition signed (neg : bool) (m : Z) : Z := if neg then - m else m.
(** The sum in units of the smaller operand. *)
Definition total (neg neg' : bool) (m m' k : Z) : Z := signed neg (m * 2 ^ k) + signed neg' m'.

Lemma mode_minus fpscr : (Z.land fpscr FPSCR_RMODE_MASK =? FPSCR_ROUND_MINUSINF) = match rounding_of fpscr with ToMinusInf => true | _ => false end.
Proof. by apply (rmode_cases fpscr (fun r mode => (r =? FPSCR_ROUND_MINUSINF) = match mode with ToMinusInf => true | _ => false end)). Qed.

(** The operand with the smaller exponent, aligned: nothing is lost, or the other is far above it. *)
Lemma alignment p x y b1 b2 M1 M2 w1 w2 s1 s2 : aligned p x b1 M1 w1 s1 -> aligned p y b2 M2 w2 s2 -> exponent y <= exponent x ->
  let k := exponent x - exponent y in
  significand y mod 2 ^ k = 0 \/ (2 ^ (width p - 2) <= significand x /\ LOW_BITS p < k).
Proof.
  intros X Y Hle k. destruct X as [_ P1 G1 E1 R1 _ N1 Z1 L1 W1], Y as [_ P2 G2 E2 R2 _ _ _ L2 W2].
  destruct (Z.le_gt_cases k s2).
  - left. rewrite G2. replace s2 with ((s2 - k) + k) by lia. rewrite Z.pow_add_r, Z.mul_assoc by lia. apply Z.mod_mul. lia.
  - right. split; [|lia]. apply N1. destruct (Z.eq_dec M1 0) as [Hz|]; [|lia]. exfalso. specialize (Z1 Hz). unfold lowest in *. unfold k in *.
    pose proof (fields p). unfold LOW_BITS in *. lia.
Qed.
Lemma aligned_even p u neg M w s : aligned p u neg M w s -> Z.even (significand u) = true.
Proof.
  intros [_ _ -> _ _ _ _ _ L _]. rewrite Z.even_mul. pose proof (fields p). rewrite (Z.even_pow 2 s) by lia. apply orb_true_r.
Qed.

(** ** The sum before it is rounded *)

Lemma uint_difference p a b : 0 <= a < 2 ^ (width p - 1) -> 0 <= b <= 2 ^ (width p - 1) -> a < b ->
  sint p (uint p (a - b)) < 0 /\ uint p (a - b) ≠ 0 /\ uint p (uint p (Z.lnot (uint p (a - b))) + 1) = b - a.
Proof. intros Ha Hb Hlt. unfold Z.lnot. destruct p; cbn [width] in *; unfold uint, sint; cbn [width]; zdm. Qed.
Lemma uint_positive p a : 0 <= a < 2 ^ (width p - 1) -> uint p a = a /\ 0 <= sint p a.
Proof. intros Ha. destruct p; cbn [width] in *; unfold uint, sint; cbn [width]; zdm. Qed.

(** What [vfp_add] makes of aligned significands: sign and magnitude of a sum. *)
Definition magnitude_sum (p : precision) (e : Z) (b1 b2 : bool) (n m fpscr : Z) : unpacked :=
  mk_unpacked e (sign_bit (sum_sign (rounding_of fpscr) b1 b2 (signed b1 n + signed b2 m))) (Z.abs (signed b1 n + signed b2 m)).
Lemma vfp_add_sum p x y b1 b2 fpscr : sign x = sign_bit b1 -> sign y = sign_bit b2 -> exponent y <= exponent x < max_exponent p ->
  0 <= significand x < 2 ^ (width p - 1) -> 0 <= significand y < 2 ^ (width p - 1) ->
  vfp_add p x y fpscr = (magnitude_sum p (exponent x) b1 b2 (significand x) (jam (significand y) (exponent x - exponent y)) fpscr, 0).
Proof.
  intros Sx Sy He Hx Hy. assert (2 ^ width p = 2 * 2 ^ (width p - 1) /\ 0 < width p - 1) as [HW Hw] by (by destruct p).
  unfold vfp_add. rewrite (proj2 (Z.ltb_ge _ _)) by lia. rewrite (proj2 (Z.eqb_neq _ _)) by lia.
  rewrite jamming_spec by lia. pose proof (jam_bound (significand y) (exponent x - exponent y) (width p - 1) ltac:(lia) ltac:(lia) Hw) as Hj.
  set (j := jam _ _) in *. set (n := significand x) in *. clearbody j n. rewrite Sx, Sy, sign_lxor, mode_minus. unfold magnitude_sum.
  destruct (xorb b1 b2) eqn:Hb; cbn [sign_bit Z.eqb negb].
  - assert (b2 = negb b1) as -> by (by destruct b1, b2).
    destruct (Z.lt_trichotomy n j) as [Hlt|[Heq|Hgt]].
    + destruct (uint_difference p n j) as (H1 & H2 & H3); [lia..|]. rewrite (proj2 (Z.ltb_lt _ _) H1), H3, sign_negate. do 2 f_equal.
      * unfold sum_sign, signed. destruct b1; cbn [negb]; [rewrite (proj2 (Z.ltb_ge _ _)), (proj2 (Z.ltb_lt _ _)) by lia|rewrite (proj2 (Z.ltb_lt _ _)) by lia]; done.
      * unfold signed. destruct b1; cbn [negb]; lia.
    + subst j. rewrite Z.sub_diag. destruct (uint_positive p 0) as [-> Hs]; [lia|]. rewrite (proj2 (Z.ltb_ge _ _)) by lia. cbn [Z.eqb].
      assert (signed b1 n + signed (negb b1) n = 0) as -> by (unfold signed; destruct b1; cbn [negb]; lia). unfold sum_sign. cbn [Z.ltb Z.compare].
      replace (eqb b1 (negb b1)) with false by (by destruct b1). by destruct (rounding_of fpscr).
    + destruct (uint_positive p (n - j)) as [-> Hs]; [lia|]. rewrite (proj2 (Z.ltb_ge _ _)), (proj2 (Z.eqb_neq _ _)) by lia.
      unfold with_significand. rewrite Sx. do 2 f_equal.
      * unfold sum_sign, signed. destruct b1; cbn [negb]; [rewrite (proj2 (Z.ltb_lt _ _)) by lia|rewrite (proj2 (Z.ltb_ge _ _)), (proj2 (Z.ltb_lt _ _)) by lia]; done.
      * unfold signed. destruct b1; cbn [negb]; lia.
  - assert (b2 = b1) as -> by (by destruct b1, b2). rewrite uint_small by lia. unfold with_significand. rewrite Sx. do 2 f_equal.
    + unfold sum_sign, signed. rewrite Bool.eqb_reflx. destruct b1; repeat case_match; try done; lia.
    + unfold signed. destruct b1; lia.
Qed.

(** ** The rounded sum *)

Lemma sum_sign_scale mode b1 b2 v k : 0 < k -> sum_sign mode b1 b2 (v * k) = sum_sign mode b1 b2 v.
Proof.
  intros Hk. unfold sum_sign.
  assert ((v * k <? 0) = (v <? 0)) as -> by (destruct (Z.ltb_spec (v * k) 0), (Z.ltb_spec v 0); try done; nia).
  assert ((0 <? v * k) = (0 <? v)) as -> by (destruct (Z.ltb_spec 0 (v * k)), (Z.ltb_spec 0 v); try done; nia). done.
Qed.
Lemma sum_rounds p x y b1 b2 M1 M2 w1 w2 s1 s2 fpscr : aligned p x b1 M1 w1 s1 -> aligned p y b2 M2 w2 s2 -> exponent y <= exponent x ->
  let k := exponent x - exponent y in let t := total b1 b2 (significand x) (significand y) k in
  exists vd, vfp_add p x y fpscr = (vd, 0) /\ forall ex, (vfp_normaliseround p vd fpscr ex).1 =
    round_flushing p fpscr (sum_sign (rounding_of fpscr) b1 b2 t) (Z.abs t) (2 ^ k) (exponent x - bias p - (width p - 2)).
Proof.
  intros X Y Hle k t. pose proof (alignment _ _ _ _ _ _ _ _ _ _ _ X Y Hle) as Hal. pose proof (aligned_even _ _ _ _ _ _ X) as Hev.
  destruct X as [S1 P1 G1 E1 R1 B1 N1 Z1 L1 W1], Y as [S2 P2 G2 E2 R2 B2 N2 Z2 L2 W2]. cbv zeta in Hal. fold k in Hal.
  destruct (fields p) as (HW & Hmax & H1 & H2 & HL & HM & HE & Hw & HL' & Hb).
  assert (Hx : 0 <= significand x < 2 ^ (width p - 1)) by (split; [rewrite G1; nia|done]).
  assert (Hy : 0 <= significand y < 2 ^ (width p - 1)) by (split; [rewrite G2; nia|done]).
  assert (H3 : 2 ^ (width p - 1) = 2 * 2 ^ (width p - 2) /\ 2 ^ width p = 4 * 2 ^ (width p - 2) /\ 2 ^ (width p - 2) = 2 * 2 ^ (width p - 3)) by (by destruct p).
  eexists. split; [apply vfp_add_sum; try done; lia|]. intros ex. fold k. set (sx := significand x) in *. set (sy := significand y) in *.
  assert (Hk : 0 <= k) by lia. assert (H0k : 0 < 2 ^ k) by lia. unfold magnitude_sum.
  destruct Hal as [Hmod|[Hbig HkL]].
  - rewrite jam_cases, Hmod by lia. cbn [Z.eqb]. assert (Hsy : sy = sy / 2 ^ k * 2 ^ k) by (pose proof (Z.div_mod sy (2 ^ k)); lia).
    assert (Hj : 0 <= sy / 2 ^ k < 2 ^ (width p - 1)) by nia.
    set (v := signed b1 sx + signed b2 (sy / 2 ^ k)). assert (Ht : t = v * 2 ^ k) by (unfold t, v, total, signed; destruct b1, b2; lia).
    rewrite Ht, sum_sign_scale, Z.abs_mul, (Z.abs_eq (2 ^ k)) by lia.
    destruct (Z.eq_dec v 0) as [Hz|Hnz].
    + rewrite Hz. cbn [Z.abs]. rewrite Z.mul_0_l, round_flushing_zero. apply normaliseround_zero. lia.
    + pose proof (normaliseround_exact p (mk_unpacked (exponent x) (sign_bit (sum_sign (rounding_of fpscr) b1 b2 v)) (Z.abs v)) fpscr ex
        (sum_sign (rounding_of fpscr) b1 b2 v) (2 ^ k) eq_refl) as E. cbn [significand exponent] in E. apply E; [|left; lia|done].
      split; [lia|]. unfold v, signed. destruct b1, b2; lia.
  - assert (Hjb : 0 <= jam sy k <= 2 ^ (width p - 3)).
    { rewrite jam_cases by lia. assert (Hq : sy / 2 ^ k < 2 ^ (width p - 3)).
      { apply Z.div_lt_upper_bound; [lia|]. assert (2 ^ 2 <= 2 ^ k) by (apply Z.pow_le_mono_r; lia). change (2 ^ 2) with 4 in *. nia. }
      assert (0 <= sy / 2 ^ k) by (apply Z.div_pos; lia). destruct (_ =? 0); [lia|]. destruct (Z.even (sy / 2 ^ k)); lia. }
    assert (Hsum : exists m, Z.abs (signed b1 sx + signed b2 (jam sy k)) = m /\ m = jam (Z.abs t) k /\ 2 ^ (width p - 3) <= m < 2 ^ width p /\ 0 < Z.abs t /\
      sum_sign (rounding_of fpscr) b1 b2 (signed b1 sx + signed b2 (jam sy k)) = b1 /\ sum_sign (rounding_of fpscr) b1 b2 t = b1).
    { assert (Hbs : sy < sx * 2 ^ k) by (assert (2 ^ 1 <= 2 ^ k) by (apply Z.pow_le_mono_r; lia); change (2 ^ 1) with 2 in *; nia).
      destruct (xorb b1 b2) eqn:Hx12.
      - exists (sx - jam sy k). assert (b2 = negb b1) as -> by (by destruct b1, b2).
        assert (Ht : t = signed b1 (sx * 2 ^ k - sy)) by (unfold t, total, signed; destruct b1; cbn [negb]; lia).
        split; [unfold signed; destruct b1; cbn [negb]; lia|]. split; [rewrite sub_jam by (done || lia); f_equal; rewrite Ht; unfold signed; destruct b1; lia|].
        split; [lia|]. split; [rewrite Ht; unfold signed; destruct b1; lia|].
        rewrite Ht. split; unfold sum_sign, signed; destruct b1; cbn [negb]; repeat case_match; try done; lia.
      - exists (sx + jam sy k). assert (b2 = b1) as -> by (by destruct b1, b2).
        assert (Ht : t = signed b1 (sx * 2 ^ k + sy)) by (unfold t, total, signed; destruct b1; lia).
        split; [unfold signed; destruct b1; lia|]. split; [rewrite add_jam by (done || lia); f_equal; rewrite Ht; unfold signed; destruct b1; lia|].
        split; [lia|]. split; [rewrite Ht; unfold signed; destruct b1; lia|].
        rewrite Ht. split; unfold sum_sign, signed; destruct b1; repeat case_match; try done; lia. }
    destruct Hsum as (m & -> & Hm & Hmb & Hpos & -> & ->).
    pose proof (Z.log2_le_pow2 m (width p - 3) ltac:(lia)) as Hlog.
    apply (normaliseround_rounds p (mk_unpacked (exponent x) (sign_bit b1) m) fpscr ex b1 (Z.abs t) (2 ^ k) 1); cbn [sign significand exponent];
      [done|lia|left; lia|lia|unfold top_shift; lia|done|done|rewrite Hm; apply jam_stands; lia].
Qed.

Lemma sum_sign_comm mode b1 b2 t : sum_sign mode b1 b2 t = sum_sign mode b2 b1 t.
Proof. unfold sum_sign. by destruct b1, b2. Qed.
Lemma add_swap p x y fpscr : exponent x < exponent y -> vfp_add p x y fpscr = vfp_add p y x fpscr.
Proof.
  intros Hlt. unfold vfp_add. destruct (Z.ltb_spec (exponent x) (exponent y)); [|lia]. destruct (Z.ltb_spec (exponent y) (exponent x)); [lia|done].
Qed.

(** The exact sum of two numbers, in units of the smaller weight. *)
Definition exact_sum (b1 b2 : bool) (M1 M2 w1 w2 : Z) : Z :=
  signed b1 (M1 * 2 ^ (w1 - Z.min w1 w2)) + signed b2 (M2 * 2 ^ (w2 - Z.min w1 w2)).
Lemma exact_sum_comm b1 b2 M1 M2 w1 w2 : exact_sum b1 b2 M1 M2 w1 w2 = exact_sum b2 b1 M2 M1 w2 w1.
Proof. unfold exact_sum. rewrite (Z.min_comm w2 w1). lia. Qed.

(** The same number in units of the aligned operands. *)
Lemma total_exact x y b1 b2 M1 M2 w1 w2 s1 s2 e k : 0 <= s1 -> 0 <= s2 -> 0 <= k -> w1 - s1 = e -> w2 - s2 = e - k ->
  let N := Z.abs w1 + Z.abs w2 + Z.abs e + k in
  x = M1 * 2 ^ s1 -> y = M2 * 2 ^ s2 ->
  exact_sum b1 b2 M1 M2 w1 w2 * 2 ^ (N + Z.min w1 w2) = total b1 b2 x y k * 2 ^ (N + (e - k)).
Proof.
  intros Hs1 Hs2 Hk E1 E2 N -> ->. unfold exact_sum, total, signed.
  assert (A1 : M1 * 2 ^ (w1 - Z.min w1 w2) * 2 ^ (N + Z.min w1 w2) = M1 * 2 ^ s1 * 2 ^ k * 2 ^ (N + (e - k))).
  { rewrite <- !Z.mul_assoc, <- !Z.pow_add_r by lia. do 2 f_equal. lia. }
  assert (A2 : M2 * 2 ^ (w2 - Z.min w1 w2) * 2 ^ (N + Z.min w1 w2) = M2 * 2 ^ s2 * 2 ^ (N + (e - k))).
  { rewrite <- !Z.mul_assoc, <- !Z.pow_add_r by lia. do 2 f_equal. lia. }
  destruct b1, b2; lia.
Qed.
Lemma round_total p mode fpscr b1 b2 s t e e' k N : 0 <= k -> 0 <= N + e' -> 0 <= N + (e - k) -> s * 2 ^ (N + e') = t * 2 ^ (N + (e - k)) ->
  round_flushing p fpscr (sum_sign mode b1 b2 t) (Z.abs t) (2 ^ k) e = round_flushing p fpscr (sum_sign mode b1 b2 s) (Z.abs s) 1 e'.
Proof.
  intros Hk H1 H2 E. assert (P1 : 0 < 2 ^ (N + e')) by lia. assert (P2 : 0 < 2 ^ (N + (e - k))) by lia. assert (0 < 2 ^ k) by lia.
  assert (Es : sum_sign mode b1 b2 t = sum_sign mode b1 b2 s).
  { rewrite <- (sum_sign_scale mode b1 b2 t (2 ^ (N + (e - k)))), <- E, sum_sign_scale by lia. done. }
  rewrite Es. destruct (Z.eq_dec t 0) as [-> |Ht].
  { assert (s = 0) as -> by nia. by rewrite !round_flushing_zero. }
  assert (s ≠ 0) by nia. apply (flushing_same_value _ _ _ _ _ _ _ _ _ N); try lia. split; [lia|]. split; [lia|].
  assert (Ea : Z.abs s * 2 ^ (N + e') = Z.abs t * 2 ^ (N + (e - k))).
  { rewrite <- (Z.abs_eq (2 ^ (N + e'))), <- (Z.abs_eq (2 ^ (N + (e - k)))) by lia. by rewrite <- !Z.abs_mul, E. }
  rewrite Z.mul_1_r. replace (N + e) with (N + (e - k) + k) by lia. rewrite Z.pow_add_r by lia. rewrite Z.mul_assoc, <- Ea. ring.
Qed.

Lemma aligned_sum_rounds p x y b1 b2 M1 M2 w1 w2 s1 s2 fpscr : aligned p x b1 M1 w1 s1 -> aligned p y b2 M2 w2 s2 ->
  exists vd, vfp_add p x y fpscr = (vd, 0) /\ forall ex, (vfp_normaliseround p vd fpscr ex).1 =
    round_flushing p fpscr (sum_sign (rounding_of fpscr) b1 b2 (exact_sum b1 b2 M1 M2 w1 w2))
      (Z.abs (exact_sum b1 b2 M1 M2 w1 w2)) 1 (Z.min w1 w2).
Proof.
  assert (W : forall x y b1 b2 M1 M2 w1 w2 s1 s2, aligned p x b1 M1 w1 s1 -> aligned p y b2 M2 w2 s2 -> exponent y <= exponent x ->
    exists vd, vfp_add p x y fpscr = (vd, 0) /\ forall ex, (vfp_normaliseround p vd fpscr ex).1 =
    round_flushing p fpscr (sum_sign (rounding_of fpscr) b1 b2 (exact_sum b1 b2 M1 M2 w1 w2))
      (Z.abs (exact_sum b1 b2 M1 M2 w1 w2)) 1 (Z.min w1 w2)).
  { clear. intros x y b1 b2 M1 M2 w1 w2 s1 s2 X Y Hle.
    destruct (sum_rounds p x y b1 b2 M1 M2 w1 w2 s1 s2 fpscr X Y Hle) as (vd & Ea & En). exists vd. split; [done|]. intros ex. rewrite En.
    destruct X as [S1 P1 G1 E1 R1 B1 N1 Z1 L1 W1], Y as [S2 P2 G2 E2 R2 B2 N2 Z2 L2 W2]. pose proof (fields p).
    pose proof (total_exact (significand x) (significand y) b1 b2 M1 M2 w1 w2 s1 s2 (w1 - s1) (exponent x - exponent y) ltac:(lia) ltac:(lia) ltac:(lia) eq_refl ltac:(lia) G1 G2) as Et.
    eapply (round_total _ _ _ _ _ _ _ _ _ _ (Z.abs w1 + Z.abs w2 + Z.abs (w1 - s1) + (exponent x - exponent y))); [lia|lia|lia|].
    rewrite E1. exact Et. }
  intros X Y. destruct (Z.le_gt_cases (exponent y) (exponent x)) as [Hle|Hlt]; [by eapply W|].
  rewrite add_swap, sum_sign_comm, exact_sum_comm, Z.min_comm by lia. eapply W; [done..|lia].
Qed.

Lemma operand_aligned p v fpscr : 0 <= v < 2 ^ width p -> finite p v = true -> let w := operand p fpscr v in
  exists u s e, vfp_unpack_normal p v fpscr = (u, e) /\ aligned p u (negative p w) (mantissa p w) (weight p w) s.
Proof.
  intros Hv Hf. pose proof (unpack_finite p v fpscr Hv Hf) as E. cbv zeta in *. revert E. generalize (operand p fpscr v). intros w [[Hz [e E]]|(Hp & u & s & E & U)].
  - exists (zero_operand p w), (LOW_BITS p + 1), e. split; [done|]. rewrite Hz. assert (weight p w = lowest p) as ->; [|by apply aligned_zero_operand].
    unfold weight. unfold mantissa in Hz. pose proof (Z.mod_pos_bound w (2 ^ MANTISSA_BITS p) ltac:(by destruct p)).
    assert (0 < 2 ^ MANTISSA_BITS p) by (by destruct p). destruct (Z.eqb_spec (exponent_field p w) 0) as [-> |]; lia.
  - exists u, s, 0. split; [done|]. by apply aligned_number.
Qed.

Lemma fadd_rounds p n m fpscr : 0 <= n < 2 ^ width p -> 0 <= m < 2 ^ width p -> finite p n = true -> finite p m = true ->
  (fadd p n m fpscr).1 =
  (let n := operand p fpscr n in let m := operand p fpscr m in
   let s := exact_sum (negative p n) (negative p m) (mantissa p n) (mantissa p m) (weight p n) (weight p m) in
   round_flushing p fpscr (sum_sign (rounding_of fpscr) (negative p n) (negative p m) s) (Z.abs s) 1 (Z.min (weight p n) (weight p m))).
Proof.
  intros Hn Hm Fn Fm. destruct (operand_aligned p n fpscr Hn Fn) as (un & sn & en & En & An).
  destruct (operand_aligned p m fpscr Hm Fm) as (um & sm & em & Em & Am). unfold fadd, operands. rewrite En, Em.
  destruct (aligned_sum_rounds p un um _ _ _ _ _ _ _ _ fpscr An Am) as (vd & -> & E). apply E.
Qed.

End ArmFa.
