(* ===== verification/ArmFloatDiv.v ===== *)
(** * Quotients of floating-point numbers

    The estimate of a quotient is at most two too big, its corrections end, and a quotient of finite numbers is
    rounded once. *)
From S2P Require Import Prelude BitField ArmSupport ArmFloat ArmFloatOps ArmRounding ArmFloatFacts ArmFloatMul ArmFloatAdd.

Module ArmFd.
Import Arm ArmFl ArmFo ArmR ArmFf ArmFm ArmFa.

(** ** Loops *)

(** [n] rounds, or fewer when the loop ends. *)
Fixpoint rounds {A B} (n : nat) (step : A -> A + B) (a : A) : A + B :=
  match n with
  | O => inl a
  | S n => match step a with inl a => rounds n step a | r => r end
  end.
Lemma rounds_add {A B} n m (step : A -> A + B) a :
  rounds (n + m) step a = match rounds n step a with inl a => rounds m step a | r => r end.
Proof. revert a. induction n as [|n IH]; intros a; cbn; [done|]. destruct (step a); [apply IH|done]. Qed.
Lemma repeat_step_rounds {A B} p (step : A -> A + B) a : repeat_step p step a = rounds (Pos.to_nat p) step a.
Proof.
  revert a. induction p as [p IH|p IH|]; intros a; cbn [repeat_step].
  - rewrite Pos2Nat.inj_xI. cbn [rounds]. destruct (step a); [|done].
    replace (2 * Pos.to_nat p)%nat with (Pos.to_nat p + Pos.to_nat p)%nat by lia. rewrite rounds_add, IH. by destruct (rounds _ _ a0).
  - rewrite Pos2Nat.inj_xO. replace (2 * Pos.to_nat p)%nat with (Pos.to_nat p + Pos.to_nat p)%nat by lia.
    rewrite rounds_add, IH. by destruct (rounds _ _ a).
  - change (Pos.to_nat 1) with 1%nat. cbn [rounds]. by destruct (step a).
Qed.
(** A measure that falls below a bound in steps ends the loop. *)
Lemma while_ends {A} (cond : A -> bool) body (I : A -> Prop) (left : A -> nat) a :
  I a -> (forall x, I x -> cond x = true -> I (body x) /\ (left (body x) < left x)%nat) -> Z.of_nat (left a) < 2 ^ 128 ->
  exists r, while cond body a = Done r /\ I r /\ cond r = false.
Proof.
  intros Ha Hs Hl. unfold while. rewrite repeat_step_rounds.
  assert (W : forall n x, I x -> (left x < n)%nat -> exists r, rounds n (fun a => if cond a then inl (body a) else inr a) x = inr r /\ I r /\ cond r = false).
  { induction n as [|n IH]; intros x Hx Hn; [lia|]. cbn [rounds]. destruct (cond x) eqn:Hc; [|eauto].
    destruct (Hs x Hx Hc) as [Hx' Hlt]. apply IH; [done|lia]. }
  destruct (W (Pos.to_nat (2 ^ 128)) a Ha) as (r & -> & ?); [|by exists r].
  apply Nat2Z.inj_lt. rewrite positive_nat_Z. exact Hl.
Qed.

(** ** Numbers of two words *)

(** Two words hold an integer modulo [2 ^ 128]. *)
Definition holds (h l x : Z) : Prop := 0 <= h < 2 ^ 64 /\ 0 <= l < 2 ^ 64 /\ h * 2 ^ 64 + l = x mod 2 ^ 128.

Lemma holds_word h l x : 0 <= h < 2 ^ 64 -> 0 <= l < 2 ^ 64 -> (exists k, h * 2 ^ 64 + l = x + k * 2 ^ 128) -> holds h l x.
Proof. intros Hh Hl [k E]. split; [done|]. split; [done|]. rewrite <- (Z.mod_small (h * 2 ^ 64 + l) (2 ^ 128)), E, Z.mod_add by lia. done. Qed.
Lemma u64_split z : exists q, u64 z = z - 2 ^ 64 * q.
Proof. exists (z / 2 ^ 64). unfold u64, wrap. pose proof (Z.div_mod z (2 ^ 64) ltac:(lia)). lia. Qed.
Lemma add128_holds h l h' l' x y : holds h l x -> holds h' l' y -> holds (add128 h l h' l').1 (add128 h l h' l').2 (x + y).
Proof.
  intros (Hh & Hl & E) (Hh' & Hl' & E'). unfold add128. cbn [fst snd].
  pose proof (Z.div_mod x (2 ^ 128) ltac:(lia)) as Dx. pose proof (Z.div_mod y (2 ^ 128) ltac:(lia)) as Dy.
  rewrite <- E in Dx. rewrite <- E' in Dy. set (i := x / 2 ^ 128) in *. set (j := y / 2 ^ 128) in *. clearbody i j. subst x y. clear E E'.
  pose proof (add_carries l' l Hl' Hl) as C. rewrite (Z.add_comm l' l) in C. pose proof (u64_range (l + l')) as Hr.
  apply holds_word; [destruct (_ <? l); apply u64_range|done|].
  destruct (u64_split (h + h')) as [q1 E1], (u64_split (u64 (h + h') + 1)) as [q2 E2]. rewrite E2, E1. clear E1 E2.
  destruct (u64 (l + l') <? l); cbn [Z.b2z] in C; [exists (- i - j - q1 - q2)|exists (- i - j - q1)]; lia.
Qed.
Lemma sub128_holds h l h' l' x y : holds h l x -> holds h' l' y -> holds (sub128 h l h' l').1 (sub128 h l h' l').2 (x - y).
Proof.
  intros (Hh & Hl & E) (Hh' & Hl' & E'). unfold sub128. cbn [fst snd].
  pose proof (Z.div_mod x (2 ^ 128) ltac:(lia)) as Dx. pose proof (Z.div_mod y (2 ^ 128) ltac:(lia)) as Dy.
  rewrite <- E in Dx. rewrite <- E' in Dy. set (i := x / 2 ^ 128) in *. set (j := y / 2 ^ 128) in *. clearbody i j. subst x y. clear E E'.
  assert (C : u64 (l - l') - 2 ^ 64 * Z.b2z (l <? u64 (l - l')) = l - l').
  { destruct (Z.ltb_spec l (u64 (l - l'))) as [Hlt|Hge]; cbn [Z.b2z]; [revert Hlt|revert Hge]; zdm. }
  pose proof (u64_range (l - l')) as Hr. apply holds_word; [destruct (l <? _); apply u64_range|done|].
  destruct (u64_split (h - h')) as [q1 E1], (u64_split (u64 (h - h') - 1)) as [q2 E2]. rewrite E2, E1. clear E1 E2.
  destruct (l <? u64 (l - l')); cbn [Z.b2z] in C; [exists (- i + j - q1 - q2)|exists (- i + j - q1)]; lia.
Qed.
Lemma holds_negative h l x : holds h l x -> - 2 ^ 127 <= x < 2 ^ 127 -> negative64 h = (x <? 0).
Proof.
  intros (Hh & Hl & E) Hx. unfold negative64. assert (Hs : s64 h = h - 2 ^ 64 * Z.b2z (2 ^ 63 <=? h)) by (destruct (Z.leb_spec (2 ^ 63) h) as [H|H]; revert H; cbn [Z.b2z]; zdm).
  rewrite Hs. destruct (Z.ltb_spec x 0) as [Hn|Hp].
  - rewrite <- (Z.mod_unique_pos x (2 ^ 128) (-1) (x + 2 ^ 128)) in E by lia. destruct (Z.leb_spec (2 ^ 63) h); cbn [Z.b2z]; [apply Z.ltb_lt; lia|lia].
  - rewrite Z.mod_small in E by lia. destruct (Z.leb_spec (2 ^ 63) h); cbn [Z.b2z]; [lia|apply Z.ltb_ge; lia].
Qed.
Lemma holds_words h l : 0 <= h < 2 ^ 64 -> 0 <= l < 2 ^ 64 -> holds h l (h * 2 ^ 64 + l).
Proof. intros Hh Hl. apply holds_word; [done..|]. exists 0. lia. Qed.
Lemma mul_holds n m : 0 <= n < 2 ^ 64 -> 0 <= m < 2 ^ 64 -> holds (mul64to128 n m).1 (mul64to128 n m).2 (n * m).
Proof.
  intros Hn Hm. pose proof (mul64to128_spec n m Hn Hm) as E. destruct (mul64to128 n m) as [h l]. destruct E as (<- & Hh & Hl). by apply holds_words.
Qed.

(** ** The estimate *)

(** A digit of a quotient from the high half of the divisor is at most two too big. *)
Definition digit (x mh : Z) : Z := if mh * 2 ^ 32 <=? x then 2 ^ 32 - 1 else x / mh.
Lemma digit_spec x m : 2 ^ 63 <= m < 2 ^ 64 -> 0 <= x < m -> let q := x * 2 ^ 32 / m in q <= digit x (m / 2 ^ 32) <= q + 2 /\ 0 <= q < 2 ^ 32 /\ 0 <= digit x (m / 2 ^ 32) < 2 ^ 32.
Proof.
  intros Hm Hx q. assert (Hq : 0 <= q < 2 ^ 32) by (split; [apply Z.div_pos; lia|apply Z.div_lt_upper_bound; lia]).
  pose proof (Z.div_mod m (2 ^ 32) ltac:(lia)) as Dm. pose proof (Z.mod_pos_bound m (2 ^ 32) ltac:(lia)) as Rm.
  set (mh := m / 2 ^ 32) in *. set (ml := m mod 2 ^ 32) in *. assert (Hmh : 2 ^ 31 <= mh < 2 ^ 32) by lia. clearbody mh ml.
  unfold digit. destruct (Z.leb_spec (mh * 2 ^ 32) x).
  - split; [|split; lia]. split; [lia|]. assert (2 ^ 32 - 3 <= q); [|lia]. apply Z.div_le_lower_bound; [lia|]. nia.
  - assert (Hd : 0 <= x / mh < 2 ^ 32) by (split; [apply Z.div_pos; lia|apply Z.div_lt_upper_bound; lia]).
    pose proof (Z.mul_div_le x mh ltac:(lia)) as Hl. set (z := x / mh) in *. split; [|split; lia]. split.
    + apply Z.div_le_lower_bound; [lia|]. unfold q. pose proof (Z.mul_div_le (x * 2 ^ 32) m ltac:(lia)). nia.
    + assert (z - 2 <= q); [|lia]. apply Z.div_le_lower_bound; [lia|]. nia.
Qed.

(** The two digits of a quotient. *)
Lemma two_digits n m : 0 < m -> 0 <= n -> n * 2 ^ 64 / m = n * 2 ^ 32 / m * 2 ^ 32 + (n * 2 ^ 32) `mod` m * 2 ^ 32 / m.
Proof.
  intros Hm Hn. pose proof (Z.div_mod (n * 2 ^ 32) m ltac:(lia)) as D. set (q := n * 2 ^ 32 / m) in *. set (r := (n * 2 ^ 32) mod m) in *. clearbody q r.
  replace (n * 2 ^ 64) with (q * 2 ^ 32 * m + r * 2 ^ 32) by lia. rewrite Z.div_add_l by lia. done.
Qed.
Lemma shifted_holds m : 0 <= m < 2 ^ 64 -> holds (Z.shiftr m 32) (u64 (Z.shiftl m 32)) (m * 2 ^ 32).
Proof.
  intros Hm. rewrite Z.shiftr_div_pow2, Z.shiftl_mul_pow2 by lia. pose proof (Z.div_mod m (2 ^ 32) ltac:(lia)) as D.
  pose proof (Z.mod_pos_bound m (2 ^ 32) ltac:(lia)) as Hr. assert (Hq : 0 <= m / 2 ^ 32 < 2 ^ 32) by (split; [apply Z.div_pos; lia|apply Z.div_lt_upper_bound; lia]).
  apply holds_word; [lia|apply u64_range|]. exists 0. destruct (u64_split (m * 2 ^ 32)) as [q E].
  assert (E' : u64 (m * 2 ^ 32) = (m mod 2 ^ 32) * 2 ^ 32).
  { pose proof (u64_range (m * 2 ^ 32)). lia. }
  lia.
Qed.
(** The high words of a number that is a multiple of a word. *)
Lemma middle_words h l r : 0 <= r < 2 ^ 64 -> holds h l (r * 2 ^ 32) -> Z.lor (u64 (Z.shiftl h 32)) (Z.shiftr l 32) = r.
Proof.
  intros Hr (Hh & Hl & E). rewrite Z.mod_small in E by lia. rewrite Z.shiftl_mul_pow2, Z.shiftr_div_pow2 by lia.
  assert (Hq : 0 <= l / 2 ^ 32 < 2 ^ 32) by (split; [apply Z.div_pos; lia|apply Z.div_lt_upper_bound; lia]).
  unfold u64, wrap. rewrite Z.mod_small by lia. rewrite Z.lor_comm, (lor_add 32) by lia.
  pose proof (Z.div_mod l (2 ^ 32) ltac:(lia)). pose proof (Z.mod_pos_bound l (2 ^ 32) ltac:(lia)). lia.
Qed.

Lemma estimate_spec nh m : 2 ^ 63 <= m < 2 ^ 64 -> 0 <= nh < m ->
  exists z, vfp_estimate_div128to64 nh 0 m = Done z /\ nh * 2 ^ 64 / m <= z <= nh * 2 ^ 64 / m + 2 /\ 0 <= z < 2 ^ 64.
Proof.
  intros Hm Hn. unfold vfp_estimate_div128to64. destruct (Z.leb_spec m nh); [lia|].
  pose proof (digit_spec nh m Hm Hn) as D1. set (q1 := nh * 2 ^ 32 / m) in *. cbv zeta in D1.
  set (mh := Z.shiftr m 32). assert (Emh : m / 2 ^ 32 = mh) by (unfold mh; rewrite Z.shiftr_div_pow2 by lia; done). rewrite Emh in D1.
  assert (Hmh : 0 <= mh < 2 ^ 32) by (rewrite <- Emh; split; [apply Z.div_pos; lia|apply Z.div_lt_upper_bound; lia]).
  assert (Ehigh : u64 (Z.shiftl mh 32) = mh * 2 ^ 32) by (rewrite Z.shiftl_mul_pow2 by lia; apply Z.mod_small; lia).
  set (z := if _ <=? nh then _ else _).
  assert (Ez : z = digit nh mh * 2 ^ 32).
  { subst z. unfold digit in *. rewrite Ehigh. destruct (Z.leb_spec (mh * 2 ^ 32) nh); [done|].
    rewrite Z.shiftl_mul_pow2 by lia. apply Z.mod_small. lia. }
  clearbody z. set (y := digit nh mh) in *. clearbody y. subst z. assert (Hy : 0 <= y < 2 ^ 32) by lia.
  pose proof (mul_holds m (y * 2 ^ 32) ltac:(lia) ltac:(lia)) as HT. destruct (mul64to128 m (y * 2 ^ 32)) as [th tl]. cbn [fst snd] in HT.
  pose proof (sub128_holds nh 0 th tl _ _ (holds_words nh 0 ltac:(lia) ltac:(lia)) HT) as HR. destruct (sub128 nh 0 th tl) as [rh rl]. cbn [fst snd] in HR.
  set (I := fun '((z, (h, l)) : Z * (Z * Z)) => exists y, z = y * 2 ^ 32 /\ q1 <= y <= q1 + 2 /\ y < 2 ^ 32 /\ holds h l ((nh * 2 ^ 32 - m * y) * 2 ^ 32)).
  assert (Hq : m * q1 <= nh * 2 ^ 32 < m * q1 + m).
  { pose proof (Z.div_mod (nh * 2 ^ 32) m ltac:(lia)) as D. fold q1 in D. pose proof (Z.mod_pos_bound (nh * 2 ^ 32) m ltac:(lia)). lia. }
  assert (Hrange : forall y, q1 <= y <= q1 + 2 -> - 2 * m <= nh * 2 ^ 32 - m * y < m).
  { intros y' Hy'. pose proof (Z.mul_le_mono_nonneg_l q1 y' m ltac:(lia) ltac:(lia)). pose proof (Z.mul_le_mono_nonneg_l y' (q1 + 2) m ltac:(lia) ltac:(lia)). lia. }
  assert (Hneg : forall y h l, q1 <= y <= q1 + 2 -> holds h l ((nh * 2 ^ 32 - m * y) * 2 ^ 32) -> negative64 h = (nh * 2 ^ 32 - m * y <? 0)).
  { intros y' h l Hy' Hh. specialize (Hrange y' Hy'). rewrite (holds_negative h l _ Hh) by lia.
    destruct (Z.ltb_spec (nh * 2 ^ 32 - m * y') 0), (Z.ltb_spec ((nh * 2 ^ 32 - m * y') * 2 ^ 32) 0); done || lia. }
  destruct (while_ends (fun '(_, (remh, _)) => negative64 remh)
    (fun '(z, (remh, reml)) => (u64 (z - 0x100000000), add128 remh reml mh (u64 (Z.shiftl m 32)))) I (fun '((z, _) : Z * (Z * Z)) => Z.to_nat (z / 2 ^ 32 - q1)) (y * 2 ^ 32, (rh, rl)))
    as ([z [h l]] & -> & (y' & -> & Hy' & Hlt & Hh) & Hend).
  - exists y. split; [done|]. split; [lia|]. split; [lia|]. replace ((nh * 2 ^ 32 - m * y) * 2 ^ 32) with (nh * 2 ^ 64 + 0 - m * (y * 2 ^ 32)) by lia. done.
  - intros [z [h l]] (y' & -> & Hy' & Hlt & Hh) Hc. rewrite (Hneg y' h l) in Hc by done. apply Z.ltb_lt in Hc.
    assert (q1 < y'). { apply Z.nle_gt. intros Hle. pose proof (Z.mul_le_mono_nonneg_l y' q1 m ltac:(lia) ltac:(lia)). lia. }
    assert (Ez' : u64 (y' * 2 ^ 32 - 0x100000000) = (y' - 1) * 2 ^ 32) by (unfold u64, wrap; rewrite Z.mod_small by lia; lia).
    rewrite Ez'. split; [|rewrite !Z.div_mul by lia; lia].
    pose proof (add128_holds h l _ _ _ _ Hh (shifted_holds m ltac:(lia))) as Ha. fold mh in Ha. destruct (add128 h l mh _) as [h' l']. cbn [fst snd] in Ha.
    exists (y' - 1). split; [done|]. split; [lia|]. split; [lia|]. replace ((nh * 2 ^ 32 - m * (y' - 1)) * 2 ^ 32) with ((nh * 2 ^ 32 - m * y') * 2 ^ 32 + m * 2 ^ 32) by lia. done.
  - rewrite Z.div_mul by lia. lia.
  - rewrite (Hneg y' h l) in Hend by done. apply Z.ltb_ge in Hend.
    assert (y' = q1) as ->. { apply Z.le_antisymm; [|lia]. apply Z.nlt_ge. intros Hgt. pose proof (Z.mul_le_mono_nonneg_l (q1 + 1) y' m ltac:(lia) ltac:(lia)). lia. }
    set (r := nh * 2 ^ 32 - m * q1) in *. cbv beta iota zeta delta [mbind outcome_bind]. rewrite (middle_words h l r) by (done || lia). rewrite Ehigh.
    pose proof (digit_spec r m Hm ltac:(lia)) as D2. cbv zeta in D2. rewrite Emh in D2. unfold digit in D2.
    exists (q1 * 2 ^ 32 + digit r mh). rewrite two_digits by lia. fold q1.
    assert (Er : (nh * 2 ^ 32) mod m = r) by (symmetry; apply Z.mod_unique_pos with q1; lia). rewrite Er. unfold digit.
    split; [|lia]. destruct (mh * 2 ^ 32 <=? r); f_equal; rewrite Z.lor_comm, (lor_add 32) by lia; lia.
Qed.

(** ** Quotients *)

(** The quotient of two significands, of which the first is the smaller one, rounds like the fraction. *)
Definition quotient_loss (p : precision) : Z := match p with single => 6 | double => 9 end.
Lemma low_bits z k : 0 <= z -> 0 <= k -> Z.land z (Z.ones k) = z mod 2 ^ k.
Proof. intros Hz Hk. by apply Z.land_ones. Qed.

Lemma single_quotient_stands n m : 0 <= n < m -> 0 < m < 2 ^ 32 ->
  stands_for 6 (single_quotient n m) (n * 2 ^ 32) m /\ n * 2 ^ 32 / m <= single_quotient n m <= n * 2 ^ 32 / m + 1.
Proof.
  intros Hn Hm. unfold single_quotient. rewrite Z.shiftl_mul_pow2 by lia. set (a := n * 2 ^ 32).
  assert (Ha : u64 a = a) by (apply Z.mod_small; lia). assert (Hq : 0 <= a / m < 2 ^ 32) by (split; [apply Z.div_pos; lia|apply Z.div_lt_upper_bound; lia]).
  rewrite Ha, u32_small by done. pose proof (Z.div_mod a m ltac:(lia)) as D. pose proof (Z.mod_pos_bound a m ltac:(lia)) as Hr.
  assert (Hmq : 0 <= m * (a / m) < 2 ^ 64) by nia. assert (Hu : u64 (m * (a / m)) = m * (a / m)) by (apply Z.mod_small; lia). rewrite Hu.
  change 0x3f with (Z.ones 6). rewrite low_bits by lia. destruct (Z.eqb_spec (a / m mod 2 ^ 6) 0) as [E|E].
  - replace (negb (m * (a / m) =? a)) with (negb (a mod m =? 0)).
    2: { f_equal. destruct (Z.eqb_spec (a mod m) 0), (Z.eqb_spec (m * (a / m)) a); done || lia. }
    split; [apply (stands_weaken 1); [lia|]; by apply (sticky_stands a m); lia|].
    change (a / m <= sticky a m <= a / m + 1). rewrite sticky_cases by lia. destruct (_ =? 0); [lia|]. destruct (Z.even _); lia.
  - split; [|lia]. pose proof (Z.div_mod (a / m) (2 ^ 6) ltac:(lia)) as D6. pose proof (Z.mod_pos_bound (a / m) (2 ^ 6) ltac:(lia)).
    apply (between_stands 6 _ _ _ (a / m / 2 ^ 6)); [lia..|]. set (i := a / m / 2 ^ 6) in *. set (q := a / m) in *. clearbody i q.
    split; [apply Z.lt_le_trans with (q * m); [apply Z.mul_lt_mono_pos_r; lia|lia]|].
    apply Z.lt_le_trans with ((q + 1) * m); [lia|]. apply Z.mul_le_mono_nonneg_r; lia.
Qed.

(** The correction of the estimate of a quotient: one at a time, it ends at the quotient. *)
Lemma correct_quotient n m z rh rl : 0 <= n < m -> 2 ^ 63 <= m < 2 ^ 64 -> n * 2 ^ 64 / m <= z <= n * 2 ^ 64 / m + 2 -> 0 <= z < 2 ^ 64 ->
  holds rh rl (n * 2 ^ 64 - m * z) ->
  while (fun '(_, (remh, _)) => negative64 remh) (fun '(z, (remh, reml)) => (u64 (z - 1), add128 remh reml 0 m)) (z, (rh, rl)) =
  Done (n * 2 ^ 64 / m, (0, (n * 2 ^ 64) mod m)).
Proof.
  intros Hn Hm Hz Hz64 HR. set (a := n * 2 ^ 64) in *. set (q := a / m) in *.
  pose proof (Z.div_mod a m ltac:(lia)) as D. fold q in D. pose proof (Z.mod_pos_bound a m ltac:(lia)) as Hr.
  assert (Hq0 : 0 <= q) by (apply Z.div_pos; lia).
  assert (Hrange : forall y, q <= y <= q + 2 -> - 2 * m <= a - m * y < m).
  { intros y Hy. pose proof (Z.mul_le_mono_nonneg_l q y m ltac:(lia) ltac:(lia)). pose proof (Z.mul_le_mono_nonneg_l y (q + 2) m ltac:(lia) ltac:(lia)). lia. }
  set (I := fun '((z, (h, l)) : Z * (Z * Z)) => q <= z <= q + 2 /\ z < 2 ^ 64 /\ holds h l (a - m * z)).
  assert (Hneg : forall z h l, I (z, (h, l)) -> negative64 h = (a - m * z <? 0)).
  { intros y h l (Hy & _ & Hh). specialize (Hrange y Hy). by rewrite (holds_negative h l _ Hh) by lia. }
  destruct (while_ends (fun '(_, (remh, _)) => negative64 remh) (fun '(z, (remh, reml)) => (u64 (z - 1), add128 remh reml 0 m)) I
    (fun '((z, _) : Z * (Z * Z)) => Z.to_nat (z - q)) (z, (rh, rl))) as ([y [h l]] & -> & Hi & Hend).
  - split; [done|]. split; [lia|done].
  - intros [y [h l]] Hi Hc. rewrite (Hneg y h l Hi) in Hc. apply Z.ltb_lt in Hc. destruct Hi as (Hy & Hlt & Hh).
    assert (q < y). { apply Z.nle_gt. intros Hle. pose proof (Z.mul_le_mono_nonneg_l y q m ltac:(lia) ltac:(lia)). lia. }
    assert (Ey : u64 (y - 1) = y - 1) by (apply Z.mod_small; lia). rewrite Ey. split; [|lia].
    pose proof (add128_holds h l 0 m _ _ Hh (holds_words 0 m ltac:(lia) ltac:(lia))) as Ha. destruct (add128 h l 0 m) as [h' l']. cbn [fst snd] in Ha.
    split; [lia|]. split; [lia|]. replace (a - m * (y - 1)) with (a - m * y + (0 * 2 ^ 64 + m)) by lia. done.
  - lia.
  - rewrite (Hneg y h l Hi) in Hend. apply Z.ltb_ge in Hend. destruct Hi as (Hy & Hlt & Hh & Hl & E).
    assert (y = q) as ->. { apply Z.le_antisymm; [|lia]. apply Z.nlt_ge. intros Hgt. pose proof (Z.mul_le_mono_nonneg_l (q + 1) y m ltac:(lia) ltac:(lia)). lia. }
    rewrite Z.mod_small in E by lia. assert (Eh : h = 0) by lia. assert (El : l = a mod m) by lia. by rewrite Eh, El.
Qed.

Lemma double_quotient_stands n m : 0 <= n < m -> 2 ^ 63 <= m < 2 ^ 64 ->
  exists z, double_quotient n m = Done z /\ stands_for 9 z (n * 2 ^ 64) m /\ n * 2 ^ 64 / m <= z <= n * 2 ^ 64 / m + 2.
Proof.
  intros Hn Hm. unfold double_quotient. destruct (estimate_spec n m Hm Hn) as (z & -> & Hz & Hz64).
  cbv beta iota delta [mbind outcome_bind]. change 0x1ff with (Z.ones 9). rewrite low_bits by lia.
  set (a := n * 2 ^ 64) in *. pose proof (Z.div_mod a m ltac:(lia)) as D. pose proof (Z.mod_pos_bound a m ltac:(lia)) as Hr.
  destruct (Z.leb_spec (z mod 2 ^ 9) 2) as [Hl|Hl].
  - pose proof (mul_holds m z ltac:(lia) ltac:(lia)) as HT. destruct (mul64to128 m z) as [th tl]. cbn [fst snd] in HT.
    pose proof (sub128_holds n 0 th tl _ _ (holds_words n 0 ltac:(lia) ltac:(lia)) HT) as HR. destruct (sub128 n 0 th tl) as [rh rl]. cbn [fst snd] in HR.
    rewrite Z.add_0_r in HR. rewrite (correct_quotient n m z rh rl) by done. fold a. exists (sticky a m). split; [done|].
    split; [apply (stands_weaken 1); [lia|]; apply sticky_stands; lia|].
    rewrite sticky_cases by lia. destruct (_ =? 0); [lia|]. destruct (Z.even _); lia.
  - exists z. split; [done|]. split; [|done]. pose proof (Z.div_mod z (2 ^ 9) ltac:(lia)) as D9. pose proof (Z.mod_pos_bound z (2 ^ 9) ltac:(lia)).
    apply (between_stands 9 _ _ _ (z / 2 ^ 9)); [lia..|]. set (i := z / 2 ^ 9) in *. set (q := a / m) in *. clearbody i q.
    split; [apply Z.lt_le_trans with (q * m); [apply Z.mul_lt_mono_pos_r; lia|lia]|].
    apply Z.lt_le_trans with ((q + 1) * m); [lia|]. apply Z.mul_le_mono_nonneg_r; lia.
Qed.
Lemma quotient_stands p n m : 0 <= n < m -> 2 ^ (width p - 1) <= m < 2 ^ width p ->
  exists z, quotient p n m = Done z /\ stands_for (quotient_loss p) z (n * 2 ^ width p) m /\ n * 2 ^ width p / m <= z <= n * 2 ^ width p / m + 2.
Proof.
  intros Hn Hm. destruct p; cbn [quotient quotient_loss].
  - destruct (single_quotient_stands n m) as [Hs Hq]; [done|cbn in Hm; lia|]. eexists. split; [done|]. split; [done|]. cbn [width]. lia.
  - by apply double_quotient_stands.
Qed.

(** ** Operands *)

(** A finite operand as [fdiv] sees it: a zero, or a number that is normalised if it is denormal. *)
Definition normalised (p : precision) (u : unpacked) : unpacked := if has (vfp_type p u) VFP_DENORMAL then vfp_normalise_denormal p u else u.
Lemma unpack_divisor p v fpscr : 0 <= v < 2 ^ width p -> finite p v = true -> let w := operand p fpscr v in
  exists u e, vfp_unpack p v fpscr = (u, e) /\
    (mantissa p w = 0 /\ u = zero_operand p w /\ vfp_type p u = 3 \/
     0 < mantissa p w /\ e = 0 /\ sign u = sign_bit (negative p w) /\ (vfp_type p u = 1 \/ vfp_type p u = 5) /\ exists s, unpacks p w (normalised p u) s).
Proof.
  intros Hv Hf. cbv zeta. pose proof (mantissa_nonneg p v). assert (Hmp : max_exponent p ≠ 0) by (by destruct p).
  destruct (decide (operand p fpscr v = v)) as [Ho|Ho].
  2:{ destruct (unpack_flushed p v fpscr Hv Hf Ho) as [E ->]. exists (zero_operand p 0), FPSCR_IDC. split; [rewrite E; by destruct p|]. left. by destruct p. }
  rewrite Ho. destruct (Z.eq_dec (mantissa p v) 0) as [Hz|Hz].
  - exists (zero_operand p v), 0. split; [by apply unpack_zero|]. left. split_and!; [done|done|].
    unfold vfp_type, zero_operand. cbn [exponent significand]. destruct (Z.eqb_spec 0 (max_exponent p)); [lia|done].
  - destruct (unpack_number p v fpscr Hv Hf Hz Ho) as (w & s & E & Hw). destruct (vfp_unpack p v fpscr) as [u e] eqn:Eu.
    unfold vfp_unpack_normal in E. rewrite Eu in E. injection E as Ew ->. exists u, 0. split; [done|]. right. split; [lia|]. split; [done|].
    assert (Hu : sign u = sign_bit (negative p v) /\ exponent u ≠ max_exponent p).
    { unfold vfp_unpack in Eu. rewrite packed_exponent_spec, packed_sign_spec, not_flushed in Eu by (done || lia). injection Eu as <-. cbn [sign exponent]. split; [done|].
      unfold finite in Hf. by destruct (Z.eqb_spec (exponent_field p v) (max_exponent p)). }
    destruct Hu as [Hs He]. split; [done|]. unfold normalised, vfp_type. destruct (Z.eqb_spec (exponent u) (max_exponent p)); [done|].
    assert (Hnz : exponent u = 0 -> significand u ≠ 0).
    { intros E0 Es. rewrite E0, Es in Ew. cbn in Ew. subst w. destruct Hw as [_ _ _ _ _ Hno _]. rewrite Es in Hno.
      assert (0 < 2 ^ (width p - 2)) by (by destruct p). lia. }
    destruct (Z.eqb_spec (exponent u) 0) as [E0|E0]; cbn [andb] in Ew.
    + destruct (Z.eqb_spec (significand u) 0) as [Es|Es]; [by destruct (Hnz E0)|]. cbn [negb] in Ew. split; [by right|]. exists s. by rewrite Ew.
    + split; [by left|]. exists s. by rewrite Ew.
Qed.
Lemma numbers_divide p u v fpscr n m : vfp_unpack p n fpscr = (u, 0) -> vfp_unpack p m fpscr = (v, 0) ->
  (vfp_type p u = 1 \/ vfp_type p u = 5) -> (vfp_type p v = 1 \/ vfp_type p v = 5) ->
  div_special p n m fpscr = inr (normalised p u, normalised p v, Z.lxor (sign u) (sign v)).
Proof. intros En Em Hu Hv. unfold div_special, normalised. rewrite En, Em. by destruct Hu as [-> | ->], Hv as [-> | ->]. Qed.

Lemma align_spec p u v : 2 ^ (width p - 2) <= significand u < 2 ^ (width p - 1) -> 2 ^ (width p - 2) <= significand v < 2 ^ (width p - 1) ->
  significand u mod 2 = 0 -> - 100 <= exponent u < 3000 -> - 100 <= exponent v < 3000 ->
  exists e n m k, div_align p u v = (e, n, m) /\ (k = 0 \/ k = 1) /\ e = exponent u - exponent v + bias p - 1 + k /\ n * 2 ^ k = significand u /\
    m = 2 * significand v /\ 0 <= n < m /\ 2 ^ (width p - 2) <= n * 2 ^ width p / m < 2 ^ (width p - 1).
Proof.
  intros Hu Hv Hev Eu Ev. unfold div_align. destruct (fields p) as (_ & _ & _ & _ & _ & _ & _ & Hw & _ & Hb).
  assert (H1 : 2 ^ (width p - 1) = 2 * 2 ^ (width p - 2)) by (rewrite <- Z.pow_succ_r by lia; f_equal; lia).
  assert (H2 : 2 ^ width p = 2 * 2 ^ (width p - 1)) by (rewrite <- Z.pow_succ_r by lia; f_equal; lia).
  rewrite Z.shiftl_mul_pow2 by lia. change (2 ^ 1) with 2. rewrite (Z.mul_comm _ 2), !uint_small by lia.
  rewrite Z.shiftr_div_pow2 by lia. change (2 ^ 1) with 2. set (W := 2 ^ (width p - 2)) in *. assert (0 < W) by lia.
  set (a := significand u) in *. set (b := significand v) in *.
  rewrite (s16_small (exponent u - exponent v + bias p - 1)) by lia.
  destruct (Z.leb_spec (2 * b) (2 * a)) as [Hle|Hgt].
  - exists (exponent u - exponent v + bias p - 1 + 1), (a / 2), (2 * b), 1. rewrite s16_small by lia.
    pose proof (Z.div_mod a 2 ltac:(lia)) as D. split; [done|]. split; [by right|]. split; [done|]. split; [lia|]. split; [done|]. split; [lia|].
    set (h := a / 2) in *. clearbody h. split; [apply Z.div_le_lower_bound; [lia|]|apply Z.div_lt_upper_bound; [lia|]]; rewrite H2, H1; nia.
  - exists (exponent u - exponent v + bias p - 1), a, (2 * b), 0. split; [done|]. split; [by left|]. split; [lia|]. split; [lia|]. split; [done|]. split; [lia|].
    split; [apply Z.div_le_lower_bound; [lia|]|apply Z.div_lt_upper_bound; [lia|]]; rewrite H2, H1; nia.
Qed.

Lemma weight_range p v : - 2000 <= weight p v < 3000.
Proof.
  unfold weight, lowest. pose proof (exponent_range p v). destruct (fields p) as (_ & _ & _ & _ & _ & HM & _ & _ & _ & Hb).
  assert (max_exponent p < 2100) by (by destruct p). lia.
Qed.
Lemma fdiv_numbers p n0 m0 n m u v sn sm fpscr :
  vfp_unpack p n0 fpscr = (u, 0) -> vfp_unpack p m0 fpscr = (v, 0) -> (vfp_type p u = 1 \/ vfp_type p u = 5) -> (vfp_type p v = 1 \/ vfp_type p v = 5) ->
  sign u = sign_bit (negative p n) -> sign v = sign_bit (negative p m) -> unpacks p n (normalised p u) sn -> unpacks p m (normalised p v) sm ->
  exists e, fdiv p n0 m0 fpscr =
    Done (round_flushing p fpscr (xorb (negative p n) (negative p m)) (mantissa p n) (mantissa p m) (weight p n - weight p m), e).
Proof.
  intros En Em Tu Tv Su Sv Un Um. unfold fdiv. rewrite (numbers_divide p u v fpscr n0 m0) by done.
  set (u' := normalised p u) in *. set (v' := normalised p v) in *. clearbody u' v'.
  destruct (fields p) as (HW & Hmax & H1 & H2 & HL & HM & HE & Hw & HL' & Hb).
  destruct Un as [_ Psn Gn Xn Rn Nn Ln], Um as [_ Psm Gm Xm Rm Nm Lm]. assert (Hmax' : max_exponent p < 3000) by (by destruct p).
  assert (Hev : significand u' mod 2 = 0).
  { rewrite Gn. replace sn with (sn - 1 + 1) by lia. rewrite Z.pow_add_r, Z.mul_assoc by lia. apply Z.mod_mul. lia. }
  destruct (align_spec p u' v' Nn Nm Hev ltac:(lia) ltac:(lia)) as (e & a & b & k & -> & Hk & He & Ha & Hbv & Hab & HQ).
  assert (H1' : 2 ^ (width p - 1) = 2 * 2 ^ (width p - 2)) by (rewrite <- Z.pow_succ_r by lia; f_equal; lia).
  assert (H2' : 2 ^ width p = 2 * 2 ^ (width p - 1)) by (rewrite <- Z.pow_succ_r by lia; f_equal; lia).
  assert (Hpos : 4 <= 2 ^ (width p - 2)) by (by destruct p).
  destruct (quotient_stands p a b Hab ltac:(lia)) as (z & -> & Hs & Hz).
  cbv beta iota delta [mbind outcome_bind]. eexists. rewrite (surjective_pairing (vfp_normaliseround _ _ _ _)). do 2 f_equal.
  pose proof (Z.log2_le_pow2 z (width p - 2) ltac:(lia)) as Hlog.
  assert (Hsg : Z.lxor (sign u) (sign v) = sign_bit (xorb (negative p n) (negative p m))) by (rewrite Su, Sv; by destruct (negative p n), (negative p m)).
  assert (Hap : 0 < a). { assert (0 < a * 2 ^ k) by lia. destruct Hk as [-> | ->]; lia. }
  assert (HMn : 0 < mantissa p n). { pose proof (mantissa_nonneg p n). destruct (Z.eq_dec (mantissa p n) 0) as [E|]; [|lia]. rewrite E in Gn. lia. }
  assert (HMm : 0 < mantissa p m). { pose proof (mantissa_nonneg p m). destruct (Z.eq_dec (mantissa p m) 0) as [E|]; [|lia]. rewrite E in Gm. lia. }
  rewrite (normaliseround_rounds p _ fpscr 0 (xorb (negative p n) (negative p m)) (a * 2 ^ width p) b (quotient_loss p));
    cbn [sign significand exponent]; [|done|lia|by right|by destruct p|unfold top_shift; destruct p; cbn [quotient_loss width LOW_BITS MANTISSA_BITS] in *; unfold LOW_BITS; cbn; lia|lia|lia|done].
  apply (flushing_same_value _ _ _ _ _ _ _ _ _ 9000); [lia|lia|lia|lia|].
  pose proof (weight_range p n). pose proof (weight_range p m). split; [lia|]. split; [lia|]. rewrite Hbv, Gm.
  assert (Ek : a * 2 ^ k = mantissa p n * 2 ^ sn) by (by rewrite Ha).
  apply (Z.mul_cancel_r _ _ (2 ^ k)); [lia|].
  replace (a * 2 ^ width p * mantissa p m * 2 ^ (9000 + (e - bias p - (width p - 2))) * 2 ^ k) with
    ((a * 2 ^ k) * mantissa p m * (2 ^ width p * 2 ^ (9000 + (e - bias p - (width p - 2))))) by ring.
  rewrite Ek, <- Z.pow_add_r by lia.
  replace (mantissa p n * (2 * (mantissa p m * 2 ^ sm)) * 2 ^ (9000 + (weight p n - weight p m)) * 2 ^ k) with
    (mantissa p n * mantissa p m * (2 ^ 1 * 2 ^ sm * 2 ^ (9000 + (weight p n - weight p m)) * 2 ^ k)) by ring.
  replace (mantissa p n * 2 ^ sn * mantissa p m * 2 ^ (width p + (9000 + (e - bias p - (width p - 2))))) with
    (mantissa p n * mantissa p m * (2 ^ sn * 2 ^ (width p + (9000 + (e - bias p - (width p - 2)))))) by ring.
  rewrite <- !Z.pow_add_r by lia. do 2 f_equal. lia.
Qed.

(** The results of a division of finite numbers: by zero there is infinity, or the default NaN for zero by zero. *)
Definition exact_quotient (p : precision) (fpscr n m : Z) : Z :=
  let neg := xorb (negative p n) (negative p m) in
  if mantissa p m =? 0 then
    if mantissa p n =? 0 then max_exponent p * 2 ^ MANTISSA_BITS p + 2 ^ (MANTISSA_BITS p - 1)
    else Z.b2z neg * 2 ^ (width p - 1) + max_exponent p * 2 ^ MANTISSA_BITS p
  else round_flushing p fpscr neg (mantissa p n) (mantissa p m) (weight p n - weight p m).

Lemma fdiv_rounds p n m fpscr : 0 <= n < 2 ^ width p -> 0 <= m < 2 ^ width p -> finite p n = true -> finite p m = true ->
  exists e, fdiv p n m fpscr = Done (exact_quotient p fpscr (operand p fpscr n) (operand p fpscr m), e).
Proof.
  intros Hn Hm Fn Fm. destruct (unpack_divisor p m fpscr Hm Fm) as (v & em & Em & Cm). destruct (unpack_divisor p n fpscr Hn Fn) as (u & en & En & Cn).
  revert Cm Cn. generalize (operand p fpscr m) (operand p fpscr n). intros M N Cm Cn. unfold exact_quotient.
  destruct (Z.eqb_spec (mantissa p M) 0) as [Zm|Zm].
  { destruct Cm as [(_ & -> & Tv)|(Pm & _)]; [|lia]. unfold fdiv, div_special. rewrite En, Em, Tv.
    destruct Cn as [(Zn & -> & Tu)|(Pn & _ & Su & Tu & _)].
    - rewrite Tu, Zn. eexists. by destruct p.
    - rewrite (proj2 (Z.eqb_neq (mantissa p N) 0)) by lia. exists (Z.lor (Z.lor en em) FPSCR_DZC). cbn [sign zero_operand].
      replace (Z.lxor (sign u) _) with (sign_bit (xorb (negative p N) (negative p M))) by (rewrite Su; by destruct (negative p N), (negative p M)).
      pose proof (pack_spec p (max_exponent p) (xorb (negative p N) (negative p M)) 0 (max_exponent p * 2 ^ MANTISSA_BITS p)) as Ep.
      unfold signed_bits in Ep. rewrite <- Ep; [by destruct Tu as [-> | ->]|by destruct p|by destruct p]. }
  destruct Cm as [(? & _)|(Pm & -> & Sv & Tv & sm & Um)]; [done|]. destruct Cn as [(Zn & -> & Tu)|(Pn & -> & Su & Tu & sn & Un)].
  - unfold fdiv, div_special. rewrite En, Em, Tu, Zn. eexists. rewrite round_flushing_zero.
    replace (signed_bits p (xorb (negative p N) (negative p M)) 0)
      with (vfp_pack p (mk_unpacked 0 (Z.lxor (sign (zero_operand p N)) (sign v)) 0)).
    + by destruct Tv as [-> | ->].
    + cbn [sign zero_operand]. rewrite Sv. replace (Z.lxor _ _) with (sign_bit (xorb (negative p N) (negative p M))) by (by destruct (negative p N), (negative p M)).
      by rewrite (pack_spec p 0 _ 0 0) by (by destruct p).
  - by apply (fdiv_numbers p n m N M u v sn sm).
Qed.
End ArmFd.
