(* ===== verification/ArmFloatEnds.v ===== *)
(** * Floating-point operations end

    The corrections of the estimates of quotients and square roots end for every operand, so the operations of the
    floating-point unit are total and respect the frames of the interpreter. *)
From S2P Require Import Prelude BitField ArmSupport ArmState ArmVfp ArmFloat ArmFloatOps ArmInterpreter ArmFrame ArmRounding ArmFloatFacts ArmFloatMul ArmFloatAdd ArmFloatDiv.

Module ArmFe.
Import Arm ArmS ArmV ArmFl ArmFo ArmX ArmF ArmR ArmFf ArmFm ArmFa ArmFd.

(** ** Negative remainders *)

Definition word64 (x : Z) : Prop := 0 <= x < 2 ^ 64.
(** The number two words stand for in two's complement. *)
Definition value128 (h l : Z) : Z := h * 2 ^ 64 + l - 2 ^ 128 * Z.b2z (2 ^ 63 <=? h).
Lemma value128_holds h l : word64 h -> word64 l -> holds h l (value128 h l) /\ - 2 ^ 127 <= value128 h l < 2 ^ 127.
Proof.
  intros Hh Hl. unfold value128, word64 in *. split.
  - apply holds_word; [done..|]. exists (Z.b2z (2 ^ 63 <=? h)). lia.
  - destruct (Z.leb_spec (2 ^ 63) h); cbn [Z.b2z]; lia.
Qed.
Lemma value128_unique h l x : holds h l x -> - 2 ^ 127 <= x < 2 ^ 127 -> value128 h l = x.
Proof.
  intros (Hh & Hl & E) Hx. destruct (value128_holds h l Hh Hl) as [(_ & _ & E') Hv]. rewrite E in E'.
  destruct (Z.le_gt_cases 0 x), (Z.le_gt_cases 0 (value128 h l)).
  - rewrite !Z.mod_small in E' by lia. done.
  - rewrite Z.mod_small, <- (Z.mod_unique_pos (value128 h l) (2 ^ 128) (-1) (value128 h l + 2 ^ 128)) in E' by lia. lia.
  - rewrite <- (Z.mod_unique_pos x (2 ^ 128) (-1) (x + 2 ^ 128)), Z.mod_small in E' by lia. lia.
  - rewrite <- (Z.mod_unique_pos x (2 ^ 128) (-1) (x + 2 ^ 128)), <- (Z.mod_unique_pos (value128 h l) (2 ^ 128) (-1) (value128 h l + 2 ^ 128)) in E' by lia. lia.
Qed.
Lemma add128_value h l h' l' : word64 h -> word64 l -> word64 h' -> word64 l' -> value128 h l < 0 -> h' * 2 ^ 64 + l' < 2 ^ 127 ->
  let r := add128 h l h' l' in value128 r.1 r.2 = value128 h l + (h' * 2 ^ 64 + l') /\ word64 r.1 /\ word64 r.2.
Proof.
  intros Hh Hl Hh' Hl' Hn Ht. destruct (value128_holds h l Hh Hl) as [Hv Hr].
  pose proof (add128_holds h l h' l' _ _ Hv (holds_words h' l' Hh' Hl')) as Ha. cbv zeta. destruct (add128 h l h' l') as [rh rl]. cbn [fst snd] in *.
  split; [apply value128_unique; [done|unfold word64 in *; lia]|]. destruct Ha as (? & ? & _). done.
Qed.
(** A loop that adds to a negative remainder ends. *)
Lemma remainder_ends (next : Z -> Z) (addend : Z -> Z * Z) (ok : Z -> Prop) z h l :
  (forall z, ok z -> ok (next z) /\ word64 (addend z).1 /\ word64 (addend z).2 /\ 0 < (addend z).1 * 2 ^ 64 + (addend z).2 < 2 ^ 127) ->
  ok z -> word64 h -> word64 l ->
  exists z' h' l', while (fun '(_, (remh, _)) => negative64 remh) (fun '(z, (remh, reml)) => (next z, add128 remh reml (addend z).1 (addend z).2)) (z, (h, l)) =
    Done (z', (h', l')) /\ ok z' /\ word64 h' /\ word64 l'.
Proof.
  intros Hok Hz Hh Hl.
  assert (Hneg : forall h l, word64 h -> word64 l -> negative64 h = (value128 h l <? 0)).
  { intros h0 l0 H1 H2. destruct (value128_holds h0 l0 H1 H2). by apply (holds_negative h0 l0). }
  destruct (while_ends (fun '(_, (remh, _)) => negative64 remh) (fun '(z, (remh, reml)) => (next z, add128 remh reml (addend z).1 (addend z).2))
    (fun '((z, (h, l)) : Z * (Z * Z)) => ok z /\ word64 h /\ word64 l) (fun '((_, (h, l)) : Z * (Z * Z)) => Z.to_nat (- value128 h l)) (z, (h, l)))
    as ([z' [h' l']] & E & (? & ? & ?) & _); [done| | |by exists z', h', l'].
  - intros [z0 [h0 l0]] (H1 & H2 & H3) Hc. rewrite (Hneg h0 l0) in Hc by done. apply Z.ltb_lt in Hc.
    destruct (Hok z0 H1) as (H4 & H5 & H6 & H7).
    pose proof (add128_value h0 l0 _ _ H2 H3 H5 H6 Hc ltac:(lia)) as Ha. cbv zeta in Ha. destruct (add128 h0 l0 _ _) as [rh rl]. cbn [fst snd] in Ha.
    destruct Ha as (Ev & ? & ?). split; [done|]. rewrite Ev. lia.
  - destruct (value128_holds h l Hh Hl) as [_ Hr]. lia.
Qed.

Lemma word64_u64 x : word64 (u64 x).
Proof. apply u64_range. Qed.
Lemma words_add128 a b c d : word64 (add128 a b c d).1 /\ word64 (add128 a b c d).2.
Proof. unfold add128. cbn [fst snd]. split; [destruct (_ <? _)|]; apply word64_u64. Qed.
Lemma words_sub128 a b c d : word64 (sub128 a b c d).1 /\ word64 (sub128 a b c d).2.
Proof. unfold sub128. cbn [fst snd]. split; [destruct (_ <? _)|]; apply word64_u64. Qed.

(** ** Estimates *)

Lemma estimate_ends nh nl m : 0 <= nh -> word64 m -> exists z, vfp_estimate_div128to64 nh nl m = Done z.
Proof.
  intros Hn Hm. unfold vfp_estimate_div128to64. destruct (Z.leb_spec m nh); [by eexists|].
  destruct (mul64to128 m _) as [th tl]. pose proof (words_sub128 nh nl th tl) as [Hh Hl]. destruct (sub128 nh nl th tl) as [rh rl]. cbn [fst snd] in *.
  destruct (shifted_holds m Hm) as (H1 & H2 & H3). rewrite Z.mod_small in H3 by (unfold word64 in *; lia).
  destruct (remainder_ends (fun z => u64 (z - 0x100000000)) (fun _ => (Z.shiftr m 32, u64 (Z.shiftl m 32))) (fun _ => True)
    (if u64 (Z.shiftl (Z.shiftr m 32) 32) <=? nh then 0xffffffff00000000 else u64 (Z.shiftl (nh / Z.shiftr m 32) 32)) rh rl) as (z' & h' & l' & E & _); try done.
  - intros _ _. cbn [fst snd]. split_and!; try done; unfold word64 in *; lia.
  - cbn [fst snd] in E. rewrite E. by eexists.
Qed.

(** ** Quotients *)

Lemma double_quotient_ends n m : 0 <= n -> 0 < m < 2 ^ 64 -> exists z, double_quotient n m = Done z.
Proof.
  intros Hn Hm. unfold double_quotient. destruct (estimate_ends n 0 m Hn ltac:(unfold word64; lia)) as [z ->].
  cbv beta iota delta [mbind outcome_bind]. destruct (_ <=? 2); [|by eexists].
  destruct (mul64to128 m z) as [th tl]. pose proof (words_sub128 n 0 th tl) as [Hh Hl]. destruct (sub128 n 0 th tl) as [rh rl]. cbn [fst snd] in *.
  destruct (remainder_ends (fun z => u64 (z - 1)) (fun _ => (0, m)) (fun _ => True) z rh rl) as (z' & h' & l' & E & _); try done.
  - intros _ _. cbn [fst snd]. unfold word64. split_and!; try done; lia.
  - cbn [fst snd] in E. rewrite E. by eexists.
Qed.
Lemma quotient_ends p n m : 0 <= n -> 0 < m < 2 ^ 64 -> exists z, quotient p n m = Done z.
Proof. destruct p; [by eexists|apply double_quotient_ends]. Qed.

(** The significand of a divisor is not zero. *)
Lemma unpack_bounds p v fpscr : let '(u, _) := vfp_unpack p v fpscr in 0 <= significand u < 2 ^ (width p - 1).
Proof.
  unfold vfp_unpack. destruct (fields p) as (_ & _ & _ & _ & _ & _ & _ & Hw & _).
  set (x := Z.shiftr (uint p _) 2). assert (Hx : 0 <= x < 2 ^ (width p - 2)).
  { subst x. rewrite Z.shiftr_div_pow2 by lia. assert (Hb : 0 <= uint p (Z.shiftl v (width p - MANTISSA_BITS p)) < 2 ^ width p) by (apply Z.mod_pos_bound; lia). destruct Hb as [Hl Hh].
    split; [apply Z.div_pos; lia|]. apply Z.div_lt_upper_bound; [lia|]. replace (2 ^ 2 * 2 ^ (width p - 2)) with (2 ^ width p) by (rewrite <- Z.pow_add_r by lia; f_equal; lia). done. }
  assert (H2 : 2 ^ (width p - 1) = 2 ^ (width p - 2) + 1 * 2 ^ (width p - 2)) by (replace (width p - 1) with (Z.succ (width p - 2)) by lia; rewrite Z.pow_succ_r by lia; lia).
  destruct (_ && has (vfp_type _ _) _); [cbn; lia|]. cbn [significand]. destruct (_ && _); [|lia].
  rewrite Z.shiftl_1_l. replace (2 ^ (width p - 2)) with (1 * 2 ^ (width p - 2)) at 1 2 by lia. rewrite lor_add by lia. lia.
Qed.
Lemma normalised_pos p u : 0 < significand u < 2 ^ (width p - 1) -> 0 < significand (normalised p u) < 2 ^ (width p - 1).
Proof.
  intros Hp. unfold normalised. destruct (has _ VFP_DENORMAL); [|lia]. unfold vfp_normalise_denormal. destruct (_ =? 0) eqn:E; [lia|].
  cbn [significand with_significand]. destruct (fields p) as (_ & _ & _ & _ & _ & _ & _ & Hw & _). rewrite denormal_bits_spec in * by lia.
  pose proof (Z.log2_spec (significand u) ltac:(lia)) as [Ll Lh]. pose proof (Z.log2_nonneg (significand u)).
  assert (Hlog : Z.log2 (significand u) < width p - 1) by (apply Z.log2_lt_pow2; lia). set (b := width p - 2 - Z.log2 (significand u)) in *.
  apply Z.eqb_neq in E. rewrite Z.shiftl_mul_pow2 by lia.
  assert (Hb : 0 < significand u * 2 ^ b < 2 ^ (width p - 1)).
  { split; [lia|]. replace (width p - 1) with (Z.succ (Z.log2 (significand u)) + b) by lia. rewrite Z.pow_add_r by lia. apply Z.mul_lt_mono_pos_r; lia. }
  assert (2 ^ (width p - 1) < 2 ^ width p) by (apply Z.pow_lt_mono_r; lia). rewrite uint_small by lia. done.
Qed.
Lemma divisor_pos p m fpscr u e : vfp_unpack p m fpscr = (u, e) ->
  has (vfp_type p u) VFP_NAN = false -> has (vfp_type p u) VFP_INFINITY = false -> has (vfp_type p u) VFP_ZERO = false -> 0 < significand u < 2 ^ (width p - 1).
Proof.
  intros E Hn Hi Hz. pose proof (unpack_bounds p m fpscr) as Hb. rewrite E in Hb. assert (significand u ≠ 0); [|lia]. intros Es.
  unfold vfp_type in *. rewrite Es in *. destruct (Z.eqb_spec (exponent u) (max_exponent p)); [done|].
  destruct (Z.eqb_spec (exponent u) 0) as [E0|E0]; [done|]. unfold vfp_unpack in E. destruct (_ && has (vfp_type _ _) _) in E; injection E as <- _; [done|].
  cbn [exponent significand] in *. destruct (Z.eqb_spec (packed_exponent p m) 0); [done|]. destruct (Z.eqb_spec (packed_exponent p m) (max_exponent p)); [done|].
  cbn [negb andb] in Es. apply Z.lor_eq_0_iff in Es as [_ Es]. destruct p; done.
Qed.
Lemma div_special_divisor p n m fpscr vn vm sgn : div_special p n m fpscr = inr (vn, vm, sgn) -> 0 < significand vm < 2 ^ (width p - 1) /\ 0 <= significand vn < 2 ^ (width p - 1).
Proof.
  unfold div_special. destruct (vfp_unpack p n fpscr) as [u e] eqn:En, (vfp_unpack p m fpscr) as [v e'] eqn:Em. cbv zeta.
  destruct (has (vfp_type p u) VFP_NAN) eqn:N1; [by destruct (vfp_propagate_nan _ _ _ _)|].
  destruct (has (vfp_type p v) VFP_NAN) eqn:N2; [by destruct (vfp_propagate_nan _ _ _ _)|].
  destruct (has (Z.land _ _) _); [done|]. destruct (has (vfp_type p u) VFP_INFINITY) eqn:I1; [done|].
  destruct (has (vfp_type p v) VFP_ZERO) eqn:Z2; [done|]. destruct (has (vfp_type p v) VFP_INFINITY) eqn:I2; [done|].
  destruct (has (vfp_type p u) VFP_ZERO) eqn:Z1; [done|]. cbn [orb]. intros [= <- <- _].
  pose proof (normalised_pos p v (divisor_pos _ _ _ _ _ Em N2 I2 Z2)). pose proof (normalised_pos p u (divisor_pos _ _ _ _ _ En N1 I1 Z1)).
  unfold normalised in *. lia.
Qed.
Lemma fdiv_ends p n m fpscr : exists r, fdiv p n m fpscr = Done r.
Proof.
  unfold fdiv. destruct (div_special p n m fpscr) as [r|[[vn vm] sgn]] eqn:E; [by eexists|]. apply div_special_divisor in E as [Hv Hu].
  destruct (div_align p vn vm) as [[e a] b] eqn:Ea. destruct (fields p) as (_ & _ & _ & _ & _ & _ & _ & Hw & _).
  assert (Hb : 0 <= a /\ 0 < b < 2 ^ 64).
  { assert (H1 : 2 ^ width p = 2 * 2 ^ (width p - 1)) by (rewrite <- Z.pow_succ_r by lia; f_equal; lia). assert (2 ^ width p <= 2 ^ 64) by (by destruct p).
    unfold div_align in Ea. rewrite Z.shiftl_mul_pow2 in Ea by lia. change (2 ^ 1) with 2 in Ea. rewrite (uint_small p (significand vm * 2)) in Ea by lia.
    destruct (_ <=? _) in Ea; injection Ea as _ <- <-; [|lia]. rewrite Z.shiftr_div_pow2 by lia. split; [apply Z.div_pos; lia|lia]. }
  destruct (quotient_ends p a b) as [z ->]; [lia|lia|]. by eexists.
Qed.

(** ** Square roots *)

Lemma sqrt_special_operand p m fpscr vm e : sqrt_special p m fpscr = inr (vm, e) -> 0 < significand vm < 2 ^ (width p - 1).
Proof.
  unfold sqrt_special. destruct (vfp_unpack p m fpscr) as [u e'] eqn:Em.
  destruct (has (vfp_type p u) VFP_NAN) eqn:N; [by destruct (vfp_propagate_nan _ _ _ _)|].
  destruct (has (vfp_type p u) VFP_INFINITY) eqn:I1; [by destruct (sign u =? 0)|]. destruct (has (vfp_type p u) VFP_ZERO) eqn:Z1; [done|].
  cbv zeta. destruct (negb _); [done|]. intros [= <- _].
  exact (normalised_pos p u (divisor_pos _ _ _ _ _ Em N I1 Z1)).
Qed.
Lemma lor_1_bounds k z : 0 < k -> 0 <= z < 2 ^ k -> 0 < Z.lor z 1 < 2 ^ k.
Proof.
  intros Hk Hz. rewrite lor_1 by lia. destruct (Z.even z) eqn:E.
  - apply Z.even_spec in E as [y ->]. replace k with (Z.succ (k - 1)) in * by lia. rewrite Z.pow_succ_r in * by lia. lia.
  - assert (z ≠ 0) by (intros ->; done). lia.
Qed.
(** Twice a word and one: what the square of an estimate loses when the estimate loses one. *)
Definition odd_double (z : Z) : Z * Z := let t := shift64left z in (t.1, Z.lor t.2 1).
Lemma odd_double_bounds z : word64 z -> word64 (odd_double z).1 /\ word64 (odd_double z).2 /\ 0 < (odd_double z).1 * 2 ^ 64 + (odd_double z).2 < 2 ^ 127.
Proof.
  intros Hz. unfold odd_double, shift64left, word64 in *. cbn [fst snd].
  assert (H1 : 0 <= Z.shiftr z 63 < 2) by (rewrite Z.shiftr_div_pow2 by lia; split; [apply Z.div_pos; lia|apply Z.div_lt_upper_bound; lia]).
  assert (H2 : 0 < Z.lor (u64 (Z.shiftl z 1)) 1 < 2 ^ 64)
    by (apply lor_1_bounds; [lia|apply u64_range]).
  lia.
Qed.
Lemma double_sqrt_significand_ends e m : 0 <= m -> exists z, double_sqrt_significand e m = Done z.
Proof.
  intros Hm. unfold double_sqrt_significand. destruct (estimate_ends (Z.shiftr m (1 + Z.land e 1)) 0 (u64 (Z.shiftl (vfp_estimate_sqrt_significand e (u32 (Z.shiftr m 32))) 31))) as [d ->]; [by apply Z.shiftr_nonneg|apply word64_u64|].
  cbv beta iota zeta delta [mbind outcome_bind]. destruct (_ <=? 5); [|by eexists]. destruct (_ <? 2); [by eexists|].
  set (z0 := u64 (u64 (Z.shiftl _ 31) + _)). destruct (mul64to128 z0 z0) as [th tl].
  pose proof (words_sub128 (u64 (Z.shiftl (Z.shiftr m (1 + Z.land e 1)) 2)) 0 th tl) as [Hh Hl]. destruct (sub128 _ 0 th tl) as [rh rl]. cbn [fst snd] in *.
  destruct (remainder_ends (fun z => u64 (z - 1)) (fun z => odd_double (u64 (z - 1))) word64 z0 rh rl) as (z' & h' & l' & E & _); try done.
  - intros z Hz. split; [apply word64_u64|]. apply odd_double_bounds, word64_u64.
  - apply word64_u64.
  - unfold odd_double, shift64left in E. cbn [fst snd] in E. unfold shift64left. rewrite E. by eexists.
Qed.
Lemma double_sqrt_ends m fpscr : exists r, double_sqrt m fpscr = Done r.
Proof.
  unfold double_sqrt. destruct (sqrt_special double m fpscr) as [r|[vm e]] eqn:E; [by eexists|]. apply sqrt_special_operand in E.
  destruct (double_sqrt_significand_ends (exponent vm) (significand vm)) as [z ->]; [lia|].
  cbv beta iota zeta delta [mbind outcome_bind]. destruct (vfp_normaliseround _ _ _ _). by eexists.
Qed.
Lemma s64_range x : - 2 ^ 63 <= s64 x < 2 ^ 63.
Proof. unfold s64, swrap. pose proof (Z.mod_pos_bound (x + 2 ^ (64 - 1)) (2 ^ 64) ltac:(lia)). lia. Qed.
Lemma single_sqrt_significand_ends e m : exists z, single_sqrt_significand e m = Done z.
Proof.
  unfold single_sqrt_significand. cbv zeta. destruct (_ <=? 5); [|by eexists]. destruct (_ <? 2); [by eexists|].
  set (z0 := u32 (_ + 2)). set (r0 := s64 _).
  destruct (while_ends (fun '(_, rem) => rem <? 0) (fun '(z, rem) => let z := u32 (z - 1) in (z, s64 (rem + Z.lor (u64 (Z.shiftl z 1)) 1)))
    (fun '((z, r) : Z * Z) => - 2 ^ 63 <= r < 2 ^ 63) (fun '((_, r) : Z * Z) => Z.to_nat (- r)) (z0, r0)) as ([z' r'] & E & _).
  - apply s64_range.
  - intros [z r] Hr Hc. apply Z.ltb_lt in Hc. cbv zeta. split; [apply s64_range|].
    assert (Hz : 0 <= u32 (z - 1) < 2 ^ 32) by apply u32_range. set (y := u32 (z - 1)) in *. clearbody y.
    assert (Hy : 0 < Z.lor (u64 (Z.shiftl y 1)) 1 < 2 ^ 33).
    { rewrite Z.shiftl_mul_pow2 by lia. change (2 ^ 1) with 2. unfold u64, wrap. rewrite Z.mod_small by lia. apply lor_1_bounds; lia. }
    rewrite s64_small by lia. lia.
  - pose proof (s64_range (u64 (u64 (Z.shiftl (u32 (Z.shiftl m (if Z.land e 1 =? 0 then 1 else 0))) 32) - u64 (z0 * z0)))). subst r0. lia.
  - cbv zeta in E. rewrite E. by eexists.
Qed.
Lemma single_sqrt_ends m fpscr : exists r, single_sqrt m fpscr = Done r.
Proof.
  unfold single_sqrt. destruct (sqrt_special single m fpscr) as [r|[vm e]] eqn:E; [by eexists|].
  destruct (single_sqrt_significand_ends (exponent vm) (significand vm)) as [z ->].
  cbv beta iota zeta delta [mbind outcome_bind]. destruct (vfp_normaliseround _ _ _ _). by eexists.
Qed.

(** ** The floating-point unit *)

Section Unit.
Context {M : Type} `{Bus M}.
#[local] Abbreviation arm := (@ArmS.arm M).
#[local] Existing Instance vfp_unit.
Context (P : fault -> Prop) (R : cpu M -> cpu M -> Prop) `{!Faults P} `{!Frame R}.
#[local] Abbreviation respects := (Respects P R).

(** An operation is safe if it only touches the registers of the unit, for all its operands. *)
Definition calm (f : operation) : Prop := forall dest n m fpscr, respects (f dest n m fpscr).
#[local] Abbreviation bound := (respects_bind P R _ _).
#[local] Abbreviation returned := (respects_ret P R _).
Ltac respect :=
  repeat lazymatch goal with
    | |- Respects _ _ (mret _) => apply returned
    | |- Respects _ _ (mbind _ _) => apply bound; [|intros ?]
    | |- Respects _ _ (get_ext _) => apply (respects_get_ext P R)
    | |- Respects _ _ (set_ext _ _) => apply (respects_set_ext P R)
    | |- Respects _ _ (lift (Stop _)) => apply (respects_stopped P R); discriminate
    end.
Lemma respects_get p r : respects (get p r).
Proof. destruct p; unfold get, vfp_get_float, vfp_get_double; respect. Qed.
Lemma respects_put p r v : respects (put p r v).
Proof. destruct p; unfold put, vfp_put_float, vfp_put_double; respect. Qed.
Lemma respects_give p dest r : respects (give p dest r).
Proof. unfold give. respect. apply respects_put. Qed.
Lemma respects_second p m : respects (second p m).
Proof. destruct p; unfold second; [respect|apply (respects_get double)]. Qed.
Lemma calm_unary p q f : calm (unary p q f).
Proof. intros dest n m fpscr. unfold unary. apply bound; [apply respects_second|intros ?; apply respects_give]. Qed.
Lemma respects_total {A B} (o : outcome A) (k : A -> arm B) : (exists r, o = Done r) -> (forall a, respects (k a)) -> respects (r ← lift o; k r).
Proof. intros [r ->] Hk. apply bound; [|done]. apply (respects_lift P R). discriminate. Qed.
Lemma calm_unary_loop p f : (forall m fpscr, exists r, f m fpscr = Done r) -> calm (unary_loop p f).
Proof.
  intros Hf dest n m fpscr. unfold unary_loop. apply bound; [apply respects_second|intros ?].
  apply respects_total; [apply Hf|intros ?; apply respects_give].
Qed.
Lemma calm_binary p f : calm (binary p f).
Proof.
  intros dest n m fpscr. unfold binary. apply bound; [apply respects_get|intros ?].
  apply bound; [apply respects_second|intros ?; apply respects_give].
Qed.
Lemma calm_binary_loop p f : (forall n m fpscr, exists r, f n m fpscr = Done r) -> calm (binary_loop p f).
Proof.
  intros Hf dest n m fpscr. unfold binary_loop. apply bound; [apply respects_get|intros ?].
  apply bound; [apply respects_second|intros ?]. apply respects_total; [apply Hf|intros ?; apply respects_give].
Qed.
Lemma calm_accumulate p a b : calm (accumulate p a b).
Proof.
  intros dest n m fpscr. unfold accumulate. apply bound; [apply respects_get|intros ?].
  apply bound; [apply respects_second|intros ?]. apply bound; [apply respects_get|intros ?; apply respects_give].
Qed.
Lemma calm_compare p a b : calm (compare_with p a b).
Proof.
  intros dest n m fpscr. unfold compare_with. apply bound; [destruct b; [respect|apply respects_second]|intros ?].
  apply bound; [apply respects_get|intros ?; respect].
Qed.
Lemma calm_from_integer p f : calm (from_integer p f).
Proof. intros dest n m fpscr. unfold from_integer. apply bound; [destruct p; [respect|apply (respects_get single)]|intros ?; apply respects_give]. Qed.
Definition calm_op (o : op) : Prop := forall f, fn o = Some f -> calm f.
Lemma calm_some f a b c : calm f -> calm_op (mk_op (Some f) a b c).
Proof. intros Hf g [= <-]. done. Qed.
Lemma calm_none : calm_op none.
Proof. intros g. discriminate. Qed.
Lemma calm_tables : Forall calm_op single_fops /\ Forall calm_op double_fops /\ Forall calm_op single_fops_ext /\ Forall calm_op double_fops_ext.
Proof.
  unfold single_fops, double_fops, fops, single_fops_ext, double_fops_ext, copies, compares, to_integers, vector, scalar. cbn [app].
  split_and!; repeat (cbv zeta; lazymatch goal with
    | |- Forall _ (_ :: _) => apply Forall_cons_2
    | |- Forall _ [] => apply Forall_nil_2
    | |- calm_op none => apply calm_none
    | |- calm_op _ => apply calm_some
    | |- calm (unary _ _ _) => apply calm_unary
    | |- calm (unary_loop single _) => apply calm_unary_loop, single_sqrt_ends
    | |- calm (unary_loop double _) => apply calm_unary_loop, double_sqrt_ends
    | |- calm (binary_loop _ _) => apply calm_binary_loop, fdiv_ends
    | |- calm (binary _ _) => apply calm_binary
    | |- calm (accumulate _ _ _) => apply calm_accumulate
    | |- calm (compare_with _ _ _) => apply calm_compare
    | |- calm (from_integer _ _) => apply calm_from_integer
    end).
Qed.
Lemma find_op_calm ext plain inst o : Forall calm_op ext -> Forall calm_op plain -> find_op ext plain inst = Done o -> calm_op o.
Proof.
  intros He Hp. unfold find_op. cbv zeta. destruct (_ =? _).
  - destruct (ext !! _) eqn:E; [|discriminate]. intros [= <-]. exact (Forall_lookup_1 _ _ _ _ He E).
  - destruct (plain !! _) eqn:E; [|discriminate]. intros [= <-]. exact (Forall_lookup_1 _ _ _ _ Hp E).
Qed.
Lemma find_op_fault (ext plain : list (@op M)) inst f : find_op ext plain inst = Stop f -> f = FOutOfRange.
Proof. unfold find_op. cbv zeta. destruct (_ =? _); (destruct (_ !! _); [discriminate|by intros [= <-]]). Qed.
Lemma respects_elements p f fpscr stride n dest sn sm e : calm f -> respects (each_element p f fpscr stride n dest sn sm e).
Proof.
  intros Hf. revert dest sn sm e. induction n as [|n IH]; intros; cbn [each_element]; [respect|].
  apply bound; [destruct p; [apply (respects_get single)|respect]|intros ?].
  apply bound; [apply Hf|intros ?; apply IH].
Qed.
Lemma respects_dispatch {A} ext plain inst (k : op -> arm A) :
  Forall calm_op ext -> Forall calm_op plain -> (forall o, calm_op o -> respects (k o)) -> respects (o ← lift (find_op ext plain inst); k o).
Proof.
  intros He Hp Hk s. unfold mbind, arm_bind, lift. destruct (find_op ext plain inst) as [o|f] eqn:E.
  - apply Hk, (find_op_calm ext plain inst o He Hp E).
  - apply find_op_fault in E as ->. change (P FOutOfRange). by apply ordinary.
Qed.
Lemma respects_vfp dp inst fpscr : respects (cpdo dp inst fpscr).
Proof.
  destruct calm_tables as (H1 & H2 & H3 & H4). unfold cpdo, vfp_unit. destruct dp; [unfold vfp_double_cpdo|unfold vfp_single_cpdo].
  - apply respects_dispatch; [done..|]. intros o Ho. cbv zeta. destruct (fn o) as [f|] eqn:E; [|respect]. by apply respects_elements, Ho.
  - apply respects_dispatch; [done..|]. intros o Ho. cbv zeta. destruct (fn o) as [f|] eqn:E; [|respect]. by apply respects_elements, Ho.
Qed.
End Unit.

End ArmFe.
