(* ===== verification/ArmBudget.v ===== *)
(** * Frames of runs

    The type of the processor, the isolation of user mode and the budget of instructions are frames of the whole loop. *)
From S2P Require Import Prelude BitField ArmSupport ArmState ArmOperands ArmDecode ArmTranslate ArmAlu ArmTransfer ArmVfp ArmInterpreter ArmFrame ArmTyping ArmIsolation ArmRun.

Module ArmB.
Import Arm ArmS ArmOp ArmI ArmA ArmM ArmV ArmX ArmF ArmTy ArmU ArmRun.

Section Frames.
Context {M : Type} `{Bus M}.
Implicit Types s : cpu M.

(** ** Type *)

Lemma wf_left n s : wf s -> wf (set_NumInstrsToExecute n s).
Proof. intros []. by constructor. Qed.
Lemma wf_align s : wf s -> wf (align_pc s).
Proof.
  intros W. pose proof (wf_reg s 15 W) as Hr. destruct W. constructor; try done. cbn. apply file_put; [done|].
  by apply word_land_l.
Qed.
#[export] Instance type_run : RunFrame (M:=M) keeps_type.
Proof.
  constructor; unfold keeps_type; intros; [exact _|by apply wf_left|by apply wf_LOAD| |by apply wf_align].
  apply wf_set_Cpsr; [done|]. apply word_lor; [by apply word_land_r, word_not32|apply word_u32].
Qed.

(** ** Isolation *)

Lemma thumb_masks s : flag (TFlag s) -> Z.land (Cpsr (GDB_BP_CHECK s)) PrivMask = Z.land (Cpsr s) PrivMask.
Proof.
  intros Ht. apply land_agree; [done|]. intros i Hi Hb. cbn -[Z.lor Z.land Z.shiftl u32 Z.testbit not32].
  assert (Hlow : i < 9 /\ i ≠ 5).
  { apply priv_bit in Hb; [|done]. by repeat (apply elem_of_cons in Hb as [-> | Hb]; [done|]); apply elem_of_nil in Hb. }
  rewrite Z.lor_spec, Z.land_spec. unfold not32, u32. rewrite !BitField.wrap_testbit, Z.lnot_spec, !Z.shiftl_spec by lia.
  assert (Hs : forall v, flag v -> Z.testbit v (i - 5) = false).
  { intros v [-> | ->]; [apply Z.bits_0|]. change 1 with (2 ^ 0). destruct (Z.le_gt_cases 5 i); [|by apply Z.testbit_neg_r; lia].
    rewrite Z.pow2_bits_eqb by lia. destruct (Z.eqb_spec 0 (i - 5)); [lia|done]. }
  rewrite (Hs 1), (Hs (TFlag s)) by (done || by right). destruct (Z.ltb_spec i 32); [|lia]. by rewrite andb_true_r, andb_false_r, orb_false_r.
Qed.
#[export] Instance isolation_run : RunFrame (M:=M) isolates.
Proof.
  constructor; intros.
  - exact _.
  - intros (? & ? & ?). split; [by split_and!|by constructor].
  - apply isolates_LOAD.
  - intros U. apply isolates_Cpsr; [|done]. apply thumb_masks, U.
  - intros (? & ? & ?). split; [by split_and!|by constructor].
Qed.

(** ** Budget *)

(** The instructions left do not grow. *)
Definition budget s s' : Prop := 0 <= NumInstrsToExecute s -> 0 <= NumInstrsToExecute s' <= NumInstrsToExecute s.
Lemma budget_same s s' : NumInstrsToExecute s' = NumInstrsToExecute s -> budget s s'.
Proof. unfold budget. lia. Qed.

Lemma left_save s : NumInstrsToExecute (save_bank s) = NumInstrsToExecute s.
Proof. unfold save_bank. repeat case_match; done. Qed.
Lemma left_load m s : NumInstrsToExecute (load_bank m s) = NumInstrsToExecute s.
Proof. unfold load_bank. repeat case_match; done. Qed.
Lemma left_mode m s : NumInstrsToExecute (ChangePrivilegeMode m s) = NumInstrsToExecute s.
Proof. unfold ChangePrivilegeMode. destruct (_ =? m); [done|]. destruct (m =? _); [done|]. cbn. by rewrite left_load, left_save. Qed.
Lemma left_cp15 rows v crn opcode_1 crm opcode_2 s : NumInstrsToExecute (write_selected rows v crn opcode_1 crm opcode_2 s) = NumInstrsToExecute s.
Proof. unfold write_selected. by destruct (select _ _ _ _ _). Qed.
#[export] Instance budget_frame : Frame (M:=M) budget.
Proof.
  constructor; try (intros; by apply budget_same).
  - intros s1 s2 s3. unfold budget. lia.
  - intros. apply budget_same. unfold restore_status. destruct (CurrentModeHasSPSR s); [|done]. cbn. by rewrite left_mode.
  - intros s s' Hb. unfold budget in *. rewrite !left_mode in *. exact Hb.
  - intros. apply budget_same. unfold cps_status. cbv beta zeta. destruct (negb (mmod =? 0)); [rewrite left_mode|]; destruct (negb (imod1 =? 0)); done.
  - intros. apply budget_same. unfold msr_cpsr. cbv zeta. cbn. by rewrite left_mode.
  - intros. apply budget_same. unfold msr_spsr. by destruct (CurrentModeHasSPSR s).
  - intros. apply budget_same. unfold WriteCP15Register. rewrite left_cp15. destruct (InAPrivilegedMode s); [apply left_cp15|done].
  - intros s Hs. cbn. lia.
Qed.
#[export] Instance budget_run : RunFrame (M:=M) budget.
Proof.
  constructor; try (intros; by apply budget_same); [exact _|]. intros n s Hn _. exact Hn.
Qed.
Lemma budget_shrinks : shrinks (M:=M) budget.
Proof. intros s s' Hb. exact Hb. Qed.

(** ** Nothing *)

(** The frame that only speaks of faults. *)
Definition anything s s' : Prop := True.
#[export] Instance anything_frame : Frame (M:=M) anything.
Proof. by constructor. Qed.

End Frames.
End ArmB.
