(* ===== verification/ArmReference.v ===== *)
(** * Data processing by the architecture

    What the architecture says of the shifter operand and of the sixteen operations of data processing: shifts bit by
    bit, arithmetic on exact integers; and that the labels of the interpreter do the same. *)
From S2P Require Import Prelude BitField ArmSupport ArmState ArmOperands ArmDecode ArmTranslate ArmAlu ArmTransfer ArmVfp ArmInterpreter ArmFrame ArmTyping.

Module ArmRef.
Import Arm ArmS ArmOp ArmD ArmI ArmA ArmM ArmV ArmX ArmF ArmTy.

(** ** The specification *)

(** [n] bits of a word from bit [lo] on. *)
Definition field (w lo n : Z) : Z := w / 2 ^ lo mod 2 ^ n.

(** A shift by one bit of a word; the bit shifted out becomes the carry. *)
Inductive shift := LSL | LSR | ASR | ROR | RRX.
Definition shift_bit (k : shift) '((v, c) : Z * Z) : Z * Z :=
  match k with
  | LSL => (2 * v mod 2 ^ 32, v / 2 ^ 31)
  | LSR => (v / 2, v mod 2)
  | ASR => (v / 2 + v / 2 ^ 31 * 2 ^ 31, v mod 2)
  | ROR => (v / 2 + v mod 2 * 2 ^ 31, v mod 2)
  | RRX => (v / 2 + c * 2 ^ 31, v mod 2)
  end.
Definition shift_by (k : shift) (n : Z) (vc : Z * Z) : Z * Z := Nat.iter (Z.to_nat n) (shift_bit k) vc.

(** The shift of an encoding without an immediate: its kind and its amount, from the register [rs] or five bits,
    of which zero means 32 for shifts to the right and a rotation through the carry. *)
Definition shift_of (w rs : Z) : shift * Z :=
  let register := field w 4 1 =? 1 in
  let imm := field w 7 5 in
  match field w 5 2 with
  | 0 => (LSL, if register then field rs 0 8 else imm)
  | 1 => (LSR, if register then field rs 0 8 else if imm =? 0 then 32 else imm)
  | 2 => (ASR, if register then field rs 0 8 else if imm =? 0 then 32 else imm)
  | _ => if register then (ROR, field rs 0 8) else if imm =? 0 then (RRX, 1) else (ROR, imm)
  end.
(** The operand of an instruction and its carry. *)
Definition operand_of (w rm rs c : Z) : Z * Z :=
  if field w 25 1 =? 1 then shift_by ROR (2 * field w 8 4) (field w 0 8, c)
  else let '(k, n) := shift_of w rs in shift_by k n (rm, c).

(** Sums and differences on exact integers: the result, the carry and the overflow. *)
Definition sum (a b c : Z) : Z * option (bool * bool) :=
  (u32 (a + b + c), Some (2 ^ 32 <=? a + b + c, negb (signed (s32 a + s32 b + c)))).
Definition difference (a b borrow : Z) : Z * option (bool * bool) :=
  (u32 (a - b - borrow), Some (0 <=? a - b - borrow, negb (signed (s32 a - s32 b - borrow)))).
Definition alu (opcode a b c : Z) : Z * option (bool * bool) :=
  match opcode with
  | 0 | 8 => (Z.land a b, None)
  | 1 | 9 => (Z.lxor a b, None)
  | 2 | 10 => difference a b 0
  | 3 => difference b a 0
  | 4 | 11 => sum a b 0
  | 5 => sum a b c
  | 6 => difference a b (1 - c)
  | 7 => difference b a (1 - c)
  | 12 => (Z.lor a b, None)
  | 13 => (b, None)
  | 14 => (Z.ldiff a b, None)
  | _ => (2 ^ 32 - 1 - b, None)
  end.
(** The operation of a name of the decoder; CPY is a move. *)
Definition dp_opcode (o : op) : option Z :=
  match o with
  | i_and => Some 0 | i_eor => Some 1 | i_sub => Some 2 | i_rsb => Some 3 | i_add => Some 4 | i_adc => Some 5 | i_sbc => Some 6 | i_rsc => Some 7
  | i_tst => Some 8 | i_teq => Some 9 | i_cmp => Some 10 | i_cmn => Some 11 | i_orr => Some 12 | i_mov | i_cpy => Some 13 | i_bic => Some 14 | i_mvn => Some 15
  | _ => None
  end.
(** TST, TEQ, CMP and CMN give no result. *)
Definition compares (opcode : Z) : bool := (8 <=? opcode) && (opcode <=? 11).

Section Reference.
Context {M : Type} `{Bus M} `{Vfp M}.
Implicit Types s : cpu M.
#[local] Abbreviation arm := (@ArmS.arm M).

(** A register as an operand; the program counter is two instructions ahead. *)
Definition value s (i : Z) : Z := if i =? 15 then u32 (reg s 15 + 8) else reg s i.
(** What an operation leaves: the result and the flags. *)
Definition effect (opcode Rd : Z) (flags : bool) (r : Z) (cv : option (bool * bool)) (carry : Z) s : cpu M :=
  let s := set_shifter_carry_out carry s in
  let s := if compares opcode then s else set_Reg (put Rd r (Reg s)) s in
  if compares opcode || flags then
    let s := set_NFlag (r / 2 ^ 31) (set_ZFlag (Z.b2z (r =? 0)) s) in
    match cv with Some (c, v) => set_CFlag (Z.b2z c) (set_VFlag (Z.b2z v) s) | None => set_CFlag carry s end
  else s.
(** Writing the program counter is a jump; with the S bit it returns from an exception: the saved status register comes
    back, with its flags and the registers of its mode, in a mode that has one. *)
Definition jump (flags : bool) (r carry : Z) s : cpu M :=
  let s := set_Reg (put 15 r (Reg s)) (set_shifter_carry_out carry s) in
  if flags then restore_status s else s.
Definition data_processing (w : Z) s : next * cpu M :=
  let opcode := field w 21 4 in
  let '(b, carry) := operand_of w (value s (field w 0 4)) (value s (field w 8 4)) (CFlag s) in
  let '(r, cv) := alu opcode (value s (field w 16 4)) b (CFlag s) in
  if negb (compares opcode) && (field w 12 4 =? 15) then (Dispatch, jump (field w 20 1 =? 1) r carry s)
  else
    let s := effect opcode (field w 12 4) (field w 20 1 =? 1) r cv carry s in
    (Fetch, set_Reg (put 15 (u32 (reg s 15 + 4)) (Reg s)) s).

(** ** Shifts *)

Lemma shift_by_0 k vc : shift_by k 0 vc = vc.
Proof. done. Qed.
Lemma shift_by_succ k n vc : 0 <= n -> shift_by k (n + 1) vc = shift_bit k (shift_by k n vc).
Proof. intros Hn. unfold shift_by. by rewrite Z2Nat.inj_add, Nat.add_comm by lia. Qed.
(** A shift by an amount, described by the value and the carry after each amount. *)
Lemma shift_by_spec k (v c : Z) (val carry : Z -> Z) :
  val 0 = v -> carry 0 = c -> (forall n, 0 <= n -> shift_bit k (val n, carry n) = (val (n + 1), carry (n + 1))) ->
  forall n, 0 <= n -> shift_by k n (v, c) = (val n, carry n).
Proof.
  intros Hv Hc Hs. apply (natlike_ind (fun n => shift_by k n (v, c) = (val n, carry n))); [by rewrite shift_by_0, Hv, Hc|].
  intros n Hn IH. unfold Z.succ. by rewrite shift_by_succ, IH, Hs.
Qed.
Definition last_bit (c x n : Z) : Z := if n =? 0 then c else Z.b2z (Z.testbit x (n - 1)).
Lemma last_bit_succ c x n : 0 <= n -> last_bit c x (n + 1) = Z.b2z (Z.testbit x n).
Proof. intros Hn. unfold last_bit. destruct (Z.eqb_spec (n + 1) 0); [lia|]. by replace (n + 1 - 1) with n by lia. Qed.

Lemma word_top x : word x -> x / 2 ^ 31 = Z.b2z (Z.testbit x 31).
Proof. unfold word. intros Hx. rewrite (top_bit 32) by lia. destruct (Z.leb_spec (2 ^ (32 - 1)) x) as [Hc|Hc]; revert Hc; cbn [Z.b2z]; zdm. Qed.
Lemma shift_LSL v c n : word v -> 0 <= n -> shift_by LSL n (v, c) = (u32 (Z.shiftl v n), if n =? 0 then c else Z.b2z (Z.testbit v (32 - n))).
Proof.
  intros Hv. apply (shift_by_spec LSL v c (fun n => u32 (Z.shiftl v n)) (fun n => if n =? 0 then c else Z.b2z (Z.testbit v (32 - n)))); [by rewrite Z.shiftl_0_r, u32_small|done|].
  intros m Hm. cbn [shift_bit]. rewrite word_top by apply u32_range. destruct (Z.eqb_spec (m + 1) 0); [lia|]. f_equal.
  - rewrite <- Z.shiftl_shiftl, (Z.shiftl_mul_pow2 _ 1) by lia. generalize (Z.shiftl v m). intros. zdm.
  - unfold u32. rewrite BitField.wrap_testbit, Z.shiftl_spec by lia. change (31 <? 32) with true. cbn [andb]. do 2 f_equal. lia.
Qed.
Lemma shift_LSR v c n : 0 <= n -> shift_by LSR n (v, c) = (Z.shiftr v n, last_bit c v n).
Proof.
  apply (shift_by_spec LSR v c (Z.shiftr v) (last_bit c v)); [by rewrite Z.shiftr_0_r|done|].
  intros m Hm. cbn [shift_bit]. rewrite last_bit_succ, <- Z.bit0_mod, Z.shiftr_spec by lia. f_equal. by rewrite <- Z.shiftr_shiftr, (Z.shiftr_div_pow2 _ 1) by lia.
Qed.
Lemma shift_ASR v c n : word v -> 0 <= n -> shift_by ASR n (v, c) = (u32 (Z.shiftr (s32 v) n), last_bit c (s32 v) n).
Proof.
  unfold word. intros Hv. assert (Hs : - 2 ^ 31 <= s32 v < 2 ^ 31) by zdm.
  apply (shift_by_spec ASR v c (fun n => u32 (Z.shiftr (s32 v) n)) (last_bit c (s32 v))); [rewrite Z.shiftr_0_r; zdm|done|].
  intros m Hm. cbn [shift_bit]. rewrite last_bit_succ by lia. f_equal.
  - rewrite <- Z.shiftr_shiftr, (Z.shiftr_div_pow2 _ 1) by lia. assert (Hr : - 2 ^ 31 <= Z.shiftr (s32 v) m < 2 ^ 31); [|generalize dependent (Z.shiftr (s32 v) m); intros; zdm].
    rewrite Z.shiftr_div_pow2 by lia. assert (0 < 2 ^ m) by lia. set (d := 2 ^ m) in *. clearbody d. clear Hv. set (x := s32 v) in *. clearbody x. split; [apply Z.div_le_lower_bound|apply Z.div_lt_upper_bound]; nia.
  - replace (u32 (Z.shiftr (s32 v) m) mod 2) with (Z.shiftr (s32 v) m mod 2) by (generalize (Z.shiftr (s32 v) m); intros; zdm). by rewrite <- Z.bit0_mod, Z.shiftr_spec by lia.
Qed.

Lemma word_ext x y : word x -> word y -> (forall i, 0 <= i < 32 -> Z.testbit x i = Z.testbit y i) -> x = y.
Proof. intros Hx Hy Hb. apply Z.bits_inj'. intros i Hi. destruct (Z.lt_ge_cases i 32); [by apply Hb|]. by rewrite !word_high. Qed.
Lemma word_rotate v k : word v -> word (ROTATE_RIGHT_32 v k).
Proof.
  intros Hv. unfold ROTATE_RIGHT_32. apply word_lor; [apply word_u32|]. apply word_bits; [apply Z.shiftr_nonneg; unfold word in Hv; lia|].
  intros i Hi. unfold shr32. pose proof (Z.mod_pos_bound k 32 ltac:(lia)). rewrite Z.shiftr_spec by lia. apply word_high; [done|lia].
Qed.
Lemma rotate_testbit v k i : word v -> 0 <= k < 32 -> 0 <= i < 32 -> Z.testbit (ROTATE_RIGHT_32 v k) i = Z.testbit v ((i + k) mod 32).
Proof.
  intros Hv Hk Hi. unfold ROTATE_RIGHT_32, shl32, shr32, u32. rewrite Z.lor_spec, BitField.wrap_testbit, Z.shiftl_spec, Z.shiftr_spec by lia.
  rewrite (Z.mod_small k) by lia. destruct (Z.ltb_spec i 32); [|lia]. cbn [andb]. destruct (Z.eq_dec k 0) as [->|].
  - change ((32 - 0) mod 32) with 0. rewrite Z.sub_0_r, Z.add_0_r, Z.mod_small by lia. by rewrite orb_diag.
  - rewrite (Z.mod_small (32 - k)) by lia. destruct (Z.lt_ge_cases (i + k) 32).
    + rewrite (Z.testbit_neg_r v), Z.mod_small by lia. done.
    + rewrite (word_high v (i + k)), orb_false_r by done. f_equal. Z.div_mod_to_equations. lia.
Qed.
Lemma rotate_bit v : word v -> v / 2 + v mod 2 * 2 ^ 31 = ROTATE_RIGHT_32 v 1.
Proof.
  unfold word. intros Hv. unfold ROTATE_RIGHT_32, shl32, shr32. change ((32 - 1) mod 32) with 31. change (1 mod 32) with 1.
  assert (u32 (Z.shiftl v 31) = v mod 2 * 2 ^ 31) as -> by (rewrite Z.shiftl_mul_pow2 by lia; zdm).
  rewrite Z.shiftr_div_pow2 by lia. change (2 ^ 1) with 2. rewrite Z.lor_comm, <- Z.shiftl_mul_pow2 by lia. rewrite lor_shiftl_add by zdm. by rewrite Z.shiftl_mul_pow2.
Qed.
Lemma rotate_rotate v k : word v -> 0 <= k < 32 -> ROTATE_RIGHT_32 (ROTATE_RIGHT_32 v k) 1 = ROTATE_RIGHT_32 v ((k + 1) mod 32).
Proof.
  intros Hv Hk. pose proof (Z.mod_pos_bound (k + 1) 32 ltac:(lia)). apply word_ext; [by repeat apply word_rotate..|]. intros i Hi.
  pose proof (Z.mod_pos_bound (i + 1) 32 ltac:(lia)). rewrite !rotate_testbit by (done || lia || by apply word_rotate). f_equal. Z.div_mod_to_equations. lia.
Qed.
Lemma shift_ROR v c n : word v -> 0 <= n -> shift_by ROR n (v, c) = (ROTATE_RIGHT_32 v (n mod 32), if n =? 0 then c else Z.b2z (Z.testbit v ((n - 1) mod 32))).
Proof.
  intros Hv. apply (shift_by_spec ROR v c (fun n => ROTATE_RIGHT_32 v (n mod 32)) (fun n => if n =? 0 then c else Z.b2z (Z.testbit v ((n - 1) mod 32)))).
  - apply word_ext; [by apply word_rotate|done|]. intros i Hi. rewrite rotate_testbit by (done || lia). change (0 mod 32) with 0. by rewrite Z.add_0_r, Z.mod_small.
  - done.
  - intros m Hm. cbn [shift_bit]. pose proof (Z.mod_pos_bound m 32 ltac:(lia)). rewrite rotate_bit by (by apply word_rotate).
    rewrite rotate_rotate, <- Z.bit0_mod, rotate_testbit by (done || lia). destruct (Z.eqb_spec (m + 1) 0); [lia|].
    f_equal; [f_equal; by rewrite Z.add_mod_idemp_l|]. rewrite Z.add_0_l, Z.mod_mod by lia. by replace (m + 1 - 1) with m by lia.
Qed.

(** ** Operands *)

(** ARM code, at an aligned address. *)
Definition arm_state s : Prop := wf s /\ TFlag s = 0 /\ reg s 15 mod 4 = 0.
Lemma get_reg_done i s : wf s -> 0 <= i < 16 -> get_reg i s = Done (reg s i, s).
Proof.
  intros W Hi. unfold get_reg, at_index, reg. destruct (wf_Reg s W) as [Hl _].
  destruct (lookup_lt_is_Some_2 (Reg s) (Z.to_nat i)) as [v ->]; [lia|done].
Qed.
Lemma land_not32 x m : word x -> m = 1 \/ m = 3 -> x mod 4 = 0 -> Z.land x (not32 m) = x.
Proof.
  intros Hx Hm H4. apply word_ext; [by apply word_land_l|done|]. intros i Hi. unfold not32, u32. rewrite Z.land_spec, BitField.wrap_testbit, Z.lnot_spec by lia.
  destruct (Z.ltb_spec i 32); [|lia]. cbn [andb]. destruct (Z.testbit m i) eqn:E; [|by rewrite andb_true_r].
  cbn [negb]. rewrite andb_false_r. symmetry. assert (Hi2 : i = 0 \/ i = 1).
  { destruct (Z.lt_ge_cases i 2); [lia|]. destruct Hm as [-> | ->]; rewrite Z.bits_above_log2 in E; cbn; (done || lia). }
  rewrite <- (Z.mod_pow2_bits_low x 2) by lia. change (2 ^ 2) with 4. by rewrite H4, Z.bits_0.
Qed.
Lemma read15_done i s : arm_state s -> 0 <= i < 16 -> CHECK_READ_REG15 i s = Done (value s i, s).
Proof.
  intros (W & Ht & H4) Hi. unfold CHECK_READ_REG15, value. destruct (_ =? 15); [|by apply get_reg_done].
  unfold mbind, arm_bind at 1. rewrite get_reg_done by (done || lia). cbn -[u32 not32 Z.land]. unfold GetInstructionSize. rewrite Ht, land_not32; [done|by apply wf_reg|by left|done].
Qed.
Lemma read15_WA_done i s : arm_state s -> 0 <= i < 16 -> CHECK_READ_REG15_WA i s = Done (value s i, s).
Proof.
  intros (W & Ht & H4) Hi. unfold CHECK_READ_REG15_WA, value. destruct (_ =? 15); [|by apply get_reg_done].
  unfold mbind, arm_bind at 1. rewrite get_reg_done by (done || lia). cbn -[u32 not32 Z.land]. unfold GetInstructionSize. rewrite Ht, land_not32; [done|by apply wf_reg|by right|done].
Qed.
Lemma rn_pc_done i s : arm_state s -> 0 <= i < 16 -> rn_pc i s = Done (value s i, s).
Proof.
  intros (W & Ht & H4) Hi. unfold rn_pc, value. unfold mbind, arm_bind at 1. rewrite get_reg_done by done. cbn -[u32]. unfold GetInstructionSize. rewrite Ht.
  destruct (Z.eqb_spec i 15) as [->|]; done.
Qed.
Lemma word_value s i : wf s -> word (value s i).
Proof. intros W. unfold value. destruct (_ =? 15); [apply word_u32|by apply wf_reg]. Qed.

(** Fields of an instruction and of its shifter operand. *)
Lemma field_range w lo n : 0 <= n -> 0 <= field w lo n < 2 ^ n.
Proof. intros Hn. apply Z.mod_pos_bound. lia. Qed.
Lemma field_BITS w a b : 0 <= w -> 0 <= a <= b -> b <= 31 -> BITS w a b = field w a (b - a + 1).
Proof. apply BITS_spec. Qed.
Lemma operand_fields w : 0 <= w -> let so := BITS w 0 11 in
  BITS so 0 3 = field w 0 4 /\ BITS so 8 11 = field w 8 4 /\ BITS so 7 11 = field w 7 5 /\ BITS so 0 7 = field w 0 8.
Proof.
  intros Hw so. assert (Hso : so = w mod 2 ^ 12) by (subst so; rewrite BITS_spec by lia; by rewrite Z.div_1_r). rewrite !BITS_spec, Hso by (rewrite ?Hso; zdm).
  clear. unfold field. split_and!; zdm.
Qed.

Lemma RM_done w s : 0 <= w -> arm_state s -> RM (BITS w 0 11) s = Done (value s (field w 0 4), s).
Proof. intros Hw Hs. unfold RM. destruct (operand_fields w Hw) as (-> & _). apply read15_done; [done|]. apply (field_range w 0 4). lia. Qed.
Lemma RS_done w s : 0 <= w -> arm_state s -> RS (BITS w 0 11) s = Done (value s (field w 8 4), s).
Proof. intros Hw Hs. unfold RS. destruct (operand_fields w Hw) as (_ & -> & _). apply read15_done; [done|]. apply (field_range w 8 4). lia. Qed.

(** The branches of the shifter operands. *)
Lemma LSL_cases rm c n : word rm -> 0 <= n ->
  (if n =? 0 then (rm, c) else if n <? 32 then (u32 (Z.shiftl rm n), BIT rm (32 - n)) else if n =? 32 then (0, BIT rm 0) else (0, 0)) = shift_by LSL n (rm, c).
Proof.
  intros Hr Hn. rewrite shift_LSL by done. destruct (Z.eqb_spec n 0) as [->|]; [by rewrite Z.shiftl_0_r, u32_small|].
  assert (Hz : 32 <= n -> u32 (Z.shiftl rm n) = 0).
  { intros Hge. unfold u32, wrap. rewrite Z.shiftl_mul_pow2 by lia. replace n with (n - 32 + 32) by lia. by rewrite Z.pow_add_r, Z.mul_assoc, Z.mod_mul by lia. }
  destruct (Z.ltb_spec n 32); [by rewrite BIT_spec by lia|]. destruct (Z.eqb_spec n 32) as [->|]; rewrite Hz by lia; [by rewrite BIT_spec by lia|].
  by rewrite Z.testbit_neg_r by lia.
Qed.
Lemma LSR_cases rm c n : word rm -> 0 <= n ->
  (if n =? 0 then (rm, c) else if n <? 32 then (Z.shiftr rm n, BIT rm (n - 1)) else if n =? 32 then (0, BIT rm 31) else (0, 0)) = shift_by LSR n (rm, c).
Proof.
  intros Hr Hn. rewrite shift_LSR by done. unfold last_bit. destruct (Z.eqb_spec n 0) as [->|]; [by rewrite Z.shiftr_0_r|].
  destruct (Z.ltb_spec n 32); [by rewrite BIT_spec by lia|].
  assert (Z.shiftr rm n = 0) as ->.
  { rewrite Z.shiftr_div_pow2 by lia. apply Z.div_small. unfold word in Hr. split; [lia|]. apply Z.lt_le_trans with (2 ^ 32); [lia|]. apply Z.pow_le_mono_r; lia. }
  destruct (Z.eqb_spec n 32) as [->|]; [by rewrite BIT_spec by lia|]. by rewrite (word_high rm) by (done || lia).
Qed.
Lemma s32_high rm i : word rm -> 31 <= i -> Z.testbit (s32 rm) i = Z.testbit rm 31.
Proof.
  unfold word. intros Hr Hi. rewrite (top_bit 32) by lia. change (2 ^ (32 - 1)) with (2 ^ 31). rewrite s32_word by done. destruct (Z.leb_spec (2 ^ 31) rm).
  - replace (rm - 2 ^ 32) with (Z.lnot (2 ^ 32 - 1 - rm)) by (unfold Z.lnot; lia). rewrite Z.lnot_spec by lia.
    rewrite <- (Z.mod_small (2 ^ 32 - 1 - rm) (2 ^ 31)), Z.mod_pow2_bits_high by lia. done.
  - rewrite Z.sub_0_r, <- (Z.mod_small rm (2 ^ 31)), Z.mod_pow2_bits_high by lia. done.
Qed.
Lemma s32_low rm i : word rm -> 0 <= i < 32 -> Z.testbit (s32 rm) i = Z.testbit rm i.
Proof. unfold word. intros Hr Hi. rewrite <- (Z.mod_pow2_bits_low (s32 rm) 32), <- (Z.mod_pow2_bits_low rm 32) by lia. f_equal. zdm. Qed.
Lemma ASR_full rm n : word rm -> 32 <= n -> (if BIT rm 31 =? 0 then 0 else 0xffffffff) = u32 (Z.shiftr (s32 rm) n) /\ BIT rm 31 = Z.b2z (Z.testbit (s32 rm) (n - 1)).
Proof.
  intros Hr Hn. rewrite BIT_spec, s32_high by (done || lia). split; [|done].
  apply word_ext; [by destruct (_ =? 0)|apply word_u32|]. intros i Hi. unfold u32. rewrite BitField.wrap_testbit, Z.shiftr_spec, s32_high by (done || lia).
  destruct (Z.ltb_spec i 32); [|lia]. destruct (Z.testbit rm 31); cbn [Z.b2z andb Z.eqb]; [|by rewrite Z.bits_0].
  change 0xffffffff with (Z.ones 32). by rewrite Z.ones_spec_low.
Qed.
Lemma ASR_cases rm c n : word rm -> 0 <= n ->
  (if n =? 0 then (rm, c) else if n <? 32 then (u32 (Z.shiftr (s32 rm) n), BIT rm (n - 1)) else (if BIT rm 31 =? 0 then 0 else 0xffffffff, BIT rm 31)) = shift_by ASR n (rm, c).
Proof.
  intros Hr Hn. rewrite shift_ASR by done. unfold last_bit. destruct (Z.eqb_spec n 0) as [->|]; [rewrite Z.shiftr_0_r; f_equal; unfold word in Hr; zdm|].
  destruct (Z.ltb_spec n 32); [by rewrite s32_low, BIT_spec by (done || lia)|]. destruct (ASR_full rm n) as [-> ->]; done.
Qed.
Lemma ROR_cases rm c n : word rm -> 0 <= n ->
  (if n =? 0 then (rm, c) else if n mod 32 =? 0 then (rm, BIT rm 31) else (ROTATE_RIGHT_32 rm (n mod 32), BIT rm (n mod 32 - 1))) = shift_by ROR n (rm, c).
Proof.
  intros Hr Hn. rewrite shift_ROR by done. pose proof (Z.mod_pos_bound n 32 ltac:(lia)).
  assert (E0 : ROTATE_RIGHT_32 rm 0 = rm).
  { apply word_ext; [by apply word_rotate|done|]. intros i Hi. by rewrite rotate_testbit, Z.add_0_r, Z.mod_small by (done || lia). }
  destruct (Z.eqb_spec n 0) as [->|]; [by rewrite Z.mod_0_l, E0 by lia|]. rewrite !BIT_spec by (destruct (Z.eqb_spec (n mod 32) 0); lia).
  destruct (Z.eqb_spec (n mod 32) 0) as [E|E].
  - rewrite E, E0. do 3 f_equal. Z.div_mod_to_equations. lia.
  - rewrite BIT_spec by lia. do 3 f_equal. Z.div_mod_to_equations. lia.
Qed.

Lemma rotate_through v c : word v -> flag c -> Z.lor (u32 (Z.shiftl c 31)) (Z.shiftr v 1) = v / 2 + c * 2 ^ 31.
Proof.
  unfold word. intros Hv Hc. assert (u32 (Z.shiftl c 31) = Z.shiftl c 31) as -> by (by destruct Hc as [-> | ->]).
  rewrite Z.lor_comm, Z.shiftr_div_pow2 by lia. change (2 ^ 1) with 2. rewrite lor_shiftl_add by zdm. done.
Qed.
Lemma bind_done {A B} (m : arm A) (k : A -> arm B) s a s' : m s = Done (a, s') -> (m ≫= k) s = k a s'.
Proof. intros E. unfold mbind, arm_bind. by rewrite E. Qed.
(** An operand in a branch. *)
Definition operand_pair (vc : Z * Z) : arm Z := operand vc.1 vc.2.
Lemma operand_pair_if (b : bool) (x y : Z * Z) : (if b then operand_pair x else operand_pair y) = operand_pair (if b then x else y).
Proof. by destruct b. Qed.

Lemma carry_read {A} (k : Z -> arm A) c s : (carry_flag ≫= k) (set_shifter_carry_out c s) = k (CFlag s) (set_shifter_carry_out c s).
Proof. done. Qed.

(** The kind of shift and where its amount comes from. *)
Lemma shifter_fields w : 0 <= w ->
  bit w 25 = (field w 25 1 =? 1) /\ BITS w 4 6 = field w 4 1 + 2 * field w 5 2 /\ BITS w 4 7 = field w 4 1 + 2 * field w 5 2 + 8 * (field w 7 5 mod 2) /\
  BITS w 4 11 = field w 4 1 + 2 * field w 5 2 + 8 * field w 7 5.
Proof.
  intros Hw. split.
  - rewrite bit_spec, Z.testbit_eqb by lia. done.
  - rewrite !BITS_spec by lia. unfold field. split_and!; zdm.
Qed.

Section Shifter.
Context (w : Z) s (Hw : word w) (Hs : arm_state s).
#[local] Abbreviation rm := (value s (field w 0 4)).
#[local] Abbreviation rs := (value s (field w 8 4)).
#[local] Abbreviation imm := (field w 7 5).
#[local] Abbreviation so := (BITS w 0 11).
#[local] Abbreviation gives f vc := (shifter f so s = operand_pair vc s).

Lemma rm_word : word rm.
Proof using Hs. by apply word_value, Hs. Qed.
Lemma amount : BITS rs 0 7 = field rs 0 8.
Proof using Hs. apply field_BITS; [|lia..]. destruct (word_value s (field w 8 4)); [apply Hs|done]. Qed.
Lemma rm_read : RM so s = Done (rm, s).
Proof using Hw Hs. apply RM_done; [apply Hw|done]. Qed.
Lemma rs_read : RS so s = Done (rs, s).
Proof using Hw Hs. apply RS_done; [apply Hw|done]. Qed.
Lemma imm_field : BITS so 7 11 = imm.
Proof using Hw. by destruct (operand_fields w (proj1 Hw)) as (_ & _ & -> & _). Qed.
Lemma imm8_field : BITS so 0 7 = field w 0 8.
Proof using Hw. by destruct (operand_fields w (proj1 Hw)) as (_ & _ & _ & ->). Qed.
Lemma rotate_field : BITS so 8 11 = field w 8 4.
Proof using Hw. by destruct (operand_fields w (proj1 Hw)) as (_ & -> & _). Qed.
Ltac reads := cbn [shifter]; unfold DPO_Immediate, DPO_Register, DPO_LogicalShiftLeftByImmediate, DPO_LogicalShiftLeftByRegister, DPO_LogicalShiftRightByImmediate,
    DPO_LogicalShiftRightByRegister, DPO_ArithmeticShiftRightByImmediate, DPO_ArithmeticShiftRightByRegister, DPO_RotateRightByImmediate, DPO_RotateRightByRegister;
  repeat (cbv beta zeta; first [rewrite (bind_done _ _ _ _ _ rm_read) | rewrite (bind_done _ _ _ _ _ rs_read) | rewrite (bind_done carry_flag _ s (CFlag s) s eq_refl)]); rewrite ?amount, ?imm_field, ?imm8_field.

Lemma imm_range : 0 <= imm < 32.
Proof using Type. apply (field_range w 7 5). lia. Qed.
Lemma rs_range : 0 <= field rs 0 8 < 256.
Proof using Type. apply (field_range rs 0 8). lia. Qed.
Hint Resolve rm_word : core.
(** By the cases of the amount. *)
Ltac amounts := repeat match goal with |- context [if ?a =? ?b then _ else _] => destruct (Z.eqb_spec a b) | |- context [if ?a <? ?b then _ else _] => destruct (Z.ltb_spec a b) end; try done; try lia.

Lemma gives_LSL : gives (Some LogicalShiftLeftByImmediate) (shift_by LSL imm (rm, CFlag s)) /\ gives (Some LogicalShiftLeftByRegister) (shift_by LSL (field rs 0 8) (rm, CFlag s)).
Proof using Hw Hs.
  pose proof imm_range. pose proof rs_range. split; reads; rewrite <- LSL_cases by (done || lia); amounts.
Qed.
Lemma gives_LSR : gives (Some LogicalShiftRightByImmediate) (shift_by LSR (if imm =? 0 then 32 else imm) (rm, CFlag s)) /\
  gives (Some LogicalShiftRightByRegister) (shift_by LSR (field rs 0 8) (rm, CFlag s)).
Proof using Hw Hs.
  pose proof imm_range. pose proof rs_range. split; reads; rewrite <- LSR_cases by (done || amounts); amounts.
Qed.
Lemma gives_ASR : gives (Some ArithmeticShiftRightByImmediate) (shift_by ASR (if imm =? 0 then 32 else imm) (rm, CFlag s)) /\
  gives (Some ArithmeticShiftRightByRegister) (shift_by ASR (field rs 0 8) (rm, CFlag s)).
Proof using Hw Hs.
  pose proof imm_range. pose proof rs_range. split; reads; rewrite <- ASR_cases by (done || amounts); amounts.
Qed.
Lemma gives_ROR : gives (Some RotateRightByImmediate) (if imm =? 0 then shift_by RRX 1 (rm, CFlag s) else shift_by ROR imm (rm, CFlag s)) /\
  gives (Some RotateRightByRegister) (shift_by ROR (field rs 0 8) (rm, CFlag s)).
Proof using Hw Hs.
  pose proof imm_range. pose proof rs_range. split; reads.
  - destruct (Z.eqb_spec imm 0).
    + change (shift_by RRX 1 (rm, CFlag s)) with (rm / 2 + CFlag s * 2 ^ 31, rm mod 2). rewrite rotate_through by (exact rm_word || apply (proj1 Hs)). by rewrite BIT_spec, Z.bit0_mod.
    + rewrite <- ROR_cases by (done || lia). rewrite Z.mod_small by lia. amounts.
  - assert (BITS rs 0 4 = field rs 0 8 mod 32) as ->.
    { rewrite BITS_spec; [unfold field; zdm| |lia..]. apply word_value, Hs. }
    rewrite <- ROR_cases by (done || lia). amounts.
Qed.
Lemma gives_immediate : gives (Some Immediate) (shift_by ROR (2 * field w 8 4) (field w 0 8, CFlag s)).
Proof using Hw Hs.
  pose proof (field_range w 8 4 ltac:(lia)) as Hr. pose proof (field_range w 0 8 ltac:(lia)) as Hi. assert (Hi' : word (field w 0 8)) by (unfold word; lia).
  reads. rewrite rotate_field, <- ROR_cases by (done || lia). rewrite (Z.mod_small (2 * _)) by lia. destruct (Z.eqb_spec (field w 8 4) 0) as [E|E].
  - rewrite E. unfold operand_pair. cbn [fst snd]. f_equal. apply word_ext; [by apply word_rotate|done|]. intros i Hi2. rewrite rotate_testbit by (done || lia). f_equal. zdm.
  - amounts. unfold operand_pair. cbn [fst snd]. rewrite !BIT_spec, rotate_testbit by (done || lia). rewrite (Z.mul_comm 2). do 4 f_equal. zdm.
Qed.
Lemma gives_register : gives (Some Register) (shift_by LSL 0 (rm, CFlag s)).
Proof using Hw Hs. by reads. Qed.

(** The shifter operand of the interpreter is that of the architecture. *)
Lemma shifter_computes f : GetShifterOp w = Some f -> gives (Some f) (operand_of w rm rs (CFlag s)).
Proof using Hw Hs.
  destruct (shifter_fields w (proj1 Hw)) as (E25 & E46 & E47 & E411). pose proof imm_range as Hi.
  pose proof (field_range w 4 1 ltac:(lia)) as H4. pose proof (field_range w 5 2 ltac:(lia)) as H5. change (2 ^ 1) with 2 in H4. change (2 ^ 2) with 4 in H5.
  unfold GetShifterOp, operand_of, shift_of. rewrite E25, E46, E47, E411. destruct (_ =? 1); [intros [= <-]; apply gives_immediate|].
  assert (Hk : field w 5 2 = 0 \/ field w 5 2 = 1 \/ field w 5 2 = 2 \/ field w 5 2 = 3) by lia.
  assert (Hr : field w 4 1 = 0 \/ field w 4 1 = 1) by lia. assert (Hm : imm mod 2 = 0 \/ imm mod 2 = 1) by (pose proof (Z.mod_pos_bound imm 2); lia).
  destruct gives_LSL, gives_LSR, gives_ASR, gives_ROR.
  destruct Hr as [-> | ->], Hk as [-> | [-> | [-> | ->]]]; cbn [Z.eqb Pos.eqb];
    repeat match goal with |- context [if ?a =? ?b then _ else _] => lazymatch b with 0 => lazymatch a with imm => fail | _ => idtac end | _ => idtac end; destruct (Z.eqb_spec a b); try lia end;
    intros [= <-]; try (replace imm with 0 by lia); try assumption; [apply gives_register|by destruct (imm =? 0)].
Qed.
End Shifter.

(** ** Results *)

Lemma reg_put i v s : wf s -> 0 <= i < 16 -> reg (set_Reg (put i v (Reg s)) s) i = v.
Proof. intros W Hi. unfold reg, put. cbn [Reg set_Reg]. destruct (wf_Reg s W) as [Hl _]. by rewrite list_lookup_insert_eq by lia. Qed.
Lemma set_reg_done i v s : length (Reg s) = 16%nat -> 0 <= i < 16 -> word v -> set_reg i v s = Done (tt, set_Reg (put i v (Reg s)) s).
Proof.
  intros Hl Hi Hv. unfold set_reg, at_index. destruct (lookup_lt_is_Some_2 (Reg s) (Z.to_nat i)) as [x ->]; [lia|]. cbn.
  by rewrite u32_small.
Qed.
Lemma get_put i v s : length (Reg s) = 16%nat -> 0 <= i < 16 -> get_reg i (set_Reg (put i v (Reg s)) s) = Done (v, set_Reg (put i v (Reg s)) s).
Proof. intros Hl Hi. unfold get_reg, at_index, put. cbn [Reg set_Reg]. by rewrite list_lookup_insert_eq by lia. Qed.
Lemma NZ_flags r s : word r -> NZ r s = set_NFlag (r / 2 ^ 31) (set_ZFlag (Z.b2z (r =? 0)) s).
Proof. intros Hr. unfold NZ, UPDATE_ZFLAG, UPDATE_NFLAG. rewrite BIT_spec, <- word_top by (done || lia). by destruct (r =? 0). Qed.

Lemma AddWithCarry_comm a b c : AddWithCarry a b c = AddWithCarry b a c.
Proof. unfold AddWithCarry. by rewrite (Z.add_comm a), (Z.add_comm (s32 a)). Qed.
Lemma word_lxor a b : word a -> word b -> word (Z.lxor a b).
Proof. intros Ha Hb. apply word_bits; [apply Z.lxor_nonneg; unfold word in *; lia|]. intros i Hi. by rewrite Z.lxor_spec, !word_high. Qed.
Section Tails.
Context (opcode Rd Sb : Z) s (Hs : wf s) (HRd : 0 <= Rd < 15).
Lemma arith_effect r c v carry : compares opcode = false -> word r ->
  arith Sb Rd (r, c, v) (set_shifter_carry_out carry s) = Done (false, effect opcode Rd (negb (Sb =? 0)) r (Some (c, v)) carry s).
Proof using Hs HRd.
  intros Hc Hr. destruct (wf_Reg s Hs) as [Hl _]. unfold arith, effect. rewrite Hc.
  rewrite (bind_done _ _ _ _ _ (set_reg_done Rd r (set_shifter_carry_out carry s) Hl ltac:(lia) Hr)).
  rewrite (bind_done _ _ _ _ _ (get_put Rd r (set_shifter_carry_out carry s) Hl ltac:(lia))). destruct (Z.eqb_spec Rd 15); [lia|].
  destruct (Sb =? 0); [done|]. cbn -[NZ]. by rewrite <- NZ_flags.
Qed.
Lemma logical_effect r carry : compares opcode = false -> word r ->
  logical Sb Rd r (set_shifter_carry_out carry s) = Done (false, effect opcode Rd (negb (Sb =? 0)) r None carry s).
Proof using Hs HRd.
  intros Hc Hr. destruct (wf_Reg s Hs) as [Hl _]. unfold logical, effect. rewrite Hc.
  rewrite (bind_done _ _ _ _ _ (set_reg_done Rd r (set_shifter_carry_out carry s) Hl ltac:(lia) Hr)).
  rewrite (bind_done _ _ _ _ _ (get_put Rd r (set_shifter_carry_out carry s) Hl ltac:(lia))). destruct (Z.eqb_spec Rd 15); [lia|].
  destruct (Sb =? 0); [done|]. cbn -[NZ]. by rewrite <- NZ_flags.
Qed.
Lemma compare_effect r c v carry fl : compares opcode = true -> word r ->
  compare (r, c, v) (set_shifter_carry_out carry s) = Done (tt, effect opcode Rd fl r (Some (c, v)) carry s).
Proof using Type. intros Hc Hr. unfold compare, effect. rewrite Hc. cbn -[NZ]. by rewrite <- NZ_flags. Qed.
Lemma test_effect r carry fl : compares opcode = true -> word r ->
  modify (fun s => UPDATE_CFLAG_WITH_SC (NZ r s)) (set_shifter_carry_out carry s) = Done (tt, effect opcode Rd fl r None carry s).
Proof using Type. intros Hc Hr. unfold effect. rewrite Hc. cbn -[NZ]. by rewrite <- NZ_flags. Qed.
End Tails.

Section Jumps.
Context (Sb : Z) s (Hs : wf s).
Lemma arith_jump r c v carry : word r -> arith Sb 15 (r, c, v) (set_shifter_carry_out carry s) = Done (true, jump (negb (Sb =? 0)) r carry s).
Proof using Hs.
  intros Hr. destruct (wf_Reg s Hs) as [Hl _]. unfold arith, jump.
  rewrite (bind_done _ _ _ _ _ (set_reg_done 15 r (set_shifter_carry_out carry s) Hl ltac:(lia) Hr)).
  rewrite (bind_done _ _ _ _ _ (get_put 15 r (set_shifter_carry_out carry s) Hl ltac:(lia))). by destruct (Sb =? 0).
Qed.
Lemma logical_jump r carry : word r -> logical Sb 15 r (set_shifter_carry_out carry s) = Done (true, jump (negb (Sb =? 0)) r carry s).
Proof using Hs.
  intros Hr. destruct (wf_Reg s Hs) as [Hl _]. unfold logical, jump.
  rewrite (bind_done _ _ _ _ _ (set_reg_done 15 r (set_shifter_carry_out carry s) Hl ltac:(lia) Hr)).
  rewrite (bind_done _ _ _ _ _ (get_put 15 r (set_shifter_carry_out carry s) Hl ltac:(lia))). by destruct (Sb =? 0).
Qed.
End Jumps.

Lemma AddWithCarry_sum a b c : word a -> word b -> flag c -> sum a b c = let '(r, cy, ov) := AddWithCarry a b c in (r, Some (cy, ov)).
Proof. intros Ha Hb Hc. rewrite AddWithCarry_spec by (unfold word, flag in *; lia). done. Qed.
Lemma not32_word b : word b -> not32 b = 2 ^ 32 - 1 - b.
Proof. unfold word. intros Hb. unfold not32. replace (Z.lnot b) with (2 ^ 32 - 1 - b + -1 * 2 ^ 32) by (unfold Z.lnot; lia). unfold u32, wrap. rewrite Z.mod_add by lia. apply Z.mod_small. lia. Qed.
Lemma AddWithCarry_difference a b c : word a -> word b -> flag c -> difference a b (1 - c) = let '(r, cy, ov) := AddWithCarry a (not32 b) c in (r, Some (cy, ov)).
Proof.
  intros Ha Hb Hc. rewrite AddWithCarry_spec by (pose proof (word_not32 b); unfold word, flag in *; lia). rewrite not32_word by done.
  unfold difference. assert (E : s32 (2 ^ 32 - 1 - b) = - 1 - s32 b) by (unfold word in Hb; zdm). rewrite E.
  replace (s32 a + (-1 - s32 b) + c) with (s32 a - s32 b - (1 - c)) by lia.
  assert (u32 (a - b - (1 - c)) = u32 (a + (2 ^ 32 - 1 - b) + c)) as -> by (clear; zdm).
  assert ((0 <=? a - b - (1 - c)) = (2 ^ 32 <=? a + (2 ^ 32 - 1 - b) + c)) as ->; [|done].
  destruct (Z.leb_spec 0 (a - b - (1 - c))), (Z.leb_spec (2 ^ 32) (a + (2 ^ 32 - 1 - b) + c)); try done; lia.
Qed.

(** ** Decoding *)

(** The conditions of the encodings of data processing. *)
Definition dp_conditions (e : encoding) (n : Z) : bool :=
  (attribute_value e =? 2)%nat && (bool_decide (content e = [26; 27; 0; 21; 24; n]) || bool_decide (content e = [26; 27; 0; 20; 24; 2 * n + 1])).
Definition dp_row '((e, x) : encoding * exclusion) : bool :=
  match e_op e, dp_opcode (e_op e) with
  | _, None => true
  | i_cpy, _ => (attribute_value e =? 2)%nat && bool_decide (content e = [20; 27; 0x1a; 4; 11; 0])
  | _, Some n => dp_conditions e n && (x_attribute_value x =? 3)%nat && bool_decide (x_content x = [4; 4; 1; 7; 7; 1; 25; 25; 0])
  end.
Lemma dp_rows : forallb dp_row (zip arm_instruction arm_exclusion_code) = true.
Proof. by vm_compute. Qed.
Lemma decode_row es xs w o : decode_from w es xs = Some o -> exists e x, (e, x) ∈ zip es xs /\ selected w e x = true /\ e_op e = o.
Proof.
  revert xs. induction es as [|e es IH]; intros [|x xs]; try discriminate. cbn [decode_from zip]. destruct (selected w e x) eqn:E.
  - intros [= <-]. exists e, x. split; [by left|done].
  - intros Hd. destruct (IH xs Hd) as (e' & x' & Hin & ?). exists e', x'. split; [by right|done].
Qed.
Lemma shifter_exists w : word w -> ~ (BITS w 4 4 = 1 /\ BITS w 7 7 = 1 /\ BITS w 25 25 = 0) -> is_Some (GetShifterOp w).
Proof.
  intros Hw Hx. destruct (shifter_fields w (proj1 Hw)) as (E25 & E46 & E47 & E411). rewrite !BITS_spec in Hx by (unfold word in *; lia).
  pose proof (field_range w 4 1 ltac:(lia)) as H4. pose proof (field_range w 5 2 ltac:(lia)) as H5. pose proof (field_range w 25 1 ltac:(lia)) as H25.
  assert (H7 : w / 2 ^ 7 mod 2 ^ (7 - 7 + 1) = field w 7 5 mod 2) by (unfold field, word in *; zdm).
  change (w / 2 ^ 4 mod 2 ^ (4 - 4 + 1)) with (field w 4 1) in Hx. change (w / 2 ^ 25 mod 2 ^ (25 - 25 + 1)) with (field w 25 1) in Hx. rewrite H7 in Hx.
  change (2 ^ 1) with 2 in H4, H25. change (2 ^ 2) with 4 in H5. pose proof (Z.mod_pos_bound (field w 7 5) 2 ltac:(lia)) as Hm.
  unfold GetShifterOp. rewrite E25, E46, E47. destruct (Z.eqb_spec (field w 25 1) 1); [by eexists|].
  repeat match goal with |- context [if ?a =? ?b then _ else _] => destruct (Z.eqb_spec a b); [by eexists|] end. lia.
Qed.
Lemma dp_encoding w o n : word w -> DecodeARMInstruction w = Some o -> dp_opcode o = Some n ->
  field w 21 4 = n /\ is_Some (GetShifterOp w) /\ (o = i_cpy -> field w 20 1 = 0).
Proof.
  intros Hw Hd Ho. apply decode_row in Hd as (e & x & Hin & Hsel & <-).
  pose proof dp_rows as Hr. rewrite forallb_forall in Hr. specialize (Hr _ (proj1 (list_elem_of_In _ _) Hin)). unfold dp_row in Hr. rewrite Ho in Hr.
  unfold selected in Hsel. apply andb_prop in Hsel as [Hsel Hx]. apply andb_prop in Hsel as [_ Hc].
  assert (W : e_op e ≠ i_cpy -> dp_conditions e n && (x_attribute_value x =? 3)%nat && bool_decide (x_content x = [4; 4; 1; 7; 7; 1; 25; 25; 0]) = true ->
    field w 21 4 = n /\ is_Some (GetShifterOp w) /\ (e_op e = i_cpy -> field w 20 1 = 0)).
  { clear Hr. intros Hne Hr. apply andb_prop in Hr as [Hr Hxc%bool_decide_eq_true_1]. apply andb_prop in Hr as [Hr Hxn%Nat.eqb_eq].
    apply andb_prop in Hr as [Hn%Nat.eqb_eq Hco]. split_and!; [| |done].
    - rewrite Hn in Hc. apply orb_prop in Hco as [Hco|Hco]; apply bool_decide_eq_true_1 in Hco; rewrite Hco in Hc; cbn in Hc;
        apply andb_prop in Hc as [_ Hc]; apply andb_prop in Hc as [Hc%Z.eqb_eq _]; rewrite BITS_spec in Hc by (unfold word in *; lia); [exact Hc|].
      unfold field. unfold word in Hw. zdm.
    - apply shifter_exists; [done|]. rewrite Hxn, Hxc in Hx. cbn in Hx. intros (E1 & E2 & E3). by rewrite E1, E2, E3 in Hx. }
  destruct (e_op e) eqn:Eo; try discriminate Ho; try (apply W; done). clear W. injection Ho as <-.
  apply andb_prop in Hr as [Hn%Nat.eqb_eq Hco%bool_decide_eq_true_1]. rewrite Hn, Hco in Hc. cbn in Hc.
  apply andb_prop in Hc as [Hc1%Z.eqb_eq Hc]. apply andb_prop in Hc as [Hc2%Z.eqb_eq _]. unfold GetShifterOp. rewrite Hc2. rewrite BITS_spec in Hc1 by (unfold word in *; lia).
  unfold field. unfold word in Hw. split_and!; [zdm|destruct (bit w 25); by eexists|intros _; zdm].
Qed.

(** ** Execution *)

Lemma shift_by_word k n v c : word v -> flag c -> word (shift_by k n (v, c)).1.
Proof.
  intros Hv Hc. unfold shift_by. cut (word (Nat.iter (Z.to_nat n) (shift_bit k) (v, c)).1 /\ flag (Nat.iter (Z.to_nat n) (shift_bit k) (v, c)).2); [tauto|].
  induction (Z.to_nat n) as [|m IH]; [done|]. rewrite Nat.iter_succ. destruct (Nat.iter m (shift_bit k) (v, c)) as [x d]. cbn [fst snd] in IH. destruct IH as [Hx Hd].
  unfold word, flag in *. destruct k; cbn [shift_bit fst snd]; split; zdm.
Qed.
Lemma operand_word w rm rs c : word rm -> flag c -> word (operand_of w rm rs c).1.
Proof.
  intros Hr Hc. unfold operand_of. destruct (_ =? 1); [|destruct (shift_of w rs)]; apply shift_by_word; try done.
  pose proof (field_range w 0 8 ltac:(lia)). unfold word. lia.
Qed.
Lemma land_word a b : word a -> Z.land a (not32 b) = Z.ldiff a (u32 b).
Proof.
  intros Ha. apply Z.bits_inj'. intros i Hi. unfold not32, u32. rewrite Z.land_spec, Z.ldiff_spec, !BitField.wrap_testbit, Z.lnot_spec by lia.
  destruct (Z.ltb_spec i 32); [done|]. by rewrite (word_high a).
Qed.

Lemma next_done s : length (Reg s) = 16%nat -> TFlag s = 0 -> next_instruction s = Done (Fetch, set_Reg (put 15 (u32 (reg s 15 + 4)) (Reg s)) s).
Proof.
  intros Hl Ht. unfold next_instruction, advance, get_reg, set_reg, at_index, reg. destruct (lookup_lt_is_Some_2 (Reg s) (Z.to_nat 15)) as [v E]; [lia|].
  unfold mbind, arm_bind. rewrite E. cbn -[u32 lookup Z.to_nat]. unfold GetInstructionSize. rewrite Ht, E. done.
Qed.
Lemma effect_Reg opcode Rd fl r cv carry s : length (Reg (effect opcode Rd fl r cv carry s)) = length (Reg s) /\ TFlag (effect opcode Rd fl r cv carry s) = TFlag s.
Proof. unfold effect, put. destruct (compares opcode), fl, cv as [[? ?]|]; cbn; rewrite ?length_insert; done. Qed.

Section Instruction.
Context (w : Z) s (f : shtop) (Hw : word w) (Hs : arm_state s) (Hf : GetShifterOp w = Some f) (Hp : CondPassed (field w 28 4) s = true).
#[local] Abbreviation rn := (value s (field w 16 4)).
#[local] Abbreviation opnd := (operand_of w (value s (field w 0 4)) (value s (field w 8 4)) (CFlag s)).
#[local] Abbreviation after opcode r cv := (effect opcode (field w 12 4) (field w 20 1 =? 1) r cv opnd.2 s).
#[local] Abbreviation ended opcode r cv := (Done (Fetch, set_Reg (put 15 (u32 (reg (after opcode r cv) 15 + 4)) (Reg (after opcode r cv))) (after opcode r cv))).

Lemma passed : pass (BITS w 28 31) s = Done (true, s).
Proof using Hw Hp. unfold pass, read. rewrite field_BITS by (unfold word in Hw; lia). change (31 - 28 + 1) with 4. by rewrite Hp, orb_true_r. Qed.
Lemma shifted : shifter (Some f) (BITS w 0 11) s = Done (opnd.1, set_shifter_carry_out opnd.2 s).
Proof using Hw Hs Hf. by apply shifter_computes. Qed.
Lemma rn_bits : BITS w 16 19 = field w 16 4 /\ 0 <= field w 16 4 < 16.
Proof using Hw. split; [by rewrite field_BITS by (unfold word in Hw; lia)|apply (field_range w 16 4); lia]. Qed.
Lemma rd_bits : BITS w 12 15 = field w 12 4 /\ 0 <= field w 12 4 < 16.
Proof using Hw. split; [by rewrite field_BITS by (unfold word in Hw; lia)|apply (field_range w 12 4); lia]. Qed.
Lemma s_bit : negb (BIT w 20 =? 0) = (field w 20 1 =? 1).
Proof using Type. rewrite BIT_spec, Z.testbit_eqb by lia. change (w / 2 ^ 20 mod 2) with (field w 20 1). by destruct (_ =? 1). Qed.

Lemma jumping_done body opcode r cv : body s = Done (false, after opcode r cv) -> jumping (BITS w 28 31) body s = ended opcode r cv.
Proof using Hw Hs Hp.
  intros E. unfold jumping. rewrite (bind_done _ _ _ _ _ passed), (bind_done _ _ _ _ _ E).
  destruct (effect_Reg opcode (field w 12 4) (field w 20 1 =? 1) r cv opnd.2 s) as [El Et]. apply next_done; [rewrite El; apply Hs|rewrite Et; apply Hs].
Qed.
Lemma simple_done body opcode r cv : body s = Done (tt, after opcode r cv) -> simple (BITS w 28 31) body s = ended opcode r cv.
Proof using Hw Hs Hp.
  intros E. unfold simple, when. rewrite (bind_done _ _ _ _ _ passed), (bind_done _ _ _ _ _ E).
  destruct (effect_Reg opcode (field w 12 4) (field w 20 1 =? 1) r cv opnd.2 s) as [El Et]. apply next_done; [rewrite El; apply Hs|rewrite Et; apply Hs].
Qed.

Lemma jumping_away body t : body s = Done (true, t) -> jumping (BITS w 28 31) body s = Done (Dispatch, t).
Proof using Hw Hp. intros E. unfold jumping. by rewrite (bind_done _ _ _ _ _ passed), (bind_done _ _ _ _ _ E). Qed.

(** The tails of the handlers, for the operation [n]. *)
Context (n : Z).
#[local] Abbreviation res := (alu n rn opnd.1 (CFlag s)).
#[local] Abbreviation fin := (after n res.1 res.2).
#[local] Abbreviation mid := (set_shifter_carry_out opnd.2 s).
#[local] Abbreviation added x y z := (let '(r, cy, ov) := AddWithCarry x y z in (r, Some (cy, ov))).
Lemma words : word rn /\ word opnd.1 /\ flag (CFlag s).
Proof using Hs. destruct Hs as (W & _). split_and!; [by apply word_value|apply operand_word; [by apply word_value|apply W]|apply W]. Qed.
Lemma arith_op x y z : compares n = false -> field w 12 4 ≠ 15 -> res = added x y z -> arith (BIT w 20) (BITS w 12 15) (AddWithCarry x y z) mid = Done (false, fin).
Proof using Hw Hs.
  intros Hn Hr E. destruct rd_bits as [-> Hd]. assert (Hword : word (AddWithCarry x y z).1.1) by apply word_u32.
  destruct (AddWithCarry x y z) as [[r cy] ov]. rewrite E. cbn [fst snd] in *. rewrite <- s_bit. apply arith_effect; [apply Hs|lia|done|done].
Qed.
Lemma logical_op r : compares n = false -> field w 12 4 ≠ 15 -> res = (r, None) -> word r -> logical (BIT w 20) (BITS w 12 15) r mid = Done (false, fin).
Proof using Hw Hs.
  intros Hn Hr E Hword. destruct rd_bits as [-> Hd]. rewrite E. cbn [fst snd] in *. rewrite <- s_bit. apply logical_effect; [apply Hs|lia|done|done].
Qed.
Lemma arith_jump_op x y z : field w 12 4 = 15 -> res = added x y z ->
  arith (BIT w 20) (BITS w 12 15) (AddWithCarry x y z) mid = Done (true, jump (field w 20 1 =? 1) res.1 opnd.2 s).
Proof using Hw Hs.
  intros Hr E. destruct rd_bits as [-> Hd]. rewrite Hr. assert (Hword : word (AddWithCarry x y z).1.1) by apply word_u32.
  destruct (AddWithCarry x y z) as [[r cy] ov]. rewrite E. cbn [fst snd] in *. rewrite <- s_bit. apply arith_jump; [apply Hs|done].
Qed.
Lemma logical_jump_op r : field w 12 4 = 15 -> res = (r, None) -> word r ->
  logical (BIT w 20) (BITS w 12 15) r mid = Done (true, jump (field w 20 1 =? 1) res.1 opnd.2 s).
Proof using Hw Hs.
  intros Hr E Hword. destruct rd_bits as [-> Hd]. rewrite Hr, E. cbn [fst snd] in *. rewrite <- s_bit. apply logical_jump; [apply Hs|done].
Qed.
Lemma compare_op x y z : compares n = true -> res = added x y z -> compare (AddWithCarry x y z) mid = Done (tt, fin).
Proof using Type.
  intros Hn E. assert (Hword : word (AddWithCarry x y z).1.1) by apply word_u32.
  destruct (AddWithCarry x y z) as [[r cy] ov]. rewrite E. cbn [fst snd] in *. by apply compare_effect.
Qed.
Lemma test_op r : compares n = true -> res = (r, None) -> word r -> modify (fun s => UPDATE_CFLAG_WITH_SC (NZ r s)) mid = Done (tt, fin).
Proof using Type. intros Hn E Hword. rewrite E. by apply test_effect. Qed.
End Instruction.

(** The operations agree with the specification on exact integers. *)
Ltac agrees :=
  lazymatch goal with
  | |- sum _ _ _ = _ => by apply AddWithCarry_sum; first [done | left]
  | |- difference _ _ _ = _ => try rewrite (AddWithCarry_comm (not32 _)); first [by apply (AddWithCarry_difference _ _ 1); first [done | right] | by apply AddWithCarry_difference]
  | |- word (Z.lxor _ _) => by apply word_lxor
  | |- word _ => auto with arm
  | |- (Z.ldiff _ _, _) = _ => by rewrite land_word, u32_small
  | |- _ => by rewrite not32_word
  end.

(** An operation that does not write the program counter, and one that does. *)
Lemma data_processing_computes w o n s :
  word w -> arm_state s -> DecodeARMInstruction w = Some o -> dp_opcode o = Some n -> CondPassed (field w 28 4) s = true ->
  execute (arm_instruction_trans o w o) s = Done (data_processing w s).
Proof.
  intros Hw Hs Hd Ho Hp. destruct (dp_encoding w o n Hw Hd Ho) as (En & [f Ef] & Ecpy).
  assert (D : data_processing w s =
    let opnd := operand_of w (value s (field w 0 4)) (value s (field w 8 4)) (CFlag s) in
    let res := alu n (value s (field w 16 4)) opnd.1 (CFlag s) in
    if negb (compares n) && (field w 12 4 =? 15) then (Dispatch, jump (field w 20 1 =? 1) res.1 opnd.2 s)
    else let s' := effect n (field w 12 4) (field w 20 1 =? 1) res.1 res.2 opnd.2 s in (Fetch, set_Reg (put 15 (u32 (reg s' 15 + 4)) (Reg s')) s')).
  { unfold data_processing. rewrite En. destruct (operand_of _ _ _ _) as [b c]. cbn [fst snd]. by destruct (alu _ _ _ _). }
  rewrite D. cbv zeta. clear D.
  destruct (words w s Hs) as (Ha & Hb & Hc). destruct (rn_bits w Hw) as [Ern Hrn].
  pose proof (rn_pc_done (field w 16 4) s Hs Hrn) as Rn. pose proof (read15_WA_done (field w 16 4) s Hs Hrn) as Rw. pose proof (shifted w s f Hw Hs Ef) as Sh.
  destruct (Z.eqb_spec (field w 12 4) 15) as [Hr|Hr];
  destruct o; try discriminate Ho; injection Ho as <-; cbn [arm_instruction_trans compares negb andb Z.leb Z.compare Pos.compare Pos.compare_cont];
    unfold InterpreterTranslate_and, InterpreterTranslate_eor, InterpreterTranslate_sub, InterpreterTranslate_rsb, InterpreterTranslate_add, InterpreterTranslate_adc, InterpreterTranslate_sbc, InterpreterTranslate_rsc, InterpreterTranslate_tst, InterpreterTranslate_teq, InterpreterTranslate_cmp, InterpreterTranslate_cmn, InterpreterTranslate_orr, InterpreterTranslate_mov, InterpreterTranslate_cpy, InterpreterTranslate_bic, InterpreterTranslate_mvn;
    unfold execute, on_dp, on_mov, on_cmp; cbn [idx comp cond]; rewrite Ef;
    first [apply simple_done | lazymatch goal with |- _ = Done (Dispatch, _) => apply jumping_away | _ => apply jumping_done end]; try done;
    unfold ADC_INST, ADD_INST, AND_INST, BIC_INST, EOR_INST, ORR_INST, RSB_INST, RSC_INST, SBC_INST, SUB_INST, MOV_INST, MVN_INST, CMN_INST, CMP_INST, TEQ_INST, TST_INST;
    rewrite ?Ern, ?(bind_done _ _ _ _ _ Rn), ?(bind_done _ _ _ _ _ Rw), ?(bind_done _ _ _ _ _ Sh), ?carry_read;
    lazymatch goal with
    | |- CPY_INST _ _ _ _ = _ => specialize (Ecpy eq_refl); unfold CPY_INST; rewrite (bind_done _ _ _ _ _ Sh); destruct (rd_bits w Hw) as [-> Hd']; rewrite Ecpy;
        rewrite (bind_done _ _ _ _ _ (set_reg_done _ _ (set_shifter_carry_out _ s) (proj1 (wf_Reg s (proj1 Hs))) Hd' Hb))
    | |- arith _ _ _ _ = Done (true, _) => apply (arith_jump_op w s); [exact Hw|exact Hs|exact Hr|]
    | |- logical _ _ _ _ = Done (true, _) => apply (logical_jump_op w s); [exact Hw|exact Hs|exact Hr|try reflexivity|]
    | |- arith _ _ _ _ = _ => apply (arith_op w s); [exact Hw|exact Hs|reflexivity|exact Hr|]
    | |- logical _ _ _ _ = _ => apply (logical_op w s); [exact Hw|exact Hs|reflexivity|exact Hr|try reflexivity|]
    | |- compare _ _ = _ => apply (compare_op w s); [reflexivity|]
    | |- modify _ _ = _ => apply (test_op w s); [reflexivity|reflexivity|]
    end.
  all: try lazymatch goal with |- (mret _) _ = _ => by destruct (Z.eqb_spec (field w 12 4) 15); [subst; rewrite ?Hr|] end.
  all: revert Ha Hb Hc; clear; generalize (value s (field w 16 4)) (operand_of w (value s (field w 0 4)) (value s (field w 8 4)) (CFlag s)).1 (CFlag s); cbn [alu]; intros a b c Ha Hb Hc.
  all: agrees.
Qed.

End Reference.
End ArmRef.
