(* ===== verification/ArmModes.v ===== *)
(** * Changes of mode

    A mode gets its stack pointer, link register and status register back when it is entered again. *)
From S2P Require Import Prelude ArmSupport ArmState ArmFrame ArmTyping.

Module ArmMo.
Import Arm ArmS ArmF ArmTy.

Section Modes.
Context {M : Type} `{Bus M}.
Implicit Types s : cpu M.

(** The modes with a stack pointer and a link register of their own, and those with a status register. *)
Definition banked : list Z := [USER32MODE; IRQ32MODE; SVC32MODE; ABORT32MODE; UNDEF32MODE].
Definition exception : list Z := [IRQ32MODE; SVC32MODE; ABORT32MODE; UNDEF32MODE].
(** What the code of a mode does to the registers and the saved status register. *)
Definition worked (r : list Z) (v : Z) s : cpu M := set_Spsr_copy v (set_Reg r s).

Lemma save_Reg s : Reg (save_bank s) = Reg s.
Proof. unfold save_bank. by repeat case_match. Qed.
Lemma load_sp_lr_reg l s i : 0 <= i -> i ≠ 13 -> i ≠ 14 -> reg (load_sp_lr l s) i = reg s i.
Proof. intros Hi H3 H4. unfold reg, load_sp_lr, put. cbn [Reg set_Reg]. by rewrite !list_lookup_insert_ne by lia. Qed.
(** Only FIQ has other registers of its own. *)
Lemma mode_keeps m s i : m ≠ FIQ32MODE -> 0 <= i -> i ≠ 13 -> i ≠ 14 -> reg (ChangePrivilegeMode m s) i = reg s i.
Proof.
  intros Hm Hi H3 H4. unfold ChangePrivilegeMode. destruct (_ =? m); [done|]. destruct (m =? USERBANK); [done|].
  assert (E : reg (save_bank s) i = reg s i) by (unfold reg; by rewrite save_Reg). rewrite <- E. clear E. generalize (save_bank s). clear s. intros s.
  change (reg (load_bank m s) i = reg s i). unfold load_bank. destruct (Z.eqb_spec m FIQ32MODE) as [|_]; [done|].
  repeat (match goal with |- context [if ?b then _ else _] => destruct b end); try done; change (reg (load_sp_lr _ s) i = reg s i) || idtac; by apply load_sp_lr_reg.
Qed.

Ltac not_in Hx := exfalso; unfold exception in Hx; cbn [app] in Hx; repeat (apply elem_of_cons in Hx as [Hx|Hx]; [discriminate|]); by apply elem_of_nil in Hx.
Lemma mode_returns m1 m2 s r v :
  wf s -> Mode s = m1 -> m1 ∈ banked -> m2 ∈ banked ++ [FIQ32MODE] -> m1 ≠ m2 -> length r = 16%nat ->
  let s2 := worked r v (ChangePrivilegeMode m2 s) in
  let s3 := ChangePrivilegeMode m1 s2 in
  let s4 := ChangePrivilegeMode m2 s3 in
  (Mode s2 = m2 /\ Mode s3 = m1 /\ Mode s4 = m2) /\
  (reg s3 13 = reg s 13 /\ reg s3 14 = reg s 14 /\ (m1 ∈ exception -> Spsr_copy s3 = Spsr_copy s)) /\
  (reg s4 13 = reg s2 13 /\ reg s4 14 = reg s2 14 /\ (m2 ∈ exception ++ [FIQ32MODE] -> Spsr_copy s4 = v)) /\
  (forall i, 0 <= i < 16 -> i ≠ 13 -> i ≠ 14 -> reg s3 i = reg s2 i).
Proof.
  intros W Hm H1 H2 Hne Hl. pose proof (wf_Reg s W) as [Hr _]. pose proof (wf_Spsr s W) as [Hp _]. destruct s as [R Ru Rs Ra Rd Ri Rf Sp]. cbn in Hm, Hr, Hp. clear W. subst.
  do 16 (destruct R as [|? R]; [discriminate|]). destruct R; [|discriminate]. do 16 (destruct r as [|? r]; [discriminate|]). destruct r; [|discriminate].
  do 7 (destruct Sp as [|? Sp]; [discriminate|]). destruct Sp; [|discriminate].
  unfold banked in H1, H2. cbn [app] in H2. rewrite !elem_of_cons in H1. rewrite !elem_of_cons in H2.
  destruct H1 as [-> | [-> | [-> | [-> | [-> | H1]]]]], H2 as [-> | [-> | [-> | [-> | [-> | [-> | H2]]]]]]; try (by apply elem_of_nil in H1); try (by apply elem_of_nil in H2); try done.
  all: cbv zeta; split; [split_and!; vm_compute; reflexivity|].
  all: split; [split_and!; [vm_compute; reflexivity..|intros Hx]; first [vm_compute; reflexivity|by not_in Hx]|].
  all: split; [split_and!; [vm_compute; reflexivity..|intros Hx]; first [vm_compute; reflexivity|by not_in Hx]|].
  all: try (intros i Hi H3 H4; apply mode_keeps; [discriminate|lia|done|done]).
Qed.

End Modes.
End ArmMo.
