(* ===== verification/ArmTheorems.v ===== *)
(** * Properties of the ARM interpreter *)
From stdpp Require Import gmap.
From S2P Require Import Prelude BitField ArmSupport ArmState ArmOperands ArmDecode ArmThumb ArmTranslate ArmAlu ArmTransfer ArmVfp ArmFloat ArmFloatOps ArmInterpreter ArmFrame ArmTyping ArmIsolation ArmRun ArmRounding ArmFloatFacts ArmFloatMul ArmFloatAdd ArmFloatDiv ArmFloatEnds ArmBudget ArmReference ArmModes.

Module ArmTh.
Import Arm ArmS ArmOp ArmD ArmT ArmI ArmA ArmM ArmV ArmFl ArmFo ArmX ArmF ArmTy ArmU ArmRun ArmR ArmFf ArmFm ArmFa ArmFd ArmFe ArmB ArmRef ArmMo.
#[local] Existing Instance vfp_unit.

(** ** A machine

    Code that is read only; what is written is kept aside.  A system call takes three ticks. *)
Module Machine.
Definition log : Type := list (Z * Z).
Definition code (a : Z) : Z :=
  match a with
  | 0x1000 => 0xE3A00005 (* MOV r0, #5 *)
  | 0x1004 => 0xE0901080 (* ADDS r1, r0, r0, LSL #1 *)
  | 0x1008 => 0xEF000003 (* SVC #3 *)
  | _ => 0xEAFFFFFE (* B . *)
  end.
Definition escape (a : Z) : Z :=
  match a with
  | 0x3000 => 0xF8900A00 (* RFEIA r0 *)
  | 0x3004 => 0xE328F000 (* MSR CPSR_f, #0 *)
  | 0x2000 => 0x13
  | 0x2004 => 0x3004
  | _ => 0xEAFFFFFE
  end.
Definition rom (c : Z -> Z) : Bus log := {| bus_read n a m := Done (c a, m); bus_write n a d m := Done ((a, d) :: m) |}.
#[export] Instance code_rom : Bus log := rom code.
#[export] Instance svc : Svc log := fun n k => Done (AddTicks 3 k).
(** User mode, at an address, with a value in r0. *)
Definition start (pc r0 : Z) : cpu log :=
  mk_cpu (<[15%nat := pc]> (<[0%nat := r0]> (replicate 16 0))) (replicate 2 0) (replicate 2 0) (replicate 2 0) (replicate 2 0) (replicate 2 0)
    (replicate 7 0) (replicate 7 0) (fun _ => 0) (replicate 7 0) (replicate 64 0) 0x10 0 USER32MODE 0 0 0 0 0 0 0 0 1 0 false [].
Definition core_at (pc r0 : Z) : core log := mk_core (start pc r0) ∅ ∅ 0 0.

(** The decoder only looks at two bits of an address. *)
Lemma translate_address t addr w : translate_word t addr w = translate_word t (if Z.land addr 3 =? 0 then 0 else 2) w.
Proof.
  unfold translate_word, DecodeThumbInstruction, TranslateThumbInstruction, GetThumbInstruction. destruct t; [|done].
  destruct (Z.land addr 3 =? 0) eqn:E; [change (Z.land 0 3 =? 0) with true|change (Z.land 2 3 =? 0) with false]; reflexivity.
Qed.
(** A check of the words of the code. *)
Definition words : list Z := [0xE3A00005; 0xE0901080; 0xEF000003; 0xEAFFFFFE].
Lemma code_words a : code a ∈ words.
Proof. unfold code. repeat case_match; by repeat first [left | right]. Qed.
Lemma code_checked (P : outcome (Z * arm_inst) -> bool) :
  forallb (fun w => forallb (fun t => P (translate_word t 0 w) && P (translate_word t 2 w)) [true; false]) words = true ->
  forall t addr a m w m', bus_read 4 a (m : log) = Done (w, m') -> P (translate_word t addr w) = true.
Proof.
  intros Hp t addr a m w m' E. injection E as <- _. rewrite translate_address. rewrite forallb_forall in Hp.
  specialize (Hp _ (proj1 (list_elem_of_In _ _) (code_words a))). rewrite forallb_forall in Hp.
  assert (Ht : In t [true; false]) by (destruct t; cbn; auto). specialize (Hp t Ht). apply andb_prop in Hp as [H1 H2]. by destruct (_ =? 0).
Qed.
Lemma start_wf pc r0 : word pc -> word r0 -> wf (start pc r0).
Proof.
  intros Hp Hr. assert (Z0 : forall n, file n (replicate n 0)) by (intros n; split; [by rewrite length_replicate|by apply Forall_replicate]).
  constructor; cbn [Reg Reg_usr Reg_svc Reg_abort Reg_undef Reg_irq Reg_firq Spsr VFP ExtReg start]; try done; try (by left). by repeat apply file_insert.
Qed.
End Machine.
Import Machine.

(** Two instructions of user code that reach supervisor mode. *)
Lemma two_instructions_escape :
  match @ExecuteInstructions log (rom escape) vfp_unit svc 10 2 (core_at 0x3000 0x2000) with
  | Done k => Mode (state (core_at 0x3000 0x2000)) = USER32MODE /\ Mode (state k) = SVC32MODE
  | Stop _ => False
  end.
Proof. vm_compute. split; reflexivity. Qed.

(** ** Runs *)

Section Runs.
Context {M : Type} `{Bus M} `{Svc M}.
Implicit Types s : cpu M.
Implicit Types k : core M.

Lemma translate_fault t addr w f : translate_word t addr w = Stop f -> f = FUndecoded.
Proof.
  assert (A : forall n i, translate_arm n i = Stop f -> f = FUndecoded) by (intros n i; unfold translate_arm; destruct (DecodeARMInstruction i); [done|by intros [= <-]]).
  unfold translate_word. destruct t; [|apply A]. destruct (DecodeThumbInstruction w addr) as [[[] i] [x|]]; try apply A; [done|by intros [= <-]].
Qed.

(** C5: Whatever translated code runs in user mode, as long as no word of memory decodes to RFE and the system calls do the same: the processor stays in user mode, and the interrupt masks, the banked registers and status registers of the other modes, the system registers user mode may not write and the control registers of the floating-point unit do not change. *)
Theorem user_mode_isolated fuel n k k' :
  (forall t addr a m w m', bus_read 4 a m = Done (w, m') -> match translate_word t addr w with Done (_, x) => idx x ≠ i_rfe | Stop _ => True end) ->
  (forall i k k', CallSVC i k = Done k' -> isolates (state k) (state k') /\ same_cache k k') ->
  fuel ≠ O -> blocked isolates k -> user (state k) -> ExecuteInstructions fuel n k = Done k' ->
  user (state k') /\ same_privileged (state k) (state k') /\ blocked isolates k'.
Proof.
  intros Hw Hs Hf Hb Hu E.
  assert (F : Faults (M:=M) (fun _ => True)) by (by constructor).
  pose proof (execute_instructions_yields (fun _ => True) isolates (respects_vfp (fun _ => True) isolates)) as Y.
  specialize (Y ltac:(intros t addr a m w m' Hr; specialize (Hw t addr a m w m' Hr); destruct (translate_word t addr w) as [[? x]|]; [by intros ?|done])).
  specialize (Y ltac:(intros i k0; destruct (CallSVC i k0) eqn:Ec; [by apply Hs with i|done]) fuel n k Hb Hf (or_introl Logic.I)).
  rewrite E in Y. destruct Y as (Y & Hb' & _). destruct Y as [U S]; [by destruct Hu as (? & ? & ?)|]. split; [done|]. split; [|done].
  destruct S. by constructor.
Qed.

(** C6: Executing at most n instructions ends, in at most n rounds of the main loop and with no more than n ticks and those of n system calls, and stops for nothing but a fault of memory, of a system call or of an instruction. *)
Theorem interpreter_ends fuel n c k :
  (forall b a m, bus_read b a m ≠ Stop FFuel) -> (forall b a d m, bus_write b a d m ≠ Stop FFuel) ->
  (forall i k, match CallSVC i k with Done k' => budget (state k) (state k') /\ same_cache k k' | Stop f => f ≠ FFuel end) -> svc_ticks c ->
  0 <= n < 2 ^ 32 -> n < Z.of_nat fuel -> blocked budget k ->
  match ExecuteInstructions fuel n k with
  | Done k' => ticks k' <= ticks k + (1 + c) * n /\ 0 <= NumInstrsToExecute (state k') <= n /\ blocked budget k'
  | Stop f => f ≠ FFuel
  end.
Proof.
  intros Hr Hw Hs Hc Hn Hf Hb.
  assert (F : Faults (M:=M) (fun f => f ≠ FFuel)).
  { constructor; [done|intros b a m f E ->; by eapply Hr|intros b a d m f E ->; by eapply Hw]. }
  pose proof (execute_instructions_yields (fun f => f ≠ FFuel) budget (respects_vfp (fun f => f ≠ FFuel) budget)) as Y.
  specialize (Y ltac:(intros t addr a m w m' _; destruct (translate_word t addr w) as [[? x]|f] eqn:E; [intros _ v s; by apply budget_same|intros ->; by apply translate_fault in E])).
  specialize (Y Hs fuel n k Hb ltac:(lia) (or_intror (conj budget_shrinks (conj Hn Hf)))).
  destruct (ExecuteInstructions fuel n k) as [k'|f]; [|exact Y]. destruct Y as (Y & Hb' & Ht). split; [by apply Ht; [apply budget_shrinks| |]|]. split; [|done].
  apply Y. cbn. lia.
Qed.

(** C7: A run keeps the sizes of the register files, 32-bit registers, one-bit flags and a mode of five bits, and it reads neither a component of another instruction nor a place of the translation buffer that holds none.  The one variable it may read that was never set is the label of a word that does not decode, and only when memory holds such a word. *)
Theorem interpreter_keeps_type fuel n k :
  (forall b a m f, bus_read b a m = Stop f -> f ≠ FUninitialized /\ f ≠ FUndecoded) ->
  (forall b a d m f, bus_write b a d m = Stop f -> f ≠ FUninitialized /\ f ≠ FUndecoded) ->
  (forall i k, match CallSVC i k with Done k' => keeps_type (state k) (state k') /\ same_cache k k' | Stop f => f ≠ FUninitialized /\ f ≠ FUndecoded end) ->
  fuel ≠ O -> blocked keeps_type k -> wf (state k) ->
  match ExecuteInstructions fuel n k with
  | Done k' => wf (state k') /\ blocked keeps_type k'
  | Stop f => f ≠ FUninitialized /\
      (f = FUndecoded -> exists t addr a m w m', bus_read 4 a m = Done (w, m') /\ translate_word t addr w = Stop FUndecoded)
  end.
Proof.
  intros Hr Hw Hs Hf Hb Hk.
  set (P := fun f => f ≠ FUninitialized /\ (f = FUndecoded -> exists t addr a m w m', bus_read 4 a m = Done (w, m') /\ translate_word t addr w = Stop FUndecoded)).
  assert (F : Faults (M:=M) P).
  { constructor; [by split|intros b a m f E; destruct (Hr b a m f E); by split|intros b a d m f E; destruct (Hw b a d m f E); by split]. }
  pose proof (execute_instructions_yields P keeps_type (respects_vfp P keeps_type)) as Y.
  specialize (Y ltac:(intros t addr a m w m' E; destruct (translate_word t addr w) as [[? x]|f] eqn:Et;
    [intros _ v s Ws; apply wf_set_Cpsr; [exact Ws|apply word_u32]|pose proof (translate_fault _ _ _ _ Et) as ->; split; [done|intros _; by exists t, addr, a, m, w, m']])).
  assert (Hsvc : forall i k, match CallSVC i k with Done k' => keeps_type (state k) (state k') /\ same_cache k k' | Stop f => P f end).
  { intros i k0. specialize (Hs i k0). destruct (CallSVC i k0) as [k1|f]; [exact Hs|]. destruct Hs as [H1 H2]. split; [exact H1|]. intros E. destruct (H2 E). }
  assert (Hff : P FFuel) by (split; discriminate).
  specialize (Y Hsvc fuel n k Hb Hf (or_introl Hff)).
  destruct (ExecuteInstructions fuel n k) as [k'|f]; [|exact Y]. destruct Y as (Y & Hb' & _). split; [|done]. by apply Y, wf_left.
Qed.

(** C12: A translated instruction other than SWI executes in any state without reading a component of another instruction and without end, and the step to the next instruction is the size of what the translator has allocated. *)
Theorem translated_instruction_executes t addr w n a s :
  (forall b x m, bus_read b x m ≠ Stop FUninitialized /\ bus_read b x m ≠ Stop FFuel) ->
  (forall b x d m, bus_write b x d m ≠ Stop FUninitialized /\ bus_write b x d m ≠ Stop FFuel) ->
  translate_word t addr w = Done (n, a) -> idx a ≠ i_swi ->
  execute a s ≠ Stop FUninitialized /\ execute a s ≠ Stop FFuel /\ sizeof (comp a) = increment (idx a) /\ n = (if t then 2 else 4).
Proof.
  intros Hr Hw Ht Hi. apply translate_word_proper in Ht as [Hn Hp].
  assert (F : Faults (M:=M) (fun f => f ≠ FUninitialized /\ f ≠ FFuel)).
  { constructor; [by split|intros b x m f E; destruct (Hr b x m); split; congruence|intros b x d m f E; destruct (Hw b x d m); split; congruence]. }
  pose proof (respects_execute _ anything (respects_vfp (fun f => f ≠ FUninitialized /\ f ≠ FFuel) anything) a ltac:(done) Hi Hp s) as Y.
  destruct (execute a s) as [r|f]; [split_and!; try done|destruct Y as [Y1 Y2]; split_and!; [congruence..| |done]]; apply fits_size, Hp.
Qed.

(** C8: Every word the decoder takes for one of the sixteen operations of data processing, in all forms of the shifter operand and with any destination, does in ARM code what the architecture says: operand and carry by shifting bit by bit, the result and the flags by exact arithmetic, the next instruction four bytes on.  A result for the program counter is where the run goes on; with the S bit the saved status register becomes the status register and its mode is entered, if the mode has one. *)
Theorem data_processing_as_architecture w o n s :
  word w -> arm_state s -> DecodeARMInstruction w = Some o -> dp_opcode o = Some n -> CondPassed (field w 28 4) s = true ->
  execute (arm_instruction_trans o w o) s = Done (data_processing w s).
Proof. apply data_processing_computes. Qed.

(** C39: In user mode RFE makes any word of memory the status register, its mode and masks included; whatever MSR of the current status register comes next, its mode, unless it is zero, is the mode of the processor after it. *)
Theorem rfe_escapes_user_mode inst f inst' s n s1 s2 :
  user s -> RFE_INST inst f s = Done (n, s1) -> MSR_INST 0 inst' s1 = Done (tt, s2) ->
  exists address s0 w m, get_addr f inst s = Done (address, s0) /\ user s0 /\ bus_read 4 address (memory s0) = Done (w, m) /\
    let v := u32 (if InBigEndianMode s0 then swap 4 w else w) in
    Cpsr s1 = v /\ Mode s1 = USER32MODE /\ (Z.land v 0x1F ≠ USERBANK -> Mode s2 = Z.land v 0x1F).
Proof.
  intros U E1 E2. unfold RFE_INST in E1. apply arm_bind_done in E1 as (address & s0 & Ea & E1).
  assert (F : Faults (M:=M) (fun _ => True)) by (by constructor).
  destruct (respects_done _ isolates _ _ _ _ (respects_get_addr (fun _ => True) isolates f inst) Ea U) as [U0 _].
  apply arm_bind_done in E1 as (x & sr & Er & E1). apply read_done in Er as (w & m & Er & -> & ->).
  apply arm_bind_done in E1 as (? & ? & [= <- <-] & E1). apply arm_bind_done in E1 as (pc & sp & Ep & E1). apply read_done in Ep as (w' & m' & _ & _ & ->).
  apply arm_bind_done in E1 as (? & sg & Eg & [= _ <-]). apply set_reg_keeps in Eg as (Kc & Km & Kt). cbn [Cpsr Mode TFlag set_memory set_Cpsr] in Kc, Km, Kt.
  exists address, s0, w, m. split_and!; [done..|]. cbv zeta. set (v := u32 _) in *. split; [exact Kc|]. destruct U0 as (Hm & _ & Ht). split; [by rewrite Km|]. intros Hv.
  apply arm_bind_done in E2 as (operand & so & Eo & E2). injection E2 as <-.
  assert (so = sg) as -> by (destruct (bit inst' 25); [by injection Eo|by apply get_reg_keeps in Eo]).
  change (Mode (msr_cpsr operand inst' sg) = Z.land v 0x1F). rewrite <- Kc. apply msr_enters; [by rewrite Km|by rewrite Kt|by rewrite Kc].
Qed.

(** C40: A mode that is left for another and entered again has its stack pointer, link register and saved status register back, whatever the other did to its own, and that one finds its own on its return; every other register stays as the mode that was left has left it, r8 to r12 of FIQ too. *)
Theorem mode_change_returns m1 m2 s r v :
  wf s -> Mode s = m1 -> m1 ∈ banked -> m2 ∈ banked ++ [FIQ32MODE] -> m1 ≠ m2 -> length r = 16%nat ->
  let s2 := worked r v (ChangePrivilegeMode m2 s) in
  let s3 := ChangePrivilegeMode m1 s2 in
  let s4 := ChangePrivilegeMode m2 s3 in
  (Mode s2 = m2 /\ Mode s3 = m1 /\ Mode s4 = m2) /\
  (reg s3 13 = reg s 13 /\ reg s3 14 = reg s 14 /\ (m1 ∈ exception -> Spsr_copy s3 = Spsr_copy s)) /\
  (reg s4 13 = reg s2 13 /\ reg s4 14 = reg s2 14 /\ (m2 ∈ exception ++ [FIQ32MODE] -> Spsr_copy s4 = v)) /\
  (forall i, 0 <= i < 16 -> i ≠ 13 -> i ≠ 14 -> reg s3 i = reg s2 i).
Proof. apply mode_returns. Qed.
End Runs.

(** ** Floating point *)

(** C9: In both precisions and all four rounding modes the sum of two finite numbers is the exact sum rounded once, with the sign the standard gives an exact zero.  With flush-to-zero plus zero stands for a denormal operand, and plus zero is the result when the exact sum is not zero but below the smallest normal number. *)
Theorem sum_correctly_rounded p n m fpscr :
  0 <= n < 2 ^ width p -> 0 <= m < 2 ^ width p -> finite p n = true -> finite p m = true ->
  (fadd p n m fpscr).1 =
  (let n := operand p fpscr n in let m := operand p fpscr m in
   let s := exact_sum (negative p n) (negative p m) (mantissa p n) (mantissa p m) (weight p n) (weight p m) in
   round_flushing p fpscr (sum_sign (rounding_of fpscr) (negative p n) (negative p m) s) (Z.abs s) 1 (Z.min (weight p n) (weight p m))).
Proof. apply ArmFa.fadd_rounds. Qed.

(** C10: In both precisions and all four rounding modes the product of two finite numbers, negated or not, is the exact product rounded once, overflow and denormal results included.  With flush-to-zero plus zero stands for a denormal operand, and plus zero is the result when the exact product is not zero but below the smallest normal number. *)
Theorem product_correctly_rounded p negate n m fpscr :
  0 <= n < 2 ^ width p -> 0 <= m < 2 ^ width p -> finite p n = true -> finite p m = true ->
  (fmul p negate n m fpscr).1 =
  (let n := operand p fpscr n in let m := operand p fpscr m in
   round_flushing p fpscr (xorb (xorb (negative p n) (negative p m)) negate) (mantissa p n * mantissa p m) 1 (weight p n + weight p m)).
Proof. apply ArmFm.fmul_rounds. Qed.

(** C11: In both precisions and all four rounding modes the loops of a division of two finite numbers end.  The quotient is the exact quotient rounded once; a number divided by zero is infinity with the sign of the quotient, and zero by zero the default NaN.  With flush-to-zero plus zero stands for a denormal operand, a divisor too, and plus zero is the result when the exact quotient is not zero but below the smallest normal number. *)
Theorem quotient_correctly_rounded p n m fpscr :
  0 <= n < 2 ^ width p -> 0 <= m < 2 ^ width p -> finite p n = true -> finite p m = true ->
  exists e, fdiv p n m fpscr = Done (exact_quotient p fpscr (operand p fpscr n) (operand p fpscr m), e).
Proof. apply ArmFd.fdiv_rounds. Qed.

(** ** Witnesses *)

Lemma user_mode_isolated_witness :
  exists k', ExecuteInstructions 10 6 (core_at 0x1000 0) = Done k' /\ user (state k') /\ same_privileged (state (core_at 0x1000 0)) (state k') /\ blocked isolates k'.
Proof.
  eexists. split; [vm_compute; reflexivity|]. apply (user_mode_isolated 10 6 (core_at 0x1000 0)).
  - intros t addr a m w m' E. apply (code_checked (fun o => match o with Done (_, x) => match idx x with i_rfe => false | _ => true end | Stop _ => true end)) with (t := t) (addr := addr) in E; [|vm_compute; reflexivity].
    destruct (translate_word t addr w) as [[? x]|]; [|exact Logic.I]. intros Ex. rewrite Ex in E. discriminate E.
  - intros i k k' [= <-]. split; [intros U; split; [exact U|apply same_refl]|apply same_cache_refl; reflexivity].
  - discriminate.
  - intros pc p E. discriminate E.
  - split; [reflexivity|]. split; [reflexivity|by left].
  - vm_compute. reflexivity.
Defined.

Lemma interpreter_ends_witness :
  match ExecuteInstructions 10 6 (core_at 0x1000 0) with
  | Done k' => ticks k' <= 0 + (1 + 3) * 6 /\ 0 <= NumInstrsToExecute (state k') <= 6 /\ blocked budget k'
  | Stop f => f ≠ FFuel
  end.
Proof.
  apply (interpreter_ends 10 6 3 (core_at 0x1000 0)).
  - discriminate.
  - discriminate.
  - intros i k. split; [apply budget_same; reflexivity|apply same_cache_refl; reflexivity].
  - split; [lia|]. intros i k k' [= <-]. cbn. lia.
  - lia.
  - lia.
  - intros pc p E. discriminate E.
Defined.

Lemma interpreter_keeps_type_witness :
  match ExecuteInstructions 10 6 (core_at 0x1000 0) with
  | Done k' => wf (state k') /\ blocked keeps_type k'
  | Stop f => f ≠ FUninitialized /\
      (f = FUndecoded -> exists t addr a m w m', bus_read 4 a m = Done (w, m') /\ translate_word t addr w = Stop FUndecoded)
  end.
Proof.
  apply (interpreter_keeps_type 10 6 (core_at 0x1000 0)).
  - discriminate.
  - discriminate.
  - intros i k. split; [intros W; exact W|apply same_cache_refl; reflexivity].
  - discriminate.
  - intros pc p E. discriminate E.
  - apply start_wf; unfold word; lia.
Defined.

Lemma translated_instruction_executes_witness :
  exists a, translate_word false 0 0xE0901080 = Done (4, a) /\
    execute a (start 0x1000 0) ≠ Stop FUninitialized /\ execute a (start 0x1000 0) ≠ Stop FFuel /\ sizeof (comp a) = increment (idx a) /\ 4 = 4.
Proof.
  eexists. split; [vm_compute; reflexivity|].
  apply (translated_instruction_executes false 0 0xE0901080 4); [intros; split; discriminate..|vm_compute; reflexivity|discriminate].
Defined.

(** ADDS r1, r0, r0, LSL #1 and ADD pc, r0, #4. *)
Lemma data_processing_as_architecture_witness :
  reg (data_processing 0xE0901080 (start 0x1000 0x80000005)).2 1 = 0x8000000F /\ CFlag (data_processing 0xE0901080 (start 0x1000 0x80000005)).2 = 0 /\
  execute (arm_instruction_trans i_add 0xE0901080 i_add) (start 0x1000 0x80000005) = Done (data_processing 0xE0901080 (start 0x1000 0x80000005)) /\
  (data_processing 0xE280F004 (start 0x1000 0x2000)).1 = Dispatch /\ reg (data_processing 0xE280F004 (start 0x1000 0x2000)).2 15 = 0x2004 /\
  execute (arm_instruction_trans i_add 0xE280F004 i_add) (start 0x1000 0x2000) = Done (data_processing 0xE280F004 (start 0x1000 0x2000)).
Proof.
  assert (A : forall r0, word r0 -> arm_state (start 0x1000 r0)) by (intros r0 Hr; split; [apply start_wf; [unfold word; lia|exact Hr]|split; reflexivity]).
  split; [vm_compute; reflexivity|]. split; [vm_compute; reflexivity|]. split.
  - apply (data_processing_as_architecture 0xE0901080 i_add 4); [unfold word; lia|apply A; unfold word; lia|vm_compute; reflexivity|reflexivity|vm_compute; reflexivity].
  - split; [vm_compute; reflexivity|]. split; [vm_compute; reflexivity|].
    apply (data_processing_as_architecture 0xE280F004 i_add 4); [unfold word; lia|apply A; unfold word; lia|vm_compute; reflexivity|reflexivity|vm_compute; reflexivity].
Defined.

Lemma rfe_escapes_user_mode_witness :
  exists s1 s2, RFE_INST (H := rom escape) 0xF8900A00 (GetAddressingOp 0xF8900A00) (start 0x3000 0x2000) = Done (Dispatch, s1) /\
    MSR_INST 0 0xE328F000 s1 = Done (tt, s2) /\ Cpsr s1 = 0x13 /\ Mode s1 = USER32MODE /\ Mode s2 = SVC32MODE.
Proof.
  eexists _, _. split; [vm_compute; reflexivity|]. split; [vm_compute; reflexivity|]. split; [reflexivity|].
  edestruct (rfe_escapes_user_mode (H := rom escape) 0xF8900A00 (GetAddressingOp 0xF8900A00) 0xE328F000 (start 0x3000 0x2000)) as (address & s0 & w & m & _ & _ & _ & Ec & Em & E2);
    [split; [reflexivity|]; split; [reflexivity|by left]|vm_compute; reflexivity|vm_compute; reflexivity|].
  cbv zeta in *. rewrite <- Ec in E2. split; [exact Em|]. apply E2. vm_compute. discriminate.
Defined.

(** A word that is no instruction stops a run. *)
Lemma undecoded_word_stops : @ExecuteInstructions log (rom (fun _ => 0xE30000F0)) vfp_unit svc 10 1 (core_at 0x1000 0) = Stop FUndecoded.
Proof. vm_compute. reflexivity. Qed.

Lemma mode_change_returns_witness :
  reg (ChangePrivilegeMode USER32MODE (worked (replicate 16 7) 1 (ChangePrivilegeMode FIQ32MODE (start 0x1000 5)))) 8 = 7 /\
  reg (ChangePrivilegeMode USER32MODE (worked (replicate 16 7) 1 (ChangePrivilegeMode FIQ32MODE (start 0x1000 5)))) 13 = 0.
Proof.
  destruct (mode_change_returns USER32MODE FIQ32MODE (start 0x1000 5) (replicate 16 7) 1) as (_ & (H13 & _) & _ & H8).
  - apply start_wf; unfold word; lia.
  - reflexivity.
  - left.
  - by repeat first [left | right].
  - discriminate.
  - reflexivity.
  - split; [|exact H13]. apply H8; lia.
Defined.

(** Rounding to nearest, and the mode a thread starts with: flush-to-zero and rounding towards zero. *)
Lemma sum_correctly_rounded_witness : (fadd single 0x3f800000 0x33800001 0).1 = 0x3f800001 /\ (fadd single 0x00800001 0x80800000 0x3c00000).1 = 0.
Proof.
  split.
  - etransitivity; [apply (sum_correctly_rounded single 0x3f800000 0x33800001 0); [cbn; lia|cbn; lia|reflexivity|reflexivity]|vm_compute; reflexivity].
  - etransitivity; [apply (sum_correctly_rounded single 0x00800001 0x80800000 0x3c00000); [cbn; lia|cbn; lia|reflexivity|reflexivity]|vm_compute; reflexivity].
Defined.
Lemma product_correctly_rounded_witness :
  (fmul double false 0x3fb999999999999a 0x4024000000000000 0).1 = 0x3ff0000000000000 /\ (fmul single false 0x80000001 0x3f800000 0x3c00000).1 = 0.
Proof.
  split.
  - etransitivity; [apply (product_correctly_rounded double false 0x3fb999999999999a 0x4024000000000000 0); [cbn; lia|cbn; lia|reflexivity|reflexivity]|vm_compute; reflexivity].
  - etransitivity; [apply (product_correctly_rounded single false 0x80000001 0x3f800000 0x3c00000); [cbn; lia|cbn; lia|reflexivity|reflexivity]|vm_compute; reflexivity].
Defined.
Lemma quotient_correctly_rounded_witness :
  (exists e, fdiv double 0x3ff0000000000000 0x4008000000000000 0 = Done (0x3fd5555555555555, e)) /\
  (exists e, fdiv single 0x3f800000 0x80000001 0x3c00000 = Done (0x7f800000, e)).
Proof.
  split.
  - destruct (quotient_correctly_rounded double 0x3ff0000000000000 0x4008000000000000 0) as [e E]; [cbn; lia|cbn; lia|reflexivity|reflexivity|].
    exists e. rewrite E. vm_compute. reflexivity.
  - destruct (quotient_correctly_rounded single 0x3f800000 0x80000001 0x3c00000) as [e E]; [cbn; lia|cbn; lia|reflexivity|reflexivity|].
    exists e. rewrite E. vm_compute. reflexivity.
Defined.

End ArmTh.
